(* ===== verification/_CoqProject ===== *)
-Q . S2P
Prelude.v
Flags.v
Limits.v
Mwc.v
Tree.v
TreeProofs.v
AvlProofs.v
TreeBsd.v
Float.v
CString.v
VmState.v
VmMethods.v
VmTame.v
VmLogic.v
Mincore.v
VmProofs.v
VmPatterns.v
VmSwap.v
VmBits.v
VmPrime.v
VmAll.v
VmFaults.v
VmDriver.v
Cpu.v
CpuProofs.v
CpuPrimes.v
CpuSpec.v
CpuChecks.v
CpuSelf.v
CpuFloat.v
FloatChecks.v
Helpers.v
Outcome.v
ParseOpts.v
Affinity.v
Priority.v
Settings.v
Procs.v
Tables.v
MethodsError.v
Setters.v
Named.v
Getopt.v
Help.v
Choices.v
OptionsOk.v
SgxUtils.v
EnclaveVm.v
CpuTable.v
CpuDriver.v
Matrix.v
StrStress.v
ZlibData.v
Zlib.v
ZlibProofs.v
SortSearch.v
SearchProofs.v
EnclaveCpu.v
Job.v
ProcOps.v
ProcProofs.v
Parser.v
CpuCache.v
ParserProofs.v
Run.v
Report.v
Support.v
Signals.v
TempFiles.v
FileNames.v
DirDeep.v
Log.v
Thermal.v
Perf.v
Tuning.v
RunProofs.v
JobOpts.v
Main.v
Session.v
EndToEnd.v
