(* ===== verification/Prelude.v ===== *)
(** * Stress-SGX: a verification development

    Stress-SGX is stress-ng with stressors that run inside SGX enclaves.  The
    program reads options and job files, builds a list of stressors, runs their
    instances as processes, and makes its exit status from theirs.  A stressor
    exercises one part of the machine; those for the memory and the processor
    also check what they exercise, and report the errors they find.

    ** The parts and how they interact

    - [main()] (stress-ng.c) parses the options and the job file.  Each option of
      a stressor goes through a setter (stress-*.c), which parses the argument
      (parse-opts.c), checks its range and stores it (setting.c); naming a stressor
      appends to the stressor list (stress-ng.c).
    - The list is thinned out by the exclusions, or filled at random with numbers
      of the generator (mwc.c), and its elements get their process and statistics
      slots.
    - The instances are forked round robin; each runs the function of its stressor,
      which first reads its settings back.  The parent waits for them and judges
      their exit status.
    - The memory stressor (stress-vm.c) forks a child that maps a buffer, touches
      its pages (mincore.c) and runs one of 25 methods on it; the errors are
      counted in shared memory.  The CPU stressor (stress-cpu.c) runs one of its
      methods in a loop; the matrix, string, tree, sorting, searching and zlib
      stressors run data structures and library functions and check them; those of
      directories and file names fill a temporary directory and empty it again.
    - Around the run, the program turns the machine to full speed (ignite-cpu.c),
      keeps memory busy (thrash.c), finds the size of the cache (cache.c) and
      reads performance counters (perf.c) and thermal zones (thermal-zone.c); it
      logs (log.c) and reports the metrics.
    - The enclaves (sgx/) hold copies of both with entry points of their own;
      stress-sgx.c and stress-sgx-vm.c create and enter them (sgx/utils.c).

    ** Files

    Shared by all:
    - [Prelude]: integers of fixed width, bit operations, the tactic [zbits], the
      hint databases, lemmas on lists, the exit statuses.
    - [Outcome]: how a C call ends (return, longjmp, exit, undefined behaviour) as
      a monad; C strings, characters, the words of [strtok()].
    - [Limits], [Flags]: the limits and the option flags of stress-ng.h.

    Memory stressors (stress-vm.c, mincore.c):
    - [Mwc]: the generator of mwc.c and of the enclaves.
    - [VmState]: the memory device as a class [MemDevice], with sound memory
      ([ram], [Healthy]) and memory with stuck bits ([faulty]); the state of a
      stressor and the monad its code is written in.  What a stressor needs of
      its platform is the class [SoundPlatform].
    - [VmMethods]: one definition per method.  [VmLogic]: Hoare triples over the
      monad, which also show that no access leaves the buffer and that the loops
      end.  [VmTame]: nothing puts the alarm off.  [Mincore]: touching pages
      changes no byte, so the platform that touches pages is sound.
    - [VmProofs], [VmPatterns], [VmSwap], [VmBits], [VmPrime]: the methods on sound
      memory.  [VmAll]: the theorems on the whole table.  [VmFaults]: what is found
      on faulty memory, and the false alarms.
    - [VmDriver]: the loop of the child and [stress_vm()].

    CPU stressors (stress-cpu.c):
    - [Cpu]: the integer methods; [CpuProofs], [CpuPrimes], [CpuSpec]: what they
      compute; [CpuChecks], [CpuSelf]: their self checks.
    - [Float]: floating point numbers of a format, by rounding.  [CpuFloat]: the
      methods that use them, over an arithmetic that is an argument;
      [FloatChecks]: their self checks.  [CpuTable]: the table of all methods.
      [CpuDriver]: the loop over it and the load controller [stress_cpu()].

    Stressors of data structures and library functions:
    - [Tree]: the binary and AVL trees of stress-tree.c on a heap of nodes;
      [TreeProofs], [AvlProofs]: they implement search trees.  [TreeBsd]: its
      red-black and splay trees, over a class of the operations of libbsd.
    - [Matrix]: stress-matrix.c, each method in both orders of its loops.
    - [CString]: strings of bytes and the functions of string.h and wchar.h;
      [StrStress]: stress-str.c and stress-wcstr.c.
    - [SortSearch], [SearchProofs]: qsort, heapsort, mergesort, bsearch, lsearch,
      tsearch and hsearch.
    - [ZlibData], [Zlib], [ZlibProofs]: stress-zlib.c, the generators of its data and
      its two processes, over a class of the operations of zlib.

    Stressors of directories:
    - [TempFiles]: stress-dentry.c, stress-dir.c, stress-link.c and
      stress-rename.c over a map of paths, where any call may fail.  [FileNames]: stress-filename.c, with its
      buffer.  [DirDeep]: the tree of stress-dirdeep.c.

    Options:
    - [ParseOpts]: parse-opts.c.  [Settings]: setting.c, on a heap of list nodes.
    - [Tables]: the ids, the long options and the table of stressors (stress-ng.h,
      stress-ng.c).  [Getopt]: the options that [getopt_long()] finds with them.
      [Help]: the help texts of the options.
    - [Setters]: the numeric setters.  [Named]: the setters that take the name of a
      method, a list of flags or a network domain.  [Choices]: the value a stressor runs with,
      from its setting, the defaults and the flags.  [OptionsOk]: all together.
    - [Parser]: [parse_opts()], its [switch] as a table of actions, and the
      defaults.  [ParserProofs]: what it leaves for any command line, and for one
      that asks for stressors.  [JobOpts]: the parser called back for a job file.
    - [Affinity]: affinity.c.  [Priority]: sched.c, io-priority.c, out-of-memory.c.
      [Helpers]: the queries and probes of helper.c.  [Job]: job.c.

    Enclaves (sgx/, stress-sgx.c, stress-sgx-vm.c):
    - [MethodsError]: the message with the names of the methods.  [SgxUtils]: the
      launch token and the choice of a method.  [EnclaveVm], [EnclaveCpu]: the
      trusted copies, the entry points, the stressors outside.

    Running (stress-ng.c):
    - [Procs]: the doubly linked list on its heap, refined to a list.  [ProcOps],
      [ProcProofs]: selection and set-up.  [Run], [RunProofs]: starting, waiting,
      exit status.  [Main]: [main()] up to the start, composed of all of these.
      [Signals]: the handlers of signals, what signals do without one, and limit.c.  [Session]: the child of
      [stress_run()], the aggressive mode, and [main()] to its end.
      [EndToEnd]: from the memory to the exit status.
    - [Support]: names of temporary files, sizes as text, capabilities and the rest of
      helper.c.
    - [Report]: the metrics and the times.  [Log]: log.c.  [Thermal]: thermal-zone.c.
      [Perf]: perf.c.  [Tuning]: ignite-cpu.c and thrash.c.  [CpuCache]: cache.c.

    ** What the theorems show

    - No false alarm: on sound memory, with buffers of the sizes said there, no method reports an
      error in a pass that is not cut short ([vm_methods_sound]); 20 of the 25 do not however they are
      interrupted ([vm_methods_interruptible]), and with these neither do the driver, the enclave
      and, in [EndToEnd], the program ([stress_vm_no_false_alarm], [stress_sgx_vm_no_false_alarm],
      [sound_memory_exit_status]).  The five others, and so the default "all", can raise a false alarm when they are interrupted, and
      prime-0 does for some sizes ([prime_zero_false_alarm]).
    - Detection: stuck bits are counted exactly by zero-one, and what it finds in a pass reaches the exit
      status ([zero_one_counts_stuck_bits], [walking_data_detects],
      [fault_reaches_exit_status]).
    - Termination: the loops of the stressors end once the alarm comes
      ([stress_vm_child_ends], [stress_rounds_gives_up], [stress_cpu_ends]).
    - Options: what is stored has the type under which it is read
      ([settings_well_typed]), reaches the stressor under the name that it reads, but for two
      options ([option_reaches_stressor]), and but for three the value it runs with is
      in the range that the option has ([chosen_within_limits]), for every command line the parser
      accepts ([command_line_within_limits]); parsers, lists of processors,
      priorities and job files are read as they are written.
    - Command line: every option has a handler that finds its argument
      ([every_option_served]); the list is valid whatever is given
      ([parsed_list_valid]), and holds what was asked for ([workers_as_asked]), also
      from a job file ([jobfile_as_command_line]); then these processes are started, each
      with a slot of its own ([command_line_starts]).  [--all] misses a stressor ([all_is_not_all]).
    - Data structures: the settings and the stressor list implement lists
      ([settings_refine], [procs_list_refines]).
    - Processes: every child is recorded, every instance is started, every status
      is collected and judged ([every_child_recorded], [every_instance_started],
      [exit_status_tells]); a child does its steps in order ([child_lifecycle]) and
      signals end it with the right status ([signals_end_child]); however the run
      goes every process created is waited for until its status is known ([run_leaves_no_child]), and the exit status of
      [main()] is the one these statuses call for ([command_line_exit_status]).
    - Arithmetic: the self checks of 28 methods hold ([cpu_self_checks_hold],
      [cpu_table_checks_hold]), the methods are run as often as asked ([stress_cpu_ends], [stress_sgx_runs]), and the integer methods compute what they are named
      after.  Both orders of a matrix method agree ([matrix_orders_agree]).
    - Stressors of data structures: a tree holds what was inserted and finds it
      ([stress_tree_finds], [bsd_methods_find]); the checks of the string, sorting and searching
      stressors pass with a library that does what it documents ([strings_pass],
      [sorting_passes], [searching_passes]) and the sorting ones fail with one that
      does not ([sorting_faults_found]).  Data that are deflated and inflated have
      the same sum ([zlib_no_false_alarm]); damaged data make the stressor wait
      for ever ([zlib_data_error_blocks]).
    - Directories: whatever calls fail the stressors end, and when the calls that remove do not fail what was created is removed
      ([directories_tidied], [dentries_tidied], [renames_tidied], [dirdeep_tidied]), with
      two exceptions ([dentry_stride_leaves], [rename_never_ends]) and what failing removals leave ([removal_failure_leaves],
      [tidy_failure_leaves]); names are within
      what the file system accepts ([filename_no_false_alarm]) but may overrun their
      buffer ([filename_overruns]).
    - Monitoring: counters are read once and closed ([perf_counters_read]), totals
      are taken from the first instances ([perf_totals_of_first]), zones are
      averaged over the instances ([thermal_averages]), the failures that end the
      run are counted ([failures_abort]), settings of the machine are put back when the
      writes that do so succeed ([ignite_restores]) and the shared buffer is within bounds
      ([cache_size_bounds]).  The help names the options ([help_matches_options]).

    ** Conventions, fuel and bounds

    A C integer is a [Z] reduced after each operation that can leave its range.
    Pointers into a buffer are offsets; list nodes live in finite maps.  What the
    operating system, the clock and the SGX library do is an argument: theorems
    hold for every behaviour, except where one is stated.  Loops without a bound
    in the code have fuel, and the theorems that they end give the fuel that is
    enough: the polls before the alarm for the drivers, the bits of a word for
    the loops over bits, the length of a path for trees of directories, the random draws until free places are found for the
    galloping patterns (for which it is a hypothesis that they are found).  Loops
    with a bound are structural.

    ** Not modelled

    The stressors that exercise system calls, beyond their options: nearly all of
    what they do is done by the kernel; the wrappers of system calls (shim.c, mmap.c,
    madvise.c, mlock.c) and the readers of /proc (mounts.c); the probes of the build; the
    SGX SDK.  zlib, the trees of libbsd and [getopt_long()] are not part of the
    sources: the first two are classes with the laws of their documentation, which instances
    show to be consistent, and [Getopt] follows the documentation of the third. *)

From Stdlib Require Export ZArith Lia Bool.
From Stdlib Require Import Btauto.
From stdpp Require Export base list list_numbers strings gmap relations.

#[global] Open Scope Z_scope.

(** ** Fixed-width integers

    A C integer of width [n] is a [Z]; every operation that can leave the
    range is followed by the conversion the C type performs. *)

Definition u8 (x : Z) : Z := x mod 2 ^ 8.
Definition u16 (x : Z) : Z := x mod 2 ^ 16.
Definition u32 (x : Z) : Z := x mod 2 ^ 32.
Definition u64 (x : Z) : Z := x mod 2 ^ 64.

(** conversion of an unsigned 32 bit value to [int] (two's complement) *)
Definition s32 (x : Z) : Z :=
  let y := u32 x in if y <? 2 ^ 31 then y else y - 2 ^ 32.
Definition s64 (x : Z) : Z := let y := u64 x in if y <? 2 ^ 63 then y else y - 2 ^ 64.

Declare Scope cword_scope.
Delimit Scope cword_scope with cword.
Infix ".&" := Z.land (at level 44, left associativity) : cword_scope.
Infix ".|" := Z.lor (at level 46, left associativity) : cword_scope.
Infix ".^" := Z.lxor (at level 45, left associativity) : cword_scope.
Infix "<<<" := Z.shiftl (at level 43, left associativity) : cword_scope.
Infix ">>>" := Z.shiftr (at level 43, left associativity) : cword_scope.
#[global] Open Scope cword_scope.

(** C truth values *)
Definition c_true (x : Z) : bool := negb (x =? 0).
Definition b2z (b : bool) : Z := if b then 1 else 0.

Lemma b2z_bounds b : 0 <= b2z b <= 1.
Proof. destruct b; simpl; lia. Qed.

(** [x] is representable as an unsigned integer of [n] bits *)
Definition fits (n x : Z) : Prop := 0 <= x < 2 ^ n.

Create HintDb cword.
Create Rewrite HintDb cword.
Create Rewrite HintDb zbits.

Lemma u8_fits x : fits 8 (u8 x).
Proof. apply Z.mod_pos_bound. lia. Qed.
Lemma u16_fits x : fits 16 (u16 x).
Proof. apply Z.mod_pos_bound. lia. Qed.
Lemma u32_fits x : fits 32 (u32 x).
Proof. apply Z.mod_pos_bound. lia. Qed.
Lemma u64_fits x : fits 64 (u64 x).
Proof. apply Z.mod_pos_bound. lia. Qed.

Lemma u8_small x : fits 8 x -> u8 x = x.
Proof. apply Z.mod_small. Qed.
Lemma u16_small x : fits 16 x -> u16 x = x.
Proof. apply Z.mod_small. Qed.
Lemma u32_small x : fits 32 x -> u32 x = x.
Proof. apply Z.mod_small. Qed.
Lemma u64_small x : fits 64 x -> u64 x = x.
Proof. apply Z.mod_small. Qed.

#[export] Hint Resolve u8_fits u16_fits u32_fits u64_fits : cword.
#[export] Hint Rewrite u8_small u16_small u32_small u64_small
  using (solve [eauto with cword]) : cword.

(** ** Bitwise reasoning *)

Lemma fits_testbit_high n x i : 0 <= n -> fits n x -> n <= i -> Z.testbit x i = false.
Proof.
  intros Hn Hx Hi. rewrite <- (Z.mod_small x (2 ^ n)) by exact Hx.
  apply Z.mod_pow2_bits_high. lia.
Qed.

(** a value whose bits from [n] on are clear fits in [n] bits *)
Lemma fits_of_bits n x :
  0 <= n -> 0 <= x -> (forall i, n <= i -> Z.testbit x i = false) -> fits n x.
Proof.
  intros Hn Hx Hb. split; [exact Hx|].
  assert (x = x mod 2 ^ n) as ->; [|apply Z.mod_pos_bound; lia].
  apply Z.bits_inj'. intros i Hi. destruct (Z.lt_ge_cases i n).
  - by rewrite Z.mod_pow2_bits_low.
  - by rewrite Z.mod_pow2_bits_high, Hb by lia.
Qed.

Lemma fits_land n x y : 0 <= n -> fits n x -> 0 <= y -> fits n (x .& y).
Proof.
  intros Hn Hx Hy. apply fits_of_bits; [done| |].
  - apply Z.land_nonneg. unfold fits in *; lia.
  - intros i Hi. by rewrite Z.land_spec, (fits_testbit_high n x).
Qed.

Lemma fits_lor n x y : 0 <= n -> fits n x -> fits n y -> fits n (x .| y).
Proof.
  intros Hn Hx Hy. apply fits_of_bits; [done| |].
  - apply Z.lor_nonneg. unfold fits in *; lia.
  - intros i Hi. by rewrite Z.lor_spec, !(fits_testbit_high n).
Qed.

Lemma fits_lxor n x y : 0 <= n -> fits n x -> fits n y -> fits n (x .^ y).
Proof.
  intros Hn Hx Hy. apply fits_of_bits; [done| |].
  - apply Z.lxor_nonneg. unfold fits in *; lia.
  - intros i Hi. by rewrite Z.lxor_spec, !(fits_testbit_high n).
Qed.

Lemma fits_shiftr n x k : 0 <= n -> 0 <= k -> fits n x -> fits n (x >>> k).
Proof.
  intros Hn Hk [Hx Hx']. rewrite Z.shiftr_div_pow2 by done. split.
  - apply Z.div_pos; lia.
  - apply Z.le_lt_trans with x; [|done]. apply Z.div_le_upper_bound; [lia|].
    nia.
Qed.

#[export] Hint Extern 1 (0 <= _) => lia : cword.
#[export] Hint Resolve fits_land fits_lor fits_lxor fits_shiftr : cword.

(** complement within the type's width: [~x] converted back to [n] bits *)
Definition not8 (x : Z) : Z := u8 (Z.lnot x).
Definition not32 (x : Z) : Z := u32 (Z.lnot x).
Definition not64 (x : Z) : Z := u64 (Z.lnot x).

Lemma mod_pow2_testbit n x i :
  0 <= n -> 0 <= i -> Z.testbit (x mod 2 ^ n) i = (i <? n) && Z.testbit x i.
Proof.
  intros. destruct (Z.ltb_spec i n); simpl.
  - by rewrite Z.mod_pow2_bits_low.
  - by rewrite Z.mod_pow2_bits_high by lia.
Qed.

Lemma shiftl_testbit x k i :
  0 <= i -> Z.testbit (x <<< k) i = (k <=? i) && Z.testbit x (i - k).
Proof.
  intros. rewrite Z.shiftl_spec by done.
  destruct (Z.leb_spec k i); [done|]. by rewrite Z.testbit_neg_r by lia.
Qed.

#[export] Hint Rewrite Z.land_spec Z.lor_spec Z.lxor_spec mod_pow2_testbit
  shiftl_testbit Z.shiftr_spec Z.lnot_spec Z.ldiff_spec using lia : zbits.

(** [zbits] proves an equation of [Z]s bit by bit *)
Ltac zbits :=
  apply Z.bits_inj'; let i := fresh "i" in let Hi := fresh "Hi" in
  intros i Hi; unfold u8, u16, u32, u64, not8, not32, not64 in *;
  autorewrite with zbits; try btauto.

Lemma land_1 x : x .& 1 = b2z (Z.odd x).
Proof.
  change (x .& Z.ones 1 = b2z (Z.odd x)). rewrite Z.land_ones by done. apply Zmod_odd.
Qed.

Lemma s32_small z : - 2 ^ 31 <= z < 2 ^ 31 -> s32 z = z.
Proof.
  intros Hz. unfold s32, u32. destruct (Z.lt_ge_cases z 0).
  - rewrite <- (Z.mod_add z 1) by lia. rewrite Z.mod_small by lia.
    destruct (Z.ltb_spec (z + 1 * 2 ^ 32) (2 ^ 31)); lia.
  - rewrite Z.mod_small by lia. destruct (Z.ltb_spec z (2 ^ 31)); lia.
Qed.

Lemma s64_small z : - 2 ^ 63 <= z < 2 ^ 63 -> s64 z = z.
Proof.
  intros Hz. unfold s64, u64. destruct (Z.lt_ge_cases z 0).
  - rewrite <- (Z.mod_add z 1) by lia. rewrite Z.mod_small by lia.
    destruct (Z.ltb_spec (z + 1 * 2 ^ 64) (2 ^ 63)); lia.
  - rewrite Z.mod_small by lia. destruct (Z.ltb_spec z (2 ^ 63)); lia.
Qed.

(** ** Prefixes of a list *)

Fixpoint take_while {A} (f : A -> bool) (l : list A) : list A :=
  match l with [] => [] | x :: l => if f x then x :: take_while f l else [] end.
Fixpoint drop_while {A} (f : A -> bool) (l : list A) : list A :=
  match l with [] => [] | x :: r => if f x then drop_while f r else l end.

Lemma take_drop_while {A} (f : A -> bool) l : take_while f l ++ drop_while f l = l.
Proof. induction l as [|x l IH]; simpl; [done|]. destruct (f x); simpl; by rewrite ?IH. Qed.

Lemma take_while_app {A} (f : A -> bool) l l' :
  Forall (fun x => f x = true) l -> take_while f (l ++ l') = l ++ take_while f l'.
Proof. induction 1 as [|x l Hx _ IH]; simpl; [done|]. by rewrite Hx, IH. Qed.

Lemma drop_while_app {A} (f : A -> bool) l l' :
  Forall (fun x => f x = true) l -> drop_while f (l ++ l') = drop_while f l'.
Proof. induction 1 as [|x l Hx _ IH]; simpl; [done|]. by rewrite Hx, IH. Qed.

(** ** Strings *)

Lemma substring_all n text : (String.length text <= n)%nat -> String.substring 0 n text = text.
Proof. revert n. induction text as [|c text IH]; intros [|n] H; cbn in *; try done; [lia|]. rewrite IH by lia. done. Qed.

(** ** What a stressor, or the program, returns *)

Definition EXIT_SUCCESS : Z := 0.
Definition EXIT_FAILURE : Z := 1.
Definition EXIT_NOT_SUCCESS : Z := 2.
Definition EXIT_NO_RESOURCE : Z := 3.
Definition EXIT_NOT_IMPLEMENTED : Z := 4.
Definition EXIT_SIGNALED : Z := 5.
