(* ===== verification/Flags.v ===== *)
(** * Option flags and stressor classes (stress-ng.h)

    The bits of [g_opt_flags] and of the classes of a stressor. *)

From S2P Require Import Prelude.

Definition PR_ERROR : Z := 0x1.
Definition PR_INFO : Z := 0x2.
Definition PR_DEBUG : Z := 0x4.
Definition PR_FAIL : Z := 0x8.
Definition PR_ALL : Z := PR_ERROR .| PR_INFO .| PR_DEBUG .| PR_FAIL.
Definition OPT_FLAGS_AFFINITY_RAND : Z := 0x10.
Definition OPT_FLAGS_DRY_RUN : Z := 0x20.
Definition OPT_FLAGS_METRICS : Z := 0x40.
Definition OPT_FLAGS_VM_KEEP : Z := 0x80.
Definition OPT_FLAGS_RANDOM : Z := 0x100.
Definition OPT_FLAGS_SET : Z := 0x200.
Definition OPT_FLAGS_KEEP_NAME : Z := 0x400.
Definition OPT_FLAGS_UTIME_FSYNC : Z := 0x800.
Definition OPT_FLAGS_METRICS_BRIEF : Z := 0x1000.
Definition OPT_FLAGS_VERIFY : Z := 0x2000.
Definition OPT_FLAGS_MMAP_MADVISE : Z := 0x4000.
Definition OPT_FLAGS_MMAP_MINCORE : Z := 0x8000.
Definition OPT_FLAGS_TIMES : Z := 0x10000.
Definition OPT_FLAGS_CACHE_PREFETCH : Z := 0x20000.
Definition OPT_FLAGS_CACHE_FLUSH : Z := 0x40000.
Definition OPT_FLAGS_CACHE_FENCE : Z := 0x80000.
Definition OPT_FLAGS_MMAP_FILE : Z := 0x100000.
Definition OPT_FLAGS_MMAP_ASYNC : Z := 0x200000.
Definition OPT_FLAGS_MMAP_MPROTECT : Z := 0x400000.
Definition OPT_FLAGS_LOCKF_NONBLK : Z := 0x800000.
Definition OPT_FLAGS_MINCORE_RAND : Z := 0x1000000.
Definition OPT_FLAGS_BRK_NOTOUCH : Z := 0x2000000.
Definition OPT_FLAGS_HDD_SYNC : Z := 0x4000000.
Definition OPT_FLAGS_HDD_DSYNC : Z := 0x8000000.
Definition OPT_FLAGS_HDD_DIRECT : Z := 0x10000000.
Definition OPT_FLAGS_HDD_NOATIME : Z := 0x20000000.
Definition OPT_FLAGS_STACK_FILL : Z := 0x40000000.
Definition OPT_FLAGS_MINIMIZE : Z := 0x80000000.
Definition OPT_FLAGS_MAXIMIZE : Z := 0x100000000.
Definition OPT_FLAGS_SYSLOG : Z := 0x200000000.
Definition OPT_FLAGS_AGGRESSIVE : Z := 0x400000000.
Definition OPT_FLAGS_TIMER_RAND : Z := 0x800000000.
Definition OPT_FLAGS_TIMERFD_RAND : Z := 0x1000000000.
Definition OPT_FLAGS_ALL : Z := 0x2000000000.
Definition OPT_FLAGS_SEQUENTIAL : Z := 0x4000000000.
Definition OPT_FLAGS_PERF_STATS : Z := 0x8000000000.
Definition OPT_FLAGS_LOG_BRIEF : Z := 0x10000000000.
Definition OPT_FLAGS_THERMAL_ZONES : Z := 0x20000000000.
Definition OPT_FLAGS_TIMER_SLACK : Z := 0x40000000000.
Definition OPT_FLAGS_SOCKET_NODELAY : Z := 0x80000000000.
Definition OPT_FLAGS_UDP_LITE : Z := 0x100000000000.
Definition OPT_FLAGS_SEEK_PUNCH : Z := 0x200000000000.
Definition OPT_FLAGS_CACHE_NOAFF : Z := 0x400000000000.
Definition OPT_FLAGS_IGNITE_CPU : Z := 0x800000000000.
Definition OPT_FLAGS_PATHOLOGICAL : Z := 0x1000000000000.
Definition OPT_FLAGS_NO_RAND_SEED : Z := 0x2000000000000.
Definition OPT_FLAGS_THRASH : Z := 0x4000000000000.
Definition OPT_FLAGS_OOMABLE : Z := 0x8000000000000.
Definition OPT_FLAGS_ABORT : Z := 0x10000000000000.
Definition OPT_FLAGS_CPU_ONLINE_ALL : Z := 0x20000000000000.
Definition OPT_FLAGS_SGX_VM_KEEP : Z := 0x40000000000000.
Definition OPT_FLAGS_CACHE_MASK : Z := OPT_FLAGS_CACHE_FLUSH .| OPT_FLAGS_CACHE_FENCE .| OPT_FLAGS_CACHE_PREFETCH.
Definition OPT_FLAGS_MINMAX_MASK : Z := OPT_FLAGS_MINIMIZE .| OPT_FLAGS_MAXIMIZE.
Definition OPT_FLAGS_AGGRESSIVE_MASK : Z := 
  OPT_FLAGS_AFFINITY_RAND .| OPT_FLAGS_UTIME_FSYNC .| OPT_FLAGS_MMAP_MADVISE
   .| OPT_FLAGS_MMAP_MINCORE .| OPT_FLAGS_CACHE_FLUSH .| OPT_FLAGS_CACHE_FENCE
   .| OPT_FLAGS_MMAP_FILE .| OPT_FLAGS_MMAP_ASYNC .| OPT_FLAGS_MMAP_MPROTECT
   .| OPT_FLAGS_LOCKF_NONBLK .| OPT_FLAGS_MINCORE_RAND .| OPT_FLAGS_HDD_SYNC
   .| OPT_FLAGS_HDD_DSYNC .| OPT_FLAGS_HDD_DIRECT .| OPT_FLAGS_STACK_FILL
   .| OPT_FLAGS_CACHE_PREFETCH .| OPT_FLAGS_AGGRESSIVE .| OPT_FLAGS_IGNITE_CPU.
Definition CLASS_CPU : Z := 0x1.
Definition CLASS_MEMORY : Z := 0x2.
Definition CLASS_CPU_CACHE : Z := 0x4.
Definition CLASS_IO : Z := 0x8.
Definition CLASS_NETWORK : Z := 0x10.
Definition CLASS_SCHEDULER : Z := 0x20.
Definition CLASS_VM : Z := 0x40.
Definition CLASS_INTERRUPT : Z := 0x80.
Definition CLASS_OS : Z := 0x100.
Definition CLASS_PIPE_IO : Z := 0x200.
Definition CLASS_FILESYSTEM : Z := 0x400.
Definition CLASS_DEV : Z := 0x800.
Definition CLASS_SECURITY : Z := 0x1000.
Definition CLASS_PATHOLOGICAL : Z := 0x2000.
