(* ===== verification/Limits.v ===== *)
(** * The limits of the options (stress-ng.h)

    The sizes, the smallest, the largest and the default value of the options
    that take a number, as a 64 bit build defines them. *)

From S2P Require Import Prelude.

Definition KB : Z := 1 <<< 10.
Definition MB : Z := 1 <<< 20.
Definition GB : Z := 1 <<< 30.
Definition MAX_32 : Z := 4294967295.
Definition MAX_48 : Z := 281474976710655.
Definition MAX_MEM_LIMIT : Z := MAX_48.
Definition MIN_AIO_REQUESTS : Z := 1.
Definition MAX_AIO_REQUESTS : Z := 4096.
Definition DEFAULT_AIO_REQUESTS : Z := 16.
Definition MIN_AIO_LINUX_REQUESTS : Z := 1.
Definition MAX_AIO_LINUX_REQUESTS : Z := 4096.
Definition DEFAULT_AIO_LINUX_REQUESTS : Z := 64.
Definition MIN_BIGHEAP_GROWTH : Z := 4 * KB.
Definition MAX_BIGHEAP_GROWTH : Z := 64 * MB.
Definition DEFAULT_BIGHEAP_GROWTH : Z := 64 * KB.
Definition MIN_BSEARCH_SIZE : Z := 1 * KB.
Definition MAX_BSEARCH_SIZE : Z := 4 * MB.
Definition DEFAULT_BSEARCH_SIZE : Z := 64 * KB.
Definition MIN_CHDIR_DIRS : Z := 64.
Definition MAX_CHDIR_DIRS : Z := 65536.
Definition MIN_COPY_FILE_BYTES : Z := 128 * MB.
Definition MAX_COPY_FILE_BYTES : Z := 256 * GB.
Definition DEFAULT_COPY_FILE_BYTES : Z := 256 * MB.
Definition DEFAULT_COPY_FILE_SIZE : Z := 2 * MB.
Definition MIN_DCCP_PORT : Z := 1024.
Definition MAX_DCCP_PORT : Z := 65535.
Definition MIN_DENTRIES : Z := 1.
Definition MAX_DENTRIES : Z := 1000000.
Definition DEFAULT_DENTRIES : Z := 2048.
Definition MIN_DIR_DIRS : Z := 64.
Definition MAX_DIR_DIRS : Z := 65536.
Definition MIN_EPOLL_PORT : Z := 1024.
Definition MAX_EPOLL_PORT : Z := 65535.
Definition MIN_HDD_BYTES : Z := 1 * MB.
Definition MAX_HDD_BYTES : Z := 256 * GB.
Definition DEFAULT_HDD_BYTES : Z := 1 * GB.
Definition MIN_HDD_WRITE_SIZE : Z := 1.
Definition MAX_HDD_WRITE_SIZE : Z := 4 * MB.
Definition DEFAULT_HDD_WRITE_SIZE : Z := 64 * 1024.
Definition MIN_FALLOCATE_BYTES : Z := 1 * MB.
Definition MAX_FALLOCATE_BYTES : Z := 4 * GB.
Definition DEFAULT_FALLOCATE_BYTES : Z := 1 * GB.
Definition MIN_FIEMAP_SIZE : Z := 1 * MB.
Definition MAX_FIEMAP_SIZE : Z := 256 * GB.
Definition DEFAULT_FIEMAP_SIZE : Z := 16 * MB.
Definition MIN_FIFO_READERS : Z := 1.
Definition MAX_FIFO_READERS : Z := 64.
Definition DEFAULT_FIFO_READERS : Z := 4.
Definition MIN_ITIMER_FREQ : Z := 1.
Definition MAX_ITIMER_FREQ : Z := 100000000.
Definition MIN_MQ_SIZE : Z := 1.
Definition MAX_MQ_SIZE : Z := 32.
Definition DEFAULT_MQ_SIZE : Z := 10.
Definition MIN_SEMAPHORE_PROCS : Z := 2.
Definition MAX_SEMAPHORE_PROCS : Z := 64.
Definition DEFAULT_SEMAPHORE_PROCS : Z := 2.
Definition MIN_EXECS : Z := 1.
Definition MAX_EXECS : Z := 16000.
Definition MIN_FORKS : Z := 1.
Definition MAX_FORKS : Z := 16000.
Definition DEFAULT_FORKS : Z := 1.
Definition MIN_HEAPSORT_SIZE : Z := 1 * KB.
Definition MAX_HEAPSORT_SIZE : Z := 4 * MB.
Definition DEFAULT_HEAPSORT_SIZE : Z := 256 * KB.
Definition MIN_IOMIX_BYTES : Z := 1 * MB.
Definition MAX_IOMIX_BYTES : Z := 256 * GB.
Definition DEFAULT_IOMIX_BYTES : Z := 1 * GB.
Definition MIN_VFORKS : Z := 1.
Definition MAX_VFORKS : Z := 16000.
Definition DEFAULT_VFORKS : Z := 1.
Definition MIN_HSEARCH_SIZE : Z := 1 * KB.
Definition MAX_HSEARCH_SIZE : Z := 4 * MB.
Definition DEFAULT_HSEARCH_SIZE : Z := 8 * KB.
Definition MIN_LEASE_BREAKERS : Z := 1.
Definition MAX_LEASE_BREAKERS : Z := 64.
Definition DEFAULT_LEASE_BREAKERS : Z := 1.
Definition MIN_LSEARCH_SIZE : Z := 1 * KB.
Definition MAX_LSEARCH_SIZE : Z := 1 * MB.
Definition DEFAULT_LSEARCH_SIZE : Z := 8 * KB.
Definition MIN_MALLOC_BYTES : Z := 1 * KB.
Definition MAX_MALLOC_BYTES : Z := 4 * GB.
Definition DEFAULT_MALLOC_BYTES : Z := 64 * KB.
Definition MIN_MALLOC_MAX : Z := 32.
Definition MAX_MALLOC_MAX : Z := 256 * 1024.
Definition DEFAULT_MALLOC_MAX : Z := 64 * KB.
Definition MIN_MALLOC_THRESHOLD : Z := 1.
Definition MAX_MALLOC_THRESHOLD : Z := 256 * MB.
Definition MIN_MATRIX_SIZE : Z := 16.
Definition MAX_MATRIX_SIZE : Z := 8192.
Definition MIN_MEMFD_BYTES : Z := 2 * MB.
Definition MAX_MEMFD_BYTES : Z := 4 * GB.
Definition DEFAULT_MEMFD_BYTES : Z := 256 * MB.
Definition MIN_MEMFD_FDS : Z := 8.
Definition MAX_MEMFD_FDS : Z := 4096.
Definition MIN_MERGESORT_SIZE : Z := 1 * KB.
Definition MAX_MERGESORT_SIZE : Z := 4 * MB.
Definition DEFAULT_MERGESORT_SIZE : Z := 256 * KB.
Definition MIN_MMAP_BYTES : Z := 4 * KB.
Definition MAX_MMAP_BYTES : Z := 4 * GB.
Definition DEFAULT_MMAP_BYTES : Z := 256 * MB.
Definition MIN_MEMRATE_BYTES : Z := 4 * KB.
Definition MAX_MEMRATE_BYTES : Z := 4 * GB.
Definition MIN_MREMAP_BYTES : Z := 4 * KB.
Definition MAX_MREMAP_BYTES : Z := 4 * GB.
Definition DEFAULT_MREMAP_BYTES : Z := 256 * MB.
Definition MIN_MSYNC_BYTES : Z := 1 * MB.
Definition MAX_MSYNC_BYTES : Z := 4 * GB.
Definition DEFAULT_MSYNC_BYTES : Z := 256 * MB.
Definition MIN_PTHREAD : Z := 1.
Definition MAX_PTHREAD : Z := 30000.
Definition DEFAULT_PTHREAD : Z := 1024.
Definition MIN_PTYS : Z := 8.
Definition MAX_PTYS : Z := 65536.
Definition MIN_QSORT_SIZE : Z := 1 * KB.
Definition MAX_QSORT_SIZE : Z := 4 * MB.
Definition DEFAULT_QSORT_SIZE : Z := 256 * KB.
Definition MIN_RADIXSORT_SIZE : Z := 1 * KB.
Definition MAX_RADIXSORT_SIZE : Z := 4 * MB.
Definition DEFAULT_RADIXSORT_SIZE : Z := 256 * KB.
Definition DEFAULT_READAHEAD_BYTES : Z := 1 * GB.
Definition MIN_SCTP_PORT : Z := 1024.
Definition MAX_SCTP_PORT : Z := 65535.
Definition MIN_SENDFILE_SIZE : Z := 1 * KB.
Definition MAX_SENDFILE_SIZE : Z := 1 * GB.
Definition DEFAULT_SENDFILE_SIZE : Z := 4 * MB.
Definition MIN_SEEK_SIZE : Z := 1 * MB.
Definition MAX_SEEK_SIZE : Z := 256 * GB.
Definition DEFAULT_SEEK_SIZE : Z := 16 * MB.
Definition MIN_SHM_SYSV_BYTES : Z := 1 * MB.
Definition MAX_SHM_SYSV_BYTES : Z := 256 * MB.
Definition DEFAULT_SHM_SYSV_BYTES : Z := 8 * MB.
Definition MIN_SHM_SYSV_SEGMENTS : Z := 1.
Definition MAX_SHM_SYSV_SEGMENTS : Z := 128.
Definition DEFAULT_SHM_SYSV_SEGMENTS : Z := 8.
Definition MIN_SHM_POSIX_BYTES : Z := 1 * MB.
Definition MAX_SHM_POSIX_BYTES : Z := 1 * GB.
Definition DEFAULT_SHM_POSIX_BYTES : Z := 8 * MB.
Definition MIN_SHM_POSIX_OBJECTS : Z := 1.
Definition MAX_SHM_POSIX_OBJECTS : Z := 128.
Definition DEFAULT_SHM_POSIX_OBJECTS : Z := 32.
Definition MIN_SLEEP : Z := 1.
Definition MAX_SLEEP : Z := 30000.
Definition DEFAULT_SLEEP : Z := 1024.
Definition MIN_SOCKET_PORT : Z := 1024.
Definition MAX_SOCKET_PORT : Z := 65535.
Definition MIN_SOCKET_FD_PORT : Z := 1024.
Definition MAX_SOCKET_FD_PORT : Z := 65535.
Definition MIN_SPLICE_BYTES : Z := 1 * KB.
Definition MAX_SPLICE_BYTES : Z := 64 * MB.
Definition DEFAULT_SPLICE_BYTES : Z := 64 * KB.
Definition MIN_STREAM_L3_SIZE : Z := 4 * KB.
Definition MAX_STREAM_L3_SIZE : Z := 4 * GB.
Definition MIN_SYNC_FILE_BYTES : Z := 1 * MB.
Definition MAX_SYNC_FILE_BYTES : Z := 4 * GB.
Definition DEFAULT_SYNC_FILE_BYTES : Z := 1 * GB.
Definition MIN_TIMER_FREQ : Z := 1.
Definition MAX_TIMER_FREQ : Z := 100000000.
Definition DEFAULT_TIMER_FREQ : Z := 1000000.
Definition MIN_TIMERFD_FREQ : Z := 1.
Definition MAX_TIMERFD_FREQ : Z := 100000000.
Definition DEFAULT_TIMERFD_FREQ : Z := 1000000.
Definition MIN_TREE_SIZE : Z := 1000.
Definition MAX_TREE_SIZE : Z := 25000000.
Definition DEFAULT_TREE_SIZE : Z := 250000.
Definition MIN_TSEARCH_SIZE : Z := 1 * KB.
Definition MAX_TSEARCH_SIZE : Z := 4 * MB.
Definition DEFAULT_TSEARCH_SIZE : Z := 64 * KB.
Definition MIN_UDP_PORT : Z := 1024.
Definition MAX_UDP_PORT : Z := 65535.
Definition MIN_VM_BYTES : Z := 4 * KB.
Definition MAX_VM_BYTES : Z := 4 * GB.
Definition DEFAULT_VM_BYTES : Z := 256 * MB.
Definition MIN_VM_HANG : Z := 0.
Definition MAX_VM_HANG : Z := 3600.
Definition DEFAULT_VM_HANG : Z := 2 ^ 64 - 1.
Definition MIN_VM_RW_BYTES : Z := 4 * KB.
Definition MAX_VM_RW_BYTES : Z := 4 * GB.
Definition DEFAULT_VM_RW_BYTES : Z := 16 * MB.
Definition MIN_VM_SPLICE_BYTES : Z := 4 * KB.
Definition MAX_VM_SPLICE_BYTES : Z := 64 * MB.
Definition DEFAULT_VM_SPLICE_BYTES : Z := 64 * KB.
Definition MIN_ZOMBIES : Z := 1.
Definition MAX_ZOMBIES : Z := 1000000.
Definition DEFAULT_ZOMBIES : Z := 8192.

(** defined by the stressors themselves *)
Definition DEFAULT_SGX_VM_BYTES : Z := 32 * MB.
Definition NANOSECS : Z := 1000000000.
Definition MAX_SERVERS : Z := 4.
