(* ===== verification/Mwc.v ===== *)
(** * mwc.c: the multiply-with-carry pseudo random generator

    The generator is the state every verifying stressor replays: it writes a
    pattern drawn from the generator, seeds it again and compares.  The file
    holds the generator of [mwc.c], the reseeding of the native program and of
    the two enclaves, the invariant of the state and the replay law. *)

From S2P Require Import Prelude Flags.

(** ** State

    [mwc_w], [mwc_z] are the fields of [mwc_t __mwc]; [mwc_n8], [mwc_n16] the
    file's two counters; [saved8], [saved16] the [static uint32_t mwc_saved] of
    [mwc8()] and of [mwc16()]. *)

Record mwc := Mwc {
  mwc_w : Z; mwc_z : Z;
  mwc_n8 : Z; mwc_n16 : Z;
  saved8 : Z; saved16 : Z }.

Definition MWC_SEED_Z : Z := 362436069.
Definition MWC_SEED_W : Z := 521288629.

(** the statics before [main()] *)
Definition mwc_init : mwc := Mwc MWC_SEED_W MWC_SEED_Z 0 0 0 0.

Definition mwc_flush (r : mwc) : mwc :=
  Mwc (mwc_w r) (mwc_z r) 0 0 (saved8 r) (saved16 r).

(** [mwc_seed()] takes [uint32_t]s: a 64 bit argument is truncated *)
Definition mwc_seed (w z : Z) (r : mwc) : mwc :=
  mwc_flush (Mwc (u32 w) (u32 z) (mwc_n8 r) (mwc_n16 r) (saved8 r) (saved16 r)).

(** the macro [MWC_SEED()] *)
Definition MWC_SEED : mwc -> mwc := mwc_seed MWC_SEED_W MWC_SEED_Z.

Definition mwc32 (r : mwc) : Z * mwc :=
  let z := u32 (36969 * (mwc_z r .& 65535) + (mwc_z r >>> 16)) in
  let w := u32 (18000 * (mwc_w r .& 65535) + (mwc_w r >>> 16)) in
  (u32 (u32 (z <<< 16) + w),
   Mwc w z (mwc_n8 r) (mwc_n16 r) (saved8 r) (saved16 r)).

(** the two calls are evaluated left to right *)
Definition mwc64 (r : mwc) : Z * mwc :=
  let '(hi, r) := mwc32 r in
  let '(lo, r) := mwc32 r in
  (u64 (hi <<< 32) .| lo, r).

Definition mwc16 (r : mwc) : Z * mwc :=
  let r' :=
    if c_true (mwc_n16 r) then
      Mwc (mwc_w r) (mwc_z r) (mwc_n8 r) (u8 (mwc_n16 r - 1))
          (saved8 r) (saved16 r >>> 16)
    else
      let '(v, r) := mwc32 r in
      Mwc (mwc_w r) (mwc_z r) (mwc_n8 r) 1 (saved8 r) v in
  (saved16 r' .& 0xffff, r').

Definition mwc8 (r : mwc) : Z * mwc :=
  let r' :=
    if c_true (mwc_n8 r) then
      Mwc (mwc_w r) (mwc_z r) (u8 (mwc_n8 r - 1)) (mwc_n16 r)
          (saved8 r >>> 8) (saved16 r)
    else
      let '(v, r) := mwc32 r in
      Mwc (mwc_w r) (mwc_z r) 3 (mwc_n16 r) v (saved16 r) in
  (saved8 r' .& 0xff, r').

#[global] Arguments mwc32 : simpl never.
#[global] Arguments mwc64 : simpl never.
#[global] Arguments mwc16 : simpl never.
#[global] Arguments mwc8 : simpl never.

(** ** Reseeding

    What [mwc_reseed()] reads from the system: the time of day (or its
    failure), the distance of two stack addresses, the process ids. *)
Record reseed_env := ReseedEnv {
  re_tv : option (Z * Z);      (* tv_sec, tv_usec; None if gettimeofday fails *)
  re_addr_diff : Z;            (* &__mwc.z - &tv *)
  re_pid : Z; re_ppid : Z }.


(** the discarded draws of the reseeding loop *)
Fixpoint mwc_skip (n : nat) (r : mwc) : mwc :=
  match n with O => r | S n => mwc_skip n (mwc32 r).2 end.

Definition mwc_reseed (g_opt_flags : Z) (e : reseed_env) (r : mwc) : mwc :=
  let r :=
    if c_true (g_opt_flags .& OPT_FLAGS_NO_RAND_SEED) then
      Mwc MWC_SEED_W MWC_SEED_Z (mwc_n8 r) (mwc_n16 r) (saved8 r) (saved16 r)
    else
      let z0 := match re_tv e with
                | Some (sec, usec) => u32 (u64 sec .^ u64 usec)
                | None => 0
                end in
      let z := u32 (z0 + Z.lnot (re_addr_diff e)) in
      let w := u32 (u64 (re_pid e) .^ u64 (u64 (re_ppid e) <<< 12)) in
      let n := Z.rem (s32 z) 1733 in
      mwc_skip (Z.to_nat n)
        (Mwc w z (mwc_n8 r) (mwc_n16 r) (saved8 r) (saved16 r)) in
  mwc_flush r.

(** the enclaves have no entropy source: they restore the initial seeds *)
Definition enclave_mwc_reseed (r : mwc) : mwc :=
  mwc_flush (Mwc MWC_SEED_W MWC_SEED_Z (mwc_n8 r) (mwc_n16 r) (saved8 r) (saved16 r)).

(** ** The state invariant *)

Record mwc_wf (r : mwc) : Prop := MwcWf {
  wf_w : fits 32 (mwc_w r);
  wf_z : fits 32 (mwc_z r);
  wf_n8 : 0 <= mwc_n8 r <= 3;
  wf_n16 : 0 <= mwc_n16 r <= 1;
  wf_saved8 : fits 32 (saved8 r);
  wf_saved16 : fits 32 (saved16 r) }.

Create HintDb mwc.
#[export] Hint Resolve MwcWf : mwc.

Ltac mwc_wf_solve :=
  constructor; simpl; unfold fits in *; auto with cword;
  try (apply Z.mod_pos_bound); try lia.

Lemma mwc_init_wf : mwc_wf mwc_init.
Proof. mwc_wf_solve; done. Qed.

Lemma mwc_seed_wf w z r : mwc_wf r -> mwc_wf (mwc_seed w z r).
Proof. intros []. mwc_wf_solve. Qed.

Lemma mwc_flush_wf r : mwc_wf r -> mwc_wf (mwc_flush r).
Proof. intros []. mwc_wf_solve. Qed.

Lemma mwc32_wf r : mwc_wf r -> mwc_wf (mwc32 r).2.
Proof. intros []. unfold mwc32. mwc_wf_solve. Qed.

Lemma mwc32_fits r : fits 32 (mwc32 r).1.
Proof. apply u32_fits. Qed.

Lemma mwc64_wf r : mwc_wf r -> mwc_wf (mwc64 r).2.
Proof.
  intros H. unfold mwc64. apply mwc32_wf in H. destruct (mwc32 r) as [? q].
  simpl in H. apply mwc32_wf in H. by destruct (mwc32 q).
Qed.

Lemma mwc64_fits r : fits 64 (mwc64 r).1.
Proof.
  unfold mwc64. destruct (mwc32 r) as [hi q]. pose proof (mwc32_fits q) as H.
  destruct (mwc32 q) as [lo p]; cbn [fst snd] in *.
  apply fits_lor; [done|apply u64_fits|]. unfold fits in *. lia.
Qed.

Lemma land_ones_fits n x : 0 <= n -> fits n (x .& Z.ones n).
Proof. intros. rewrite Z.land_ones by done. apply Z.mod_pos_bound. lia. Qed.

Lemma mwc8_fits r : fits 8 (mwc8 r).1.
Proof. apply (land_ones_fits 8). done. Qed.
Lemma mwc16_fits r : fits 16 (mwc16 r).1.
Proof. apply (land_ones_fits 16). done. Qed.
#[export] Hint Resolve mwc32_fits mwc64_fits mwc8_fits mwc16_fits : cword.

Lemma mwc8_wf r : mwc_wf r -> mwc_wf (mwc8 r).2.
Proof.
  intros H. unfold mwc8, c_true. destruct (Z.eqb_spec (mwc_n8 r) 0); simpl.
  - destruct H. mwc_wf_solve.
  - destruct H. constructor; simpl; auto.
    + unfold u8. rewrite Z.mod_small; lia.
    + apply fits_shiftr; done.
Qed.

Lemma mwc16_wf r : mwc_wf r -> mwc_wf (mwc16 r).2.
Proof.
  intros H. unfold mwc16, c_true. destruct (Z.eqb_spec (mwc_n16 r) 0); simpl.
  - destruct H. mwc_wf_solve.
  - destruct H. constructor; simpl; auto.
    + unfold u8. rewrite Z.mod_small; lia.
    + apply fits_shiftr; done.
Qed.

Lemma mwc_skip_wf n r : mwc_wf r -> mwc_wf (mwc_skip n r).
Proof.
  revert r. induction n as [|n IH]; intros r H; [done|].
  cbn [mwc_skip]. by apply IH, mwc32_wf.
Qed.

Lemma mwc_reseed_wf f e r : mwc_wf r -> mwc_wf (mwc_reseed f e r).
Proof.
  intros H. apply mwc_flush_wf. destruct (c_true _).
  - destruct H. mwc_wf_solve; done.
  - apply mwc_skip_wf. destruct H. mwc_wf_solve.
Qed.
#[export] Hint Resolve mwc_init_wf mwc_seed_wf mwc_flush_wf mwc32_wf mwc64_wf
  mwc8_wf mwc16_wf mwc_skip_wf mwc_reseed_wf : mwc.

(** ** Observational equality

    [mwc_n8 = 0] makes [saved8] dead (the next [mwc8()] overwrites it), and
    [mwc_n16 = 0] makes [saved16] dead.  Two states that agree on the live
    fields produce the same numbers for ever. *)

Record mwc_eqv (r1 r2 : mwc) : Prop := MwcEqv {
  eqv_w : mwc_w r1 = mwc_w r2;
  eqv_z : mwc_z r1 = mwc_z r2;
  eqv_n8 : mwc_n8 r1 = mwc_n8 r2;
  eqv_n16 : mwc_n16 r1 = mwc_n16 r2;
  eqv_s8 : mwc_n8 r1 <> 0 -> saved8 r1 = saved8 r2;
  eqv_s16 : mwc_n16 r1 <> 0 -> saved16 r1 = saved16 r2 }.

#[export] Instance mwc_equiv : Equiv mwc := mwc_eqv.

#[export] Instance mwc_equivalence : Equivalence (≡@{mwc}).
Proof.
  split.
  - intros r. by constructor.
  - intros r1 r2 [Hw Hz H8 H16 Hs8 Hs16]. constructor; try congruence; intros;
      symmetry; [apply Hs8 | apply Hs16]; congruence.
  - intros r1 r2 r3 [Hw Hz H8 H16 Hs8 Hs16] [Hw' Hz' H8' H16' Hs8' Hs16'].
    constructor; try congruence; intros.
    + rewrite Hs8 by done. apply Hs8'. congruence.
    + rewrite Hs16 by done. apply Hs16'. congruence.
Qed.

(** a draw: an output and a new state *)
Definition draw_proper (d : mwc -> Z * mwc) : Prop :=
  forall r1 r2, r1 ≡ r2 -> (d r1).1 = (d r2).1 /\ (d r1).2 ≡ (d r2).2.

Lemma mwc32_proper : draw_proper mwc32.
Proof.
  intros r1 r2 [Hw Hz H8 H16 Hs8 Hs16]. unfold mwc32. rewrite Hw, Hz, H8, H16.
  split; [done|]. constructor; simpl; auto; intros; [apply Hs8 | apply Hs16]; congruence.
Qed.

Lemma mwc64_proper : draw_proper mwc64.
Proof.
  intros r1 r2 H. unfold mwc64.
  destruct (mwc32_proper _ _ H) as [E1 H1].
  destruct (mwc32 r1) as [a1 q1], (mwc32 r2) as [a2 q2]; cbn [fst snd] in *.
  destruct (mwc32_proper _ _ H1) as [E2 H2].
  destruct (mwc32 q1) as [b1 p1], (mwc32 q2) as [b2 p2]; cbn [fst snd] in *.
  by subst.
Qed.

Lemma mwc8_proper : draw_proper mwc8.
Proof.
  intros r1 r2 H. pose proof H as [Hw Hz H8 H16 Hs8 Hs16].
  unfold mwc8. rewrite <- H8. unfold c_true.
  destruct (Z.eqb_spec (mwc_n8 r1) 0) as [E|E]; simpl.
  - rewrite Hw, Hz. split; [done|]. by constructor; simpl.
  - rewrite (Hs8 E). split; [done|]. constructor; simpl; auto.
Qed.

Lemma mwc16_proper : draw_proper mwc16.
Proof.
  intros r1 r2 H. pose proof H as [Hw Hz H8 H16 Hs8 Hs16].
  unfold mwc16. rewrite <- H16. unfold c_true.
  destruct (Z.eqb_spec (mwc_n16 r1) 0) as [E|E]; simpl.
  - rewrite Hw, Hz. split; [done|]. by constructor; simpl.
  - rewrite (Hs16 E). split; [done|]. constructor; simpl; auto.
Qed.

(** seeding forgets everything: any two states become equivalent *)
Lemma mwc_seed_eqv w z r1 r2 : mwc_seed w z r1 ≡ mwc_seed w z r2.
Proof. by constructor; simpl. Qed.

(** ** Sequences of draws *)

Inductive draw := Draw8 | Draw16 | Draw32 | Draw64.

Definition do_draw (d : draw) : mwc -> Z * mwc :=
  match d with
  | Draw8 => mwc8 | Draw16 => mwc16 | Draw32 => mwc32 | Draw64 => mwc64
  end.

Fixpoint draws (ds : list draw) (r : mwc) : list Z * mwc :=
  match ds with
  | [] => ([], r)
  | d :: ds =>
      let '(v, r) := do_draw d r in
      let '(vs, r) := draws ds r in
      (v :: vs, r)
  end.

Lemma do_draw_proper d : draw_proper (do_draw d).
Proof.
  destruct d; [apply mwc8_proper | apply mwc16_proper
              | apply mwc32_proper | apply mwc64_proper].
Qed.

Lemma draws_proper ds r1 r2 :
  r1 ≡ r2 -> (draws ds r1).1 = (draws ds r2).1 /\ (draws ds r1).2 ≡ (draws ds r2).2.
Proof.
  revert r1 r2. induction ds as [|d ds IH]; intros r1 r2 H; [done|]. simpl.
  destruct (do_draw_proper d _ _ H) as [E1 H1].
  destruct (do_draw d r1) as [a1 q1], (do_draw d r2) as [a2 q2]; simpl in *.
  destruct (IH _ _ H1) as [E2 H2].
  destruct (draws ds q1) as [b1 p1], (draws ds q2) as [b2 p2]; simpl in *.
  by subst.
Qed.

Lemma do_draw_wf d r : mwc_wf r -> mwc_wf (do_draw d r).2.
Proof. destruct d; auto with mwc. Qed.

Definition draw_width (d : draw) : Z :=
  match d with Draw8 => 8 | Draw16 => 16 | Draw32 => 32 | Draw64 => 64 end.

Lemma do_draw_fits d r : fits (draw_width d) (do_draw d r).1.
Proof. destruct d; simpl do_draw; auto with cword. Qed.

(** ** Properties *)

(** C1.  Replay: whatever happened before, after [mwc_seed(w, z)] every
    sequence of calls of [mwc8()], [mwc16()], [mwc32()], [mwc64()] produces the
    same numbers.  The write/verify passes of the memory stressors rest on it. *)
Theorem mwc_seed_replay (w z : Z) (r1 r2 : mwc) (ds : list draw) :
  (draws ds (mwc_seed w z r1)).1 = (draws ds (mwc_seed w z r2)).1.
Proof. apply draws_proper, mwc_seed_eqv. Qed.

Lemma draws_wf ds r : mwc_wf r -> mwc_wf (draws ds r).2.
Proof.
  revert r. induction ds as [|d ds IH]; intros r H; [done|]. simpl.
  pose proof (do_draw_wf d r H) as H1.
  destruct (do_draw d r) as [a q]; simpl in *.
  specialize (IH q H1). by destruct (draws ds q).
Qed.

Lemma draws_fits ds r : Forall2 (fun d v => fits (draw_width d) v) ds (draws ds r).1.
Proof.
  revert r. induction ds as [|d ds IH]; intros r; [constructor|]. simpl.
  pose proof (do_draw_fits d r) as H1.
  destruct (do_draw d r) as [a q]; simpl in *.
  specialize (IH q). destruct (draws ds q). by constructor.
Qed.

(** C2.  The generator's state invariant (every field within its C type, the
    buffer counters at most 3 and 1) holds after any reseeding followed by any
    sequence of draws, and every output fits the width of its function. *)
Theorem mwc_invariant (g_opt_flags : Z) (e : reseed_env) (r : mwc) (ds : list draw)
    (Hr : mwc_wf r) :
  let out := draws ds (mwc_reseed g_opt_flags e r) in
  mwc_wf out.2 /\ Forall2 (fun d v => fits (draw_width d) v) ds out.1.
Proof. split; [apply draws_wf; auto with mwc | apply draws_fits]. Qed.

Lemma mwc_invariant_witness :
  let out := draws [Draw8; Draw64; Draw16]
               (mwc_reseed 0 (ReseedEnv (Some (1530000000, 123456)) 40 4711 1) mwc_init) in
  mwc_wf out.2 /\ Forall2 (fun d v => fits (draw_width d) v) [Draw8; Draw64; Draw16] out.1.
Proof. apply (mwc_invariant 0 _ mwc_init). apply mwc_init_wf. Defined.

(** one half of the state: [x' = a * (x & 65535) + (x >> 16)] *)
Lemma mwc_half_lehmer a x :
  0 <= a < 65536 -> fits 32 x ->
  let x' := u32 (a * (x .& 65535) + (x >>> 16)) in
  65536 * x' = x + (x mod 65536) * (a * 65536 - 1).
Proof.
  intros Ha [Hx0 Hx1]. cbv zeta.
  change 65535 with (Z.ones 16). rewrite Z.land_ones, Z.shiftr_div_pow2 by done.
  change (2 ^ 16) with 65536. change (2 ^ 32) with 4294967296 in *.
  pose proof (Z.mod_pos_bound x 65536 ltac:(lia)).
  pose proof (Z.div_mod x 65536 ltac:(lia)).
  rewrite u32_small; [nia|]. unfold fits. change (2 ^ 32) with 4294967296. nia.
Qed.

(** C3.  [mwc32()] never overflows its 32 bit state and is a pair of Lehmer
    generators: each half is divided by [2^16] modulo [36969 * 2^16 - 1]
    (respectively [18000 * 2^16 - 1]). *)
Theorem mwc32_lehmer (r : mwc) (Hr : mwc_wf r) :
  let r' := (mwc32 r).2 in
  (65536 * mwc_z r') mod (36969 * 65536 - 1) = mwc_z r mod (36969 * 65536 - 1) /\
  (65536 * mwc_w r') mod (18000 * 65536 - 1) = mwc_w r mod (18000 * 65536 - 1) /\
  mwc_z r' = 36969 * (mwc_z r mod 65536) + mwc_z r / 65536 /\
  mwc_w r' = 18000 * (mwc_w r mod 65536) + mwc_w r / 65536.
Proof.
  destruct Hr as [Hw Hz _ _ _ _]. cbv zeta. unfold mwc32. cbn [snd mwc_z mwc_w].
  pose proof (mwc_half_lehmer 36969 _ ltac:(lia) Hz) as Ez.
  pose proof (mwc_half_lehmer 18000 _ ltac:(lia) Hw) as Ew.
  cbv zeta in Ez, Ew. rewrite Ez, Ew, !Z.mod_add by lia.
  pose proof (Z.div_mod (mwc_z r) 65536 ltac:(lia)).
  pose proof (Z.div_mod (mwc_w r) 65536 ltac:(lia)).
  repeat split; lia.
Qed.

Lemma mwc32_lehmer_witness :
  let r' := (mwc32 mwc_init).2 in
  (65536 * mwc_z r') mod (36969 * 65536 - 1) = mwc_z mwc_init mod (36969 * 65536 - 1) /\
  (65536 * mwc_w r') mod (18000 * 65536 - 1) = mwc_w mwc_init mod (18000 * 65536 - 1) /\
  mwc_z r' = 36969 * (mwc_z mwc_init mod 65536) + mwc_z mwc_init / 65536 /\
  mwc_w r' = 18000 * (mwc_w mwc_init mod 65536) + mwc_w mwc_init / 65536.
Proof. apply (mwc32_lehmer mwc_init). apply mwc_init_wf. Defined.

Lemma c_true_b2z x : c_true x = false <-> x = 0.
Proof. unfold c_true. destruct (Z.eqb_spec x 0); naive_solver. Qed.

Lemma mwc8_fresh w z n16 s8 s16 :
  mwc8 (Mwc w z 0 n16 s8 s16) =
  let '(v, r) := mwc32 (Mwc w z 0 n16 s8 s16) in
  (v .& 0xff, Mwc (mwc_w r) (mwc_z r) 3 n16 v s16).
Proof. reflexivity. Qed.

Lemma mwc8_buffered w z n n16 s8 s16 :
  0 < n <= 3 ->
  mwc8 (Mwc w z n n16 s8 s16) =
  ((s8 >>> 8) .& 0xff, Mwc w z (n - 1) n16 (s8 >>> 8) s16).
Proof.
  intros Hn. unfold mwc8, c_true. simpl mwc_n8.
  destruct (Z.eqb_spec n 0); [lia|]. simpl.
  unfold u8. rewrite Z.mod_small by lia. done.
Qed.

(** C4.  Buffering: once the byte buffer is empty, four calls of [mwc8()]
    return the four bytes of one [mwc32()] draw, lowest byte first, and leave
    the buffer empty again with the generator advanced by exactly one draw. *)
Theorem mwc8_four_bytes (r : mwc) (H : mwc_n8 r = 0) :
  let '(v, r32) := mwc32 r in
  let '(out, r') := draws [Draw8; Draw8; Draw8; Draw8] r in
  out = [v .& 0xff; (v >>> 8) .& 0xff; (v >>> 16) .& 0xff; (v >>> 24) .& 0xff] /\
  mwc_n8 r' = 0 /\ mwc_w r' = mwc_w r32 /\ mwc_z r' = mwc_z r32.
Proof.
  destruct r as [w z n8 n16 s8 s16]. simpl in H. subst n8.
  cbn [draws do_draw]. rewrite mwc8_fresh. destruct (mwc32 _) as [v r32].
  rewrite mwc8_buffered by lia. change (3 - 1) with 2.
  rewrite mwc8_buffered by lia. change (2 - 1) with 1.
  rewrite mwc8_buffered by lia. cbn [mwc_n8 mwc_w mwc_z].
  by rewrite !Z.shiftr_shiftr by lia.
Qed.

Lemma mwc8_four_bytes_witness :
  let '(v, r32) := mwc32 mwc_init in
  let '(out, r') := draws [Draw8; Draw8; Draw8; Draw8] mwc_init in
  out = [v .& 0xff; (v >>> 8) .& 0xff; (v >>> 16) .& 0xff; (v >>> 24) .& 0xff] /\
  mwc_n8 r' = 0 /\ mwc_w r' = mwc_w r32 /\ mwc_z r' = mwc_z r32.
Proof. apply (mwc8_four_bytes mwc_init). reflexivity. Defined.

(** with [--no-rand-seed] the native reseeding is the enclave's *)
Lemma mwc_reseed_no_rand_seed f e r :
  c_true (f .& OPT_FLAGS_NO_RAND_SEED) = true ->
  mwc_reseed f e r = enclave_mwc_reseed r.
Proof. intros H. unfold mwc_reseed. by rewrite H. Qed.
