(* ===== verification/Tree.v ===== *)
(** * The tree stressor (stress-tree.c)

    Nodes lie in an array and are linked through it, as the C code does; a
    pointer is an index.  The links of the binary and of the AVL method share
    their place in a node (they are members of a union), so what one method leaves
    there is what the next one finds.  The red-black and splay methods, which
    come from the macros of libbsd, are in [TreeBsd]. *)

From S2P Require Import Prelude Mwc.

(** ** Nodes *)

Definition LH : Z := 0.
Definition EH : Z := 1.
Definition RH : Z := 2.

Abbreviation link := (option nat).

Record tree_node := TNode { left : link; right : link; bf : Z; value : Z }.

Abbreviation nodes := (list tree_node).

Definition set_left (i : nat) (p : link) (h : nodes) : nodes :=
  alter (fun nd => TNode p (right nd) (bf nd) (value nd)) i h.
Definition set_right (i : nat) (p : link) (h : nodes) : nodes :=
  alter (fun nd => TNode (left nd) p (bf nd) (value nd)) i h.
Definition set_bf (i : nat) (b : Z) (h : nodes) : nodes :=
  alter (fun nd => TNode (left nd) (right nd) b (value nd)) i h.
Definition set_value (i : nat) (v : Z) (h : nodes) : nodes :=
  alter (fun nd => TNode (left nd) (right nd) (bf nd) v) i h.

(** a field behind a pointer; [None]: the pointer is null or out of the array *)
Definition deref {A} (f : tree_node -> A) (p : link) (h : nodes) : option A :=
  i ← p; nd ← h !! i; Some (f nd).

(** ** The binary method

    The pointer to a pointer of [binary_insert()] is the head of the tree or one
    of the links of a node.  Fuel is for the walk down the tree; [None]: it ran
    out, or a pointer was followed that cannot be. *)

Inductive place := Head | LeftOf (i : nat) | RightOf (i : nat).

Fixpoint binary_place (fuel : nat) (h : nodes) (v : Z) (p : link) (at_ : place) : option place :=
  match p, fuel with
  | None, _ => Some at_
  | Some _, O => None
  | Some i, S fuel =>
      nd ← h !! i;
      if v <=? value nd then binary_place fuel h v (left nd) (LeftOf i)
      else binary_place fuel h v (right nd) (RightOf i)
  end.

Definition store_at (at_ : place) (p : link) (s : nodes * link) : nodes * link :=
  match at_ with
  | Head => (s.1, p)
  | LeftOf i => (set_left i p s.1, s.2)
  | RightOf i => (set_right i p s.1, s.2)
  end.

Definition binary_insert (fuel : nat) (node : nat) (s : nodes * link) : option (nodes * link) :=
  v ← deref value (Some node) s.1;
  at_ ← binary_place fuel s.1 v s.2 Head;
  Some (store_at at_ (Some node) s).

Fixpoint binary_find (fuel : nat) (h : nodes) (v : Z) (head : link) : option link :=
  match head, fuel with
  | None, _ => Some None
  | Some _, O => None
  | Some i, S fuel =>
      nd ← h !! i;
      if v =? value nd then Some (Some i)
      else binary_find fuel h v (if v <=? value nd then left nd else right nd)
  end.

Fixpoint binary_remove_tree (fuel : nat) (node : link) (h : nodes) : option nodes :=
  match node, fuel with
  | None, _ => Some h
  | Some _, O => None
  | Some i, S fuel =>
      l ← deref left (Some i) h;
      h ← binary_remove_tree fuel l h;
      r ← deref right (Some i) h;
      h ← binary_remove_tree fuel r h;
      Some (set_right i None (set_left i None h))
  end.

(** the nodes of the array that the searches do not find, which are reported *)
Fixpoint find_each (find : Z -> option link) (h : nodes) (is_ : list nat) : option (list nat) :=
  match is_ with
  | [] => Some []
  | i :: is_ =>
      v ← deref value (Some i) h;
      found ← find v;
      missing ← find_each find h is_;
      Some (if found is None then i :: missing else missing)
  end.

Fixpoint insert_each {S} (insert : nat -> S -> option S) (is_ : list nat) (s : S) : option S :=
  match is_ with
  | [] => Some s
  | i :: is_ => s ← insert i s; insert_each insert is_ s
  end.

(** the nodes afterwards and the errors reported *)
Definition stress_tree_binary (fuel : nat) (h : nodes) : option (nodes * list nat) :=
  let is_ := seq 0 (length h) in
  '(h, head) ← insert_each (binary_insert fuel) is_ (h, None);
  errors ← find_each (fun v => binary_find fuel h v head) h is_;
  h ← binary_remove_tree fuel head h;
  Some (h, errors).

(** ** The AVL method *)

(** the left subtree has grown under a node that leans to the left *)
Definition avl_left_rotate (root : nat) (h : nodes) : option (nodes * link) :=
  p ← deref left (Some root) h;
  pi ← p;
  pbf ← deref bf p h;
  if pbf =? LH then
    pr ← deref right p h;
    let h := set_left root pr h in
    let h := set_right pi (Some root) h in
    let h := set_bf pi EH h in
    Some (set_bf root EH h, p)
  else
    q ← deref right p h;
    qi ← q;
    qr ← deref right q h;
    let h := set_left root qr h in
    let h := set_right qi (Some root) h in
    ql ← deref left q h;
    let h := set_right pi ql h in
    let h := set_left qi p h in
    qbf ← deref bf q h;
    let h := if qbf =? RH then set_bf pi LH (set_bf root EH h)
             else if qbf =? LH then set_bf pi EH (set_bf root RH h)
             else if qbf =? EH then set_bf pi EH (set_bf root EH h) else h in
    Some (set_bf qi EH h, q).

(** the right subtree has grown under a node that leans to the right *)
Definition avl_right_rotate (root : nat) (h : nodes) : option (nodes * link) :=
  p ← deref right (Some root) h;
  pi ← p;
  pbf ← deref bf p h;
  if pbf =? RH then
    pl ← deref left p h;
    let h := set_right root pl h in
    let h := set_left pi (Some root) h in
    let h := set_bf pi EH h in
    Some (set_bf root EH h, p)
  else
    q ← deref left p h;
    qi ← q;
    ql ← deref left q h;
    let h := set_right root ql h in
    let h := set_left qi (Some root) h in
    qr ← deref right q h;
    let h := set_left pi qr h in
    let h := set_right qi p h in
    qbf ← deref bf q h;
    let h := if qbf =? LH then set_bf pi RH (set_bf root EH h)
             else if qbf =? RH then set_bf pi EH (set_bf root LH h)
             else if qbf =? EH then set_bf pi EH (set_bf root EH h) else h in
    Some (set_bf qi EH h, q).

(** the nodes, the new root and [*taller]; fuel is for the depth *)
Fixpoint avl_insert (fuel : nat) (node : nat) (h : nodes) (root : link) (taller : bool) :
    option (nodes * link * bool) :=
  match root, fuel with
  | None, _ =>
      let h := set_left node None h in
      let h := set_right node None h in
      Some (set_bf node EH h, Some node, true)
  | Some _, O => None
  | Some i, S fuel =>
      v ← deref value (Some node) h;
      rv ← deref value root h;
      if v <? rv then
        l ← deref left root h;
        '(h, l, sub_taller) ← avl_insert fuel node h l false;
        let h := set_left i l h in
        if sub_taller : bool then
          b ← deref bf root h;
          if b =? EH then Some (set_bf i LH h, root, true)
          else if b =? RH then Some (set_bf i EH h, root, false)
          else if b =? LH then '(h, root) ← avl_left_rotate i h; Some (h, root, false)
          else Some (h, root, taller)
        else Some (h, root, taller)
      else if rv <? v then
        r ← deref right root h;
        '(h, r, sub_taller) ← avl_insert fuel node h r false;
        let h := set_right i r h in
        if sub_taller : bool then
          b ← deref bf root h;
          if b =? LH then Some (set_bf i EH h, root, false)
          else if b =? EH then Some (set_bf i RH h, root, true)
          else if b =? RH then '(h, root) ← avl_right_rotate i h; Some (h, root, false)
          else Some (h, root, taller)
        else Some (h, root, false)
      else Some (h, root, false)
  end.

(** [avl_find()] is [binary_find()] on the links of the AVL nodes *)
Definition avl_find : nat -> nodes -> Z -> link -> option link := binary_find.

(** the links stay *)
Fixpoint avl_remove_tree (fuel : nat) (node : link) (h : nodes) : option unit :=
  match node, fuel with
  | None, _ => Some tt
  | Some _, O => None
  | Some i, S fuel =>
      l ← deref left (Some i) h;
      avl_remove_tree fuel l h;;
      r ← deref right (Some i) h;
      avl_remove_tree fuel r h
  end.

Definition avl_insert_at (fuel : nat) (node : nat) (s : nodes * link) : option (nodes * link) :=
  '(h, root, _) ← avl_insert fuel node s.1 s.2 false; Some (h, root).

Definition stress_tree_avl (fuel : nat) (h : nodes) : option (nodes * list nat) :=
  let is_ := seq 0 (length h) in
  '(h, head) ← insert_each (avl_insert_at fuel) is_ (h, None);
  errors ← find_each (fun v => avl_find fuel h v head) h is_;
  avl_remove_tree fuel head h;;
  Some (h, errors).

(** ** The stressor *)

Section Stressor.
Variables stress_tree_rb stress_tree_splay : nodes -> option (nodes * list nat).

Definition stress_tree_all (fuel : nat) (h : nodes) : option (nodes * list nat) :=
  '(h, e1) ← stress_tree_rb h;
  '(h, e2) ← stress_tree_splay h;
  '(h, e3) ← stress_tree_binary fuel h;
  '(h, e4) ← stress_tree_avl fuel h;
  Some (h, e1 ++ e2 ++ e3 ++ e4).
End Stressor.

Definition ror64 (val : Z) : Z := (val >>> 1) .| u64 ((val .& 1) <<< 63).

(** the first values: a random one, then each with one more bit flipped *)
Fixpoint tree_values (n : nat) (v bit : Z) (r : mwc) : list Z * mwc :=
  match n with
  | O => ([], r)
  | S n =>
      let '(v, bit, r) :=
        if negb (c_true bit) then let '(v, r) := mwc64 r in (v, 1, r)
        else (v .^ bit, u64 (bit <<< 1), r) in
      let '(vs, r) := tree_values n (ror64 v) bit r in
      (v :: vs, r)
  end.

(** what ends or continues a round: the look at the flag after it, or the alarm,
    which jumps out of whatever is going on *)
Inductive tree_event := RoundDone (keep : bool) | Alarmed.

(** the errors reported and the counter; the stressor then returns success *)
Fixpoint tree_rounds (func : nodes -> option (nodes * list nat)) (evs : list tree_event) (h : nodes) (r : mwc)
    (errors : list nat) (counter : Z) : option (list nat * Z) :=
  match evs with
  | [] => None
  | Alarmed :: _ => Some (errors, counter)
  | RoundDone keep :: evs =>
      '(h, errs) ← func h;
      let '(rnd, r) := mwc64 r in
      let h := (fun nd => TNode (left nd) (right nd) (bf nd) (ror64 (value nd .^ rnd))) <$> h in
      let counter := u64 (counter + 1) in
      if keep : bool then tree_rounds func evs h r (errors ++ errs) counter
      else Some (errors ++ errs, counter)
  end.

(** [calloc()]ed nodes *)
Definition stress_tree (func : nodes -> option (nodes * list nat)) (n : nat) (evs : list tree_event) (r : mwc) :
    option (list nat * Z) :=
  let '(vs, r) := tree_values n 0 0 r in
  tree_rounds func evs (TNode None None 0 <$> vs) r [] 0.
