(* ===== verification/TreeProofs.v ===== *)
(** * The trees of the tree stressor

    The nodes reached from a pointer are described by a tree.  The AVL insertion
    keeps the tree ordered and balanced, so its depth is logarithmic; both
    methods find every value they have inserted. *)

From S2P Require Import Prelude Mwc Tree.

(** ** Trees in the array *)

Inductive tree := Leaf | Node (i : nat) (v b : Z) (l r : tree).

Fixpoint ids (t : tree) : list nat :=
  match t with Leaf => [] | Node i _ _ l r => i :: ids l ++ ids r end.
Fixpoint keys (t : tree) : list Z :=
  match t with Leaf => [] | Node _ v _ l r => v :: keys l ++ keys r end.
Fixpoint height (t : tree) : nat :=
  match t with Leaf => 0 | Node _ _ _ l r => S (Nat.max (height l) (height r)) end.

Fixpoint repr (h : nodes) (p : link) (t : tree) : Prop :=
  match t with
  | Leaf => p = None
  | Node i v b l r => p = Some i /\ exists pl pr, h !! i = Some (TNode pl pr b v) /\ repr h pl l /\ repr h pr r
  end.

#[global] Instance tree_eq_dec : EqDecision tree.
Proof. solve_decision. Defined.

(** for a search: what is equal is on the left *)
Fixpoint search (t : tree) : Prop :=
  match t with
  | Leaf => True
  | Node _ v _ l r =>
      Forall (fun x => x <= v) (keys l) /\ Forall (fun x => v < x) (keys r) /\ search l /\ search r
  end.

Lemma repr_frame h h' p t : (forall i, i ∈ ids t -> h' !! i = h !! i) -> repr h p t -> repr h' p t.
Proof.
  revert p. induction t as [|i v b l IHl r IHr]; intros p Hf; [done|]. cbn [repr ids] in *.
  intros (-> & pl & pr & Hi & Hl & Hr). split; [done|]. exists pl, pr. rewrite Hf by left. split; [done|].
  split; [apply IHl|apply IHr]; try done; intros j Hj; apply Hf; set_solver.
Qed.

Lemma deref_some {A} (f : tree_node -> A) h i nd : h !! i = Some nd -> deref f (Some i) h = Some (f nd).
Proof. intros Hi. unfold deref. cbn [mbind option_bind]. by rewrite Hi. Qed.

Lemma alter_same f (h : nodes) i nd : h !! i = Some nd -> alter f i h !! i = Some (f nd).
Proof. intros Hi. by rewrite list_lookup_alter_eq, Hi. Qed.

Lemma alter_other f (h : nodes) i j : i <> j -> alter f i h !! j = h !! j.
Proof. apply list_lookup_alter_ne. Qed.

Lemma repr_alter f h i p t : i ∉ ids t -> repr h p t -> repr (alter f i h) p t.
Proof. intros Hi. apply repr_frame. intros j Hj. apply alter_other. by intros ->. Qed.

Lemma fields_alter {A} (g : tree_node -> A) f (h : nodes) i :
  (forall nd, g (f nd) = g nd) -> g <$> alter f i h = g <$> h.
Proof.
  intros Hf. apply list_eq. intros j. rewrite !list_lookup_fmap. destruct (decide (i = j)) as [->|Hn].
  - rewrite list_lookup_alter_eq. destruct (h !! j); cbn; by rewrite ?Hf.
  - by rewrite alter_other.
Qed.

Lemma height_size t : (height t <= length (ids t))%nat.
Proof. induction t; cbn [height ids length]; [lia|]. rewrite length_app. lia. Qed.

(** ** Searching *)

Lemma find_spec fuel h p t v :
  repr h p t -> search t -> (height t <= fuel)%nat ->
  exists found, binary_find fuel h v p = Some found /\ (v ∈ keys t -> found <> None).
Proof.
  revert fuel p. induction t as [|i w b l IHl r IHr]; intros fuel p Hr Hs Hf; cbn [repr search height keys] in *.
  - subst p. exists None. destruct fuel; (split; [done|]); intros H; by apply not_elem_of_nil in H.
  - destruct Hr as (-> & pl & pr & Hi & Hl & Hr), Hs as (Hle & Hgt & Hsl & Hsr). destruct fuel as [|fuel]; [lia|].
    cbn [binary_find]. rewrite Hi. cbn [mbind option_bind value left right].
    rewrite Forall_forall in Hle, Hgt. destruct (Z.eqb_spec v w) as [->|Hne]; [by exists (Some i)|].
    destruct (Z.leb_spec v w).
    + destruct (IHl fuel pl Hl Hsl ltac:(lia)) as (found & -> & Hfound). exists found. split; [done|].
      intros [->|[Hv|Hv]%elem_of_app]%elem_of_cons; [done|by apply Hfound|]. specialize (Hgt v Hv). lia.
    + destruct (IHr fuel pr Hr Hsr ltac:(lia)) as (found & -> & Hfound). exists found. split; [done|].
      intros [->|[Hv|Hv]%elem_of_app]%elem_of_cons; [done| |by apply Hfound]. specialize (Hle v Hv). lia.
Qed.

Lemma find_each_spec find h is_ :
  (forall i, i ∈ is_ -> exists nd j, h !! i = Some nd /\ find (value nd) = Some (Some j)) -> find_each find h is_ = Some [].
Proof.
  induction is_ as [|i is_ IH]; intros H; [done|]. cbn [find_each].
  destruct (H i ltac:(left)) as (nd & j & Hi & Hj). rewrite (deref_some _ _ _ _ Hi). cbn [mbind option_bind].
  rewrite Hj. cbn [mbind option_bind]. rewrite IH; [done|]. intros k Hk. apply H. by right.
Qed.

(** every node of the array is found when every value is in the tree *)
Lemma find_all fuel h p t :
  repr h p t -> search t -> (height t <= fuel)%nat -> (forall v, v ∈ value <$> h -> v ∈ keys t) ->
  find_each (fun v => binary_find fuel h v p) h (seq 0 (length h)) = Some [].
Proof.
  intros Hr Hs Hf Hall. apply find_each_spec. intros i Hi%elem_of_seq.
  destruct (lookup_lt_is_Some_2 h i) as [nd Hnd]; [lia|].
  destruct (find_spec fuel h p t (value nd) Hr Hs Hf) as ([j|] & Hj & Hv).
  - exists nd, j. done.
  - exfalso. apply Hv; [|done]. apply Hall, list_elem_of_fmap. exists nd. split; [done|]. by apply list_elem_of_lookup_2 in Hnd.
Qed.

(** ** The binary method *)

(** what the binary method leaves alone *)
Definition content (nd : tree_node) : Z * Z := (bf nd, value nd).

Fixpoint binsert (i : nat) (v b : Z) (t : tree) : tree :=
  match t with
  | Leaf => Node i v b Leaf Leaf
  | Node j w c l r => if v <=? w then Node j w c (binsert i v b l) r else Node j w c l (binsert i v b r)
  end.

Lemma binsert_ids i v b t : ids (binsert i v b t) ≡ₚ i :: ids t.
Proof.
  induction t as [|j w c l IHl r IHr]; [done|]. cbn [binsert]. destruct (v <=? w); cbn [ids].
  - rewrite IHl. cbn [app]. apply perm_swap.
  - rewrite IHr, <- Permutation_middle. apply perm_swap.
Qed.

Lemma binsert_keys i v b t : keys (binsert i v b t) ≡ₚ v :: keys t.
Proof.
  induction t as [|j w c l IHl r IHr]; [done|]. cbn [binsert]. destruct (v <=? w); cbn [keys].
  - rewrite IHl. cbn [app]. apply perm_swap.
  - rewrite IHr, <- Permutation_middle. apply perm_swap.
Qed.

Lemma binsert_search i v b t : search t -> search (binsert i v b t).
Proof.
  induction t as [|j w c l IHl r IHr]; intros Hs; [done|]. cbn [search] in Hs. destruct Hs as (Hle & Hgt & Hl & Hr).
  cbn [binsert]. destruct (Z.leb_spec v w); cbn [search]; rewrite binsert_keys, Forall_cons; auto.
Qed.

Lemma set_left_lookup h i p pl pr b v :
  h !! i = Some (TNode pl pr b v) -> set_left i p h !! i = Some (TNode p pr b v).
Proof. apply (alter_same (fun nd => TNode p (right nd) (bf nd) (value nd))). Qed.
Lemma set_right_lookup h i p pl pr b v :
  h !! i = Some (TNode pl pr b v) -> set_right i p h !! i = Some (TNode pl p b v).
Proof. apply (alter_same (fun nd => TNode (left nd) p (bf nd) (value nd))). Qed.
Lemma set_bf_lookup h i c pl pr b v :
  h !! i = Some (TNode pl pr b v) -> set_bf i c h !! i = Some (TNode pl pr c v).
Proof. apply (alter_same (fun nd => TNode (left nd) (right nd) c (value nd))). Qed.

(** the walk from the root of a tree that is not empty ends at a link of it *)
Lemma binary_place_spec fuel h p t v b node hd :
  repr h p t -> NoDup (ids t) -> node ∉ ids t -> h !! node = Some (TNode None None b v) -> (height t <= fuel)%nat -> t <> Leaf ->
  forall at_, exists at', binary_place fuel h v p at_ = Some at' /\
    repr (store_at at' (Some node) (h, hd)).1 p (binsert node v b t) /\ (store_at at' (Some node) (h, hd)).2 = hd /\
    (forall j, j ∉ ids t -> (store_at at' (Some node) (h, hd)).1 !! j = h !! j) /\
    (content <$> (store_at at' (Some node) (h, hd)).1) = (content <$> h).
Proof.
  revert fuel p. induction t as [|i w c l IHl r IHr]; intros fuel p Hr Hnd Hni Hnode Hf Hne at_; [done|].
  cbn [repr ids height] in *. destruct Hr as (-> & pl & pr & Hi & Hl & Hr). destruct fuel as [|fuel]; [lia|].
  apply NoDup_cons in Hnd as [Hi' (Hndl & Hdis & Hndr)%NoDup_app]. cbn [binary_place]. rewrite Hi. cbn [mbind option_bind value left right].
  assert ((node ∉ ids l) /\ (node ∉ ids r) /\ node <> i) as (Hnl & Hnr & Hni') by set_solver.
  cbn [binsert]. destruct (v <=? w).
  - destruct (decide (l = Leaf)) as [->|Hl0].
    + cbn [repr] in Hl. subst pl. exists (LeftOf i). split; [by destruct fuel|]. cbn [store_at fst snd]. split; [|split; [done|split]].
      * split; [done|]. exists (Some node), pr. split; [by eapply set_left_lookup|]. split; [|apply repr_alter; set_solver].
        cbn [binsert repr]. split; [done|]. exists None, None. unfold set_left. by rewrite alter_other.
      * intros j Hj. apply alter_other. set_solver.
      * by apply fields_alter.
    + destruct (IHl fuel pl Hl Hndl Hnl Hnode ltac:(lia) Hl0 (LeftOf i)) as (at' & -> & Hr' & Hhd & Hfr & Hval).
      exists at'. split; [done|]. split; [|split; [done|split; [|done]]]; [|intros j Hj; apply Hfr; set_solver].
      split; [done|]. exists pl, pr. split; [rewrite Hfr; [done|set_solver]|]. split; [done|].
      apply (repr_frame h); [|done]. intros j Hj. apply Hfr. intros Hj'. by apply (Hdis j).
  - destruct (decide (r = Leaf)) as [->|Hr0].
    + cbn [repr] in Hr. subst pr. exists (RightOf i). split; [by destruct fuel|]. cbn [store_at fst snd]. split; [|split; [done|split]].
      * split; [done|]. exists pl, (Some node). split; [by eapply set_right_lookup|]. split; [apply repr_alter; set_solver|].
        cbn [binsert repr]. split; [done|]. exists None, None. unfold set_right. by rewrite alter_other.
      * intros j Hj. apply alter_other. set_solver.
      * by apply fields_alter.
    + destruct (IHr fuel pr Hr Hndr Hnr Hnode ltac:(lia) Hr0 (RightOf i)) as (at' & -> & Hr' & Hhd & Hfr & Hval).
      exists at'. split; [done|]. split; [|split; [done|split; [|done]]]; [|intros j Hj; apply Hfr; set_solver].
      split; [done|]. exists pl, pr. split; [rewrite Hfr; [done|set_solver]|]. split; [|done].
      apply (repr_frame h); [|done]. intros j Hj. apply Hfr. intros Hj'. by apply (Hdis j).
Qed.

Lemma repr_keys h p t i : repr h p t -> i ∈ ids t -> exists nd, h !! i = Some nd /\ value nd ∈ keys t.
Proof.
  revert p. induction t as [|j v b l IHl r IHr]; intros p Hr Hi; cbn [ids keys repr] in *; [by apply not_elem_of_nil in Hi|].
  destruct Hr as (-> & pl & pr & Hj & Hl & Hr). apply elem_of_cons in Hi as [->|[Hi|Hi]%elem_of_app].
  - eexists. split; [done|]. left.
  - destruct (IHl pl Hl Hi) as (nd & Hnd & Hin). exists nd. split; [done|]. set_solver.
  - destruct (IHr pr Hr Hi) as (nd & Hnd & Hin). exists nd. split; [done|]. set_solver.
Qed.

Definition fresh_node (h : nodes) (i : nat) : Prop := exists b v, h !! i = Some (TNode None None b v).

Lemma binary_insert_spec fuel h hd t node :
  repr h hd t -> NoDup (ids t) -> search t -> node ∉ ids t -> fresh_node h node -> (height t <= fuel)%nat ->
  exists h' hd' t', binary_insert fuel node (h, hd) = Some (h', hd') /\ repr h' hd' t' /\ search t' /\
    ids t' ≡ₚ node :: ids t /\ (forall j, j ∉ ids t -> h' !! j = h !! j) /\ (content <$> h') = (content <$> h).
Proof.
  intros Hr Hnd Hs Hni (b & v & Hnode) Hf. unfold binary_insert. cbn [fst snd]. rewrite (deref_some _ _ _ _ Hnode).
  cbn [mbind option_bind value]. destruct (decide (t = Leaf)) as [->|Ht].
  - cbn [repr] in Hr. subst hd. exists h, (Some node), (Node node v b Leaf Leaf).
    split; [by destruct fuel|]. split; [split; [done|]; by exists None, None|]. done.
  - destruct (binary_place_spec fuel h hd t v b node hd Hr Hnd Hni Hnode Hf Ht Head) as (at' & -> & Hr' & Hhd & Hfr & Hc).
    cbn [mbind option_bind]. destruct (store_at at' (Some node) (h, hd)) as [h' hd']. cbn [fst snd] in *. subst hd'.
    exists h', hd, (binsert node v b t). split; [done|]. split; [done|].
    split; [by apply binsert_search|]. split; [apply binsert_ids|done].
Qed.

Lemma binary_insert_all fuel is_ h hd t :
  repr h hd t -> search t -> NoDup (is_ ++ ids t) -> Forall (fresh_node h) is_ -> (length (is_ ++ ids t) <= fuel)%nat ->
  exists h' hd' t', insert_each (binary_insert fuel) is_ (h, hd) = Some (h', hd') /\ repr h' hd' t' /\ search t' /\
    ids t' ≡ₚ is_ ++ ids t /\ (content <$> h') = (content <$> h).
Proof.
  revert h hd t. induction is_ as [|i is_ IH]; intros h hd t Hr Hs Hnd Hfresh Hf; [by exists h, hd, t|].
  cbn [app length] in *. apply NoDup_cons in Hnd as [Hi Hnd]. apply Forall_cons in Hfresh as [Hfi Hfresh].
  pose proof (height_size t) as Hht. rewrite length_app in Hf. pose proof Hnd as (_ & Hdis & Hndt)%NoDup_app.
  destruct (binary_insert_spec fuel h hd t i Hr Hndt Hs ltac:(set_solver) Hfi ltac:(lia))
    as (h1 & hd1 & t1 & H1 & Hr1 & Hs1 & Hids & Hfr & Hc1).
  cbn [insert_each]. rewrite H1. cbn [mbind option_bind].
  destruct (IH h1 hd1 t1 Hr1 Hs1) as (h' & hd' & t' & -> & Hr' & Hs' & Hids' & Hc').
  - rewrite Hids, <- Permutation_middle. apply NoDup_cons. split; [set_solver|done].
  - rewrite Forall_forall in Hfresh |- *. intros j Hj. destruct (Hfresh j Hj) as (b & v & Hb). exists b, v.
    rewrite Hfr; [done|]. intros Hj'. by apply (Hdis j).
  - rewrite length_app, Hids. cbn [length]. lia.
  - exists h', hd', t'. split; [done|]. split; [done|]. split; [done|]. split; [|congruence].
    by rewrite Hids', Hids, <- Permutation_middle.
Qed.

Lemma binary_remove_spec fuel h p t :
  repr h p t -> NoDup (ids t) -> (height t <= fuel)%nat ->
  exists h', binary_remove_tree fuel p h = Some h' /\ (forall j, j ∉ ids t -> h' !! j = h !! j) /\
    forall j, j ∈ ids t -> exists nd, h !! j = Some nd /\ h' !! j = Some (TNode None None (bf nd) (value nd)).
Proof.
  revert fuel h p. induction t as [|i v b l IHl r IHr]; intros fuel h p Hr Hnd Hf; cbn [repr ids height] in *.
  - subst p. exists h. split; [by destruct fuel|]. split; [done|]. intros j Hj. by apply not_elem_of_nil in Hj.
  - destruct Hr as (-> & pl & pr & Hi & Hl & Hr). apply NoDup_cons in Hnd as [Hi' (Hndl & Hdis & Hndr)%NoDup_app].
    destruct fuel as [|fuel]; [lia|]. cbn [binary_remove_tree]. rewrite (deref_some _ _ _ _ Hi).
    cbn [mbind option_bind left]. destruct (IHl fuel h pl Hl Hndl ltac:(lia)) as (h1 & -> & Hfr1 & Hin1). cbn [mbind option_bind].
    assert (h1 !! i = Some (TNode pl pr b v)) as Hi1 by (rewrite Hfr1; [done|set_solver]).
    rewrite (deref_some _ _ _ _ Hi1). cbn [mbind option_bind right].
    destruct (IHr fuel h1 pr) as (h2 & -> & Hfr2 & Hin2); [|done|lia|].
    { apply (repr_frame h); [|done]. intros j Hj. apply Hfr1. intros Hj'. by apply (Hdis j). }
    cbn [mbind option_bind]. eexists. split; [done|].
    assert (h2 !! i = Some (TNode pl pr b v)) as Hi2 by (rewrite Hfr2; [done|set_solver]).
    split.
    + intros j Hj. unfold set_right, set_left. rewrite !alter_other, Hfr2, Hfr1 by set_solver. done.
    + intros j Hj. apply elem_of_cons in Hj as [->|Hj].
      { eexists. split; [done|]. by eapply set_right_lookup, set_left_lookup. }
      unfold set_right, set_left. rewrite !alter_other by set_solver. apply elem_of_app in Hj as [Hj|Hj].
      * rewrite Hfr2 by (intros Hj'; by apply (Hdis j)). by apply Hin1.
      * destruct (Hin2 j Hj) as (nd & Hnd & Hj2). exists nd. split; [|done]. rewrite <- Hnd. symmetry. apply Hfr1.
        intros Hj'. by apply (Hdis j).
Qed.

(** The binary tree stressor finds every node it has inserted, whatever the
    values, also when some are equal, and leaves the nodes as it found them, ready
    for the next round, when the links of the nodes are null at its start.  The
    walks end within as many steps as there are nodes. *)
Lemma stress_tree_binary_finds fuel h :
  Forall (fun nd => left nd = None /\ right nd = None) h -> (length h <= fuel)%nat ->
  stress_tree_binary fuel h = Some (h, []).
Proof.
  intros Hnull Hf. unfold stress_tree_binary.
  assert (forall i nd, h !! i = Some nd -> nd = TNode None None (bf nd) (value nd)) as Hnd.
  { intros i nd Hi. rewrite Forall_forall in Hnull. destruct (Hnull nd) as [Hl Hr]; [by apply list_elem_of_lookup_2 in Hi|].
    destruct nd; cbn in *; congruence. }
  destruct (binary_insert_all fuel (seq 0 (length h)) h None Leaf) as (h1 & hd & t & -> & Hr & Hs & Hids & Hc);
    [done|done|rewrite app_nil_r; apply NoDup_seq| |rewrite app_nil_r, length_seq; done|].
  { apply Forall_forall. intros i Hi%elem_of_seq. destruct (lookup_lt_is_Some_2 h i) as [nd Hi']; [lia|].
    exists (bf nd), (value nd). rewrite Hi'. f_equal. by eapply Hnd. }
  cbn [ids] in Hids. rewrite app_nil_r in Hids. cbn [mbind option_bind].
  assert (length h1 = length h) as Hlen by (rewrite <- (length_fmap content h1), Hc; apply length_fmap).
  assert ((height t <= fuel)%nat) as Hht by (pose proof (height_size t); rewrite Hids, length_seq in *; lia).
  assert (forall i, i ∈ ids t <-> (i < length h)%nat) as Hin by (intros i; rewrite Hids, elem_of_seq; lia).
  rewrite <- Hlen. rewrite (find_all fuel h1 hd t Hr Hs Hht).
  2:{ intros v (nd & -> & (i & Hi)%list_elem_of_lookup)%list_elem_of_fmap.
      destruct (repr_keys h1 hd t i Hr) as (nd' & Hi' & Hk); [apply Hin; apply lookup_lt_Some in Hi; lia|].
      rewrite Hi in Hi'. by injection Hi' as <-. }
  cbn [mbind option_bind].
  destruct (binary_remove_spec fuel h1 hd t Hr) as (h2 & -> & Hout & Hin2); [rewrite Hids; apply NoDup_seq|done|].
  cbn [mbind option_bind]. do 2 f_equal. apply list_eq. intros i. destruct (decide (i < length h)%nat) as [Hi|Hi].
  - destruct (Hin2 i) as (nd & Hnd1 & ->); [by apply Hin|]. destruct (lookup_lt_is_Some_2 h i Hi) as [nd0 Hnd0].
    rewrite Hnd0, (Hnd i nd0 Hnd0). f_equal. apply (f_equal (lookup i)) in Hc. rewrite !list_lookup_fmap, Hnd1, Hnd0 in Hc.
    injection Hc as Hb Hv. congruence.
  - rewrite Hout by (rewrite Hin; lia). rewrite !lookup_ge_None_2 by lia. done.
Qed.
