(* ===== verification/AvlProofs.v ===== *)
(** * The AVL trees of the tree stressor

    The insertion of stress-tree.c, with its rotations of links and balance
    factors, keeps the tree ordered and balanced. *)

From S2P Require Import Prelude Mwc Tree TreeProofs.

Fixpoint ordered (t : tree) : Prop :=
  match t with
  | Leaf => True
  | Node _ v _ l r =>
      Forall (fun x => x < v) (keys l) /\ Forall (fun x => v < x) (keys r) /\ ordered l /\ ordered r
  end.

Lemma ordered_search t : ordered t -> search t.
Proof.
  induction t as [|i v b l IHl r IHr]; [done|]. intros (Hl & Hr & Hol & Hor). split; [|split; [done|by auto]].
  eapply Forall_impl; [exact Hl|]. cbn. lia.
Qed.

(** the balance factor tells which side is higher, by one *)
Definition leans (b : Z) (hl hr : nat) : Prop :=
  (b = LH /\ hl = S hr) \/ (b = EH /\ hl = hr) \/ (b = RH /\ hr = S hl).

Fixpoint balanced (t : tree) : Prop :=
  match t with
  | Leaf => True
  | Node _ _ b l r => leans b (height l) (height r) /\ balanced l /\ balanced r
  end.

(** a balanced tree has at least about the square root of 2 ^ height nodes *)
Lemma balanced_height t : balanced t -> 2 ^ Z.of_nat (height t) <= (Z.of_nat (length (ids t)) + 1) ^ 2.
Proof.
  induction t as [|i v b l IHl r IHr]; [done|]. cbn [balanced height ids length]. rewrite length_app.
  intros (Hb & Hl & Hr). specialize (IHl Hl). specialize (IHr Hr).
  rewrite Nat2Z.inj_succ, (Nat2Z.inj_succ (_ + _)), Nat2Z.inj_add, Z.pow_succ_r by lia.
  set (x := Z.of_nat (length (ids l))) in *. set (y := Z.of_nat (length (ids r))) in *.
  assert (0 <= x /\ 0 <= y) as [Hx Hy] by lia.
  assert (forall k, 0 < 2 ^ Z.of_nat k) as Hpos by (intros k; apply Z.pow_pos_nonneg; lia).
  pose proof (Hpos (height l)). pose proof (Hpos (height r)).
  assert ((2 ^ Z.of_nat (height l) = 2 * 2 ^ Z.of_nat (height r) /\ Nat.max (height l) (height r) = height l) \/
          (2 ^ Z.of_nat (height r) = 2 * 2 ^ Z.of_nat (height l) /\ Nat.max (height l) (height r) = height r) \/
          (2 ^ Z.of_nat (height l) = 2 ^ Z.of_nat (height r) /\ Nat.max (height l) (height r) = height l))
    as [[He ->]|[[He ->]|[He ->]]].
  { destruct Hb as [[_ ->]|[[_ ->]|[_ ->]]]; rewrite ?Nat2Z.inj_succ, ?Z.pow_succ_r by lia; (left + (right; left) + (right; right)); split; lia. }
  all: destruct (Z.le_ge_cases x y); nia.
Qed.

(** ** Changing links *)

Lemma set_left_other h i j p : i <> j -> set_left i p h !! j = h !! j.
Proof. apply alter_other. Qed.
Lemma set_right_other h i j p : i <> j -> set_right i p h !! j = h !! j.
Proof. apply alter_other. Qed.
Lemma set_bf_other h i j c : i <> j -> set_bf i c h !! j = h !! j.
Proof. apply alter_other. Qed.

(** the node at a place after some changes *)
Ltac look :=
  first
    [ eassumption
    | eapply set_left_lookup; look | eapply set_right_lookup; look | eapply set_bf_lookup; look
    | rewrite set_left_other by congruence; look | rewrite set_right_other by congruence; look
    | rewrite set_bf_other by congruence; look ].

(** a field of the node at a place after some changes *)
Ltac fetch := erewrite deref_some by look; cbn [mbind option_bind left right bf value].

(** a subtree none of whose nodes was changed *)
Ltac untouched := unfold set_left, set_right, set_bf; repeat (apply repr_alter; [assumption|]); eassumption.

Lemma values_set_left h i p : (value <$> set_left i p h) = (value <$> h).
Proof. by apply fields_alter. Qed.
Lemma values_set_right h i p : (value <$> set_right i p h) = (value <$> h).
Proof. by apply fields_alter. Qed.
Lemma values_set_bf h i c : (value <$> set_bf i c h) = (value <$> h).
Proof. by apply fields_alter. Qed.

Create Rewrite HintDb nodes.
#[local] Hint Rewrite values_set_left values_set_right values_set_bf : nodes.

(** the nodes [is_] of the array may change, but not their values *)
Definition only (is_ : list nat) (h h' : nodes) : Prop :=
  (forall j, j ∉ is_ -> h' !! j = h !! j) /\ (value <$> h') = (value <$> h).

Lemma only_trans is1 is2 h h1 h2 : is1 ⊆ is2 -> only is1 h h1 -> only is2 h1 h2 -> only is2 h h2.
Proof.
  intros Hi [H1 V1] [H2 V2]. split; [|congruence]. intros j Hj. rewrite H2 by done. apply H1. set_solver.
Qed.

Lemma only_mono is1 is2 h h1 : is1 ⊆ is2 -> only is1 h h1 -> only is2 h h1.
Proof. intros Hi [H1 V1]. split; [|done]. intros j Hj. apply H1. set_solver. Qed.

Ltac changed :=
  split; [intros j Hj; cbn [ids] in Hj; repeat rewrite ?not_elem_of_cons, ?not_elem_of_app in Hj; destruct_and? Hj;
          repeat first [rewrite set_left_other by congruence | rewrite set_right_other by congruence
                       | rewrite set_bf_other by congruence]; reflexivity
         |autorewrite with nodes; reflexivity].

Lemma nodup_perm (l l' : list nat) : NoDup l -> l ≡ₚ l' -> NoDup l'.
Proof. by intros H <-. Qed.

(** the nodes of a rotation are not in its subtrees *)
Lemma apart3 (i p : nat) (a b c : list nat) :
  NoDup (i :: (p :: a ++ b) ++ c) ->
  i <> p /\ (i ∉ a) /\ (i ∉ b) /\ (i ∉ c) /\ (p ∉ a) /\ (p ∉ b) /\ (p ∉ c).
Proof. rewrite NoDup_cons, NoDup_app, NoDup_cons. set_solver. Qed.

Lemma apart4 (i p q : nat) (a b c d : list nat) :
  NoDup (i :: (p :: a ++ (q :: b ++ c)) ++ d) ->
  i <> p /\ i <> q /\ p <> q /\ (i ∉ a) /\ (i ∉ b) /\ (i ∉ c) /\ (i ∉ d) /\
  (p ∉ a) /\ (p ∉ b) /\ (p ∉ c) /\ (p ∉ d) /\ (q ∉ a) /\ (q ∉ b) /\ (q ∉ c) /\ (q ∉ d).
Proof. rewrite NoDup_cons, NoDup_app, NoDup_cons, NoDup_app, NoDup_cons. set_solver. Qed.

Definition root_bf (t : tree) : Z := match t with Leaf => EH | Node _ _ b _ _ => b end.

(** what a rotation at the node [i] does *)
Definition rotates (rot : nat -> nodes -> option (nodes * link)) (h : nodes) (t : tree) (i : nat) (high : nat) : Prop :=
  exists h' p' t', rot i h = Some (h', p') /\ repr h' p' t' /\ balanced t' /\ ordered t' /\
    ids t' ≡ₚ ids t /\ keys t' ≡ₚ keys t /\ height t' = high /\ only (ids t) h h'.

Lemma avl_left_rotate_spec h i v b l r :
  repr h (Some i) (Node i v b l r) -> NoDup (ids (Node i v b l r)) -> ordered (Node i v b l r) ->
  balanced l -> balanced r -> height l = S (S (height r)) -> root_bf l <> EH ->
  rotates avl_left_rotate h (Node i v b l r) i (height l).
Proof.
  intros Hrep Hnd Hord Hbl Hbr Hh Hbf. destruct l as [|pi vp bp pl pr]; [done|]. cbn [root_bf] in Hbf.
  cbn [repr] in Hrep. destruct Hrep as (_ & ? & pr0 & Hi & (-> & ppl & ppr & Hp & Hpl & Hpr) & Hr).
  cbn [ids keys balanced ordered height] in *. destruct Hbl as (Hlean & Hbpl & Hbpr).
  destruct Hord as (Hlt & Hgt & (Hplt & Hpgt & Hopl & Hopr) & Hor).
  unfold rotates, avl_left_rotate. fetch. fetch.
  assert (bp = LH \/ bp = RH) as [-> | ->] by (destruct Hlean as [[-> _]|[[-> _]|[-> _]]]; auto; done).
  - change (LH =? LH) with true. cbv iota. fetch. assert (height pl = S (height pr)) as Hhp by (by destruct Hlean as [[_ ?]|[[? _]|[? _]]]).
    exists (set_bf i EH (set_bf pi EH (set_right pi (Some i) (set_left i ppr h)))), (Some pi), (Node pi vp EH pl (Node i v EH pr r)).
    assert (i <> pi /\ (i ∉ ids pl) /\ (i ∉ ids pr) /\ (i ∉ ids r) /\ (pi ∉ ids pl) /\ (pi ∉ ids pr) /\ (pi ∉ ids r))
      as (? & ? & ? & ? & ? & ? & ?) by (by apply apart3).
    split; [done|]. split_and!.
    + split; [done|]. eexists _, _. split; [look|]. split; [untouched|]. split; [done|]. eexists _, _. split; [look|]. split; untouched.
    + cbn [balanced height]. unfold leans. split; [right; left; split; [done|lia]|]. split; [done|]. split; [right; left; split; [done|lia]|done].
    + cbn [ordered keys]. rewrite !Forall_cons, !Forall_app in *. destruct Hlt as (? & ? & ?).
      split_and!; try done. eapply Forall_impl; [exact Hgt|]. cbn. lia.
    + cbn [ids]. solve_Permutation.
    + cbn [keys]. solve_Permutation.
    + cbn [height]. lia.
    + changed.
  - change (RH =? LH) with false. cbv iota. assert (height pr = S (height pl)) as Hhp by (by destruct Hlean as [[? _]|[[? _]|[_ ?]]]).
    destruct pr as [|qi vq bq ql qr]; [done|]. cbn [repr] in Hpr. destruct Hpr as (-> & pql & pqr & Hq & Hql & Hqr).
    cbn [ids keys balanced ordered height] in *. destruct Hbpr as (Hleanq & Hbql & Hbqr). destruct Hopr as (Hqlt & Hqgt & Hoql & Hoqr).
    assert (i <> pi /\ i <> qi /\ pi <> qi /\ (i ∉ ids pl) /\ (i ∉ ids ql) /\ (i ∉ ids qr) /\ (i ∉ ids r) /\
      (pi ∉ ids pl) /\ (pi ∉ ids ql) /\ (pi ∉ ids qr) /\ (pi ∉ ids r) /\
      (qi ∉ ids pl) /\ (qi ∉ ids ql) /\ (qi ∉ ids qr) /\ (qi ∉ ids r))
      as (? & ? & ? & ? & ? & ? & ? & ? & ? & ? & ? & ? & ? & ? & ?) by (by apply apart4).
    fetch. fetch. fetch. fetch.
    eexists _, (Some qi), (Node qi vq EH (Node pi vp (if bq =? RH then LH else EH) pl ql) (Node i v (if bq =? LH then RH else EH) qr r)).
    split; [done|].
    assert (height ql = height pl \/ S (height ql) = height pl) as Hql' by (unfold leans in Hleanq; lia).
    split_and!.
    + split; [done|]. destruct Hleanq as [[-> _]|[[-> _]|[-> _]]]; cbn [Z.eqb EH LH RH Pos.eqb];
        (eexists _, _; split; [look|]; split; (split; [done|]; eexists _, _; split; [look|]; split; untouched)).
    + cbn [balanced height]. unfold leans in *.
      destruct Hleanq as [[-> ?]|[[-> ?]|[-> ?]]]; cbn [Z.eqb EH LH RH Pos.eqb];
        split_and!; try done; (left; split; [done|lia]) || (right; left; split; [done|lia]) || (right; right; split; [done|lia]).
    + cbn [ordered keys]. rewrite !Forall_cons, !Forall_app, !Forall_cons, !Forall_app in *.
      destruct Hlt as (? & ? & ? & ? & ?), Hpgt as (? & ? & ?). split_and!; try done; try lia.
      * eapply Forall_impl; [exact Hplt|]. cbn. lia.
      * eapply Forall_impl; [exact Hgt|]. cbn. lia.
    + cbn [ids]. solve_Permutation.
    + cbn [keys]. solve_Permutation.
    + cbn [height]. unfold leans in Hleanq. lia.
    + destruct Hleanq as [[-> _]|[[-> _]|[-> _]]]; cbn [Z.eqb EH LH RH Pos.eqb]; changed.
Qed.

Lemma avl_right_rotate_spec h i v b l r :
  repr h (Some i) (Node i v b l r) -> NoDup (ids (Node i v b l r)) -> ordered (Node i v b l r) ->
  balanced l -> balanced r -> height r = S (S (height l)) -> root_bf r <> EH ->
  rotates avl_right_rotate h (Node i v b l r) i (height r).
Proof.
  intros Hrep Hnd Hord Hbl Hbr Hh Hbf. destruct r as [|pi vp bp pl pr]; [done|]. cbn [root_bf] in Hbf.
  cbn [repr] in Hrep. destruct Hrep as (_ & pl0 & ? & Hi & Hl & (-> & ppl & ppr & Hp & Hpl & Hpr)).
  cbn [ids keys balanced ordered height] in *. destruct Hbr as (Hlean & Hbpl & Hbpr).
  destruct Hord as (Hlt & Hgt & Hol & (Hplt & Hpgt & Hopl & Hopr)).
  unfold rotates, avl_right_rotate. fetch. fetch.
  assert (bp = LH \/ bp = RH) as [-> | ->] by (destruct Hlean as [[-> _]|[[-> _]|[-> _]]]; auto; done).
  2: change (RH =? RH) with true; cbv iota; fetch; assert (height pr = S (height pl)) as Hhp by (by destruct Hlean as [[? _]|[[? _]|[_ ?]]]).
  2: exists (set_bf i EH (set_bf pi EH (set_left pi (Some i) (set_right i ppl h)))), (Some pi), (Node pi vp EH (Node i v EH l pl) pr).
  2: assert (NoDup (i :: (pi :: ids pl ++ ids pr) ++ ids l)) as (? & ? & ? & ? & ? & ? & ?)%apart3
    by (eapply nodup_perm; [exact Hnd|]; solve_Permutation).
  2: split; [done|]; split_and!.
  - change (LH =? RH) with false. cbv iota. assert (height pl = S (height pr)) as Hhp by (by destruct Hlean as [[_ ?]|[[? _]|[? _]]]).
    destruct pl as [|qi vq bq ql qr]; [done|]. cbn [repr] in Hpl. destruct Hpl as (-> & pql & pqr & Hq & Hql & Hqr).
    cbn [ids keys balanced ordered height] in *. destruct Hbpl as (Hleanq & Hbql & Hbqr). destruct Hopl as (Hqlt & Hqgt & Hoql & Hoqr).
    assert (NoDup (i :: (pi :: ids pr ++ (qi :: ids ql ++ ids qr)) ++ ids l))
      as (? & ? & ? & ? & ? & ? & ? & ? & ? & ? & ? & ? & ? & ? & ?)%apart4
      by (eapply nodup_perm; [exact Hnd|]; solve_Permutation).
    fetch. fetch. fetch. fetch.
    eexists _, (Some qi), (Node qi vq EH (Node i v (if bq =? RH then LH else EH) l ql) (Node pi vp (if bq =? LH then RH else EH) qr pr)).
    split; [done|].
    assert (height qr = height pr \/ S (height qr) = height pr) as Hqr' by (unfold leans in Hleanq; lia).
    split_and!.
    + split; [done|]. destruct Hleanq as [[-> _]|[[-> _]|[-> _]]]; cbn [Z.eqb EH LH RH Pos.eqb];
        (eexists _, _; split; [look|]; split; (split; [done|]; eexists _, _; split; [look|]; split; untouched)).
    + cbn [balanced height]. unfold leans in *.
      destruct Hleanq as [[-> ?]|[[-> ?]|[-> ?]]]; cbn [Z.eqb EH LH RH Pos.eqb];
        split_and!; try done; (left; split; [done|lia]) || (right; left; split; [done|lia]) || (right; right; split; [done|lia]).
    + cbn [ordered keys]. rewrite !Forall_cons, !Forall_app, !Forall_cons, !Forall_app in *.
      destruct Hgt as (? & (? & ? & ?) & ?), Hplt as (? & ? & ?). split_and!; try done; try lia.
      * eapply Forall_impl; [exact Hlt|]. cbn. lia.
      * eapply Forall_impl; [exact Hpgt|]. cbn. lia.
    + cbn [ids]. solve_Permutation.
    + cbn [keys]. solve_Permutation.
    + cbn [height]. unfold leans in Hleanq. lia.
    + destruct Hleanq as [[-> _]|[[-> _]|[-> _]]]; cbn [Z.eqb EH LH RH Pos.eqb]; changed.
  - split; [done|]. eexists _, _. split; [look|]. split; [|untouched]. split; [done|]. eexists _, _. split; [look|]. split; untouched.
  - cbn [balanced height]. unfold leans. split; [right; left; split; [done|lia]|]. split; [|done]. split; [right; left; split; [done|lia]|done].
  - cbn [ordered keys]. rewrite !Forall_cons, !Forall_app in *. destruct Hgt as (? & ? & ?).
    split_and!; try done. eapply Forall_impl; [exact Hlt|]. cbn. lia.
  - cbn [ids]. solve_Permutation.
  - cbn [keys]. solve_Permutation.
  - cbn [height]. lia.
  - changed.
Qed.

(** ** Inserting *)

(** what the insertion of the node [node] with the value [v] makes of a tree *)
Record inserted (h : nodes) (t : tree) (node : nat) (v : Z) (h' : nodes) (p' : link) (t' : tree) (taller : bool) : Prop := Inserted {
  ins_repr : repr h' p' t';
  ins_balanced : balanced t';
  ins_ordered : ordered t';
  ins_ids : ids t' ≡ₚ node :: ids t \/ (ids t' ≡ₚ ids t /\ v ∈ keys t);
  ins_keys : forall x, x ∈ keys t' <-> x = v \/ x ∈ keys t;
  ins_height : height t' = (height t + if taller then 1 else 0)%nat;
  ins_leans : taller = true -> t <> Leaf -> root_bf t' <> EH;
  ins_only : only (node :: ids t) h h'
}.

Lemma forall_keys (P : Z -> Prop) t t' v :
  (forall x, x ∈ keys t' <-> x = v \/ x ∈ keys t) -> P v -> Forall P (keys t) -> Forall P (keys t').
Proof. intros Hk Hv. rewrite !Forall_forall. intros Ht x [->|Hx]%Hk; auto. Qed.

(** the subtree [l] of a node was replaced by [l'], and nothing else is done *)
Lemma inserted_left h i v b l r node w h0 p0 g h1 l' b' (taller : bool) :
  repr h1 (Some i) (Node i v b' l' r) -> inserted h l node w h0 p0 l' g -> leans b' (height l') (height r) ->
  w < v -> ordered (Node i v b l r) -> balanced r -> only (node :: ids (Node i v b l r)) h h1 ->
  height (Node i v b' l' r) = (height (Node i v b l r) + if taller then 1 else 0)%nat -> (taller = true -> b' <> EH) ->
  inserted h (Node i v b l r) node w h1 (Some i) (Node i v b' l' r) taller.
Proof.
  intros Hr [_ Hb Ho Hids Hk _ _ _] Hl Hw (Hlt & Hgt & Hol & Hor) Hbr Hon Hh Hbf. constructor; try done.
  - split_and!; try done. by eapply forall_keys.
  - cbn [ids keys]. destruct Hids as [->|[-> Hin]]; [left; cbn [app]; apply perm_swap|right; split; [done|set_solver]].
  - intros x. cbn [keys]. rewrite !elem_of_cons, !elem_of_app, Hk. clear. tauto.
  - intros Ht _. by apply Hbf.
Qed.

Lemma inserted_right h i v b l r node w h0 p0 g h1 r' b' (taller : bool) :
  repr h1 (Some i) (Node i v b' l r') -> inserted h r node w h0 p0 r' g -> leans b' (height l) (height r') ->
  v < w -> ordered (Node i v b l r) -> balanced l -> only (node :: ids (Node i v b l r)) h h1 ->
  height (Node i v b' l r') = (height (Node i v b l r) + if taller then 1 else 0)%nat -> (taller = true -> b' <> EH) ->
  inserted h (Node i v b l r) node w h1 (Some i) (Node i v b' l r') taller.
Proof.
  intros Hr [_ Hb Ho Hids Hk _ _ _] Hl Hw (Hlt & Hgt & Hol & Hor) Hbr Hon Hh Hbf. constructor; try done.
  - split_and!; try done. by eapply forall_keys.
  - cbn [ids keys]. destruct Hids as [->|[-> Hin]]; [left; rewrite <- Permutation_middle; apply perm_swap|right; split; [done|set_solver]].
  - intros x. cbn [keys]. rewrite !elem_of_cons, !elem_of_app, Hk. clear. tauto.
  - intros Ht _. by apply Hbf.
Qed.

(** after a rotation of the tree in which a subtree was replaced *)
Lemma inserted_rotated h t node w h1 t1 rot i high :
  rotates rot h1 t1 i high -> (ids t1 ≡ₚ node :: ids t \/ (ids t1 ≡ₚ ids t /\ w ∈ keys t)) ->
  (forall x, x ∈ keys t1 <-> x = w \/ x ∈ keys t) -> high = height t -> only (node :: ids t) h h1 ->
  exists h' p' t', rot i h1 = Some (h', p') /\ inserted h t node w h' p' t' false.
Proof.
  intros (h' & p' & t' & Hrot & Hr & Hb & Ho & Hids & Hk & Hh & Hon) Hids1 Hk1 -> Hon1. exists h', p', t'. split; [done|].
  constructor; try done.
  - destruct Hids1 as [H1|[H1 Hw]]; [left|right; split; [|done]]; by rewrite Hids.
  - intros x. by rewrite Hk.
  - by rewrite Nat.add_0_r.
  - eapply only_trans; [|exact Hon1|]; [done|]. eapply only_mono; [|exact Hon].
    intros j Hj. destruct Hids1 as [H1|[H1 _]]; rewrite H1 in Hj; set_solver.
Qed.

Lemma inserted_subset h t node v h' p' t' g : inserted h t node v h' p' t' g -> ids t' ⊆ node :: ids t.
Proof. intros [_ _ _ [H|[H _]] _ _ _ _] j; rewrite H; [done|by right]. Qed.

(** the links after a subtree was replaced *)
Lemma left_replaced h i v b l r pl pr node w h0 p0 l' g :
  h !! i = Some (TNode pl pr b v) -> repr h pr r -> NoDup (ids (Node i v b l r)) -> node ∉ ids (Node i v b l r) ->
  inserted h l node w h0 p0 l' g ->
  repr (set_left i p0 h0) (Some i) (Node i v b l' r) /\ only (node :: ids (Node i v b l r)) h (set_left i p0 h0).
Proof.
  intros Hi Hr Hnd Hn Hins. pose proof (inserted_subset _ _ _ _ _ _ _ _ Hins) as Hsub.
  destruct Hins as [Hl' _ _ _ _ _ _ [Hon Hval]]. cbn [ids] in *.
  apply NoDup_cons in Hnd as [Hi' (Hndl & Hdis & Hndr)%NoDup_app].
  assert (node <> i /\ (i ∉ ids l) /\ (i ∉ ids r) /\ (node ∉ ids r)) as (H1 & H2 & H3 & H4) by set_solver.
  assert (h0 !! i = Some (TNode pl pr b v)) as Hi0 by (rewrite Hon; [done|set_solver]). split.
  - split; [done|]. exists p0, pr. split; [look|]. split; [apply repr_alter; [set_solver|done]|].
    apply repr_alter; [done|]. apply (repr_frame h); [|done]. intros j Hj. apply Hon.
    intros [->|Hj']%elem_of_cons; [done|]. by apply (Hdis j).
  - split; [|by rewrite values_set_left]. intros j Hj. rewrite set_left_other by set_solver. apply Hon. set_solver.
Qed.

Lemma right_replaced h i v b l r pl pr node w h0 p0 r' g :
  h !! i = Some (TNode pl pr b v) -> repr h pl l -> NoDup (ids (Node i v b l r)) -> node ∉ ids (Node i v b l r) ->
  inserted h r node w h0 p0 r' g ->
  repr (set_right i p0 h0) (Some i) (Node i v b l r') /\ only (node :: ids (Node i v b l r)) h (set_right i p0 h0).
Proof.
  intros Hi Hl Hnd Hn Hins. pose proof (inserted_subset _ _ _ _ _ _ _ _ Hins) as Hsub.
  destruct Hins as [Hr' _ _ _ _ _ _ [Hon Hval]]. cbn [ids] in *.
  apply NoDup_cons in Hnd as [Hi' (Hndl & Hdis & Hndr)%NoDup_app].
  assert (node <> i /\ (i ∉ ids l) /\ (i ∉ ids r) /\ (node ∉ ids l)) as (H1 & H2 & H3 & H4) by set_solver.
  assert (h0 !! i = Some (TNode pl pr b v)) as Hi0 by (rewrite Hon; [done|set_solver]). split.
  - split; [done|]. exists pl, p0. split; [look|]. split; [|apply repr_alter; [set_solver|done]].
    apply repr_alter; [done|]. apply (repr_frame h); [|done]. intros j Hj. apply Hon.
    intros [->|Hj']%elem_of_cons; [done|]. by apply (Hdis j).
  - split; [|by rewrite values_set_right]. intros j Hj. rewrite set_right_other by set_solver. apply Hon. set_solver.
Qed.

Lemma repr_set_bf h i v b c l r :
  repr h (Some i) (Node i v b l r) -> i ∉ ids l -> i ∉ ids r -> repr (set_bf i c h) (Some i) (Node i v c l r).
Proof.
  intros (_ & pl & pr & Hi & Hl & Hr) Hil Hir. split; [done|]. exists pl, pr. split; [look|]. split; untouched.
Qed.

Lemma only_set_bf is_ h h1 i c : i ∈ is_ -> only is_ h h1 -> only is_ h (set_bf i c h1).
Proof.
  intros Hi [H V]. split; [|by rewrite values_set_bf]. intros j Hj. rewrite set_bf_other; [by apply H|]. by intros ->.
Qed.

Lemma only_refl is_ h : only is_ h h.
Proof. done. Qed.

Definition avl_inserts (t : tree) : Prop :=
  forall fuel h p node nd, (height t <= fuel)%nat -> repr h p t -> NoDup (ids t) -> node ∉ ids t ->
  h !! node = Some nd -> balanced t -> ordered t ->
  exists h' p' t' g, avl_insert fuel node h p false = Some (h', p', g) /\ inserted h t node (value nd) h' p' t' g.

Lemma only_value is_ h h' i nd : only is_ h h' -> h !! i = Some nd -> exists nd', h' !! i = Some nd' /\ value nd' = value nd.
Proof.
  intros [_ Hv] Hi. apply (f_equal (lookup i)) in Hv. rewrite !list_lookup_fmap, Hi in Hv.
  destruct (h' !! i) as [nd'|]; [|done]. injection Hv as Hv. by exists nd'.
Qed.

Lemma avl_insert_left i v b l r fuel h pl pr node nd :
  avl_inserts l -> (height (Node i v b l r) <= S fuel)%nat -> h !! i = Some (TNode pl pr b v) -> repr h pl l -> repr h pr r ->
  NoDup (ids (Node i v b l r)) -> node ∉ ids (Node i v b l r) -> h !! node = Some nd ->
  balanced (Node i v b l r) -> ordered (Node i v b l r) -> value nd < v ->
  exists h' p' t' g, avl_insert (S fuel) node h (Some i) false = Some (h', p', g) /\
    inserted h (Node i v b l r) node (value nd) h' p' t' g.
Proof.
  intros IH Hf Hi Hl Hr Hnd Hn Hnode Hbal Hord Hv. pose proof Hbal as (Hb & Hbl & Hbr). pose proof Hord as (_ & _ & Hol & _).
  pose proof Hnd as Hnd'. cbn [ids] in Hnd'. apply NoDup_cons in Hnd' as [Hi' (Hndl & Hdis & Hndr)%NoDup_app].
  assert ((i ∉ ids l) /\ (i ∉ ids r) /\ (node ∉ ids l) /\ node <> i) as (Hil & Hir & Hnl & Hni) by (cbn [ids] in *; set_solver).
  cbn [height] in Hf. destruct (IH fuel h pl node nd ltac:(lia) Hl Hndl Hnl Hnode Hbl Hol) as (h0 & p0 & l' & g & H0 & Hins).
  destruct (left_replaced _ _ _ _ _ _ _ _ _ _ _ _ _ _ Hi Hr Hnd Hn Hins) as [Hrep Hon].
  cbn [avl_insert]. rewrite (deref_some value _ _ _ Hnode), (deref_some value _ _ _ Hi), (deref_some left _ _ _ Hi). cbn [mbind option_bind value left].
  rewrite (proj2 (Z.ltb_lt _ _) Hv), H0. cbn [mbind option_bind]. pose proof (inserted_subset _ _ _ _ _ _ _ _ Hins) as Hsub.
  assert (i ∉ ids l') as Hil' by set_solver. pose proof (ins_height _ _ _ _ _ _ _ _ Hins) as Hh.
  assert (set_left i p0 h0 !! i = Some (TNode p0 pr b v)) as Hi1.
  { apply (set_left_lookup _ _ _ pl). destruct (ins_only _ _ _ _ _ _ _ _ Hins) as [Ho _]. rewrite Ho; [done|set_solver]. }
  destruct g.
  - erewrite deref_some by eassumption. cbn [mbind option_bind bf]. destruct Hb as [[-> Hb]|[[-> Hb]|[-> Hb]]]; cbn [Z.eqb EH LH RH Pos.eqb].
    + destruct (avl_left_rotate_spec _ i v LH l' r Hrep) as (h2 & p2 & t2 & Hrot).
      * cbn [ids]. destruct (ins_ids _ _ _ _ _ _ _ _ Hins) as [Hp|[Hp _]]; rewrite Hp; [|done].
        apply (nodup_perm (node :: i :: ids l ++ ids r)); [apply NoDup_cons; by split|]. solve_Permutation.
      * destruct Hord as (Hlt & Hgt & _ & Hor). split_and!; [|done|by apply Hins|done].
        by eapply forall_keys; [apply Hins|..].
      * apply Hins.
      * done.
      * lia.
      * apply (ins_leans _ _ _ _ _ _ _ _ Hins); [done|]. by intros ->.
      * destruct (inserted_rotated h (Node i v LH l r) node (value nd) (set_left i p0 h0) (Node i v LH l' r) avl_left_rotate i (height l'))
          as (h3 & p3 & t3 & -> & Hins3).
        -- by exists h2, p2, t2.
        -- cbn [ids keys]. destruct (ins_ids _ _ _ _ _ _ _ _ Hins) as [->|[-> Hw]]; [left; solve_Permutation|right; split; [done|set_solver]].
        -- intros x. cbn [keys]. rewrite !elem_of_cons, !elem_of_app, (ins_keys _ _ _ _ _ _ _ _ Hins). clear. tauto.
        -- cbn [height]. lia.
        -- done.
        -- cbn [mbind option_bind]. by exists h3, p3, t3, false.
    + eexists _, _, (Node i v LH l' r), true. split; [done|]. eapply inserted_left; try done.
      * by eapply repr_set_bf.
      * left. split; [done|lia].
      * apply only_set_bf; [cbn [ids]; set_solver|done].
      * cbn [height]. lia.
    + eexists _, _, (Node i v EH l' r), false. split; [done|]. eapply inserted_left; try done.
      * by eapply repr_set_bf.
      * right; left. split; [done|lia].
      * apply only_set_bf; [cbn [ids]; set_solver|done].
      * cbn [height]. lia.
  - eexists _, _, (Node i v b l' r), false. split; [done|]. rewrite Nat.add_0_r in Hh.
    eapply inserted_left; try done; [by rewrite Hh|]. cbn [height]. lia.
Qed.

Lemma avl_insert_right i v b l r fuel h pl pr node nd :
  avl_inserts r -> (height (Node i v b l r) <= S fuel)%nat -> h !! i = Some (TNode pl pr b v) -> repr h pl l -> repr h pr r ->
  NoDup (ids (Node i v b l r)) -> node ∉ ids (Node i v b l r) -> h !! node = Some nd ->
  balanced (Node i v b l r) -> ordered (Node i v b l r) -> v < value nd ->
  exists h' p' t' g, avl_insert (S fuel) node h (Some i) false = Some (h', p', g) /\
    inserted h (Node i v b l r) node (value nd) h' p' t' g.
Proof.
  intros IH Hf Hi Hl Hr Hnd Hn Hnode Hbal Hord Hv. pose proof Hbal as (Hb & Hbl & Hbr). pose proof Hord as (_ & _ & _ & Hor).
  pose proof Hnd as Hnd'. cbn [ids] in Hnd'. apply NoDup_cons in Hnd' as [Hi' (Hndl & Hdis & Hndr)%NoDup_app].
  assert ((i ∉ ids l) /\ (i ∉ ids r) /\ (node ∉ ids r) /\ node <> i) as (Hil & Hir & Hnr & Hni) by (cbn [ids] in *; set_solver).
  cbn [height] in Hf. destruct (IH fuel h pr node nd ltac:(lia) Hr Hndr Hnr Hnode Hbr Hor) as (h0 & p0 & r' & g & H0 & Hins).
  destruct (right_replaced _ _ _ _ _ _ _ _ _ _ _ _ _ _ Hi Hl Hnd Hn Hins) as [Hrep Hon].
  cbn [avl_insert]. rewrite (deref_some value _ _ _ Hnode), (deref_some value _ _ _ Hi), (deref_some right _ _ _ Hi). cbn [mbind option_bind value right].
  rewrite (proj2 (Z.ltb_ge _ _) (Z.lt_le_incl _ _ Hv)), (proj2 (Z.ltb_lt _ _) Hv), H0. cbn [mbind option_bind].
  pose proof (inserted_subset _ _ _ _ _ _ _ _ Hins) as Hsub.
  assert (i ∉ ids r') as Hir' by set_solver. pose proof (ins_height _ _ _ _ _ _ _ _ Hins) as Hh.
  assert (set_right i p0 h0 !! i = Some (TNode pl p0 b v)) as Hi1.
  { apply (set_right_lookup _ _ _ _ pr). destruct (ins_only _ _ _ _ _ _ _ _ Hins) as [Ho _]. rewrite Ho; [done|set_solver]. }
  destruct g.
  - rewrite (deref_some bf _ _ _ Hi1). cbn [mbind option_bind bf]. destruct Hb as [[-> Hb]|[[-> Hb]|[-> Hb]]]; cbn [Z.eqb EH LH RH Pos.eqb].
    + eexists _, _, (Node i v EH l r'), false. split; [done|]. eapply inserted_right; try done.
      * by eapply repr_set_bf.
      * right; left. split; [done|lia].
      * apply only_set_bf; [cbn [ids]; set_solver|done].
      * cbn [height]. lia.
    + eexists _, _, (Node i v RH l r'), true. split; [done|]. eapply inserted_right; try done.
      * by eapply repr_set_bf.
      * right; right. split; [done|lia].
      * apply only_set_bf; [cbn [ids]; set_solver|done].
      * cbn [height]. lia.
    + destruct (avl_right_rotate_spec _ i v RH l r' Hrep) as (h2 & p2 & t2 & Hrot).
      * cbn [ids]. destruct (ins_ids _ _ _ _ _ _ _ _ Hins) as [Hp|[Hp _]]; rewrite Hp; [|done].
        apply (nodup_perm (node :: i :: ids l ++ ids r)); [apply NoDup_cons; by split|]. solve_Permutation.
      * destruct Hord as (Hlt & Hgt & Hol & _). split_and!; [done| |done|by apply Hins].
        by eapply forall_keys; [apply Hins|..].
      * done.
      * apply Hins.
      * lia.
      * apply (ins_leans _ _ _ _ _ _ _ _ Hins); [done|]. by intros ->.
      * destruct (inserted_rotated h (Node i v RH l r) node (value nd) (set_right i p0 h0) (Node i v RH l r') avl_right_rotate i (height r'))
          as (h3 & p3 & t3 & -> & Hins3).
        -- by exists h2, p2, t2.
        -- cbn [ids keys]. destruct (ins_ids _ _ _ _ _ _ _ _ Hins) as [->|[-> Hw]]; [left; solve_Permutation|right; split; [done|set_solver]].
        -- intros x. cbn [keys]. rewrite !elem_of_cons, !elem_of_app, (ins_keys _ _ _ _ _ _ _ _ Hins). clear. tauto.
        -- cbn [height]. lia.
        -- done.
        -- cbn [mbind option_bind]. by exists h3, p3, t3, false.
  - eexists _, _, (Node i v b l r'), false. split; [done|]. rewrite Nat.add_0_r in Hh.
    eapply inserted_right; try done; [by rewrite Hh|]. cbn [height]. lia.
Qed.

Lemma avl_insert_leaf fuel h node nd :
  h !! node = Some nd -> exists h', avl_insert fuel node h None false = Some (h', Some node, true) /\
    inserted h Leaf node (value nd) h' (Some node) (Node node (value nd) EH Leaf Leaf) true.
Proof.
  intros Hnode. destruct nd as [pl pr b v]. eexists. split; [by destruct fuel|]. cbn [value].
  constructor; try done.
  - split; [done|]. exists None, None. split; [look|done].
  - split; [by right; left|done].
  - by left.
  - intros x. cbn [keys app]. set_solver.
  - changed.
Qed.

Lemma avl_insert_spec t : avl_inserts t.
Proof.
  induction t as [|i v b l IHl r IHr]; intros fuel h p node nd Hf Hr Hnd Hn Hnode Hb Ho.
  - cbn [repr] in Hr. subst p. destruct (avl_insert_leaf fuel h node nd Hnode) as (h' & -> & Hins). by eexists _, _, _, _.
  - pose proof Hr as (-> & pl & pr & Hi & Hl & Hr'). destruct fuel as [|fuel]; [cbn in Hf; lia|].
    destruct (Z.lt_trichotomy (value nd) v) as [Hv|[Hv|Hv]].
    + by apply (avl_insert_left i v b l r fuel h pl pr).
    + exists h, (Some i), (Node i v b l r), false. split.
      * cbn [avl_insert]. rewrite (deref_some value _ _ _ Hnode), (deref_some value _ _ _ Hi). cbn [mbind option_bind value].
        by rewrite Hv, Z.ltb_irrefl.
      * assert (value nd ∈ keys (Node i v b l r)) as Hin by (cbn [keys]; rewrite Hv; left).
        constructor; try (done || by rewrite Nat.add_0_r); [by right|]. intros x. split; [by right|]. by intros [->|Hx].
    + by apply (avl_insert_right i v b l r fuel h pl pr).
Qed.

(** ** The AVL method *)

(** the depth that a tree of [n] nodes does not exceed *)
Definition avl_depth (n : nat) : nat := 2 * Nat.log2 (n + 1) + 1.

Lemma balanced_depth t n : balanced t -> (length (ids t) <= n)%nat -> (height t <= avl_depth n)%nat.
Proof.
  intros Hb%balanced_height Hn. unfold avl_depth. pose proof (Nat.log2_spec (n + 1) ltac:(lia)) as [_ Hlog].
  set (k := Nat.log2 (n + 1)) in *. destruct (Nat.le_gt_cases (height t) (2 * k + 1)) as [?|Hgt]; [done|exfalso].
  assert ((n + 1) ^ 2 < 2 ^ (2 * S k))%nat as H1.
  { replace (2 * S k)%nat with (S k * 2)%nat by lia. rewrite Nat.pow_mul_r. by apply Nat.pow_lt_mono_l. }
  assert (2 ^ (2 * S k) <= 2 ^ height t)%nat as H2 by (apply Nat.pow_le_mono_r; lia).
  assert (Z.of_nat (2 ^ height t) <= Z.of_nat ((n + 1) ^ 2)) as H3.
  { rewrite !Nat2Z.inj_pow, Nat2Z.inj_add. change (Z.of_nat 2) with 2. change (Z.of_nat 1) with 1.
    etransitivity; [exact Hb|]. apply Z.pow_le_mono_l. lia. }
  lia.
Qed.

(** a tree of some of the nodes of the array with all values of the nodes [done] *)
Record avl_of (h : nodes) (p : link) (done : list nat) (t : tree) : Prop := AvlOf {
  avl_repr : repr h p t;
  avl_balanced : balanced t;
  avl_ordered : ordered t;
  avl_nodup : NoDup (ids t);
  avl_ids : ids t ⊆ done;
  avl_keys : forall i, i ∈ done -> exists nd, h !! i = Some nd /\ value nd ∈ keys t
}.

Lemma nodup_length (l l' : list nat) : NoDup l -> l ⊆ l' -> (length l <= length l')%nat.
Proof. intros Hnd Hsub. apply submseteq_length, NoDup_submseteq; [done|]. intros x. apply Hsub. Qed.

Lemma avl_insert_at_spec fuel h p done t i :
  avl_of h p done t -> i ∉ done -> (i < length h)%nat -> (avl_depth (length done) <= fuel)%nat ->
  exists h' p' t', avl_insert_at fuel i (h, p) = Some (h', p') /\ avl_of h' p' (i :: done) t' /\ (value <$> h') = (value <$> h).
Proof.
  intros [Hr Hb Ho Hnd Hsub Hk] Hi Hlt Hf. destruct (lookup_lt_is_Some_2 h i Hlt) as [nd Hnode].
  assert ((height t <= fuel)%nat) as Hh by (etransitivity; [apply balanced_depth; [done|by apply nodup_length]|done]).
  assert (i ∉ ids t) as Hit by (intros Hi'; by apply Hi, Hsub).
  destruct (avl_insert_spec t fuel h p i nd Hh Hr Hnd Hit Hnode Hb Ho) as (h' & p' & t' & g & H & Hins).
  unfold avl_insert_at. cbn [fst snd]. rewrite H. exists h', p', t'. split; [done|].
  pose proof (ins_only _ _ _ _ _ _ _ _ Hins) as Hon. pose proof (ins_keys _ _ _ _ _ _ _ _ Hins) as Hkeys.
  split; [|apply Hon]. constructor; [apply Hins..| | |].
  - destruct (ins_ids _ _ _ _ _ _ _ _ Hins) as [->|[-> _]]; [apply NoDup_cons|]; done.
  - intros j Hj%(inserted_subset _ _ _ _ _ _ _ _ Hins). set_solver.
  - intros j [->|Hj]%elem_of_cons.
    + destruct (only_value _ _ _ _ _ Hon Hnode) as (nd' & Hnd' & Hv). exists nd'. split; [done|]. apply Hkeys. by left.
    + destruct (Hk j Hj) as (ndj & Hndj & Hin). destruct (only_value _ _ _ _ _ Hon Hndj) as (nd' & Hnd' & Hv).
      exists nd'. split; [done|]. apply Hkeys. right. by rewrite Hv.
Qed.

Lemma avl_insert_all fuel is_ h p done t :
  avl_of h p done t -> NoDup (is_ ++ done) -> Forall (fun i => (i < length h)%nat) is_ ->
  (avl_depth (length (is_ ++ done)) <= fuel)%nat ->
  exists h' p' t' done', insert_each (avl_insert_at fuel) is_ (h, p) = Some (h', p') /\ avl_of h' p' done' t' /\
    done' ≡ₚ is_ ++ done /\ (value <$> h') = (value <$> h).
Proof.
  revert h p done t. induction is_ as [|i is_ IH]; intros h p done t Ht Hnd Hlt Hf; [by exists h, p, t, done|].
  cbn [app] in Hnd. apply NoDup_cons in Hnd as [Hi Hnd]. apply Forall_cons in Hlt as [Hi' Hlt]. cbn [insert_each].
  assert (forall a b, (a <= b)%nat -> (avl_depth a <= avl_depth b)%nat) as Hmono
    by (intros a b Hab; unfold avl_depth; pose proof (Nat.log2_le_mono (a + 1) (b + 1)); lia).
  destruct (avl_insert_at_spec fuel h p done t i Ht) as (h1 & p1 & t1 & -> & Ht1 & Hv1); [set_solver|done| |].
  { etransitivity; [|exact Hf]. apply Hmono. cbn [app length]. rewrite length_app. lia. }
  cbn [mbind option_bind]. assert (is_ ++ i :: done ≡ₚ i :: is_ ++ done) as Hp by (by rewrite <- Permutation_middle).
  destruct (IH h1 p1 (i :: done) t1 Ht1) as (h' & p' & t' & done' & -> & Ht' & Hd & Hv').
  - rewrite Hp. by apply NoDup_cons.
  - assert (length h1 = length h) as -> by (by rewrite <- (length_fmap value h1), Hv1, length_fmap). done.
  - by rewrite Hp.
  - exists h', p', t', done'. split; [done|]. split; [done|]. split; [by rewrite Hd, Hp|congruence].
Qed.

Lemma avl_remove_spec fuel h p t : repr h p t -> (height t <= fuel)%nat -> avl_remove_tree fuel p h = Some tt.
Proof.
  revert fuel p. induction t as [|i v b l IHl r IHr]; intros fuel p Hr Hf; cbn [repr height] in *.
  - subst p. by destruct fuel.
  - destruct Hr as (-> & pl & pr & Hi & Hl & Hr). destruct fuel as [|fuel]; [lia|]. cbn [avl_remove_tree].
    rewrite (deref_some left _ _ _ Hi), (deref_some right _ _ _ Hi). cbn [mbind option_bind left right].
    rewrite (IHl fuel pl Hl) by lia. cbn [mbind option_bind]. apply IHr; [done|lia].
Qed.

(** The AVL tree stressor finds every value it has inserted, whatever the values
    and whatever the links of the nodes were before; its insertions, searches and
    the final walk go no deeper than about twice the logarithm of the number of nodes. *)
Lemma stress_tree_avl_finds fuel h :
  (avl_depth (length h) <= fuel)%nat ->
  exists h', stress_tree_avl fuel h = Some (h', []) /\ (value <$> h') = (value <$> h).
Proof.
  intros Hf. unfold stress_tree_avl.
  destruct (avl_insert_all fuel (seq 0 (length h)) h None [] Leaf) as (h' & p & t & done' & -> & Ht & Hd & Hv).
  - constructor; try done; [constructor|]. intros i Hi. by apply not_elem_of_nil in Hi.
  - rewrite app_nil_r. apply NoDup_seq.
  - apply Forall_forall. intros i Hi%elem_of_seq. lia.
  - by rewrite app_nil_r, length_seq.
  - rewrite app_nil_r in Hd. cbn [mbind option_bind].
    assert (length h' = length h) as Hlen by (by rewrite <- (length_fmap value h'), Hv, length_fmap).
    assert ((height t <= fuel)%nat) as Hh.
    { etransitivity; [|exact Hf]. apply balanced_depth; [apply Ht|]. rewrite <- (length_seq (length h) 0), <- Hd.
      apply nodup_length; apply Ht. }
    rewrite <- Hlen. unfold avl_find. rewrite (find_all fuel h' p t); [|apply Ht|apply ordered_search, Ht|done|].
    + cbn [mbind option_bind]. rewrite (avl_remove_spec fuel h' p t) by (done || apply Ht). cbn [mbind option_bind]. by exists h'.
    + intros v (nd & -> & (i & Hi)%list_elem_of_lookup)%list_elem_of_fmap.
      destruct (avl_keys _ _ _ _ Ht i) as (nd' & Hi' & Hin); [rewrite Hd, elem_of_seq; apply lookup_lt_Some in Hi; lia|].
      rewrite Hi in Hi'. by injection Hi' as <-.
Qed.

(** ** The stressor *)

(** the rounds that are completed *)
Fixpoint rounds (evs : list tree_event) : Z :=
  match evs with
  | RoundDone true :: evs => 1 + rounds evs
  | RoundDone false :: _ => 1
  | _ => 0
  end.

(** the flag is found cleared, or the alarm comes *)
Definition stops (evs : list tree_event) : Prop := RoundDone false ∈ evs \/ Alarmed ∈ evs.

Lemma tree_values_length n v bit r : length (tree_values n v bit r).1 = n.
Proof.
  revert v bit r. induction n as [|n IH]; intros v bit r; [done|]. cbn [tree_values].
  destruct (if negb (c_true bit) then _ else _) as [[v' bit'] r']. specialize (IH (ror64 v') bit' r').
  destruct (tree_values n (ror64 v') bit' r') as [vs r'']. cbn [fst length] in *. lia.
Qed.

(** a method that finds what it inserts, in every round *)
Lemma tree_rounds_spec (P : nodes -> Prop) func evs h r errors c :
  (forall h, P h -> exists h', func h = Some (h', []) /\ P h') ->
  (forall h f, P h -> P ((fun nd => TNode (left nd) (right nd) (bf nd) (f (value nd))) <$> h)) ->
  P h -> stops evs -> tree_rounds func evs h r errors c = Some (errors, u64 (c + rounds evs)) \/ rounds evs = 0 /\ tree_rounds func evs h r errors c = Some (errors, c).
Proof.
  intros Hfunc Hvals. revert h r errors c. induction evs as [|ev evs IH]; intros h r errors c Hh Hs.
  { destruct Hs as [H|H]; by apply not_elem_of_nil in H. }
  destruct ev as [keep|]; [|by right]. left. cbn [tree_rounds rounds]. destruct (Hfunc h Hh) as (h1 & -> & Hh1).
  cbn [mbind option_bind]. destruct (mwc64 r) as [rnd r']. rewrite app_nil_r. destruct keep; [|done].
  destruct (IH _ r' errors (u64 (c + 1)) (Hvals h1 (fun v => ror64 (v .^ rnd)) Hh1)) as [-> | [-> ->]].
  - destruct Hs as [[[=]|H]%elem_of_cons|[[=]|H]%elem_of_cons]; [by left|by right].
  - do 2 f_equal. unfold u64. rewrite Zplus_mod_idemp_l. f_equal. lia.
  - by rewrite Z.add_0_r.
Qed.

(** (C25) The tree stressor with the binary or the AVL method never reports a node that
    is not found, for any number of nodes and any random values, until it is
    stopped, and counts its rounds; the searches of the AVL method take a number of
    steps that is logarithmic in the number of nodes. *)
Theorem stress_tree_finds method n evs r :
  method ∈ [stress_tree_binary n; stress_tree_avl (avl_depth n)] -> stops evs ->
  stress_tree method n evs r = Some ([], u64 (rounds evs)).
Proof.
  intros Hm Hs. unfold stress_tree. pose proof (tree_values_length n 0 0 r) as Hlen.
  destruct (tree_values n 0 0 r) as [vs r']. cbn [fst] in Hlen.
  apply elem_of_cons in Hm as [-> | ->%list_elem_of_singleton].
  - destruct (tree_rounds_spec (fun h => length h = n /\ Forall (fun nd => left nd = None /\ right nd = None) h)
      (stress_tree_binary n) evs (TNode None None 0 <$> vs) r' [] 0) as [-> | [-> ->]]; try done.
    + intros h [Hl Hnull]. exists h. split; [|done]. apply stress_tree_binary_finds; [done|lia].
    + intros h f [Hl Hnull]. split; [by rewrite length_fmap|]. by apply Forall_fmap.
    + split; [by rewrite length_fmap|]. apply Forall_fmap, Forall_true. done.
  - destruct (tree_rounds_spec (fun h => length h = n) (stress_tree_avl (avl_depth n)) evs (TNode None None 0 <$> vs) r' [] 0)
      as [-> | [-> ->]]; try done.
    + intros h Hl. destruct (stress_tree_avl_finds (avl_depth n) h) as (h' & -> & Hv); [by rewrite Hl|]. exists h'. split; [done|].
      by rewrite <- (length_fmap value h'), Hv, length_fmap.
    + intros h f Hl. by rewrite length_fmap.
    + by rewrite length_fmap.
Qed.

Lemma stress_tree_finds_witness :
  stress_tree (stress_tree_avl (avl_depth 20)) 20 [RoundDone true; RoundDone false] mwc_init = Some ([], 2).
Proof.
  apply (stress_tree_finds (stress_tree_avl (avl_depth 20)) 20 [RoundDone true; RoundDone false] mwc_init).
  - right. left.
  - left. right. left.
Defined.

(** ** Links that are not null

    [binary_insert()] does not set the links of the node it inserts. *)

(** a pointer of the array or null *)
Definition link_ok (h : nodes) (p : link) : Prop := match p with None => True | Some i => (i < length h)%nat end.

(** When a node has a link left over from another method, which shares its place,
    the binary method may never end, although every link is one of the nodes: with
    two nodes and a link from the first to the second, the second is linked to
    itself, and the search for its place does not stop. *)
Theorem binary_stale_links :
  exists h, Forall (fun nd => link_ok h (left nd) /\ link_ok h (right nd)) h /\
    forall fuel, stress_tree_binary fuel h = None.
Proof.
  exists [TNode (Some 1%nat) None 0 5; TNode None None 0 5; TNode None None 0 5]. split; [repeat constructor; cbn; lia|].
  intros fuel. unfold stress_tree_binary. cbn [length seq insert_each].
  assert (forall fuel at_, binary_place fuel [TNode (Some 1%nat) None 0 5; TNode (Some 1%nat) None 0 5; TNode None None 0 5]
    5 (Some 1%nat) at_ = None) as Hloop.
  { clear. induction fuel as [|fuel IH]; intros at_; [done|]. cbn. apply IH. }
  destruct fuel as [|[|fuel]]; [done|done|]. unfold binary_insert, deref. cbn.
  assert (forall h v at_, binary_place fuel h v None at_ = Some at_) as -> by (by destruct fuel). cbn. by rewrite Hloop.
Qed.
