(* ===== verification/TreeBsd.v ===== *)
(** * The red-black and splay methods of the tree stressor (stress-tree.c)

    The trees are the macros of libbsd, which are not part of the sources: the class
    [BsdTree] has the operations that the stressor uses, on the array of nodes and
    on the root, whose type is the library's; [BsdTreeLaws] is what the library's
    manual says of them.  The operations may change any link of any node.

    - [bsd_methods_find]: with such a library the two methods report nothing, remove
      every node they inserted, and leave the values as they were. *)

From S2P Require Import Prelude Mwc Tree TreeProofs AvlProofs.

(** [RB_INIT], [RB_FIND], [RB_INSERT], [RB_MIN], [RB_NEXT] and [RB_REMOVE], and those of the splay trees *)
Class BsdTree (H : Type) := {
  bsd_init : H;
  bsd_find : nat -> nodes * H -> link * (nodes * H);
  bsd_insert : nat -> nodes * H -> nodes * H;
  bsd_min : nodes * H -> link * (nodes * H);
  bsd_next : nat -> nodes * H -> link * (nodes * H);
  bsd_remove : nat -> nodes * H -> nodes * H
}.

(** [tree_node_cmp_fwd()], on the values *)
Definition tree_node_cmp_fwd (v1 v2 : Z) : Z := if v1 =? v2 then 0 else if v2 <? v1 then 1 else -1.

Section Methods.
Context {H : Type} `{BsdTree H}.

(** nodes with a value that is there already are not inserted *)
Definition bsd_insert_new (i : nat) (s : nodes * H) : option (nodes * H) :=
  let '(res, s) := bsd_find i s in
  Some (if res is None then bsd_insert i s else s).

(** the nodes not found, which are reported *)
Fixpoint bsd_find_each (is_ : list nat) (s : nodes * H) : list nat * (nodes * H) :=
  match is_ with
  | [] => ([], s)
  | i :: is_ =>
      let '(found, s) := bsd_find i s in
      let '(missing, s) := bsd_find_each is_ s in
      (if found is None then i :: missing else missing, s)
  end.

(** [for (node = MIN; node; node = next)] *)
Fixpoint bsd_remove_all (fuel : nat) (node : link) (s : nodes * H) : option (nodes * H) :=
  match node, fuel with
  | None, _ => Some s
  | Some _, O => None
  | Some i, S fuel =>
      let '(next, s) := bsd_next i s in
      bsd_remove_all fuel next (bsd_remove i s)
  end.

(** the nodes and the root afterwards, and the errors reported *)
Definition stress_tree_bsd (h : nodes) : option (nodes * H * list nat) :=
  let is_ := seq 0 (length h) in
  s ← insert_each bsd_insert_new is_ (h, bsd_init);
  let '(errors, s) := bsd_find_each is_ s in
  let '(node, s) := bsd_min s in
  s ← bsd_remove_all (length h) node s;
  Some (s, errors).
End Methods.

Definition stress_tree_rb {H} (lib : BsdTree H) (h : nodes) : option (nodes * list nat) :=
  '(s, errors) ← stress_tree_bsd h; Some (s.1, errors).
Definition stress_tree_splay {H} (lib : BsdTree H) (h : nodes) : option (nodes * list nat) :=
  '(s, errors) ← stress_tree_bsd h; Some (s.1, errors).

Lemma cmp_zero v1 v2 : tree_node_cmp_fwd v1 v2 = 0 <-> v1 = v2.
Proof. unfold tree_node_cmp_fwd. destruct (Z.eqb_spec v1 v2); [done|]. by destruct (v2 <? v1). Qed.

(** ** What the library promises *)

(** the values of the nodes *)
Definition values (h : nodes) : list Z := value <$> h.

(** the tree holds the nodes [l], in its order *)
Class BsdTreeLaws (H : Type) `{BsdTree H} := {
  holds_nodes : nodes * H -> list nat -> Prop;
  init_law h : holds_nodes (h, bsd_init) [];
  find_law i s l : holds_nodes s l -> (i < length s.1)%nat ->
    let '(res, s') := bsd_find i s in
    values s'.1 = values s.1 /\ holds_nodes s' l /\
    (forall j, res = Some j -> j ∈ l /\ tree_node_cmp_fwd (values s.1 !!! j) (values s.1 !!! i) = 0) /\
    (res = None -> forall j, j ∈ l -> tree_node_cmp_fwd (values s.1 !!! j) (values s.1 !!! i) <> 0);
  insert_law i s l : holds_nodes s l -> (i < length s.1)%nat -> (forall j, j ∈ l -> tree_node_cmp_fwd (values s.1 !!! j) (values s.1 !!! i) <> 0) ->
    values (bsd_insert i s).1 = values s.1 /\ exists l1 l2, l = l1 ++ l2 /\ holds_nodes (bsd_insert i s) (l1 ++ i :: l2);
  min_law s l : holds_nodes s l ->
    let '(res, s') := bsd_min s in values s'.1 = values s.1 /\ holds_nodes s' l /\ res = head l;
  next_law i s l1 l2 : holds_nodes s (l1 ++ i :: l2) ->
    let '(res, s') := bsd_next i s in values s'.1 = values s.1 /\ holds_nodes s' (l1 ++ i :: l2) /\ res = head l2;
  remove_law i s l1 l2 : holds_nodes s (l1 ++ i :: l2) ->
    values (bsd_remove i s).1 = values s.1 /\ holds_nodes (bsd_remove i s) (l1 ++ l2)
}.

Section Proofs.
Context {H : Type} `{BsdTreeLaws H}.

Lemma length_values h : length (values h) = length h.
Proof. apply length_fmap. Qed.

(** the nodes [is_] were offered: each has its value in the tree *)
Definition offered (vs : list Z) (is_ : list nat) (s : nodes * H) : Prop :=
  values s.1 = vs /\ exists l, holds_nodes s l /\ (forall j, j ∈ l -> (j < length vs)%nat) /\ (length l <= length is_)%nat /\
    forall i, i ∈ is_ -> exists j, j ∈ l /\ tree_node_cmp_fwd (vs !!! j) (vs !!! i) = 0.

Lemma insert_new_offered vs is_ i s :
  offered vs is_ s -> (i < length vs)%nat -> exists s', bsd_insert_new i s = Some s' /\ offered vs (is_ ++ [i]) s'.
Proof.
  intros (Hv & l & Hl & Hb & Hlen & Ho) Hi. unfold bsd_insert_new.
  assert (i < length s.1)%nat as Hi' by (by rewrite <- length_values, Hv).
  pose proof (find_law i s l Hl Hi') as Hf. destruct (bsd_find i s) as [res s1]. destruct Hf as (Hv1 & Hl1 & Hsome & Hnone).
  rewrite Hv in *. eexists. split; [done|]. destruct res as [j|].
  - destruct (Hsome j eq_refl) as [Hj Hjv]. split; [done|]. exists l. split; [done|]. split; [done|]. rewrite length_app. split; [lia|].
    intros k [Hk|Hk%list_elem_of_singleton]%elem_of_app; [by apply Ho|subst k; by exists j].
  - destruct (insert_law i s1 l Hl1) as (Hv2 & l1 & l2 & -> & Hl2); [by rewrite <- length_values, Hv1|by rewrite Hv1; apply Hnone|].
    split; [by rewrite Hv2|]. exists (l1 ++ i :: l2). split; [done|]. split; [|split].
    + intros j [Hj|[-> |Hj]%elem_of_cons]%elem_of_app; [apply Hb|done|apply Hb]; set_solver.
    + rewrite !length_app in *. cbn. lia.
    + intros k [Hk|Hk%list_elem_of_singleton]%elem_of_app; [|subst k; exists i; split; [set_solver|by apply cmp_zero]].
      destruct (Ho k Hk) as (j & Hj & Hjv). exists j. split; [set_solver|done].
Qed.

Lemma insert_each_offered vs todo done_ s :
  offered vs done_ s -> Forall (fun i => i < length vs)%nat todo ->
  exists s', insert_each bsd_insert_new todo s = Some s' /\ offered vs (done_ ++ todo) s'.
Proof.
  revert done_ s. induction todo as [|i todo IH]; intros done_ s Ho Hb.
  - exists s. by rewrite app_nil_r.
  - apply Forall_cons in Hb as [Hi Hb]. destruct (insert_new_offered _ _ _ _ Ho Hi) as (s1 & E & Ho1). cbn [insert_each]. rewrite E.
    cbn [mbind option_bind]. destruct (IH _ _ Ho1 Hb) as (s2 & -> & Ho2). exists s2. by rewrite <- app_assoc in Ho2.
Qed.

Lemma find_each_offered vs todo is_ s :
  offered vs is_ s -> Forall (fun i => i < length vs)%nat todo -> todo ⊆ is_ ->
  exists s', bsd_find_each todo s = ([], s') /\ offered vs is_ s'.
Proof.
  revert s. induction todo as [|i todo IH]; intros s Ho Hb Hs; [by exists s|].
  apply Forall_cons in Hb as [Hi Hb]. destruct Ho as (Hv & l & Hl & Hbl & Hlen & Ho). cbn [bsd_find_each].
  assert (i < length s.1)%nat as Hi' by (by rewrite <- length_values, Hv).
  pose proof (find_law i s l Hl Hi') as Hf. destruct (bsd_find i s) as [res s1]. destruct Hf as (Hv1 & Hl1 & _ & Hnone). rewrite Hv in *.
  destruct (IH s1) as (s2 & -> & Ho2); [by split; [|exists l]|done|set_solver|].
  destruct res as [j|]; [by exists s2|]. destruct (Ho i) as (j & Hj & Hjv); [set_solver|]. by destruct (Hnone eq_refl j Hj).
Qed.

Lemma remove_all_empties vs l s fuel :
  values s.1 = vs -> holds_nodes s l -> (length l <= fuel)%nat ->
  exists s', bsd_remove_all fuel (head l) s = Some s' /\ values s'.1 = vs /\ holds_nodes s' [].
Proof.
  revert s fuel. induction l as [|i l IH]; intros s fuel Hv Hl Hf; [by exists s; destruct fuel|].
  destruct fuel as [|fuel]; [cbn in Hf; lia|]. cbn [head bsd_remove_all].
  pose proof (next_law i s [] l Hl) as Hn. destruct (bsd_next i s) as [next s1]. destruct Hn as (Hv1 & Hl1 & ->).
  destruct (remove_law i s1 [] l Hl1) as [Hv2 Hl2]. apply IH; [by rewrite Hv2, Hv1|done|cbn in Hf; lia].
Qed.

(** the methods on any nodes *)
Lemma stress_tree_bsd_finds h :
  exists s, stress_tree_bsd h = Some (s, []) /\ values s.1 = values h /\ holds_nodes s [].
Proof.
  unfold stress_tree_bsd. set (is_ := seq 0 (length h)).
  assert (Forall (fun i => i < length (values h))%nat is_) as Hb.
  { apply Forall_forall. intros i Hi%elem_of_seq. rewrite length_values. lia. }
  destruct (insert_each_offered (values h) is_ [] (h, bsd_init)) as (s1 & -> & Ho1); [|done|].
  { split; [done|]. exists []. split; [apply init_law|]. split; [set_solver|]. split; [done|set_solver]. }
  cbn [mbind option_bind app] in *. destruct (find_each_offered _ is_ _ _ Ho1 Hb) as (s2 & -> & Hv2 & l & Hl2 & _ & Hlen & _); [done|].
  pose proof (min_law s2 l Hl2) as Hm. destruct (bsd_min s2) as [node s3]. destruct Hm as (Hv3 & Hl3 & ->).
  destruct (remove_all_empties (values h) l s3 (length h)) as (s4 & -> & Hv4 & Hl4); [by rewrite Hv3|done| |].
  { unfold is_ in Hlen. by rewrite length_seq in Hlen. }
  by exists s4.
Qed.
End Proofs.

(** (C26) The red-black and the splay method of the tree stressor, with a library that does
    what its manual says, never report a node that is not found, for any number of nodes
    and any random values, until the stressor is stopped; it counts its rounds. *)
Theorem bsd_methods_find {H} (lib : BsdTree H) (laws : BsdTreeLaws H) method n evs r :
  method ∈ [stress_tree_rb lib; stress_tree_splay lib] -> stops evs ->
  stress_tree method n evs r = Some ([], u64 (rounds evs)).
Proof.
  intros Hm Hs. unfold stress_tree. destruct (tree_values n 0 0 r) as [vs r'].
  assert (forall h, exists h', method h = Some (h', [])) as Hf.
  { intros h. destruct (stress_tree_bsd_finds h) as (s & E & _). exists s.1.
    by apply elem_of_cons in Hm as [-> | ->%list_elem_of_singleton]; unfold stress_tree_rb, stress_tree_splay; rewrite E. }
  destruct (tree_rounds_spec (fun _ => True) method evs (TNode None None 0 <$> vs) r' [] 0) as [-> | [-> ->]]; try done.
  intros h _. destruct (Hf h) as (h' & E). by exists h'.
Qed.

(** ** A library that keeps the laws: the nodes in a list *)

Module Listed.

Fixpoint after (i : nat) (l : list nat) : link :=
  match l with [] => None | j :: l => if (i =? j)%nat then head l else after i l end.

#[global] Instance listed : BsdTree (list nat) := {
  bsd_init := [];
  bsd_find i s := (list_find (fun j => values s.1 !!! j = values s.1 !!! i) s.2 ≫= (fun p => Some p.2), s);
  bsd_insert i s := (s.1, s.2 ++ [i]);
  bsd_min s := (head s.2, s);
  bsd_next i s := (after i s.2, s);
  bsd_remove i s := (s.1, filter (fun j => j <> i) s.2)
}.

Lemma after_middle i l1 l2 : i ∉ l1 -> after i (l1 ++ i :: l2) = head l2.
Proof.
  induction l1 as [|j l1 IH]; intros Hi; cbn; [by rewrite Nat.eqb_refl|].
  destruct (Nat.eqb_spec i j); [set_solver|]. apply IH. set_solver.
Qed.

Lemma filter_absent (i : nat) (l : list nat) : i ∉ l -> filter (fun j => j <> i) l = l.
Proof. induction l as [|j l IH]; intros Hi; [done|]. rewrite filter_cons_True by set_solver. f_equal. apply IH. set_solver. Qed.

Lemma filter_middle (i : nat) l1 l2 : NoDup (l1 ++ i :: l2) -> filter (fun j => j <> i) (l1 ++ i :: l2) = l1 ++ l2.
Proof.
  intros (_ & Hi & H2)%NoDup_app. apply NoDup_cons in H2 as [Hi2 _].
  rewrite filter_app, filter_cons_False by (by intros Hn; apply Hn). rewrite !filter_absent; [done|done|].
  intros Hi1. by apply (Hi i Hi1), list_elem_of_here.
Qed.

#[global] Instance listed_laws : BsdTreeLaws (list nat).
Proof.
  refine {| holds_nodes s l := s.2 = l /\ NoDup l |}.
  - intros h. split; [done|constructor].
  - intros i s l [<- Hn] Hi. cbn. split; [done|]. split; [done|].
    destruct (list_find _ s.2) as [[k j]|] eqn:E; cbn.
    + apply list_find_Some in E as (Hj & Hv & _). split; [|done]. intros ? [= <-].
      split; [by eapply list_elem_of_lookup_2|by apply cmp_zero].
    + apply list_find_None in E. split; [done|]. intros _ j Hj Hc. apply (proj1 (cmp_zero _ _)) in Hc.
      exact (proj1 (Forall_forall _ _) E j Hj Hc).
  - intros i s l [<- Hn] Hi Hl. cbn. split; [done|]. exists s.2, []. rewrite app_nil_r. split; [done|]. split; [done|].
    apply NoDup_app. split; [done|]. split; [|apply NoDup_singleton]. intros j Hj ->%list_elem_of_singleton.
    exact (Hl i Hj (proj2 (cmp_zero _ _) eq_refl)).
  - by intros s l [<- Hn].
  - intros i s l1 l2 [Hs Hn]. cbn. split; [done|]. split; [done|]. rewrite Hs. apply after_middle.
    apply NoDup_app in Hn as (_ & Hi & _). intros Hi1. by apply (Hi i Hi1), list_elem_of_here.
  - intros i s l1 l2 [Hs Hn]. cbn. split; [done|]. rewrite Hs, filter_middle by done. split; [done|].
    apply NoDup_app in Hn as (H1 & Hi & H2). apply NoDup_cons in H2 as [_ H2]. apply NoDup_app. split; [done|]. split; [|done].
    intros j Hj Hj2. apply (Hi j Hj). by apply list_elem_of_further.
Defined.

End Listed.

Lemma bsd_methods_find_witness :
  stress_tree (stress_tree_rb Listed.listed) 12 [RoundDone true; RoundDone false] mwc_init = Some ([], 2).
Proof.
  apply (bsd_methods_find Listed.listed Listed.listed_laws (stress_tree_rb Listed.listed) 12 [RoundDone true; RoundDone false] mwc_init).
  - left.
  - left. right. left.
Defined.
