(* ===== verification/Float.v ===== *)
(** * Floating point numbers of C

    The types [float], [double] and [long double] of x86-64 as the formats of
    IEEE 754 with 24, 53 and 64 bits of precision; an operation of a type rounds its
    result to that type, to the nearest and to even.  The arithmetic is that of the
    standard library's specification of floating point numbers, which computes. *)

From Stdlib Require Export SpecFloat.
From S2P Require Import Prelude.

Record format := Format { prec : Z; emax : Z }.

Definition float_ : format := Format 24 128.
Definition double_ : format := Format 53 1024.
Definition long_double : format := Format 64 16384.

Section Operations.
Variable t : format.

Definition fadd : spec_float -> spec_float -> spec_float := SFadd (prec t) (emax t).
Definition fsub : spec_float -> spec_float -> spec_float := SFsub (prec t) (emax t).
Definition fmul : spec_float -> spec_float -> spec_float := SFmul (prec t) (emax t).
Definition fdiv : spec_float -> spec_float -> spec_float := SFdiv (prec t) (emax t).
Definition fsqrt : spec_float -> spec_float := SFsqrt (prec t) (emax t).

(** the conversion of an integer *)
Definition of_int (n : Z) : spec_float := binary_normalize (prec t) (emax t) n 0 false.

(** [m * 2 ^ e], rounded *)
Definition dyadic (m e : Z) : spec_float := binary_normalize (prec t) (emax t) m e false.

(** a decimal constant [m / 10 ^ k], rounded from its exact value: the quotient is
    taken with enough digits, and a remainder kept as a last bit *)
Definition decimal (m : Z) (k : nat) : spec_float :=
  let d := 10 ^ Z.of_nat k in
  let n := Z.shiftl (Z.abs m) 400 in
  let q := Z.lor (2 * (n / d)) (if n mod d =? 0 then 0 else 1) in
  binary_normalize (prec t) (emax t) (if m <? 0 then - q else q) (-401) false.

(** the conversion from another type *)
Definition convert (x : spec_float) : spec_float :=
  match x with
  | S754_finite s m e => binary_normalize (prec t) (emax t) (if s then Z.neg m else Z.pos m) e s
  | _ => x
  end.
End Operations.

Definition fzero : spec_float := S754_zero false.
Definition fopp : spec_float -> spec_float := SFopp.
Definition fabs_ : spec_float -> spec_float := SFabs.
Definition flt (x y : spec_float) : bool := SFltb x y.
Definition fle (x y : spec_float) : bool := SFleb x y.
Definition feq (x y : spec_float) : bool := SFeqb x y.

#[global] Instance spec_float_inhabited : Inhabited spec_float := populate fzero.

#[global] Instance spec_float_eq_dec : EqDecision spec_float.
Proof. solve_decision. Defined.

(** the value truncated to an integer *)
Definition ftrunc (x : spec_float) : Z :=
  match x with
  | S754_finite s m e =>
      let v := if 0 <=? e then Z.pos m * 2 ^ e else Z.pos m / 2 ^ (- e) in
      if s then - v else v
  | _ => 0
  end.
