(* ===== verification/CString.v ===== *)
(** * String functions of the C library

    A pointer into an array of characters is the rest of the array from there on,
    so that a function that reads past the end of the array, because it finds no
    terminator, has no result.  The same definitions serve for bytes and for wide
    characters.  The locale is that of the program, "C". *)

From S2P Require Import Prelude.

Abbreviation chars := (list Z).

(** ** Reading *)

Fixpoint strlen (s : chars) : option nat :=
  match s with
  | [] => None
  | c :: s => if c =? 0 then Some 0%nat else S <$> strlen s
  end.

Definition c_tolower (c : Z) : Z := if (65 <=? c) && (c <=? 90) then c + 32 else c.

(** characters are compared after [f] *)
Fixpoint compare_by (f : Z -> Z) (s1 s2 : chars) : option Z :=
  match s1, s2 with
  | c :: s1, d :: s2 =>
      if f c =? f d then if c =? 0 then Some 0 else compare_by f s1 s2 else Some (f c - f d)
  | _, _ => None
  end.

Fixpoint ncompare_by (f : Z -> Z) (n : nat) (s1 s2 : chars) : option Z :=
  match n with
  | O => Some 0
  | S n =>
      match s1, s2 with
      | c :: s1, d :: s2 =>
          if f c =? f d then if c =? 0 then Some 0 else ncompare_by f n s1 s2 else Some (f c - f d)
      | _, _ => None
      end
  end.

Definition strcmp : chars -> chars -> option Z := compare_by (fun c => c).
Definition strcasecmp : chars -> chars -> option Z := compare_by c_tolower.
Definition strcoll : chars -> chars -> option Z := strcmp.
Definition strncmp (s1 s2 : chars) (n : nat) : option Z := ncompare_by (fun c => c) n s1 s2.
Definition strncasecmp (s1 s2 : chars) (n : nat) : option Z := ncompare_by c_tolower n s1 s2.

(** the first, or last, place of a character, or null; the terminator is one *)
Fixpoint strchr (s : chars) (c : Z) : option (option nat) :=
  match s with
  | [] => None
  | d :: s => if d =? c then Some (Some 0%nat) else if d =? 0 then Some None
      else r ← strchr s c; Some (option_map S r)
  end.

Fixpoint strrchr (s : chars) (c : Z) : option (option nat) :=
  match s with
  | [] => None
  | d :: s =>
      let here := if d =? c then Some 0%nat else None in
      if d =? 0 then Some here
      else r ← strrchr s c; Some (match r with Some i => Some (S i) | None => here end)
  end.

(** ** Writing *)

(** characters into an array from a place on; none fits behind its end *)
Definition write_at (i : nat) (cs buf : chars) : option chars :=
  if (i + length cs <=? length buf)%nat then Some (take i buf ++ cs ++ drop (i + length cs) buf) else None.

(** the pointer returned is the one given *)
Definition strcpy (dest src : chars) : option (bool * chars) :=
  n ← strlen src; buf ← write_at 0 (take n src ++ [0]) dest; Some (true, buf).

Definition strcat (dest src : chars) : option (bool * chars) :=
  d ← strlen dest; n ← strlen src; buf ← write_at d (take n src ++ [0]) dest; Some (true, buf).

(** at most [len] characters, and a terminator *)
Definition strncat (dest src : chars) (len : nat) : option (bool * chars) :=
  d ← strlen dest;
  n ← (match strlen src with
       | Some n => Some (Nat.min n len)
       | None => if (len <=? length src)%nat then Some len else None
       end);
  buf ← write_at d (take n src ++ [0]) dest; Some (true, buf).

(** of [size] characters at most, the terminator included; the length of what
    would have been made is returned *)
Definition strlcpy (dest src : chars) (size : nat) : option (nat * chars) :=
  n ← strlen src;
  if (size =? 0)%nat then Some (n, dest)
  else buf ← write_at 0 (take (Nat.min n (size - 1)) src ++ [0]) dest; Some (n, buf).

Definition strlcat (dest src : chars) (size : nat) : option (nat * chars) :=
  d ← strlen dest;
  n ← strlen src;
  if (size <=? d)%nat then Some ((size + n)%nat, dest)
  else buf ← write_at d (take (Nat.min n (size - d - 1)) src ++ [0]) dest; Some ((d + n)%nat, buf).

(** in the locale "C" a string is its own transformation *)
Definition strxfrm (dest src : chars) (size : nat) : option (nat * chars) :=
  n ← strlen src;
  if (n <? size)%nat then buf ← write_at 0 (take n src ++ [0]) dest; Some (n, buf) else Some (n, dest).

(** ** Strings that are terminated *)

(** an array that ends with the only terminator of it *)
Definition terminated (s : chars) : Prop := exists cs, s = cs ++ [0] /\ Forall (fun c => c <> 0) cs.

Lemma terminated_cons c s : c <> 0 -> terminated s -> terminated (c :: s).
Proof. intros Hc (cs & -> & Hcs). exists (c :: cs). split; [done|]. by constructor. Qed.

Lemma terminated_inv s : terminated s -> s = [0] \/ exists c s', s = c :: s' /\ c <> 0 /\ terminated s'.
Proof.
  intros (cs & -> & Hcs). destruct Hcs as [|c cs Hc Hcs]; [by left|]. right. exists c, (cs ++ [0]). split; [done|].
  split; [done|]. by exists cs.
Qed.

Lemma terminated_drop i s : terminated s -> (i < length s)%nat -> terminated (drop i s).
Proof.
  intros (cs & -> & Hcs) Hi. rewrite length_app in Hi. cbn [length] in Hi. exists (drop i cs). rewrite drop_app_le by lia.
  split; [done|]. by apply Forall_drop.
Qed.

Lemma strlen_terminated s : terminated s -> strlen s = Some (length s - 1)%nat.
Proof.
  intros (cs & -> & Hcs). rewrite length_app. cbn [length]. replace (length cs + 1 - 1)%nat with (length cs) by lia.
  induction Hcs as [|c cs Hc _ IH]; [done|]. cbn [app strlen]. rewrite (proj2 (Z.eqb_neq c 0) Hc). by rewrite IH.
Qed.

(** *** comparing *)

Lemma compare_by_spec f s1 s2 :
  terminated s1 -> terminated s2 -> (forall c, f c = f 0 -> c = 0) ->
  exists x, compare_by f s1 s2 = Some x /\ (x = 0 <-> f <$> s1 = f <$> s2).
Proof.
  intros (cs1 & -> & H1) H2 Hf. revert s2 H2. induction H1 as [|c cs1 Hc _ IH]; intros s2 H2.
  - apply terminated_inv in H2 as [->|(d & t2 & -> & Hd & _)]; cbn [app compare_by].
    + rewrite Z.eqb_refl. by exists 0.
    + assert (f 0 <> f d) as Hne by (intros H; by apply Hd, Hf). rewrite (proj2 (Z.eqb_neq _ _) Hne).
      eexists. split; [done|]. split; [lia|]. intros [= H]. lia.
  - apply terminated_inv in H2 as [->|(d & t2 & -> & Hd & H2)]; cbn [app compare_by].
    + assert (f c <> f 0) as Hne by (intros H; by apply Hc, Hf). rewrite (proj2 (Z.eqb_neq _ _) Hne).
      eexists. split; [done|]. split; [lia|]. intros [= H]. lia.
    + destruct (Z.eqb_spec (f c) (f d)) as [He|Hne].
      * rewrite (proj2 (Z.eqb_neq c 0) Hc). destruct (IH t2 H2) as (x & -> & Hx). exists x. split; [done|]. rewrite Hx.
        cbn. rewrite He. split; [intros ->; done|by intros [=]].
      * eexists. split; [done|]. split; [lia|]. intros [= H]. lia.
Qed.

(** with room for one of the strings the bound is not felt *)
Lemma ncompare_by_enough f n s1 s2 :
  terminated s1 -> terminated s2 -> (forall c, f c = f 0 -> c = 0) -> (length s1 <= n \/ length s2 <= n)%nat ->
  ncompare_by f n s1 s2 = compare_by f s1 s2.
Proof.
  intros (cs1 & -> & H1) H2 Hf. revert n s2 H2. induction H1 as [|c cs1 Hc _ IH]; intros n s2 H2 Hn;
    (apply terminated_inv in H2 as [->|(d & t2 & -> & Hd & H2)]; (destruct n as [|n]; [cbn in Hn; lia|]); cbn [app ncompare_by compare_by]).
  - done.
  - assert (f 0 <> f d) as Hne by (intros H; by apply Hd, Hf). by rewrite (proj2 (Z.eqb_neq _ _) Hne).
  - assert (f c <> f 0) as Hne by (intros H; by apply Hc, Hf). by rewrite (proj2 (Z.eqb_neq _ _) Hne).
  - destruct (f c =? f d); [|done]. rewrite (proj2 (Z.eqb_neq c 0) Hc). apply IH; [done|]. cbn [app length] in Hn. lia.
Qed.

(** *** searching *)

Lemma found_iff {A} (x : A) (P : Prop) : P -> Some x = None <-> ~ P.
Proof. intros HP. split; [done|]. by intros []. Qed.
Lemma missed_iff {A} (P : Prop) : ~ P -> @None A = None <-> ~ P.
Proof. done. Qed.

Lemma strchr_spec s c : terminated s -> exists r, strchr s c = Some r /\ (r = None <-> c ∉ s).
Proof.
  intros (cs & -> & H). induction H as [|d cs Hd _ IH]; cbn [app strchr].
  - destruct (Z.eqb_spec 0 c) as [<-|Hc]; eexists; (split; [done|]); [apply found_iff; left|].
    apply missed_iff. by intros ->%list_elem_of_singleton.
  - destruct (Z.eqb_spec d c) as [->|Hc]; [eexists; split; [done|]; apply found_iff; left|].
    rewrite (proj2 (Z.eqb_neq d 0) Hd). destruct IH as (r & -> & Hr). eexists. split; [done|].
    rewrite elem_of_cons. destruct r; cbn [option_map] in *; [|apply missed_iff; intros [->|H]; [done|]; by apply Hr].
    apply found_iff. right. destruct (decide (c ∈ cs ++ [0])) as [?|Hn]; [done|]. by apply Hr in Hn.
Qed.

Lemma strrchr_spec s c : terminated s -> exists r, strrchr s c = Some r /\ (r = None <-> c ∉ s).
Proof.
  intros (cs & -> & H). induction H as [|d cs Hd _ IH]; cbn [app strrchr].
  - change (0 =? 0) with true. cbv iota. destruct (Z.eqb_spec 0 c) as [<-|Hc]; eexists; (split; [done|]); [apply found_iff; left|].
    apply missed_iff. by intros ->%list_elem_of_singleton.
  - rewrite (proj2 (Z.eqb_neq d 0) Hd). destruct IH as (r & -> & Hr). cbn [mbind option_bind]. eexists. split; [done|].
    rewrite elem_of_cons. destruct r as [i|].
    + apply found_iff. right. destruct (decide (c ∈ cs ++ [0])) as [?|Hn]; [done|]. by apply Hr in Hn.
    + destruct (Z.eqb_spec d c) as [->|Hc]; [apply found_iff; by left|]. apply missed_iff. intros [->|H]; [done|]. by apply Hr.
Qed.

(** *** making strings *)

Lemma write_at_fits i cs buf : (i + length cs <= length buf)%nat ->
  write_at i cs buf = Some (take i buf ++ cs ++ drop (i + length cs) buf).
Proof. intros H. unfold write_at. by rewrite (proj2 (Nat.leb_le _ _) H). Qed.

(** the buffer begins with the characters [cs] and a terminator *)
Definition holds_string (n : nat) (cs buf : chars) : Prop :=
  length buf = n /\ Forall (fun c => c <> 0) cs /\ exists rest, buf = cs ++ 0 :: rest.

Lemma strlen_holds n cs buf : holds_string n cs buf -> strlen buf = Some (length cs).
Proof.
  intros (_ & Hcs & rest & ->). induction Hcs as [|c cs Hc _ IH]; [done|]. cbn [app strlen length].
  rewrite (proj2 (Z.eqb_neq c 0) Hc). by rewrite IH.
Qed.

Lemma write_holds n cs new buf :
  holds_string n cs buf -> Forall (fun c => c <> 0) new -> (length cs + length new < n)%nat ->
  exists buf', write_at (length cs) (new ++ [0]) buf = Some buf' /\ holds_string n (cs ++ new) buf'.
Proof.
  intros (Hl & Hcs & rest & ->) Hnew Hn. rewrite write_at_fits by (rewrite Hl, length_app; cbn [length]; lia).
  eexists. split; [done|]. split; [|split].
  - rewrite length_app in Hl. cbn [length] in Hl. rewrite ?length_app, length_take, length_drop, ?length_app.
    cbn [length]. lia.
  - by apply Forall_app.
  - rewrite take_app_le, take_ge by lia. eexists. by rewrite <- !app_assoc.
Qed.

Lemma write_start n new buf :
  length buf = n -> Forall (fun c => c <> 0) new -> (length new < n)%nat ->
  exists buf', write_at 0 (new ++ [0]) buf = Some buf' /\ holds_string n new buf'.
Proof.
  intros Hl Hnew Hn. rewrite write_at_fits by (rewrite length_app; cbn [length]; lia). eexists. split; [done|]. split; [|split].
  - rewrite ?length_app, length_take, length_drop, ?length_app. cbn [length]. lia.
  - done.
  - rewrite take_0. eexists. cbn [app]. by rewrite <- app_assoc.
Qed.

Lemma holds_empty n buf : length buf = n -> (0 < n)%nat -> holds_string n [] (<[0%nat := 0]> buf).
Proof. intros Hl Hn. split; [by rewrite length_insert|]. split; [constructor|]. destruct buf; [cbn in Hl; lia|]. by eexists. Qed.
