(* ===== verification/VmState.v ===== *)
(** * The machine the memory stressors run on

    A stressor of [stress-vm.c] works on a buffer through volatile accesses,
    draws from the generator, polls the flag the alarm handler clears, and
    keeps a few [static] variables between its calls.  This file holds the
    memory device interface with its healthy and its faulty implementation, the
    state, the monad the stressors are written in, and its program logic. *)

From S2P Require Import Prelude Mwc.

(** ** Memory devices *)

Class MemDevice (M : Type) := {
  msize : M -> nat;
  load : nat -> M -> Z;
  store : nat -> Z -> M -> M }.

(** What a stressor expects of sound memory: a byte reads back as it was last
    written, whatever was done to the other bytes. *)
Class Healthy (M : Type) `{MemDevice M} := {
  load_fits : forall (m : M) i, fits 8 (load i m);
  msize_store : forall (m : M) i v, msize (store i v m) = msize m;
  load_store : forall (m : M) i j v,
    (i < msize m)%nat -> fits 8 v ->
    load j (store i v m) = if decide (i = j) then v else load j m }.

(** Sound memory: the list of its bytes. *)
Definition ram := list Z.

#[export] Instance ram_device : MemDevice ram := {|
  msize m := length m;
  load i m := u8 (default 0 (m !! i));
  store i v m := <[i := v]> m |}.

#[export] Instance ram_healthy : Healthy ram.
Proof.
  split.
  - intros m i. apply u8_fits.
  - intros m i v. apply length_insert.
  - intros m i j v Hi Hv. simpl in *. destruct (decide (i = j)) as [<-|Hne].
    + rewrite list_lookup_insert_eq by done. by apply u8_small.
    + by rewrite list_lookup_insert_ne.
Qed.

(** Memory with stuck bits: the bits of [stuck1 i] read as one and those of
    [stuck0 i] as zero, whatever is written to the byte [i]. *)
Record faulty (stuck1 stuck0 : nat -> Z) := Faulty { f_cells : list Z }.
Arguments Faulty {stuck1 stuck0}. Arguments f_cells {stuck1 stuck0}.

Definition faulty_read (stuck1 stuck0 : nat -> Z) (i : nat) (v : Z) : Z :=
  Z.ldiff v (stuck0 i) .| stuck1 i.

#[export] Instance faulty_device stuck1 stuck0 : MemDevice (faulty stuck1 stuck0) := {|
  msize m := length (f_cells m);
  load i m := u8 (faulty_read stuck1 stuck0 i (default 0 (f_cells m !! i)));
  store i v m := Faulty (<[i := v]> (f_cells m)) |}.

(** ** State *)

(** the [static] variables of the stressors of stress-vm.c *)
Record statics := Statics {
  gray_val : Z; incdec_val : Z; prime_incdec_val : Z; nybble_val : Z;
  write64_val : Z; rowhammer_val : Z; all_i : nat }.

Definition statics_init : statics := Statics 0 0 0 0 0 0xff5a00a5 1.

(** [stop] is the number of polls of [g_keep_stressing_flag] before the alarm
    clears it ([None]: it is never cleared); [c] is the local copy of
    [*counter]; [reseeds] and [touches] count the calls of [mwc_reseed()] and
    of [mincore_touch_pages()], whose effect the platform supplies; [fails] is
    what [stress_vm_check()] reported. *)
Record vmst (M : Type) := VmSt {
  mem : M; rng : mwc; c : Z; counter : Z; bit_errors : Z;
  stop : option nat; reseeds : nat; touches : nat;
  vars : statics; fails : list (string * Z) }.
Arguments VmSt {M}. Arguments mem {M}. Arguments rng {M}. Arguments c {M}.
Arguments counter {M}. Arguments bit_errors {M}. Arguments stop {M}.
Arguments reseeds {M}. Arguments touches {M}. Arguments vars {M}. Arguments fails {M}.

(** What the stressors take from the platform they run on: the address of the
    buffer, [mwc_reseed()], [mincore_touch_pages()], whether [calloc()] finds
    memory, and whether [--verify] is set. *)
Record platform (M : Type) := Platform {
  pf_base : Z;
  pf_reseed : nat -> mwc -> mwc;
  pf_touch : nat -> M -> M;
  pf_calloc : bool;
  pf_verify : bool }.
Arguments Platform {M}. Arguments pf_base {M}. Arguments pf_reseed {M}.
Arguments pf_touch {M}. Arguments pf_calloc {M}. Arguments pf_verify {M}.

(** ** The monad *)

(** How a statement ends: normally, by [goto abort], by [return v], by an
    access outside the buffer, or by exhausting the fuel of a [for (;;)]. *)
Inductive ctl (A : Type) :=
| Go (a : A) | Abort | Ret (v : Z) | Oob | Nofuel.
Arguments Go {A}. Arguments Abort {A}. Arguments Ret {A}. Arguments Oob {A}.
Arguments Nofuel {A}.

Definition vm (M A : Type) := vmst M -> ctl A * vmst M.

#[export] Instance vm_ret M : MRet (vm M) := fun A a s => (Go a, s).
#[export] Instance vm_bind M : MBind (vm M) := fun A B k m s =>
  match m s with
  | (Go a, s) => k a s
  | (Abort, s) => (Abort, s)
  | (Ret v, s) => (Ret v, s)
  | (Oob, s) => (Oob, s)
  | (Nofuel, s) => (Nofuel, s)
  end.

Section Ops.
Context {M : Type} `{!MemDevice M} (pf : platform M).

(** *** state accessors *)

Definition set_mem (m : M) (s : vmst M) : vmst M :=
  VmSt m (rng s) (c s) (counter s) (bit_errors s) (stop s) (reseeds s) (touches s) (vars s) (fails s).
Definition set_rng (r : mwc) (s : vmst M) : vmst M :=
  VmSt (mem s) r (c s) (counter s) (bit_errors s) (stop s) (reseeds s) (touches s) (vars s) (fails s).
Definition set_c (x : Z) (s : vmst M) : vmst M :=
  VmSt (mem s) (rng s) x (counter s) (bit_errors s) (stop s) (reseeds s) (touches s) (vars s) (fails s).
Definition set_counter (x : Z) (s : vmst M) : vmst M :=
  VmSt (mem s) (rng s) (c s) x (bit_errors s) (stop s) (reseeds s) (touches s) (vars s) (fails s).
Definition set_bit_errors (x : Z) (s : vmst M) : vmst M :=
  VmSt (mem s) (rng s) (c s) (counter s) x (stop s) (reseeds s) (touches s) (vars s) (fails s).
Definition set_stop (x : option nat) (s : vmst M) : vmst M :=
  VmSt (mem s) (rng s) (c s) (counter s) (bit_errors s) x (reseeds s) (touches s) (vars s) (fails s).
Definition set_vars (x : statics) (s : vmst M) : vmst M :=
  VmSt (mem s) (rng s) (c s) (counter s) (bit_errors s) (stop s) (reseeds s) (touches s) x (fails s).

Definition gets {A} (f : vmst M -> A) : vm M A := fun s => (Go (f s), s).
Definition modify (f : vmst M -> vmst M) : vm M unit := fun s => (Go tt, f s).
Definition throw {A} (e : ctl A) : vm M A := fun s => (e, s).

(** *** volatile byte accesses, and little endian words of [k] bytes *)

Definition ld (i : nat) : vm M Z := fun s =>
  if decide (i < msize (mem s))%nat then (Go (load i (mem s)), s) else (Oob, s).

Definition st (i : nat) (v : Z) : vm M unit := fun s =>
  if decide (i < msize (mem s))%nat then (Go tt, set_mem (store i (u8 v) (mem s)) s)
  else (Oob, s).

Fixpoint ld_le (k : nat) (p : nat) : vm M Z :=
  match k with
  | O => mret 0
  | S k => b ← ld p; r ← ld_le k (S p); mret (b + 256 * r)
  end.

Fixpoint st_le (k : nat) (p : nat) (v : Z) : vm M unit :=
  match k with
  | O => mret ()
  | S k => st p v;; st_le k (S p) (v >>> 8)
  end.

(** *** loops *)

Fixpoint for_list {A} (l : list A) (body : A -> vm M unit) : vm M unit :=
  match l with
  | [] => mret ()
  | x :: l => body x;; for_list l body
  end.

(** a loop whose body answers [false] to [break] *)
Fixpoint for_break {A} (l : list A) (body : A -> vm M bool) : vm M unit :=
  match l with
  | [] => mret ()
  | x :: l => b ← body x; if b : bool then for_break l body else mret ()
  end.

(** *** the flag, the operation counter, the error count *)

Definition poll : vm M bool := fun s =>
  match stop s with
  | None => (Go true, s)
  | Some O => (Go false, s)
  | Some (S n) => (Go true, set_stop (Some n) s)
  end.

Definition poll_abort : vm M unit :=
  b ← poll; if b : bool then mret () else throw Abort.

(** [c++; ... max_ops && c >= max_ops] *)
Definition count (max_ops : Z) : vm M bool := fun s =>
  let x := u64 (c s + 1) in
  (Go (c_true max_ops && (max_ops <=? x)), set_c x s).

Definition count_abort (max_ops : Z) : vm M unit :=
  b ← count max_ops; if b : bool then throw Abort else mret ().

Definition add_errors (n : Z) : vm M unit :=
  modify (fun s => set_bit_errors (u64 (bit_errors s + n)) s).

(** *** the generator and the platform *)

Definition draw_with (d : mwc -> Z * mwc) : vm M Z := fun s =>
  let '(v, r) := d (rng s) in (Go v, set_rng r s).

Definition vm_seed (w z : Z) : vm M unit :=
  modify (fun s => set_rng (mwc_seed w z (rng s)) s).

Definition vm_reseed : vm M unit :=
  modify (fun s =>
    VmSt (mem s) (pf_reseed pf (reseeds s) (rng s)) (c s) (counter s) (bit_errors s)
      (stop s) (S (reseeds s)) (touches s) (vars s) (fails s)).

Definition vm_touch : vm M unit :=
  modify (fun s =>
    VmSt (pf_touch pf (touches s) (mem s)) (rng s) (c s) (counter s) (bit_errors s)
      (stop s) (reseeds s) (S (touches s)) (vars s) (fails s)).

End Ops.

(** [start], [start + step], ... below [stop]: the values of the pointer in
    [for (ptr = buf + start; ptr < buf + stop; ptr += step)] *)
Definition strided (start stop step : nat) : list nat :=
  (fun k => start + k * step)%nat <$> seq 0 ((stop - start + step - 1) / step).
