(* ===== verification/VmMethods.v ===== *)
(** * stress-vm.c: the memory stressors

    One definition per stressor of the table [vm_methods], written in the monad
    of [VmState].  Pointers into the buffer are byte offsets; the statements a
    stressor unrolls eight times are a [for_list] over [unrolled]. *)

From S2P Require Import Prelude Mwc VmState.

Definition VM_ROWHAMMER_LOOPS : Z := 1000000.
Definition PRIME_64 : Z := 0x8f0000000017116d.

(** the offsets 0..7 of an unrolled group of statements *)
Definition unrolled : list nat := [0; 1; 2; 3; 4; 5; 6; 7]%nat.

(** ** Macros *)

(** [ROR64(val)] on a [uint8_t]: a 64 bit rotation whose result is stored in a
    byte *)
Definition ROR64_u8 (v : Z) : Z :=
  let bit0 := u64 ((v .& 1) <<< 63) in
  let tmp := v >>> 1 in
  u8 (tmp .| bit0).

Definition ROR8 (v : Z) : Z :=
  let bit0 := u8 ((v .& 1) <<< 7) in
  let tmp := v >>> 1 in
  tmp .| bit0.

Definition INC_LO_NYBBLE (v : Z) : Z :=
  let lo := u8 (v + 1) .& 0xf in (v .& 0xf0) .| lo.

Definition INC_HI_NYBBLE (v : Z) : Z :=
  let hi := u8 (v + 0xf0) .& 0xf0 in (v .& 0x0f) .| hi.

Definition UNSIGNED_ABS (a b : Z) : Z := if b <? a then a - b else b - a.

(** ** Bit counting: [for (n = 0; v; n++) v &= v - 1;]

    Each round clears a set bit of the 64 bit value, so 64 rounds of fuel end
    the loop. *)
Fixpoint count_bits_loop (fuel : nat) (v n : Z) : Z :=
  match fuel with
  | O => n
  | S fuel => if v =? 0 then n else count_bits_loop fuel (v .& (v - 1)) (n + 1)
  end.

Definition stress_vm_count_bits (v : Z) : Z := count_bits_loop 64 v 0.

Section Methods.
Context {M : Type} `{!MemDevice M} (pf : platform M).

(** the build's [inject_random_bit_errors()] is the no-op *)
Definition inject_random_bit_errors (sz : nat) : vm M unit := mret ().

(** the message of [stress_vm_check()] is a failure only under [--verify] *)
Definition stress_vm_check (name : string) : vm M unit :=
  modify (fun s =>
    if c_true (bit_errors s) && pf_verify pf then
      VmSt (mem s) (rng s) (c s) (counter s) (bit_errors s) (stop s) (reseeds s)
        (touches s) (vars s) (fails s ++ [(name, bit_errors s)])
    else s).

(** [memset(buf + p, v, n)] *)
Definition memset (p n : nat) (v : Z) : vm M unit :=
  for_list (seq p n) (fun i => st i v).

(** [SET_AND_TEST(ptr, val, bit_errors)] *)
Definition SET_AND_TEST (ptr : nat) (v : Z) : vm M unit :=
  st ptr v;; x ← ld ptr; add_errors (b2z (negb (x =? v))).

(** [bit_errors += ( *(ptr + j) != val)] *)
Definition check_byte (i : nat) (v : Z) : vm M unit :=
  x ← ld i; add_errors (b2z (negb (x =? v))).

(** the frame of a stressor with an [abort] label: the locals are set up, the
    body runs, and at [abort] the errors are reported and [*counter] updated.
    A [return] in the body leaves [*counter] as it was. *)
Definition with_abort (name : string) (body : vm M unit) : vm M Z := fun s =>
  let s := set_bit_errors 0 (set_c (counter s) s) in
  let finish s :=
    match stress_vm_check name s with
    | (_, s) => (Go (bit_errors s), set_counter (c s) s)
    end in
  match body s with
  | (Go _, s) => finish s
  | (Abort, s) => finish s
  | (Ret v, s) => (Go v, s)
  | (Oob, s) => (Oob, s)
  | (Nofuel, s) => (Nofuel, s)
  end.

(** assignment to the [static] variables *)
Definition upd_vars (f : statics -> statics) : vm M unit :=
  modify (fun s => set_vars (f (vars s)) s).

(** the guard [if (sz > (1ULL << 63)) return 0;] *)
Definition size_guard (sz : nat) : vm M unit :=
  if 2 ^ 63 <? Z.of_nat sz then throw (Ret 0) else mret ().

(** the offsets of 64 bit words from [buf] to [buf + sz], forwards *)
Definition words (sz : nat) : list nat := strided 0 sz 8.
(** and [*--ptr] from [buf + sz] down to [buf] *)
Definition words_down (sz : nat) : list nat :=
  (fun k => sz - 8 * (k + 1))%nat <$> seq 0 ((sz + 7) / 8).

Definition ld64 (p : nat) : vm M Z := ld_le 8 p.
Definition st64 (p : nat) (v : Z) : vm M unit := st_le 8 p v.

Definition stress_vm_moving_inversion (sz : nat) (max_ops : Z) : vm M Z :=
  with_abort "moving inversion" (
    vm_reseed pf;;
    w ← draw_with mwc64;
    z ← draw_with mwc64;
    vm_seed w z;;
    for_list (words sz) (fun ptr => v ← draw_with mwc64; st64 ptr v);;
    vm_seed w z;;
    modify (set_bit_errors 0);;
    for_list (words sz) (fun ptr =>
      val ← draw_with mwc64;
      x ← ld64 ptr;
      add_errors (b2z (negb (x =? val)));;
      st64 ptr (not64 val);;
      count_abort max_ops;;
      poll_abort);;
    vm_touch pf;;
    inject_random_bit_errors sz;;
    vm_seed w z;;
    modify (set_bit_errors 0);;
    for_list (words sz) (fun ptr =>
      val ← draw_with mwc64;
      x ← ld64 ptr;
      add_errors (b2z (negb (x =? not64 val)));;
      count_abort max_ops;;
      poll_abort);;
    vm_seed w z;;
    for_list (words_down sz) (fun ptr =>
      v ← draw_with mwc64;
      st64 ptr v;;
      count_abort max_ops);;
    inject_random_bit_errors sz;;
    vm_touch pf;;
    vm_seed w z;;
    for_list (words_down sz) (fun ptr =>
      val ← draw_with mwc64;
      x ← ld64 ptr;
      add_errors (b2z (negb (x =? val)));;
      st64 ptr (not64 val);;
      count_abort max_ops;;
      poll_abort);;
    vm_seed w z;;
    for_list (words_down sz) (fun ptr =>
      val ← draw_with mwc64;
      x ← ld64 ptr;
      add_errors (b2z (negb (x =? not64 val)));;
      poll_abort)).

(** [stride] is 23.  The inner loop over [j] writes the complement to the bytes
    of a block except the [i]th; [ptr] is carried by the loop. *)
Definition modulo_stride : nat := 23.

(** [for (j = ...; j < n && ptr < buf_end; j++) { *ptr++ = compliment; ... }] *)
Fixpoint modulo_run (n : nat) (sz : nat) (max_ops : Z) (v : Z) (ptr : nat) : vm M nat :=
  match n with
  | O => mret ptr
  | S n =>
      if decide (ptr < sz)%nat then
        st ptr v;; count_abort max_ops;; modulo_run n sz max_ops v (S ptr)
      else mret ptr
  end.

(** [for (ptr = buf; ptr < buf_end; ptr += stride) { ... ptr++ ... }]: the body
    moves [ptr] too, so the loop is run with the buffer size as fuel *)
Fixpoint modulo_blocks (fuel : nat) (i sz : nat) (max_ops v : Z) (ptr : nat) : vm M unit :=
  match fuel with
  | O => throw Nofuel
  | S fuel =>
      if decide (ptr < sz)%nat then
        ptr ← modulo_run i sz max_ops v ptr;
        poll_abort;;
        ptr ← modulo_run (modulo_stride - (i + 1)) sz max_ops v (S ptr);
        poll_abort;;
        modulo_blocks fuel i sz max_ops v (ptr + modulo_stride)%nat
      else mret ()
  end.

Definition stress_vm_modulo_x (sz : nat) (max_ops : Z) : vm M Z :=
  with_abort "modulo X" (
    vm_reseed pf;;
    pattern ← draw_with mwc8;
    let compliment := not8 pattern in
    for_list (seq 0 modulo_stride) (fun i =>
      for_list (strided i sz modulo_stride) (fun ptr => st ptr pattern;; poll_abort);;
      modulo_blocks (S sz) i sz max_ops compliment 0;;
      inject_random_bit_errors sz;;
      for_list (strided i sz modulo_stride) (fun ptr =>
        check_byte ptr pattern;;
        b ← poll;
        if b : bool then mret () else e ← gets bit_errors; throw (Ret e)))).

(** the body of the two walking data stressors *)
Definition walking_data (name : string) (vals : list Z) (sz : nat) (max_ops : Z) : vm M Z :=
  with_abort name (
    for_break (strided 0 sz 1) (fun ptr =>
      for_list vals (SET_AND_TEST ptr);;
      b ← count max_ops;
      if b : bool then mret false else poll)).

Definition stress_vm_walking_one_data : nat -> Z -> vm M Z :=
  walking_data "walking one (data)" [0x01; 0x02; 0x04; 0x08; 0x10; 0x20; 0x40; 0x80].

Definition stress_vm_walking_zero_data : nat -> Z -> vm M Z :=
  walking_data "walking zero (data)" [0xfe; 0xfd; 0xfb; 0xf7; 0xef; 0xdf; 0xbf; 0x7f].

(** the inner loop of the two walking address stressors: 63 rounds with the
    same [ptr]; [flip mask] is what is xored to the address, and [mask] is only
    shifted in the rounds that reach the end of the body *)
Fixpoint walk_addr (n : nat) (flip : Z -> Z) (sz ptr : nat) (mask : Z) : vm M unit :=
  match n with
  | O => mret ()
  | S n =>
      let addr := u64 (pf_base pf + Z.of_nat ptr) .^ flip mask in
      if (addr <? pf_base pf) || (pf_base pf + Z.of_nat sz <=? addr)
         || (addr =? pf_base pf + Z.of_nat ptr)
      then walk_addr n flip sz ptr mask
      else
        st (Z.to_nat (addr - pf_base pf)) 0xff;;
        check_byte ptr 0;;
        walk_addr n flip sz ptr (u64 (mask <<< 1))
  end.

Definition walking_addr (name : string) (flip : Z -> Z) (sz : nat) (max_ops : Z) : vm M Z :=
  with_abort name (
    memset 0 sz 0;;
    for_break (strided 0 sz 256) (fun ptr =>
      st ptr 0;;
      walk_addr 63 flip sz ptr 1;;
      b ← count max_ops;
      if b : bool then mret false else poll)).

Definition stress_vm_walking_one_addr : nat -> Z -> vm M Z :=
  walking_addr "walking one (address)" (fun mask => mask).

(** [for (sz_mask = 1; sz_mask < sz; sz_mask <<= 1) ;] *)
Fixpoint size_mask (fuel : nat) (sz m : Z) : Z :=
  match fuel with
  | O => m
  | S fuel => if m <? sz then size_mask fuel sz (u64 (m <<< 1)) else m
  end.

Definition stress_vm_walking_zero_addr (sz : nat) (max_ops : Z) : vm M Z :=
  let sz_mask := u64 (size_mask 64 (Z.of_nat sz) 1 - 1) in
  walking_addr "walking zero (address)" (fun mask => not64 mask .& sz_mask) sz max_ops.

Definition gray8 (v : Z) : Z := (v >>> 1) .^ v.

Definition stress_vm_gray (sz : nat) (max_ops : Z) : vm M Z :=
  with_abort "gray code" (
    val ← gets (fun s => gray_val (vars s));
    for_break (seq 0 sz) (fun ptr =>
      b ← poll;
      if b : bool then
        st ptr (gray8 (u8 (val + Z.of_nat ptr)));;
        b ← count max_ops; mret (negb b)
      else throw (Ret 0));;
    vm_touch pf;;
    inject_random_bit_errors sz;;
    for_break (seq 0 sz) (fun ptr =>
      b ← poll;
      if b : bool then
        check_byte ptr (gray8 (u8 (val + Z.of_nat ptr)));; mret true
      else mret false);;
    upd_vars (fun v => Statics (u8 (gray_val v + 1)) (incdec_val v) (prime_incdec_val v)
      (nybble_val v) (write64_val v) (rowhammer_val v) (all_i v))).

Definition stress_vm_incdec (sz : nat) (max_ops : Z) : vm M Z :=
  with_abort "incdec code" (
    upd_vars (fun v => Statics (gray_val v) (u8 (incdec_val v + 1)) (prime_incdec_val v)
      (nybble_val v) (write64_val v) (rowhammer_val v) (all_i v));;
    val ← gets (fun s => incdec_val (vars s));
    memset 0 sz 0x00;;
    for_break (seq 0 sz) (fun ptr =>
      x ← ld ptr; st ptr (x + val);; b ← count max_ops; mret (negb b));;
    vm_touch pf;;
    inject_random_bit_errors sz;;
    for_break (seq 0 sz) (fun ptr =>
      x ← ld ptr; st ptr (x - val);; b ← count max_ops; mret (negb b));;
    for_list (seq 0 sz) (fun ptr => check_byte ptr 0)).

(** the offset [j % sz] in the [i]th round of a prime stride, where [j] is the
    64 bit sum of [i + 1] primes *)
Definition prime_offset (sz i : nat) : nat :=
  Z.to_nat (u64 ((Z.of_nat i + 1) * PRIME_64) mod Z.of_nat sz).

Definition stress_vm_prime_incdec (sz : nat) (max_ops : Z) : vm M Z :=
  with_abort "prime-incdec" (
    size_guard sz;;
    val ← gets (fun s => prime_incdec_val (vars s));
    memset 0 sz 0x00;;
    for_break (seq 0 sz) (fun i =>
      x ← ld i; st i (x + val);; b ← count max_ops; mret (negb b));;
    vm_touch pf;;
    inject_random_bit_errors sz;;
    for_break (seq 0 sz) (fun i =>
      let j := prime_offset sz i in
      x ← ld j; st j (x - val);; b ← count max_ops; mret (negb b));;
    for_list (seq 0 sz) (fun ptr => check_byte ptr 0)).

(** *** swap *)

Definition swap_chunk_sz : nat := 64.

(** [while (src < src_end) { tmp = *src; *src++ = *dst; *dst++ = tmp; }] *)
Definition swap_chunk (src dst : nat) : vm M unit :=
  for_list (seq 0 swap_chunk_sz) (fun k =>
    tmp ← ld (src + k);
    d ← ld (dst + k);
    st (src + k) d;;
    st (dst + k) tmp).

(** [swaps[i]]; reading past the end of the table is outside its memory *)
Definition swaps_at (swaps : list nat) (i : nat) : vm M nat :=
  match swaps !! i with Some o => mret o | None => throw Oob end.

(** [for (i = 0; i < chunks; i++) swaps[i] = (mwc64() % chunks) * chunk_sz;] *)
Fixpoint fill_swaps (n chunks : nat) : vm M (list nat) :=
  match n with
  | O => mret []
  | S n =>
      r ← draw_with mwc64;
      rest ← fill_swaps n chunks;
      mret ((Z.to_nat (r mod Z.of_nat chunks) * swap_chunk_sz)%nat :: rest)
  end.

Definition swap_step (swaps : list nat) (max_ops : Z) (i ptr : nat) : vm M unit :=
  offset ← swaps_at swaps i;
  swap_chunk ptr offset;;
  count_abort max_ops;;
  poll_abort.

Definition stress_vm_swap (sz : nat) (max_ops : Z) : vm M Z :=
  let chunks := (sz / swap_chunk_sz)%nat in
  let ptrs := strided 0 sz swap_chunk_sz in
  with_abort "swap bytes" (
    vm_reseed pf;;
    z1 ← draw_with mwc64;
    w1 ← draw_with mwc64;
    (if pf_calloc pf then mret () else throw (Ret 0));;
    swaps ← fill_swaps chunks chunks;
    vm_seed w1 z1;;
    for_list ptrs (fun ptr =>
      val ← draw_with mwc8;
      memset ptr swap_chunk_sz val);;
    for_list ptrs (fun ptr => swap_step swaps max_ops (ptr / swap_chunk_sz) ptr);;
    for_list (seq 0 chunks) (fun k =>
      swap_step swaps max_ops (chunks - 1 - k) (sz - swap_chunk_sz * (k + 1)));;
    vm_touch pf;;
    inject_random_bit_errors sz;;
    vm_seed w1 z1;;
    for_break ptrs (fun ptr =>
      val ← draw_with mwc8;
      for_list (seq ptr swap_chunk_sz) (fun p => check_byte p val);;
      poll)).

(** *** rand-set, ror, flip *)

(** [*(ptr + 0) = val; ... *(ptr + 7) = val;] *)
Definition set8 (ptr : nat) (v : Z) : vm M unit :=
  for_list unrolled (fun k => st (ptr + k) v).

Definition check8 (ptr : nat) (v : Z) : vm M unit :=
  for_list unrolled (fun k => check_byte (ptr + k) v).

(** a macro or an assignment operator applied to [*(ptr + 0)] ... [*(ptr + 7)] *)
Definition update8 (f : Z -> Z) (ptr : nat) : vm M unit :=
  for_list unrolled (fun k => x ← ld (ptr + k); st (ptr + k) (f x)).

Definition stress_vm_rand_set (sz : nat) (max_ops : Z) : vm M Z :=
  with_abort "rand-set" (
    vm_reseed pf;;
    w ← draw_with mwc64;
    z ← draw_with mwc64;
    vm_seed w z;;
    for_list (words sz) (fun ptr =>
      val ← draw_with mwc8;
      set8 ptr val;;
      count_abort max_ops;;
      poll_abort);;
    vm_touch pf;;
    inject_random_bit_errors sz;;
    vm_seed w z;;
    for_break (words sz) (fun ptr =>
      val ← draw_with mwc8;
      check8 ptr val;;
      poll)).

Definition stress_vm_ror (sz : nat) (max_ops : Z) : vm M Z :=
  with_abort "ror" (
    vm_reseed pf;;
    w ← draw_with mwc64;
    z ← draw_with mwc64;
    vm_seed w z;;
    for_list (words sz) (fun ptr =>
      val ← draw_with mwc8;
      set8 ptr val;;
      count_abort max_ops;;
      poll_abort);;
    vm_touch pf;;
    for_list (words sz) (fun ptr =>
      update8 ROR64_u8 ptr;;
      count_abort max_ops;;
      poll_abort);;
    vm_touch pf;;
    inject_random_bit_errors sz;;
    vm_seed w z;;
    for_break (words sz) (fun ptr =>
      val ← draw_with mwc8;
      check8 ptr (ROR64_u8 val);;
      poll)).

(** the value of the byte [ptr + k]: [val] after [k] times [ROR8(val)] *)
Definition ror8_n (k : nat) (v : Z) : Z := Nat.iter k ROR8 v.

Definition stress_vm_flip (sz : nat) (max_ops : Z) : vm M Z :=
  with_abort "flip" (
    vm_reseed pf;;
    w ← draw_with mwc64;
    z ← draw_with mwc64;
    vm_seed w z;;
    for_list (words sz) (fun ptr =>
      val ← draw_with mwc8;
      for_list unrolled (fun k => st (ptr + k) (ror8_n k val));;
      count_abort max_ops;;
      poll_abort);;
    vm_touch pf;;
    for_list (seq 0 8) (fun i =>
      let bit := ror8_n (S i) 0x03 in
      for_list (words sz) (fun ptr =>
        update8 (fun x => x .^ bit) ptr;;
        count_abort max_ops;;
        poll_abort);;
      vm_touch pf);;
    inject_random_bit_errors sz;;
    vm_seed w z;;
    for_break (words sz) (fun ptr =>
      val ← draw_with mwc8;
      for_list unrolled (fun k => check_byte (ptr + k) (ror8_n k val));;
      poll)).

(** *** zero-one and the galloping patterns *)

(** [acc += stress_vm_count_bits(f( *(ptr + 0)))] ... for the eight words at
    [ptr]; the running sum is passed along *)
Fixpoint count_words (ks : list nat) (f : Z -> Z) (p : nat) (acc : Z) : vm M Z :=
  match ks with
  | [] => mret acc
  | k :: ks =>
      x ← ld64 (p + 8 * k);
      count_words ks f p (u64 (acc + stress_vm_count_bits (f x)))
  end.

(** the pointers of [for (ptr = (uint64_t * )buf; ptr < buf_end; ptr += 8)] *)
Definition lines (sz : nat) : list nat := strided 0 sz 64.

Definition zero_one_line (f : Z -> Z) (ptr : nat) : vm M unit :=
  e ← gets bit_errors;
  e ← count_words unrolled f ptr e;
  modify (set_bit_errors e).

Definition add_count (n : Z) : vm M unit := modify (fun s => set_c (u64 (c s + n)) s).

Definition stress_vm_zero_one (sz : nat) (max_ops : Z) : vm M Z :=
  with_abort "zero-one" (
    memset 0 sz 0x00;;
    vm_touch pf;;
    inject_random_bit_errors sz;;
    add_count (Z.of_nat (sz / 8));;
    for_list (lines sz) (fun ptr => zero_one_line (fun x => x) ptr;; poll_abort);;
    memset 0 sz 0xff;;
    vm_touch pf;;
    inject_random_bit_errors sz;;
    add_count (Z.of_nat (sz / 8));;
    for_break (lines sz) (fun ptr => zero_one_line not64 ptr;; poll)).

(** [for (;;) { ... if (test) { write; break; } }]: drawn offsets may all be
    taken, so the loop has fuel *)
Fixpoint galpat_place (fuel : nat) (sz : nat) (free : Z -> bool) (upd : Z -> Z -> Z) : vm M unit :=
  match fuel with
  | O => throw Nofuel
  | S fuel =>
      r ← draw_with mwc64;
      let offset := Z.to_nat (r mod Z.of_nat sz) in
      b ← draw_with mwc32;
      let bit := b .& 3 in
      x ← ld offset;
      if free x then y ← ld offset; st offset (upd y bit)
      else galpat_place fuel sz free upd
  end.

Fixpoint count_lines (ls : list nat) (f : Z -> Z) (acc : Z) : vm M Z :=
  match ls with
  | [] => mret acc
  | ptr :: ls =>
      acc ← count_words unrolled f ptr acc;
      b ← poll;
      if b : bool then count_lines ls f acc else mret acc
  end.

Definition galpat (fuel : nat) (name : string) (fill : Z) (free : Z -> bool)
    (upd : Z -> Z -> Z) (f : Z -> Z) (sz : nat) (max_ops : Z) : vm M Z :=
  let bits_bad := Z.of_nat (sz / 4096) in
  with_abort name (
    memset 0 sz fill;;
    vm_reseed pf;;
    for_break (seq 0 (sz / 4096)) (fun _ =>
      galpat_place fuel sz free upd;;
      b ← count max_ops; mret (negb b));;
    vm_touch pf;;
    inject_random_bit_errors sz;;
    bits_set ← count_lines (lines sz) f 0;
    if negb (bits_set =? bits_bad) then add_errors (UNSIGNED_ABS bits_set bits_bad)
    else mret ()).

Definition stress_vm_galpat_zero (fuel : nat) : nat -> Z -> vm M Z :=
  galpat fuel "galpat-zero" 0x00 (fun x => x =? 0) (fun x bit => x .| (1 <<< bit)) (fun x => x).

Definition stress_vm_galpat_one (fuel : nat) : nat -> Z -> vm M Z :=
  galpat fuel "galpat-one" 0xff (fun x => x =? 0xff)
    (fun x bit => x .& Z.lnot (1 <<< bit)) not64.

(** *** inc-nybble *)

Definition stress_vm_inc_nybble (sz : nat) (max_ops : Z) : vm M Z :=
  with_abort "inc-nybble" (
    val0 ← gets (fun s => nybble_val (vars s));
    memset 0 sz val0;;
    upd_vars (fun v => Statics (gray_val v) (incdec_val v) (prime_incdec_val v)
      (INC_HI_NYBBLE (INC_LO_NYBBLE (nybble_val v))) (write64_val v) (rowhammer_val v) (all_i v));;
    val ← gets (fun s => nybble_val (vars s));
    vm_reseed pf;;
    for_list (words sz) (fun ptr =>
      update8 INC_LO_NYBBLE ptr;; count_abort max_ops;; poll_abort);;
    for_list (words sz) (fun ptr =>
      update8 INC_HI_NYBBLE ptr;; count_abort max_ops;; poll_abort);;
    vm_touch pf;;
    inject_random_bit_errors sz;;
    for_break (words sz) (fun ptr => check8 ptr val;; poll)).

(** *** rand-sum: eight words in every 64 *)

Definition stress_vm_rand_sum (sz : nat) (max_ops : Z) : vm M Z :=
  with_abort "rand-sum" (
    vm_reseed pf;;
    w ← draw_with mwc64;
    z ← draw_with mwc64;
    vm_seed w z;;
    for_list (strided 0 sz 512) (fun ptr =>
      for_list unrolled (fun k => v ← draw_with mwc64; st64 (ptr + 8 * k) v);;
      count_abort max_ops;;
      poll_abort);;
    vm_touch pf;;
    inject_random_bit_errors sz;;
    vm_seed w z;;
    for_break (strided 0 sz 512) (fun ptr =>
      for_list unrolled (fun k =>
        x ← ld64 (ptr + 8 * k);
        v ← draw_with mwc64;
        add_errors (stress_vm_count_bits (x .^ v)));;
      poll)).

(** *** walks in prime sized steps *)

(** [ptr[k % sz] = f(ptr[k % sz])] in the [i]th step *)
Definition prime_update (sz : nat) (f : Z -> Z) (i : nat) : vm M unit :=
  let k := prime_offset sz i in
  x ← ld k; st k (f x).

Definition stress_vm_prime_zero (sz : nat) (max_ops : Z) : vm M Z :=
  with_abort "prime-zero" (
    size_guard sz;;
    memset 0 sz 0xff;;
    for_list (seq 0 8) (fun j =>
      let mask := not8 (1 <<< Z.of_nat j) in
      for_list (seq 0 sz) (fun i =>
        prime_update sz (fun x => x .& mask) i;;
        count_abort max_ops;;
        poll_abort));;
    vm_touch pf;;
    inject_random_bit_errors sz;;
    for_list (seq 0 sz) (fun i =>
      x ← ld i; add_errors (stress_vm_count_bits x))).

Definition stress_vm_prime_one (sz : nat) (max_ops : Z) : vm M Z :=
  with_abort "prime-one" (
    size_guard sz;;
    memset 0 sz 0x00;;
    for_list (seq 0 8) (fun j =>
      let mask := u8 (1 <<< Z.of_nat j) in
      for_list (seq 0 sz) (fun i =>
        prime_update sz (fun x => x .| mask) i;;
        count_abort max_ops;;
        poll_abort));;
    vm_touch pf;;
    inject_random_bit_errors sz;;
    for_break (seq 0 sz) (fun i =>
      x ← ld i; add_errors (8 - stress_vm_count_bits x);; poll)).

(** [(i >> 1) ^ i] on a [size_t] *)
Definition gray64 (i : nat) : Z := (Z.of_nat i >>> 1) .^ Z.of_nat i.

Definition stress_vm_prime_gray_zero (sz : nat) (max_ops : Z) : vm M Z :=
  with_abort "prime-gray-zero" (
    size_guard sz;;
    memset 0 sz 0xff;;
    for_list (seq 0 sz) (fun i =>
      prime_update sz (fun x => x .& gray64 i) i;; poll_abort;; count_abort max_ops);;
    for_list (seq 0 sz) (fun i =>
      prime_update sz (fun x => x .& not64 (gray64 i)) i;; poll_abort;; count_abort max_ops);;
    vm_touch pf;;
    inject_random_bit_errors sz;;
    for_break (seq 0 sz) (fun i =>
      x ← ld i; add_errors (stress_vm_count_bits x);; poll)).

Definition stress_vm_prime_gray_one (sz : nat) (max_ops : Z) : vm M Z :=
  with_abort "prime-gray-one" (
    size_guard sz;;
    memset 0 sz 0x00;;
    for_list (seq 0 sz) (fun i =>
      prime_update sz (fun x => x .| gray64 i) i;; poll_abort;; count_abort max_ops);;
    vm_touch pf;;
    for_list (seq 0 sz) (fun i =>
      prime_update sz (fun x => x .| not64 (gray64 i)) i;; poll_abort;; count_abort max_ops);;
    vm_touch pf;;
    inject_random_bit_errors sz;;
    for_break (seq 0 sz) (fun i =>
      x ← ld i; add_errors (8 - stress_vm_count_bits x);; poll)).

(** *** write64, read64: no check, [*counter] advanced by the blocks done *)

(** [while (i < n)] over blocks of 32 words; answers the final [i] *)
Fixpoint word_blocks (n : nat) (access : nat -> vm M unit) (max_ops : Z) (i : nat) : vm M nat :=
  match n with
  | O => mret i
  | S n =>
      for_list (seq 0 32) (fun w => access (8 * (32 * i + w))%nat);;
      b ← poll;
      if negb b || (c_true max_ops && (max_ops <=? Z.of_nat (S i))) then mret (S i)
      else word_blocks n access max_ops (S i)
  end.

Definition bump_counter (n : Z) : vm M unit :=
  modify (fun s => set_counter (u64 (counter s + n)) s).

Definition stress_vm_write64 (sz : nat) (max_ops : Z) : vm M Z :=
  v ← gets (fun s => write64_val (vars s));
  i ← word_blocks (sz / 256) (fun p => st64 p v) max_ops 0;
  bump_counter (Z.of_nat i);;
  upd_vars (fun v => Statics (gray_val v) (incdec_val v) (prime_incdec_val v)
    (nybble_val v) (u64 (write64_val v + 1)) (rowhammer_val v) (all_i v));;
  mret 0.

Definition stress_vm_read64 (sz : nat) (max_ops : Z) : vm M Z :=
  i ← word_blocks (sz / 256) (fun p => _ ← ld64 p; mret ()) max_ops 0;
  bump_counter (Z.of_nat i);;
  mret 0.

(** *** rowhammer

    The hammering reads and flushes the two words; sound memory keeps them. *)
Definition stress_vm_rowhammer (sz : nat) (max_ops : Z) : vm M Z :=
  let n := (sz / 4)%nat in
  if decide (n = 0)%nat then mret 0
  else
    modify (set_bit_errors 0);;
    vm_touch pf;;
    val ← gets (fun s => rowhammer_val (vars s));
    for_list (seq 0 n) (fun j => st_le 4 (4 * j) val);;
    a0 ← draw_with mwc64;
    a1 ← draw_with mwc64;
    let addr0 := (4 * Z.to_nat (u64 (a0 <<< 12) mod Z.of_nat n))%nat in
    let addr1 := (4 * Z.to_nat (u64 (a1 <<< 12) mod Z.of_nat n))%nat in
    for_list (seq 0 (Z.to_nat (VM_ROWHAMMER_LOOPS / 4))) (fun _ =>
      for_list (seq 0 4) (fun _ => _ ← ld_le 4 addr0; _ ← ld_le 4 addr1; mret ()));;
    for_list (seq 0 n) (fun j =>
      x ← ld_le 4 (4 * j); add_errors (b2z (negb (x =? val))));;
    bump_counter VM_ROWHAMMER_LOOPS;;
    upd_vars (fun v => Statics (gray_val v) (incdec_val v) (prime_incdec_val v)
      (nybble_val v) (write64_val v)
      ((rowhammer_val v >>> 31) .| u32 (rowhammer_val v <<< 1)) (all_i v));;
    stress_vm_check "rowhammer";;
    gets bit_errors.

(** *** the table *)

(** the table from its entry 1 on; the two galloping stressors get the fuel *)
Definition vm_methods_rest (fuel : nat) : list (string * (nat -> Z -> vm M Z)) :=
  [ ("flip", stress_vm_flip);
    ("galpat-0", stress_vm_galpat_zero fuel);
    ("galpat-1", stress_vm_galpat_one fuel);
    ("gray", stress_vm_gray);
    ("rowhammer", stress_vm_rowhammer);
    ("incdec", stress_vm_incdec);
    ("inc-nybble", stress_vm_inc_nybble);
    ("rand-set", stress_vm_rand_set);
    ("rand-sum", stress_vm_rand_sum);
    ("read64", stress_vm_read64);
    ("ror", stress_vm_ror);
    ("swap", stress_vm_swap);
    ("move-inv", stress_vm_moving_inversion);
    ("modulo-x", stress_vm_modulo_x);
    ("prime-0", stress_vm_prime_zero);
    ("prime-1", stress_vm_prime_one);
    ("prime-gray-0", stress_vm_prime_gray_zero);
    ("prime-gray-1", stress_vm_prime_gray_one);
    ("prime-incdec", stress_vm_prime_incdec);
    ("walk-0d", stress_vm_walking_zero_data);
    ("walk-1d", stress_vm_walking_one_data);
    ("walk-0a", stress_vm_walking_zero_addr);
    ("walk-1a", stress_vm_walking_one_addr);
    ("write64", stress_vm_write64);
    ("zero-one", stress_vm_zero_one) ].

(** [stress_vm_all()]: the entry [i] of the table, then [i + 1], or 1 after the
    last; [i] starts at 1 and is never 0 *)
Definition stress_vm_all (fuel : nat) (sz : nat) (max_ops : Z) : vm M Z :=
  i ← gets (fun s => all_i (vars s));
  match vm_methods_rest fuel !! (i - 1)%nat with
  | None => throw Oob
  | Some (_, func) =>
      bit_errors ← func sz max_ops;
      upd_vars (fun v => Statics (gray_val v) (incdec_val v) (prime_incdec_val v)
        (nybble_val v) (write64_val v) (rowhammer_val v)
        (if vm_methods_rest fuel !! i is Some _ then S i else 1%nat));;
      mret bit_errors
  end.

Definition vm_methods (fuel : nat) : list (string * (nat -> Z -> vm M Z)) :=
  ("all", stress_vm_all fuel) :: vm_methods_rest fuel.

End Methods.
