(* ===== verification/VmTame.v ===== *)
(** * The stressors and the alarm

    However a stressor ends, the number of polls left before the alarm clears
    the flag has not grown: nothing a stressor does can put the alarm off.  With
    a flag that is going to be cleared, this bounds the rounds of the loop that
    drives the stressors. *)

From S2P Require Import Prelude Mwc VmState VmMethods.

(** [a] polls are left where there were [b] *)
Definition stop_le (a b : option nat) : Prop :=
  match a, b with
  | None, None => True
  | Some x, Some y => (x <= y)%nat
  | _, _ => False
  end.

#[global] Instance stop_le_preorder : PreOrder stop_le.
Proof.
  split; [by intros [x|]; cbn|]. intros [x|] [y|] [z|]; cbn; try done. lia.
Qed.

Section Tame.
Context {M : Type} `{!MemDevice M} (pf : platform M).

Definition tame {A} (m : vm M A) : Prop := forall s, stop_le (stop (m s).2) (stop s).

Lemma tame_ret {A} (a : A) : tame (mret a).
Proof. by intros s. Qed.
Lemma tame_throw {A} (e : ctl A) : tame (throw e).
Proof. by intros s. Qed.
Lemma tame_gets {A} (f : vmst M -> A) : tame (gets f).
Proof. by intros s. Qed.
Lemma tame_modify f : (forall s, stop (f s) = stop s) -> tame (modify f).
Proof. intros H s. cbn. by rewrite H. Qed.

Lemma tame_bind {A B} (m : vm M A) (k : A -> vm M B) : tame m -> (forall a, tame (k a)) -> tame (m ≫= k).
Proof.
  intros Hm Hk s. specialize (Hm s). unfold mbind, vm_bind. destruct (m s) as [[a| |v| |] s']; try done.
  cbn [snd] in Hm. by etransitivity; [apply Hk|].
Qed.

Lemma tame_if {A} (b : bool) (m k : vm M A) : tame m -> tame k -> tame (if b then m else k).
Proof. by destruct b. Qed.
Lemma tame_decide {A} (P : Prop) (d : Decision P) (m k : vm M A) : tame m -> tame k -> tame (if decide P then m else k).
Proof. by destruct (decide P). Qed.

Lemma tame_ld i : tame (ld i).
Proof. intros s. unfold ld. by destruct (decide _). Qed.
Lemma tame_st i v : tame (st i v).
Proof. intros s. unfold st. by destruct (decide _). Qed.
Lemma tame_poll : tame poll.
Proof. intros s. unfold poll. destruct (stop s) as [[|k]|] eqn:Hs; cbn; rewrite ?Hs; cbn; lia || done. Qed.
Lemma tame_count mo : tame (count mo).
Proof. by intros s. Qed.
Lemma tame_draw d : tame (draw_with d).
Proof. intros s. unfold draw_with. by destruct (d (rng s)). Qed.
Lemma tame_seed w z : tame (vm_seed w z).
Proof. by intros s. Qed.
Lemma tame_reseed : tame (vm_reseed pf).
Proof. by intros s. Qed.
Lemma tame_touch : tame (vm_touch pf).
Proof. by intros s. Qed.
Lemma tame_check name : tame (stress_vm_check pf name).
Proof. apply tame_modify. intros s. by destruct (_ && _). Qed.

Lemma tame_for_list {A} (l : list A) body : (forall a, tame (body a)) -> tame (for_list l body).
Proof.
  intros Hb. induction l as [|a l IH]; [apply tame_ret|]. by apply tame_bind; [|intros _].
Qed.
Lemma tame_for_break {A} (l : list A) body : (forall a, tame (body a)) -> tame (for_break l body).
Proof.
  intros Hb. induction l as [|a l IH]; [apply tame_ret|]. apply tame_bind; [done|]. intros [|]; [done|apply tame_ret].
Qed.

Lemma tame_with_abort name body : tame body -> tame (with_abort pf name body).
Proof.
  intros Hb s. unfold with_abort.
  specialize (Hb (set_bit_errors 0 (set_c (counter s) s))). cbn [stop set_bit_errors set_c] in Hb.
  destruct (body _) as [[a| |v| |] s']; cbn [snd] in Hb; try done;
    (pose proof (tame_check name s') as Hc; destruct (stress_vm_check pf name s') as [r s'']; cbn [snd] in *;
     by etransitivity; [exact Hc|]).
Qed.
End Tame.

Create HintDb tame.
#[export] Hint Resolve tame_ret tame_throw tame_gets tame_ld tame_st tame_poll tame_count tame_draw tame_seed tame_reseed
  tame_touch tame_check tame_with_abort : tame.

Ltac head_of t := lazymatch t with ?f _ => head_of f | _ => t end.

(** one syntactic step of a stressor *)
Ltac tame_step :=
  match goal with
  | |- tame (mbind _ _) => apply tame_bind; [|intros ?]
  | |- tame (for_list _ _) => apply tame_for_list; intros ?
  | |- tame (for_break _ _) => apply tame_for_break; intros ?
  | |- tame (with_abort _ _ _) => apply tame_with_abort
  | |- tame (modify _) => apply tame_modify; reflexivity
  | |- tame (if decide _ then _ else _) => apply tame_decide
  | |- tame (if ?b then _ else _) => destruct b
  | |- tame (match ?x with _ => _ end) => destruct x
  | |- tame (let _ := _ in _) => cbv zeta
  | |- tame _ => solve [auto 2 with tame nocore]
  | |- tame ?m => let h := head_of m in unfold h
  end.
Ltac tame_prove := repeat tame_step.

Section Methods.
Context {M : Type} `{!MemDevice M} (pf : platform M).

Lemma tame_ld_le k p : tame (M := M) (ld_le k p).
Proof. revert p. induction k as [|k IH]; intros p; cbn [ld_le]; tame_prove. Qed.
Lemma tame_st_le k p v : tame (M := M) (st_le k p v).
Proof. revert p v. induction k as [|k IH]; intros p v; cbn [st_le]; tame_prove. Qed.
#[local] Hint Resolve tame_ld_le tame_st_le : tame.

Lemma tame_poll_abort : tame (M := M) poll_abort.
Proof. tame_prove. Qed.
Lemma tame_count_abort mo : tame (M := M) (count_abort mo).
Proof. tame_prove. Qed.
#[local] Hint Resolve tame_poll_abort tame_count_abort : tame.

Lemma tame_modulo_run n sz mo v p : tame (M := M) (modulo_run n sz mo v p).
Proof. revert p. induction n as [|n IH]; intros p; cbn [modulo_run]; tame_prove. Qed.
#[local] Hint Resolve tame_modulo_run : tame.
Lemma tame_modulo_blocks n i sz mo v p : tame (M := M) (modulo_blocks n i sz mo v p).
Proof. revert p. induction n as [|n IH]; intros p; cbn [modulo_blocks]; tame_prove. Qed.
Lemma tame_walk_addr n flip sz p mask : tame (walk_addr pf n flip sz p mask).
Proof. revert mask. induction n as [|n IH]; intros mask; cbn [walk_addr]; tame_prove. Qed.
Lemma tame_fill_swaps n chunks : tame (M := M) (fill_swaps n chunks).
Proof. induction n as [|n IH]; cbn [fill_swaps]; tame_prove. Qed.
Lemma tame_count_words ks f p acc : tame (M := M) (count_words ks f p acc).
Proof. revert acc. induction ks as [|k ks IH]; intros acc; cbn [count_words]; tame_prove. Qed.
#[local] Hint Resolve tame_count_words : tame.
Lemma tame_count_lines ls f acc : tame (M := M) (count_lines ls f acc).
Proof. revert acc. induction ls as [|l ls IH]; intros acc; cbn [count_lines]; tame_prove. Qed.
Lemma tame_galpat_place n sz free upd : tame (M := M) (galpat_place n sz free upd).
Proof. induction n as [|n IH]; cbn [galpat_place]; tame_prove. Qed.
Lemma tame_word_blocks n access mo i : (forall p, tame (access p)) -> tame (M := M) (word_blocks n access mo i).
Proof. intros Ha. revert i. induction n as [|n IH]; intros i; cbn [word_blocks]; tame_prove. Qed.
#[local] Hint Resolve tame_modulo_blocks tame_walk_addr tame_fill_swaps tame_count_lines tame_galpat_place : tame.
#[local] Hint Extern 1 (tame (word_blocks _ _ _ _)) => (apply tame_word_blocks; intros ?; tame_prove) : tame.

(** every stressor of the table *)
Lemma vm_methods_tame fuel sz mo : Forall (fun m => tame (m.2 sz mo)) (vm_methods_rest pf fuel).
Proof.
  unfold vm_methods_rest. repeat apply Forall_cons_2; [..|apply Forall_nil_2]; cbn [snd]; tame_prove.
Qed.

(** and the one that takes them in turn *)
Lemma stress_vm_all_tame fuel sz mo : tame (stress_vm_all pf fuel sz mo).
Proof.
  unfold stress_vm_all. tame_step; [tame_prove|].
  destruct (vm_methods_rest pf fuel !! (a - 1)%nat) as [[name func]|] eqn:Hf; [|tame_prove].
  apply tame_bind; [|intros ?; tame_prove].
  pose proof (vm_methods_tame fuel sz mo) as H. rewrite Forall_forall in H.
  by apply (H (name, func)), list_elem_of_lookup_2 with (i := (a - 1)%nat).
Qed.
End Methods.
