(* ===== verification/VmLogic.v ===== *)
(** * A program logic for the memory stressors

    Hoare triples over the monad of [VmState], with one postcondition for the
    normal end of a statement and one each for [goto abort] and [return]; an
    access outside the buffer and exhausted fuel satisfy no triple, so a triple
    is also a proof of memory safety and of termination.  The assertion [At]
    describes the buffer by a function from offsets to bytes. *)

From S2P Require Import Prelude Mwc VmState VmMethods.

(** ** Words in little endian order *)

Definition byte_of (j : nat) (v : Z) : Z := u8 (v >>> (8 * Z.of_nat j)).

Lemma byte_of_fits j v : fits 8 (byte_of j v).
Proof. apply u8_fits. Qed.

Lemma byte_of_0 v : byte_of 0 v = u8 v.
Proof. unfold byte_of. by rewrite Z.shiftr_0_r. Qed.

Lemma byte_of_S j v : byte_of (S j) v = byte_of j (v >>> 8).
Proof. unfold byte_of. rewrite Z.shiftr_shiftr by lia. do 2 f_equal. lia. Qed.

(** the value of [k] bytes read from [F] at [p] *)
Fixpoint combine (F : nat -> Z) (k p : nat) : Z :=
  match k with O => 0 | S k => F p + 256 * combine F k (S p) end.

Lemma combine_ext F G k p :
  (forall j, (j < k)%nat -> F (p + j)%nat = G (p + j)%nat) -> combine F k p = combine G k p.
Proof.
  revert p. induction k as [|k IH]; intros p H; simpl; [done|].
  rewrite (IH (S p)).
  - specialize (H 0%nat). rewrite Nat.add_0_r in H. rewrite H by lia. done.
  - intros j Hj. specialize (H (S j)). rewrite <- plus_n_Sm in H. apply H. lia.
Qed.

(** reading back the bytes of [v] gives [v] *)
Lemma combine_byte_of k v p F :
  fits (8 * Z.of_nat k) v ->
  (forall j, (j < k)%nat -> F (p + j)%nat = byte_of j v) ->
  combine F k p = v.
Proof.
  revert v p. induction k as [|k IH]; intros v p Hv H; simpl.
  - unfold fits in Hv. change (8 * Z.of_nat 0) with 0 in Hv. lia.
  - rewrite (IH (v >>> 8) (S p)).
    + specialize (H 0%nat). rewrite Nat.add_0_r, byte_of_0 in H. rewrite H by lia.
      unfold u8. rewrite Z.shiftr_div_pow2 by lia. change (2 ^ 8) with 256.
      pose proof (Z.div_mod v 256). lia.
    + unfold fits in *. rewrite Z.shiftr_div_pow2 by lia. split; [apply Z.div_pos; lia|].
      apply Z.div_lt_upper_bound; [lia|].
      rewrite <- Z.pow_add_r by lia.
      replace (8 + 8 * Z.of_nat k) with (8 * Z.of_nat (S k)) by lia. lia.
    + intros j Hj. rewrite <- byte_of_S. specialize (H (S j)).
      rewrite <- plus_n_Sm in H. apply H. lia.
Qed.

Lemma combine_fits F k p :
  (forall i, fits 8 (F i)) -> fits (8 * Z.of_nat k) (combine F k p).
Proof.
  intros HF. revert p. induction k as [|k IH]; intros p; simpl combine.
  - unfold fits. simpl. lia.
  - specialize (IH (S p)). specialize (HF p). unfold fits in *.
    replace (8 * Z.of_nat (S k)) with (8 + 8 * Z.of_nat k) by lia.
    rewrite Z.pow_add_r by lia. change (2 ^ 8) with 256 in *. nia.
Qed.

(** ** Triples *)

Section Triples.
Context {M : Type} (E : vmst M -> Prop) (R : Z -> vmst M -> Prop).

Definition outcome {A} (Q : A -> vmst M -> Prop) (r : ctl A * vmst M) : Prop :=
  match r with
  | (Go a, s) => Q a s
  | (Abort, s) => E s
  | (Ret v, s) => R v s
  | (Oob, _) | (Nofuel, _) => False
  end.

Definition triple {A} (P : vmst M -> Prop) (m : vm M A) (Q : A -> vmst M -> Prop) : Prop :=
  forall s, P s -> outcome Q (m s).

Lemma triple_conseq {A} (P P' : vmst M -> Prop) (m : vm M A) (Q Q' : A -> vmst M -> Prop) :
  triple P m Q -> (forall s, P' s -> P s) -> (forall a s, Q a s -> Q' a s) -> triple P' m Q'.
Proof.
  intros H HP HQ s Hs. specialize (H s (HP s Hs)). unfold outcome in *.
  destruct (m s) as [[a| |v| |] s']; eauto.
Qed.

Lemma triple_pre {A} (P P' : vmst M -> Prop) (m : vm M A) (Q : A -> vmst M -> Prop) :
  (forall s, P' s -> P s) -> triple P m Q -> triple P' m Q.
Proof. intros. eapply triple_conseq; eauto. Qed.

Lemma triple_post {A} (P : vmst M -> Prop) (m : vm M A) (Q Q' : A -> vmst M -> Prop) :
  (forall a s, Q a s -> Q' a s) -> triple P m Q -> triple P m Q'.
Proof. intros. eapply triple_conseq; eauto. Qed.

Lemma triple_ret {A} (P : vmst M -> Prop) (a : A) (Q : A -> vmst M -> Prop) :
  (forall s, P s -> Q a s) -> triple P (mret a) Q.
Proof. intros H s Hs. simpl. auto. Qed.

Lemma triple_bind {A B} (P : vmst M -> Prop) (m : vm M A) (k : A -> vm M B) Q Q' :
  triple P m Q -> (forall a, triple (Q a) (k a) Q') -> triple P (m ≫= k) Q'.
Proof.
  intros Hm Hk s Hs. specialize (Hm s Hs). unfold mbind, vm_bind, outcome in *.
  destruct (m s) as [[a| |v| |] s']; try done. by apply Hk.
Qed.

(** a statement whose value is known *)
Lemma triple_bind_eq {A B} (P P' : vmst M -> Prop) (m : vm M A) (x : A) (k : A -> vm M B) Q' :
  triple P m (fun a s => a = x /\ P' s) -> triple P' (k x) Q' -> triple P (m ≫= k) Q'.
Proof.
  intros Hm Hk. eapply triple_bind; [exact Hm|]. intros a s [-> Hs]. by apply Hk.
Qed.

Lemma triple_seq {B} (P P' : vmst M -> Prop) (m : vm M unit) (k : vm M B) Q' :
  triple P m (fun _ => P') -> triple P' k Q' -> triple P (m;; k) Q'.
Proof. intros Hm Hk. eapply triple_bind; [exact Hm|]. done. Qed.

Lemma triple_for_list {A} (I : nat -> vmst M -> Prop) (l : list A) (body : A -> vm M unit) :
  (forall k x, l !! k = Some x -> triple (I k) (body x) (fun _ => I (S k))) ->
  triple (I 0%nat) (for_list l body) (fun _ => I (length l)).
Proof.
  revert I. induction l as [|x l IH]; intros I H; simpl.
  - by apply triple_ret.
  - eapply triple_seq; [by apply (H 0%nat)|].
    apply (IH (fun k => I (S k))). intros k y Hy. by apply (H (S k)).
Qed.

(** the loops of the stressors run over an affine image of an interval *)
Lemma triple_for_seq {A} (I : nat -> vmst M -> Prop) (f : nat -> A) n (body : A -> vm M unit) :
  (forall k, (k < n)%nat -> triple (I k) (body (f k)) (fun _ => I (S k))) ->
  triple (I 0%nat) (for_list (f <$> seq 0 n) body) (fun _ => I n).
Proof.
  intros H. eapply triple_post; [|apply (triple_for_list I)].
  - intros []. by rewrite length_fmap, length_seq.
  - intros k x. rewrite list_lookup_fmap, fmap_Some. intros (j & Hj & ->).
    apply lookup_seq in Hj as [-> Hj]. by apply H.
Qed.

Lemma triple_for_upto (I : nat -> vmst M -> Prop) n (body : nat -> vm M unit) :
  (forall k, (k < n)%nat -> triple (I k) (body k) (fun _ => I (S k))) ->
  triple (I 0%nat) (for_list (seq 0 n) body) (fun _ => I n).
Proof.
  intros H. rewrite <- (list_fmap_id (seq 0 n)). by apply (triple_for_seq I id).
Qed.

(** a loop with [break]: the invariant is weakened to [Q] when it is left *)
Lemma triple_for_break {A} (I : nat -> vmst M -> Prop) (Q : vmst M -> Prop)
    (f : nat -> A) n (body : A -> vm M bool) :
  (forall k, (k < n)%nat ->
    triple (I k) (body (f k)) (fun b s => if b : bool then I (S k) s else Q s)) ->
  (forall s, I n s -> Q s) ->
  triple (I 0%nat) (for_break (f <$> seq 0 n) body) (fun _ => Q).
Proof.
  intros Hb HQ.
  assert (forall k l, (k + l = n)%nat ->
    triple (I k) (for_break (f <$> seq k l) body) (fun _ => Q)) as H; [|by apply (H 0%nat)].
  intros k l. revert k. induction l as [|l IH]; intros k Hk; simpl.
  - apply triple_ret. replace k with n by lia. done.
  - eapply triple_bind; [apply Hb; lia|]. intros [|].
    + apply IH. lia.
    + by apply triple_ret.
Qed.

Lemma triple_break_upto (I : nat -> vmst M -> Prop) (Q : vmst M -> Prop) n
    (body : nat -> vm M bool) :
  (forall k, (k < n)%nat ->
    triple (I k) (body k) (fun b s => if b : bool then I (S k) s else Q s)) ->
  (forall s, I n s -> Q s) ->
  triple (I 0%nat) (for_break (seq 0 n) body) (fun _ => Q).
Proof.
  intros H HQ. rewrite <- (list_fmap_id (seq 0 n)).
  by apply (triple_for_break I Q id).
Qed.

(** loops with an invariant that does not depend on the round *)
Lemma triple_for_inv {A} (I : vmst M -> Prop) (l : list A) (body : A -> vm M unit) :
  (forall x, x ∈ l -> triple I (body x) (fun _ => I)) -> triple I (for_list l body) (fun _ => I).
Proof.
  intros H. apply (triple_for_list (fun _ => I)). intros k x Hx. apply H.
  by apply list_elem_of_lookup_2 in Hx.
Qed.

Lemma triple_break_inv {A} (I : vmst M -> Prop) (l : list A) (body : A -> vm M bool) :
  (forall x, x ∈ l -> triple I (body x) (fun _ => I)) -> triple I (for_break l body) (fun _ => I).
Proof.
  induction l as [|x l IH]; intros H; simpl.
  - by apply triple_ret.
  - eapply triple_bind; [apply H; by left|]. intros [|]; [|by apply triple_ret].
    apply IH. intros y Hy. apply H. by right.
Qed.

Lemma triple_exists {A X} (P : X -> vmst M -> Prop) (m : vm M A) Q :
  (forall x, triple (P x) m Q) -> triple (fun s => exists x, P x s) m Q.
Proof. intros H s [x Hs]. by apply (H x). Qed.

Lemma triple_pure {A} (X : Prop) (P : vmst M -> Prop) (m : vm M A) Q :
  (X -> triple P m Q) -> triple (fun s => X /\ P s) m Q.
Proof. intros H s [x Hs]. by apply (H x). Qed.

End Triples.

Lemma strided_elem x a b d : (0 < d)%nat -> x ∈ strided a b d -> (a <= x < b)%nat.
Proof.
  intros Hd. unfold strided. intros (k & -> & Hk)%list_elem_of_fmap.
  apply elem_of_seq in Hk as [_ Hk].
  assert (k * d < b - a)%nat; [|lia].
  assert (S k * d <= b - a + d - 1)%nat; [|lia].
  transitivity ((b - a + d - 1) / d * d)%nat; [apply Nat.mul_le_mono_r; lia|].
  rewrite Nat.mul_comm. apply Nat.Div0.mul_div_le.
Qed.

(** ** Sound platforms *)

(** what a stressor relies on when it calls [mincore_touch_pages()]: the pages
    are made resident and the contents stay *)
Class SoundPlatform {M : Type} `{MemDevice M} (pf : platform M) := {
  touch_size : forall k m, msize (pf_touch pf k m) = msize m;
  touch_load : forall k m i, (i < msize m)%nat -> load i (pf_touch pf k m) = load i m }.

(** a function on offsets with the bytes of [p .. p + k - 1] replaced *)
Definition fill (p k : nat) (f : nat -> Z) (F : nat -> Z) (i : nat) : Z :=
  if decide (p <= i < p + k)%nat then f i else F i.

Lemma fill_in p k f F i : (p <= i < p + k)%nat -> fill p k f F i = f i.
Proof. intros. unfold fill. by rewrite decide_True. Qed.
Lemma fill_out p k f F i : ~ (p <= i < p + k)%nat -> fill p k f F i = F i.
Proof. intros. unfold fill. by rewrite decide_False. Qed.

(** ** The assertion and the rules of the operations *)

Section Rules.
Context {M : Type} `{!MemDevice M} `{!Healthy M} (pf : platform M) `{!SoundPlatform pf}.
Context (E : vmst M -> Prop) (R : Z -> vmst M -> Prop).
(** the size of the buffer, the failures reported so far, and whether the run
    is one that the alarm does not interrupt *)
Context (n : nat) (fl : list (string * Z)) (ns : bool).

Definition frame (s : vmst M) : Prop :=
  msize (mem s) = n /\ fails s = fl /\ (ns = true -> stop s = None).

(** the buffer reads as [F], the generator is [g], [e] errors were counted and
    the static variables are [v] *)
Definition At (F : nat -> Z) (g : mwc) (e : Z) (v : statics) (s : vmst M) : Prop :=
  frame s /\ (forall i, (i < n)%nat -> load i (mem s) = F i) /\
  rng s = g /\ bit_errors s = e /\ vars s = v.

Abbreviation tri := (triple E R).

Lemma At_ext F G g e v s :
  (forall i, (i < n)%nat -> F i = G i) -> At F g e v s -> At G g e v s.
Proof.
  intros H (Hf & HF & Hr). split; [done|]. split; [|done].
  intros i Hi. by rewrite HF, H.
Qed.

Lemma At_exists s :
  frame s -> At (fun i => load i (mem s)) (rng s) (bit_errors s) (vars s) s.
Proof. intros H. by repeat split; try apply H. Qed.

Lemma tri_ld F g e v i :
  (i < n)%nat -> tri (At F g e v) (ld i) (fun x s => x = F i /\ At F g e v s).
Proof.
  intros Hi s Hs. pose proof Hs as ((Hn & _) & HF & _). unfold ld.
  rewrite Hn, decide_True by done. simpl. by rewrite HF.
Qed.

Lemma tri_st F g e v i x :
  (i < n)%nat ->
  tri (At F g e v) (st i x) (fun _ => At (fill i 1 (fun _ => u8 x) F) g e v).
Proof.
  intros Hi s (Hfr & HF & Hr). pose proof Hfr as (Hn & Hfl & Hns). unfold st.
  rewrite Hn, decide_True by done. simpl. repeat split; simpl; try done; try apply Hr.
  - by rewrite msize_store.
  - intros j Hj. rewrite load_store by (auto with cword; lia). unfold fill.
    destruct (decide (i = j)); repeat case_decide; try lia; auto.
Qed.

Lemma tri_add F g e v d : tri (At F g e v) (add_errors d) (fun _ => At F g (u64 (e + d)) v).
Proof. intros s (Hfr & HF & Hg & He & Hv). simpl. repeat split; simpl; try apply Hfr; try done. by rewrite He. Qed.

Lemma tri_check F g v i x :
  (i < n)%nat -> F i = x -> tri (At F g 0 v) (check_byte i x) (fun _ => At F g 0 v).
Proof.
  intros Hi <-. eapply triple_bind_eq; [by apply tri_ld|].
  rewrite Z.eqb_refl. apply tri_add.
Qed.

Lemma tri_draw F g e v d :
  tri (At F g e v) (draw_with d) (fun x s => x = fst (d g) /\ At F (snd (d g)) e v s).
Proof.
  intros s (Hfr & HF & Hg & He & Hv). unfold draw_with. rewrite Hg.
  destruct (d g) as [x g'] eqn:Hd. by repeat split; simpl; try apply Hfr.
Qed.

Lemma tri_gets_vars {A} F g e v (f : statics -> A) :
  tri (At F g e v) (gets (fun s => f (vars s))) (fun x s => x = f v /\ At F g e v s).
Proof. intros s Hs. simpl. split; [|done]. by destruct Hs as (_&_&_&_&->). Qed.

Lemma tri_gets_errors F g e v :
  tri (At F g e v) (gets bit_errors) (fun x s => x = e /\ At F g e v s).
Proof. intros s Hs. simpl. split; [|done]. by destruct Hs as (_&_&_&->&_). Qed.

Lemma tri_set_errors F g e e' v :
  tri (At F g e v) (modify (set_bit_errors e')) (fun _ => At F g e' v).
Proof. intros s (Hfr & HF & Hg & He & Hv). by repeat split; simpl; try apply Hfr. Qed.

Lemma tri_upd_vars F g e v f :
  tri (At F g e v) (upd_vars f) (fun _ => At F g e (f v)).
Proof. intros s (Hfr & HF & Hg & He & <-). by repeat split; simpl; try apply Hfr. Qed.

Lemma tri_seed F g e v w z :
  tri (At F g e v) (vm_seed w z) (fun _ => At F (mwc_seed w z g) e v).
Proof. intros s (Hfr & HF & <- & He & Hv). by repeat split; simpl; try apply Hfr. Qed.

Lemma tri_reseed F g e v :
  tri (At F g e v) (vm_reseed pf) (fun _ s => exists k, At F (pf_reseed pf k g) e v s).
Proof.
  intros s (Hfr & HF & <- & He & Hv). exists (reseeds s).
  by repeat split; simpl; try apply Hfr.
Qed.

Lemma tri_touch F g e v : tri (At F g e v) (vm_touch pf) (fun _ => At F g e v).
Proof.
  intros s ((Hn & Hfl & Hns) & HF & Hr). repeat split; simpl; try done; try apply Hr.
  - by rewrite touch_size.
  - intros i Hi. rewrite touch_load by lia. by apply HF.
Qed.

Lemma tri_count F g e v m :
  tri (At F g e v) (count m) (fun b s => (m = 0 -> b = false) /\ At F g e v s).
Proof.
  intros s (Hfr & HF & Hr). simpl. repeat split; simpl; try apply Hfr; try done; try apply Hr.
  by intros ->.
Qed.

Lemma tri_add_count F g e v d : tri (At F g e v) (add_count d) (fun _ => At F g e v).
Proof. intros s (Hfr & HF & Hr). simpl. by repeat split; simpl; try apply Hfr; try apply Hr. Qed.

Lemma tri_bump F g e v d : tri (At F g e v) (bump_counter d) (fun _ => At F g e v).
Proof. intros s (Hfr & HF & Hr). simpl. by repeat split; simpl; try apply Hfr; try apply Hr. Qed.

Lemma tri_poll F g e v :
  tri (At F g e v) poll (fun b s => (ns = true -> b = true) /\ At F g e v s).
Proof.
  intros s Hs. pose proof Hs as ((Hn & Hfl & Hns) & HF & Hr). unfold poll.
  destruct (stop s) as [[|k]|] eqn:Hst; simpl.
  - split; [|done]. intros Ht. by specialize (Hns Ht).
  - split; [done|]. repeat split; simpl; try done; try apply Hr.
    intros Ht. by specialize (Hns Ht).
  - done.
Qed.

(** [poll] at the end of the body of a loop that breaks *)
Lemma tri_poll_weak F g e v (I Q : vmst M -> Prop) :
  (forall s, At F g e v s -> I s) -> (forall s, At F g e v s -> Q s) ->
  tri (At F g e v) poll (fun b s => if b : bool then I s else Q s).
Proof.
  intros HI HQ. eapply triple_post; [|apply tri_poll]. intros [|] s [_ Hs]; auto.
Qed.

Lemma tri_poll_abort F g e v :
  (ns = false -> forall s, At F g e v s -> E s) ->
  tri (At F g e v) poll_abort (fun _ => At F g e v).
Proof.
  intros HE. eapply triple_bind; [apply tri_poll|]. intros [|]; simpl.
  - apply triple_ret. by intros s [_ ?].
  - intros s [Hb Hs]. simpl. destruct ns; [by discriminate Hb|]. by apply HE.
Qed.

Lemma tri_count_abort F g e v m :
  (m <> 0 -> forall s, At F g e v s -> E s) ->
  tri (At F g e v) (count_abort m) (fun _ => At F g e v).
Proof.
  intros HE. eapply triple_bind; [apply tri_count|]. intros [|]; simpl.
  - intros s [Hb Hs]. simpl. apply HE; [|done]. intros ->. by discriminate Hb.
  - apply triple_ret. by intros s [_ ?].
Qed.

(** *** groups of bytes *)

(** a loop that rewrites the bytes of an interval one after the other *)
Lemma tri_fill_loop F g e v p k f (body : nat -> vm M unit) :
  (forall j G, (j < k)%nat -> G (p + j)%nat = F (p + j)%nat ->
    tri (At G g e v) (body j) (fun _ => At (fill (p + j) 1 f G) g e v)) ->
  tri (At F g e v) (for_list (seq 0 k) body) (fun _ => At (fill p k f F) g e v).
Proof.
  intros H. eapply triple_pre; [|apply (triple_for_upto E R (fun j => At (fill p j f F) g e v))].
  - intros s. apply At_ext. intros i Hi. by rewrite fill_out by lia.
  - intros j Hj. eapply triple_post; [|apply H; [done|]].
    + intros ? s. apply At_ext. intros i Hi. unfold fill. repeat case_decide; auto; lia.
    + by rewrite fill_out by lia.
Qed.

Lemma tri_memset F g e v p k x :
  (p + k <= n)%nat ->
  tri (At F g e v) (memset p k x) (fun _ => At (fill p k (fun _ => u8 x) F) g e v).
Proof.
  intros Hk. unfold memset.
  assert (seq p k = (fun j => p + j)%nat <$> seq 0 k) as ->.
  { change (seq p k = Nat.add p <$> seq 0 k). by rewrite fmap_add_seq, Nat.add_0_r. }
  eapply triple_pre; [|apply (triple_for_seq E R
    (fun j => At (fill p j (fun _ => u8 x) F) g e v) (fun j => p + j)%nat)].
  - intros s. apply At_ext. intros i Hi. by rewrite fill_out by lia.
  - intros j Hj. eapply triple_post; [|apply tri_st; lia].
    intros ? s. apply At_ext. intros i Hi. unfold fill. repeat case_decide; auto; lia.
Qed.

(** a loop that only reads *)
Lemma tri_read_loop F g e v k (body : nat -> vm M unit) :
  (forall j, (j < k)%nat -> tri (At F g e v) (body j) (fun _ => At F g e v)) ->
  tri (At F g e v) (for_list (seq 0 k) body) (fun _ => At F g e v).
Proof. apply (triple_for_upto E R (fun _ => At F g e v)). Qed.

Lemma tri_st8 F g e v p (f : nat -> Z) :
  (p + 8 <= n)%nat ->
  tri (At F g e v) (for_list unrolled (fun k => st (p + k) (f k)))
    (fun _ => At (fill p 8 (fun i => u8 (f (i - p)%nat)) F) g e v).
Proof.
  intros Hp. apply (tri_fill_loop F g e v p 8). intros j G Hj HG.
  eapply triple_post; [|apply tri_st; lia]. intros ? s. apply At_ext. intros i Hi.
  unfold fill. repeat case_decide; try done. by replace (i - p)%nat with j by lia.
Qed.

Lemma tri_update8 F g e v p f :
  (p + 8 <= n)%nat ->
  tri (At F g e v) (update8 f p) (fun _ => At (fill p 8 (fun i => u8 (f (F i))) F) g e v).
Proof.
  intros Hp. apply (tri_fill_loop F g e v p 8). intros j G Hj HG.
  eapply triple_bind_eq; [apply tri_ld; lia|].
  eapply triple_post; [|apply tri_st; lia]. intros ? s. apply At_ext. intros i Hi.
  unfold fill. repeat case_decide; try done. replace i with (p + j)%nat by lia. by rewrite HG.
Qed.

Lemma tri_check_group F g v p (f : nat -> Z) :
  (p + 8 <= n)%nat ->
  (forall k, (k < 8)%nat -> F (p + k)%nat = f k) ->
  tri (At F g 0 v) (for_list unrolled (fun k => check_byte (p + k) (f k))) (fun _ => At F g 0 v).
Proof.
  intros Hp H. apply (tri_read_loop F g 0 v 8). intros j Hj. apply tri_check; [lia|]. by apply H.
Qed.

Lemma tri_ld_le F g e v k p :
  (p + k <= n)%nat ->
  tri (At F g e v) (ld_le k p) (fun x s => x = combine F k p /\ At F g e v s).
Proof.
  revert p. induction k as [|k IH]; intros p Hp; simpl.
  - by apply triple_ret.
  - eapply triple_bind_eq; [apply tri_ld; lia|].
    eapply triple_bind_eq; [apply IH; lia|]. by apply triple_ret.
Qed.

Lemma tri_st_le F g e v k p x :
  (p + k <= n)%nat ->
  tri (At F g e v) (st_le k p x) (fun _ => At (fill p k (fun i => byte_of (i - p) x) F) g e v).
Proof.
  revert F p x. induction k as [|k IH]; intros F p x Hp; simpl.
  - apply triple_ret. intros s. apply At_ext. intros i Hi. by rewrite fill_out by lia.
  - eapply triple_seq; [apply tri_st; lia|].
    eapply triple_post; [|apply IH; lia]. intros ? s. apply At_ext. intros i Hi.
    unfold fill. repeat case_decide; try lia; try done.
    + rewrite <- byte_of_S. f_equal. lia.
    + replace (i - p)%nat with 0%nat by lia. symmetry. apply byte_of_0.
Qed.

(** *** passes over the whole buffer in blocks of [b] bytes *)

Lemma strided_blocks b m : (0 < b)%nat -> strided 0 (b * m) b = (fun k => b * k)%nat <$> seq 0 m.
Proof.
  intros Hb. unfold strided. replace ((b * m - 0 + b - 1) / b)%nat with m.
  - apply list_fmap_ext. intros ? k _. lia.
  - apply Nat.div_unique with (b - 1)%nat; lia.
Qed.

(** a pass that makes the buffer read as [f]; [gs k] is the generator before the
    [k]th block *)
Lemma tri_pass F e v b m f (gs : nat -> mwc) (body : nat -> vm M unit) :
  (0 < b)%nat -> n = (b * m)%nat ->
  (forall k G, (k < m)%nat -> (forall i, (b * k <= i)%nat -> G i = F i) ->
    tri (At G (gs k) e v) (body (b * k)%nat)
      (fun _ => At (fill (b * k) b f G) (gs (S k)) e v)) ->
  tri (At F (gs 0%nat) e v) (for_list (strided 0 n b) body) (fun _ => At f (gs m) e v).
Proof.
  intros Hb Hn H. rewrite Hn, strided_blocks by done.
  eapply triple_conseq;
    [apply (triple_for_seq E R (fun k => At (fill 0 (b * k) f F) (gs k) e v)
       (fun k => b * k)%nat m)| |].
  - intros k Hk. eapply triple_post; [|apply H; [done|]].
    + intros ? s. apply At_ext. intros i Hi. unfold fill. repeat case_decide; auto; lia.
    + intros i Hi. by rewrite fill_out by lia.
  - intros s. apply At_ext. intros i Hi. by rewrite fill_out by lia.
  - intros ? s. apply At_ext. intros i Hi. by rewrite fill_in by lia.
Qed.

(** the same pass from the end of the buffer down *)
Lemma tri_pass_down F e v m f (gs : nat -> mwc) (body : nat -> vm M unit) :
  n = (8 * m)%nat ->
  (forall k G, (k < m)%nat -> (forall i, (i < n - 8 * k)%nat -> G i = F i) ->
    tri (At G (gs k) e v) (body (n - 8 * (k + 1))%nat)
      (fun _ => At (fill (n - 8 * (k + 1)) 8 f G) (gs (S k)) e v)) ->
  tri (At F (gs 0%nat) e v) (for_list (words_down n) body) (fun _ => At f (gs m) e v).
Proof.
  intros Hn H. unfold words_down. replace ((n + 7) / 8)%nat with m
    by (apply Nat.div_unique with 7%nat; lia).
  eapply triple_conseq;
    [apply (triple_for_seq E R (fun k => At (fill (n - 8 * k) (8 * k) f F) (gs k) e v)
       (fun k => n - 8 * (k + 1))%nat m)| |].
  - intros k Hk. eapply triple_post; [|apply H; [done|]].
    + intros ? s. apply At_ext. intros i Hi. unfold fill. repeat case_decide; auto; lia.
    + intros i Hi. by rewrite fill_out by lia.
  - intros s. apply At_ext. intros i Hi. by rewrite fill_out by lia.
  - intros ? s. apply At_ext. intros i Hi. by rewrite fill_in by lia.
Qed.

(** a checking pass that may be left early *)
Lemma tri_check_pass F v b m (gs : nat -> mwc) (body : nat -> vm M bool) (Q : vmst M -> Prop) :
  (0 < b)%nat -> n = (b * m)%nat ->
  (forall g s, At F g 0 v s -> Q s) ->
  (forall k, (k < m)%nat ->
    tri (At F (gs k) 0 v) (body (b * k)%nat)
      (fun c s => if c : bool then At F (gs (S k)) 0 v s else Q s)) ->
  tri (At F (gs 0%nat) 0 v) (for_break (strided 0 n b) body) (fun _ => Q).
Proof.
  intros Hb Hn HQ H. rewrite Hn, strided_blocks by done.
  apply (triple_for_break E R (fun k => At F (gs k) 0 v) Q (fun k => b * k)%nat); [done|].
  apply HQ.
Qed.

End Rules.
