(* ===== verification/Mincore.v ===== *)
(** * Touching pages (mincore.c, and its copy in the enclave)

    [mincore_touch_pages] writes to a byte of every page (or of every page that
    is not resident) to bring it into memory, and undoes the writes.  On sound
    memory it leaves every byte as it was: this is what the memory stressors
    expect of the platform they run on. *)

From S2P Require Import Prelude Mwc VmState VmLogic.

(** how the build and the system answer *)
Record mincore_env := MincoreEnv {
  have_mincore : bool;         (** HAVE_MINCORE *)
  mincore_flag : bool;         (** OPT_FLAGS_MMAP_MINCORE is set *)
  vec_ok : bool;               (** [calloc] finds memory for the vector *)
  mincore_vec : option (nat -> Z) (** the vector filled in, unless the call fails *)
}.

Section Touch.
Context {M : Type} `{!MemDevice M}.

(** [( *buffer)++] and [( *buffer)--] *)
Definition bump (d : Z) (m : M) (p : nat) : M := store p (u8 (load p m + d)) m.

Definition touch_list (pages : list nat) (m : M) : M :=
  foldl (bump (-1)) (foldl (bump 1) m pages) pages.

Definition page_starts (n_pages page_size : nat) : list nat := (fun i => i * page_size)%nat <$> seq 0 n_pages.

Definition mincore_touch_pages_slow (n_pages page_size : nat) (m : M) : M :=
  touch_list (page_starts n_pages page_size) m.

(** the pages whose bit 0 of the vector is clear *)
Definition absent_starts (vec : nat -> Z) (n_pages page_size : nat) : list nat :=
  (fun i => i * page_size)%nat <$> List.filter (fun i => negb (c_true (vec i .& 1))) (seq 0 n_pages).

Definition mincore_touch_pages (e : mincore_env) (page_size : nat) (m : M) : Z * M :=
  let n_pages := (msize m / page_size)%nat in
  if negb (have_mincore e) then (0, mincore_touch_pages_slow n_pages page_size m)
  else if negb (mincore_flag e) then (0, m)
  else if (n_pages <? 1)%nat then (-1, m)
  else if negb (vec_ok e) then (0, mincore_touch_pages_slow n_pages page_size m)
  else match mincore_vec e with
       | None => (0, mincore_touch_pages_slow n_pages page_size m)
       | Some vec => (0, touch_list (absent_starts vec n_pages page_size) m)
       end.

(** ** Nothing is left behind *)

Context `{!Healthy M}.

(** [m'] reads like [m] *)
Definition same (m m' : M) : Prop :=
  msize m' = msize m /\ forall i, (i < msize m)%nat -> load i m' = load i m.

Lemma foldl_bump_size d pages m : msize (foldl (bump d) m pages) = msize m.
Proof.
  revert m. induction pages as [|p pages IH]; intros m; [done|]. cbn [foldl]. rewrite IH. apply msize_store.
Qed.

Lemma foldl_bump_load d pages m i :
  NoDup pages -> Forall (fun p => p < msize m)%nat pages -> (i < msize m)%nat ->
  load i (foldl (bump d) m pages) = if decide (i ∈ pages) then u8 (load i m + d) else load i m.
Proof.
  intros Hnd. revert m. induction Hnd as [|p pages Hp Hnd IH]; intros m Hlt Hi.
  - cbn. by rewrite decide_False by apply not_elem_of_nil.
  - inversion Hlt as [|? ? Hpm Hlt']; subst. cbn [foldl].
    assert (msize (bump d m p) = msize m) as Hsz by apply msize_store.
    rewrite IH by (rewrite ?Hsz; done). unfold bump.
    rewrite load_store by (done || apply u8_fits).
    destruct (decide (p = i)) as [->|Hne].
    + by rewrite (decide_False (P := i ∈ pages)), decide_True by (done || left).
    + destruct (decide (i ∈ pages)) as [Hin|Hin].
      * by rewrite decide_True by by right.
      * rewrite decide_False; [done|]. by intros [->|?]%elem_of_cons.
Qed.

Lemma touch_list_same pages m :
  NoDup pages -> Forall (fun p => p < msize m)%nat pages -> same m (touch_list pages m).
Proof.
  intros Hnd Hlt. unfold touch_list. split; [by rewrite !foldl_bump_size|].
  intros i Hi. rewrite foldl_bump_load by (rewrite ?foldl_bump_size; done).
  rewrite foldl_bump_load by done. destruct (decide (i ∈ pages)); [|done].
  unfold u8. rewrite Zplus_mod_idemp_l. rewrite <- Z.add_assoc. change (1 + -1) with 0. rewrite Z.add_0_r.
  apply Z.mod_small, load_fits.
Qed.

Lemma page_list_ok page_size (l : list nat) n m :
  (0 < page_size)%nat -> NoDup l -> Forall (fun i => i < n)%nat l -> n = (msize m / page_size)%nat ->
  NoDup ((fun i => i * page_size)%nat <$> l) /\
  Forall (fun p => p < msize m)%nat ((fun i => i * page_size)%nat <$> l).
Proof.
  intros Hps Hnd Hl Hn. split.
  - apply NoDup_fmap_2_strong; [|done]. intros x y _ _ Hxy. cbn in Hxy. apply Nat.mul_cancel_r in Hxy; lia.
  - apply Forall_fmap. eapply Forall_impl; [exact Hl|]. intros i Hi. cbn.
    
    apply Nat.lt_le_trans with (n * page_size)%nat; [by apply Nat.mul_lt_mono_pos_r|].
    subst n. rewrite Nat.mul_comm. apply Nat.Div0.mul_div_le.
Qed.

Lemma mincore_touch_same e page_size m :
  (0 < page_size)%nat -> same m (mincore_touch_pages e page_size m).2.
Proof.
  intros Hps. set (n := (msize m / page_size)%nat).
  assert (Forall (fun i => i < n)%nat (seq 0 n)) as Hseq.
  { apply Forall_forall. intros i Hi%elem_of_seq. lia. }
  assert (same m (mincore_touch_pages_slow n page_size m)) as Hslow.
  { destruct (page_list_ok page_size (seq 0 n) n m Hps (NoDup_seq _ _) Hseq eq_refl) as [H1 H2].
    by apply touch_list_same. }
  unfold mincore_touch_pages. fold n.
  destruct (have_mincore e); cbn [negb snd]; [|done]. destruct (mincore_flag e); cbn [negb snd]; [|done].
  destruct (n <? 1)%nat; [done|]. destruct (vec_ok e); cbn [negb snd]; [|done].
  destruct (mincore_vec e) as [vec|]; cbn [snd]; [|done].
  destruct (page_list_ok page_size (List.filter (fun i => negb (c_true (vec i .& 1))) (seq 0 n)) n m Hps) as [H1 H2].
  - apply NoDup_ListNoDup, List.NoDup_filter, NoDup_ListNoDup, NoDup_seq.
  - rewrite Forall_forall in *. intros i Hi%list_elem_of_In. apply filter_In in Hi as [Hi _].
    by apply Hseq, list_elem_of_In.
  - done.
  - by apply touch_list_same.
Qed.
End Touch.

(** The platform of the program: pages are touched as above, differently each
    time (what is resident changes). *)
Definition touching_platform {M} `{!MemDevice M} (base : Z) (reseed : nat -> mwc -> mwc)
    (env : nat -> mincore_env) (page_size : nat) (calloc verify : bool) : platform M :=
  Platform base reseed (fun k m => (mincore_touch_pages (env k) page_size m).2) calloc verify.

(** the class the stressors rely on is met on sound memory *)
Lemma touching_platform_sound {M} `{!MemDevice M} `{!Healthy M} base reseed env page_size ca ve :
  (0 < page_size)%nat -> SoundPlatform (M := M) (touching_platform base reseed env page_size ca ve).
Proof. intros Hps. split; intros k m; apply (mincore_touch_same (env k) page_size m Hps). Qed.
