(* ===== verification/VmProofs.v ===== *)
(** * The memory stressors on sound memory

    Every stressor of the table, run on memory that keeps what is written to
    it, ends, stays inside the buffer and reports no error. *)

From S2P Require Import Prelude Mwc VmState VmMethods VmLogic.

(** the stressors proved to pass, for the theorems about the whole table *)
Create HintDb vmpass.

(** ** The specification *)

(** what the calls of the stressors keep true of their static variables *)
Definition statics_wf (v : statics) : Prop :=
  fits 8 (nybble_val v) /\ fits 32 (rowhammer_val v) /\ prime_incdec_val v = 0.

Section Spec.
Context {M : Type} `{!MemDevice M}.

(** A call that reports no error: it returns 0, so it neither left the buffer
    nor hung, and [stress_vm_check()] reported nothing. *)
Definition passes (m : vm M Z) (s : vmst M) : Prop :=
  exists s', m s = (Go 0, s') /\
    msize (mem s') = msize (mem s) /\ fails s' = fails s /\
    statics_wf (vars s') /\ all_i (vars s') = all_i (vars s) /\
    (stop s = None -> stop s' = None).

Definition kept (n : nat) (fl : list (string * Z)) (ns : bool) (ai : nat) (s : vmst M) : Prop :=
  frame n fl ns s /\ statics_wf (vars s) /\ all_i (vars s) = ai.

Definition clean (n : nat) (fl : list (string * Z)) (ns : bool) (ai : nat) (s : vmst M) : Prop :=
  kept n fl ns ai s /\ bit_errors s = 0.

Definition returns0 n fl ns ai (v : Z) (s : vmst M) : Prop := v = 0 /\ kept n fl ns ai s.

Lemma At_clean n fl ns ai F g v s :
  statics_wf v -> all_i v = ai -> At n fl ns F g 0 v s -> clean n fl ns ai s.
Proof. intros Hw Ha (Hf & _ & _ & He & Hv). subst. by repeat split; try apply Hf; try apply Hw. Qed.

(** a stressor without an [abort] label *)
Lemma passes_intro (m : vm M Z) s :
  (forall ns F g e, (ns = true <-> stop s = None) ->
    let n := msize (mem s) in let fl := fails s in let ai := all_i (vars s) in
    triple (fun _ => False) (fun _ _ => False) (At n fl ns F g e (vars s)) m (returns0 n fl ns ai)) ->
  passes m s.
Proof.
  intros H. specialize (H (bool_decide (stop s = None)) (fun i => load i (mem s)) (rng s)
    (bit_errors s) (bool_decide_eq_true _) s). cbv zeta in H. unfold outcome in H.
  destruct (m s) as [[v| |v| |] s'] eqn:Hm.
  2-5: exfalso; apply H, At_exists; repeat split; by intros ?%bool_decide_eq_true.
  destruct H as [-> ((Hn & Hf & Hs) & Hw & Ha)].
  { apply At_exists. repeat split. by intros ?%bool_decide_eq_true. }
  exists s'. rewrite Hm. repeat split; try done; try apply Hw.
  intros Hst. apply Hs. by apply bool_decide_eq_true_2.
Qed.

(** a stressor with an [abort] label passes if its body keeps the count at 0 *)
Lemma with_abort_passes (pf : platform M) name body s :
  statics_wf (vars s) ->
  (forall ns F g, (ns = true <-> stop s = None) ->
    let n := msize (mem s) in let fl := fails s in let ai := all_i (vars s) in
    triple (clean n fl ns ai) (returns0 n fl ns ai)
      (At n fl ns F g 0 (vars s)) body (fun _ => clean n fl ns ai)) ->
  passes (with_abort pf name body) s.
Proof.
  intros Hw H. specialize (H (bool_decide (stop s = None)) (fun i => load i (mem s)) (rng s)).
  cbv zeta in H. unfold with_abort, passes.
  set (s0 := set_bit_errors 0 (set_c (counter s) s)).
  specialize (H (bool_decide_eq_true _) s0). unfold outcome in H.
  assert (forall s', clean (msize (mem s)) (fails s) (bool_decide (stop s = None)) (all_i (vars s)) s' ->
    exists s'', (let '(_, s1) := stress_vm_check pf name s' in
       (Go (bit_errors s1), set_counter (c s1) s1)) = (Go 0, s'') /\
      msize (mem s'') = msize (mem s) /\ fails s'' = fails s /\ statics_wf (vars s'') /\
      all_i (vars s'') = all_i (vars s) /\ (stop s = None -> stop s'' = None)) as Hfin.
  { intros s' (((Hn & Hf & Hs) & Hw' & Ha) & He). unfold stress_vm_check, modify.
    rewrite He. simpl. rewrite He. eexists. split; [done|]. repeat split; try done; try apply Hw'.
    intros Hst. apply Hs. by apply bool_decide_eq_true_2. }
  assert (At (msize (mem s)) (fails s) (bool_decide (stop s = None))
            (fun i => load i (mem s)) (rng s) 0 (vars s) s0) as HAt.
  { repeat split; try done. intros Hb. by apply bool_decide_eq_true in Hb. }
  specialize (H HAt). destruct (body s0) as [[v| |v| |] s'] eqn:Hb; try done; try by apply Hfin.
  destruct H as [-> ((Hn & Hf & Hs) & Hw' & Ha)]. exists s'. repeat split; try done; try apply Hw'.
  intros Hst. apply Hs. by apply bool_decide_eq_true_2.
Qed.

End Spec.

(** ** Replaying the generator *)

(** the generator after [k] draws, and the value of the next one *)
Definition stream (d : mwc -> Z * mwc) (g : mwc) (k : nat) : mwc :=
  Nat.iter k (fun g => (d g).2) g.
Definition draw_at (d : mwc -> Z * mwc) (g : mwc) (k : nat) : Z := (d (stream d g k)).1.

Lemma stream_proper d g1 g2 k : draw_proper d -> g1 ≡ g2 -> stream d g1 k ≡ stream d g2 k.
Proof. intros Hd Hg. induction k as [|k IH]; simpl; [done|]. by apply Hd. Qed.

(** what is drawn again after the same seed is what was drawn before *)
Lemma draw_at_seed d w z g1 g2 k :
  draw_proper d -> draw_at d (mwc_seed w z g1) k = draw_at d (mwc_seed w z g2) k.
Proof. intros Hd. apply Hd, stream_proper; [done|]. apply mwc_seed_eqv. Qed.

(** one step of symbolic execution; what is left of a step is a fact about
    where [goto abort] may happen *)
Ltac vstep :=
  cbv beta;
  lazymatch goal with
  | |- triple _ _ _ (vm_reseed _ ≫= _) _ =>
      eapply triple_bind; [apply tri_reseed | intros ?; apply triple_exists; intros ?]
  | |- triple _ _ _ (draw_with _ ≫= _) _ => eapply triple_bind_eq; [apply tri_draw|]
  | |- triple _ _ _ (vm_seed _ _ ≫= _) _ => eapply triple_seq; [apply tri_seed|]
  | |- triple _ _ _ (vm_touch _ ≫= _) _ => eapply triple_seq; [apply tri_touch; exact _|]
  | |- triple _ _ _ (inject_random_bit_errors _ ≫= _) _ =>
      eapply triple_seq; [apply triple_ret; let H := fresh in intros ? H; exact H|]
  | |- triple _ _ _ (upd_vars _ ≫= _) _ => eapply triple_seq; [apply tri_upd_vars|]
  | |- triple _ _ _ (modify (set_bit_errors _) ≫= _) _ =>
      eapply triple_seq; [apply tri_set_errors|]
  | |- triple _ _ _ (add_count _ ≫= _) _ => eapply triple_seq; [apply tri_add_count|]
  | |- triple _ _ _ (bump_counter _ ≫= _) _ => eapply triple_seq; [apply tri_bump|]
  | |- triple _ _ _ (memset _ _ _ ≫= _) _ => eapply triple_seq; [apply tri_memset; lia|]
  | |- triple _ _ _ (gets bit_errors ≫= _) _ => eapply triple_bind_eq; [apply tri_gets_errors|]
  | |- triple _ _ _ (gets _ ≫= _) _ => eapply triple_bind_eq; [apply tri_gets_vars|]
  | |- triple _ _ _ (count_abort _ ≫= _) _ =>
      eapply triple_seq; [apply tri_count_abort; intros _ ?; by apply At_clean|]
  | |- triple _ _ _ (poll_abort ≫= _) _ =>
      eapply triple_seq; [apply tri_poll_abort; intros _ ?; by apply At_clean|]
  | |- triple _ _ _ (count_abort _) _ => apply tri_count_abort; intros _ ?; by apply At_clean
  | |- triple _ _ _ poll _ => apply tri_poll_weak; [done | intros ?; by apply At_clean]
  | |- triple _ _ _ poll_abort _ => apply tri_poll_abort; intros _ ?; by apply At_clean
  end.

(** the start of a stressor whose buffer is a whole number of blocks *)
Ltac vstart :=
  apply with_abort_passes; [done|]; intros ns F g Hns n fl ai;
  match goal with
  | Hsz : msize (mem ?s) = ?sz |- _ => change (msize (mem s)) with n in Hsz; subst sz
  end.

Section Sound.
Context {M : Type} `{!MemDevice M} `{!Healthy M} (pf : platform M) `{!SoundPlatform pf}.

(** the bytes of a pass that writes one value per group of eight *)
Definition spread8 (f : nat -> nat -> Z) (i : nat) : Z := f (i / 8)%nat (i mod 8)%nat.

Lemma spread8_at f k j : (j < 8)%nat -> spread8 f (8 * k + j) = f k j.
Proof.
  intros Hj. unfold spread8. f_equal.
  - symmetry. apply Nat.div_unique with j; lia.
  - symmetry. apply Nat.mod_unique with k; lia.
Qed.

Lemma spread8_in f k i : (8 * k <= i < 8 * k + 8)%nat -> spread8 f i = f k (i - 8 * k)%nat.
Proof.
  intros Hi. rewrite <- spread8_at by lia. f_equal. lia.
Qed.

(** *** passes shared by the stressors, in groups of eight bytes *)

Section Passes.
Context (n m : nat) (fl : list (string * Z)) (ns : bool) (v : statics) (max_ops : Z).
Context (Hn : n = (8 * m)%nat) (Hw : statics_wf v).
Abbreviation ai := (all_i v).
Abbreviation tri := (triple (clean n fl ns ai) (returns0 n fl ns ai)).

Lemma tri_rand_fill F g (h : nat -> Z -> Z) :
  (forall j x, fits 8 x -> fits 8 (h j x)) ->
  tri (At n fl ns F g 0 v)
    (for_list (words n) (fun ptr =>
      val ← draw_with mwc8;
      for_list unrolled (fun k => st (ptr + k) (h k val));;
      count_abort max_ops;; poll_abort))
    (fun _ => At n fl ns (spread8 (fun k j => h j (draw_at mwc8 g k))) (stream mwc8 g m) 0 v).
Proof.
  intros Hh. apply (tri_pass _ _ _ _ _ _ _ _ 8 m _ (stream mwc8 g)); [lia|done|].
  intros k G Hk HG. vstep. eapply triple_seq; [apply tri_st8; lia|]. vstep.
  eapply triple_post; [|vstep]. intros ? s'. apply At_ext. intros i Hi.
  unfold fill. case_decide; [|done]. rewrite (spread8_in _ k) by lia.
  apply u8_small, Hh, mwc8_fits.
Qed.

Lemma tri_rand_check F g (h : nat -> Z -> Z) :
  (forall k j, (k < m)%nat -> (j < 8)%nat -> F (8 * k + j)%nat = h j (draw_at mwc8 g k)) ->
  tri (At n fl ns F g 0 v)
    (for_break (words n) (fun ptr =>
      val ← draw_with mwc8;
      for_list unrolled (fun k => check_byte (ptr + k) (h k val));;
      poll))
    (fun _ => clean n fl ns ai).
Proof.
  intros HF. apply (tri_check_pass _ _ _ _ _ _ _ 8 m (stream mwc8 g)); [lia|done| |].
  { intros ? ?. by apply At_clean. }
  intros k Hk. vstep. eapply triple_seq; [apply tri_check_group; [lia|]|vstep].
  intros j Hj. by apply HF.
Qed.

Lemma tri_update_pass F g f :
  tri (At n fl ns F g 0 v)
    (for_list (words n) (fun ptr => update8 f ptr;; count_abort max_ops;; poll_abort))
    (fun _ => At n fl ns (fun i => u8 (f (F i))) g 0 v).
Proof.
  apply (tri_pass _ _ _ _ _ _ _ _ 8 m _ (fun _ => g)); [lia|done|].
  intros k G Hk HG. eapply triple_seq; [apply tri_update8; lia|]. vstep.
  eapply triple_post; [|vstep]. intros ? s'. apply At_ext. intros i Hi.
  unfold fill. case_decide; [|done]. by rewrite HG by lia.
Qed.

End Passes.

Lemma rand_set_passes sz max_ops (s : vmst M) :
  msize (mem s) = sz -> (8 | sz)%nat -> statics_wf (vars s) ->
  passes (stress_vm_rand_set pf sz max_ops) s.
Proof.
  intros Hsz [m Hm] Hw. vstart. do 4 vstep.
  eapply triple_seq; [apply (tri_rand_fill _ m) with (h := fun _ v => v); [lia|done..]|].
  do 3 vstep. apply (tri_rand_check _ m) with (h := fun _ v => v); [lia|done|].
  intros k j Hk Hj. rewrite spread8_at by done. by apply draw_at_seed, mwc8_proper.
Qed.

Lemma ROR64_u8_fits x : fits 8 (ROR64_u8 x).
Proof. apply u8_fits. Qed.

Lemma ror_passes sz max_ops (s : vmst M) :
  msize (mem s) = sz -> (8 | sz)%nat -> statics_wf (vars s) ->
  passes (stress_vm_ror pf sz max_ops) s.
Proof.
  intros Hsz [m Hm] Hw. vstart. do 4 vstep.
  eapply triple_seq; [apply (tri_rand_fill _ m) with (h := fun _ v => v); [lia|done..]|].
  vstep. eapply triple_seq; [apply (tri_update_pass _ m); [lia|done]|].
  do 3 vstep. apply (tri_rand_check _ m) with (h := fun _ v => ROR64_u8 v); [lia|done|].
  intros k j Hk Hj. cbv beta. rewrite spread8_at by done.
  rewrite u8_small by apply ROR64_u8_fits. f_equal. by apply draw_at_seed, mwc8_proper.
Qed.

(** *** flip *)

Lemma ROR8_fits x : fits 8 x -> fits 8 (ROR8 x).
Proof. intros Hx. unfold ROR8. cbv zeta. auto 10 with cword. Qed.

Lemma ror8_n_fits k x : fits 8 x -> fits 8 (ror8_n k x).
Proof. intros Hx. induction k as [|k IH]; [done|]. by apply ROR8_fits. Qed.

(** the memory after [i] of the eight passes *)
Definition flip_mask (i : nat) : Z := fold_right Z.lxor 0 ((fun j => ror8_n (S j) 0x03) <$> seq 0 i).

Lemma foldr_lxor_snoc l y : foldr Z.lxor 0 (l ++ [y]) = foldr Z.lxor 0 l .^ y.
Proof.
  induction l as [|x l IH]; cbn [foldr app]; [by rewrite Z.lxor_0_l, Z.lxor_0_r|].
  by rewrite IH, Z.lxor_assoc.
Qed.

Lemma flip_mask_S i : flip_mask (S i) = flip_mask i .^ ror8_n (S i) 0x03.
Proof. unfold flip_mask. rewrite seq_S, fmap_app. apply foldr_lxor_snoc. Qed.

(** every bit is flipped twice: the eight masks cancel out *)
Lemma flip_mask_8 : flip_mask 8 = 0.
Proof. reflexivity. Qed.

Lemma flip_mask_fits i : fits 8 (flip_mask i).
Proof.
  induction i as [|i IH]; [done|]. rewrite flip_mask_S. apply fits_lxor; [done|done|].
  by apply ror8_n_fits.
Qed.

Lemma flip_passes sz max_ops (s : vmst M) :
  msize (mem s) = sz -> (8 | sz)%nat -> statics_wf (vars s) ->
  passes (stress_vm_flip pf sz max_ops) s.
Proof.
  intros Hsz [m Hm] Hw. vstart. do 4 vstep.
  eapply triple_seq;
    [apply (tri_rand_fill _ m) with (h := ror8_n); [lia|done|apply ror8_n_fits]|].
  vstep. set (g' := mwc_seed _ _ _). set (f := spread8 _).
  assert (forall i, fits 8 (f i)) as Hf.
  { intros i. apply ror8_n_fits, mwc8_fits. }
  eapply triple_seq.
  { eapply triple_pre; [|apply (triple_for_upto _ _
      (fun i => At n fl ns (fun p => f p .^ flip_mask i) (stream mwc8 g' m) 0 (vars s)))].
    - intros s'. apply At_ext. intros i Hi. by rewrite Z.lxor_0_r.
    - intros i Hi. eapply triple_seq; [apply (tri_update_pass _ m); [lia|done]|].
      eapply triple_post; [|apply tri_touch; exact _]. intros ? s'. apply At_ext. intros p Hp.
      cbv beta. rewrite flip_mask_S, <- Z.lxor_assoc. apply u8_small.
      apply fits_lxor; [done| |by apply ror8_n_fits].
      by apply fits_lxor; [|apply Hf|apply flip_mask_fits]. }
  do 2 vstep. apply (tri_rand_check _ m) with (h := ror8_n); [lia|done|].
  intros k j Hk Hj. rewrite flip_mask_8, Z.lxor_0_r. unfold f. rewrite spread8_at by done.
  f_equal. by apply draw_at_seed, mwc8_proper.
Qed.

(** *** moving inversion *)

Lemma not64_fits x : fits 64 (not64 x).
Proof. apply u64_fits. Qed.

(** [if ( *ptr != x) bit_errors++;] where the word is [x] *)
Lemma tri_word_check {A} E R n fl ns F g v p x (k : vm M A) Q :
  (p + 8 <= n)%nat -> fits 64 x -> (forall j, (j < 8)%nat -> F (p + j)%nat = byte_of j x) ->
  triple E R (At n fl ns F g 0 v) k Q ->
  triple E R (At n fl ns F g 0 v)
    (y ← ld64 p; add_errors (b2z (negb (y =? x)));; k) Q.
Proof.
  intros Hp Hx HF Hk. eapply triple_bind_eq; [by apply tri_ld_le|].
  rewrite (combine_byte_of 8 x) by done. rewrite Z.eqb_refl.
  eapply triple_seq; [apply tri_add|]. done.
Qed.

(** the buffer whose [k]th word is [D k] *)
Definition wordwise (D : nat -> Z) : nat -> Z := spread8 (fun k j => byte_of j (D k)).

Lemma wordwise_at D k j : (j < 8)%nat -> wordwise D (8 * k + j) = byte_of j (D k).
Proof. apply spread8_at. Qed.

(** writing the word [D k] completes its bytes *)
Lemma fill_word n fl ns D k p x F g e v s :
  p = (8 * k)%nat -> x = D k ->
  At n fl ns (fill p 8 (fun i => byte_of (i - p) x) F) g e v s ->
  At n fl ns (fill p 8 (wordwise D) F) g e v s.
Proof.
  intros -> ->. apply At_ext. intros i Hi. unfold fill. case_decide; [|done].
  unfold wordwise. by rewrite (spread8_in _ k) by lia.
Qed.

Section Inversion.
Context (n m : nat) (fl : list (string * Z)) (ns : bool) (v : statics).
Context (Hn : n = (8 * m)%nat) (Hw : statics_wf v).
Abbreviation ai := (all_i v).
Abbreviation tri := (triple (clean n fl ns ai) (returns0 n fl ns ai)).
Abbreviation at_ F g := (At n fl ns F g 0 v).

(** what follows the accesses in a round of a pass *)
Context (tail : vm M unit).
Context (Htail : forall F g, tri (at_ F g) tail (fun _ => at_ F g)).

Lemma tri_word_fill F g :
  tri (at_ F g)
    (for_list (words n) (fun ptr => x ← draw_with mwc64; st64 ptr x))
    (fun _ => at_ (wordwise (draw_at mwc64 g)) (stream mwc64 g m)).
Proof.
  apply (tri_pass _ _ _ _ _ _ _ _ 8 m _ (stream mwc64 g)); [lia|done|].
  intros k G Hk HG. vstep. eapply triple_post; [|apply tri_st_le; lia].
  intros ? s. by apply (fill_word _ _ _ _ k).
Qed.

Lemma tri_word_fill_down F g :
  tri (at_ F g)
    (for_list (words_down n) (fun ptr => x ← draw_with mwc64; st64 ptr x;; tail))
    (fun _ => at_ (wordwise (fun k => draw_at mwc64 g (m - 1 - k))) (stream mwc64 g m)).
Proof.
  apply (tri_pass_down _ _ _ _ _ _ _ _ m _ (stream mwc64 g)); [done|].
  intros k G Hk HG. vstep. eapply triple_seq; [apply tri_st_le; lia|].
  eapply triple_post; [|apply Htail].
  intros ? s. apply (fill_word _ _ _ _ (m - 1 - k)%nat); [lia|].
  by replace (m - 1 - (m - 1 - k))%nat with k by lia.
Qed.

(** check the word, write its complement *)
Lemma tri_invert D g :
  (forall k, (k < m)%nat -> D k = draw_at mwc64 g k) ->
  tri (at_ (wordwise D) g)
    (for_list (words n) (fun ptr =>
      val ← draw_with mwc64;
      x ← ld64 ptr; add_errors (b2z (negb (x =? val)));; st64 ptr (not64 val);; tail))
    (fun _ => at_ (wordwise (fun k => not64 (D k))) (stream mwc64 g m)).
Proof.
  intros HD. apply (tri_pass _ _ _ _ _ _ _ _ 8 m _ (stream mwc64 g)); [lia|done|].
  intros k G Hk HG. vstep. apply tri_word_check; [lia|apply mwc64_fits| |].
  - intros j Hj. rewrite HG by lia. rewrite wordwise_at by done. by rewrite HD.
  - eapply triple_seq; [apply tri_st_le; lia|]. eapply triple_post; [|apply Htail].
    intros ? s. eapply fill_word; [done|]. by rewrite HD.
Qed.

Lemma tri_invert_down D g :
  (forall k, (k < m)%nat -> D (m - 1 - k)%nat = draw_at mwc64 g k) ->
  tri (at_ (wordwise D) g)
    (for_list (words_down n) (fun ptr =>
      val ← draw_with mwc64;
      x ← ld64 ptr; add_errors (b2z (negb (x =? val)));; st64 ptr (not64 val);; tail))
    (fun _ => at_ (wordwise (fun k => not64 (D k))) (stream mwc64 g m)).
Proof.
  intros HD. apply (tri_pass_down _ _ _ _ _ _ _ _ m _ (stream mwc64 g)); [done|].
  intros k G Hk HG. vstep. replace (n - 8 * (k + 1))%nat with (8 * (m - 1 - k))%nat by lia.
  apply tri_word_check; [lia|apply mwc64_fits| |].
  - intros j Hj. rewrite HG by lia. rewrite wordwise_at by done. by rewrite HD.
  - eapply triple_seq; [apply tri_st_le; lia|]. eapply triple_post; [|apply Htail].
    intros ? s. eapply fill_word; [done|]. by rewrite HD.
Qed.

Lemma tri_word_recheck D g (f : Z -> Z) :
  (forall k, (k < m)%nat -> D k = f (draw_at mwc64 g k)) -> (forall x, fits 64 (f x)) ->
  tri (at_ (wordwise D) g)
    (for_list (words n) (fun ptr =>
      val ← draw_with mwc64;
      x ← ld64 ptr; add_errors (b2z (negb (x =? f val)));; tail))
    (fun _ => at_ (wordwise D) (stream mwc64 g m)).
Proof.
  intros HD Hf. apply (tri_pass _ _ _ _ _ _ _ _ 8 m _ (stream mwc64 g)); [lia|done|].
  intros k G Hk HG. vstep. apply tri_word_check; [lia|apply Hf| |].
  - intros j Hj. rewrite HG by lia. rewrite wordwise_at by done. by rewrite HD.
  - eapply triple_post; [|apply Htail]. intros ? s. apply At_ext. intros i Hi.
    unfold fill. case_decide; [|done]. apply HG. lia.
Qed.

Lemma tri_word_recheck_down D g (f : Z -> Z) :
  (forall k, (k < m)%nat -> D (m - 1 - k)%nat = f (draw_at mwc64 g k)) ->
  (forall x, fits 64 (f x)) ->
  tri (at_ (wordwise D) g)
    (for_list (words_down n) (fun ptr =>
      val ← draw_with mwc64;
      x ← ld64 ptr; add_errors (b2z (negb (x =? f val)));; tail))
    (fun _ => at_ (wordwise D) (stream mwc64 g m)).
Proof.
  intros HD Hf. apply (tri_pass_down _ _ _ _ _ _ _ _ m _ (stream mwc64 g)); [done|].
  intros k G Hk HG. vstep. replace (n - 8 * (k + 1))%nat with (8 * (m - 1 - k))%nat by lia.
  apply tri_word_check; [lia|apply Hf| |].
  - intros j Hj. rewrite HG by lia. rewrite wordwise_at by done. by rewrite HD.
  - eapply triple_post; [|apply Htail]. intros ? s. apply At_ext. intros i Hi.
    unfold fill. case_decide; [|done]. apply HG. lia.
Qed.

End Inversion.

Lemma moving_inversion_passes sz max_ops (s : vmst M) :
  msize (mem s) = sz -> (8 | sz)%nat -> statics_wf (vars s) ->
  passes (stress_vm_moving_inversion pf sz max_ops) s.
Proof.
  intros Hsz [m Hm] Hw. vstart.
  assert (n = 8 * m)%nat as Hn by lia.
  set (w := vars s) in *.
  assert (forall F g, triple (clean n fl ns ai) (returns0 n fl ns ai) (At n fl ns F g 0 w)
    (count_abort max_ops;; poll_abort) (fun _ => At n fl ns F g 0 w)) as Hcp.
  { intros. vstep. vstep. }
  assert (forall (g1 g2 : mwc) a b k, draw_at mwc64 (mwc_seed a b g1) k =
    draw_at mwc64 (mwc_seed a b g2) k) as Hseed.
  { intros. apply draw_at_seed, mwc64_proper. }
  do 4 vstep. eapply triple_seq; [by apply (tri_word_fill _ m)|]. do 2 vstep.
  eapply triple_seq; [apply (tri_invert _ m) with (tail := count_abort max_ops;; poll_abort); auto|].
  do 4 vstep.
  eapply triple_seq; [apply (tri_word_recheck _ m) with
    (tail := count_abort max_ops;; poll_abort) (f := not64); auto using not64_fits|].
  { intros. f_equal. apply Hseed. }
  vstep. eapply triple_seq; [apply (tri_word_fill_down _ m) with (tail := count_abort max_ops); auto|].
  { intros. vstep. }
  do 3 vstep. eapply triple_seq;
    [apply (tri_invert_down _ m) with (tail := count_abort max_ops;; poll_abort); auto|].
  { intros k Hk. replace (m - 1 - (m - 1 - k))%nat with k by lia. apply Hseed. }
  vstep. eapply triple_post; [|apply (tri_word_recheck_down _ m) with
    (tail := poll_abort) (f := not64); auto using not64_fits].
  - intros ? s'. by apply At_clean.
  - intros. vstep.
  - intros k Hk. replace (m - 1 - (m - 1 - k))%nat with k by lia. f_equal. apply Hseed.
Qed.

End Sound.

#[export] Hint Resolve rand_set_passes ror_passes flip_passes moving_inversion_passes : vmpass.
