(* ===== verification/VmPatterns.v ===== *)
(** * The memory stressors with fixed patterns on sound memory

    Walking bits, gray code, increments, nybbles, modulo-x, the plain reads and
    writes and rowhammer. *)

From S2P Require Import Prelude Mwc VmState VmMethods VmLogic VmProofs.

Section Patterns.
Context {M : Type} `{!MemDevice M} `{!Healthy M} (pf : platform M) `{!SoundPlatform pf}.

(** ** Walking bits *)

Lemma tri_set_and_test E R n fl ns F g v p x :
  (p < n)%nat -> fits 8 x ->
  triple E R (At n fl ns F g 0 v) (SET_AND_TEST p x)
    (fun _ => At n fl ns (fill p 1 (fun _ => u8 x) F) g 0 v).
Proof.
  intros Hp Hx. eapply triple_seq; [by apply tri_st|].
  apply tri_check; [done|]. rewrite fill_in by lia. by apply u8_small.
Qed.

(** the buffer holds anything *)
Definition Any n fl ns g v (s : vmst M) : Prop := exists F, At n fl ns F g 0 v s.

Lemma walking_data_passes name vals sz max_ops (s : vmst M) :
  Forall (fits 8) vals -> msize (mem s) = sz -> statics_wf (vars s) ->
  passes (walking_data pf name vals sz max_ops) s.
Proof.
  intros Hvals Hsz Hw. vstart.
  apply triple_conseq with (P := Any n fl ns g (vars s)) (Q := fun _ => Any n fl ns g (vars s)).
  2: { intros s' Hs'. by exists F. }
  2: { intros _ s' [F' Hs']. by eapply At_clean. }
  apply triple_break_inv. intros p Hp%strided_elem; [|lia].
  eapply triple_seq with (P' := Any n fl ns g (vars s)).
  - apply triple_for_inv. intros x Hx. apply triple_exists. intros F'.
    eapply triple_post; [|apply tri_set_and_test; [lia|]]; [by eexists|].
    by eapply Forall_forall in Hvals.
  - apply triple_exists. intros F'. eapply triple_bind; [apply tri_count|].
    intros [|]; apply triple_pure; intros _.
    + apply triple_ret. by eexists.
    + eapply triple_post; [|apply tri_poll]. intros ? s' [_ ?]. by eexists.
Qed.

Lemma walking_one_data_passes sz max_ops (s : vmst M) :
  msize (mem s) = sz -> statics_wf (vars s) ->
  passes (stress_vm_walking_one_data pf sz max_ops) s.
Proof. apply walking_data_passes. repeat constructor; done. Qed.

Lemma walking_zero_data_passes sz max_ops (s : vmst M) :
  msize (mem s) = sz -> statics_wf (vars s) ->
  passes (stress_vm_walking_zero_data pf sz max_ops) s.
Proof. apply walking_data_passes. repeat constructor; done. Qed.

(** the buffer holds anything but a zero at [p] *)
Definition ZeroAt n fl ns p g v (s : vmst M) : Prop :=
  exists F, F p = 0 /\ At n fl ns F g 0 v s.

Lemma tri_walk_addr E R n fl ns g v k flip p mask :
  (p < n)%nat -> 0 <= pf_base pf ->
  triple E R (ZeroAt n fl ns p g v) (walk_addr pf k flip n p mask)
    (fun _ => ZeroAt n fl ns p g v).
Proof.
  intros Hp Hb. revert mask. induction k as [|k IH]; intros mask; cbn [walk_addr].
  - by apply triple_ret.
  - set (addr := _ .^ _). destruct (_ || _) eqn:Hor; [apply IH|].
    apply orb_false_iff in Hor as [[H1%Z.ltb_ge H2%Z.leb_gt]%orb_false_iff H3%Z.eqb_neq].
    apply triple_exists. intros F. apply triple_pure. intros HF.
    eapply triple_seq; [apply tri_st; lia|].
    assert (fill (Z.to_nat (addr - pf_base pf)) 1 (fun _ => u8 255) F p = 0) as HF'.
    { rewrite fill_out by lia. done. }
    eapply triple_seq; [apply tri_check; [done|exact HF']|].
    eapply triple_pre; [|apply IH]. intros s Hs. by eexists.
Qed.

Lemma walking_addr_passes name flip sz max_ops (s : vmst M) :
  msize (mem s) = sz -> 0 <= pf_base pf -> statics_wf (vars s) ->
  passes (walking_addr pf name flip sz max_ops) s.
Proof.
  intros Hsz Hb Hw. vstart. vstep.
  apply triple_conseq with (P := Any n fl ns g (vars s)) (Q := fun _ => Any n fl ns g (vars s)).
  2: { intros s' Hs'. by eexists. }
  2: { intros _ s' [F' Hs']. by eapply At_clean. }
  apply triple_break_inv. intros p Hp%strided_elem; [|lia].
  apply triple_exists. intros F'. eapply triple_seq; [apply tri_st; lia|].
  eapply triple_seq.
  { eapply triple_pre; [|apply tri_walk_addr; [lia|done]].
    intros s' Hs'. eexists. split; [|exact Hs']. by rewrite fill_in by lia. }
  apply triple_exists. intros G. apply triple_pure. intros HG.
  eapply triple_bind; [apply tri_count|].
  intros [|]; apply triple_pure; intros _.
  - apply triple_ret. by eexists.
  - eapply triple_post; [|apply tri_poll]. intros ? s' [_ ?]. by eexists.
Qed.

Lemma walking_one_addr_passes sz max_ops (s : vmst M) :
  msize (mem s) = sz -> 0 <= pf_base pf -> statics_wf (vars s) ->
  passes (stress_vm_walking_one_addr pf sz max_ops) s.
Proof. apply walking_addr_passes. Qed.

Lemma walking_zero_addr_passes sz max_ops (s : vmst M) :
  msize (mem s) = sz -> 0 <= pf_base pf -> statics_wf (vars s) ->
  passes (stress_vm_walking_zero_addr pf sz max_ops) s.
Proof. apply walking_addr_passes. Qed.

(** ** Gray code, increments *)

(** without a limit the loop of a [c++; if (max_ops && ...) break;] goes on *)
Lemma tri_count_go E R n fl ns F g e v (I Q : vmst M -> Prop) :
  (forall s, At n fl ns F g e v s -> I s) ->
  triple E R (At n fl ns F g e v) (b ← count 0; mret (negb b))
    (fun b s => if b : bool then I s else Q s).
Proof.
  intros HI. eapply triple_bind; [apply tri_count|]. intros b.
  apply triple_pure. intros ->; [|done]. by apply triple_ret.
Qed.

(** a loop over the bytes that rewrites each of them *)
Lemma tri_byte_pass E R n fl ns F g v f (body : nat -> vm M bool) :
  (forall k G (Q : vmst M -> Prop), (k < n)%nat -> G k = F k ->
    triple E R (At n fl ns G g 0 v) (body k)
      (fun b s => if b : bool then At n fl ns (fill k 1 f G) g 0 v s else Q s)) ->
  triple E R (At n fl ns F g 0 v) (for_break (seq 0 n) body) (fun _ => At n fl ns f g 0 v).
Proof.
  intros H. eapply triple_pre; [|apply (triple_break_upto E R
    (fun k => At n fl ns (fill 0 k f F) g 0 v))].
  - intros s. apply At_ext. intros i Hi. by rewrite fill_out by lia.
  - intros k Hk. eapply triple_post; [|apply (H k _ (At n fl ns f g 0 v)); [done|]].
    + intros [|] s; [|done]. apply At_ext. intros i Hi.
      unfold fill. repeat case_decide; auto; lia.
    + by rewrite fill_out by lia.
  - intros s. apply At_ext. intros i Hi. by rewrite fill_in by lia.
Qed.

Lemma gray8_fits x : fits 8 x -> fits 8 (gray8 x).
Proof. intros. unfold gray8. auto with cword. Qed.

Lemma gray_passes sz (s : vmst M) :
  msize (mem s) = sz -> statics_wf (vars s) ->
  passes (stress_vm_gray pf sz 0) s.
Proof.
  intros Hsz Hw. vstart. vstep.
  set (f := fun i => gray8 (u8 (gray_val (vars s) + Z.of_nat i))).
  eapply triple_seq.
  { apply (tri_byte_pass _ _ _ _ _ _ _ _ f). intros k G Q Hk HG.
    eapply triple_bind; [apply tri_poll|]. intros [|]; apply triple_pure; intros _.
    - eapply triple_seq; [by apply tri_st|]. apply tri_count_go. intros s'.
      apply At_ext. intros i Hi. unfold fill. case_decide; [|done].
      replace i with k by lia. apply u8_small, gray8_fits, u8_fits.
    - intros s' Hs'. simpl. split; [done|]. apply (At_clean _ _ _ _ _ _ _ _ Hw eq_refl) in Hs'.
      apply Hs'. }
  do 2 vstep. eapply triple_seq.
  - apply (triple_break_inv _ _ (At n fl ns f g 0 (vars s))). intros p [_ Hp]%elem_of_seq.
    eapply triple_bind; [apply tri_poll|]. intros [|]; apply triple_pure; intros _.
    + eapply triple_seq; [by apply tri_check|]. by apply triple_ret.
    + by apply triple_ret.
  - eapply triple_post; [|apply tri_upd_vars]. intros ? s'. by apply At_clean.
Qed.

Lemma u8_add_sub x y : u8 (u8 (x + y) - y) = u8 x.
Proof. unfold u8. rewrite Zminus_mod_idemp_l. f_equal. lia. Qed.

Lemma incdec_passes sz (s : vmst M) :
  msize (mem s) = sz -> statics_wf (vars s) ->
  passes (stress_vm_incdec pf sz 0) s.
Proof.
  intros Hsz Hw. vstart. do 3 vstep. set (v := Statics _ _ _ _ _ _ _).
  assert (all_i v = ai) as Ha by done. assert (statics_wf v) as Hv by done.
  eapply triple_seq.
  { apply (tri_byte_pass _ _ _ _ _ _ _ _ (fun _ => u8 (incdec_val v))). intros k G Q Hk HG.
    rewrite fill_in in HG by lia.
    eapply triple_bind_eq; [by apply tri_ld|]. eapply triple_seq; [by apply tri_st|].
    apply tri_count_go. intros s'. apply At_ext. intros i Hi. unfold fill.
    case_decide; [|done]. by rewrite HG. }
  do 2 vstep. eapply triple_seq.
  { apply (tri_byte_pass _ _ _ _ _ _ _ _ (fun _ => 0)). intros k G Q Hk HG.
    eapply triple_bind_eq; [by apply tri_ld|]. eapply triple_seq; [by apply tri_st|].
    apply tri_count_go. intros s'. apply At_ext. intros i Hi. unfold fill.
    case_decide; [|done]. rewrite HG. apply (u8_add_sub 0). }
  eapply triple_post; [|apply tri_read_loop; intros; by apply tri_check].
  intros ? s'. by apply At_clean.
Qed.

Lemma prime_offset_lt sz i : (0 < sz)%nat -> (prime_offset sz i < sz)%nat.
Proof.
  intros Hsz. unfold prime_offset.
  pose proof (Z.mod_pos_bound (u64 ((Z.of_nat i + 1) * PRIME_64)) (Z.of_nat sz)). lia.
Qed.

Lemma tri_size_guard E R n fl ns F g v :
  Z.of_nat n <= 2 ^ 63 ->
  triple E R (At n fl ns F g 0 v) (size_guard n) (fun _ => At n fl ns F g 0 v).
Proof.
  intros Hn. unfold size_guard. destruct (Z.ltb_spec (2 ^ 63) (Z.of_nat n)); [lia|].
  by apply triple_ret.
Qed.

(** the guard ends the call with 0 on a buffer of more than 2^63 bytes *)
Lemma tri_size_guard_ret n fl ns ai F g v :
  statics_wf v -> all_i v = ai ->
  triple (clean n fl ns ai) (returns0 n fl ns ai) (At n fl ns F g 0 v) (size_guard n)
    (fun _ => At n fl ns F g 0 v).
Proof.
  intros Hw Ha. unfold size_guard. destruct (2 ^ 63 <? Z.of_nat n); [|by apply triple_ret].
  intros s Hs. split; [done|]. by apply (At_clean _ _ _ _ _ _ _ _ Hw Ha) in Hs as [? _].
Qed.

Lemma prime_incdec_passes sz (s : vmst M) :
  msize (mem s) = sz -> statics_wf (vars s) ->
  passes (stress_vm_prime_incdec pf sz 0) s.
Proof.
  intros Hsz Hw. vstart. eapply triple_seq; [by apply tri_size_guard_ret|].
  do 2 vstep. pose proof Hw as (_ & _ & Hp). rewrite Hp.
  assert (forall G x, At n fl ns G g 0 (vars s) x -> (forall i, (i < n)%nat -> G i = 0) ->
    At n fl ns (fun _ => 0) g 0 (vars s) x) as Hz.
  { intros G x HG H0. by eapply At_ext. }
  eapply triple_seq.
  { apply (tri_byte_pass _ _ _ _ _ _ _ _ (fun _ => 0)). intros k G Q Hk HG.
    rewrite fill_in in HG by lia.
    eapply triple_bind_eq; [by apply tri_ld|]. eapply triple_seq; [by apply tri_st|].
    apply tri_count_go. intros s'. apply At_ext. intros i Hi. unfold fill.
    case_decide; [|done]. by rewrite HG. }
  do 2 vstep. eapply triple_seq.
  { apply (triple_break_inv _ _ (At n fl ns (fun _ => 0) g 0 (vars s))).
    intros i [_ Hi]%elem_of_seq. simpl in Hi. cbv zeta.
    assert (prime_offset n i < n)%nat by (apply prime_offset_lt; lia).
    eapply triple_bind_eq; [by apply tri_ld|]. eapply triple_seq; [by apply tri_st|].
    eapply triple_post; [|apply tri_count_go; intros s' Hs'; exact Hs'].
    intros [|] s' Hs'; [|exact Hs']. eapply Hz; [exact Hs'|]. intros j Hj.
    unfold fill. by case_decide. }
  eapply triple_post; [|apply tri_read_loop; intros; by apply tri_check].
  intros ? s'. by apply At_clean.
Qed.

(** ** Nybbles *)

Lemma INC_LO_fits x : fits 8 x -> fits 8 (INC_LO_NYBBLE x).
Proof. intros. unfold INC_LO_NYBBLE. cbv zeta. auto 10 with cword. Qed.
Lemma INC_HI_fits x : fits 8 x -> fits 8 (INC_HI_NYBBLE x).
Proof. intros. unfold INC_HI_NYBBLE. cbv zeta. auto 10 with cword. Qed.

Lemma inc_nybble_passes sz max_ops (s : vmst M) :
  msize (mem s) = sz -> (8 | sz)%nat -> statics_wf (vars s) ->
  passes (stress_vm_inc_nybble pf sz max_ops) s.
Proof.
  intros Hsz [m Hm] Hw. vstart. pose proof Hw as (H8 & H32 & H0).
  do 5 vstep. set (v := Statics _ _ _ _ _ _ _).
  assert (all_i v = ai) as Ha by done. assert (statics_wf v) as Hv.
  { split; [|done]. by apply INC_HI_fits, INC_LO_fits. }
  rewrite <- Ha.
  eapply triple_seq; [apply (tri_update_pass _ m); [lia|done]|].
  eapply triple_seq; [apply (tri_update_pass _ m); [lia|done]|].
  do 2 vstep. apply (tri_check_pass _ _ _ _ _ _ _ 8 m (fun _ => _)); [lia|lia| |].
  { intros ? ?. by apply At_clean. }
  intros k Hk. eapply triple_seq; [apply tri_check_group; [lia|]|vstep].
  intros j Hj. cbv beta. rewrite fill_in by lia.
  rewrite (u8_small (nybble_val _)) by done.
  rewrite !u8_small; [done|by apply INC_LO_fits|].
  rewrite u8_small by (by apply INC_LO_fits). by apply INC_HI_fits, INC_LO_fits.
Qed.

(** ** Plain writes and reads *)

Lemma tri_word_blocks E R n fl ns g e v k access max_ops i :
  (256 * (i + k) <= n)%nat ->
  (forall p F, (p + 8 <= n)%nat ->
    triple E R (At n fl ns F g e v) (access p) (fun _ s => exists F', At n fl ns F' g e v s)) ->
  triple E R (fun s => exists F, At n fl ns F g e v s) (word_blocks k access max_ops i)
    (fun _ s => exists F, At n fl ns F g e v s).
Proof.
  intros Hk Hacc. revert i Hk. induction k as [|k IH]; intros i Hk; cbn [word_blocks].
  - by apply triple_ret.
  - eapply triple_seq.
    { apply triple_for_inv. intros w [_ Hw]%elem_of_seq. apply triple_exists. intros F.
      apply Hacc. lia. }
    apply triple_exists. intros F. eapply triple_bind; [apply tri_poll|].
    intros b. apply triple_pure. intros _.
    destruct (_ || _); [apply triple_ret; by eexists|].
    eapply triple_pre; [|apply IH; lia]. by eexists.
Qed.

Lemma blocks_fit n : (256 * (0 + n / 256) <= n)%nat.
Proof. apply Nat.Div0.mul_div_le. Qed.

Lemma write64_passes sz max_ops (s : vmst M) :
  msize (mem s) = sz -> statics_wf (vars s) -> passes (stress_vm_write64 sz max_ops) s.
Proof.
  intros <- Hw. apply passes_intro. intros ns F g e Hns n fl ai. unfold stress_vm_write64. vstep.
  eapply triple_bind.
  { eapply triple_pre; [|apply tri_word_blocks; [apply blocks_fit|]]; [by eexists|].
    intros p G Hp. eapply triple_post; [|apply tri_st_le; lia]. by eexists. }
  intros i. apply triple_exists. intros G. do 2 vstep. apply triple_ret.
  intros s' (Hfr & _ & _ & _ & Hv). split; [done|]. split; [done|]. by rewrite Hv.
Qed.

Lemma read64_passes sz max_ops (s : vmst M) :
  msize (mem s) = sz -> statics_wf (vars s) -> passes (stress_vm_read64 sz max_ops) s.
Proof.
  intros <- Hw. apply passes_intro. intros ns F g e Hns n fl ai. unfold stress_vm_read64.
  eapply triple_bind.
  { eapply triple_pre; [|apply tri_word_blocks; [apply blocks_fit|]]; [by eexists|].
    intros p G Hp. eapply triple_bind_eq; [apply tri_ld_le; lia|].
    apply triple_ret. by eexists. }
  intros i. apply triple_exists. intros G. vstep. apply triple_ret.
  intros s' (Hfr & _ & _ & _ & Hv). split; [done|]. split; [done|]. by rewrite Hv.
Qed.

(** ** rowhammer *)

Lemma rol32_fits x : fits 32 x -> fits 32 ((x >>> 31) .| u32 (x <<< 1)).
Proof. intros. auto 10 with cword. Qed.

Lemma tri_word32_fill E R n fl ns F g v x :
  triple E R (At n fl ns F g 0 v)
    (for_list (seq 0 (n / 4)) (fun j => st_le 4 (4 * j) x))
    (fun _ => At n fl ns (fill 0 (4 * (n / 4)) (fun i => byte_of (i mod 4) x) F) g 0 v).
Proof.
  pose proof (Nat.Div0.mul_div_le n 4).
  eapply triple_pre; [|apply (triple_for_upto E R (fun k =>
    At n fl ns (fill 0 (4 * k) (fun i => byte_of (i mod 4) x) F) g 0 v))].
  - intros s. apply At_ext. intros i Hi. by rewrite fill_out by lia.
  - intros k Hk. eapply triple_post; [|apply tri_st_le; lia].
    intros ? s. apply At_ext. intros i Hi. unfold fill. repeat case_decide; try lia; try done.
    f_equal. apply Nat.mod_unique with k; lia.
Qed.

Lemma rowhammer_passes sz max_ops (s : vmst M) :
  msize (mem s) = sz -> statics_wf (vars s) -> passes (stress_vm_rowhammer pf sz max_ops) s.
Proof.
  intros <- Hw. apply passes_intro. intros ns F g e Hns n fl ai.
  unfold stress_vm_rowhammer. fold n. pose proof Hw as (H8 & H32 & H0).
  assert (forall s', At n fl ns F g e (vars s) s' -> returns0 n fl ns ai 0 s') as H00.
  { intros s' (Hfr & _ & _ & _ & Hv). split; [done|]. split; [done|]. by rewrite Hv. }
  case_decide as Hz; [by apply triple_ret|].
  pose proof (Nat.Div0.mul_div_le n 4). set (k := (n / 4)%nat) in *.
  do 3 vstep. set (x := rowhammer_val (vars s)).
  eapply triple_seq; [apply tri_word32_fill|]. fold k. do 2 vstep.
  set (G := fill _ _ _ _). set (g2 := snd _).
  eapply triple_seq.
  { apply (triple_for_inv _ _ (At n fl ns G g2 0 (vars s))). intros _ _.
    apply triple_for_inv. intros _ _.
    eapply triple_bind_eq; [apply tri_ld_le|eapply triple_bind_eq; [apply tri_ld_le|by apply triple_ret]].
    all: match goal with |- context [?a mod ?b] => pose proof (Z.mod_pos_bound a b) end; lia. }
  eapply triple_seq.
  { apply (tri_read_loop _ _ _ _ _ G g2 0 (vars s)). intros j Hj.
    eapply triple_bind_eq; [apply tri_ld_le; lia|].
    rewrite (combine_byte_of 4 x); [rewrite Z.eqb_refl; apply tri_add|done|].
    intros i Hi. unfold G. rewrite fill_in by lia. f_equal. symmetry.
    apply Nat.mod_unique with j; lia. }
  do 2 vstep. intros s' Hs'. pose proof Hs' as (Hfr & _ & _ & He & Hv).
  unfold stress_vm_check, modify, mbind, vm_bind, gets. rewrite He. simpl.
  split; [done|]. split; [done|]. rewrite Hv. split; [|done]. split; [done|].
  split; [|done]. by apply rol32_fits.
Qed.

(** ** modulo-x *)

Lemma mod_stride i k : (i < modulo_stride)%nat -> ((i + k * modulo_stride) mod modulo_stride = i)%nat.
Proof. intros. rewrite Nat.Div0.mod_add. by apply Nat.mod_small. Qed.

(** the bytes of residue [i] hold the pattern *)
Definition Keeps n fl ns i x g v (s : vmst M) : Prop :=
  exists F, (forall p, (p < n)%nat -> (p mod modulo_stride = i)%nat -> F p = x) /\
    At n fl ns F g 0 v s.

Section Modulo.
Context (n : nat) (fl : list (string * Z)) (ns : bool) (v : statics) (max_ops : Z).
Context (Hw : statics_wf v) (i : nat) (x y : Z) (g : mwc).
Context (Hi : (i < modulo_stride)%nat) (Hx : fits 8 x).
Abbreviation ai := (all_i v).
Abbreviation tri := (triple (clean n fl ns ai) (returns0 n fl ns ai)).
Abbreviation keeps := (Keeps n fl ns i x g v).

Lemma tri_modulo_set F :
  tri (At n fl ns F g 0 v) (for_list (strided i n modulo_stride) (fun p => st p x;; poll_abort))
    (fun _ => keeps).
Proof.
  unfold strided. set (m := ((n - i + modulo_stride - 1) / modulo_stride)%nat).
  eapply triple_conseq; [apply (triple_for_seq _ _ (fun k s => exists F',
    (forall p, (p < n)%nat -> (p mod modulo_stride = i)%nat -> (p < i + k * modulo_stride)%nat ->
      F' p = x) /\ At n fl ns F' g 0 v s))| |].
  - intros k Hk. apply triple_exists. intros F'. apply triple_pure. intros HF'.
    assert (i + k * modulo_stride < n)%nat as Hlt.
    { apply (strided_elem _ i n modulo_stride); [unfold modulo_stride; lia|].
      apply list_elem_of_fmap. exists k. split; [done|]. apply elem_of_seq. unfold m in Hk. lia. }
    eapply triple_seq; [by apply tri_st|]. eapply triple_post; [|vstep].
    intros ? s Hs. eexists. split; [|exact Hs]. intros p Hp Hmod Hlt'. unfold fill.
    case_decide; [by apply u8_small|]. apply HF'; try done.
    pose proof (Nat.div_mod p modulo_stride). unfold modulo_stride in *. lia.
  - intros s Hs. exists F. split; [|done]. intros p Hp Hmod Hlt.
    pose proof (Nat.Div0.mod_le p modulo_stride). lia.
  - intros _ s (F' & HF' & Hs). exists F'. split; [|done]. intros p Hp Hmod.
    apply HF'; try done. pose proof (Nat.div_mod (n - i + modulo_stride - 1) modulo_stride).
    pose proof (Nat.mod_upper_bound (n - i + modulo_stride - 1) modulo_stride).
    pose proof (Nat.Div0.mod_le p modulo_stride).
    unfold m, modulo_stride in *. lia.
Qed.

(** writing other residues keeps the pattern *)
Lemma tri_modulo_run k ptr :
  (forall q, (ptr <= q < ptr + k)%nat -> (q mod modulo_stride <> i)%nat) ->
  tri keeps (modulo_run k n max_ops y ptr)
    (fun ptr' s => ((ptr' = ptr + k \/ n <= ptr') /\ ptr <= ptr')%nat /\ keeps s).
Proof.
  revert ptr. induction k as [|k IH]; intros ptr Hq; cbn [modulo_run].
  - apply triple_ret. intros s Hs. split; [lia|done].
  - case_decide as Hlt; [|apply triple_ret; intros s Hs; split; [lia|done]].
    apply triple_exists. intros F. apply triple_pure. intros HF.
    eapply triple_seq; [by apply tri_st|]. vstep.
    eapply triple_conseq; [apply (IH (S ptr))| |].
    + intros q Hq'. apply Hq. lia.
    + intros s Hs. eexists. split; [|exact Hs]. intros p Hp Hmod. rewrite fill_out; [auto|].
      intros Hin. apply (Hq p); [lia|done].
    + intros ptr' s [H ?]. split; [lia|done].
Qed.

Lemma keeps_poll : tri keeps poll_abort (fun _ => keeps).
Proof.
  apply triple_exists. intros F. apply triple_pure. intros HF.
  eapply triple_post; [|vstep]. intros ? s Hs. by exists F.
Qed.

Lemma tri_modulo_blocks fuel ptr :
  (n - ptr < fuel)%nat -> (ptr mod modulo_stride = 0 \/ n <= ptr)%nat ->
  tri keeps (modulo_blocks fuel i n max_ops y ptr) (fun _ => keeps).
Proof.
  revert ptr. induction fuel as [|fuel IH]; intros ptr Hf Hptr; [lia|]. cbn [modulo_blocks].
  case_decide as Hlt; [|by apply triple_ret].
  destruct Hptr as [Hptr|Hptr]; [|lia].
  assert (exists k, ptr = k * modulo_stride)%nat as [k ->].
  { exists (ptr / modulo_stride)%nat. pose proof (Nat.div_mod_eq ptr modulo_stride).
    rewrite Hptr in *. lia. }
  assert (forall j, (j < modulo_stride)%nat -> ((k * modulo_stride + j) mod modulo_stride = j)%nat) as Hmod.
  { intros j Hj. rewrite Nat.add_comm. by apply mod_stride. }
  eapply triple_bind; [apply tri_modulo_run|].
  { intros q Hq. replace q with (k * modulo_stride + (q - k * modulo_stride))%nat by lia.
    rewrite Hmod by lia. lia. }
  intros p1. apply triple_pure. intros [Hp1 Hle1]. eapply triple_seq; [apply keeps_poll|].
  destruct (decide (p1 = k * modulo_stride + i)%nat) as [->|Hne].
  - eapply triple_bind; [apply tri_modulo_run|].
    { intros q Hq. replace q with (k * modulo_stride + (q - k * modulo_stride))%nat by lia.
      rewrite Hmod by lia. lia. }
    intros p2. apply triple_pure. intros [Hp2 Hle2]. eapply triple_seq; [apply keeps_poll|].
    apply IH; [unfold modulo_stride in *; lia|]. destruct Hp2 as [->|Hp2]; [left|lia].
    replace (_ + modulo_stride)%nat with (0 + (k + 2) * modulo_stride)%nat
      by (unfold modulo_stride in *; lia).
    apply mod_stride. unfold modulo_stride. lia.
  - eapply triple_bind with (Q := fun p2 s => (n <= p2)%nat /\ keeps s).
    { destruct (modulo_stride - (i + 1))%nat; cbn [modulo_run].
      - apply triple_ret. intros s Hs. split; [lia|done].
      - rewrite decide_False by lia. apply triple_ret. intros s Hs. split; [lia|done]. }
    intros p2. apply triple_pure. intros Hp2. eapply triple_seq; [apply keeps_poll|].
    apply IH; [unfold modulo_stride in *; lia|lia].
Qed.

Lemma tri_modulo_check :
  tri keeps
    (for_list (strided i n modulo_stride) (fun ptr =>
      check_byte ptr x;;
      b ← poll;
      if b : bool then mret () else e ← gets bit_errors; throw (Ret e)))
    (fun _ => keeps).
Proof.
  apply triple_exists. intros F. apply triple_pure. intros HF.
  eapply triple_post with (Q := fun _ => At n fl ns F g 0 v); [intros ? s Hs; by exists F|].
  apply triple_for_inv. intros p Hp. pose proof Hp as Hlt%strided_elem; [|unfold modulo_stride; lia].
  apply list_elem_of_fmap in Hp as (k & -> & _).
  eapply triple_seq; [apply tri_check; [lia|apply HF; [lia|by apply mod_stride]]|].
  eapply triple_bind; [apply tri_poll|]. intros [|]; apply triple_pure; intros _.
  - by apply triple_ret.
  - vstep. intros s Hs. split; [done|]. by apply (At_clean _ _ _ _ _ _ _ _ Hw eq_refl) in Hs as [? _].
Qed.

End Modulo.

Lemma modulo_x_passes sz max_ops (s : vmst M) :
  msize (mem s) = sz -> statics_wf (vars s) -> passes (stress_vm_modulo_x pf sz max_ops) s.
Proof.
  intros Hsz Hw. vstart. do 2 vstep. cbv zeta.
  set (y := (mwc8 _).1). set (g1 := (mwc8 _).2).
  apply triple_conseq with (P := Any n fl ns g1 (vars s)) (Q := fun _ => Any n fl ns g1 (vars s)).
  2: { intros s' Hs'. by eexists. }
  2: { intros _ s' [F' Hs']. by eapply At_clean. }
  apply triple_for_inv. intros i [_ Hi]%elem_of_seq. apply triple_exists. intros F'.
  eapply triple_seq; [apply tri_modulo_set; [done|done|apply mwc8_fits]|].
  eapply triple_seq; [apply tri_modulo_blocks; [done|done|lia|by left]|].
  eapply triple_seq; [apply triple_ret; intros ? H; exact H|].
  eapply triple_post; [|by apply tri_modulo_check]. intros ? s' (G & _ & Hs'). by exists G.
Qed.

End Patterns.

#[export] Hint Resolve walking_one_data_passes walking_zero_data_passes walking_one_addr_passes
  walking_zero_addr_passes gray_passes incdec_passes prime_incdec_passes inc_nybble_passes
  write64_passes read64_passes rowhammer_passes modulo_x_passes : vmpass.
