(* ===== verification/VmSwap.v ===== *)
(** * Swapped chunks and random words on sound memory *)

From S2P Require Import Prelude Mwc VmState VmMethods VmLogic VmProofs.

(** ** Swapping two chunks of a buffer *)

(** the buffer after the first [k] bytes of the chunks at [p] and [q] were
    exchanged *)
Definition swp (k p q : nat) (F : nat -> Z) (i : nat) : Z :=
  if decide (p <= i < p + k)%nat then F (q + (i - p))%nat
  else if decide (q <= i < q + k)%nat then F (p + (i - q))%nat
  else F i.

Definition aligned (p : nat) : Prop := exists k, p = (swap_chunk_sz * k)%nat.

(** two aligned chunks are the same or do not overlap *)
Lemma aligned_apart p q :
  aligned p -> aligned q -> p <> q ->
  (p + swap_chunk_sz <= q \/ q + swap_chunk_sz <= p)%nat.
Proof. intros [a ->] [b ->] H. unfold swap_chunk_sz in *. lia. Qed.

(** exchanging twice changes nothing *)
Lemma swp_involutive p q F i :
  aligned p -> aligned q -> swp swap_chunk_sz p q (swp swap_chunk_sz p q F) i = F i.
Proof.
  intros Hp Hq. destruct (decide (p = q)) as [->|Hne].
  - unfold swp. repeat case_decide; try lia; f_equal; lia.
  - pose proof (aligned_apart p q Hp Hq Hne). unfold swp, swap_chunk_sz in *.
    repeat case_decide; try lia; f_equal; lia.
Qed.

Lemma swp_ext k p q F G i :
  (forall j, (j < p + k \/ j < q + k \/ j = i)%nat -> F j = G j) -> swp k p q F i = swp k p q G i.
Proof. intros H. unfold swp. repeat case_decide; apply H; lia. Qed.

Section Swap.
Context {M : Type} `{!MemDevice M} `{!Healthy M} (pf : platform M) `{!SoundPlatform pf}.

Lemma At_fits n fl ns F g e v (s : vmst M) i :
  (i < n)%nat -> At n fl ns F g e v s -> fits 8 (F i).
Proof. intros Hi (_ & HF & _). rewrite <- HF by done. apply load_fits. Qed.

(** a triple may use that the bytes of the buffer are bytes *)
Lemma triple_fits {A} E R n fl ns F g e v (m : vm M A) Q :
  ((forall i, (i < n)%nat -> fits 8 (F i)) -> triple E R (At n fl ns F g e v) m Q) ->
  triple E R (At n fl ns F g e v) m Q.
Proof.
  intros H s Hs. apply H; [|done]. intros i Hi. by eapply At_fits.
Qed.

Lemma tri_swap_chunk E R n fl ns F g e v p q :
  aligned p -> aligned q -> (p + swap_chunk_sz <= n)%nat -> (q + swap_chunk_sz <= n)%nat ->
  triple E R (At n fl ns F g e v) (swap_chunk p q)
    (fun _ => At n fl ns (swp swap_chunk_sz p q F) g e v).
Proof.
  intros Ap Aq Hp Hq. apply triple_fits. intros HF.
  eapply triple_pre; [|apply (triple_for_upto E R (fun k => At n fl ns (swp k p q F) g e v))].
  { intros s. apply At_ext. intros i Hi. unfold swp. repeat case_decide; try done; lia. }
  intros k Hk. eapply triple_bind_eq; [apply tri_ld; lia|].
  eapply triple_bind_eq; [apply tri_ld; lia|].
  eapply triple_seq; [apply tri_st; lia|]. eapply triple_post; [|apply tri_st; lia].
  intros ? s. apply At_ext. intros i Hi.
  assert (swp k p q F (p + k)%nat = F (p + k)%nat /\ swp k p q F (q + k)%nat = F (q + k)%nat) as [-> ->].
  { destruct (decide (p = q)) as [->|Hne].
    - unfold swp. repeat case_decide; try lia; done.
    - pose proof (aligned_apart p q Ap Aq Hne). unfold swp, swap_chunk_sz in *.
      repeat case_decide; try lia; done. }
  rewrite !u8_small by (apply HF; lia).
  destruct (decide (p = q)) as [->|Hne].
  - unfold fill, swp. repeat case_decide; try lia; f_equal; lia.
  - pose proof (aligned_apart p q Ap Aq Hne). unfold fill, swp, swap_chunk_sz in *.
    repeat case_decide; try lia; try done; f_equal; lia.
Qed.

(** the table of the swap destinations *)
Lemma tri_fill_swaps E R n fl ns F g v k chunks :
  (0 < chunks)%nat ->
  triple E R (At n fl ns F g 0 v) (fill_swaps k chunks)
    (fun l s => (length l = k /\
        Forall (fun o => aligned o /\ o + swap_chunk_sz <= swap_chunk_sz * chunks)%nat l) /\
      exists g', At n fl ns F g' 0 v s).
Proof.
  intros Hc. revert g. induction k as [|k IH]; intros g; cbn [fill_swaps].
  - apply triple_ret. intros s Hs. split; [done|]. by eexists.
  - vstep. eapply triple_bind; [apply IH|]. intros l. apply triple_pure. intros [Hl Hall].
    apply triple_exists. intros g'. apply triple_ret. intros s Hs. split; [|by eexists].
    split; [by rewrite length_cons, Hl|]. constructor; [|done].
    pose proof (Z.mod_pos_bound (mwc64 g).1 (Z.of_nat chunks)).
    split; [eexists; apply Nat.mul_comm|]. unfold swap_chunk_sz in *. lia.
Qed.

Section SwapPasses.
Context (n m : nat) (fl : list (string * Z)) (ns : bool) (v : statics) (max_ops : Z).
Context (Hn : n = (swap_chunk_sz * m)%nat) (Hw : statics_wf v).
Abbreviation ai := (all_i v).
Abbreviation tri := (triple (clean n fl ns ai) (returns0 n fl ns ai)).

(** one byte value per chunk *)
Definition chunkwise (D : nat -> Z) (i : nat) : Z := D (i / swap_chunk_sz)%nat.

Lemma chunkwise_in D k i :
  (swap_chunk_sz * k <= i < swap_chunk_sz * k + swap_chunk_sz)%nat -> chunkwise D i = D k.
Proof.
  intros Hi. unfold chunkwise. f_equal. symmetry.
  apply Nat.div_unique with (i - swap_chunk_sz * k)%nat; lia.
Qed.

Lemma tri_chunk_fill F g :
  tri (At n fl ns F g 0 v)
    (for_list (strided 0 n swap_chunk_sz) (fun ptr =>
      val ← draw_with mwc8; memset ptr swap_chunk_sz val))
    (fun _ => At n fl ns (chunkwise (draw_at mwc8 g)) (stream mwc8 g m) 0 v).
Proof.
  apply (tri_pass _ _ _ _ _ _ _ _ swap_chunk_sz m _ (stream mwc8 g));
    [unfold swap_chunk_sz; lia|done|].
  intros k G Hk HG. vstep. eapply triple_post; [|apply tri_memset; unfold swap_chunk_sz in *; lia].
  intros ? s. apply At_ext. intros i Hi. unfold fill. case_decide; [|done].
  rewrite (chunkwise_in _ k) by lia. apply u8_small, mwc8_fits.
Qed.

Lemma tri_chunk_check D g :
  (forall k, (k < m)%nat -> D k = draw_at mwc8 g k) ->
  tri (At n fl ns (chunkwise D) g 0 v)
    (for_break (strided 0 n swap_chunk_sz) (fun ptr =>
      val ← draw_with mwc8;
      for_list (seq ptr swap_chunk_sz) (fun p => check_byte p val);;
      poll))
    (fun _ => clean n fl ns ai).
Proof.
  intros HD. apply (tri_check_pass _ _ _ _ _ _ _ swap_chunk_sz m (stream mwc8 g));
    [unfold swap_chunk_sz; lia|done| |].
  { intros ? ?. by apply At_clean. }
  intros k Hk. vstep. eapply triple_seq; [|vstep].
  apply triple_for_inv. intros p Hp%elem_of_seq. apply tri_check.
  - unfold swap_chunk_sz in *. lia.
  - rewrite (chunkwise_in _ k) by lia. by apply HD.
Qed.

Context (swaps : list nat) (Hlen : length swaps = m)
  (Hall : Forall (fun o => aligned o /\ o + swap_chunk_sz <= n)%nat swaps).

(** the buffer after the first [k] forward swaps *)
Fixpoint swapped (F : nat -> Z) (k : nat) : nat -> Z :=
  match k with
  | O => F
  | S k => swp swap_chunk_sz (swap_chunk_sz * k) (swaps !!! k) (swapped F k)
  end.

Lemma swaps_ok k : (k < m)%nat ->
  swaps !! k = Some (swaps !!! k) /\ aligned (swaps !!! k) /\ (swaps !!! k + swap_chunk_sz <= n)%nat.
Proof.
  intros Hk. assert (swaps !! k = Some (swaps !!! k)) as Hl
    by (apply list_lookup_lookup_total_lt; lia).
  split; [done|]. by eapply Forall_lookup_1 in Hall.
Qed.

Lemma tri_swap_step F g k p :
  (k < m)%nat -> p = (swap_chunk_sz * k)%nat ->
  tri (At n fl ns F g 0 v) (swap_step swaps max_ops k p)
    (fun _ => At n fl ns (swp swap_chunk_sz (swap_chunk_sz * k) (swaps !!! k) F) g 0 v).
Proof.
  intros Hk ->. destruct (swaps_ok k Hk) as (Hl & Ha & Hle). unfold swap_step, swaps_at. rewrite Hl.
  eapply triple_bind_eq; [by apply triple_ret; intros s Hs; split; [|exact Hs]|].
  eapply triple_seq; [apply tri_swap_chunk; [by eexists|done|unfold swap_chunk_sz in *; lia|done]|].
  vstep. vstep.
Qed.

Lemma tri_swap_forward F g :
  tri (At n fl ns F g 0 v)
    (for_list (strided 0 n swap_chunk_sz) (fun ptr =>
      swap_step swaps max_ops (ptr / swap_chunk_sz) ptr))
    (fun _ => At n fl ns (swapped F m) g 0 v).
Proof.
  rewrite Hn, strided_blocks by (unfold swap_chunk_sz; lia). rewrite <- Hn.
  apply (triple_for_seq _ _ (fun k => At n fl ns (swapped F k) g 0 v)).
  intros k Hk. replace ((swap_chunk_sz * k) / swap_chunk_sz)%nat with k.
  - by apply tri_swap_step.
  - rewrite Nat.mul_comm. symmetry. by apply Nat.div_mul.
Qed.

(** undoing the last swap *)
Lemma tri_swap_backward F g :
  tri (At n fl ns (swapped F m) g 0 v)
    (for_list (seq 0 m) (fun k =>
      swap_step swaps max_ops (m - 1 - k) (n - swap_chunk_sz * (k + 1))))
    (fun _ => At n fl ns F g 0 v).
Proof.
  eapply triple_conseq;
    [apply (triple_for_upto _ _ (fun k => At n fl ns (swapped F (m - k)) g 0 v) m)| |].
  - intros k Hk. eapply triple_post; [|apply tri_swap_step; [lia|unfold swap_chunk_sz in *; lia]].
    intros ? s. apply At_ext. intros i Hi.
    replace (m - k)%nat with (S (m - 1 - k)) by lia. cbn [swapped].
    replace (m - S k)%nat with (m - 1 - k)%nat by lia.
    apply swp_involutive; [by eexists|]. apply swaps_ok. lia.
  - intros s. by rewrite Nat.sub_0_r.
  - intros ? s. by rewrite Nat.sub_diag.
Qed.

End SwapPasses.

Lemma swap_passes sz max_ops (s : vmst M) :
  msize (mem s) = sz -> (swap_chunk_sz | sz)%nat -> statics_wf (vars s) ->
  passes (stress_vm_swap pf sz max_ops) s.
Proof.
  intros Hsz [m Hm] Hw. vstart. do 3 vstep.
  eapply triple_seq with (P' := At n fl ns F _ 0 (vars s)).
  { destruct (pf_calloc pf); [by apply triple_ret; intros s' Hs'; exact Hs'|].
    intros s' Hs'. split; [done|]. by apply (At_clean _ _ _ _ _ _ _ _ Hw eq_refl) in Hs' as [? _]. }
  assert (n = swap_chunk_sz * m)%nat as Hn by lia.
  assert (n / swap_chunk_sz = m)%nat as Hd by (rewrite Hm; by apply Nat.div_mul).
  rewrite Hd.
  eapply triple_bind with (Q := fun l s' => (length l = m /\
    Forall (fun o => aligned o /\ o + swap_chunk_sz <= n)%nat l) /\
    exists g', At n fl ns F g' 0 (vars s) s').
  { destruct m as [|m'].
    - apply triple_ret. intros s' Hs'. split; [done|]. by eexists.
    - rewrite Hn. apply tri_fill_swaps. lia. }
  intros l. apply triple_pure. intros [Hl Hall]. apply triple_exists. intros g1. vstep.
  eapply triple_seq; [by apply (tri_chunk_fill _ m)|].
  eapply triple_seq; [by apply (tri_swap_forward _ m)|].
  eapply triple_seq; [by apply (tri_swap_backward _ m)|].
  do 3 vstep. apply (tri_chunk_check _ m); [done|done|].
  intros k Hk. by apply draw_at_seed, mwc8_proper.
Qed.

(** ** rand-sum *)

(** the address of the word number [t] that rand-sum writes: eight words at the
    start of every 64 *)
Definition sum_addr (t : nat) : nat := (512 * (t / 8) + 8 * (t mod 8))%nat.

Lemma sum_addr_at k j : (j < 8)%nat -> sum_addr (8 * k + j) = (512 * k + 8 * j)%nat.
Proof.
  intros Hj. unfold sum_addr. f_equal; f_equal.
  - symmetry. apply Nat.div_unique with j; lia.
  - symmetry. apply Nat.mod_unique with k; lia.
Qed.

Lemma sum_addr_apart t t' : (t' < t)%nat -> (sum_addr t' + 8 <= sum_addr t)%nat.
Proof.
  intros H. unfold sum_addr.
  pose proof (Nat.div_mod_eq t 8). pose proof (Nat.div_mod_eq t' 8).
  pose proof (Nat.mod_upper_bound t 8). pose proof (Nat.mod_upper_bound t' 8). lia.
Qed.

Section RandSum.
Context (n : nat) (fl : list (string * Z)) (ns : bool) (v : statics) (max_ops : Z).
Context (Hn : (64 | n)%nat) (Hw : statics_wf v).
Abbreviation ai := (all_i v).
Abbreviation tri := (triple (clean n fl ns ai) (returns0 n fl ns ai)).

(** the first [t] words were written with the draws [D] *)
Definition summed (D : nat -> Z) (t : nat) (F : nat -> Z) : Prop :=
  forall t' b, (t' < t)%nat -> (b < 8)%nat -> F (sum_addr t' + b)%nat = byte_of b (D t').

Definition sum_blocks : nat := ((n - 0 + 512 - 1) / 512)%nat.

Lemma sum_block_fits k : (k < sum_blocks)%nat -> (512 * k + 64 <= n)%nat.
Proof.
  intros Hk. destruct Hn as [q Hq]. unfold sum_blocks in Hk.
  pose proof (Nat.Div0.mul_div_le (n - 0 + 512 - 1) 512). lia.
Qed.

Lemma tri_sum_fill F g :
  tri (At n fl ns F g 0 v)
    (for_list (strided 0 n 512) (fun ptr =>
      for_list unrolled (fun k => x ← draw_with mwc64; st64 (ptr + 8 * k) x);;
      count_abort max_ops;; poll_abort))
    (fun _ s => exists G, summed (draw_at mwc64 g) (8 * sum_blocks) G /\
       At n fl ns G (stream mwc64 g (8 * sum_blocks)) 0 v s).
Proof.
  eapply triple_pre; [|apply (triple_for_seq _ _ (fun k s => exists G,
    summed (draw_at mwc64 g) (8 * k) G /\ At n fl ns G (stream mwc64 g (8 * k)) 0 v s))].
  { intros s Hs. exists F. split; [|done]. intros t' b Ht. lia. }
  intros k Hk. apply sum_block_fits in Hk. eapply triple_seq.
  - eapply triple_pre; [|apply (triple_for_upto _ _ (fun j s => exists G,
      summed (draw_at mwc64 g) (8 * k + j) G /\
      At n fl ns G (stream mwc64 g (8 * k + j)) 0 v s) 8)].
    { intros s. by rewrite Nat.add_0_r. }
    intros j Hj. apply triple_exists. intros G. apply triple_pure. intros HG. vstep.
    eapply triple_post; [|apply tri_st_le; lia]. intros ? s Hs. eexists. split.
    2: { rewrite <- plus_n_Sm. exact Hs. }
    intros t' b Ht' Hb. destruct (decide (t' = 8 * k + j)%nat) as [->|Hne].
    + rewrite sum_addr_at by done. rewrite fill_in by lia.
      f_equal. lia.
    + pose proof (sum_addr_apart (8 * k + j) t'). rewrite sum_addr_at in * by done.
      rewrite fill_out by lia. apply HG; lia.
  - apply triple_exists. intros G. apply triple_pure. intros HG. vstep.
    eapply triple_post; [|vstep]. intros ? s Hs. exists G.
    by replace (8 * S k)%nat with (8 * k + 8)%nat by lia.
Qed.

Lemma tri_sum_check D g G :
  summed D (8 * sum_blocks) G -> (forall t, D t = draw_at mwc64 g t) ->
  tri (At n fl ns G g 0 v)
    (for_break (strided 0 n 512) (fun ptr =>
      for_list unrolled (fun k =>
        x ← ld64 (ptr + 8 * k);
        y ← draw_with mwc64;
        add_errors (stress_vm_count_bits (x .^ y)));;
      poll))
    (fun _ => clean n fl ns ai).
Proof.
  intros HG HD. apply (triple_for_break _ _ (fun k => At n fl ns G (stream mwc64 g (8 * k)) 0 v)).
  2: { intros s. by apply At_clean. }
  intros k Hk. pose proof (sum_block_fits k Hk). eapply triple_seq.
  - eapply triple_pre; [|apply (triple_for_upto _ _ (fun j =>
      At n fl ns G (stream mwc64 g (8 * k + j)) 0 v) 8)].
    { intros s. by rewrite Nat.add_0_r. }
    intros j Hj. eapply triple_bind_eq; [apply tri_ld_le; lia|]. vstep.
    change (mwc64 (stream mwc64 g (8 * k + j))).1 with (draw_at mwc64 g (8 * k + j)).
    rewrite (combine_byte_of 8 (draw_at mwc64 g (8 * k + j))).
    + rewrite Z.lxor_nilpotent, <- plus_n_Sm. apply tri_add.
    + apply mwc64_fits.
    + intros b Hb. rewrite <- HD, <- HG by (unfold sum_blocks in *; lia).
      rewrite sum_addr_at by done. f_equal. lia.
  - replace (8 * S k)%nat with (8 * k + 8)%nat by lia. vstep.
Qed.

End RandSum.

Lemma rand_sum_passes sz max_ops (s : vmst M) :
  msize (mem s) = sz -> (64 | sz)%nat -> statics_wf (vars s) ->
  passes (stress_vm_rand_sum pf sz max_ops) s.
Proof.
  intros Hsz Hm Hw. vstart. do 4 vstep.
  eapply triple_seq; [by apply tri_sum_fill|].
  apply triple_exists. intros G. apply triple_pure. intros HG.
  do 3 vstep. eapply tri_sum_check; [done|done|exact HG|].
  intros t. by apply draw_at_seed, mwc64_proper.
Qed.

End Swap.

#[export] Hint Resolve swap_passes rand_sum_passes : vmpass.
