(* ===== verification/VmBits.v ===== *)
(** * Counting bits, and the stressors that count them

    [stress_vm_count_bits()] is the population count; the bits of a buffer are
    the sum over its bytes.  zero-one, the galloping patterns and the walks in
    prime sized steps on sound memory. *)

From S2P Require Import Prelude Mwc VmState VmMethods VmLogic VmProofs VmPatterns.

(** ** Population count *)

(** the number of set bits among the lowest [k] *)
Fixpoint popcount (k : nat) (v : Z) : Z :=
  match k with O => 0 | S k => v mod 2 + popcount k (v / 2) end.

Lemma popcount_bounds k v : 0 <= popcount k v <= Z.of_nat k.
Proof.
  revert v. induction k as [|k IH]; intros v; cbn [popcount]; [lia|].
  pose proof (Z.mod_pos_bound v 2). specialize (IH (v / 2)). lia.
Qed.

Lemma popcount_0 k : popcount k 0 = 0.
Proof. induction k as [|k IH]; [done|]. cbn [popcount]. by rewrite Z.div_0_l, IH. Qed.

Lemma land_2_2 a b : (2 * a) .& (2 * b + 1) = 2 * (a .& b).
Proof.
  apply Z.bits_inj'. intros i Hi. rewrite Z.land_spec.
  destruct (Z.eq_dec i 0) as [->|Hne].
  - by rewrite Z.testbit_even_0, (Z.testbit_even_0 (a .& b)).
  - replace i with (Z.succ (i - 1)) by lia.
    rewrite Z.testbit_even_succ, Z.testbit_odd_succ, Z.testbit_even_succ by lia.
    by rewrite Z.land_spec.
Qed.

(** [v & (v - 1)] clears the lowest set bit *)
Lemma popcount_clear k v :
  0 < v < 2 ^ Z.of_nat k -> popcount k (v .& (v - 1)) = popcount k v - 1.
Proof.
  revert v. induction k as [|k IH]; intros v Hv; [simpl in Hv; lia|]. cbn [popcount].
  rewrite Nat2Z.inj_succ, Z.pow_succ_r in Hv by lia.
  pose proof (Z.div_mod v 2) as Hd. pose proof (Z.mod_pos_bound v 2) as Hm.
  set (a := v / 2) in *. destruct (Z.eq_dec (v mod 2) 0) as [H0|H1].
  - replace v with (2 * a) at 1 3 by lia. replace (v - 1) with (2 * (a - 1) + 1) by lia.
    rewrite land_2_2.
    replace (2 * (a .& (a - 1))) with ((a .& (a - 1)) * 2) by lia.
    rewrite Z.mod_mul, Z.div_mul by lia. rewrite IH by lia. lia.
  - replace (v .& (v - 1)) with (a * 2).
    + rewrite Z.mod_mul, Z.div_mul by lia. lia.
    + replace (v - 1) with (2 * a) by lia. replace v with (2 * a + 1) at 1 by lia.
      rewrite Z.land_comm, land_2_2, Z.land_diag. lia.
Qed.

Lemma clear_fits n v : 0 <= n -> 0 < v -> fits n v -> fits n (v .& (v - 1)).
Proof. intros Hn Hv Hf. apply fits_land; [done|done|lia]. Qed.

Lemma count_bits_loop_popcount fuel v n :
  fits 64 v -> popcount 64 v <= Z.of_nat fuel ->
  count_bits_loop fuel v n = n + popcount 64 v.
Proof.
  revert v n. induction fuel as [|fuel IH]; intros v n Hv Hf; cbn [count_bits_loop].
  - pose proof (popcount_bounds 64 v). lia.
  - destruct (Z.eqb_spec v 0) as [->|Hne].
    + rewrite popcount_0. lia.
    + assert (0 < v) by (unfold fits in Hv; lia).
      assert (popcount 64 (v .& (v - 1)) = popcount 64 v - 1) as Hc.
      { apply popcount_clear. unfold fits in Hv. change (Z.of_nat 64) with 64. lia. }
      rewrite IH; [lia|by apply clear_fits|lia].
Qed.

Lemma count_bits_popcount v : fits 64 v -> stress_vm_count_bits v = popcount 64 v.
Proof.
  intros Hv. unfold stress_vm_count_bits. rewrite count_bits_loop_popcount; [lia|done|].
  pose proof (popcount_bounds 64 v). lia.
Qed.

Lemma popcount_split a k b r :
  fits (Z.of_nat a) b ->
  popcount (a + k) (b + 2 ^ Z.of_nat a * r) = popcount a b + popcount k r.
Proof.
  revert b. induction a as [|a IH]; intros b Hb; cbn [Nat.add popcount].
  - unfold fits in Hb. change (2 ^ Z.of_nat 0) with 1 in *. rewrite Z.add_0_l. f_equal. lia.
  - unfold fits in *. rewrite Nat2Z.inj_succ, Z.pow_succ_r in * by lia.
    assert (b + 2 * 2 ^ Z.of_nat a * r = b + (2 ^ Z.of_nat a * r) * 2) as -> by lia.
    assert (0 <= b / 2 < 2 ^ Z.of_nat a)
      by (split; [apply Z.div_pos; lia|apply Z.div_lt_upper_bound; lia]).
    rewrite Z.mod_add, Z.div_add by lia. rewrite IH by done. lia.
Qed.

Lemma popcount_byte k b r :
  fits 8 b -> popcount (8 + k) (b + 256 * r) = popcount 8 b + popcount k r.
Proof. apply (popcount_split 8). Qed.

(** ** The bits of a buffer *)

(** set bits of the bytes [p .. p + k - 1] *)
Fixpoint bits (F : nat -> Z) (p k : nat) : Z :=
  match k with O => 0 | S k => popcount 8 (F p) + bits F (S p) k end.

Lemma bits_bounds F p k : 0 <= bits F p k <= 8 * Z.of_nat k.
Proof.
  revert p. induction k as [|k IH]; intros p; cbn [bits]; [lia|].
  pose proof (popcount_bounds 8 (F p)). specialize (IH (S p)). lia.
Qed.

Lemma bits_app F p k l : bits F p (k + l) = bits F p k + bits F (p + k) l.
Proof.
  revert p. induction k as [|k IH]; intros p; cbn [bits Nat.add].
  - by rewrite Nat.add_0_r.
  - rewrite IH. replace (S p + k)%nat with (p + S k)%nat by lia. lia.
Qed.

Lemma bits_ext F G p k :
  (forall i, (p <= i < p + k)%nat -> F i = G i) -> bits F p k = bits G p k.
Proof.
  revert p. induction k as [|k IH]; intros p H; cbn [bits]; [done|].
  rewrite (H p), (IH (S p)); [done| |lia]. intros i Hi. apply H. lia.
Qed.

Lemma bits_const c p k : bits (fun _ => c) p k = popcount 8 c * Z.of_nat k.
Proof. revert p. induction k as [|k IH]; intros p; cbn [bits]; [lia|]. rewrite IH. lia. Qed.

Lemma bits_fill F p c n :
  (p < n)%nat ->
  bits (fill p 1 (fun _ => c) F) 0 n = bits F 0 n - popcount 8 (F p) + popcount 8 c.
Proof.
  intros Hp. replace n with (p + (1 + (n - p - 1)))%nat by lia. rewrite !bits_app.
  rewrite (bits_ext _ F 0 p), (bits_ext _ F (0 + p + 1)).
  - cbn [bits]. rewrite fill_in by lia. change (0 + p)%nat with p. lia.
  - intros i Hi. by rewrite fill_out by lia.
  - intros i Hi. by rewrite fill_out by lia.
Qed.

Lemma popcount_combine F k p :
  (forall i, fits 8 (F i)) -> popcount (8 * k) (combine F k p) = bits F p k.
Proof.
  intros HF. revert p. induction k as [|k IH]; intros p; cbn [combine bits]; [done|].
  replace (8 * S k)%nat with (8 + 8 * k)%nat by lia. by rewrite popcount_byte, IH.
Qed.

Lemma not8_fits x : fits 8 (not8 x).
Proof. apply u8_fits. Qed.

Lemma not8_sub x : fits 8 x -> not8 x = 255 - x.
Proof.
  unfold fits, not8, u8, Z.lnot. intros Hx. change (2 ^ 8) with 256 in *.
  symmetry. apply Z.mod_unique with (-1); lia.
Qed.

Lemma not64_sub x : fits 64 x -> not64 x = 2 ^ 64 - 1 - x.
Proof.
  unfold fits, not64, u64, Z.lnot. intros Hx. symmetry. apply Z.mod_unique with (-1); lia.
Qed.

Lemma combine_not F k p :
  (forall i, fits 8 (F i)) ->
  combine (fun i => not8 (F i)) k p = 2 ^ (8 * Z.of_nat k) - 1 - combine F k p.
Proof.
  intros HF. revert p. induction k as [|k IH]; intros p; cbn [combine]; [done|].
  rewrite IH, not8_sub by done. replace (8 * Z.of_nat (S k)) with (8 + 8 * Z.of_nat k) by lia.
  rewrite Z.pow_add_r by lia. change (2 ^ 8) with 256. lia.
Qed.

(** how a word is looked at before its bits are counted, and what this means
    for its bytes *)
Definition views (f h : Z -> Z) : Prop :=
  (forall x, fits 8 (h x)) /\
  forall F p, (forall i, fits 8 (F i)) ->
    fits 64 (f (combine F 8 p)) /\ f (combine F 8 p) = combine (fun i => h (F i)) 8 p.

Lemma views_id : views (fun x => x) u8.
Proof.
  split; [apply u8_fits|]. intros F p HF. split; [by apply (combine_fits F 8)|].
  apply combine_ext. intros. symmetry. by apply u8_small.
Qed.

Lemma views_not : views not64 not8.
Proof.
  split; [apply not8_fits|]. intros F p HF. split; [apply u64_fits|].
  rewrite combine_not by done. apply not64_sub. by apply (combine_fits F 8).
Qed.

Lemma views_count f h F p :
  views f h -> (forall i, fits 8 (F i)) ->
  stress_vm_count_bits (f (combine F 8 p)) = bits (fun i => h (F i)) p 8.
Proof.
  intros [Hh Hv] HF. destruct (Hv F p HF) as [Hfit Heq].
  rewrite count_bits_popcount by done. rewrite Heq. by apply (popcount_combine _ 8).
Qed.

(** ** Counting loops *)

Section Counting.
Context {M : Type} `{!MemDevice M}.
Context (E : vmst M -> Prop) (R : Z -> vmst M -> Prop).
Context (n : nat) (fl : list (string * Z)) (ns : bool) (v : statics) (g : mwc).
Context (f h : Z -> Z) (Hv : views f h).
Context (F : nat -> Z) (HF : forall i, fits 8 (F i)).
Abbreviation tri := (triple E R).
Abbreviation seen := (fun i => h (F i)).

Lemma tri_count_words e k a p acc :
  (p + 8 * (a + k) <= n)%nat -> 0 <= acc -> acc + bits seen (p + 8 * a) (8 * k) < 2 ^ 64 ->
  tri (At n fl ns F g e v) (count_words (seq a k) f p acc)
    (fun x s => x = acc + bits seen (p + 8 * a) (8 * k) /\ At n fl ns F g e v s).
Proof.
  revert a acc. induction k as [|k IH]; intros a acc Hp Hacc Hlt; cbn [seq count_words].
  - apply triple_ret. intros s Hs. split; [simpl; lia|done].
  - eapply triple_bind_eq; [apply tri_ld_le; lia|].
    rewrite (views_count f h) by done.
    replace (8 * S k)%nat with (8 + 8 * k)%nat in * by lia. rewrite bits_app in *.
    replace (p + 8 * a + 8)%nat with (p + 8 * S a)%nat in * by lia.
    pose proof (bits_bounds seen (p + 8 * a) 8).
    pose proof (bits_bounds seen (p + 8 * S a) (8 * k)).
    rewrite u64_small by (unfold fits; lia).
    eapply triple_post; [|apply IH; lia]. intros x s [-> Hs]. split; [lia|done].
Qed.

Lemma tri_zero_one_line e p :
  (p + 64 <= n)%nat -> 0 <= e -> e + bits seen p 64 < 2 ^ 64 ->
  tri (At n fl ns F g e v) (zero_one_line f p)
    (fun _ => At n fl ns F g (e + bits seen p 64) v).
Proof.
  intros Hp He Hlt. unfold zero_one_line.
  eapply triple_bind_eq; [apply tri_gets_errors|].
  eapply triple_bind_eq.
  - apply (tri_count_words e 8 0 p e); [lia|done|]. by rewrite Nat.add_0_r.
  - rewrite Nat.add_0_r. apply tri_set_errors.
Qed.

(** an uninterrupted count of the whole buffer *)
Lemma tri_count_lines e m k acc :
  ns = true -> (64 * (m + k) <= n)%nat -> 0 <= acc ->
  acc + bits seen (64 * m) (64 * k) < 2 ^ 64 ->
  tri (At n fl ns F g e v) (count_lines ((fun j => 64 * j)%nat <$> seq m k) f acc)
    (fun x s => x = acc + bits seen (64 * m) (64 * k) /\ At n fl ns F g e v s).
Proof.
  intros Hns. revert m acc. induction k as [|k IH]; intros m acc Hp Hacc Hlt.
  - apply triple_ret. intros s Hs. split; [simpl; lia|done].
  - replace (64 * S k)%nat with (64 + 64 * k)%nat in * by lia. rewrite bits_app in *.
    replace (64 * m + 64)%nat with (64 * S m)%nat in * by lia.
    pose proof (bits_bounds seen (64 * m) 64).
    pose proof (bits_bounds seen (64 * S m) (64 * k)).
    cbn [seq fmap list_fmap count_lines]. eapply triple_bind_eq.
    { apply (tri_count_words e 8 0 (64 * m) acc); [lia|done|].
      rewrite Nat.add_0_r. change (8 * 8)%nat with 64%nat. lia. }
    rewrite Nat.add_0_r. eapply triple_bind; [apply tri_poll|].
    intros b. apply triple_pure. intros Hb. rewrite Hb by done.
    eapply triple_post; [|apply IH; change (8 * 8)%nat with 64%nat; lia].
    intros x s [-> Hs]. split; [change (8 * 8)%nat with 64%nat; lia|done].
Qed.

End Counting.

Section Bits.
Context {M : Type} `{!MemDevice M} `{!Healthy M} (pf : platform M) `{!SoundPlatform pf}.

(** ** zero-one *)

(** a line of a buffer in which no bit is seen *)
Lemma tri_clear_line E R n m fl ns g v f h x p :
  n = (64 * m)%nat -> views f h -> fits 8 x -> h x = 0 -> p ∈ lines n ->
  triple E R (At n fl ns (fun _ => x) g 0 v) (zero_one_line f p)
    (fun _ => At n fl ns (fun _ => x) g 0 v).
Proof.
  intros Hm Hv Hx H0 Hp. unfold lines in Hp. rewrite Hm, strided_blocks in Hp by lia.
  apply list_elem_of_fmap in Hp as (k & -> & [_ Hk]%elem_of_seq).
  assert (bits (fun _ => h x) (64 * k) 64 = 0) as Hb.
  { rewrite H0, bits_const, popcount_0. lia. }
  eapply triple_post; [|apply (tri_zero_one_line _ _ _ _ _ _ _ f h Hv (fun _ => x)); [done|lia|lia|]].
  - intros ? s'. by rewrite Hb.
  - rewrite Hb. lia.
Qed.

Lemma zero_one_passes sz max_ops (s : vmst M) :
  msize (mem s) = sz -> (64 | sz)%nat -> statics_wf (vars s) ->
  passes (stress_vm_zero_one pf sz max_ops) s.
Proof.
  intros Hsz [m Hm] Hw. vstart. assert (n = 64 * m)%nat as Hn by lia.
  do 4 vstep. eapply triple_seq.
  { eapply triple_pre with (P := At n fl ns (fun _ => 0) g 0 (vars s)).
    - intros s'. apply At_ext. intros i Hi. by rewrite fill_in by lia.
    - apply triple_for_inv. intros p Hp.
      eapply triple_seq; [by apply (tri_clear_line _ _ _ m _ _ _ _ _ u8 0 _ Hn views_id)|vstep]. }
  do 4 vstep. eapply triple_conseq with (P := At n fl ns (fun _ => 255) g 0 (vars s))
    (Q := fun _ => At n fl ns (fun _ => 255) g 0 (vars s)).
  - apply triple_break_inv. intros p Hp.
    eapply triple_seq; [by apply (tri_clear_line _ _ _ m _ _ _ _ _ not8 255 _ Hn views_not)|].
    eapply triple_post; [|apply tri_poll]. by intros ? s' [_ ?].
  - intros s'. apply At_ext. intros i Hi. by rewrite fill_in by lia.
  - intros ? s'. by apply At_clean.
Qed.

(** ** Galloping patterns *)

(** the generator after a round of the placing loop, and the offset the round
    number [t] draws *)
Definition place_next (g : mwc) : mwc := (mwc32 (mwc64 g).2).2.
Definition offset_at (sz : nat) (g : mwc) (t : nat) : nat :=
  Z.to_nat ((mwc64 (Nat.iter t place_next g)).1 mod Z.of_nat sz).

(** Every window of [fuel] rounds draws at least [k] different offsets: what the
    [for (;;)] of the galloping patterns needs to end.  The windows that matter
    start in the first [k * fuel] rounds. *)
Definition spread_over (sz fuel k : nat) (g : mwc) : Prop :=
  forall t, (t <= k * fuel)%nat -> (k <= length (remove_dups (offset_at sz g <$> seq t fuel)))%nat.

(** distinct bytes with a set bit *)
Lemma bits_ge_length G n l :
  NoDup l -> (forall i, i ∈ l -> (i < n)%nat /\ 1 <= popcount 8 (G i)) ->
  Z.of_nat (length l) <= bits G 0 n.
Proof.
  revert G. induction l as [|p l IH]; intros G Hnd H; [pose proof (bits_bounds G 0 n); simpl; lia|].
  apply NoDup_cons in Hnd as [Hp Hnd].
  destruct (H p) as [Hlt Hpop]; [by left|].
  assert (Z.of_nat (length l) <= bits (fill p 1 (fun _ => 0) G) 0 n) as Hl.
  { apply IH; [done|]. intros i Hi. destruct (H i) as [? ?]; [by right|].
    split; [done|]. rewrite fill_out; [done|]. intros ?. apply Hp.
    by replace p with i by lia. }
  rewrite bits_fill, popcount_0 in Hl by done. rewrite length_cons. lia.
Qed.

(** a window with [k] different offsets leaves the [< k] bytes already changed *)
Lemma window_hits G n l k :
  (forall i, i ∈ l -> (i < n)%nat) ->
  bits G 0 n < Z.of_nat k -> (k <= length (remove_dups l))%nat ->
  exists i, i ∈ l /\ ~ 1 <= popcount 8 (G i).
Proof.
  intros Hl Hlt Hk.
  destruct (decide (Forall (fun i => 1 <= popcount 8 (G i)) l)) as [He|He].
  - exfalso. assert (Z.of_nat (length (remove_dups l)) <= bits G 0 n); [|lia].
    apply bits_ge_length; [apply NoDup_remove_dups|]. intros i Hi.
    rewrite elem_of_remove_dups in Hi. split; [by apply Hl|]. by eapply Forall_forall in He.
  - apply not_Forall_Exists in He; [|apply _]. apply Exists_exists in He as (i & ? & ?). eauto.
Qed.

Section Galpat.
Context (fuel n m : nat) (fl : list (string * Z)) (v : statics) (g0 : mwc).
Context (E : vmst M -> Prop) (R : Z -> vmst M -> Prop).
Context (x0 : Z) (free : Z -> bool) (upd : Z -> Z -> Z) (h : Z -> Z).
Context (Hx0 : fits 8 x0) (Hh0 : h x0 = 0).
Context (Hfree : forall x, free x = true <-> x = x0).
Context (Hupd : forall b, 0 <= b < 4 ->
  fits 8 (upd x0 b) /\ popcount 8 (h (upd x0 b)) = 1).
Abbreviation tri := (triple E R).
Abbreviation gen t := (Nat.iter t place_next g0).

(** the buffer [F] has [k] changed bytes, each with one bit seen *)
Definition placed (k : nat) (F : nat -> Z) : Prop :=
  (forall i, fits 8 (F i)) /\
  (forall i, F i = x0 \/ 1 <= popcount 8 (h (F i))) /\
  bits (fun i => h (F i)) 0 n = Z.of_nat k.

Lemma placed_upd k F p b :
  (p < n)%nat -> 0 <= b < 4 -> F p = x0 -> placed k F ->
  placed (S k) (fill p 1 (fun _ => u8 (upd x0 b)) F).
Proof.
  intros Hp Hb HF (Hfit & Hch & Hbits). destruct (Hupd b Hb) as (Hu & Hpop).
  rewrite u8_small by done. repeat split.
  - unfold fill. case_decide; [apply Hu|apply Hfit].
  - unfold fill. case_decide; [apply Hu|apply Hfit].
  - intros i. unfold fill. case_decide; [right; lia|apply Hch].
  - rewrite (bits_ext _ (fill p 1 (fun _ => h (upd x0 b)) (fun i => h (F i)))).
    + rewrite bits_fill by done. rewrite HF, Hh0, popcount_0, Hbits, Hpop. lia.
    + intros i _. unfold fill. by case_decide.
Qed.

(** a placing loop that meets a free offset in its next [a] rounds *)
Lemma tri_place k F a t :
  (0 < n)%nat -> placed k F -> (a <= fuel)%nat ->
  (exists j, (j < a)%nat /\ F (offset_at n g0 (t + j)) = x0) ->
  tri (At n fl true F (gen t) 0 v) (galpat_place a n free upd)
    (fun _ s => exists F' t', placed (S k) F' /\ (t' <= t + a)%nat /\
       At n fl true F' (gen t') 0 v s).
Proof.
  intros Hn0 HF. revert t. induction a as [|a IH]; intros t Ha (j & Hj & Hjf); [lia|].
  cbn [galpat_place]. vstep. cbv zeta. vstep.
  change (Z.to_nat ((mwc64 (gen t)).1 mod Z.of_nat n)) with (offset_at n g0 t).
  change (mwc32 (mwc64 (gen t)).2).2 with (gen (S t)).
  assert (offset_at n g0 t < n)%nat as Hlt.
  { unfold offset_at. match goal with |- context [?a mod ?b] => pose proof (Z.mod_pos_bound a b) end. lia. }
  eapply triple_bind_eq; [by apply tri_ld|]. destruct (free _) eqn:Hfr.
  - apply Hfree in Hfr. eapply triple_bind_eq; [by apply tri_ld|].
    eapply triple_post; [|by apply tri_st]. intros ? s Hs. rewrite Hfr in Hs.
    eexists _, (S t). split; [|split; [|exact Hs]]; [|lia].
    apply placed_upd; [done| |done|done]. rewrite (Z.land_ones _ 2) by done.
    apply Z.mod_pos_bound. lia.
  - eapply triple_post; [|apply (IH (S t)); [lia|]].
    + intros ? s (F' & t' & ? & ? & ?). exists F', t'. split; [done|]. split; [lia|done].
    + destruct j as [|j]; [rewrite Nat.add_0_r in Hjf|].
      * apply Hfree in Hjf. congruence.
      * exists j. split; [lia|]. by replace (S t + j)%nat with (t + S j)%nat by lia.
Qed.

Lemma tri_place_all k max_ops :
  max_ops = 0 -> spread_over n fuel k g0 -> (0 < n)%nat ->
  tri (fun s => exists F, placed 0 F /\ At n fl true F g0 0 v s)
    (for_break (seq 0 k) (fun _ =>
      galpat_place fuel n free upd;;
      b ← count max_ops; mret (negb b)))
    (fun _ s => exists F t, placed k F /\ At n fl true F (gen t) 0 v s).
Proof.
  intros -> Hsp Hn0. eapply triple_pre; [|apply (triple_break_upto _ _ (fun j s =>
    exists F t, placed j F /\ (t <= j * fuel)%nat /\ At n fl true F (gen t) 0 v s))].
  - intros s (F & HF & Hs). exists F, 0%nat. split; [done|]. split; [lia|done].
  - intros j Hj. apply triple_exists. intros F. apply triple_exists. intros t.
    apply triple_pure. intros HF. apply triple_pure. intros Ht.
    eapply triple_seq.
    { apply (tri_place j F fuel t); [done|done|done|].
      destruct (window_hits (fun i => h (F i)) n (offset_at n g0 <$> seq t fuel) k) as (i & Hi & Hne).
      - intros i (q & -> & _)%list_elem_of_fmap. unfold offset_at.
        match goal with |- context [?a mod ?b] => pose proof (Z.mod_pos_bound a b) end. lia.
      - destruct HF as (_ & _ & ->). lia.
      - apply Hsp. nia.
      - apply list_elem_of_fmap in Hi as (q & -> & Hq%elem_of_seq).
        exists (q - t)%nat. split; [lia|]. replace (t + (q - t))%nat with q by lia.
        by destruct (proj1 (proj2 HF) (offset_at n g0 q)). }
    apply triple_exists. intros F'. apply triple_exists. intros t'.
    apply triple_pure. intros HF'. apply triple_pure. intros Ht'.
    apply tri_count_go. intros s Hs. exists F', t'. split; [done|]. split; [lia|done].
  - intros s (F & t & HF & _ & Hs). by exists F, t.
Qed.

End Galpat.

Lemma galpat_passes fuel name x0 free upd f h sz (s : vmst M) :
  views f h -> fits 8 x0 -> h x0 = 0 -> (forall x, free x = true <-> x = x0) ->
  (forall b, 0 <= b < 4 -> fits 8 (upd x0 b) /\ popcount 8 (h (upd x0 b)) = 1) ->
  msize (mem s) = sz -> (64 | sz)%nat -> (0 < sz)%nat -> Z.of_nat sz < 2 ^ 60 ->
  (forall k g, spread_over sz fuel (sz / 4096) (pf_reseed pf k g)) ->
  stop s = None -> statics_wf (vars s) ->
  passes (galpat pf fuel name x0 free upd f sz 0) s.
Proof.
  intros Hv Hx0 Hh0 Hfree Hupd Hsz [m Hm] H0 Hmax Hsp Hst Hw. vstart.
  assert (ns = true) as -> by tauto. vstep. vstep. eapply triple_seq.
  { eapply triple_pre; [|apply (tri_place_all fuel n fl (vars s) (pf_reseed pf x g) _ _ x0 free upd h);
      auto]. intros s' Hs'. exists (fun _ => x0). split.
    - repeat split; [apply Hx0|apply Hx0|by left|]. rewrite Hh0, bits_const, popcount_0. lia.
    - eapply At_ext; [|exact Hs']. intros i Hi. rewrite fill_in by lia. by apply u8_small. }
  apply triple_exists. intros F'. apply triple_exists. intros t. apply triple_pure.
  intros (Hfit & _ & Hbits). do 2 vstep.
  assert (n = 64 * m)%nat as Hn by lia. pose proof (bits_bounds (fun i => h (F' i)) 0 n).
  eapply triple_bind_eq.
  { unfold lines. rewrite Hn, strided_blocks by lia. rewrite <- Hn.
    apply (tri_count_lines _ _ _ _ _ _ _ f h Hv F' Hfit 0 0 m 0); [done|lia|lia|].
    rewrite <- Hn. change (64 * 0)%nat with 0%nat. lia. }
  rewrite <- Hn. change (64 * 0)%nat with 0%nat. rewrite Hbits, Z.add_0_l, Z.eqb_refl.
  apply triple_ret. intros s'. by apply At_clean.
Qed.

Lemma low_bit_cases b : 0 <= b < 4 -> b = 0 \/ b = 1 \/ b = 2 \/ b = 3.
Proof. lia. Qed.

Lemma galpat_zero_passes fuel sz (s : vmst M) :
  msize (mem s) = sz -> (64 | sz)%nat -> (0 < sz)%nat -> Z.of_nat sz < 2 ^ 60 ->
  (forall k g, spread_over sz fuel (sz / 4096) (pf_reseed pf k g)) ->
  stop s = None -> statics_wf (vars s) ->
  passes (stress_vm_galpat_zero pf fuel sz 0) s.
Proof.
  apply (galpat_passes _ _ _ _ _ _ u8); [apply views_id|done|done|intros x; apply Z.eqb_eq|].
  intros b [->|[->|[->| ->]]]%low_bit_cases; by vm_compute.
Qed.

Lemma galpat_one_passes fuel sz (s : vmst M) :
  msize (mem s) = sz -> (64 | sz)%nat -> (0 < sz)%nat -> Z.of_nat sz < 2 ^ 60 ->
  (forall k g, spread_over sz fuel (sz / 4096) (pf_reseed pf k g)) ->
  stop s = None -> statics_wf (vars s) ->
  passes (stress_vm_galpat_one pf fuel sz 0) s.
Proof.
  apply (galpat_passes _ _ _ _ _ _ not8); [apply views_not|done|done|intros x; apply Z.eqb_eq|].
  intros b [->|[->|[->| ->]]]%low_bit_cases; by vm_compute.
Qed.

End Bits.

#[export] Hint Resolve zero_one_passes galpat_zero_passes galpat_one_passes : vmpass.
