(* ===== verification/VmPrime.v ===== *)
(** * Walks through memory in prime sized steps

    The step [j += prime] wraps at 64 bits before it is reduced modulo the
    size, so the walk is not always a permutation of the bytes.  It is one for
    the powers of two and for the numbers of 256 byte blocks that are coprime to
    1511789 = 491 * 3079; the bytes it misses otherwise are counted as errors. *)

From S2P Require Import Prelude Mwc VmState VmMethods VmLogic VmProofs VmPatterns VmBits.

(** the offsets of the first [k] steps *)
Definition offs (n k : nat) : list nat := prime_offset n <$> seq 0 k.

Definition covers (n : nat) : Prop := forall p, (p < n)%nat -> p ∈ offs n n.

(** the bytes a walk misses *)
Definition unvisited (n : nat) : nat := length (filter (fun p => p ∉ offs n n) (seq 0 n)).

Lemma offs_S n k : offs n (S k) = offs n k ++ [prime_offset n k].
Proof. unfold offs. by rewrite seq_S, fmap_app. Qed.

Lemma elem_offs_S n k p : p ∈ offs n (S k) <-> p ∈ offs n k \/ p = prime_offset n k.
Proof. by rewrite offs_S, elem_of_app, list_elem_of_singleton. Qed.

(** ** Sizes that are powers of two *)

(** the inverse of the prime modulo 2^64 *)
Definition PRIME_64_INV : Z := 0x902263617ccaa065.

Lemma prime_inverse : exists q, PRIME_64 * PRIME_64_INV = 1 + 2 ^ 64 * q.
Proof. exists 5801539583699201151. reflexivity. Qed.

Lemma covers_pow2 (k : Z) : 0 <= k <= 64 -> covers (Z.to_nat (2 ^ k)).
Proof.
  intros Hk p Hp. set (N := 2 ^ k). assert (0 < N) by (apply Z.pow_pos_nonneg; lia).
  assert (Z.of_nat p < N) as HpN by (unfold N; lia).
  set (i := Z.to_nat ((Z.of_nat p * PRIME_64_INV - 1) mod N)).
  pose proof (Z.mod_pos_bound (Z.of_nat p * PRIME_64_INV - 1) N) as Hi.
  apply list_elem_of_fmap. exists i. split; [|apply elem_of_seq; unfold i, N in *; lia].
  unfold prime_offset. rewrite Z2Nat.id by (unfold N in *; lia). fold N.
  rewrite <- (Nat2Z.id p) at 1. f_equal.
  assert (exists d, 2 ^ 64 = N * d) as [d Hd].
  { exists (2 ^ (64 - k)). unfold N. rewrite <- Z.pow_add_r by lia. f_equal. lia. }
  destruct prime_inverse as [q Hq].
  unfold i. rewrite Z2Nat.id by lia. unfold u64.
  pose proof (Z.div_mod (Z.of_nat p * PRIME_64_INV - 1) N) as D1.
  set (r := (Z.of_nat p * PRIME_64_INV - 1) mod N) in *.
  set (q1 := (Z.of_nat p * PRIME_64_INV - 1) / N) in *.
  pose proof (Z.div_mod ((r + 1) * PRIME_64) (2 ^ 64)) as D2.
  set (y := ((r + 1) * PRIME_64) mod 2 ^ 64) in *.
  set (q2 := ((r + 1) * PRIME_64) / 2 ^ 64) in *.
  apply Z.mod_unique with (Z.of_nat p * d * q - q1 * PRIME_64 - d * q2); [lia|].
  assert (r + 1 = Z.of_nat p * PRIME_64_INV - N * q1) as Hr by lia.
  assert (y = (r + 1) * PRIME_64 - 2 ^ 64 * q2) as -> by lia.
  rewrite Hr. rewrite Hd in *.
  replace ((Z.of_nat p * PRIME_64_INV - N * q1) * PRIME_64)
    with (Z.of_nat p * (PRIME_64 * PRIME_64_INV) - N * q1 * PRIME_64) by ring.
  rewrite Hq. ring.
Qed.

(** ** Sizes that are a multiple of 256

    The prime is 0x8f * 2^56 + 1511789, and 1511789 = 491 * 3079.  A step
    number [x] with [x * 1511789 < 2^56] adds [x * 1511789] to a multiple of 2^56
    that depends on [x mod 256] only. *)

Definition PRIME_LOW : Z := 1511789.

Lemma prime_step x :
  0 <= x -> x * PRIME_LOW < 2 ^ 56 ->
  u64 (x * PRIME_64) = (0x8f * x) mod 256 * 2 ^ 56 + x * PRIME_LOW.
Proof.
  intros Hx Hlt. unfold u64. change PRIME_64 with (0x8f * 2 ^ 56 + PRIME_LOW).
  pose proof (Z.mod_pos_bound (0x8f * x) 256). pose proof (Z.div_mod (0x8f * x) 256).
  symmetry. apply Z.mod_unique with (0x8f * x / 256).
  - left. unfold PRIME_LOW in *. lia.
  - change (2 ^ 64) with (256 * 2 ^ 56). nia.
Qed.

Lemma elem_offs n x p :
  1 <= x <= Z.of_nat n -> u64 (x * PRIME_64) mod Z.of_nat n = Z.of_nat p -> p ∈ offs n n.
Proof.
  intros Hx Hp. apply list_elem_of_fmap. exists (Z.to_nat (x - 1)).
  split; [|apply elem_of_seq; lia]. unfold prime_offset.
  replace (Z.of_nat (Z.to_nat (x - 1)) + 1) with x by lia. rewrite Hp. lia.
Qed.

(** a step number for the offset [p], in [0, 256 k) *)
Lemma prime_solve k p :
  0 < k -> Z.gcd k PRIME_LOW = 1 -> 0 <= p ->
  exists r m, 0 <= r < 256 /\ 0 <= m < k /\
    ((0x8f * r) mod 256 * 2 ^ 56 + (r + 256 * m) * PRIME_LOW) mod (256 * k) = p mod (256 * k).
Proof.
  intros Hk Hg Hp. set (r := (101 * p) mod 256).
  pose proof (Z.mod_pos_bound (101 * p) 256) as Hr. fold r in Hr.
  set (T := (0x8f * r) mod 256 * 2 ^ 56 + r * PRIME_LOW).
  assert (exists d, T = p + 256 * d) as [d Hd].
  { pose proof (Z.div_mod (101 * p) 256) as E. fold r in E.
    exists ((0x8f * r) mod 256 * 2 ^ 48 + 596448 * p - 101 * p / 256 * PRIME_LOW).
    unfold T. change (2 ^ 56) with (256 * 2 ^ 48). unfold PRIME_LOW. lia. }
  destruct (Z.gcd_bezout k PRIME_LOW 1 Hg) as (a & b & Hab).
  set (m := (- d * b) mod k). pose proof (Z.mod_pos_bound (- d * b) k) as Hm. fold m in Hm.
  exists r, m. split; [lia|]. split; [lia|].
  pose proof (Z.div_mod (- d * b) k) as E. fold m in E. set (q := (- d * b) / k) in *.
  replace ((0x8f * r) mod 256 * 2 ^ 56 + (r + 256 * m) * PRIME_LOW)
    with (p + (d * a - q * PRIME_LOW) * (256 * k)).
  - apply Z.mod_add. lia.
  - transitivity (T + 256 * m * PRIME_LOW); [|unfold T; ring]. rewrite Hd.
    replace m with (- d * b - k * q) by lia.
    replace (256 * (- d * b - k * q) * PRIME_LOW)
      with (- 256 * d * (b * PRIME_LOW) - 256 * k * q * PRIME_LOW) by ring.
    replace (b * PRIME_LOW) with (1 - a * k) by lia. ring.
Qed.

Lemma covers_pages n k :
  Z.of_nat n = 256 * k -> 0 < k -> Z.gcd k PRIME_LOW = 1 -> Z.of_nat n <= 2 ^ 35 -> covers n.
Proof.
  intros Hn Hk Hg Hmax p Hp.
  destruct (prime_solve k (Z.of_nat p) Hk Hg) as (r & m & Hr & Hm & Hsol); [lia|].
  rewrite <- Hn, (Z.mod_small (Z.of_nat p)) in Hsol by lia.
  assert (0 <= r + 256 * m < Z.of_nat n) as Hx by lia.
  assert (forall x, (0x8f * x) mod 256 = (0x8f * r) mod 256 -> 0 <= x <= Z.of_nat n ->
    u64 (x * PRIME_64) = (0x8f * r) mod 256 * 2 ^ 56 + x * PRIME_LOW) as Hstep.
  { intros x Hxr Hxn. rewrite prime_step, Hxr; [done|lia|]. unfold PRIME_LOW. lia. }
  assert (forall j, (0x8f * (r + 256 * j)) mod 256 = (0x8f * r) mod 256) as Hmod.
  { intros j. replace (0x8f * (r + 256 * j)) with (0x8f * r + 0x8f * j * 256) by ring.
    apply Z.mod_add. lia. }
  destruct (Z.eq_dec (r + 256 * m) 0) as [H0|H0].
  - apply (elem_offs n (Z.of_nat n)); [lia|].
    rewrite Hstep; [|rewrite Hn; replace (256 * k) with (r + 256 * (m + k)) by lia; apply Hmod|lia].
    rewrite H0, Z.mul_0_l, Z.add_0_r in Hsol. rewrite <- Hsol.
    rewrite (Z.mul_comm (Z.of_nat n)). apply Z.mod_add. lia.
  - apply (elem_offs n (r + 256 * m)); [lia|]. by rewrite Hstep by (try apply Hmod; lia).
Qed.

(** A multiple of 491 pages shares a factor with the prime's low part: the
    offsets leave residues modulo 491 out. *)
Lemma offs_491 n p :
  (491 | Z.of_nat n) -> Z.of_nat n <= 2 ^ 35 -> p ∈ offs n n ->
  exists t, 0 <= t < 256 /\ Z.of_nat p mod 491 = (t * 2 ^ 56) mod 491.
Proof.
  intros [q Hq] Hmax (i & -> & [_ Hi]%elem_of_seq)%list_elem_of_fmap.
  unfold prime_offset. rewrite prime_step by (unfold PRIME_LOW; lia).
  set (t := (0x8f * (Z.of_nat i + 1)) mod 256). exists t.
  split; [apply Z.mod_pos_bound; lia|].
  rewrite Z2Nat.id by (apply Z.mod_pos_bound; lia).
  set (y := t * 2 ^ 56 + (Z.of_nat i + 1) * PRIME_LOW).
  assert (0 < q) by lia.
  rewrite Hq, (Z.mul_comm q), Z.rem_mul_r by lia.
  rewrite (Z.mul_comm 491), Z.mod_add by lia. rewrite Z.mod_mod by lia.
  unfold y. replace ((Z.of_nat i + 1) * PRIME_LOW) with ((Z.of_nat i + 1) * 3079 * 491)
    by (unfold PRIME_LOW; ring).
  apply Z.mod_add. lia.
Qed.

(** an offset below 491 that no such walk visits *)
Definition unvisited_491 : nat := 2.

Lemma residue_missed t : 0 <= t < 256 -> (t * 2 ^ 56) mod 491 <> Z.of_nat unvisited_491.
Proof.
  intros Ht.
  assert (forallb (fun i => negb ((Z.of_nat i * 2 ^ 56) mod 491 =? Z.of_nat unvisited_491))
    (seq 0 256) = true) as H by (vm_compute; reflexivity).
  rewrite List.forallb_forall in H. specialize (H (Z.to_nat t)).
  rewrite Z2Nat.id in H by lia. apply Z.eqb_neq, negb_true_iff, H.
  apply list_elem_of_In, elem_of_seq. lia.
Qed.

Lemma unvisited_pos n p : (p < n)%nat -> p ∉ offs n n -> (0 < unvisited n)%nat.
Proof.
  intros Hp Hn. unfold unvisited.
  assert (p ∈ filter (fun p => p ∉ offs n n) (seq 0 n)) as Hin.
  { apply list_elem_of_filter. split; [done|]. apply elem_of_seq. lia. }
  destruct (filter _ _); [by apply not_elem_of_nil in Hin|]. simpl. lia.
Qed.

Lemma unvisited_491_pages n :
  (491 | Z.of_nat n) -> (0 < n)%nat -> Z.of_nat n <= 2 ^ 35 -> (0 < unvisited n)%nat.
Proof.
  intros Hd H0 Hmax. apply (unvisited_pos n unvisited_491).
  - destruct Hd as [q Hq]. unfold unvisited_491. lia.
  - intros Hin. destruct (offs_491 n _ Hd Hmax Hin) as (t & Ht & Heq).
    apply (residue_missed t Ht). by rewrite <- Heq.
Qed.

(** ** The clearing and the setting walk *)

Section Prime.
Context {M : Type} `{!MemDevice M} `{!Healthy M} (pf : platform M) `{!SoundPlatform pf}.

Lemma tri_prime_update E R n fl ns F g e v f i :
  (i < n)%nat ->
  triple E R (At n fl ns F g e v) (prime_update n f i)
    (fun _ => At n fl ns (fill (prime_offset n i) 1
       (fun _ => u8 (f (F (prime_offset n i)))) F) g e v).
Proof.
  intros Hi. assert (prime_offset n i < n)%nat by (apply prime_offset_lt; lia).
  unfold prime_update. cbv zeta. eapply triple_bind_eq; [by apply tri_ld|]. by apply tri_st.
Qed.

(** the buffer in pass [j] after [i] steps: the bytes go from [c 0] to [c 8],
    those not on the walk stay at [c 0] *)
Definition walked (n : nat) (c : nat -> Z) (j i p : nat) : Z :=
  if decide (p ∈ offs n i) then c (S j) else if decide (p ∈ offs n n) then c j else c 0%nat.

Definition walk_masks (c : nat -> Z) (f : nat -> Z -> Z) : Prop :=
  forall j, (j < 8)%nat ->
    fits 8 (c (S j)) /\ f j (c j) = c (S j) /\ f j (c (S j)) = c (S j).

Lemma tri_prime_walks E R n fl ns g v c f (tail : vm M unit) :
  walk_masks c f ->
  (forall F, triple E R (At n fl ns F g 0 v) tail (fun _ => At n fl ns F g 0 v)) ->
  triple E R (At n fl ns (fun _ => c 0%nat) g 0 v)
    (for_list (seq 0 8) (fun j => for_list (seq 0 n) (fun i => prime_update n (f j) i;; tail)))
    (fun _ => At n fl ns (fun p => if decide (p ∈ offs n n) then c 8%nat else c 0%nat) g 0 v).
Proof.
  intros Hm Ht. eapply triple_conseq;
    [apply (triple_for_upto _ _ (fun j => At n fl ns (walked n c j 0) g 0 v))| |].
  - intros j Hj. destruct (Hm j Hj) as (Hfit & Hf1 & Hf2).
    eapply triple_post; [|apply (triple_for_upto _ _ (fun i => At n fl ns (walked n c j i) g 0 v))].
    + intros ? s. apply At_ext. intros p Hp. unfold walked. rewrite (decide_False (P := p ∈ offs n 0)) by apply not_elem_of_nil.
      by repeat case_decide.
    + intros i Hi. eapply triple_seq; [by apply tri_prime_update|].
      eapply triple_post; [|apply Ht]. intros ? s. apply At_ext. intros p Hp.
      assert (prime_offset n i ∈ offs n n) as Hin.
      { apply list_elem_of_fmap. exists i. split; [done|]. apply elem_of_seq. lia. }
      unfold fill, walked. pose proof (elem_offs_S n i p) as HS.
      destruct (decide (prime_offset n i <= p < prime_offset n i + 1)%nat) as [Heq|Hne].
      * replace p with (prime_offset n i) in * by lia.
        rewrite (decide_True (P := _ ∈ offs n (S i))) by tauto.
        rewrite (decide_True (P := _ ∈ offs n n)) by done.
        case_decide; rewrite ?Hf1, ?Hf2; by apply u8_small.
      * assert (p <> prime_offset n i) by lia.
        destruct (decide (p ∈ offs n i)), (decide (p ∈ offs n (S i))); tauto.
  - intros s. apply At_ext. intros p Hp. unfold walked. rewrite (decide_False (P := p ∈ offs n 0)) by apply not_elem_of_nil.
    by case_decide.
  - intros ? s. apply At_ext. intros p Hp. unfold walked. by rewrite (decide_False (P := p ∈ offs n 0)) by apply not_elem_of_nil.
Qed.

(** the values of the clearing walk and of the setting walk *)
Definition cleared (j : nat) : Z := 255 - (2 ^ Z.of_nat j - 1).
Definition raised (j : nat) : Z := 2 ^ Z.of_nat j - 1.

Lemma cleared_masks : walk_masks cleared (fun j x => x .& not8 (1 <<< Z.of_nat j)).
Proof. intros j Hj. do 8 (destruct j as [|j]; [by vm_compute|]). lia. Qed.

Lemma raised_masks : walk_masks raised (fun j x => x .| u8 (1 <<< Z.of_nat j)).
Proof. intros j Hj. do 8 (destruct j as [|j]; [by vm_compute|]). lia. Qed.

(** the frame of a stressor that counts errors *)
Lemma with_abort_returns name body (s : vmst M) e :
  (forall F g, triple (fun _ => False) (fun _ _ => False)
    (At (msize (mem s)) (fails s) (bool_decide (stop s = None)) F g 0 (vars s)) body
    (fun _ s' => bit_errors s' = e)) ->
  exists s', with_abort pf name body s = (Go e, s').
Proof.
  intros H. unfold with_abort. set (s0 := set_bit_errors 0 _).
  specialize (H (fun i => load i (mem s)) (rng s) s0). unfold outcome in H.
  assert (At (msize (mem s)) (fails s) (bool_decide (stop s = None))
    (fun i => load i (mem s)) (rng s) 0 (vars s) s0) as HAt.
  { repeat split. by intros ?%bool_decide_eq_true. }
  specialize (H HAt). destruct (body s0) as [[[]| |x| |] s'] eqn:Hb; try done.
  unfold stress_vm_check, modify. destruct (_ && _); simpl; rewrite H; by eexists.
Qed.

(** the bits found in the end: 8 for every byte that was not visited *)
Lemma bits_unvisited n (l : list nat) :
  bits (fun p => if decide (p ∈ l) then 0 else 255) 0 n =
  8 * Z.of_nat (length (filter (fun p => p ∉ l) (seq 0 n))).
Proof.
  generalize 0%nat as a. induction n as [|n IH]; intros a; cbn [bits seq]; [done|].
  rewrite IH. case_decide.
  - rewrite filter_cons_False by tauto. done.
  - rewrite filter_cons_True by done. rewrite length_cons. change (popcount 8 255) with 8. lia.
Qed.

Lemma tri_count_errors E R n fl ns F g v (f : Z -> Z) h e :
  (forall i, fits 8 (F i)) -> (forall x, fits 8 x -> f x = popcount 8 (h x)) ->
  0 <= e -> e + bits (fun i => h (F i)) 0 n < 2 ^ 64 ->
  triple E R (At n fl ns F g e v)
    (for_list (seq 0 n) (fun i => x ← ld i; add_errors (f x)))
    (fun _ => At n fl ns F g (e + bits (fun i => h (F i)) 0 n) v).
Proof.
  intros HF Hf He Hlt.
  eapply triple_pre; [|apply (triple_for_upto E R
    (fun k => At n fl ns F g (e + bits (fun i => h (F i)) 0 k) v))].
  - intros s. by rewrite Z.add_0_r.
  - intros k Hk. eapply triple_bind_eq; [by apply tri_ld|].
    eapply triple_post; [|apply tri_add]. intros ? s. rewrite Hf by done.
    replace (S k) with (k + 1)%nat by lia. rewrite bits_app. cbn [bits].
    rewrite Z.add_0_r, Z.add_assoc. change (0 + k)%nat with k.
    rewrite u64_small; [done|].
    pose proof (bits_bounds (fun i => h (F i)) 0 k). pose proof (popcount_bounds 8 (h (F k))).
    replace n with (k + (1 + (n - k - 1)))%nat in Hlt by lia. rewrite !bits_app in Hlt.
    cbn [bits] in Hlt. change (0 + k)%nat with k in Hlt.
    pose proof (bits_bounds (fun i => h (F i)) (k + 1) (n - k - 1)). unfold fits. lia.
Qed.

Lemma count_bits_byte x : fits 8 x -> stress_vm_count_bits x = popcount 8 (u8 x).
Proof.
  intros Hx. rewrite u8_small by done. rewrite count_bits_popcount.
  - pose proof (popcount_byte 56 x 0 Hx) as H. rewrite Z.mul_0_r, Z.add_0_r, popcount_0 in H.
    change (8 + 56)%nat with 64%nat in H. lia.
  - unfold fits in *. lia.
Qed.

(** an uninterrupted run of prime-0 reports 8 errors for every byte its walk
    misses, on sound memory *)
Theorem prime_zero_errors sz (s : vmst M) :
  msize (mem s) = sz -> Z.of_nat sz < 2 ^ 60 -> stop s = None ->
  exists s', stress_vm_prime_zero pf sz 0 s = (Go (8 * Z.of_nat (unvisited sz)), s').
Proof.
  intros Hsz Hlt Hst. unfold stress_vm_prime_zero. apply with_abort_returns. intros F g.
  rewrite Hsz, Hst. rewrite bool_decide_eq_true_2 by done.
  eapply triple_seq; [apply tri_size_guard; lia|]. vstep. eapply triple_seq.
  { eapply triple_pre; [|eapply (tri_prime_walks _ _ _ _ _ _ _ cleared); [apply cleared_masks|]].
    - intros s'. apply At_ext. intros i Hi. by rewrite fill_in by lia.
    - intros G. eapply triple_seq; [by apply tri_count_abort|by apply tri_poll_abort]. }
  do 2 vstep. 
  set (G := fun p => if decide (p ∈ offs sz sz) then cleared 8 else cleared 0).
  assert (bits (fun i => u8 (G i)) 0 sz = 8 * Z.of_nat (unvisited sz)) as Hb.
  { etrans; [|apply bits_unvisited]. apply bits_ext. intros i _. unfold G.
    by case_decide. }
  pose proof (bits_bounds (fun i => u8 (G i)) 0 sz).
  eapply triple_post; [|apply (tri_count_errors _ _ _ _ _ _ _ _ _ u8)].
  - intros ? s' (_ & _ & _ & He & _). rewrite He. lia.
  - intros i. unfold G. by case_decide.
  - apply count_bits_byte.
  - done.
  - lia.
Qed.

(** *** walks that visit every byte *)

Lemma covered_const n fl ns (a b : Z) g e v (s : vmst M) :
  covers n ->
  At n fl ns (fun p => if decide (p ∈ offs n n) then a else b) g e v s ->
  At n fl ns (fun _ => a) g e v s.
Proof. intros Hc. apply At_ext. intros i Hi. rewrite decide_True; [done|]. by apply Hc. Qed.

(** the last loop of a walk over a buffer in which no bit is wrong *)
Lemma tri_no_errors E R n fl ns g v F (f : Z -> Z) i :
  (i < n)%nat -> f (F i) = 0 ->
  triple E R (At n fl ns F g 0 v) (x ← ld i; add_errors (f x)) (fun _ => At n fl ns F g 0 v).
Proof.
  intros Hi Hf. eapply triple_bind_eq; [by apply tri_ld|]. rewrite Hf. apply tri_add.
Qed.

Lemma tri_final_check n fl ns ai g v F (f : Z -> Z) :
  (forall i, (i < n)%nat -> f (F i) = 0) -> statics_wf v -> all_i v = ai ->
  triple (clean n fl ns ai) (returns0 n fl ns ai) (At n fl ns F g 0 v)
    (for_break (seq 0 n) (fun i => x ← ld i; add_errors (f x);; poll)) (fun _ => clean n fl ns ai).
Proof.
  intros Hf Hw Ha. eapply triple_post; [|apply (triple_break_inv _ _ (At n fl ns F g 0 v))].
  - intros ? s. by apply At_clean.
  - intros i [_ Hi]%elem_of_seq. eapply triple_bind_eq; [by apply tri_ld|].
    rewrite Hf by done. eapply triple_seq; [apply tri_add|].
    eapply triple_post; [|apply tri_poll]. by intros ? s [_ ?].
Qed.

Lemma prime_zero_passes sz max_ops (s : vmst M) :
  msize (mem s) = sz -> covers sz -> statics_wf (vars s) ->
  passes (stress_vm_prime_zero pf sz max_ops) s.
Proof.
  intros Hsz Hc Hw. vstart. eapply triple_seq; [by apply tri_size_guard_ret|]. vstep.
  eapply triple_seq.
  { eapply triple_conseq;
      [eapply (tri_prime_walks _ _ n fl ns g (vars s) cleared); [apply cleared_masks|]| |].
    - intros G. vstep. vstep.
    - intros s'. apply At_ext. intros i Hi. by rewrite fill_in by lia.
    - intros ? s'. by apply covered_const. }
  do 2 vstep. eapply triple_post; [|apply tri_read_loop; intros; by apply tri_no_errors].
  intros ? s'. by apply At_clean.
Qed.

Lemma prime_one_passes sz max_ops (s : vmst M) :
  msize (mem s) = sz -> covers sz -> statics_wf (vars s) ->
  passes (stress_vm_prime_one pf sz max_ops) s.
Proof.
  intros Hsz Hc Hw. vstart. eapply triple_seq; [by apply tri_size_guard_ret|]. vstep.
  eapply triple_seq.
  { eapply triple_conseq;
      [eapply (tri_prime_walks _ _ n fl ns g (vars s) raised); [apply raised_masks|]| |].
    - intros G. vstep. vstep.
    - intros s'. apply At_ext. intros i Hi. by rewrite fill_in by lia.
    - intros ? s'. by apply covered_const. }
  do 2 vstep. by apply (tri_final_check _ _ _ _ _ _ _ (fun x => 8 - stress_vm_count_bits x)).
Qed.

(** *** the gray code walks: each step combines the byte with a code, the second
    walk with its complement *)

Section GrayWalk.
Context (n : nat) (fl : list (string * Z)) (ns : bool) (v : statics) (g : mwc) (max_ops : Z).
Context (Hw : statics_wf v).
Abbreviation ai := (all_i v).
Abbreviation tri := (triple (clean n fl ns ai) (returns0 n fl ns ai)).
(** [op] with the code of the step and with its complement; [x1] is the value
    the two of them give; [half i x]: combining [x] with the complement of the
    code of step [i] gives [x1] *)
Context (op : Z -> Z -> Z) (x1 : Z).
Abbreviation half i x := (u8 (op x (not64 (gray64 i))) = x1).
Context (Hop : forall x i, half i (u8 (op x (gray64 i)))).
Context (Hkeep : forall x i y, half i x -> half i (u8 (op x y))).
Context (Hdone : forall y, u8 (op x1 y) = x1).

Lemma tri_gray_walk1 F :
  tri (At n fl ns F g 0 v)
    (for_list (seq 0 n) (fun i =>
      prime_update n (fun x => op x (gray64 i)) i;; poll_abort;; count_abort max_ops))
    (fun _ s => exists G, (forall i, (i < n)%nat -> half i (G (prime_offset n i))) /\
       At n fl ns G g 0 v s).
Proof.
  eapply triple_pre; [|apply (triple_for_upto _ _ (fun k s => exists G,
    (forall i, (i < k)%nat -> half i (G (prime_offset n i))) /\ At n fl ns G g 0 v s))].
  { intros s Hs. exists F. split; [lia|done]. }
  intros k Hk. apply triple_exists. intros G. apply triple_pure. intros HG.
  eapply triple_seq; [by apply tri_prime_update|]. vstep. eapply triple_post; [|vstep].
  intros ? s Hs. eexists. split; [|exact Hs]. intros i Hi. unfold fill. case_decide as Heq.
  - assert (prime_offset n i = prime_offset n k) as Hoff by lia.
    destruct (decide (i = k)) as [->|Hne]; [apply Hop|].
    apply Hkeep. rewrite <- Hoff. apply HG. lia.
  - assert (i <> k) by (intros ->; lia). apply HG. lia.
Qed.

Lemma tri_gray_walk2 G :
  (forall i, (i < n)%nat -> half i (G (prime_offset n i))) ->
  tri (At n fl ns G g 0 v)
    (for_list (seq 0 n) (fun i =>
      prime_update n (fun x => op x (not64 (gray64 i))) i;; poll_abort;; count_abort max_ops))
    (fun _ s => exists G', (forall p, p ∈ offs n n -> G' p = x1) /\ At n fl ns G' g 0 v s).
Proof.
  intros HG0.
  eapply triple_conseq; [apply (triple_for_upto _ _ (fun k s => exists G,
    (forall i, (i < n)%nat -> half i (G (prime_offset n i))) /\
    (forall p, p ∈ offs n k -> G p = x1) /\ At n fl ns G g 0 v s))| |].
  2: { intros s Hs. exists G. split; [done|]. split; [|done]. intros p Hp.
    by apply not_elem_of_nil in Hp. }
  2: { intros ? s (G' & _ & HG' & Hs). by exists G'. }
  intros k Hk. apply triple_exists. intros H. apply triple_pure. intros HH.
  apply triple_pure. intros Hdn.
  eapply triple_seq; [by apply tri_prime_update|]. vstep. eapply triple_post; [|vstep].
  intros ? s Hs. eexists. split; [|split; [|exact Hs]].
  - intros i Hi. unfold fill. case_decide; [|by apply HH]. by rewrite HH.
  - intros p [Hp| ->]%elem_offs_S; unfold fill; case_decide; try lia; auto.
Qed.

End GrayWalk.

Lemma u8_bits a b :
  u8 a = u8 b <-> forall i, 0 <= i < 8 -> Z.testbit a i = Z.testbit b i.
Proof.
  unfold u8. split.
  - intros H i Hi. rewrite <- (Z.mod_pow2_bits_low a 8), <- (Z.mod_pow2_bits_low b 8) by lia.
    by rewrite H.
  - intros H. apply Z.bits_inj'. intros i Hi. rewrite !mod_pow2_testbit by lia.
    destruct (Z.ltb_spec i 8); simpl; [apply H; lia|done].
Qed.

(** the low eight bits of the operations of the walks *)
Lemma gray_bits x y i :
  0 <= i < 8 ->
  Z.testbit (u8 x) i = Z.testbit x i /\ Z.testbit (not64 y) i = negb (Z.testbit y i) /\
  Z.testbit 255 i = true.
Proof.
  intros Hi. repeat split.
  - unfold u8. by rewrite Z.mod_pow2_bits_low by lia.
  - unfold not64, u64. rewrite Z.mod_pow2_bits_low by lia. by rewrite Z.lnot_spec by lia.
  - apply (Z.ones_spec_low 8). lia.
Qed.

(** solves the side conditions of the walks bit by bit *)
Ltac gray_solve :=
  intros; repeat match goal with
  | H : u8 ?a = ?c |- _ => change (u8 a = u8 c) in H; rewrite u8_bits in H
  end;
  match goal with |- u8 ?a = ?c => change (u8 a = u8 c); rewrite u8_bits end;
  let i := fresh "i" in let Hi := fresh "Hi" in intros i Hi;
  repeat match goal with H : forall i, 0 <= i < 8 -> _ |- _ => specialize (H i Hi) end;
  rewrite ?Z.land_spec, ?Z.lor_spec in *;
  repeat match goal with
  | |- context [Z.testbit (u8 ?x) i] => rewrite (proj1 (gray_bits x 0 i Hi))
  | _ : context [Z.testbit (u8 ?x) i] |- _ => rewrite (proj1 (gray_bits x 0 i Hi)) in *
  | |- context [Z.testbit (not64 ?y) i] => rewrite (proj1 (proj2 (gray_bits 0 y i Hi)))
  | _ : context [Z.testbit (not64 ?y) i] |- _ => rewrite (proj1 (proj2 (gray_bits 0 y i Hi))) in *
  | |- context [Z.testbit 255 i] => rewrite (proj2 (proj2 (gray_bits 0 0 i Hi)))
  | _ : context [Z.testbit 255 i] |- _ => rewrite (proj2 (proj2 (gray_bits 0 0 i Hi))) in *
  | |- context [Z.testbit 0 i] => rewrite Z.bits_0
  | _ : context [Z.testbit 0 i] |- _ => rewrite Z.bits_0 in *
  end;
  rewrite ?Z.land_spec, ?Z.lor_spec in *;
  repeat match goal with H : @eq bool _ _ |- _ => revert H end;
  repeat match goal with |- context [Z.testbit ?x i] => destruct (Z.testbit x i) end;
  simpl; intros; done.

Lemma prime_gray_zero_passes sz max_ops (s : vmst M) :
  msize (mem s) = sz -> covers sz -> statics_wf (vars s) ->
  passes (stress_vm_prime_gray_zero pf sz max_ops) s.
Proof.
  intros Hsz Hc Hw. vstart. eapply triple_seq; [by apply tri_size_guard_ret|]. vstep.
  eapply triple_seq; [apply (tri_gray_walk1 _ _ _ _ _ _ Hw Z.land 0); gray_solve|].
  apply triple_exists. intros G. apply triple_pure. intros HG.
  eapply triple_seq; [apply (tri_gray_walk2 _ _ _ _ _ _ Hw Z.land 0); [gray_solve|done]|].
  apply triple_exists. intros G'. apply triple_pure. intros HG'.
  do 2 vstep. apply (tri_final_check _ _ _ _ _ _ _ stress_vm_count_bits); [|done|done].
  intros i Hi. by rewrite HG' by (by apply Hc).
Qed.

Lemma prime_gray_one_passes sz max_ops (s : vmst M) :
  msize (mem s) = sz -> covers sz -> statics_wf (vars s) ->
  passes (stress_vm_prime_gray_one pf sz max_ops) s.
Proof.
  intros Hsz Hc Hw. vstart. eapply triple_seq; [by apply tri_size_guard_ret|]. vstep.
  eapply triple_seq; [apply (tri_gray_walk1 _ _ _ _ _ _ Hw Z.lor 255); gray_solve|].
  apply triple_exists. intros G. apply triple_pure. intros HG. vstep.
  eapply triple_seq; [apply (tri_gray_walk2 _ _ _ _ _ _ Hw Z.lor 255); [gray_solve|done]|].
  apply triple_exists. intros G'. apply triple_pure. intros HG'.
  do 2 vstep. apply (tri_final_check _ _ _ _ _ _ _ (fun x => 8 - stress_vm_count_bits x));
    [|done|done].
  intros i Hi. by rewrite HG' by (by apply Hc).
Qed.

End Prime.

#[export] Hint Resolve prime_zero_passes prime_one_passes prime_gray_zero_passes
  prime_gray_one_passes : vmpass.
