(* ===== verification/VmAll.v ===== *)
(** * The table of the memory stressors

    The theorems about the whole table [vm_methods] and about [stress_vm_all()],
    which runs its entries in turn. *)

From S2P Require Import Prelude Mwc VmState VmMethods VmLogic VmProofs VmPatterns VmSwap VmBits VmPrime.

(** the sizes over which the walks in prime steps visit every byte: powers of
    two, and multiples of 256 (whole pages) with a factor coprime to 1511789 *)
Inductive good_size (sz : nat) : Prop :=
| good_pow2 (k : Z) (Hk : 6 <= k < 60) (Hsz : Z.of_nat sz = 2 ^ k)
| good_pages (k : Z) (Hk : 0 < k) (Hsz : Z.of_nat sz = 256 * k)
    (Hmax : Z.of_nat sz <= 2 ^ 35) (Hgcd : Z.gcd k PRIME_LOW = 1).

(** what a run relies on: a buffer of such a size at a proper address, and a
    platform whose reseeded generator does not keep drawing the same offsets *)
Record sound_run {M : Type} (pf : platform M) (fuel sz : nat) : Prop := SoundRun {
  sr_size : good_size sz;
  sr_base : 0 <= pf_base pf;
  sr_spread : forall k g, spread_over sz fuel (sz / 4096) (pf_reseed pf k g) }.

Section All.
Context {M : Type} `{!MemDevice M} `{!Healthy M} (pf : platform M) `{!SoundPlatform pf}.

Lemma good_size_facts sz :
  good_size sz ->
  (64 | sz)%nat /\ (8 | sz)%nat /\ (0 < sz)%nat /\ Z.of_nat sz < 2 ^ 60 /\ covers sz.
Proof.
  assert (forall q : Z, 0 < q -> Z.of_nat sz = 64 * q -> (64 | sz)%nat /\ (8 | sz)%nat /\ (0 < sz)%nat) as Hdiv.
  { intros q Hq Hs. repeat split; [exists (Z.to_nat q)|exists (8 * Z.to_nat q)%nat|]; lia. }
  intros [k Hk Hs|k Hk Hs Hmax Hg].
  - assert (2 ^ k = 64 * 2 ^ (k - 6)) as H64.
    { rewrite <- (Z.pow_add_r 2 6) by lia. f_equal. lia. }
    assert (0 < 2 ^ (k - 6)) by (apply Z.pow_pos_nonneg; lia).
    assert (2 ^ k < 2 ^ 60) by (apply Z.pow_lt_mono_r; lia).
    destruct (Hdiv (2 ^ (k - 6))) as (? & ? & ?); [done|lia|].
    repeat split; try done; [lia|]. replace sz with (Z.to_nat (2 ^ k)) by lia.
    apply covers_pow2. lia.
  - destruct (Hdiv (4 * k)) as (? & ? & ?); [lia|lia|].
    repeat split; try done; [lia|]. by apply (covers_pages sz k).
Qed.

(** A buffer that is a whole number of 64 byte lines is one of 8 byte words. *)
Lemma lines_words sz : (64 | sz)%nat -> (8 | sz)%nat.
Proof. intros [q Hq]. exists (8 * q)%nat. lia. Qed.

(** splits a statement about the table into one goal per entry *)
Ltac each_method := repeat apply Forall_cons_2; cbn [fst snd]; [..|apply Forall_nil_2].

Lemma vm_methods_pass fuel sz (s : vmst M) :
  sound_run pf fuel sz -> msize (mem s) = sz -> stop s = None -> statics_wf (vars s) ->
  Forall (fun m => passes (m.2 sz 0) s) (vm_methods_rest pf fuel).
Proof.
  intros [Hsz Hb Hsp] Hm Hst Hw. destruct (good_size_facts sz Hsz) as (H64 & H8 & H0 & Hmax & Hc).
  each_method; auto with vmpass.
Qed.

(** ** The table *)

(** the stressors whose verdict depends on the run not being cut short *)
Definition fragile : list string := ["galpat-0"; "galpat-1"; "gray"; "incdec"; "prime-incdec"].

(** each of the other stressors *)
Lemma vm_methods_pass_interrupted fuel sz max_ops (s : vmst M) :
  (64 | sz)%nat -> covers sz -> 0 <= pf_base pf -> msize (mem s) = sz -> statics_wf (vars s) ->
  Forall (fun m => passes (m.2 sz max_ops) s)
    (filter (fun m => m.1 ∉ fragile) (vm_methods_rest pf fuel)).
Proof.
  intros H64 Hc Hb Hm Hw. pose proof (lines_words sz H64).
  change (filter (fun m => m.1 ∉ fragile) (vm_methods_rest pf fuel)) with
    [ ("flip", stress_vm_flip pf); ("rowhammer", stress_vm_rowhammer pf);
      ("inc-nybble", stress_vm_inc_nybble pf); ("rand-set", stress_vm_rand_set pf);
      ("rand-sum", stress_vm_rand_sum pf); ("read64", stress_vm_read64);
      ("ror", stress_vm_ror pf); ("swap", stress_vm_swap pf);
      ("move-inv", stress_vm_moving_inversion pf); ("modulo-x", stress_vm_modulo_x pf);
      ("prime-0", stress_vm_prime_zero pf); ("prime-1", stress_vm_prime_one pf);
      ("prime-gray-0", stress_vm_prime_gray_zero pf);
      ("prime-gray-1", stress_vm_prime_gray_one pf);
      ("walk-0d", stress_vm_walking_zero_data pf);
      ("walk-1d", stress_vm_walking_one_data pf);
      ("walk-0a", stress_vm_walking_zero_addr pf);
      ("walk-1a", stress_vm_walking_one_addr pf);
      ("write64", stress_vm_write64); ("zero-one", stress_vm_zero_one pf) ].
  each_method; auto with vmpass.
Qed.

(** (C1) On sound memory no stressor of the table but "all" itself reports an error: each call returns 0, stays inside the
    buffer, ends, and [stress_vm_check()] stays silent.  For the five fragile methods (galpat-0, galpat-1, gray, incdec,
    prime-incdec) this holds of a call that is not cut short: the flag is not cleared and there is no limit of operations; for
    the twenty others however the call is interrupted.  The size of the buffer is a power of two from 2^6 to 2^59, or
    at most 2^35 and 256 times a number coprime to 1511789 = 491 * 3079 (so not a multiple of 491 pages); a reseeded
    generator draws enough different offsets, without which the loops of galpat would not end; touching the pages keeps their contents. *)
Theorem vm_methods_sound fuel sz max_ops (s : vmst M) (name : string) (func : nat -> Z -> vm M Z) :
  sound_run pf fuel sz -> msize (mem s) = sz -> statics_wf (vars s) ->
  (name, func) ∈ vm_methods_rest pf fuel -> (name ∈ fragile -> stop s = None /\ max_ops = 0) ->
  passes (func sz max_ops) s.
Proof.
  intros Hr Hm Hw Hin Hf. destruct (decide (name ∈ fragile)) as [Hfr|Hfr].
  - destruct (Hf Hfr) as [Hst ->]. pose proof (vm_methods_pass fuel sz s Hr Hm Hst Hw) as H.
    by eapply Forall_forall in H; [|exact Hin].
  - pose proof Hr as [Hsz Hb _]. destruct (good_size_facts sz Hsz) as (H64 & _ & _ & _ & Hc).
    pose proof (vm_methods_pass_interrupted fuel sz max_ops s H64 Hc Hb Hm Hw) as H.
    rewrite Forall_forall in H. apply (H (name, func)). by apply list_elem_of_filter.
Qed.

(** The other stressors give no false alarm even when the alarm clears
    the flag in the middle of a pass or the operation limit ends it. *)
Theorem vm_methods_interruptible fuel sz max_ops (s : vmst M) :
  (64 | sz)%nat -> covers sz -> 0 <= pf_base pf -> msize (mem s) = sz -> statics_wf (vars s) ->
  Forall (fun m => passes (m.2 sz max_ops) s)
    (filter (fun m => m.1 ∉ fragile) (vm_methods_rest pf fuel)).
Proof. apply vm_methods_pass_interrupted. Qed.

(** ** The stressor "all" *)

(** [N] calls of [stress_vm_all()] *)
Fixpoint all_runs (N : nat) (fuel sz : nat) : vm M (list Z) :=
  match N with
  | O => mret []
  | S N => e ← stress_vm_all pf fuel sz 0; r ← all_runs N fuel sz; mret (e :: r)
  end.

Lemma stress_vm_all_step fuel sz (s : vmst M) :
  sound_run pf fuel sz -> msize (mem s) = sz -> stop s = None -> statics_wf (vars s) ->
  (1 <= all_i (vars s) <= 25)%nat ->
  exists s', stress_vm_all pf fuel sz 0 s = (Go 0, s') /\
    msize (mem s') = sz /\ fails s' = fails s /\ statics_wf (vars s') /\ stop s' = None /\
    all_i (vars s') = (if decide (all_i (vars s) = 25%nat) then 1%nat else S (all_i (vars s))).
Proof.
  intros Hr Hm Hst Hw Hi. pose proof (vm_methods_pass fuel sz s Hr Hm Hst Hw) as Hall.
  unfold stress_vm_all, gets. set (i := all_i (vars s)) in *.
  assert (exists m, vm_methods_rest pf fuel !! (i - 1)%nat = Some m) as [[name func] Hf].
  { apply lookup_lt_is_Some_2. change (length (vm_methods_rest pf fuel)) with 25%nat. lia. }
  eapply Forall_lookup_1 in Hall as (s' & Hrun & Hm' & Hfl & Hw' & Ha & Hst'); [|exact Hf].
  cbn [snd] in Hrun. unfold mbind, vm_bind. cbv beta iota. fold i. rewrite Hf, Hrun. unfold upd_vars, modify.
  eexists. split; [reflexivity|]. cbn. rewrite Hfl, Hm'. repeat split; try done; try apply Hw'; auto.
  case_decide as H25.
  - by rewrite H25.
  - destruct (vm_methods_rest pf fuel !! i) eqn:Hl; [done|].
    apply lookup_ge_None in Hl. change (length (vm_methods_rest pf fuel)) with 25%nat in Hl. lia.
Qed.

(** Any number of calls of [stress_vm_all()] on sound memory report no
    error, and they take the 25 entries of the table in turn. *)
Theorem stress_vm_all_rotates N fuel sz (s : vmst M) :
  sound_run pf fuel sz -> msize (mem s) = sz -> stop s = None -> statics_wf (vars s) ->
  (1 <= all_i (vars s) <= 25)%nat ->
  exists s', all_runs N fuel sz s = (Go (replicate N 0), s') /\ fails s' = fails s /\
    all_i (vars s') = ((all_i (vars s) - 1 + N) mod 25 + 1)%nat.
Proof.
  intros Hr. revert s. induction N as [|N IH]; intros s Hm Hst Hw Hi.
  - exists s. split; [done|]. split; [done|].
    rewrite Nat.add_0_r, Nat.mod_small by lia. lia.
  - destruct (stress_vm_all_step fuel sz s Hr Hm Hst Hw Hi) as (s1 & Hrun & Hm1 & Hf1 & Hw1 & Hst1 & Ha1).
    destruct (IH s1) as (s2 & Hrun2 & Hf2 & Ha2); try done.
    { rewrite Ha1. case_decide; lia. }
    exists s2. cbn [all_runs]. unfold mbind, vm_bind. rewrite Hrun, Hrun2. split; [done|].
    split; [congruence|]. rewrite Ha2, Ha1. case_decide as H25.
    + rewrite H25. replace (25 - 1 + S N)%nat with (1 - 1 + N + 1 * 25)%nat by lia.
      by rewrite Nat.Div0.mod_add.
    + do 2 f_equal. lia.
Qed.

End All.

(** ** Witnesses: a machine with one page *)

Definition demo_pf : platform ram :=
  Platform 4096 (fun _ r => enclave_mwc_reseed r) (fun _ m => m) true true.
Definition demo_state (sz : nat) : vmst ram :=
  VmSt (replicate sz 7) mwc_init 0 0 0 None 0 0 statics_init [].

#[export] Instance demo_pf_sound : SoundPlatform demo_pf.
Proof. by split. Qed.

Lemma demo_run : sound_run demo_pf 1 4096.
Proof.
  split; [by apply (good_pow2 _ 12)|done|]. intros k g t _.
  replace (4096 / 4096)%nat with 1%nat by (symmetry; apply Nat.div_same; lia).
  reflexivity.
Qed.

Lemma demo_wf : statics_wf statics_init.
Proof. by vm_compute. Qed.

Lemma vm_methods_sound_witness :
  passes (stress_vm_galpat_zero demo_pf 1 4096 0) (demo_state 4096).
Proof.
  apply (vm_methods_sound demo_pf 1 4096 0 (demo_state 4096) "galpat-0");
    [exact demo_run|apply length_replicate|exact demo_wf|right; left|split; reflexivity].
Defined.

Lemma vm_methods_interruptible_witness :
  Forall (fun m => passes (m.2 64%nat 3) (demo_state 64))
    (filter (fun m => m.1 ∉ fragile) (vm_methods_rest demo_pf 1)).
Proof.
  apply (vm_methods_interruptible demo_pf);
    [by exists 1%nat|apply (covers_pow2 6); lia|done|reflexivity|exact demo_wf].
Defined.

Lemma stress_vm_all_rotates_witness :
  exists s', all_runs demo_pf 30 1 4096 (demo_state 4096) = (Go (replicate 30 0), s') /\
    fails s' = [] /\ all_i (vars s') = 6%nat.
Proof.
  apply (stress_vm_all_rotates demo_pf 30 1 4096 (demo_state 4096));
    [exact demo_run|apply length_replicate|reflexivity|exact demo_wf|simpl; lia].
Defined.
