(* ===== verification/VmFaults.v ===== *)
(** * What the stressors detect, and the alarms that are false

    Memory with stuck bits: zero-one counts them exactly, and the walking bits
    find every byte that has one.  Sound memory: the sizes and the interruptions
    for which a stressor reports errors that are not there. *)

From S2P Require Import Prelude Mwc VmState VmMethods VmLogic VmProofs VmPatterns VmBits VmPrime VmAll.

Section Faults.
Context (stuck1 stuck0 : nat -> Z).
Context (H1 : forall i, fits 8 (stuck1 i)) (H0 : forall i, fits 8 (stuck0 i)).
Context (Hdis : forall i, stuck1 i .& stuck0 i = 0).
Abbreviation M := (faulty stuck1 stuck0).
Abbreviation rd := (faulty_read stuck1 stuck0).
Context (pf : platform M) `{!SoundPlatform pf}.

Lemma rd_fits i x : fits 8 x -> fits 8 (rd i x).
Proof.
  intros Hx. unfold faulty_read. apply fits_lor; [done| |apply H1].
  apply fits_of_bits; [done| |].
  - apply Z.ldiff_nonneg. unfold fits in Hx. lia.
  - intros k Hk. rewrite Z.ldiff_spec. by rewrite (fits_testbit_high 8 x).
Qed.

(** ** The rules of the accesses *)

Lemma tri_st_faulty E R n fl ns F g e v i x :
  (i < n)%nat ->
  triple E R (At n fl ns F g e v) (st i x : vm M unit)
    (fun _ => At n fl ns (fill i 1 (fun i => rd i (u8 x)) F) g e v).
Proof.
  intros Hi s (Hfr & HF & Hr). pose proof Hfr as (Hn & Hfl & Hns). unfold st.
  rewrite Hn, decide_True by done. simpl. repeat split; simpl; try done; try apply Hr.
  - rewrite length_insert. apply Hn.
  - intros j Hj. unfold fill. simpl in Hn. case_decide as Hd.
    + replace j with i by lia. rewrite list_lookup_insert_eq by lia. simpl.
      apply u8_small, rd_fits, u8_fits.
    + rewrite list_lookup_insert_ne by lia. by apply (HF j).
Qed.

Lemma tri_memset_faulty E R n fl ns F g e v x :
  triple E R (At n fl ns F g e v) (memset 0 n x : vm M unit)
    (fun _ => At n fl ns (fun i => rd i (u8 x)) g e v).
Proof.
  unfold memset. eapply triple_conseq; [apply (triple_for_upto E R
    (fun k => At n fl ns (fill 0 k (fun i => rd i (u8 x)) F) g e v) n)| |].
  - intros k Hk. eapply triple_post; [|by apply tri_st_faulty].
    intros ? s. apply At_ext. intros i Hi. unfold fill. repeat case_decide; auto; lia.
  - intros s. apply At_ext. intros i Hi. by rewrite fill_out by lia.
  - intros ? s. apply At_ext. intros i Hi. by rewrite fill_in by lia.
Qed.

(** ** zero-one counts the stuck bits *)

Lemma rd_zero i : rd i 0 = stuck1 i.
Proof. unfold faulty_read. by rewrite Z.ldiff_0_l, Z.lor_0_l. Qed.

Lemma rd_ones i : not8 (rd i 255) = stuck0 i.
Proof.
  apply Z.bits_inj'. intros k Hk. unfold not8, u8, faulty_read.
  rewrite mod_pow2_testbit, Z.lnot_spec, Z.lor_spec, Z.ldiff_spec by lia.
  destruct (Z.ltb_spec k 8); simpl.
  - rewrite (Z.ones_spec_low 8) by lia.
    pose proof (f_equal (fun z => Z.testbit z k) (Hdis i)) as Hd. cbv beta in Hd.
    rewrite Z.land_spec, Z.bits_0 in Hd.
    destruct (Z.testbit (stuck1 i) k), (Z.testbit (stuck0 i) k); done.
  - symmetry. apply (fits_testbit_high 8); [done|apply H0|lia].
Qed.

Lemma bits_line G n m k :
  n = (64 * m)%nat -> (k < m)%nat ->
  bits G 0 (64 * S k) = bits G 0 (64 * k) + bits G (64 * k) 64 /\
  bits G 0 (64 * S k) <= bits G 0 n /\ 0 <= bits G 0 (64 * k).
Proof.
  intros Hn Hk. repeat split.
  - replace (64 * S k)%nat with (64 * k + 64)%nat by lia. apply bits_app.
  - replace n with (64 * S k + (n - 64 * S k))%nat by lia. rewrite bits_app.
    pose proof (bits_bounds G (0 + 64 * S k) (n - 64 * S k)). lia.
  - apply bits_bounds.
Qed.

(** an uninterrupted counting pass over a buffer that reads as [F] *)
Lemma tri_zero_one_pass E R n m fl g v f h F e :
  views f h -> (forall i, fits 8 (F i)) -> n = (64 * m)%nat -> 0 <= e ->
  e + bits (fun i => h (F i)) 0 n < 2 ^ 64 ->
  triple E R (At n fl true F g e v)
    (for_list (lines n) (fun ptr => zero_one_line f ptr;; poll_abort) : vm M unit)
    (fun _ => At n fl true F g (e + bits (fun i => h (F i)) 0 n) v).
Proof.
  intros Hv HF Hn He Hlt. unfold lines. rewrite Hn, strided_blocks by lia. rewrite <- Hn.
  eapply triple_conseq; [apply (triple_for_seq E R
    (fun k => At n fl true F g (e + bits (fun i => h (F i)) 0 (64 * k)) v) _ m)| |].
  - intros k Hk. destruct (bits_line (fun i => h (F i)) n m k Hn Hk) as (Hs & Hle & Hge).
    eapply triple_seq; [apply (tri_zero_one_line _ _ _ _ _ _ _ f h Hv F HF); lia|].
    eapply triple_post; [|by apply tri_poll_abort]. intros ? s. by rewrite Hs, Z.add_assoc.
  - intros s. by rewrite Z.add_0_r.
  - intros ? s. by rewrite <- Hn.
Qed.

Lemma tri_zero_one_break E R n m fl g v f h F e :
  views f h -> (forall i, fits 8 (F i)) -> n = (64 * m)%nat -> 0 <= e ->
  e + bits (fun i => h (F i)) 0 n < 2 ^ 64 ->
  triple E R (At n fl true F g e v)
    (for_break (lines n) (fun ptr => zero_one_line f ptr;; poll) : vm M unit)
    (fun _ => At n fl true F g (e + bits (fun i => h (F i)) 0 n) v).
Proof.
  intros Hv HF Hn He Hlt. unfold lines. rewrite Hn, strided_blocks by lia. rewrite <- Hn.
  eapply triple_pre; [|apply (triple_for_break E R
    (fun k => At n fl true F g (e + bits (fun i => h (F i)) 0 (64 * k)) v) _ _ m)].
  - intros s. by rewrite Z.add_0_r.
  - intros k Hk. destruct (bits_line (fun i => h (F i)) n m k Hn Hk) as (Hs & Hle & Hge).
    eapply triple_seq; [apply (tri_zero_one_line _ _ _ _ _ _ _ f h Hv F HF); lia|].
    eapply triple_post; [|apply tri_poll]. intros b s [Hb Hs']. rewrite Hb by done.
    by rewrite Hs, Z.add_assoc.
  - intros s. by rewrite <- Hn.
Qed.

Lemma zero_one_stuck_bits sz (s : vmst M) max_ops :
  msize (mem s) = sz -> (64 | sz)%nat -> Z.of_nat sz < 2 ^ 59 -> stop s = None ->
  exists s', stress_vm_zero_one pf sz max_ops s = (Go (bits stuck1 0 sz + bits stuck0 0 sz), s').
Proof.
  intros Hsz [m Hm] Hlt Hst. unfold stress_vm_zero_one. apply with_abort_returns. intros F g.
  rewrite Hsz, Hst, bool_decide_eq_true_2 by done.
  assert (bits (fun i => u8 (rd i (u8 0))) 0 sz = bits stuck1 0 sz) as B1.
  { apply bits_ext. intros i _. change (u8 0) with 0. rewrite rd_zero. by apply u8_small. }
  assert (bits (fun i => not8 (rd i (u8 255))) 0 sz = bits stuck0 0 sz) as B0.
  { apply bits_ext. intros i _. apply rd_ones. }
  pose proof (bits_bounds stuck1 0 sz). pose proof (bits_bounds stuck0 0 sz).
  eapply triple_seq; [apply tri_memset_faulty|]. do 3 vstep.
  eapply triple_seq; [apply (tri_zero_one_pass _ _ _ m _ _ _ _ u8); [apply views_id| |lia|lia|]|].
  { intros i. by apply rd_fits, u8_fits. }
  { rewrite B1. lia. }
  eapply triple_seq; [apply tri_memset_faulty|]. do 3 vstep. rewrite B1.
  eapply triple_post; [|apply (tri_zero_one_break _ _ _ m _ _ _ _ not8); [apply views_not| |lia|lia|]].
  - intros ? s' (_ & _ & _ & He & _). by rewrite He, B0.
  - intros i. by apply rd_fits, u8_fits.
  - rewrite B0. lia.
Qed.

(** (C2) An uninterrupted zero-one run on memory with stuck bits returns the
    number of bits stuck at one plus the number of bits stuck at zero. *)
Theorem zero_one_counts_stuck_bits sz (s : vmst M) max_ops :
  msize (mem s) = sz -> (64 | sz)%nat -> Z.of_nat sz < 2 ^ 59 -> stop s = None ->
  exists s', stress_vm_zero_one pf sz max_ops s = (Go (bits stuck1 0 sz + bits stuck0 0 sz), s').
Proof. apply zero_one_stuck_bits. Qed.

(** ** The walking bits find the stuck bits *)

(** the values of [vals] that the byte [i] does not keep *)
Definition misses (vals : list Z) (i : nat) : Z :=
  foldr (fun x a => b2z (negb (rd i x =? x)) + a) 0 vals.

Definition all_misses (vals : list Z) (p k : nat) : Z :=
  foldr (fun i a => misses vals i + a) 0 (seq p k).

Lemma misses_bounds vals i : 0 <= misses vals i <= Z.of_nat (length vals).
Proof.
  unfold misses. induction vals as [|x vals IH]; cbn [foldr length]; [lia|].
  pose proof (b2z_bounds (negb (rd i x =? x))). lia.
Qed.

Lemma misses_snoc vals x i : misses (vals ++ [x]) i = misses vals i + b2z (negb (rd i x =? x)).
Proof.
  induction vals as [|y vals IH]; unfold misses in *; cbn [app foldr]; [lia|]. rewrite IH. lia.
Qed.

Lemma all_misses_S vals k : all_misses vals 0 (S k) = all_misses vals 0 k + misses vals k.
Proof.
  unfold all_misses. rewrite seq_S. change (0 + k)%nat with k.
  generalize (seq 0 k). intros l. induction l as [|i l IH]; cbn [app foldr]; [lia|]. rewrite IH. lia.
Qed.

Lemma all_misses_bounds vals k :
  0 <= all_misses vals 0 k <= Z.of_nat (length vals) * Z.of_nat k.
Proof.
  induction k as [|k IH]; [unfold all_misses; simpl; lia|]. rewrite all_misses_S.
  pose proof (misses_bounds vals k). lia.
Qed.

Lemma tri_set_and_test_faulty E R n fl ns F g e v p x :
  (p < n)%nat -> fits 8 x -> 0 <= e < 2 ^ 63 ->
  triple E R (At n fl ns F g e v) (SET_AND_TEST p x : vm M unit)
    (fun _ s => exists G, At n fl ns G g (e + b2z (negb (rd p x =? x))) v s).
Proof.
  intros Hp Hx He. eapply triple_seq; [by apply tri_st_faulty|].
  eapply triple_bind_eq; [by apply tri_ld|]. rewrite fill_in by lia. rewrite u8_small by done.
  eapply triple_post; [|apply tri_add]. intros ? s Hs. eexists.
  rewrite u64_small in Hs; [exact Hs|]. pose proof (b2z_bounds (negb (rd p x =? x))). unfold fits. lia.
Qed.

Lemma walking_data_counts name vals sz (s : vmst M) :
  Forall (fits 8) vals -> length vals = 8%nat ->
  msize (mem s) = sz -> Z.of_nat sz < 2 ^ 59 -> stop s = None ->
  exists s', walking_data pf name vals sz 0 s = (Go (all_misses vals 0 sz), s').
Proof.
  intros Hvals Hlen Hsz Hlt Hst. apply with_abort_returns. intros F g.
  rewrite Hsz, Hst, bool_decide_eq_true_2 by done.
  replace (strided 0 sz 1) with (strided 0 (1 * sz) 1) by (f_equal; lia).
  rewrite strided_blocks by lia.
  eapply triple_conseq with (P := fun s' => exists G, At sz (fails s) true G g 0 (vars s) s')
    (Q := fun _ s' => exists G, At sz (fails s) true G g (all_misses vals 0 sz) (vars s) s').
  2: { intros s' Hs'. by exists F. }
  2: { intros ? s' (G & _ & _ & _ & He & _). exact He. }
  apply (triple_for_break _ _ (fun k s' =>
    exists G, At sz (fails s) true G g (all_misses vals 0 k) (vars s) s')); [|done].
  intros k Hk. rewrite Nat.mul_1_l. pose proof (all_misses_bounds vals k) as Hb. rewrite Hlen in Hb.
  eapply triple_seq.
  - eapply triple_pre; [|apply (triple_for_list _ _ (fun j s' => exists G,
      At sz (fails s) true G g (all_misses vals 0 k + misses (take j vals) k) (vars s) s'))].
    { intros s' [G HG]. exists G. cbn. by rewrite Z.add_0_r. }
    intros j x Hx. apply triple_exists. intros G.
    pose proof (misses_bounds (take j vals) k) as Hmb. rewrite length_take in Hmb.
    eapply triple_post; [|apply tri_set_and_test_faulty; [done| |lia]].
    + intros ? s' [G' HG']. exists G'. rewrite (take_S_r _ _ _ Hx), misses_snoc, Z.add_assoc.
      exact HG'.
    + by eapply Forall_lookup_1 in Hvals.
  - apply triple_exists. intros G. rewrite firstn_all, <- all_misses_S.
    eapply triple_bind; [apply tri_count|]. intros b. apply triple_pure. intros Hb0.
    rewrite Hb0 by done. eapply triple_post; [|apply tri_poll].
    intros b' s' [Hb' Hs']. rewrite Hb' by done. by exists G.
Qed.

(** every bit line is driven high and low by the values *)
Definition drives (vals : list Z) : Prop :=
  forall b, 0 <= b < 8 ->
    (exists x, x ∈ vals /\ Z.testbit x b = true) /\ (exists x, x ∈ vals /\ Z.testbit x b = false).

Lemma misses_pos vals i x : x ∈ vals -> rd i x <> x -> 0 < misses vals i.
Proof.
  intros Hx Hne. induction vals as [|y vals IH]; [by apply not_elem_of_nil in Hx|].
  pose proof (misses_bounds vals i). unfold misses in *. cbn [foldr].
  apply elem_of_cons in Hx as [<-|Hx].
  - destruct (Z.eqb_spec (rd i x) x); [done|]. simpl. lia.
  - specialize (IH Hx). pose proof (b2z_bounds (negb (rd i y =? y))). lia.
Qed.

Lemma misses_zero vals i : stuck1 i = 0 -> stuck0 i = 0 -> misses vals i = 0.
Proof.
  intros E1 E0. induction vals as [|x vals IH]; [done|]. unfold misses in *. cbn [foldr].
  unfold faulty_read at 1. rewrite E1, E0, Z.ldiff_0_r, Z.lor_0_r, Z.eqb_refl. simpl. done.
Qed.

Lemma nonzero_bit x : fits 8 x -> x <> 0 -> exists b, 0 <= b < 8 /\ Z.testbit x b = true.
Proof.
  intros Hx Hne. exists (Z.log2 x). unfold fits in Hx. split; [|apply Z.bit_log2; lia].
  split; [apply Z.log2_nonneg|]. apply Z.log2_lt_pow2; lia.
Qed.

Lemma drives_detects vals i :
  drives vals -> (stuck1 i <> 0 \/ stuck0 i <> 0) -> 0 < misses vals i.
Proof.
  intros Hd [Hs|Hs];
    [destruct (nonzero_bit _ (H1 i) Hs) as (b & Hb & Ht)
    |destruct (nonzero_bit _ (H0 i) Hs) as (b & Hb & Ht)].
  - destruct (Hd b Hb) as [_ (x & Hx & Hxb)]. apply (misses_pos _ _ x Hx).
    intros Heq%(f_equal (fun z => Z.testbit z b)). cbv beta in Heq. unfold faulty_read in Heq.
    rewrite Z.lor_spec, Ht, Hxb, orb_true_r in Heq. done.
  - destruct (Hd b Hb) as [(x & Hx & Hxb) _]. apply (misses_pos _ _ x Hx).
    intros Heq%(f_equal (fun z => Z.testbit z b)). cbv beta in Heq. unfold faulty_read in Heq.
    pose proof (f_equal (fun z => Z.testbit z b) (Hdis i)) as Hdd. cbv beta in Hdd.
    rewrite Z.land_spec, Z.bits_0, Ht, andb_true_r in Hdd.
    rewrite Z.lor_spec, Z.ldiff_spec, Ht, Hxb, Hdd in Heq. done.
Qed.

Lemma all_misses_zero vals k :
  drives vals ->
  all_misses vals 0 k = 0 <-> forall i, (i < k)%nat -> stuck1 i = 0 /\ stuck0 i = 0.
Proof.
  intros Hd. induction k as [|k IH].
  - split; [lia|done].
  - rewrite all_misses_S. pose proof (all_misses_bounds vals k). pose proof (misses_bounds vals k).
    split.
    + intros Hz i Hi. destruct (decide (i = k)) as [->|Hne].
      * destruct (decide (stuck1 k = 0)), (decide (stuck0 k = 0)); [done|..];
          pose proof (drives_detects vals k Hd); intuition lia.
      * apply IH; lia.
    + intros Hall. rewrite misses_zero by (apply Hall; lia).
      rewrite (proj2 IH); [done|]. intros i Hi. apply Hall. lia.
Qed.

Lemma walking_one_drives : drives [0x01; 0x02; 0x04; 0x08; 0x10; 0x20; 0x40; 0x80].
Proof.
  intros b Hb. assert (b = 0 \/ b = 1 \/ b = 2 \/ b = 3 \/ b = 4 \/ b = 5 \/ b = 6 \/ b = 7) as Hc by lia.
  split.
  - exists (1 <<< b). repeat destruct Hc as [->|Hc]; subst; split; try done; cbn;
      rewrite ?elem_of_cons; tauto.
  - destruct (decide (b = 0)) as [->|Hne]; [exists 2|exists 1]; (split; [rewrite !elem_of_cons; tauto|]).
    + done.
    + repeat destruct Hc as [->|Hc]; subst; done.
Qed.

Lemma walking_zero_drives : drives [0xfe; 0xfd; 0xfb; 0xf7; 0xef; 0xdf; 0xbf; 0x7f].
Proof.
  intros b Hb. assert (b = 0 \/ b = 1 \/ b = 2 \/ b = 3 \/ b = 4 \/ b = 5 \/ b = 6 \/ b = 7) as Hc by lia.
  split.
  - destruct (decide (b = 0)) as [->|Hne]; [exists 0xfd|exists 0xfe]; (split; [rewrite !elem_of_cons; tauto|]).
    + done.
    + repeat destruct Hc as [->|Hc]; subst; done.
  - exists (255 .^ (1 <<< b)). repeat destruct Hc as [->|Hc]; subst; split; try done; cbn;
      rewrite ?elem_of_cons; tauto.
Qed.

Lemma walking_detects name vals sz (s : vmst M) :
  Forall (fits 8) vals -> length vals = 8%nat -> drives vals ->
  msize (mem s) = sz -> Z.of_nat sz < 2 ^ 59 -> stop s = None ->
  exists e s', walking_data pf name vals sz 0 s = (Go e, s') /\
    (e = 0 <-> forall i, (i < sz)%nat -> stuck1 i = 0 /\ stuck0 i = 0).
Proof.
  intros Hv Hl Hd Hsz Hlt Hst.
  destruct (walking_data_counts name vals sz s Hv Hl Hsz Hlt Hst) as [s' Hs'].
  exists (all_misses vals 0 sz), s'. split; [done|]. by apply all_misses_zero.
Qed.

(** Uninterrupted, the two walking data stressors report errors exactly
    when a byte of the buffer has a stuck bit: no stuck data line escapes. *)
Theorem walking_data_detects sz (s : vmst M) (func : nat -> Z -> vm M Z) :
  msize (mem s) = sz -> Z.of_nat sz < 2 ^ 59 -> stop s = None ->
  func ∈ [stress_vm_walking_one_data pf; stress_vm_walking_zero_data pf] ->
  exists e s', func sz 0 s = (Go e, s') /\
    (e = 0 <-> forall i, (i < sz)%nat -> stuck1 i = 0 /\ stuck0 i = 0).
Proof.
  intros Hsz Hlt Hst Hf. rewrite !elem_of_cons, elem_of_nil in Hf.
  destruct Hf as [->|[->|[]]]; apply walking_detects; try done; try (repeat constructor; done).
  - apply walking_one_drives.
  - apply walking_zero_drives.
Qed.

End Faults.

(** *** Witnesses: 64 bytes with bit 3 of byte 5 stuck at one and bit 0 of byte 9
    stuck at zero *)

Definition demo_stuck1 (i : nat) : Z := if decide (i = 5)%nat then 8 else 0.
Definition demo_stuck0 (i : nat) : Z := if decide (i = 9)%nat then 1 else 0.
Definition demo_fault_pf : platform (faulty demo_stuck1 demo_stuck0) :=
  Platform 4096 (fun _ r => r) (fun _ m => m) true true.
Definition demo_fault_state : vmst (faulty demo_stuck1 demo_stuck0) :=
  VmSt (Faulty (replicate 64 7)) mwc_init 0 0 0 None 0 0 statics_init [].

#[export] Instance demo_fault_pf_sound : SoundPlatform demo_fault_pf.
Proof. by split. Qed.

Lemma demo_stuck_ok :
  (forall i, fits 8 (demo_stuck1 i)) /\ (forall i, fits 8 (demo_stuck0 i)) /\
  (forall i, demo_stuck1 i .& demo_stuck0 i = 0).
Proof.
  unfold demo_stuck1, demo_stuck0.
  split; [|split]; intros i; repeat case_decide; subst; done.
Qed.

Lemma zero_one_counts_stuck_bits_witness :
  exists s', stress_vm_zero_one demo_fault_pf 64 0 demo_fault_state = (Go 2, s').
Proof.
  destruct demo_stuck_ok as (H1 & H0 & Hd).
  apply (zero_one_counts_stuck_bits _ _ H1 H0 Hd demo_fault_pf 64 demo_fault_state 0);
    [reflexivity|by exists 1%nat|done|reflexivity].
Defined.

Lemma walking_data_detects_witness :
  exists e s', stress_vm_walking_one_data demo_fault_pf 64 0 demo_fault_state = (Go e, s') /\
    (e = 0 <-> forall i, (i < 64)%nat -> demo_stuck1 i = 0 /\ demo_stuck0 i = 0).
Proof.
  destruct demo_stuck_ok as (H1 & H0 & Hd).
  apply (walking_data_detects _ _ H1 H0 Hd demo_fault_pf 64 demo_fault_state);
    [reflexivity|done|reflexivity|left].
Defined.

(** ** False alarms *)

Section FalseAlarms.
Context {M : Type} `{!MemDevice M} `{!Healthy M} (pf : platform M) `{!SoundPlatform pf}.

(** An uninterrupted run of prime-0 over sound memory returns 8 errors
    for each byte that the walk in steps of [PRIME_64] does not visit. *)
Theorem prime_zero_counts_unvisited sz (s : vmst M) :
  msize (mem s) = sz -> Z.of_nat sz < 2 ^ 60 -> stop s = None ->
  exists s', stress_vm_prime_zero pf sz 0 s = (Go (8 * Z.of_nat (unvisited sz)), s').
Proof. by apply (prime_zero_errors pf). Qed.

(** (C39) So prime-0 reports errors of sound memory whenever the buffer is a
    multiple of 491 pages of 4096 bytes (and at most 32 GiB). *)
Theorem prime_zero_false_alarm pages sz (s : vmst M) :
  Z.of_nat sz = 4096 * (491 * pages) -> 0 < pages -> Z.of_nat sz <= 2 ^ 35 ->
  msize (mem s) = sz -> stop s = None ->
  exists e s', stress_vm_prime_zero pf sz 0 s = (Go e, s') /\ 0 < e.
Proof.
  intros Hsz Hp Hmax Hm Hst.
  destruct (prime_zero_errors pf sz s Hm) as [s' Hs']; [lia|done|].
  exists (8 * Z.of_nat (unvisited sz)), s'. split; [done|].
  assert (0 < unvisited sz)%nat; [|lia]. apply unvisited_491_pages; [|lia|done].
  exists (4096 * pages). lia.
Qed.

End FalseAlarms.

Lemma prime_zero_counts_unvisited_witness :
  unvisited 48 = 2%nat /\
  exists s', stress_vm_prime_zero demo_pf 48 0 (demo_state 48) =
    (Go (8 * Z.of_nat (unvisited 48)), s').
Proof.
  split; [vm_compute; reflexivity|].
  apply (prime_zero_counts_unvisited demo_pf 48 (demo_state 48)); [reflexivity|done|reflexivity].
Defined.

Lemma prime_zero_false_alarm_witness :
  exists e s', stress_vm_prime_zero demo_pf (Z.to_nat 2011136) 0
    (demo_state (Z.to_nat 2011136)) = (Go e, s') /\ 0 < e.
Proof.
  apply (prime_zero_false_alarm demo_pf 1 (Z.to_nat 2011136) (demo_state (Z.to_nat 2011136)));
    [by rewrite Z2Nat.id|done|by rewrite Z2Nat.id|apply length_replicate|reflexivity].
Defined.
