(* ===== verification/VmDriver.v ===== *)
(** * Driving a memory stressor (stress-vm.c, sgx/enclave_vm/trusted/vm.c)

    The loop that allocates the buffer, touches it, runs the chosen stressor
    and adds up the bit errors is the same in [stress_vm()], where the buffer is
    mapped by a child process, and in [ecall_stress_vm()], where it is allocated
    in the enclave.  It is modelled once, over what differs: whether the flag is
    looked at before an allocation, and where the memory comes from.  Then
    [stress_vm()] itself: the parent that restarts a child the kernel kills for
    lack of memory, and its verdict. *)

From S2P Require Import Prelude Limits Mwc VmState VmMethods VmTame VmLogic VmProofs VmBits VmPrime VmAll VmFaults.

Definition VM_BOGO_SHIFT : Z := 12.
Definition NO_MEM_RETRIES_MAX : Z := 100.

(** the size of the buffer: whole pages *)
Definition buf_sz_of (vm_bytes page_size : Z) : Z := vm_bytes .& not64 (page_size - 1).

(** ** The loop *)

Section Loop.
Context {M : Type} `{!MemDevice M} (pf : platform M).
Variable gate : vm M bool.                 (** the flag before an allocation *)
Variable alloc : nat -> option M.          (** the results of the allocations *)
Variable func : nat -> Z -> vm M Z.
Variable (keep : bool) (buf_sz : nat) (max_ops vm_hang : Z).

Record lstate := LState {
  vs : vmst M;
  mapped : bool;             (** [buf != NULL] *)
  no_mem_retries : Z;
  allocs : nat;              (** allocations tried *)
  bit_error_count : Z        (** the shared counter *)
}.

Definition keep_stressing_vm : vm M bool :=
  b ← poll;
  if b : bool
  then gets (fun s => negb (c_true max_ops) || (counter s >>> VM_BOGO_SHIFT <? max_ops))
  else mret false.

Inductive round_end :=
| RNext (l : lstate)   (** on to the loop condition *)
| RStop (l : lstate)   (** [break] or [return] *)
| RHang (l : lstate)   (** asleep for ever *)
| RBad.                (** the stressor left the buffer *)

Definition use_buffer (s : vmst M) (l : lstate) : round_end :=
  match (vm_touch pf;; func buf_sz (u64 (max_ops <<< VM_BOGO_SHIFT))) s with
  | (Go v, s) =>
      let l := LState s true 0 (allocs l) (u64 (bit_error_count l + v)) in
      if vm_hang =? 0 then RHang l else RNext l
  | _ => RBad
  end.

Definition stress_round (l : lstate) : round_end :=
  if NO_MEM_RETRIES_MAX <=? no_mem_retries l then RStop l
  else if negb keep || negb (mapped l) then
    match gate (vs l) with
    | (Go false, s) => RStop (LState s (mapped l) (no_mem_retries l) (allocs l) (bit_error_count l))
    | (Go true, s) =>
        match alloc (allocs l) with
        | None => RNext (LState s false (no_mem_retries l + 1) (S (allocs l)) (bit_error_count l))
        | Some m => use_buffer (set_mem m s) (LState s true (no_mem_retries l) (S (allocs l)) (bit_error_count l))
        end
    | _ => RBad
    end
  else use_buffer (vs l) l.

Inductive loop_end :=
| LRunning (l : lstate) | LDone (l : lstate) | LHang (l : lstate) | LBad.

(** at most [n] rounds *)
Fixpoint stress_rounds (n : nat) (l : lstate) : loop_end :=
  match n with
  | O => LRunning l
  | S n =>
      match stress_round l with
      | RStop l => LDone l
      | RHang l => LHang l
      | RBad => LBad
      | RNext l =>
          match keep_stressing_vm (vs l) with
          | (Go true, s) => stress_rounds n (LState s (mapped l) (no_mem_retries l) (allocs l) (bit_error_count l))
          | (Go false, s) => LDone (LState s (mapped l) (no_mem_retries l) (allocs l) (bit_error_count l))
          | _ => LBad
          end
      end
  end.

(** the state a loop is in, wherever it is *)
Definition loop_state (e : loop_end) : option lstate :=
  match e with LRunning l | LDone l | LHang l => Some l | LBad => None end.
Definition finished (e : loop_end) : bool := match e with LDone _ => true | _ => false end.
End Loop.

Arguments LState {M}. Arguments vs {M}. Arguments mapped {M}. Arguments no_mem_retries {M}.
Arguments allocs {M}. Arguments bit_error_count {M}.
Arguments LRunning {M}. Arguments LDone {M}. Arguments LHang {M}. Arguments LBad {M}.
Arguments loop_state {M}. Arguments finished {M}.
Arguments RNext {M}. Arguments RStop {M}. Arguments RHang {M}. Arguments RBad {M}.

(** ** stress_vm() *)

(** how a child ends, as the parent's [waitpid] sees it *)
Inductive fate := Exited | OomKilled | OtherSignal | WaitFailed.

#[global] Instance fate_eq_dec : EqDecision fate.
Proof. solve_decision. Defined.

(** what happens at a pass of the label [again]; [D] describes a child *)
Inductive vm_event (D : Type) :=
| ForkAgain
| ForkError
| Child (d : D) (f : fate).
Arguments ForkAgain {D}. Arguments ForkError {D}. Arguments Child {D}.

Inductive vm_result :=
| VReturns (ret counter : Z)
| VRunning
| VBad.

(** the label [clean_up] *)
Definition clean_up (cnt errs : Z) : vm_result :=
  VReturns (if 0 <? errs then EXIT_FAILURE else EXIT_SUCCESS) (cnt >>> VM_BOGO_SHIFT).

Section Parent.
Context {M D : Type}.
(** the child's loop, from the shared counters it finds *)
Variable run : D -> Z -> Z -> nat -> loop_end (M := M).

(** from the label [again]: each event comes with the flag as the parent reads
    it; a child that exits has left its loop *)
Fixpoint vm_parent (evs : list (bool * vm_event D)) (cnt errs : Z) (maps : nat) : vm_result :=
  match evs with
  | [] => VRunning
  | (flag, ev) :: evs =>
      if negb flag then clean_up cnt errs
      else
        match ev with
        | ForkAgain => vm_parent evs cnt errs maps
        | ForkError => clean_up cnt errs
        | Child d f =>
            let e := run d cnt errs maps in
            match loop_state e with
            | None => VBad
            | Some l =>
                match f with
                | OomKilled => vm_parent evs (counter (vs l)) (bit_error_count l) (allocs l)
                | OtherSignal | WaitFailed => clean_up (counter (vs l)) (bit_error_count l)
                | Exited => if finished e then clean_up (counter (vs l)) (bit_error_count l) else VRunning
                end
            end
        end
  end.

(** a history in which no child is waited for that has not ended *)
Definition settled (evs : list (bool * vm_event D)) : Prop :=
  Forall (fun e => match e.2 with Child _ Exited => False | _ => True end) evs.

(** a child that finds no error and adds none leaves a parent that succeeds *)
Lemma vm_parent_clean evs cnt maps :
  (forall d cnt maps, exists l, loop_state (run d cnt 0 maps) = Some l /\ bit_error_count l = 0) ->
  match vm_parent evs cnt 0 maps with
  | VReturns ret _ => ret = EXIT_SUCCESS
  | VRunning => True
  | VBad => False
  end /\
  (settled evs -> forall ev, exists cnt', vm_parent (evs ++ [(false, ev)]) cnt 0 maps = VReturns EXIT_SUCCESS cnt').
Proof.
  intros Hchild. revert cnt maps.
  induction evs as [|[flag ev] evs IH]; intros cnt maps; cbn [vm_parent app].
  { split; [done|]. intros _ ev. by eexists. }
  destruct flag; cbn [negb]; [|split; [done|intros; by eexists]].
  destruct ev as [| |d f]; [|split; [done|intros; by eexists]|].
  { destruct (IH cnt maps) as [H1 H2]. split; [done|]. intros Hs. inversion Hs; subst. by apply H2. }
  destruct (Hchild d cnt maps) as (l & -> & He). rewrite He. destruct f.
  - split; [by destruct (finished _)|]. intros Hs. by inversion Hs.
  - destruct (IH (counter (vs l)) (allocs l)) as [H1 H2]. split; [done|]. intros Hs. inversion Hs; subst. by apply H2.
  - split; [done|intros; by eexists].
  - split; [done|intros; by eexists].
Qed.

(** a child that leaves an error makes the parent fail, unless it is restarted or goes on *)
Lemma vm_parent_fails d f evs cnt errs maps l :
  loop_state (run d cnt errs maps) = Some l -> 0 < bit_error_count l -> f <> OomKilled ->
  vm_parent ((true, Child d f) :: evs) cnt errs maps =
    if bool_decide (f = Exited) && negb (finished (run d cnt errs maps)) then VRunning
    else VReturns EXIT_FAILURE (counter (vs l) >>> VM_BOGO_SHIFT).
Proof.
  intros Hl He Hf. cbn [vm_parent negb]. rewrite Hl. unfold clean_up.
  assert ((0 <? bit_error_count l) = true) as -> by lia. destruct f; try done. by destruct (finished _).
Qed.
End Parent.

Section Driver.
Context {M : Type} `{!MemDevice M} (pf : platform M).
Variable alloc : nat -> option M.
Variable func : nat -> Z -> vm M Z.
Variable (keep : bool) (buf_sz : nat) (max_ops vm_hang : Z).

(** a child starts with the parent's variables, the shared operation counter
    and error counter, and its own alarm *)
Definition child_state (s0 : vmst M) (stp : option nat) (cnt errs : Z) (maps : nat) : lstate (M := M) :=
  LState (set_stop stp (set_counter cnt s0)) false 0 maps errs.

(** the polls before the child's alarm, the rounds it makes *)
Definition child_run (s0 : vmst M) (d : option nat * nat) (cnt errs : Z) (maps : nat) : loop_end (M := M) :=
  stress_rounds pf poll alloc func keep buf_sz max_ops vm_hang d.2 (child_state s0 d.1 cnt errs maps).

(** [counter_ok]: one of the tries to map the page of the error counter succeeds *)
Definition stress_vm (counter_ok : bool) (s0 : vmst M) (evs : list (bool * vm_event (option nat * nat))) : vm_result :=
  if negb counter_ok then VReturns EXIT_NO_RESOURCE (counter s0)
  else vm_parent (child_run s0) evs (counter s0) 0 0.
End Driver.

(** ** No false alarm *)

Section Sound.
Context {M : Type} `{!MemDevice M} `{!Healthy M} (pf : platform M) `{!SoundPlatform pf}.
Variable gate : vm M bool.
Variable alloc : nat -> option M.
Variable func : nat -> Z -> vm M Z.
Variable (keep : bool) (buf_sz : nat) (max_ops vm_hang : Z).

(** looking at the flag changes nothing but the countdown to the alarm *)
Definition only_stop (g : vm M bool) : Prop := forall s, exists b x, g s = (Go b, set_stop x s).

Hypothesis Hgate : only_stop gate.
Hypothesis Hgate_tame : tame gate.
Hypothesis Halloc : forall k m, alloc k = Some m -> msize m = buf_sz.
(** the stressor gives no false alarm *)
Hypothesis Hfunc : forall s, msize (mem s) = buf_sz -> statics_wf (vars s) ->
  passes (func buf_sz (u64 (max_ops <<< VM_BOGO_SHIFT))) s.

Definition clean_loop (l : lstate) : Prop :=
  statics_wf (vars (vs l)) /\ bit_error_count l = 0 /\ (mapped l = true -> msize (mem (vs l)) = buf_sz).

Lemma use_buffer_clean s l :
  statics_wf (vars s) -> msize (mem s) = buf_sz -> bit_error_count l = 0 ->
  match use_buffer pf func buf_sz max_ops vm_hang s l with
  | RNext l' | RHang l' => clean_loop l'
  | _ => False
  end.
Proof.
  intros Hw Hm He. unfold use_buffer, mbind, vm_bind, vm_touch, modify. cbv beta iota.
  match goal with |- context [func buf_sz _ ?s'] => destruct (Hfunc s') as (s2 & -> & Hm2 & _ & Hw2 & _) end.
  - cbn. by rewrite touch_size.
  - done.
  - cbn in Hm2. rewrite touch_size in Hm2.
    assert (clean_loop (LState s2 true 0 (allocs l) (u64 (bit_error_count l + 0)))) as Hc.
    { split; [done|]. split; [cbn; by rewrite He|]. intros _. cbn. congruence. }
    by destruct (vm_hang =? 0).
Qed.

Lemma stress_round_clean l :
  clean_loop l ->
  match stress_round pf gate alloc func keep buf_sz max_ops vm_hang l with
  | RNext l' | RHang l' | RStop l' => clean_loop l'
  | RBad => False
  end.
Proof.
  intros (Hw & He & Hm). unfold stress_round. destruct (NO_MEM_RETRIES_MAX <=? no_mem_retries l); [done|].
  destruct (negb keep || negb (mapped l)) eqn:Hk.
  - destruct (Hgate (vs l)) as ([|] & x & ->); [|done].
    destruct (alloc (allocs l)) as [m|] eqn:Ha; [|done].
    pose proof (use_buffer_clean (set_mem m (set_stop x (vs l)))
      (LState (set_stop x (vs l)) true (no_mem_retries l) (S (allocs l)) (bit_error_count l)) Hw (Halloc _ _ Ha) He) as H.
    by destruct (use_buffer _ _ _ _ _ _ _).
  - apply orb_false_iff in Hk as [_ Hk%negb_false_iff]. pose proof (use_buffer_clean (vs l) l Hw (Hm Hk) He) as H.
    by destruct (use_buffer _ _ _ _ _ _ _).
Qed.

Lemma keep_stressing_only_stop : only_stop (keep_stressing_vm max_ops).
Proof.
  intros s. unfold keep_stressing_vm, mbind, vm_bind, poll, gets, mret, vm_ret.
  destruct s as [? ? ? ? ? st ? ? ? ?]; cbn. destruct st as [[|k]|]; by eexists _, _.
Qed.

Lemma stress_rounds_clean n l :
  clean_loop l ->
  exists l', loop_state (stress_rounds pf gate alloc func keep buf_sz max_ops vm_hang n l) = Some l' /\ clean_loop l'.
Proof.
  revert l. induction n as [|n IH]; intros l Hl; cbn [stress_rounds]; [by exists l|].
  pose proof (stress_round_clean l Hl) as Hr.
  destruct (stress_round _ _ _ _ _ _ _ _ l) as [l1|l1|l1|]; [|by exists l1..|done].
  destruct (keep_stressing_only_stop (vs l1)) as ([|] & x & ->); [|by eexists].
  by apply IH.
Qed.

(** *** the loop ends once the flag is cleared *)

Hypothesis Htame : forall mo, tame (func buf_sz mo).
Hypothesis Hhang : vm_hang <> 0.

Definition round_after (l : lstate (M := M)) (r : round_end (M := M)) : Prop :=
  match r with
  | RNext l' | RStop l' => stop_le (stop (vs l')) (stop (vs l))
  | RHang _ => False
  | RBad => True
  end.

Lemma use_buffer_stop s l0 l :
  stop_le (stop s) (stop (vs l0)) -> round_after l0 (use_buffer pf func buf_sz max_ops vm_hang s l).
Proof.
  intros Hs. unfold use_buffer.
  pose proof (tame_bind (vm_touch pf) (fun _ => func buf_sz (u64 (max_ops <<< VM_BOGO_SHIFT))) (tame_touch pf)
    (fun _ => Htame _) s) as Ht.
  destruct ((vm_touch pf;; func buf_sz (u64 (max_ops <<< VM_BOGO_SHIFT))) s) as [[v| |v| |] s']; try done.
  destruct (Z.eqb_spec vm_hang 0); [done|]. cbn in *. by etransitivity.
Qed.

Lemma stress_round_stop l : round_after l (stress_round pf gate alloc func keep buf_sz max_ops vm_hang l).
Proof.
  unfold stress_round. destruct (NO_MEM_RETRIES_MAX <=? no_mem_retries l); [cbn; reflexivity|].
  destruct (negb keep || negb (mapped l)); [|apply use_buffer_stop; reflexivity].
  pose proof (Hgate_tame (vs l)) as Hg. destruct (gate (vs l)) as [[[|]| |v| |] s]; try done. cbn [snd] in Hg.
  destruct (alloc (allocs l)); [by apply use_buffer_stop|done].
Qed.

Lemma stress_rounds_end k l :
  clean_loop l -> (exists j, stop (vs l) = Some j /\ (j <= k)%nat) ->
  exists l', stress_rounds pf gate alloc func keep buf_sz max_ops vm_hang (S k) l = LDone l' /\ clean_loop l'.
Proof.
  revert l. induction k as [|k IH]; intros l Hl (j & Hj & Hjk); cbn [stress_rounds];
    pose proof (stress_round_clean l Hl) as Hr; pose proof (stress_round_stop l) as Hs;
    destruct (stress_round _ _ _ _ _ _ _ _ l) as [l1|l1|l1|]; try done; try (by exists l1);
    cbn [round_after] in Hs; rewrite Hj in Hs; destruct (stop (vs l1)) as [j1|] eqn:Hj1; try done; cbn [stop_le] in Hs;
    unfold keep_stressing_vm, mbind, vm_bind, poll; rewrite Hj1.
  - destruct j1; [|lia]. by eexists.
  - destruct j1 as [|j1]; [by eexists|]. unfold gets. cbn [counter set_stop].
    destruct (negb (c_true max_ops) || _); [|by eexists]. apply IH; [done|]. exists j1. cbn [vs stop set_stop]. split; [done|lia].
Qed.
End Sound.

(** the stressors that can be interrupted at any point without a false alarm *)
Definition robust_method {M} `{!MemDevice M} (pf : platform M) (fuel : nat) (func : nat -> Z -> vm M Z) : Prop :=
  exists name, (name, func) ∈ filter (fun m => m.1 ∉ fragile) (vm_methods_rest pf fuel).

Lemma poll_only_stop {M} : only_stop (M := M) poll.
Proof. intros s. unfold poll. destruct s as [? ? ? ? ? st ? ? ? ?]; cbn. destruct st as [[|k]|]; by eexists _, _. Qed.

Section NoFalseAlarm.
Context {M : Type} `{!MemDevice M} `{!Healthy M} (pf : platform M) `{!SoundPlatform pf}.

Lemma robust_passes fuel func sz mo s :
  robust_method pf fuel func -> (64 | sz)%nat -> covers sz -> 0 <= pf_base pf ->
  msize (mem s) = sz -> statics_wf (vars s) -> passes (func sz mo) s.
Proof.
  intros [name Hin] H64 Hc Hb Hm Hw.
  pose proof (vm_methods_pass_interrupted pf fuel sz mo s H64 Hc Hb Hm Hw) as H.
  by eapply Forall_forall in H; [|exact Hin].
Qed.

Lemma robust_tame fuel func sz : robust_method pf fuel func -> forall mo, tame (func sz mo).
Proof.
  intros [name [_ Hin]%list_elem_of_filter] mo. pose proof (vm_methods_tame pf fuel sz mo) as H.
  rewrite Forall_forall in H. by apply (H _ Hin).
Qed.

Lemma stress_vm_sound fuel alloc func keep sz max_ops hang s0 evs :
  robust_method pf fuel func -> (64 | sz)%nat -> covers sz -> 0 <= pf_base pf -> statics_wf (vars s0) ->
  (forall k m, alloc k = Some m -> msize m = sz) ->
  match stress_vm pf alloc func keep sz max_ops hang true s0 evs with
  | VReturns ret _ => ret = EXIT_SUCCESS
  | VRunning => True
  | VBad => False
  end /\
  (settled evs -> forall ev, exists cnt,
    stress_vm pf alloc func keep sz max_ops hang true s0 (evs ++ [(false, ev)]) = VReturns EXIT_SUCCESS cnt).
Proof.
  intros Hf H64 Hc Hb Hw Ha. unfold stress_vm. cbn [negb]. apply vm_parent_clean. intros [stp n] cnt maps.
  destruct (stress_rounds_clean pf poll alloc func keep sz max_ops hang poll_only_stop Ha
    (fun s Hs Hws => robust_passes fuel func sz _ s Hf H64 Hc Hb Hs Hws) n (child_state s0 stp cnt 0 maps))
    as (l & Hl & _ & He & _); [by repeat split; try apply Hw|]. by exists l.
Qed.

(** (C9) On sound memory [stress_vm()] gives no false alarm with a method that can be interrupted (any of the 25 but galpat-0,
    galpat-1, gray, incdec, prime-incdec; not "all", which runs these too): however often [fork] fails, the child is killed and
    restarted, memory runs out or the alarm comes in the middle of a pass, it never leaves the buffer
    and never returns a failure; and it does return, with success, once the
    parent sees the flag cleared, if no child is waited for that has not ended ([settled]).  The size of the buffer is one that 64 divides and
    over which the walk in prime steps visits every byte ([covers]), and the page of the error counter could be mapped. *)
Theorem stress_vm_no_false_alarm fuel alloc func keep sz max_ops hang s0 evs :
  robust_method pf fuel func -> (64 | sz)%nat -> covers sz -> 0 <= pf_base pf -> statics_wf (vars s0) ->
  (forall k m, alloc k = Some m -> msize m = sz) ->
  match stress_vm pf alloc func keep sz max_ops hang true s0 evs with
  | VReturns ret _ => ret = EXIT_SUCCESS
  | VRunning => True
  | VBad => False
  end /\
  (settled evs -> forall ev, exists cnt,
    stress_vm pf alloc func keep sz max_ops hang true s0 (evs ++ [(false, ev)]) = VReturns EXIT_SUCCESS cnt).
Proof. apply stress_vm_sound. Qed.

(** (C19) The child of [stress_vm()] ends: with sound memory, a method that can be interrupted (as for
    [stress_vm_no_false_alarm], so not "all"), a size of the buffer that 64 divides and over which the walk in prime steps visits every
    byte, and any [--vm-hang] but 0, which makes it sleep for ever: once the alarm is due after [k] more looks at the flag, the
    loop is left in at most [k + 1] rounds, and no error has been counted. *)
Theorem stress_vm_child_ends fuel alloc func keep sz max_ops hang s0 k cnt maps :
  robust_method pf fuel func -> (64 | sz)%nat -> covers sz -> 0 <= pf_base pf -> statics_wf (vars s0) ->
  (forall j m, alloc j = Some m -> msize m = sz) -> hang <> 0 ->
  exists l, child_run pf alloc func keep sz max_ops hang s0 (Some k, S k) cnt 0 maps = LDone l /\
    bit_error_count l = 0.
Proof.
  intros Hf H64 Hc Hb Hw Ha Hh.
  destruct (stress_rounds_end pf poll alloc func keep sz max_ops hang poll_only_stop tame_poll Ha
    (fun s Hs Hws => robust_passes fuel func sz _ s Hf H64 Hc Hb Hs Hws)
    (robust_tame fuel func sz Hf) Hh k (child_state s0 (Some k) cnt 0 maps))
    as (l & Hl & _ & He & _); [by repeat split; try apply Hw|by exists k|]. by exists l.
Qed.
End NoFalseAlarm.

(** ** Giving up for lack of memory *)

Section GiveUp.
Context {M : Type} `{!MemDevice M} (pf : platform M).
Variable func : nat -> Z -> vm M Z.
Variable (keep : bool) (buf_sz : nat) (vm_hang : Z).

Lemma give_up_rounds k l :
  (k <= 100)%nat -> no_mem_retries l = NO_MEM_RETRIES_MAX - Z.of_nat k -> mapped l = false -> stop (vs l) = None ->
  exists l', stress_rounds pf poll (fun _ => None) func keep buf_sz 0 vm_hang (S k) l = LDone l' /\
    allocs l' = (allocs l + k)%nat /\ bit_error_count l' = bit_error_count l.
Proof.
  revert l. induction k as [|k IH]; intros l Hk Hn Hm Hs.
  - cbn [stress_rounds]. unfold stress_round.
    destruct (Z.leb_spec NO_MEM_RETRIES_MAX (no_mem_retries l)); [|lia]. exists l. by rewrite Nat.add_0_r.
  - cbn [stress_rounds]. unfold stress_round.
    destruct (Z.leb_spec NO_MEM_RETRIES_MAX (no_mem_retries l)); [lia|]. rewrite Hm, orb_true_r.
    unfold poll. rewrite Hs. unfold keep_stressing_vm, mbind, vm_bind, poll, gets. cbn [vs]. rewrite Hs.
    change (negb (c_true 0)) with true. cbn [orb].
    destruct (IH (LState (vs l) false (no_mem_retries l + 1) (S (allocs l)) (bit_error_count l))) as (l' & Hr & Ha & He);
      [lia|cbn; lia|done|done|].
    cbn [mapped no_mem_retries allocs bit_error_count]. exists l'. split; [exact Hr|]. split; [|done]. rewrite Ha. cbn. lia.
Qed.

(** Without memory the loop ends: when every allocation fails, it gives up after a
    hundred tries, with the error count unchanged. *)
Theorem stress_rounds_gives_up s cnt errs maps :
  exists l, child_run pf (fun _ => None) func keep buf_sz 0 vm_hang s (None, 101%nat) cnt errs maps = LDone l /\
    allocs l = (maps + 100)%nat /\ bit_error_count l = errs.
Proof. apply (give_up_rounds 100); reflexivity || lia. Qed.
End GiveUp.

(** ** Finding stuck bits *)

Section Detects.
Variable (stuck1 stuck0 : nat -> Z).
Hypothesis stuck1_fits : forall i, fits 8 (stuck1 i).
Hypothesis stuck0_fits : forall i, fits 8 (stuck0 i).
Hypothesis stuck_disjoint : forall i, stuck1 i .& stuck0 i = 0.
Abbreviation M := (faulty stuck1 stuck0).
Context (pf : platform M) `{!SoundPlatform pf}.

(** the first round of zero-one leaves the number of stuck bits in the counter *)
Lemma first_round_counts gate alloc keep sz max_ops hang l m :
  gate (vs l) = (Go true, vs l) -> alloc (allocs l) = Some m -> msize m = sz ->
  (64 | sz)%nat -> Z.of_nat sz < 2 ^ 59 -> stop (vs l) = None -> mapped l = false -> no_mem_retries l = 0 ->
  bit_error_count l = 0 ->
  exists l', loop_state (stress_rounds pf gate alloc (stress_vm_zero_one pf) keep sz max_ops hang 1 l) = Some l' /\
    bit_error_count l' = bits stuck1 0 sz + bits stuck0 0 sz.
Proof.
  intros Hg Ha Hm H64 Hsz Hst Hmap Hr He. cbn [stress_rounds]. unfold stress_round.
  rewrite Hr, Hmap, Hg, Ha, orb_true_r. change (NO_MEM_RETRIES_MAX <=? 0) with false. cbv iota.
  unfold use_buffer, mbind, vm_bind, vm_touch, modify. cbv beta iota.
  match goal with |- context [stress_vm_zero_one pf sz ?mo ?s'] =>
    destruct (zero_one_stuck_bits _ _ stuck1_fits stuck0_fits stuck_disjoint pf sz s' mo) as [s2 ->] end;
    [by etransitivity; [apply touch_size|]|done|done|done|].
  pose proof (bits_bounds stuck1 0 sz). pose proof (bits_bounds stuck0 0 sz).
  cbn [allocs bit_error_count]. rewrite He, Z.add_0_l, u64_small by (unfold fits; lia).
  destruct (hang =? 0); [by eexists|]. cbn [vs mapped no_mem_retries allocs bit_error_count].
  destruct (keep_stressing_only_stop max_ops s2) as ([|] & x & ->); by eexists.
Qed.

Lemma stress_vm_finds alloc keep sz max_ops hang s0 evs f m :
  alloc 0%nat = Some m -> msize m = sz -> (64 | sz)%nat -> Z.of_nat sz < 2 ^ 59 ->
  0 < bits stuck1 0 sz + bits stuck0 0 sz -> f <> OomKilled ->
  let r := stress_vm pf alloc (stress_vm_zero_one pf) keep sz max_ops hang true s0 ((true, Child (None, 1%nat) f) :: evs) in
  (exists cnt, r = VReturns EXIT_FAILURE cnt) \/ f = Exited /\ r = VRunning.
Proof.
  intros Ha Hm H64 Hsz Hpos Hf. unfold stress_vm. cbn [negb].
  destruct (first_round_counts poll alloc keep sz max_ops hang (child_state s0 None (counter s0) 0 0) m) as (l & Hl & He);
    [done..|].
  cbv zeta. erewrite vm_parent_fails; [|exact Hl|lia|done].
  destruct (bool_decide_reflect (f = Exited)) as [->|]; [|left; by eexists]. destruct (finished _); [left; by eexists|by right].
Qed.

(** A memory fault is reported: when the buffer has stuck bits and the
    child has gone once through zero-one and then ends by itself or is stopped (by the parent
    that gives up waiting, or by any signal but SIGKILL), [stress_vm()] returns
    a failure. *)
Theorem stress_vm_detects alloc keep sz max_ops hang s0 evs f m :
  alloc 0%nat = Some m -> msize m = sz -> (64 | sz)%nat -> Z.of_nat sz < 2 ^ 59 ->
  0 < bits stuck1 0 sz + bits stuck0 0 sz -> f <> OomKilled ->
  let r := stress_vm pf alloc (stress_vm_zero_one pf) keep sz max_ops hang true s0 ((true, Child (None, 1%nat) f) :: evs) in
  (exists cnt, r = VReturns EXIT_FAILURE cnt) \/ f = Exited /\ r = VRunning.
Proof. apply stress_vm_finds. Qed.
End Detects.

(** *** a concrete run: a fork that fails, a child that is killed, one that the parent gives up on *)

Definition demo_alloc (k : nat) : option ram := if Nat.even k then Some (replicate 64 7) else None.
Definition demo_history : list (bool * vm_event (option nat * nat)) :=
  [(true, ForkAgain); (true, Child (Some 5, 3)%nat OomKilled); (true, Child (None, 2)%nat WaitFailed)].

Lemma demo_robust : robust_method demo_pf 1 (stress_vm_flip demo_pf).
Proof.
  exists "flip". apply list_elem_of_filter. split; [|by left]. change ("flip" ∉ fragile). by compute_done.
Qed.

Lemma demo_alloc_size k m : demo_alloc k = Some m -> msize m = 64%nat.
Proof. unfold demo_alloc. destruct (Nat.even k); [|done]. by intros [= <-]. Qed.

Lemma stress_vm_no_false_alarm_witness :
  match stress_vm demo_pf demo_alloc (stress_vm_flip demo_pf) false 64 0 DEFAULT_VM_HANG true (demo_state 64)
          demo_history with
  | VReturns ret _ => ret = EXIT_SUCCESS
  | VRunning => True
  | VBad => False
  end.
Proof.
  assert (64 | 64)%nat as H64 by by exists 1%nat.
  assert (covers 64) as Hc by (apply (covers_pow2 6); lia).
  assert (0 <= pf_base demo_pf) as Hb by done.
  pose proof (stress_vm_no_false_alarm demo_pf 1 demo_alloc (stress_vm_flip demo_pf) false 64 0 DEFAULT_VM_HANG
    (demo_state 64) demo_history demo_robust H64 Hc Hb demo_wf demo_alloc_size) as H.
  destruct H as [H _].
  exact H.
Defined.

Lemma stress_vm_child_ends_witness :
  exists l, child_run demo_pf demo_alloc (stress_vm_flip demo_pf) false 64 0 DEFAULT_VM_HANG (demo_state 64)
    (Some 2%nat, 3%nat) 0 0 0 = LDone l /\ bit_error_count l = 0.
Proof.
  apply (stress_vm_child_ends demo_pf 1 demo_alloc (stress_vm_flip demo_pf) false 64 0 DEFAULT_VM_HANG (demo_state 64) 2 0 0);
    [exact demo_robust|by exists 1%nat|apply (covers_pow2 6); lia|done|exact demo_wf|exact demo_alloc_size|done].
Defined.

Lemma stress_vm_detects_witness :
  exists cnt, stress_vm demo_fault_pf (fun _ => Some (Faulty (replicate 64 0))) (stress_vm_zero_one demo_fault_pf)
    true 64 0 DEFAULT_VM_HANG true demo_fault_state [(true, Child (None, 1%nat) WaitFailed)] = VReturns EXIT_FAILURE cnt.
Proof.
  destruct demo_stuck_ok as (H1 & H0 & Hd).
  destruct (stress_vm_detects _ _ H1 H0 Hd demo_fault_pf (fun _ => Some (Faulty (replicate 64 0))) true 64 0 DEFAULT_VM_HANG
    demo_fault_state [] WaitFailed (Faulty (replicate 64 0))) as [H|[H _]];
    [done|reflexivity|by exists 1%nat|done|by vm_compute|done|exact H|discriminate H].
Defined.
