(* ===== verification/Cpu.v ===== *)
(** * stress-cpu.c: the integer CPU stressors

    Each method computes something, and under [--verify] compares it with what
    it must be; a mismatch is a [pr_fail()].  The floating point methods are in
    [CpuFloat]. *)

From Stdlib Require Import Ascii.
From S2P Require Import Prelude Mwc.

(** the generator, the failures reported, [g_put_val], of which the last 64 bits
    matter, the image of dither, at [x] and [y], the [static] union of union and the [static int i] of all *)
Record cpust := Cpust { c_rng : mwc; c_fails : list string; put_val : Z; pixels : nat -> nat -> Z; union_u : Z; cpu_i : nat }.

(** the image and the union are zero when the program starts, and all is to begin with the entry after itself *)
Definition cpu_start (r : mwc) : cpust := Cpust r [] 0 (fun _ _ => 0) 0 1.

(** a method, given whether [OPT_FLAGS_VERIFY] is set *)
Definition cpu_func := bool -> cpust -> cpust.

Definition set_rng (r : mwc) (s : cpust) : cpust := Cpust r (c_fails s) (put_val s) (pixels s) (union_u s) (cpu_i s).
Definition uint64_put (v : Z) (s : cpust) : cpust := Cpust (c_rng s) (c_fails s) v (pixels s) (union_u s) (cpu_i s).
Definition set_cpu_i (i : nat) (s : cpust) : cpust := Cpust (c_rng s) (c_fails s) (put_val s) (pixels s) (union_u s) i.

(** [if ((g_opt_flags & OPT_FLAGS_VERIFY) && bad) pr_fail(...)] *)
Definition check_fail (verify bad : bool) (what : string) (s : cpust) : cpust :=
  if verify && bad then Cpust (c_rng s) (c_fails s ++ [what]) (put_val s) (pixels s) (union_u s) (cpu_i s) else s.

(** [for (i = a; i < a + n; i++) acc = f(i, acc)] *)
Fixpoint loop_n {A} (n : nat) (i : Z) (f : Z -> A -> A) (acc : A) : A :=
  match n with O => acc | S n => loop_n n (i + 1) f (f i acc) end.
Definition loop {A} (a n : Z) (f : Z -> A -> A) (acc : A) : A := loop_n (Z.to_nat n) a f acc.

(** ** loop, gcd, bitops, rand *)

Definition stress_cpu_loop : cpu_func := fun verify s =>
  let i_sum := loop 0 16384 (fun i i_sum => u32 (i_sum + i)) 0 in
  check_fail verify (negb (i_sum =? 134209536)) "loop" s.

(** [while (b != 0) { r = b; b = a % b; a = r; }]: [b] halves in two rounds *)
Fixpoint gcd_loop (fuel : nat) (a b : Z) : Z :=
  match fuel with
  | O => a
  | S fuel => if b =? 0 then a else gcd_loop fuel b (a mod b)
  end.

Definition gcd32 (a b : Z) : Z := gcd_loop 65 a b.

Definition stress_cpu_gcd : cpu_func := fun verify s =>
  let i_sum := loop 0 16384 (fun i i_sum =>
    let a := i in
    let b := i mod u32 (3 + (1997 .^ i)) in
    u32 (i_sum + gcd32 a b)) 0 in
  check_fail verify (negb (i_sum =? 63000868)) "gcd" s.

(** [for (v >>= 1; v; v >>= 1, s--) { r <<= 1; r |= v & 1; } r <<= s;] *)
Fixpoint reverse_loop (fuel : nat) (r v s : Z) : Z :=
  match fuel with
  | O => r
  | S fuel =>
      if v =? 0 then u32 (r <<< s)
      else reverse_loop fuel (u32 (r <<< 1) .| (v .& 1)) (v >>> 1) (s - 1)
  end.
Definition reverse_bits (i : Z) : Z := reverse_loop 32 i (i >>> 1) 31.

(** the nybble whose parity is the parity of [v] *)
Definition fold_nybble (v : Z) : Z :=
  let v := v .^ (v >>> 16) in
  let v := v .^ (v >>> 8) in
  let v := v .^ (v >>> 4) in
  v .& 0xf.

(** [for (j = 0; v; j++) v &= v - 1;] *)
Fixpoint kernighan (fuel : nat) (v j : Z) : Z :=
  match fuel with
  | O => j
  | S fuel => if v =? 0 then j else kernighan fuel (v .& (v - 1)) (j + 1)
  end.

Definition round_up_pow2 (i : Z) : Z :=
  let v := u32 (i - 1) in
  let v := v .| (v >>> 1) in
  let v := v .| (v >>> 2) in
  let v := v .| (v >>> 4) in
  let v := v .| (v >>> 8) in
  v .| (v >>> 16).

Definition stress_cpu_bitops : cpu_func := fun verify s =>
  let i_sum := loop 0 16384 (fun i i_sum =>
    let i_sum := u32 (i_sum + reverse_bits i) in
    let i_sum := u32 (i_sum + fold_nybble i) in
    let i_sum := u32 (i_sum + kernighan 32 i 0) in
    u32 (i_sum + round_up_pow2 i)) 0 in
  check_fail verify (negb (i_sum =? 0x8aadcaab)) "bitops" s.

(** [i_sum += mwc32()], [n] times *)
Fixpoint sum_draws (n : nat) (i_sum : Z) (r : mwc) : Z * mwc :=
  match n with
  | O => (i_sum, r)
  | S n => let '(v, r) := mwc32 r in sum_draws n (u32 (i_sum + v)) r
  end.

Definition stress_cpu_rand : cpu_func := fun verify s =>
  let '(i_sum, r) := sum_draws (Z.to_nat 16384) 0 (MWC_SEED (c_rng s)) in
  check_fail verify (negb (i_sum =? 0xc253698c)) "rand" (set_rng r s).

(** ** Hashes *)

(** the four bytes of each of [n] draws, lowest first *)
Fixpoint random_words (n : nat) (r : mwc) : list Z * mwc :=
  match n with
  | O => ([], r)
  | S n =>
      let '(v, r) := mwc32 r in
      let '(rest, r) := random_words n r in
      (u8 v :: u8 (v >>> 8) :: u8 (v >>> 16) :: u8 (v >>> 24) :: rest, r)
  end.

Definition random_buffer (len : Z) (r : mwc) : list Z * mwc :=
  random_words (Z.to_nat (len / 4)) r.

(** [for (i = sizeof(buffer) - 1; i; i--) { buffer[i] = 0; i_sum += hash(buffer); }]:
    the string in the buffer is cut after its first [i] characters *)
Fixpoint hash_prefixes (i : nat) (hash_func : list Z -> Z) (buffer : list Z) (i_sum : Z) : Z :=
  match i with
  | O => i_sum
  | S i' => hash_prefixes i' hash_func buffer (u32 (i_sum + hash_func (take i buffer)))
  end.

Definition stress_cpu_hash_generic (hash_name : string) (hash_func : list Z -> Z)
    (result : Z) : cpu_func := fun verify s =>
  let '(buffer, r) := random_buffer 128 (MWC_SEED (c_rng s)) in
  let buffer := (fun ch => (ch .& 0x3f) + 32) <$> buffer in
  let i_sum := hash_prefixes 127 hash_func buffer 0 in
  check_fail verify (negb (i_sum =? result)) hash_name (set_rng r s).

(** the hash of a buffer of at most 255 bytes: its index is a [uint8_t] *)
Definition jenkin (data : list Z) : Z :=
  let h := foldl (fun h d =>
    let h := u32 (h + d) in
    let h := u32 (h + u32 (h <<< 10)) in
    h .^ (h >>> 6)) 0 data in
  let h := u32 (h + u32 (h <<< 3)) in
  let h := h .^ (h >>> 11) in
  u32 (h + u32 (h <<< 15)).

Definition stress_cpu_jenkin : cpu_func := fun verify s =>
  let '(buffer, r) := random_buffer 128 (MWC_SEED (c_rng s)) in
  let i_sum := loop 0 128 (fun _ i_sum => u32 (i_sum + jenkin buffer)) 0 in
  check_fail verify (negb (i_sum =? 0x96673680)) "jenkin" (set_rng r s).

(** the string hashes, on the characters before the terminating zero *)
Definition pjw (str : list Z) : Z :=
  foldl (fun h ch =>
    let h := u32 (u32 (h <<< 4) + ch) in
    let g := h .& 0xf0000000 in
    if c_true g then (h .^ (g >>> 24)) .^ g else h) 0 str.

Definition djb2a (str : list Z) : Z :=
  foldl (fun hash c => u32 (u32 (hash <<< 5) + hash) .^ c) 5381 str.

Definition fnv1a (str : list Z) : Z :=
  foldl (fun hash c => u32 ((hash .^ c) * 16777619)) 5381 str.

Definition sdbm (str : list Z) : Z :=
  foldl (fun hash c => u32 (c + u32 (hash <<< 6) + u32 (hash <<< 16) - hash)) 0 str.

Definition stress_cpu_pjw : cpu_func := stress_cpu_hash_generic "pjw" pjw 0xa89a91c0.
Definition stress_cpu_djb2a : cpu_func := stress_cpu_hash_generic "djb2a" djb2a 0x6a60cb5a.
Definition stress_cpu_fnv1a : cpu_func := stress_cpu_hash_generic "fnv1a" fnv1a 0x8ef17e80.
Definition stress_cpu_sdbm : cpu_func := stress_cpu_hash_generic "sdbm" sdbm 0x46357819.

(** ** Integer arithmetic: [int_ops()] on an unsigned type of [w] bits *)

Definition uw (w x : Z) : Z := x mod 2 ^ w.

Definition int_ops (w c1 c2 c3 a b : Z) (r : mwc) : Z * Z * mwc :=
  let a := uw w (a + b) in
  let b := b .^ a in
  let a := a >>> 1 in
  let b := uw w (b <<< 2) in
  let b := uw w (b - a) in
  let a := uw w (a .^ Z.lnot 0) in
  let b := uw w (b .^ Z.lnot c1) in
  let a := uw w (a * 3) in
  let b := uw w (b * 7) in
  let a := uw w (a + 2) in
  let b := uw w (b - 3) in
  let a := a / 77 in
  let b := b / 3 in
  let a := uw w (a <<< 1) in
  let b := uw w (b <<< 2) in
  let a := a .| 1 in
  let b := b .| 3 in
  let '(v, r) := mwc32 r in let a := uw w (a * v) in
  let '(v, r) := mwc32 r in let b := uw w (b .^ v) in
  let '(v, r) := mwc32 r in let a := uw w (a + v) in
  let '(v, r) := mwc32 r in let b := uw w (b - v) in
  let a := a / 7 in
  let b := b / 9 in
  let a := a .| c2 in
  let b := b .& c3 in
  (a, b, r).

Fixpoint int_rounds (n : nat) (w c1 c2 c3 a b : Z) (r : mwc) : Z * Z * mwc :=
  match n with
  | O => (a, b, r)
  | S n => let '(a, b, r) := int_ops w c1 c2 c3 a b r in int_rounds n w c1 c2 c3 a b r
  end.

Definition C1 : Z := 0xf0f0f0f0f0f0f0f0.
Definition C2 : Z := 0x1000100010001000.
Definition C3 : Z := 0xffeffffefebefffe.
Definition UINT128 (hi lo : Z) : Z := (hi <<< 64) .| lo.

(** [a = mwc32(); b = mwc32();] and the 1000 rounds *)
Definition int_run (w c1 c2 c3 : Z) (r : mwc) : Z * Z * mwc :=
  let '(a, r) := mwc32 r in
  let '(b, r) := mwc32 r in
  int_rounds 1000 w (uw w c1) (uw w c2) (uw w c3) (uw w a) (uw w b) r.

(** the macro [stress_cpu_int(_type, _sz, _a, _b, _c1, _c2, _c3)] *)
Definition stress_cpu_int (w a_final b_final c1 c2 c3 : Z) (what : string) : cpu_func :=
  fun verify s =>
  let '(a, b, r) := int_run w c1 c2 c3 (MWC_SEED (c_rng s)) in
  check_fail verify (negb (a =? a_final) || negb (b =? b_final)) what (set_rng r s).

Definition stress_cpu_int128 : cpu_func :=
  stress_cpu_int 128 (UINT128 0x132af604d8b9183a 0x5e3af8fa7a663d74)
    (UINT128 0x62f086e6160e4e 0xd84c9f800365858)
    (UINT128 C1 C1) (UINT128 C2 C2) (UINT128 C3 C3) "int128".
Definition stress_cpu_int64 : cpu_func :=
  stress_cpu_int 64 0x013f7f6dc1d79197c 0x01863d2c6969a51ce C1 C2 C3 "int64".
Definition stress_cpu_int32 : cpu_func :=
  stress_cpu_int 32 0x1ce9b547 0xa24b33a C1 C2 C3 "int32".
Definition stress_cpu_int16 : cpu_func := stress_cpu_int 16 0x1871 0x07f0 C1 C2 C3 "int16".
Definition stress_cpu_int8 : cpu_func := stress_cpu_int 8 0x12 0x1a C1 C2 C3 "int8".

(** ** fibonacci, ackermann *)

(** [do { ... } while (!(fn & 0x8000000000000000))]; the values grow, so the
    fuel of 128 rounds is not used up *)
Fixpoint fib_loop (fuel : nat) (f1 f2 : Z) : option Z :=
  match fuel with
  | O => None
  | S fuel =>
      let fn := u64 (f1 + f2) in
      if c_true (fn .& 0x8000000000000000) then Some fn else fib_loop fuel f2 fn
  end.

Definition stress_cpu_fibonacci : cpu_func := fun verify s =>
  check_fail verify (negb (bool_decide (fib_loop 128 0 1 = Some 0xa94fad42221f2702))) "fibonacci" s.

(** the recursion on [n] inside the recursion on [m]; values are [uint32_t] *)
Fixpoint ackermann (m : nat) : nat -> nat :=
  match m with
  | O => fun n => Z.to_nat (u32 (Z.of_nat n + 1))
  | S m =>
      fix inner (n : nat) : nat :=
        match n with
        | O => ackermann m 1
        | S n => ackermann m (inner n)
        end
  end.

Definition stress_cpu_ackermann : cpu_func := fun verify s =>
  check_fail verify (negb (Z.of_nat (ackermann 3 10) =? 0x1ffd)) "ackermann" s.

(** ** jmp: the macro [JMP(v, op, val, a, b)], 12 of them in 999 rounds *)

Definition JMP (cond : bool) (a b : Z) : Z := if cond then a else b.

Definition jmp_round (next : Z) : Z :=
  let three (next : Z) :=
    let next := JMP (next =? 1) 2 3 in
    let next := JMP (2 <? next) 0 1 in
    JMP (next <? 1) 1 0 in
  three (three (three (three next))).

(** every [JMP] puts [next + i]; the last one of the round stays *)
Definition stress_cpu_jmp : cpu_func := fun verify s =>
  let '(_, s) := loop (A := Z * cpust) 1 999 (fun i acc =>
    let '(next, s) := acc in
    let next := jmp_round next in
    (next, uint64_put (u64 (next + i)) s)) (0, s) in
  s.

(** ** crc16 *)

Definition crc16_polynomial : Z := 0x8408.

(** one round of [for (i = 8; i; --i, val >>= 1)] *)
Definition crc16_bit (val crc : Z) : Z :=
  let do_xor := c_true (1 .& (val .^ crc)) in
  (crc >>> 1) .^ (if do_xor then crc16_polynomial else 0).

Fixpoint crc16_byte (n : nat) (val crc : Z) : Z :=
  match n with
  | O => crc
  | S n => crc16_byte n (val >>> 1) (crc16_bit val crc)
  end.

Definition crc16_data (data : list Z) (crc : Z) : Z :=
  foldl (fun crc d => crc16_byte 8 (0xff .& d) crc) crc data.

Definition not16 (x : Z) : Z := u16 (Z.lnot x).

Definition ccitt_crc16 (data : list Z) : Z :=
  match data with
  | [] => 0
  | _ =>
      let crc := not16 (crc16_data data 0xffff) in
      u16 (crc <<< 8) .| (crc >>> 8)
  end.

(** the CRCs of all the prefixes of a random kilobyte *)
Definition stress_cpu_crc16 : cpu_func := fun verify s =>
  let '(buffer, r) := random_buffer 1024 (c_rng s) in
  loop 0 1024 (fun i s => uint64_put (ccitt_crc16 (take (Z.to_nat i) buffer)) s) (set_rng r s).

(** ** Primes *)

(** [STRESS_GETBIT] and [STRESS_CLRBIT] on an array of 32 bit words *)
Definition STRESS_GETBIT (a : list Z) (i : Z) : bool :=
  c_true (default 0 (a !! Z.to_nat (i / 32)) .& (1 <<< (i .& 31))).

Definition STRESS_CLRBIT (a : list Z) (i : Z) : list Z :=
  let w := Z.to_nat (i / 32) in
  <[w := default 0 (a !! w) .& not32 (1 <<< (i .& 31))]> a.

(** [for (j = i * i; j < size; j += i) STRESS_CLRBIT(sieve, j);] with the
    number of rounds the bound allows *)
Fixpoint sieve_clear (n : nat) (i j size : Z) (sieve : list Z) : list Z :=
  match n with
  | O => sieve
  | S n => if j <? size then sieve_clear n i (j + i) size (STRESS_CLRBIT sieve j) else sieve
  end.

Definition sieve_mark (size : Z) : list Z :=
  let nsqrt := Z.sqrt size in
  loop 2 (nsqrt - 2) (fun i sieve =>
    if STRESS_GETBIT sieve i then sieve_clear (Z.to_nat size) i (i * i) size sieve else sieve)
    (replicate (Z.to_nat ((size + 31) / 32)) 0xffffffff).

Definition sieve_count (size : Z) : Z :=
  let sieve := sieve_mark size in
  loop 2 (size - 2) (fun i j => if STRESS_GETBIT sieve i then u32 (j + 1) else j) 0.

Definition SIEVE_SIZE : Z := 10000000.

Definition stress_cpu_sieve : cpu_func := fun verify s =>
  check_fail verify (negb (sieve_count SIEVE_SIZE =? 664579)) "sieve" s.

(** [for (i = 5; i < max; i += 6) if (n % i == 0 || n % (i + 2) == 0) return false;] *)
Fixpoint prime_loop (fuel : nat) (n i max : Z) : bool :=
  match fuel with
  | O => true
  | S fuel =>
      if i <? max then
        if (n mod i =? 0) || (n mod (i + 2) =? 0) then false
        else prime_loop fuel n (i + 6) max
      else true
  end.

(** [max = sqrt(n) + 1] is at most 2^16 + 1 for a [uint32_t], so 10923 rounds of
    6 are enough *)
Definition is_prime (n : Z) : bool :=
  if n <=? 3 then 2 <=? n
  else if (n mod 2 =? 0) || (n mod 3 =? 0) then false
  else prime_loop (Z.to_nat 10923) n 5 (Z.sqrt n + 1).

Definition stress_cpu_prime : cpu_func := fun verify s =>
  let nprimes := loop 0 1000000 (fun i nprimes =>
    if is_prime i then u32 (nprimes + 1) else nprimes) 0 in
  check_fail verify (negb (nprimes =? 78498)) "prime" s.

(** ** Gray codes *)

Definition gray_encode (i : Z) : Z := (i >>> 1) .^ i.

Definition gray_decode (g : Z) : Z :=
  let g := g .^ (g >>> 1) in
  let g := g .^ (g >>> 2) in
  let g := g .^ (g >>> 4) in
  let g := g .^ (g >>> 8) in
  g .^ (g >>> 16).

Definition stress_cpu_gray : cpu_func := fun verify s =>
  let sum := loop 0 0x10000 (fun i sum =>
    let gray_code := gray_encode i in
    let sum := u64 (sum + gray_code) in
    u64 (sum + gray_decode gray_code)) 0 in
  check_fail verify (negb (sum =? 0xffff0000)) "gray" s.

(** ** Hanoi *)

Fixpoint hanoi (n : nat) (p1 p2 p3 : ascii) : Z :=
  match n with
  | O => 1
  | S n =>
      let m := hanoi n p1 p3 p2 in
      u32 (m + hanoi n p3 p2 p1)
  end.

Definition stress_cpu_hanoi : cpu_func := fun verify s =>
  let n := hanoi 20 "X"%char "Y"%char "Z"%char in
  uint64_put n (check_fail verify (negb (n =? 1048576)) "hanoi" s).

(** ** Hamming (8,4) codes *)

Definition G0 : Z := 0xf1.
Definition G1 : Z := 0xd2.
Definition G2 : Z := 0xb4.
Definition G3 : Z := 0x78.

Definition HAMMING (i nybble code : Z) : Z :=
  let res :=
    ((((G3 >>> i) .& (nybble >>> 3)) .& 1) .^ (((G2 >>> i) .& (nybble >>> 2)) .& 1)) .^
    ((((G1 >>> i) .& (nybble >>> 1)) .& 1) .^ (((G0 >>> i) .& (nybble >>> 0)) .& 1)) in
  code .^ ((res .& 1) <<< i).

Definition hamming84 (nybble : Z) : Z :=
  let code := HAMMING 7 nybble 0 in
  let code := HAMMING 6 nybble code in
  let code := HAMMING 5 nybble code in
  let code := HAMMING 4 nybble code in
  let code := HAMMING 3 nybble code in
  let code := HAMMING 2 nybble code in
  let code := HAMMING 1 nybble code in
  HAMMING 0 nybble code.

Definition hamming_word (i : Z) : Z :=
  ((u32 (hamming84 ((i >>> 12) .& 0xf) <<< 24) .| (hamming84 ((i >>> 8) .& 0xf) <<< 16))
    .| (hamming84 ((i >>> 4) .& 0xf) <<< 8)) .| hamming84 (i .& 0xf).

Definition stress_cpu_hamming : cpu_func := fun verify s =>
  let sum := loop 0 65536 (fun i sum => u32 (sum + hamming_word i)) 0 in
  check_fail verify (negb (sum =? 0xffff8000)) "hamming" s.

(** ** Parity, five ways *)

(** [while (v) { if (v & 1) parity = !parity; v >>= 1; }] *)
Fixpoint parity_naive (fuel : nat) (v : Z) (parity : bool) : bool :=
  match fuel with
  | O => parity
  | S fuel =>
      if v =? 0 then parity
      else parity_naive fuel (v >>> 1) (if c_true (v .& 1) then negb parity else parity)
  end.

(** [while (v) { p = !p; v = v & (v - 1); }] *)
Fixpoint parity_kernighan (fuel : nat) (v : Z) (p : bool) : bool :=
  match fuel with
  | O => p
  | S fuel => if v =? 0 then p else parity_kernighan fuel (v .& (v - 1)) (negb p)
  end.

Definition parity_multiply (v : Z) : Z :=
  let v := v .^ (v >>> 1) in
  let v := v .^ (v >>> 2) in
  let v := u32 ((v .& 0x11111111) * 0x11111111) in
  (v >>> 28) .& 1.

Definition parity_parallel (v : Z) : Z := (0x6996 >>> fold_nybble v) .& 1.

(** the macros [P2], [P4], [P6] *)
Definition P2 (n : bool) : list bool := [n; negb n; negb n; n].
Definition P4 (n : bool) : list bool := P2 n ++ P2 (negb n) ++ P2 (negb n) ++ P2 n.
Definition P6 (n : bool) : list bool := P4 n ++ P4 (negb n) ++ P4 (negb n) ++ P4 n.
Definition stress_cpu_parity_table : list bool := P6 false ++ P6 true ++ P6 true ++ P6 false.

Definition parity_at (i : Z) : bool := default false (stress_cpu_parity_table !! Z.to_nat i).

Definition parity_lookup1 (v : Z) : bool :=
  let v := v .^ (v >>> 16) in
  let v := v .^ (v >>> 8) in
  parity_at (v .& 0xff).

Definition parity_lookup2 (v : Z) : bool :=
  parity_at (((u8 v .^ u8 (v >>> 8)) .^ u8 (v >>> 16)) .^ u8 (v >>> 24)).

Definition parity_round (verify : bool) (val : Z) (s : cpust) : cpust :=
  let parity := parity_naive 32 val false in
  let s := check_fail verify (negb (Bool.eqb (parity_kernighan 32 val false) parity))
    "parity optimised naive" s in
  let s := check_fail verify (negb (parity_multiply val =? b2z parity)) "parity multiply" s in
  let s := check_fail verify (negb (parity_parallel val =? b2z parity)) "parity parallel" s in
  let s := check_fail verify (negb (Bool.eqb (parity_lookup1 val) parity)) "parity lookup 1" s in
  check_fail verify (negb (Bool.eqb (parity_lookup2 val) parity)) "parity lookup 2" s.

Definition stress_cpu_parity : cpu_func := fun verify s =>
  loop 0 1000 (fun i s => parity_round verify (u32 (0x83fb5acf + i)) s) s.

(** ** Queens *)

Definition queens_solutions : list Z :=
  [u32 (-1); 1; 0; 0; 2; 10; 4; 40; 92; 352; 724; 2680; 14200].

(** [queens_try()]: each recursion fills a column, and each round of the [while]
    takes a bit from [poss]: [depth] bounds the first, [width] the second *)
Fixpoint queens_try (depth width : nat) (left_diag cols right_diag all : Z) : Z :=
  match depth with
  | O => 0
  | S depth =>
      let fix go (k : nat) (poss solutions : Z) : Z :=
        match k with
        | O => solutions
        | S k =>
            if poss =? 0 then solutions
            else
              let bit := poss .& u32 (- poss) in
              let new_cols := cols .| bit in
              go k (poss - bit)
                (u32 (solutions +
                  (if new_cols =? all then 1
                   else queens_try depth width (u32 ((left_diag .| bit) <<< 1)) new_cols
                          ((right_diag .| bit) >>> 1) all)))
        end in
      go width (not32 ((left_diag .| cols) .| right_diag) .& all) 0
  end.

(** boards of 1..12 queens; [all] has [n] bits *)
Definition queens (n : nat) : Z := queens_try n n 0 0 0 (2 ^ Z.of_nat n - 1).

Definition stress_cpu_queens : cpu_func := fun verify s =>
  foldl (fun s n =>
    check_fail verify (negb (queens n =? default 0 (queens_solutions !! n))) "queens" s)
    s (seq 1 12).

(** ** The method "all" and the table *)

(** [cpu_methods[i++].func(name); if (!cpu_methods[i].func) i = 1;] on a table whose entry 0 is "all" itself and whose others
    are [rest]: the entry [i] is the one numbered [i - 1] of [rest].  [i] is the number of an entry from 1 on ([cpu_i_entry]) *)
Definition stress_cpu_all (rest : list (string * cpu_func)) : cpu_func := fun verify s =>
  let i := cpu_i s in
  match rest !! (i - 1)%nat with
  | None => s
  | Some (_, func) => set_cpu_i (if rest !! i is Some _ then S i else 1%nat) (func verify s)
  end.

(** the integer methods, in the order of the table *)
Definition cpu_integer_methods : list (string * cpu_func) :=
  [ ("ackermann", stress_cpu_ackermann); ("bitops", stress_cpu_bitops);
    ("crc16", stress_cpu_crc16); ("djb2a", stress_cpu_djb2a);
    ("fibonacci", stress_cpu_fibonacci); ("fnv1a", stress_cpu_fnv1a);
    ("gcd", stress_cpu_gcd); ("gray", stress_cpu_gray); ("hamming", stress_cpu_hamming);
    ("hanoi", stress_cpu_hanoi); ("int128", stress_cpu_int128); ("int64", stress_cpu_int64);
    ("int32", stress_cpu_int32); ("int16", stress_cpu_int16); ("int8", stress_cpu_int8);
    ("jenkin", stress_cpu_jenkin); ("jmp", stress_cpu_jmp); ("loop", stress_cpu_loop);
    ("parity", stress_cpu_parity); ("pjw", stress_cpu_pjw); ("prime", stress_cpu_prime);
    ("queens", stress_cpu_queens); ("rand", stress_cpu_rand); ("sdbm", stress_cpu_sdbm);
    ("sieve", stress_cpu_sieve) ].
