(* ===== verification/CpuProofs.v ===== *)
(** * The integer CPU stressors compute what they claim to *)

From Stdlib Require Import Znumtheory Btauto.
From S2P Require Import Prelude Mwc VmMethods VmBits Cpu.

(** ** Loops *)

Lemma loop_n_ext {A} n i (f g : Z -> A -> A) acc :
  (forall k a, i <= k < i + Z.of_nat n -> f k a = g k a) -> loop_n n i f acc = loop_n n i g acc.
Proof.
  revert i acc. induction n as [|n IH]; intros i acc H; cbn [loop_n]; [done|].
  rewrite (H i) by lia. apply IH. intros k a Hk. apply H. lia.
Qed.

(** an invariant of a counted loop *)
Lemma loop_inv {A} (P : Z -> A -> Prop) n i (f : Z -> A -> A) acc :
  P i acc -> (forall k a, i <= k < i + Z.of_nat n -> P k a -> P (k + 1) (f k a)) ->
  P (i + Z.of_nat n) (loop_n n i f acc).
Proof.
  revert i acc. induction n as [|n IH]; intros i acc H0 HS; cbn [loop_n].
  - by replace (i + Z.of_nat 0) with i by lia.
  - replace (i + Z.of_nat (S n)) with (i + 1 + Z.of_nat n) by lia. apply IH.
    + apply HS; [lia|done].
    + intros k a Hk. apply HS. lia.
Qed.

Lemma check_fail_ok verify bad what s : bad = false -> check_fail verify bad what s = s.
Proof. intros ->. unfold check_fail. by rewrite andb_false_r. Qed.

(** ** gcd *)

Lemma gcd_step a b : 0 < b -> Z.gcd b (a mod b) = Z.gcd a b.
Proof. intros Hb. rewrite Z.gcd_comm, Z.gcd_mod by lia. apply Z.gcd_comm. Qed.

(** the second remainder is less than half of the divisor *)
Lemma mod_mod_half b r : 0 < r < b -> 2 * (b mod r) < b.
Proof.
  intros Hr. pose proof (Z.div_mod b r ltac:(lia)).
  pose proof (Z.mod_pos_bound b r ltac:(lia)).
  assert (1 <= b / r) by (apply Z.div_le_lower_bound; lia). nia.
Qed.

Lemma gcd_loop_spec k a b :
  0 <= a -> 0 <= b < 2 ^ Z.of_nat k -> gcd_loop (S (2 * k)) a b = Z.gcd a b.
Proof.
  revert a b. induction k as [|k IH]; intros a b Ha Hb.
  - change (2 ^ Z.of_nat 0) with 1 in Hb. replace b with 0 by lia. simpl.
    by rewrite Z.gcd_0_r, Z.abs_eq.
  - replace (S (2 * S k)) with (S (S (S (2 * k)))) by lia.
    set (fuel := S (2 * k)) in *. cbn [gcd_loop].
    destruct (Z.eqb_spec b 0) as [->|Hb0]; [by rewrite Z.gcd_0_r, Z.abs_eq|].
    pose proof (Z.mod_pos_bound a b ltac:(lia)) as Hr. rewrite <- (gcd_step a b) by lia.
    set (r := a mod b) in *.
    destruct (Z.eqb_spec r 0) as [->|Hr0]; [rewrite Z.gcd_0_r, Z.abs_eq by lia; done|].
    rewrite <- (gcd_step b r) by lia.
    pose proof (Z.mod_pos_bound b r ltac:(lia)). pose proof (mod_mod_half b r ltac:(lia)).
    rewrite Nat2Z.inj_succ, Z.pow_succ_r in Hb by lia. apply IH; lia.
Qed.

Lemma gcd32_correct a b : 0 <= a -> fits 32 b -> gcd32 a b = Z.gcd a b.
Proof. intros Ha Hb. by apply (gcd_loop_spec 32). Qed.

(** ** Hanoi: [2^n] moves, counted on a [uint32_t] *)

Lemma hanoi_pow2 n p1 p2 p3 : (n < 32)%nat -> hanoi n p1 p2 p3 = 2 ^ Z.of_nat n.
Proof.
  revert p1 p2 p3. induction n as [|n IH]; intros p1 p2 p3 Hn; cbn [hanoi]; [done|].
  rewrite !IH by lia. rewrite Nat2Z.inj_succ, Z.pow_succ_r by lia.
  rewrite u32_small; [lia|]. split; [lia|].
  assert (2 ^ Z.of_nat n <= 2 ^ 30) by (apply Z.pow_le_mono_r; lia). lia.
Qed.

(** ** ackermann *)

Lemma ackermann_0 n : Z.of_nat n + 1 < 2 ^ 32 -> ackermann 0 n = S n.
Proof. intros Hn. cbn [ackermann]. rewrite u32_small by (unfold fits; lia). lia. Qed.

Lemma ackermann_1 n : Z.of_nat n + 2 < 2 ^ 32 -> ackermann 1 n = (n + 2)%nat.
Proof.
  intros Hn. induction n as [|n IH].
  - change (ackermann 1 0) with (ackermann 0 1). apply ackermann_0. lia.
  - change (ackermann 1 (S n)) with (ackermann 0 (ackermann 1 n)). rewrite IH by lia.
    rewrite ackermann_0 by lia. lia.
Qed.

Lemma ackermann_2 n : Z.of_nat (2 * n + 3) < 2 ^ 32 -> ackermann 2 n = (2 * n + 3)%nat.
Proof.
  intros Hn. induction n as [|n IH].
  - change (ackermann 2 0) with (ackermann 1 1). apply ackermann_1. lia.
  - change (ackermann 2 (S n)) with (ackermann 1 (ackermann 2 n)). rewrite IH by lia.
    rewrite ackermann_1 by lia. lia.
Qed.

Lemma ackermann_3 n :
  2 ^ (Z.of_nat n + 3) < 2 ^ 32 -> Z.of_nat (ackermann 3 n) = 2 ^ (Z.of_nat n + 3) - 3.
Proof.
  induction n as [|n IH]; intros Hn.
  - change (ackermann 3 0) with (ackermann 2 1). rewrite ackermann_2 by lia. done.
  - change (ackermann 3 (S n)) with (ackermann 2 (ackermann 3 n)).
    replace (Z.of_nat (S n) + 3) with (Z.succ (Z.of_nat n + 3)) in * by lia.
    rewrite Z.pow_succ_r in * by lia.
    assert (0 < 2 ^ (Z.of_nat n + 3)) by (apply Z.pow_pos_nonneg; lia).
    specialize (IH ltac:(lia)). rewrite ackermann_2; lia.
Qed.

(** ** Gray codes *)

(** [x ^ (x >> k)] twice is [x ^ (x >> 2k)] *)
Lemma xorshift_twice x k :
  0 <= k -> (x .^ (x >>> k)) .^ ((x .^ (x >>> k)) >>> k) = x .^ (x >>> (2 * k)).
Proof.
  intros Hk. rewrite Z.shiftr_lxor, Z.shiftr_shiftr by done.
  replace (k + k) with (2 * k) by lia.
  rewrite Z.lxor_assoc, <- (Z.lxor_assoc (x >>> k)), Z.lxor_nilpotent, Z.lxor_0_l. done.
Qed.

Lemma shiftr_all x n : 0 <= n -> fits n x -> x >>> n = 0.
Proof. intros Hn [Hx Hlt]. rewrite Z.shiftr_div_pow2 by done. by apply Z.div_small. Qed.

Lemma gray_roundtrip i : fits 32 i -> gray_decode (gray_encode i) = i.
Proof.
  intros Hi. unfold gray_decode, gray_encode. rewrite (Z.lxor_comm (i >>> 1) i).
  rewrite (xorshift_twice i 1 ltac:(lia) : _ = i .^ (i >>> 2)).
  rewrite (xorshift_twice i 2 ltac:(lia) : _ = i .^ (i >>> 4)).
  rewrite (xorshift_twice i 4 ltac:(lia) : _ = i .^ (i >>> 8)).
  rewrite (xorshift_twice i 8 ltac:(lia) : _ = i .^ (i >>> 16)).
  rewrite (xorshift_twice i 16 ltac:(lia) : _ = i .^ (i >>> 32)).
  rewrite (shiftr_all i 32) by done. apply Z.lxor_0_r.
Qed.

Lemma gray_encode_fits n i : 0 <= n -> fits n i -> fits n (gray_encode i).
Proof. intros Hn Hi. unfold gray_encode. apply fits_lxor; [done| |done]. by apply fits_shiftr. Qed.

(** ** Parity *)

(** the exclusive or of the lowest [n] bits *)
Fixpoint par (n : nat) (v : Z) : bool :=
  match n with O => false | S n => xorb (Z.testbit v (Z.of_nat n)) (par n v) end.

Lemma par_lxor n x y : par n (x .^ y) = xorb (par n x) (par n y).
Proof.
  induction n as [|n IH]; cbn [par]; [done|]. rewrite Z.lxor_spec, IH.
  by destruct (Z.testbit x _), (Z.testbit y _), (par n x), (par n y).
Qed.

Lemma par_split a b v : par (a + b) v = xorb (par a v) (par b (v >>> Z.of_nat a)).
Proof.
  induction b as [|b IH]; cbn [par].
  - by rewrite Nat.add_0_r, xorb_false_r.
  - rewrite <- plus_n_Sm. cbn [par]. rewrite IH, Z.shiftr_spec by lia.
    replace (Z.of_nat b + Z.of_nat a) with (Z.of_nat (a + b)) by lia.
    by destruct (Z.testbit v _), (par a v), (par b _).
Qed.

(** folding the upper half onto the lower one *)
Lemma par_fold n v : par (n + n) v = par n (v .^ (v >>> Z.of_nat n)).
Proof. by rewrite par_split, par_lxor. Qed.

Lemma par_ext n v w :
  (forall i, 0 <= i < Z.of_nat n -> Z.testbit v i = Z.testbit w i) -> par n v = par n w.
Proof.
  induction n as [|n IH]; intros H; cbn [par]; [done|]. rewrite H by lia.
  f_equal. apply IH. intros i Hi. apply H. lia.
Qed.

Lemma par_land n v m : 0 <= n -> m = Z.ones n -> par (Z.to_nat n) (v .& m) = par (Z.to_nat n) v.
Proof.
  intros Hn ->. apply par_ext. intros i Hi. rewrite Z.land_spec, Z.ones_spec_low by lia.
  apply andb_true_r.
Qed.

Lemma par_0 n : par n 0 = false.
Proof. induction n as [|n IH]; cbn [par]; [done|]. by rewrite Z.bits_0, IH. Qed.

Lemma par_popcount n v : par n v = Z.odd (popcount n v).
Proof.
  revert v. induction n as [|n IH]; intros v; [done|].
  change (S n) with (1 + n)%nat at 1. rewrite par_split. cbn [par popcount].
  rewrite IH, Z.shiftr_div_pow2, Z.odd_add by lia. change (2 ^ Z.of_nat 1) with 2.
  rewrite xorb_false_r, Z.bit0_odd. f_equal. rewrite Zmod_odd. by destruct (Z.odd v).
Qed.

Lemma par_clear n v : 0 < v < 2 ^ Z.of_nat n -> par n (v .& (v - 1)) = negb (par n v).
Proof.
  intros Hv. rewrite !par_popcount, popcount_clear by done.
  rewrite Z.odd_sub. by destruct (Z.odd _).
Qed.

Lemma parity_naive_par n v p :
  fits (Z.of_nat n) v -> parity_naive n v p = xorb p (par n v).
Proof.
  revert v p. induction n as [|n IH]; intros v p Hv; cbn [parity_naive].
  - by rewrite xorb_false_r.
  - destruct (Z.eqb_spec v 0) as [->|Hne]; [by rewrite par_0, xorb_false_r|].
    rewrite IH.
    + change (S n) with (1 + n)%nat. rewrite par_split. cbn [par].
      rewrite Z.bit0_odd, xorb_false_r. unfold c_true. rewrite land_1.
      by destruct (Z.odd v), p, (par n _).
    + unfold fits in *. rewrite Z.shiftr_div_pow2 by done. split; [apply Z.div_pos; lia|].
      apply Z.div_lt_upper_bound; [done|]. rewrite Nat2Z.inj_succ, Z.pow_succ_r in Hv; lia.
Qed.

Lemma parity_kernighan_par n k v p :
  fits (Z.of_nat n) v -> popcount n v <= Z.of_nat k ->
  parity_kernighan k v p = xorb p (par n v).
Proof.
  revert v p. induction k as [|k IH]; intros v p Hv Hk; cbn [parity_kernighan].
  - pose proof (popcount_bounds n v). rewrite par_popcount.
    replace (popcount n v) with 0 by lia. by rewrite xorb_false_r.
  - destruct (Z.eqb_spec v 0) as [->|Hne]; [by rewrite par_0, xorb_false_r|].
    assert (0 < v < 2 ^ Z.of_nat n) by (unfold fits in Hv; lia).
    rewrite IH, par_clear by (try rewrite popcount_clear; try apply clear_fits; lia || done).
    by destruct p, (par n v).
Qed.

(** the bits 0, 4, 8, ... of [x] *)
Lemma land_nybbles x m :
  0 <= m -> x .& (1 + 16 * m) = b2z (Z.testbit x 0) + 16 * ((x >>> 4) .& m).
Proof.
  intros Hm. rewrite Z.shiftr_div_pow2 by done. change (2 ^ 4) with 16.
  pose proof (Z.div_mod x 16 ltac:(lia)) as Hx. set (q := x / 16) in *.
  pose proof (Z.mod_pos_bound x 16 ltac:(lia)) as Hr. set (r := x mod 16) in *.
  assert (b2z (Z.testbit x 0) = r .& 1) as ->.
  { rewrite Z.bit0_odd, land_1, Hx, Z.odd_add, Z.odd_mul. simpl. by destruct (Z.odd r). }
  apply Z.bits_inj'. intros i Hi.
  assert (forall y z, 0 <= y < 16 -> Z.testbit (y + 16 * z) i =
    if i <? 4 then Z.testbit y i else Z.testbit z (i - 4)) as Hb.
  { intros y z Hy. destruct (Z.ltb_spec i 4).
    - rewrite <- (Z.mod_pow2_bits_low (y + 16 * z) 4) by lia.
      replace (y + 16 * z) with (y + z * 2 ^ 4) by lia. rewrite Z.mod_add by lia.
      by rewrite Z.mod_pow2_bits_low by lia.
    - replace i with (i - 4 + 4) at 1 by lia. rewrite <- Z.shiftr_spec by lia.
      rewrite Z.shiftr_div_pow2 by lia. replace (y + 16 * z) with (y + z * 2 ^ 4) by lia.
      rewrite Z.div_add, Z.div_small by lia. done. }
  rewrite Z.land_spec. rewrite Hx. rewrite (Z.add_comm (16 * q)), (Z.add_comm (r .& 1)).
  rewrite (Z.add_comm (16 * _)).
  rewrite !Hb by (try lia; rewrite land_1; pose proof (b2z_bounds (Z.odd r)); lia).
  destruct (i <? 4); by rewrite Z.land_spec.
Qed.

(** [v ^= v >> 1; v ^= v >> 2] leaves the parity of the nybble [k] in bit [4k] *)
Lemma nybble_parity v k :
  0 <= k ->
  let v1 := v .^ (v >>> 1) in Z.testbit (v1 .^ (v1 >>> 2)) k = par 4 (v >>> k).
Proof.
  intros Hk v1. unfold v1. cbn [par]. rewrite !Z.lxor_spec, !Z.shiftr_spec by lia.
  rewrite !Z.lxor_spec, !Z.shiftr_spec by lia.
  replace (k + 2 + 1) with (k + 3) by lia.
  replace (Z.of_nat 3 + k) with (k + 3) by lia. replace (Z.of_nat 2 + k) with (k + 2) by lia.
  replace (Z.of_nat 1 + k) with (k + 1) by lia. replace (Z.of_nat 0 + k) with k by lia.
  by destruct (Z.testbit v k), (Z.testbit v (k + 1)), (Z.testbit v (k + 2)), (Z.testbit v (k + 3)).
Qed.

Lemma par_nybbles v :
  par 32 v = foldr xorb false ((fun k => par 4 (v >>> (4 * k))) <$> [0; 1; 2; 3; 4; 5; 6; 7]).
Proof.
  change 32%nat with (4 + (4 + (4 + (4 + (4 + (4 + (4 + 4))))))%nat)%nat.
  rewrite !par_split, !Z.shiftr_shiftr by lia. cbn [fmap list_fmap foldr].
  rewrite (Z.shiftr_0_r v : v >>> (4 * 0) = v). by rewrite xorb_false_r.
Qed.

Lemma multiply_bits b0 b1 b2 b3 b4 b5 b6 b7 :
  (u32 ((b2z b0 + 16 * (b2z b1 + 16 * (b2z b2 + 16 * (b2z b3 + 16 * (b2z b4 + 16 * (b2z b5 +
     16 * (b2z b6 + 16 * (b2z b7 + 16 * 0)))))))) * 0x11111111) >>> 28) .& 1 =
  b2z (foldr xorb false [b0; b1; b2; b3; b4; b5; b6; b7]).
Proof. by destruct b0, b1, b2, b3, b4, b5, b6, b7. Qed.

Lemma parity_multiply_par v : parity_multiply v = b2z (par 32 v).
Proof.
  unfold parity_multiply. rewrite par_nybbles. cbn [fmap list_fmap]. rewrite <- multiply_bits.
  do 4 f_equal. set (w := _ .^ _).
  assert (forall k, 0 <= k -> Z.testbit (w >>> k) 0 = par 4 (v >>> k)) as Hw.
  { intros k Hk. rewrite Z.shiftr_spec by lia. by apply (nybble_parity v k). }
  change 0x11111111 with (1 + 16 * (1 + 16 * (1 + 16 * (1 + 16 * (1 + 16 * (1 + 16 *
    (1 + 16 * (1 + 16 * 0)))))))).
  rewrite !land_nybbles by lia. rewrite Z.land_0_r, !Z.shiftr_shiftr by lia.
  rewrite !Hw by lia. pose proof (Hw 0 ltac:(lia)) as H0. rewrite Z.shiftr_0_r in H0 at 1.
  by rewrite H0.
Qed.

Lemma fold_nybble_par v : 0 <= fold_nybble v < 16 /\ par 4 (fold_nybble v) = par 32 v.
Proof.
  unfold fold_nybble. split.
  - rewrite (Z.land_ones _ 4) by done. by apply Z.mod_pos_bound.
  - rewrite (par_land 4) by done. change (Z.to_nat 4) with 4%nat.
    by rewrite <- (par_fold 4), <- (par_fold 8), <- (par_fold 16).
Qed.

Lemma par4_table x : 0 <= x < 16 -> (0x6996 >>> x) .& 1 = b2z (par 4 x).
Proof.
  intros Hx. assert (forallb (fun i => ((0x6996 >>> Z.of_nat i) .& 1 =? b2z (par 4 (Z.of_nat i))))
    (seq 0 16) = true) as H by (vm_compute; reflexivity).
  rewrite List.forallb_forall in H. specialize (H (Z.to_nat x)).
  rewrite Z2Nat.id in H by lia. apply Z.eqb_eq, H, list_elem_of_In, elem_of_seq. lia.
Qed.

Lemma parity_at_par x : 0 <= x < 256 -> parity_at x = par 8 x.
Proof.
  intros Hx. assert (forallb (fun i => Bool.eqb (parity_at (Z.of_nat i)) (par 8 (Z.of_nat i)))
    (seq 0 256) = true) as H by (vm_compute; reflexivity).
  rewrite List.forallb_forall in H. specialize (H (Z.to_nat x)).
  rewrite Z2Nat.id in H by lia. apply eqb_prop, H, list_elem_of_In, elem_of_seq. lia.
Qed.

Lemma parity_parallel_par v : parity_parallel v = b2z (par 32 v).
Proof.
  unfold parity_parallel. destruct (fold_nybble_par v) as [Hb <-]. by apply par4_table.
Qed.

Lemma parity_lookup1_par v : parity_lookup1 v = par 32 v.
Proof.
  unfold parity_lookup1. rewrite parity_at_par.
  - rewrite (par_land 8) by done. change (Z.to_nat 8) with 8%nat.
    by rewrite <- (par_fold 8), <- (par_fold 16).
  - rewrite (Z.land_ones _ 8) by done. by apply Z.mod_pos_bound.
Qed.

Lemma par_u8 v : par 8 (u8 v) = par 8 v.
Proof. apply par_ext. intros i Hi. unfold u8. by rewrite Z.mod_pow2_bits_low by lia. Qed.

Lemma parity_lookup2_par v : parity_lookup2 v = par 32 v.
Proof.
  unfold parity_lookup2. rewrite parity_at_par.
  - rewrite !par_lxor, !par_u8. change 32%nat with (8 + (8 + (8 + 8)))%nat.
    rewrite !par_split, !Z.shiftr_shiftr by lia. by rewrite <- !xorb_assoc.
  - repeat apply (fits_lxor 8); auto with cword.
Qed.

Lemma parity_naive32 v : fits 32 v -> parity_naive 32 v false = par 32 v.
Proof. intros Hv. rewrite parity_naive_par by done. apply xorb_false_l. Qed.

Lemma parity_kernighan32 v : fits 32 v -> parity_kernighan 32 v false = par 32 v.
Proof.
  intros Hv. rewrite (parity_kernighan_par 32) by (try done; apply popcount_bounds).
  apply xorb_false_l.
Qed.

Lemma parity_round_silent verify v s : fits 32 v -> parity_round verify v s = s.
Proof.
  intros Hv. unfold parity_round. rewrite parity_naive32, parity_kernighan32 by done.
  rewrite parity_multiply_par, parity_parallel_par, parity_lookup1_par, parity_lookup2_par.
  rewrite !Z.eqb_refl, !eqb_reflx. by rewrite !check_fail_ok.
Qed.

(** ** CRC *)

Lemma crc16_bit_linear v1 v2 c1 c2 :
  crc16_bit (v1 .^ v2) (c1 .^ c2) = crc16_bit v1 c1 .^ crc16_bit v2 c2.
Proof.
  unfold crc16_bit. rewrite Z.shiftr_lxor.
  assert (forall x, c_true (1 .& x) = Z.odd x) as Hc.
  { intros x. rewrite Z.land_comm, land_1. by destruct (Z.odd x). }
  rewrite !Hc. rewrite <- !Z.bit0_odd, !Z.lxor_spec, !Z.bit0_odd.
  destruct (Z.odd v1), (Z.odd v2), (Z.odd c1), (Z.odd c2); cbn [xorb];
    rewrite ?Z.lxor_0_r, ?Z.lxor_0_l; apply Z.bits_inj'; intros i Hi;
    rewrite !Z.lxor_spec; btauto.
Qed.

Lemma crc16_byte_linear n v1 v2 c1 c2 :
  crc16_byte n (v1 .^ v2) (c1 .^ c2) = crc16_byte n v1 c1 .^ crc16_byte n v2 c2.
Proof.
  revert v1 v2 c1 c2. induction n as [|n IH]; intros v1 v2 c1 c2; cbn [crc16_byte]; [done|].
  by rewrite Z.shiftr_lxor, crc16_bit_linear, IH.
Qed.

Lemma crc16_bit_fits v c : fits 16 c -> fits 16 (crc16_bit v c).
Proof.
  intros Hc. unfold crc16_bit. apply fits_lxor; [done|by apply fits_shiftr|].
  by destruct (c_true _).
Qed.

Lemma crc16_byte_fits n v c : fits 16 c -> fits 16 (crc16_byte n v c).
Proof.
  revert v c. induction n as [|n IH]; intros v c Hc; cbn [crc16_byte]; [done|].
  apply IH. by apply crc16_bit_fits.
Qed.

(** a state that is not zero stays so while zero bits are fed *)
Lemma crc16_bit_nonzero c : fits 16 c -> c <> 0 -> crc16_bit 0 c <> 0.
Proof.
  intros Hc Hne H. unfold crc16_bit in H. rewrite Z.lxor_0_l in H.
  apply Z.lxor_eq in H.
  assert (Z.testbit (c >>> 1) 15 = false) as Hb.
  { rewrite Z.shiftr_spec by lia. apply (fits_testbit_high 16); [done|done|lia]. }
  rewrite H in Hb. destruct (c_true (1 .& c)) eqn:Ho; [by vm_compute in Hb|].
  rewrite Z.land_comm, land_1 in Ho. destruct (Z.odd c) eqn:Hodd; [done|].
  apply Hne. rewrite Z.shiftr_div_pow2 in H by done.
  pose proof (Z.div_mod c 2). rewrite Zmod_odd, Hodd in *. change (2 ^ 1) with 2 in H. lia.
Qed.

Lemma crc16_byte_nonzero n c : fits 16 c -> c <> 0 -> crc16_byte n 0 c <> 0.
Proof.
  revert c. induction n as [|n IH]; intros c Hc Hne; cbn [crc16_byte]; [done|].
  apply IH; [by apply crc16_bit_fits|by apply crc16_bit_nonzero].
Qed.

(** a byte that is not zero makes a zero state nonzero *)
Lemma crc16_byte_injects v : 0 <= v < 256 -> v <> 0 -> crc16_byte 8 v 0 <> 0.
Proof.
  intros Hv Hne.
  assert (forallb (fun i => negb (crc16_byte 8 (Z.of_nat i) 0 =? 0)) (seq 1 255) = true) as H
    by (vm_compute; reflexivity).
  rewrite List.forallb_forall in H. specialize (H (Z.to_nat v)).
  rewrite Z2Nat.id in H by lia. apply Z.eqb_neq, negb_true_iff, H, list_elem_of_In, elem_of_seq. lia.
Qed.

Lemma lxor_ne x y : x <> y <-> x .^ y <> 0.
Proof. split; intros H Hx; apply H; [by apply Z.lxor_eq|]. subst. apply Z.lxor_nilpotent. Qed.

Lemma crc16_data_cons d l c : crc16_data (d :: l) c = crc16_data l (crc16_byte 8 (0xff .& d) c).
Proof. done. Qed.

(** states that differ stay different while the same data is fed *)
Lemma crc16_data_differs l c1 c2 :
  fits 16 c1 -> fits 16 c2 -> c1 <> c2 -> crc16_data l c1 <> crc16_data l c2.
Proof.
  revert c1 c2. induction l as [|d l IH]; intros c1 c2 H1 H2 Hne; [done|].
  rewrite !crc16_data_cons. apply IH; [by apply crc16_byte_fits|by apply crc16_byte_fits|].
  apply lxor_ne. rewrite <- crc16_byte_linear, Z.lxor_nilpotent.
  apply crc16_byte_nonzero; [by apply fits_lxor|]. by apply (proj1 (lxor_ne c1 c2)).
Qed.

Lemma crc16_data_fits l c : fits 16 c -> fits 16 (crc16_data l c).
Proof.
  revert c. induction l as [|d l IH]; intros c Hc; [done|]. rewrite crc16_data_cons.
  apply IH. by apply crc16_byte_fits.
Qed.

Lemma crc16_data_app l1 l2 c : crc16_data (l1 ++ l2) c = crc16_data l2 (crc16_data l1 c).
Proof. apply foldl_app. Qed.

Lemma not16_testbit c k : 0 <= k < 16 -> Z.testbit (not16 c) k = negb (Z.testbit c k).
Proof.
  intros Hk. unfold not16, u16. rewrite Z.mod_pow2_bits_low by lia. by rewrite Z.lnot_spec by lia.
Qed.

(** the final complement and byte swap lose nothing *)
Lemma crc16_final_inj c1 c2 :
  fits 16 c1 -> fits 16 c2 ->
  u16 (not16 c1 <<< 8) .| (not16 c1 >>> 8) = u16 (not16 c2 <<< 8) .| (not16 c2 >>> 8) -> c1 = c2.
Proof.
  intros H1 H2 H. apply Z.bits_inj'. intros i Hi.
  destruct (Z.lt_ge_cases i 16) as [Hlt|Hge]; [|by rewrite !(fits_testbit_high 16) by (lia || done)].
  assert (forall c k, 0 <= k < 16 -> Z.testbit (u16 (not16 c <<< 8) .| (not16 c >>> 8)) k =
    negb (Z.testbit c (if k <? 8 then k + 8 else k - 8))) as Hb.
  { intros c k Hk. rewrite Z.lor_spec, Z.shiftr_spec by lia. unfold u16 at 1.
    rewrite mod_pow2_testbit, shiftl_testbit by lia. destruct (Z.ltb_spec k 8).
    - rewrite (proj2 (Z.leb_gt 8 k)) by lia. rewrite andb_false_r. apply not16_testbit. lia.
    - rewrite (proj2 (Z.leb_le 8 k)), (proj2 (Z.ltb_lt k 16)) by lia.
      rewrite (fits_testbit_high 16 (not16 c) (k + 8)), orb_false_r by (lia || apply u16_fits).
      apply not16_testbit. lia. }
  set (k := if i <? 8 then i + 8 else i - 8).
  pose proof (f_equal (fun z => Z.testbit z k) H) as Hk. cbv beta in Hk.
  assert (0 <= k < 16 /\ (if k <? 8 then k + 8 else k - 8) = i) as [Hkb Hki].
  { unfold k. destruct (Z.ltb_spec i 8).
    - rewrite (proj2 (Z.ltb_ge (i + 8) 8)) by lia. lia.
    - rewrite (proj2 (Z.ltb_lt (i - 8) 8)) by lia. lia. }
  rewrite !Hb, Hki in Hk by done. by apply negb_sym in Hk; rewrite negb_involutive in Hk.
Qed.
