(* ===== verification/CpuPrimes.v ===== *)
(** * Primality tests of stress-cpu.c *)

From Stdlib Require Import Znumtheory.
Set Warnings "-deprecated".
From S2P Require Import Prelude Mwc Cpu CpuProofs.

(** ** [is_prime()] *)

Lemma eqb_mod_divide n d : d <> 0 -> (n mod d =? 0) = true <-> (d | n).
Proof. intros Hd. rewrite Z.eqb_eq. by rewrite Z.mod_divide. Qed.

(** the loop answers whether a number 6k - 1 or 6k + 1 below [max] divides [n] *)
Lemma prime_loop_spec fuel n i max :
  5 <= i -> max <= i + 6 * Z.of_nat fuel ->
  prime_loop fuel n i max = true <->
  forall k, 0 <= k -> i + 6 * k < max -> ~ (i + 6 * k | n) /\ ~ (i + 6 * k + 2 | n).
Proof.
  revert i. induction fuel as [|fuel IH]; intros i Hi Hmax; cbn [prime_loop].
  - split; [|done]. intros _ k Hk Hlt. lia.
  - destruct (Z.ltb_spec i max) as [Hlt|Hge].
    2: { split; [|done]. intros _ k Hk Hlt. lia. }
    destruct (_ || _) eqn:Hor.
    + split; [done|]. intros H. exfalso. destruct (H 0) as [H1 H2]; [lia|lia|].
      rewrite Z.mul_0_r, Z.add_0_r in *.
      apply orb_true_iff in Hor as [Hd|Hd]; apply eqb_mod_divide in Hd; (done || lia).
    + apply orb_false_iff in Hor as [H1 H2].
      rewrite (IH (i + 6)) by lia. split.
      * intros H k Hk Hlt'. destruct (Z.eq_dec k 0) as [->|Hne].
        -- rewrite Z.mul_0_r, Z.add_0_r.
           split; intros Hd; apply eqb_mod_divide in Hd; try lia; congruence.
        -- replace (i + 6 * k) with (i + 6 + 6 * (k - 1)) by lia. apply H; lia.
      * intros H k Hk Hlt'. replace (i + 6 + 6 * k) with (i + 6 * (k + 1)) by lia. apply H; lia.
Qed.

(** a composite number has a divisor up to its square root *)
Lemma small_divisor n : 1 < n -> ~ prime n -> exists d, 1 < d /\ d * d <= n /\ (d | n).
Proof.
  intros Hn Hp. destruct (not_prime_divide n Hn Hp) as (d & Hd & e & He).
  destruct (Z.le_gt_cases (d * d) n).
  - exists d. split; [lia|]. split; [lia|]. by exists e.
  - exists e. assert (1 < e) by nia. split; [lia|]. split; [nia|]. exists d. lia.
Qed.

Lemma divisor_proper n d : prime n -> 1 < d < n -> ~ (d | n).
Proof. intros Hp Hd Hdiv. destruct (prime_divisors n Hp d Hdiv); lia. Qed.

Lemma sqrt_square_le n d : 0 <= n -> 0 <= d -> d * d <= n <-> d <= Z.sqrt n.
Proof. intros Hn Hd. apply Z.sqrt_le_square; lia. Qed.

Lemma is_prime_correct n : fits 32 n -> is_prime n = true <-> prime n.
Proof.
  intros Hn. unfold is_prime, fits in *. destruct (Z.leb_spec n 3) as [H3|H3].
  { rewrite Z.leb_le. split.
    - intros H2. assert (n = 2 \/ n = 3) as [->| ->] by lia; [apply prime_2|apply prime_3].
    - intros Hp. apply prime_ge_2 in Hp. lia. }
  destruct (_ || _) eqn:Hor.
  { split; [done|]. intros Hp. exfalso.
    apply orb_true_iff in Hor as [Hd|Hd]; apply eqb_mod_divide in Hd; try lia;
      eapply divisor_proper in Hd; (done || lia). }
  apply orb_false_iff in Hor as [H2 H3'].
  assert (Z.sqrt n < 65536) as Hs by (apply Z.sqrt_lt_square; lia).
  rewrite prime_loop_spec by lia. split.
  - intros H. destruct (prime_dec n) as [|Hnp]; [done|exfalso].
    destruct (small_divisor n ltac:(lia) Hnp) as (d & Hd1 & Hdd & Hdn).
    apply sqrt_square_le in Hdd; [|lia|lia].
    assert (forall q, 1 < q -> (n mod q =? 0) = false -> d mod q <> 0) as Hq.
    { intros q Hq1 Hq2 Hdq. apply Z.mod_divide in Hdq; [|lia].
      assert (q | n) as Hqn by (by apply Z.divide_trans with d).
      apply eqb_mod_divide in Hqn; [congruence|lia]. }
    pose proof (Hq 2 ltac:(lia) H2) as M2. pose proof (Hq 3 ltac:(lia) H3') as M3.
    assert (exists k, 0 <= k /\ (d = 5 + 6 * k \/ d = 5 + 6 * k + 2)) as (k & Hk & Hdk).
    { exists ((d - 5) / 6). Z.div_mod_to_equations. lia. }
    destruct (H k) as [N1 N2]; [done|lia|]. destruct Hdk; subst d; done.
  - intros Hp k Hk Hlt. assert (5 + 6 * k <= Z.sqrt n) as Hle by lia.
    assert (25 <= n) by (pose proof (proj2 (sqrt_square_le n 5 ltac:(lia) ltac:(lia))); lia).
    apply sqrt_square_le in Hle; [|lia|lia].
    split; apply divisor_proper; (done || nia).
Qed.

(** ** The sieve *)

Lemma c_true_bit w b : 0 <= b -> c_true (w .& (1 <<< b)) = Z.testbit w b.
Proof.
  intros Hb. unfold c_true. rewrite Z.shiftl_1_l.
  destruct (Z.testbit w b) eqn:Ht.
  - destruct (Z.eqb_spec (w .& 2 ^ b) 0) as [H|]; [|done].
    apply (f_equal (fun z => Z.testbit z b)) in H. cbv beta in H.
    by rewrite Z.land_spec, Ht, Z.pow2_bits_true, Z.bits_0 in H by lia.
  - replace (w .& 2 ^ b) with 0; [done|]. symmetry. apply Z.bits_inj'. intros i Hi.
    rewrite Z.land_spec, Z.bits_0, Z.pow2_bits_eqb by lia.
    destruct (Z.eqb_spec b i) as [<-|]; [by rewrite Ht|]. apply andb_false_r.
Qed.

Lemma land_31 i : i .& 31 = i mod 32.
Proof. by apply (Z.land_ones i 5). Qed.

(** the macros on the bits *)
Lemma getbit_testbit a i :
  0 <= i -> STRESS_GETBIT a i = Z.testbit (default 0 (a !! Z.to_nat (i / 32))) (i mod 32).
Proof.
  intros Hi. unfold STRESS_GETBIT. rewrite land_31. apply c_true_bit.
  apply Z.mod_pos_bound. lia.
Qed.

Lemma getbit_clrbit a j k :
  0 <= j -> 0 <= k ->
  STRESS_GETBIT (STRESS_CLRBIT a j) k = (if k =? j then false else STRESS_GETBIT a k).
Proof.
  intros Hj Hk. rewrite !getbit_testbit by done. unfold STRESS_CLRBIT. rewrite land_31.
  pose proof (Z.mod_pos_bound j 32 ltac:(lia)) as Hm.
  pose proof (Z.mod_pos_bound k 32 ltac:(lia)) as Hmk.
  pose proof (Z.div_mod j 32 ltac:(lia)). pose proof (Z.div_mod k 32 ltac:(lia)).
  assert (0 <= j / 32) by (apply Z.div_pos; lia). assert (0 <= k / 32) by (apply Z.div_pos; lia).
  destruct (decide (Z.to_nat (j / 32) = Z.to_nat (k / 32))) as [Heq|Hne].
  - rewrite Heq. destruct (decide (Z.to_nat (k / 32) < length a)%nat) as [Hlt|Hge].
    + rewrite list_lookup_insert_eq by done. simpl. rewrite Z.land_spec. unfold not32, u32.
      rewrite Z.mod_pow2_bits_low, Z.lnot_spec, Z.shiftl_1_l, Z.pow2_bits_eqb by lia.
      destruct (Z.eqb_spec k j) as [->|Hkj].
      * by rewrite Z.eqb_refl, andb_false_r.
      * destruct (Z.eqb_spec (j mod 32) (k mod 32)); [lia|]. apply andb_true_r.
    + rewrite list_insert_ge by lia. rewrite lookup_ge_None_2 by lia. simpl.
      rewrite Z.bits_0. by destruct (k =? j).
  - rewrite list_lookup_insert_ne by done. destruct (Z.eqb_spec k j) as [->|]; done.
Qed.

Lemma sieve_clear_spec n i j size s k :
  0 < i -> 0 <= j -> 0 <= k < size -> size <= j + i * Z.of_nat n ->
  STRESS_GETBIT (sieve_clear n i j size s) k = true <->
  STRESS_GETBIT s k = true /\ forall t, 0 <= t -> k <> j + i * t.
Proof.
  intros Hi. revert j s. induction n as [|n IH]; intros j s Hj Hk Hn; cbn [sieve_clear].
  - split; [|tauto]. intros H. split; [done|]. intros t Ht. nia.
  - destruct (Z.ltb_spec j size).
    + rewrite IH, getbit_clrbit by lia. destruct (Z.eqb_spec k j) as [->|Hne].
      * split; [by intros [? _]|]. intros [_ H1]. exfalso. apply (H1 0); lia.
      * split; intros [H1 H2]; (split; [done|]); intros t Ht.
        -- destruct (Z.eq_dec t 0) as [->|]; [lia|].
           specialize (H2 (t - 1) ltac:(lia)). lia.
        -- specialize (H2 (t + 1) ltac:(lia)). lia.
    + split; [|tauto]. intros H1. split; [done|]. intros t Ht. nia.
Qed.

(** the multiples of [i] from its square on *)
Lemma multiples_from_square i k :
  0 < i -> (exists t, 0 <= t /\ k = i * i + i * t) <-> (i | k) /\ i * i <= k.
Proof.
  intros Hi. split.
  - intros (t & Ht & ->). split; [|nia]. exists (i + t). lia.
  - intros [[q ->] Hle]. exists (q - i). split; nia.
Qed.

(** [k] has no prime factor below [i] up to its square root *)
Definition sieved (i k : Z) : Prop := forall q, prime q -> q < i -> (q | k) -> k < q * q.

Lemma prime_factor n : 1 < n -> exists p, prime p /\ (p | n).
Proof.
  intros Hn. assert (0 <= n) as H0 by lia. revert Hn.
  apply (Zlt_0_ind (fun n => 1 < n -> exists p, prime p /\ (p | n))); [|done].
  intros x IH Hx H1. destruct (prime_dec x) as [|Hnp]; [by exists x|].
  destruct (not_prime_divide x H1 Hnp) as (d & Hd & Hdx).
  destruct (IH d) as (p & Hp & Hpd); [lia|lia|]. exists p. split; [done|].
  by apply Z.divide_trans with d.
Qed.

Lemma small_prime_divisor n :
  1 < n -> ~ prime n -> exists p, prime p /\ p * p <= n /\ (p | n).
Proof.
  intros Hn Hp. destruct (small_divisor n Hn Hp) as (d & Hd & Hdd & Hdn).
  destruct (prime_factor d Hd) as (p & Hpp & Hpd). exists p. split; [done|].
  assert (1 < p) by (apply prime_ge_2 in Hpp; lia).
  assert (p <= d) by (apply Z.divide_pos_le; [lia|done]).
  split; [nia|]. by apply Z.divide_trans with d.
Qed.

Lemma sieved_prime i k : 1 < k -> (k <= i \/ forall q, prime q -> q * q <= k -> q < i) ->
  sieved i k -> k < i \/ prime k.
Proof.
  intros Hk Hi Hs. destruct (prime_dec k) as [|Hnp]; [by right|].
  destruct (small_prime_divisor k Hk Hnp) as (p & Hp & Hpp & Hpk).
  assert (1 < p) by (apply prime_ge_2 in Hp; lia).
  assert (p < i) by (destruct Hi; [nia|auto]). specialize (Hs p Hp ltac:(lia) Hpk). lia.
Qed.

Lemma prime_sieved i k : prime k -> sieved i k.
Proof.
  intros Hk q Hq Hlt Hdiv. pose proof (prime_ge_2 _ Hk). pose proof (prime_ge_2 _ Hq).
  destruct (Z.eq_dec q k) as [->|Hne]; [nia|]. exfalso.
  assert (q <= k) by (apply Z.divide_pos_le; [lia|done]).
  by apply (divisor_proper k q Hk ltac:(lia)).
Qed.

Lemma sieve_mark_sieved size k :
  4 <= size -> 0 <= k < size ->
  STRESS_GETBIT (sieve_mark size) k = true <-> sieved (Z.max 2 (Z.sqrt size)) k.
Proof.
  intros Hsz Hk. unfold sieve_mark, loop.
  assert (2 <= Z.sqrt size) as Hs2 by (apply (sqrt_square_le size 2); lia).
  assert (Z.sqrt size <= size) as Hle by (apply Z.sqrt_le_lin; lia).
  replace (Z.max 2 (Z.sqrt size)) with (2 + Z.of_nat (Z.to_nat (Z.sqrt size - 2))) by lia.
  revert k Hk.
  apply (loop_inv (fun i s => forall k, 0 <= k < size -> STRESS_GETBIT s k = true <-> sieved i k)).
  - intros k Hk. rewrite getbit_testbit by lia.
    assert (Z.to_nat (k / 32) < Z.to_nat ((size + 31) / 32))%nat as Hlt.
    { assert (k / 32 < (size + 31) / 32); [|pose proof (Z.div_pos k 32); lia].
      Z.div_mod_to_equations. lia. }
    rewrite lookup_replicate_2 by done. simpl.
    pose proof (Z.mod_pos_bound k 32 ltac:(lia)).
    rewrite (Z.ones_spec_low 32) by lia. split; [|done]. intros _ q Hq Hq2.
    apply prime_ge_2 in Hq. lia.
  - intros i s Hi IH k Hk. pose proof (Z.sqrt_spec size ltac:(lia)) as Hsq.
    assert (i < size) by lia.
    destruct (STRESS_GETBIT s i) eqn:Hbit.
    + apply IH in Hbit; [|lia].
      assert (i < i \/ prime i) as [|Hpi] by (apply sieved_prime; [lia|left; lia|done]); [lia|].
      rewrite sieve_clear_spec by nia. rewrite IH by done. split.
      * intros [Hs Hm] q Hq Hlt Hdiv. destruct (Z.eq_dec q i) as [->|]; [|apply Hs; (done || lia)].
        apply Z.nle_gt. intros Hge.
        destruct (proj2 (multiples_from_square i k ltac:(lia)) (conj Hdiv Hge)) as (t & Ht & Heq).
        by apply (Hm t Ht).
      * intros Hs. split.
        -- intros q Hq Hlt. apply Hs; [done|lia].
        -- intros t Ht Heq. assert ((i | k) /\ i * i <= k) as [Hd Hge].
           { apply multiples_from_square; [lia|]. by exists t. }
           specialize (Hs i Hpi ltac:(lia) Hd). lia.
    + rewrite IH by done. split; intros Hs q Hq Hlt Hdiv; [|apply Hs; (done || lia)].
      destruct (Z.eq_dec q i) as [->|]; [|apply Hs; (done || lia)].
      exfalso. apply (not_true_iff_false (STRESS_GETBIT s i)); [done|].
      apply IH; [lia|]. by apply prime_sieved.
Qed.

(** the marking stops before the root of the size *)
Lemma sieve_mark_prime size k :
  4 <= size -> ~ prime (Z.sqrt size) -> 2 <= k < size ->
  STRESS_GETBIT (sieve_mark size) k = true <-> prime k.
Proof.
  intros Hsz Hnp Hk. rewrite sieve_mark_sieved by lia.
  assert (2 <= Z.sqrt size) as Hs2 by (apply (sqrt_square_le size 2); lia).
  rewrite Z.max_r by done. split; [|apply prime_sieved].
  intros Hs. destruct (prime_dec k) as [|Hk0]; [done|exfalso].
  destruct (small_prime_divisor k ltac:(lia) Hk0) as (p & Hp & Hpp & Hpk).
  assert (p <= Z.sqrt size) by (apply sqrt_square_le; [lia|apply prime_ge_2 in Hp; lia|lia]).
  assert (p <> Z.sqrt size) by congruence.
  specialize (Hs p Hp ltac:(lia) Hpk). lia.
Qed.
