(* ===== verification/CpuSpec.v ===== *)
(** * What the integer CPU stressors guarantee *)

From Stdlib Require Import Znumtheory.
From S2P Require Import Prelude Mwc VmMethods VmBits Cpu CpuProofs CpuPrimes.

(** ** gcd *)

(** The Euclidean loop of the gcd method ends and returns the greatest
    common divisor of any two 32 bit numbers. *)
Theorem gcd_loop_is_gcd a b : fits 32 a -> fits 32 b -> gcd32 a b = Z.gcd a b.
Proof. intros [Ha _] Hb. by apply gcd32_correct. Qed.

Lemma gcd_loop_is_gcd_witness : gcd32 4294967295 3000000000 = Z.gcd 4294967295 3000000000.
Proof. apply (gcd_loop_is_gcd 4294967295 3000000000); done. Defined.

(** ** Primes *)

(** [is_prime()] decides primality of every 32 bit number. *)
Theorem is_prime_decides n : fits 32 n -> is_prime n = true <-> prime n.
Proof. apply is_prime_correct. Qed.

Lemma is_prime_decides_witness : is_prime 999983 = true <-> prime 999983.
Proof. apply (is_prime_decides 999983). done. Defined.

(** The sieve leaves exactly the primes standing, provided that the root
    of its size, where the marking stops short, is not itself a prime whose
    square is inside the sieve. *)
Theorem sieve_finds_primes size k :
  4 <= size -> ~ prime (Z.sqrt size) -> 2 <= k < size ->
  STRESS_GETBIT (sieve_mark size) k = true <-> prime k.
Proof. apply sieve_mark_prime. Qed.

Lemma sqrt_sieve_size : ~ prime (Z.sqrt SIEVE_SIZE).
Proof.
  change (Z.sqrt SIEVE_SIZE) with 3162. intros Hp.
  apply (divisor_proper 3162 2 Hp); [lia|]. by exists 1581.
Qed.

Lemma sieve_finds_primes_witness :
  STRESS_GETBIT (sieve_mark SIEVE_SIZE) 9999991 = true <-> prime 9999991.
Proof.
  apply (sieve_finds_primes SIEVE_SIZE 9999991); [done|exact sqrt_sieve_size|done].
Defined.

(** ** Gray codes *)

Lemma succ_xor_ones n : exists t, 0 <= t /\ Z.of_nat n .^ (Z.of_nat n + 1) = Z.ones (t + 1).
Proof.
  induction (lt_wf n) as [n _ IH]. destruct (Nat.Even_or_Odd n) as [[m ->]|[m ->]].
  - exists 0. split; [done|]. apply Z.bits_inj'. intros i Hi.
    replace (Z.of_nat (2 * m)) with (2 * Z.of_nat m) by lia. rewrite Z.lxor_spec.
    destruct (Z.eq_dec i 0) as [->|Hne]; [by rewrite Z.testbit_even_0, Z.testbit_odd_0|].
    replace i with (Z.succ (i - 1)) by lia.
    rewrite Z.testbit_even_succ, Z.testbit_odd_succ by lia.
    rewrite Z.ones_spec_high by lia. apply xorb_nilpotent.
  - destruct (IH m) as (t & Ht & Heq); [lia|]. exists (t + 1). split; [lia|].
    apply Z.bits_inj'. intros i Hi.
    replace (Z.of_nat (2 * m + 1)) with (2 * Z.of_nat m + 1) by lia.
    replace (2 * Z.of_nat m + 1 + 1) with (2 * (Z.of_nat m + 1)) by lia. rewrite Z.lxor_spec.
    destruct (Z.eq_dec i 0) as [->|Hne].
    { rewrite Z.testbit_even_0, Z.testbit_odd_0, Z.ones_spec_low by lia. done. }
    replace i with (Z.succ (i - 1)) by lia.
    rewrite Z.testbit_even_succ, Z.testbit_odd_succ by lia.
    rewrite <- Z.lxor_spec, Heq. rewrite !Z.testbit_ones_nonneg by lia.
    destruct (Z.ltb_spec (i - 1) (t + 1)), (Z.ltb_spec (Z.succ (i - 1)) (t + 1 + 1)); lia || done.
Qed.

Lemma ones_xorshift n : 0 < n -> Z.ones n .^ (Z.ones n >>> 1) = 2 ^ (n - 1).
Proof.
  intros Hn. apply Z.bits_inj'. intros i Hi.
  rewrite Z.lxor_spec, Z.shiftr_spec, !Z.testbit_ones_nonneg, Z.pow2_bits_eqb by lia.
  destruct (Z.ltb_spec i n), (Z.ltb_spec (i + 1) n), (Z.eqb_spec (n - 1) i); lia || done.
Qed.

(** Gray codes: decoding inverts encoding on every 32 bit number, and the
    codes of neighbours differ in one bit. *)
Theorem gray_code i :
  fits 32 i ->
  gray_decode (gray_encode i) = i /\
  exists t, 0 <= t /\ gray_encode i .^ gray_encode (i + 1) = 2 ^ t.
Proof.
  intros Hi. split; [by apply gray_roundtrip|].
  destruct (succ_xor_ones (Z.to_nat i)) as (t & Ht & Heq).
  rewrite Z2Nat.id in Heq by (unfold fits in Hi; lia). exists t. split; [done|].
  unfold gray_encode.
  transitivity ((i .^ (i + 1)) .^ ((i .^ (i + 1)) >>> 1)).
  - rewrite Z.shiftr_lxor. apply Z.bits_inj'. intros k Hk. rewrite !Z.lxor_spec.
    by destruct (Z.testbit i k), (Z.testbit (i + 1) k), (Z.testbit (i >>> 1) k),
      (Z.testbit ((i + 1) >>> 1) k).
  - rewrite Heq, ones_xorshift by lia. f_equal. lia.
Qed.

Lemma gray_code_witness :
  gray_decode (gray_encode 0xdeadbeef) = 0xdeadbeef /\
  exists t, 0 <= t /\ gray_encode 0xdeadbeef .^ gray_encode (0xdeadbeef + 1) = 2 ^ t.
Proof. apply (gray_code 0xdeadbeef). done. Defined.

(** ** Parity *)

(** The five ways of computing the parity agree with the exclusive or of
    the bits, on every 32 bit number: the method never reports a failure. *)
Theorem parity_methods_agree v :
  fits 32 v ->
  parity_naive 32 v false = par 32 v /\ parity_kernighan 32 v false = par 32 v /\
  parity_multiply v = b2z (par 32 v) /\ parity_parallel v = b2z (par 32 v) /\
  parity_lookup1 v = par 32 v /\ parity_lookup2 v = par 32 v.
Proof.
  intros Hv. repeat split; auto using parity_naive32, parity_kernighan32, parity_multiply_par,
    parity_parallel_par, parity_lookup1_par, parity_lookup2_par.
Qed.

Lemma parity_methods_agree_witness :
  parity_naive 32 0x83fb5acf false = par 32 0x83fb5acf /\
  parity_kernighan 32 0x83fb5acf false = par 32 0x83fb5acf /\
  parity_multiply 0x83fb5acf = b2z (par 32 0x83fb5acf) /\
  parity_parallel 0x83fb5acf = b2z (par 32 0x83fb5acf) /\
  parity_lookup1 0x83fb5acf = par 32 0x83fb5acf /\ parity_lookup2 0x83fb5acf = par 32 0x83fb5acf.
Proof. apply (parity_methods_agree 0x83fb5acf). done. Defined.

(** ** CRC *)

(** The CRC detects every change of a single byte: two messages of any
    length that differ in one byte have different CRCs. *)
Theorem crc16_detects_byte l1 l2 x y :
  fits 8 x -> fits 8 y -> x <> y ->
  ccitt_crc16 (l1 ++ x :: l2) <> ccitt_crc16 (l1 ++ y :: l2).
Proof.
  intros Hx Hy Hne.
  assert (forall z, ccitt_crc16 (l1 ++ z :: l2) =
    u16 (not16 (crc16_data (l1 ++ z :: l2) 0xffff) <<< 8) .|
      (not16 (crc16_data (l1 ++ z :: l2) 0xffff) >>> 8)) as Hc.
  { intros z. unfold ccitt_crc16. by destruct l1. }
  rewrite !Hc. intros H. apply crc16_final_inj in H; [|by apply crc16_data_fits..]. revert H.
  rewrite !crc16_data_app, !crc16_data_cons.
  set (c := crc16_data l1 0xffff). assert (fits 16 c) by (by apply crc16_data_fits).
  assert (forall z, fits 8 z -> 0xff .& z = z) as Hand.
  { intros z Hz. rewrite Z.land_comm. change 0xff with (Z.ones 8).
    by rewrite Z.land_ones, Z.mod_small by done. }
  rewrite !Hand by done. apply crc16_data_differs; [by apply crc16_byte_fits|by apply crc16_byte_fits|].
  apply lxor_ne. rewrite <- crc16_byte_linear, Z.lxor_nilpotent.
  apply crc16_byte_injects; [by apply (fits_lxor 8)|]. by apply (proj1 (lxor_ne x y)).
Qed.

Lemma crc16_detects_byte_witness :
  ccitt_crc16 ([1; 2; 3] ++ 4 :: [5]) <> ccitt_crc16 ([1; 2; 3] ++ 6 :: [5]).
Proof. apply (crc16_detects_byte [1; 2; 3] [5] 4 6); done. Defined.

(** ** Hamming codes *)

Lemma nybble_cases (P : Z -> bool) :
  forallb P ((fun i => Z.of_nat i) <$> seq 0 16) = true -> forall x, fits 4 x -> P x = true.
Proof.
  intros H x Hx. rewrite List.forallb_forall in H. apply H, list_elem_of_In, list_elem_of_fmap.
  exists (Z.to_nat x). unfold fits in Hx. split; [lia|]. apply elem_of_seq. lia.
Qed.

(** The code word of a nybble carries it in its low four bits, and the
    code words of two nybbles differ in at least three bits: a single error can
    be corrected. *)
Theorem hamming84_distance x y :
  fits 4 x -> fits 4 y ->
  hamming84 x .& 0xf = x /\ fits 8 (hamming84 x) /\
  (x <> y -> 3 <= popcount 8 (hamming84 x .^ hamming84 y)).
Proof.
  intros Hx Hy.
  assert (forallb (fun x => (hamming84 x .& 0xf =? x) && (0 <=? hamming84 x) && (hamming84 x <? 256) &&
    forallb (fun y => (x =? y) || (3 <=? popcount 8 (hamming84 x .^ hamming84 y)))
      ((fun i => Z.of_nat i) <$> seq 0 16)) ((fun i => Z.of_nat i) <$> seq 0 16) = true) as H
    by (vm_compute; reflexivity).
  apply (nybble_cases _ H) in Hx. rewrite !andb_true_iff in Hx.
  destruct Hx as [[[H1%Z.eqb_eq H2%Z.leb_le] H3%Z.ltb_lt] H4].
  apply (nybble_cases _ H4) in Hy. split; [exact H1|]. split; [exact (conj H2 H3)|]. intros Hne.
  apply orb_true_iff in Hy as [Hxy%Z.eqb_eq|Hd%Z.leb_le]; [destruct (Hne Hxy)|exact Hd].
Qed.

(** the rows of the generator matrix in the comment of [hamming84()], for the
    data bits 3, 2, 1, 0 *)
Definition matrix_code (x : Z) : Z :=
  (((if Z.testbit x 3 then 0x78 else 0) .^ (if Z.testbit x 2 then 0xb4 else 0)) .^
   (if Z.testbit x 1 then 0xd2 else 0)) .^ (if Z.testbit x 0 then 0xe1 else 0).

(** The code is not the one of the documented generator matrix: the row
    of data bit 0 is 0xf1 instead of 0xe1, so every odd nybble has a wrong parity
    bit, and the distance of the code is 3, where the matrix gives 4. *)
Theorem hamming84_not_the_matrix x y :
  fits 4 x -> fits 4 y ->
  hamming84 x = matrix_code x .^ (if Z.odd x then 0x10 else 0) /\
  (x <> y -> 4 <= popcount 8 (matrix_code x .^ matrix_code y)) /\
  popcount 8 (hamming84 1 .^ hamming84 2) = 3.
Proof.
  intros Hx Hy.
  assert (forallb (fun x => (hamming84 x =? matrix_code x .^ (if Z.odd x then 0x10 else 0)) &&
    forallb (fun y => (x =? y) || (4 <=? popcount 8 (matrix_code x .^ matrix_code y)))
      ((fun i => Z.of_nat i) <$> seq 0 16)) ((fun i => Z.of_nat i) <$> seq 0 16) = true) as H
    by (vm_compute; reflexivity).
  apply (nybble_cases _ H) in Hx. apply andb_true_iff in Hx as [H1%Z.eqb_eq H4].
  apply (nybble_cases _ H4) in Hy. split; [exact H1|]. split; [|reflexivity]. intros Hne.
  apply orb_true_iff in Hy as [Hxy%Z.eqb_eq|Hd%Z.leb_le]; [destruct (Hne Hxy)|exact Hd].
Qed.

Lemma hamming84_not_the_matrix_witness :
  hamming84 1 = matrix_code 1 .^ (if Z.odd 1 then 0x10 else 0) /\
  (1 <> 2 -> 4 <= popcount 8 (matrix_code 1 .^ matrix_code 2)) /\
  popcount 8 (hamming84 1 .^ hamming84 2) = 3.
Proof. apply (hamming84_not_the_matrix 1 2); done. Defined.

(** ** ackermann *)

(** The recursion of [ackermann(3, n)] ends with 2^(n+3) - 3 as long as
    that is a 32 bit number; the expected 0x1ffd is the case 10. *)
Theorem ackermann_closed_form n :
  2 ^ (Z.of_nat n + 3) < 2 ^ 32 -> Z.of_nat (ackermann 3 n) = 2 ^ (Z.of_nat n + 3) - 3.
Proof. apply ackermann_3. Qed.
