(* ===== verification/CpuChecks.v ===== *)
(** * The constants of the CPU stressors, evaluated

    The sums and final values the methods compare their results with, where the
    only way to know them is to run the loop. *)

From S2P Require Import Prelude Mwc Cpu CpuProofs.

(** the generator after [MWC_SEED()], whatever it was before *)
Abbreviation seeded e f := (Mwc MWC_SEED_W MWC_SEED_Z 0 0 e f).

Lemma MWC_SEED_seeded r : MWC_SEED r = seeded (saved8 r) (saved16 r).
Proof. done. Qed.

Lemma rand_sum_value e f : (sum_draws (Z.to_nat 16384) 0 (seeded e f)).1 = 0xc253698c.
Proof. vm_compute. reflexivity. Qed.

Lemma gcd_sum_value :
  loop 0 16384 (fun i i_sum => u32 (i_sum + gcd32 i (i mod u32 (3 + (1997 .^ i))))) 0 = 63000868.
Proof. vm_compute. reflexivity. Qed.

(** the buffer of the hash methods *)
Definition hash_buffer : list Z := Eval vm_compute in (random_buffer 128 (seeded 0 0)).1.

Lemma random_words_buffer n e f g h :
  (random_words n (seeded e f)).1 = (random_words n (seeded g h)).1.
Proof.
  assert (forall r1 r2, r1 ≡ r2 -> (random_words n r1).1 = (random_words n r2).1) as H.
  { induction n as [|n IH]; intros r1 r2 Hr; [done|]. cbn [random_words].
    destruct (mwc32_proper r1 r2 Hr) as [Hv Hr'].
    destruct (mwc32 r1) as [v1 q1], (mwc32 r2) as [v2 q2]. cbn [fst snd] in *. subst v2.
    specialize (IH q1 q2 Hr').
    destruct (random_words n q1), (random_words n q2). cbn [fst snd] in *. by subst. }
  apply H. by constructor.
Qed.

Lemma hash_buffer_eq e f : (random_buffer 128 (seeded e f)).1 = hash_buffer.
Proof.
  unfold random_buffer. rewrite (random_words_buffer _ e f 0 0). vm_compute. reflexivity.
Qed.

Definition hash_text : list Z := Eval vm_compute in ((fun ch => (ch .& 0x3f) + 32) <$> hash_buffer).

Lemma pjw_value : hash_prefixes 127 pjw hash_text 0 = 0xa89a91c0.
Proof. vm_compute. reflexivity. Qed.
Lemma djb2a_value : hash_prefixes 127 djb2a hash_text 0 = 0x6a60cb5a.
Proof. vm_compute. reflexivity. Qed.
Lemma fnv1a_value : hash_prefixes 127 fnv1a hash_text 0 = 0x8ef17e80.
Proof. vm_compute. reflexivity. Qed.
Lemma sdbm_value : hash_prefixes 127 sdbm hash_text 0 = 0x46357819.
Proof. vm_compute. reflexivity. Qed.

Lemma jenkin_value :
  loop 0 128 (fun _ i_sum => u32 (i_sum + jenkin hash_buffer)) 0 = 0x96673680.
Proof.
  set (h := jenkin hash_buffer). vm_compute in h. subst h. vm_compute. reflexivity.
Qed.

Lemma int8_value e f : (int_run 8 C1 C2 C3 (seeded e f)).1 = (0x12, 0x1a).
Proof. vm_compute. reflexivity. Qed.
Lemma int16_value e f : (int_run 16 C1 C2 C3 (seeded e f)).1 = (0x1871, 0x07f0).
Proof. vm_compute. reflexivity. Qed.
Lemma int32_value e f : (int_run 32 C1 C2 C3 (seeded e f)).1 = (0x1ce9b547, 0xa24b33a).
Proof. vm_compute. reflexivity. Qed.
