(* ===== verification/CpuSelf.v ===== *)
(** * The self checks of the integer CPU stressors

    On a machine that computes as C says, a method run with [--verify] finds
    nothing to report. *)

From Stdlib Require Import Permutation.
From S2P Require Import Prelude Mwc Cpu CpuProofs CpuChecks.

(** *** sums of permuted values *)

Definition zsum (l : list Z) : Z := foldr Z.add 0 l.

Lemma zsum_perm l1 l2 : Permutation l1 l2 -> zsum l1 = zsum l2.
Proof. unfold zsum. induction 1; cbn [foldr]; lia. Qed.

Lemma zsum_app l1 l2 : zsum (l1 ++ l2) = zsum l1 + zsum l2.
Proof. unfold zsum. induction l1 as [|x l IH]; cbn [app foldr]; lia. Qed.

(** the numbers [0 .. n - 1] *)
Definition upto (n : nat) : list Z := Z.of_nat <$> seq 0 n.

Lemma upto_S n : upto (S n) = upto n ++ [Z.of_nat n].
Proof. unfold upto. by rewrite seq_S, fmap_app. Qed.

Lemma elem_of_upto x n : x ∈ upto n <-> 0 <= x < Z.of_nat n.
Proof.
  unfold upto. rewrite list_elem_of_fmap. split.
  - intros (k & -> & [_ Hk]%elem_of_seq). lia.
  - intros Hx. exists (Z.to_nat x). split; [lia|]. apply elem_of_seq. lia.
Qed.

Lemma zsum_upto n : 2 * zsum (upto n) = Z.of_nat n * (Z.of_nat n - 1).
Proof. induction n as [|n IH]; [done|]. rewrite upto_S, zsum_app. unfold zsum at 2. simpl foldr. lia. Qed.

(** a permutation of [0 .. n - 1] does not change the sum *)
Lemma zsum_injective (f : Z -> Z) n :
  (forall x, 0 <= x < Z.of_nat n -> 0 <= f x < Z.of_nat n) ->
  (forall x y, 0 <= x < Z.of_nat n -> 0 <= y < Z.of_nat n -> f x = f y -> x = y) ->
  zsum (f <$> upto n) = zsum (upto n).
Proof.
  intros Hr Hi. apply zsum_perm, NoDup_Permutation_bis.
  - apply NoDup_ListNoDup. apply NoDup_fmap_2_strong.
    + intros x y Hx%elem_of_upto Hy%elem_of_upto. by apply Hi.
    + unfold upto. apply (NoDup_fmap_2 _), NoDup_seq.
  - by rewrite length_fmap.
  - intros y Hy. apply list_elem_of_In in Hy. apply list_elem_of_In.
    apply list_elem_of_fmap in Hy as (x & -> & Hx%elem_of_upto). apply elem_of_upto. by apply Hr.
Qed.

(** a counted loop that sums *)
Lemma loop_zsum (f : Z -> Z -> Z) (g : Z -> Z) n m :
  (forall k a, 0 <= k < Z.of_nat n -> f k a = (a + g k) mod m) ->
  0 < m -> (forall k, 0 <= k < Z.of_nat n -> 0 <= g k) -> zsum (g <$> upto n) < m ->
  loop_n n 0 f 0 = zsum (g <$> upto n).
Proof.
  intros Hf Hm Hg Hlt.
  assert (forall j, (j <= n)%nat -> 0 <= zsum (g <$> upto j) <= zsum (g <$> upto n)) as Hmono.
  { intros j Hj.
    assert (forall k, (k <= n)%nat -> 0 <= zsum (g <$> upto k)) as H0.
    { induction k as [|k IH]; intros Hk; [done|]. rewrite upto_S, fmap_app, zsum_app.
      specialize (IH ltac:(lia)). specialize (Hg (Z.of_nat k) ltac:(lia)). unfold zsum at 2. simpl. lia. }
    split; [by apply H0|]. replace n with (j + (n - j))%nat by lia.
    assert (forall d, (j + d <= n)%nat -> zsum (g <$> upto j) <= zsum (g <$> upto (j + d))) as Hd.
    { induction d as [|d IH]; intros Hle; [by rewrite Nat.add_0_r|].
      rewrite <- plus_n_Sm, upto_S, fmap_app, zsum_app. specialize (IH ltac:(lia)).
      specialize (Hg (Z.of_nat (j + d)) ltac:(lia)). unfold zsum at 3. simpl. lia. }
    apply Hd. lia. }
  replace (zsum (g <$> upto n)) with (zsum (g <$> upto (Z.to_nat (0 + Z.of_nat n)))) by (do 2 f_equal; f_equal; lia).
  apply (loop_inv (fun k a => a = zsum (g <$> upto (Z.to_nat k)))); [done|].
  intros k a Hk ->. rewrite Hf by lia. replace (Z.to_nat (k + 1)) with (S (Z.to_nat k)) by lia.
  pose proof (Hmono (S (Z.to_nat k)) ltac:(lia)) as Hb.
  rewrite upto_S, fmap_app, zsum_app in *. unfold zsum at 2 in Hb. unfold zsum at 3. simpl in *.
  rewrite Z2Nat.id in * by lia. rewrite Z.add_0_r in *. apply Z.mod_small. lia.
Qed.

(** ** The methods *)

Lemma loop_method_silent verify s : stress_cpu_loop verify s = s.
Proof.
  unfold stress_cpu_loop, loop. apply check_fail_ok, negb_false_iff, Z.eqb_eq.
  set (n := Z.to_nat 16384). assert (Z.of_nat n = 16384) as Hn by (unfold n; lia).
  assert (2 * zsum ((fun k => k) <$> upto n) = 16384 * 16383) as Hs.
  { rewrite list_fmap_id, zsum_upto, Hn. done. }
  rewrite (loop_zsum _ (fun k => k) n (2 ^ 32)); [lia|done|done|lia|lia].
Qed.

Lemma gray_method_silent verify s : stress_cpu_gray verify s = s.
Proof.
  unfold stress_cpu_gray, loop. apply check_fail_ok, negb_false_iff, Z.eqb_eq.
  set (n := Z.to_nat 0x10000). assert (Z.of_nat n = 2 ^ 16) as Hn by (unfold n; lia).
  assert (forall x, 0 <= x < Z.of_nat n -> 0 <= gray_encode x < Z.of_nat n) as Hr.
  { intros x Hx. rewrite Hn in *. by apply (gray_encode_fits 16). }
  assert (forall x, 0 <= x < Z.of_nat n -> gray_decode (gray_encode x) = x) as Hd.
  { intros x Hx. apply gray_roundtrip. unfold fits. lia. }
  assert (zsum ((fun k => gray_encode k + k) <$> upto n) = 0xffff0000) as Hs.
  { assert (forall l, zsum ((fun k => gray_encode k + k) <$> l) = zsum (gray_encode <$> l) + zsum l) as ->.
    { induction l as [|x l IH]; [done|]. unfold zsum in *. cbn [fmap list_fmap foldr] in *. lia. }
    rewrite zsum_injective; [|done|].
    - pose proof (zsum_upto n). rewrite Hn in *. lia.
    - intros x y Hx Hy Heq. by rewrite <- (Hd x), <- (Hd y), Heq. }
  rewrite (loop_zsum _ (fun k => gray_encode k + k) n (2 ^ 64)); [done| |lia| |].
  - intros k a Hk. cbv beta zeta. rewrite Hd by done. unfold u64.
    rewrite Zplus_mod_idemp_l. f_equal. lia.
  - intros k Hk. specialize (Hr k Hk). lia.
  - rewrite Hs. lia.
Qed.

Lemma hanoi_method_silent verify s : c_fails (stress_cpu_hanoi verify s) = c_fails s.
Proof.
  unfold stress_cpu_hanoi. rewrite hanoi_pow2 by lia. by rewrite check_fail_ok.
Qed.

Lemma ackermann_method_silent verify s : stress_cpu_ackermann verify s = s.
Proof. unfold stress_cpu_ackermann. rewrite ackermann_3 by done. by apply check_fail_ok. Qed.

Lemma fibonacci_method_silent verify s : stress_cpu_fibonacci verify s = s.
Proof. apply check_fail_ok. vm_compute. reflexivity. Qed.

Lemma parity_method_silent verify s : stress_cpu_parity verify s = s.
Proof.
  unfold stress_cpu_parity, loop. apply (loop_inv (fun _ s' => s' = s)); [done|].
  intros k s' _ ->. apply parity_round_silent. apply u32_fits.
Qed.

Lemma gcd_method_silent verify s : stress_cpu_gcd verify s = s.
Proof. unfold stress_cpu_gcd. cbv zeta. rewrite gcd_sum_value. by apply check_fail_ok. Qed.

Lemma rand_method_silent verify s : c_fails (stress_cpu_rand verify s) = c_fails s.
Proof.
  unfold stress_cpu_rand. rewrite MWC_SEED_seeded.
  pose proof (rand_sum_value (saved8 (c_rng s)) (saved16 (c_rng s))) as H.
  destruct (sum_draws _ _ _) as [v r]. cbn [fst] in H. subst v. by rewrite check_fail_ok.
Qed.

Lemma hash_method_silent name h result verify s :
  hash_prefixes 127 h hash_text 0 = result ->
  c_fails (stress_cpu_hash_generic name h result verify s) = c_fails s.
Proof.
  intros Hh. unfold stress_cpu_hash_generic. rewrite MWC_SEED_seeded.
  pose proof (hash_buffer_eq (saved8 (c_rng s)) (saved16 (c_rng s))) as H.
  destruct (random_buffer _ _) as [b r]. cbn [fst] in H. subst b.
  change ((fun ch => (ch .& 0x3f) + 32) <$> hash_buffer) with hash_text.
  rewrite Hh, Z.eqb_refl. by rewrite check_fail_ok.
Qed.

Lemma jenkin_method_silent verify s : c_fails (stress_cpu_jenkin verify s) = c_fails s.
Proof.
  unfold stress_cpu_jenkin. rewrite MWC_SEED_seeded.
  pose proof (hash_buffer_eq (saved8 (c_rng s)) (saved16 (c_rng s))) as H.
  destruct (random_buffer _ _) as [b r]. cbn [fst] in H. subst b.
  rewrite jenkin_value. by rewrite check_fail_ok.
Qed.

Lemma int_method_silent w a_final b_final c1 c2 c3 what verify s :
  (forall e f, (int_run w c1 c2 c3 (seeded e f)).1 = (a_final, b_final)) ->
  c_fails (stress_cpu_int w a_final b_final c1 c2 c3 what verify s) = c_fails s.
Proof.
  intros Hv. specialize (Hv (saved8 (c_rng s)) (saved16 (c_rng s))).
  unfold stress_cpu_int. rewrite MWC_SEED_seeded.
  destruct (int_run _ _ _ _ _) as [[x y] q]. cbn [fst] in Hv. injection Hv as -> ->.
  rewrite !Z.eqb_refl. by rewrite check_fail_ok.
Qed.

(** crc16 and jmp compare nothing *)
Lemma crc16_method_silent verify s : c_fails (stress_cpu_crc16 verify s) = c_fails s.
Proof.
  unfold stress_cpu_crc16, loop. destruct (random_buffer _ _) as [b r].
  by apply (loop_inv (fun _ s' => c_fails s' = c_fails s)).
Qed.

Lemma jmp_method_silent verify s : c_fails (stress_cpu_jmp verify s) = c_fails s.
Proof.
  unfold stress_cpu_jmp, loop.
  assert (c_fails (loop_n (Z.to_nat 999) 1 (fun i (acc : Z * cpust) => let '(next, s0) := acc in
    (jmp_round next, uint64_put (u64 (jmp_round next + i)) s0)) (0, s)).2 = c_fails s) as H.
  { apply (loop_inv (fun _ (a : Z * cpust) => c_fails a.2 = c_fails s)); [done|].
    by intros k [x s'] _ Hs. }
  cbv zeta. by destruct (loop_n _ _ _ _).
Qed.

(** the methods whose check is evaluated or proved here *)
Definition self_checked : list string :=
  ["ackermann"; "crc16"; "djb2a"; "fibonacci"; "fnv1a"; "gcd"; "gray"; "hanoi"; "int32"; "int16";
   "int8"; "jenkin"; "jmp"; "loop"; "parity"; "pjw"; "rand"; "sdbm"].

Lemma self_checks_silent (name : string) (func : cpu_func) (verify : bool) (s : cpust) :
  (name, func) ∈ cpu_integer_methods -> name ∈ self_checked ->
  c_fails (func verify s) = c_fails s.
Proof.
  intros Hin Hname.
  assert (Forall (fun m => m.1 ∈ self_checked -> c_fails (m.2 verify s) = c_fails s)
    cpu_integer_methods) as H.
  { repeat apply Forall_cons_2; cbn [fst snd]; [..|apply Forall_nil_2]; intros Hm;
      try (apply (bool_decide_pack _) in Hm; vm_compute in Hm; exfalso; exact Hm).
    all: clear Hm.
    - by rewrite ackermann_method_silent.
    - exact (crc16_method_silent verify s).
    - exact (hash_method_silent _ _ _ verify s djb2a_value).
    - by rewrite fibonacci_method_silent.
    - exact (hash_method_silent _ _ _ verify s fnv1a_value).
    - by rewrite gcd_method_silent.
    - by rewrite gray_method_silent.
    - exact (hanoi_method_silent verify s).
    - exact (int_method_silent _ _ _ _ _ _ _ verify s int32_value).
    - exact (int_method_silent _ _ _ _ _ _ _ verify s int16_value).
    - exact (int_method_silent _ _ _ _ _ _ _ verify s int8_value).
    - exact (jenkin_method_silent verify s).
    - exact (jmp_method_silent verify s).
    - by rewrite loop_method_silent.
    - by rewrite parity_method_silent.
    - exact (hash_method_silent _ _ _ verify s pjw_value).
    - exact (rand_method_silent verify s).
    - exact (hash_method_silent _ _ _ verify s sdbm_value). }
  eapply Forall_forall in H; [|exact Hin]. by apply H.
Qed.

(** No self check of these methods ever fails: the sums, hashes and final
    values they are compared with are the ones the code computes, from any state
    of the generator. *)
Theorem cpu_self_checks_hold (name : string) (func : cpu_func) (verify : bool) (s : cpust) :
  (name, func) ∈ cpu_integer_methods -> name ∈ self_checked ->
  c_fails (func verify s) = c_fails s.
Proof. apply self_checks_silent. Qed.

Lemma cpu_self_checks_hold_witness :
  c_fails (stress_cpu_rand true (cpu_start mwc_init)) = [].
Proof.
  apply (cpu_self_checks_hold "rand" stress_cpu_rand true (cpu_start mwc_init)).
  - apply (list_elem_of_lookup_2 _ 22). reflexivity.
  - apply (list_elem_of_lookup_2 _ 16). reflexivity.
Defined.
