(* ===== verification/CpuFloat.v ===== *)
(** * stress-cpu.c: the floating point CPU stressors

    The methods that compute with [float], [double], [long double] and complex
    numbers, and the two that work on an image and on a union.  The operations of
    the types are those of [Float].  The functions of the mathematical library,
    and what the compiler's library does for complex and decimal numbers, are
    arguments: C does not say what their last bits are.  A conversion of a number
    that does not fit the integer type is undefined in C; here it keeps the low
    bits, as the processor does. *)

From S2P Require Import Prelude Mwc Float Cpu.

Abbreviation F := float_.
Abbreviation D := double_.
Abbreviation L := long_double.

(** the functions of [math.h] of a type, and those of the compiler for complex numbers *)
Abbreviation cplx := (spec_float * spec_float)%type.

Record libm := Libm {
  m_sin : format -> spec_float -> spec_float;
  m_cos : format -> spec_float -> spec_float;
  m_sinh : format -> spec_float -> spec_float;
  m_cosh : format -> spec_float -> spec_float;
  m_exp : format -> spec_float -> spec_float;
  m_log : format -> spec_float -> spec_float;
  m_lgamma : format -> spec_float -> spec_float;
  m_pow : format -> spec_float -> spec_float -> spec_float;
  m_csin : format -> cplx -> cplx;
  m_ccos : format -> cplx -> cplx;
  m_cexp : format -> cplx -> cplx;
  m_cpow : format -> cplx -> cplx -> cplx;
  m_cabs : format -> cplx -> spec_float;
  m_cmul : format -> cplx -> cplx -> cplx;
  m_cdiv : format -> cplx -> cplx -> cplx;
}.

Definition M_PI : spec_float := decimal D 314159265358979323846 20.
Definition M_E : spec_float := decimal D 27182818284590452354 19.

(** the pattern of the bits of a [double] *)
Definition double_bits (x : spec_float) : Z :=
  let sign (s : bool) := if s then 2 ^ 63 else 0 in
  match x with
  | S754_zero s => sign s
  | S754_infinity s => sign s + 0x7ff0000000000000
  | S754_nan => 0x7ff8000000000000
  | S754_finite s m e => sign s + (if Z.pos m <? 2 ^ 52 then Z.pos m else (e + 1075) * 2 ^ 52 + (Z.pos m - 2 ^ 52))
  end.

(** [rint()], [roundl()] as integers: to the nearest, a half to even or away from zero *)
Definition fsign (x : spec_float) : Z := if flt x fzero then -1 else 1.
Definition rint (x : spec_float) : Z :=
  let t := ftrunc (fabs_ x) in
  let rest := fsub L (fabs_ x) (of_int L t) in
  let half := decimal L 5 1 in
  let up := flt half rest || (feq half rest && Z.odd t) in
  fsign x * (if up then t + 1 else t).
Definition round_away (x : spec_float) : Z :=
  let t := ftrunc (fabs_ x) in
  fsign x * (if fle (decimal L 5 1) (fsub L (fabs_ x) (of_int L t)) then t + 1 else t).

(** ** Loops *)

(** at most [n] rounds, until one says it was the last ([inr]) *)
Fixpoint rounds {A} (n : positive) (f : A -> A + A) (a : A) : A + A :=
  match n with
  | xH => f a
  | xO n => match rounds n f a with inl a => rounds n f a | r => r end
  | xI n => match f a with
            | inl a => match rounds n f a with inl a => rounds n f a | r => r end
            | r => r
            end
  end.

(** [do body while (cond)], which ends within [n] rounds *)
Definition do_while {A} (n : positive) (body : A -> A) (cond : A -> bool) (a : A) : A :=
  match rounds n (fun a => let a := body a in if cond a then inl a else inr a) a with inl a | inr a => a end.

(** ** Numbers of a type of C that the methods below can use *)

Record arith := Arith {
  num : Type;
  nadd : num -> num -> num;
  nsub : num -> num -> num;
  nmul : num -> num -> num;
  ndiv : num -> num -> num;
  nconst : Z -> nat -> num;           (** [(type)c] of the constant [c = m / 10 ^ k] *)
  nu32 : Z -> num;                    (** of a [uint32_t] *)
  nsin : num -> num;                  (** the functions that go with the type *)
  ncos : num -> num;
  ndouble : num -> spec_float;        (** as a [double] *)
}.

(** a long double constant, converted *)
Definition constant (t : format) (m : Z) (k : nat) : spec_float := convert t (decimal L m k).

Section Methods.
Variable m : libm.
Variable defined : string -> bool.     (** the macros of the build *)
Variable shared_put : bool.            (** [g_put_val] is a union; the enclave has two variables *)

(** [double_put()]: a [double] of its own is never read *)
Definition double_put (x : spec_float) : cpust -> cpust := if shared_put then uint64_put (double_bits x) else fun s => s.

(** the type of a function for [long double] that the library may not have: then it
    is a macro for the function for [double] *)
Definition ltype (macro : string) : format := if defined macro then L else D.
Definition type_of (macro : string) (t : format) : format := if prec t =? prec L then ltype macro else t.
Definition call (f : format -> spec_float -> spec_float) (macro : string) (t : format) (x : spec_float) : spec_float :=
  let t := type_of macro t in f t (convert t x).
Definition ccall {A} (f : format -> cplx -> A) (macro : string) (t : format) (z : cplx) : A :=
  let t := type_of macro t in f t (convert t z.1, convert t z.2).

Definition sqrtl : spec_float -> spec_float := call fsqrt "HAVE_SQRTL" L.
Definition expl : spec_float -> spec_float := call (m_exp m) "HAVE_EXPL" L.
Definition logl : spec_float -> spec_float := call (m_log m) "HAVE_LOGL" L.
Definition lgammal : spec_float -> spec_float := call (m_lgamma m) "HAVE_LGAMMAL" L.
Definition cabsl : cplx -> spec_float := ccall (m_cabs m) "HAVE_CABSL" L.
Definition powl (x y : spec_float) : spec_float :=
  let t := ltype "HAVE_POWL" in m_pow m t (convert t x) (convert t y).
Definition rintl (x : spec_float) : Z := rint (convert (ltype "HAVE_RINTL") x).

Definition real_arith (t : format) : arith :=
  Arith spec_float (fadd t) (fsub t) (fmul t) (fdiv t) (constant t) (of_int t) 
    (call (m_sin m) "HAVE_SINL" t) (call (m_cos m) "HAVE_COSL" t) (convert D).

Definition cadd (t : format) (x y : cplx) : cplx := (fadd t x.1 y.1, fadd t x.2 y.2).
Definition csub (t : format) (x y : cplx) : cplx := (fsub t x.1 y.1, fsub t x.2 y.2).

Definition complex_arith (t : format) : arith :=
  Arith cplx (cadd t) (csub t) (m_cmul m t) (m_cdiv m t) (fun c k => (constant t c k, fzero)) (fun n => (of_int t n, fzero))
    (ccall (m_csin m) "HAVE_CSINL" t) (ccall (m_ccos m) "HAVE_CCOSL" t) (fun x => convert D x.1).

Section Ops.
Variable T : arith.
Local Infix "+'" := (nadd T) (at level 50, left associativity).
Local Infix "-'" := (nsub T) (at level 50, left associativity).
Local Infix "*'" := (nmul T) (at level 40, left associativity).
Local Infix "/'" := (ndiv T) (at level 40, left associativity).

(** the macro [float_ops()] *)
Definition float_ops (x : num T * num T * num T * num T) : num T * num T * num T * num T :=
  let '(a, b, c, d) := x in
  let a := a +' b in
  let b := a *' c in
  let c := a -' b in
  let d := a /' b in
  let a := c /' nconst T 1923 4 in
  let b := c +' a in
  let c := b *' nconst T 312 2 in
  let d := d +' b +' nsin T a in
  let a := (b +' c) /' c in
  let b := b *' c in
  let c := c +' nconst T 1 0 in
  let d := d -' nsin T c in
  let a := a *' ncos T b in
  let b := b +' ncos T c in
  let c := nsin T (a +' b) /' nconst T 2344 3 in
  let b := d -' nconst T 1 0 in
  (a, b, c, d).

Definition put_sum (x : num T * num T * num T * num T) : cpust -> cpust :=
  let '(a, b, c, d) := x in double_put (ndouble T (a +' b +' c +' d)).

(** the macro [stress_cpu_fp()]; [d] is set before it is used *)
Definition stress_cpu_fp : cpu_func := fun _ s =>
  let '(b, r) := mwc32 (c_rng s) in
  let '(c, r) := mwc32 r in
  let start := (nconst T 18728 5, nu32 T b, nu32 T c, nconst T 0 0) in
  put_sum (loop 0 1000 (fun _ => float_ops) start) (set_rng r s).

(** the macro [int_float_ops()], the integers of [w] bits *)
Definition int_float_ops (w c1 c2 c3 : Z) (x : num T * num T * num T * num T * (Z * Z * mwc)) :
    num T * num T * num T * num T * (Z * Z * mwc) :=
  let '(flt_a, flt_b, flt_c, flt_d, (int_a, int_b, r)) := x in
  let int_a := uw w (int_a + int_b) in
  let int_b := int_b .^ int_a in
  let flt_a := flt_a +' flt_b in
  let int_a := int_a >>> 1 in
  let int_b := uw w (int_b <<< 2) in
  let flt_b := flt_a *' flt_c in
  let int_b := uw w (int_b - int_a) in
  let int_a := uw w (int_a .^ Z.lnot 0) in
  let flt_c := flt_a -' flt_b in
  let int_b := uw w (int_b .^ Z.lnot c1) in
  let int_a := uw w (int_a * 3) in
  let flt_d := flt_a /' flt_b in
  let int_b := uw w (int_b * 7) in
  let int_a := uw w (int_a + 2) in
  let flt_a := flt_c /' nconst T 1923 4 in
  let int_b := uw w (int_b - 3) in
  let int_a := int_a / 77 in
  let flt_b := flt_c +' flt_a in
  let int_b := int_b / 3 in
  let int_a := uw w (int_a <<< 1) in
  let flt_c := flt_b *' nconst T 312 2 in
  let int_b := uw w (int_b <<< 2) in
  let int_a := int_a .| 1 in
  let flt_d := flt_d +' flt_b +' nsin T flt_a in
  let int_b := int_b .| 3 in
  let '(v, r) := mwc32 r in let int_a := uw w (int_a * v) in
  let flt_a := (flt_b +' flt_c) /' flt_c in
  let '(v, r) := mwc32 r in let int_b := uw w (int_b .^ v) in
  let '(v, r) := mwc32 r in let int_a := uw w (int_a + v) in
  let flt_b := flt_b *' flt_c in
  let '(v, r) := mwc32 r in let int_b := uw w (int_b - v) in
  let int_a := int_a / 7 in
  let flt_c := flt_c +' nconst T 1 0 in
  let int_b := int_b / 9 in
  let flt_d := flt_d -' nsin T flt_c in
  let int_a := int_a .| c2 in
  let flt_a := flt_a *' ncos T flt_b in
  let flt_b := flt_b +' ncos T flt_c in
  let int_b := int_b .& c3 in
  let flt_c := nsin T (flt_a +' flt_b) /' nconst T 2344 3 in
  let flt_b := flt_d -' nconst T 1 0 in
  (flt_a, flt_b, flt_c, flt_d, (int_a, int_b, r)).

(** the macro [stress_cpu_int_fp()] *)
Definition stress_cpu_int_fp (w a_final b_final c1 c2 c3 : Z) (what : string) : cpu_func := fun verify s =>
  let '(b, r) := mwc32 (c_rng s) in
  let '(c, r) := mwc32 r in
  let '(int_a, r) := mwc32 (MWC_SEED r) in
  let '(int_b, r) := mwc32 r in
  let start := (nconst T 18728 5, nu32 T b, nu32 T c, nconst T 0 0, (uw w int_a, uw w int_b, r)) in
  let '(flts, (int_a, int_b, r)) :=
    loop 0 1000 (fun _ => int_float_ops w (uw w c1) (uw w c2) (uw w c3)) start in
  put_sum flts
    (check_fail verify (negb (int_a =? a_final) || negb (int_b =? b_final)) what (set_rng r s)).
End Ops.

Definition stress_cpu_float : cpu_func := stress_cpu_fp (real_arith F).
Definition stress_cpu_double : cpu_func := stress_cpu_fp (real_arith D).
Definition stress_cpu_longdouble : cpu_func := stress_cpu_fp (real_arith L).

(** the macro [stress_cpu_complex()]; a real number and [I] times a real number are
    combined part by part; the generator is read from the left to the right *)
Definition times_I (t : format) (x : spec_float) : cplx := (fmul t fzero x, fmul t (of_int t 1) x).

Definition stress_cpu_complex (t : format) : cpu_func := fun _ s =>
  let T := complex_arith t in
  let real_add (x : spec_float) (z : cplx) := (fadd t x z.1, z.2) in
  let real_sub (x : spec_float) (z : cplx) := (fsub t x z.1, fopp z.2) in
  let a := real_add (decimal t 18728 5) (times_I t (decimal t 2762 4)) in
  let '(n1, r) := mwc32 (c_rng s) in
  let b := real_sub (of_int t n1) (times_I t (decimal t 11121 5)) in
  let '(n2, r) := mwc32 r in
  let '(n3, r) := mwc32 r in
  let c := real_add (of_int t n2) (times_I t (of_int t n3)) in
  put_sum T (loop 0 1000 (fun _ => float_ops T) (a, b, c, (fzero, fzero))) (set_rng r s).

Definition stress_cpu_complex_float : cpu_func := stress_cpu_complex F.
Definition stress_cpu_complex_double : cpu_func := stress_cpu_complex D.
Definition stress_cpu_complex_long_double : cpu_func := stress_cpu_complex L.

(** *** integer and floating point *)

Definition int32_fp (T : arith) (what : string) : cpu_func :=
  stress_cpu_int_fp T 32 0x1ce9b547 0xa24b33a C1 C2 C3 what.
Definition int64_fp (T : arith) (what : string) : cpu_func :=
  stress_cpu_int_fp T 64 0x13f7f6dc1d79197c 0x1863d2c6969a51ce C1 C2 C3 what.
Definition int128_fp (T : arith) (what : string) : cpu_func :=
  stress_cpu_int_fp T 128 (UINT128 0x132af604d8b9183a 0x5e3af8fa7a663d74) (UINT128 0x0062f086e6160e4e 0x0d84c9f800365858)
    (UINT128 C1 C1) (UINT128 C2 C2) (UINT128 C3 C3) what.

Definition stress_cpu_int32_float : cpu_func := int32_fp (real_arith F) "int32float".
Definition stress_cpu_int32_double : cpu_func := int32_fp (real_arith D) "int32double".
Definition stress_cpu_int32_longdouble : cpu_func := int32_fp (real_arith L) "int32longdouble".
Definition stress_cpu_int64_float : cpu_func := int64_fp (real_arith F) "int64float".
Definition stress_cpu_int64_double : cpu_func := int64_fp (real_arith D) "int64double".
Definition stress_cpu_int64_longdouble : cpu_func := int64_fp (real_arith L) "int64longdouble".
Definition stress_cpu_int128_float : cpu_func := int128_fp (real_arith F) "int128float".
Definition stress_cpu_int128_double : cpu_func := int128_fp (real_arith D) "int128double".
Definition stress_cpu_int128_longdouble : cpu_func := int128_fp (real_arith L) "int128longdouble".

(** the types [_Decimal32], [_Decimal64] and [_Decimal128], in this order *)
Variables decimal32 decimal64 decimal128 : arith.

Definition stress_cpu_decimal32 : cpu_func := stress_cpu_fp decimal32.
Definition stress_cpu_decimal64 : cpu_func := stress_cpu_fp decimal64.
Definition stress_cpu_decimal128 : cpu_func := stress_cpu_fp decimal128.
Definition stress_cpu_int128_decimal32 : cpu_func := int128_fp decimal32 "int128decimal32".
Definition stress_cpu_int128_decimal64 : cpu_func := int128_fp decimal64 "int128decimal64".
Definition stress_cpu_int128_decimal128 : cpu_func := int128_fp decimal128 "int128decimal128".

(** ** sqrt, trig, hyperbolic *)

(** [g_keep_stressing_flag] at each look of a call of the method *)
Variable look : nat -> bool.

(** the flag is looked at after a failure *)
Fixpoint sqrt_rounds (n k : nat) (verify : bool) (s : cpust) : cpust :=
  match n with
  | O => s
  | S n =>
      let '(rnd, r) := mwc32 (c_rng s) in
      let s := set_rng r s in
      let x := fmul D (fsqrt D (of_int D rnd)) (fsqrt D (of_int D rnd)) in
      if verify && negb (u64 (rint x) =? rnd) then
        let s := check_fail verify true "sqrt" s in
        if look k then sqrt_rounds n (S k) verify s else s
      else sqrt_rounds n k verify s
  end.
Definition stress_cpu_sqrt : cpu_func := sqrt_rounds (Z.to_nat 16384) 0.

(** [(2.0L * M_PI * (double)i)/1500.0L] *)
Definition angle (i : Z) : spec_float :=
  fdiv L (fmul L (fmul L (of_int L 2) M_PI) (of_int D i)) (of_int L 1500).

(** the type of an operation on two types *)
Definition wider (t t' : format) : format := if prec t <? prec t' then t' else t.
Definition add_at (sum t : format) (d x : spec_float) : spec_float := convert sum (fadd (wider sum t) d x).

(** the sum of the functions at three angles, for each type *)
Definition trig_round (sum : format) (c s : format -> spec_float -> spec_float) (cm sm : string) (i : Z) (d_sum : spec_float) :
    spec_float :=
  let theta := angle i in
  let theta2 := fmul L theta (of_int L 2) in
  let theta3 := fmul L theta (of_int L 3) in
  let both t := wider (type_of cm t) (type_of sm t) in
  let add (type : format -> format) (f : format -> spec_float) d_sum :=
    foldl (fun d t => add_at sum (type t) d (f t)) d_sum [L; D; F] in
  add (type_of sm) (fun t => call s sm t theta3) (add (type_of cm) (fun t => call c cm t theta2)
    (add both (fun t => fmul (both t) (call c cm t theta) (call s sm t theta)) d_sum)).

Definition stress_cpu_trig : cpu_func := fun _ s =>
  double_put (convert D (loop 0 1500 (trig_round L (m_cos m) (m_sin m) "HAVE_COSL" "HAVE_SINL") fzero)) s.
Definition stress_cpu_hyperbolic : cpu_func := fun _ s =>
  double_put (loop 0 1500 (trig_round D (m_cosh m) (m_sinh m) "HAVE_COSHL" "HAVE_SINHL") fzero) s.

(** ** rand48 *)

(** the generator of the C library: 48 bits, of which [srand48()] sets the high 32 *)
Definition srand48 (seedval : Z) : Z := (u32 seedval <<< 16) .| 0x330e.
Definition next48 (x : Z) : Z := (x * 0x5deece66d + 0xb) mod 2 ^ 48.
Definition drand48 (x : Z) : spec_float * Z := let x := next48 x in (dyadic D x (-48), x).
Definition lrand48 (x : Z) : Z * Z := let x := next48 x in (x >>> 17, x).

Definition stress_cpu_rand48 : cpu_func := fun _ s =>
  let '(d, l, _) := loop 0 16384 (fun _ '(d, l, x) =>
    let '(dr, x) := drand48 x in
    let '(lr, x) := lrand48 x in
    (fadd D d dr, l + lr, x)) (fzero, 0, srand48 0x0defaced) in
  uint64_put (u64 l) (double_put d s).

(** ** nsqrt, phi *)

(** the bisection; [j] is the rounds counted *)
Fixpoint nsqrt_loop (max_iter : nat) (n lo hi : spec_float) (j : nat) : spec_float * spec_float * nat :=
  match max_iter with
  | O => (lo, hi, S j)
  | S max_iter =>
      if flt (decimal L 1 12) (fsub L hi lo) then
        let g := fdiv L (fadd L lo hi) (of_int L 2) in
        if flt n (fmul L g g) then nsqrt_loop max_iter n lo g (S j) else nsqrt_loop max_iter n g hi (S j)
      else (lo, hi, S j)
  end.

Definition nsqrt_round (verify : bool) (i : Z) (s : cpust) : cpust :=
  let max_iter := 56%nat in
  let n := convert L (of_int D i) in
  let one := of_int L 1 in
  let lo := if flt n one then n else one in
  let hi := if flt n one then one else n in
  let '(lo, hi, j) := nsqrt_loop max_iter n lo hi 0 in
  let rt := fdiv L (fadd L lo hi) (of_int L 2) in
  let s := check_fail verify (max_iter <=? j)%nat "nsqrt iterations" s in
  check_fail verify (negb (rintl (fmul L rt rt) =? i)) "nsqrt accuracy" s.

Definition stress_cpu_nsqrt : cpu_func := fun verify => loop 0 16384 (nsqrt_round verify).

(** [for (i = 0; (i < 64) && !((a | b) & mask); i++)] *)
Fixpoint phi_loop (n : nat) (a b : Z) : Z * Z :=
  match n with
  | O => (a, b)
  | S n => if c_true ((a .| b) .& (1 <<< 63)) then (a, b) else phi_loop n b (u64 (a + b))
  end.

Definition phi_bad (a b : Z) : bool :=
  let phi_ := fdiv L (fadd L (of_int L 1) (sqrtl (of_int L 5))) (of_int L 2) in
  let '(a, b) := phi_loop 64 a b in
  let phi := fdiv L (of_int L b) (of_int L a) in
  flt (decimal L 1 15) (fabs_ (fsub L phi phi_)).

Definition stress_cpu_phi : cpu_func := fun verify s =>
  let '(a, r) := mwc64 (c_rng s) in
  let '(b, r) := mwc64 r in
  check_fail verify (phi_bad (a mod 99) (b mod 99)) "phi" (set_rng r s).

(** ** fft: [data] and [tmp] are parts of the two arrays, from an offset on *)

Definition at_ (xs : list cplx) (i : Z) : cplx := default (fzero, fzero) (xs !! Z.to_nat i).

(** [fft_partial(data, tmp, n, m)] at the offset [o]; the fuel bounds the depth, as [m] doubles *)
Fixpoint fft_partial (fuel : nat) (n step o : Z) (data tmp : list cplx) : list cplx * list cplx :=
  match fuel with
  | O => (data, tmp)
  | S fuel =>
      if step <? n then
        let m2 := step * 2 in
        let '(tmp, data) := fft_partial fuel n m2 o tmp data in
        let '(tmp, data) := fft_partial fuel n m2 (o + step) tmp data in
        let data := loop 0 ((n + m2 - 1) / m2) (fun q data =>
          let i := q * m2 in
          let negI := (fopp fzero, fopp (of_int D 1)) in
          let scaled := (fmul D (fmul D negI.1 M_PI) (of_int D i), fmul D (fmul D negI.2 M_PI) (of_int D i)) in
          let angle := (fdiv D scaled.1 (of_int D n), fdiv D scaled.2 (of_int D n)) in
          let v := at_ tmp (o + i) in
          let t := m_cmul m D (m_cexp m D angle) (at_ tmp (o + i + step)) in
          <[Z.to_nat (o + (i + n) / 2) := csub D v t]> (<[Z.to_nat (o + i / 2) := cadd D v t]> data)) data in
        (data, tmp)
      else (data, tmp)
  end.

Definition FFT_SIZE : Z := 4096.

(** the transform is not used *)
Definition fft_buffer (n : Z) : list cplx := (fun i => (of_int D (Z.of_nat i mod 63), fzero)) <$> seq 0 (Z.to_nat n).
Definition stress_cpu_fft : cpu_func := fun _ s =>
  let buf := fft_buffer FFT_SIZE in
  let '(_, _) := fft_partial 13 FFT_SIZE 1 0 buf buf in s.

(** ** euler, psi, ln2: series *)

(** the terms are added until the sum does not change by more than the precision *)
Definition moved (precision x y : spec_float) : bool := flt precision (fabs_ (fsub L x y)).

Definition euler_body (x : spec_float * spec_float * spec_float * Z) : spec_float * spec_float * spec_float * Z :=
  let '(e, _, fact, n) := x in
  let fact' := fmul L fact (of_int L n) in
  (fadd L e (fdiv L (of_int L 1) fact'), e, fact', n + 1).

Definition stress_cpu_euler : cpu_func := fun verify s =>
  let one := of_int L 1 in
  let x := do_while 25 euler_body (fun '(e, last_e, _, n) => (n <? 25) && moved (decimal L 1 20) e last_e)
    (one, fzero, one, 1) in
  check_fail verify (25 <=? x.2) "euler" s.

Definition PSI : spec_float := decimal L 3359885666243177553172011302918927179688905133732 48.

Definition psi_body (x : spec_float * spec_float * spec_float * spec_float * Z) :
    spec_float * spec_float * spec_float * spec_float * Z :=
  let '(f1, f2, psi, _, i) := x in
  let fn := fadd L f1 f2 in
  (f2, fn, fadd L psi (fdiv L (of_int L 1) f2), psi, i + 1).

Definition stress_cpu_psi : cpu_func := fun verify s =>
  let x := do_while 100 psi_body
    (fun '(_, _, psi, last_psi, i) => (i <? 100) && moved (decimal L 1 20) psi last_psi)
    (fzero, of_int L 1, fzero, fzero, 0) in
  let psi := x.1.1.2 in
  let s := check_fail verify (flt (decimal L 1 15) (fabs_ (fsub L psi PSI))) "psi accuracy" s in
  let s := check_fail verify (100 <=? x.2) "psi iterations" s in
  double_put (convert D psi) s.

(** one round adds and subtracts eight terms *)
Definition ln2_body (x : spec_float * spec_float * Z) : spec_float * spec_float * Z :=
  let '(ln2, _, n) := x in
  let term k := fdiv L (of_int L 1) (of_int L (n + k)) in
  let pair ln2 k := fsub L (fadd L ln2 (term k)) (term (k + 1)) in
  (pair (pair (pair (pair ln2 0) 2) 4) 6, ln2, n + 8).

Definition stress_cpu_ln2 : cpu_func := fun verify s =>
  let x := do_while 1250 ln2_body (fun '(ln2, last_ln2, n) => (n <? 10000) && moved (decimal L 1 7) ln2 last_ln2)
    (fzero, fzero, 1) in
  double_put (convert D x.1.1) (check_fail verify (10000 <=? x.2) "ln2" s).

(** ** explog, zeta, gamma *)

Definition stress_cpu_explog : cpu_func := fun _ s =>
  let _ := loop 1 99999 (fun _ n => m_exp m D (fdiv D (m_log m D n) (decimal D 100002 5))) (of_int D 1000000) in s.

(** [cpow()] and the division are those of [double], and all is real when it is a macro
    for [pow()]; [int i] must not pass 2 ^ 31 *)
Definition zeta_body (z_s : cplx) (x : cplx * cplx * Z) : cplx * cplx * Z :=
  let '(z, _, i) := x in
  let sd := (convert D z_s.1, convert D z_s.2) in
  let z' :=
    if defined "HAVE_CPOW" then
      let q := m_cdiv m D (of_int D 1, fzero) (m_cpow m D (of_int D i, fzero) sd) in
      cadd L z (convert L q.1, convert L q.2)
    else (fadd L z.1 (fdiv D (of_int D 1) (m_pow m D (of_int D i) sd.1)), z.2) in
  (z', z, i + 1).

Definition zeta (z_s : cplx) (precision : spec_float) : cplx :=
  (do_while 2147483647 (zeta_body z_s) (fun '(z, zold, _) => flt precision (cabsl (csub L z zold)))
    ((fzero, fzero), (fzero, fzero), 1)).1.1.

Definition stress_cpu_zeta : cpu_func := fun _ =>
  loop 2 9 (fun i => double_put (convert D (zeta (of_int D i, fzero) (decimal L 1 8)).1)).

Definition GAMMA : spec_float := decimal L 57721566490153286060651209008240243104215933593992 50.

Definition gamma_body (x : spec_float * spec_float * spec_float * spec_float) :
    spec_float * spec_float * spec_float * spec_float :=
  let '(sum, k, gamma, _) := x in
  let sum := fadd L sum (fdiv L (of_int L 1) k) in
  (sum, fadd L k (of_int L 1), fsub L sum (logl k), gamma).

Definition stress_cpu_gamma : cpu_func := fun verify s =>
  let '(_, k, gamma, _) := do_while 1000000 gamma_body
    (fun '(_, k, gamma, gammaold) => flt k (of_int D 1000000) && moved (decimal L 1 10) gamma gammaold)
    (fzero, of_int L 1, fzero, fzero) in
  let s := double_put (convert D gamma) s in
  let s := check_fail verify (flt (decimal L 1 5) (fabs_ (fsub L gamma GAMMA))) "gamma accuracy" s in
  check_fail verify (flt (of_int L 80000) k) "gamma iterations" s.

(** ** pi, omega *)

Definition factorials : list Z :=
  [1; 1; 2; 6; 24; 120; 720; 5040; 40320; 362880; 3628800; 39916800; 479001600; 6227020800; 87178291200; 1307674368000;
   20922789888000; 355687428096000; 6402373705728000; 121645100408832000; 2432902008176640000; 51090942171709440000;
   1124000727777607680000; 25852016738884976640000; 620448401733239439360000; 15511210043330985984000000;
   403291461126605635592388608; 10888869450418352161430700032; 304888344611713860511469666304;
   8841761993739701954695181369344; 265252859812191058647452510846976; 8222838654177922818071027836256256;
   263130836933693530178272890760200192].

Definition roundl (x : spec_float) : spec_float :=
  match x with S754_finite _ _ _ => of_int L (round_away x) | _ => x end.

Definition factorial (n : Z) : spec_float :=
  match factorials !! Z.to_nat n with
  | Some f => of_int L f
  | None => roundl (expl (lgammal (of_int L (n + 1))))
  end.

Definition pi_body (x : spec_float * spec_float * spec_float * Z) : spec_float * spec_float * spec_float * Z :=
  let c := fdiv L (fmul L (of_int L 2) (sqrtl (of_int L 2))) (of_int L 9801) in
  let '(s, pi, _, k) := x in
  let above := fmul L (factorial (4 * k)) (fadd L (fmul L (of_int L 26390) (of_int L k)) (of_int L 1103)) in
  let below := fmul (ltype "HAVE_POWL") (powl (factorial k) (of_int L 4)) (powl (of_int L 396) (fmul L (of_int L 4) (of_int L k))) in
  let s := fadd L s (fdiv L above below) in
  (s, fdiv L (of_int L 1) (fmul L s c), pi, k + 1).

Definition stress_cpu_pi : cpu_func := fun verify s =>
  let '(_, pi, _, k) := do_while 5 pi_body (fun '(_, pi, last_pi, k) => (k <? 5) && moved (decimal L 1 20) pi last_pi)
    (fzero, fzero, fzero, 0) in
  let s := check_fail verify (5 <=? k) "pi iterations" s in
  let s := check_fail verify (flt (decimal L 1 15) (fabs_ (fsub L pi M_PI))) "pi accuracy" s in
  double_put (convert D pi) s.

Definition OMEGA : spec_float := decimal L 56714329040978387299996866221035554975381578718651 50.

Definition omega_body (x : spec_float * spec_float * Z) : spec_float * spec_float * Z :=
  let '(omega, _, n) := x in
  let one := of_int L 1 in
  (fdiv L (fadd L one omega) (fadd (ltype "HAVE_EXPL") one (expl omega)), omega, n + 1).

Definition stress_cpu_omega : cpu_func := fun verify s =>
  let '(omega, _, n) := do_while 6 omega_body (fun '(omega, last_omega, n) => (n <? 6) && moved (decimal L 1 20) omega last_omega)
    (decimal L 5 1, fzero, 0) in
  let s := check_fail verify (6 <=? n) "omega iterations" s in
  let s := check_fail verify (flt (decimal L 1 16) (fabs_ (fsub L omega OMEGA))) "omega accuracy" s in
  double_put (convert D omega) s.

(** ** idct: 8 by 8 elements *)

Definition idct_data (u v : Z) : spec_float := of_int F (if u + v =? 0 then 2040 else 0).

Definition idct_term (pi_i pi_j : spec_float) (u v : Z) (sum : spec_float) : spec_float :=
  let invsqrt2 := fdiv D (of_int D 1) (fsqrt D (of_int D 2)) in
  let weight x := if c_true x then of_int D 1 else invsqrt2 in
  let cos_pi_i_u := m_cos m D (fmul D pi_i (of_int D u)) in
  let cos_pi_j_v := m_cos m D (fmul D pi_j (of_int D v)) in
  fadd D sum (fmul D (fmul D (fmul D (fmul D (idct_data u v) (weight u)) (weight v)) cos_pi_i_u) cos_pi_j_v).

Definition idct_sum (i j : Z) : spec_float :=
  let pi_over_16 := fdiv D M_PI (of_int D 16) in
  let pi_i := fmul D (of_int D (i + i + 1)) pi_over_16 in
  let pi_j := fmul D (of_int D (j + j + 1)) pi_over_16 in
  loop 0 8 (fun u sum => loop 0 8 (fun v sum => idct_term pi_i pi_j u v sum) sum) fzero.

Definition idct (i j : Z) : spec_float := convert F (fmul D (decimal D 25 2) (idct_sum i j)).

(** the flag is looked at after each row *)
Fixpoint idct_check (n : nat) (i : Z) (s : cpust) : cpust :=
  match n with
  | O => s
  | S n =>
      let s := loop 0 8 (fun j s => check_fail true (negb (ftrunc (idct i j) =? 255)) "idct" s) s in
      if look (Z.to_nat i) then idct_check n (i + 1) s else s
  end.
Definition stress_cpu_idct : cpu_func := fun verify s => if verify then idct_check 8 0 s else s.

(** ** rgb *)

Definition rgb_round (r g b : Z) : Z * Z * Z :=
  let c n k := decimal F n k in
  let y := fadd F (fadd F (fmul F (c 299 3%nat) (of_int F r)) (fmul F (c 587 3%nat) (of_int F g)))
             (fmul F (c 114 3%nat) (of_int F b)) in
  let u := fmul F (fsub F (of_int F b) y) (c 565 3%nat) in
  let v := fmul F (fsub F (of_int F r) y) (c 713 3%nat) in
  let r := u8 (ftrunc (fadd F y (fmul F (c 1403 3%nat) v))) in
  let g := u8 (ftrunc (fsub F (fsub F y (fmul F (c 344 3%nat) u)) (fmul F (c 714 3%nat) v))) in
  let b := u8 (ftrunc (fadd F y (fmul F (c 1770 3%nat) u))) in
  (u8 (r + 1), u8 (g + 2), u8 (b + 3)).

Definition stress_cpu_rgb : cpu_func := fun _ s =>
  let '(rgb, q) := mwc32 (c_rng s) in
  let rgb := rgb .& 0xffffff in
  let '(_, s) := loop 0 1000 (fun _ '(c, s) =>
    let '(r, g, b) := rgb_round c.1.1 c.1.2 c.2 in
    ((r, g, b), uint64_put (r + g + b) s)) ((u8 (rgb >>> 16), u8 (rgb >>> 8), u8 rgb), set_rng q s) in s.

(** ** matrixprod, correlate *)

(** the two matrices, an element of each in turn *)
Fixpoint prod_data (n : nat) (r : mwc) : list spec_float * list spec_float * mwc :=
  match n with
  | O => ([], [], r)
  | S n =>
      let v := fdiv L (of_int L 1) (of_int L 0xffffffff) in
      let '(x, r) := mwc32 r in
      let '(y, r) := mwc32 r in
      let '(a, b, r) := prod_data n r in
      (fmul L (of_int L x) v :: a, fmul L (of_int L y) v :: b, r)
  end.

Definition prod_sum (n : Z) (a b : list spec_float) : spec_float :=
  let el (x : list spec_float) i j := x !!! Z.to_nat (i * n + j) in
  let r i j := loop 0 n (fun k r => fadd L r (fmul L (el a i k) (el b k j))) fzero in
  loop 0 n (fun i sum => loop 0 n (fun j sum => fadd L sum (r i j)) sum) fzero.

Definition matrix_prod (n : Z) : cpu_func := fun _ s =>
  let '(a, b, r) := prod_data (Z.to_nat (n * n)) (c_rng s) in
  double_put (convert D (prod_sum n a b)) (set_rng r s).
Definition stress_cpu_matrix_prod : cpu_func := matrix_prod 128.

Fixpoint random_doubles (n : nat) (sum : spec_float) (r : mwc) : list spec_float * spec_float * mwc :=
  match n with
  | O => ([], sum, r)
  | S n =>
      let '(x, r) := mwc64 r in
      let x := of_int D x in
      let '(xs, sum, r) := random_doubles n (fadd D sum x) r in
      (x :: xs, sum, r)
  end.

Definition corr (data : list spec_float) (average : spec_float) (data_len corr_len i : Z) : spec_float :=
  let at_mean k := fsub D (data !!! Z.to_nat k) average in
  fdiv D (loop 0 (data_len - i) (fun j c => fadd D c (fmul D (at_mean (i + j)) (at_mean j))) fzero) (of_int D corr_len).

Definition correlate (data_len : Z) : cpu_func := fun _ s =>
  let corr_len := data_len / 16 in
  let '(data, sum, r) := random_doubles (Z.to_nat data_len) fzero (c_rng s) in
  let average := fdiv D sum (of_int D data_len) in
  loop 0 (corr_len + 1) (fun i => double_put (corr data average data_len corr_len i)) (set_rng r s).
Definition stress_cpu_correlate : cpu_func := correlate 16384.

(** ** callfunc: [frame n] is the address of the argument in the n-th call inside the first *)

Variable frame : nat -> Z.

Fixpoint callfunc_func (n : nat) (depth : nat) (p_u64arg : Z) : Z :=
  match n with
  | S n => callfunc_func n (S depth) p_u64arg
  | O => (frame depth - p_u64arg) ÷ 8
  end.

(** [here]: the address of the variable *)
Definition stress_cpu_callfunc (here : Z) : cpu_func := fun _ s =>
  let '(_, r) := mwc64 (c_rng s) in
  let '(_, r) := mwc32 r in
  let '(_, r) := mwc16 r in
  let '(_, r) := mwc8 r in
  uint64_put (u64 (callfunc_func 1024 0 here)) (set_rng r s).

(** ** dither: an image of [X] by [Y] *)

Definition image := nat -> nat -> Z.
Definition set_pixel (x y : nat) (v : Z) (p : image) : image :=
  fun x' y' => if (x' =? x)%nat && (y' =? y)%nat then v else p x' y'.

Definition add_pixel (x y : nat) (d : Z) (p : image) : image := set_pixel x y (u8 (p x y + d)) p.

(** eight rows of random bytes *)
Definition random_column (x y : nat) (acc : image * mwc) : image * mwc :=
  let '(p, r) := acc in
  let '(v, r) := mwc64 r in
  (foldl (fun p k => set_pixel x (y + k) (u8 (v >>> (8 * Z.of_nat k))) p) p (seq 0 8), r).

Definition random_image (X Y : nat) (acc : image * mwc) : image * mwc :=
  foldl (fun acc q => foldl (fun acc x => random_column x (8 * q) acc) acc (seq 0 X)) acc (seq 0 (Y / 8)).

Definition dither_pixel (X Y x y : nat) (p : image) : image :=
  let pixel := p x y in
  let quant := if pixel <? 128 then 0 else 255 in
  let error := pixel - quant in
  let xok1 := (x <? X - 1)%nat in
  let xok2 := (0 <? x)%nat in
  let yok1 := (y <? Y - 1)%nat in
  let p := if xok1 then add_pixel (x + 1) y ((error * 7) >>> 4) p else p in
  let p := if xok2 && yok1 then add_pixel (x - 1) (y + 1) ((error * 3) >>> 4) p else p in
  let p := if yok1 then add_pixel x (y + 1) ((error * 5) >>> 4) p else p in
  if xok1 && yok1 then add_pixel (x + 1) (y + 1) (error >>> 4) p else p.

Definition dither_image (X Y : nat) (p : image) : image :=
  foldl (fun p y => foldl (fun p x => dither_pixel X Y x y p) p (seq 0 X)) p (seq 0 Y).

Definition dither (X Y : nat) : cpu_func := fun _ s =>
  let '(p, r) := random_image X Y (pixels s, c_rng s) in
  Cpust r (c_fails s) (put_val s) (dither_image X Y p) (union_u s) (cpu_i s).
Definition stress_cpu_dither : cpu_func := dither (Z.to_nat 1024) (Z.to_nat 768).

(** ** union: bit fields of a 64 bit word, the first one lowest *)

Definition get_bits (off w u : Z) : Z := (u >>> off) .& (2 ^ w - 1).
Definition set_bits (off w v u : Z) : Z := (u .& Z.lnot ((2 ^ w - 1) <<< off)) .| ((v mod 2 ^ w) <<< off).
Definition on_bits (off w : Z) (f : Z -> Z) (u : Z) : Z := set_bits off w (f (get_bits off w u)) u.

(** [bits64]: b1, b10, b2, b9, b3, b8, b4, b7, b5, b6 from the bit 0 on *)
Definition union_round (u : Z) : Z :=
  let u := on_bits 0 1 (fun b => b .^ 1) u in
  let u := on_bits 11 2 (fun b => b - 1) u in
  let u := on_bits 0 10 (fun b => b .^ Z.lnot 0) u in               (* bits32.b10 *)
  let u := on_bits 22 3 (fun b => b + 1) u in
  let u := on_bits 15 1 (fun b => b - 1) u in                       (* bits16.b1 *)
  let u := on_bits 0 1 (fun b => b + 1) u in                        (* bits8.b1 *)
  let u := on_bits 33 4 (fun b => b * 2) u in
  let u := on_bits 10 20 (fun b => b + 3) u in                      (* bits32.b20 *)
  let u := u64 (u + 0x1037fc2ae21ef829) in
  let u := on_bits 49 6 (fun b => b - 1) u in
  let u := on_bits 0 7 (fun b => b * 3) u in                        (* bits8.b7 *)
  let u := on_bits 44 5 (fun b => b + (get_bits 33 4 u <<< 1)) u in
  let u := on_bits 31 1 (fun b => b .^ 1) u in                      (* bits32.b1 *)
  let u := on_bits 37 7 (fun b => b + 1) u in
  let u := on_bits 0 8 (fun b => b .^ 0xaa) u in                    (* bits8.b8 *)
  let u := on_bits 25 8 (fun b => b - 1) u in
  let u := on_bits 0 15 (fun b => b .^ 0xbeef) u in                 (* bits16.b15 *)
  let u := on_bits 13 9 (fun b => b + 1) u in
  on_bits 1 10 (fun b => b * 5) u.

Definition stress_cpu_union : cpu_func := fun _ s =>
  Cpust (c_rng s) (c_fails s) (put_val s) (pixels s) (loop 0 1000 (fun _ => union_round) (union_u s)) (cpu_i s).

(** ** factorial, stats *)

(** [(f - fact) / fact > precision] *)
Definition out_of_range (f fact : spec_float) : bool := flt (decimal D 1 6) (fdiv D (fsub D f fact) fact).

Definition factorial_round (verify : bool) (n : Z) (acc : spec_float * cpust) : spec_float * cpust :=
  let '(f, s) := acc in
  let sqrt_pi := convert D (sqrtl M_PI) in
  let fact := convert D (roundl (expl (lgammal (of_int D (n + 1))))) in
  let f := fmul D f (of_int D n) in
  let s := check_fail verify (out_of_range f fact) "factorial Stirling" s in
  let dn := of_int D n in
  let fact := convert D (fmul (ltype "HAVE_POWL") sqrt_pi (powl (fdiv D dn M_E) dn)) in
  let poly := fadd D (fmul D (fadd D (fmul D (fadd D (fmul D (of_int D 8) dn) (of_int D 4)) dn) (of_int D 1)) dn)
    (fdiv D (of_int D 1) (of_int D 30)) in
  let fact := convert D (fmul (ltype "HAVE_POWL") fact (powl poly (fdiv D (of_int D 1) (of_int D 6)))) in
  let s := check_fail verify (out_of_range f fact) "factorial Ramanujan" s in
  (f, s).

Definition stress_cpu_factorial : cpu_func := fun verify s =>
  (loop 1 149 (factorial_round verify) (of_int D 1, s)).2.

Definition STATS_MAX : Z := 250.

(** [mwc32() + 1] is a [uint32_t] *)
Fixpoint stats_data (n : nat) (r : mwc) : list spec_float * mwc :=
  match n with
  | O => ([], r)
  | S n =>
      let '(x, r) := mwc32 r in
      let '(xs, r) := stats_data n r in
      (fdiv D (of_int D (u32 (x + 1))) (of_int D 4294967296) :: xs, r)
  end.

Definition stats_min (data : list spec_float) : spec_float := foldl (fun lo d => if flt d lo then d else lo) (data !!! 0%nat) data.
Definition stats_max (data : list spec_float) : spec_float := foldl (fun hi d => if flt hi d then d else hi) (data !!! 0%nat) data.

(** these failures are reported without [--verify] too *)
Definition stats_check (data : list spec_float) (s : cpust) : cpust :=
  let n := of_int D STATS_MAX in
  let am := fdiv D (foldl (fadd D) fzero data) n in
  let gm := m_pow m D (foldl (fmul D) (of_int D 1) data) (fdiv D (of_int D 1) n) in
  let hm := fdiv D n (foldl (fun hm d => fadd D hm (fdiv D (of_int D 1) d)) fzero data) in
  let stddev := fsqrt D (foldl (fun v x => let d := fsub D x am in fadd D v (fmul D d d)) fzero data) in
  let s := double_put stddev (double_put hm (double_put gm (double_put am s))) in
  let s := check_fail true (flt hm (stats_min data)) "stats minimum" s in
  let s := check_fail true (flt gm hm) "stats harmonic" s in
  let s := check_fail true (flt am gm) "stats geometric" s in
  check_fail true (flt (stats_max data) am) "stats arithmetic" s.

Definition stress_cpu_stats : cpu_func := fun _ s =>
  let '(data, r) := stats_data (Z.to_nat STATS_MAX) (c_rng s) in
  stats_check data (set_rng r s).
End Methods.
