(* ===== verification/FloatChecks.v ===== *)
(** * The self checks of the floating point CPU stressors

    With any functions of the mathematical library that give what C promises at the
    arguments where it promises something, a method whose check is evaluated or
    proved here finds nothing to report. *)

From S2P Require Import Prelude Mwc Float Cpu CpuProofs CpuChecks CpuFloat.

(** ** Methods that only write values *)

Create Rewrite HintDb fails.

Section Checks.
Variable m : libm.
Variable defined : string -> bool.
Variable shared : bool.

Lemma double_put_fails x s : c_fails (double_put shared x s) = c_fails s.
Proof. unfold double_put. by destruct shared. Qed.

Lemma put_sum_fails T x s : c_fails (put_sum shared T x s) = c_fails s.
Proof. destruct x as [[[a b] c] d]. apply double_put_fails. Qed.

Lemma set_rng_fails r s : c_fails (set_rng r s) = c_fails s.
Proof. done. Qed.

#[local] Hint Rewrite double_put_fails put_sum_fails set_rng_fails : fails.

(** a loop whose rounds only write *)
Lemma loop_fails (f : Z -> cpust -> cpust) a n s :
  (forall k s, c_fails (f k s) = c_fails s) -> c_fails (loop a n f s) = c_fails s.
Proof.
  intros H. unfold loop. apply (loop_inv (fun _ s' => c_fails s' = c_fails s)); [done|]. intros k s' _ Hs. by rewrite H.
Qed.

Lemma fp_silent T verify s : c_fails (stress_cpu_fp shared T verify s) = c_fails s.
Proof.
  unfold stress_cpu_fp. destruct (mwc32 (c_rng s)) as [b r]. destruct (mwc32 r) as [c r']. by autorewrite with fails.
Qed.

Lemma complex_silent t verify s : c_fails (stress_cpu_complex m defined shared t verify s) = c_fails s.
Proof.
  unfold stress_cpu_complex. destruct (mwc32 (c_rng s)) as [b r]. destruct (mwc32 r) as [c r1]. destruct (mwc32 r1) as [d r2].
  by autorewrite with fails.
Qed.

Lemma correlate_silent n verify s : c_fails (correlate shared n verify s) = c_fails s.
Proof.
  unfold correlate. destruct (random_doubles _ _ _) as [[xs sum] r]. rewrite loop_fails; [done|]. intros. by autorewrite with fails.
Qed.

Lemma matrix_prod_silent n verify s : c_fails (matrix_prod shared n verify s) = c_fails s.
Proof. unfold matrix_prod. destruct (prod_data _ _) as [[a b] r]. by autorewrite with fails. Qed.

Lemma rand48_silent verify s : c_fails (stress_cpu_rand48 shared verify s) = c_fails s.
Proof. unfold stress_cpu_rand48. destruct (loop _ _ _ _) as [[d l] x]. cbn. by autorewrite with fails. Qed.

Lemma zeta_silent verify s : c_fails (stress_cpu_zeta m defined shared verify s) = c_fails s.
Proof. apply loop_fails. intros. by autorewrite with fails. Qed.

Lemma callfunc_silent frame here verify s : c_fails (stress_cpu_callfunc frame here verify s) = c_fails s.
Proof.
  unfold stress_cpu_callfunc. destruct (mwc64 _) as [? r]. destruct (mwc32 r) as [? r1]. destruct (mwc16 r1) as [? r2].
  by destruct (mwc8 r2).
Qed.

Lemma dither_silent X Y verify s : c_fails (dither X Y verify s) = c_fails s.
Proof. unfold dither. by destruct (random_image _ _ _). Qed.

Lemma rgb_silent verify s : c_fails (stress_cpu_rgb verify s) = c_fails s.
Proof.
  unfold stress_cpu_rgb. destruct (mwc32 (c_rng s)) as [rgb q].
  assert (forall n i c s, c_fails (loop_n n i (fun _ '(c, s) =>
    let '(r, g, b) := rgb_round c.1.1 c.1.2 c.2 in ((r, g, b), uint64_put (r + g + b) s)) (c, s)).2 = c_fails s) as H.
  { induction n as [|n IH]; intros i c s'; [done|]. cbn [loop_n]. destruct (rgb_round _ _ _) as [[r g] b]. by rewrite IH. }
  unfold loop. specialize (H (Z.to_nat 1000) 0 ((u8 ((rgb .& 0xffffff) >>> 16), u8 ((rgb .& 0xffffff) >>> 8), u8 (rgb .& 0xffffff)))
    (set_rng q s)). by destruct (loop_n _ _ _ _).
Qed.

(** ** Integers beside floating point numbers *)

(** the floating point part does not touch the integers *)
Lemma int_float_ops_ints T w c1 c2 c3 flts a b r :
  (int_float_ops T w c1 c2 c3 (flts, (a, b, r))).2 = int_ops w c1 c2 c3 a b r.
Proof.
  destruct flts as [[[fa fb] fc] fd]. unfold int_float_ops, int_ops. cbv zeta.
  destruct (mwc32 r) as [v1 r1]. destruct (mwc32 r1) as [v2 r2]. destruct (mwc32 r2) as [v3 r3]. by destruct (mwc32 r3).
Qed.

Lemma int_float_rounds_ints T w c1 c2 c3 n i flts a b r :
  (loop_n n i (fun _ => int_float_ops T w c1 c2 c3) (flts, (a, b, r))).2 = int_rounds n w c1 c2 c3 a b r.
Proof.
  revert i flts a b r. induction n as [|n IH]; intros i flts a b r; [done|]. cbn [loop_n int_rounds].
  pose proof (int_float_ops_ints T w c1 c2 c3 flts a b r) as H.
  destruct (int_float_ops _ _ _ _ _ _) as [flts' ints']. cbn [snd] in H. subst ints'.
  destruct (int_ops _ _ _ _ _ _ _) as [[a' b'] r']. apply IH.
Qed.

Lemma int_float_loop_ints T w c1 c2 c3 flts a b r :
  (loop 0 1000 (fun _ => int_float_ops T w c1 c2 c3) (flts, (a, b, r))).2 = int_rounds 1000 w c1 c2 c3 a b r.
Proof. exact (int_float_rounds_ints T w c1 c2 c3 1000 0 flts a b r). Qed.

#[local] Opaque loop int_rounds.

Lemma int_fp_silent T w a_final b_final c1 c2 c3 what verify s :
  (forall e f, (int_run w c1 c2 c3 (seeded e f)).1 = (a_final, b_final)) ->
  c_fails (stress_cpu_int_fp shared T w a_final b_final c1 c2 c3 what verify s) = c_fails s.
Proof.
  intros Hv. unfold stress_cpu_int_fp. destruct (mwc32 (c_rng s)) as [b r]. destruct (mwc32 r) as [c r1].
  specialize (Hv (saved8 r1) (saved16 r1)). rewrite <- MWC_SEED_seeded in Hv. revert Hv. generalize (MWC_SEED r1). intros r0 Hv.
  unfold int_run in Hv. destruct (mwc32 r0) as [x r2]. destruct (mwc32 r2) as [y r3].
  pose proof (int_float_loop_ints T w (uw w c1) (uw w c2) (uw w c3)
    (nconst T 18728 5, nu32 T b, nu32 T c, nconst T 0 0) (uw w x) (uw w y) r3) as Hi.
  destruct (loop _ _ _ _) as [flts ints]. cbn [snd] in Hi. subst ints.
  destruct (int_rounds _ _ _ _ _ _ _ _) as [[a' b'] r4]. cbn [fst] in Hv. injection Hv as -> ->.
  rewrite put_sum_fails, !Z.eqb_refl. by rewrite check_fail_ok.
Qed.

#[local] Transparent loop int_rounds.

Lemma int64_value e f : (int_run 64 C1 C2 C3 (seeded e f)).1 = (0x13f7f6dc1d79197c, 0x1863d2c6969a51ce).
Proof. vm_compute. reflexivity. Qed.

(** ** The series end before their bounds *)

Lemma euler_silent verify s : stress_cpu_euler verify s = s.
Proof. apply check_fail_ok. vm_compute. reflexivity. Qed.

Lemma psi_ends : let x := do_while 100 psi_body
    (fun '(_, _, psi, last_psi, i) => (i <? 100) && moved (decimal L 1 20) psi last_psi) (fzero, of_int L 1, fzero, fzero, 0) in
  (100 <=? x.2) || flt (decimal L 1 15) (fabs_ (fsub L x.1.1.2 PSI)) = false.
Proof. vm_compute. reflexivity. Qed.

Lemma psi_silent verify s : c_fails (stress_cpu_psi shared verify s) = c_fails s.
Proof.
  unfold stress_cpu_psi. pose proof psi_ends as H. revert H. cbv zeta. generalize (do_while 100 psi_body). intros loop_ H.
  apply orb_false_iff in H as [H1 H2]. by rewrite double_put_fails, !check_fail_ok.
Qed.

Lemma ln2_ends : (do_while 1250 ln2_body (fun '(ln2, last_ln2, n) => (n <? 10000) && moved (decimal L 1 7) ln2 last_ln2)
    (fzero, fzero, 1)).2 = 6337.
Proof. set (p := decimal L 1 7). vm_compute in p. subst p. vm_compute. reflexivity. Qed.

Lemma ln2_silent verify s : c_fails (stress_cpu_ln2 shared verify s) = c_fails s.
Proof.
  unfold stress_cpu_ln2. pose proof ln2_ends as H. revert H. generalize (do_while 1250 ln2_body). intros loop_ H.
  cbv zeta. by rewrite double_put_fails, H, check_fail_ok.
Qed.

(** ** idct: the only element that is not zero has the angle zero *)

Definition finite (x : spec_float) : bool := match x with S754_zero _ | S754_finite _ _ _ => true | _ => false end.

(** what C says of the cosine *)
Definition cosine_ok : Prop :=
  m_cos m D fzero = of_int D 1 /\ forall x, finite x = true -> finite (m_cos m D x) = true.

Lemma zero_times s x : finite x = true -> exists s', fmul D (S754_zero s) x = S754_zero s'.
Proof. destruct x; try discriminate; intros _; by eexists. Qed.

Definition idct_angle (i : Z) : spec_float := fmul D (of_int D (i + i + 1)) (fdiv D M_PI (of_int D 16)).

Lemma in_eight (P : Z -> bool) : forallb P (Z.of_nat <$> seq 0 8) = true -> forall i, 0 <= i < 8 -> P i = true.
Proof.
  intros H i Hi. rewrite forallb_forall in H. apply H. apply list_elem_of_In, list_elem_of_fmap. exists (Z.to_nat i).
  split; [lia|]. apply elem_of_seq. lia.
Qed.

(** positive angles *)
Lemma idct_angles i : 0 <= i < 8 ->
  fmul D (idct_angle i) (of_int D 0) = fzero /\ forall u, 0 <= u < 8 -> finite (fmul D (idct_angle i) (of_int D u)) = true.
Proof.
  intros Hi.
  assert (forallb (fun i => bool_decide (fmul D (idct_angle i) (of_int D 0) = fzero) &&
    forallb (fun u => finite (fmul D (idct_angle i) (of_int D u))) (Z.of_nat <$> seq 0 8)) (Z.of_nat <$> seq 0 8) = true) as H.
  { vm_compute. reflexivity. }
  pose proof (in_eight _ H i Hi) as Hb. apply andb_true_iff in Hb as [H0 Hu]. split; [by apply bool_decide_eq_true in H0|].
  by apply in_eight.
Qed.

(** ** pi: four rounds, in which the powers are of small integers *)

Definition pow_points : list (Z * Z) := [(1, 4); (2, 4); (6, 4); (396, 0); (396, 4); (396, 8); (396, 12)].

(** the powers of these integers are rounded as the operations are *)
Definition powers_ok : Prop :=
  forall t b e, t = L \/ t = D -> (b, e) ∈ pow_points -> m_pow m t (of_int t b) (of_int t e) = of_int t (b ^ e).

(** a round with the values of the functions in it *)
Definition pi_ref (pt st : format) (x : spec_float * spec_float * spec_float * Z) : spec_float * spec_float * spec_float * Z :=
  let c := fdiv L (fmul L (of_int L 2) (fsqrt st (of_int st 2))) (of_int L 9801) in
  let '(s, pi, _, k) := x in
  let fact n := of_int L (factorials !!! Z.to_nat n) in
  let above := fmul L (fact (4 * k)) (fadd L (fmul L (of_int L 26390) (of_int L k)) (of_int L 1103)) in
  let below := fmul pt (of_int pt ((factorials !!! Z.to_nat k) ^ 4)) (of_int pt (396 ^ (4 * k))) in
  let s := fadd L s (fdiv L above below) in
  (s, fdiv L (of_int L 1) (fmul L s c), pi, k + 1).

Lemma powl_points b e : powers_ok -> (b, e) ∈ pow_points ->
  powl m defined (of_int L b) (of_int L e) = of_int (ltype defined "HAVE_POWL") (b ^ e).
Proof.
  intros Hp Hin. unfold powl. assert (forall t, t = L \/ t = D -> convert t (of_int L b) = of_int t b /\ convert t (of_int L e) = of_int t e) as H.
  { intros t Ht. unfold pow_points in Hin. repeat (apply elem_of_cons in Hin as [[= -> ->]|Hin]; [destruct Ht as [-> | ->]; done|]).
    by apply not_elem_of_nil in Hin. }
  assert (ltype defined "HAVE_POWL" = L \/ ltype defined "HAVE_POWL" = D) as Ht by (unfold ltype; destruct (defined _); auto).
  destruct (H _ Ht) as [-> ->]. by apply Hp.
Qed.

Lemma pi_body_ref s pi last k : powers_ok -> 0 <= k < 4 ->
  pi_body m defined (s, pi, last, k) = pi_ref (ltype defined "HAVE_POWL") (ltype defined "HAVE_SQRTL") (s, pi, last, k).
Proof.
  intros Hp Hk. unfold pi_body, pi_ref. cbv zeta.
  assert (sqrtl defined (of_int L 2) = fsqrt (ltype defined "HAVE_SQRTL") (of_int (ltype defined "HAVE_SQRTL") 2)) as ->.
  { unfold sqrtl, call, type_of, ltype. cbn [prec L Z.eqb Pos.eqb]. by destruct (defined "HAVE_SQRTL"). }
  assert (forall n, 0 <= n <= 12 -> factorial m defined n = of_int L (factorials !!! Z.to_nat n)) as Hfact.
  { intros n Hn. unfold factorial. destruct (lookup_lt_is_Some_2 factorials (Z.to_nat n)) as [f Hf]; [cbn [factorials length]; lia|].
    by rewrite Hf, (list_lookup_total_correct _ _ _ Hf). }
  rewrite !Hfact by lia.
  assert (((factorials !!! Z.to_nat k), 4) ∈ pow_points /\ (396, 4 * k) ∈ pow_points /\ fmul L (of_int L 4) (of_int L k) = of_int L (4 * k))
    as (H1 & H2 & ->).
  { assert (k = 0 \/ k = 1 \/ k = 2 \/ k = 3) as [-> | [-> | [-> | ->]]] by lia;
      (split; [|split]; [apply (bool_decide_unpack _); vm_compute; exact I|apply (bool_decide_unpack _); vm_compute; exact I|vm_compute; reflexivity]). }
  by rewrite !powl_points.
Qed.

(** loops that agree where they come along *)
Lemma rounds_agree {A} (P : A -> Prop) n (f g : A -> A + A) a :
  (forall a, P a -> f a = g a /\ forall a', g a = inl a' -> P a') -> P a ->
  rounds n f a = rounds n g a /\ forall a', rounds n g a = inl a' -> P a'.
Proof.
  intros H. revert a. induction n as [n IH|n IH|]; intros a Ha; cbn [rounds].
  - destruct (H a Ha) as [-> H1]. destruct (g a) as [a1|a1]; [|done]. specialize (H1 a1 eq_refl).
    destruct (IH a1 H1) as [-> H2]. destruct (rounds n g a1) as [a2|a2]; [|done]. by apply IH, H2.
  - destruct (IH a Ha) as [-> H2]. destruct (rounds n g a) as [a2|a2]; [|done]. by apply IH, H2.
  - by apply H.
Qed.

Lemma do_while_agree {A} (P : A -> Prop) n (body body' : A -> A) cond a :
  (forall a, P a -> body a = body' a /\ (cond (body' a) = true -> P (body' a))) -> P a ->
  do_while n body cond a = do_while n body' cond a.
Proof.
  intros H Ha. unfold do_while.
  destruct (rounds_agree P n (fun a => let a := body a in if cond a then inl a else inr a)
    (fun a => let a := body' a in if cond a then inl a else inr a) a) as [E _];
    [|done|exact (f_equal (fun r => match r with inl a | inr a => a end) E)].
  intros x Hx. destruct (H x Hx) as [-> Hn]. split; [done|]. intros a'. cbv zeta. destruct (cond (body' x)) eqn:Hc; intros [= <-].
  by apply Hn.
Qed.

Definition pi_going (x : spec_float * spec_float * spec_float * Z) : bool :=
  let '(_, pi, last_pi, k) := x in (k <? 5) && moved (decimal L 1 20) pi last_pi.
Definition pi_start : spec_float * spec_float * spec_float * Z := (fzero, fzero, fzero, 0).

(** the rounds come to an end with [k = 4] *)
Lemma pi_ends pt st : pt = L \/ pt = D -> st = L \/ st = D ->
  let x := do_while 5 (pi_ref pt st) pi_going pi_start in
  (forallb (fun n => pi_going (Nat.iter n (pi_ref pt st) pi_start)) [1; 2; 3]%nat && negb (pi_going (Nat.iter 4 (pi_ref pt st) pi_start))
   && negb (5 <=? x.2) && negb (flt (decimal L 1 15) (fabs_ (fsub L x.1.1.2 M_PI)))) = true.
Proof. intros [-> | ->] [-> | ->]; vm_compute; reflexivity. Qed.

Lemma pi_loop_ref : powers_ok ->
  do_while 5 (pi_body m defined) pi_going pi_start =
  do_while 5 (pi_ref (ltype defined "HAVE_POWL") (ltype defined "HAVE_SQRTL")) pi_going pi_start.
Proof.
  intros Hp. assert (forall macro, ltype defined macro = L \/ ltype defined macro = D) as Ht
    by (intros; unfold ltype; destruct (defined _); auto).
  pose proof (pi_ends _ _ (Ht "HAVE_POWL") (Ht "HAVE_SQRTL")) as He. cbv zeta in He.
  remember (pi_ref (ltype defined "HAVE_POWL") (ltype defined "HAVE_SQRTL")) as g eqn:Eg.
  apply andb_true_iff in He as [He _]. apply andb_true_iff in He as [He _]. apply andb_true_iff in He as [Hgo Hstop].
  assert (forall n, (Nat.iter n g pi_start).2 = Z.of_nat n) as Hk.
  { induction n as [|n IH]; [done|]. rewrite Nat.iter_succ. destruct (Nat.iter n g pi_start) as [[[? ?] ?] k]. cbn [snd] in IH.
    subst k. rewrite Eg. unfold pi_ref. cbv zeta. cbn [snd]. lia. }
  apply (do_while_agree (fun x => exists n, (n < 4)%nat /\ x = Nat.iter n g pi_start)); [|by exists 0%nat; split; [lia|]].
  intros a (n & Hn & ->). specialize (Hk n) as Hkn. split.
  - destruct (Nat.iter n g pi_start) as [[[s0 p0] l0] k]. cbn [snd] in Hkn. rewrite Eg. apply pi_body_ref; [done|lia].
  - rewrite <- Nat.iter_succ. intros Hg. exists (S n). split; [|done].
    assert (n = 3%nat \/ (n < 3)%nat) as [-> |] by lia; [|lia]. apply negb_true_iff in Hstop. congruence.
Qed.

Lemma pi_silent verify s : powers_ok -> c_fails (stress_cpu_pi m defined shared verify s) = c_fails s.
Proof.
  intros Hp. unfold stress_cpu_pi. fold pi_going pi_start. change (do_while 5 (pi_body m defined) _ _) with
    (do_while 5 (pi_body m defined) pi_going pi_start). rewrite (pi_loop_ref Hp).
  assert (forall macro, ltype defined macro = L \/ ltype defined macro = D) as Ht
    by (intros; unfold ltype; destruct (defined _); auto).
  pose proof (pi_ends _ _ (Ht "HAVE_POWL") (Ht "HAVE_SQRTL")) as He. cbv zeta in He. revert He.
  generalize (pi_ref (ltype defined "HAVE_POWL") (ltype defined "HAVE_SQRTL")). intros g He.
  apply andb_true_iff in He as [He H2]. apply andb_true_iff in He as [_ H1]. apply negb_true_iff in H1, H2.
  destruct (do_while 5 g pi_going pi_start) as [[[s0 pi] l0] k]. cbn [fst snd] in H1, H2.
  by rewrite double_put_fails, !check_fail_ok.
Qed.

Hypothesis cosine : cosine_ok.

(** the sum after the first term *)
Definition idct_first : spec_float :=
  let w := fdiv D (of_int D 1) (fsqrt D (of_int D 2)) in
  fmul D (fmul D (fmul D (fmul D (of_int F 2040) w) w) (of_int D 1)) (of_int D 1).

Lemma idct_term_first i j : 0 <= i < 8 -> 0 <= j < 8 ->
  idct_term m (idct_angle i) (idct_angle j) 0 0 fzero = idct_first.
Proof.
  intros Hi Hj. unfold idct_term. rewrite (proj1 (idct_angles i Hi)), (proj1 (idct_angles j Hj)), (proj1 cosine).
  vm_compute. reflexivity.
Qed.

Lemma idct_term_other i j u v : 0 <= i < 8 -> 0 <= j < 8 -> 0 <= u < 8 -> 0 <= v < 8 -> u + v <> 0 ->
  idct_term m (idct_angle i) (idct_angle j) u v idct_first = idct_first.
Proof.
  intros Hi Hj Hu Hv Huv. unfold idct_term, idct_data. rewrite (proj2 (Z.eqb_neq _ _) Huv).
  change (of_int F 0) with (S754_zero false).
  pose proof (proj2 cosine _ (proj2 (idct_angles i Hi) u Hu)) as Ci. pose proof (proj2 cosine _ (proj2 (idct_angles j Hj) v Hv)) as Cj.
  revert Ci Cj. generalize (m_cos m D (fmul D (idct_angle i) (of_int D u))) (m_cos m D (fmul D (idct_angle j) (of_int D v))).
  intros x y Hx Hy.
  assert (forall b : bool, finite (if b then of_int D 1 else fdiv D (of_int D 1) (fsqrt D (of_int D 2))) = true) as Hw
    by (intros []; vm_compute; reflexivity).
  destruct (zero_times false _ (Hw (c_true u))) as (s1 & ->). destruct (zero_times s1 _ (Hw (c_true v))) as (s2 & ->).
  destruct (zero_times s2 x Hx) as (s3 & ->). destruct (zero_times s3 y Hy) as (s4 & ->). vm_compute. reflexivity.
Qed.

Lemma idct_sum_is i j : 0 <= i < 8 -> 0 <= j < 8 -> idct_sum m i j = idct_first.
Proof.
  intros Hi Hj. unfold idct_sum, loop. cbv zeta. fold (idct_angle i) (idct_angle j). change (Z.to_nat 8) with 8%nat.
  assert (forall u, 0 <= u < 8 -> forall s0, s0 = (if u =? 0 then fzero else idct_first) ->
    loop_n 8 0 (fun v sum => idct_term m (idct_angle i) (idct_angle j) u v sum) s0 = idct_first) as Hrow.
  { intros u Hu s0 Hs0. pose proof (loop_inv (fun v s => s = if (u =? 0) && (v =? 0) then fzero else idct_first) 8 0
      (fun v sum => idct_term m (idct_angle i) (idct_angle j) u v sum) s0) as H. cbn [Z.of_nat] in H.
    rewrite andb_false_r in H. apply H; clear H.
    - by rewrite andb_true_r.
    - intros v s Hv ->. assert (v + 1 <> 0) as Hv1 by lia. rewrite (proj2 (Z.eqb_neq _ _) Hv1), andb_false_r.
      destruct (Z.eqb_spec u 0) as [->|Hu0]; cbn [andb]; [|apply idct_term_other; lia].
      destruct (Z.eqb_spec v 0) as [->|Hv0]; [apply idct_term_first; lia|apply idct_term_other; lia]. }
  pose proof (loop_inv (fun u s => s = if u =? 0 then fzero else idct_first) 8 0
    (fun u sum => loop_n 8 0 (fun v sum => idct_term m (idct_angle i) (idct_angle j) u v sum) sum) fzero) as H.
  apply H; clear H; [done|]. intros u s Hu Hs. rewrite (proj2 (Z.eqb_neq (u + 1) 0)) by lia. apply Hrow; [lia|done].
Qed.

Lemma idct_silent look verify s : c_fails (stress_cpu_idct m look verify s) = c_fails s.
Proof.
  unfold stress_cpu_idct. destruct verify; [|done].
  assert (forall n i s, (i + n <= 8)%nat -> c_fails (idct_check m look n (Z.of_nat i) s) = c_fails s) as H.
  { clear s. induction n as [|n IH]; intros i s Hi; [done|]. cbn [idct_check].
    assert (loop 0 8 (fun j s => check_fail true (negb (ftrunc (idct m (Z.of_nat i) j) =? 255)) "idct" s) s = s) as ->.
    { unfold loop. apply (loop_inv (fun _ s' => s' = s)); [done|]. intros j s' Hj ->. apply check_fail_ok.
      unfold idct. rewrite idct_sum_is by lia. vm_compute. reflexivity. }
    destruct (look _); [|done]. replace (Z.of_nat i + 1) with (Z.of_nat (S i)) by lia. apply IH. lia. }
  apply (H 8%nat 0%nat s). lia.
Qed.
End Checks.
