(* ===== verification/Helpers.v ===== *)
(** * Asking the system (helper.c, stress-ng.c)

    The page size, the processors, the memory and the file system that is free,
    the descriptors left, the largest pipe; the search for a stride of file names
    and the alignment of addresses.  What [sysconf()], [statvfs()] and the like
    answer is an argument; the values kept in static variables between the calls
    are passed through. *)

From Stdlib Require Import Znumtheory.
From S2P Require Import Prelude Mwc Cpu CpuPrimes.

Definition PAGE_4K : Z := 1 <<< 12.

(** ** Sizes *)

(** [page_size] is the static variable, [answer] what [sysconf(_SC_PAGESIZE)] returns *)
Definition stress_get_pagesize (answer page_size : Z) : Z :=
  if 0 <? page_size then page_size else if answer <=? 0 then PAGE_4K else u64 answer.

Definition stress_get_processors_online (answer processors_online : Z) : Z :=
  if 0 <? processors_online then processors_online else if s32 answer <? 0 then 1 else s32 answer.

Definition stress_get_processors_configured (answer online processors_configured : Z) : Z :=
  if 0 <? processors_configured then processors_configured else if s32 answer <? 0 then online else s32 answer.

(** [-1]: as many as are online; [0]: as many as are configured *)
Definition stress_get_processors (online configured count : Z) : Z :=
  if count =? 0 then configured else if count <? 0 then online else count.

(** [answer] is the number of pages [sysconf()] reports, or -1 *)
Definition stress_get_phys_mem_size (answer page_size : Z) : Z :=
  let max_pages := (2 ^ 64 - 1) / page_size in
  let phys_pages := u64 answer in
  let phys_pages := if max_pages <? phys_pages then max_pages else phys_pages in
  u64 (phys_pages * page_size).

(** the block size and the blocks available, unless [statvfs()] fails *)
Definition stress_get_filesystem_size (buf : option (Z * Z)) : Z :=
  match buf with
  | None => 0
  | Some (f_bsize, f_bavail) =>
      let max_blocks := (2 ^ 64 - 1) / f_bsize in
      let blocks := if max_blocks <? f_bavail then max_blocks else f_bavail in
      u64 (f_bsize * blocks)
  end.

(** [opened i]: the descriptor [i] is in use *)
Definition stress_get_file_limit (rlim_cur : option nat) (opened : nat -> bool) : nat :=
  let max := default (Z.to_nat 65536) rlim_cur in
  (max - length (List.filter opened (seq 0 max)))%nat.

Definition align_address (addr alignment : Z) : Z := u64 (addr + alignment) .& not64 (alignment - 1).

(** ** The largest pipe *)

(** [setpipe]: the system can make a pipe of that size *)
Definition stress_check_max_pipe_size (setpipe : Z -> bool) (sz page_size : Z) : Z :=
  if sz <? page_size then -1 else if setpipe sz then 0 else -1.

Definition INT_MAX : Z := 2 ^ 31 - 1.

(** the probing: the size and whether it is left through the [return] *)
Fixpoint chop_pipe_size (setpipe : Z -> bool) (page_size : Z) (n : nat) (min max prev_sz sz : Z) : Z * bool :=
  match n with
  | O => (sz, false)
  | S n =>
      let sz := min + (max - min) / 2 in
      if prev_sz =? sz then (sz, true)
      else if stress_check_max_pipe_size setpipe sz page_size =? 0 then chop_pipe_size setpipe page_size n sz max sz sz
      else chop_pipe_size setpipe page_size n min sz sz sz
  end.

(** the size and the static variable; [file]: the number in
    /proc/sys/fs/pipe-max-size, if it can be read *)
Definition stress_probe_max_pipe_size (setpipe : Z -> bool) (file : option Z) (page_size max_pipe_size : Z) : Z * Z :=
  if c_true max_pipe_size then (max_pipe_size, max_pipe_size)
  else
    let probe :=
      let '(sz, found) := chop_pipe_size setpipe page_size 64 page_size INT_MAX 0 0 in
      (sz, if found then max_pipe_size else sz) in
    match file with
    | Some sz => if stress_check_max_pipe_size setpipe sz page_size =? 0 then (sz, sz) else probe
    | None => probe
    end.

(** ** Strides *)

(** the text of [is_prime()], for 64 bit numbers; it is only given 32 bit ones *)
Definition stress_is_prime64 (n : Z) : bool :=
  if n <=? 3 then 2 <=? n
  else if (n mod 2 =? 0) || (n mod 3 =? 0) then false
  else prime_loop (Z.to_nat 10923) n 5 (Z.sqrt n + 1).

(** [p += 2] until it is a prime that does not divide [n] *)
Fixpoint next_prime (fuel : nat) (n p : Z) : option Z :=
  match fuel with
  | O => None
  | S fuel =>
      let p := u32 (p + 2) in
      if c_true (n mod p) && stress_is_prime64 p then Some p else next_prime fuel n p
  end.

(** [p] is the static variable; it is also what is returned *)
Definition stress_get_prime64 (fuel : nat) (n p : Z) : option Z :=
  if negb (n =? p) then Some p else next_prime fuel n p.

(** the first value of [p] *)
Definition first_stride : Z := 1009.

(** ** What they compute *)

Lemma clamp_product unit_ count :
  0 < unit_ -> 0 <= count ->
  let c := if (2 ^ 64 - 1) / unit_ <? count then (2 ^ 64 - 1) / unit_ else count in
  0 <= c * unit_ < 2 ^ 64 /\ (count * unit_ < 2 ^ 64 -> c = count) /\ (2 ^ 64 <= count * unit_ -> 2 ^ 64 - unit_ <= c * unit_).
Proof.
  intros Hu Hc c. subst c. pose proof (Z.div_mod (2 ^ 64 - 1) unit_). pose proof (Z.mod_pos_bound (2 ^ 64 - 1) unit_).
  set (q := (2 ^ 64 - 1) / unit_) in *. assert (0 <= q) by (apply Z.div_pos; lia).
  destruct (Z.ltb_spec q count); repeat split; nia.
Qed.

(** the free memory and the free space are the product when it fits in 64 bits,
    and otherwise the largest multiple that fits: the product never wraps *)
Theorem sizes_do_not_wrap page_size pages bsize blocks :
  0 < page_size < 2 ^ 64 -> 0 <= pages < 2 ^ 64 -> 0 < bsize < 2 ^ 64 -> 0 <= blocks < 2 ^ 64 ->
  let mem := stress_get_phys_mem_size pages page_size in
  let fs := stress_get_filesystem_size (Some (bsize, blocks)) in
  (page_size | mem) /\ (bsize | fs) /\
  (if pages * page_size <? 2 ^ 64 then mem = pages * page_size else 2 ^ 64 - page_size <= mem < 2 ^ 64) /\
  (if blocks * bsize <? 2 ^ 64 then fs = blocks * bsize else 2 ^ 64 - bsize <= fs < 2 ^ 64).
Proof.
  intros Hp Hn Hb Hk mem fs. subst mem fs. unfold stress_get_phys_mem_size, stress_get_filesystem_size.
  rewrite (u64_small pages) by done.
  pose proof (clamp_product page_size pages ltac:(lia) ltac:(lia)) as (Hm & Hmf & Hmo).
  pose proof (clamp_product bsize blocks ltac:(lia) ltac:(lia)) as (Hf & Hff & Hfo).
  set (c := if _ <? pages then _ else pages) in *. set (d := if _ <? blocks then _ else blocks) in *. clearbody c d.
  rewrite (Z.mul_comm bsize d), !u64_small by done. split; [by exists c|]. split; [by exists d|]. split.
  - destruct (Z.ltb_spec (pages * page_size) (2 ^ 64)); [by rewrite Hmf|]. split; [by apply Hmo|lia].
  - destruct (Z.ltb_spec (blocks * bsize) (2 ^ 64)); [by rewrite Hff|]. split; [by apply Hfo|lia].
Qed.

(** the descriptors below the limit that are not in use *)
Lemma file_limit_counts_free rlim opened :
  stress_get_file_limit (Some rlim) opened = length (List.filter (fun i => negb (opened i)) (seq 0 rlim)).
Proof.
  unfold stress_get_file_limit. cbn [default from_option].
  assert (forall l, length (List.filter opened l) + length (List.filter (fun i => negb (opened i)) l) = length l)%nat as H.
  { induction l as [|x l IH]; [done|]. cbn. destruct (opened x); cbn; lia. }
  specialize (H (seq 0 rlim)). rewrite length_seq in H. unfold id. lia.
Qed.

Lemma land_not_low x k : 0 <= k < 64 -> fits 64 x -> x .& not64 (2 ^ k - 1) = x - x mod 2 ^ k.
Proof.
  intros Hk Hx. transitivity (Z.ldiff x (Z.ones k)).
  - rewrite Z.ones_equiv, <- Z.sub_1_r. apply Z.bits_inj'. intros i Hi. unfold not64, u64.
    rewrite Z.land_spec, Z.ldiff_spec, mod_pow2_testbit, Z.lnot_spec by lia.
    destruct (Z.ltb_spec i 64); [done|]. by rewrite (fits_testbit_high 64 x i) by (done || lia).
  - rewrite Z.ldiff_ones_r, Z.shiftr_div_pow2, Z.shiftl_mul_pow2 by lia.
    pose proof (Z.div_mod x (2 ^ k)). lia.
Qed.

(** the address returned is aligned and above the one given, by at most the
    alignment: an address that is aligned already is moved by all of it *)
Theorem align_address_above addr k :
  0 <= k < 63 -> 0 <= addr < 2 ^ 64 - 2 ^ k ->
  let a := align_address addr (2 ^ k) in
  (2 ^ k | a) /\ addr < a <= addr + 2 ^ k /\ ((2 ^ k | addr) -> a = addr + 2 ^ k).
Proof.
  intros Hk Ha a. subst a. unfold align_address. rewrite u64_small by (unfold fits; lia).
  assert (0 < 2 ^ k) as Hp by lia.
  rewrite land_not_low by (unfold fits; lia).
  pose proof (Z.mod_pos_bound (addr + 2 ^ k) (2 ^ k) Hp). pose proof (Z.div_mod (addr + 2 ^ k) (2 ^ k)).
  split; [exists ((addr + 2 ^ k) / 2 ^ k); lia|]. split; [lia|].
  intros [q ->]. replace (q * 2 ^ k + 2 ^ k) with ((q + 1) * 2 ^ k) by lia. rewrite Z.mod_mul by lia. lia.
Qed.

(** *** the largest pipe *)

Section Pipe.
Variable (setpipe : Z -> bool) (page_size limit : Z).
(** the system makes the pipes up to a limit *)
Hypothesis setpipe_limit : forall sz, page_size <= sz -> setpipe sz = (sz <=? limit).
Hypothesis limits : 0 < page_size <= limit /\ limit < INT_MAX.

Lemma check_pipe_size sz : page_size <= sz ->
  (stress_check_max_pipe_size setpipe sz page_size =? 0) = (sz <=? limit).
Proof.
  intros Hs. unfold stress_check_max_pipe_size. destruct (Z.ltb_spec sz page_size); [lia|].
  rewrite setpipe_limit by done. by destruct (sz <=? limit).
Qed.

(** [max - min] is halved in every round; two more find the end *)
Lemma chop_pipe_size_finds k n min max prev_sz sz :
  page_size <= min <= limit -> limit < max -> max - min <= 2 ^ Z.of_nat k ->
  prev_sz = 0 \/ prev_sz = min \/ prev_sz = max -> (k + 2 <= n)%nat ->
  chop_pipe_size setpipe page_size n min max prev_sz sz = (limit, true).
Proof.
  revert n min max prev_sz sz. induction k as [|k IH]; intros n min max prev_sz sz Hmin Hmax Hw Hp Hn;
    (destruct n as [|n]; [lia|]); cbn [chop_pipe_size].
  - assert (max = min + 1 /\ min = limit) as [-> ->] by lia.
    replace (limit + (limit + 1 - limit) / 2) with limit by (rewrite Z.add_simpl_l; change (1 / 2) with 0; lia).
    destruct (Z.eqb_spec prev_sz limit); [done|]. rewrite check_pipe_size, Z.leb_refl by lia.
    destruct n as [|n]; [lia|]. cbn [chop_pipe_size].
    replace (limit + (limit + 1 - limit) / 2) with limit by (rewrite Z.add_simpl_l; change (1 / 2) with 0; lia). by rewrite Z.eqb_refl.
  - rewrite Nat2Z.inj_succ, Z.pow_succ_r in Hw by lia.
    pose proof (Z.div_mod (max - min) 2). pose proof (Z.mod_pos_bound (max - min) 2).
    set (mid := min + (max - min) / 2) in *.
    destruct (Z.eqb_spec prev_sz mid) as [->|Hne].
    { f_equal. unfold mid in *. lia. }
    rewrite check_pipe_size by (unfold mid; lia). destruct (Z.leb_spec mid limit); apply IH; unfold mid in *; lia.
Qed.

(** The probing ends with the largest pipe the system makes: a number in the
    file that is allowed is taken (and kept for the next call), and otherwise
    the bisection finds the limit in fewer than the 64 rounds it has (it is
    left through a return, so its result is not kept). *)
Theorem max_pipe_size_found file :
  stress_probe_max_pipe_size setpipe file page_size 0 =
    match file with
    | Some sz => if (page_size <=? sz) && (sz <=? limit) then (sz, sz) else (limit, 0)
    | None => (limit, 0)
    end.
Proof.
  unfold stress_probe_max_pipe_size. change (c_true 0) with false. cbv iota.
  assert (chop_pipe_size setpipe page_size 64 page_size INT_MAX 0 0 = (limit, true)) as ->.
  { apply (chop_pipe_size_finds 31); [lia|lia| |by left|lia]. unfold INT_MAX in *. change (Z.of_nat 31) with 31. lia. }
  destruct file as [sz|]; [|done]. destruct (Z.leb_spec page_size sz).
  - rewrite check_pipe_size by done. by destruct (sz <=? limit).
  - unfold stress_check_max_pipe_size. by destruct (Z.ltb_spec sz page_size); [|lia].
Qed.
End Pipe.

(** *** strides *)

Lemma stress_is_prime64_spec p : fits 32 p -> stress_is_prime64 p = true <-> prime p.
Proof. apply is_prime_correct. Qed.

(** the next prime above an odd number is found, in half as many rounds as it is above *)
Lemma next_prime_finds fuel n p q :
  1 < p -> Z.odd p = true -> prime q -> p < q -> q < 2 ^ 32 -> q <= p + 2 * Z.of_nat fuel -> n mod q <> 0 ->
  exists q', next_prime fuel n p = Some q' /\ prime q' /\ p < q' <= q /\ n mod q' <> 0.
Proof.
  revert p. induction fuel as [|fuel IH]; intros p Hp Hodd Hq Hlt H32 Hle Hn; [lia|]. cbn [next_prime].
  assert (Z.odd q = true) as Hoq.
  { rewrite <- Z.negb_even. destruct (Z.even q) eqn:He; [|done]. exfalso.
    apply Z.even_spec in He as [x ->]. apply (divisor_proper _ 2 Hq); [lia|]. exists x. lia. }
  assert (p + 2 <= q) as Hpq.
  { destruct (Z.eq_dec q (p + 1)) as [->|]; [|lia]. by rewrite Z.odd_add, Hodd in Hoq. }
  rewrite u32_small by (unfold fits; lia).
  destruct (c_true (n mod (p + 2))) eqn:Hm; [destruct (stress_is_prime64 (p + 2)) eqn:Hpr|]; cbn [andb].
  - apply stress_is_prime64_spec in Hpr; [|unfold fits; lia]. eexists. split; [done|]. split; [exact Hpr|]. split; [lia|].
    unfold c_true in Hm. destruct (Z.eqb_spec (n mod (p + 2)) 0); done.
  - destruct (Z.eq_dec q (p + 2)) as [->|].
    { apply stress_is_prime64_spec in Hq; [|unfold fits; lia]. congruence. }
    destruct (IH (p + 2)) as (q' & -> & Hq' & Hb & Hn'); [lia|by rewrite Z.odd_add, Hodd|done|lia|lia|lia|done|].
    exists q'. split; [done|]. split; [done|]. split; [lia|done].
  - destruct (Z.eq_dec q (p + 2)) as [->|].
    { unfold c_true in Hm. by destruct (Z.eqb_spec (n mod (p + 2)) 0). }
    destruct (IH (p + 2)) as (q' & -> & Hq' & Hb & Hn'); [lia|by rewrite Z.odd_add, Hodd|done|lia|lia|lia|done|].
    exists q'. split; [done|]. split; [done|]. split; [lia|done].
Qed.

(** The stride: a prime stays a prime from call to call; when [n] is the stride
    of the last call, a larger one that does not divide [n] is found before the
    next prime is passed; otherwise the last one is taken again, even when it
    divides [n], against what the function is there for. *)
Theorem strides_are_prime fuel n p q :
  prime p -> Z.odd p = true -> prime q -> p < q < 2 ^ 32 -> q <= p + 2 * Z.of_nat fuel ->
  exists p', stress_get_prime64 fuel n p = Some p' /\ prime p' /\
    (if n =? p then p < p' <= q /\ n mod p' <> 0 else p' = p).
Proof.
  intros Hp Hodd Hq Hlt Hf. unfold stress_get_prime64. destruct (Z.eqb_spec n p) as [->|]; cbn [negb].
  - assert (2 <= p) by (destruct Hp; lia).
    destruct (next_prime_finds fuel p p q) as (q' & -> & Hq' & Hb & Hm); [lia|done|done|lia|lia|done| |by exists q'].
    rewrite Z.mod_small; lia.
  - by exists p.
Qed.

(** a number of files that the first stride divides *)
Lemma stride_divides : stress_get_prime64 10 2018 first_stride = Some 1009 /\ 2018 mod 1009 = 0.
Proof. by vm_compute. Qed.

Lemma prime_of_check p : fits 32 p -> stress_is_prime64 p = true -> prime p.
Proof. intros Hf. by apply stress_is_prime64_spec. Qed.

(** *** concrete instances *)

Lemma sizes_do_not_wrap_witness :
  stress_get_phys_mem_size 3 4096 = 12288 /\ 2 ^ 64 - 4096 <= stress_get_phys_mem_size (2 ^ 64 - 1) 4096 < 2 ^ 64.
Proof.
  pose proof (sizes_do_not_wrap 4096 3 512 7 ltac:(lia) ltac:(lia) ltac:(lia) ltac:(lia)) as (_ & _ & H & _).
  pose proof (sizes_do_not_wrap 4096 (2 ^ 64 - 1) 512 7 ltac:(lia) ltac:(lia) ltac:(lia) ltac:(lia)) as (_ & _ & H' & _).
  split; [exact H|exact H'].
Defined.

Lemma align_address_above_witness : align_address 8192 4096 = 12288.
Proof. apply (align_address_above 8192 12); [lia|lia|by exists 2]. Defined.

Lemma max_pipe_size_found_witness :
  stress_probe_max_pipe_size (fun sz => sz <=? 1048576) None 4096 0 = (1048576, 0).
Proof.
  apply (max_pipe_size_found (fun sz => sz <=? 1048576) 4096 1048576); [done|unfold INT_MAX; lia].
Defined.

Lemma strides_are_prime_witness :
  exists p', stress_get_prime64 2 1009 first_stride = Some p' /\ prime p' /\ 1009 < p' <= 1013 /\ 1009 mod p' <> 0.
Proof.
  destruct (strides_are_prime 2 1009 1009 1013) as (p' & H & Hp & Hb);
    [apply prime_of_check; [done|by vm_compute]|done|apply prime_of_check; [done|by vm_compute]|done|lia|].
  exists p'. split; [exact H|]. split; [exact Hp|exact Hb].
Defined.
