(* ===== verification/Outcome.v ===== *)
(** * Outcomes of C calls

    The option parser leaves a call in four ways: it returns a value, it
    jumps back to the [setjmp] of the error handler ([longjmp(g_error_env, 1)]),
    it ends the process ([exit]), or it runs into undefined behaviour.  This
    file has the type of these outcomes, its monad and the rules the parser
    proofs use.  It also has the C strings and the [ctype.h] predicates the
    parsers rely on (the "C" locale). *)

From Stdlib Require Export Ascii.
From S2P Require Import Prelude.

(** what [fprintf(stderr, ...)] reports before the jump or the exit *)
Inductive complaint : Type :=
  | InvalidNegative (str : string)
  | InvalidNumber (str : string)
  | InvalidSize (str : string)
  | IllegalSpecifier (msg : string) (ch : Ascii.ascii)
  | BadWorkers (msg : string)
  | OutOfRange (opt : string) (val lo hi : Z)
  | OutOfRangeBytes (opt : string) (val lo hi : Z)
  | UnknownChoice (opt arg : string)
  | InvalidPercentage (str : string)
  | InvalidInstances
  | CannotDetermine (msg : string)
  | ExpectingNumber (str : string)
  | EmptyRange (str : string)
  | SystemRefused (msg : string)
  | Information (what : string)   (** not a complaint: what was asked to be shown *)
  | NullValue (name : string)
  | NoMemory (name : string).

#[global] Instance complaint_eq_dec : EqDecision complaint.
Proof. solve_decision. Defined.

Inductive outcome (A : Type) : Type :=
  | Returns (a : A)
  | Longjmp (c : complaint)
  | Exits (status : Z) (c : complaint)
  | Undefined.
Arguments Returns {_} _.
Arguments Longjmp {_} _.
Arguments Exits {_} _ _.
Arguments Undefined {_}.

#[global] Instance outcome_ret : MRet outcome := fun A => @Returns A.
#[global] Instance outcome_bind : MBind outcome := fun A B f m =>
  match m with
  | Returns a => f a
  | Longjmp c => Longjmp c
  | Exits e c => Exits e c
  | Undefined => Undefined
  end.

Definition returned {A} (m : outcome A) : option A :=
  match m with Returns a => Some a | _ => None end.

Lemma outcome_bind_returns {A B} (m : outcome A) (f : A -> outcome B) b :
  m ≫= f = Returns b <-> exists a, m = Returns a /\ f a = Returns b.
Proof.
  split; [|by intros (a & -> & ?)].
  destruct m as [a| | |]; cbn; intros H; [by exists a|done..].
Qed.

(** ** Characters *)

Definition code (c : Ascii.ascii) : Z := Z.of_N (Ascii.N_of_ascii c).

Arguments code _%_char.

Definition isdigit (c : Ascii.ascii) : bool := (48 <=? code c) && (code c <=? 57).
Definition isspace (c : Ascii.ascii) : bool :=
  (code c =? 32) || ((9 <=? code c) && (code c <=? 13)).
Definition isblank (c : Ascii.ascii) : bool := (code c =? 32) || (code c =? 9).
Definition tolower (c : Ascii.ascii) : Z :=
  if (65 <=? code c) && (code c <=? 90) then code c + 32 else code c.

Definition char_minus : Ascii.ascii := "-"%char.
Definition char_plus : Ascii.ascii := "+"%char.

(** the last character of a string, [str[strlen(str) - 1]] *)
Fixpoint last_char (s : string) : option Ascii.ascii :=
  match s with
  | EmptyString => None
  | String c EmptyString => Some c
  | String _ t => last_char t
  end.

Lemma last_char_snoc s c : last_char (s +:+ String c EmptyString) = Some c.
Proof.
  induction s as [|x s IH]; [done|]. simpl. rewrite IH.
  by destruct s.
Qed.

(** ** C strings as lists of characters

    The characters before the terminator. *)
Definition cstr : Type := list ascii.
Definition cs : string -> cstr := String.list_ascii_of_string.

Definition eqc (c d : ascii) : bool := code c =? code d.
Definition strcmp_is (s : cstr) (lit : string) : bool := bool_decide (s = cs lit).

(** ** Words *)

Section words.
Variable delim : ascii -> bool.

Definition apart (c : ascii) : bool := negb (delim c).

Definition starts_word (l : cstr) : bool :=
  match l with c :: _ => apart c | [] => false end.

(** put [c] in front of the first of the words that follow it, or alone *)
Definition add_char (c : ascii) (glue : bool) (ws : list cstr) : list cstr :=
  match ws with
  | w :: ws' => if glue then (c :: w) :: ws' else [c] :: ws
  | [] => [[c]]
  end.

(** the maximal runs of characters that are not delimiters: what repeated
    calls of [strtok] return *)
Fixpoint words_by (l : cstr) : list cstr :=
  match l with
  | [] => []
  | c :: t => if delim c then words_by t else add_char c (starts_word t) (words_by t)
  end.

Lemma words_by_skip l : words_by (drop_while delim l) = words_by l.
Proof. induction l as [|c l IH]; [done|]. simpl. by destruct (delim c) eqn:Hc; simpl; rewrite ?Hc. Qed.

Lemma words_by_word c l :
  delim c = false ->
  words_by (c :: l) = take_while apart (c :: l) :: words_by (drop_while apart (c :: l)).
Proof.
  revert c. induction l as [|d l IH]; intros c Hc.
  { simpl. unfold apart. by rewrite Hc. }
  change (words_by (c :: d :: l)) with
    (if delim c then words_by (d :: l) else add_char c (apart d) (words_by (d :: l))).
  change (take_while apart (c :: d :: l)) with
    (if apart c then c :: take_while apart (d :: l) else []).
  change (drop_while apart (c :: d :: l)) with
    (if apart c then drop_while apart (d :: l) else c :: d :: l).
  assert (apart c = true) as -> by (unfold apart; by rewrite Hc). rewrite Hc.
  destruct (delim d) eqn:Hd.
  - assert (apart d = false) as Hnd by (unfold apart; by rewrite Hd).
    cbn [take_while drop_while]. rewrite Hnd. by destruct (words_by (d :: l)).
  - assert (apart d = true) as -> by (unfold apart; by rewrite Hd). by rewrite (IH d Hd).
Qed.
End words.
