(* ===== verification/ParseOpts.v ===== *)
(** * Parsing option arguments (parse-opts.c)

    [get_uint32], [get_int32], [get_uint64], [get_uint64_scale] with its byte
    and time tables, and the range checks.  [sscanf] is modelled as the C
    library does it: white space is skipped, a sign and the digits are read up
    to the field width, the value is converted by [strtoul]/[strtol] (which
    saturate at 64 bits) and stored in the width of the destination. *)

From S2P Require Import Prelude Outcome.

(** ** sscanf("%u"), sscanf("%d") *)

Fixpoint skip_space (s : string) : string :=
  match s with
  | String c t => if isspace c then skip_space t else s
  | EmptyString => s
  end.

(** at most [w] digits: their number and their value *)
Fixpoint take_digits (w : nat) (n v : Z) (s : string) : Z * Z :=
  match w, s with
  | S w, String c t => if isdigit c then take_digits w (n + 1) (v * 10 + (code c - 48)) t else (n, v)
  | _, _ => (n, v)
  end.

Definition take_sign (w : nat) (s : string) : bool * nat * string :=
  match s with
  | String c t =>
      if code c =? code char_minus then (true, pred w, t)
      else if code c =? code char_plus then (false, pred w, t)
      else (false, w, s)
  | EmptyString => (false, w, s)
  end.

(** the sign and the magnitude read; [None] when the conversion fails *)
Definition scan_number (w : nat) (s : string) : option (bool * Z) :=
  let '(neg, w, t) := take_sign w (skip_space s) in
  let '(n, v) := take_digits w 0 0 t in
  if n =? 0 then None else Some (neg, v).

Definition strtoul (p : bool * Z) : Z :=
  let '(neg, v) := p in
  if 2 ^ 64 <=? v then 2 ^ 64 - 1 else if neg then u64 (- v) else v.

Definition strtol (p : bool * Z) : Z :=
  let '(neg, v) := p in
  if neg then (if 2 ^ 63 <? v then - 2 ^ 63 else - v)
  else (if 2 ^ 63 <=? v then 2 ^ 63 - 1 else v).

(** no field width: the whole string may be read *)
Definition no_width (s : string) : nat := String.length s.

(** ** The parsers *)

Definition STRESS_PROCS_MAX : Z := 4096.

Definition check_value (msg : string) (val : Z) : outcome unit :=
  if (val <? 0) || (STRESS_PROCS_MAX <? val) then Longjmp (BadWorkers msg) else Returns tt.

Definition check_range (opt : string) (val lo hi : Z) : outcome unit :=
  if (val <? lo) || (hi <? val) then Longjmp (OutOfRange opt val lo hi) else Returns tt.

(** reports the same values in human readable form *)
Definition check_range_bytes (opt : string) (val lo hi : Z) : outcome unit :=
  if (val <? lo) || (hi <? val) then Longjmp (OutOfRangeBytes opt val lo hi) else Returns tt.

Fixpoint ensure_positive_loop (str : string) (negative : bool) (s : string) : outcome unit :=
  match s with
  | EmptyString => Returns tt
  | String c t =>
      if code c =? code char_minus then ensure_positive_loop str true t
      else if isdigit c then
        (if negative then Longjmp (InvalidNegative str) else Returns tt)
      else ensure_positive_loop str negative t
  end.

Definition ensure_positive (str : string) : outcome unit := ensure_positive_loop str false str.

Definition get_uint32 (str : string) : outcome Z :=
  ensure_positive str;;
  match scan_number 12 str with
  | None => Longjmp (InvalidNumber str)
  | Some p => Returns (u32 (strtoul p))
  end.

Definition get_int32 (str : string) : outcome Z :=
  match scan_number 12 str with
  | None => Longjmp (InvalidNumber str)
  | Some p => Returns (s32 (strtol p))
  end.

Definition get_uint64 (str : string) : outcome Z :=
  ensure_positive str;;
  match scan_number (no_width str) str with
  | None => Longjmp (InvalidNumber str)
  | Some p => Returns (strtoul p)
  end.

(** the search for the suffix: a table without its terminator is read past
    its end *)
Fixpoint find_scale (scales : list (Z * Z)) (ch : Z) : outcome (option Z) :=
  match scales with
  | [] => Undefined
  | (sch, scale) :: rest =>
      if sch =? 0 then Returns None
      else if ch =? sch then Returns (Some scale)
      else find_scale rest ch
  end.

Definition get_uint64_scale (str : string) (scales : list (Z * Z)) (msg : string) : outcome Z :=
  val ← get_uint64 str;
  match last_char str with
  | None => Longjmp (InvalidSize str)
  | Some ch =>
      if isdigit ch then Returns val
      else
        r ← find_scale scales (tolower ch);
        match r with
        | Some scale => Returns (u64 (val * scale))
        | None => Exits EXIT_FAILURE (IllegalSpecifier msg ch)
        end
  end.

Definition byte_scales : list (Z * Z) :=
  [ (code "b", 1); (code "k", 1 <<< 10); (code "m", 1 <<< 20); (code "g", 1 <<< 30);
    (code "t", 1 <<< 40); (code "p", 1 <<< 50); (code "e", 1 <<< 60); (0, 0) ].

Definition get_uint64_byte (str : string) : outcome Z := get_uint64_scale str byte_scales "length".

(** a number, or a percentage of [max] shared by the instances; [percent] is
    the part in double precision: reading a number that is not negative with
    ["%lf"], and [(uint64_t)((double)(max * val) / (100.0 * instances))] *)
Definition get_uint64_percent (percent : string -> Z -> Z -> option Z) (str : string) (instances max : Z)
    (errmsg : string) : outcome Z :=
  if (1 <? String.length str)%nat && bool_decide (last_char str = Some "%"%char) then
    if max =? 0 then Longjmp (CannotDetermine errmsg)
    else if instances <? 1 then Longjmp InvalidInstances
    else match percent str max instances with
         | None => Longjmp (InvalidPercentage str)
         | Some v => Returns (u64 v)
         end
  else get_uint64_byte str.

Definition time_scales : list (Z * Z) :=
  [ (code "s", 1); (code "m", 60); (code "h", 3600); (code "d", 24 * 3600);
    (code "w", 24 * 3600 * 7); (code "y", 31556926) ].

Definition get_uint64_time (str : string) : outcome Z := get_uint64_scale str time_scales "time".

(** ** Decimal text *)

Definition digit_char (d : Z) : ascii := ascii_of_N (Z.to_N (48 + d)).

(** the text of the decimal digits [ds], followed by [rest] *)
Fixpoint digits_text (ds : list Z) (rest : string) : string :=
  match ds with
  | [] => rest
  | d :: ds => String (digit_char d) (digits_text ds rest)
  end.

(** the number the digits write, after the digits that gave [v] *)
Definition number_from (v : Z) (ds : list Z) : Z := foldl (fun v d => v * 10 + d) v ds.
Definition number (ds : list Z) : Z := number_from 0 ds.

Definition decimal (ds : list Z) : Prop := ds <> [] /\ Forall (fun d => 0 <= d <= 9) ds.

Definition starts_with_digit (s : string) : bool :=
  match s with String c _ => isdigit c | EmptyString => false end.

Lemma code_digit d : 0 <= d <= 9 -> code (digit_char d) = 48 + d.
Proof. intros Hd. unfold code, digit_char. rewrite N_ascii_embedding by lia. lia. Qed.

Lemma code_range c : 0 <= code c < 256.
Proof. unfold code. pose proof (N_ascii_bounded c). lia. Qed.

Lemma number_from_nonneg v ds : 0 <= v -> Forall (fun d => 0 <= d <= 9) ds -> 0 <= number_from v ds.
Proof.
  intros Hv Hds. revert v Hv. induction Hds as [|d ds Hd _ IH]; intros v Hv; [done|].
  apply IH. lia.
Qed.

Lemma number_from_app v ds ds' : number_from v (ds ++ ds') = number_from (number_from v ds) ds'.
Proof. apply foldl_app. Qed.

Lemma number_from_lt v ds n :
  0 <= n -> 0 <= v < 10 ^ n -> Forall (fun d => 0 <= d <= 9) ds ->
  number_from v ds < 10 ^ (n + Z.of_nat (length ds)).
Proof.
  intros Hn Hv Hds. revert v n Hn Hv. induction Hds as [|d ds Hd _ IH]; intros v n Hn Hv.
  - simpl. rewrite Z.add_0_r. lia.
  - change (number_from v (d :: ds)) with (number_from (v * 10 + d) ds). simpl length.
    replace (n + Z.of_nat (S (length ds))) with (n + 1 + Z.of_nat (length ds)) by lia.
    apply IH; [lia|]. rewrite Z.pow_add_r by lia. lia.
Qed.

Lemma digits_text_length ds rest : (length ds <= String.length (digits_text ds rest))%nat.
Proof. induction ds as [|d ds IH]; simpl; lia. Qed.

Lemma take_digits_text w n v ds rest :
  Forall (fun d => 0 <= d <= 9) ds -> (length ds <= w)%nat ->
  starts_with_digit rest = false ->
  take_digits w n v (digits_text ds rest) = (n + Z.of_nat (length ds), number_from v ds).
Proof.
  intros Hds. revert w n v. induction Hds as [|d ds Hd _ IH]; intros w n v Hw Hr.
  - simpl. rewrite Z.add_0_r. destruct w, rest as [|c rest]; try done. simpl in Hr |- *. by rewrite Hr.
  - destruct w as [|w]; [simpl in Hw; lia|]. simpl in Hw |- *.
    unfold isdigit. rewrite code_digit by done.
    destruct (Z.leb_spec 48 (48 + d)), (Z.leb_spec (48 + d) 57); try lia. simpl.
    rewrite IH by (lia || done). f_equal; [lia|]. unfold number_from. f_equal. lia.
Qed.

(** a digit is none of the other characters the parser looks for *)
Lemma digit_char_class d :
  0 <= d <= 9 ->
  isspace (digit_char d) = false /\ isdigit (digit_char d) = true /\
  (code (digit_char d) =? code char_minus) = false /\ (code (digit_char d) =? code char_plus) = false.
Proof.
  intros Hd. unfold isspace, isdigit. rewrite code_digit by done.
  change (code char_minus) with 45. change (code char_plus) with 43. repeat split; lia.
Qed.

Lemma skip_space_digits ds rest : decimal ds -> skip_space (digits_text ds rest) = digits_text ds rest.
Proof.
  intros [Hne Hds]. destruct Hds as [|d ds Hd _]; [done|]. simpl.
  by destruct (digit_char_class d Hd) as (-> & _).
Qed.

Lemma take_sign_digits w ds rest :
  decimal ds -> take_sign w (digits_text ds rest) = (false, w, digits_text ds rest).
Proof.
  intros [Hne Hds]. destruct Hds as [|d ds Hd _]; [done|]. simpl.
  by destruct (digit_char_class d Hd) as (_ & _ & -> & ->).
Qed.

Lemma scan_number_digits w ds rest :
  decimal ds -> (length ds <= w)%nat -> starts_with_digit rest = false ->
  scan_number w (digits_text ds rest) = Some (false, number ds).
Proof.
  intros Hdec Hw Hr. unfold scan_number.
  rewrite skip_space_digits, take_sign_digits by done. destruct Hdec as [Hne Hds].
  rewrite take_digits_text by done. destruct (Z.eqb_spec (0 + Z.of_nat (length ds)) 0); [|done].
  destruct ds; [done|simpl in *; lia].
Qed.

Lemma ensure_positive_digits ds rest :
  decimal ds -> ensure_positive (digits_text ds rest) = Returns tt.
Proof.
  intros [Hne Hds]. unfold ensure_positive. destruct Hds as [|d ds Hd _]; [done|].
  simpl. by destruct (digit_char_class d Hd) as (_ & -> & -> & _).
Qed.

Lemma strtoul_min v : 0 <= v -> strtoul (false, v) = Z.min v (2 ^ 64 - 1).
Proof. intros. unfold strtoul. destruct (Z.leb_spec (2 ^ 64) v); lia. Qed.

Lemma get_uint64_digits ds rest :
  decimal ds -> starts_with_digit rest = false ->
  get_uint64 (digits_text ds rest) = Returns (Z.min (number ds) (2 ^ 64 - 1)).
Proof.
  intros Hdec Hr. unfold get_uint64. rewrite ensure_positive_digits by done. cbn [mbind outcome_bind].
  unfold no_width. rewrite scan_number_digits by (done || apply digits_text_length).
  rewrite strtoul_min; [done|]. apply number_from_nonneg; [lia|]. apply Hdec.
Qed.

(** ** Suffixes *)

Lemma last_char_digits ds rest :
  last_char (digits_text ds rest) =
    match last_char rest with Some c => Some c | None => last (digit_char <$> ds) end.
Proof.
  induction ds as [|d ds IH]; [simpl; by destruct (last_char rest)|].
  change (digits_text (d :: ds) rest) with (String (digit_char d) (digits_text ds rest)).
  destruct (digits_text ds rest) as [|c t] eqn:Ht.
  - destruct ds; [|done]. simpl in Ht. by subst rest.
  - change (last_char (String (digit_char d) (String c t))) with (last_char (String c t)). rewrite IH.
    destruct (last_char rest) eqn:Hl; [done|]. destruct ds; [|done].
    simpl in Ht. subst rest. exfalso. clear -Hl. revert c Hl.
    induction t as [|x t IH]; intros c Hl; [done|]. by apply (IH x).
Qed.

Lemma last_digit ds c : decimal ds -> last (digit_char <$> ds) = Some c -> isdigit c = true.
Proof.
  intros [_ Hds] Hl. apply last_Some_elem_of, list_elem_of_fmap in Hl as (d & -> & Hin).
  rewrite Forall_forall in Hds. by destruct (digit_char_class d (Hds d Hin)) as (_ & -> & _).
Qed.

Lemma last_digits_some ds : decimal ds -> exists c, last (digit_char <$> ds) = Some c.
Proof.
  intros [Hne _]. destruct (last (digit_char <$> ds)) eqn:Hl; [by eexists|].
  apply last_None in Hl. by destruct ds.
Qed.

(** the suffixes of a table are letters: the search never takes a digit *)
Definition suffix_of (scales : list (Z * Z)) (c : ascii) (sc : Z) : Prop :=
  isdigit c = false /\ find_scale scales (tolower c) = Returns (Some sc).

#[global] Instance suffix_of_dec scales c sc : Decision (suffix_of scales c sc).
Proof.
  unfold suffix_of. apply and_dec; [apply _|].
  destruct (find_scale scales (tolower c)) as [[z|]| | |];
    [destruct (decide (z = sc)) as [->|]; [by left|right; congruence]|right; congruence..].
Defined.

Lemma scale_plain scales msg ds :
  decimal ds -> get_uint64_scale (digits_text ds EmptyString) scales msg
    = Returns (Z.min (number ds) (2 ^ 64 - 1)).
Proof.
  intros Hdec. unfold get_uint64_scale. rewrite get_uint64_digits by done. cbn [mbind outcome_bind].
  rewrite last_char_digits. simpl. destruct (last_digits_some ds Hdec) as [c Hc].
  by rewrite Hc, (last_digit ds c).
Qed.

Lemma scale_suffix scales msg ds c sc :
  decimal ds -> suffix_of scales c sc ->
  get_uint64_scale (digits_text ds (String c EmptyString)) scales msg
    = Returns (u64 (Z.min (number ds) (2 ^ 64 - 1) * sc)).
Proof.
  intros Hdec [Hc Hf]. unfold get_uint64_scale. rewrite get_uint64_digits by done. cbn [mbind outcome_bind].
  rewrite last_char_digits. simpl. by rewrite Hc, Hf.
Qed.

Lemma scale_exact scales msg ds c sc :
  decimal ds -> suffix_of scales c sc -> 0 < sc ->
  get_uint64_scale (digits_text ds (String c EmptyString)) scales msg = Returns (number ds * sc)
    <-> number ds * sc < 2 ^ 64.
Proof.
  intros Hdec Hsuf Hsc. rewrite (scale_suffix _ _ _ c sc) by done.
  assert (0 <= number ds) as Hn by (apply number_from_nonneg; [lia|apply Hdec]). split.
  - intros [= Heq]. rewrite <- Heq. apply u64_fits.
  - intros Hlt. f_equal. rewrite Z.min_l by nia. apply u64_small. unfold fits. nia.
Qed.

Lemma find_scale_elem scales ch sc :
  find_scale scales ch = Returns (Some sc) -> (ch, sc) ∈ scales.
Proof.
  induction scales as [|[x y] scales IH]; simpl; [done|].
  destruct (x =? 0); [done|]. destruct (Z.eqb_spec ch x) as [->|].
  - intros [= ->]. left.
  - intros H. right. by apply IH.
Qed.

(** every unit that a suffix selects is positive *)
Definition positive_units (scales : list (Z * Z)) : Prop :=
  forall c sc, suffix_of scales c sc -> 0 < sc.

Lemma byte_units : positive_units byte_scales.
Proof.
  intros c sc [_ Hf]. pose proof (find_scale_elem _ _ _ Hf) as Hin.
  unfold byte_scales in Hin. rewrite !elem_of_cons, elem_of_nil in Hin.
  destruct_or! Hin; try (injection Hin as _ ->; vm_compute; reflexivity).
  injection Hin as Hch ->. rewrite Hch in Hf. discriminate Hf.
Qed.

Lemma time_units : positive_units time_scales.
Proof.
  intros c sc [_ Hf]. apply find_scale_elem in Hf as Hin.
  unfold time_scales in Hin. rewrite !elem_of_cons, elem_of_nil in Hin.
  destruct_or! Hin; injection Hin as _ ->; lia.
Qed.

(** (C34) A size or a time written as decimal digits, with a suffix of its table or
    without, is read as the number times the unit exactly when that product
    fits in 64 bits; a larger one is not refused but read as another number. *)
Theorem sizes_and_times_exact ds c :
  decimal ds ->
  (number ds < 2 ^ 64 ->
     get_uint64_byte (digits_text ds EmptyString) = Returns (number ds) /\
     get_uint64_time (digits_text ds EmptyString) = Returns (number ds)) /\
  (forall sc, suffix_of byte_scales c sc ->
     (get_uint64_byte (digits_text ds (String c EmptyString)) = Returns (number ds * sc)
        <-> number ds * sc < 2 ^ 64) /\
     exists v, get_uint64_byte (digits_text ds (String c EmptyString)) = Returns v) /\
  (forall sc, suffix_of time_scales c sc ->
     (get_uint64_time (digits_text ds (String c EmptyString)) = Returns (number ds * sc)
        <-> number ds * sc < 2 ^ 64) /\
     exists v, get_uint64_time (digits_text ds (String c EmptyString)) = Returns v).
Proof.
  intros Hdec. unfold get_uint64_byte, get_uint64_time. split; [|split].
  - intros Hn. rewrite !scale_plain by done. split; f_equal; lia.
  - intros sc Hsc. split; [|eexists; by apply scale_suffix].
    apply scale_exact; [done..|]. by apply (byte_units c).
  - intros sc Hsc. split; [|eexists; by apply scale_suffix].
    apply scale_exact; [done..|]. by apply (time_units c).
Qed.

Lemma sizes_and_times_exact_witness :
  get_uint64_byte "256m" = Returns (256 * 2 ^ 20) /\ get_uint64_time "1w" = Returns 604800 /\
  get_uint64_byte "16E" = Returns 0.
Proof.
  assert (decimal [2; 5; 6] /\ decimal [1]) as [H1 H2].
  { split; (split; [done|]); repeat constructor; lia. }
  split; [|split; [|vm_compute; reflexivity]].
  - destruct (sizes_and_times_exact [2; 5; 6] "m" H1) as (_ & Hb & _).
    apply (Hb (2 ^ 20)); [split; reflexivity|vm_compute; reflexivity].
  - destruct (sizes_and_times_exact [1] "w" H2) as (_ & _ & Ht).
    apply (Ht 604800); [split; reflexivity|vm_compute; reflexivity].
Defined.

(** ** Refused arguments *)

Fixpoint string_chars (s : string) : list ascii :=
  match s with EmptyString => [] | String c t => c :: string_chars t end.

(** [s] has a minus sign somewhere before its first digit *)
Definition negative_text (s : string) : Prop :=
  exists pre d post, s = pre +:+ String d post /\ isdigit d = true /\
    (forall c, c ∈ string_chars pre -> isdigit c = false) /\
    char_minus ∈ string_chars pre.

Lemma minus_not_digit : isdigit char_minus = false.
Proof. done. Qed.

Lemma code_inj c d : code c = code d -> c = d.
Proof.
  unfold code. intros H. rewrite <- (ascii_N_embedding c), <- (ascii_N_embedding d). f_equal. lia.
Qed.

(** the loop refuses [s] when a minus sign was seen, or comes, before the first digit *)
Lemma ensure_positive_loop_spec str neg s :
  (ensure_positive_loop str neg s = Longjmp (InvalidNegative str) /\
   exists pre d post, s = pre +:+ String d post /\ isdigit d = true /\
     (forall c, c ∈ string_chars pre -> isdigit c = false) /\
     (neg = true \/ char_minus ∈ string_chars pre)) \/
  (ensure_positive_loop str neg s = Returns tt /\
   forall pre d post, s = pre +:+ String d post -> isdigit d = true ->
     (forall c, c ∈ string_chars pre -> isdigit c = false) ->
     neg = false /\ char_minus ∉ string_chars pre).
Proof.
  revert neg. induction s as [|c s IH]; intros neg; simpl.
  - right. split; [done|]. intros [|] d post H; by inversion H.
  - destruct (Z.eqb_spec (code c) (code char_minus)) as [->%code_inj|Hm].
    + destruct (IH true) as [(-> & pre & d & post & -> & Hd & Hpre & _)|[-> Hr]]; [left|right].
      * split; [done|]. exists (String char_minus pre), d, post. split; [done|]. split; [done|].
        split; [|right; left]. intros c Hc. apply elem_of_cons in Hc as [->|]; [done|by apply Hpre].
      * split; [done|]. intros [|x pre] d post [= Hx Hs] Hd Hpre; [by subst d|].
        destruct (Hr pre d post Hs Hd) as [[=] _]. intros y Hy. apply Hpre. by right.
    + destruct (isdigit c) eqn:Hd; [destruct neg; [left|right]|].
      * split; [done|]. exists EmptyString, c, s. repeat split; [done| |by left].
        intros x Hx. by apply elem_of_nil in Hx.
      * split; [done|]. intros [|x pre] d post [= Hx Hs] Hd' Hpre; [split; [done|apply not_elem_of_nil]|].
        subst x. specialize (Hpre c ltac:(left)). congruence.
      * destruct (IH neg) as [(-> & pre & d & post & -> & Hd' & Hpre & Hn)|[-> Hr]]; [left|right].
        -- split; [done|]. exists (String c pre), d, post. split; [done|]. split; [done|]. split.
           ++ intros x Hx. apply elem_of_cons in Hx as [->|]; [done|by apply Hpre].
           ++ destruct Hn as [Hn|Hn]; [by left|right; by right].
        -- split; [done|]. intros [|x pre] d post [= Hx Hs] Hd' Hpre; [congruence|]. subst x.
           destruct (Hr pre d post Hs Hd') as [Hneg Hin]; [intros y Hy; apply Hpre; by right|].
           split; [done|]. intros [Hc|Hc]%elem_of_cons; [by subst c|done].
Qed.

Lemma ensure_positive_cases str :
  (ensure_positive str = Longjmp (InvalidNegative str) /\ negative_text str) \/
  (ensure_positive str = Returns tt /\ ~ negative_text str).
Proof.
  unfold ensure_positive. destruct (ensure_positive_loop_spec str false str) as [[-> H]|[-> H]]; [left|right];
    (split; [done|]).
  - destruct H as (pre & d & post & ? & ? & ? & [[=]|?]). by exists pre, d, post.
  - intros (pre & d & post & Hs & Hd & Hpre & Hm). by destruct (H pre d post Hs Hd Hpre) as [_ []].
Qed.

(** The three unsigned parsers refuse a text with a minus sign before its
    first digit, and only such a text, as negative; so no negative number is
    ever taken for a large positive one. *)
Theorem negative_arguments_refused str :
  (get_uint32 str = Longjmp (InvalidNegative str) <-> negative_text str) /\
  (get_uint64 str = Longjmp (InvalidNegative str) <-> negative_text str) /\
  (get_uint64_byte str = Longjmp (InvalidNegative str) <-> negative_text str).
Proof.
  unfold get_uint64_byte, get_uint64_scale, get_uint32, get_uint64.
  destruct (ensure_positive_cases str) as [[-> H]|[-> H]]; [done|]. cbn [mbind outcome_bind].
  assert (forall (o : outcome Z), o <> Longjmp (InvalidNegative str) ->
    (o = Longjmp (InvalidNegative str) <-> negative_text str)) as Hiff by (intros; tauto).
  split; [|split]; apply Hiff; [by destruct (scan_number 12 str)|by destruct (scan_number _ str)|].
  destruct (scan_number _ str); [|done]. cbn. destruct (last_char str) as [c|]; [|done].
  destruct (isdigit c); [done|]. by repeat case_match.
Qed.

Lemma take_digits_nonneg w n v s : 0 <= n -> 0 <= v -> 0 <= (take_digits w n v s).1 /\ 0 <= (take_digits w n v s).2.
Proof.
  revert n v s. induction w as [|w IH]; intros n v [|c s] Hn Hv; simpl; try done.
  destruct (isdigit c) eqn:Hd; [|done]. apply IH; [lia|].
  unfold isdigit in Hd. lia.
Qed.

Lemma scan_number_nonneg w s neg v : scan_number w s = Some (neg, v) -> 0 <= v.
Proof.
  unfold scan_number. destruct (take_sign w (skip_space s)) as [[ng w'] t].
  pose proof (take_digits_nonneg w' 0 0 t ltac:(lia) ltac:(lia)) as [_ Hv].
  destruct (take_digits w' 0 0 t) as [n v']. destruct (n =? 0); [done|]. by intros [= _ <-].
Qed.

Lemma strtoul_fits w s p : scan_number w s = Some p -> fits 64 (strtoul p).
Proof.
  destruct p as [neg v]. intros Hv%scan_number_nonneg. unfold strtoul.
  destruct (Z.leb_spec (2 ^ 64) v); [done|]. destruct neg; [apply u64_fits|]. done.
Qed.

(** digits are only found in a string that has a character *)
Lemma scan_number_nonempty w s p : scan_number w s = Some p -> s <> EmptyString.
Proof. by destruct w, s. Qed.

Lemma last_char_some s : s <> EmptyString -> exists c, last_char s = Some c.
Proof.
  intros H. destruct s as [|c s]; [done|]. clear H. revert c.
  induction s as [|d s IH]; intros c; [by exists c|]. apply (IH d).
Qed.

(** the cases of a scaled value *)
Lemma get_uint64_scale_cases str scales msg :
  get_uint64_scale str scales msg = Longjmp (InvalidNegative str) \/
  get_uint64_scale str scales msg = Longjmp (InvalidNumber str) \/
  exists v c, get_uint64 str = Returns v /\ fits 64 v /\ last_char str = Some c /\
    get_uint64_scale str scales msg =
      if isdigit c then Returns v else
      r ← find_scale scales (tolower c);
      match r with
      | Some scale => Returns (u64 (v * scale))
      | None => Exits EXIT_FAILURE (IllegalSpecifier msg c)
      end.
Proof.
  unfold get_uint64_scale, get_uint64.
  destruct (ensure_positive_cases str) as [[-> _]|[-> _]]; cbn [mbind outcome_bind]; [by left|].
  destruct (scan_number _ str) as [p|] eqn:Hp; cbn [mbind outcome_bind]; [right; right|by right; left].
  destruct (last_char_some str) as [c Hc]; [by eapply scan_number_nonempty|]. rewrite Hc.
  exists (strtoul p), c. split; [done|]. split; [by eapply strtoul_fits|]. done.
Qed.

Lemma find_byte_scale ch : exists r, find_scale byte_scales ch = Returns r.
Proof.
  unfold byte_scales. simpl. repeat (case_match; [by eexists|]). by eexists.
Qed.

(** Parsing a size is total: whatever the text, the outcome is a 64 bit value,
    the report of a negative or missing number, or the exit for an unknown
    suffix.  The check of the empty string after the conversion is never
    reached. *)
Theorem get_uint64_byte_total str :
  match get_uint64_byte str with
  | Returns v => fits 64 v
  | Longjmp c => c = InvalidNegative str \/ c = InvalidNumber str
  | Exits st c => st = EXIT_FAILURE /\ exists ch, c = IllegalSpecifier "length" ch /\
      last_char str = Some ch /\ isdigit ch = false
  | Undefined => False
  end.
Proof.
  unfold get_uint64_byte.
  destruct (get_uint64_scale_cases str byte_scales "length") as [->|[->|(v & c & _ & Hv & Hc & ->)]];
    [by left|by right|].
  destruct (isdigit c) eqn:Hd; [done|]. destruct (find_byte_scale (tolower c)) as [[sc|] ->]; cbn.
  - apply u64_fits.
  - split; [done|]. by exists c.
Qed.

(** The table of time units has no terminator: a time whose last character is
    neither a digit nor one of the units makes the search read past the end of
    the table, and this is the only way to get there. *)
Theorem get_uint64_time_unterminated str :
  get_uint64_time str = Undefined <->
  (exists v, get_uint64 str = Returns v) /\
  exists c, last_char str = Some c /\ isdigit c = false /\ tolower c ∉ time_scales.*1.
Proof.
  assert (forall ch, find_scale time_scales ch = Undefined <-> ch ∉ time_scales.*1) as Hf.
  { intros ch. unfold time_scales. simpl.
    rewrite !not_elem_of_cons. repeat case_match; rewrite ?Z.eqb_eq, ?Z.eqb_neq in *;
      split; try done; try tauto. intros _. repeat split; try done. apply not_elem_of_nil. }
  unfold get_uint64_time.
  destruct (get_uint64_scale_cases str time_scales "time") as [Hs|[Hs|(v & c & Hv & _ & Hc & ->)]].
  - rewrite Hs. split; [done|]. intros [[v Hv] _]. unfold get_uint64_scale in Hs. rewrite Hv in Hs. cbn in Hs.
    by repeat case_match.
  - rewrite Hs. split; [done|]. intros [[v Hv] _]. unfold get_uint64_scale in Hs. rewrite Hv in Hs. cbn in Hs.
    by repeat case_match.
  - rewrite Hc, Hv. split.
    + destruct (isdigit c) eqn:Hd; [done|]. intros H. split; [by eexists|]. exists c. split; [done|].
      split; [done|]. apply Hf. destruct (find_scale time_scales (tolower c)) as [[sc|]| | |]; by cbn in H.
    + intros [_ (c' & [= <-] & Hd & Hn%Hf)]. by rewrite Hd, Hn.
Qed.

(** ** 32 bit arguments *)

Lemma number_bound ds n :
  decimal ds -> (length ds <= n)%nat -> 0 <= number ds < 10 ^ Z.of_nat n.
Proof.
  intros [_ Hds] Hlen. split; [by apply number_from_nonneg|].
  pose proof (number_from_lt 0 ds 0 ltac:(lia) ltac:(lia) Hds) as H.
  apply Z.lt_le_trans with (1 := H). apply Z.pow_le_mono_r; lia.
Qed.

Lemma scan_number_minus w ds rest :
  decimal ds -> (length ds <= w)%nat -> starts_with_digit rest = false ->
  scan_number (S w) (String char_minus (digits_text ds rest)) = Some (true, number ds).
Proof.
  intros [Hne Hds] Hw Hr. unfold scan_number. cbn [skip_space isspace].
  change (isspace char_minus) with false. cbn [take_sign]. rewrite Z.eqb_refl. cbn [pred].
  rewrite take_digits_text by done. destruct (Z.eqb_spec (0 + Z.of_nat (length ds)) 0); [|done].
  destruct ds; [done|simpl in *; lia].
Qed.

Lemma int32_digits ds rest :
  decimal ds -> starts_with_digit rest = false ->
  ((length ds <= 12)%nat -> get_uint32 (digits_text ds rest) = Returns (number ds mod 2 ^ 32)) /\
  ((length ds <= 11)%nat -> number ds < 2 ^ 31 -> get_int32 (digits_text ds rest) = Returns (number ds)) /\
  ((length ds <= 11)%nat -> number ds <= 2 ^ 31 ->
     get_int32 (String char_minus (digits_text ds rest)) = Returns (- number ds)).
Proof.
  intros Hdec Hr. assert (10 ^ Z.of_nat 12 < 2 ^ 63) as Hp by reflexivity. unfold get_uint32, get_int32.
  split; [|split]; intros Hlen; pose proof (number_bound ds 12 Hdec ltac:(lia)) as Hn.
  - rewrite ensure_positive_digits by done. cbn [mbind outcome_bind]. rewrite scan_number_digits by done.
    rewrite strtoul_min, Z.min_l by lia. done.
  - intros Hlt. rewrite scan_number_digits by (done || lia). unfold strtol.
    destruct (Z.leb_spec (2 ^ 63) (number ds)); [lia|]. by rewrite s32_small by lia.
  - intros Hle. rewrite scan_number_minus by done. unfold strtol.
    destruct (Z.ltb_spec (2 ^ 63) (number ds)); [lia|]. by rewrite s32_small by lia.
Qed.

(** A decimal argument that is a 32 bit integer is read as that integer, with
    or without sign; an unsigned one of up to twelve digits that is not is
    reduced modulo 2^32 without a complaint. *)
Theorem int32_arguments ds rest :
  decimal ds -> starts_with_digit rest = false ->
  ((length ds <= 12)%nat -> get_uint32 (digits_text ds rest) = Returns (number ds mod 2 ^ 32)) /\
  ((length ds <= 11)%nat -> number ds < 2 ^ 31 -> get_int32 (digits_text ds rest) = Returns (number ds)) /\
  ((length ds <= 11)%nat -> number ds <= 2 ^ 31 ->
     get_int32 (String char_minus (digits_text ds rest)) = Returns (- number ds)).
Proof. apply int32_digits. Qed.

Lemma int32_arguments_witness :
  get_uint32 "4294967298" = Returns 2 /\ get_int32 "-15" = Returns (-15).
Proof.
  split.
  - apply (int32_arguments [4; 2; 9; 4; 9; 6; 7; 2; 9; 8] EmptyString);
      [split; [done|]; repeat constructor; lia|done|simpl; lia].
  - apply (int32_arguments [1; 5] EmptyString);
      [split; [done|]; repeat constructor; lia|done|simpl; lia|vm_compute; done].
Defined.
