(* ===== verification/Affinity.v ===== *)
(** * The processors to run on (affinity.c)

    [set_cpu_affinity()] reads a list like [0,2-5,7], checks the numbers against
    the processors of the machine and asks the kernel for the set.  Every error
    ends the program. *)

From stdpp Require Import gmap.
From S2P Require Import Prelude Outcome ParseOpts.

Definition text (s : cstr) : string := String.string_of_list_ascii s.

(** the delimiters of [strtok(str, ",")] *)
Definition is_comma (c : ascii) : bool := eqc c ","%char.

(** bits of a [cpu_set_t]; [CPU_SET()] ignores numbers from there on *)
Definition CPU_SETSIZE : Z := 1024.

Definition check_cpu_affinity_range (max_cpus cpu : Z) : outcome unit :=
  if (cpu <? 0) || (negb (max_cpus =? -1) && (max_cpus <=? cpu))
  then Exits EXIT_FAILURE (OutOfRange "taskset" cpu 0 (max_cpus - 1)) else Returns tt.

(** [sscanf(str, "%d", &val)] *)
Definition get_cpu (str : cstr) : outcome Z :=
  match scan_number (length str) (text str) with
  | None => Exits EXIT_FAILURE (InvalidNumber (text str))
  | Some p => Returns (s32 (strtol p))
  end.

(** [strstr(token, "-")]: the text after the first minus sign *)
Fixpoint after_minus (token : cstr) : option cstr :=
  match token with
  | [] => None
  | c :: t => if eqc c char_minus then Some t else after_minus t
  end.

(** the first and the last processor of a token *)
Definition get_range (max_cpus : Z) (token : cstr) : outcome (Z * Z) :=
  lo ← get_cpu token;
  hi ← match after_minus token with
       | None => Returns lo
       | Some ptr =>
           hi ← (if decide (ptr = []) then Exits EXIT_FAILURE (ExpectingNumber (text token)) else get_cpu ptr);
           if hi <=? lo then Exits EXIT_FAILURE (EmptyRange (text token)) else Returns hi
       end;
  check_cpu_affinity_range max_cpus lo;;
  check_cpu_affinity_range max_cpus hi;;
  Returns (lo, hi).

(** [for (i = lo; i <= hi; i++) CPU_SET(i, &set)]: with the largest [int] the
    loop would not end *)
Definition set_range (lo hi : Z) (set_ : gset Z) : outcome (gset Z) :=
  if hi =? 2 ^ 31 - 1 then Undefined
  else Returns (set_ ∪ list_to_set (List.filter (fun i => i <? CPU_SETSIZE) (seqZ lo (hi - lo + 1)))).

Fixpoint set_tokens (max_cpus : Z) (tokens : list cstr) (set_ : gset Z) : outcome (gset Z) :=
  match tokens with
  | [] => Returns set_
  | token :: tokens =>
      '(lo, hi) ← get_range max_cpus token;
      set_ ← set_range lo hi set_;
      set_tokens max_cpus tokens set_
  end.

(** [setaffinity]: whether the kernel takes the set.  The set asked for and the
    value returned *)
Definition set_cpu_affinity (max_cpus : Z) (setaffinity : gset Z -> bool) (arg : cstr) : outcome (gset Z * Z) :=
  set_ ← set_tokens max_cpus (words_by is_comma arg) ∅;
  if setaffinity set_ then Returns (set_, 0) else Exits EXIT_FAILURE (SystemRefused "taskset").

(** ** Only processors of the machine *)

Lemma check_cpu_range_returns max_cpus cpu :
  0 <= max_cpus -> check_cpu_affinity_range max_cpus cpu = Returns tt <-> 0 <= cpu < max_cpus.
Proof.
  intros Hm. unfold check_cpu_affinity_range. destruct (Z.ltb_spec cpu 0), (Z.eqb_spec max_cpus (-1)),
    (Z.leb_spec max_cpus cpu); cbn; split; (lia || done).
Qed.

(** leaves through [exit(EXIT_FAILURE)] if it does not return *)
Definition exits_or {A} (P : A -> Prop) (m : outcome A) : Prop :=
  match m with Returns a => P a | Exits st _ => st = EXIT_FAILURE | _ => False end.

Lemma exits_or_bind {A B} (P : A -> Prop) (Q : B -> Prop) (m : outcome A) (f : A -> outcome B) :
  exits_or P m -> (forall a, P a -> exits_or Q (f a)) -> exits_or Q (m ≫= f).
Proof. destruct m; cbn; auto. Qed.

Lemma get_cpu_exits str : exits_or (fun _ => True) (get_cpu str).
Proof. unfold get_cpu. by destruct (scan_number _ _). Qed.

Lemma check_cpu_range_exits max_cpus cpu :
  0 <= max_cpus -> exits_or (fun _ => 0 <= cpu < max_cpus) (check_cpu_affinity_range max_cpus cpu).
Proof.
  intros Hm. destruct (check_cpu_affinity_range max_cpus cpu) as [[]| | |] eqn:H; unfold exits_or.
  - by apply check_cpu_range_returns.
  - unfold check_cpu_affinity_range in H. by destruct (_ || _).
  - unfold check_cpu_affinity_range in H. destruct (_ || _); [|done]. by injection H as <- _.
  - unfold check_cpu_affinity_range in H. by destruct (_ || _).
Qed.

Lemma get_range_exits max_cpus token :
  0 <= max_cpus -> exits_or (fun r => 0 <= r.1 /\ r.1 <= r.2 < max_cpus) (get_range max_cpus token).
Proof.
  intros Hm. unfold get_range. eapply exits_or_bind; [apply get_cpu_exits|]. intros lo _.
  apply (exits_or_bind (fun hi => lo <= hi)).
  { destruct (after_minus token) as [ptr|]; [|cbn; lia].
    apply (exits_or_bind (fun _ => True)); [destruct (decide (ptr = [])); [done|apply get_cpu_exits]|].
    intros hi _. destruct (Z.leb_spec hi lo); cbn; [done|lia]. }
  intros hi Hle. eapply exits_or_bind; [by apply check_cpu_range_exits|]. intros ? Hlo.
  eapply exits_or_bind; [by apply check_cpu_range_exits|]. intros ? Hhi. cbn in *. lia.
Qed.

(** the processors from [lo] to [hi] *)
Lemma elem_of_range lo hi i :
  i ∈ (list_to_set (List.filter (fun i => i <? CPU_SETSIZE) (seqZ lo (hi - lo + 1))) : gset Z) <->
  lo <= i <= hi /\ i < CPU_SETSIZE.
Proof.
  rewrite elem_of_list_to_set, list_elem_of_In, filter_In, <- list_elem_of_In, elem_of_seqZ.
  rewrite Z.ltb_lt. lia.
Qed.

Definition of_machine (max_cpus : Z) (set_ : gset Z) : Prop := forall i, i ∈ set_ -> 0 <= i < max_cpus.

Lemma set_tokens_exits max_cpus tokens set_ :
  0 <= max_cpus < 2 ^ 31 -> of_machine max_cpus set_ ->
  exits_or (of_machine max_cpus) (set_tokens max_cpus tokens set_).
Proof.
  intros Hm. revert set_. induction tokens as [|token tokens IH]; intros set_ Hs; [done|]. cbn [set_tokens].
  eapply exits_or_bind; [apply get_range_exits; lia|]. intros [lo hi] [Hlo Hhi]. cbn [fst snd] in Hlo, Hhi.
  apply (exits_or_bind (of_machine max_cpus)); [|apply IH].
  unfold set_range. destruct (Z.eqb_spec hi (2 ^ 31 - 1)); [lia|]. cbn. intros i.
  rewrite elem_of_union, elem_of_range. intros [Hi|Hi]; [by apply Hs|lia].
Qed.

(** Whatever the text, the kernel is only asked for processors of the machine;
    anything else ends the program with a failure, and nothing is undefined. *)
Theorem affinity_of_machine max_cpus setaffinity arg :
  0 <= max_cpus < 2 ^ 31 ->
  match set_cpu_affinity max_cpus setaffinity arg with
  | Returns (set_, ret) => ret = 0 /\ of_machine max_cpus set_
  | Exits st _ => st = EXIT_FAILURE
  | _ => False
  end.
Proof.
  intros Hm. unfold set_cpu_affinity.
  pose proof (set_tokens_exits max_cpus (words_by is_comma arg) ∅ Hm) as H.
  destruct (set_tokens _ _ _) as [s| | |]; cbn in *; [|apply H; by intros i ?%elem_of_empty..].
  destruct (setaffinity s); [|done]. split; [done|]. apply H. by intros i ?%elem_of_empty.
Qed.

(** ** A list is read as it is written *)

Lemma text_digits ds rest : text ((digit_char <$> ds) ++ rest) = digits_text ds (text rest).
Proof. induction ds as [|d ds IH]; [done|]. cbn. by f_equal. Qed.

Lemma get_cpu_digits ds rest :
  decimal ds -> number ds < 2 ^ 31 -> starts_with_digit (text rest) = false ->
  get_cpu ((digit_char <$> ds) ++ rest) = Returns (number ds).
Proof.
  intros Hd Hn Hr. unfold get_cpu. rewrite text_digits, scan_number_digits;
    [|done|rewrite length_app, length_fmap; lia|done].
  assert (0 <= number ds) by (apply number_from_nonneg; [lia|apply Hd]).
  unfold strtol. destruct (Z.leb_spec (2 ^ 63) (number ds)); [lia|]. by rewrite s32_small by lia.
Qed.

Lemma digit_not_special d : 0 <= d <= 9 -> eqc (digit_char d) char_minus = false /\ is_comma (digit_char d) = false.
Proof.
  intros Hd. unfold is_comma, eqc. rewrite code_digit by done.
  change (code char_minus) with 45. change (code ","%char) with 44. lia.
Qed.

Lemma after_minus_digits ds rest : Forall (fun d => 0 <= d <= 9) ds ->
  after_minus ((digit_char <$> ds) ++ rest) = after_minus rest.
Proof. induction 1 as [|d ds Hd _ IH]; [done|]. cbn. by destruct (digit_not_special d Hd) as [-> _]. Qed.

(** an item: a processor, or the first and the last of several, by their digits *)
Definition item : Type := list Z * option (list Z).
Definition item_text (it : item) : cstr :=
  (digit_char <$> it.1) ++ match it.2 with None => [] | Some hi => char_minus :: (digit_char <$> hi) end.
Definition item_lo (it : item) : Z := number it.1.
Definition item_hi (it : item) : Z := match it.2 with None => number it.1 | Some hi => number hi end.
Definition item_ok (max_cpus : Z) (it : item) : Prop :=
  decimal it.1 /\ match it.2 with None => True | Some hi => decimal hi /\ number it.1 < number hi end /\
  item_hi it < max_cpus.

Fixpoint commas (ts : list cstr) : cstr :=
  match ts with
  | [] => []
  | [t] => t
  | t :: ts => t ++ ","%char :: commas ts
  end.

Lemma words_commas ts :
  Forall (fun t => t <> [] /\ Forall (fun c => is_comma c = false) t) ts -> words_by is_comma (commas ts) = ts.
Proof.
  assert (forall t rest, Forall (fun c => is_comma c = false) t -> t <> [] ->
    words_by is_comma (t ++ rest) =
      (t ++ take_while (apart is_comma) rest) :: words_by is_comma (drop_while (apart is_comma) rest)) as Hw.
  { intros t rest Ht Hne. destruct t as [|c t]; [done|]. cbn [app].
    rewrite words_by_word by by inversion Ht.
    change (c :: t ++ rest) with ((c :: t) ++ rest).
    rewrite take_while_app, drop_while_app; [done|..];
      (eapply Forall_impl; [exact Ht|]); intros x Hx; unfold apart; by rewrite Hx. }
  induction 1 as [|t ts [Hne Ht] Hts IH]; [done|]. destruct ts as [|t' ts].
  - cbn [commas]. rewrite <- (app_nil_r t) at 1. rewrite Hw by done. cbn. by rewrite app_nil_r.
  - change (commas (t :: t' :: ts)) with (t ++ ","%char :: commas (t' :: ts)). rewrite Hw by done.
    cbn [take_while drop_while]. change (apart is_comma ",") with false. cbv iota.
    rewrite app_nil_r. f_equal. exact IH.
Qed.

Lemma item_text_word max_cpus it :
  item_ok max_cpus it -> item_text it <> [] /\ Forall (fun c => is_comma c = false) (item_text it).
Proof.
  destruct it as [lo hi]. intros ([Hne Hlo] & Hhi & _). unfold item_text. cbn [fst snd] in *.
  assert (forall ds, Forall (fun d => 0 <= d <= 9) ds -> Forall (fun c => is_comma c = false) (digit_char <$> ds)) as Hd.
  { intros ds Hds. apply Forall_fmap. eapply Forall_impl; [exact Hds|]. intros d ?. by apply digit_not_special. }
  split; [by destruct lo|]. apply Forall_app. split; [by apply Hd|].
  destruct hi as [hi|]; [|done]. destruct Hhi as [[_ Hhi] _]. constructor; [done|by apply Hd].
Qed.

Lemma get_range_item max_cpus it :
  0 <= max_cpus < 2 ^ 31 -> item_ok max_cpus it ->
  get_range max_cpus (item_text it) = Returns (item_lo it, item_hi it) /\ 0 <= item_lo it <= item_hi it.
Proof.
  destruct it as [lo hi]. intros Hm (Hlo & Hhi & Hmax). unfold item_text, item_lo, item_hi, get_range in *. cbn [fst snd] in *.
  assert (0 <= number lo) as Hn0 by (apply number_from_nonneg; [lia|apply Hlo]).
  assert (number lo <= match hi with Some h => number h | None => number lo end) as Hle by (destruct hi; lia).
  rewrite get_cpu_digits by (done || lia || by destruct hi). cbn [mbind outcome_bind].
  rewrite after_minus_digits by apply Hlo. destruct hi as [hi|].
  - destruct Hhi as [Hhi Hlt]. cbn [after_minus]. change (eqc char_minus char_minus) with true. cbv iota.
    rewrite decide_False by (destruct Hhi as [Hne _], hi; [done|discriminate]).
    rewrite <- (app_nil_r (digit_char <$> hi)), get_cpu_digits by (done || lia). cbn [mbind outcome_bind].
    destruct (Z.leb_spec (number hi) (number lo)); [lia|]. cbn [mbind outcome_bind].
    rewrite !(proj2 (check_cpu_range_returns max_cpus _ (proj1 Hm))) by lia. cbn [mbind outcome_bind]. split; [done|lia].
  - cbn [after_minus mbind outcome_bind].
    rewrite !(proj2 (check_cpu_range_returns max_cpus _ (proj1 Hm))) by lia. cbn [mbind outcome_bind]. split; [done|lia].
Qed.

Definition in_items (its : list item) (i : Z) : Prop := exists it, it ∈ its /\ item_lo it <= i <= item_hi it.

Lemma set_tokens_items max_cpus its set_ :
  0 <= max_cpus <= CPU_SETSIZE -> Forall (item_ok max_cpus) its ->
  exists set_', set_tokens max_cpus (item_text <$> its) set_ = Returns set_' /\
    forall i, i ∈ set_' <-> i ∈ set_ \/ in_items its i.
Proof.
  intros Hm Hits. unfold CPU_SETSIZE in Hm. revert set_. induction Hits as [|it its Hit _ IH]; intros set_.
  - exists set_. split; [done|]. intros i. split; [by left|]. intros [|(it & Hin & _)]; [done|]. by apply elem_of_nil in Hin.
  - cbn [fmap list_fmap set_tokens]. destruct (get_range_item max_cpus it) as [-> Hle]; [lia|done|].
    cbn [mbind outcome_bind]. unfold set_range. assert (item_hi it < max_cpus) as Hh by apply Hit.
    destruct (Z.eqb_spec (item_hi it) (2 ^ 31 - 1)); [lia|]. cbn [mbind outcome_bind].
    match goal with |- context [set_tokens _ _ ?x] => destruct (IH x) as (set_' & -> & Hset) end.
    exists set_'. split; [done|]. intros i. rewrite Hset, elem_of_union, elem_of_range. unfold in_items, CPU_SETSIZE.
    setoid_rewrite elem_of_cons. split.
    + intros [[Hi|[Hi _]]|(it' & Hin & Hi)]; [by left|right; exists it; by auto|right; exists it'; by auto].
    + intros [Hi|(it' & [->|Hin] & Hi)]; [by auto|left; right; lia|right; by exists it'].
Qed.

(** A list of processors and ranges of processors of the machine is read as it is
    written: the kernel is asked for exactly these. *)
Theorem affinity_list_read max_cpus its :
  0 <= max_cpus <= CPU_SETSIZE -> Forall (item_ok max_cpus) its ->
  exists set_, set_cpu_affinity max_cpus (fun _ => true) (commas (item_text <$> its)) = Returns (set_, 0) /\
    forall i, i ∈ set_ <-> in_items its i.
Proof.
  intros Hm Hits. unfold set_cpu_affinity. rewrite words_commas.
  - destruct (set_tokens_items max_cpus its ∅ Hm Hits) as (set_ & -> & Hset). exists set_. split; [done|].
    intros i. rewrite Hset. set_solver.
  - apply Forall_fmap. eapply Forall_impl; [exact Hits|]. intros it Hit. by apply (item_text_word max_cpus).
Qed.

(** *** concrete lists *)

Definition demo_items : list item := [([0], None); ([2], Some [1; 1])].

Lemma demo_items_ok : Forall (item_ok 16) demo_items.
Proof. repeat apply Forall_cons_2; [..|apply Forall_nil_2]; (repeat split; try done); repeat constructor; lia. Qed.

Lemma affinity_list_read_witness :
  exists set_, set_cpu_affinity 16 (fun _ => true) (cs "0,2-11") = Returns (set_, 0) /\
    forall i, i ∈ set_ <-> in_items demo_items i.
Proof. apply (affinity_list_read 16 demo_items); [unfold CPU_SETSIZE; lia|exact demo_items_ok]. Defined.

Lemma affinity_of_machine_witness :
  match set_cpu_affinity 4 (fun _ => true) (cs "1,-3") with
  | Returns (set_, ret) => ret = 0 /\ of_machine 4 set_
  | Exits st _ => st = EXIT_FAILURE
  | _ => False
  end.
Proof. apply (affinity_of_machine 4 (fun _ => true) (cs "1,-3")). lia. Defined.
