(* ===== verification/Priority.v ===== *)
(** * Scheduling class, I/O priority and OOM score (sched.c, io-priority.c, out-of-memory.c)

    The names of the classes, and what the program asks the kernel for.  The
    numbers of the classes and the range of the priorities are Linux's; what the
    kernel answers is an argument. *)

From S2P Require Import Prelude Flags Outcome ParseOpts.

Definition UNDEFINED : Z := -1.
Definition EINVAL : Z := 22.

(** ** Scheduling *)

Definition SCHED_OTHER : Z := 0.
Definition SCHED_FIFO : Z := 1.
Definition SCHED_RR : Z := 2.
Definition SCHED_BATCH : Z := 3.
Definition SCHED_IDLE : Z := 5.
Definition SCHED_DEADLINE : Z := 6.

Definition stress_get_sched_name (sched : Z) : string :=
  if sched =? SCHED_IDLE then "idle"
  else if sched =? SCHED_FIFO then "fifo"
  else if sched =? SCHED_RR then "rr"
  else if sched =? SCHED_OTHER then "other"
  else if sched =? SCHED_BATCH then "batch"
  else if sched =? SCHED_DEADLINE then "deadline"
  else "unknown".

Definition get_opt_sched (str : string) : outcome Z :=
  if decide (str = "other") then Returns SCHED_OTHER
  else if decide (str = "batch") then Returns SCHED_BATCH
  else if decide (str = "idle") then Returns SCHED_IDLE
  else if decide (str = "fifo") then Returns SCHED_FIFO
  else if decide (str = "rr") then Returns SCHED_RR
  else if decide (str = "deadline") then Returns SCHED_DEADLINE
  else Exits EXIT_FAILURE (UnknownChoice "sched" str).

(** a request: the class and the priority *)
Record request := Request { r_class : Z; r_prio : Z }.

Section Sched.
(** [sched_get_priority_min()], [sched_get_priority_max()], the answer to a
    request ([None], or the error number), and whether the mode is aggressive *)
Variable (prio_min prio_max : Z -> Z) (answer : request -> option Z) (aggressive : bool).

Definition ask (r : request) : list request * Z :=
  ([r], match answer r with None => 0 | Some errno => - errno end).

(** C division rounds towards zero *)
Definition default_prio (sched : Z) : Z :=
  if aggressive then prio_max sched else Z.quot (prio_max sched - prio_min sched) 2.

(** the requests made and the value returned *)
Definition stress_set_sched (sched sched_priority : Z) : list request * Z :=
  if sched =? UNDEFINED then ([], 0)
  else if (sched =? SCHED_FIFO) || (sched =? SCHED_RR) then
    let prio := if sched_priority =? UNDEFINED then default_prio sched else sched_priority in
    if (prio <? prio_min sched) || (prio_max sched <? prio) then ([], - EINVAL)
    else ask (Request sched prio)
  else if sched =? SCHED_DEADLINE then
    let prio := u32 (if sched_priority =? UNDEFINED then default_prio sched else sched_priority) in
    if (prio <? u32 (prio_min sched)) || (u32 (prio_max sched) <? prio) then ([], - EINVAL)
    else ask (Request sched prio)
  else ask (Request sched 0).
End Sched.

(** ** I/O priority *)

Definition IOPRIO_CLASS_RT : Z := 1.
Definition IOPRIO_CLASS_BE : Z := 2.
Definition IOPRIO_CLASS_IDLE : Z := 3.
Definition IOPRIO_PRIO_VALUE (class data : Z) : Z := (class <<< 13) .| data.

Definition get_opt_ionice_class (str : string) : outcome Z :=
  if decide (str = "idle") then Returns IOPRIO_CLASS_IDLE
  else if decide (str = "besteffort") then Returns IOPRIO_CLASS_BE
  else if decide (str = "be") then Returns IOPRIO_CLASS_BE
  else if decide (str = "realtime") then Returns IOPRIO_CLASS_RT
  else if decide (str = "rt") then Returns IOPRIO_CLASS_RT
  else Exits EXIT_FAILURE (UnknownChoice "ionice-class" str).

(** the value given to the kernel, if any; [accepts]: its answer *)
Definition set_iopriority (accepts : Z -> bool) (class level : Z) : outcome (option Z) :=
  let set data :=
    let v := IOPRIO_PRIO_VALUE class data in
    if accepts v then Returns (Some v) else Exits EXIT_FAILURE (SystemRefused "ioprio") in
  if class =? UNDEFINED then Returns None
  else if (class =? IOPRIO_CLASS_RT) || (class =? IOPRIO_CLASS_BE) then
    (if (level <? 0) || (7 <? level) then Exits EXIT_FAILURE (OutOfRange "ionice-level" level 0 7) else set level)
  else if class =? IOPRIO_CLASS_IDLE then set 0
  else Exits EXIT_FAILURE (UnknownChoice "ionice-class" EmptyString).

(** ** The OOM killer *)


Inductive oom_file := OomScoreAdj | OomAdj.

(** [can_open]: the files that can be opened; what is written, if anything *)
Definition set_oom_adjustment (can_open : oom_file -> bool) (high_priv : bool) (g_opt_flags : Z) (killable : bool) :
    option (oom_file * Z) :=
  let make_killable := if c_true (g_opt_flags .& OPT_FLAGS_OOMABLE) then true else killable in
  if can_open OomScoreAdj then
    Some (OomScoreAdj, if make_killable then 1000 else if high_priv then -1000 else 0)
  else if can_open OomAdj then
    Some (OomAdj, if make_killable then (if high_priv then -17 else -16) else 15)
  else None.

(** ** What is asked for *)

(** the names are read back as the classes they are printed for *)
Lemma sched_names_read sched :
  sched ∈ [SCHED_OTHER; SCHED_FIFO; SCHED_RR; SCHED_BATCH; SCHED_IDLE; SCHED_DEADLINE] ->
  get_opt_sched (stress_get_sched_name sched) = Returns sched.
Proof. intros H. by repeat (apply elem_of_cons in H as [->|H]; [reflexivity|]); apply elem_of_nil in H. Qed.

Lemma IOPRIO_PRIO_VALUE_decodes class data :
  0 <= class -> 0 <= data < 2 ^ 13 ->
  IOPRIO_PRIO_VALUE class data >>> 13 = class /\ IOPRIO_PRIO_VALUE class data .& (2 ^ 13 - 1) = data.
Proof.
  intros Hc Hd. unfold IOPRIO_PRIO_VALUE. assert (Z.lor (class <<< 13) data = class * 2 ^ 13 + data) as ->.
  { rewrite Z.shiftl_mul_pow2 by lia. symmetry.
    rewrite <- Z.lxor_lor, <- Z.add_nocarry_lxor; [done|..].
    all: apply Z.bits_inj'; intros i Hi; rewrite Z.land_spec, Z.mul_pow2_bits, Z.bits_0 by lia;
      destruct (Z.lt_ge_cases i 13); [by rewrite (Z.testbit_neg_r class) by lia|];
      rewrite (fits_testbit_high 13 data) by (unfold fits; lia); apply andb_false_r. }
  rewrite Z.shiftr_div_pow2 by lia. change (2 ^ 13 - 1) with (Z.ones 13). rewrite Z.land_ones by lia.
  rewrite Z.div_add_l, Z.div_small, Z.add_0_r by lia. split; [done|].
  rewrite Z.add_comm, Z.mod_add by lia. by apply Z.mod_small.
Qed.

(** the priorities the kernel takes for a class: in its range for the real time
    classes, and none (0) for the others *)
Definition prio_valid (prio_min prio_max : Z -> Z) (r : request) : Prop :=
  if (r_class r =? SCHED_FIFO) || (r_class r =? SCHED_RR) || (r_class r =? SCHED_DEADLINE)
  then prio_min (r_class r) <= r_prio r <= prio_max (r_class r)
  else r_prio r = 0.

Lemma set_sched_request prio_min prio_max answer aggressive sched prio :
  (forall c, 0 <= prio_min c <= prio_max c /\ prio_max c < 2 ^ 31) ->
  match stress_set_sched prio_min prio_max answer aggressive sched prio with
  | ([], ret) => ret = 0 /\ sched = UNDEFINED \/ ret = - EINVAL
  | ([r], ret) => r_class r = sched /\ prio_valid prio_min prio_max r /\
      ret = match answer r with None => 0 | Some errno => - errno end
  | _ => False
  end.
Proof.
  intros Hr. specialize (Hr sched). unfold stress_set_sched, prio_valid, ask.
  destruct (Z.eqb_spec sched UNDEFINED); [by left|].
  destruct ((sched =? SCHED_FIFO) || (sched =? SCHED_RR)) eqn:Hrt.
  - match goal with |- context [?p <? prio_min sched] => set (q := p) end.
    destruct (Z.ltb_spec q (prio_min sched)), (Z.ltb_spec (prio_max sched) q); cbn; try by right.
    rewrite Hrt. cbn. split; [done|]. split; [lia|done].
  - destruct (Z.eqb_spec sched SCHED_DEADLINE) as [Heq|Hne].
    + match goal with |- context [u32 ?p <? _] => set (q := u32 p) end.
      rewrite !(u32_small (prio_min sched)), !(u32_small (prio_max sched)) by (unfold fits; lia).
      destruct (Z.ltb_spec q (prio_min sched)), (Z.ltb_spec (prio_max sched) q); cbn; try by right.
      rewrite Hrt. cbn. destruct (Z.eqb_spec sched SCHED_DEADLINE); [|done]. split; [done|]. split; [lia|done].
    + cbn. rewrite Hrt. cbn. by destruct (Z.eqb_spec sched SCHED_DEADLINE).
Qed.

(** Whatever class and priority the options give, the kernel is asked at most
    once for a scheduling class, with a priority that is valid for it, and for
    an I/O priority whose class is the one given and whose level is between 0
    and 7; what is not valid is refused before the kernel is asked. *)
Theorem priority_requests_valid prio_min prio_max answer aggressive sched prio accepts class level :
  (forall c, 0 <= prio_min c <= prio_max c /\ prio_max c < 2 ^ 31) ->
  (match stress_set_sched prio_min prio_max answer aggressive sched prio with
   | ([], ret) => ret = 0 /\ sched = UNDEFINED \/ ret = - EINVAL
   | ([r], ret) => r_class r = sched /\ prio_valid prio_min prio_max r /\
       ret = match answer r with None => 0 | Some errno => - errno end
   | _ => False
   end) /\
  match set_iopriority accepts class level with
  | Returns None => class = UNDEFINED
  | Returns (Some v) => v >>> 13 = class /\ 0 <= v .& (2 ^ 13 - 1) <= 7 /\ accepts v = true
  | Exits st _ => st = EXIT_FAILURE
  | _ => False
  end.
Proof.
  intros Hr. split; [by apply set_sched_request|]. unfold set_iopriority.
  destruct (Z.eqb_spec class UNDEFINED); [done|].
  destruct (Z.eqb_spec class IOPRIO_CLASS_RT) as [->|]; [|destruct (Z.eqb_spec class IOPRIO_CLASS_BE) as [->|]]; cbn [orb].
  3: destruct (Z.eqb_spec class IOPRIO_CLASS_IDLE) as [->|]; [|done].
  1,2: destruct (Z.ltb_spec level 0), (Z.ltb_spec 7 level); cbn [orb]; try done.
  all: match goal with |- context [if ?b then _ else _] => destruct b eqn:Ha end; [|done].
  all: match goal with |- context [IOPRIO_PRIO_VALUE ?c ?d] =>
         destruct (IOPRIO_PRIO_VALUE_decodes c d) as [Hc Hd]; [done|lia|] end.
  all: rewrite Hc, Hd; repeat split; (lia || done).
Qed.

Lemma priority_requests_valid_witness :
  stress_set_sched (fun _ => 1) (fun _ => 99) (fun _ => None) false SCHED_RR UNDEFINED = ([Request SCHED_RR 49], 0) /\
  set_iopriority (fun _ => true) IOPRIO_CLASS_BE 4 = Returns (Some 16388) /\ 16388 >>> 13 = IOPRIO_CLASS_BE.
Proof.
  split; [reflexivity|]. split; [reflexivity|].
  apply (priority_requests_valid (fun _ => 1) (fun _ => 99) (fun _ => None) false SCHED_RR UNDEFINED
    (fun _ => true) IOPRIO_CLASS_BE 4). intros c. lia.
Defined.

(** The two interfaces to the OOM killer are used in opposite ways: with the first, a process
    that may be killed gets the larger value, so that it is killed rather; with
    the one used when the first is missing, it gets the smaller one. *)
Lemma oom_fallback_reversed can_open high_priv fl v1 f1 v2 f2 :
  c_true (fl .& OPT_FLAGS_OOMABLE) = false ->
  set_oom_adjustment can_open high_priv fl true = Some (f1, v1) ->
  set_oom_adjustment can_open high_priv fl false = Some (f2, v2) ->
  f1 = f2 /\ (if can_open OomScoreAdj then v2 < v1 else v1 < v2).
Proof.
  intros Hf. unfold set_oom_adjustment. rewrite Hf.
  destruct (can_open OomScoreAdj); [|destruct (can_open OomAdj); [|done]]; intros [= <- <-] [= <- <-];
    (split; [done|]); by destruct high_priv.
Qed.
