(* ===== verification/Settings.v ===== *)
(** * The settings store (setting.c)

    [set_setting] appends a copy of a value to a singly linked list of heap
    nodes, tagged with the stressor being configured ([proc_current]);
    [get_setting] walks the list and writes every matching value over the
    destination.  The heap nodes, the head and the tail pointer are modelled
    as they are; [chain] relates them to the list of settings they hold and
    the operations are shown to implement an append and a scan of that list.

    The caller's memory is a function from addresses to bytes: [set_setting]
    reads as many bytes at [value] as the type has and [get_setting] writes
    them at its [value]. *)

From S2P Require Import Prelude Outcome.

Inductive type_id : Type :=
  | TYPE_ID_UNDEFINED | TYPE_ID_UINT8 | TYPE_ID_INT8 | TYPE_ID_UINT16 | TYPE_ID_INT16
  | TYPE_ID_UINT32 | TYPE_ID_INT32 | TYPE_ID_UINT64 | TYPE_ID_INT64 | TYPE_ID_SIZE_T
  | TYPE_ID_SSIZE_T | TYPE_ID_UINT | TYPE_ID_INT | TYPE_ID_ULONG | TYPE_ID_LONG
  | TYPE_ID_OFF_T | TYPE_ID_STR | TYPE_ID_BOOL | TYPE_ID_UINTPTR_T.

#[global] Instance type_id_eq_dec : EqDecision type_id.
Proof. solve_decision. Defined.

(** bytes of a value of the type on LP64 *)
Definition width (t : type_id) : nat :=
  match t with
  | TYPE_ID_UNDEFINED => 0
  | TYPE_ID_UINT8 | TYPE_ID_INT8 | TYPE_ID_BOOL => 1
  | TYPE_ID_UINT16 | TYPE_ID_INT16 => 2
  | TYPE_ID_UINT32 | TYPE_ID_INT32 | TYPE_ID_UINT | TYPE_ID_INT => 4
  | TYPE_ID_UINT64 | TYPE_ID_INT64 | TYPE_ID_SIZE_T | TYPE_ID_SSIZE_T | TYPE_ID_ULONG
  | TYPE_ID_LONG | TYPE_ID_OFF_T | TYPE_ID_STR | TYPE_ID_UINTPTR_T => 8
  end.

(** ** Memory *)

Definition memory : Type := Z -> Z.
Definition ptr : Type := option positive.

Definition read_bytes (m : memory) (a : Z) (n : nat) : list Z :=
  (fun i => m (a + Z.of_nat i)) <$> seq 0 n.

Definition write_bytes (m : memory) (a : Z) (bs : list Z) : memory :=
  fun x => if (a <=? x) && (x <? a + Z.of_nat (length bs))
           then default 0 (bs !! Z.to_nat (x - a)) else m x.

(** the eight bytes of an address *)
Definition pointer_bytes (a : Z) : list Z := (fun i => u8 (a >>> (8 * Z.of_nat i))) <$> seq 0 8.

(** ** The list *)

Record setting := Setting {
  next : ptr;
  proc : ptr;
  name : string;
  tid : type_id;
  u : list Z  (** the bytes of the union *)
}.

Record store := Store {
  nodes : gmap positive setting;
  setting_head : ptr;
  setting_tail : ptr
}.

(** the bytes the [switch] on the type stores; a string is kept by address *)
Definition load_value (t : type_id) (m : memory) (value : Z) : list Z :=
  match t with
  | TYPE_ID_UNDEFINED => []
  | TYPE_ID_STR => pointer_bytes value
  | _ => read_bytes m value (width t)
  end.

(** [alloc] is the result of [calloc], [dup] tells whether [strdup] succeeds *)
Definition set_setting (alloc : ptr) (dup : bool) (proc_current : ptr) (m : memory)
    (nm : string) (t : type_id) (value : Z) (s : store) : outcome store :=
  if value =? 0 then Exits EXIT_NOT_SUCCESS (NullValue nm)
  else match alloc with
  | None => Exits EXIT_NO_RESOURCE (NoMemory nm)
  | Some l =>
      if negb dup then Exits EXIT_NO_RESOURCE (NoMemory nm)
      else
        let setting := Setting None proc_current nm t (load_value t m value) in
        let h := <[l := setting]> (nodes s) in
        match setting_tail s with
        | Some tl =>
            match h !! tl with
            | None => Undefined
            | Some nd =>
                Returns (Store (<[tl := Setting (Some l) (proc nd) (name nd) (tid nd) (u nd)]> h)
                  (setting_head s) (Some l))
            end
        | None => Returns (Store h (Some l) (Some l))
        end
  end.

(** the walk of [get_setting]: [None] is a dangling pointer or no fuel left *)
Fixpoint get_walk (fuel : nat) (h : gmap positive setting) (proc_current : ptr) (nm : string)
    (value : Z) (at_ : ptr) (found set : bool) (m : memory) : option (bool * memory) :=
  match at_ with
  | None => Some (set, m)
  | Some l =>
      match fuel, h !! l with
      | S fuel, Some nd =>
          let found := if bool_decide (proc nd = proc_current) then true else found in
          if found && negb (bool_decide (proc nd = proc_current)) then Some (set, m)
          else if bool_decide (name nd = nm)
          then get_walk fuel h proc_current nm value (next nd) found true (write_bytes m value (u nd))
          else get_walk fuel h proc_current nm value (next nd) found set m
      | _, _ => None
      end
  end.

Definition get_setting (proc_current : ptr) (nm : string) (value : Z) (s : store) (m : memory) :
    option (bool * memory) :=
  get_walk (size (nodes s)) (nodes s) proc_current nm value (setting_head s) false false m.

Fixpoint free_walk (fuel : nat) (h : gmap positive setting) (at_ : ptr) : option (gmap positive setting) :=
  match at_ with
  | None => Some h
  | Some l =>
      match fuel, h !! l with
      | S fuel, Some nd => free_walk fuel (delete l h) (next nd)
      | _, _ => None
      end
  end.

Definition free_settings (s : store) : option store :=
  (fun h => Store h None None) <$> free_walk (size (nodes s)) (nodes s) (setting_head s).

Definition no_settings : store := Store ∅ None None.

(** ** The abstract store: the settings in the order they were made *)

Record entry := Entry { e_proc : ptr; e_name : string; e_tid : type_id; e_u : list Z }.

Definition node (e : entry) (nx : ptr) : setting := Setting nx (e_proc e) (e_name e) (e_tid e) (e_u e).

(** from [p] on, the heap holds the entries of [ls] at their locations *)
Fixpoint chain (h : gmap positive setting) (p : ptr) (ls : list (positive * entry)) : Prop :=
  match ls with
  | [] => p = None
  | (l, e) :: rest => p = Some l /\ exists nx, h !! l = Some (node e nx) /\ chain h nx rest
  end.

Definition holds (s : store) (es : list entry) : Prop :=
  exists ls, es = ls.*2 /\ NoDup ls.*1 /\ dom (nodes s) = list_to_set ls.*1 /\
    chain (nodes s) (setting_head s) ls /\ setting_tail s = fst <$> last ls.

Definition owned (p : ptr) (e : entry) : bool := bool_decide (e_proc e = p).

(** the settings a stressor sees: all those before its own, and the first run
    of its own *)
Definition scope (p : ptr) (es : list entry) : list entry :=
  take_while (negb ∘ owned p) es ++ take_while (owned p) (drop_while (negb ∘ owned p) es).

Lemma scope_own p e es : owned p e = true -> scope p (e :: es) = take_while (owned p) (e :: es).
Proof.
  intros He. unfold scope. cbn [take_while drop_while].
  change ((negb ∘ owned p) e) with (negb (owned p e)). rewrite He. cbn. by rewrite He.
Qed.

Lemma scope_skip p e es : owned p e = false -> scope p (e :: es) = e :: scope p es.
Proof.
  intros He. unfold scope. cbn [take_while drop_while].
  change ((negb ∘ owned p) e) with (negb (owned p e)). by rewrite He.
Qed.

Definition named (nm : string) (e : entry) : bool := bool_decide (e_name e = nm).

Definition overwrite (value : Z) (m : memory) (es : list entry) : memory :=
  foldl (fun m e => write_bytes m value (e_u e)) m es.

Definition nonempty {A} (l : list A) : bool := match l with [] => false | _ :: _ => true end.

Lemma nonempty_filter {A} (f : A -> bool) l : nonempty (List.filter f l) = existsb f l.
Proof. induction l as [|x l IH]; simpl; [done|]. by destruct (f x). Qed.

(** *** the walk *)

Lemma get_walk_own fuel h p nm v ls at_ b m :
  chain h at_ ls -> (length ls <= fuel)%nat ->
  get_walk fuel h p nm v at_ true b m =
    let vis := List.filter (named nm) (take_while (owned p) ls.*2) in
    Some (b || nonempty vis, overwrite v m vis).
Proof.
  revert fuel at_ b m. induction ls as [|[l e] ls IH]; intros fuel at_ b m Hc Hf.
  - simpl in Hc. subst at_. destruct fuel; cbn; by rewrite orb_false_r.
  - destruct Hc as (-> & nx & Hl & Hc). destruct fuel as [|fuel]; [simpl in Hf; lia|].
    simpl. rewrite Hl. cbn [node proc name next u].
    change (owned p e) with (bool_decide (e_proc e = p)).
    destruct (bool_decide_reflect (e_proc e = p)) as [Hp|Hp]; cbn; [|by rewrite orb_false_r].
    change (named nm e) with (bool_decide (e_name e = nm)). destruct (bool_decide_reflect (e_name e = nm)); simpl;
      (rewrite IH by (done || simpl in Hf; lia)); [by rewrite orb_true_r|done].
Qed.

Lemma get_walk_scope fuel h p nm v ls at_ b m :
  chain h at_ ls -> (length ls <= fuel)%nat ->
  get_walk fuel h p nm v at_ false b m =
    let vis := List.filter (named nm) (scope p ls.*2) in
    Some (b || nonempty vis, overwrite v m vis).
Proof.
  revert fuel at_ b m. induction ls as [|[l e] ls IH]; intros fuel at_ b m Hc Hf.
  - simpl in Hc. subst at_. destruct fuel; cbn; by rewrite orb_false_r.
  - destruct (bool_decide_reflect (e_proc e = p)) as [Hp|Hp].
    + assert (scope p (((l, e) :: ls).*2) = take_while (owned p) (((l, e) :: ls).*2)) as ->.
      { by apply scope_own, bool_decide_true. }
      rewrite <- (get_walk_own fuel h p nm v ((l, e) :: ls) at_ b m) by done.
      destruct Hc as (-> & nx & Hl & Hc). destruct fuel as [|fuel]; [simpl in Hf; lia|].
      simpl. rewrite Hl. cbn [node proc]. by rewrite bool_decide_true by done.
    + assert (scope p (((l, e) :: ls).*2) = e :: scope p (ls.*2)) as ->.
      { by apply scope_skip, bool_decide_false. }
      destruct Hc as (-> & nx & Hl & Hc). destruct fuel as [|fuel]; [simpl in Hf; lia|].
      simpl. rewrite Hl. cbn [node proc name next u]. rewrite bool_decide_false by done. simpl.
      change (named nm e) with (bool_decide (e_name e = nm)). destruct (bool_decide_reflect (e_name e = nm)); simpl;
        (rewrite IH by (done || simpl in Hf; lia)); [by rewrite orb_true_r|done].
Qed.

Lemma holds_size s es : holds s es -> size (nodes s) = length es.
Proof.
  intros (ls & -> & Hnd & Hdom & _). rewrite length_fmap. rewrite <- (length_fmap fst).
  rewrite <- size_dom, Hdom. by apply size_list_to_set.
Qed.

(** what [get_setting] returns and writes, in terms of the settings made *)
Lemma get_setting_holds s es p nm v m :
  holds s es ->
  get_setting p nm v s m =
    let vis := List.filter (named nm) (scope p es) in
    Some (nonempty vis, overwrite v m vis).
Proof.
  intros Hs. pose proof (holds_size s es Hs) as Hsz. destruct Hs as (ls & -> & _ & _ & Hc & _).
  unfold get_setting. rewrite (get_walk_scope _ _ _ _ _ ls); [done..|].
  rewrite length_fmap in Hsz. lia.
Qed.

(** *** appending *)

Lemma chain_insert_fresh h p ls l nd :
  l ∉ ls.*1 -> chain h p ls -> chain (<[l := nd]> h) p ls.
Proof.
  revert p. induction ls as [|[l' e] ls IH]; intros p Hl Hc; [done|].
  rewrite fmap_cons, not_elem_of_cons in Hl. destruct Hl as [Hne Hl], Hc as (-> & nx & Hx & Hc).
  split; [done|]. exists nx. rewrite lookup_insert_ne by done. split; [done|]. by apply IH.
Qed.

(** linking a new last node behind the old one *)
Lemma chain_append h p ls le ee l e :
  chain h p (ls ++ [(le, ee)]) -> NoDup (ls ++ [(le, ee)]).*1 -> l ∉ (ls ++ [(le, ee)]).*1 ->
  h !! l = Some (node e None) ->
  chain (<[le := node ee (Some l)]> h) p (ls ++ [(le, ee); (l, e)]).
Proof.
  revert p. induction ls as [|[x ex] ls IH]; intros p Hc Hnd Hl Hh; cbn [app] in *.
  - destruct Hc as (-> & nx & Hx & ->). split; [done|]. exists (Some l).
    rewrite lookup_insert_eq. split; [done|]. split; [done|]. exists None.
    rewrite lookup_insert_ne; [done|]. intros ->. apply Hl. left.
  - destruct Hc as (-> & nx & Hx & Hc). rewrite fmap_cons in Hnd, Hl.
    apply NoDup_cons in Hnd as [Hxn Hnd]. apply not_elem_of_cons in Hl as [Hlx Hl].
    split; [done|]. exists nx. split; [|by apply IH]. rewrite lookup_insert_ne; [done|].
    intros ->. apply Hxn. rewrite fmap_app, elem_of_app. right. left.
Qed.

Lemma holds_lookup s es l : holds s es -> nodes s !! l = None ->
  exists ls, es = ls.*2 /\ NoDup ls.*1 /\ dom (nodes s) = list_to_set ls.*1 /\
    chain (nodes s) (setting_head s) ls /\ setting_tail s = fst <$> last ls /\ l ∉ ls.*1.
Proof.
  intros (ls & ? & ? & Hdom & ? & ?) Hl. exists ls. repeat split; try done.
  apply not_elem_of_dom in Hl. rewrite Hdom in Hl. set_solver.
Qed.

Lemma chain_last h p ls le ee :
  chain h p (ls ++ [(le, ee)]) -> h !! le = Some (node ee None).
Proof.
  revert p. induction ls as [|[l e] ls IH]; intros p Hc; cbn [app] in Hc.
  - by destruct Hc as (_ & nx & Hl & ->).
  - destruct Hc as (_ & nx & _ & Hc). by apply (IH nx).
Qed.

(** a setting that can be stored goes to the end of the list *)
Lemma set_setting_appends s es l p m nm t value :
  holds s es -> nodes s !! l = None -> value <> 0 ->
  exists s', set_setting (Some l) true p m nm t value s = Returns s' /\
    holds s' (es ++ [Entry p nm t (load_value t m value)]).
Proof.
  intros Hs Hl Hv. destruct (holds_lookup s es l Hs Hl) as (ls & -> & Hnd & Hdom & Hc & Ht & Hnl).
  unfold set_setting. rewrite (proj2 (Z.eqb_neq value 0)) by done. cbn [negb].
  set (e := Entry p nm t (load_value t m value)).
  change (Setting None p nm t (load_value t m value)) with (node e None).
  assert (l ∉ ls.*1 -> NoDup (ls ++ [(l, e)]).*1) as Hnd'.
  { intros _. rewrite fmap_app. apply NoDup_app. split; [done|]. split; [|apply NoDup_singleton].
    intros x Hx Hin. apply list_elem_of_singleton in Hin. simpl in Hin. by subst x. }
  rewrite Ht. induction ls as [|[le ee] ls' _] using rev_ind.
  - cbn [last fmap option_fmap option_map]. eexists. split; [done|].
    exists [(l, e)]. repeat split; [by apply Hnd'| |].
    + cbn [nodes]. rewrite dom_insert_L, Hdom. simpl. set_solver.
    + cbn. exists None. rewrite lookup_insert_eq. done.
  - rewrite last_snoc. cbn [fmap option_fmap option_map fst].
    assert (le <> l) as Hne by (intros ->; apply Hnl; rewrite fmap_app, elem_of_app; right; left).
    rewrite lookup_insert_ne, (chain_last _ _ _ _ _ Hc) by done.
    eexists. split; [done|]. exists ((ls' ++ [(le, ee)]) ++ [(l, e)]).
    split; [by rewrite !fmap_app|]. split; [by apply Hnd'|]. split; [|split].
    + cbn [nodes]. rewrite !dom_insert_L, Hdom. rewrite !fmap_app, !list_to_set_app_L. simpl. clear; set_solver.
    + cbn [nodes setting_head]. rewrite <- app_assoc. cbn [app].
      apply (chain_append _ _ ls' le ee l e); [by apply chain_insert_fresh|done|done|apply lookup_insert_eq].
    + by rewrite last_snoc.
Qed.

(** *** what a caller reads back *)

Lemma read_write_bytes m a bs : read_bytes (write_bytes m a bs) a (length bs) = bs.
Proof.
  unfold read_bytes. apply list_eq. intros i. rewrite list_lookup_fmap.
  destruct (decide (i < length bs)%nat) as [Hi|Hi].
  - rewrite lookup_seq_lt by done. cbn. unfold write_bytes.
    destruct (Z.leb_spec a (a + Z.of_nat i)), (Z.ltb_spec (a + Z.of_nat i) (a + Z.of_nat (length bs))); try lia.
    cbn. replace (Z.to_nat (a + Z.of_nat i - a)) with i by lia.
    destruct (lookup_lt_is_Some_2 bs i Hi) as [b Hb]. by rewrite Hb.
  - rewrite lookup_seq_ge by lia. cbn. symmetry. apply lookup_ge_None. lia.
Qed.

Lemma load_value_length t m value : length (load_value t m value) = width t.
Proof. by destruct t. Qed.

Lemma overwrite_snoc v m es e : overwrite v m (es ++ [e]) = write_bytes (overwrite v m es) v (e_u e).
Proof. unfold overwrite. by rewrite foldl_app. Qed.

(** the stressor being configured has only made settings at the end of the list *)
Definition configuring (p : ptr) (es : list entry) : Prop := scope p es = es.

Lemma take_while_all {A} (f : A -> bool) l x : take_while f l = l -> f x = true -> take_while f (l ++ [x]) = l ++ [x].
Proof.
  intros Hl Hx. induction l as [|y l IH]; simpl in *; [by rewrite Hx|].
  destruct (f y); [|done]. injection Hl as Hl. by rewrite IH.
Qed.

Lemma configuring_snoc p es e : configuring p es -> e_proc e = p -> configuring p (es ++ [e]).
Proof.
  unfold configuring. intros H He. assert (owned p e = true) as Ho by (by apply bool_decide_true).
  induction es as [|x es IH].
  - simpl. rewrite scope_own by done. cbn [take_while]. by rewrite Ho.
  - cbn [app]. destruct (owned p x) eqn:Hx.
    + rewrite scope_own in * by done. cbn [take_while] in *. rewrite Hx in *. injection H as H.
      f_equal. by apply take_while_all.
    + rewrite scope_skip in * by done. injection H as H. f_equal. by apply IH.
Qed.

(** *** freeing *)

Lemma free_walk_chain fuel h p ls :
  chain h p ls -> NoDup ls.*1 -> dom h = list_to_set ls.*1 -> (length ls <= fuel)%nat ->
  free_walk fuel h p = Some ∅.
Proof.
  revert fuel h p. induction ls as [|[l e] ls IH]; intros fuel h p Hc Hnd Hdom Hf.
  - simpl in Hc. subst p. destruct fuel; simpl; f_equal; by apply dom_empty_inv_L.
  - destruct Hc as (-> & nx & Hl & Hc). destruct fuel as [|fuel]; [simpl in Hf; lia|].
    rewrite fmap_cons in Hnd, Hdom. cbn [fst] in Hnd, Hdom. apply NoDup_cons in Hnd as [Hnl Hnd].
    simpl. rewrite Hl. cbn [node next]. apply (IH _ _ _); [|done| |simpl in Hf; lia].
    + clear -Hc Hnl. revert nx Hc. induction ls as [|[x ex] ls IH]; intros nx Hc; [done|].
      rewrite fmap_cons, not_elem_of_cons in Hnl. destruct Hnl as [Hne Hnl], Hc as (-> & n' & Hx & Hc).
      split; [done|]. exists n'. rewrite lookup_delete_ne by done. split; [done|]. by apply IH.
    + rewrite dom_delete_L, Hdom. clear -Hnl. simpl. set_solver.
Qed.

Lemma no_settings_holds : holds no_settings [].
Proof. exists []. repeat split; try apply dom_empty_L; constructor. Qed.

(** (C13) The linked list implements a list of settings: from the empty store, a
    [set_setting] whose allocations succeed appends its entry, and one that
    fails ends the process without having changed the list; [get_setting]
    ends, finds a setting exactly when one of that name is in the scope of the
    current stressor, and writes the values of all of them in order;
    [free_settings] leaves no node allocated. *)
Theorem settings_refine (s : store) (es : list entry) :
  holds no_settings [] /\
  (holds s es ->
   (forall alloc dup p m nm t value,
      (forall l, alloc = Some l -> nodes s !! l = None) ->
      match set_setting alloc dup p m nm t value s with
      | Returns s' => holds s' (es ++ [Entry p nm t (load_value t m value)])
      | Exits st c => (value = 0 /\ st = EXIT_NOT_SUCCESS /\ c = NullValue nm) \/
          (value <> 0 /\ (alloc = None \/ dup = false) /\ st = EXIT_NO_RESOURCE /\ c = NoMemory nm)
      | _ => False
      end) /\
   (forall p nm v m,
      get_setting p nm v s m =
        Some (existsb (named nm) (scope p es),
              overwrite v m (List.filter (named nm) (scope p es)))) /\
   free_settings s = Some no_settings).
Proof.
  split; [apply no_settings_holds|]. intros Hs. split; [|split].
  - intros alloc dup p m nm t value Hfresh. destruct (Z.eqb_spec value 0) as [Hv|Hv].
    { unfold set_setting. rewrite (proj2 (Z.eqb_eq value 0)) by done. by left. }
    destruct alloc as [l|], dup.
    2-4: (unfold set_setting; rewrite (proj2 (Z.eqb_neq value 0)) by done; cbn; right; tauto).
    destruct (set_setting_appends s es l p m nm t value Hs (Hfresh l eq_refl) Hv) as (s' & -> & H). done.
  - intros p nm v m. rewrite (get_setting_holds s es) by done. cbv zeta. f_equal. f_equal.
    by apply nonempty_filter.
  - pose proof (holds_size s es Hs) as Hsz. destruct Hs as (ls & -> & Hnd & Hdom & Hc & _).
    unfold free_settings. rewrite (free_walk_chain _ _ _ ls) by (done || rewrite length_fmap in Hsz; lia). done.
Qed.

(** the settings made so far, while configuring one stressor after the other *)
Definition demo_store : store :=
  match set_setting (Some 1%positive) true (Some 1%positive) (fun _ => 7) "vm-bytes" TYPE_ID_UINT16 4096
          no_settings with
  | Returns s => s
  | _ => no_settings
  end.

Lemma demo_store_holds : holds demo_store [Entry (Some 1%positive) "vm-bytes" TYPE_ID_UINT16 [7; 7]].
Proof.
  destruct (set_setting_appends no_settings [] 1%positive (Some 1%positive) (fun _ => 7) "vm-bytes"
    TYPE_ID_UINT16 4096) as (s' & Hs & H); [apply no_settings_holds|done|done|].
  unfold demo_store. by rewrite Hs.
Qed.

Lemma settings_refine_witness :
  free_settings demo_store = Some no_settings.
Proof. apply (proj2 (settings_refine demo_store _) demo_store_holds). Defined.

(** A setting made for the stressor being configured is what [get_setting]
    reads back for that stressor, whatever settings of the same name were made
    before. *)
Theorem set_then_get s es l p m nm t value v' m' :
  holds s es -> configuring p es -> nodes s !! l = None -> value <> 0 ->
  exists s' m'', set_setting (Some l) true p m nm t value s = Returns s' /\
    get_setting p nm v' s' m' = Some (true, m'') /\
    read_bytes m'' v' (width t) = load_value t m value.
Proof.
  intros Hs Hp Hl Hv. destruct (set_setting_appends s es l p m nm t value Hs Hl Hv) as (s' & Hset & Hs').
  eexists s', _. split; [done|]. rewrite (get_setting_holds _ _ p nm v' m' Hs').
  rewrite (configuring_snoc p es (Entry p nm t (load_value t m value)) Hp eq_refl).
  rewrite List.filter_app. cbn [List.filter]. unfold named at 2 4.
  rewrite bool_decide_true by done. split.
  - rewrite (ltac:(by destruct (List.filter (named nm) es)) : forall x, nonempty (List.filter (named nm) es ++ [x]) = true).
    reflexivity.
  - rewrite overwrite_snoc. cbn [e_u]. rewrite <- (load_value_length t m value). apply read_write_bytes.
Qed.

Lemma set_then_get_witness :
  exists s' m'', set_setting (Some 2%positive) true (Some 1%positive) (fun _ => 9) "vm-bytes" TYPE_ID_UINT64 64
      demo_store = Returns s' /\
    get_setting (Some 1%positive) "vm-bytes" 128 s' (fun _ => 0) = Some (true, m'') /\
    read_bytes m'' 128 8 = [9; 9; 9; 9; 9; 9; 9; 9].
Proof.
  apply (set_then_get demo_store _ 2 (Some 1%positive) (fun _ => 9) "vm-bytes" TYPE_ID_UINT64 64 128 (fun _ => 0)
    demo_store_holds); [reflexivity|reflexivity|discriminate].
Defined.

Lemma scope_app p es es' :
  existsb (owned p) es = true -> (if es' is e :: _ then owned p e = false else True) ->
  scope p (es ++ es') = scope p es.
Proof.
  intros He Hes'. induction es as [|x es IH]; [done|]. cbn [app existsb] in *.
  destruct (owned p x) eqn:Hx.
  - rewrite !scope_own by done. cbn [take_while]. rewrite Hx. f_equal. clear IH He Hx.
    induction es as [|y es IH]; cbn [app take_while].
    + destruct es' as [|e es']; [done|]. cbn [take_while]. by rewrite Hes'.
    + destruct (owned p y); [by rewrite IH|done].
  - rewrite !scope_skip by done. f_equal. by apply IH.
Qed.

(** A stressor with settings of its own is not affected by the settings made
    after the configuration moved on to another stressor. *)
Theorem later_settings_invisible s s' es es' p nm v m :
  holds s es -> holds s' (es ++ es') -> existsb (owned p) es = true ->
  (if es' is e :: _ then owned p e = false else True) ->
  get_setting p nm v s' m = get_setting p nm v s m.
Proof.
  intros Hs Hs' Hp Hes'. rewrite (get_setting_holds _ _ _ _ _ _ Hs'), (get_setting_holds _ _ _ _ _ _ Hs).
  by rewrite scope_app.
Qed.

Definition demo_store2 : store :=
  match set_setting (Some 2%positive) true (Some 3%positive) (fun _ => 9) "vm-bytes" TYPE_ID_UINT64 64 demo_store with
  | Returns s => s
  | _ => no_settings
  end.

Lemma demo_store2_holds : holds demo_store2
  ([Entry (Some 1%positive) "vm-bytes" TYPE_ID_UINT16 [7; 7]] ++
   [Entry (Some 3%positive) "vm-bytes" TYPE_ID_UINT64 [9; 9; 9; 9; 9; 9; 9; 9]]).
Proof.
  destruct (set_setting_appends demo_store _ 2%positive (Some 3%positive) (fun _ => 9) "vm-bytes"
    TYPE_ID_UINT64 64 demo_store_holds) as (s' & Hs & H); [done|done|].
  unfold demo_store2. by rewrite Hs.
Qed.

Lemma later_settings_invisible_witness :
  get_setting (Some 1%positive) "vm-bytes" 128 demo_store2 (fun _ => 0) =
  get_setting (Some 1%positive) "vm-bytes" 128 demo_store (fun _ => 0).
Proof.
  apply (later_settings_invisible demo_store demo_store2 _ _ _ _ _ _ demo_store_holds demo_store2_holds);
    reflexivity.
Defined.
