(* ===== verification/Procs.v ===== *)
(** * The stressor list (stress-ng.c)

    The stressors to be run are a doubly linked list of heap nodes with a head
    and a tail pointer.  The list operations are modelled on the heap; [None]
    is the dereference of a pointer to nothing.  [repr] relates the heap to the
    list it holds, and the operations are shown to append to, remove from,
    filter and update that list. *)

From S2P Require Import Prelude Mwc Outcome.

Definition ptr : Type := option positive.

(** an entry of the table [stressors[]] *)
Record stress := Stress { s_name : cstr; s_id : Z; s_class : Z; s_short : Z; s_op : Z }.

(** the fields of [proc_info_t] other than its links *)
Record pdata := PData {
  stressor : stress;
  pids : list Z;
  stats : list Z;       (** slots of the shared statistics *)
  started_procs : Z;
  num_procs : Z;
  bogo_ops : Z
}.

Record proc_info := ProcInfo { next : ptr; prev : ptr; data : pdata }.

Record procs := Procs {
  heap : gmap positive proc_info;
  procs_head : ptr;
  procs_tail : ptr
}.

Definition with_num (n : Z) (d : pdata) : pdata :=
  PData (stressor d) (pids d) (stats d) (started_procs d) n (bogo_ops d).

(** ** List primitives *)

Definition node_at (s : procs) (l : positive) : option proc_info := heap s !! l.

Definition set_node (l : positive) (nd : proc_info) (s : procs) : procs :=
  Procs (<[l := nd]> (heap s)) (procs_head s) (procs_tail s).

(** [if (p) p->prev = v] and [if (p) p->next = v] *)
Definition set_prev (p v : ptr) (s : procs) : option procs :=
  match p with
  | None => Some s
  | Some l => nd ← node_at s l; Some (set_node l (ProcInfo (next nd) v (data nd)) s)
  end.
Definition set_next (p v : ptr) (s : procs) : option procs :=
  match p with
  | None => Some s
  | Some l => nd ← node_at s l; Some (set_node l (ProcInfo v (prev nd) (data nd)) s)
  end.

Definition remove_proc (l : positive) (s : procs) : option procs :=
  pi ← node_at s l;
  s ← (if bool_decide (procs_head s = Some l)
       then set_prev (next pi) (prev pi) (Procs (heap s) (next pi) (procs_tail s))
       else set_next (prev pi) (next pi) s);
  pi ← node_at s l;
  if bool_decide (procs_tail s = Some l)
  then set_next (prev pi) (next pi) (Procs (heap s) (procs_head s) (prev pi))
  else set_prev (next pi) (prev pi) s.

(** [alloc] is the result of [calloc] *)
Definition find_proc_info (alloc : ptr) (st : stress) (s : procs) : outcome (positive * procs) :=
  match alloc with
  | None => Exits 1 (NoMemory "stressor state info")
  | Some l =>
      let nd := ProcInfo None (procs_tail s) (PData st [] [] 0 0 0) in
      match procs_tail s with
      | None => Returns (l, Procs (<[l := nd]> (heap s)) (Some l) (Some l))
      | Some _ =>
          match set_next (procs_tail s) (Some l) (set_node l nd s) with
          | Some s' => Returns (l, Procs (heap s') (procs_head s') (Some l))
          | None => Undefined
          end
      end
  end.

(** the loop [while (pi) { next = pi->next; if (...) remove_proc(pi); pi = next; }] *)
Fixpoint remove_walk (fuel : nat) (f : pdata -> bool) (pi : ptr) (s : procs) : option procs :=
  match pi with
  | None => Some s
  | Some l =>
      match fuel with
      | O => None
      | S fuel =>
          nd ← node_at s l;
          s ← (if f (data nd) then remove_proc l s else Some s);
          remove_walk fuel f (next nd) s
      end
  end.

Definition remove_if (f : pdata -> bool) (s : procs) : option procs :=
  remove_walk (size (heap s)) f (procs_head s) s.

(** the loop [for (pi = procs_head; pi; pi = pi->next)] with a body that
    updates the node, threading an accumulator *)
Fixpoint for_procs {A} (fuel : nat) (f : pdata -> A -> pdata * A) (pi : ptr) (a : A) (s : procs) :
    option (A * procs) :=
  match pi with
  | None => Some (a, s)
  | Some l =>
      match fuel with
      | O => None
      | S fuel =>
          nd ← node_at s l;
          let '(d, a) := f (data nd) a in
          for_procs fuel f (next nd) a (set_node l (ProcInfo (next nd) (prev nd) d) s)
      end
  end.

Definition each_proc {A} (f : pdata -> A -> pdata * A) (a : A) (s : procs) : option (A * procs) :=
  for_procs (size (heap s)) f (procs_head s) a s.

Definition get_num_procs (s : procs) : option Z :=
  fst <$> each_proc (fun d n => (d, u32 (n + 1))) 0 s.

(** a sum of [int32_t] in a [uint32_t] *)
Definition get_total_num_procs (s : procs) : option Z :=
  fst <$> each_proc (fun d n => (d, u32 (n + num_procs d))) 0 s.

(** the inner [None] is a null pointer *)
Fixpoint nth_walk (n : nat) (pi : ptr) (s : procs) : option ptr :=
  match n, pi with
  | S n, Some l => nd ← node_at s l; nth_walk n (next nd) s
  | _, _ => Some pi
  end.

Definition get_nth_proc (n : Z) (s : procs) : option ptr := nth_walk (Z.to_nat n) (procs_head s) s.

Fixpoint free_walk (fuel : nat) (pi : ptr) (h : gmap positive proc_info) : option (gmap positive proc_info) :=
  match pi with
  | None => Some h
  | Some l =>
      match fuel with
      | O => None
      | S fuel => nd ← h !! l; free_walk fuel (next nd) (delete l h)
      end
  end.

Definition free_procs (s : procs) : option procs :=
  h ← free_walk (size (heap s)) (procs_head s) (heap s); Some (Procs h None None).

(** ** The list a heap holds *)

Definition headp (ls : list (positive * pdata)) (nx : ptr) : ptr :=
  match ls with (l, _) :: _ => Some l | [] => nx end.
Definition lastp (pv : ptr) (ls : list (positive * pdata)) : ptr :=
  match last ls with Some (l, _) => Some l | None => pv end.

(** the nodes of [ls] are linked, between the neighbours [pv] and [nx] *)
Fixpoint linked (h : gmap positive proc_info) (pv : ptr) (ls : list (positive * pdata)) (nx : ptr) : Prop :=
  match ls with
  | [] => True
  | (l, d) :: rest => h !! l = Some (ProcInfo (headp rest nx) pv d) /\ linked h (Some l) rest nx
  end.

Definition repr (s : procs) (ls : list (positive * pdata)) : Prop :=
  linked (heap s) None ls None /\ NoDup ls.*1 /\
  procs_head s = headp ls None /\ procs_tail s = lastp None ls.

Definition no_procs : procs := Procs ∅ None None.

Lemma no_procs_repr : repr no_procs [].
Proof. repeat split. constructor. Qed.

Lemma headp_app ls ls' nx : headp (ls ++ ls') nx = headp ls (headp ls' nx).
Proof. by destruct ls as [|[? ?]]. Qed.

Lemma lastp_cons pv l d ls : lastp pv ((l, d) :: ls) = lastp (Some l) ls.
Proof. unfold lastp. rewrite last_cons. by destruct (last ls) as [[? ?]|]. Qed.

Lemma lastp_app pv ls ls' : lastp pv (ls ++ ls') = lastp (lastp pv ls) ls'.
Proof.
  revert pv. induction ls as [|[l d] ls IH]; intros pv; [done|].
  cbn [app]. by rewrite !lastp_cons, IH.
Qed.

Lemma linked_app h pv ls ls' nx :
  linked h pv (ls ++ ls') nx <-> linked h pv ls (headp ls' nx) /\ linked h (lastp pv ls) ls' nx.
Proof.
  revert pv. induction ls as [|[l d] ls IH]; intros pv; [unfold lastp; cbn; tauto|].
  cbn [app linked]. rewrite IH, headp_app, lastp_cons. tauto.
Qed.

Lemma linked_insert h pv ls nx l nd : l ∉ ls.*1 -> linked h pv ls nx -> linked (<[l := nd]> h) pv ls nx.
Proof.
  revert pv. induction ls as [|[l' d] ls IH]; intros pv Hl H; [done|].
  rewrite fmap_cons, not_elem_of_cons in Hl. destruct Hl as [Hne Hl], H as [Hx H].
  split; [by rewrite lookup_insert_ne|by apply IH].
Qed.

(** relinking the last node of a segment *)
Lemma linked_snoc h pv ls l d nx :
  linked h pv (ls ++ [(l, d)]) nx <->
  linked h pv ls (Some l) /\ h !! l = Some (ProcInfo nx (lastp pv ls) d).
Proof. rewrite linked_app. cbn. tauto. Qed.

Lemma NoDup_snoc_1 {A} (l : list A) x : NoDup (l ++ [x]) -> NoDup l /\ x ∉ l.
Proof.
  intros (Hl & Hx & _)%NoDup_app. split; [done|]. intros Hin. apply (Hx x Hin). left.
Qed.

Lemma set_next_last s ls nx v :
  linked (heap s) None ls nx -> NoDup ls.*1 ->
  exists h', set_next (lastp None ls) v s = Some (Procs h' (procs_head s) (procs_tail s)) /\
    linked h' None ls v /\ (forall l, l ∉ ls.*1 -> h' !! l = heap s !! l).
Proof.
  intros H Hnd. destruct ls as [|[l d] ls _] using rev_ind.
  - exists (heap s). by destruct s.
  - apply linked_snoc in H as [H Hl]. rewrite fmap_app in Hnd. apply NoDup_snoc_1 in Hnd as [Hnd Hnl].
    unfold lastp. rewrite last_snoc. cbn [set_next node_at mbind option_bind].
    unfold node_at. rewrite Hl. cbn. eexists. split; [done|]. split.
    + apply linked_snoc. split; [by apply linked_insert|]. by rewrite lookup_insert_eq.
    + intros x Hx. rewrite lookup_insert_ne; [done|]. intros ->. apply Hx. rewrite fmap_app, elem_of_app. right. left.
Qed.

Lemma set_prev_head s pv ls v :
  linked (heap s) pv ls None -> NoDup ls.*1 ->
  exists h', set_prev (headp ls None) v s = Some (Procs h' (procs_head s) (procs_tail s)) /\
    linked h' v ls None /\ (forall l, l ∉ ls.*1 -> h' !! l = heap s !! l).
Proof.
  intros H Hnd. destruct ls as [|[l d] ls].
  - exists (heap s). by destruct s.
  - destruct H as [Hl H]. apply NoDup_cons in Hnd as [Hnl Hnd]. cbn [fst] in Hnl.
    cbn [headp set_prev]. unfold node_at. rewrite Hl. cbn. eexists. split; [done|]. split.
    + split; [by rewrite lookup_insert_eq|]. by apply linked_insert.
    + intros x Hx. rewrite lookup_insert_ne; [done|]. intros ->. apply Hx. left.
Qed.

Lemma linked_frame h h' pv ls nx :
  linked h pv ls nx -> (forall l, l ∈ ls.*1 -> h' !! l = h !! l) -> linked h' pv ls nx.
Proof.
  revert pv. induction ls as [|[l d] ls IH]; intros pv H Heq; [done|].
  destruct H as [Hl H]. split; [rewrite Heq; [done|left]|]. apply IH; [done|].
  intros x Hx. apply Heq. by right.
Qed.

Lemma NoDup_middle {A} (l1 l2 : list A) x :
  NoDup (l1 ++ x :: l2) ->
  NoDup l1 /\ NoDup l2 /\ NoDup (l1 ++ l2) /\ (x ∉ l1) /\ (x ∉ l2) /\ (forall y, y ∈ l1 -> y ∉ l2).
Proof.
  intros (H1 & Hd & [Hx H2]%NoDup_cons)%NoDup_app. split; [done|]. split; [done|].
  split; [|split; [|split; [done|]]].
  - apply NoDup_app. split; [done|]. split; [|done]. intros y Hy Hy2. apply (Hd y Hy). by right.
  - intros Hin. apply (Hd x Hin). left.
  - intros y Hy Hy2. apply (Hd y Hy). by right.
Qed.

Lemma lastp_elem ls l : lastp None ls = Some l -> l ∈ ls.*1.
Proof.
  unfold lastp. destruct (last ls) as [[x d]|] eqn:Hl; [|done]. intros [= ->].
  apply last_Some_elem_of in Hl. apply list_elem_of_fmap. by exists (l, d).
Qed.

Lemma headp_elem ls l : headp ls None = Some l -> l ∈ ls.*1.
Proof. destruct ls as [|[x d] ls]; [done|]. intros [= ->]. left. Qed.

Lemma lastp_ne l ls : l ∉ ls.*1 -> ls <> [] -> lastp (Some l) ls <> Some l.
Proof.
  intros Hl Hne Hc. destruct ls as [|[b d] ls]; [done|]. apply Hl, lastp_elem.
  by rewrite !lastp_cons in *.
Qed.

(** the two halves of [remove_proc]: each relinks one neighbour or both *)
Lemma relink_next s ls1 ls2 l d :
  linked (heap s) None ls1 (Some l) -> linked (heap s) (Some l) ls2 None ->
  heap s !! l = Some d -> NoDup (ls1.*1 ++ l :: ls2.*1) ->
  exists h', set_next (lastp None ls1) (headp ls2 None) s = Some (Procs h' (procs_head s) (procs_tail s)) /\
    linked h' None ls1 (headp ls2 None) /\ linked h' (Some l) ls2 None /\ h' !! l = Some d.
Proof.
  intros H1 H2 Hl (Hn1 & _ & _ & Hx1 & _ & Hd)%NoDup_middle.
  destruct (set_next_last s ls1 (Some l) (headp ls2 None) H1 Hn1) as (h' & -> & Hls1 & Hf).
  exists h'. split; [done|]. split; [done|]. split; [|by rewrite Hf].
  apply linked_frame with (heap s); [done|]. intros x Hx. apply Hf. intros Hx1'. by apply (Hd x).
Qed.

Lemma relink_prev s ls1 ls2 l d nx pv :
  linked (heap s) None ls1 nx -> linked (heap s) pv ls2 None ->
  heap s !! l = Some d -> NoDup (ls1.*1 ++ l :: ls2.*1) ->
  exists h', set_prev (headp ls2 None) (lastp None ls1) s = Some (Procs h' (procs_head s) (procs_tail s)) /\
    linked h' None ls1 nx /\ linked h' (lastp None ls1) ls2 None /\ h' !! l = Some d.
Proof.
  intros H1 H2 Hl (_ & Hn2 & _ & _ & Hx2 & Hd)%NoDup_middle.
  destruct (set_prev_head s pv ls2 (lastp None ls1) H2 Hn2) as (h' & -> & Hls2 & Hf).
  exists h'. split; [done|]. split; [|split; [done|by rewrite Hf]].
  apply linked_frame with (heap s); [done|]. intros x Hx. apply Hf. by apply Hd.
Qed.

(** unlinking a node leaves its neighbours linked to each other *)
Lemma remove_proc_repr s ls1 l d ls2 :
  repr s (ls1 ++ (l, d) :: ls2) -> exists s', remove_proc l s = Some s' /\ repr s' (ls1 ++ ls2).
Proof.
  intros (H & Hnd & Hh & Ht). rewrite linked_app in H. destruct H as (H1 & Hl & H2). cbn [headp] in H1.
  rewrite fmap_app, fmap_cons in Hnd. cbn [fst] in Hnd. rewrite headp_app in Hh. cbn [headp] in Hh.
  rewrite lastp_app, lastp_cons in Ht.
  destruct (NoDup_middle _ _ _ Hnd) as (_ & _ & Hnd' & Hx1 & Hx2 & _). rewrite <- fmap_app in Hnd'.
  unfold remove_proc, node_at. rewrite Hl. cbn [mbind option_bind next prev].
  destruct ls1 as [|[a da] ls1'] eqn:E1; [|rewrite <- E1 in *].
  - cbn [app headp] in *. rewrite bool_decide_true by done.
    change (lastp None []) with (None (A := positive)) in *.
    destruct (relink_prev (Procs (heap s) (headp ls2 None) (procs_tail s)) [] ls2 l _ None _ I H2 Hl Hnd)
      as (h1 & Hs1 & _ & Hp2 & Hl1).
    change (lastp None []) with (None (A := positive)) in *. rewrite Hs1. cbn [mbind option_bind heap procs_head procs_tail].
    rewrite Hl1. cbn [mbind option_bind next prev]. destruct ls2 as [|[b db] ls2'] eqn:E2; [|rewrite <- E2 in *].
    + rewrite bool_decide_true by done. cbn. eexists. split; [done|]. repeat split. done.
    + assert (procs_tail s <> Some l) as Hne
        by (rewrite Ht; apply lastp_ne; [done|by rewrite E2]).
      rewrite bool_decide_false by done.
      destruct (relink_prev (Procs h1 (headp ls2 None) (procs_tail s)) [] ls2 l _ None _ I Hp2 Hl1 Hnd)
        as (h2 & Hs2 & _ & Hp2' & _).
      change (lastp None []) with (None (A := positive)) in *. rewrite Hs2. eexists. split; [done|].
      split; [done|]. split; [done|]. cbn. split; [done|]. rewrite Ht, E2, !lastp_cons. done.
  - assert (procs_head s <> Some l) as Hne.
    { rewrite Hh. intros Hc. apply Hx1. rewrite E1 in Hc |- *. by apply headp_elem. }
    rewrite bool_decide_false by done.
    destruct (relink_next s ls1 ls2 l _ H1 H2 Hl Hnd) as (h1 & Hs1 & Hp1 & Hp2 & Hl1).
    rewrite Hs1. cbn [mbind option_bind heap procs_head procs_tail]. rewrite Hl1. cbn [mbind option_bind next prev].
    assert (procs_head s = headp (ls1 ++ ls2) None) as Hhd by (rewrite Hh, E1; done).
    destruct ls2 as [|[b db] ls2'] eqn:E2; [|rewrite <- E2 in *].
    + rewrite bool_decide_true by done. destruct (NoDup_middle _ _ _ Hnd) as (Hn1 & _).
      destruct (set_next_last (Procs h1 (procs_head s) (lastp None ls1)) ls1 _ None Hp1 Hn1) as (h2 & Hs2 & Hp & _).
      cbn [headp]. rewrite Hs2. eexists. split; [done|]. rewrite app_nil_r in *. done.
    + assert (procs_tail s <> Some l) as Hnt
        by (rewrite Ht; apply lastp_ne; [done|by rewrite E2]).
      rewrite bool_decide_false by done.
      destruct (relink_prev (Procs h1 (procs_head s) (procs_tail s)) ls1 ls2 l _ _ _ Hp1 Hp2 Hl1 Hnd)
        as (h2 & Hs2 & Hq1 & Hq2 & _).
      rewrite Hs2. eexists. split; [done|]. split; [by apply linked_app|]. split; [done|]. split; [done|].
      cbn [procs_tail]. rewrite Ht, lastp_app, E2, !lastp_cons. done.
Qed.

Lemma linked_lookup h pv ls1 l d ls2 nx :
  linked h pv (ls1 ++ (l, d) :: ls2) nx -> h !! l = Some (ProcInfo (headp ls2 nx) (lastp pv ls1) d).
Proof. rewrite linked_app. by intros (_ & H & _). Qed.

Lemma linked_dom h pv ls nx l : linked h pv ls nx -> l ∈ ls.*1 -> l ∈ dom h.
Proof.
  revert pv. induction ls as [|[x d] ls IH]; intros pv H Hin; [by apply elem_of_nil in Hin|].
  destruct H as [Hx H]. rewrite fmap_cons, elem_of_cons in Hin. destruct Hin as [->|Hin]; [|by apply (IH (Some x))].
  by apply elem_of_dom_2 in Hx.
Qed.

(** there is fuel enough for a walk *)
Lemma repr_size s ls : repr s ls -> (length ls <= size (heap s))%nat.
Proof.
  intros (H & Hnd & _). rewrite <- size_dom, <- (length_fmap fst), <- (size_list_to_set (C := gset positive)) by done.
  apply subseteq_size. intros l Hl%elem_of_list_to_set. by eapply linked_dom.
Qed.

Lemma remove_walk_repr f fuel s pre rest :
  repr s (pre ++ rest) -> (length rest <= fuel)%nat ->
  exists s', remove_walk fuel f (headp rest None) s = Some s' /\
    repr s' (pre ++ List.filter (fun x => negb (f x.2)) rest).
Proof.
  revert fuel s pre. induction rest as [|[l d] rest IH]; intros fuel s pre Hr Hf.
  - exists s. by destruct fuel.
  - destruct fuel as [|fuel]; [simpl in Hf; lia|]. cbn [headp remove_walk]. unfold node_at.
    rewrite (linked_lookup _ None pre l d rest None) by apply Hr. cbn [mbind option_bind data next].
    cbn [List.filter snd]. destruct (f d); cbn [negb].
    + destruct (remove_proc_repr s pre l d rest Hr) as (s' & -> & Hr'). cbn. apply IH; [done|simpl in Hf; lia].
    + cbn [mbind option_bind]. destruct (IH fuel s (pre ++ [(l, d)])) as (s' & -> & Hr').
      { by rewrite <- app_assoc. } { simpl in Hf. lia. }
      exists s'. split; [done|]. by rewrite <- app_assoc in Hr'.
Qed.

Lemma remove_if_repr f s ls :
  repr s ls ->
  exists s', remove_if f s = Some s' /\ repr s' (List.filter (fun x => negb (f x.2)) ls).
Proof.
  intros Hr. unfold remove_if. assert (procs_head s = headp ls None) as -> by apply Hr.
  apply (remove_walk_repr f _ s [] ls); [done|]. by apply repr_size.
Qed.

(** a loop over the list updates its elements in order *)
Fixpoint map_acc {A} (f : pdata -> A -> pdata * A) (a : A) (ls : list (positive * pdata)) :
    list (positive * pdata) * A :=
  match ls with
  | [] => ([], a)
  | (l, d) :: ls =>
      let '(d, a) := f d a in let '(ls, a) := map_acc f a ls in ((l, d) :: ls, a)
  end.

Lemma map_acc_locs {A} (f : pdata -> A -> pdata * A) a ls : (map_acc f a ls).1.*1 = ls.*1.
Proof.
  revert a. induction ls as [|[l d] ls IH]; intros a; [done|]. cbn [map_acc].
  destruct (f d a) as [d' a']. specialize (IH a'). destruct (map_acc f a' ls). cbn in *. by rewrite IH.
Qed.

Lemma map_acc_headp {A} (f : pdata -> A -> pdata * A) a ls nx : headp (map_acc f a ls).1 nx = headp ls nx.
Proof.
  destruct ls as [|[l d] ls]; [done|]. cbn [map_acc]. destruct (f d a) as [d' a'].
  by destruct (map_acc f a' ls).
Qed.

Lemma for_procs_repr {A} (f : pdata -> A -> pdata * A) fuel s a pre rest :
  repr s (pre ++ rest) -> (length rest <= fuel)%nat ->
  exists s', for_procs fuel f (headp rest None) a s = Some ((map_acc f a rest).2, s') /\
    repr s' (pre ++ (map_acc f a rest).1).
Proof.
  revert fuel s a pre. induction rest as [|[l d] rest IH]; intros fuel s a pre Hr Hf.
  - exists s. by destruct fuel.
  - destruct fuel as [|fuel]; [simpl in Hf; lia|]. cbn [headp for_procs]. unfold node_at.
    rewrite (linked_lookup _ None pre l d rest None) by apply Hr. cbn [mbind option_bind data next prev].
    cbn [map_acc]. destruct (f d a) as [d' a'].
    destruct (IH fuel (set_node l (ProcInfo (headp rest None) (lastp None pre) d') s) a' (pre ++ [(l, d')]))
      as (s' & -> & Hr'); [|simpl in Hf; lia|].
    + destruct Hr as (H & Hnd & Hh & Ht). rewrite <- app_assoc. cbn [app].
      rewrite fmap_app, fmap_cons in Hnd. cbn [fst] in Hnd.
      destruct (NoDup_middle _ _ _ Hnd) as (_ & _ & _ & Hx1 & Hx2 & _).
      apply linked_app in H as (H1 & Hl & H2). split; [|split; [|split]].
      * apply linked_app. split; [by apply linked_insert|]. split; [apply lookup_insert_eq|by apply linked_insert].
      * by rewrite fmap_app, fmap_cons.
      * cbn. rewrite Hh, !headp_app. done.
      * cbn. rewrite Ht, !lastp_app, !lastp_cons. done.
    + destruct (map_acc f a' rest) as [ls' a'']. cbn in *. exists s'. split; [done|].
      by rewrite <- app_assoc in Hr'.
Qed.

Lemma each_proc_repr {A} (f : pdata -> A -> pdata * A) a s ls :
  repr s ls ->
  exists s', each_proc f a s = Some ((map_acc f a ls).2, s') /\ repr s' (map_acc f a ls).1.
Proof.
  intros Hr. unfold each_proc. assert (procs_head s = headp ls None) as -> by apply Hr.
  apply (for_procs_repr f _ s a [] ls); [done|]. by apply repr_size.
Qed.

(** a new node goes to the end; [l] is not in use *)
Lemma find_proc_info_repr s ls l st :
  repr s ls -> heap s !! l = None ->
  exists s', find_proc_info (Some l) st s = Returns (l, s') /\
    repr s' (ls ++ [(l, PData st [] [] 0 0 0)]).
Proof.
  intros Hr Hl. assert (l ∉ ls.*1) as Hnl.
  { intros Hin. apply not_elem_of_dom in Hl. apply Hl. by eapply linked_dom; [apply Hr|]. }
  destruct Hr as (H & Hnd & Hh & Ht). unfold find_proc_info. rewrite Ht.
  assert (NoDup (ls ++ [(l, PData st [] [] 0 0 0)]).*1) as Hnd'.
  { rewrite fmap_app. apply NoDup_app. split; [done|]. split; [|apply NoDup_singleton].
    intros x Hx Hin. apply list_elem_of_singleton in Hin. simpl in Hin. by subst x. }
  destruct (lastp None ls) as [tl|] eqn:El.
  - destruct (set_next_last (set_node l (ProcInfo None (Some tl) (PData st [] [] 0 0 0)) s) ls None (Some l))
      as (h' & Hs & Hls & Hf); [by apply linked_insert|done|].
    rewrite El in Hs. rewrite Hs. eexists. split; [done|]. split; [|split; [done|split]].
    + apply linked_snoc. split; [done|]. rewrite El. cbn [heap]. rewrite Hf by done. apply lookup_insert_eq.
    + cbn. rewrite Hh. destruct ls as [|[x d] ls]; done.
    + unfold lastp. by rewrite last_snoc.
  - destruct ls as [|[x d] ls]; [|rewrite lastp_cons in El; unfold lastp in El; by destruct (last ls) as [[? ?]|]].
    eexists. split; [done|]. split; [|done]. cbn. by rewrite lookup_insert_eq.
Qed.

Lemma nth_walk_repr n s pre rest :
  repr s (pre ++ rest) -> nth_walk n (headp rest None) s = Some (headp (drop n rest) None).
Proof.
  revert pre rest. induction n as [|n IH]; intros pre rest Hr; [by destruct rest as [|[? ?]]|].
  destruct rest as [|[l d] rest]; [done|]. cbn [headp nth_walk]. unfold node_at.
  rewrite (linked_lookup _ None pre l d rest None) by apply Hr. cbn [mbind option_bind next drop].
  apply (IH (pre ++ [(l, d)])). by rewrite <- app_assoc.
Qed.

Lemma get_nth_proc_repr n s ls :
  repr s ls -> get_nth_proc n s = Some (fst <$> ls !! Z.to_nat n).
Proof.
  intros Hr. unfold get_nth_proc. assert (procs_head s = headp ls None) as -> by apply Hr.
  rewrite (nth_walk_repr _ s [] ls) by done. f_equal.
  generalize (Z.to_nat n). clear. intros k. revert ls. induction k as [|k IH]; intros [|[l d] ls]; try done. apply IH.
Qed.

Lemma map_acc_id {A} (g : pdata -> A -> A) a ls : (map_acc (fun d a => (d, g d a)) a ls).1 = ls.
Proof.
  revert a. induction ls as [|[l d] ls IH]; intros a; [done|]. cbn [map_acc]. specialize (IH (g d a)).
  destruct (map_acc _ (g d a) ls). cbn in *. by rewrite IH.
Qed.

Lemma map_acc_fold {A} (g : pdata -> A -> A) a ls :
  (map_acc (fun d a => (d, g d a)) a ls).2 = foldl (fun a x => g x.2 a) a ls.
Proof.
  revert a. induction ls as [|[l d] ls IH]; intros a; [done|]. cbn [map_acc foldl snd]. rewrite <- IH.
  by destruct (map_acc _ (g d a) ls).
Qed.

(** the sum of the instances of a list of stressors *)
Definition total_procs (ls : list (positive * pdata)) : Z := foldr (fun x n => num_procs x.2 + n) 0 ls.

Lemma fold_u32 (g : pdata -> Z) n (ls : list (positive * pdata)) :
  foldl (fun a (x : positive * pdata) => u32 (a + g x.2)) (u32 n) ls =
    u32 (n + foldr (fun (x : positive * pdata) n => g x.2 + n) 0 ls).
Proof.
  revert n. induction ls as [|[l d] ls IH]; intros n; cbn [foldl foldr snd]; [by rewrite Z.add_0_r|].
  assert (u32 (u32 n + g d) = u32 (n + g d)) as -> by (unfold u32; by rewrite Zplus_mod_idemp_l).
  rewrite IH. f_equal. lia.
Qed.

Lemma get_num_procs_repr s ls : repr s ls -> get_num_procs s = Some (u32 (Z.of_nat (length ls))).
Proof.
  intros Hr. unfold get_num_procs.
  destruct (each_proc_repr (fun d n => (d, u32 (n + 1))) 0 s ls Hr) as (s' & -> & _). cbn.
  rewrite (map_acc_fold (fun _ n => u32 (n + 1))). f_equal. change 0 with (u32 0) at 1.
  rewrite (fold_u32 (fun _ => 1)). f_equal. clear. induction ls as [|x ls IH]; cbn in *; lia.
Qed.

Lemma get_total_num_procs_repr s ls : repr s ls -> get_total_num_procs s = Some (u32 (total_procs ls)).
Proof.
  intros Hr. unfold get_total_num_procs.
  destruct (each_proc_repr (fun d n => (d, u32 (n + num_procs d))) 0 s ls Hr) as (s' & -> & _). cbn.
  rewrite (map_acc_fold (fun d n => u32 (n + num_procs d))). f_equal. change 0 with (u32 0) at 1.
  by rewrite (fold_u32 num_procs).
Qed.

Lemma free_walk_linked fuel h pv ls :
  linked h pv ls None -> NoDup ls.*1 -> (length ls <= fuel)%nat ->
  exists h', free_walk fuel (headp ls None) h = Some h' /\
    (forall l, h' !! l = if bool_decide (l ∈ ls.*1) then None else h !! l).
Proof.
  revert fuel h pv. induction ls as [|[l d] ls IH]; intros fuel h pv H Hnd Hf.
  - exists h. split; [by destruct fuel|]. intros l. by rewrite bool_decide_false by apply not_elem_of_nil.
  - destruct fuel as [|fuel]; [simpl in Hf; lia|]. destruct H as [Hl H].
    rewrite fmap_cons in Hnd. apply NoDup_cons in Hnd as [Hnl Hnd]. cbn [fst] in Hnl.
    cbn [headp free_walk]. rewrite Hl. cbn [mbind option_bind next].
    destruct (IH fuel (delete l h) (Some l)) as (h' & -> & Hh'); [|done|simpl in Hf; lia|].
    { apply linked_frame with h; [done|]. intros x Hx. rewrite lookup_delete_ne; [done|]. by intros ->. }
    exists h'. split; [done|]. intros x. rewrite Hh', fmap_cons. cbn [fst].
    destruct (decide (x = l)) as [->|Hne].
    + rewrite (bool_decide_false _ Hnl), (bool_decide_true (l ∈ l :: ls.*1)) by left. by rewrite lookup_delete_eq.
    + rewrite lookup_delete_ne by done. destruct (bool_decide_reflect (x ∈ ls.*1)) as [Hx|Hx].
      * by rewrite bool_decide_true by by right.
      * rewrite bool_decide_false; [done|]. by intros [?|?]%elem_of_cons.
Qed.

(** (C12) The doubly linked list implements a list of stressors: a new stressor goes
    to its end, [remove_proc] takes exactly the given one out wherever it
    stands (head, tail, middle or alone), [get_nth_proc] and [get_num_procs]
    see its elements in order, and [free_procs] releases all of them.  No
    operation follows a dangling pointer. *)
Theorem procs_list_refines s ls :
  repr s ls ->
  (forall l st, heap s !! l = None -> exists s', find_proc_info (Some l) st s = Returns (l, s') /\
     repr s' (ls ++ [(l, PData st [] [] 0 0 0)])) /\
  (forall ls1 l d ls2, ls = ls1 ++ (l, d) :: ls2 ->
     exists s', remove_proc l s = Some s' /\ repr s' (ls1 ++ ls2)) /\
  (forall n, get_nth_proc n s = Some (fst <$> ls !! Z.to_nat n)) /\
  get_num_procs s = Some (u32 (Z.of_nat (length ls))) /\
  (exists s', free_procs s = Some s' /\ repr s' [] /\
     forall l, heap s' !! l = if bool_decide (l ∈ ls.*1) then None else heap s !! l).
Proof.
  intros Hr. split; [|split; [|split; [|split]]].
  - intros l st Hl. by apply find_proc_info_repr.
  - intros ls1 l d ls2 ->. by apply (remove_proc_repr s ls1 l d ls2).
  - intros n. by apply get_nth_proc_repr.
  - by apply get_num_procs_repr.
  - pose proof (repr_size s ls Hr) as Hsz. destruct Hr as (H & Hnd & Hh & _).
    unfold free_procs. rewrite Hh. destruct (free_walk_linked _ _ None ls H Hnd Hsz) as (h' & -> & Hl).
    eexists. split; [done|]. split; [|done]. repeat split. constructor.
Qed.

(** two stressors, one after the other *)
Definition demo_stress (id : Z) : stress := Stress (cs "demo") id 1 0 0.
Definition demo_procs : procs :=
  Procs {[ 1%positive := ProcInfo (Some 2%positive) None (PData (demo_stress 7) [] [] 0 3 100);
           2%positive := ProcInfo None (Some 1%positive) (PData (demo_stress 8) [] [] 0 2 100) ]}
    (Some 1%positive) (Some 2%positive).
Definition demo_list : list (positive * pdata) :=
  [(1%positive, PData (demo_stress 7) [] [] 0 3 100); (2%positive, PData (demo_stress 8) [] [] 0 2 100)].

Lemma demo_procs_repr : repr demo_procs demo_list.
Proof.
  split; [|split; [|done]].
  - split; [reflexivity|]. split; [reflexivity|done].
  - by apply (bool_decide_unpack _).
Qed.

Lemma procs_list_refines_witness :
  exists s', remove_proc 1 demo_procs = Some s' /\
    repr s' [(2%positive, PData (demo_stress 8) [] [] 0 2 100)].
Proof.
  destruct (procs_list_refines demo_procs demo_list demo_procs_repr) as (_ & Hrm & _).
  apply (Hrm [] 1%positive (PData (demo_stress 7) [] [] 0 3 100)). reflexivity.
Defined.
