(* ===== verification/Tables.v ===== *)
(** * The options and the stressors (stress-ng.h, stress-ng.c)

    The enumerations of stressors and of options, the table of long options and
    the table of stressors.  An enumerator is given by its name; its value is
    its place in the enumeration.  The options that depend on the build
    ([--pipe-size], [--vm-populate], [--vm-locked]) are in the table. *)

From S2P Require Import Prelude Flags Outcome Procs.

(** the place of a name *)
Fixpoint place (n : string) (names : list string) : option Z :=
  match names with
  | [] => None
  | m :: names => if String.eqb n m then Some 0 else (fun k => k + 1) <$> place n names
  end.

(** *** the stressors: [STRESS_START] is -1 *)

Definition stress_id_t_1 : list string :=
  ["AFFINITY"; "AF_ALG"; "AIO"; "AIO_LINUX"; "APPARMOR"; "ATOMIC"; "BRANCH"; "BRK"; "BSEARCH"; "BIGHEAP";
  "BIND_MOUNT"; "CACHE"; "CAP"; "CHDIR"; "CHMOD"; "CHOWN"; "CHROOT"; "CLOCK"; "CLONE"; "CONTEXT"; "COPY_FILE";
  "CPU"; "CPU_ONLINE"; "CRYPT"; "CYCLIC"; "DAEMON"; "DCCP"; "DENTRY"; "DEV"; "DIR"; "DIRDEEP"; "DNOTIFY"; "DUP";
  "EPOLL"; "EVENTFD"; "EXEC"; "FALLOCATE"; "FANOTIFY"; "FAULT"; "FCNTL"; "FIEMAP"; "FIFO"; "FILENAME"; "FLOCK";
  "FORK"; "FP_ERROR"; "FSTAT"; "FULL"; "FUNCCALL"; "FUTEX"; "GET"; "GETRANDOM"; "GETDENT"; "HANDLE"; "HDD";
  "HEAPSORT"; "HRTIMERS"; "HSEARCH"; "ICACHE"; "ICMP_FLOOD"; "INODE_FLAGS"; "INOTIFY"; "IOMIX"; "IOPORT"; "IOPRIO";
  "IOSYNC"; "ITIMER"; "KCMP"; "KEY"; "KILL"; "KLOG"; "LEASE"; "LINK"; "LOCKBUS"; "LOCKA"; "LOCKF"; "LOCKOFD";
  "LONGJMP"; "LSEARCH"; "MADVISE"; "MALLOC"; "MATRIX"; "MEMBARRIER"; "MEMCPY"; "MEMFD"; "MEMRATE"; "MEMTHRASH";
  "MERGESORT"; "MINCORE"; "MKNOD"; "MLOCK"; "MMAP"; "MMAPADDR"; "MMAPFORK"; "MMAPMANY"; "MREMAP"; "MSG"; "MSYNC";
  "MQ"; "NETDEV"; "NETLINK_PROC"; "NICE"; "NOP"; "NULL"; "NUMA"; "OOM_PIPE"; "OPCODE"; "OPEN"; "PERSONALITY";
  "PHYSPAGE"; "PIPE"; "POLL"; "PROCFS"; "PTHREAD"; "PTRACE"; "PTY"; "QSORT"; "QUOTA"; "RADIXSORT"; "RAWDEV";
  "RDRAND"; "READAHEAD"; "REMAP_FILE_PAGES"; "RENAME"; "RESOURCES"; "RLIMIT"; "RMAP"; "RTC"; "SCHEDPOLICY"; "SCTP";
  "SEAL"; "SECCOMP"; "SEEK"; "SEMAPHORE_POSIX"; "SEMAPHORE_SYSV"; "SENDFILE"; "SGX"; "SGX_VM"; "SHM_POSIX";
  "SHM_SYSV"; "SIGFD"; "SIGFPE"; "SIGPENDING"; "SIGQUEUE"; "SIGSEGV"; "SIGSUSPEND"; "SLEEP"; "SOCKET"].

Definition stress_id_t_2 : list string :=
  ["SOCKET_DIAG"; "SOCKET_FD"; "SOCKET_PAIR"; "SOFTLOCKUP"; "SPAWN"; "SPLICE"; "STACK"; "STACKMMAP"; "STR"; "STREAM";
  "SWAP"; "SWITCH"; "SYMLINK"; "SYNC_FILE"; "SYSINFO"; "SYSFS"; "TEE"; "TIMER"; "TIMERFD"; "TLB_SHOOTDOWN"; "TMPFS";
  "TREE"; "TSC"; "TSEARCH"; "UDP"; "UDP_FLOOD"; "UNSHARE"; "URANDOM"; "USERFAULTFD"; "UTIME"; "VECMATH"; "VFORK";
  "VFORKMANY"; "VM"; "VM_RW"; "VM_SPLICE"; "WAIT"; "WCS"; "XATTR"; "YIELD"; "ZERO"; "ZLIB"; "ZOMBIE"].

Definition stress_id_t : list string := stress_id_t_1 ++ stress_id_t_2.

Definition STRESS (n : string) : Z := default (Z.of_nat (length stress_id_t)) (place n stress_id_t).

(** *** the options *)

Definition short_ops : list (string * ascii) :=
  [("QUERY", "?"%char); ("ALL", "a"%char); ("BACKOFF", "b"%char); ("BIGHEAP", "B"%char); ("CPU", "c"%char);
  ("CACHE", "C"%char); ("HDD", "d"%char); ("DENTRY", "D"%char); ("FORK", "f"%char); ("FALLOCATE", "F"%char);
  ("IOSYNC", "i"%char); ("JOB", "j"%char); ("HELP", "h"%char); ("KEEP_NAME", "k"%char); ("CPU_LOAD", "l"%char);
  ("VM", "m"%char); ("METRICS", "M"%char); ("DRY_RUN", "n"%char); ("RENAME", "R"%char); ("OPEN", "o"%char);
  ("PIPE", "p"%char); ("POLL", "P"%char); ("QUIET", "q"%char); ("RANDOM", "r"%char); ("SWITCH", "s"%char);
  ("SOCKET", "S"%char); ("TIMEOUT", "t"%char); ("TIMER", "T"%char); ("URANDOM", "u"%char); ("VERBOSE", "v"%char);
  ("VERSION", "V"%char); ("YIELD", "y"%char); ("YAML", "Y"%char); ("EXCLUDE", "x"%char)].

Definition long_ops_1 : list string :=
  ["ABORT"; "AFFINITY"; "AFFINITY_OPS"; "AFFINITY_RAND"; "AF_ALG"; "AF_ALG_OPS"; "AGGRESSIVE"; "AIO"; "AIO_OPS";
  "AIO_REQUESTS"; "AIO_LINUX"; "AIO_LINUX_OPS"; "AIO_LINUX_REQUESTS"; "APPARMOR"; "APPARMOR_OPS"; "ATOMIC";
  "ATOMIC_OPS"; "BRANCH"; "BRANCH_OPS"; "BRK"; "BRK_OPS"; "BRK_NOTOUCH"; "BSEARCH"; "BSEARCH_OPS"; "BSEARCH_SIZE";
  "BIGHEAP_OPS"; "BIGHEAP_GROWTH"; "BIND_MOUNT"; "BIND_MOUNT_OPS"; "CLASS"; "CACHE_OPS"; "CACHE_PREFETCH";
  "CACHE_FLUSH"; "CACHE_FENCE"; "CACHE_LEVEL"; "CACHE_WAYS"; "CACHE_NO_AFFINITY"; "CAP"; "CAP_OPS"; "CHDIR";
  "CHDIR_DIRS"; "CHDIR_OPS"; "CHMOD"; "CHMOD_OPS"; "CHOWN"; "CHOWN_OPS"; "CHROOT"; "CHROOT_OPS"; "CLOCK";
  "CLOCK_OPS"; "CLONE"; "CLONE_OPS"; "CLONE_MAX"; "CONTEXT"; "CONTEXT_OPS"; "COPY_FILE"; "COPY_FILE_OPS";
  "COPY_FILE_BYTES"; "CPU_OPS"; "CPU_METHOD"; "CPU_LOAD_SLICE"; "CPU_ONLINE"; "CPU_ONLINE_OPS"; "CPU_ONLINE_ALL";
  "CRYPT"; "CRYPT_OPS"; "CYCLIC"; "CYCLIC_OPS"; "CYCLIC_METHOD"; "CYCLIC_POLICY"; "CYCLIC_PRIO"; "CYCLIC_SLEEP";
  "CYCLIC_DIST"; "DAEMON"; "DAEMON_OPS"; "DCCP"; "DCCP_DOMAIN"; "DCCP_OPS"; "DCCP_OPTS"; "DCCP_PORT"; "DENTRY_OPS";
  "DENTRIES"; "DENTRY_ORDER"; "DEV"; "DEV_OPS"; "DIR"; "DIR_OPS"; "DIR_DIRS"; "DIRDEEP"; "DIRDEEP_OPS";
  "DIRDEEP_DIRS"; "DIRDEEP_INODES"; "DNOTIFY"; "DNOTIFY_OPS"; "DUP"; "DUP_OPS"; "EPOLL"; "EPOLL_OPS"; "EPOLL_PORT";
  "EPOLL_DOMAIN"; "EVENTFD"; "EVENTFD_OPS"; "EXEC"; "EXEC_OPS"; "EXEC_MAX"; "FALLOCATE_OPS"; "FALLOCATE_BYTES";
  "FANOTIFY"; "FANOTIFY_OPS"].

Definition long_ops_2 : list string :=
  ["FAULT"; "FAULT_OPS"; "FCNTL"; "FCNTL_OPS"; "FIEMAP"; "FIEMAP_OPS"; "FIEMAP_BYTES"; "FIFO"; "FIFO_OPS";
  "FIFO_READERS"; "FILENAME"; "FILENAME_OPS"; "FILENAME_OPTS"; "FLOCK"; "FLOCK_OPS"; "FORK_OPS"; "FORK_MAX";
  "FP_ERROR"; "FP_ERROR_OPS"; "FSTAT"; "FSTAT_OPS"; "FSTAT_DIR"; "FULL"; "FULL_OPS"; "FUNCCALL"; "FUNCCALL_OPS";
  "FUNCCALL_METHOD"; "FUTEX"; "FUTEX_OPS"; "GET"; "GET_OPS"; "GETRANDOM"; "GETRANDOM_OPS"; "GETDENT"; "GETDENT_OPS";
  "HANDLE"; "HANDLE_OPS"; "HDD_BYTES"; "HDD_WRITE_SIZE"; "HDD_OPS"; "HDD_OPTS"; "HEAPSORT"; "HEAPSORT_OPS";
  "HEAPSORT_INTEGERS"; "HRTIMERS"; "HRTIMERS_OPS"; "HSEARCH"; "HSEARCH_OPS"; "HSEARCH_SIZE"; "ICACHE"; "ICACHE_OPS";
  "ICMP_FLOOD"; "ICMP_FLOOD_OPS"; "IGNITE_CPU"; "INODE_FLAGS"; "INODE_FLAGS_OPS"; "INOTIFY"; "INOTIFY_OPS"; "IOMIX";
  "IOMIX_BYTES"; "IOMIX_OPS"; "IOPORT"; "IOPORT_OPS"; "IOPORT_OPTS"; "IONICE_CLASS"; "IONICE_LEVEL"; "IOPRIO";
  "IOPRIO_OPS"; "IOSYNC_OPS"; "ITIMER"; "ITIMER_OPS"; "ITIMER_FREQ"; "KCMP"; "KCMP_OPS"; "KEY"; "KEY_OPS"; "KILL";
  "KILL_OPS"; "KLOG"; "KLOG_OPS"; "LEASE"; "LEASE_OPS"; "LEASE_BREAKERS"; "LINK"; "LINK_OPS"; "LOCKBUS";
  "LOCKBUS_OPS"; "LOCKA"; "LOCKA_OPS"; "LOCKF"; "LOCKF_OPS"; "LOCKF_NONBLOCK"; "LOCKOFD"; "LOCKOFD_OPS";
  "LOG_BRIEF"; "LOG_FILE"; "LONGJMP"; "LONGJMP_OPS"; "LSEARCH"; "LSEARCH_OPS"; "LSEARCH_SIZE"; "MADVISE";
  "MADVISE_OPS"].

Definition long_ops_3 : list string :=
  ["MALLOC"; "MALLOC_OPS"; "MALLOC_BYTES"; "MALLOC_MAX"; "MALLOC_THRESHOLD"; "MATRIX"; "MATRIX_OPS"; "MATRIX_SIZE";
  "MATRIX_METHOD"; "MATRIX_YX"; "MAXIMIZE"; "MEMBARRIER"; "MEMBARRIER_OPS"; "MEMCPY"; "MEMCPY_OPS"; "MEMFD";
  "MEMFD_OPS"; "MEMFD_BYTES"; "MEMFD_FDS"; "MEMRATE"; "MEMRATE_OPS"; "MEMRATE_RD_MBS"; "MEMRATE_WR_MBS";
  "MEMRATE_BYTES"; "MEMTHRASH"; "MEMTHRASH_OPS"; "MEMTHRASH_METHOD"; "MERGESORT"; "MERGESORT_OPS";
  "MERGESORT_INTEGERS"; "METRICS_BRIEF"; "MINCORE"; "MINCORE_OPS"; "MINCORE_RAND"; "MKNOD"; "MKNOD_OPS"; "MINIMIZE";
  "MLOCK"; "MLOCK_OPS"; "MMAP"; "MMAP_OPS"; "MMAP_BYTES"; "MMAP_FILE"; "MMAP_ASYNC"; "MMAP_MPROTECT"; "MMAPADDR";
  "MMAPADDR_OPS"; "MMAPFORK"; "MMAPFORK_OPS"; "MMAPMANY"; "MMAPMANY_OPS"; "MREMAP"; "MREMAP_OPS"; "MREMAP_BYTES";
  "MSG"; "MSG_OPS"; "MSYNC"; "MSYNC_BYTES"; "MSYNC_OPS"; "MQ"; "MQ_OPS"; "MQ_SIZE"; "NETDEV"; "NETDEV_OPS";
  "NETLINK_PROC"; "NETLINK_PROC_OPS"; "NICE"; "NICE_OPS"; "NO_MADVISE"; "NO_RAND_SEED"; "NOP"; "NOP_OPS"; "NULL";
  "NULL_OPS"; "NUMA"; "NUMA_OPS"; "OOMABLE"; "PHYSPAGE"; "PHYSPAGE_OPS"; "OOM_PIPE"; "OOM_PIPE_OPS"; "OPCODE";
  "OPCODE_OPS"; "OPEN_OPS"; "PAGE_IN"; "PATHOLOGICAL"; "PERF_STATS"; "PERSONALITY"; "PERSONALITY_OPS"; "PIPE_OPS";
  "PIPE_SIZE"; "PIPE_DATA_SIZE"; "POLL_OPS"; "PROCFS"; "PROCFS_OPS"; "PTHREAD"; "PTHREAD_OPS"; "PTHREAD_MAX";
  "PTRACE"; "PTRACE_OPS"; "PTY"; "PTY_OPS"; "PTY_MAX"; "QSORT"; "QSORT_OPS"].

Definition long_ops_4 : list string :=
  ["QSORT_INTEGERS"; "QUOTA"; "QUOTA_OPS"; "RADIXSORT"; "RADIXSORT_OPS"; "RADIXSORT_SIZE"; "RAWDEV"; "RAWDEV_METHOD";
  "RAWDEV_OPS"; "RDRAND"; "RDRAND_OPS"; "READAHEAD"; "READAHEAD_OPS"; "READAHEAD_BYTES"; "REMAP_FILE_PAGES";
  "REMAP_FILE_PAGES_OPS"; "RENAME_OPS"; "RESOURCES"; "RESOURCES_OPS"; "RLIMIT"; "RLIMIT_OPS"; "RMAP"; "RMAP_OPS";
  "RTC"; "RTC_OPS"; "SCHED"; "SCHED_PRIO"; "SCHEDPOLICY"; "SCHEDPOLICY_OPS"; "SCTP"; "SCTP_OPS"; "SCTP_DOMAIN";
  "SCTP_PORT"; "SEAL"; "SEAL_OPS"; "SECCOMP"; "SECCOMP_OPS"; "SEEK"; "SEEK_OPS"; "SEEK_PUNCH"; "SEEK_SIZE";
  "SENDFILE"; "SENDFILE_OPS"; "SENDFILE_SIZE"; "SEMAPHORE_POSIX"; "SEMAPHORE_POSIX_OPS"; "SEMAPHORE_POSIX_PROCS";
  "SEMAPHORE_SYSV"; "SEMAPHORE_SYSV_OPS"; "SEMAPHORE_SYSV_PROCS"; "SGX"; "SGX_OPS"; "SGX_METHOD"; "SGX_VM";
  "SGX_VM_BYTES"; "SGX_VM_HANG"; "SGX_VM_KEEP"; "SGX_VM_OPS"; "SGX_VM_METHOD"; "SHM_POSIX"; "SHM_POSIX_OPS";
  "SHM_POSIX_BYTES"; "SHM_POSIX_OBJECTS"; "SHM_SYSV"; "SHM_SYSV_OPS"; "SHM_SYSV_BYTES"; "SHM_SYSV_SEGMENTS";
  "SEQUENTIAL"; "SIGFD"; "SIGFD_OPS"; "SIGFPE"; "SIGFPE_OPS"; "SIGPENDING"; "SIGPENDING_OPS"; "SIGQUEUE";
  "SIGQUEUE_OPS"; "SIGSEGV"; "SIGSEGV_OPS"; "SIGSUSPEND"; "SIGSUSPEND_OPS"; "SLEEP"; "SLEEP_OPS"; "SLEEP_MAX";
  "SOCKET_OPS"; "SOCKET_DOMAIN"; "SOCKET_NODELAY"; "SOCKET_OPTS"; "SOCKET_PORT"; "SOCKET_TYPE"; "SOCKET_DIAG";
  "SOCKET_DIAG_OPS"; "SOCKET_FD"; "SOCKET_FD_OPS"; "SOCKET_FD_PORT"; "SOCKET_PAIR"; "SOCKET_PAIR_OPS"; "SOFTLOCKUP";
  "SOFTLOCKUP_OPS"; "SWAP"; "SWAP_OPS"; "SWITCH_OPS"; "SPAWN"; "SPAWN_OPS"; "SPLICE"; "SPLICE_OPS"; "SPLICE_BYTES"].

Definition long_ops_5 : list string :=
  ["STACK"; "STACK_OPS"; "STACK_FILL"; "STACKMMAP"; "STACKMMAP_OPS"; "STR"; "STR_OPS"; "STR_METHOD"; "STREAM";
  "STREAM_OPS"; "STREAM_L3_SIZE"; "STREAM_MADVISE"; "STRESSORS"; "SYMLINK"; "SYMLINK_OPS"; "SYNC_FILE";
  "SYNC_FILE_OPS"; "SYNC_FILE_BYTES"; "SYSINFO"; "SYSINFO_OPS"; "SYSFS"; "SYSFS_OPS"; "SYSLOG"; "TEE"; "TEE_OPS";
  "TASKSET"; "TEMP_PATH"; "THERMAL_ZONES"; "THRASH"; "TIMER_SLACK"; "TIMER_OPS"; "TIMER_FREQ"; "TIMER_RAND";
  "TIMERFD"; "TIMERFD_OPS"; "TIMERFD_FREQ"; "TIMERFD_RAND"; "TIMES"; "TLB_SHOOTDOWN"; "TLB_SHOOTDOWN_OPS"; "TMPFS";
  "TMPFS_OPS"; "TREE"; "TREE_OPS"; "TREE_METHOD"; "TREE_SIZE"; "TSC"; "TSC_OPS"; "TSEARCH"; "TSEARCH_OPS";
  "TSEARCH_SIZE"; "UDP"; "UDP_OPS"; "UDP_PORT"; "UDP_DOMAIN"; "UDP_LITE"; "UDP_FLOOD"; "UDP_FLOOD_OPS";
  "UDP_FLOOD_DOMAIN"; "UNSHARE"; "UNSHARE_OPS"; "URANDOM_OPS"; "USERFAULTFD"; "USERFAULTFD_OPS";
  "USERFAULTFD_BYTES"; "UTIME"; "UTIME_OPS"; "UTIME_FSYNC"; "VECMATH"; "VECMATH_OPS"; "VERIFY"; "VFORK";
  "VFORK_OPS"; "VFORK_MAX"; "VFORKMANY"; "VFORKMANY_OPS"; "VM_BYTES"; "VM_HANG"; "VM_KEEP"; "VM_MMAP_POPULATE";
  "VM_MMAP_LOCKED"; "VM_OPS"; "VM_MADVISE"; "VM_METHOD"; "VM_RW"; "VM_RW_OPS"; "VM_RW_BYTES"; "VM_SPLICE";
  "VM_SPLICE_OPS"; "VM_SPLICE_BYTES"; "WAIT"; "WAIT_OPS"; "WCS"; "WCS_OPS"; "WCS_METHOD"; "XATTR"; "XATTR_OPS";
  "YIELD_OPS"; "ZERO"; "ZERO_OPS"; "ZLIB"; "ZLIB_OPS"; "ZLIB_METHOD"; "ZOMBIE"; "ZOMBIE_OPS"].

Definition long_ops_6 : list string :=
  ["ZOMBIE_MAX"].

Definition long_ops : list string := long_ops_1 ++ long_ops_2 ++ long_ops_3 ++ long_ops_4 ++ long_ops_5 ++ long_ops_6.

Definition OPT_LONG_OPS_START : Z := 0x7f.

(** the value of an option *)
Definition OPT (n : string) : Z :=
  match list_find (fun p => p.1 = n) short_ops with
  | Some (_, (_, c)) => code c
  | None => OPT_LONG_OPS_START + 1 + default (Z.of_nat (length long_ops)) (place n long_ops)
  end.

(** the options the parser names *)
Definition OPT_ABORT : Z := Eval vm_compute in OPT "ABORT".
Definition OPT_AIO_REQUESTS : Z := Eval vm_compute in OPT "AIO_REQUESTS".
Definition OPT_AIO_LINUX_REQUESTS : Z := Eval vm_compute in OPT "AIO_LINUX_REQUESTS".
Definition OPT_ALL : Z := Eval vm_compute in OPT "ALL".
Definition OPT_AFFINITY_RAND : Z := Eval vm_compute in OPT "AFFINITY_RAND".
Definition OPT_AGGRESSIVE : Z := Eval vm_compute in OPT "AGGRESSIVE".
Definition OPT_BACKOFF : Z := Eval vm_compute in OPT "BACKOFF".
Definition OPT_BIGHEAP_GROWTH : Z := Eval vm_compute in OPT "BIGHEAP_GROWTH".
Definition OPT_BRK_NOTOUCH : Z := Eval vm_compute in OPT "BRK_NOTOUCH".
Definition OPT_BSEARCH_SIZE : Z := Eval vm_compute in OPT "BSEARCH_SIZE".
Definition OPT_CACHE_PREFETCH : Z := Eval vm_compute in OPT "CACHE_PREFETCH".
Definition OPT_CACHE_FLUSH : Z := Eval vm_compute in OPT "CACHE_FLUSH".
Definition OPT_CACHE_FENCE : Z := Eval vm_compute in OPT "CACHE_FENCE".
Definition OPT_CACHE_LEVEL : Z := Eval vm_compute in OPT "CACHE_LEVEL".
Definition OPT_CACHE_NO_AFFINITY : Z := Eval vm_compute in OPT "CACHE_NO_AFFINITY".
Definition OPT_CACHE_WAYS : Z := Eval vm_compute in OPT "CACHE_WAYS".
Definition OPT_CHDIR_DIRS : Z := Eval vm_compute in OPT "CHDIR_DIRS".
Definition OPT_CLASS : Z := Eval vm_compute in OPT "CLASS".
Definition OPT_CLONE_MAX : Z := Eval vm_compute in OPT "CLONE_MAX".
Definition OPT_COPY_FILE_BYTES : Z := Eval vm_compute in OPT "COPY_FILE_BYTES".
Definition OPT_CPU_LOAD : Z := Eval vm_compute in OPT "CPU_LOAD".
Definition OPT_CPU_LOAD_SLICE : Z := Eval vm_compute in OPT "CPU_LOAD_SLICE".
Definition OPT_CPU_ONLINE_ALL : Z := Eval vm_compute in OPT "CPU_ONLINE_ALL".
Definition OPT_CPU_METHOD : Z := Eval vm_compute in OPT "CPU_METHOD".
Definition OPT_CYCLIC_DIST : Z := Eval vm_compute in OPT "CYCLIC_DIST".
Definition OPT_CYCLIC_METHOD : Z := Eval vm_compute in OPT "CYCLIC_METHOD".
Definition OPT_CYCLIC_POLICY : Z := Eval vm_compute in OPT "CYCLIC_POLICY".
Definition OPT_CYCLIC_PRIO : Z := Eval vm_compute in OPT "CYCLIC_PRIO".
Definition OPT_CYCLIC_SLEEP : Z := Eval vm_compute in OPT "CYCLIC_SLEEP".
Definition OPT_DRY_RUN : Z := Eval vm_compute in OPT "DRY_RUN".
Definition OPT_DCCP_DOMAIN : Z := Eval vm_compute in OPT "DCCP_DOMAIN".
Definition OPT_DCCP_OPTS : Z := Eval vm_compute in OPT "DCCP_OPTS".
Definition OPT_DCCP_PORT : Z := Eval vm_compute in OPT "DCCP_PORT".
Definition OPT_DENTRIES : Z := Eval vm_compute in OPT "DENTRIES".
Definition OPT_DENTRY_ORDER : Z := Eval vm_compute in OPT "DENTRY_ORDER".
Definition OPT_DIR_DIRS : Z := Eval vm_compute in OPT "DIR_DIRS".
Definition OPT_DIRDEEP_DIRS : Z := Eval vm_compute in OPT "DIRDEEP_DIRS".
Definition OPT_DIRDEEP_INODES : Z := Eval vm_compute in OPT "DIRDEEP_INODES".
Definition OPT_EPOLL_DOMAIN : Z := Eval vm_compute in OPT "EPOLL_DOMAIN".
Definition OPT_EPOLL_PORT : Z := Eval vm_compute in OPT "EPOLL_PORT".
Definition OPT_EXCLUDE : Z := Eval vm_compute in OPT "EXCLUDE".
Definition OPT_EXEC_MAX : Z := Eval vm_compute in OPT "EXEC_MAX".
Definition OPT_FALLOCATE_BYTES : Z := Eval vm_compute in OPT "FALLOCATE_BYTES".
Definition OPT_FIEMAP_BYTES : Z := Eval vm_compute in OPT "FIEMAP_BYTES".
Definition OPT_FIFO_READERS : Z := Eval vm_compute in OPT "FIFO_READERS".
Definition OPT_FILENAME_OPTS : Z := Eval vm_compute in OPT "FILENAME_OPTS".
Definition OPT_FORK_MAX : Z := Eval vm_compute in OPT "FORK_MAX".
Definition OPT_FSTAT_DIR : Z := Eval vm_compute in OPT "FSTAT_DIR".
Definition OPT_FUNCCALL_METHOD : Z := Eval vm_compute in OPT "FUNCCALL_METHOD".
Definition OPT_HELP : Z := Eval vm_compute in OPT "HELP".
Definition OPT_HDD_BYTES : Z := Eval vm_compute in OPT "HDD_BYTES".
Definition OPT_HDD_OPTS : Z := Eval vm_compute in OPT "HDD_OPTS".
Definition OPT_HDD_WRITE_SIZE : Z := Eval vm_compute in OPT "HDD_WRITE_SIZE".
Definition OPT_HEAPSORT_INTEGERS : Z := Eval vm_compute in OPT "HEAPSORT_INTEGERS".
Definition OPT_HSEARCH_SIZE : Z := Eval vm_compute in OPT "HSEARCH_SIZE".
Definition OPT_IGNITE_CPU : Z := Eval vm_compute in OPT "IGNITE_CPU".
Definition OPT_IOMIX_BYTES : Z := Eval vm_compute in OPT "IOMIX_BYTES".
Definition OPT_IONICE_CLASS : Z := Eval vm_compute in OPT "IONICE_CLASS".
Definition OPT_IONICE_LEVEL : Z := Eval vm_compute in OPT "IONICE_LEVEL".
Definition OPT_IOPORT_OPTS : Z := Eval vm_compute in OPT "IOPORT_OPTS".
Definition OPT_ITIMER_FREQ : Z := Eval vm_compute in OPT "ITIMER_FREQ".
Definition OPT_JOB : Z := Eval vm_compute in OPT "JOB".
Definition OPT_KEEP_NAME : Z := Eval vm_compute in OPT "KEEP_NAME".
Definition OPT_LEASE_BREAKERS : Z := Eval vm_compute in OPT "LEASE_BREAKERS".
Definition OPT_LOCKF_NONBLOCK : Z := Eval vm_compute in OPT "LOCKF_NONBLOCK".
Definition OPT_LOG_BRIEF : Z := Eval vm_compute in OPT "LOG_BRIEF".
Definition OPT_LOG_FILE : Z := Eval vm_compute in OPT "LOG_FILE".
Definition OPT_LSEARCH_SIZE : Z := Eval vm_compute in OPT "LSEARCH_SIZE".
Definition OPT_MALLOC_BYTES : Z := Eval vm_compute in OPT "MALLOC_BYTES".
Definition OPT_MALLOC_MAX : Z := Eval vm_compute in OPT "MALLOC_MAX".
Definition OPT_MALLOC_THRESHOLD : Z := Eval vm_compute in OPT "MALLOC_THRESHOLD".
Definition OPT_MATRIX_METHOD : Z := Eval vm_compute in OPT "MATRIX_METHOD".
Definition OPT_MATRIX_YX : Z := Eval vm_compute in OPT "MATRIX_YX".
Definition OPT_MATRIX_SIZE : Z := Eval vm_compute in OPT "MATRIX_SIZE".
Definition OPT_MAXIMIZE : Z := Eval vm_compute in OPT "MAXIMIZE".
Definition OPT_MEMFD_BYTES : Z := Eval vm_compute in OPT "MEMFD_BYTES".
Definition OPT_MEMFD_FDS : Z := Eval vm_compute in OPT "MEMFD_FDS".
Definition OPT_MEMRATE_BYTES : Z := Eval vm_compute in OPT "MEMRATE_BYTES".
Definition OPT_MEMRATE_RD_MBS : Z := Eval vm_compute in OPT "MEMRATE_RD_MBS".
Definition OPT_MEMRATE_WR_MBS : Z := Eval vm_compute in OPT "MEMRATE_WR_MBS".
Definition OPT_MEMTHRASH_METHOD : Z := Eval vm_compute in OPT "MEMTHRASH_METHOD".
Definition OPT_METRICS : Z := Eval vm_compute in OPT "METRICS".
Definition OPT_METRICS_BRIEF : Z := Eval vm_compute in OPT "METRICS_BRIEF".
Definition OPT_MERGESORT_INTEGERS : Z := Eval vm_compute in OPT "MERGESORT_INTEGERS".
Definition OPT_MINCORE_RAND : Z := Eval vm_compute in OPT "MINCORE_RAND".
Definition OPT_MINIMIZE : Z := Eval vm_compute in OPT "MINIMIZE".
Definition OPT_MMAP_ASYNC : Z := Eval vm_compute in OPT "MMAP_ASYNC".
Definition OPT_MMAP_BYTES : Z := Eval vm_compute in OPT "MMAP_BYTES".
Definition OPT_MMAP_FILE : Z := Eval vm_compute in OPT "MMAP_FILE".
Definition OPT_MMAP_MPROTECT : Z := Eval vm_compute in OPT "MMAP_MPROTECT".
Definition OPT_MREMAP_BYTES : Z := Eval vm_compute in OPT "MREMAP_BYTES".
Definition OPT_MSYNC_BYTES : Z := Eval vm_compute in OPT "MSYNC_BYTES".
Definition OPT_MQ_SIZE : Z := Eval vm_compute in OPT "MQ_SIZE".
Definition OPT_NO_MADVISE : Z := Eval vm_compute in OPT "NO_MADVISE".
Definition OPT_NO_RAND_SEED : Z := Eval vm_compute in OPT "NO_RAND_SEED".
Definition OPT_OOMABLE : Z := Eval vm_compute in OPT "OOMABLE".
Definition OPT_PAGE_IN : Z := Eval vm_compute in OPT "PAGE_IN".
Definition OPT_PATHOLOGICAL : Z := Eval vm_compute in OPT "PATHOLOGICAL".
Definition OPT_PERF_STATS : Z := Eval vm_compute in OPT "PERF_STATS".
Definition OPT_PIPE_DATA_SIZE : Z := Eval vm_compute in OPT "PIPE_DATA_SIZE".
Definition OPT_PIPE_SIZE : Z := Eval vm_compute in OPT "PIPE_SIZE".
Definition OPT_PTHREAD_MAX : Z := Eval vm_compute in OPT "PTHREAD_MAX".
Definition OPT_PTY_MAX : Z := Eval vm_compute in OPT "PTY_MAX".
Definition OPT_QSORT_INTEGERS : Z := Eval vm_compute in OPT "QSORT_INTEGERS".
Definition OPT_QUERY : Z := Eval vm_compute in OPT "QUERY".
Definition OPT_QUIET : Z := Eval vm_compute in OPT "QUIET".
Definition OPT_RADIXSORT_SIZE : Z := Eval vm_compute in OPT "RADIXSORT_SIZE".
Definition OPT_RANDOM : Z := Eval vm_compute in OPT "RANDOM".
Definition OPT_RAWDEV_METHOD : Z := Eval vm_compute in OPT "RAWDEV_METHOD".
Definition OPT_READAHEAD_BYTES : Z := Eval vm_compute in OPT "READAHEAD_BYTES".
Definition OPT_SCHED : Z := Eval vm_compute in OPT "SCHED".
Definition OPT_SCHED_PRIO : Z := Eval vm_compute in OPT "SCHED_PRIO".
Definition OPT_SCTP_PORT : Z := Eval vm_compute in OPT "SCTP_PORT".
Definition OPT_SCTP_DOMAIN : Z := Eval vm_compute in OPT "SCTP_DOMAIN".
Definition OPT_SEEK_PUNCH : Z := Eval vm_compute in OPT "SEEK_PUNCH".
Definition OPT_SEEK_SIZE : Z := Eval vm_compute in OPT "SEEK_SIZE".
Definition OPT_SEMAPHORE_POSIX_PROCS : Z := Eval vm_compute in OPT "SEMAPHORE_POSIX_PROCS".
Definition OPT_SEMAPHORE_SYSV_PROCS : Z := Eval vm_compute in OPT "SEMAPHORE_SYSV_PROCS".
Definition OPT_SENDFILE_SIZE : Z := Eval vm_compute in OPT "SENDFILE_SIZE".
Definition OPT_SEQUENTIAL : Z := Eval vm_compute in OPT "SEQUENTIAL".
Definition OPT_SGX_METHOD : Z := Eval vm_compute in OPT "SGX_METHOD".
Definition OPT_SGX_VM_BYTES : Z := Eval vm_compute in OPT "SGX_VM_BYTES".
Definition OPT_SGX_VM_HANG : Z := Eval vm_compute in OPT "SGX_VM_HANG".
Definition OPT_SGX_VM_KEEP : Z := Eval vm_compute in OPT "SGX_VM_KEEP".
Definition OPT_SGX_VM_METHOD : Z := Eval vm_compute in OPT "SGX_VM_METHOD".
Definition OPT_SHM_POSIX_BYTES : Z := Eval vm_compute in OPT "SHM_POSIX_BYTES".
Definition OPT_SHM_POSIX_OBJECTS : Z := Eval vm_compute in OPT "SHM_POSIX_OBJECTS".
Definition OPT_SHM_SYSV_BYTES : Z := Eval vm_compute in OPT "SHM_SYSV_BYTES".
Definition OPT_SHM_SYSV_SEGMENTS : Z := Eval vm_compute in OPT "SHM_SYSV_SEGMENTS".
Definition OPT_SLEEP_MAX : Z := Eval vm_compute in OPT "SLEEP_MAX".
Definition OPT_SOCKET_DOMAIN : Z := Eval vm_compute in OPT "SOCKET_DOMAIN".
Definition OPT_SOCKET_NODELAY : Z := Eval vm_compute in OPT "SOCKET_NODELAY".
Definition OPT_SOCKET_OPTS : Z := Eval vm_compute in OPT "SOCKET_OPTS".
Definition OPT_SOCKET_PORT : Z := Eval vm_compute in OPT "SOCKET_PORT".
Definition OPT_SOCKET_TYPE : Z := Eval vm_compute in OPT "SOCKET_TYPE".
Definition OPT_SOCKET_FD_PORT : Z := Eval vm_compute in OPT "SOCKET_FD_PORT".
Definition OPT_SPLICE_BYTES : Z := Eval vm_compute in OPT "SPLICE_BYTES".
Definition OPT_STACK_FILL : Z := Eval vm_compute in OPT "STACK_FILL".
Definition OPT_STR_METHOD : Z := Eval vm_compute in OPT "STR_METHOD".
Definition OPT_STREAM_L3_SIZE : Z := Eval vm_compute in OPT "STREAM_L3_SIZE".
Definition OPT_STREAM_MADVISE : Z := Eval vm_compute in OPT "STREAM_MADVISE".
Definition OPT_STRESSORS : Z := Eval vm_compute in OPT "STRESSORS".
Definition OPT_SYNC_FILE_BYTES : Z := Eval vm_compute in OPT "SYNC_FILE_BYTES".
Definition OPT_SYSLOG : Z := Eval vm_compute in OPT "SYSLOG".
Definition OPT_TASKSET : Z := Eval vm_compute in OPT "TASKSET".
Definition OPT_THRASH : Z := Eval vm_compute in OPT "THRASH".
Definition OPT_TEMP_PATH : Z := Eval vm_compute in OPT "TEMP_PATH".
Definition OPT_TIMEOUT : Z := Eval vm_compute in OPT "TIMEOUT".
Definition OPT_TIMER_FREQ : Z := Eval vm_compute in OPT "TIMER_FREQ".
Definition OPT_TIMER_RAND : Z := Eval vm_compute in OPT "TIMER_RAND".
Definition OPT_TIMERFD_FREQ : Z := Eval vm_compute in OPT "TIMERFD_FREQ".
Definition OPT_TIMERFD_RAND : Z := Eval vm_compute in OPT "TIMERFD_RAND".
Definition OPT_TIMER_SLACK : Z := Eval vm_compute in OPT "TIMER_SLACK".
Definition OPT_TIMES : Z := Eval vm_compute in OPT "TIMES".
Definition OPT_TREE_METHOD : Z := Eval vm_compute in OPT "TREE_METHOD".
Definition OPT_TREE_SIZE : Z := Eval vm_compute in OPT "TREE_SIZE".
Definition OPT_TSEARCH_SIZE : Z := Eval vm_compute in OPT "TSEARCH_SIZE".
Definition OPT_THERMAL_ZONES : Z := Eval vm_compute in OPT "THERMAL_ZONES".
Definition OPT_UDP_DOMAIN : Z := Eval vm_compute in OPT "UDP_DOMAIN".
Definition OPT_UDP_PORT : Z := Eval vm_compute in OPT "UDP_PORT".
Definition OPT_UDP_LITE : Z := Eval vm_compute in OPT "UDP_LITE".
Definition OPT_UDP_FLOOD_DOMAIN : Z := Eval vm_compute in OPT "UDP_FLOOD_DOMAIN".
Definition OPT_USERFAULTFD_BYTES : Z := Eval vm_compute in OPT "USERFAULTFD_BYTES".
Definition OPT_UTIME_FSYNC : Z := Eval vm_compute in OPT "UTIME_FSYNC".
Definition OPT_VERBOSE : Z := Eval vm_compute in OPT "VERBOSE".
Definition OPT_VFORK_MAX : Z := Eval vm_compute in OPT "VFORK_MAX".
Definition OPT_VERIFY : Z := Eval vm_compute in OPT "VERIFY".
Definition OPT_VERSION : Z := Eval vm_compute in OPT "VERSION".
Definition OPT_VM_BYTES : Z := Eval vm_compute in OPT "VM_BYTES".
Definition OPT_VM_HANG : Z := Eval vm_compute in OPT "VM_HANG".
Definition OPT_VM_KEEP : Z := Eval vm_compute in OPT "VM_KEEP".
Definition OPT_VM_MADVISE : Z := Eval vm_compute in OPT "VM_MADVISE".
Definition OPT_VM_METHOD : Z := Eval vm_compute in OPT "VM_METHOD".
Definition OPT_VM_MMAP_LOCKED : Z := Eval vm_compute in OPT "VM_MMAP_LOCKED".
Definition OPT_VM_MMAP_POPULATE : Z := Eval vm_compute in OPT "VM_MMAP_POPULATE".
Definition OPT_VM_RW_BYTES : Z := Eval vm_compute in OPT "VM_RW_BYTES".
Definition OPT_VM_SPLICE_BYTES : Z := Eval vm_compute in OPT "VM_SPLICE_BYTES".
Definition OPT_WCS_METHOD : Z := Eval vm_compute in OPT "WCS_METHOD".
Definition OPT_YAML : Z := Eval vm_compute in OPT "YAML".
Definition OPT_ZLIB_METHOD : Z := Eval vm_compute in OPT "ZLIB_METHOD".
Definition OPT_ZOMBIE_MAX : Z := Eval vm_compute in OPT "ZOMBIE_MAX".

(** *** the names of the options: name, whether there is an argument, value *)

Definition long_options_1 : list (string * bool * string) :=
  [("abort", false, "ABORT"); ("af-alg", true, "AF_ALG"); ("af-alg-ops", true, "AF_ALG_OPS");
  ("affinity", true, "AFFINITY"); ("affinity-ops", true, "AFFINITY_OPS"); ("affinity-rand", false, "AFFINITY_RAND");
  ("aggressive", false, "AGGRESSIVE"); ("aio", true, "AIO"); ("aio-ops", true, "AIO_OPS");
  ("aio-requests", true, "AIO_REQUESTS"); ("aiol", true, "AIO_LINUX"); ("aiol-ops", true, "AIO_LINUX_OPS");
  ("aiol-requests", true, "AIO_LINUX_REQUESTS"); ("all", true, "ALL"); ("apparmor", true, "APPARMOR");
  ("apparmor-ops", true, "APPARMOR_OPS"); ("atomic", true, "ATOMIC"); ("atomic-ops", true, "ATOMIC_OPS");
  ("backoff", true, "BACKOFF"); ("bigheap", true, "BIGHEAP"); ("bigheap-ops", true, "BIGHEAP_OPS");
  ("bigheap-growth", true, "BIGHEAP_GROWTH"); ("bind-mount", true, "BIND_MOUNT");
  ("bind-mount-ops", true, "BIND_MOUNT_OPS"); ("branch", true, "BRANCH"); ("branch-ops", true, "BRANCH_OPS");
  ("brk", true, "BRK"); ("brk-ops", true, "BRK_OPS"); ("brk-notouch", false, "BRK_NOTOUCH");
  ("bsearch", true, "BSEARCH"); ("bsearch-ops", true, "BSEARCH_OPS"); ("bsearch-size", true, "BSEARCH_SIZE");
  ("cache", true, "CACHE"); ("cache-ops", true, "CACHE_OPS"); ("cache-prefetch", false, "CACHE_PREFETCH");
  ("cache-flush", false, "CACHE_FLUSH"); ("cache-fence", false, "CACHE_FENCE");
  ("cache-level", true, "CACHE_LEVEL"); ("cache-ways", true, "CACHE_WAYS");
  ("cache-no-affinity", false, "CACHE_NO_AFFINITY"); ("cap", true, "CAP"); ("cap-ops", true, "CAP_OPS");
  ("chdir", true, "CHDIR"); ("chdir-ops", true, "CHDIR_OPS"); ("chdir-dirs", true, "CHDIR_DIRS");
  ("chmod", true, "CHMOD"); ("chmod-ops", true, "CHMOD_OPS"); ("chown", true, "CHOWN");
  ("chown-ops", true, "CHOWN_OPS"); ("chroot", true, "CHROOT"); ("chroot-ops", true, "CHROOT_OPS");
  ("class", true, "CLASS"); ("clock", true, "CLOCK"); ("clock-ops", true, "CLOCK_OPS"); ("clone", true, "CLONE");
  ("clone-ops", true, "CLONE_OPS"); ("clone-max", true, "CLONE_MAX"); ("context", true, "CONTEXT");
  ("context-ops", true, "CONTEXT_OPS"); ("copy-file", true, "COPY_FILE"); ("copy-file-ops", true, "COPY_FILE_OPS");
  ("copy-file-bytes", true, "COPY_FILE_BYTES"); ("cpu", true, "CPU"); ("cpu-ops", true, "CPU_OPS");
  ("cpu-load", true, "CPU_LOAD"); ("cpu-load-slice", true, "CPU_LOAD_SLICE"); ("cpu-method", true, "CPU_METHOD");
  ("cpu-online", true, "CPU_ONLINE"); ("cpu-online-ops", true, "CPU_ONLINE_OPS");
  ("cpu-online-all", false, "CPU_ONLINE_ALL"); ("crypt", true, "CRYPT"); ("crypt-ops", true, "CRYPT_OPS");
  ("cyclic", true, "CYCLIC"); ("cyclic-dist", true, "CYCLIC_DIST"); ("cyclic-method", true, "CYCLIC_METHOD");
  ("cyclic-ops", true, "CYCLIC_OPS"); ("cyclic-policy", true, "CYCLIC_POLICY");
  ("cyclic-prio", true, "CYCLIC_PRIO"); ("cyclic-sleep", true, "CYCLIC_SLEEP"); ("daemon", true, "DAEMON");
  ("daemon-ops", true, "DAEMON_OPS"); ("dccp", true, "DCCP"); ("dccp-domain", true, "DCCP_DOMAIN");
  ("dccp-ops", true, "DCCP_OPS"); ("dccp-opts", true, "DCCP_OPTS"); ("dccp-port", true, "DCCP_PORT");
  ("dentry", true, "DENTRY"); ("dentry-ops", true, "DENTRY_OPS"); ("dentries", true, "DENTRIES");
  ("dentry-order", true, "DENTRY_ORDER"); ("dev", true, "DEV"); ("dev-ops", true, "DEV_OPS"); ("dir", true, "DIR");
  ("dir-ops", true, "DIR_OPS"); ("dir-dirs", true, "DIR_DIRS"); ("dirdeep", true, "DIRDEEP");
  ("dirdeep-ops", true, "DIRDEEP_OPS"); ("dirdeep-dirs", true, "DIRDEEP_DIRS");
  ("dirdeep-inodes", true, "DIRDEEP_INODES"); ("dry-run", false, "DRY_RUN"); ("dnotify", true, "DNOTIFY");
  ("dnotify-ops", true, "DNOTIFY_OPS"); ("dup", true, "DUP"); ("dup-ops", true, "DUP_OPS");
  ("epoll", true, "EPOLL"); ("epoll-ops", true, "EPOLL_OPS"); ("epoll-port", true, "EPOLL_PORT");
  ("epoll-domain", true, "EPOLL_DOMAIN"); ("eventfd", true, "EVENTFD"); ("eventfd-ops", true, "EVENTFD_OPS");
  ("exclude", true, "EXCLUDE"); ("exec", true, "EXEC"); ("exec-ops", true, "EXEC_OPS");
  ("exec-max", true, "EXEC_MAX"); ("fallocate", true, "FALLOCATE"); ("fallocate-ops", true, "FALLOCATE_OPS");
  ("fallocate-bytes", true, "FALLOCATE_BYTES"); ("fault", true, "FAULT"); ("fault-ops", true, "FAULT_OPS");
  ("fcntl", true, "FCNTL"); ("fcntl-ops", true, "FCNTL_OPS"); ("fiemap", true, "FIEMAP");
  ("fiemap-ops", true, "FIEMAP_OPS"); ("fiemap-bytes", true, "FIEMAP_BYTES"); ("fifo", true, "FIFO");
  ("fifo-ops", true, "FIFO_OPS"); ("fifo-readers", true, "FIFO_READERS"); ("filename", true, "FILENAME");
  ("filename-ops", true, "FILENAME_OPS"); ("filename-opts", true, "FILENAME_OPTS"); ("flock", true, "FLOCK");
  ("flock-ops", true, "FLOCK_OPS"); ("fanotify", true, "FANOTIFY"); ("fanotify-ops", true, "FANOTIFY_OPS");
  ("fork", true, "FORK"); ("fork-ops", true, "FORK_OPS"); ("fork-max", true, "FORK_MAX");
  ("fp-error", true, "FP_ERROR"); ("fp-error-ops", true, "FP_ERROR_OPS"); ("fstat", true, "FSTAT");
  ("fstat-ops", true, "FSTAT_OPS"); ("fstat-dir", true, "FSTAT_DIR"); ("full", true, "FULL");
  ("full-ops", true, "FULL_OPS"); ("funccall", true, "FUNCCALL"); ("funccall-ops", true, "FUNCCALL_OPS");
  ("funccall-method", true, "FUNCCALL_METHOD"); ("futex", true, "FUTEX")].

Definition long_options_2 : list (string * bool * string) :=
  [("futex-ops", true, "FUTEX_OPS"); ("get", true, "GET"); ("get-ops", true, "GET_OPS");
  ("getrandom", true, "GETRANDOM"); ("getrandom-ops", true, "GETRANDOM_OPS"); ("getdent", true, "GETDENT");
  ("getdent-ops", true, "GETDENT_OPS"); ("handle", true, "HANDLE"); ("handle-ops", true, "HANDLE_OPS");
  ("hdd", true, "HDD"); ("hdd-ops", true, "HDD_OPS"); ("hdd-bytes", true, "HDD_BYTES");
  ("hdd-write-size", true, "HDD_WRITE_SIZE"); ("hdd-opts", true, "HDD_OPTS"); ("heapsort", true, "HEAPSORT");
  ("heapsort-ops", true, "HEAPSORT_OPS"); ("heapsort-size", true, "HEAPSORT_INTEGERS");
  ("hrtimers", true, "HRTIMERS"); ("hrtimers-ops", true, "HRTIMERS_OPS"); ("help", false, "HELP");
  ("hsearch", true, "HSEARCH"); ("hsearch-ops", true, "HSEARCH_OPS"); ("hsearch-size", true, "HSEARCH_SIZE");
  ("icache", true, "ICACHE"); ("icache-ops", true, "ICACHE_OPS"); ("icmp-flood", true, "ICMP_FLOOD");
  ("icmp-flood-ops", true, "ICMP_FLOOD_OPS"); ("ignite-cpu", false, "IGNITE_CPU");
  ("inode-flags", true, "INODE_FLAGS"); ("inode-flags-ops", true, "INODE_FLAGS_OPS"); ("inotify", true, "INOTIFY");
  ("inotify-ops", true, "INOTIFY_OPS"); ("io", true, "IOSYNC"); ("io-ops", true, "IOSYNC_OPS");
  ("iomix", true, "IOMIX"); ("iomix-bytes", true, "IOMIX_BYTES"); ("iomix-ops", true, "IOMIX_OPS");
  ("ionice-class", true, "IONICE_CLASS"); ("ionice-level", true, "IONICE_LEVEL"); ("ioport", true, "IOPORT");
  ("ioport-ops", true, "IOPORT_OPS"); ("ioport-opts", true, "IOPORT_OPTS"); ("ioprio", true, "IOPRIO");
  ("ioprio-ops", true, "IOPRIO_OPS"); ("itimer", true, "ITIMER"); ("itimer-ops", true, "ITIMER_OPS");
  ("itimer-freq", true, "ITIMER_FREQ"); ("job", true, "JOB"); ("kcmp", true, "KCMP");
  ("kcmp-ops", true, "KCMP_OPS"); ("key", true, "KEY"); ("key-ops", true, "KEY_OPS");
  ("keep-name", false, "KEEP_NAME"); ("kill", true, "KILL"); ("kill-ops", true, "KILL_OPS"); ("klog", true, "KLOG");
  ("klog-ops", true, "KLOG_OPS"); ("lease", true, "LEASE"); ("lease-ops", true, "LEASE_OPS");
  ("lease-breakers", true, "LEASE_BREAKERS"); ("link", true, "LINK"); ("link-ops", true, "LINK_OPS");
  ("locka", true, "LOCKA"); ("locka-ops", true, "LOCKA_OPS"); ("lockbus", true, "LOCKBUS");
  ("lockbus-ops", true, "LOCKBUS_OPS"); ("lockf", true, "LOCKF"); ("lockf-ops", true, "LOCKF_OPS");
  ("lockf-nonblock", false, "LOCKF_NONBLOCK"); ("lockofd", true, "LOCKOFD"); ("lockofd-ops", true, "LOCKOFD_OPS");
  ("log-brief", false, "LOG_BRIEF"); ("log-file", true, "LOG_FILE"); ("longjmp", true, "LONGJMP");
  ("longjmp-ops", true, "LONGJMP_OPS"); ("lsearch", true, "LSEARCH"); ("lsearch-ops", true, "LSEARCH_OPS");
  ("lsearch-size", true, "LSEARCH_SIZE"); ("madvise", true, "MADVISE"); ("madvise-ops", true, "MADVISE_OPS");
  ("malloc", true, "MALLOC"); ("malloc-bytes", true, "MALLOC_BYTES"); ("malloc-max", true, "MALLOC_MAX");
  ("malloc-ops", true, "MALLOC_OPS"); ("malloc-thresh", true, "MALLOC_THRESHOLD"); ("matrix", true, "MATRIX");
  ("matrix-ops", true, "MATRIX_OPS"); ("matrix-method", true, "MATRIX_METHOD");
  ("matrix-size", true, "MATRIX_SIZE"); ("matrix-yx", false, "MATRIX_YX"); ("maximize", false, "MAXIMIZE");
  ("membarrier", true, "MEMBARRIER"); ("membarrier-ops", true, "MEMBARRIER_OPS"); ("memcpy", true, "MEMCPY");
  ("memcpy-ops", true, "MEMCPY_OPS"); ("memfd", true, "MEMFD"); ("memfd-ops", true, "MEMFD_OPS");
  ("memfd-bytes", true, "MEMFD_BYTES"); ("memfd-fds", true, "MEMFD_FDS"); ("memrate", true, "MEMRATE");
  ("memrate-ops", true, "MEMRATE_OPS"); ("memrate-rd-mbs", true, "MEMRATE_RD_MBS");
  ("memrate-wr-mbs", true, "MEMRATE_WR_MBS"); ("memrate-bytes", true, "MEMRATE_BYTES");
  ("memthrash", true, "MEMTHRASH"); ("memthrash-ops", true, "MEMTHRASH_OPS");
  ("memthrash-method", true, "MEMTHRASH_METHOD"); ("mergesort", true, "MERGESORT");
  ("mergesort-ops", true, "MERGESORT_OPS"); ("mergesort-size", true, "MERGESORT_INTEGERS");
  ("metrics", false, "METRICS"); ("metrics-brief", false, "METRICS_BRIEF"); ("mincore", true, "MINCORE");
  ("mincore-ops", true, "MINCORE_OPS"); ("mincore-random", false, "MINCORE_RAND"); ("minimize", false, "MINIMIZE");
  ("mknod", true, "MKNOD"); ("mknod-ops", true, "MKNOD_OPS"); ("mlock", true, "MLOCK");
  ("mlock-ops", true, "MLOCK_OPS"); ("mmap", true, "MMAP"); ("mmap-ops", true, "MMAP_OPS");
  ("mmap-async", false, "MMAP_ASYNC"); ("mmap-bytes", true, "MMAP_BYTES"); ("mmap-file", false, "MMAP_FILE");
  ("mmap-mprotect", false, "MMAP_MPROTECT"); ("mmapaddr", true, "MMAPADDR"); ("mmapaddr-ops", true, "MMAPADDR_OPS");
  ("mmapfork", true, "MMAPFORK"); ("mmapfork-ops", true, "MMAPFORK_OPS"); ("mmapmany", true, "MMAPMANY");
  ("mmapmany-ops", true, "MMAPMANY_OPS"); ("mq", true, "MQ"); ("mq-ops", true, "MQ_OPS");
  ("mq-size", true, "MQ_SIZE"); ("mremap", true, "MREMAP"); ("mremap-ops", true, "MREMAP_OPS");
  ("mremap-bytes", true, "MREMAP_BYTES"); ("msg", true, "MSG"); ("msg-ops", true, "MSG_OPS");
  ("msync", true, "MSYNC"); ("msync-ops", true, "MSYNC_OPS"); ("msync-bytes", true, "MSYNC_BYTES");
  ("netdev", true, "NETDEV"); ("netdev-ops", true, "NETDEV_OPS"); ("netlink-proc", true, "NETLINK_PROC");
  ("netlink-proc-ops", true, "NETLINK_PROC_OPS"); ("nice", true, "NICE")].

Definition long_options_3 : list (string * bool * string) :=
  [("nice-ops", true, "NICE_OPS"); ("no-madvise", false, "NO_MADVISE"); ("no-rand-seed", false, "NO_RAND_SEED");
  ("nop", true, "NOP"); ("nop-ops", true, "NOP_OPS"); ("null", true, "NULL"); ("null-ops", true, "NULL_OPS");
  ("numa", true, "NUMA"); ("numa-ops", true, "NUMA_OPS"); ("oomable", false, "OOMABLE");
  ("oom-pipe", true, "OOM_PIPE"); ("oom-pipe-ops", true, "OOM_PIPE_OPS"); ("opcode", true, "OPCODE");
  ("opcode-ops", true, "OPCODE_OPS"); ("open", true, "OPEN"); ("open-ops", true, "OPEN_OPS");
  ("page-in", false, "PAGE_IN"); ("parallel", true, "ALL"); ("pathological", false, "PATHOLOGICAL");
  ("perf", false, "PERF_STATS"); ("personality", true, "PERSONALITY"); ("personality-ops", true, "PERSONALITY_OPS");
  ("physpage", true, "PHYSPAGE"); ("physpage-ops", true, "PHYSPAGE_OPS"); ("pipe", true, "PIPE");
  ("pipe-ops", true, "PIPE_OPS"); ("pipe-data-size", true, "PIPE_DATA_SIZE"); ("pipe-size", true, "PIPE_SIZE");
  ("poll", true, "POLL"); ("poll-ops", true, "POLL_OPS"); ("procfs", true, "PROCFS");
  ("procfs-ops", true, "PROCFS_OPS"); ("pthread", true, "PTHREAD"); ("pthread-ops", true, "PTHREAD_OPS");
  ("pthread-max", true, "PTHREAD_MAX"); ("ptrace", true, "PTRACE"); ("ptrace-ops", true, "PTRACE_OPS");
  ("pty", true, "PTY"); ("pty-ops", true, "PTY_OPS"); ("pty-max", true, "PTY_MAX"); ("qsort", true, "QSORT");
  ("qsort-ops", true, "QSORT_OPS"); ("qsort-size", true, "QSORT_INTEGERS"); ("quiet", false, "QUIET");
  ("quota", true, "QUOTA"); ("quota-ops", true, "QUOTA_OPS"); ("radixsort", true, "RADIXSORT");
  ("radixsort-ops", true, "RADIXSORT_OPS"); ("radixsort-size", true, "RADIXSORT_SIZE"); ("rawdev", true, "RAWDEV");
  ("rawdev-ops", true, "RAWDEV_OPS"); ("rawdev-method", true, "RAWDEV_METHOD"); ("random", true, "RANDOM");
  ("rdrand", true, "RDRAND"); ("rdrand-ops", true, "RDRAND_OPS"); ("readahead", true, "READAHEAD");
  ("readahead-ops", true, "READAHEAD_OPS"); ("readahead-bytes", true, "READAHEAD_BYTES");
  ("remap", true, "REMAP_FILE_PAGES"); ("remap-ops", true, "REMAP_FILE_PAGES_OPS"); ("rename", true, "RENAME");
  ("rename-ops", true, "RENAME_OPS"); ("resources", true, "RESOURCES"); ("resources-ops", true, "RESOURCES_OPS");
  ("rlimit", true, "RLIMIT"); ("rlimit-ops", true, "RLIMIT_OPS"); ("rmap", true, "RMAP");
  ("rmap-ops", true, "RMAP_OPS"); ("rtc", true, "RTC"); ("rtc-ops", true, "RTC_OPS"); ("sched", true, "SCHED");
  ("sched-prio", true, "SCHED_PRIO"); ("schedpolicy", true, "SCHEDPOLICY");
  ("schedpolicy-ops", true, "SCHEDPOLICY_OPS"); ("sctp", true, "SCTP"); ("sctp-ops", true, "SCTP_OPS");
  ("sctp-domain", true, "SCTP_DOMAIN"); ("sctp-port", true, "SCTP_PORT"); ("seal", true, "SEAL");
  ("seal-ops", true, "SEAL_OPS"); ("seccomp", true, "SECCOMP"); ("seccomp-ops", true, "SECCOMP_OPS");
  ("seek", true, "SEEK"); ("seek-ops", true, "SEEK_OPS"); ("seek-punch", false, "SEEK_PUNCH");
  ("seek-size", true, "SEEK_SIZE"); ("sem", true, "SEMAPHORE_POSIX"); ("sem-ops", true, "SEMAPHORE_POSIX_OPS");
  ("sem-procs", true, "SEMAPHORE_POSIX_PROCS"); ("sem-sysv", true, "SEMAPHORE_SYSV");
  ("sem-sysv-ops", true, "SEMAPHORE_SYSV_OPS"); ("sem-sysv-procs", true, "SEMAPHORE_SYSV_PROCS");
  ("sendfile", true, "SENDFILE"); ("sendfile-ops", true, "SENDFILE_OPS"); ("sendfile-size", true, "SENDFILE_SIZE");
  ("sequential", true, "SEQUENTIAL"); ("sgx", true, "SGX"); ("sgx-ops", true, "SGX_OPS");
  ("sgx-method", true, "SGX_METHOD"); ("sgx-vm", true, "SGX_VM"); ("sgx-vm-bytes", true, "SGX_VM_BYTES");
  ("sgx-vm-hang", true, "SGX_VM_HANG"); ("sgx-vm-keep", false, "SGX_VM_KEEP"); ("sgx-vm-ops", true, "SGX_VM_OPS");
  ("sgx-vm-method", true, "SGX_VM_METHOD"); ("shm", true, "SHM_POSIX"); ("shm-ops", true, "SHM_POSIX_OPS");
  ("shm-bytes", true, "SHM_POSIX_BYTES"); ("shm-objs", true, "SHM_POSIX_OBJECTS"); ("shm-sysv", true, "SHM_SYSV");
  ("shm-sysv-ops", true, "SHM_SYSV_OPS"); ("shm-sysv-bytes", true, "SHM_SYSV_BYTES");
  ("shm-sysv-segs", true, "SHM_SYSV_SEGMENTS"); ("sigfd", true, "SIGFD"); ("sigfd-ops", true, "SIGFD_OPS");
  ("sigfpe", true, "SIGFPE"); ("sigfpe-ops", true, "SIGFPE_OPS"); ("sigsegv", true, "SIGSEGV");
  ("sigsegv-ops", true, "SIGSEGV_OPS"); ("sigsuspend", true, "SIGSUSPEND");
  ("sigsuspend-ops", true, "SIGSUSPEND_OPS"); ("sigpending", true, "SIGPENDING");
  ("sigpending-ops", true, "SIGPENDING_OPS"); ("sigq", true, "SIGQUEUE"); ("sigq-ops", true, "SIGQUEUE_OPS");
  ("sleep", true, "SLEEP"); ("sleep-ops", true, "SLEEP_OPS"); ("sleep-max", true, "SLEEP_MAX");
  ("sock", true, "SOCKET"); ("sock-domain", true, "SOCKET_DOMAIN"); ("sock-nodelay", false, "SOCKET_NODELAY");
  ("sock-ops", true, "SOCKET_OPS"); ("sock-opts", true, "SOCKET_OPTS"); ("sock-port", true, "SOCKET_PORT");
  ("sock-type", true, "SOCKET_TYPE"); ("sockdiag", true, "SOCKET_DIAG"); ("sockdiag-ops", true, "SOCKET_DIAG_OPS");
  ("sockfd", true, "SOCKET_FD"); ("sockfd-ops", true, "SOCKET_FD_OPS"); ("sockfd-port", true, "SOCKET_FD_PORT");
  ("sockpair", true, "SOCKET_PAIR"); ("sockpair-ops", true, "SOCKET_PAIR_OPS"); ("softlockup", true, "SOFTLOCKUP");
  ("softlockup-ops", true, "SOFTLOCKUP_OPS"); ("spawn", true, "SPAWN"); ("spawn-ops", true, "SPAWN_OPS")].

Definition long_options_4 : list (string * bool * string) :=
  [("splice", true, "SPLICE"); ("splice-bytes", true, "SPLICE_BYTES"); ("splice-ops", true, "SPLICE_OPS");
  ("stack", true, "STACK"); ("stack-fill", false, "STACK_FILL"); ("stack-ops", true, "STACK_OPS");
  ("stackmmap", true, "STACKMMAP"); ("stackmmap-ops", true, "STACKMMAP_OPS"); ("str", true, "STR");
  ("str-ops", true, "STR_OPS"); ("str-method", true, "STR_METHOD"); ("stressors", false, "STRESSORS");
  ("stream", true, "STREAM"); ("stream-ops", true, "STREAM_OPS"); ("stream-l3-size", true, "STREAM_L3_SIZE");
  ("stream-madvise", true, "STREAM_MADVISE"); ("swap", true, "SWAP"); ("swap-ops", true, "SWAP_OPS");
  ("switch", true, "SWITCH"); ("switch-ops", true, "SWITCH_OPS"); ("symlink", true, "SYMLINK");
  ("symlink-ops", true, "SYMLINK_OPS"); ("sync-file", true, "SYNC_FILE"); ("sync-file-ops", true, "SYNC_FILE_OPS");
  ("sync-file-bytes", true, "SYNC_FILE_BYTES"); ("sysfs", true, "SYSFS"); ("sysfs-ops", true, "SYSFS_OPS");
  ("sysinfo", true, "SYSINFO"); ("sysinfo-ops", true, "SYSINFO_OPS"); ("syslog", false, "SYSLOG");
  ("taskset", true, "TASKSET"); ("tee", true, "TEE"); ("tee-ops", true, "TEE_OPS");
  ("temp-path", true, "TEMP_PATH"); ("timeout", true, "TIMEOUT"); ("timer", true, "TIMER");
  ("timer-ops", true, "TIMER_OPS"); ("timer-freq", true, "TIMER_FREQ"); ("timer-rand", false, "TIMER_RAND");
  ("timerfd", true, "TIMERFD"); ("timerfd-ops", true, "TIMERFD_OPS"); ("timerfd-freq", true, "TIMERFD_FREQ");
  ("timerfd-rand", false, "TIMERFD_RAND"); ("timer-slack", true, "TIMER_SLACK");
  ("tlb-shootdown", true, "TLB_SHOOTDOWN"); ("tlb-shootdown-ops", true, "TLB_SHOOTDOWN_OPS");
  ("tmpfs", true, "TMPFS"); ("tmpfs-ops", true, "TMPFS_OPS"); ("tree", true, "TREE");
  ("tree-ops", true, "TREE_OPS"); ("tree-method", true, "TREE_METHOD"); ("tree-size", true, "TREE_SIZE");
  ("tsc", true, "TSC"); ("tsc-ops", true, "TSC_OPS"); ("tsearch", true, "TSEARCH");
  ("tsearch-ops", true, "TSEARCH_OPS"); ("tsearch-size", true, "TSEARCH_SIZE"); ("thrash", false, "THRASH");
  ("times", false, "TIMES"); ("tz", false, "THERMAL_ZONES"); ("udp", true, "UDP"); ("udp-ops", true, "UDP_OPS");
  ("udp-domain", true, "UDP_DOMAIN"); ("udp-lite", false, "UDP_LITE"); ("udp-port", true, "UDP_PORT");
  ("udp-flood", true, "UDP_FLOOD"); ("udp-flood-domain", true, "UDP_FLOOD_DOMAIN");
  ("udp-flood-ops", true, "UDP_FLOOD_OPS"); ("userfaultfd", true, "USERFAULTFD");
  ("userfaultfd-ops", true, "USERFAULTFD_OPS"); ("userfaultfd-bytes", true, "USERFAULTFD_BYTES");
  ("utime", true, "UTIME"); ("utime-ops", true, "UTIME_OPS"); ("utime-fsync", false, "UTIME_FSYNC");
  ("unshare", true, "UNSHARE"); ("unshare-ops", true, "UNSHARE_OPS"); ("urandom", true, "URANDOM");
  ("urandom-ops", true, "URANDOM_OPS"); ("vecmath", true, "VECMATH"); ("vecmath-ops", true, "VECMATH_OPS");
  ("verbose", false, "VERBOSE"); ("verify", false, "VERIFY"); ("version", false, "VERSION");
  ("vfork", true, "VFORK"); ("vfork-ops", true, "VFORK_OPS"); ("vfork-max", true, "VFORK_MAX");
  ("vforkmany", true, "VFORKMANY"); ("vforkmany-ops", true, "VFORKMANY_OPS"); ("vm", true, "VM");
  ("vm-bytes", true, "VM_BYTES"); ("vm-hang", true, "VM_HANG"); ("vm-keep", false, "VM_KEEP");
  ("vm-populate", false, "VM_MMAP_POPULATE"); ("vm-locked", false, "VM_MMAP_LOCKED"); ("vm-ops", true, "VM_OPS");
  ("vm-madvise", true, "VM_MADVISE"); ("vm-method", true, "VM_METHOD"); ("vm-rw", true, "VM_RW");
  ("vm-rw-bytes", true, "VM_RW_BYTES"); ("vm-rw-ops", true, "VM_RW_OPS"); ("vm-splice", true, "VM_SPLICE");
  ("vm-splice-bytes", true, "VM_SPLICE_BYTES"); ("vm-splice-ops", true, "VM_SPLICE_OPS"); ("wait", true, "WAIT");
  ("wait-ops", true, "WAIT_OPS"); ("wcs", true, "WCS"); ("wcs-ops", true, "WCS_OPS");
  ("wcs-method", true, "WCS_METHOD"); ("xattr", true, "XATTR"); ("xattr-ops", true, "XATTR_OPS");
  ("yaml", true, "YAML"); ("yield", true, "YIELD"); ("yield-ops", true, "YIELD_OPS"); ("zero", true, "ZERO");
  ("zero-ops", true, "ZERO_OPS"); ("zlib", true, "ZLIB"); ("zlib-ops", true, "ZLIB_OPS");
  ("zlib-method", true, "ZLIB_METHOD"); ("zombie", true, "ZOMBIE"); ("zombie-ops", true, "ZOMBIE_OPS");
  ("zombie-max", true, "ZOMBIE_MAX")].

Definition long_options : list (string * bool * string) :=
  long_options_1 ++ long_options_2 ++ long_options_3 ++ long_options_4.

(** with the values of the enumerators *)
Definition option_values : list (string * bool * Z) :=
  Eval vm_compute in (fun o => (o.1.1, o.1.2, OPT o.2)) <$> long_options.

Definition opt_name (opt_val : Z) : string :=
  match list_find (fun o => o.2 = opt_val) option_values with
  | Some (_, (n, _, _)) => n
  | None => "<unknown>"
  end.

(** *** the stressors *)

Definition STRESSOR (lower upper : string) (class : Z) : stress :=
  Stress (cs lower) (STRESS upper) class (OPT upper) (OPT (upper +:+ "_OPS")).

Definition stressors_1 : list stress := Eval vm_compute in
  [ STRESSOR "af_alg" "AF_ALG" (CLASS_CPU .| CLASS_OS);
    STRESSOR "affinity" "AFFINITY" CLASS_SCHEDULER;
    STRESSOR "aio" "AIO" (CLASS_IO .| CLASS_INTERRUPT .| CLASS_OS);
    STRESSOR "aiol" "AIO_LINUX" (CLASS_IO .| CLASS_INTERRUPT .| CLASS_OS);
    STRESSOR "apparmor" "APPARMOR" (CLASS_OS .| CLASS_SECURITY);
    STRESSOR "atomic" "ATOMIC" (CLASS_CPU .| CLASS_MEMORY);
    STRESSOR "bigheap" "BIGHEAP" (CLASS_OS .| CLASS_VM);
    STRESSOR "bind_mount" "BIND_MOUNT" (CLASS_FILESYSTEM .| CLASS_OS .| CLASS_PATHOLOGICAL);
    STRESSOR "branch" "BRANCH" CLASS_CPU;
    STRESSOR "brk" "BRK" (CLASS_OS .| CLASS_VM);
    STRESSOR "bsearch" "BSEARCH" (CLASS_CPU_CACHE .| CLASS_CPU .| CLASS_MEMORY);
    STRESSOR "cache" "CACHE" CLASS_CPU_CACHE;
    STRESSOR "cap" "CAP" CLASS_OS;
    STRESSOR "chdir" "CHDIR" (CLASS_FILESYSTEM .| CLASS_OS);
    STRESSOR "chmod" "CHMOD" (CLASS_FILESYSTEM .| CLASS_OS);
    STRESSOR "chown" "CHOWN" (CLASS_FILESYSTEM .| CLASS_OS);
    STRESSOR "chroot" "CHROOT" CLASS_OS;
    STRESSOR "clock" "CLOCK" (CLASS_INTERRUPT .| CLASS_OS);
    STRESSOR "clone" "CLONE" (CLASS_SCHEDULER .| CLASS_OS);
    STRESSOR "context" "CONTEXT" (CLASS_MEMORY .| CLASS_CPU);
    STRESSOR "copy_file" "COPY_FILE" (CLASS_FILESYSTEM .| CLASS_OS);
    STRESSOR "cpu" "CPU" CLASS_CPU;
    STRESSOR "cpu_online" "CPU_ONLINE" (CLASS_CPU .| CLASS_OS .| CLASS_PATHOLOGICAL);
    STRESSOR "crypt" "CRYPT" CLASS_CPU;
    STRESSOR "cyclic" "CYCLIC" (CLASS_SCHEDULER .| CLASS_OS);
    STRESSOR "daemon" "DAEMON" (CLASS_SCHEDULER .| CLASS_OS);
    STRESSOR "dccp" "DCCP" (CLASS_NETWORK .| CLASS_OS);
    STRESSOR "dentry" "DENTRY" (CLASS_FILESYSTEM .| CLASS_OS);
    STRESSOR "dev" "DEV" (CLASS_DEV .| CLASS_OS);
    STRESSOR "dir" "DIR" (CLASS_FILESYSTEM .| CLASS_OS);
    STRESSOR "dirdeep" "DIRDEEP" (CLASS_FILESYSTEM .| CLASS_OS);
    STRESSOR "dnotify" "DNOTIFY" (CLASS_FILESYSTEM .| CLASS_SCHEDULER .| CLASS_OS);
    STRESSOR "dup" "DUP" (CLASS_FILESYSTEM .| CLASS_OS);
    STRESSOR "epoll" "EPOLL" (CLASS_NETWORK .| CLASS_OS);
    STRESSOR "eventfd" "EVENTFD" (CLASS_FILESYSTEM .| CLASS_SCHEDULER .| CLASS_OS);
    STRESSOR "exec" "EXEC" (CLASS_SCHEDULER .| CLASS_OS);
    STRESSOR "fallocate" "FALLOCATE" (CLASS_FILESYSTEM .| CLASS_OS);
    STRESSOR "fanotify" "FANOTIFY" (CLASS_FILESYSTEM .| CLASS_SCHEDULER .| CLASS_OS);
    STRESSOR "fault" "FAULT" (CLASS_INTERRUPT .| CLASS_SCHEDULER .| CLASS_OS);
    STRESSOR "fcntl" "FCNTL" (CLASS_FILESYSTEM .| CLASS_OS);
    STRESSOR "fiemap" "FIEMAP" (CLASS_FILESYSTEM .| CLASS_OS);
    STRESSOR "fifo" "FIFO" (CLASS_PIPE_IO .| CLASS_OS .| CLASS_SCHEDULER);
    STRESSOR "filename" "FILENAME" (CLASS_FILESYSTEM .| CLASS_OS);
    STRESSOR "flock" "FLOCK" (CLASS_FILESYSTEM .| CLASS_OS);
    STRESSOR "fork" "FORK" (CLASS_SCHEDULER .| CLASS_OS);
    STRESSOR "fp_error" "FP_ERROR" CLASS_CPU;
    STRESSOR "fstat" "FSTAT" (CLASS_FILESYSTEM .| CLASS_OS);
    STRESSOR "full" "FULL" (CLASS_DEV .| CLASS_MEMORY .| CLASS_OS);
    STRESSOR "funccall" "FUNCCALL" CLASS_CPU;
    STRESSOR "futex" "FUTEX" (CLASS_SCHEDULER .| CLASS_OS);
    STRESSOR "futex" "FUTEX" (CLASS_SCHEDULER .| CLASS_OS);
    STRESSOR "get" "GET" CLASS_OS;
    STRESSOR "getdent" "GETDENT" (CLASS_FILESYSTEM .| CLASS_OS);
    STRESSOR "getrandom" "GETRANDOM" (CLASS_OS .| CLASS_CPU);
    STRESSOR "handle" "HANDLE" (CLASS_FILESYSTEM .| CLASS_OS);
    STRESSOR "hdd" "HDD" (CLASS_IO .| CLASS_OS);
    STRESSOR "heapsort" "HEAPSORT" (CLASS_CPU_CACHE .| CLASS_CPU .| CLASS_MEMORY);
    STRESSOR "hrtimers" "HRTIMERS" CLASS_SCHEDULER;
    STRESSOR "hsearch" "HSEARCH" (CLASS_CPU_CACHE .| CLASS_CPU .| CLASS_MEMORY);
    STRESSOR "icache" "ICACHE" CLASS_CPU_CACHE;
    STRESSOR "icmp_flood" "ICMP_FLOOD" (CLASS_OS .| CLASS_NETWORK);
    STRESSOR "inode_flags" "INODE_FLAGS" (CLASS_OS .| CLASS_FILESYSTEM);
    STRESSOR "inotify" "INOTIFY" (CLASS_FILESYSTEM .| CLASS_SCHEDULER .| CLASS_OS);
    STRESSOR "io" "IOSYNC" (CLASS_FILESYSTEM .| CLASS_OS);
    STRESSOR "iomix" "IOMIX" (CLASS_FILESYSTEM .| CLASS_OS);
    STRESSOR "ioport" "IOPORT" CLASS_CPU;
    STRESSOR "ioprio" "IOPRIO" (CLASS_FILESYSTEM .| CLASS_OS);
    STRESSOR "itimer" "ITIMER" (CLASS_INTERRUPT .| CLASS_OS);
    STRESSOR "kcmp" "KCMP" CLASS_OS;
    STRESSOR "key" "KEY" CLASS_OS;
    STRESSOR "kill" "KILL" (CLASS_INTERRUPT .| CLASS_SCHEDULER .| CLASS_OS);
    STRESSOR "klog" "KLOG" CLASS_OS;
    STRESSOR "lease" "LEASE" (CLASS_FILESYSTEM .| CLASS_OS);
    STRESSOR "link" "LINK" (CLASS_FILESYSTEM .| CLASS_OS);
    STRESSOR "locka" "LOCKA" (CLASS_FILESYSTEM .| CLASS_OS);
    STRESSOR "lockbus" "LOCKBUS" (CLASS_CPU_CACHE .| CLASS_MEMORY);
    STRESSOR "lockf" "LOCKF" (CLASS_FILESYSTEM .| CLASS_OS);
    STRESSOR "lockofd" "LOCKOFD" (CLASS_FILESYSTEM .| CLASS_OS);
    STRESSOR "longjmp" "LONGJMP" CLASS_CPU;
    STRESSOR "lsearch" "LSEARCH" (CLASS_CPU_CACHE .| CLASS_CPU .| CLASS_MEMORY);
    STRESSOR "madvise" "MADVISE" (CLASS_VM .| CLASS_OS);
    STRESSOR "malloc" "MALLOC" (CLASS_CPU_CACHE .| CLASS_MEMORY .| CLASS_VM .| CLASS_OS);
    STRESSOR "matrix" "MATRIX" (CLASS_CPU .| CLASS_CPU_CACHE .| CLASS_MEMORY .| CLASS_CPU);
    STRESSOR "membarrier" "MEMBARRIER" (CLASS_CPU_CACHE .| CLASS_MEMORY);
    STRESSOR "memcpy" "MEMCPY" (CLASS_CPU_CACHE .| CLASS_MEMORY);
    STRESSOR "memfd" "MEMFD" (CLASS_OS .| CLASS_MEMORY);
    STRESSOR "memrate" "MEMRATE" CLASS_MEMORY;
    STRESSOR "memthrash" "MEMTHRASH" CLASS_MEMORY;
    STRESSOR "mergesort" "MERGESORT" (CLASS_CPU_CACHE .| CLASS_CPU .| CLASS_MEMORY);
    STRESSOR "mincore" "MINCORE" (CLASS_OS .| CLASS_MEMORY);
    STRESSOR "mknod" "MKNOD" (CLASS_FILESYSTEM .| CLASS_OS);
    STRESSOR "mlock" "MLOCK" (CLASS_VM .| CLASS_OS);
    STRESSOR "mmap" "MMAP" (CLASS_VM .| CLASS_OS);
    STRESSOR "mmapaddr" "MMAPADDR" (CLASS_VM .| CLASS_OS);
    STRESSOR "mmapfork" "MMAPFORK" (CLASS_SCHEDULER .| CLASS_VM .| CLASS_OS);
    STRESSOR "mmapmany" "MMAPMANY" (CLASS_VM .| CLASS_OS);
    STRESSOR "mq" "MQ" (CLASS_SCHEDULER .| CLASS_OS);
    STRESSOR "mremap" "MREMAP" (CLASS_VM .| CLASS_OS);
    STRESSOR "msg" "MSG" (CLASS_SCHEDULER .| CLASS_OS);
    STRESSOR "msync" "MSYNC" (CLASS_VM .| CLASS_OS);
    STRESSOR "netdev" "NETDEV" CLASS_NETWORK;
    STRESSOR "netlink_proc" "NETLINK_PROC" (CLASS_SCHEDULER .| CLASS_OS);
    STRESSOR "nice" "NICE" (CLASS_SCHEDULER .| CLASS_OS);
    STRESSOR "nop" "NOP" CLASS_CPU;
    STRESSOR "null" "NULL" (CLASS_DEV .| CLASS_MEMORY .| CLASS_OS);
    STRESSOR "numa" "NUMA" (CLASS_CPU .| CLASS_MEMORY .| CLASS_OS);
    STRESSOR "oom_pipe" "OOM_PIPE" (CLASS_MEMORY .| CLASS_OS .| CLASS_PATHOLOGICAL);
    STRESSOR "opcode" "OPCODE" (CLASS_CPU .| CLASS_OS);
    STRESSOR "open" "OPEN" (CLASS_FILESYSTEM .| CLASS_OS);
    STRESSOR "personality" "PERSONALITY" CLASS_OS;
    STRESSOR "physpage" "PHYSPAGE" CLASS_VM;
    STRESSOR "pipe" "PIPE" (CLASS_PIPE_IO .| CLASS_MEMORY .| CLASS_OS);
    STRESSOR "poll" "POLL" (CLASS_SCHEDULER .| CLASS_OS);
    STRESSOR "procfs" "PROCFS" (CLASS_FILESYSTEM .| CLASS_OS);
    STRESSOR "pthread" "PTHREAD" (CLASS_SCHEDULER .| CLASS_OS);
    STRESSOR "ptrace" "PTRACE" CLASS_OS;
    STRESSOR "pty" "PTY" CLASS_OS;
    STRESSOR "qsort" "QSORT" (CLASS_CPU_CACHE .| CLASS_CPU .| CLASS_MEMORY);
    STRESSOR "quota" "QUOTA" CLASS_OS;
    STRESSOR "radixsort" "RADIXSORT" (CLASS_CPU_CACHE .| CLASS_CPU .| CLASS_MEMORY);
    STRESSOR "rawdev" "RAWDEV" CLASS_IO;
    STRESSOR "rdrand" "RDRAND" CLASS_CPU;
    STRESSOR "readahead" "READAHEAD" (CLASS_IO .| CLASS_OS);
    STRESSOR "remap" "REMAP_FILE_PAGES" (CLASS_MEMORY .| CLASS_OS);
    STRESSOR "rename" "RENAME" (CLASS_FILESYSTEM .| CLASS_OS);
    STRESSOR "resources" "RESOURCES" (CLASS_MEMORY .| CLASS_OS);
    STRESSOR "rlimit" "RLIMIT" CLASS_OS;
    STRESSOR "rmap" "RMAP" (CLASS_OS .| CLASS_MEMORY);
    STRESSOR "rtc" "RTC" CLASS_OS;
    STRESSOR "schedpolicy" "SCHEDPOLICY" (CLASS_INTERRUPT .| CLASS_SCHEDULER .| CLASS_OS);
    STRESSOR "sctp" "SCTP" CLASS_NETWORK;
    STRESSOR "seal" "SEAL" CLASS_OS;
    STRESSOR "seccomp" "SECCOMP" CLASS_OS;
    STRESSOR "seek" "SEEK" (CLASS_IO .| CLASS_OS);
    STRESSOR "sem" "SEMAPHORE_POSIX" (CLASS_OS .| CLASS_SCHEDULER);
    STRESSOR "sem_sysv" "SEMAPHORE_SYSV" (CLASS_OS .| CLASS_SCHEDULER);
    STRESSOR "sendfile" "SENDFILE" (CLASS_PIPE_IO .| CLASS_OS);
    STRESSOR "sgx" "SGX" (CLASS_CPU .| CLASS_MEMORY);
    STRESSOR "sgx_vm" "SGX_VM" CLASS_MEMORY;
    STRESSOR "shm" "SHM_POSIX" (CLASS_VM .| CLASS_OS);
    STRESSOR "shm_sysv" "SHM_SYSV" (CLASS_VM .| CLASS_OS);
    STRESSOR "sigfd" "SIGFD" (CLASS_INTERRUPT .| CLASS_OS);
    STRESSOR "sigfpe" "SIGFPE" (CLASS_INTERRUPT .| CLASS_OS);
    STRESSOR "sigpending" "SIGPENDING" (CLASS_INTERRUPT .| CLASS_OS);
    STRESSOR "sigq" "SIGQUEUE" (CLASS_INTERRUPT .| CLASS_OS);
    STRESSOR "sigsegv" "SIGSEGV" (CLASS_INTERRUPT .| CLASS_OS);
    STRESSOR "sigsuspend" "SIGSUSPEND" (CLASS_INTERRUPT .| CLASS_OS);
    STRESSOR "sleep" "SLEEP" (CLASS_INTERRUPT .| CLASS_SCHEDULER .| CLASS_OS) ].

Definition stressors_2 : list stress := Eval vm_compute in
  [ STRESSOR "sock" "SOCKET" (CLASS_NETWORK .| CLASS_OS);
    STRESSOR "sockdiag" "SOCKET_DIAG" (CLASS_NETWORK .| CLASS_OS);
    STRESSOR "sockfd" "SOCKET_FD" (CLASS_NETWORK .| CLASS_OS);
    STRESSOR "sockpair" "SOCKET_PAIR" (CLASS_NETWORK .| CLASS_OS);
    STRESSOR "softlockup" "SOFTLOCKUP" CLASS_SCHEDULER;
    STRESSOR "spawn" "SPAWN" (CLASS_SCHEDULER .| CLASS_OS);
    STRESSOR "splice" "SPLICE" (CLASS_PIPE_IO .| CLASS_OS);
    STRESSOR "stack" "STACK" (CLASS_VM .| CLASS_MEMORY);
    STRESSOR "stackmmap" "STACKMMAP" (CLASS_VM .| CLASS_MEMORY);
    STRESSOR "str" "STR" (CLASS_CPU .| CLASS_CPU_CACHE .| CLASS_MEMORY);
    STRESSOR "stream" "STREAM" (CLASS_CPU .| CLASS_CPU_CACHE .| CLASS_MEMORY);
    STRESSOR "swap" "SWAP" (CLASS_VM .| CLASS_OS);
    STRESSOR "switch" "SWITCH" (CLASS_SCHEDULER .| CLASS_OS);
    STRESSOR "symlink" "SYMLINK" (CLASS_FILESYSTEM .| CLASS_OS);
    STRESSOR "sync_file" "SYNC_FILE" (CLASS_IO .| CLASS_FILESYSTEM .| CLASS_OS);
    STRESSOR "sysfs" "SYSFS" CLASS_OS;
    STRESSOR "sysinfo" "SYSINFO" CLASS_OS;
    STRESSOR "tee" "TEE" (CLASS_PIPE_IO .| CLASS_OS .| CLASS_SCHEDULER);
    STRESSOR "timer" "TIMER" (CLASS_INTERRUPT .| CLASS_OS);
    STRESSOR "timerfd" "TIMERFD" (CLASS_INTERRUPT .| CLASS_OS);
    STRESSOR "tlb_shootdown" "TLB_SHOOTDOWN" (CLASS_OS .| CLASS_MEMORY);
    STRESSOR "tmpfs" "TMPFS" (CLASS_MEMORY .| CLASS_VM .| CLASS_OS);
    STRESSOR "tree" "TREE" (CLASS_CPU_CACHE .| CLASS_CPU .| CLASS_MEMORY);
    STRESSOR "tsc" "TSC" CLASS_CPU;
    STRESSOR "tsearch" "TSEARCH" (CLASS_CPU_CACHE .| CLASS_CPU .| CLASS_MEMORY);
    STRESSOR "udp" "UDP" (CLASS_NETWORK .| CLASS_OS);
    STRESSOR "udp_flood" "UDP_FLOOD" (CLASS_NETWORK .| CLASS_OS);
    STRESSOR "unshare" "UNSHARE" CLASS_OS;
    STRESSOR "urandom" "URANDOM" (CLASS_DEV .| CLASS_OS);
    STRESSOR "userfaultfd" "USERFAULTFD" (CLASS_VM .| CLASS_OS);
    STRESSOR "utime" "UTIME" (CLASS_FILESYSTEM .| CLASS_OS);
    STRESSOR "vecmath" "VECMATH" (CLASS_CPU .| CLASS_CPU_CACHE);
    STRESSOR "vfork" "VFORK" (CLASS_SCHEDULER .| CLASS_OS);
    STRESSOR "vforkmany" "VFORKMANY" (CLASS_SCHEDULER .| CLASS_OS);
    STRESSOR "vm" "VM" (CLASS_VM .| CLASS_MEMORY .| CLASS_OS);
    STRESSOR "vm_rw" "VM_RW" (CLASS_VM .| CLASS_MEMORY .| CLASS_OS);
    STRESSOR "vm_splice" "VM_SPLICE" (CLASS_VM .| CLASS_PIPE_IO .| CLASS_OS);
    STRESSOR "wait" "WAIT" (CLASS_SCHEDULER .| CLASS_OS);
    STRESSOR "wcs" "WCS" (CLASS_CPU .| CLASS_CPU_CACHE .| CLASS_MEMORY);
    STRESSOR "xattr" "XATTR" (CLASS_FILESYSTEM .| CLASS_OS);
    STRESSOR "yield" "YIELD" (CLASS_SCHEDULER .| CLASS_OS);
    STRESSOR "zero" "ZERO" (CLASS_DEV .| CLASS_MEMORY .| CLASS_OS);
    STRESSOR "zlib" "ZLIB" (CLASS_CPU .| CLASS_CPU_CACHE .| CLASS_MEMORY);
    STRESSOR "zombie" "ZOMBIE" (CLASS_SCHEDULER .| CLASS_OS) ].

Definition stressors : list stress := stressors_1 ++ stressors_2.
