(* ===== verification/MethodsError.v ===== *)
(** * The list of methods an enclave answers with

    Both enclaves write the names of their methods into a buffer of the host,
    by a sequence of [snprintf()] that each append where the one before
    stopped.  The buffer is the list of its characters. *)

From S2P Require Import Prelude Outcome.

Definition NUL : ascii := Ascii.zero.
Definition newline : ascii := Ascii.ascii_of_N 10.

(** [snprintf(buf + off, size, "%s", text)]: at most [size - 1] characters and
    a terminator, the length of the text is returned; [None] is a write outside
    the buffer.  The size is converted to [size_t]. *)
Definition snprintf_at (buf : cstr) (off size : Z) (text : cstr) : option (cstr * Z) :=
  let size := u64 size in
  let len := Z.of_nat (length text) in
  if size =? 0 then Some (buf, len)
  else
    let k := Z.min len (size - 1) in
    if (0 <=? off) && (off + k + 1 <=? Z.of_nat (length buf))
    then Some (take (Z.to_nat off) buf ++ take (Z.to_nat k) text ++ NUL :: drop (Z.to_nat (off + k + 1)) buf, len)
    else None.

(** one [counter += snprintf(out_methods + counter, length - counter, " %s", name)] *)
Definition append_name (len : Z) (acc : cstr * Z) (name : string) : option (cstr * Z) :=
  let '(buf, counter) := acc in
  '(buf, n) ← snprintf_at buf counter (len - counter) (" "%char :: cs name);
  Some (buf, counter + n).

Fixpoint append_names (len : Z) (acc : cstr * Z) (names : list string) : option (cstr * Z) :=
  match names with
  | [] => Some acc
  | name :: names => acc ← append_name len acc name; append_names len acc names
  end.

(** [outside]: [sgx_is_outside_enclave(out_methods, length)] *)
Definition get_methods_error (header : string) (names : list string) (outside : bool) (buf : cstr) (len : Z) : option cstr :=
  if outside then
    '(buf, n) ← snprintf_at buf 0 len (cs header);
    '(buf, counter) ← append_names len (buf, n) names;
    '(buf, _) ← snprintf_at buf counter (len - counter) [newline];
    Some buf
  else Some buf.

(** ** The whole list arrives *)

Definition names_text (names : list string) : cstr := concat ((fun n => " "%char :: cs n) <$> names).
Definition methods_text (header : string) (names : list string) : cstr := cs header ++ names_text names ++ [newline].

(** [buf] starts with the string [text] *)
Definition contains (text : cstr) (buf : cstr) : Prop := exists rest, buf = text ++ NUL :: rest.

Lemma snprintf_appends text more buf off size :
  take (Z.to_nat off) buf = text -> off = Z.of_nat (length text) -> off + Z.of_nat (length more) < Z.of_nat (length buf) ->
  Z.of_nat (length buf) < 2 ^ 31 -> size = Z.of_nat (length buf) - off ->
  exists buf', snprintf_at buf off size more = Some (buf', Z.of_nat (length more)) /\
    contains (text ++ more) buf' /\ length buf' = length buf.
Proof.
  intros Ht -> Hfit Hlen ->. unfold snprintf_at. rewrite u64_small by (unfold fits; lia).
  destruct (Z.eqb_spec (Z.of_nat (length buf) - Z.of_nat (length text)) 0); [lia|].
  rewrite Z.min_l by lia.
  destruct (Z.leb_spec 0 (Z.of_nat (length text))), (Z.leb_spec (Z.of_nat (length text) + Z.of_nat (length more) + 1) (Z.of_nat (length buf)));
    cbn [andb]; try lia.
  eexists. split; [done|]. rewrite Ht, Nat2Z.id, firstn_all. split.
  - eexists. by rewrite <- app_assoc.
  - rewrite !length_app. cbn [length]. rewrite length_drop. lia.
Qed.

Lemma contains_take text buf : contains text buf -> take (Z.to_nat (Z.of_nat (length text))) buf = text.
Proof. intros [rest ->]. rewrite Nat2Z.id. by rewrite take_app_length. Qed.

Lemma append_names_text text names buf :
  contains text buf -> Z.of_nat (length text) + Z.of_nat (length (names_text names)) < Z.of_nat (length buf) ->
  Z.of_nat (length buf) < 2 ^ 31 ->
  exists buf', append_names (Z.of_nat (length buf)) (buf, Z.of_nat (length text)) names =
      Some (buf', Z.of_nat (length (text ++ names_text names))) /\
    contains (text ++ names_text names) buf' /\ length buf' = length buf.
Proof.
  revert text buf. induction names as [|name names IH]; intros text buf Hc Hfit Hlen.
  { exists buf. unfold names_text. cbn. by rewrite app_nil_r. }
  unfold names_text in Hfit. rewrite fmap_cons in Hfit. cbn [concat] in Hfit. rewrite length_app in Hfit.
  cbn [append_names append_name].
  destruct (snprintf_appends text (" "%char :: cs name) buf (Z.of_nat (length text))
    (Z.of_nat (length buf) - Z.of_nat (length text)) (contains_take text buf Hc)) as (b1 & -> & Hc1 & Hl1); [done|lia|done|done|].
  cbn [mbind option_bind]. rewrite <- Nat2Z.inj_add, <- length_app, <- Hl1.
  destruct (IH (text ++ " "%char :: cs name) b1 Hc1) as (b2 & -> & Hc2 & Hl2).
  - rewrite length_app, Hl1. fold (names_text names) in Hfit. lia.
  - by rewrite Hl1.
  - exists b2. unfold names_text. rewrite fmap_cons. cbn [concat]. fold (names_text names).
    rewrite <- app_assoc in *. split; [done|]. split; [done|congruence].
Qed.

Lemma methods_error_text header names buf :
  Z.of_nat (length (methods_text header names)) < Z.of_nat (length buf) -> Z.of_nat (length buf) < 2 ^ 31 ->
  exists buf', get_methods_error header names true buf (Z.of_nat (length buf)) = Some buf' /\
    contains (methods_text header names) buf' /\ length buf' = length buf.
Proof.
  unfold methods_text. rewrite !length_app. cbn [length]. intros Hfit Hlen. unfold get_methods_error.
  destruct (snprintf_appends [] (cs header) buf 0 (Z.of_nat (length buf))) as (b0 & -> & Hc0 & Hl0);
    [done|done|lia|done|lia|].
  cbn [mbind option_bind app] in *. rewrite <- Hl0.
  destruct (append_names_text (cs header) names b0 Hc0) as (b1 & -> & Hc1 & Hl1); [lia|by rewrite Hl0|].
  cbn [mbind option_bind]. rewrite <- Hl1.
  destruct (snprintf_appends (cs header ++ names_text names) [newline] b1
    (Z.of_nat (length (cs header ++ names_text names))) (Z.of_nat (length b1) - Z.of_nat (length (cs header ++ names_text names)))
    (contains_take _ b1 Hc1)) as (b2 & -> & Hc2 & Hl2); [done|rewrite length_app, Hl1, Hl0; cbn [length]; lia|by rewrite Hl1, Hl0|done|].
  exists b2. cbn [mbind option_bind]. rewrite <- app_assoc in Hc2. split; [done|]. split; [done|congruence].
Qed.
