(* ===== verification/Setters.v ===== *)
(** * The numeric option setters (stress-*.c, net.c)

    Each stressor has setters for its numeric options: the argument is parsed,
    checked against the limits of the option, and stored under the name of the
    option as a value of some type.  One definition per setter; the environment
    of a setter is what it takes from the system and from the option parser.
    The conversions of the C variable the value passes through are written out. *)

From S2P Require Import Prelude Limits Outcome ParseOpts Settings.

Record cenv := CEnv {
  ce_proc : ptr;                 (** the stressor being configured *)
  ce_alloc : store -> ptr;       (** the answer of [calloc] *)
  ce_dup : bool;                 (** whether [strdup] succeeds *)
  ce_local : Z;                  (** the address of the local variable *)
  ce_phys_mem : Z;               (** [stress_get_phys_mem_size()] *)
  ce_fs_size : Z;                (** [stress_get_filesystem_size()] *)
  ce_percent : string -> Z -> Z -> option Z;
  ce_page_size : Z;              (** [stress_get_pagesize()] *)
  ce_inodes : Z                  (** [stress_get_filesystem_available_inodes()] *)
}.

(** the bytes of an integer variable of [n] bytes *)
Definition le_bytes (n : nat) (v : Z) : list Z := (fun i => u8 (v >>> (8 * Z.of_nat i))) <$> seq 0 n.

(** [set_setting(nm, t, &x)] for a local variable that holds [v] *)
Definition set_local (e : cenv) (nm : string) (t : type_id) (v : Z) (s : store) : outcome store :=
  set_setting (ce_alloc e s) (ce_dup e) (ce_proc e)
    (write_bytes (fun _ => 0) (ce_local e) (le_bytes (width t) v)) nm t (ce_local e) s.

Definition get_uint64_byte_memory (e : cenv) (str : string) (instances : Z) : outcome Z :=
  get_uint64_percent (ce_percent e) str instances (ce_phys_mem e) "Cannot determine physical memory size".

Definition get_uint64_byte_filesystem (e : cenv) (str : string) (instances : Z) : outcome Z :=
  get_uint64_percent (ce_percent e) str instances (ce_fs_size e) "Cannot determine available space on file system".

(** the port is an [int] *)
Definition stress_set_net_port (optname opt : string) (min_port max_port : Z) : outcome Z :=
  x ← get_uint64 opt; let port := s32 x in
  check_range optname (u64 port) min_port (max_port - STRESS_PROCS_MAX);;
  Returns port.

Definition stress_set_aio_linux_requests (e : cenv) (opt : string) (s : store) : outcome store :=
  aio_linux_requests ← get_uint32 opt;
  check_range "aiol-requests" aio_linux_requests MIN_AIO_LINUX_REQUESTS MAX_AIO_LINUX_REQUESTS;;
  set_local e "aiol-requests" TYPE_ID_UINT64 aio_linux_requests s.

Definition stress_set_aio_requests (e : cenv) (opt : string) (s : store) : outcome store :=
  aio_requests ← get_uint64 opt;
  check_range "aio-requests" aio_requests MIN_AIO_REQUESTS MAX_AIO_REQUESTS;;
  set_local e "aio-requests" TYPE_ID_UINT64 aio_requests s.

Definition stress_set_bigheap_growth (e : cenv) (opt : string) (s : store) : outcome store :=
  bigheap_growth ← get_uint64_byte opt;
  check_range_bytes "bigheap-growth" bigheap_growth MIN_BIGHEAP_GROWTH MAX_BIGHEAP_GROWTH;;
  set_local e "bigheap-growth" TYPE_ID_UINT64 bigheap_growth s.

Definition stress_set_bsearch_size (e : cenv) (opt : string) (s : store) : outcome store :=
  bsearch_size ← get_uint64 opt;
  check_range "bsearch-size" bsearch_size MIN_BSEARCH_SIZE MAX_BSEARCH_SIZE;;
  set_local e "bsearch-size" TYPE_ID_UINT64 bsearch_size s.

Definition stress_set_chdir_dirs (e : cenv) (opt : string) (s : store) : outcome store :=
  chdir_dirs ← get_uint64 opt;
  check_range "chdir-dirs" chdir_dirs MIN_CHDIR_DIRS MAX_CHDIR_DIRS;;
  set_local e "chdir-dirs" TYPE_ID_UINT64 chdir_dirs s.

Definition stress_set_clone_max (e : cenv) (opt : string) (s : store) : outcome store :=
  clone_max ← get_uint64 opt;
  check_range "clone-max" clone_max MIN_ZOMBIES MAX_ZOMBIES;;
  set_local e "clone-max" TYPE_ID_UINT64 clone_max s.

Definition stress_set_copy_file_bytes (e : cenv) (opt : string) (s : store) : outcome store :=
  copy_file_bytes ← get_uint64_byte_filesystem e opt 1;
  check_range_bytes "copy-file-bytes" copy_file_bytes MIN_COPY_FILE_BYTES MAX_COPY_FILE_BYTES;;
  set_local e "copy-file-bytes" TYPE_ID_UINT64 copy_file_bytes s.

Definition stress_set_cpu_load (e : cenv) (opt : string) (s : store) : outcome store :=
  cpu_load ← get_int32 opt;
  check_range "cpu-load" (u64 cpu_load) 0 100;;
  set_local e "cpu-load" TYPE_ID_INT32 cpu_load s.

Definition stress_set_cyclic_sleep (e : cenv) (opt : string) (s : store) : outcome store :=
  cyclic_sleep ← get_uint64 opt;
  check_range "cyclic-sleep" cyclic_sleep 1 NANOSECS;;
  set_local e "cyclic-sleep" TYPE_ID_UINT64 cyclic_sleep s.

Definition stress_set_cyclic_prio (e : cenv) (opt : string) (s : store) : outcome store :=
  cyclic_prio ← get_int32 opt;
  check_range "cyclic-prio" (u64 cyclic_prio) 1 100;;
  set_local e "cyclic-prio" TYPE_ID_INT32 cyclic_prio s.

Definition stress_set_cyclic_dist (e : cenv) (opt : string) (s : store) : outcome store :=
  cyclic_dist ← get_uint64 opt;
  check_range "cyclic-dist" cyclic_dist 1 10000000;;
  set_local e "cyclic-dist" TYPE_ID_UINT64 cyclic_dist s.

Definition stress_set_dentries (e : cenv) (opt : string) (s : store) : outcome store :=
  dentries ← get_uint64 opt;
  check_range "dentries" dentries MIN_DENTRIES MAX_DENTRIES;;
  set_local e "dentries" TYPE_ID_UINT64 dentries s.

Definition stress_set_dir_dirs (e : cenv) (opt : string) (s : store) : outcome store :=
  dir_dirs ← get_uint64 opt;
  check_range "dir-dirs" dir_dirs MIN_DIR_DIRS MAX_DIR_DIRS;;
  set_local e "dir-dirs" TYPE_ID_UINT64 dir_dirs s.

Definition stress_set_dirdeep_dirs (e : cenv) (opt : string) (s : store) : outcome store :=
  dirdeep_dirs ← get_uint32 opt;
  check_range "dirdeep-dirs" dirdeep_dirs 1 10;;
  set_local e "dirdeep-dirs" TYPE_ID_UINT32 dirdeep_dirs s.

Definition stress_set_exec_max (e : cenv) (opt : string) (s : store) : outcome store :=
  exec_max ← get_uint64 opt;
  check_range "exec-max" exec_max MIN_EXECS MAX_EXECS;;
  set_local e "exec-max" TYPE_ID_INT64 exec_max s.

Definition stress_set_fallocate_bytes (e : cenv) (opt : string) (s : store) : outcome store :=
  x ← get_uint64_byte_filesystem e opt 1; let fallocate_bytes := s64 x in
  check_range_bytes "fallocate-bytes" (u64 fallocate_bytes) MIN_FALLOCATE_BYTES MAX_FALLOCATE_BYTES;;
  set_local e "fallocate-bytes" TYPE_ID_OFF_T fallocate_bytes s.

Definition stress_set_fiemap_bytes (e : cenv) (opt : string) (s : store) : outcome store :=
  fiemap_bytes ← get_uint64_byte_filesystem e opt 1;
  check_range_bytes "fiemap-bytes" fiemap_bytes MIN_FIEMAP_SIZE MAX_FIEMAP_SIZE;;
  set_local e "fiemap-bytes" TYPE_ID_UINT64 fiemap_bytes s.

Definition stress_set_fifo_readers (e : cenv) (opt : string) (s : store) : outcome store :=
  fifo_readers ← get_uint64 opt;
  check_range "fifo-readers" fifo_readers MIN_FIFO_READERS MAX_FIFO_READERS;;
  set_local e "fifo-readers" TYPE_ID_UINT64 fifo_readers s.

Definition stress_set_fork_max (e : cenv) (opt : string) (s : store) : outcome store :=
  fork_max ← get_uint64 opt;
  check_range "fork-max" fork_max MIN_FORKS MAX_FORKS;;
  set_local e "fork-max" TYPE_ID_UINT64 fork_max s.

Definition stress_set_vfork_max (e : cenv) (opt : string) (s : store) : outcome store :=
  vfork_max ← get_uint64 opt;
  check_range "vfork-max" vfork_max MIN_VFORKS MAX_VFORKS;;
  set_local e "vfork-max" TYPE_ID_UINT64 vfork_max s.

Definition stress_set_hdd_bytes (e : cenv) (opt : string) (s : store) : outcome store :=
  hdd_bytes ← get_uint64_byte_filesystem e opt 1;
  check_range_bytes "hdd-bytes" hdd_bytes MIN_HDD_BYTES MAX_HDD_BYTES;;
  set_local e "hdd-bytes" TYPE_ID_UINT64 hdd_bytes s.

Definition stress_set_hdd_write_size (e : cenv) (opt : string) (s : store) : outcome store :=
  hdd_write_size ← get_uint64_byte opt;
  check_range_bytes "hdd-write-size" hdd_write_size MIN_HDD_WRITE_SIZE MAX_HDD_WRITE_SIZE;;
  set_local e "hdd-write-size" TYPE_ID_UINT64 hdd_write_size s.

Definition stress_set_heapsort_size (e : cenv) (opt : string) (s : store) : outcome store :=
  heapsort_size ← get_uint64 opt;
  check_range "heapsort-size" heapsort_size MIN_HEAPSORT_SIZE MAX_HEAPSORT_SIZE;;
  set_local e "heapsort-size" TYPE_ID_UINT64 heapsort_size s.

Definition stress_set_hsearch_size (e : cenv) (opt : string) (s : store) : outcome store :=
  hsearch_size ← get_uint64 opt;
  check_range "hsearch-size" hsearch_size MIN_TSEARCH_SIZE MAX_TSEARCH_SIZE;;
  set_local e "hsearch-size" TYPE_ID_UINT64 hsearch_size s.

Definition stress_set_iomix_bytes (e : cenv) (opt : string) (s : store) : outcome store :=
  x ← get_uint64_byte_filesystem e opt 1; let iomix_bytes := s64 x in
  check_range_bytes "iomix-bytes" (u64 iomix_bytes) MIN_IOMIX_BYTES MAX_IOMIX_BYTES;;
  set_local e "iomix-bytes" TYPE_ID_OFF_T iomix_bytes s.

Definition stress_set_itimer_freq (e : cenv) (opt : string) (s : store) : outcome store :=
  itimer_freq ← get_uint64 opt;
  check_range "itimer-freq" itimer_freq MIN_TIMER_FREQ MAX_TIMER_FREQ;;
  set_local e "itimer-freq" TYPE_ID_UINT64 itimer_freq s.

Definition stress_set_lease_breakers (e : cenv) (opt : string) (s : store) : outcome store :=
  lease_breakers ← get_uint64 opt;
  check_range "lease-breakers" lease_breakers MIN_LEASE_BREAKERS MAX_LEASE_BREAKERS;;
  set_local e "lease-breakers" TYPE_ID_UINT64 lease_breakers s.

Definition stress_set_lsearch_size (e : cenv) (opt : string) (s : store) : outcome store :=
  lsearch_size ← get_uint64 opt;
  check_range "lsearch-size" lsearch_size MIN_TSEARCH_SIZE MAX_TSEARCH_SIZE;;
  set_local e "lsearch-size" TYPE_ID_UINT64 lsearch_size s.

Definition stress_set_malloc_bytes (e : cenv) (opt : string) (s : store) : outcome store :=
  malloc_bytes ← get_uint64_byte_memory e opt 1;
  check_range_bytes "malloc-bytes" malloc_bytes MIN_MALLOC_BYTES MAX_MEM_LIMIT;;
  set_local e "malloc-bytes" TYPE_ID_SIZE_T malloc_bytes s.

Definition stress_set_malloc_max (e : cenv) (opt : string) (s : store) : outcome store :=
  malloc_max ← get_uint64_byte opt;
  check_range "malloc-max" malloc_max MIN_MALLOC_MAX MAX_MALLOC_MAX;;
  set_local e "malloc-max" TYPE_ID_SIZE_T malloc_max s.

Definition stress_set_malloc_threshold (e : cenv) (opt : string) (s : store) : outcome store :=
  malloc_threshold ← get_uint64_byte opt;
  check_range "malloc-threshold" malloc_threshold MIN_MALLOC_THRESHOLD MAX_MALLOC_THRESHOLD;;
  set_local e "malloc-threshold" TYPE_ID_SIZE_T malloc_threshold s.

Definition stress_set_matrix_size (e : cenv) (opt : string) (s : store) : outcome store :=
  matrix_size ← get_uint64 opt;
  check_range "matrix-size" matrix_size MIN_MATRIX_SIZE MAX_MATRIX_SIZE;;
  set_local e "matrix-size" TYPE_ID_SIZE_T matrix_size s.

Definition stress_set_memfd_bytes (e : cenv) (opt : string) (s : store) : outcome store :=
  memfd_bytes ← get_uint64_byte_memory e opt 1;
  check_range_bytes "memfd-bytes" memfd_bytes MIN_MEMFD_BYTES MAX_MEM_LIMIT;;
  set_local e "memfd-bytes" TYPE_ID_SIZE_T memfd_bytes s.

Definition stress_set_memfd_fds (e : cenv) (opt : string) (s : store) : outcome store :=
  x ← get_uint64 opt; let memfd_fds := u32 x in
  check_range "memfd-fds" memfd_fds MIN_MEMFD_FDS MAX_MEMFD_FDS;;
  set_local e "memfd-fds" TYPE_ID_UINT32 memfd_fds s.

Definition stress_set_memrate_bytes (e : cenv) (opt : string) (s : store) : outcome store :=
  memrate_bytes ← get_uint64_byte opt;
  check_range_bytes "memrate-bytes" memrate_bytes MIN_MEMRATE_BYTES MAX_MEMRATE_BYTES;;
  set_local e "memrate-bytes" TYPE_ID_UINT64 memrate_bytes s.

Definition stress_set_memrate_rd_mbs (e : cenv) (opt : string) (s : store) : outcome store :=
  memrate_rd_mbs ← get_uint64 opt;
  check_range_bytes "memrate-rd-mbs" memrate_rd_mbs 1 1000000;;
  set_local e "memrate-rd-mbs" TYPE_ID_UINT64 memrate_rd_mbs s.

Definition stress_set_memrate_wr_mbs (e : cenv) (opt : string) (s : store) : outcome store :=
  memrate_wr_mbs ← get_uint64 opt;
  check_range_bytes "memrate-wr-mbs" memrate_wr_mbs 1 1000000;;
  set_local e "memrate-wr-mbs" TYPE_ID_UINT64 memrate_wr_mbs s.

Definition stress_set_mergesort_size (e : cenv) (opt : string) (s : store) : outcome store :=
  mergesort_size ← get_uint64 opt;
  check_range "mergesort-size" mergesort_size MIN_MERGESORT_SIZE MAX_MERGESORT_SIZE;;
  set_local e "mergesort-size" TYPE_ID_UINT64 mergesort_size s.

Definition stress_set_mmap_bytes (e : cenv) (opt : string) (s : store) : outcome store :=
  mmap_bytes ← get_uint64_byte_memory e opt 1;
  check_range_bytes "mmap-bytes" mmap_bytes MIN_MMAP_BYTES MAX_MEM_LIMIT;;
  set_local e "mmap-bytes" TYPE_ID_SIZE_T mmap_bytes s.

Definition stress_set_mremap_bytes (e : cenv) (opt : string) (s : store) : outcome store :=
  mremap_bytes ← get_uint64_byte_memory e opt 1;
  check_range_bytes "mremap-bytes" mremap_bytes MIN_MREMAP_BYTES MAX_MEM_LIMIT;;
  set_local e "mremap-bytes" TYPE_ID_SIZE_T mremap_bytes s.

Definition stress_set_msync_bytes (e : cenv) (opt : string) (s : store) : outcome store :=
  msync_bytes ← get_uint64_byte_memory e opt 1;
  check_range_bytes "msync-bytes" msync_bytes MIN_MSYNC_BYTES MAX_MEM_LIMIT;;
  set_local e "msync-bytes" TYPE_ID_SIZE_T msync_bytes s.

Definition stress_set_pipe_size (e : cenv) (opt : string) (s : store) : outcome store :=
  pipe_size ← get_uint64_byte opt;
  check_range_bytes "pipe-size" pipe_size 4 (1024 * 1024);;
  set_local e "pipe-size" TYPE_ID_SIZE_T pipe_size s.

Definition stress_set_pipe_data_size (e : cenv) (opt : string) (s : store) : outcome store :=
  pipe_data_size ← get_uint64_byte opt;
  check_range_bytes "pipe-data-size" pipe_data_size 4 (ce_page_size e);;
  set_local e "pipe-data-size," TYPE_ID_SIZE_T pipe_data_size s.

Definition stress_set_pthread_max (e : cenv) (opt : string) (s : store) : outcome store :=
  pthread_max ← get_uint64 opt;
  check_range "pthread-max" pthread_max MIN_PTHREAD MAX_PTHREAD;;
  set_local e "pthread-max" TYPE_ID_UINT64 pthread_max s.

Definition stress_set_pty_max (e : cenv) (opt : string) (s : store) : outcome store :=
  pty_max ← get_uint64 opt;
  check_range "pty-max" pty_max MIN_PTYS MAX_PTYS;;
  set_local e "pty-max" TYPE_ID_UINT64 pty_max s.

Definition stress_set_qsort_size (e : cenv) (opt : string) (s : store) : outcome store :=
  qsort_size ← get_uint64 opt;
  check_range "qsort-size" qsort_size MIN_QSORT_SIZE MAX_QSORT_SIZE;;
  set_local e "qsort-size" TYPE_ID_UINT64 qsort_size s.

Definition stress_set_radixsort_size (e : cenv) (opt : string) (s : store) : outcome store :=
  radixsort_size ← get_uint64 opt;
  check_range "radixsort-size" radixsort_size MIN_QSORT_SIZE MAX_QSORT_SIZE;;
  set_local e "radixsort-size" TYPE_ID_UINT64 radixsort_size s.

Definition stress_set_readahead_bytes (e : cenv) (opt : string) (s : store) : outcome store :=
  readahead_bytes ← get_uint64_byte_filesystem e opt 1;
  check_range_bytes "readahead-bytes" readahead_bytes MIN_HDD_BYTES MAX_HDD_BYTES;;
  set_local e "readahead-bytes" TYPE_ID_UINT64 readahead_bytes s.

Definition stress_set_seek_size (e : cenv) (opt : string) (s : store) : outcome store :=
  seek_size ← get_uint64_byte opt;
  check_range_bytes "seek-size" seek_size MIN_SEEK_SIZE MAX_SEEK_SIZE;;
  set_local e "seek-size" TYPE_ID_UINT64 seek_size s.

Definition stress_set_semaphore_sysv_procs (e : cenv) (opt : string) (s : store) : outcome store :=
  semaphore_sysv_procs ← get_uint64 opt;
  check_range "sem-sysv-procs" semaphore_sysv_procs MIN_SEMAPHORE_PROCS MAX_SEMAPHORE_PROCS;;
  set_local e "sem-sysv-procs" TYPE_ID_UINT64 semaphore_sysv_procs s.

Definition stress_set_semaphore_posix_procs (e : cenv) (opt : string) (s : store) : outcome store :=
  semaphore_posix_procs ← get_uint64 opt;
  check_range "sem-procs" semaphore_posix_procs MIN_SEMAPHORE_PROCS MAX_SEMAPHORE_PROCS;;
  set_local e "sem-procs" TYPE_ID_UINT64 semaphore_posix_procs s.

Definition stress_set_sendfile_size (e : cenv) (opt : string) (s : store) : outcome store :=
  x ← get_uint64_byte opt; let sendfile_size := s64 x in
  check_range_bytes "sendfile-size" (u64 sendfile_size) MIN_SENDFILE_SIZE MAX_SENDFILE_SIZE;;
  set_local e "sendfile-size" TYPE_ID_UINT64 sendfile_size s.

Definition stress_set_sgx_vm_hang (e : cenv) (opt : string) (s : store) : outcome store :=
  vm_hang ← get_uint64_time opt;
  check_range "sgx-vm-hang" vm_hang MIN_VM_HANG MAX_VM_HANG;;
  set_local e "vm-hang" TYPE_ID_UINT64 vm_hang s.

Definition stress_set_sgx_vm_bytes (e : cenv) (opt : string) (s : store) : outcome store :=
  vm_bytes ← get_uint64_byte_memory e opt 1;
  check_range_bytes "sgx-vm-bytes" vm_bytes MIN_VM_BYTES MAX_MEM_LIMIT;;
  set_local e "sgx-vm-bytes" TYPE_ID_SIZE_T vm_bytes s.

Definition stress_set_shm_sysv_bytes (e : cenv) (opt : string) (s : store) : outcome store :=
  shm_sysv_bytes ← get_uint64_byte opt;
  check_range_bytes "shm-sysv-bytes" shm_sysv_bytes MIN_SHM_SYSV_BYTES MAX_MEM_LIMIT;;
  set_local e "shm-sysv-bytes" TYPE_ID_SIZE_T shm_sysv_bytes s.

Definition stress_set_shm_sysv_segments (e : cenv) (opt : string) (s : store) : outcome store :=
  shm_sysv_segments ← get_uint64 opt;
  check_range "shm-sysv-segs" shm_sysv_segments MIN_SHM_SYSV_SEGMENTS MAX_SHM_SYSV_SEGMENTS;;
  set_local e "shm-sysv-segs" TYPE_ID_SIZE_T shm_sysv_segments s.

Definition stress_set_shm_posix_bytes (e : cenv) (opt : string) (s : store) : outcome store :=
  shm_posix_bytes ← get_uint64_byte_memory e opt 1;
  check_range_bytes "shm-bytes" shm_posix_bytes MIN_SHM_POSIX_BYTES MAX_MEM_LIMIT;;
  set_local e "shm-bytes" TYPE_ID_SIZE_T shm_posix_bytes s.

Definition stress_set_shm_posix_objects (e : cenv) (opt : string) (s : store) : outcome store :=
  shm_posix_objects ← get_uint64 opt;
  check_range "shm-objs" shm_posix_objects MIN_SHM_POSIX_OBJECTS MAX_48;;
  set_local e "shm-objs" TYPE_ID_SIZE_T shm_posix_objects s.

Definition stress_set_sleep_max (e : cenv) (opt : string) (s : store) : outcome store :=
  sleep_max ← get_uint64 opt;
  check_range "sleep-max" sleep_max MIN_SLEEP MAX_SLEEP;;
  set_local e "sleep-max" TYPE_ID_UINT64 sleep_max s.

Definition stress_set_splice_bytes (e : cenv) (opt : string) (s : store) : outcome store :=
  splice_bytes ← get_uint64_byte_memory e opt 1;
  check_range_bytes "splice-bytes" splice_bytes MIN_SPLICE_BYTES MAX_MEM_LIMIT;;
  set_local e "splice-bytes" TYPE_ID_SIZE_T splice_bytes s.

Definition stress_set_stream_L3_size (e : cenv) (opt : string) (s : store) : outcome store :=
  stream_L3_size ← get_uint64_byte opt;
  check_range_bytes "stream-L3-size" stream_L3_size MIN_STREAM_L3_SIZE MAX_STREAM_L3_SIZE;;
  set_local e "stream-L3-size" TYPE_ID_UINT64 stream_L3_size s.

Definition stress_set_sync_file_bytes (e : cenv) (opt : string) (s : store) : outcome store :=
  x ← get_uint64_byte_filesystem e opt 1; let sync_file_bytes := s64 x in
  check_range_bytes "sync_file-bytes" (u64 sync_file_bytes) MIN_SYNC_FILE_BYTES MAX_SYNC_FILE_BYTES;;
  set_local e "sync_file-bytes" TYPE_ID_OFF_T sync_file_bytes s.

Definition stress_set_timer_freq (e : cenv) (opt : string) (s : store) : outcome store :=
  timer_freq ← get_uint64 opt;
  check_range "timer-freq" timer_freq MIN_TIMER_FREQ MAX_TIMER_FREQ;;
  set_local e "timer-freq" TYPE_ID_UINT64 timer_freq s.

Definition stress_set_timerfd_freq (e : cenv) (opt : string) (s : store) : outcome store :=
  timerfd_freq ← get_uint64 opt;
  check_range "timerfd-freq" timerfd_freq MIN_TIMERFD_FREQ MAX_TIMERFD_FREQ;;
  set_local e "timerfd-freq" TYPE_ID_UINT64 timerfd_freq s.

Definition stress_set_tree_size (e : cenv) (opt : string) (s : store) : outcome store :=
  tree_size ← get_uint64 opt;
  check_range "tree-size" tree_size MIN_TREE_SIZE MAX_TREE_SIZE;;
  set_local e "tree-size" TYPE_ID_UINT64 tree_size s.

Definition stress_set_tsearch_size (e : cenv) (opt : string) (s : store) : outcome store :=
  tsearch_size ← get_uint64 opt;
  check_range "tsearch-size" tsearch_size MIN_TSEARCH_SIZE MAX_TSEARCH_SIZE;;
  set_local e "tsearch-size" TYPE_ID_UINT64 tsearch_size s.

Definition stress_set_userfaultfd_bytes (e : cenv) (opt : string) (s : store) : outcome store :=
  userfaultfd_bytes ← get_uint64_byte_memory e opt 1;
  check_range_bytes "userfaultfd-bytes" userfaultfd_bytes MIN_MMAP_BYTES MAX_MEM_LIMIT;;
  set_local e "userfaultfd-bytes" TYPE_ID_SIZE_T userfaultfd_bytes s.

Definition stress_set_vm_rw_bytes (e : cenv) (opt : string) (s : store) : outcome store :=
  vm_rw_bytes ← get_uint64_byte_memory e opt 1;
  check_range_bytes "vm-rw-bytes" vm_rw_bytes MIN_VM_RW_BYTES MAX_MEM_LIMIT;;
  set_local e "vm-rw-bytes" TYPE_ID_SIZE_T vm_rw_bytes s.

Definition stress_set_vm_splice_bytes (e : cenv) (opt : string) (s : store) : outcome store :=
  vm_splice_bytes ← get_uint64_byte_memory e opt 1;
  check_range_bytes "vm-splice-bytes" vm_splice_bytes MIN_VM_SPLICE_BYTES MAX_MEM_LIMIT;;
  set_local e "vm-splice-bytes" TYPE_ID_SIZE_T vm_splice_bytes s.

Definition stress_set_vm_hang (e : cenv) (opt : string) (s : store) : outcome store :=
  vm_hang ← get_uint64_time opt;
  check_range "vm-hang" vm_hang MIN_VM_HANG MAX_VM_HANG;;
  set_local e "vm-hang" TYPE_ID_UINT64 vm_hang s.

Definition stress_set_vm_bytes (e : cenv) (opt : string) (s : store) : outcome store :=
  vm_bytes ← get_uint64_byte_memory e opt 1;
  check_range_bytes "vm-bytes" vm_bytes MIN_VM_BYTES MAX_MEM_LIMIT;;
  set_local e "vm-bytes" TYPE_ID_SIZE_T vm_bytes s.

Definition stress_set_zombie_max (e : cenv) (opt : string) (s : store) : outcome store :=
  zombie_max ← get_uint64 opt;
  check_range "zombie-max" zombie_max MIN_ZOMBIES MAX_ZOMBIES;;
  set_local e "zombie-max" TYPE_ID_INT64 zombie_max s.

Definition stress_set_dccp_port (e : cenv) (opt : string) (s : store) : outcome store :=
  port ← stress_set_net_port "dccp-port" opt MIN_DCCP_PORT (MAX_DCCP_PORT - STRESS_PROCS_MAX);
  set_local e "dccp-port" TYPE_ID_INT port s.

Definition stress_set_epoll_port (e : cenv) (opt : string) (s : store) : outcome store :=
  port ← stress_set_net_port "epoll-port" opt MIN_EPOLL_PORT (MAX_EPOLL_PORT - STRESS_PROCS_MAX * MAX_SERVERS);
  set_local e "epoll-port" TYPE_ID_INT port s.

Definition stress_set_sctp_port (e : cenv) (opt : string) (s : store) : outcome store :=
  port ← stress_set_net_port "sctp-port" opt MIN_SCTP_PORT (MAX_SCTP_PORT - STRESS_PROCS_MAX);
  set_local e "sctp-port" TYPE_ID_INT port s.

Definition stress_set_socket_fd_port (e : cenv) (opt : string) (s : store) : outcome store :=
  port ← stress_set_net_port "sockfd-port" opt MIN_SOCKET_FD_PORT (MAX_SOCKET_FD_PORT - STRESS_PROCS_MAX);
  set_local e "sockfd-port" TYPE_ID_INT port s.

Definition stress_set_socket_port (e : cenv) (opt : string) (s : store) : outcome store :=
  port ← stress_set_net_port "sock-port" opt MIN_SOCKET_PORT (MAX_SOCKET_PORT - STRESS_PROCS_MAX);
  set_local e "sock-port" TYPE_ID_INT port s.

Definition stress_set_udp_port (e : cenv) (opt : string) (s : store) : outcome store :=
  port ← stress_set_net_port "udp-port" opt MIN_UDP_PORT (MAX_UDP_PORT - STRESS_PROCS_MAX);
  set_local e "udp-port" TYPE_ID_INT port s.

(** the setter that checks the range itself *)
Definition stress_set_cpu_load_slice (e : cenv) (opt : string) (s : store) : outcome store :=
  cpu_load_slice ← get_int32 opt;
  if (cpu_load_slice <? -5000) || (5000 <? cpu_load_slice)
  then Exits EXIT_FAILURE (OutOfRange "cpu-load-slice" cpu_load_slice (-5000) 5000)
  else set_local e "cpu-load-slice" TYPE_ID_INT32 cpu_load_slice s.

(** the [int] stored is converted from the value checked *)
Definition stress_set_mq_size (e : cenv) (opt : string) (s : store) : outcome store :=
  sz ← get_uint64 opt;
  check_range "mq-size" sz MIN_MQ_SIZE MAX_MQ_SIZE;;
  let mq_size := s32 sz in
  set_local e "mq-size" TYPE_ID_INT mq_size s.

(** flags are added to those already stored; the variable is read at [ce_local] *)
Definition stress_set_vm_flags (e : cenv) (flag : Z) (s : store) : outcome store :=
  match get_setting (ce_proc e) "vm-flags" (ce_local e) s (write_bytes (fun _ => 0) (ce_local e) (le_bytes 4 0)) with
  | None => Undefined
  | Some (_, m) =>
      let vm_flags := foldr (fun b v => b + 256 * v) 0 (read_bytes m (ce_local e) 4) in
      set_local e "vm-flags" TYPE_ID_INT (vm_flags .| flag) s
  end.

(** the limits main() derives from the resource limits *)
Definition stress_adjust_pthread_max (e : cenv) (max : Z) (s : store) : outcome store :=
  set_local e "pthread-max-adjustment" TYPE_ID_UINT64 max s.

Definition stress_adjust_sleep_max (e : cenv) (max : Z) (s : store) : outcome store :=
  set_local e "sleep-max-adjustment" TYPE_ID_UINT64 max s.
