(* ===== verification/Named.v ===== *)
(** * The options that take a name (stress-*.c, net.c)

    The argument is looked up in a table of the stressor.  What is stored is the
    value the table has for the name, the address of the table's entry, or the
    place of the entry.  An unknown name is refused with -1, after a message.

    [defined] tells which macros the build defines, [symbol] gives the addresses
    of the tables; an entry of [k] words takes [8 * k] bytes.  The numbers of
    the system's constants are Linux's. *)

From S2P Require Import Prelude Flags Outcome ParseOpts Settings Setters Priority.

(** a setter by name; the address of the name is for those that keep it *)
Definition chooser : Type := cenv -> string -> Z -> store -> outcome (Z * store).

(** the value under the first entry of the name *)
Fixpoint find_name {A} (name : string) (table : list (string * A)) : option A :=
  match table with
  | [] => None
  | (n, x) :: table => if String.eqb n name then Some x else find_name name table
  end.

Definition numbered (names : list string) : list (string * Z) := imap (fun i n => (n, Z.of_nat i)) names.

(** [set_setting(key, t, &x)] and 0 when the name was found, -1 otherwise *)
Definition set_found (e : cenv) (key : string) (t : type_id) (found : option Z) (s : store) : outcome (Z * store) :=
  match found with
  | Some x => s ← set_local e key t x s; Returns (0, s)
  | None => Returns (-1, s)
  end.

Section Named.
Variable defined : string -> bool.
Variable symbol : string -> Z.

Definition ifdef {A} (macro : string) (l : list A) : list A := if defined macro then l else [].
Definition ifdef_else {A} (macro : string) (l l' : list A) : list A := if defined macro then l else l'.

(** the address of the entry of a table with entries of [words] words *)
Definition entry_address (table : string) (words : Z) (names : list string) (name : string) : option Z :=
  (fun i => symbol table + 8 * words * i) <$> find_name name (numbered names).

(** ** Methods *)

Definition cyclic_methods : list string :=
  ["clock_ns"; "itimer"; "poll"; "posix_ns"] ++ ifdef "_POSIX_C_SOURCE" ["pselect"].

Definition stress_set_cyclic_method : chooser := fun e name _ s =>
  set_found e "cyclic-method" TYPE_ID_UINTPTR_T (entry_address "cyclic_methods" 2 cyclic_methods name) s.

Definition funccall_methods : list string :=
  ["uint8"; "uint16"; "uint32"; "uint64"] ++ ifdef "STRESS_INT128" ["uint128"] ++ ["float"; "double"; "longdouble"].

Definition stress_set_funccall_method : chooser := fun e name _ s =>
  set_found e "funccall-method" TYPE_ID_UINTPTR_T (entry_address "funccall_methods" 2 funccall_methods name) s.

Definition memthrash_methods : list string :=
  ["all"; "chunk1"; "chunk8"; "chunk64"; "chunk256"; "chunkpage"; "flip"; "flush"] ++ ifdef "MEM_LOCK" ["lock"] ++
  ["matrix"; "memset"; "mfence"; "prefetch"; "random"; "spinread"; "spinwrite"].

Definition stress_set_memthrash_method : chooser := fun e name _ s =>
  set_found e "memthrash-method" TYPE_ID_UINTPTR_T (entry_address "memthrash_methods" 2 memthrash_methods name) s.

Definition rawdev_methods : list string := ["all"; "sweep"; "wiggle"; "ends"; "random"; "burst"].

Definition stress_set_rawdev_method : chooser := fun e name _ s =>
  if defined "__linux__"
  then set_found e "rawdev-method" TYPE_ID_UINTPTR_T (entry_address "rawdev_methods" 2 rawdev_methods name) s
  else Returns (-1, s).

Definition str_methods : list string :=
  ["all"; "index"; "rindex"; "strcasecmp"] ++ ifdef_else "HAVE_STRLCAT" ["strlcat"] ["strcat"] ++
  ["strchr"; "strcoll"; "strcmp"] ++ ifdef_else "HAVE_STRLCPY" ["strlcpy"] ["strcpy"] ++
  ["strlen"; "strncasecmp"; "strncat"; "strncmp"; "strrchr"; "strxfrm"].

(** the loop looks at the flag before each entry: [keep i] is what it reads *)
Definition stress_set_str_method (keep : nat -> bool) : chooser := fun e name _ s =>
  let seen := take_while (fun m => keep m.1) (imap (fun i n => (i, n)) str_methods) in
  set_found e "str-method" TYPE_ID_UINTPTR_T (entry_address "str_methods" 3 seen.*2 name) s.

Definition tree_methods : list string :=
  if defined "HAVE_LIB_BSD" && negb (defined "__APPLE__") then ["all"; "avl"; "binary"; "rb"; "splay"] else [].

Definition stress_set_tree_method : chooser := fun e name _ s =>
  set_found e "tree-method" TYPE_ID_UINTPTR_T (entry_address "tree_methods" 2 tree_methods name) s.

Definition vm_method_names : list string :=
  ["all"; "flip"; "galpat-0"; "galpat-1"; "gray"; "rowhammer"; "incdec"; "inc-nybble"; "rand-set"; "rand-sum";
   "read64"; "ror"; "swap"; "move-inv"; "modulo-x"; "prime-0"; "prime-1"; "prime-gray-0"; "prime-gray-1";
   "prime-incdec"; "walk-0d"; "walk-1d"; "walk-0a"; "walk-1a"; "write64"; "zero-one"].

Definition stress_set_vm_method : chooser := fun e name _ s =>
  set_found e "vm-method" TYPE_ID_UINTPTR_T (entry_address "vm_methods" 2 vm_method_names name) s.

Definition wcs_methods : list string :=
  ["all"] ++ ifdef "HAVE_WCSCASECMP" ["wcscasecmp"] ++ ifdef_else "HAVE_WCSLCAT" ["wcslcat"] ["wcscat"] ++
  ["wcschr"; "wcscmp"] ++ ifdef_else "HAVE_WCSLCPY" ["wcslcpy"] ["wcscpy"] ++ ["wcslen"] ++
  ifdef "HAVE_WCSNCASECMP" ["wcsncasecmp"] ++ ["wcsncat"; "wcsncmp"; "wcsrchr"; "wcscoll"; "wcsxfrm"].

Definition stress_set_wcs_method : chooser := fun e name _ s =>
  set_found e "wcs-method" TYPE_ID_UINTPTR_T (entry_address "wcs_methods" 3 wcs_methods name) s.

Definition zlib_rand_data_methods : list string :=
  ["random"; "00ff"; "ascii01"; "asciidigits"; "binary"; "fixed"; "latin"; "nybble"; "objcode"; "rarely1"; "rarely0";
   "text"].

Definition stress_set_zlib_method : chooser := fun e name _ s =>
  set_found e "zlib-method" TYPE_ID_UINTPTR_T
    (entry_address "zlib_rand_data_methods" 2 zlib_rand_data_methods name) s.

Definition decimal_types : bool := defined "HAVE_FLOAT_DECIMAL" && negb (defined "__clang__").

Definition cpu_method_names : list string :=
  ["all"; "ackermann"; "bitops"; "callfunc"] ++
  ifdef "__STDC_IEC_559_COMPLEX__" ["cdouble"; "cfloat"; "clongdouble"] ++
  ["correlate"; "crc16"] ++ (if decimal_types then ["decimal32"; "decimal64"; "decimal128"] else []) ++
  ["dither"; "djb2a"; "double"; "euler"; "explog"; "fft"; "factorial"; "fibonacci"; "float"; "fnv1a"; "gamma"; "gcd";
   "gray"; "hamming"; "hanoi"; "hyperbolic"; "idct"] ++ ifdef "STRESS_INT128" ["int128"] ++
  ["int64"; "int32"; "int16"; "int8"] ++
  ifdef "STRESS_INT128" (["int128float"; "int128double"; "int128longdouble"] ++
    (if decimal_types then ["int128decimal32"; "int128decimal64"; "int128decimal128"] else [])) ++
  ["int64float"; "int64double"; "int64longdouble"; "int32float"; "int32double"; "int32longdouble"; "jenkin"; "jmp";
   "ln2"; "longdouble"; "loop"; "matrixprod"; "nsqrt"; "omega"; "parity"; "phi"; "pi"; "pjw"; "prime"; "psi"; "queens";
   "rand"; "rand48"; "rgb"; "sdbm"; "sieve"; "stats"; "sqrt"; "trig"; "union"; "zeta"].

Definition stress_set_cpu_method : chooser := fun e name _ s =>
  set_found e "cpu-method" TYPE_ID_UINTPTR_T (entry_address "cpu_methods" 2 cpu_method_names name) s.

(** *** the matrix method is kept by name, twice *)

Definition matrix_methods : list string :=
  ["all"; "add"; "copy"; "div"; "frobenius"; "hadamard"; "identity"; "mean"; "mult"; "negate"; "prod"; "sub"; "trans";
   "zero"].

Definition set_string (e : cenv) (key : string) (p : Z) (s : store) : outcome store :=
  set_setting (ce_alloc e s) (ce_dup e) (ce_proc e) (fun _ => 0) key TYPE_ID_STR p s.

Definition stress_get_matrix_method (e : cenv) (name : string) (p : Z) (s : store) : outcome (bool * store) :=
  match find_name name (numbered matrix_methods) with
  | Some _ => s ← set_string e "matrix-method" p s; Returns (true, s)
  | None => Returns (false, s)
  end.

Definition stress_set_matrix_method : chooser := fun e name p s =>
  '(info, s) ← stress_get_matrix_method e name p s;
  if info : bool then s ← set_string e "matrix-method" p s; Returns (0, s) else Returns (-1, s).

(** ** Values *)

(** the place in the table is stored *)
Definition policies : list string :=
  ifdef "SCHED_DEADLINE" ["deadline"] ++ ifdef "SCHED_FIFO" ["fifo"] ++ ifdef "SCHED_RR" ["rr"].

Definition stress_set_cyclic_policy : chooser := fun e opt _ s =>
  set_found e "cyclic-policy" TYPE_ID_SIZE_T (find_name opt (numbered policies)) s.

Definition dccp_options : list (string * Z) :=
  [("send", 0x01); ("sendmsg", 0x02)] ++ ifdef "HAVE_SENDMMSG" [("sendmmsg", 0x03)].

Definition stress_set_dccp_opts : chooser := fun e opt _ s =>
  set_found e "dccp-opts" TYPE_ID_INT (find_name opt dccp_options) s.

Definition dentry_removals : list (string * Z) :=
  [("forward", 0x00); ("reverse", 0x01); ("stride", 0x02); ("random", 0x03)].

Definition stress_set_dentry_order : chooser := fun e opt _ s =>
  set_found e "dentry-order" TYPE_ID_UINT8 (find_name opt dentry_removals) s.

Definition filename_opts : list (string * Z) := [("probe", 0); ("posix", 1); ("ext", 2)].

Definition stress_filename_opts : chooser := fun e opt _ s =>
  set_found e "filename-opts" TYPE_ID_UINT8 (find_name opt filename_opts) s.

Definition ioport_opts : list (string * Z) := [("in", 1); ("out", 2); ("inout", 1 .| 2)].

Definition stress_set_ioport_opts : chooser := fun e opts _ s =>
  set_found e "ioport-opts" TYPE_ID_UINT32 (find_name opts ioport_opts) s.

Definition socket_opts : list (string * Z) :=
  [("send", 0x01); ("sendmsg", 0x02)] ++ ifdef "HAVE_SENDMMSG" [("sendmmsg", 0x03)].

Definition stress_set_socket_opts : chooser := fun e opt _ s =>
  set_found e "sock-opts" TYPE_ID_INT (find_name opt socket_opts) s.

Definition socket_type : list (string * Z) :=
  ifdef "SOCK_STREAM" [("stream", 1)] ++ ifdef "SOCK_SEQPACKET" [("seqpacket", 5)].

Definition stress_set_socket_type : chooser := fun e opt _ s =>
  set_found e "sock-type" TYPE_ID_INT (find_name opt socket_type) s.

Definition MADV_NORMAL : Z := 0.
Definition MADV_HUGEPAGE : Z := 14.
Definition MADV_NOHUGEPAGE : Z := 15.

Definition stream_madvise_info : list (string * Z) :=
  ifdef_else "HAVE_MADVISE"
    (ifdef "MADV_HUGEPAGE" [("hugepage", MADV_HUGEPAGE)] ++ ifdef "MADV_NOHUGEPAGE" [("nohugepage", MADV_NOHUGEPAGE)] ++
     ifdef "MADV_NORMAL" [("normal", MADV_NORMAL)])
    [("normal", 0)].

Definition stress_set_stream_madvise : chooser := fun e opt _ s =>
  set_found e "stream-madvise" TYPE_ID_INT (find_name opt stream_madvise_info) s.

Definition vm_madvise_info : list (string * Z) :=
  ifdef "MADV_DONTNEED" [("dontneed", 4)] ++ ifdef "MADV_HUGEPAGE" [("hugepage", MADV_HUGEPAGE)] ++
  ifdef "MADV_MERGEABLE" [("mergeable", 12)] ++ ifdef "MADV_NOHUGEPAGE" [("nohugepage", MADV_NOHUGEPAGE)] ++
  ifdef "MADV_NORMAL" [("normal", MADV_NORMAL)] ++ ifdef "MADV_RANDOM" [("random", 1)] ++
  ifdef "MADV_SEQUENTIAL" [("sequential", 2)] ++ ifdef "MADV_UNMERGEABLE" [("unmergeable", 13)] ++
  ifdef "MADV_WILLNEED" [("willneed", 3)].

(** without [HAVE_MADVISE] the table has no terminator, and a name that is not
    its only one is looked for past its end *)
Definition stress_set_vm_madvise : chooser := fun e opt _ s =>
  if defined "HAVE_MADVISE" then set_found e "vm-madvise" TYPE_ID_INT (find_name opt vm_madvise_info) s
  else if String.eqb "normal" opt then set_found e "vm-madvise" TYPE_ID_INT (Some 0) s
  else Undefined.

(** ** Domains (net.c) *)

Definition DOMAIN_INET : Z := 0x00000001.
Definition DOMAIN_INET6 : Z := 0x00000002.
Definition DOMAIN_UNIX : Z := 0x00000004.
Definition DOMAIN_INET_ALL : Z := DOMAIN_INET .| DOMAIN_INET6.
Definition DOMAIN_ALL : Z := DOMAIN_INET .| DOMAIN_INET6 .| DOMAIN_UNIX.
Definition AF_UNIX : Z := 1.
Definition AF_INET : Z := 2.
Definition AF_INET6 : Z := 10.

Definition domains : list (string * Z * Z) :=
  [("ipv4", AF_INET, DOMAIN_INET); ("ipv6", AF_INET6, DOMAIN_INET6); ("unix", AF_UNIX, DOMAIN_UNIX)].

(** the value returned and the domain *)
Definition stress_set_net_domain (domain_mask : Z) (domain_name : string) : Z * Z :=
  match list_find (fun d => c_true (domain_mask .& d.2) /\ domain_name = d.1.1) domains with
  | Some (_, (_, domain, _)) => (0, domain)
  | None => (-1, 0)
  end.

(** the setting is made even when the name is refused *)
Definition set_domain (domain_mask : Z) (key : string) : chooser := fun e name _ s =>
  let '(ret, domain) := stress_set_net_domain domain_mask name in
  s ← set_local e key TYPE_ID_INT domain s;
  Returns (ret, s).

Definition stress_set_dccp_domain : chooser := set_domain (DOMAIN_INET .| DOMAIN_INET6) "dccp-domain".
Definition stress_set_sctp_domain : chooser := set_domain DOMAIN_ALL "sctp-domain".
Definition stress_set_socket_domain : chooser := set_domain DOMAIN_ALL "sock-domain".
Definition stress_set_udp_domain : chooser := set_domain DOMAIN_ALL "udp-domain".
Definition stress_set_udp_flood_domain : chooser := set_domain DOMAIN_INET_ALL "udp-flood-domain".

(** with the number of servers *)
Definition stress_set_epoll_domain (e : cenv) (name : string) (s : store) : outcome (Z * Z * store) :=
  let '(ret, domain) := stress_set_net_domain DOMAIN_ALL name in
  s ← set_local e "epoll-domain" TYPE_ID_INT domain s;
  Returns (ret, if (domain =? AF_INET) || (domain =? AF_INET6) then 4 else 1, s).

(** ** The options of the disc stressor (stress-hdd.c) *)

Definition HDD_OPT_WR_SEQ : Z := 0x00000001.
Definition HDD_OPT_WR_RND : Z := 0x00000002.
Definition HDD_OPT_RD_SEQ : Z := 0x00000010.
Definition HDD_OPT_RD_RND : Z := 0x00000020.
Definition HDD_OPT_FADV_NORMAL : Z := 0x00000100.
Definition HDD_OPT_FADV_SEQ : Z := 0x00000200.
Definition HDD_OPT_FADV_RND : Z := 0x00000400.
Definition HDD_OPT_FADV_NOREUSE : Z := 0x00000800.
Definition HDD_OPT_FADV_WILLNEED : Z := 0x00001000.
Definition HDD_OPT_FADV_DONTNEED : Z := 0x00002000.
Definition HDD_OPT_O_SYNC : Z := 0x00010000.
Definition HDD_OPT_O_DSYNC : Z := 0x00020000.
Definition HDD_OPT_O_DIRECT : Z := 0x00040000.
Definition HDD_OPT_O_NOATIME : Z := 0x00080000.
Definition HDD_OPT_IOVEC : Z := 0x00100000.
Definition HDD_OPT_UTIMES : Z := 0x00200000.
Definition HDD_OPT_FSYNC : Z := 0x00400000.
Definition HDD_OPT_FDATASYNC : Z := 0x00800000.
Definition HDD_OPT_SYNCFS : Z := 0x01000000.
Definition O_SYNC : Z := 0x101000.
Definition O_DSYNC : Z := 0x1000.
Definition O_DIRECT : Z := 0x4000.
Definition O_NOATIME : Z := 0x40000.

(** without the advice, which is not for the options *)
Record hdd_opts_t := HddOpt { h_opt : string; h_flag : Z; h_exclude : Z; h_oflag : Z }.

Definition fadvise (macro : string) : bool := defined "HAVE_POSIX_FADVISE" && defined macro.

Definition hdd_opts : list hdd_opts_t :=
  ifdef "O_SYNC" [HddOpt "sync" HDD_OPT_O_SYNC 0 O_SYNC] ++
  ifdef "O_DSYNC" [HddOpt "dsync" HDD_OPT_O_DSYNC 0 O_DSYNC] ++
  ifdef "O_DIRECT" [HddOpt "direct" HDD_OPT_O_DIRECT 0 O_DIRECT] ++
  ifdef "O_NOATIME" [HddOpt "noatime" HDD_OPT_O_NOATIME 0 O_NOATIME] ++
  (if fadvise "POSIX_FADV_NORMAL" then
     [HddOpt "wr-seq" HDD_OPT_WR_SEQ HDD_OPT_WR_RND 0; HddOpt "wr-rnd" HDD_OPT_WR_RND HDD_OPT_WR_SEQ 0;
      HddOpt "rd-seq" HDD_OPT_RD_SEQ HDD_OPT_RD_RND 0; HddOpt "rd-rnd" HDD_OPT_RD_RND HDD_OPT_RD_SEQ 0;
      HddOpt "fadv-normal" HDD_OPT_FADV_NORMAL
        (HDD_OPT_FADV_SEQ .| HDD_OPT_FADV_RND .| HDD_OPT_FADV_NOREUSE .| HDD_OPT_FADV_WILLNEED .| HDD_OPT_FADV_DONTNEED) 0]
   else []) ++
  (if fadvise "POSIX_FADV_SEQ"
   then [HddOpt "fadv-seq" HDD_OPT_FADV_SEQ (HDD_OPT_FADV_NORMAL .| HDD_OPT_FADV_RND) 0] else []) ++
  (if fadvise "POSIX_FADV_RANDOM"
   then [HddOpt "fadv-rnd" HDD_OPT_FADV_RND (HDD_OPT_FADV_NORMAL .| HDD_OPT_FADV_SEQ) 0] else []) ++
  (if fadvise "POSIX_FADV_NOREUSE"
   then [HddOpt "fadv-noreuse" HDD_OPT_FADV_NOREUSE HDD_OPT_FADV_NORMAL 0] else []) ++
  (if fadvise "POSIX_FADV_WILLNEED"
   then [HddOpt "fadv-willneed" HDD_OPT_FADV_WILLNEED (HDD_OPT_FADV_NORMAL .| HDD_OPT_FADV_DONTNEED) 0] else []) ++
  (if fadvise "POSIX_FADV_DONTNEED"
   then [HddOpt "fadv-dontneed" HDD_OPT_FADV_DONTNEED (HDD_OPT_FADV_NORMAL .| HDD_OPT_FADV_WILLNEED) 0] else []) ++
  ifdef "HAVE_FSYNC" [HddOpt "fsync" HDD_OPT_FSYNC 0 0] ++
  ifdef "HAVE_FDATASYNC" [HddOpt "fdatasync" HDD_OPT_FDATASYNC 0 0] ++
  [HddOpt "iovec" HDD_OPT_IOVEC 0 0] ++ ifdef "HAVE_SYNCFS" [HddOpt "syncfs" HDD_OPT_SYNCFS 0 0] ++
  [HddOpt "utimes" HDD_OPT_UTIMES 0 0].

(** one token against the table: the flags so far, or the refusal.  The entry
    that is not compatible is looked for in a table without a terminator. *)
Fixpoint hdd_token (all table : list hdd_opts_t) (token : string) (flags oflags : Z) (ok : bool) :
    outcome (option (Z * Z * bool)) :=
  match table with
  | [] => Returns (Some (flags, oflags, ok))
  | h :: table =>
      if String.eqb token (h_opt h) then
        let excl := flags .& h_exclude h in
        if c_true excl then
          if existsb (fun j => (excl .& h_flag j) =? excl) all then Returns None else Undefined
        else hdd_token all table token (flags .| h_flag h) (oflags .| h_oflag h) true
      else hdd_token all table token flags oflags ok
  end.

Fixpoint hdd_tokens (tokens : list string) (flags oflags : Z) (opts_set : bool) : outcome (option (Z * Z * bool)) :=
  match tokens with
  | [] => Returns (Some (flags, oflags, opts_set))
  | token :: tokens =>
      r ← hdd_token hdd_opts hdd_opts token flags oflags false;
      match r with
      | Some (flags, oflags, true) => hdd_tokens tokens flags oflags true
      | _ => Returns None
      end
  end.

Definition stress_hdd_opts : chooser := fun e opts _ s =>
  let tokens := String.string_of_list_ascii <$> words_by (fun c => eqc c ","%char) (cs opts) in
  r ← hdd_tokens tokens 0 0 false;
  match r with
  | None => Returns (-1, s)
  | Some (hdd_flags, hdd_oflags, opts_set) =>
      s ← set_local e "hdd-flags" TYPE_ID_INT hdd_flags s;
      s ← set_local e "hdd-oflags" TYPE_ID_INT hdd_oflags s;
      s ← set_local e "hdd-opts-set" TYPE_ID_BOOL (Z.b2z opts_set) s;
      Returns (0, s)
  end.

(** ** Settings without a value of their own *)

Definition stress_set_matrix_yx (e : cenv) (s : store) : outcome store := set_local e "matrix-yx" TYPE_ID_SIZE_T 1 s.

Definition stress_set_fstat_dir (e : cenv) (p : Z) (s : store) : outcome store := set_string e "fstat-dir" p s.

Definition stress_set_dirdeep_inodes (e : cenv) (opt : string) (s : store) : outcome store :=
  dirdeep_inodes ← get_uint64_percent (ce_percent e) opt 1 (ce_inodes e)
    "Cannot determine number of available free inodes";
  set_local e "dirdeep-inodes" TYPE_ID_UINT64 dirdeep_inodes s.
End Named.
