(* ===== verification/Getopt.v ===== *)
(** * [getopt_long()] as the option parser uses it

    The C library's scanner of the command line, with the option string of
    [parse_opts()] and its table of long options: long options by their name or
    an unambiguous beginning of it, with the argument behind an equals sign or
    in the next word; clusters of short options; words that are not options are
    skipped, and two dashes end the scan.  A word is its address and its text,
    since some settings keep the address of their argument. *)

From S2P Require Import Prelude Outcome Procs Tables.

Definition arg : Type := Z * string.

(** what a call returns, with the argument [optarg] when there is one *)
Definition scanned : Type := Z * option arg.

Definition optstring : string := "?khMVvqnt:b:c:i:j:m:d:f:s:l:p:P:C:S:a:y:F:D:T:u:o:r:B:R:Y:x:".

(** what is returned for an option that is unknown, ambiguous, or lacks its argument *)
Definition query : scanned := (code "?", None).

(** ** Short options *)

(** whether the option has an argument *)
Fixpoint short_option (opts : string) (c : ascii) : option bool :=
  match opts with
  | EmptyString => None
  | String d opts =>
      if eqc c d && negb (eqc c ":")
      then Some match opts with String e _ => eqc e ":" | EmptyString => false end
      else short_option opts c
  end.

(** the options of one word; an option whose argument is the next word is left over *)
Fixpoint cluster (a : Z) (t : string) : list scanned * option Z :=
  match t with
  | EmptyString => ([], None)
  | String c t =>
      match short_option optstring c with
      | None => let '(rs, w) := cluster (a + 1) t in (query :: rs, w)
      | Some false => let '(rs, w) := cluster (a + 1) t in ((code c, None) :: rs, w)
      | Some true =>
          match t with
          | EmptyString => ([], Some (code c))
          | String _ _ => ([(code c, Some (a + 1, t))], None)
          end
      end
  end.

(** ** Long options *)

(** the name before an equals sign, and the place and the text behind it *)
Fixpoint split_value (k : Z) (t : string) : string * option (Z * string) :=
  match t with
  | EmptyString => (EmptyString, None)
  | String c t =>
      if eqc c "=" then (EmptyString, Some (k + 1, t))
      else let '(n, v) := split_value (k + 1) t in (String c n, v)
  end.

(** the option of that name, or the only meaning of a beginning *)
Definition long_option (name : string) : option (bool * Z) :=
  match list_find (fun o => o.1.1 = name) option_values with
  | Some (_, (_, has_arg, val)) => Some (has_arg, val)
  | None =>
      match List.filter (fun o => String.prefix name o.1.1) option_values with
      | [] => None
      | (_, has_arg, val) :: others =>
          if forallb (fun o => Bool.eqb o.1.2 has_arg && (o.2 =? val)) others then Some (has_arg, val) else None
      end
  end.

(** ** The scan *)

Inductive word_kind : Type :=
  | Plain                   (** not an option *)
  | End                     (** two dashes *)
  | Long (t : string)
  | Short (t : string).

Definition kind (t : string) : word_kind :=
  match t with
  | String d (String c t) =>
      if negb (eqc d "-") then Plain
      else if eqc c "-" then match t with EmptyString => End | String _ _ => Long t end
      else Short (String c t)
  | _ => Plain
  end.

Fixpoint getopt_long (args : list arg) : list scanned :=
  match args with
  | [] => []
  | (a, t) :: rest =>
      match kind t with
      | Plain => getopt_long rest
      | End => []
      | Long t =>
          let '(name, value) := split_value 2 t in
          match long_option name, value with
          | None, _ | Some (false, _), Some _ => query :: getopt_long rest
          | Some (false, v), None => (v, None) :: getopt_long rest
          | Some (true, v), Some (k, x) => (v, Some (a + k, x)) :: getopt_long rest
          | Some (true, v), None =>
              match rest with
              | [] => [query]
              | x :: rest => (v, Some x) :: getopt_long rest
              end
          end
      | Short t =>
          let '(rs, waiting) := cluster (a + 1) t in
          match waiting with
          | None => rs ++ getopt_long rest
          | Some c =>
              match rest with
              | [] => rs ++ [query]
              | x :: rest => rs ++ (c, Some x) :: getopt_long rest
              end
          end
      end
  end.

(** *** the order of the words afterwards *)

(** whether the argument of the last option of the word is the next word *)
Definition takes_next (t : string) : bool :=
  match kind t with
  | Long t =>
      match split_value 2 t with
      | (name, None) => match long_option name with Some (has_arg, _) => has_arg | None => false end
      | (_, Some _) => false
      end
  | Short t => bool_decide (is_Some (cluster 0 t).2)
  | _ => false
  end.

(** the options with their arguments, and the words that are neither *)
Fixpoint parted (args : list arg) : list arg * list arg :=
  match args with
  | [] => ([], [])
  | (a, t) :: rest =>
      match kind t with
      | Plain => let '(os, ps) := parted rest in (os, (a, t) :: ps)
      | End => ([(a, t)], rest)
      | _ =>
          if takes_next t then
            match rest with
            | [] => ([(a, t)], [])
            | x :: rest => let '(os, ps) := parted rest in ((a, t) :: x :: os, ps)
            end
          else let '(os, ps) := parted rest in ((a, t) :: os, ps)
      end
  end.

(** a complete scan moves the words that are not options behind the others *)
Definition argv_after (args : list arg) : list arg := (parted args).1 ++ (parted args).2.

Lemma argv_after_option a t rest : kind t <> Plain -> exists ws, argv_after ((a, t) :: rest) = (a, t) :: ws.
Proof.
  intros Hk. unfold argv_after. cbn [parted].
  assert (forall (o : list arg * list arg) (l : list arg), exists ws,
    (let '(os, ps) := o in ((a, t) :: l ++ os, ps)).1 ++ (let '(os, ps) := o in ((a, t) :: l ++ os, ps)).2 = (a, t) :: ws)
    as H by (intros [os ps] l; by eexists).
  destruct (kind t); [done|by eexists|..]; (destruct (takes_next t); [destruct rest as [|x rest]; [by eexists|]|]);
    first [apply (H (parted rest) [x])|apply (H (parted rest) [])].
Qed.

(** ** What a scan can return *)

(** a value of the tables, with an argument exactly when the table says so *)
Definition from_tables (r : scanned) : Prop :=
  r = query \/
  (exists n b, (n, b, r.1) ∈ option_values /\ (b = true <-> is_Some r.2)) \/
  (exists c b, r.1 = code c /\ short_option optstring c = Some b /\ (b = true <-> is_Some r.2)).

Lemma long_option_table name b v : long_option name = Some (b, v) -> exists n, (n, b, v) ∈ option_values.
Proof.
  unfold long_option. destruct (list_find _ _) as [[i [[n b'] v']]|] eqn:Hf.
  - intros [= -> ->]. apply list_find_Some in Hf as (Hi & _). exists n. by eapply list_elem_of_lookup_2.
  - destruct (List.filter _ _) as [|[[n b'] v'] os] eqn:Ho; [done|]. destruct (forallb _ _); [|done].
    intros [= -> ->]. exists n. apply list_elem_of_In. eapply filter_In. rewrite Ho. by left.
Qed.

Lemma no_arg_some (b : bool) : b = false -> (b = true <-> is_Some (None : option arg)).
Proof. intros ->. split; [done|]. by intros [? ?]. Qed.
Lemma arg_some (b : bool) (x : arg) : b = true -> (b = true <-> is_Some (Some x)).
Proof. by intros ->. Qed.

Lemma cluster_table a t :
  Forall from_tables (cluster a t).1 /\
  (forall v, (cluster a t).2 = Some v -> exists c, v = code c /\ short_option optstring c = Some true).
Proof.
  revert a. induction t as [|c t IH]; intros a; cbn [cluster]; [by split; [constructor|]|].
  specialize (IH (a + 1)). destruct (short_option optstring c) as [[]|] eqn:Hc.
  - destruct t as [|d t]; cbn [fst snd].
    + split; [constructor|]. intros v [= <-]. by exists c.
    + split; [|done]. apply Forall_singleton. right. right. exists c, true. cbn [fst snd]. by split_and!; [..|apply arg_some].
  - destruct (cluster (a + 1) t) as [rs w]. destruct IH as [Hrs Hw]. cbn [fst snd] in *. split; [|done].
    constructor; [|done]. right. right. exists c, false. cbn [fst snd]. by split_and!; [..|apply no_arg_some].
  - destruct (cluster (a + 1) t) as [rs w]. destruct IH as [Hrs Hw]. cbn [fst snd] in *. split; [|done].
    constructor; [by left|done].
Qed.

Lemma long_result v b (oa : option arg) name :
  long_option name = Some (b, v) -> (b = true <-> is_Some oa) -> from_tables (v, oa).
Proof. intros [n Hn]%long_option_table Hb. right. left. by exists n, b. Qed.

Lemma getopt_long_tables args : Forall from_tables (getopt_long args).
Proof.
  remember (length args) as n eqn:Hn. assert (length args <= n)%nat as Hle by lia. clear Hn.
  revert args Hle. induction n as [|n IH]; intros args Hle.
  { destruct args; [constructor|cbn in Hle; lia]. }
  destruct args as [|[a t] rest]; [constructor|]. cbn [getopt_long length] in *.
  assert (Forall from_tables (getopt_long rest)) as Hrest by (apply IH; lia).
  assert (forall x rest', rest = x :: rest' -> Forall from_tables (getopt_long rest')) as Hrest'.
  { intros x rest' ->. apply IH. cbn in Hle. lia. }
  destruct (kind t) as [| |u|u]; [done|constructor|..].
  - destruct (split_value 2 u) as [name value]. destruct (long_option name) as [[[] v]|] eqn:Hl.
    + destruct value as [[k x]|].
      * constructor; [|done]. eapply long_result; [exact Hl|by apply arg_some].
      * destruct rest as [|x rest']; [by repeat constructor|]. constructor; [|by eapply Hrest'].
        eapply long_result; [exact Hl|by apply arg_some].
    + destruct value as [[k x]|]; (constructor; [|done]); [by left|].
      eapply long_result; [exact Hl|by apply no_arg_some].
    + constructor; [by left|done].
  - destruct (cluster_table (a + 1) u) as [Hrs Hw]. destruct (cluster (a + 1) u) as [rs [c|]]; cbn [fst snd] in *.
    + destruct (Hw c eq_refl) as (ch & -> & Hch). destruct rest as [|x rest'].
      * apply Forall_app. split; [done|]. by repeat constructor.
      * apply Forall_app. split; [done|]. constructor; [|by eapply Hrest'].
        right. right. exists ch, true. cbn [fst snd]. by split_and!; [..|apply arg_some].
    + by apply Forall_app.
Qed.

(** a long option with its argument in the next word *)
Lemma getopt_long_option a name x rest v :
  (exists c t, name = String c t) -> split_value 2 name = (name, None) -> long_option name = Some (true, v) ->
  getopt_long ((a, "--" +:+ name) :: x :: rest) = (v, Some x) :: getopt_long rest.
Proof.
  intros (c & t & ->) Hs Hl. change ("--" +:+ String c t) with (String "-" (String "-" (String c t))).
  cbn [getopt_long kind negb]. change (eqc "-" "-") with true. cbn [negb]. rewrite Hs, Hl. done.
Qed.
