(* ===== verification/Help.v ===== *)
(** * The help (stress-ng.c)

    The two tables of options that [--help] shows, the text made of them, and the
    list of stressors.

    - [help_matches_options]: each entry of the tables is an option that is parsed,
      shown with an argument when it has one, with the exceptions listed; and each
      option that is parsed is in the tables, with the exceptions listed. *)

From S2P Require Import Prelude Outcome Procs Tables Named Getopt.

(** [help_t]: the short option with its argument, the long one, and the description *)
Record help_t := Help { opt_s : option string; opt_l : string; description : string }.

(** ** The tables *)

Section Tables.
Variable defined : string -> bool.     (** the macros of the build *)

Definition help_generic : list help_t :=
  [Help None "abort" "abort all stressors if any stressor fails";
   Help None "aggressive" "enable all aggressive options";
   Help (Some "a N") "all N" "start N workers of each stress test";
   Help (Some "b N") "backoff N" "wait of N microseconds before work starts";
   Help None "class name" "specify a class of stressors, use with --sequential";
   Help (Some "n") "dry-run" "do not run";
   Help (Some "h") "help" "show help";
   Help None "ignite-cpu" "alter kernel controls to make CPU run hot";
   Help None "ionice-class C" "specify ionice class (idle, besteffort, realtime)";
   Help None "ionice-level L" "specify ionice level (0 max, 7 min)";
   Help (Some "j") "job jobfile" "run the named jobfile";
   Help (Some "k") "keep-name" "keep stress worker names to be 'stress-ng'";
   Help None "log-brief" "less verbose log messages";
   Help None "log-file filename" "log messages to a log file";
   Help None "maximize" "enable maximum stress options";
   Help (Some "M") "metrics" "print pseudo metrics of activity";
   Help None "metrics-brief" "enable metrics and only show non-zero results";
   Help None "minimize" "enable minimal stress options";
   Help None "no-madvise" "don't use random madvise options for each mmap";
   Help None "no-rand-seed" "seed random numbers with the same constant";
   Help None "page-in" "touch allocated pages that are not in core";
   Help None "parallel N" "synonym for 'all N'";
   Help None "pathological" "enable stressors that are known to hang a machine"] ++
  ifdef defined "STRESS_PERF_STATS" [Help None "perf" "display perf statistics"] ++
  [Help (Some "q") "quiet" "quiet output";
   Help (Some "r") "random N" "start N random workers";
   Help None "sched type" "set scheduler type";
   Help None "sched-prio N" "set scheduler priority level N";
   Help None "sequential N" "run all stressors one by one, invoking N of them";
   Help None "stressors" "show available stress tests";
   Help None "syslog" "log messages to the syslog";
   Help None "taskset" "use specific CPUs (set CPU affinity)";
   Help None "temp-path" "specify path for temporary directories and files";
   Help None "thrash" "force all pages in causing swap thrashing";
   Help (Some "t N") "timeout T" "timeout after T seconds";
   Help None "timer-slack" "enable timer slack mode";
   Help None "times" "show run time summary at end of the run"] ++
  ifdef defined "STRESS_THERMAL_ZONES" [Help None "tz" "collect temperatures from thermal zones (Linux only)"] ++
  [Help (Some "v") "verbose" "verbose output";
   Help None "verify" "verify results (not available on all tests)";
   Help (Some "V") "version" "show version";
   Help (Some "Y") "yaml" "output results to YAML formatted filed";
   Help (Some "x") "exclude" "list of stressors to exclude (not run)"].

Definition help_stressors_1 : list help_t :=
  [Help None "affinity N" "start N workers that rapidly change CPU affinity";
   Help None "affinity-ops N" "stop after N affinity bogo operations";
   Help None "affinity-rand" "change affinity randomly rather than sequentially";
   Help None "af-alg N" "start N workers that stress AF_ALG socket domain";
   Help None "af-alg-ops N" "stop after N af-alg bogo operations";
   Help None "aio N" "start N workers that issue async I/O requests";
   Help None "aio-ops N" "stop after N bogo async I/O requests";
   Help None "aio-requests N" "number of async I/O requests per worker";
   Help None "aiol N" "start N workers that exercise Linux async I/O";
   Help None "aiol-ops N" "stop after N bogo Linux aio async I/O requests";
   Help None "aiol-requests N" "number of Linux aio async I/O requests per worker";
   Help None "apparmor" "start N workers exercising AppArmor interfaces";
   Help None "apparmor-ops" "stop after N bogo AppArmor worker bogo operations";
   Help None "atomic" "start N workers exercising GCC atomic operations";
   Help None "atomic-ops" "stop after N bogo atomic bogo operations";
   Help (Some "B N") "bigheap N" "start N workers that grow the heap using calloc()";
   Help None "bigheap-ops N" "stop after N bogo bigheap operations";
   Help None "bigheap-growth N" "grow heap by N bytes per iteration";
   Help None "bind-mount N" "start N workers exercising bind mounts";
   Help None "bind-mount-ops N" "stop after N bogo bind mount operations";
   Help None "branch N" "start N workers that force branch misprediction";
   Help None "branch-ops N" "stop after N branch misprediction branches";
   Help None "brk N" "start N workers performing rapid brk calls";
   Help None "brk-ops N" "stop after N brk bogo operations";
   Help None "brk-notouch" "don't touch (page in) new data segment page";
   Help None "bsearch N" "start N workers that exercise a binary search";
   Help None "bsearch-ops N" "stop after N binary search bogo operations";
   Help None "bsearch-size N" "number of 32 bit integers to bsearch";
   Help (Some "C N") "cache N" "start N CPU cache thrashing workers";
   Help None "cache-ops N" "stop after N cache bogo operations";
   Help None "cache-prefetch" "prefetch on memory reads/writes";
   Help None "cache-flush" "flush cache after every memory write (x86 only)";
   Help None "cache-fence" "serialize stores";
   Help None "cache-level N" "only exercise specified cache";
   Help None "cache-ways N" "only fill specified number of cache ways";
   Help None "cap N" "start N workers exercsing capget";
   Help None "cap-ops N" "stop cap workers after N bogo capget operations";
   Help None "chdir N" "start N workers thrashing chdir on many paths";
   Help None "chdir-ops N" "stop chdir workers after N bogo chdir operations";
   Help None "chdir-dirs N" "select number of directories to exercise chdir on";
   Help None "chmod N" "start N workers thrashing chmod file mode bits ";
   Help None "chmod-ops N" "stop chmod workers after N bogo operations";
   Help None "chown N" "start N workers thrashing chown file ownership";
   Help None "chown-ops N" "stop chown workers after N bogo operations";
   Help None "chroot N" "start N workers thrashing chroot";
   Help None "chroot-ops N" "stop chhroot workers after N bogo operations";
   Help None "clock N" "start N workers thrashing clocks and POSIX timers";
   Help None "clock-ops N" "stop clock workers after N bogo operations";
   Help None "clone N" "start N workers that rapidly create and reap clones";
   Help None "clone-ops N" "stop after N bogo clone operations";
   Help None "clone-max N" "set upper limit of N clones per worker";
   Help None "context N" "start N workers exercising user context";
   Help None "context-ops N" "stop context workers after N bogo operations";
   Help None "copy-file N" "start N workers that copy file data";
   Help None "copy-file-ops N" "stop after N copy bogo operations";
   Help None "copy-file-bytes N" "specify size of file to be copied";
   Help (Some "c N") "cpu N" "start N workers spinning on sqrt(rand())";
   Help None "cpu-ops N" "stop after N cpu bogo operations";
   Help (Some "l P") "cpu-load P" "load CPU by P %%, 0=sleep, 100=full load (see -c)";
   Help None "cpu-load-slice S" "specify time slice during busy load";
   Help None "cpu-method M" "specify stress cpu method M, default is all";
   Help None "cpu-online N" "start N workers offlining/onlining the CPUs";
   Help None "cpu-online-ops N" "stop after N offline/online operations";
   Help None "crypt N" "start N workers performing password encryption";
   Help None "crypt-ops N" "stop after N bogo crypt operations";
   Help None "daemon N" "start N workers creating multiple daemons";
   Help None "cyclic N" "start N cyclic real time benchmark stressors";
   Help None "cyclic-ops N" "stop after N cyclic timing cycles";
   Help None "cyclic-method M" "specify cyclic method M, default is clock_ns";
   Help None "cyclic-dist N" "calculate distribution of interval N nanosecs";
   Help None "cyclic-policy P" "used rr or fifo scheduling policy";
   Help None "cyclic-prio N" "real time scheduling priority 1..100";
   Help None "cyclic-sleep N" "sleep time of real time timer in nanosecs";
   Help None "daemon-ops N" "stop when N daemons have been created";
   Help None "dccp N" "start N workers exercising network DCCP I/O";
   Help None "dccp-domain D" "specify DCCP domain, default is ipv4";
   Help None "dccp-ops N" "stop after N DCCP  bogo operations";
   Help None "dccp-opts option" "DCCP data send options [send|sendmsg|sendmmsg]";
   Help None "dccp-port P" "use DCCP ports P to P + number of workers - 1";
   Help (Some "D N") "dentry N" "start N dentry thrashing stressors";
   Help None "dentry-ops N" "stop after N dentry bogo operations";
   Help None "dentry-order O" "specify unlink order (reverse, forward, stride)";
   Help None "dentries N" "create N dentries per iteration";
   Help None "dev" "start N device entry thrashing stressors";
   Help None "dev-ops" "stop after N device thrashing bogo ops";
   Help None "dir N" "start N directory thrashing stressors";
   Help None "dir-ops N" "stop after N directory bogo operations";
   Help None "dir-dirs N" "select number of directories to exercise dir on";
   Help None "dirdeep N" "start N directory depth stressors";
   Help None "dirdeep-ops N" "stop after N directory depth bogo operations";
   Help None "dirdeep-dirs N" "create N directories per level";
   Help None "dirdeep-inodes N" "create a maximum N inodes (N can also be %)";
   Help None "dnotify N" "start N workers exercising dnotify events";
   Help None "dnotify-ops N" "stop dnotify workers after N bogo operations";
   Help None "dup N" "start N workers exercising dup/close";
   Help None "dup-ops N" "stop after N dup/close bogo operations";
   Help None "epoll N" "start N workers doing epoll handled socket activity";
   Help None "epoll-ops N" "stop after N epoll bogo operations";
   Help None "epoll-port P" "use socket ports P upwards";
   Help None "epoll-domain D" "specify socket domain, default is unix";
   Help None "eventfd N" "start N workers stressing eventfd read/writes";
   Help None "eventfd-ops N" "stop eventfd workers after N bogo operations";
   Help None "exec N" "start N workers spinning on fork() and exec()";
   Help None "exec-ops N" "stop after N exec bogo operations";
   Help None "exec-max P" "create P workers per iteration, default is 1";
   Help None "fallocate N" "start N workers fallocating 16MB files";
   Help None "fallocate-ops N" "stop after N fallocate bogo operations";
   Help None "fallocate-bytes N" "specify size of file to allocate";
   Help None "fanotify N" "start N workers exercising fanotify events";
   Help None "fanotify-ops N" "stop fanotify workers after N bogo operations";
   Help None "fault N" "start N workers producing page faults";
   Help None "fault-ops N" "stop after N page fault bogo operations";
   Help None "fcntl N" "start N workers exercising fcntl commands";
   Help None "fcntl-ops N" "stop after N fcntl bogo operations";
   Help None "fiemap N" "start N workers exercising the FIEMAP ioctl";
   Help None "fiemap-ops N" "stop after N FIEMAP ioctl bogo operations";
   Help None "fiemap-bytes N" "specify size of file to fiemap";
   Help None "fifo N" "start N workers exercising fifo I/O";
   Help None "fifo-ops N" "stop after N fifo bogo operations";
   Help None "fifo-readers N" "number of fifo reader stessors to start";
   Help None "filename N" "start N workers exercising filenames";
   Help None "filename-ops N" "stop after N filename bogo operations";
   Help None "filename-opts opt" "specify allowed filename options";
   Help None "flock N" "start N workers locking a single file";
   Help None "flock-ops N" "stop after N flock bogo operations";
   Help (Some "f N") "fork N" "start N workers spinning on fork() and exit()";
   Help None "fork-ops N" "stop after N fork bogo operations";
   Help None "fork-max P" "create P workers per iteration, default is 1";
   Help None "fp-error N" "start N workers exercising floating point errors";
   Help None "fp-error-ops N" "stop after N fp-error bogo operations"].

Definition help_stressors_2 : list help_t :=
  [Help None "fstat N" "start N workers exercising fstat on files";
   Help None "fstat-ops N" "stop after N fstat bogo operations";
   Help None "fstat-dir path" "fstat files in the specified directory";
   Help None "full N" "start N workers exercising /dev/full";
   Help None "full-ops N" "stop after N /dev/full bogo I/O operations";
   Help None "funccall N" "start N workers exercising 1 to 9 arg functions";
   Help None "funccall-ops N" "stop after N function call bogo operations";
   Help None "funccall-method M" "select function call method M";
   Help None "futex N" "start N workers exercising a fast mutex";
   Help None "futex-ops N" "stop after N fast mutex bogo operations";
   Help None "get N" "start N workers exercising the get*() system calls";
   Help None "get-ops N" "stop after N get bogo operations";
   Help None "getdent N" "start N workers reading directories using getdents";
   Help None "getdent-ops N" "stop after N getdents bogo operations";
   Help None "getrandom N" "start N workers fetching random data via getrandom()";
   Help None "getrandom-ops N" "stop after N getrandom bogo operations";
   Help None "handle N" "start N workers exercising name_to_handle_at";
   Help None "handle-ops N" "stop after N handle bogo operations";
   Help (Some "d N") "hdd N" "start N workers spinning on write()/unlink()";
   Help None "hdd-ops N" "stop after N hdd bogo operations";
   Help None "hdd-bytes N" "write N bytes per hdd worker (default is 1GB)";
   Help None "hdd-opts list" "specify list of various stressor options";
   Help None "hdd-write-size N" "set the default write size to N bytes";
   Help None "heapsort N" "start N workers heap sorting 32 bit random integers";
   Help None "heapsort-ops N" "stop after N heap sort bogo operations";
   Help None "heapsort-size N" "number of 32 bit integers to sort";
   Help None "hsearch N" "start N workers that exercise a hash table search";
   Help None "hsearch-ops N" "stop after N hash search bogo operations";
   Help None "hsearch-size N" "number of integers to insert into hash table";
   Help None "icache N" "start N CPU instruction cache thrashing workers";
   Help None "icache-ops N" "stop after N icache bogo operations";
   Help None "icmp-flood N" "start N ICMP packet flood workers";
   Help None "icmp-flood-ops N" "stop after N ICMP bogo operations (ICMP packets)";
   Help None "inode-flags N" "start N workers exercising various inode flags";
   Help None "inode-flags-ops N" "stop inode-flags workers after N bogo operations";
   Help None "inotify N" "start N workers exercising inotify events";
   Help None "inotify-ops N" "stop inotify workers after N bogo operations";
   Help (Some "i N") "io N" "start N workers spinning on sync()";
   Help None "io-ops N" "stop sync I/O after N io bogo operations";
   Help None "iomix N" "start N workers that have a mix of I/O operations";
   Help None "iomix-bytes N" "write N bytes per iomix worker (default is 1GB)";
   Help None "iomix-ops N" "stop iomix workers after N iomix bogo operations";
   Help None "ioprio N" "start N workers exercising set/get iopriority";
   Help None "ioprio-ops N" "stop after N io bogo iopriority operations";
   Help None "itimer N" "start N workers exercising interval timers";
   Help None "itimer-ops N" "stop after N interval timer bogo operations";
   Help None "kcmp N" "start N workers exercising kcmp";
   Help None "kcmp-ops N" "stop after N kcmp bogo operations";
   Help None "key N" "start N workers exercising key operations";
   Help None "key-ops N" "stop after N key bogo operations";
   Help None "kill N" "start N workers killing with SIGUSR1";
   Help None "kill-ops N" "stop after N kill bogo operations";
   Help None "klog N" "start N workers exercising kernel syslog interface";
   Help None "klog-ops N" "stop after N klog bogo operations";
   Help None "lease N" "start N workers holding and breaking a lease";
   Help None "lease-ops N" "stop after N lease bogo operations";
   Help None "lease-breakers N" "number of lease breaking workers to start";
   Help None "link N" "start N workers creating hard links";
   Help None "link-ops N" "stop after N link bogo operations";
   Help None "lockbus N" "start N workers locking a memory increment";
   Help None "lockbus-ops N" "stop after N lockbus bogo operations";
   Help None "locka N" "start N workers locking a file via advisory locks";
   Help None "locka-ops N" "stop after N locka bogo operations";
   Help None "lockf N" "start N workers locking a single file via lockf";
   Help None "lockf-ops N" "stop after N lockf bogo operations";
   Help None "lockf-nonblock" "don't block if lock cannot be obtained, re-try";
   Help None "lockofd N" "start N workers using open file description locking";
   Help None "lockofd-ops N" "stop after N lockofd bogo operations";
   Help None "longjmp N" "start N workers exercising setjmp/longjmp";
   Help None "longjmp-ops N" "stop after N longjmp bogo operations";
   Help None "lsearch N" "start N workers that exercise a linear search";
   Help None "lsearch-ops N" "stop after N linear search bogo operations";
   Help None "lsearch-size N" "number of 32 bit integers to lsearch";
   Help None "madvise N" "start N workers exercising madvise on memory";
   Help None "madvise-ops N" "stop after N bogo madvise operations";
   Help None "malloc N" "start N workers exercising malloc/realloc/free";
   Help None "malloc-bytes N" "allocate up to N bytes per allocation";
   Help None "malloc-max N" "keep up to N allocations at a time";
   Help None "malloc-ops N" "stop after N malloc bogo operations";
   Help None "malloc-thresh N" "threshold where malloc uses mmap instead of sbrk";
   Help None "matrix N" "start N workers exercising matrix operations";
   Help None "matrix-ops N" "stop after N maxtrix bogo operations";
   Help None "matrix-method M" "specify matrix stress method M, default is all";
   Help None "matrix-size N" "specify the size of the N x N matrix";
   Help None "matrix-yx" "matrix operation is y by x instread of x by y";
   Help None "membarrier N" "start N workers performing membarrier system calls";
   Help None "membarrier-ops N" "stop after N membarrier bogo operations";
   Help None "memcpy N" "start N workers performing memory copies";
   Help None "memcpy-ops N" "stop after N memcpy bogo operations";
   Help None "memfd N" "start N workers allocating memory with memfd_create";
   Help None "memfd-bytes N" "allocate N bytes for each stress iteration";
   Help None "memfd-fds N" "number of memory fds to open per stressors";
   Help None "memfd-ops N" "stop after N memfd bogo operations";
   Help None "memrate N" "start N workers exercised memory read/writes";
   Help None "memrate-ops" "stop after N memrate bogo operations";
   Help None "memrate-bytes N" "size of memory buffer being exercised";
   Help None "memrate-rd-mbs N" "read rate from buffer in megabytes per second";
   Help None "memrate-wr-mbs N" "write rate to buffer in megabytes per second";
   Help None "memthrash N" "start N workers thrashing a 16MB memory buffer";
   Help None "memthrash-ops N" "stop after N memthrash bogo operations";
   Help None "memthrash-method M" "specify memthrash method M, default is all";
   Help None "mergesort N" "start N workers merge sorting 32 bit random integers";
   Help None "mergesort-ops N" "stop after N merge sort bogo operations";
   Help None "mergesort-size N" "number of 32 bit integers to sort";
   Help None "mincore N" "start N workers exercising mincore";
   Help None "mincore-ops N" "stop after N mincore bogo operations";
   Help None "mincore-random" "randomly select pages rather than linear scan";
   Help None "mknod N" "start N workers that exercise mknod";
   Help None "mknod-ops N" "stop after N mknod bogo operations";
   Help None "mlock N" "start N workers exercising mlock/munlock";
   Help None "mlock-ops N" "stop after N mlock bogo operations";
   Help None "mmap N" "start N workers stressing mmap and munmap";
   Help None "mmap-ops N" "stop after N mmap bogo operations";
   Help None "mmap-async" "using asynchronous msyncs for file based mmap";
   Help None "mmap-bytes N" "mmap and munmap N bytes for each stress iteration";
   Help None "mmap-file" "mmap onto a file using synchronous msyncs";
   Help None "mmap-mprotect" "enable mmap mprotect stressing";
   Help None "mmapaddr N" "start N workers stressing mmap with random addresses";
   Help None "mmapaddr-ops N" "stop after N mmapaddr bogo operations";
   Help None "mmapfork N" "start N workers stressing many forked mmaps/munmaps";
   Help None "mmapfork-ops N" "stop after N mmapfork bogo operations";
   Help None "mmapmany N" "start N workers stressing many mmaps and munmaps";
   Help None "mmapmany-ops N" "stop after N mmapmany bogo operations";
   Help None "mremap N" "start N workers stressing mremap";
   Help None "mremap-ops N" "stop after N mremap bogo operations";
   Help None "mremap-bytes N" "mremap N bytes maximum for each stress iteration";
   Help None "msg N" "start N workers stressing System V messages";
   Help None "msg-ops N" "stop msg workers after N bogo messages";
   Help None "msync N" "start N workers syncing mmap'd data with msync";
   Help None "msync-ops N" "stop msync workers after N bogo msyncs"].

Definition help_stressors_3 : list help_t :=
  [Help None "msync-bytes N" "size of file and memory mapped region to msync";
   Help None "mq N" "start N workers passing messages using POSIX messages";
   Help None "mq-ops N" "stop mq workers after N bogo messages";
   Help None "mq-size N" "specify the size of the POSIX message queue";
   Help None "netdev N" "start N workers exercising netdevice ioctls";
   Help None "netdev-ops N" "stop netdev workers after N bogo operations";
   Help None "netlink-proc N" "start N workers exercising netlink process events";
   Help None "netlink-proc-ops N" "stop netlink-proc workers after N bogo events";
   Help None "nice N" "start N workers that randomly re-adjust nice levels";
   Help None "nice-ops N" "stop after N nice bogo operations";
   Help None "nop N" "start N workers that burn cycles with no-ops";
   Help None "nop-ops N" "stop after N nop bogo no-op operations";
   Help None "null N" "start N workers writing to /dev/null";
   Help None "null-ops N" "stop after N /dev/null bogo write operations";
   Help None "numa N" "start N workers stressing NUMA interfaces";
   Help None "numa-ops N" "stop after N NUMA bogo operations";
   Help None "oom-pipe N" "start N workers exercising large pipes";
   Help None "oom-pipe-ops N" "stop after N oom-pipe bogo operations";
   Help None "opcode N" "start N workers exercising random opcodes";
   Help None "opcode-ops N" "stop after N opcode bogo operations";
   Help (Some "o") "open N" "start N workers exercising open/close";
   Help None "open-ops N" "stop after N open/close bogo operations";
   Help None "personality N" "start N workers that change their personality";
   Help None "personality-ops N" "stop after N bogo personality calls";
   Help (Some "p N") "pipe N" "start N workers exercising pipe I/O";
   Help None "pipe-ops N" "stop after N pipe I/O bogo operations";
   Help None "pipe-data-size N" "set pipe size of each pipe write to N bytes"] ++
  ifdef defined "F_SETPIPE_SZ" [Help None "pipe-size N" "set pipe size to N bytes"] ++
  [Help (Some "P N") "poll N" "start N workers exercising zero timeout polling";
   Help None "poll-ops N" "stop after N poll bogo operations";
   Help None "procfs N" "start N workers reading portions of /proc";
   Help None "procfs-ops N" "stop procfs workers after N bogo read operations";
   Help None "pthread N" "start N workers that create multiple threads";
   Help None "pthread-ops N" "stop pthread workers after N bogo threads created";
   Help None "pthread-max P" "create P threads at a time by each worker";
   Help None "ptrace N" "start N workers that trace a child using ptrace";
   Help None "ptrace-ops N" "stop ptrace workers after N system calls are traced";
   Help None "pty N" "start N workers that exercise pseudoterminals";
   Help None "pty-ops N" "stop pty workers after N pty bogo operations";
   Help None "pty-max N" "attempt to open a maximum of N ptys";
   Help (Some "Q") "qsort N" "start N workers qsorting 32 bit random integers";
   Help None "qsort-ops N" "stop after N qsort bogo operations";
   Help None "qsort-size N" "number of 32 bit integers to sort";
   Help None "quota N" "start N workers exercising quotactl commands";
   Help None "quota-ops N" "stop after N quotactl bogo operations";
   Help None "radixsort N" "start N workers radix sorting random strings";
   Help None "radixsort-ops N" "stop after N radixsort bogo operations";
   Help None "radixsort-size N" "number of strings to sort";
   Help None "rawdev N" "start N workers that read a raw device";
   Help None "rawdev-ops N" "stop after N rawdev read operations";
   Help None "rawdev-method M" "specify the rawdev reead method to use";
   Help None "rdrand N" "start N workers exercising rdrand (x86 only)";
   Help None "rdrand-ops N" "stop after N rdrand bogo operations";
   Help None "readahead N" "start N workers exercising file readahead";
   Help None "readahead-bytes N" "size of file to readahead on (default is 1GB)";
   Help None "readahead-ops N" "stop after N readahead bogo operations";
   Help None "remap N" "start N workers exercising page remappings";
   Help None "remap-ops N" "stop after N remapping bogo operations";
   Help (Some "R") "rename N" "start N workers exercising file renames";
   Help None "rename-ops N" "stop after N rename bogo operations";
   Help None "resources N" "start N workers consuming system resources";
   Help None "resources-ops N" "stop after N resource bogo operations";
   Help None "rlimit N" "start N workers that exceed rlimits";
   Help None "rlimit-ops N" "stop after N rlimit bogo operations";
   Help None "rmap N" "start N workers that stress reverse mappings";
   Help None "rmap-ops N" "stop after N rmap bogo operations";
   Help None "rtc N" "start N workers that exercise the RTC interfaces";
   Help None "rtc-ops N" "stop after N RTC bogo operations";
   Help None "schedpolicy N" "start N workers that exercise scheduling policy";
   Help None "schedpolicy-ops N" "stop after N scheduling policy bogo operations";
   Help None "sctp N" "start N workers performing SCTP send/receives ";
   Help None "sctp-ops N" "stop after N SCTP bogo operations";
   Help None "sctp-domain D" "specify sctp domain, default is ipv4";
   Help None "sctp-port P" "use SCTP ports P to P + number of workers - 1";
   Help None "seal N" "start N workers performing fcntl SEAL commands";
   Help None "seal-ops N" "stop after N SEAL bogo operations";
   Help None "seccomp N" "start N workers performing seccomp call filtering";
   Help None "seccomp-ops N" "stop after N seccomp bogo operations";
   Help None "seek N" "start N workers performing random seek r/w IO";
   Help None "seek-ops N" "stop after N seek bogo operations";
   Help None "seek-punch" "punch random holes in file to stress extents";
   Help None "seek-size N" "length of file to do random I/O upon";
   Help None "sem N" "start N workers doing semaphore operations";
   Help None "sem-ops N" "stop after N semaphore bogo operations";
   Help None "sem-procs N" "number of processes to start per worker";
   Help None "sem-sysv N" "start N workers doing System V semaphore operations";
   Help None "sem-sysv-ops N" "stop after N System V sem bogo operations";
   Help None "sem-sysv-procs N" "number of processes to start per worker";
   Help None "sendfile N" "start N workers exercising sendfile";
   Help None "sendfile-ops N" "stop after N bogo sendfile operations";
   Help None "sendfile-size N" "size of data to be sent with sendfile";
   Help None "sgx N" "start N SGX enclaves";
   Help None "sgx-ops N" "stop after N sgx cpu bogo operations";
   Help None "sgx-method M" "specify stress sgx method M, default is all";
   Help None "sgx-vm N" "start N SGX enclaves spinning on trusted memory";
   Help None "sgx-vm-bytes N" "allocate N bytes per vm worker (default 32MB)";
   Help None "sgx-vm-hang N" "sleep N seconds before freeing memory";
   Help None "sgx-vm-keep" "redirty memory instead of reallocating";
   Help None "sgx-vm-ops N" "stop after N vm bogo operations";
   Help None "sgx-vm-method M" "specify stress vm method M, default is all";
   Help None "shm N" "start N workers that exercise POSIX shared memory";
   Help None "shm-ops N" "stop after N POSIX shared memory bogo operations";
   Help None "shm-bytes N" "allocate/free N bytes of POSIX shared memory";
   Help None "shm-segs N" "allocate N POSIX shared memory segments per iteration";
   Help None "shm-sysv N" "start N workers that exercise System V shared memory";
   Help None "shm-sysv-ops N" "stop after N shared memory bogo operations";
   Help None "shm-sysv-bytes N" "allocate and free N bytes of shared memory per loop";
   Help None "shm-sysv-segs N" "allocate N shared memory segments per iteration";
   Help None "sigfd N" "start N workers reading signals via signalfd reads ";
   Help None "sigfd-ops N" "stop after N bogo signalfd reads";
   Help None "sigfpe N" "start N workers generating floating point math faults";
   Help None "sigfpe-ops N" "stop after N bogo floating point math faults";
   Help None "sigpending N" "start N workers exercising sigpending";
   Help None "sigpending-ops N" "stop after N sigpending bogo operations";
   Help None "sigq N" "start N workers sending sigqueue signals";
   Help None "sigq-ops N" "stop after N siqqueue bogo operations";
   Help None "sigsegv N" "start N workers generating segmentation faults";
   Help None "sigsegv-ops N" "stop after N bogo segmentation faults";
   Help None "sigsuspend N" "start N workers exercising sigsuspend";
   Help None "sigsuspend-ops N" "stop after N bogo sigsuspend wakes";
   Help None "sleep N" "start N workers performing various duration sleeps";
   Help None "sleep-ops N" "stop after N bogo sleep operations";
   Help None "sleep-max P" "create P threads at a time by each worker";
   Help (Some "S N") "sock N" "start N workers exercising socket I/O";
   Help None "sock-domain D" "specify socket domain, default is ipv4";
   Help None "sock-nodelay" "disable Nagle algorithm, send data immediately";
   Help None "sock-ops N" "stop after N socket bogo operations";
   Help None "sock-opts option" "socket options [send|sendmsg|sendmmsg]";
   Help None "sock-port P" "use socket ports P to P + number of workers - 1";
   Help None "sock-type T" "socket type (stream, seqpacket)"].

Definition help_stressors_4 : list help_t :=
  [Help None "sockdiag N" "start N workers exercising sockdiag netlink";
   Help None "sockdiag-ops N" "stop sockdiag workers after N bogo messages";
   Help None "sockfd N" "start N workers sending file descriptors over sockets";
   Help None "sockfd-ops N" "stop after N sockfd bogo operations";
   Help None "sockfd-port P" "use socket fd ports P to P + number of workers - 1";
   Help None "sockpair N" "start N workers exercising socket pair I/O activity";
   Help None "sockpair-ops N" "stop after N socket pair bogo operations";
   Help None "softlockup N" "start N workers that cause softlockups";
   Help None "softlockup-ops N" "stop after N softlockup bogo operations";
   Help None "spawn" "start N workers spawning stress-ng using posix_spawn";
   Help None "spawn-ops N" "stop after N spawn bogo operations";
   Help None "splice N" "start N workers reading/writing using splice";
   Help None "splice-ops N" "stop after N bogo splice operations";
   Help None "splice-bytes N" "number of bytes to transfer per splice call";
   Help None "stack N" "start N workers generating stack overflows";
   Help None "stack-ops N" "stop after N bogo stack overflows";
   Help None "stack-fill" "fill stack, touches all new pages ";
   Help None "stackmmap N" "start N workers exercising a filebacked stack";
   Help None "stackmmap-ops N" "stop after N bogo stackmmap operations";
   Help None "str N" "start N workers exercising lib C string functions";
   Help None "str-method func" "specify the string function to stress";
   Help None "str-ops N" "stop after N bogo string operations";
   Help None "stream N" "start N workers exercising memory bandwidth";
   Help None "stream-ops N" "stop after N bogo stream operations";
   Help None "stream-l3-size N" "specify the L3 cache size of the CPU";
   Help None "stream-madvise M" "specify mmap'd stream buffer madvise advice";
   Help None "swap N" "start N workers exercising swapon/swapoff";
   Help None "swap-ops N" "stop after N swapon/swapoff operations";
   Help (Some "s N") "switch N" "start N workers doing rapid context switches";
   Help None "switch-ops N" "stop after N context switch bogo operations";
   Help None "symlink N" "start N workers creating symbolic links";
   Help None "symlink-ops N" "stop after N symbolic link bogo operations";
   Help None "sync-file N" "start N workers exercise sync_file_range";
   Help None "sync-file-ops N" "stop after N sync_file_range bogo operations";
   Help None "sync-file-bytes N" "size of file to be sync'd";
   Help None "sysinfo N" "start N workers reading system information";
   Help None "sysinfo-ops N" "stop after sysinfo bogo operations";
   Help None "sysfs N" "start N workers reading files from /sys";
   Help None "sysfs-ops N" "stop after sysfs bogo operations";
   Help None "tee N" "start N workers exercising the tee system call";
   Help None "tee-ops N" "stop after N tee bogo operations";
   Help (Some "T N") "timer N" "start N workers producing timer events";
   Help None "timer-ops N" "stop after N timer bogo events";
   Help None "timer-freq F" "run timer(s) at F Hz, range 1 to 1000000000";
   Help None "timer-rand" "enable random timer frequency";
   Help None "timerfd N" "start N workers producing timerfd events";
   Help None "timerfd-ops N" "stop after N timerfd bogo events";
   Help None "timerfd-freq F" "run timer(s) at F Hz, range 1 to 1000000000";
   Help None "timerfd-rand" "enable random timerfd frequency";
   Help None "tlb-shootdown N" "start N workers that force TLB shootdowns";
   Help None "tlb-shootdown-ops N" "stop after N TLB shootdown bogo ops";
   Help None "tmpfs N" "start N workers mmap'ing a file on tmpfs";
   Help None "tmpfs-ops N" "stop after N tmpfs bogo ops";
   Help None "tree N" "start N workers that exercise tree structures";
   Help None "tree-ops N" "stop after N bogo tree operations";
   Help None "tree-method M" "select tree method, all,avl,binary,rb,splay";
   Help None "tree-size N" "N is the number of items in the tree";
   Help None "tsc N" "start N workers reading the TSC (x86 only)";
   Help None "tsc-ops N" "stop after N TSC bogo operations";
   Help None "tsearch N" "start N workers that exercise a tree search";
   Help None "tsearch-ops N" "stop after N tree search bogo operations";
   Help None "tsearch-size N" "number of 32 bit integers to tsearch";
   Help None "udp N" "start N workers performing UDP send/receives ";
   Help None "udp-ops N" "stop after N udp bogo operations";
   Help None "udp-domain D" "specify domain, default is ipv4";
   Help None "udp-lite" "use the UDP-Lite (RFC 3828) protocol";
   Help None "udp-port P" "use ports P to P + number of workers - 1";
   Help None "udp-flood N" "start N workers that performs a UDP flood attack";
   Help None "udp-flood-ops N" "stop after N udp flood bogo operations";
   Help None "udp-flood-domain D" "specify domain, default is ipv4";
   Help None "unshare N" "start N workers exercising resource unsharing";
   Help None "unshare-ops N" "stop after N bogo unshare operations";
   Help (Some "u N") "urandom N" "start N workers reading /dev/urandom";
   Help None "urandom-ops N" "stop after N urandom bogo read operations";
   Help None "userfaultfd N" "start N page faulting workers with userspace handling";
   Help None "userfaultfd-ops N" "stop after N page faults have been handled";
   Help None "utime N" "start N workers updating file timestamps";
   Help None "utime-ops N" "stop after N utime bogo operations";
   Help None "utime-fsync" "force utime meta data sync to the file system";
   Help None "vecmath N" "start N workers performing vector math ops";
   Help None "vecmath-ops N" "stop after N vector math bogo operations";
   Help None "vfork N" "start N workers spinning on vfork() and exit()";
   Help None "vfork-ops N" "stop after N vfork bogo operations";
   Help None "vfork-max P" "create P processes per iteration, default is 1";
   Help None "vforkmany N" "start N workers spawning many vfork children";
   Help None "vforkmany-ops N" "stop after spawning N vfork children";
   Help (Some "m N") "vm N" "start N workers spinning on anonymous mmap";
   Help None "vm-bytes N" "allocate N bytes per vm worker (default 256MB)";
   Help None "vm-hang N" "sleep N seconds before freeing memory";
   Help None "vm-keep" "redirty memory instead of reallocating";
   Help None "vm-ops N" "stop after N vm bogo operations"] ++
  ifdef defined "MAP_LOCKED" [Help None "vm-locked" "lock the pages of the mapped region into memory"] ++
  [Help None "vm-madvise M" "specify mmap'd vm buffer madvise advice";
   Help None "vm-method M" "specify stress vm method M, default is all"] ++
  ifdef defined "MAP_POPULATE" [Help None "vm-populate" "populate (prefault) page tables for a mapping"] ++
  [Help None "vm-rw N" "start N vm read/write process_vm* copy workers";
   Help None "vm-rw-bytes N" "transfer N bytes of memory per bogo operation";
   Help None "vm-rw-ops N" "stop after N vm process_vm* copy bogo operations";
   Help None "vm-splice N" "start N workers reading/writing using vmsplice";
   Help None "vm-splice-ops N" "stop after N bogo splice operations";
   Help None "vm-splice-bytes N" "number of bytes to transfer per vmsplice call";
   Help None "wait N" "start N workers waiting on child being stop/resumed";
   Help None "wait-ops N" "stop after N bogo wait operations";
   Help None "wcs N" "start N workers on lib C wide char string functions";
   Help None "wcs-method func" "specify the wide character string function to stress";
   Help None "wcs-ops N" "stop after N bogo wide character string operations";
   Help None "xattr N" "start N workers stressing file extended attributes";
   Help None "xattr-ops N" "stop after N bogo xattr operations";
   Help (Some "y N") "yield N" "start N workers doing sched_yield() calls";
   Help None "yield-ops N" "stop after N bogo yield operations";
   Help None "zero N" "start N workers reading /dev/zero";
   Help None "zero-ops N" "stop after N /dev/zero bogo read operations";
   Help None "zlib N" "start N workers compressing data with zlib";
   Help None "zlib-ops N" "stop after N zlib bogo compression operations";
   Help None "zlib-method M" "specify stress zlib random data generation method M";
   Help None "zombie N" "start N workers that rapidly create and reap zombies";
   Help None "zombie-ops N" "stop after N bogo zombie fork operations";
   Help None "zombie-max N" "set upper limit of N zombies per worker"].

Definition help_stressors : list help_t :=
  help_stressors_1 ++ help_stressors_2 ++ help_stressors_3 ++ help_stressors_4.
End Tables.

(** ** The text *)

(** [%-Ns] *)
Definition pad_right (n : nat) (s : string) : string := s +:+ String.string_of_list_ascii (repeat " "%char (n - String.length s)).

(** a buffer of [n] bytes made by [snprintf()] *)
Definition snprintf (n : nat) (s : string) : string := String.substring 0 (n - 1) s.

Definition opt_s_text (e : help_t) : string :=
  match opt_s e with Some s => snprintf 10 ("-" +:+ s +:+ ",") | None => EmptyString end.

Definition usage_line (e : help_t) : string :=
  pad_right 6 (opt_s_text e) +:+ "--" +:+ pad_right 19 (opt_l e) +:+ description e.
Definition usage_help (help_info : list help_t) : list string := usage_line <$> help_info.

Definition version (g_app_name VERSION : string) : string := g_app_name +:+ ", version " +:+ VERSION.

(** the lines written before [exit(EXIT_SUCCESS)] *)
Definition usage (defined : string -> bool) (g_app_name VERSION : string) : list string :=
  [version g_app_name VERSION; EmptyString; "Usage: " +:+ g_app_name +:+ " [OPTION [ARG]]"; EmptyString;
   "General control options:"] ++ usage_help (help_generic defined) ++
  [EmptyString; "Stressor specific options:"] ++ usage_help (help_stressors defined) ++
  [EmptyString; "Example: " +:+ g_app_name +:+ " --cpu 8 --io 4 --vm 2 --vm-bytes 128M --fork 4 --timeout 10s"; EmptyString;
   "Note: Sizes can be suffixed with B,K,M,G and times with s,m,h,d,y"].

(** ** The tables and the options *)

(** the text before the first space, and whether there is one *)
Fixpoint first_word (s : string) : string :=
  match s with
  | EmptyString => EmptyString
  | String c s => if eqc c " " then EmptyString else String c (first_word s)
  end.
Definition has_space (s : string) : bool := negb (String.eqb (first_word s) s).

Definition shown_option (e : help_t) : string := first_word (opt_l e).

Fixpoint lookup_option (name : string) (opts : list (string * bool * Z)) : option (bool * Z) :=
  match opts with
  | [] => None
  | (n, arg, v) :: opts => if String.eqb n name then Some (arg, v) else lookup_option name opts
  end.

Definition in_list (s : string) (l : list string) : bool := existsb (String.eqb s) l.

(** *** the exceptions *)

(** shown, but not an option: the option is [--shm-objs] *)
Definition help_unknown : list string := ["shm-segs"].
(** shown without the argument they have *)
Definition help_no_argument : list string :=
  ["taskset"; "temp-path"; "timer-slack"; "yaml"; "exclude"; "apparmor"; "apparmor-ops"; "atomic"; "atomic-ops"; "dev";
   "dev-ops"; "memrate-ops"; "spawn"].
(** shown with a short option that is not one *)
Definition help_no_short : list string := ["qsort"].
(** options that are not shown *)
Definition help_missing : list string :=
  ["cache-no-affinity"; "cpu-online-all"; "hrtimers"; "hrtimers-ops"; "ioport"; "ioport-ops"; "ioport-opts"; "itimer-freq";
   "oomable"; "physpage"; "physpage-ops"; "shm-objs"; "userfaultfd-bytes"].

(** the short option is in the string given to [getopt_long()], with an argument or
    not, and is the value of the long one *)
Definition short_agrees (s : string) (has_arg : bool) (v : Z) : bool :=
  match s with
  | String c _ => bool_decide (short_option optstring c = Some has_arg) && (v =? code c)
  | EmptyString => false
  end.

Definition entry_agrees (e : help_t) : bool :=
  let name := shown_option e in
  match lookup_option name option_values with
  | None => in_list name help_unknown
  | Some (has_arg, v) =>
      (if in_list name help_no_argument then has_arg && negb (has_space (opt_l e)) else Bool.eqb has_arg (has_space (opt_l e))) &&
      match opt_s e with
      | None => true
      | Some s => (String.length ("-" +:+ s +:+ ",") <? 10)%nat && xorb (in_list name help_no_short) (short_agrees s has_arg v)
      end
  end.

(** the macros on which an entry of the tables depends *)
Definition help_macros : list string := ["STRESS_PERF_STATS"; "STRESS_THERMAL_ZONES"; "F_SETPIPE_SZ"; "MAP_LOCKED"; "MAP_POPULATE"].

Lemma help_generic_agrees defined : forallb entry_agrees (help_generic defined) = true.
Proof. unfold help_generic, ifdef. destruct (defined "STRESS_PERF_STATS"), (defined "STRESS_THERMAL_ZONES"); vm_compute; reflexivity. Qed.

Lemma help_stressors_agrees defined : forallb entry_agrees (help_stressors defined) = true.
Proof.
  unfold help_stressors. rewrite !forallb_app. unfold help_stressors_1, help_stressors_2, help_stressors_3, help_stressors_4, ifdef.
  destruct (defined "F_SETPIPE_SZ"), (defined "MAP_LOCKED"), (defined "MAP_POPULATE"); vm_compute; reflexivity.
Qed.

Lemma help_shows defined : (forall x, x ∈ help_macros -> defined x = true) ->
  forallb (fun o => in_list o.1.1 help_missing || in_list o.1.1 (shown_option <$> help_generic defined ++ help_stressors defined))
    option_values = true.
Proof.
  intros H. unfold help_stressors, help_generic, help_stressors_1, help_stressors_2, help_stressors_3, help_stressors_4, ifdef.
  rewrite (H "STRESS_PERF_STATS"), (H "STRESS_THERMAL_ZONES"), (H "F_SETPIPE_SZ"), (H "MAP_LOCKED"), (H "MAP_POPULATE")
    by (apply (bool_decide_unpack _); vm_compute; exact I).
  vm_compute. reflexivity.
Qed.

Lemma in_list_elem s l : in_list s l = true -> s ∈ l.
Proof. intros (x & Hx & ->%String.eqb_eq)%existsb_exists. by apply list_elem_of_In. Qed.

(** The help and the parser agree: each entry of the tables is an option of the parser
    under the same name, with an argument if and only if one is shown, and with a short
    option that stands for the same value and fits its buffer -- except that
    [--shm-segs] is none, that 13 options are shown without their argument, and that
    [-Q] is none.  Each option of the parser is shown, except for 13. *)
Theorem help_matches_options defined :
  (forall e, e ∈ help_generic defined ++ help_stressors defined -> entry_agrees e = true) /\
  ((forall x, x ∈ help_macros -> defined x = true) -> forall name arg v, (name, arg, v) ∈ option_values ->
     name ∈ help_missing \/ exists e, e ∈ help_generic defined ++ help_stressors defined /\ shown_option e = name).
Proof.
  split.
  - intros e He. pose proof (help_generic_agrees defined) as Hg. pose proof (help_stressors_agrees defined) as Hs.
    rewrite forallb_forall in Hg, Hs. apply elem_of_app in He as [He|He]; [apply Hg | apply Hs]; by apply list_elem_of_In.
  - intros Hd name arg v Ho. pose proof (help_shows defined Hd) as H. rewrite forallb_forall in H.
    apply list_elem_of_In, H in Ho. cbn [fst] in Ho. apply orb_true_iff in Ho as [Ho|Ho]; apply in_list_elem in Ho; [by left|right].
    apply list_elem_of_fmap in Ho as (e & -> & He). eauto.
Qed.

Lemma help_matches_options_witness :
  entry_agrees (Help (Some "t N") "timeout T" "timeout after T seconds") = true /\
  exists e, e ∈ help_generic (fun _ => true) ++ help_stressors (fun _ => true) /\ shown_option e = "sgx".
Proof.
  split.
  - apply (proj1 (help_matches_options (fun _ => true))). apply elem_of_app. left. apply (list_elem_of_lookup_2 _ 34). reflexivity.
  - destruct (proj2 (help_matches_options (fun _ => true)) (fun _ _ => eq_refl) "sgx" true (OPT "SGX")) as [H|H]; [| |exact H].
    + destruct (list_find (fun o => o = ("sgx", true, OPT "SGX")) option_values) as [[i o]|] eqn:E; [|vm_compute in E; discriminate].
      apply list_find_Some in E as (E & -> & _). by eapply list_elem_of_lookup_2.
    + exfalso. revert H. apply (bool_decide_unpack _). vm_compute. exact I.
Defined.
