(* ===== verification/Choices.v ===== *)
(** * The values the stressors run with (stress-*.c)

    At its start a stressor reads its option; when it was not given, the value
    is the default, or the largest or the smallest one under [--maximize] and
    [--minimize].  Sizes are then shared among the instances and kept above a
    floor, and what the system or another option asks for is taken into account.  One definition per
    stressor and option, with every assignment of the variable. *)

From S2P Require Import Prelude Flags Limits Outcome ParseOpts Settings Setters Named.

Record renv := REnv {
  r_proc : ptr;           (** the stressor *)
  r_store : store;
  r_flags : Z;            (** [g_opt_flags] *)
  r_instances : Z;        (** [args->num_instances] *)
  r_page_size : Z;        (** [args->page_size] *)
  r_local : Z             (** the address of the local variable *)
}.

Definition is_signed (t : type_id) : bool :=
  match t with
  | TYPE_ID_INT8 | TYPE_ID_INT16 | TYPE_ID_INT32 | TYPE_ID_INT64 | TYPE_ID_SSIZE_T | TYPE_ID_INT | TYPE_ID_LONG
  | TYPE_ID_OFF_T => true
  | _ => false
  end.

(** the value of a variable of type [t] with the bytes [bs] *)
Definition le_value (bs : list Z) : Z := foldr (fun b v => b + 256 * v) 0 bs.
Definition var_value (t : type_id) (bs : list Z) : Z :=
  let v := le_value bs in
  let n := 8 * Z.of_nat (width t) in
  if is_signed t && (2 ^ (n - 1) <=? v) then v - 2 ^ n else v.

(** a variable of type [t] that holds [default], read with [get_setting] *)
Definition read_setting (r : renv) (nm : string) (t : type_id) (default : Z) : option (bool * Z) :=
  '(found, m) ← get_setting (r_proc r) nm (r_local r) (r_store r)
                  (write_bytes (fun _ => 0) (r_local r) (le_bytes (width t) default));
  Some (found, var_value t (read_bytes m (r_local r) (width t))).

Definition choose (r : renv) (nm : string) (t : type_id) (default max min : Z) : option Z :=
  '(found, x) ← read_setting r nm t default;
  if found : bool then Some x
  else
    let x := if c_true (r_flags r .& OPT_FLAGS_MAXIMIZE) then max else x in
    Some (if c_true (r_flags r .& OPT_FLAGS_MINIMIZE) then min else x).

Definition DEFAULT_AIO_MAX_NR : Z := 65536.

(** [aio_max] is what [sscanf()] reads of /proc/sys/fs/aio-max-nr, if it can be read; the stressor returns if the number is out of range *)
Definition chosen_aiol_requests (aio_max : option Z) (r : renv) : option Z :=
  x ← choose r "aiol-requests" TYPE_ID_UINT64 DEFAULT_AIO_LINUX_REQUESTS MAX_AIO_REQUESTS MIN_AIO_REQUESTS;
  if (x <? MIN_AIO_REQUESTS) || (MAX_AIO_REQUESTS <? x) then None
  else
    let aio_max_nr := match aio_max with Some n => u64 n | None => DEFAULT_AIO_MAX_NR end in
    let aio_max_nr := aio_max_nr ÷ (if r_instances r =? 0 then 1 else r_instances r) in
    let aio_max_nr := if aio_max_nr <? 1 then 1 else aio_max_nr in
    let x := if aio_max_nr <? x then aio_max_nr else x in
    Some x.

Definition chosen_aio_requests (r : renv) : option Z :=
  choose r "aio-requests" TYPE_ID_UINT64 DEFAULT_AIO_REQUESTS MAX_AIO_REQUESTS MIN_AIO_REQUESTS.

Definition chosen_bigheap_growth (r : renv) : option Z :=
  x ← choose r "bigheap-growth" TYPE_ID_UINT64 DEFAULT_BIGHEAP_GROWTH MAX_BIGHEAP_GROWTH MIN_BIGHEAP_GROWTH;
  let x := if x <? r_page_size r then r_page_size r else x in
  let x := x .& not64 (r_page_size r - 1) in
  Some x.

Definition chosen_bsearch_size (r : renv) : option Z :=
  choose r "bsearch-size" TYPE_ID_UINT64 DEFAULT_BSEARCH_SIZE MAX_BSEARCH_SIZE MIN_BSEARCH_SIZE.

Definition chosen_clone_max (r : renv) : option Z :=
  choose r "clone-max" TYPE_ID_UINT64 DEFAULT_ZOMBIES MAX_ZOMBIES MIN_ZOMBIES.

Definition chosen_copy_file_bytes (r : renv) : option Z :=
  x ← choose r "copy-file-bytes" TYPE_ID_UINT64 DEFAULT_COPY_FILE_BYTES MAX_HDD_BYTES MIN_HDD_BYTES;
  let x := x ÷ r_instances r in
  let x := if x <? DEFAULT_COPY_FILE_SIZE then (DEFAULT_COPY_FILE_SIZE * 2) else x in
  let x := if x <? MIN_COPY_FILE_BYTES then MIN_COPY_FILE_BYTES else x in
  Some x.

Definition chosen_dentries (r : renv) : option Z :=
  choose r "dentries" TYPE_ID_UINT64 DEFAULT_DENTRIES MAX_DENTRIES MIN_DENTRIES.

Definition chosen_fallocate_bytes (r : renv) : option Z :=
  x ← choose r "fallocate-bytes" TYPE_ID_OFF_T DEFAULT_FALLOCATE_BYTES MAX_FALLOCATE_BYTES MIN_FALLOCATE_BYTES;
  let x := x ÷ r_instances r in
  let x := if x <? MIN_FALLOCATE_BYTES then MIN_FALLOCATE_BYTES else x in
  Some x.

Definition chosen_fiemap_bytes (r : renv) : option Z :=
  x ← choose r "fiemap-bytes" TYPE_ID_UINT64 DEFAULT_FIEMAP_SIZE MAX_SEEK_SIZE MIN_SEEK_SIZE;
  let x := x ÷ r_instances r in
  let x := if x <? MIN_FIEMAP_SIZE then MIN_FIEMAP_SIZE else x in
  Some x.

Definition chosen_fifo_readers (r : renv) : option Z :=
  choose r "fifo-readers" TYPE_ID_UINT64 DEFAULT_FIFO_READERS MAX_FIFO_READERS MIN_FIFO_READERS.

Definition chosen_fork_max (r : renv) : option Z :=
  choose r "fork-max" TYPE_ID_UINT64 DEFAULT_FORKS MAX_FORKS MIN_FORKS.

Definition chosen_vfork_max (r : renv) : option Z :=
  choose r "vfork-max" TYPE_ID_UINT64 DEFAULT_VFORKS MAX_VFORKS MIN_VFORKS.

Definition BUF_ALIGNMENT : Z := 4096.
Definition HDD_IO_VEC_MAX : Z := 16.

(** the size of a write made large enough and, for vectors, a multiple of their number *)
Definition hdd_io_size (hdd_flags x : Z) : Z :=
  let iovec := c_true (hdd_flags .& HDD_OPT_IOVEC) in
  let min_size :=
    if c_true (hdd_flags .& HDD_OPT_O_DIRECT)
    then if iovec then HDD_IO_VEC_MAX * BUF_ALIGNMENT else MIN_HDD_WRITE_SIZE
    else if iovec then HDD_IO_VEC_MAX * MIN_HDD_WRITE_SIZE else MIN_HDD_WRITE_SIZE in
  let x := if x <? min_size then min_size else x in
  let remainder := x mod HDD_IO_VEC_MAX in
  if iovec && negb (remainder =? 0) then u64 (x + (HDD_IO_VEC_MAX - remainder)) else x.

Definition chosen_hdd_write_size (r : renv) : option Z :=
  '(_, hdd_flags) ← read_setting r "hdd-flags" TYPE_ID_INT 0;
  x ← choose r "hdd-write-size" TYPE_ID_UINT64 DEFAULT_HDD_WRITE_SIZE MAX_HDD_WRITE_SIZE MIN_HDD_WRITE_SIZE;
  Some (hdd_io_size hdd_flags x).

Definition chosen_hdd_bytes (r : renv) : option Z :=
  x ← choose r "hdd-bytes" TYPE_ID_UINT64 DEFAULT_HDD_BYTES MAX_HDD_BYTES MIN_HDD_BYTES;
  let x := x ÷ r_instances r in
  let x := if x <? MIN_HDD_WRITE_SIZE then MIN_HDD_WRITE_SIZE else x in
  hdd_write_size ← chosen_hdd_write_size r;
  let x := if x <? hdd_write_size then hdd_write_size else x in
  Some x.

Definition chosen_heapsort_size (r : renv) : option Z :=
  choose r "heapsort-size" TYPE_ID_UINT64 DEFAULT_HEAPSORT_SIZE MAX_HEAPSORT_SIZE MIN_HEAPSORT_SIZE.

Definition chosen_hsearch_size (r : renv) : option Z :=
  choose r "hsearch-size" TYPE_ID_UINT64 DEFAULT_HSEARCH_SIZE MAX_HSEARCH_SIZE MIN_HSEARCH_SIZE.

Definition chosen_iomix_bytes (r : renv) : option Z :=
  x ← choose r "iomix-bytes" TYPE_ID_OFF_T DEFAULT_IOMIX_BYTES MAX_FALLOCATE_BYTES MIN_FALLOCATE_BYTES;
  let x := x ÷ r_instances r in
  let x := if x <? MIN_IOMIX_BYTES then MIN_IOMIX_BYTES else x in
  let x := if x <? r_page_size r then r_page_size r else x in
  Some x.

Definition chosen_itimer_freq (r : renv) : option Z :=
  choose r "itimer-freq" TYPE_ID_UINT64 DEFAULT_TIMER_FREQ MAX_ITIMER_FREQ MIN_ITIMER_FREQ.

Definition chosen_lease_breakers (r : renv) : option Z :=
  choose r "lease-breakers" TYPE_ID_UINT64 DEFAULT_LEASE_BREAKERS MAX_LEASE_BREAKERS MIN_LEASE_BREAKERS.

Definition chosen_lsearch_size (r : renv) : option Z :=
  choose r "lsearch-size" TYPE_ID_UINT64 DEFAULT_LSEARCH_SIZE MAX_LSEARCH_SIZE MIN_LSEARCH_SIZE.

Definition chosen_malloc_bytes (r : renv) : option Z :=
  x ← choose r "malloc-bytes" TYPE_ID_SIZE_T DEFAULT_MALLOC_BYTES MAX_MALLOC_BYTES MIN_MALLOC_BYTES;
  let x := x ÷ r_instances r in
  let x := if x <? MIN_MALLOC_BYTES then MIN_MALLOC_BYTES else x in
  Some x.

Definition chosen_malloc_max (r : renv) : option Z :=
  choose r "malloc-max" TYPE_ID_SIZE_T DEFAULT_MALLOC_MAX MAX_MALLOC_MAX MIN_MALLOC_MAX.

Definition chosen_matrix_size (r : renv) : option Z :=
  choose r "matrix-size" TYPE_ID_SIZE_T 128 MAX_MATRIX_SIZE MIN_MATRIX_SIZE.

Definition chosen_memfd_bytes (r : renv) : option Z :=
  x ← choose r "memfd-bytes" TYPE_ID_SIZE_T DEFAULT_MEMFD_BYTES MAX_MEMFD_BYTES MIN_MEMFD_BYTES;
  let x := x ÷ r_instances r in
  let x := if x <? MIN_MEMFD_BYTES then MIN_MEMFD_BYTES else x in
  Some x.

Definition chosen_mergesort_size (r : renv) : option Z :=
  choose r "mergesort-size" TYPE_ID_UINT64 DEFAULT_MERGESORT_SIZE MAX_MERGESORT_SIZE MIN_MERGESORT_SIZE.

Definition chosen_mmap_bytes (r : renv) : option Z :=
  x ← choose r "mmap-bytes" TYPE_ID_SIZE_T DEFAULT_MMAP_BYTES MAX_MMAP_BYTES MIN_MMAP_BYTES;
  let x := x ÷ r_instances r in
  let x := if x <? MIN_MMAP_BYTES then MIN_MMAP_BYTES else x in
  let x := if x <? r_page_size r then r_page_size r else x in
  Some x.

Definition chosen_mq_size (r : renv) : option Z :=
  choose r "mq-size" TYPE_ID_INT DEFAULT_MQ_SIZE MAX_MQ_SIZE MIN_MQ_SIZE.

Definition chosen_mremap_bytes (r : renv) : option Z :=
  x ← choose r "mremap-bytes" TYPE_ID_SIZE_T DEFAULT_MREMAP_BYTES MAX_MREMAP_BYTES MIN_MREMAP_BYTES;
  let x := x ÷ r_instances r in
  let x := if x <? MIN_MREMAP_BYTES then MIN_MREMAP_BYTES else x in
  let x := if x <? r_page_size r then r_page_size r else x in
  Some x.

Definition chosen_msync_bytes (r : renv) : option Z :=
  x ← choose r "msync-bytes" TYPE_ID_SIZE_T DEFAULT_MSYNC_BYTES MAX_MSYNC_BYTES MIN_MSYNC_BYTES;
  let x := x ÷ r_instances r in
  let x := if x <? MIN_MSYNC_BYTES then MIN_MSYNC_BYTES else x in
  let x := if x <? r_page_size r then r_page_size r else x in
  Some x.

Definition chosen_pthread_max (r : renv) : option Z :=
  pthread_max ← choose r "pthread-max" TYPE_ID_UINT64 DEFAULT_PTHREAD MAX_PTHREAD MIN_PTHREAD;
  '(found, max) ← read_setting r "pthread-max-adjustment" TYPE_ID_UINT64 0;
  Some (if found && (max <? pthread_max) then max else pthread_max).

Definition chosen_qsort_size (r : renv) : option Z :=
  choose r "qsort-size" TYPE_ID_UINT64 DEFAULT_QSORT_SIZE MAX_QSORT_SIZE MIN_QSORT_SIZE.

Definition chosen_radixsort_size (r : renv) : option Z :=
  choose r "radixsort-size" TYPE_ID_UINT64 DEFAULT_RADIXSORT_SIZE MAX_RADIXSORT_SIZE MIN_RADIXSORT_SIZE.

Definition chosen_readahead_bytes (r : renv) : option Z :=
  x ← choose r "readahead-bytes" TYPE_ID_UINT64 DEFAULT_READAHEAD_BYTES MAX_HDD_BYTES MIN_HDD_BYTES;
  let x := x ÷ r_instances r in
  let x := if x <? MIN_HDD_BYTES then MIN_HDD_BYTES else x in
  Some x.

Definition chosen_seek_size (r : renv) : option Z :=
  choose r "seek-size" TYPE_ID_UINT64 DEFAULT_SEEK_SIZE MAX_SEEK_SIZE MIN_SEEK_SIZE.

Definition chosen_sem_sysv_procs (r : renv) : option Z :=
  choose r "sem-sysv-procs" TYPE_ID_UINT64 DEFAULT_SEMAPHORE_PROCS MAX_SEMAPHORE_PROCS MIN_SEMAPHORE_PROCS.

Definition chosen_sem_procs (r : renv) : option Z :=
  choose r "sem-procs" TYPE_ID_UINT64 DEFAULT_SEMAPHORE_PROCS MAX_SEMAPHORE_PROCS MIN_SEMAPHORE_PROCS.

Definition chosen_sendfile_size (r : renv) : option Z :=
  choose r "sendfile-size" TYPE_ID_INT64 DEFAULT_SENDFILE_SIZE MAX_SENDFILE_SIZE MIN_SENDFILE_SIZE.

Definition chosen_sgx_vm_bytes (r : renv) : option Z :=
  x ← choose r "sgx-vm-bytes" TYPE_ID_SIZE_T DEFAULT_SGX_VM_BYTES MAX_VM_BYTES MIN_VM_BYTES;
  let x := x ÷ r_instances r in
  let x := if x <? MIN_VM_BYTES then MIN_VM_BYTES else x in
  Some x.

Definition chosen_shm_sysv_bytes (r : renv) : option Z :=
  x ← choose r "shm-sysv-bytes" TYPE_ID_SIZE_T DEFAULT_SHM_SYSV_BYTES MAX_SHM_SYSV_BYTES MIN_SHM_SYSV_BYTES;
  let x := if x <? r_page_size r then r_page_size r else x in
  Some x.

Definition chosen_shm_sysv_segs (r : renv) : option Z :=
  x ← choose r "shm-sysv-segs" TYPE_ID_SIZE_T DEFAULT_SHM_SYSV_SEGMENTS MAX_SHM_SYSV_SEGMENTS MIN_SHM_SYSV_SEGMENTS;
  let x := x ÷ r_instances r in
  let x := if x <? 1 then 1 else x in
  Some x.

Definition chosen_shm_bytes (r : renv) : option Z :=
  x ← choose r "shm-bytes" TYPE_ID_SIZE_T DEFAULT_SHM_POSIX_BYTES MAX_SHM_POSIX_BYTES MIN_SHM_POSIX_BYTES;
  let x := x ÷ r_instances r in
  let x := if x <? MIN_SHM_POSIX_BYTES then MIN_SHM_POSIX_BYTES else x in
  let x := if x <? r_page_size r then r_page_size r else x in
  Some x.

Definition chosen_shm_objs (r : renv) : option Z :=
  choose r "shm-objs" TYPE_ID_SIZE_T DEFAULT_SHM_POSIX_OBJECTS MAX_SHM_POSIX_OBJECTS MIN_SHM_POSIX_OBJECTS.

Definition chosen_sleep_max (r : renv) : option Z :=
  sleep_max ← choose r "sleep-max" TYPE_ID_UINT64 DEFAULT_SLEEP MAX_SLEEP MIN_SLEEP;
  '(found, sleep_max_adjustment) ← read_setting r "sleep-max-adjustment" TYPE_ID_UINT64 0;
  Some (if found && (sleep_max_adjustment <? sleep_max) then sleep_max_adjustment else sleep_max).

Definition chosen_splice_bytes (r : renv) : option Z :=
  x ← choose r "splice-bytes" TYPE_ID_SIZE_T DEFAULT_SPLICE_BYTES MAX_SPLICE_BYTES MIN_SPLICE_BYTES;
  let x := x ÷ r_instances r in
  let x := if x <? MIN_SPLICE_BYTES then MIN_SPLICE_BYTES else x in
  Some x.

Definition chosen_sync_file_bytes (r : renv) : option Z :=
  x ← choose r "sync_file-bytes" TYPE_ID_OFF_T DEFAULT_SYNC_FILE_BYTES MAX_SYNC_FILE_BYTES MIN_SYNC_FILE_BYTES;
  let x := x ÷ r_instances r in
  let x := if x <? MIN_SYNC_FILE_BYTES then MIN_SYNC_FILE_BYTES else x in
  Some x.

Definition chosen_timer_freq (r : renv) : option Z :=
  choose r "timer-freq" TYPE_ID_UINT64 DEFAULT_TIMER_FREQ MAX_TIMER_FREQ MIN_TIMER_FREQ.

Definition chosen_timerfd_freq (r : renv) : option Z :=
  choose r "timerfd-freq" TYPE_ID_UINT64 DEFAULT_TIMERFD_FREQ MAX_TIMERFD_FREQ MIN_TIMERFD_FREQ.

Definition chosen_tree_size (r : renv) : option Z :=
  choose r "tree-size" TYPE_ID_UINT64 DEFAULT_TREE_SIZE MAX_TREE_SIZE MIN_TREE_SIZE.

Definition chosen_tsearch_size (r : renv) : option Z :=
  choose r "tsearch-size" TYPE_ID_UINT64 DEFAULT_TSEARCH_SIZE MAX_TSEARCH_SIZE MIN_TSEARCH_SIZE.

Definition chosen_userfaultfd_bytes (r : renv) : option Z :=
  x ← choose r "userfaultfd-bytes" TYPE_ID_SIZE_T DEFAULT_MMAP_BYTES MAX_MMAP_BYTES MIN_MMAP_BYTES;
  let x := x ÷ r_instances r in
  let x := if x <? MIN_MMAP_BYTES then MIN_MMAP_BYTES else x in
  let x := if x <? r_page_size r then r_page_size r else x in
  Some x.

Definition chosen_vm_rw_bytes (r : renv) : option Z :=
  x ← choose r "vm-rw-bytes" TYPE_ID_SIZE_T DEFAULT_VM_RW_BYTES MAX_VM_RW_BYTES MIN_VM_RW_BYTES;
  let x := x ÷ r_instances r in
  let x := if x <? MIN_VM_RW_BYTES then MIN_VM_RW_BYTES else x in
  let x := if x <? r_page_size r then r_page_size r else x in
  Some x.

Definition chosen_vm_splice_bytes (r : renv) : option Z :=
  x ← choose r "vm-splice-bytes" TYPE_ID_SIZE_T DEFAULT_VM_SPLICE_BYTES MAX_VM_SPLICE_BYTES MIN_VM_SPLICE_BYTES;
  let x := x ÷ r_instances r in
  let x := if x <? MIN_VM_SPLICE_BYTES then MIN_VM_SPLICE_BYTES else x in
  let x := if x <? r_page_size r then r_page_size r else x in
  Some x.

Definition chosen_vm_bytes (r : renv) : option Z :=
  x ← choose r "vm-bytes" TYPE_ID_SIZE_T DEFAULT_VM_BYTES MAX_VM_BYTES MIN_VM_BYTES;
  let x := x ÷ r_instances r in
  let x := if x <? MIN_VM_BYTES then MIN_VM_BYTES else x in
  Some x.

Definition chosen_zombie_max (r : renv) : option Z :=
  choose r "zombie-max" TYPE_ID_UINT64 DEFAULT_ZOMBIES MAX_ZOMBIES MIN_ZOMBIES.

(** the options read without [--maximize] and [--minimize] *)
Definition read_pipe_data_size (r : renv) : option Z := snd <$> read_setting r "pipe-data-size" TYPE_ID_SIZE_T 512.
Definition read_vm_hang (r : renv) : option Z := snd <$> read_setting r "vm-hang" TYPE_ID_UINT64 DEFAULT_VM_HANG.
Definition read_sgx_vm_hang (r : renv) : option Z :=
  snd <$> read_setting r "sgx-vm-hang" TYPE_ID_UINT64 DEFAULT_VM_HANG.
Definition read_cpu_load (r : renv) : option Z := snd <$> read_setting r "cpu-load" TYPE_ID_INT32 100.
