(* ===== verification/OptionsOk.v ===== *)
(** * From the command line to the stressor

    The setters and the readers meet in the settings store.  Every setter keeps
    to the specification of its option (its name, the type of the value, its
    range).

    - [option_reaches_stressor]: what a stressor reads, under its own name and type, is the number that was
      given; two options are lost on the way ([lost_reads]).
    - [settings_well_typed]: every value is read with the width with which it is stored.
    - [chosen_within_limits]: the value a stressor of [readers] runs with, after every adjustment, is in the range that the setter of
      its option enforces. *)

From S2P Require Import Prelude Flags Limits Outcome ParseOpts Helpers Settings Procs Tables Setters Named Choices.
Import Settings.

(** ** Bytes of integers *)

Definition in_type (t : type_id) (v : Z) : Prop :=
  let n := 8 * Z.of_nat (width t) in
  if is_signed t then - 2 ^ (n - 1) <= v < 2 ^ (n - 1) else 0 <= v < 2 ^ n.

(** the same, to compute *)
Definition in_typeb (t : type_id) (v : Z) : bool :=
  let n := 8 * Z.of_nat (width t) in
  if is_signed t then (- 2 ^ (n - 1) <=? v) && (v <? 2 ^ (n - 1)) else (0 <=? v) && (v <? 2 ^ n).

Lemma in_typeb_ok t v : in_typeb t v = true -> in_type t v.
Proof. unfold in_typeb, in_type. destruct (is_signed t); lia. Qed.

(** integers; not strings, which are kept by address *)
Definition scalar (t : type_id) : bool :=
  match t with TYPE_ID_UNDEFINED | TYPE_ID_STR => false | _ => true end.

Lemma le_bytes_length n v : length (le_bytes n v) = n.
Proof. unfold le_bytes. by rewrite length_fmap, length_seq. Qed.

Lemma le_bytes_S n v : le_bytes (S n) v = u8 v :: le_bytes n (v >>> 8).
Proof.
  unfold le_bytes. cbn [seq]. rewrite fmap_cons. f_equal.
  rewrite <- (fmap_S_seq 0 n), <- list_fmap_compose. apply list_fmap_ext. intros i x _. unfold compose. f_equal.
  rewrite Z.shiftr_shiftr by lia. f_equal. lia.
Qed.

Lemma le_value_le_bytes n v : le_value (le_bytes n v) = v mod 2 ^ (8 * Z.of_nat n).
Proof.
  revert v. induction n as [|n IH]; intros v; [by rewrite Z.mod_1_r|].
  rewrite le_bytes_S. cbn [le_value foldr]. fold (le_value (le_bytes n (v >>> 8))). rewrite IH.
  rewrite Z.shiftr_div_pow2 by lia. unfold u8.
  replace (8 * Z.of_nat (S n)) with (8 + 8 * Z.of_nat n) by lia. rewrite Z.pow_add_r by lia.
  rewrite Z.rem_mul_r by (try apply Z.pow_nonzero; try apply Z.pow_pos_nonneg; lia). change (2 ^ 8) with 256. lia.
Qed.

Lemma var_value_le_bytes t v : scalar t = true -> in_type t v -> var_value t (le_bytes (width t) v) = v.
Proof.
  unfold in_type, var_value. rewrite le_value_le_bytes. intros Ht Hv.
  assert (0 < 8 * Z.of_nat (width t)) as Hn by (by destruct t).
  revert Hn Hv. generalize (8 * Z.of_nat (width t)). intros n Hn Hv.
  assert (2 ^ n = 2 * 2 ^ (n - 1)) as Hp by (rewrite <- Z.pow_succ_r by lia; f_equal; lia).
  assert (0 < 2 ^ (n - 1)) by (apply Z.pow_pos_nonneg; lia).
  destruct (is_signed t); cbn [andb]; [|by rewrite Z.mod_small].
  destruct (Z.lt_ge_cases v 0).
  - rewrite <- (Z.mod_unique v (2 ^ n) (-1) (v + 2 ^ n)) by lia. destruct (Z.leb_spec (2 ^ (n - 1)) (v + 2 ^ n)); lia.
  - rewrite Z.mod_small by lia. destruct (Z.leb_spec (2 ^ (n - 1)) v); lia.
Qed.

(** ** Storing a local variable *)

(** the allocations of a setter succeed, with a node that is not in use *)
Definition settled_env (e : cenv) (s : store) : Prop :=
  (exists l, ce_alloc e s = Some l /\ nodes s !! l = None) /\ ce_dup e = true /\ ce_local e <> 0.

(** or may fail, but never give a node that is in use *)
Definition sane_env (e : cenv) (s : store) : Prop :=
  (forall l, ce_alloc e s = Some l -> nodes s !! l = None) /\ ce_local e <> 0.

Definition entry_of (e : cenv) (nm : string) (t : type_id) (v : Z) : entry :=
  Entry (ce_proc e) nm t (le_bytes (width t) v).

Lemma load_local t a v :
  scalar t = true -> load_value t (write_bytes (fun _ => 0) a (le_bytes (width t) v)) a = le_bytes (width t) v.
Proof.
  intros Ht. rewrite <- (le_bytes_length (width t) v) at 2.
  etransitivity; [|apply read_write_bytes]. unfold load_value. rewrite le_bytes_length. by destruct t.
Qed.

Lemma set_local_appends e nm t v s es :
  scalar t = true -> holds s es -> settled_env e s ->
  exists s', set_local e nm t v s = Returns s' /\ holds s' (es ++ [entry_of e nm t v]).
Proof.
  intros Ht Hs ((l & Ha & Hl) & Hd & Hloc). unfold set_local. rewrite Ha, Hd.
  destruct (set_setting_appends s es l (ce_proc e) (write_bytes (fun _ => 0) (ce_local e) (le_bytes (width t) v)) nm t
    (ce_local e) Hs Hl Hloc) as (s' & Hset & Hh).
  exists s'. split; [done|]. by rewrite load_local in Hh.
Qed.

Lemma set_local_returns e nm t v s es s' :
  scalar t = true -> holds s es -> sane_env e s -> set_local e nm t v s = Returns s' ->
  holds s' (es ++ [entry_of e nm t v]).
Proof.
  intros Ht Hs [Hf Hloc] Hset. unfold set_local, set_setting in Hset.
  rewrite (proj2 (Z.eqb_neq _ _) Hloc) in Hset.
  destruct (ce_alloc e s) as [l|] eqn:Ha; [|done]. destruct (ce_dup e) eqn:Hd; [|done].
  destruct (set_local_appends e nm t v s es Ht Hs) as (s'' & Hs'' & Hh).
  { split; [|done]. exists l. by split; [|apply Hf]. }
  replace s' with s''; [done|]. unfold set_local, set_setting in Hs''.
  rewrite (proj2 (Z.eqb_neq _ _) Hloc), Ha, Hd in Hs''. congruence.
Qed.

(** ** The specification of each option *)

Record spec := Spec {
  sp_name : string; sp_tid : type_id; sp_lo : Z; sp_hi : Z;
  sp_narrow : bool   (** parsed with a field width of 12 *)
}.

Definition setter : Type := cenv -> string -> store -> outcome store.

(** the setters and what they promise; [ps] is the page size *)
Definition setters (ps : Z) : list (setter * spec) :=
  [ (stress_set_aio_linux_requests, Spec "aiol-requests" TYPE_ID_UINT64 MIN_AIO_LINUX_REQUESTS MAX_AIO_LINUX_REQUESTS true);
    (stress_set_aio_requests, Spec "aio-requests" TYPE_ID_UINT64 MIN_AIO_REQUESTS MAX_AIO_REQUESTS false);
    (stress_set_bigheap_growth, Spec "bigheap-growth" TYPE_ID_UINT64 MIN_BIGHEAP_GROWTH MAX_BIGHEAP_GROWTH false);
    (stress_set_bsearch_size, Spec "bsearch-size" TYPE_ID_UINT64 MIN_BSEARCH_SIZE MAX_BSEARCH_SIZE false);
    (stress_set_chdir_dirs, Spec "chdir-dirs" TYPE_ID_UINT64 MIN_CHDIR_DIRS MAX_CHDIR_DIRS false);
    (stress_set_clone_max, Spec "clone-max" TYPE_ID_UINT64 MIN_ZOMBIES MAX_ZOMBIES false);
    (stress_set_copy_file_bytes, Spec "copy-file-bytes" TYPE_ID_UINT64 MIN_COPY_FILE_BYTES MAX_COPY_FILE_BYTES false);
    (stress_set_cpu_load, Spec "cpu-load" TYPE_ID_INT32 0 100 true);
    (stress_set_cyclic_sleep, Spec "cyclic-sleep" TYPE_ID_UINT64 1 NANOSECS false);
    (stress_set_cyclic_prio, Spec "cyclic-prio" TYPE_ID_INT32 1 100 true);
    (stress_set_cyclic_dist, Spec "cyclic-dist" TYPE_ID_UINT64 1 10000000 false);
    (stress_set_dentries, Spec "dentries" TYPE_ID_UINT64 MIN_DENTRIES MAX_DENTRIES false);
    (stress_set_dir_dirs, Spec "dir-dirs" TYPE_ID_UINT64 MIN_DIR_DIRS MAX_DIR_DIRS false);
    (stress_set_dirdeep_dirs, Spec "dirdeep-dirs" TYPE_ID_UINT32 1 10 true);
    (stress_set_exec_max, Spec "exec-max" TYPE_ID_INT64 MIN_EXECS MAX_EXECS false);
    (stress_set_fallocate_bytes, Spec "fallocate-bytes" TYPE_ID_OFF_T MIN_FALLOCATE_BYTES MAX_FALLOCATE_BYTES false);
    (stress_set_fiemap_bytes, Spec "fiemap-bytes" TYPE_ID_UINT64 MIN_FIEMAP_SIZE MAX_FIEMAP_SIZE false);
    (stress_set_fifo_readers, Spec "fifo-readers" TYPE_ID_UINT64 MIN_FIFO_READERS MAX_FIFO_READERS false);
    (stress_set_fork_max, Spec "fork-max" TYPE_ID_UINT64 MIN_FORKS MAX_FORKS false);
    (stress_set_vfork_max, Spec "vfork-max" TYPE_ID_UINT64 MIN_VFORKS MAX_VFORKS false);
    (stress_set_hdd_bytes, Spec "hdd-bytes" TYPE_ID_UINT64 MIN_HDD_BYTES MAX_HDD_BYTES false);
    (stress_set_hdd_write_size, Spec "hdd-write-size" TYPE_ID_UINT64 MIN_HDD_WRITE_SIZE MAX_HDD_WRITE_SIZE false);
    (stress_set_heapsort_size, Spec "heapsort-size" TYPE_ID_UINT64 MIN_HEAPSORT_SIZE MAX_HEAPSORT_SIZE false);
    (stress_set_hsearch_size, Spec "hsearch-size" TYPE_ID_UINT64 MIN_TSEARCH_SIZE MAX_TSEARCH_SIZE false);
    (stress_set_iomix_bytes, Spec "iomix-bytes" TYPE_ID_OFF_T MIN_IOMIX_BYTES MAX_IOMIX_BYTES false);
    (stress_set_itimer_freq, Spec "itimer-freq" TYPE_ID_UINT64 MIN_TIMER_FREQ MAX_TIMER_FREQ false);
    (stress_set_lease_breakers, Spec "lease-breakers" TYPE_ID_UINT64 MIN_LEASE_BREAKERS MAX_LEASE_BREAKERS false);
    (stress_set_lsearch_size, Spec "lsearch-size" TYPE_ID_UINT64 MIN_TSEARCH_SIZE MAX_TSEARCH_SIZE false);
    (stress_set_malloc_bytes, Spec "malloc-bytes" TYPE_ID_SIZE_T MIN_MALLOC_BYTES MAX_MEM_LIMIT false);
    (stress_set_malloc_max, Spec "malloc-max" TYPE_ID_SIZE_T MIN_MALLOC_MAX MAX_MALLOC_MAX false);
    (stress_set_malloc_threshold, Spec "malloc-threshold" TYPE_ID_SIZE_T MIN_MALLOC_THRESHOLD MAX_MALLOC_THRESHOLD false);
    (stress_set_matrix_size, Spec "matrix-size" TYPE_ID_SIZE_T MIN_MATRIX_SIZE MAX_MATRIX_SIZE false);
    (stress_set_memfd_bytes, Spec "memfd-bytes" TYPE_ID_SIZE_T MIN_MEMFD_BYTES MAX_MEM_LIMIT false);
    (stress_set_memfd_fds, Spec "memfd-fds" TYPE_ID_UINT32 MIN_MEMFD_FDS MAX_MEMFD_FDS false);
    (stress_set_memrate_bytes, Spec "memrate-bytes" TYPE_ID_UINT64 MIN_MEMRATE_BYTES MAX_MEMRATE_BYTES false);
    (stress_set_memrate_rd_mbs, Spec "memrate-rd-mbs" TYPE_ID_UINT64 1 1000000 false);
    (stress_set_memrate_wr_mbs, Spec "memrate-wr-mbs" TYPE_ID_UINT64 1 1000000 false);
    (stress_set_mergesort_size, Spec "mergesort-size" TYPE_ID_UINT64 MIN_MERGESORT_SIZE MAX_MERGESORT_SIZE false);
    (stress_set_mmap_bytes, Spec "mmap-bytes" TYPE_ID_SIZE_T MIN_MMAP_BYTES MAX_MEM_LIMIT false);
    (stress_set_mremap_bytes, Spec "mremap-bytes" TYPE_ID_SIZE_T MIN_MREMAP_BYTES MAX_MEM_LIMIT false);
    (stress_set_msync_bytes, Spec "msync-bytes" TYPE_ID_SIZE_T MIN_MSYNC_BYTES MAX_MEM_LIMIT false);
    (stress_set_pipe_size, Spec "pipe-size" TYPE_ID_SIZE_T 4 (1024 * 1024) false);
    (stress_set_pipe_data_size, Spec "pipe-data-size," TYPE_ID_SIZE_T 4 ps false);
    (stress_set_pthread_max, Spec "pthread-max" TYPE_ID_UINT64 MIN_PTHREAD MAX_PTHREAD false);
    (stress_set_pty_max, Spec "pty-max" TYPE_ID_UINT64 MIN_PTYS MAX_PTYS false);
    (stress_set_qsort_size, Spec "qsort-size" TYPE_ID_UINT64 MIN_QSORT_SIZE MAX_QSORT_SIZE false);
    (stress_set_radixsort_size, Spec "radixsort-size" TYPE_ID_UINT64 MIN_QSORT_SIZE MAX_QSORT_SIZE false);
    (stress_set_readahead_bytes, Spec "readahead-bytes" TYPE_ID_UINT64 MIN_HDD_BYTES MAX_HDD_BYTES false);
    (stress_set_seek_size, Spec "seek-size" TYPE_ID_UINT64 MIN_SEEK_SIZE MAX_SEEK_SIZE false);
    (stress_set_semaphore_sysv_procs, Spec "sem-sysv-procs" TYPE_ID_UINT64 MIN_SEMAPHORE_PROCS MAX_SEMAPHORE_PROCS false);
    (stress_set_semaphore_posix_procs, Spec "sem-procs" TYPE_ID_UINT64 MIN_SEMAPHORE_PROCS MAX_SEMAPHORE_PROCS false);
    (stress_set_sendfile_size, Spec "sendfile-size" TYPE_ID_UINT64 MIN_SENDFILE_SIZE MAX_SENDFILE_SIZE false);
    (stress_set_sgx_vm_hang, Spec "vm-hang" TYPE_ID_UINT64 MIN_VM_HANG MAX_VM_HANG false);
    (stress_set_sgx_vm_bytes, Spec "sgx-vm-bytes" TYPE_ID_SIZE_T MIN_VM_BYTES MAX_MEM_LIMIT false);
    (stress_set_shm_sysv_bytes, Spec "shm-sysv-bytes" TYPE_ID_SIZE_T MIN_SHM_SYSV_BYTES MAX_MEM_LIMIT false);
    (stress_set_shm_sysv_segments, Spec "shm-sysv-segs" TYPE_ID_SIZE_T MIN_SHM_SYSV_SEGMENTS MAX_SHM_SYSV_SEGMENTS false);
    (stress_set_shm_posix_bytes, Spec "shm-bytes" TYPE_ID_SIZE_T MIN_SHM_POSIX_BYTES MAX_MEM_LIMIT false);
    (stress_set_shm_posix_objects, Spec "shm-objs" TYPE_ID_SIZE_T MIN_SHM_POSIX_OBJECTS MAX_48 false);
    (stress_set_sleep_max, Spec "sleep-max" TYPE_ID_UINT64 MIN_SLEEP MAX_SLEEP false);
    (stress_set_splice_bytes, Spec "splice-bytes" TYPE_ID_SIZE_T MIN_SPLICE_BYTES MAX_MEM_LIMIT false);
    (stress_set_stream_L3_size, Spec "stream-L3-size" TYPE_ID_UINT64 MIN_STREAM_L3_SIZE MAX_STREAM_L3_SIZE false);
    (stress_set_sync_file_bytes, Spec "sync_file-bytes" TYPE_ID_OFF_T MIN_SYNC_FILE_BYTES MAX_SYNC_FILE_BYTES false);
    (stress_set_timer_freq, Spec "timer-freq" TYPE_ID_UINT64 MIN_TIMER_FREQ MAX_TIMER_FREQ false);
    (stress_set_timerfd_freq, Spec "timerfd-freq" TYPE_ID_UINT64 MIN_TIMERFD_FREQ MAX_TIMERFD_FREQ false);
    (stress_set_tree_size, Spec "tree-size" TYPE_ID_UINT64 MIN_TREE_SIZE MAX_TREE_SIZE false);
    (stress_set_tsearch_size, Spec "tsearch-size" TYPE_ID_UINT64 MIN_TSEARCH_SIZE MAX_TSEARCH_SIZE false);
    (stress_set_userfaultfd_bytes, Spec "userfaultfd-bytes" TYPE_ID_SIZE_T MIN_MMAP_BYTES MAX_MEM_LIMIT false);
    (stress_set_vm_rw_bytes, Spec "vm-rw-bytes" TYPE_ID_SIZE_T MIN_VM_RW_BYTES MAX_MEM_LIMIT false);
    (stress_set_vm_splice_bytes, Spec "vm-splice-bytes" TYPE_ID_SIZE_T MIN_VM_SPLICE_BYTES MAX_MEM_LIMIT false);
    (stress_set_vm_hang, Spec "vm-hang" TYPE_ID_UINT64 MIN_VM_HANG MAX_VM_HANG false);
    (stress_set_vm_bytes, Spec "vm-bytes" TYPE_ID_SIZE_T MIN_VM_BYTES MAX_MEM_LIMIT false);
    (stress_set_zombie_max, Spec "zombie-max" TYPE_ID_INT64 MIN_ZOMBIES MAX_ZOMBIES false);
    (stress_set_dccp_port, Spec "dccp-port" TYPE_ID_INT MIN_DCCP_PORT (MAX_DCCP_PORT - STRESS_PROCS_MAX - STRESS_PROCS_MAX) false);
    (stress_set_epoll_port, Spec "epoll-port" TYPE_ID_INT MIN_EPOLL_PORT (MAX_EPOLL_PORT - STRESS_PROCS_MAX * MAX_SERVERS - STRESS_PROCS_MAX) false);
    (stress_set_sctp_port, Spec "sctp-port" TYPE_ID_INT MIN_SCTP_PORT (MAX_SCTP_PORT - STRESS_PROCS_MAX - STRESS_PROCS_MAX) false);
    (stress_set_socket_fd_port, Spec "sockfd-port" TYPE_ID_INT MIN_SOCKET_FD_PORT (MAX_SOCKET_FD_PORT - STRESS_PROCS_MAX - STRESS_PROCS_MAX) false);
    (stress_set_socket_port, Spec "sock-port" TYPE_ID_INT MIN_SOCKET_PORT (MAX_SOCKET_PORT - STRESS_PROCS_MAX - STRESS_PROCS_MAX) false);
    (stress_set_udp_port, Spec "udp-port" TYPE_ID_INT MIN_UDP_PORT (MAX_UDP_PORT - STRESS_PROCS_MAX - STRESS_PROCS_MAX) false);
    (stress_set_cpu_load_slice, Spec "cpu-load-slice" TYPE_ID_INT32 (-5000) 5000 true);
    (stress_set_mq_size, Spec "mq-size" TYPE_ID_INT MIN_MQ_SIZE MAX_MQ_SIZE false) ].

Lemma check_range_returns o v lo hi x : check_range o v lo hi = Returns x -> lo <= v <= hi.
Proof. unfold check_range. destruct (Z.ltb_spec v lo), (Z.ltb_spec hi v); cbn; done || lia. Qed.
Lemma check_range_bytes_returns o v lo hi x : check_range_bytes o v lo hi = Returns x -> lo <= v <= hi.
Proof. unfold check_range_bytes. destruct (Z.ltb_spec v lo), (Z.ltb_spec hi v); cbn; done || lia. Qed.

Lemma check_range_passes o v lo hi : lo <= v <= hi -> check_range o v lo hi = Returns tt.
Proof. intros Hv. unfold check_range. destruct (Z.ltb_spec v lo), (Z.ltb_spec hi v); cbn; done || lia. Qed.
Lemma check_range_bytes_passes o v lo hi : lo <= v <= hi -> check_range_bytes o v lo hi = Returns tt.
Proof. intros Hv. unfold check_range_bytes. destruct (Z.ltb_spec v lo), (Z.ltb_spec hi v); cbn; done || lia. Qed.

Lemma s64_bounds x : - 2 ^ 63 <= s64 x < 2 ^ 63.
Proof. unfold s64. pose proof (u64_fits x) as H. unfold fits in H. destruct (Z.ltb_spec (u64 x) (2 ^ 63)); lia. Qed.
Lemma s32_bounds x : - 2 ^ 31 <= s32 x < 2 ^ 31.
Proof. unfold s32. pose proof (u32_fits x) as H. unfold fits in H. destruct (Z.ltb_spec (u32 x) (2 ^ 31)); lia. Qed.

(** a range check of a signed variable, which is converted to [uint64_t] *)
Lemma u64_between x lo hi : 0 <= lo -> hi < 2 ^ 63 -> - 2 ^ 63 <= x < 2 ^ 63 -> lo <= u64 x <= hi -> lo <= x <= hi.
Proof.
  intros Hlo Hhi Hx Hu. destruct (Z.lt_ge_cases x 0).
  - unfold u64 in Hu. rewrite <- (Z.mod_unique x (2 ^ 64) (-1) (x + 2 ^ 64)) in Hu by lia. lia.
  - by rewrite u64_small in Hu by (unfold fits; lia).
Qed.

Lemma get_int32_bounds str x : get_int32 str = Returns x -> - 2 ^ 31 <= x < 2 ^ 31.
Proof. unfold get_int32. destruct (scan_number 12 str); [|done]. intros [= <-]. apply s32_bounds. Qed.

Lemma net_port_returns o opt lo hi p :
  0 <= lo -> hi < 2 ^ 63 -> stress_set_net_port o opt lo hi = Returns p -> lo <= p <= hi - STRESS_PROCS_MAX.
Proof.
  intros Hlo Hhi H. unfold stress_set_net_port in H.
  apply outcome_bind_returns in H as (x & _ & H). apply outcome_bind_returns in H as (y & Hy & [= <-]).
  apply check_range_returns in Hy. pose proof (s32_bounds x). eapply u64_between; [exact Hlo| | |exact Hy]; unfold STRESS_PROCS_MAX; lia.
Qed.

(** ** Every setter keeps to its specification *)

Definition setter_ok (ps : Z) (m : setter * spec) : Prop :=
  forall e opt s s', ce_page_size e = ps -> m.1 e opt s = Returns s' ->
    exists v, sp_lo m.2 <= v <= sp_hi m.2 /\ set_local e (sp_name m.2) (sp_tid m.2) v s = Returns s'.

Ltac unbind H := repeat (let x := fresh "x" in let Hx := fresh "Hx" in
  apply outcome_bind_returns in H as (x & Hx & H); cbv zeta in H).

Ltac range_checks := repeat match goal with
  | H : check_range _ _ _ _ = Returns _ |- _ => apply check_range_returns in H
  | H : check_range_bytes _ _ _ _ = Returns _ |- _ => apply check_range_bytes_returns in H
  | H : get_int32 _ = Returns _ |- _ => apply get_int32_bounds in H
  | H : stress_set_net_port _ _ _ _ = Returns _ |- _ => apply net_port_returns in H; [|done|done]
  end.

Ltac solve_setter :=
  let e := fresh "e" in let H := fresh "H" in let Hp := fresh "Hp" in
  intros e ? ? ? Hp H; cbn [fst snd sp_lo sp_hi sp_name sp_tid] in *;
  match type of H with ?f _ _ _ = _ => unfold f in H end;
  unbind H; range_checks; subst; eexists; (split; [|exact H]);
  first [lia | eapply u64_between; [| | |eassumption]; [done|done|apply s64_bounds || lia]].

Lemma cpu_load_slice_ok ps :
  setter_ok ps (stress_set_cpu_load_slice, Spec "cpu-load-slice" TYPE_ID_INT32 (-5000) 5000 true).
Proof.
  intros e opt s s' _ H. cbn [fst snd sp_lo sp_hi sp_name sp_tid] in *. unfold stress_set_cpu_load_slice in H.
  unbind H. destruct (Z.ltb_spec x (-5000)), (Z.ltb_spec 5000 x); try done. exists x. split; [lia|exact H].
Qed.

Lemma mq_size_ok ps : setter_ok ps (stress_set_mq_size, Spec "mq-size" TYPE_ID_INT MIN_MQ_SIZE MAX_MQ_SIZE false).
Proof.
  intros e opt s s' _ H. cbn [fst snd sp_lo sp_hi sp_name sp_tid] in *. unfold stress_set_mq_size in H.
  unbind H. range_checks. exists (s32 x). split; [|exact H]. rewrite s32_small; [done|].
  revert Hx0. unfold MIN_MQ_SIZE, MAX_MQ_SIZE. lia.
Qed.

Lemma setters_ok ps : Forall (setter_ok ps) (setters ps).
Proof.
  unfold setters. repeat apply Forall_cons_2; [..|apply Forall_nil_2];
    first [exact (cpu_load_slice_ok ps) | exact (mq_size_ok ps) | solve_setter].
Qed.

(** ** Every number in range is taken *)

Definition setter_takes (ps : Z) (m : setter * spec) : Prop :=
  forall e ds s, ce_page_size e = ps -> decimal ds -> (sp_narrow m.2 = true -> (length ds <= 11)%nat) ->
    sp_lo m.2 <= number ds <= sp_hi m.2 ->
    m.1 e (digits_text ds EmptyString) s = set_local e (sp_name m.2) (sp_tid m.2) (number ds) s.

Lemma get_uint64_plain ds :
  decimal ds -> number ds < 2 ^ 64 -> get_uint64 (digits_text ds EmptyString) = Returns (number ds).
Proof. intros Hd Hn. rewrite get_uint64_digits by done. by rewrite Z.min_l by lia. Qed.

Lemma get_scale_plain ds scales msg :
  decimal ds -> number ds < 2 ^ 64 -> get_uint64_scale (digits_text ds EmptyString) scales msg = Returns (number ds).
Proof. intros Hd Hn. rewrite scale_plain by done. by rewrite Z.min_l by lia. Qed.

Lemma get_percent_plain ds percent inst mx msg :
  decimal ds -> number ds < 2 ^ 64 ->
  get_uint64_percent percent (digits_text ds EmptyString) inst mx msg = Returns (number ds).
Proof.
  intros Hd Hn. unfold get_uint64_percent. rewrite last_char_digits. cbn [last_char].
  destruct (last_digits_some ds Hd) as [c Hc]. rewrite Hc, bool_decide_eq_false_2, andb_false_r; [by apply get_scale_plain|].
  intros [= ->]. by apply last_digit in Hc.
Qed.

Lemma get_uint32_plain ds :
  decimal ds -> (length ds <= 11)%nat -> number ds < 2 ^ 32 -> get_uint32 (digits_text ds EmptyString) = Returns (number ds).
Proof.
  intros Hd Hl Hn. rewrite (proj1 (int32_digits ds EmptyString Hd eq_refl)) by lia. f_equal. apply Z.mod_small.
  split; [|done]. apply number_from_nonneg; [done|apply Hd].
Qed.

Lemma get_int32_plain ds :
  decimal ds -> (length ds <= 11)%nat -> number ds < 2 ^ 31 -> get_int32 (digits_text ds EmptyString) = Returns (number ds).
Proof. intros Hd Hl Hn. by apply (int32_digits ds EmptyString Hd eq_refl). Qed.

Ltac parse_plain Hd Hl Hn :=
  first
    [ rewrite get_uint64_plain by first [exact Hd | lia]
    | rewrite get_scale_plain by first [exact Hd | lia]
    | rewrite get_percent_plain by first [exact Hd | lia]
    | rewrite get_uint32_plain by first [exact Hd | exact Hl | lia]
    | rewrite get_int32_plain by first [exact Hd | exact Hl | lia] ].

(** [hi] is evaluated so that [lia] can compare it with the width of the variable *)
Ltac solve_takes :=
  let e := fresh "e" in let ds := fresh "ds" in let Hp := fresh "Hp" in let Hd := fresh "Hd" in
  let Hl := fresh "Hl" in let Hn := fresh "Hn" in let H0 := fresh "H0" in let Hb := fresh "Hb" in
  intros e ds ? Hp Hd Hl Hn; cbn [fst snd sp_lo sp_hi sp_name sp_tid sp_narrow] in *;
  try specialize (Hl eq_refl);
  assert (0 <= number ds) as H0 by (apply number_from_nonneg; [done|apply Hd]);
  match goal with |- ?f _ _ _ = _ => unfold f end;
  try unfold stress_set_net_port, get_uint64_byte_memory, get_uint64_byte_filesystem;
  unfold get_uint64_byte, get_uint64_time in *;
  match type of Hn with _ <= _ <= ?hi => first
    [ let h := eval vm_compute in hi in
      lazymatch h with Zpos _ => assert (number ds <= h) as Hb by (let E := fresh in assert (hi = h) as E by reflexivity; lia) end
    | assert (number ds <= hi) as Hb by lia ] end;
  parse_plain Hd Hl Hn; cbn [mbind outcome_bind]; cbv zeta;
  rewrite ?s32_small, ?s64_small by lia; rewrite ?u32_small, ?u64_small by (unfold fits; lia);
  first [rewrite check_range_passes by lia | rewrite check_range_bytes_passes by lia | idtac]; cbn [mbind outcome_bind];
  rewrite ?s32_small by lia; try reflexivity.

Lemma setters_take ps : 4 <= ps < 2 ^ 32 -> Forall (setter_takes ps) (setters ps).
Proof.
  intros Hps. unfold setters. repeat apply Forall_cons_2; [..|apply Forall_nil_2]; solve_takes.
  destruct (Z.ltb_spec (number ds) (-5000)), (Z.ltb_spec 5000 (number ds)); done || lia.
Qed.

(** the values a specification allows can be stored in its type *)
Definition spec_wf (sp : spec) : Prop :=
  scalar (sp_tid sp) = true /\ in_type (sp_tid sp) (sp_lo sp) /\ in_type (sp_tid sp) (sp_hi sp).

Lemma in_type_between t lo hi v : in_type t lo -> in_type t hi -> lo <= v <= hi -> in_type t v.
Proof. unfold in_type. destruct (is_signed t); lia. Qed.

Lemma setters_wf ps : 4 <= ps < 2 ^ 32 -> Forall (fun m => spec_wf m.2) (setters ps).
Proof.
  intros Hps. unfold setters. repeat apply Forall_cons_2; [..|apply Forall_nil_2];
    (split; [reflexivity|]; split; cbn [snd sp_tid sp_lo sp_hi]; first [change (0 <= ps < 2 ^ 64); lia | split; by vm_compute]).
Qed.

(** ** The other settings

    Names of methods and flags, strings, and what the option parser stores
    itself: any value of the type. *)

Definition other_settings : list (string * type_id) :=
  [ ("cpu-method", TYPE_ID_UINTPTR_T); ("cyclic-method", TYPE_ID_UINTPTR_T); ("funccall-method", TYPE_ID_UINTPTR_T);
    ("memthrash-method", TYPE_ID_UINTPTR_T); ("rawdev-method", TYPE_ID_UINTPTR_T); ("str-method", TYPE_ID_UINTPTR_T);
    ("tree-method", TYPE_ID_UINTPTR_T); ("vm-method", TYPE_ID_UINTPTR_T); ("wcs-method", TYPE_ID_UINTPTR_T);
    ("zlib-method", TYPE_ID_UINTPTR_T); ("cyclic-policy", TYPE_ID_SIZE_T); ("dccp-opts", TYPE_ID_INT);
    ("dentry-order", TYPE_ID_UINT8); ("filename-opts", TYPE_ID_UINT8); ("ioport-opts", TYPE_ID_UINT32);
    ("sock-opts", TYPE_ID_INT); ("sock-type", TYPE_ID_INT); ("stream-madvise", TYPE_ID_INT); ("vm-madvise", TYPE_ID_INT);
    ("dccp-domain", TYPE_ID_INT); ("sctp-domain", TYPE_ID_INT); ("sock-domain", TYPE_ID_INT); ("udp-domain", TYPE_ID_INT);
    ("udp-flood-domain", TYPE_ID_INT); ("epoll-domain", TYPE_ID_INT); ("hdd-flags", TYPE_ID_INT);
    ("hdd-oflags", TYPE_ID_INT); ("hdd-opts-set", TYPE_ID_BOOL); ("matrix-yx", TYPE_ID_SIZE_T);
    ("dirdeep-inodes", TYPE_ID_UINT64); ("vm-flags", TYPE_ID_INT); ("backoff", TYPE_ID_INT64);
    ("cache-level", TYPE_ID_INT16); ("cache-ways", TYPE_ID_UINT32); ("class", TYPE_ID_UINT32);
    ("ionice-class", TYPE_ID_INT32); ("ionice-level", TYPE_ID_INT32); ("random", TYPE_ID_INT32); ("sched", TYPE_ID_INT32);
    ("sched-prio", TYPE_ID_INT32) ].

Definition string_settings : list string :=
  [ "matrix-method"; "fstat-dir"; "sgx-method"; "sgx-vm-method"; "exclude"; "job"; "log-file"; "yaml" ].

(** the settings of the [--X-ops] options *)
Definition ops_settings : list string := (fun st => opt_name (s_op st)) <$> stressors.

Definition any_spec (nm : string) (t : type_id) : spec :=
  let n := 8 * Z.of_nat (width t) in
  if is_signed t then Spec nm t (- 2 ^ (n - 1)) (2 ^ (n - 1) - 1) false else Spec nm t 0 (2 ^ n - 1) false.

Definition other_specs : list spec :=
  ((fun o => any_spec o.1 o.2) <$> other_settings) ++ ((fun nm => any_spec nm TYPE_ID_STR) <$> string_settings) ++
  ((fun nm => any_spec nm TYPE_ID_UINT64) <$> ops_settings).

Lemma any_spec_name nm t : sp_name (any_spec nm t) = nm.
Proof. unfold any_spec. by destruct (is_signed t). Qed.
Lemma any_spec_tid nm t : sp_tid (any_spec nm t) = t.
Proof. unfold any_spec. by destruct (is_signed t). Qed.

Lemma any_spec_wf nm t : scalar t = true -> spec_wf (any_spec nm t).
Proof.
  intros Ht. unfold spec_wf. rewrite any_spec_tid. split; [done|]. destruct t; try done; split; by vm_compute.
Qed.

Lemma le_bytes_mod n v : le_bytes n (v mod 2 ^ (8 * Z.of_nat n)) = le_bytes n v.
Proof.
  revert v. induction n as [|n IH]; intros v; [done|]. rewrite !le_bytes_S.
  replace (8 * Z.of_nat (S n)) with (8 + 8 * Z.of_nat n) by lia.
  f_equal.
  - unfold u8. rewrite Z.pow_add_r by lia. rewrite Z.rem_mul_r by (try apply Z.pow_nonzero; try apply Z.pow_pos_nonneg; lia).
    rewrite <- Z.add_mod_idemp_r by done. rewrite Z.mul_comm, Z_mod_mult, Z.add_0_r. apply Z.mod_mod. done.
  - rewrite <- (IH (v >>> 8)). f_equal. rewrite !Z.shiftr_div_pow2 by lia.
    rewrite Z.pow_add_r by lia. rewrite Z.rem_mul_r by (try apply Z.pow_nonzero; try apply Z.pow_pos_nonneg; lia).
    rewrite Z.mul_comm, Z.div_add by done. rewrite Z.div_small by (apply Z.mod_pos_bound; done). done.
Qed.

(** whatever is stored, it is the bytes of a value of the type *)
Lemma any_spec_value nm t v :
  (0 < width t)%nat -> exists v', sp_lo (any_spec nm t) <= v' <= sp_hi (any_spec nm t) /\
    le_bytes (width t) v' = le_bytes (width t) v.
Proof.
  intros Hw. unfold any_spec. assert (0 < 8 * Z.of_nat (width t)) as Hn by lia.
  pose proof (le_bytes_mod (width t)) as Hmod. revert Hn Hmod.
  generalize (8 * Z.of_nat (width t)). intros n Hn Hmod.
  assert (2 ^ n = 2 * 2 ^ (n - 1)) as Hp by (rewrite <- Z.pow_succ_r by lia; f_equal; lia).
  pose proof (Z.mod_pos_bound v (2 ^ n)) as Hb. specialize (Hb ltac:(apply Z.pow_pos_nonneg; lia)).
  destruct (is_signed t); cbn [sp_lo sp_hi]; [|exists (v mod 2 ^ n); split; [lia|apply Hmod]].
  destruct (Z.lt_ge_cases (v mod 2 ^ n) (2 ^ (n - 1))); [exists (v mod 2 ^ n); split; [lia|apply Hmod]|].
  exists (v mod 2 ^ n - 2 ^ n). split; [lia|]. rewrite <- (Hmod (_ - _)), <- (Hmod v). f_equal.
  rewrite <- (Z.mod_add _ 1) by lia. rewrite <- (Z.mod_mod v (2 ^ n)) at 2 by lia. f_equal. lia.
Qed.

(** ** The stores the option parser builds *)

Inductive configured (ps : Z) : store -> Prop :=
| configured_none : configured ps no_settings
| configured_option m e opt s s' :
    configured ps s -> m ∈ setters ps -> sane_env e s -> ce_page_size e = ps ->
    m.1 e opt s = Returns s' -> configured ps s'
| configured_pthread e max s s' :
    configured ps s -> sane_env e s -> fits 64 max -> stress_adjust_pthread_max e max s = Returns s' -> configured ps s'
| configured_sleep e max s s' :
    configured ps s -> sane_env e s -> fits 64 max -> stress_adjust_sleep_max e max s = Returns s' -> configured ps s'
| configured_other nm t e v s s' :
    configured ps s -> (nm, t) ∈ other_settings -> sane_env e s -> set_local e nm t v s = Returns s' -> configured ps s'
| configured_ops nm e v s s' :
    configured ps s -> nm ∈ ops_settings -> sane_env e s -> set_local e nm TYPE_ID_UINT64 v s = Returns s' ->
    configured ps s'
| configured_string nm e p s s' :
    configured ps s -> nm ∈ string_settings -> sane_env e s -> set_string e nm p s = Returns s' -> configured ps s'.

Definition adjust_specs : list spec :=
  [Spec "pthread-max-adjustment" TYPE_ID_UINT64 0 (2 ^ 64 - 1) false;
   Spec "sleep-max-adjustment" TYPE_ID_UINT64 0 (2 ^ 64 - 1) false].

Definition specs (ps : Z) : list spec := (setters ps).*2 ++ adjust_specs ++ other_specs.

Definition typed (ps : Z) (en : entry) : Prop :=
  exists sp v, sp ∈ specs ps /\ e_name en = sp_name sp /\ e_tid en = sp_tid sp /\
    sp_lo sp <= v <= sp_hi sp /\ e_u en = le_bytes (width (sp_tid sp)) v.

Definition well_typed (ps : Z) (s : store) : Prop := exists es, holds s es /\ Forall (typed ps) es.

Lemma well_typed_snoc ps s es en : holds s (es ++ [en]) -> Forall (typed ps) es -> typed ps en -> well_typed ps s.
Proof. intros Hs Ht He. exists (es ++ [en]). split; [done|]. apply Forall_app. split; [done|by apply Forall_singleton]. Qed.

Lemma set_local_typed ps sp e v s s' :
  scalar (sp_tid sp) = true -> sp ∈ specs ps -> well_typed ps s -> sane_env e s -> sp_lo sp <= v <= sp_hi sp ->
  set_local e (sp_name sp) (sp_tid sp) v s = Returns s' -> well_typed ps s'.
Proof.
  intros Hwf Hin (es & Hs & Ht) He Hv Hset. eapply well_typed_snoc; [|exact Ht|].
  - eapply set_local_returns; [exact Hwf|exact Hs|exact He|exact Hset].
  - by exists sp, v.
Qed.

Lemma any_entry_typed ps nm t v p :
  (0 < width t)%nat -> any_spec nm t ∈ other_specs -> typed ps (Entry p nm t (le_bytes (width t) v)).
Proof.
  intros Hw Hin. destruct (any_spec_value nm t v Hw) as (v' & Hv & Hb). exists (any_spec nm t), v'.
  rewrite any_spec_name, any_spec_tid. split; [|done]. unfold specs. rewrite !elem_of_app. tauto.
Qed.

Lemma set_any_typed ps nm t e v s s' :
  scalar t = true -> any_spec nm t ∈ other_specs -> well_typed ps s -> sane_env e s ->
  set_local e nm t v s = Returns s' -> well_typed ps s'.
Proof.
  intros Ht Hin (es & Hs & Hty) He Hset. eapply well_typed_snoc; [|exact Hty|].
  - eapply set_local_returns; [exact Ht|exact Hs|exact He|exact Hset].
  - apply any_entry_typed; [destruct t; (done || cbn; lia)|done].
Qed.

Lemma set_setting_returns e m nm t p s es s' :
  holds s es -> (forall l, ce_alloc e s = Some l -> nodes s !! l = None) ->
  set_setting (ce_alloc e s) (ce_dup e) (ce_proc e) m nm t p s = Returns s' ->
  holds s' (es ++ [Entry (ce_proc e) nm t (load_value t m p)]).
Proof.
  intros Hs Hf Hset. assert (p <> 0) as Hp by (intros ->; done).
  unfold set_setting in Hset. rewrite (proj2 (Z.eqb_neq _ _) Hp) in Hset.
  destruct (ce_alloc e s) as [l|] eqn:Ha; [|done]. destruct (ce_dup e) eqn:Hd; [|done].
  destruct (set_setting_appends s es l (ce_proc e) m nm t p Hs (Hf l eq_refl) Hp) as (s'' & Hs'' & Hh).
  unfold set_setting in Hs''. rewrite (proj2 (Z.eqb_neq _ _) Hp) in Hs''. congruence.
Qed.

Lemma set_string_typed ps nm e p s s' :
  nm ∈ string_settings -> well_typed ps s -> sane_env e s -> set_string e nm p s = Returns s' -> well_typed ps s'.
Proof.
  intros Hin (es & Hs & Hty) [He _] Hset. eapply well_typed_snoc; [|exact Hty|].
  - eapply set_setting_returns; [exact Hs|exact He|exact Hset].
  - apply (any_entry_typed ps nm TYPE_ID_STR p); [cbn; lia|]. unfold other_specs. rewrite !elem_of_app. right. left.
    by apply (list_elem_of_fmap_2 (fun nm => any_spec nm TYPE_ID_STR)).
Qed.

Lemma setter_typed ps m e opt s s' :
  4 <= ps < 2 ^ 32 -> well_typed ps s -> m ∈ setters ps -> sane_env e s -> ce_page_size e = ps ->
  m.1 e opt s = Returns s' -> well_typed ps s'.
Proof.
  intros Hps Hw Hm He Hp Hset. pose proof (setters_ok ps) as Hok. rewrite Forall_forall in Hok.
  pose proof (setters_wf ps Hps) as Hwf. rewrite Forall_forall in Hwf.
  destruct (Hok m Hm e opt s s' Hp Hset) as (v & Hv & Hl).
  eapply (set_local_typed ps m.2); [by apply Hwf| |exact Hw|exact He|exact Hv|exact Hl].
  unfold specs. rewrite !elem_of_app. left. by apply list_elem_of_fmap_2.
Qed.

Lemma adjust_typed ps sp e max s s' :
  sp ∈ adjust_specs -> well_typed ps s -> sane_env e s -> fits 64 max ->
  set_local e (sp_name sp) (sp_tid sp) max s = Returns s' -> well_typed ps s'.
Proof.
  intros Hin Hw He Hmx Hset.
  assert (sp ∈ specs ps) as Hsp by (unfold specs; rewrite !elem_of_app; tauto).
  unfold fits in Hmx. repeat (apply elem_of_cons in Hin as [->|Hin]);
    [..|by apply elem_of_nil in Hin];
    (eapply (set_local_typed ps); [|exact Hsp|exact Hw|exact He| |exact Hset]; cbn; [done|lia]).
Qed.

Lemma other_settings_scalar nm t : (nm, t) ∈ other_settings -> scalar t = true.
Proof.
  intros Hin. assert (Forall (fun o => scalar o.2 = true) other_settings) as H by (repeat constructor).
  rewrite Forall_forall in H. by apply (H (nm, t)).
Qed.

Lemma configured_typed ps s : 4 <= ps < 2 ^ 32 -> configured ps s -> well_typed ps s.
Proof.
  intros Hps Hc. induction Hc.
  - exists []. split; [apply no_settings_holds|constructor].
  - by eapply (setter_typed ps m).
  - eapply (adjust_typed ps (Spec "pthread-max-adjustment" TYPE_ID_UINT64 0 (2 ^ 64 - 1) false)); [left|done..].
  - eapply (adjust_typed ps (Spec "sleep-max-adjustment" TYPE_ID_UINT64 0 (2 ^ 64 - 1) false)); [right; left|done..].
  - eapply (set_any_typed ps nm t); [by eapply other_settings_scalar| |done..].
    unfold other_specs. rewrite !elem_of_app. left. by apply (list_elem_of_fmap_2 (fun o => any_spec o.1 o.2) _ (nm, t)).
  - eapply (set_any_typed ps nm TYPE_ID_UINT64); [reflexivity| |done..].
    unfold other_specs. rewrite !elem_of_app. right. right. by apply (list_elem_of_fmap_2 (fun nm => any_spec nm TYPE_ID_UINT64)).
  - by eapply set_string_typed.
Qed.

(** ** Reading *)

Definition at_store (r : renv) (p : ptr) (s : store) : renv :=
  REnv p s (r_flags r) (r_instances r) (r_page_size r) (r_local r).

Lemma read_setting_holds r nm t d es :
  holds (r_store r) es ->
  read_setting r nm t d =
    let vis := List.filter (named nm) (scope (r_proc r) es) in
    Some (nonempty vis,
      var_value t (read_bytes (overwrite (r_local r) (write_bytes (fun _ => 0) (r_local r) (le_bytes (width t) d)) vis)
        (r_local r) (width t))).
Proof. intros Hs. unfold read_setting. by rewrite (get_setting_holds _ es). Qed.

(** the last of the visible values is the one that is read *)
Lemma read_overwritten t d a vis :
  scalar t = true -> in_type t d ->
  (forall en, en ∈ vis -> length (e_u en) = width t) ->
  var_value t (read_bytes (overwrite a (write_bytes (fun _ => 0) a (le_bytes (width t) d)) vis) a (width t)) =
    match last vis with Some en => var_value t (e_u en) | None => d end.
Proof.
  intros Ht Hd Hw. destruct vis as [|en vis _] using rev_ind.
  - cbn [last overwrite foldl]. rewrite <- (le_bytes_length (width t) d) at 2. rewrite read_write_bytes.
    by apply var_value_le_bytes.
  - rewrite last_snoc, overwrite_snoc. rewrite <- (Hw en) by (apply elem_of_app; right; left).
    by rewrite read_write_bytes.
Qed.

Lemma scope_elem p es en : en ∈ scope p es -> en ∈ es.
Proof.
  assert (forall (f : entry -> bool) l x, x ∈ take_while f l -> x ∈ l) as Htw.
  { intros f l x. induction l as [|y l IH]; cbn [take_while]; [done|]. destruct (f y); [|by intros ?%not_elem_of_nil].
    rewrite !elem_of_cons. tauto. }
  assert (forall (f : entry -> bool) l x, x ∈ drop_while f l -> x ∈ l) as Hdw.
  { intros f l x. induction l as [|y l IH]; cbn [drop_while]; [done|]. destruct (f y); [|done].
    rewrite !elem_of_cons. tauto. }
  unfold scope. rewrite elem_of_app. intros [H|H]; [by eapply Htw|]. by eapply Hdw, Htw.
Qed.

(** what the specifications of a name promise to a variable of type [t] *)
Definition spec_fits (nm : string) (t : type_id) (lo hi : Z) (sp : spec) : bool :=
  if String.eqb (sp_name sp) nm
  then (width (sp_tid sp) =? width t)%nat && (lo <=? sp_lo sp) && (sp_hi sp <=? hi)
  else true.

Lemma read_within ps r nm t d lo hi :
  4 <= ps < 2 ^ 32 -> configured ps (r_store r) -> forallb (spec_fits nm t lo hi) (specs ps) = true ->
  scalar t = true -> in_type t lo -> in_type t hi -> in_type t d ->
  exists b x, read_setting r nm t d = Some (b, x) /\ if b : bool then lo <= x <= hi else x = d.
Proof.
  intros Hps Hc Hall Ht Hlo Hhi Hd. destruct (configured_typed ps _ Hps Hc) as (es & Hs & Hty).
  rewrite (read_setting_holds _ _ _ _ es Hs). cbv zeta.
  set (vis := List.filter (named nm) (scope (r_proc r) es)).
  assert (forall en, en ∈ vis -> exists v, lo <= v <= hi /\ e_u en = le_bytes (width t) v) as Hvis.
  { intros en Hin. apply list_elem_of_In, filter_In in Hin as [Hin Hnm]. apply bool_decide_eq_true in Hnm.
    rewrite Forall_forall in Hty. destruct (Hty en) as (sp & v & Hsp & Hn & _ & Hv & Hu).
    { eapply scope_elem. by apply list_elem_of_In. }
    exists v. rewrite forallb_forall in Hall. specialize (Hall sp). apply list_elem_of_In in Hsp. specialize (Hall Hsp).
    unfold spec_fits in Hall. rewrite <- Hn, Hnm, String.eqb_refl in Hall.
    apply andb_true_iff in Hall as [Hall Hh]. apply andb_true_iff in Hall as [Hw Hl]. apply Nat.eqb_eq in Hw.
    split; [lia|]. by rewrite Hu, Hw. }
  eexists _, _. split; [done|]. rewrite read_overwritten; [|done|done|].
  - destruct (last vis) as [en|] eqn:Hlast.
    + destruct vis as [|x vis']; [done|]. cbn [nonempty].
      destruct (Hvis en) as (v & Hv & ->); [by apply last_Some_elem_of|].
      rewrite var_value_le_bytes; [done|done|]. by apply (in_type_between t lo hi).
    + apply last_None in Hlast. by rewrite Hlast.
  - intros en Hin. destruct (Hvis en Hin) as (v & _ & ->). apply le_bytes_length.
Qed.

Lemma choose_within ps r nm t d mx mn lo hi :
  4 <= ps < 2 ^ 32 -> configured ps (r_store r) -> forallb (spec_fits nm t lo hi) (specs ps) = true ->
  scalar t = true -> in_type t lo -> in_type t hi ->
  lo <= d <= hi -> lo <= mx <= hi -> lo <= mn <= hi ->
  exists x, choose r nm t d mx mn = Some x /\ lo <= x <= hi.
Proof.
  intros Hps Hc Hall Ht Hlo Hhi Hd Hmx Hmn.
  destruct (read_within ps r nm t d lo hi Hps Hc Hall Ht Hlo Hhi) as ([] & x & Hr & Hx);
    [by apply (in_type_between t lo hi)|..]; unfold choose; rewrite Hr; cbn [mbind option_bind].
  - by exists x.
  - eexists. split; [done|]. subst x. destruct (c_true (r_flags r .& OPT_FLAGS_MINIMIZE)); [done|].
    by destruct (c_true (r_flags r .& OPT_FLAGS_MAXIMIZE)).
Qed.

Lemma share_bounds x n : 1 <= n -> 0 <= x -> 0 <= x ÷ n <= x.
Proof.
  intros Hn Hx. rewrite Z.quot_div_nonneg by lia. split; [apply Z.div_pos; lia|].
  apply Z.div_le_upper_bound; [lia|]. nia.
Qed.

(** ** The values the stressors run with *)

(** the sizes and counts of the stressors, by the name of the option, with the limits that hold for them: those that the
    setter of the option enforces ([limits_enforced]).  Not here are hdd-bytes, pthread-max and
    sleep-max, which may fall below the least number that their options accept ([hdd_within], [threads_within]) *)
Definition readers (aio_max : option Z) : list (string * ((renv -> option Z) * (Z * Z))) :=
  [ ("aiol-requests", (chosen_aiol_requests aio_max, (MIN_AIO_LINUX_REQUESTS, MAX_AIO_LINUX_REQUESTS)));
    ("aio-requests", (chosen_aio_requests, (MIN_AIO_REQUESTS, MAX_AIO_REQUESTS)));
    ("bigheap-growth", (chosen_bigheap_growth, (MIN_BIGHEAP_GROWTH, MAX_BIGHEAP_GROWTH)));
    ("bsearch-size", (chosen_bsearch_size, (MIN_BSEARCH_SIZE, MAX_BSEARCH_SIZE)));
    ("clone-max", (chosen_clone_max, (MIN_ZOMBIES, MAX_ZOMBIES)));
    ("copy-file-bytes", (chosen_copy_file_bytes, (MIN_COPY_FILE_BYTES, MAX_COPY_FILE_BYTES)));
    ("dentries", (chosen_dentries, (MIN_DENTRIES, MAX_DENTRIES)));
    ("fallocate-bytes", (chosen_fallocate_bytes, (MIN_FALLOCATE_BYTES, MAX_FALLOCATE_BYTES)));
    ("fiemap-bytes", (chosen_fiemap_bytes, (MIN_FIEMAP_SIZE, MAX_FIEMAP_SIZE)));
    ("fifo-readers", (chosen_fifo_readers, (MIN_FIFO_READERS, MAX_FIFO_READERS)));
    ("fork-max", (chosen_fork_max, (MIN_FORKS, MAX_FORKS)));
    ("vfork-max", (chosen_vfork_max, (MIN_VFORKS, MAX_VFORKS)));
    ("hdd-write-size", (chosen_hdd_write_size, (MIN_HDD_WRITE_SIZE, MAX_HDD_WRITE_SIZE)));
    ("heapsort-size", (chosen_heapsort_size, (MIN_HEAPSORT_SIZE, MAX_HEAPSORT_SIZE)));
    ("hsearch-size", (chosen_hsearch_size, (MIN_TSEARCH_SIZE, MAX_TSEARCH_SIZE)));
    ("iomix-bytes", (chosen_iomix_bytes, (MIN_IOMIX_BYTES, MAX_IOMIX_BYTES)));
    ("itimer-freq", (chosen_itimer_freq, (MIN_TIMER_FREQ, MAX_TIMER_FREQ)));
    ("lease-breakers", (chosen_lease_breakers, (MIN_LEASE_BREAKERS, MAX_LEASE_BREAKERS)));
    ("lsearch-size", (chosen_lsearch_size, (MIN_TSEARCH_SIZE, MAX_TSEARCH_SIZE)));
    ("malloc-bytes", (chosen_malloc_bytes, (MIN_MALLOC_BYTES, MAX_MEM_LIMIT)));
    ("malloc-max", (chosen_malloc_max, (MIN_MALLOC_MAX, MAX_MALLOC_MAX)));
    ("matrix-size", (chosen_matrix_size, (MIN_MATRIX_SIZE, MAX_MATRIX_SIZE)));
    ("memfd-bytes", (chosen_memfd_bytes, (MIN_MEMFD_BYTES, MAX_MEM_LIMIT)));
    ("mergesort-size", (chosen_mergesort_size, (MIN_MERGESORT_SIZE, MAX_MERGESORT_SIZE)));
    ("mmap-bytes", (chosen_mmap_bytes, (MIN_MMAP_BYTES, MAX_MEM_LIMIT)));
    ("mq-size", (chosen_mq_size, (MIN_MQ_SIZE, MAX_MQ_SIZE)));
    ("mremap-bytes", (chosen_mremap_bytes, (MIN_MREMAP_BYTES, MAX_MEM_LIMIT)));
    ("msync-bytes", (chosen_msync_bytes, (MIN_MSYNC_BYTES, MAX_MEM_LIMIT)));
    ("qsort-size", (chosen_qsort_size, (MIN_QSORT_SIZE, MAX_QSORT_SIZE)));
    ("radixsort-size", (chosen_radixsort_size, (MIN_QSORT_SIZE, MAX_QSORT_SIZE)));
    ("readahead-bytes", (chosen_readahead_bytes, (MIN_HDD_BYTES, MAX_HDD_BYTES)));
    ("seek-size", (chosen_seek_size, (MIN_SEEK_SIZE, MAX_SEEK_SIZE)));
    ("sem-sysv-procs", (chosen_sem_sysv_procs, (MIN_SEMAPHORE_PROCS, MAX_SEMAPHORE_PROCS)));
    ("sem-procs", (chosen_sem_procs, (MIN_SEMAPHORE_PROCS, MAX_SEMAPHORE_PROCS)));
    ("sendfile-size", (chosen_sendfile_size, (MIN_SENDFILE_SIZE, MAX_SENDFILE_SIZE)));
    ("sgx-vm-bytes", (chosen_sgx_vm_bytes, (MIN_VM_BYTES, MAX_MEM_LIMIT)));
    ("shm-sysv-bytes", (chosen_shm_sysv_bytes, (MIN_SHM_SYSV_BYTES, MAX_MEM_LIMIT)));
    ("shm-sysv-segs", (chosen_shm_sysv_segs, (1, MAX_SHM_SYSV_SEGMENTS)));
    ("shm-bytes", (chosen_shm_bytes, (MIN_SHM_POSIX_BYTES, MAX_MEM_LIMIT)));
    ("shm-objs", (chosen_shm_objs, (MIN_SHM_POSIX_OBJECTS, MAX_48)));
    ("splice-bytes", (chosen_splice_bytes, (MIN_SPLICE_BYTES, MAX_MEM_LIMIT)));
    ("sync_file-bytes", (chosen_sync_file_bytes, (MIN_SYNC_FILE_BYTES, MAX_SYNC_FILE_BYTES)));
    ("timer-freq", (chosen_timer_freq, (MIN_TIMER_FREQ, MAX_TIMER_FREQ)));
    ("timerfd-freq", (chosen_timerfd_freq, (MIN_TIMERFD_FREQ, MAX_TIMERFD_FREQ)));
    ("tree-size", (chosen_tree_size, (MIN_TREE_SIZE, MAX_TREE_SIZE)));
    ("tsearch-size", (chosen_tsearch_size, (MIN_TSEARCH_SIZE, MAX_TSEARCH_SIZE)));
    ("userfaultfd-bytes", (chosen_userfaultfd_bytes, (MIN_MMAP_BYTES, MAX_MEM_LIMIT)));
    ("vm-rw-bytes", (chosen_vm_rw_bytes, (MIN_VM_RW_BYTES, MAX_MEM_LIMIT)));
    ("vm-splice-bytes", (chosen_vm_splice_bytes, (MIN_VM_SPLICE_BYTES, MAX_MEM_LIMIT)));
    ("vm-bytes", (chosen_vm_bytes, (MIN_VM_BYTES, MAX_MEM_LIMIT)));
    ("zombie-max", (chosen_zombie_max, (MIN_ZOMBIES, MAX_ZOMBIES))) ].

(** the limits are those of the option *)
Definition enforced (nm : string) (lo hi : Z) (sp : spec) : bool :=
  if String.eqb (sp_name sp) nm then (sp_lo sp =? lo) && (sp_hi sp =? hi) else true.

Lemma limits_enforced aio_max ps :
  Forall (fun m => forallb (enforced m.1 m.2.2.1 m.2.2.2) (setters ps).*2 = true) (readers aio_max).
Proof. unfold readers. repeat apply Forall_cons_2; [..|apply Forall_nil_2]; vm_compute; reflexivity. Qed.

(** the instances and pages of a run: a page is a power of two *)
Definition sane_run (r : renv) : Prop :=
  1 <= r_instances r /\ 1 <= r_page_size r <= MB /\ exists k, 0 <= k /\ r_page_size r = 2 ^ k.

Ltac choose_bounds ps r Hps Hc nm t d mx mn lo hi :=
  destruct (choose_within ps r nm t d mx mn lo hi Hps Hc) as (?x & -> & ?Hx);
    [vm_compute; reflexivity|reflexivity|split; by vm_compute|split; by vm_compute|split; by vm_compute|split; by vm_compute
    |split; by vm_compute|].

(** [if (x < a) x = b] *)
Lemma floor_upper x a b hi : x <= hi -> b <= hi -> (if x <? a then b else x) <= hi.
Proof. by destruct (x <? a). Qed.
Lemma floor_within x a b lo hi : lo <= a -> lo <= b <= hi -> x <= hi -> lo <= (if x <? a then b else x) <= hi.
Proof. destruct (Z.ltb_spec x a); lia. Qed.
Lemma floor_keeps x a lo hi : lo <= x <= hi -> a <= hi -> lo <= (if x <? a then a else x) <= hi.
Proof. destruct (Z.ltb_spec x a); lia. Qed.

Ltac shared :=
  match goal with H : _ <= ?x <= _ |- ?x ÷ _ <= _ =>
    etransitivity; [apply share_bounds; [done|etransitivity; [|apply H]; by vm_compute]|apply H] end.
Ltac page Hg := etransitivity; [apply Hg|by vm_compute].
Ltac constant_floor := apply floor_within; [by vm_compute|split; by vm_compute|].
Ltac solve_floors Hg :=
  first
    [ lia
    | apply floor_keeps; [lia|page Hg]
    | constant_floor; shared
    | constant_floor; apply floor_upper; [shared|by vm_compute]
    | apply floor_keeps; [constant_floor; shared|page Hg] ].

Ltac solve_reader ps r Hps Hc Hg :=
  cbn [fst snd]; match goal with |- exists x, ?f r = Some x /\ ?lo <= x <= ?hi => unfold f;
    match goal with |- context [choose r ?nm ?t ?d ?mx ?mn] =>
      first [choose_bounds ps r Hps Hc nm t d mx mn lo hi | choose_bounds ps r Hps Hc nm t d mx mn 0 hi] end end;
  cbn [mbind option_bind]; cbv zeta; eexists; (split; [reflexivity|]); solve_floors Hg.

(** a count lowered to the limit of the system *)
Lemma adjusted_within ps r x adj hi :
  4 <= ps < 2 ^ 32 -> configured ps (r_store r) -> 0 <= x <= hi ->
  forallb (spec_fits adj TYPE_ID_UINT64 0 (2 ^ 64 - 1)) (specs ps) = true ->
  exists y, ('(found, max) ← read_setting r adj TYPE_ID_UINT64 0;
             Some (if found && (max <? x) then max else x)) = Some y /\ 0 <= y <= hi.
Proof.
  intros Hps Hc Hx Hall.
  destruct (read_within ps r adj TYPE_ID_UINT64 0 0 (2 ^ 64 - 1) Hps Hc Hall eq_refl) as (b & y & Hr & Hy);
    [split; by vm_compute..|].
  rewrite Hr. cbn [mbind option_bind]. eexists. split; [reflexivity|].
  destruct b; cbn [andb]; [|done]. destruct (Z.ltb_spec y x); lia.
Qed.

Lemma threads_within ps r :
  4 <= ps < 2 ^ 32 -> configured ps (r_store r) ->
  (exists x, chosen_pthread_max r = Some x /\ 0 <= x <= MAX_PTHREAD) /\
  (exists x, chosen_sleep_max r = Some x /\ 0 <= x <= MAX_SLEEP).
Proof.
  intros Hps Hc. split.
  - unfold chosen_pthread_max.
    choose_bounds ps r Hps Hc "pthread-max" TYPE_ID_UINT64 DEFAULT_PTHREAD MAX_PTHREAD MIN_PTHREAD 0 MAX_PTHREAD.
    cbn [mbind option_bind]. by apply (adjusted_within ps); [..|vm_compute].
  - unfold chosen_sleep_max.
    choose_bounds ps r Hps Hc "sleep-max" TYPE_ID_UINT64 DEFAULT_SLEEP MAX_SLEEP MIN_SLEEP 0 MAX_SLEEP.
    cbn [mbind option_bind]. by apply (adjusted_within ps); [..|vm_compute].
Qed.

Lemma bigheap_within ps r :
  4 <= ps < 2 ^ 32 -> configured ps (r_store r) -> sane_run r ->
  exists x, chosen_bigheap_growth r = Some x /\ MIN_BIGHEAP_GROWTH <= x <= MAX_BIGHEAP_GROWTH.
Proof.
  intros Hps Hc (_ & Hg & k & Hk & Hp). unfold chosen_bigheap_growth.
  choose_bounds ps r Hps Hc "bigheap-growth" TYPE_ID_UINT64 DEFAULT_BIGHEAP_GROWTH MAX_BIGHEAP_GROWTH MIN_BIGHEAP_GROWTH
    MIN_BIGHEAP_GROWTH MAX_BIGHEAP_GROWTH.
  cbn [mbind option_bind]. cbv zeta. eexists. split; [reflexivity|]. rewrite Hp in *.
  change MB with (2 ^ 20) in Hg. change MIN_BIGHEAP_GROWTH with (2 ^ 12) in *. change MAX_BIGHEAP_GROWTH with (2 ^ 26) in *.
  assert (k <= 20) as Hk20 by (apply (Z.pow_le_mono_r_iff 2); lia).
  assert (0 < 2 ^ k) by (apply Z.pow_pos_nonneg; lia).
  set (y := if x <? 2 ^ k then 2 ^ k else x). assert (2 ^ 12 <= y <= 2 ^ 26 /\ 2 ^ k <= y) as [Hy Hyk].
  { unfold y. destruct (Z.ltb_spec x (2 ^ k)); lia. }
  rewrite land_not_low by (unfold fits; lia). pose proof (Z.mod_pos_bound y (2 ^ k)) as Hm.
  split; [|lia]. destruct (Z.le_ge_cases k 12) as [H12|H12].
  - pose proof (Z.div_mod y (2 ^ k)) as Hd. assert (2 ^ 12 = 2 ^ k * 2 ^ (12 - k)) as E by (rewrite <- Z.pow_add_r by lia; f_equal; lia).
    assert (2 ^ (12 - k) <= y / 2 ^ k) by (apply Z.div_le_lower_bound; lia). nia.
  - assert (2 ^ 12 <= 2 ^ k) by (apply Z.pow_le_mono_r; lia). pose proof (Z.div_mod y (2 ^ k)) as Hd.
    assert (1 <= y / 2 ^ k) by (apply Z.div_le_lower_bound; lia). nia.
Qed.

Lemma aiol_within ps aio_max r :
  4 <= ps < 2 ^ 32 -> configured ps (r_store r) -> sane_run r ->
  exists x, chosen_aiol_requests aio_max r = Some x /\ MIN_AIO_LINUX_REQUESTS <= x <= MAX_AIO_LINUX_REQUESTS.
Proof.
  intros Hps Hc (Hi & _ & _). unfold chosen_aiol_requests.
  choose_bounds ps r Hps Hc "aiol-requests" TYPE_ID_UINT64 DEFAULT_AIO_LINUX_REQUESTS MAX_AIO_REQUESTS MIN_AIO_REQUESTS
    MIN_AIO_LINUX_REQUESTS MAX_AIO_LINUX_REQUESTS.
  cbn [mbind option_bind]. change MIN_AIO_LINUX_REQUESTS with 1 in *. change MAX_AIO_LINUX_REQUESTS with 4096 in *.
  change MIN_AIO_REQUESTS with 1. change MAX_AIO_REQUESTS with 4096.
  rewrite (proj2 (Z.ltb_ge x 1)), (proj2 (Z.ltb_ge 4096 x)) by lia. cbn [orb]. cbv zeta. eexists. split; [reflexivity|].
  match goal with |- context [?n <? x] => assert (1 <= n) as Hn by (match goal with |- _ <= if ?z <? 1 then _ else _ => destruct (Z.ltb_spec z 1); lia end);
    revert Hn; generalize n end.
  intros n Hn. destruct (Z.ltb_spec n x); lia.
Qed.

(** the size of a write stays within its limits, which are multiples of the number of vectors *)
Lemma hdd_io_within fl x : MIN_HDD_WRITE_SIZE <= x <= MAX_HDD_WRITE_SIZE -> MIN_HDD_WRITE_SIZE <= hdd_io_size fl x <= MAX_HDD_WRITE_SIZE.
Proof.
  unfold hdd_io_size. change MIN_HDD_WRITE_SIZE with 1. change MAX_HDD_WRITE_SIZE with (16 * 262144).
  change HDD_IO_VEC_MAX with 16. change BUF_ALIGNMENT with 4096. intros Hx.
  match goal with |- context [if x <? ?m then ?m else x] => assert (1 <= m <= 65536) as Hm by (by repeat destruct (c_true _));
    set (y := if x <? m then m else x); assert (1 <= y <= 16 * 262144) as Hy by (unfold y; destruct (Z.ltb_spec x m); lia); clearbody y end.
  destruct (c_true (fl .& HDD_OPT_IOVEC) && negb (y mod 16 =? 0)) eqn:E; [|lia].
  apply andb_true_iff in E as [_ E%negb_true_iff%Z.eqb_neq]. pose proof (Z.div_mod y 16). pose proof (Z.mod_pos_bound y 16).
  rewrite u64_small by (unfold fits; lia). lia.
Qed.

(** the size of a file is at most the greatest and at least that of a write, but may be less than the option accepts *)
Lemma hdd_within ps r :
  4 <= ps < 2 ^ 32 -> configured ps (r_store r) -> sane_run r ->
  exists x w, chosen_hdd_bytes r = Some x /\ chosen_hdd_write_size r = Some w /\
    MIN_HDD_WRITE_SIZE <= w <= MAX_HDD_WRITE_SIZE /\ w <= x <= MAX_HDD_BYTES.
Proof.
  intros Hps Hc (Hi & _ & _). unfold chosen_hdd_bytes.
  assert (exists w, chosen_hdd_write_size r = Some w /\ MIN_HDD_WRITE_SIZE <= w <= MAX_HDD_WRITE_SIZE) as (w & Hw & Hwb).
  { unfold chosen_hdd_write_size.
    destruct (read_within ps r "hdd-flags" TYPE_ID_INT 0 (- 2 ^ 31) (2 ^ 31 - 1) Hps Hc) as (b & fl & -> & _);
      [vm_compute; reflexivity|reflexivity|split; by vm_compute..|]. cbn [mbind option_bind].
    choose_bounds ps r Hps Hc "hdd-write-size" TYPE_ID_UINT64 DEFAULT_HDD_WRITE_SIZE MAX_HDD_WRITE_SIZE MIN_HDD_WRITE_SIZE
      MIN_HDD_WRITE_SIZE MAX_HDD_WRITE_SIZE.
    cbn [mbind option_bind]. eexists. split; [reflexivity|]. by apply hdd_io_within. }
  choose_bounds ps r Hps Hc "hdd-bytes" TYPE_ID_UINT64 DEFAULT_HDD_BYTES MAX_HDD_BYTES MIN_HDD_BYTES 0 MAX_HDD_BYTES.
  cbn [mbind option_bind]. rewrite Hw. cbn [mbind option_bind]. cbv zeta. eexists _, w. split; [reflexivity|]. split; [done|]. split; [done|].
  pose proof (share_bounds x (r_instances r) Hi (proj1 Hx)) as Hs.
  change MIN_HDD_WRITE_SIZE with 1 in *. change MAX_HDD_WRITE_SIZE with (4 * 1048576) in *. change MAX_HDD_BYTES with (256 * 1073741824) in *.
  destruct (Z.ltb_spec (x ÷ r_instances r) 1); match goal with |- context [?z <? w] => destruct (Z.ltb_spec z w) end; lia.
Qed.

Lemma readers_within ps aio_max r :
  4 <= ps < 2 ^ 32 -> configured ps (r_store r) -> sane_run r ->
  Forall (fun m => exists x, m.2.1 r = Some x /\ m.2.2.1 <= x <= m.2.2.2) (readers aio_max).
Proof.
  intros Hps Hc Hr. pose proof (bigheap_within ps r Hps Hc Hr) as Hb. pose proof (aiol_within ps aio_max r Hps Hc Hr) as Ha.
  assert (exists x, chosen_hdd_write_size r = Some x /\ MIN_HDD_WRITE_SIZE <= x <= MAX_HDD_WRITE_SIZE) as Hh
    by (destruct (hdd_within ps r Hps Hc Hr) as (x & w & _ & Hw & Hwb & _); by exists w).
  destruct Hr as (Hi & Hg & _).
  unfold readers. repeat apply Forall_cons_2; [..|apply Forall_nil_2];
    first [exact Hb | exact Ha | exact Hh | solve_reader ps r Hps Hc Hg].
Qed.

(** a value is within the range that its option accepts *)
Lemma reader_in_range ps aio_max r nm f lim g sp :
  4 <= ps < 2 ^ 32 -> configured ps (r_store r) -> sane_run r -> (nm, (f, lim)) ∈ readers aio_max ->
  (g, sp) ∈ setters ps -> sp_name sp = nm -> exists x, f r = Some x /\ sp_lo sp <= x <= sp_hi sp.
Proof.
  intros Hps Hc Hr Hin Hsp <-. pose proof (readers_within ps aio_max r Hps Hc Hr) as H. rewrite Forall_forall in H.
  destruct (H _ Hin) as (x & Hx & Hb). pose proof (limits_enforced aio_max ps) as He. rewrite Forall_forall in He.
  specialize (He _ Hin). rewrite forallb_forall in He. specialize (He sp).
  unfold enforced in He. cbn [fst snd] in *. rewrite String.eqb_refl in He.
  assert ((sp_lo sp =? lim.1) && (sp_hi sp =? lim.2) = true) as [E1%Z.eqb_eq E2%Z.eqb_eq]%andb_true_iff.
  { apply He, list_elem_of_In, list_elem_of_fmap. by exists (g, sp). }
  exists x. by rewrite E1, E2.
Qed.

(** ** No variable is overrun *)

(** the variables settings are read into: every call of [get_setting()] of the
    program *)
Definition reads : list (string * type_id) :=
  [ ("aiol-requests", TYPE_ID_UINT64); ("aio-requests", TYPE_ID_UINT64);
    ("bigheap-growth", TYPE_ID_UINT64); ("bsearch-size", TYPE_ID_UINT64);
    ("clone-max", TYPE_ID_UINT64); ("copy-file-bytes", TYPE_ID_UINT64);
    ("dentries", TYPE_ID_UINT64); ("fallocate-bytes", TYPE_ID_OFF_T);
    ("fiemap-bytes", TYPE_ID_UINT64); ("fifo-readers", TYPE_ID_UINT64);
    ("fork-max", TYPE_ID_UINT64); ("vfork-max", TYPE_ID_UINT64);
    ("hdd-bytes", TYPE_ID_UINT64); ("hdd-write-size", TYPE_ID_UINT64);
    ("heapsort-size", TYPE_ID_UINT64); ("hsearch-size", TYPE_ID_UINT64);
    ("iomix-bytes", TYPE_ID_OFF_T); ("itimer-freq", TYPE_ID_UINT64);
    ("lease-breakers", TYPE_ID_UINT64); ("lsearch-size", TYPE_ID_UINT64);
    ("malloc-bytes", TYPE_ID_SIZE_T); ("malloc-max", TYPE_ID_SIZE_T);
    ("matrix-size", TYPE_ID_SIZE_T); ("memfd-bytes", TYPE_ID_SIZE_T);
    ("mergesort-size", TYPE_ID_UINT64); ("mmap-bytes", TYPE_ID_SIZE_T);
    ("mq-size", TYPE_ID_INT); ("mremap-bytes", TYPE_ID_SIZE_T);
    ("msync-bytes", TYPE_ID_SIZE_T); ("pthread-max", TYPE_ID_UINT64);
    ("qsort-size", TYPE_ID_UINT64); ("radixsort-size", TYPE_ID_UINT64);
    ("readahead-bytes", TYPE_ID_UINT64); ("seek-size", TYPE_ID_UINT64);
    ("sem-sysv-procs", TYPE_ID_UINT64); ("sem-procs", TYPE_ID_UINT64);
    ("sendfile-size", TYPE_ID_INT64); ("sgx-vm-bytes", TYPE_ID_SIZE_T);
    ("shm-sysv-bytes", TYPE_ID_SIZE_T); ("shm-sysv-segs", TYPE_ID_SIZE_T);
    ("shm-bytes", TYPE_ID_SIZE_T); ("shm-objs", TYPE_ID_SIZE_T);
    ("sleep-max", TYPE_ID_UINT64); ("splice-bytes", TYPE_ID_SIZE_T);
    ("sync_file-bytes", TYPE_ID_OFF_T); ("timer-freq", TYPE_ID_UINT64);
    ("timerfd-freq", TYPE_ID_UINT64); ("tree-size", TYPE_ID_UINT64);
    ("tsearch-size", TYPE_ID_UINT64); ("userfaultfd-bytes", TYPE_ID_SIZE_T);
    ("vm-rw-bytes", TYPE_ID_SIZE_T); ("vm-splice-bytes", TYPE_ID_SIZE_T);
    ("vm-bytes", TYPE_ID_SIZE_T); ("zombie-max", TYPE_ID_UINT64);
    ("chdir-dirs", TYPE_ID_UINT64); ("cpu-load", TYPE_ID_INT32);
    ("cpu-load-slice", TYPE_ID_INT32); ("cyclic-sleep", TYPE_ID_UINT64);
    ("cyclic-prio", TYPE_ID_INT32); ("cyclic-dist", TYPE_ID_UINT64);
    ("dccp-port", TYPE_ID_INT); ("dir-dirs", TYPE_ID_UINT64);
    ("dirdeep-dirs", TYPE_ID_UINT32); ("epoll-port", TYPE_ID_INT);
    ("exec-max", TYPE_ID_UINT64); ("malloc-threshold", TYPE_ID_SIZE_T);
    ("memfd-fds", TYPE_ID_UINT32); ("memrate-bytes", TYPE_ID_UINT64);
    ("memrate-rd-mbs", TYPE_ID_UINT64); ("memrate-wr-mbs", TYPE_ID_UINT64);
    ("pipe-size", TYPE_ID_SIZE_T); ("pipe-data-size", TYPE_ID_SIZE_T);
    ("pthread-max-adjustment", TYPE_ID_UINT64); ("pty-max", TYPE_ID_UINT64);
    ("sctp-port", TYPE_ID_INT); ("sgx-vm-hang", TYPE_ID_UINT64);
    ("sleep-max-adjustment", TYPE_ID_UINT64); ("sockfd-port", TYPE_ID_INT);
    ("sock-port", TYPE_ID_INT); ("stream-L3-size", TYPE_ID_UINT64);
    ("udp-port", TYPE_ID_INT); ("vm-hang", TYPE_ID_UINT64);
    ("cpu-method", TYPE_ID_UINTPTR_T); ("cyclic-policy", TYPE_ID_SIZE_T);
    ("cyclic-method", TYPE_ID_UINTPTR_T); ("dccp-domain", TYPE_ID_INT);
    ("dccp-opts", TYPE_ID_INT); ("dentry-order", TYPE_ID_UINT8);
    ("dirdeep-inodes", TYPE_ID_UINT64); ("epoll-domain", TYPE_ID_INT);
    ("filename-opts", TYPE_ID_UINT8); ("fstat-dir", TYPE_ID_STR);
    ("funccall-method", TYPE_ID_UINTPTR_T); ("hdd-flags", TYPE_ID_INT);
    ("hdd-oflags", TYPE_ID_INT); ("hdd-opts-set", TYPE_ID_BOOL);
    ("ioport-opts", TYPE_ID_UINT32); ("matrix-method", TYPE_ID_STR);
    ("matrix-yx", TYPE_ID_SIZE_T); ("memrate-madvise", TYPE_ID_INT);
    ("memthrash-method", TYPE_ID_UINTPTR_T); ("exclude", TYPE_ID_STR);
    ("backoff", TYPE_ID_INT64); ("ionice-class", TYPE_ID_INT32);
    ("ionice-level", TYPE_ID_INT32); ("random", TYPE_ID_INT32);
    ("log-file", TYPE_ID_STR); ("sched", TYPE_ID_INT32);
    ("sched-prio", TYPE_ID_INT32); ("job", TYPE_ID_STR);
    ("cache-level", TYPE_ID_UINT16); ("cache-ways", TYPE_ID_UINT32);
    ("yaml", TYPE_ID_STR); ("rawdev-method", TYPE_ID_UINTPTR_T);
    ("sctp-domain", TYPE_ID_INT); ("sgx-vm-method", TYPE_ID_STR);
    ("sgx-vm-madvise", TYPE_ID_INT); ("sgx-method", TYPE_ID_STR);
    ("sock-opts", TYPE_ID_INT); ("sock-type", TYPE_ID_INT);
    ("sock-domain", TYPE_ID_INT); ("str-method", TYPE_ID_UINTPTR_T);
    ("stream-madvise", TYPE_ID_INT); ("tree-method", TYPE_ID_UINTPTR_T);
    ("udp-flood-domain", TYPE_ID_INT); ("udp-domain", TYPE_ID_INT);
    ("vm-flags", TYPE_ID_INT); ("vm-method", TYPE_ID_UINTPTR_T);
    ("vm-madvise", TYPE_ID_INT); ("wcs-method", TYPE_ID_UINTPTR_T);
    ("zlib-method", TYPE_ID_UINTPTR_T) ].

Lemma write_bytes_outside m a bs x : ~ (a <= x < a + Z.of_nat (length bs)) -> write_bytes m a bs x = m x.
Proof.
  intros Hx. unfold write_bytes. destruct (Z.leb_spec a x), (Z.ltb_spec x (a + Z.of_nat (length bs))); try done. lia.
Qed.

Lemma overwrite_outside a n es m x :
  (forall en, en ∈ es -> length (e_u en) = n) -> ~ (a <= x < a + Z.of_nat n) -> overwrite a m es x = m x.
Proof.
  intros Hl Hx. revert m. induction es as [|en es IH]; intros m; [done|]. cbn [overwrite foldl].
  fold (overwrite a (write_bytes m a (e_u en)) es). rewrite IH by (intros en' Hin; apply Hl; by right).
  apply write_bytes_outside. rewrite (Hl en) by left. done.
Qed.

(** a variable of type [t] can hold whatever is stored under [nm] *)
Definition holds_any (ps : Z) (nm : string) (t : type_id) : Prop :=
  forallb (spec_fits nm t (- 2 ^ 64) (2 ^ 64)) (specs ps) = true.

Lemma visible_width ps nm t p es en :
  Forall (typed ps) es -> holds_any ps nm t -> en ∈ List.filter (named nm) (scope p es) -> length (e_u en) = width t.
Proof.
  intros Hty Hall Hin. apply list_elem_of_In, filter_In in Hin as [Hin Hnm]. apply bool_decide_eq_true in Hnm.
  apply list_elem_of_In, scope_elem in Hin. rewrite Forall_forall in Hty.
  destruct (Hty en Hin) as (sp & v & Hsp & Hn & _ & _ & Hu).
  unfold holds_any in Hall. rewrite forallb_forall in Hall. apply list_elem_of_In in Hsp. specialize (Hall sp Hsp).
  unfold spec_fits in Hall. rewrite <- Hn, Hnm, String.eqb_refl in Hall.
  apply andb_true_iff in Hall as [[Hw _]%andb_true_iff _]. apply Nat.eqb_eq in Hw. by rewrite Hu, le_bytes_length.
Qed.

Lemma reads_hold ps : 4 <= ps < 2 ^ 32 -> Forall (fun m => holds_any ps m.1 m.2) reads.
Proof.
  intros Hps. unfold reads. repeat apply Forall_cons_2; [..|apply Forall_nil_2]; vm_compute; reflexivity.
Qed.

(** (C14) Settings are typed: in every store the option parser can build, a call of
    [get_setting()] by a stressor succeeds and writes nothing outside the
    variable it is given, since every setter of that name stores a value of
    exactly the width of the variable. *)
Theorem settings_well_typed ps s p nm t v m :
  4 <= ps < 2 ^ 32 -> configured ps s -> (nm, t) ∈ reads ->
  exists b m', get_setting p nm v s m = Some (b, m') /\
    forall x, ~ (v <= x < v + Z.of_nat (width t)) -> m' x = m x.
Proof.
  intros Hps Hc Hin. destruct (configured_typed ps s Hps Hc) as (es & Hs & Hty).
  pose proof (reads_hold ps Hps) as Hr. rewrite Forall_forall in Hr. specialize (Hr _ Hin).
  eexists _, _. split; [by apply get_setting_holds|]. intros x Hx.
  apply (overwrite_outside v (width t)); [|done]. intros en Hen. by eapply visible_width.
Qed.

(** The value a stressor runs with is within the range that its option accepts, whatever was configured:
    for the sizes and counts of [readers], from the option, the default,
    [--maximize] or [--minimize], after sharing among the instances and every other adjustment. *)
Theorem chosen_within_limits ps aio_max r nm f lim g sp :
  4 <= ps < 2 ^ 32 -> configured ps (r_store r) -> sane_run r -> (nm, (f, lim)) ∈ readers aio_max ->
  (g, sp) ∈ setters ps -> sp_name sp = nm -> exists x, f r = Some x /\ sp_lo sp <= x <= sp_hi sp.
Proof. apply reader_in_range. Qed.

(** for each option of [setters], in that order, the variable that the stressor reads it into: the name in its call of [get_setting()]
    and the type of the variable *)
Definition stressor_reads : list (setter * (string * type_id)) :=
  [ (stress_set_aio_linux_requests, ("aiol-requests", TYPE_ID_UINT64));
    (stress_set_aio_requests, ("aio-requests", TYPE_ID_UINT64));
    (stress_set_bigheap_growth, ("bigheap-growth", TYPE_ID_UINT64));
    (stress_set_bsearch_size, ("bsearch-size", TYPE_ID_UINT64));
    (stress_set_chdir_dirs, ("chdir-dirs", TYPE_ID_UINT64));
    (stress_set_clone_max, ("clone-max", TYPE_ID_UINT64));
    (stress_set_copy_file_bytes, ("copy-file-bytes", TYPE_ID_UINT64));
    (stress_set_cpu_load, ("cpu-load", TYPE_ID_INT32));
    (stress_set_cyclic_sleep, ("cyclic-sleep", TYPE_ID_UINT64));
    (stress_set_cyclic_prio, ("cyclic-prio", TYPE_ID_INT32));
    (stress_set_cyclic_dist, ("cyclic-dist", TYPE_ID_UINT64));
    (stress_set_dentries, ("dentries", TYPE_ID_UINT64));
    (stress_set_dir_dirs, ("dir-dirs", TYPE_ID_UINT64));
    (stress_set_dirdeep_dirs, ("dirdeep-dirs", TYPE_ID_UINT32));
    (stress_set_exec_max, ("exec-max", TYPE_ID_UINT64));
    (stress_set_fallocate_bytes, ("fallocate-bytes", TYPE_ID_OFF_T));
    (stress_set_fiemap_bytes, ("fiemap-bytes", TYPE_ID_UINT64));
    (stress_set_fifo_readers, ("fifo-readers", TYPE_ID_UINT64));
    (stress_set_fork_max, ("fork-max", TYPE_ID_UINT64));
    (stress_set_vfork_max, ("vfork-max", TYPE_ID_UINT64));
    (stress_set_hdd_bytes, ("hdd-bytes", TYPE_ID_UINT64));
    (stress_set_hdd_write_size, ("hdd-write-size", TYPE_ID_UINT64));
    (stress_set_heapsort_size, ("heapsort-size", TYPE_ID_UINT64));
    (stress_set_hsearch_size, ("hsearch-size", TYPE_ID_UINT64));
    (stress_set_iomix_bytes, ("iomix-bytes", TYPE_ID_OFF_T));
    (stress_set_itimer_freq, ("itimer-freq", TYPE_ID_UINT64));
    (stress_set_lease_breakers, ("lease-breakers", TYPE_ID_UINT64));
    (stress_set_lsearch_size, ("lsearch-size", TYPE_ID_UINT64));
    (stress_set_malloc_bytes, ("malloc-bytes", TYPE_ID_SIZE_T));
    (stress_set_malloc_max, ("malloc-max", TYPE_ID_SIZE_T));
    (stress_set_malloc_threshold, ("malloc-threshold", TYPE_ID_SIZE_T));
    (stress_set_matrix_size, ("matrix-size", TYPE_ID_SIZE_T));
    (stress_set_memfd_bytes, ("memfd-bytes", TYPE_ID_SIZE_T));
    (stress_set_memfd_fds, ("memfd-fds", TYPE_ID_UINT32));
    (stress_set_memrate_bytes, ("memrate-bytes", TYPE_ID_UINT64));
    (stress_set_memrate_rd_mbs, ("memrate-rd-mbs", TYPE_ID_UINT64));
    (stress_set_memrate_wr_mbs, ("memrate-wr-mbs", TYPE_ID_UINT64));
    (stress_set_mergesort_size, ("mergesort-size", TYPE_ID_UINT64));
    (stress_set_mmap_bytes, ("mmap-bytes", TYPE_ID_SIZE_T));
    (stress_set_mremap_bytes, ("mremap-bytes", TYPE_ID_SIZE_T));
    (stress_set_msync_bytes, ("msync-bytes", TYPE_ID_SIZE_T));
    (stress_set_pipe_size, ("pipe-size", TYPE_ID_SIZE_T));
    (stress_set_pipe_data_size, ("pipe-data-size", TYPE_ID_SIZE_T));
    (stress_set_pthread_max, ("pthread-max", TYPE_ID_UINT64));
    (stress_set_pty_max, ("pty-max", TYPE_ID_UINT64));
    (stress_set_qsort_size, ("qsort-size", TYPE_ID_UINT64));
    (stress_set_radixsort_size, ("radixsort-size", TYPE_ID_UINT64));
    (stress_set_readahead_bytes, ("readahead-bytes", TYPE_ID_UINT64));
    (stress_set_seek_size, ("seek-size", TYPE_ID_UINT64));
    (stress_set_semaphore_sysv_procs, ("sem-sysv-procs", TYPE_ID_UINT64));
    (stress_set_semaphore_posix_procs, ("sem-procs", TYPE_ID_UINT64));
    (stress_set_sendfile_size, ("sendfile-size", TYPE_ID_INT64));
    (stress_set_sgx_vm_hang, ("sgx-vm-hang", TYPE_ID_UINT64));
    (stress_set_sgx_vm_bytes, ("sgx-vm-bytes", TYPE_ID_SIZE_T));
    (stress_set_shm_sysv_bytes, ("shm-sysv-bytes", TYPE_ID_SIZE_T));
    (stress_set_shm_sysv_segments, ("shm-sysv-segs", TYPE_ID_SIZE_T));
    (stress_set_shm_posix_bytes, ("shm-bytes", TYPE_ID_SIZE_T));
    (stress_set_shm_posix_objects, ("shm-objs", TYPE_ID_SIZE_T));
    (stress_set_sleep_max, ("sleep-max", TYPE_ID_UINT64));
    (stress_set_splice_bytes, ("splice-bytes", TYPE_ID_SIZE_T));
    (stress_set_stream_L3_size, ("stream-L3-size", TYPE_ID_UINT64));
    (stress_set_sync_file_bytes, ("sync_file-bytes", TYPE_ID_OFF_T));
    (stress_set_timer_freq, ("timer-freq", TYPE_ID_UINT64));
    (stress_set_timerfd_freq, ("timerfd-freq", TYPE_ID_UINT64));
    (stress_set_tree_size, ("tree-size", TYPE_ID_UINT64));
    (stress_set_tsearch_size, ("tsearch-size", TYPE_ID_UINT64));
    (stress_set_userfaultfd_bytes, ("userfaultfd-bytes", TYPE_ID_SIZE_T));
    (stress_set_vm_rw_bytes, ("vm-rw-bytes", TYPE_ID_SIZE_T));
    (stress_set_vm_splice_bytes, ("vm-splice-bytes", TYPE_ID_SIZE_T));
    (stress_set_vm_hang, ("vm-hang", TYPE_ID_UINT64));
    (stress_set_vm_bytes, ("vm-bytes", TYPE_ID_SIZE_T));
    (stress_set_zombie_max, ("zombie-max", TYPE_ID_UINT64));
    (stress_set_dccp_port, ("dccp-port", TYPE_ID_INT));
    (stress_set_epoll_port, ("epoll-port", TYPE_ID_INT));
    (stress_set_sctp_port, ("sctp-port", TYPE_ID_INT));
    (stress_set_socket_fd_port, ("sockfd-port", TYPE_ID_INT));
    (stress_set_socket_port, ("sock-port", TYPE_ID_INT));
    (stress_set_udp_port, ("udp-port", TYPE_ID_INT));
    (stress_set_cpu_load_slice, ("cpu-load-slice", TYPE_ID_INT32));
    (stress_set_mq_size, ("mq-size", TYPE_ID_INT)) ].

(** the options that their stressors look for under another name than the setter uses ([options_lost]) *)
Definition lost_reads : list string := ["pipe-data-size"; "sgx-vm-hang"].

(** all others are read as they are stored: the name is the same, and the variable holds the whole range *)
Definition read_as_stored (sp : spec) (rd : string * type_id) : bool :=
  bool_decide (rd.1 ∈ lost_reads) ||
  (String.eqb (sp_name sp) rd.1 && scalar rd.2 && (width (sp_tid sp) =? width rd.2)%nat && in_typeb rd.2 (sp_lo sp) && in_typeb rd.2 (sp_hi sp)).

Lemma reads_as_stored ps k f sp g rd : setters ps !! k = Some (f, sp) -> stressor_reads !! k = Some (g, rd) ->
  f = g /\ read_as_stored sp rd = true.
Proof.
  intros Hs Hr. assert (k < length stressor_reads)%nat as Hk by (by eapply lookup_lt_Some). revert Hs Hr.
  change (length stressor_reads) with 80%nat in Hk.
  do 80 (destruct k as [|k]; [intros [= <- <-] [= <- <-]; split; [reflexivity|vm_compute; reflexivity]|]). lia.
Qed.


(** Two options are lost on the way: [--pipe-data-size] and [--sgx-vm-hang] are
    stored under another name than the one the stressor reads, so in every
    store that can be configured the stressor finds the default. *)
Theorem options_lost ps r :
  4 <= ps < 2 ^ 32 -> configured ps (r_store r) ->
  read_pipe_data_size r = Some 512 /\ read_sgx_vm_hang r = Some DEFAULT_VM_HANG.
Proof.
  intros Hps Hc. unfold read_pipe_data_size, read_sgx_vm_hang. split.
  - destruct (read_within ps r "pipe-data-size" TYPE_ID_SIZE_T 512 1 0 Hps Hc) as ([] & x & -> & Hx);
      [by vm_compute|reflexivity|split; by vm_compute..|lia|by subst x].
  - destruct (read_within ps r "sgx-vm-hang" TYPE_ID_UINT64 DEFAULT_VM_HANG 1 0 Hps Hc) as ([] & x & -> & Hx);
      [by vm_compute|reflexivity|split; by vm_compute..|lia|by subst x].
Qed.

(** *** a concrete configuration: [--vm-bytes 65536 --sgx-vm-hang 5 --pipe-data-size 64] *)

Definition demo_cenv : cenv :=
  CEnv (Some 1%positive) (fun s => Some (fresh (dom (nodes s)))) true 4096 0 0 (fun _ _ _ => None) 4096 0.

Definition run_setters (l : list (setter * string)) : store :=
  foldl (fun s m => match m.1 demo_cenv m.2 s with Returns s' => s' | _ => s end) no_settings l.

Definition demo_options : list (setter * string) :=
  [(stress_set_vm_bytes, "65536"); (stress_set_sgx_vm_hang, "5"); (stress_set_pipe_data_size, "64")].

Definition demo_renv : renv := REnv (Some 1%positive) (run_setters demo_options) 0 2 4096 8192.

Lemma demo_sane s : sane_env demo_cenv s.
Proof.
  split; [|done]. intros l [= <-]. apply not_elem_of_dom. apply is_fresh.
Qed.

Lemma demo_configured : configured 4096 (run_setters demo_options).
Proof.
  unfold run_setters, demo_options. cbn [foldl].
  assert (forall k f sp opt s, configured 4096 s -> setters 4096 !! k = Some (f, sp) ->
    configured 4096 match f demo_cenv opt s with Returns s' => s' | _ => s end) as Hstep.
  { intros k f sp opt s Hs Hm%list_elem_of_lookup_2. destruct (f demo_cenv opt s) eqn:Hf; try done.
    by eapply (configured_option 4096 (f, sp) demo_cenv opt s); [|..|apply demo_sane|reflexivity|]. }
  eapply (Hstep 42%nat); [|reflexivity]. eapply (Hstep 52%nat); [|reflexivity]. eapply (Hstep 70%nat); [|reflexivity].
  constructor.
Qed.

Lemma settings_well_typed_witness :
  exists b m', get_setting (Some 1%positive) "vm-bytes" 64 (run_setters demo_options) (fun _ => 9) = Some (b, m') /\
    forall x, ~ (64 <= x < 72) -> m' x = 9.
Proof.
  apply (settings_well_typed 4096 (run_setters demo_options) (Some 1%positive) "vm-bytes" TYPE_ID_SIZE_T 64 (fun _ => 9));
    [done|exact demo_configured|apply (list_elem_of_lookup_2 _ 52); reflexivity].
Defined.

Lemma demo_sane_run : sane_run demo_renv.
Proof. split; [by vm_compute|]. split; [split; by vm_compute|]. by exists 12. Qed.

Lemma chosen_within_limits_witness :
  chosen_vm_bytes demo_renv = Some 32768 /\
  exists x, chosen_vm_bytes demo_renv = Some x /\ MIN_VM_BYTES <= x <= MAX_MEM_LIMIT.
Proof.
  split; [vm_compute; reflexivity|].
  apply (chosen_within_limits 4096 None demo_renv "vm-bytes" chosen_vm_bytes (MIN_VM_BYTES, MAX_MEM_LIMIT) stress_set_vm_bytes
    (Spec "vm-bytes" TYPE_ID_SIZE_T MIN_VM_BYTES MAX_MEM_LIMIT false));
    [done|exact demo_configured|exact demo_sane_run|apply (list_elem_of_lookup_2 _ 49); reflexivity
    |apply (list_elem_of_lookup_2 _ 70); reflexivity|reflexivity].
Defined.


Lemma options_lost_witness :
  stress_set_pipe_data_size demo_cenv "64" no_settings <> Undefined /\
  read_pipe_data_size demo_renv = Some 512 /\ read_sgx_vm_hang demo_renv = Some DEFAULT_VM_HANG.
Proof. split; [done|]. apply (options_lost 4096); [done|exact demo_configured]. Defined.
