(* ===== verification/SgxUtils.v ===== *)
(** * Creating an enclave (sgx/utils.c), and choosing its method

    [initialize_enclave()] keeps the launch token of an enclave in a file: the
    token saved by the run before is given to [sgx_create_enclave()], and the one
    that comes back is saved.  The SGX library and the file system are
    environments.  [stress_set_sgx_method()] and [stress_set_sgx_vm_method()] are
    the same code around two different enclaves. *)

From S2P Require Import Prelude Outcome ParseOpts Settings MethodsError Setters.

(** the codes of the SGX library that the program names *)
Inductive sgx_status : Type :=
| SGX_SUCCESS | SGX_ERROR_UNEXPECTED | SGX_ERROR_INVALID_PARAMETER | SGX_ERROR_OUT_OF_MEMORY | SGX_ERROR_ENCLAVE_LOST
| SGX_ERROR_INVALID_ENCLAVE | SGX_ERROR_INVALID_ENCLAVE_ID | SGX_ERROR_INVALID_SIGNATURE | SGX_ERROR_OUT_OF_EPC
| SGX_ERROR_NO_DEVICE | SGX_ERROR_MEMORY_MAP_CONFLICT | SGX_ERROR_INVALID_METADATA | SGX_ERROR_DEVICE_BUSY
| SGX_ERROR_INVALID_VERSION | SGX_ERROR_INVALID_ATTRIBUTE | SGX_ERROR_ENCLAVE_FILE_ACCESS
| SGX_ERROR_OTHER (code : Z).

#[global] Instance sgx_status_eq_dec : EqDecision sgx_status.
Proof. solve_decision. Defined.

(** ** Error messages *)

(** the code, the message, the suggestion (double quotes written as single ones) *)
Definition sgx_errlist : list (sgx_status * string * option string) :=
  [ (SGX_ERROR_UNEXPECTED, "Unexpected error occurred.", None);
    (SGX_ERROR_INVALID_PARAMETER, "Invalid parameter.", None);
    (SGX_ERROR_OUT_OF_MEMORY, "Out of memory.", None);
    (SGX_ERROR_ENCLAVE_LOST, "Power transition occurred.",
      Some "Please refer to the sample 'PowerTransition' for details.");
    (SGX_ERROR_INVALID_ENCLAVE, "Invalid enclave image.", None);
    (SGX_ERROR_INVALID_ENCLAVE_ID, "Invalid enclave identification.", None);
    (SGX_ERROR_INVALID_SIGNATURE, "Invalid enclave signature.", None);
    (SGX_ERROR_OUT_OF_EPC, "Out of EPC memory.", None);
    (SGX_ERROR_NO_DEVICE, "Invalid SGX device.",
      Some "Please make sure SGX module is enabled in the BIOS, and install SGX driver afterwards.");
    (SGX_ERROR_MEMORY_MAP_CONFLICT, "Memory map conflicted.", None);
    (SGX_ERROR_INVALID_METADATA, "Invalid enclave metadata.", None);
    (SGX_ERROR_DEVICE_BUSY, "SGX device was busy.", None);
    (SGX_ERROR_INVALID_VERSION, "Enclave version was invalid.", None);
    (SGX_ERROR_INVALID_ATTRIBUTE, "Enclave was not authorized.", None);
    (SGX_ERROR_ENCLAVE_FILE_ACCESS, "Can't open enclave file.", None) ].

(** the lines printed *)
Definition print_error_message (ret : sgx_status) : list string :=
  match list_find (fun m => m.1.1 = ret) sgx_errlist with
  | Some (_, (_, msg, sug)) =>
      (if sug is Some sug then ["Info: " +:+ sug] else []) ++ ["Error: " +:+ msg]
  | None => ["Error: Unexpected error occurred."]
  end.

(** ** The launch token *)

Definition MAX_PATH : nat := 4096.
Definition token_size : nat := 1024.
Definition token : Type := list Z.
Definition empty_token : token := replicate token_size 0.

(** the files by name; what may be read and written *)
Record fsys := Fsys { files : gmap string (list Z); readable : string -> bool; writable : string -> bool }.

Definition put_file (path : string) (bs : list Z) (f : fsys) : fsys :=
  Fsys (<[path := bs]> (files f)) (readable f) (writable f).

(** [home_dir] is [getpwuid(getuid())->pw_dir] *)
Definition token_path (home_dir : option string) (enclave_token : string) : string :=
  match home_dir with
  | Some h =>
      if (String.length h + 1 + String.length enclave_token + 1 <=? MAX_PATH)%nat then h +:+ "/" +:+ enclave_token
      else enclave_token
  | None => enclave_token
  end.

(** [fopen(path, "rb")], or else [fopen(path, "wb")], which empties the file:
    whether a file is open, what can be read from it, and the files after that *)
Definition open_token (path : string) (f : fsys) : bool * list Z * fsys :=
  match files f !! path with
  | Some bs =>
      if readable f path then (true, bs, f)
      else if writable f path then (true, [], put_file path [] f) else (false, [], f)
  | None => if writable f path then (true, [], put_file path [] f) else (false, [], f)
  end.

(** [fread()]: a token of the wrong size is cleared *)
Definition read_token (bs : list Z) : token :=
  let read_num := Nat.min (length bs) token_size in
  if (read_num =? token_size)%nat then take token_size bs else empty_token.

(** [create] is [sgx_create_enclave()] on a token: the status, the token it leaves
    and whether that is a new one *)
Definition initialize_enclave (create : token -> sgx_status * token * bool) (home_dir : option string)
    (enclave_token : string) (f : fsys) : Z * fsys :=
  let path := token_path home_dir enclave_token in
  let '(fp, bs, f) := open_token path f in
  let tok := if fp then read_token bs else empty_token in
  let '(ret, tok, updated) := create tok in
  if negb (bool_decide (ret = SGX_SUCCESS)) then (-1, f)
  else if negb updated || negb fp then (0, f)
  else if negb (writable f path) then (0, f)
  else (0, put_file path tok f).

(** the token that is given to the library *)
Definition token_given (home_dir : option string) (enclave_token : string) (f : fsys) : token :=
  let '(fp, bs, _) := open_token (token_path home_dir enclave_token) f in
  if fp then read_token bs else empty_token.

(** The launch token is kept: when an enclave is created and its token changed,
    and the file may be read and written, the next creation of the enclave is
    given that token. *)
Theorem launch_token_kept create home name f tok :
  create (token_given home name f) = (SGX_SUCCESS, tok, true) -> length tok = token_size ->
  readable f (token_path home name) = true -> writable f (token_path home name) = true ->
  let '(ret, f') := initialize_enclave create home name f in
  ret = 0 /\ token_given home name f' = tok.
Proof.
  unfold token_given, initialize_enclave. set (path := token_path home name). intros Hc Hlen Hr Hw.
  assert (exists bs f1, open_token path f = (true, bs, f1) /\ readable f1 path = true /\ writable f1 path = true)
    as (bs & f1 & Ho & Hr1 & Hw1).
  { unfold open_token. destruct (files f !! path); rewrite ?Hr, ?Hw; by eexists _, _. }
  rewrite Ho in Hc. rewrite Ho, Hc, bool_decide_eq_true_2 by done. cbn [negb orb]. rewrite Hw1. cbn [negb].
  split; [done|]. unfold open_token, put_file. cbn [files readable writable]. rewrite lookup_insert_eq, Hr1.
  unfold read_token. rewrite Hlen, Nat.min_id, Nat.eqb_refl. rewrite <- Hlen. apply firstn_all.
Qed.

(** what is passed is always a token of the right size *)
Lemma token_given_size home name f : length (token_given home name f) = token_size.
Proof.
  assert (length empty_token = token_size) as He by apply length_replicate.
  assert (forall bs, length (read_token bs) = token_size) as Hr.
  { intros bs. unfold read_token. destruct (Nat.eqb_spec (Nat.min (length bs) token_size) token_size) as [Hm|]; [|done].
    rewrite length_take. lia. }
  unfold token_given. destruct (open_token _ f) as [[[|] bs] f1]; [apply Hr|exact He].
Qed.

Definition demo_fsys : fsys := Fsys ∅ (fun _ => true) (fun _ => true).
Definition demo_create (t : token) : sgx_status * token * bool := (SGX_SUCCESS, replicate token_size 5, true).

Lemma launch_token_kept_witness :
  let '(ret, f') := initialize_enclave demo_create (Some "/home/user") "enclave.token" demo_fsys in
  ret = 0 /\ token_given (Some "/home/user") "enclave.token" f' = replicate token_size 5.
Proof.
  apply (launch_token_kept demo_create (Some "/home/user") "enclave.token" demo_fsys (replicate token_size 5));
    [reflexivity|apply length_replicate|reflexivity|reflexivity].
Defined.

(** ** Choosing the method of an enclave *)

(** what the SGX library answers: whether the enclave can be created, and
    whether each call into it succeeds *)
Record sgx_env := SgxEnv { init_ok : bool; enter_ok : nat -> bool }.

Definition methods_bufsize : nat := 2000.

(** [exists_] and [message] are the calls into the enclave; [name_ptr] is the
    address of the argument [name] *)
Definition set_enclave_method (exists_ : string -> Z) (message : bool -> cstr -> Z -> option cstr) (key : string)
    (x : sgx_env) (e : cenv) (name : string) (name_ptr : Z) (s : store) : outcome (Z * store) :=
  if negb (init_ok x) then Returns (-1, s)
  else if negb (enter_ok x 0) then Returns (-1, s)
  else if exists_ name =? 1 then
    s ← set_setting (ce_alloc e s) (ce_dup e) (ce_proc e) (fun _ => 0) key TYPE_ID_STR name_ptr s;
    Returns (0, s)
  else if negb (enter_ok x 1) then Returns (-1, s)
  else match message true (replicate methods_bufsize NUL) (Z.of_nat methods_bufsize) with
       | None => Undefined
       | Some _ => Returns (-1, s)
       end.

(** the method is stored, or the settings are left alone *)
Lemma set_enclave_method_cases exists_ message key x e name ptr s es :
  holds s es -> (forall l, ce_alloc e s = Some l -> nodes s !! l = None) ->
  (exists buf, message true (replicate methods_bufsize NUL) (Z.of_nat methods_bufsize) = Some buf) ->
  match set_enclave_method exists_ message key x e name ptr s with
  | Returns (ret, s') =>
      (ret = -1 /\ s' = s) \/ (ret = 0 /\ init_ok x = true /\ enter_ok x 0 = true /\ exists_ name = 1)
  | Exits _ _ => ptr = 0 \/ ce_alloc e s = None \/ ce_dup e = false
  | _ => False
  end.
Proof.
  intros Hs Hfresh [buf Hm]. unfold set_enclave_method.
  destruct (init_ok x); cbn [negb]; [|by left]. destruct (enter_ok x 0); cbn [negb]; [|by left].
  destruct (Z.eqb_spec (exists_ name) 1) as [Hex|Hex].
  - destruct (Z.eq_dec ptr 0) as [->|Hptr]; [by left|].
    destruct (ce_alloc e s) as [l|] eqn:Ha; [|unfold set_setting; rewrite (proj2 (Z.eqb_neq ptr 0) Hptr); cbn; tauto].
    destruct (ce_dup e) eqn:Hd; [|unfold set_setting; rewrite (proj2 (Z.eqb_neq ptr 0) Hptr); cbn; tauto].
    destruct (set_setting_appends s es l (ce_proc e) (fun _ => 0) key TYPE_ID_STR ptr Hs (Hfresh l eq_refl) Hptr)
      as (s' & -> & _). by right.
  - destruct (enter_ok x 1); cbn [negb]; [|by left]. rewrite Hm. by left.
Qed.
