(* ===== verification/EnclaveVm.v ===== *)
(** * The memory stressor in an enclave (sgx/enclave_vm, stress-sgx-vm.c)

    The enclave has its own copy of the stressors: the text of [stress-vm.c]
    with the flag read through a pointer into the memory of the host.  What
    differs is what they run on: the generator is reseeded with constants, pages
    are touched by the enclave's copy of [mincore.c], and the option flags are
    those the enclave was entered with.  So the copies are the stressors of
    [VmMethods] on the platform of the enclave.  The entry points of the enclave
    and the stressor outside of it are modelled in full; whether an enclave can
    be created and entered is up to the SGX library. *)

From S2P Require Import Prelude Flags Limits Mwc VmState VmMethods VmTame VmLogic Mincore VmProofs VmBits VmPrime VmAll VmFaults VmDriver Outcome ParseOpts Settings MethodsError Setters Choices SgxUtils.

Section Trusted.
Context {M : Type} `{!MemDevice M}.
Variable (base : Z) (env : nat -> mincore_env) (page_size : nat) (calloc_ok : bool) (fuel : nat).

(** the platform of an enclave entered with the option flags [fl] *)
Definition enclave_platform (fl : Z) : platform M :=
  touching_platform base (fun _ => enclave_mwc_reseed)
    (fun k => MincoreEnv (have_mincore (env k)) (c_true (fl .& OPT_FLAGS_MMAP_MINCORE)) (vec_ok (env k))
                (mincore_vec (env k)))
    page_size calloc_ok (c_true (fl .& OPT_FLAGS_VERIFY)).

(** ** The trusted copies *)

Definition enclave_stress_vm_flip (fl : Z) : nat -> Z -> vm M Z := stress_vm_flip (enclave_platform fl).
Definition enclave_stress_vm_galpat_zero (fl : Z) : nat -> Z -> vm M Z := stress_vm_galpat_zero (enclave_platform fl) fuel.
Definition enclave_stress_vm_galpat_one (fl : Z) : nat -> Z -> vm M Z := stress_vm_galpat_one (enclave_platform fl) fuel.
Definition enclave_stress_vm_gray (fl : Z) : nat -> Z -> vm M Z := stress_vm_gray (enclave_platform fl).
Definition enclave_stress_vm_rowhammer (fl : Z) : nat -> Z -> vm M Z := stress_vm_rowhammer (enclave_platform fl).
Definition enclave_stress_vm_incdec (fl : Z) : nat -> Z -> vm M Z := stress_vm_incdec (enclave_platform fl).
Definition enclave_stress_vm_inc_nybble (fl : Z) : nat -> Z -> vm M Z := stress_vm_inc_nybble (enclave_platform fl).
Definition enclave_stress_vm_rand_set (fl : Z) : nat -> Z -> vm M Z := stress_vm_rand_set (enclave_platform fl).
Definition enclave_stress_vm_rand_sum (fl : Z) : nat -> Z -> vm M Z := stress_vm_rand_sum (enclave_platform fl).
Definition enclave_stress_vm_read64 (fl : Z) : nat -> Z -> vm M Z := stress_vm_read64.
Definition enclave_stress_vm_ror (fl : Z) : nat -> Z -> vm M Z := stress_vm_ror (enclave_platform fl).
Definition enclave_stress_vm_swap (fl : Z) : nat -> Z -> vm M Z := stress_vm_swap (enclave_platform fl).
Definition enclave_stress_vm_moving_inversion (fl : Z) : nat -> Z -> vm M Z := stress_vm_moving_inversion (enclave_platform fl).
Definition enclave_stress_vm_modulo_x (fl : Z) : nat -> Z -> vm M Z := stress_vm_modulo_x (enclave_platform fl).
Definition enclave_stress_vm_prime_zero (fl : Z) : nat -> Z -> vm M Z := stress_vm_prime_zero (enclave_platform fl).
Definition enclave_stress_vm_prime_one (fl : Z) : nat -> Z -> vm M Z := stress_vm_prime_one (enclave_platform fl).
Definition enclave_stress_vm_prime_gray_zero (fl : Z) : nat -> Z -> vm M Z := stress_vm_prime_gray_zero (enclave_platform fl).
Definition enclave_stress_vm_prime_gray_one (fl : Z) : nat -> Z -> vm M Z := stress_vm_prime_gray_one (enclave_platform fl).
Definition enclave_stress_vm_prime_incdec (fl : Z) : nat -> Z -> vm M Z := stress_vm_prime_incdec (enclave_platform fl).
Definition enclave_stress_vm_walking_zero_data (fl : Z) : nat -> Z -> vm M Z := stress_vm_walking_zero_data (enclave_platform fl).
Definition enclave_stress_vm_walking_one_data (fl : Z) : nat -> Z -> vm M Z := stress_vm_walking_one_data (enclave_platform fl).
Definition enclave_stress_vm_walking_zero_addr (fl : Z) : nat -> Z -> vm M Z := stress_vm_walking_zero_addr (enclave_platform fl).
Definition enclave_stress_vm_walking_one_addr (fl : Z) : nat -> Z -> vm M Z := stress_vm_walking_one_addr (enclave_platform fl).
Definition enclave_stress_vm_write64 (fl : Z) : nat -> Z -> vm M Z := stress_vm_write64.
Definition enclave_stress_vm_zero_one (fl : Z) : nat -> Z -> vm M Z := stress_vm_zero_one (enclave_platform fl).

Definition enclave_vm_methods_rest (fl : Z) : list (string * (nat -> Z -> vm M Z)) :=
  [ ("flip", enclave_stress_vm_flip fl);
    ("galpat-0", enclave_stress_vm_galpat_zero fl);
    ("galpat-1", enclave_stress_vm_galpat_one fl);
    ("gray", enclave_stress_vm_gray fl);
    ("rowhammer", enclave_stress_vm_rowhammer fl);
    ("incdec", enclave_stress_vm_incdec fl);
    ("inc-nybble", enclave_stress_vm_inc_nybble fl);
    ("rand-set", enclave_stress_vm_rand_set fl);
    ("rand-sum", enclave_stress_vm_rand_sum fl);
    ("read64", enclave_stress_vm_read64 fl);
    ("ror", enclave_stress_vm_ror fl);
    ("swap", enclave_stress_vm_swap fl);
    ("move-inv", enclave_stress_vm_moving_inversion fl);
    ("modulo-x", enclave_stress_vm_modulo_x fl);
    ("prime-0", enclave_stress_vm_prime_zero fl);
    ("prime-1", enclave_stress_vm_prime_one fl);
    ("prime-gray-0", enclave_stress_vm_prime_gray_zero fl);
    ("prime-gray-1", enclave_stress_vm_prime_gray_one fl);
    ("prime-incdec", enclave_stress_vm_prime_incdec fl);
    ("walk-0d", enclave_stress_vm_walking_zero_data fl);
    ("walk-1d", enclave_stress_vm_walking_one_data fl);
    ("walk-0a", enclave_stress_vm_walking_zero_addr fl);
    ("walk-1a", enclave_stress_vm_walking_one_addr fl);
    ("write64", enclave_stress_vm_write64 fl);
    ("zero-one", enclave_stress_vm_zero_one fl) ].

Definition enclave_stress_vm_all (fl : Z) : nat -> Z -> vm M Z := stress_vm_all (enclave_platform fl) fuel.

Definition enclave_vm_methods (fl : Z) : list (string * (nat -> Z -> vm M Z)) :=
  ("all", enclave_stress_vm_all fl) :: enclave_vm_methods_rest fl.

(** it is the table of the program *)
Lemma enclave_table fl : enclave_vm_methods_rest fl = vm_methods_rest (enclave_platform fl) fuel.
Proof. reflexivity. Qed.

(** ** The entry points *)

Definition find_method (name : string) (methods : list (string * (nat -> Z -> vm M Z))) : option (nat -> Z -> vm M Z) :=
  (fun m => m.2.2) <$> list_find (fun m => m.1 = name) methods.

(** the names do not depend on the flags *)
Definition ecall_vm_method_exists (method_name : string) : Z :=
  if find_method method_name (enclave_vm_methods 0) is Some _ then 1 else 0.

Definition ecall_get_vm_methods_error (outside : bool) (out_methods : cstr) (len : Z) : option cstr :=
  get_methods_error "sgx-vm-method must be one of:" (enclave_vm_methods 0).*1 outside out_methods len.

(** [g_opt_flags] is the global of the enclave: [keep] is taken from the value of
    the call before, and the new flags are stored after that.  [flag_ptr] tells
    whether the pointer to the flag is not null: this is all the loop tests
    before an allocation.  [None]: the name is unknown and the function pointer
    is not initialised.  The value returned by the call is not set on the path
    through the loop; the caller does not look at it. *)
Definition ecall_stress_vm (g_opt_flags vm_bytes : Z) (method_name : string) (rounds : Z) (flag_ptr : bool)
    (opt_flags page_sz vm_hang : Z) (alloc : nat -> option M) (n : nat) (l : lstate (M := M)) :
    option (Z * loop_end (M := M)) :=
  let keep := c_true (g_opt_flags .& OPT_FLAGS_SGX_VM_KEEP) in
  let buf_sz := buf_sz_of vm_bytes page_sz in
  func ← find_method method_name (enclave_vm_methods opt_flags);
  Some (opt_flags,
    stress_rounds (enclave_platform opt_flags) (mret flag_ptr) alloc func keep (Z.to_nat buf_sz) rounds vm_hang n l).

(** ** stress-sgx-vm.c *)

Definition stress_set_sgx_vm_method : sgx_env -> cenv -> string -> Z -> Settings.store ->
    Outcome.outcome (Z * Settings.store) :=
  set_enclave_method ecall_vm_method_exists ecall_get_vm_methods_error "sgx-vm-method".

Section Host.
Variable (alloc : nat -> option M) (vm_bytes : Z) (method : string) (max_ops g_flags page_sz vm_hang : Z).

(** a child: [None] when its enclave cannot be created; otherwise the polls
    before its alarm and the rounds it makes in a new enclave, whose globals
    are zero *)
Definition sgx_child_run (s0 : vmst M) (d : option (option nat * nat)) (cnt errs : Z) (maps : nat) : loop_end (M := M) :=
  match d with
  | None => LDone (child_state s0 None cnt errs maps)
  | Some (stp, n) =>
      match ecall_stress_vm 0 vm_bytes method max_ops true g_flags page_sz vm_hang alloc n
              (child_state s0 stp cnt errs maps) with
      | Some (_, e) => e
      | None => LBad
      end
  end.
End Host.

(** [method] is the setting, when one was made; the pointer is not initialised otherwise *)
Definition stress_sgx_vm (alloc : nat -> option M) (vm_bytes : Z) (method : option string)
    (max_ops g_flags page_sz vm_hang : Z) (counter_ok : bool) (s0 : vmst M)
    (evs : list (bool * vm_event (option (option nat * nat)))) : vm_result :=
  match method with
  | None => VBad
  | Some method =>
      if negb counter_ok then VReturns EXIT_NO_RESOURCE (counter s0)
      else vm_parent (sgx_child_run alloc vm_bytes method max_ops g_flags page_sz vm_hang s0) evs (counter s0) 0 0
  end.

(** ** What holds of it *)

Lemma find_method_elem name methods func : find_method name methods = Some func -> (name, func) ∈ methods.
Proof.
  unfold find_method. destruct (list_find _ _) as [[i [n f]]|] eqn:Hf; [|done]. intros [= <-].
  apply list_find_Some in Hf as (Hl & Hn & _). cbn in Hn. subst n. by eapply list_elem_of_lookup_2.
Qed.

(** the names of the table, whatever the flags *)
Lemma method_exists_finds fl name :
  ecall_vm_method_exists name = 1 -> exists func, find_method name (enclave_vm_methods fl) = Some func.
Proof.
  unfold ecall_vm_method_exists, find_method.
  assert ((enclave_vm_methods 0).*1 = (enclave_vm_methods fl).*1) as Hn by reflexivity. revert Hn.
  generalize (enclave_vm_methods 0) as t0, (enclave_vm_methods fl) as t1. intros t0 t1 Hn Hex.
  destruct (list_find (fun m => m.1 = name) t0) as [[i [n f]]|] eqn:Hf; [|done]. clear Hex.
  apply list_find_Some in Hf as (Hl & Hm & _). cbn in Hm. subst n.
  assert (t1.*1 !! i = Some name) as Hi by (rewrite <- Hn, list_lookup_fmap, Hl; done).
  apply list_lookup_fmap_Some in Hi as ([n' f'] & Hn' & Hl'). cbn in Hn'. subst n'.
  destruct (list_find_elem_of (fun m => m.1 = name) t1 (name, f')) as [x Hx]; [by eapply list_elem_of_lookup_2|done|].
  rewrite Hx. by eexists.
Qed.

Lemma enclave_platform_sound `{!Healthy M} fl : (0 < page_size)%nat -> SoundPlatform (enclave_platform fl).
Proof. apply touching_platform_sound. Qed.
End Trusted.

Section EnclaveProofs.
Context {M : Type} `{!MemDevice M} `{!Healthy M}.
Variable (base : Z) (env : nat -> mincore_env) (page_size : nat) (calloc_ok : bool) (fuel : nat).
Abbreviation epf := (enclave_platform (M := M) base env page_size calloc_ok).
Abbreviation methods := (enclave_vm_methods (M := M) base env page_size calloc_ok fuel).

Lemma gate_open b : only_stop (M := M) (mret b).
Proof. intros s. exists b, (stop s). by destruct s. Qed.

Lemma enclave_robust fl name func :
  find_method name (methods fl) = Some func -> name <> "all" -> name ∉ fragile -> robust_method (epf fl) fuel func.
Proof.
  intros Hf%find_method_elem Hall Hfr. exists name. apply list_elem_of_filter. split; [done|].
  rewrite <- enclave_table. apply elem_of_cons in Hf as [[= -> _]|Hf]; [done|exact Hf].
Qed.

(** (C21) In the enclave too a method that can be interrupted gives no false alarm: with any method of the enclave but "all" (the default),
    galpat-0, galpat-1, gray, incdec and prime-incdec, on sound memory and with a size of the buffer that 64 divides and over which the walk
    in prime steps visits every byte ([covers]), [stress_sgx_vm()] never leaves the buffer and never returns
    a failure, whatever happens to its children and their enclaves, and it
    returns success once it sees the flag cleared, if no child is waited for that has not ended. *)
Theorem stress_sgx_vm_no_false_alarm alloc vm_bytes name max_ops fl page_sz hang s0 evs :
  ecall_vm_method_exists (M := M) base env page_size calloc_ok fuel name = 1 -> name <> "all" -> name ∉ fragile ->
  (0 < page_size)%nat -> 0 <= base -> statics_wf (vars s0) ->
  (64 | Z.to_nat (buf_sz_of vm_bytes page_sz))%nat -> covers (Z.to_nat (buf_sz_of vm_bytes page_sz)) ->
  (forall k m, alloc k = Some m -> msize m = Z.to_nat (buf_sz_of vm_bytes page_sz)) ->
  match stress_sgx_vm base env page_size calloc_ok fuel alloc vm_bytes (Some name) max_ops fl page_sz hang true s0 evs with
  | VReturns ret _ => ret = EXIT_SUCCESS
  | VRunning => True
  | VBad => False
  end /\
  (settled evs -> forall ev, exists cnt,
    stress_sgx_vm base env page_size calloc_ok fuel alloc vm_bytes (Some name) max_ops fl page_sz hang true s0
      (evs ++ [(false, ev)]) = VReturns EXIT_SUCCESS cnt).
Proof.
  intros Hex Hall Hfr Hps Hb Hw H64 Hc Ha.
  destruct (method_exists_finds base env page_size calloc_ok fuel fl name Hex) as [func Hf].
  pose proof (enclave_robust fl name func Hf Hall Hfr) as Hr.
  pose proof (enclave_platform_sound base env page_size calloc_ok fl Hps) as Hsp.
  unfold stress_sgx_vm. cbn [negb]. apply vm_parent_clean. intros [[stp n]|] cnt maps.
  - cbn [sgx_child_run]. unfold ecall_stress_vm. rewrite Hf. cbn [mbind option_bind].
    destruct (stress_rounds_clean (epf fl) (mret true) alloc func (c_true (0 .& OPT_FLAGS_SGX_VM_KEEP))
      (Z.to_nat (buf_sz_of vm_bytes page_sz)) max_ops hang (gate_open true) Ha
      (fun s Hs Hws => robust_passes (epf fl) fuel func _ _ s Hr H64 Hc Hb Hs Hws) n (child_state s0 stp cnt 0 maps))
      as (l & Hl & _ & He & _); [by repeat split; try apply Hw|]. by exists l.
  - eexists. by split.
Qed.

(** The option [--sgx-vm-keep] has no effect, and an enclave that cannot be
    created is not reported: the first (and only) call into an enclave reads the
    option from flags that are still zero, so every round allocates and frees
    its buffer; and the parent of a child that found no enclave returns
    success. *)
Theorem sgx_vm_silent alloc vm_bytes name max_ops fl page_sz hang s0 stp n cnt errs maps evs :
  sgx_child_run base env page_size calloc_ok fuel alloc vm_bytes name max_ops fl page_sz hang s0 (Some (stp, n)) cnt errs maps =
    match find_method name (methods fl) with
    | None => LBad
    | Some func => stress_rounds (epf fl) (mret true) alloc func false (Z.to_nat (buf_sz_of vm_bytes page_sz)) max_ops hang n
                     (child_state s0 stp cnt errs maps)
    end /\
  stress_sgx_vm base env page_size calloc_ok fuel alloc vm_bytes (Some name) max_ops fl page_sz hang true s0
    ((true, Child None Exited) :: evs) = VReturns EXIT_SUCCESS (counter s0 >>> VM_BOGO_SHIFT).
Proof.
  split; [|reflexivity]. cbn [sgx_child_run]. unfold ecall_stress_vm.
  by destruct (find_method name (methods fl)).
Qed.

(** the message fits in the buffer of the host *)
Lemma vm_methods_message :
  exists buf, ecall_get_vm_methods_error (M := M) base env page_size calloc_ok fuel true (replicate methods_bufsize NUL)
      (Z.of_nat methods_bufsize) = Some buf /\
    contains (methods_text "sgx-vm-method must be one of:" (methods 0).*1) buf.
Proof.
  assert (length (replicate methods_bufsize NUL) = methods_bufsize) as Hl by apply length_replicate.
  unfold ecall_get_vm_methods_error.
  destruct (methods_error_text "sgx-vm-method must be one of:" (methods 0).*1 (replicate methods_bufsize NUL))
    as (buf & Hb & Hc & _); [rewrite Hl; vm_compute; reflexivity|rewrite Hl; by vm_compute|].
  rewrite Hl in Hb. exists buf. exact (conj Hb Hc).
Qed.

(** The method of the enclave is checked before it is used: setting it never
    overruns the buffer of the message; it is stored exactly when the enclave can be entered and
    has a method of that name, and then the call into the enclave finds it; a
    name that is refused leaves the settings as they were. *)
Theorem sgx_vm_method_checked x e name ptr s :
  (forall l, ce_alloc e s = Some l -> nodes s !! l = None) -> (exists es, holds s es) ->
  match stress_set_sgx_vm_method (M := M) base env page_size calloc_ok fuel x e name ptr s with
  | Returns (ret, s') =>
      (ret = -1 /\ s' = s) \/
      (ret = 0 /\ init_ok x = true /\ enter_ok x 0 = true /\ forall fl, exists func, find_method name (methods fl) = Some func)
  | Exits _ _ => ptr = 0 \/ ce_alloc e s = None \/ ce_dup e = false
  | _ => False
  end.
Proof.
  intros Hfresh [es Hs]. destruct vm_methods_message as (buf & Hb & _).
  pose proof (set_enclave_method_cases (ecall_vm_method_exists base env page_size calloc_ok fuel)
    (ecall_get_vm_methods_error base env page_size calloc_ok fuel) "sgx-vm-method" x e name ptr s es Hs Hfresh
    (ex_intro _ buf Hb)) as H.
  unfold stress_set_sgx_vm_method. destruct (set_enclave_method _ _ _ _ _ _ _ _) as [[ret s']| | |]; [|exact H..].
  destruct H as [H|(Hret & Hi & He & Hex)]; [left; exact H|right]. split; [exact Hret|]. split; [exact Hi|]. split; [exact He|].
  intros fl. apply method_exists_finds. exact Hex.
Qed.
End EnclaveProofs.

(** *** a concrete run: 64 bytes in the enclave, the page size being 64 *)

Definition demo_mincore (k : nat) : mincore_env := MincoreEnv false false true None.

Definition demo_sgx_history : list (bool * vm_event (option (option nat * nat))) :=
  [(true, Child None OtherSignal); (true, Child (Some (Some 4%nat, 2%nat)) OomKilled)].

Lemma stress_sgx_vm_no_false_alarm_witness :
  match stress_sgx_vm (M := ram) 4096 demo_mincore 64 true 1 demo_alloc 100 (Some "swap") 0 0 64 DEFAULT_VM_HANG true
          (demo_state 64) demo_sgx_history with
  | VReturns ret _ => ret = EXIT_SUCCESS
  | VRunning => True
  | VBad => False
  end.
Proof.
  assert (Z.to_nat (buf_sz_of 100 64) = 64%nat) as Hsz by reflexivity.
  assert ("swap" ∉ fragile) as Hfr by by compute_done.
  assert (64 | Z.to_nat (buf_sz_of 100 64))%nat as H64 by (rewrite Hsz; by exists 1%nat).
  assert (covers (Z.to_nat (buf_sz_of 100 64))) as Hc by (rewrite Hsz; apply (covers_pow2 6); lia).
  assert (forall k m, demo_alloc k = Some m -> msize m = Z.to_nat (buf_sz_of 100 64)) as Ha
    by (rewrite Hsz; exact demo_alloc_size).
  assert (0 <= 4096) as Hb by lia. assert (0 < 64)%nat as Hps by lia. assert ("swap" <> "all") as Hall by done.
  pose proof (stress_sgx_vm_no_false_alarm (M := ram) 4096 demo_mincore 64 true 1 demo_alloc 100 "swap" 0 0 64 DEFAULT_VM_HANG
    (demo_state 64) demo_sgx_history eq_refl Hall Hfr Hps Hb demo_wf H64 Hc Ha) as H.
  destruct H as [H _]. exact H.
Defined.

Lemma sgx_vm_method_checked_witness :
  match stress_set_sgx_vm_method (M := ram) 4096 demo_mincore 64 true 1 (SgxEnv true (fun _ => true))
          (CEnv None (fun _ => Some 1%positive) true 8 0 0 (fun _ _ _ => None) 4096 0) "zero-one" 640 no_settings with
  | Returns (ret, s') =>
      (ret = -1 /\ s' = no_settings) \/
      (ret = 0 /\ true = true /\ true = true /\
       forall fl, exists func, find_method "zero-one" (enclave_vm_methods (M := ram) 4096 demo_mincore 64 true 1 fl) = Some func)
  | Exits _ _ => 640 = 0 \/ Some 1%positive = None \/ true = false
  | _ => False
  end.
Proof.
  apply (sgx_vm_method_checked (M := ram) 4096 demo_mincore 64 true 1 (SgxEnv true (fun _ => true))
    (CEnv None (fun _ => Some 1%positive) true 8 0 0 (fun _ _ _ => None) 4096 0) "zero-one" 640 no_settings);
    [by intros l [= <-]|exists []; exact no_settings_holds].
Defined.
