(* ===== verification/CpuTable.v ===== *)
(** * The table of the CPU stressors (stress-cpu.c)

    All methods in the order of [cpu_methods[]], which of them there are being a
    matter of the build.

    - [cpu_table_checks_hold]: of the 28 methods whose checks are evaluated or proved
      ([checked_methods]) none ever reports a failure. *)

From S2P Require Import Prelude Mwc Float Cpu CpuProofs CpuChecks CpuSelf CpuFloat FloatChecks Outcome Named.

Section Table.
Variable m : libm.
Variable defined : string -> bool.
Variable shared_put : bool.
Variables decimal32 decimal64 decimal128 : arith.
Variable look : nat -> bool.
Variables (frame : nat -> Z) (here : Z).

(** [#if defined(HAVE_FLOAT_DECIMAL) && !defined(__clang__)] *)
Definition if_decimals {A} (l : list A) : list A := if decimal_types defined then l else [].

(** the entries after "all", up to those that the enclave has not, or has besides *)
Definition cpu_methods_to_dither : list (string * cpu_func) :=
  [("ackermann", stress_cpu_ackermann); ("bitops", stress_cpu_bitops); ("callfunc", stress_cpu_callfunc frame here)] ++
  ifdef defined "__STDC_IEC_559_COMPLEX__"
    [("cdouble", stress_cpu_complex_double m defined shared_put); ("cfloat", stress_cpu_complex_float m defined shared_put);
     ("clongdouble", stress_cpu_complex_long_double m defined shared_put)] ++
  [("correlate", stress_cpu_correlate shared_put); ("crc16", stress_cpu_crc16)] ++
  if_decimals
    [("decimal32", stress_cpu_decimal32 shared_put decimal32); ("decimal64", stress_cpu_decimal64 shared_put decimal64);
     ("decimal128", stress_cpu_decimal128 shared_put decimal128)] ++
  [("dither", stress_cpu_dither)].

Definition cpu_methods_to_int8 : list (string * cpu_func) :=
  [("djb2a", stress_cpu_djb2a); ("double", stress_cpu_double m defined shared_put); ("euler", stress_cpu_euler);
   ("explog", stress_cpu_explog m); ("fft", stress_cpu_fft m); ("factorial", stress_cpu_factorial m defined);
   ("fibonacci", stress_cpu_fibonacci); ("float", stress_cpu_float m defined shared_put); ("fnv1a", stress_cpu_fnv1a);
   ("gamma", stress_cpu_gamma m defined shared_put); ("gcd", stress_cpu_gcd); ("gray", stress_cpu_gray);
   ("hamming", stress_cpu_hamming); ("hanoi", stress_cpu_hanoi); ("hyperbolic", stress_cpu_hyperbolic m defined shared_put);
   ("idct", stress_cpu_idct m look)] ++
  ifdef defined "STRESS_INT128" [("int128", stress_cpu_int128)] ++
  [("int64", stress_cpu_int64); ("int32", stress_cpu_int32); ("int16", stress_cpu_int16); ("int8", stress_cpu_int8)].

Definition cpu_methods_int_fp : list (string * cpu_func) :=
  ifdef defined "STRESS_INT128"
    ([("int128float", stress_cpu_int128_float m defined shared_put); ("int128double", stress_cpu_int128_double m defined shared_put);
      ("int128longdouble", stress_cpu_int128_longdouble m defined shared_put)] ++
     if_decimals
       [("int128decimal32", stress_cpu_int128_decimal32 shared_put decimal32);
        ("int128decimal64", stress_cpu_int128_decimal64 shared_put decimal64);
        ("int128decimal128", stress_cpu_int128_decimal128 shared_put decimal128)]) ++
  [("int64float", stress_cpu_int64_float m defined shared_put); ("int64double", stress_cpu_int64_double m defined shared_put);
   ("int64longdouble", stress_cpu_int64_longdouble m defined shared_put); ("int32float", stress_cpu_int32_float m defined shared_put);
   ("int32double", stress_cpu_int32_double m defined shared_put);
   ("int32longdouble", stress_cpu_int32_longdouble m defined shared_put)].

Definition cpu_methods_to_nsqrt : list (string * cpu_func) :=
  [("jenkin", stress_cpu_jenkin); ("jmp", stress_cpu_jmp); ("ln2", stress_cpu_ln2 shared_put);
   ("longdouble", stress_cpu_longdouble m defined shared_put); ("loop", stress_cpu_loop);
   ("matrixprod", stress_cpu_matrix_prod shared_put); ("nsqrt", stress_cpu_nsqrt defined)].

Definition cpu_methods_to_rand : list (string * cpu_func) :=
  [("omega", stress_cpu_omega m defined shared_put); ("parity", stress_cpu_parity); ("phi", stress_cpu_phi defined);
   ("pi", stress_cpu_pi m defined shared_put); ("pjw", stress_cpu_pjw); ("prime", stress_cpu_prime);
   ("psi", stress_cpu_psi shared_put); ("queens", stress_cpu_queens); ("rand", stress_cpu_rand)].

Definition cpu_methods_last : list (string * cpu_func) :=
  [("stats", stress_cpu_stats m shared_put); ("sqrt", stress_cpu_sqrt look); ("trig", stress_cpu_trig m defined shared_put);
   ("union", stress_cpu_union); ("zeta", stress_cpu_zeta m defined shared_put)].

(** [cpu_methods[]], without "all" *)
Definition cpu_methods_rest : list (string * cpu_func) :=
  cpu_methods_to_dither ++ cpu_methods_to_int8 ++ cpu_methods_int_fp ++ cpu_methods_to_nsqrt ++ cpu_methods_to_rand ++
  [("rand48", stress_cpu_rand48 shared_put); ("rgb", stress_cpu_rgb); ("sdbm", stress_cpu_sdbm); ("sieve", stress_cpu_sieve)] ++
  cpu_methods_last.

(** the names that can be chosen are those of the table *)
Lemma cpu_table_names : cpu_method_names defined = "all" :: cpu_methods_rest.*1.
Proof.
  unfold cpu_method_names, cpu_methods_rest, cpu_methods_to_dither, cpu_methods_to_int8, cpu_methods_int_fp, cpu_methods_to_nsqrt,
    cpu_methods_to_rand, cpu_methods_last, if_decimals, ifdef.
  destruct (defined "__STDC_IEC_559_COMPLEX__"), (decimal_types defined), (defined "STRESS_INT128"); reflexivity.
Qed.

(** ** The checks *)

Definition float_checked : list string :=
  ["callfunc"; "cdouble"; "cfloat"; "clongdouble"; "correlate"; "decimal32"; "decimal64"; "decimal128"; "dither"; "double";
   "euler"; "explog"; "fft"; "float"; "hyperbolic"; "idct"; "int64"; "int64float"; "int64double"; "int64longdouble";
   "int32float"; "int32double"; "int32longdouble"; "ln2"; "longdouble"; "matrixprod"; "pi"; "psi"; "rand48"; "rgb"; "trig";
   "union"; "zeta"].

Hypothesis cosine : cosine_ok m.
Hypothesis powers : powers_ok m.

(** a method that is checked leaves the failures as they are *)
Definition entry_silent (p : string * cpu_func) : Prop :=
  p.1 ∈ self_checked ++ float_checked -> forall verify s, c_fails (p.2 verify s) = c_fails s.

Lemma not_checked name (func : cpu_func) : bool_decide (name ∈ self_checked ++ float_checked) = false -> entry_silent (name, func).
Proof. intros Hn Hin. cbn [fst] in Hin. by apply bool_decide_eq_false in Hn. Qed.

Lemma integer_entry name (func : cpu_func) :
  (name, func) ∈ cpu_integer_methods -> bool_decide (name ∈ self_checked) = true -> entry_silent (name, func).
Proof. intros Hin Hn _ verify s. apply (self_checks_silent name func verify s Hin). by apply bool_decide_eq_true in Hn. Qed.

(** at the place that has the name *)
Ltac among_from name k := first
  [ let _ := constr:(eq_refl : cpu_integer_methods.*1 !! k = Some name) in apply (list_elem_of_lookup_2 _ k); reflexivity
  | among_from name (S k) ].
Ltac among := lazymatch goal with |- (?name, _) ∈ _ => among_from name 0%nat end.
Ltac start f := intros _ verify s; cbn [fst snd]; unfold f.
Ltac entry := lazymatch goal with
  | |- entry_silent (_, stress_cpu_callfunc _ _) => intros _ verify s; cbn [snd]; apply callfunc_silent
  | |- entry_silent (_, stress_cpu_complex_double _ _ _) => start stress_cpu_complex_double; apply complex_silent
  | |- entry_silent (_, stress_cpu_complex_float _ _ _) => start stress_cpu_complex_float; apply complex_silent
  | |- entry_silent (_, stress_cpu_complex_long_double _ _ _) => start stress_cpu_complex_long_double; apply complex_silent
  | |- entry_silent (_, stress_cpu_correlate _) => start stress_cpu_correlate; apply correlate_silent
  | |- entry_silent (_, stress_cpu_decimal32 _ _) => start stress_cpu_decimal32; apply fp_silent
  | |- entry_silent (_, stress_cpu_decimal64 _ _) => start stress_cpu_decimal64; apply fp_silent
  | |- entry_silent (_, stress_cpu_decimal128 _ _) => start stress_cpu_decimal128; apply fp_silent
  | |- entry_silent (_, stress_cpu_double _ _ _) => start stress_cpu_double; apply fp_silent
  | |- entry_silent (_, stress_cpu_float _ _ _) => start stress_cpu_float; apply fp_silent
  | |- entry_silent (_, stress_cpu_longdouble _ _ _) => start stress_cpu_longdouble; apply fp_silent
  | |- entry_silent (_, stress_cpu_dither) => start stress_cpu_dither; apply dither_silent
  | |- entry_silent (_, stress_cpu_euler) => intros _ verify s; cbn [snd]; by rewrite euler_silent
  | |- entry_silent (_, stress_cpu_explog _) => start stress_cpu_explog; cbv zeta; reflexivity
  | |- entry_silent (_, stress_cpu_fft _) => start stress_cpu_fft; cbv zeta; by destruct (fft_partial _ _ _ _ _ _ _)
  | |- entry_silent (_, stress_cpu_hyperbolic _ _ _) => start stress_cpu_hyperbolic; apply double_put_fails
  | |- entry_silent (_, stress_cpu_trig _ _ _) => start stress_cpu_trig; apply double_put_fails
  | |- entry_silent (_, stress_cpu_idct _ _) => intros _ verify s; cbn [snd]; apply idct_silent; exact cosine
  | |- entry_silent (_, stress_cpu_int64) => start stress_cpu_int64; apply int_method_silent; exact int64_value
  | |- entry_silent (_, stress_cpu_int64_float _ _ _) => start stress_cpu_int64_float; unfold int64_fp; apply int_fp_silent; exact int64_value
  | |- entry_silent (_, stress_cpu_int64_double _ _ _) => start stress_cpu_int64_double; unfold int64_fp; apply int_fp_silent; exact int64_value
  | |- entry_silent (_, stress_cpu_int64_longdouble _ _ _) => start stress_cpu_int64_longdouble; unfold int64_fp; apply int_fp_silent; exact int64_value
  | |- entry_silent (_, stress_cpu_int32_float _ _ _) => start stress_cpu_int32_float; unfold int32_fp; apply int_fp_silent; exact int32_value
  | |- entry_silent (_, stress_cpu_int32_double _ _ _) => start stress_cpu_int32_double; unfold int32_fp; apply int_fp_silent; exact int32_value
  | |- entry_silent (_, stress_cpu_int32_longdouble _ _ _) => start stress_cpu_int32_longdouble; unfold int32_fp; apply int_fp_silent; exact int32_value
  | |- entry_silent (_, stress_cpu_ln2 _) => intros _ verify s; cbn [snd]; apply ln2_silent
  | |- entry_silent (_, stress_cpu_matrix_prod _) => start stress_cpu_matrix_prod; apply matrix_prod_silent
  | |- entry_silent (_, stress_cpu_pi _ _ _) => intros _ verify s; cbn [snd]; apply pi_silent; exact powers
  | |- entry_silent (_, stress_cpu_psi _) => intros _ verify s; cbn [snd]; apply psi_silent
  | |- entry_silent (_, stress_cpu_rand48 _) => intros _ verify s; cbn [snd]; apply rand48_silent
  | |- entry_silent (_, stress_cpu_rgb) => intros _ verify s; cbn [snd]; apply rgb_silent
  | |- entry_silent (_, stress_cpu_union) => start stress_cpu_union; reflexivity
  | |- entry_silent (_, stress_cpu_zeta _ _ _) => intros _ verify s; cbn [snd]; apply zeta_silent
  | |- entry_silent (_, _) => first [apply not_checked; reflexivity | apply integer_entry; [among|reflexivity]]
  end.
Ltac entries := repeat apply Forall_app_2;
  repeat (match goal with |- context [if ?b then _ else _] => destruct b end);
  repeat (first [apply Forall_nil_2 | apply Forall_cons_2; [entry|]]).

Lemma table_silent : Forall entry_silent cpu_methods_rest.
Proof.
  unfold cpu_methods_rest, cpu_methods_to_dither, cpu_methods_to_int8, cpu_methods_int_fp, cpu_methods_to_nsqrt, cpu_methods_to_rand,
    cpu_methods_last, if_decimals, ifdef. entries.
Qed.
End Table.

(** the methods that compare what they compute with what it must be, and for which that is settled here; the other methods with
    a comparison are bitops, factorial, gamma, hamming, int128 and the six of int128 with a floating point type,
    nsqrt, omega, phi, prime, queens, sieve, sqrt and stats *)
Definition checked_methods : list string :=
  ["ackermann"; "djb2a"; "euler"; "fibonacci"; "fnv1a"; "gcd"; "gray"; "hanoi"; "idct"; "int64"; "int32"; "int16"; "int8";
   "int64float"; "int64double"; "int64longdouble"; "int32float"; "int32double"; "int32longdouble"; "jenkin"; "ln2"; "loop";
   "parity"; "pi"; "pjw"; "psi"; "rand"; "sdbm"].

Lemma checked_listed name : name ∈ checked_methods -> name ∈ self_checked ++ float_checked.
Proof. revert name. apply (Forall_forall (fun n => n ∈ self_checked ++ float_checked)), (bool_decide_unpack _). vm_compute. exact I. Qed.

(** (C23) The self checks of 28 methods of the table never fail ([checked_methods]: ackermann, djb2a, euler, fibonacci, fnv1a, gcd, gray,
    hanoi, idct, int8, int16, int32, int64 and the last two with each floating point type, jenkin, ln2, loop, parity, pi, pjw, psi,
    rand, sdbm), with or without [--verify], from any state of the generator and on host and enclave builds alike: the
    hashes, sums, series and transforms the code compares are the ones it computes in IEEE arithmetic.  Of the
    mathematical library it is assumed that the cosine of zero is 1 and a cosine is finite (for idct), and that a few powers of integers are
    exact or rounded correctly (for pi).  Not covered: "all", the methods that compare nothing, and bitops, factorial, gamma, hamming,
    int128 and its mixtures, nsqrt, omega, phi, prime, queens, sieve, sqrt and stats. *)
Theorem cpu_table_checks_hold m defined shared d32 d64 d128 look frame here name (func : cpu_func) verify s :
  cosine_ok m -> powers_ok m -> (name, func) ∈ cpu_methods_rest m defined shared d32 d64 d128 look frame here ->
  name ∈ checked_methods -> c_fails (func verify s) = c_fails s.
Proof.
  intros Hc Hp Hin Hn. pose proof (table_silent m defined shared d32 d64 d128 look frame here Hc Hp) as H.
  eapply Forall_forall in H; [|exact Hin]. by apply H, checked_listed.
Qed.

(** a library that is right at the places asked for *)
Definition plain_libm : libm :=
  let one t (_ : spec_float) := of_int t 1 in
  let same (_ : format) (z : cplx) := z in
  Libm one one one one one one one (fun t x y => of_int t (ftrunc x ^ ftrunc y)) same same same (fun _ z _ => z)
    (fun _ z => z.1) (fun _ z _ => z) (fun _ z _ => z).

Lemma plain_cosine : cosine_ok plain_libm.
Proof. done. Qed.

Lemma plain_powers : powers_ok plain_libm.
Proof.
  intros t b e Ht Hin. unfold pow_points in Hin.
  repeat (apply elem_of_cons in Hin as [[= -> ->]|Hin]; [destruct Ht as [-> | ->]; vm_compute; reflexivity|]).
  by apply not_elem_of_nil in Hin.
Qed.

Lemma cpu_table_checks_hold_witness :
  c_fails (stress_cpu_pi plain_libm (fun _ => false) false true (cpu_start mwc_init)) = [].
Proof.
  apply (cpu_table_checks_hold plain_libm (fun _ => false) false (real_arith plain_libm (fun _ => false) F)
    (real_arith plain_libm (fun _ => false) F) (real_arith plain_libm (fun _ => false) F) (fun _ => true) (fun _ => 0) 0 "pi").
  - exact plain_cosine.
  - exact plain_powers.
  - apply (list_elem_of_lookup_2 _ 42). reflexivity.
  - apply (list_elem_of_lookup_2 _ 23). reflexivity.
Defined.
