(* ===== verification/CpuDriver.v ===== *)
(** * Driving a CPU stressor (stress-cpu.c)

    [stress_cpu()] runs the chosen method until the flag is cleared or the number
    of operations is reached; with a load below 100 % in slices with pauses
    between them.  The clock only decides how long a slice lasts, of the length that is asked for or
    drawn from the generator: it is an argument.  The enclave has the same loop ([EnclaveCpu]). *)

From S2P Require Import Prelude Limits Mwc Float Cpu CpuSelf CpuFloat FloatChecks CpuTable.

(** ** The loop *)

(** [__keep_stressing()], given the flag *)
Definition keep_stressing (flag : bool) (max_ops counter : Z) : bool :=
  flag && (negb (c_true max_ops) || (counter <? max_ops)).

(** the method's state, the operation counter, the polls of the flag so far *)
Record cdrv := Cdrv { d_cpu : cpust; d_counter : Z; d_polls : nat }.

Section Loop.
Variable func : cpust -> cpust.        (** the method, with its flags *)
Variable flag : nat -> bool.           (** the flag at each poll *)

Definition poll_flag (d : cdrv) : bool * cdrv :=
  (flag (d_polls d), Cdrv (d_cpu d) (d_counter d) (S (d_polls d))).
Definition run_func (d : cdrv) : cdrv := Cdrv (func (d_cpu d)) (d_counter d) (d_polls d).
Definition inc_counter (d : cdrv) : cdrv := Cdrv (d_cpu d) (u64 (d_counter d + 1)) (d_polls d).

(** [do { func(); counter++; } while (keep_stressing())]; [None] when the fuel runs out *)
Fixpoint run_stressor (fuel : nat) (max_ops : Z) (d : cdrv) : option cdrv :=
  match fuel with
  | O => None
  | S fuel =>
      let '(b, d) := poll_flag (inc_counter (run_func d)) in
      if keep_stressing b max_ops (d_counter d) then run_stressor fuel max_ops d else Some d
  end.

(** a slice: [func(); if (!flag) break; counter++;] as long as [more] says so *)
Fixpoint busy_slice (fuel : nat) (more : nat -> bool) (j : nat) (d : cdrv) : option cdrv :=
  match fuel with
  | O => None
  | S fuel =>
      let '(b, d) := poll_flag (run_func d) in
      if negb b then Some d
      else if more j then busy_slice fuel more (S j) (inc_counter d) else Some (inc_counter d)
  end.

(** how long a slice is to last: as many 131072ths of a second as [mwc16()] draws, or milliseconds *)
Inductive slice_time : Type := Drawn (v : Z) | Millis (ms : Z).

(** [mwc16()], from the generator that the methods use too *)
Definition draw_slice (d : cdrv) : Z * cdrv :=
  let '(v, r) := mwc16 (c_rng (d_cpu d)) in (v, Cdrv (set_rng r (d_cpu d)) (d_counter d) (d_polls d)).

(** the loop over the slices: [clock k t j] says that in the slice [k], of the length [t], the time is not up
    after its [j]th operation *)
Fixpoint load_loop (fuel : nat) (slice max_ops : Z) (clock : nat -> slice_time -> nat -> bool) (k : nat) (d : cdrv) : option cdrv :=
  match fuel with
  | O => None
  | S fuel' =>
      let '(more, d) :=
        if slice <? 0 then (fun j => Z.of_nat (S j) <? - slice, d)
        else if slice =? 0 then let '(v, d) := draw_slice d in (clock k (Drawn v), d)
        else (clock k (Millis slice), d) in
      d ← busy_slice fuel more 0 d;
      let '(b, d) := poll_flag d in
      if keep_stressing b max_ops (d_counter d) then load_loop fuel' slice max_ops clock (S k) d else Some d
  end.

(** the value returned and the final state *)
Definition stress_cpu (fuel : nat) (cpu_load cpu_load_slice max_ops : Z) (clock : nat -> slice_time -> nat -> bool) (d : cdrv) :
    option (Z * cdrv) :=
  if cpu_load =? 100 then d ← run_stressor fuel max_ops d; Some (EXIT_SUCCESS, d)
  else if cpu_load =? 0 then Some (EXIT_SUCCESS, d)
  else d ← load_loop fuel cpu_load_slice max_ops clock 0 d; Some (EXIT_SUCCESS, d).
End Loop.

(** ** How many operations are run *)

(** the operations of a run that starts at the counter 0: up to the first poll
    that finds the flag cleared, and not more than [max_ops] (0: no limit) *)
Definition operations (cleared : nat) (max_ops : Z) : nat :=
  if max_ops =? 0 then S cleared else Nat.min (S cleared) (Z.to_nat max_ops).

Section Counting.
Variable func : cpust -> cpust.
Variable flag : nat -> bool.

Lemma run_stressor_steps n max_ops cs cnt k :
  (forall j, (k <= j < k + n)%nat -> flag j = true) -> 0 <= cnt -> cnt + Z.of_nat n < 2 ^ 64 - 1 ->
  (max_ops = 0 \/ cnt + Z.of_nat n < max_ops) ->
  forall fuel, run_stressor func flag (n + fuel) max_ops (Cdrv cs cnt k) =
    run_stressor func flag fuel max_ops (Cdrv (Nat.iter n func cs) (cnt + Z.of_nat n) (k + n)).
Proof.
  revert cs cnt k. induction n as [|n IH]; intros cs cnt k Hfl Hc Hlt Hmax fuel.
  { cbn [Nat.add Nat.iter]. by rewrite Z.add_0_r, Nat.add_0_r. }
  cbn [Nat.add run_stressor poll_flag inc_counter run_func d_cpu d_counter d_polls].
  rewrite Hfl, u64_small by (unfold fits; lia). unfold keep_stressing. cbn [andb].
  assert (negb (c_true max_ops) || (cnt + 1 <? max_ops) = true) as ->.
  { destruct Hmax as [->|Hmax]; [done|]. apply orb_true_iff. right. lia. }
  rewrite IH by (try (intros j Hj; apply Hfl); lia).
  f_equal. f_equal; [by rewrite Nat.iter_succ_r|lia|lia].
Qed.

(** the operations are run, and no more *)
Lemma run_stressor_runs cleared max_ops cs :
  (forall j, (j < cleared)%nat -> flag j = true) -> flag cleared = false -> 0 <= max_ops < 2 ^ 63 ->
  Z.of_nat cleared < 2 ^ 63 ->
  exists polls, run_stressor func flag (S cleared) max_ops (Cdrv cs 0 0) =
    Some (Cdrv (Nat.iter (operations cleared max_ops) func cs) (Z.of_nat (operations cleared max_ops)) polls).
Proof.
  intros Hfl Hcl Hmax Hlt.
  set (n := pred (operations cleared max_ops)).
  assert (operations cleared max_ops = S n /\ (n <= cleared)%nat /\ (max_ops = 0 \/ Z.of_nat n < max_ops) /\
    ((n < cleared)%nat -> max_ops = Z.of_nat (S n))) as (Hop & Hn & Hm & Hend).
  { unfold n, operations. destruct (Z.eqb_spec max_ops 0); [repeat split; lia|]. repeat split; lia. }
  clearbody n. exists (S n). rewrite Hop. replace (S cleared) with (n + S (cleared - n))%nat by lia.
  rewrite run_stressor_steps by (try (intros j Hj; apply Hfl); lia).
  cbn [run_stressor poll_flag inc_counter run_func d_cpu d_counter d_polls Nat.add]. rewrite Z.add_0_l.
  rewrite u64_small by (unfold fits; lia).
  assert (keep_stressing (flag n) max_ops (Z.of_nat n + 1) = false) as ->.
  { unfold keep_stressing. destruct (Nat.eq_dec n cleared) as [->|]; [by rewrite Hcl|].
    specialize (Hend ltac:(lia)). rewrite Hend. apply andb_false_iff. right. apply orb_false_iff. split.
    - unfold c_true. destruct (Z.eqb_spec (Z.of_nat (S n)) 0); [lia|done].
    - apply Z.ltb_ge. lia. }
  f_equal. f_equal. lia.
Qed.
End Counting.

(** what a method keeps, however often it is run *)
Lemma iter_preserves (P : cpust -> Prop) func n cs : (forall s, P s -> P (func s)) -> P cs -> P (Nat.iter n func cs).
Proof. intros Hf Hc. induction n as [|n IH]; [done|]. by apply Hf. Qed.

(** ** The loops end *)

Section Ends.
Variable (func : cpust -> cpust) (P : cpust -> Prop).
Hypothesis func_keeps : forall s, P s -> P (func s).
Hypothesis draw_keeps : forall r s, P s -> P (set_rng r s).
Variable cleared : nat.
(** the flag is cleared before the poll number [cleared], for good *)
Definition until_cleared (j : nat) : bool := (j <? cleared)%nat.

Lemma busy_slice_ends fuel more j d :
  (cleared < d_polls d + fuel)%nat -> (0 < fuel)%nat -> P (d_cpu d) ->
  exists d', busy_slice func until_cleared fuel more j d = Some d' /\ (d_polls d < d_polls d')%nat /\ P (d_cpu d').
Proof.
  revert j d. induction fuel as [|fuel IH]; intros j d Hf H0 HP; [lia|].
  cbn [busy_slice poll_flag run_func d_cpu d_counter d_polls].
  unfold until_cleared at 1. destruct (Nat.ltb_spec (d_polls d) cleared); cbn [negb].
  - destruct (more j).
    + destruct (IH (S j) (inc_counter (Cdrv (func (d_cpu d)) (d_counter d) (S (d_polls d))))) as (d' & -> & Hp & HP');
        [cbn; lia|lia|by apply func_keeps|]. exists d'. split; [done|]. cbn in Hp. split; [lia|done].
    + eexists. split; [done|]. cbn. split; [lia|by apply func_keeps].
  - eexists. split; [done|]. cbn. split; [lia|by apply func_keeps].
Qed.

Lemma load_loop_ends fuel slice max_ops clock k d :
  (cleared < d_polls d + fuel)%nat -> (0 < fuel)%nat -> P (d_cpu d) ->
  exists d', load_loop func until_cleared fuel slice max_ops clock k d = Some d' /\ P (d_cpu d').
Proof.
  revert k d. induction fuel as [|fuel IH]; intros k d Hf H0 HP; [lia|]. cbn [load_loop].
  match goal with |- context [let '(_, _) := ?x in _] => assert (d_polls x.2 = d_polls d /\ P (d_cpu x.2)) as [Hpx HPx];
    [|destruct x as [more d0]; cbn [snd] in Hpx, HPx] end.
  { unfold draw_slice. destruct (slice <? 0); [done|]. destruct (slice =? 0); [|done]. destruct (mwc16 _) as [v r]. cbn. auto. }
  destruct (busy_slice_ends (S fuel) more 0 d0) as (d1 & -> & Hp & HP1); [lia|lia|done|]. cbn [mbind option_bind poll_flag]. unfold until_cleared at 1, keep_stressing at 1.
  destruct (Nat.ltb_spec (d_polls d1) cleared); cbn [andb]; [|by eexists].
  destruct (negb (c_true max_ops) || _); [|by eexists]. apply IH; [cbn; lia|lia|done].
Qed.

Lemma run_stressor_ends fuel max_ops d :
  (cleared < d_polls d + fuel)%nat -> (0 < fuel)%nat -> P (d_cpu d) ->
  exists d', run_stressor func until_cleared fuel max_ops d = Some d' /\ P (d_cpu d').
Proof.
  revert d. induction fuel as [|fuel IH]; intros d Hf H0 HP; [lia|].
  cbn [run_stressor poll_flag inc_counter run_func d_cpu d_counter d_polls]. unfold until_cleared at 1, keep_stressing at 1.
  destruct (Nat.ltb_spec (d_polls d) cleared); cbn [andb]; [|eexists; split; [done|by apply func_keeps]].
  destruct (negb (c_true max_ops) || _); [|eexists; split; [done|by apply func_keeps]].
  apply IH; [cbn; lia|lia|by apply func_keeps].
Qed.
End Ends.

(** "all" always runs an entry of the table, and leaves the number of one *)
Definition cpu_i_entry (rest : list (string * cpu_func)) (s : cpust) : Prop := (1 <= cpu_i s <= length rest)%nat.

Lemma stress_cpu_all_entry rest verify s :
  cpu_i_entry rest s -> (exists p, rest !! (cpu_i s - 1)%nat = Some p) /\ cpu_i_entry rest (stress_cpu_all rest verify s).
Proof.
  unfold cpu_i_entry, stress_cpu_all. intros Hi. destruct (lookup_lt_is_Some_2 rest (cpu_i s - 1)) as [[name func] Hf]; [lia|].
  split; [by eexists|]. unfold cpu_func in *. rewrite Hf. cbn [cpu_i set_cpu_i].
  destruct (rest !! cpu_i s) as [p|] eqn:E; [apply lookup_lt_Some in E|]; lia.
Qed.

(** [cpu_methods[]] *)
Definition cpu_table (rest : list (string * cpu_func)) : list (string * cpu_func) := ("all", stress_cpu_all rest) :: rest.

(** (C20) [stress_cpu()] ends: with any method of the table, "all" included, at any load, with any length of the slices and however they are
    timed, it returns success within as many operations and slices as there are looks at the flag until it is cleared, and one.
    At full load the method is run exactly as often as asked, counting each run: [max_ops] times, or until
    the flag is found cleared if that comes first.  With one of the 28 methods of [checked_methods], and a
    mathematical library as in [cpu_table_checks_hold], no self check has failed. *)
Theorem stress_cpu_ends m defined shared d32 d64 d128 look frame here name func verify cleared cpu_load slice max_ops clock cs :
  cosine_ok m -> powers_ok m -> (name, func) ∈ cpu_table (cpu_methods_rest m defined shared d32 d64 d128 look frame here) ->
  0 <= max_ops < 2 ^ 63 -> Z.of_nat cleared < 2 ^ 63 ->
  exists d, stress_cpu (func verify) (until_cleared cleared) (S cleared) cpu_load slice max_ops clock (Cdrv cs 0 0) =
      Some (EXIT_SUCCESS, d) /\
    (cpu_load = 100 -> d_cpu d = Nat.iter (operations cleared max_ops) (func verify) cs /\
      d_counter d = Z.of_nat (operations cleared max_ops)) /\
    (name ∈ checked_methods -> c_fails (d_cpu d) = c_fails cs).
Proof.
  intros Hc Hp Hin Hmax Hcl. set (P := fun s : cpust => name ∈ checked_methods -> c_fails s = c_fails cs).
  assert (forall s, P s -> P (func verify s)) as Hk.
  { intros s Hs Hn. rewrite <- (Hs Hn). apply elem_of_cons in Hin as [[= -> ->]|Hin].
    - exfalso. revert Hn. apply (bool_decide_unpack _). vm_compute. exact I.
    - pose proof (table_silent m defined shared d32 d64 d128 look frame here Hc Hp) as H. eapply Forall_forall in H; [|exact Hin].
      by apply H, checked_listed. }
  assert (P cs) as H0 by done. unfold stress_cpu.
  destruct (Z.eqb_spec cpu_load 100) as [->|Hl]; [|destruct (cpu_load =? 0); [by exists (Cdrv cs 0 0)|]].
  - destruct (run_stressor_runs (func verify) (until_cleared cleared) cleared max_ops cs) as [polls ->];
      [intros j Hj; by apply Nat.ltb_lt|apply Nat.ltb_irrefl|done|done|].
    eexists. split; [reflexivity|]. split; [done|]. intros Hn. by apply (iter_preserves P).
  - destruct (load_loop_ends (func verify) P Hk (fun r s => id) cleared (S cleared) slice max_ops clock 0
      (Cdrv cs 0 0)) as (d & -> & Hd); [cbn; lia|lia|done|]. by exists d.
Qed.

(** *** concrete runs *)

Definition plain_methods : list (string * cpu_func) :=
  let T := real_arith plain_libm (fun _ => false) F in
  cpu_methods_rest plain_libm (fun _ => false) false T T T (fun _ => true) (fun _ => 0) 0.

Lemma stress_cpu_ends_witness :
  (exists d, stress_cpu (stress_cpu_gray true) (until_cleared 3) 4 40 0 0 (fun _ _ _ => true) (Cdrv (cpu_start mwc_init) 0 0) =
      Some (EXIT_SUCCESS, d) /\ c_fails (d_cpu d) = []) /\
  (exists d, stress_cpu (stress_cpu_all plain_methods true) (until_cleared 3) 4 100 0 0 (fun _ _ _ => true) (Cdrv (cpu_start mwc_init) 0 0) =
      Some (EXIT_SUCCESS, d) /\ d_counter d = 4).
Proof.
  split.
  - destruct (stress_cpu_ends plain_libm (fun _ => false) false (real_arith plain_libm (fun _ => false) F)
      (real_arith plain_libm (fun _ => false) F) (real_arith plain_libm (fun _ => false) F) (fun _ => true) (fun _ => 0) 0
      "gray" stress_cpu_gray true 3 40 0 0 (fun _ _ _ => true) (cpu_start mwc_init) plain_cosine plain_powers) as (d & Hd & _ & Hf);
      [apply (list_elem_of_lookup_2 _ 18); reflexivity|lia|lia|].
    exists d. split; [exact Hd|]. apply Hf. apply (list_elem_of_lookup_2 _ 6). reflexivity.
  - destruct (stress_cpu_ends plain_libm (fun _ => false) false (real_arith plain_libm (fun _ => false) F)
      (real_arith plain_libm (fun _ => false) F) (real_arith plain_libm (fun _ => false) F) (fun _ => true) (fun _ => 0) 0
      "all" (stress_cpu_all plain_methods) true 3 100 0 0 (fun _ _ _ => true) (cpu_start mwc_init) plain_cosine plain_powers)
      as (d & Hd & Hn & _); [left|lia|lia|].
    exists d. split; [exact Hd|]. apply Hn. reflexivity.
Defined.
