(* ===== verification/Matrix.v ===== *)
(** * The matrix stressor (stress-matrix.c)

    A matrix of [n] by [n] floats is the list of its rows one after the other, as
    it lies in memory.  Each method comes in two orders of its loops, by rows and
    by columns; the flag is looked at after each row (column), or each element
    of the product. *)

From S2P Require Import Prelude Limits Mwc Float Cpu CpuDriver.

Abbreviation matrix := (list spec_float).

Section Matrices.
Variable n : nat.

(** [a[i][j]] *)
Definition cell (a : matrix) (i j : nat) : spec_float := a !!! (i * n + j)%nat.
Definition set_cell (i j : nat) (x : spec_float) (r : matrix) : matrix := <[(i * n + j)%nat := x]> r.

(** [for (i = 0; i < n; i++)] without and with a look at the flag at the end of
    the body: the polls are numbered *)
Definition each (body : nat -> matrix -> matrix) (r : matrix) : matrix := foldl (fun r i => body i r) r (seq 0 n).

Variable keep : nat -> bool.

Fixpoint polled (body : nat -> matrix -> matrix) (is_ : list nat) (k : nat) (r : matrix) : bool * nat * matrix :=
  match is_ with
  | [] => (true, k, r)
  | i :: is_ =>
      let r := body i r in
      if keep k then polled body is_ (S k) r else (false, S k, r)
  end.

(** the loops of a method that sets every element *)
Definition xy_loop (f : nat -> nat -> spec_float) (k : nat) (r : matrix) : bool * nat * matrix :=
  polled (fun i => each (fun j => set_cell i j (f i j))) (seq 0 n) k r.
Definition yx_loop (f : nat -> nat -> spec_float) (k : nat) (r : matrix) : bool * nat * matrix :=
  polled (fun j => each (fun i => set_cell i j (f i j))) (seq 0 n) k r.

(** and of one that does not look at the flag *)
Definition xy_plain (f : nat -> nat -> spec_float) (k : nat) (r : matrix) : bool * nat * matrix :=
  (true, k, each (fun i => each (fun j => set_cell i j (f i j))) r).
Definition yx_plain (f : nat -> nat -> spec_float) (k : nat) (r : matrix) : bool * nat * matrix :=
  (true, k, each (fun j => each (fun i => set_cell i j (f i j))) r).

(** a method: the number of polls before and the matrices; the numbers of polls
    after and the result *)
Definition stress_matrix_func : Type := matrix -> matrix -> nat -> matrix -> nat * matrix.

Definition done_ (x : bool * nat * matrix) : nat * matrix := (x.1.2, x.2).

(** the sums of [r[i][j] += a[i][k] * b[k][j]] *)
Definition prod_cell (a b : matrix) (i j : nat) : matrix -> matrix :=
  each (fun k r => set_cell i j (fadd float_ (cell r i j) (fmul float_ (cell a i k) (cell b k j))) r).

(** the loop of the product, which looks at the flag in its inner loop *)
Fixpoint prod_rows (row : nat -> nat -> matrix -> bool * nat * matrix) (is_ : list nat) (k : nat) (r : matrix) : nat * matrix :=
  match is_ with
  | [] => (k, r)
  | i :: is_ =>
      let '(going, k, r) := row i k r in
      if going then prod_rows row is_ k r else (k, r)
  end.

Definition stress_matrix_xy_prod : stress_matrix_func := fun a b k r =>
  prod_rows (fun i => polled (fun j => prod_cell a b i j) (seq 0 n)) (seq 0 n) k r.
Definition stress_matrix_yx_prod : stress_matrix_func := fun a b k r =>
  prod_rows (fun j => polled (fun i => prod_cell a b i j) (seq 0 n)) (seq 0 n) k r.

Definition stress_matrix_xy_add : stress_matrix_func := fun a b k r =>
  done_ (xy_loop (fun i j => fadd float_ (cell a i j) (cell b i j)) k r).
Definition stress_matrix_yx_add : stress_matrix_func := fun a b k r =>
  done_ (yx_loop (fun i j => fadd float_ (cell a i j) (cell b i j)) k r).

Definition stress_matrix_xy_sub : stress_matrix_func := fun a b k r =>
  done_ (xy_loop (fun i j => fsub float_ (cell a i j) (cell b i j)) k r).
Definition stress_matrix_yx_sub : stress_matrix_func := fun a b k r =>
  done_ (yx_loop (fun i j => fsub float_ (cell a i j) (cell b i j)) k r).

Definition stress_matrix_xy_trans : stress_matrix_func := fun a b k r =>
  done_ (xy_loop (fun i j => cell a j i) k r).
Definition stress_matrix_yx_trans : stress_matrix_func := fun a b k r =>
  done_ (yx_loop (fun i j => cell a j i) k r).

Definition stress_matrix_xy_mult : stress_matrix_func := fun a b k r =>
  let v := cell b 0 0 in done_ (xy_loop (fun i j => fmul float_ v (cell a i j)) k r).
Definition stress_matrix_yx_mult : stress_matrix_func := fun a b k r =>
  let v := cell b 0 0 in done_ (yx_loop (fun i j => fmul float_ v (cell a i j)) k r).

Definition stress_matrix_xy_div : stress_matrix_func := fun a b k r =>
  let v := cell b 0 0 in done_ (xy_loop (fun i j => fdiv float_ (cell a i j) v) k r).
Definition stress_matrix_yx_div : stress_matrix_func := fun a b k r =>
  let v := cell b 0 0 in done_ (yx_loop (fun i j => fdiv float_ (cell a i j) v) k r).

Definition stress_matrix_xy_hadamard : stress_matrix_func := fun a b k r =>
  done_ (xy_loop (fun i j => fmul float_ (cell a i j) (cell b i j)) k r).
Definition stress_matrix_yx_hadamard : stress_matrix_func := fun a b k r =>
  done_ (yx_loop (fun i j => fmul float_ (cell a i j) (cell b i j)) k r).

(** the sum goes to [double_put()]; [r] stays.  The sum is kept as a matrix of one element. *)
Definition frobenius_rows (term : nat -> nat -> spec_float) (k : nat) : bool * nat * matrix :=
  polled (fun i sum => foldl (fun sum j => [fadd float_ (sum !!! 0%nat) (term i j)]) sum (seq 0 n)) (seq 0 n) k [fzero].

Definition stress_matrix_xy_frobenius : stress_matrix_func := fun a b k r =>
  ((frobenius_rows (fun i j => fmul float_ (cell a i j) (cell b i j)) k).1.2, r).
Definition stress_matrix_yx_frobenius : stress_matrix_func := fun a b k r =>
  ((frobenius_rows (fun j i => fmul float_ (cell a i j) (cell b i j)) k).1.2, r).

Definition stress_matrix_xy_copy : stress_matrix_func := fun a b k r => done_ (xy_loop (fun i j => cell a i j) k r).
Definition stress_matrix_yx_copy : stress_matrix_func := fun a b k r => done_ (yx_loop (fun i j => cell a i j) k r).

(** the sum is a float, the constant a double *)
Definition mean_cell (a b : matrix) (i j : nat) : spec_float :=
  convert float_ (fdiv double_ (convert double_ (fadd float_ (cell a i j) (cell b i j))) (of_int double_ 2)).
Definition stress_matrix_xy_mean : stress_matrix_func := fun a b k r => done_ (xy_loop (mean_cell a b) k r).
Definition stress_matrix_yx_mean : stress_matrix_func := fun a b k r => done_ (yx_loop (mean_cell a b) k r).

Definition stress_matrix_xy_zero : stress_matrix_func := fun a b k r => done_ (xy_plain (fun _ _ => fzero) k r).
Definition stress_matrix_yx_zero : stress_matrix_func := fun a b k r => done_ (yx_plain (fun _ _ => fzero) k r).

Definition stress_matrix_xy_negate : stress_matrix_func := fun a b k r => done_ (xy_plain (fun i j => fopp (cell a i j)) k r).
Definition stress_matrix_yx_negate : stress_matrix_func := fun a b k r => done_ (yx_plain (fun i j => fopp (cell a i j)) k r).

Definition identity_cell (i j : nat) : spec_float := if (i =? j)%nat then of_int float_ 1 else fzero.
Definition stress_matrix_xy_identity : stress_matrix_func := fun a b k r => done_ (xy_plain identity_cell k r).
Definition stress_matrix_yx_identity : stress_matrix_func := fun a b k r => done_ (yx_plain identity_cell k r).

(** the table behind its first entry, which is the special one *)
Definition matrix_methods_rest : list (string * (stress_matrix_func * stress_matrix_func)) :=
  [ ("add", (stress_matrix_xy_add, stress_matrix_yx_add)); ("copy", (stress_matrix_xy_copy, stress_matrix_yx_copy));
    ("div", (stress_matrix_xy_div, stress_matrix_yx_div));
    ("frobenius", (stress_matrix_xy_frobenius, stress_matrix_yx_frobenius));
    ("hadamard", (stress_matrix_xy_hadamard, stress_matrix_yx_hadamard));
    ("identity", (stress_matrix_xy_identity, stress_matrix_yx_identity));
    ("mean", (stress_matrix_xy_mean, stress_matrix_yx_mean)); ("mult", (stress_matrix_xy_mult, stress_matrix_yx_mult));
    ("negate", (stress_matrix_xy_negate, stress_matrix_yx_negate)); ("prod", (stress_matrix_xy_prod, stress_matrix_yx_prod));
    ("sub", (stress_matrix_xy_sub, stress_matrix_yx_sub)); ("trans", (stress_matrix_xy_trans, stress_matrix_yx_trans));
    ("zero", (stress_matrix_xy_zero, stress_matrix_yx_zero)) ].

(** [static int i]: the entry of the table that is next, counted from 1 *)
Definition next_static (i : nat) : nat := if (S i <=? length matrix_methods_rest)%nat then S i else 1%nat.

Definition stress_matrix_xy_all (i : nat) (a b : matrix) (k : nat) (r : matrix) : option (nat * (nat * matrix)) :=
  m ← matrix_methods_rest !! (i - 1)%nat; Some (next_static i, m.2.1 a b k r).
Definition stress_matrix_yx_all (i : nat) (a b : matrix) (k : nat) (r : matrix) : option (nat * (nat * matrix)) :=
  m ← matrix_methods_rest !! (i - 1)%nat; Some (next_static i, m.2.2 a b k r).

(** any method as one with a static *)
Definition with_static (f : stress_matrix_func) (i : nat) (a b : matrix) (k : nat) (r : matrix) :
    option (nat * (nat * matrix)) := Some (i, f a b k r).

Definition matrix_func (yx : bool) (name : string) :
    option (nat -> matrix -> matrix -> nat -> matrix -> option (nat * (nat * matrix))) :=
  if String.eqb name "all" then Some (if yx then stress_matrix_yx_all else stress_matrix_xy_all)
  else m ← list_find (fun m => m.1 = name) matrix_methods_rest;
       Some (with_static (if yx then m.2.2.2 else m.2.2.1)).

(** ** The stressor *)

(** [65535 / (matrix_type_t)((uint64_t)~0)] *)
Definition matrix_scale : spec_float := fdiv float_ (of_int float_ 65535) (of_int float_ (2 ^ 64 - 1)).

Fixpoint matrix_init (m : nat) (g : mwc) : matrix * matrix * matrix * mwc :=
  match m with
  | O => ([], [], [], g)
  | S m =>
      let '(x, g) := mwc64 g in
      let '(y, g) := mwc64 g in
      let '(a, b, r, g) := matrix_init m g in
      (fmul float_ (of_int float_ x) matrix_scale :: a, fmul float_ (of_int float_ y) matrix_scale :: b, fzero :: r, g)
  end.

(** [do { func(); counter++; } while (keep_stressing())]; [None]: the fuel is out *)
Fixpoint matrix_loop (fuel : nat) (func : nat -> matrix -> matrix -> nat -> matrix -> option (nat * (nat * matrix)))
    (max_ops : Z) (a b : matrix) (i k : nat) (r : matrix) (counter : Z) : option (Z * matrix) :=
  match fuel with
  | O => None
  | S fuel =>
      '(i, (k, r)) ← func i a b k r;
      let counter := u64 (counter + 1) in
      if keep_stressing (keep k) max_ops counter
      then matrix_loop fuel func max_ops a b i (S k) r counter else Some (counter, r)
  end.

(** the value returned and the counter; [maps]: whether each mapping was made *)
Definition stress_matrix_exercise (fuel : nat) (maps : bool * bool * bool)
    (func : nat -> matrix -> matrix -> nat -> matrix -> option (nat * (nat * matrix)))
    (max_ops : Z) (g : mwc) : option (Z * Z) :=
  let '(ma, mb, mr) := maps in
  if negb (ma && mb && mr) then Some (EXIT_NO_RESOURCE, 0)
  else
    let '(a, b, r, _) := matrix_init (n * n) g in
    '(counter, _) ← matrix_loop fuel func max_ops a b 1 0 r 0;
    Some (EXIT_SUCCESS, counter).

Definition stress_matrix (fuel : nat) (maps : bool * bool * bool) (matrix_method_name : string) (matrix_yx : bool)
    (max_ops : Z) (g : mwc) : option (Z * Z) :=
  match matrix_func matrix_yx matrix_method_name with
  | None => Some (EXIT_FAILURE, 0)
  | Some func => stress_matrix_exercise fuel maps func max_ops g
  end.

(** ** Both orders give the same result *)

Lemma set_cell_length i j x r : length (set_cell i j x r) = length r.
Proof. apply length_insert. Qed.

Lemma index_inj i j i' j' : (j < n)%nat -> (j' < n)%nat -> (i * n + j = i' * n + j')%nat -> i = i' /\ j = j'.
Proof. intros Hj Hj' H. assert (i = i') as -> by nia. split; [done|lia]. Qed.

Lemma index_bound i j : (i < n)%nat -> (j < n)%nat -> (i * n + j < n * n)%nat.
Proof. nia. Qed.

Lemma cell_set_same i j x r : (i < n)%nat -> (j < n)%nat -> length r = (n * n)%nat -> cell (set_cell i j x r) i j = x.
Proof. intros Hi Hj Hr. apply list_lookup_total_insert_eq. rewrite Hr. by apply index_bound. Qed.

Lemma cell_set_other i j i' j' x r :
  (j < n)%nat -> (j' < n)%nat -> (i, j) <> (i', j') -> cell (set_cell i j x r) i' j' = cell r i' j'.
Proof.
  intros Hj Hj' Hne. apply list_lookup_total_insert_ne. intros He. apply Hne.
  by destruct (index_inj i j i' j' Hj Hj' He) as [-> ->].
Qed.

(** two matrices with the same elements are the same *)
Lemma matrix_eq r r' :
  length r = (n * n)%nat -> length r' = (n * n)%nat ->
  (forall i j, (i < n)%nat -> (j < n)%nat -> cell r i j = cell r' i j) -> r = r'.
Proof.
  intros Hr Hr' H. apply list_eq_same_length with (n * n)%nat; [done|done|]. intros m x y Hm Hx Hy.
  assert (n <> 0%nat) as Hn by (intros ->; lia).
  assert ((m / n < n)%nat) as Hq by (apply Nat.Div0.div_lt_upper_bound; lia).
  specialize (H (m / n)%nat (m mod n)%nat Hq (Nat.mod_upper_bound _ _ Hn)).
  unfold cell in H. rewrite Nat.mul_comm, <- Nat.div_mod in H by done.
  by rewrite (list_lookup_total_correct _ _ _ Hx), (list_lookup_total_correct _ _ _ Hy) in H.
Qed.

(** *** loops over all elements *)

Section Loops.
Variable body : nat -> nat -> matrix -> matrix.
Variable g : nat -> nat -> spec_float -> spec_float.

(** the body changes only its element, to a value that depends on the old one *)
Definition local : Prop := forall i j r, (i < n)%nat -> (j < n)%nat -> length r = (n * n)%nat ->
  length (body i j r) = (n * n)%nat /\ cell (body i j r) i j = g i j (cell r i j) /\
  forall i' j', (i' < n)%nat -> (j' < n)%nat -> (i, j) <> (i', j') -> cell (body i j r) i' j' = cell r i' j'.

Definition over (ps : list (nat * nat)) (r : matrix) : matrix := foldl (fun r p => body p.1 p.2 r) r ps.

Lemma over_cells ps r :
  local -> NoDup ps -> Forall (fun p => (p.1 < n)%nat /\ (p.2 < n)%nat) ps -> length r = (n * n)%nat ->
  length (over ps r) = (n * n)%nat /\ forall i j, (i < n)%nat -> (j < n)%nat ->
    cell (over ps r) i j = if decide ((i, j) ∈ ps) then g i j (cell r i j) else cell r i j.
Proof.
  intros Hloc. revert r. induction ps as [|[i0 j0] ps IH]; intros r Hnd Hps Hr.
  { split; [done|]. intros i j _ _. by rewrite decide_False by apply not_elem_of_nil. }
  apply NoDup_cons in Hnd as [Hni Hnd]. apply Forall_cons in Hps as [[Hi0 Hj0] Hps]. cbn [fst snd] in *.
  destruct (Hloc i0 j0 r Hi0 Hj0 Hr) as (Hl & Hsame & Hother). change (over ((i0, j0) :: ps) r) with (over ps (body i0 j0 r)).
  destruct (IH (body i0 j0 r) Hnd Hps Hl) as [Hl' Hc]. split; [done|]. intros i j Hi Hj. rewrite Hc by done.
  destruct (decide ((i0, j0) = (i, j))) as [[= -> ->]|Hne].
  - rewrite decide_False by done. rewrite decide_True by left. done.
  - rewrite Hother by done. destruct (decide ((i, j) ∈ ps)) as [Hin|Hin].
    + by rewrite decide_True by (by right).
    + rewrite decide_False; [done|]. intros [He|Hin']%elem_of_cons; [by apply Hne|done].
Qed.
End Loops.

Definition all_pairs : list (nat * nat) := i ← seq 0 n; (fun j => (i, j)) <$> seq 0 n.

Lemma elem_of_all_pairs i j : (i, j) ∈ all_pairs <-> (i < n)%nat /\ (j < n)%nat.
Proof.
  unfold all_pairs. rewrite list_elem_of_bind. split.
  - intros (i' & (j' & [= -> ->] & Hj%elem_of_seq)%list_elem_of_fmap & Hi%elem_of_seq). lia.
  - intros [Hi Hj]. exists i. split; [|apply elem_of_seq; lia]. apply list_elem_of_fmap. exists j. split; [done|apply elem_of_seq; lia].
Qed.

Lemma nodup_all_pairs : NoDup all_pairs.
Proof.
  apply NoDup_bind; [|intros i _; apply NoDup_fmap_2; [by intros ? ? [=]|apply NoDup_seq]|apply NoDup_seq].
  intros i i' [x y] _ _ (j & [= -> ->] & _)%list_elem_of_fmap (j' & [= -> ->] & _)%list_elem_of_fmap. done.
Qed.

Lemma foldl_nested {A} (b : nat -> nat -> A -> A) js is_ r :
  foldl (fun r i => foldl (fun r j => b i j r) r js) r is_ = foldl (fun r p => b p.1 p.2 r) r (is_ ≫= fun i => pair i <$> js).
Proof.
  revert r. induction is_ as [|i is_ IH]; intros r; [done|]. cbn [mbind list_bind foldl]. rewrite foldl_app, IH. f_equal.
  clear IH. revert r. induction js as [|j js IH]; intros r; [done|]. apply IH.
Qed.

Lemma foldl_map {A B C} (f : A -> B -> A) (h : C -> B) l r : foldl f r (h <$> l) = foldl (fun r x => f r (h x)) r l.
Proof. revert r. induction l as [|x l IH]; intros r; [done|]. apply IH. Qed.

(** the loops by rows, and by columns, treat each element once *)
Lemma nested_cells body g r :
  local body g -> length r = (n * n)%nat ->
  forall R, R = each (fun i => each (fun j => body i j)) r \/ R = each (fun j => each (fun i => body i j)) r ->
  length R = (n * n)%nat /\ forall i j, (i < n)%nat -> (j < n)%nat -> cell R i j = g i j (cell r i j).
Proof.
  intros Hloc Hr R HR.
  assert (exists ps, R = over body ps r /\ NoDup ps /\ forall i j, (i, j) ∈ ps <-> (i < n)%nat /\ (j < n)%nat) as (ps & -> & Hnd & Hin).
  { destruct HR as [-> | ->].
    - exists all_pairs. split; [apply (foldl_nested body)|]. split; [apply nodup_all_pairs|apply elem_of_all_pairs].
    - exists ((fun p => (p.2, p.1)) <$> all_pairs). split; [|split].
      + unfold over. rewrite foldl_map. apply (foldl_nested (fun j i => body i j)).
      + apply NoDup_fmap_2; [|apply nodup_all_pairs]. by intros [a b] [c d] [= -> ->].
      + intros i j. rewrite list_elem_of_fmap. split.
        * intros ([a b] & [= -> ->] & [Ha Hb]%elem_of_all_pairs). done.
        * intros [Hi Hj]. exists (j, i). split; [done|]. by apply elem_of_all_pairs. }
  destruct (over_cells body g ps r Hloc Hnd) as [Hl Hc]; [|done|].
  { apply Forall_forall. intros [i j] [Hi Hj]%Hin. done. }
  split; [done|]. intros i j Hi Hj. rewrite Hc by done. by rewrite decide_True by (by apply Hin).
Qed.

Lemma orders_agree body g r :
  local body g -> length r = (n * n)%nat ->
  each (fun i => each (fun j => body i j)) r = each (fun j => each (fun i => body i j)) r.
Proof.
  intros Hloc Hr. destruct (nested_cells body g r Hloc Hr _ (or_introl eq_refl)) as [Hl1 H1].
  destruct (nested_cells body g r Hloc Hr _ (or_intror eq_refl)) as [Hl2 H2].
  apply matrix_eq; [done|done|]. intros i j Hi Hj. by rewrite H1, H2.
Qed.

Lemma set_local f : local (fun i j => set_cell i j (f i j)) (fun i j _ => f i j).
Proof.
  intros i j r Hi Hj Hr. split; [by rewrite set_cell_length|]. split; [by apply cell_set_same|].
  intros i' j' _ Hj' Hne. by apply cell_set_other.
Qed.

Lemma prod_local a b :
  local (fun i j => prod_cell a b i j)
    (fun i j x => foldl (fun x k => fadd float_ x (fmul float_ (cell a i k) (cell b k j))) x (seq 0 n)).
Proof.
  intros i j r Hi Hj Hr. unfold prod_cell, each. revert r Hr. induction (seq 0 n) as [|k ks IH]; intros r Hr; [done|]. cbn [foldl].
  destruct (IH (set_cell i j (fadd float_ (cell r i j) (fmul float_ (cell a i k) (cell b k j))) r)) as (H1 & H2 & H3).
  { by rewrite set_cell_length. }
  split; [done|]. split; [by rewrite H2, cell_set_same|]. intros i' j' Hi' Hj' Hne. rewrite H3 by done. by apply cell_set_other.
Qed.

(** *** the flag stays set *)

Lemma polled_through body is_ k r :
  (forall k, keep k = true) -> polled body is_ k r = (true, (k + length is_)%nat, foldl (fun r i => body i r) r is_).
Proof.
  intros Hk. revert k r. induction is_ as [|i is_ IH]; intros k r; cbn [polled length foldl]; [by rewrite Nat.add_0_r|].
  rewrite Hk, IH. do 2 f_equal. lia.
Qed.

Lemma prod_rows_through body is_ js k r :
  (forall k, keep k = true) ->
  prod_rows (fun i => polled (body i) js) is_ k r =
    ((k + length is_ * length js)%nat, foldl (fun r i => foldl (fun r j => body i j r) r js) r is_).
Proof.
  intros Hk. revert k r. induction is_ as [|i is_ IH]; intros k r; cbn [prod_rows length foldl]; [by rewrite Nat.add_0_r|].
  rewrite polled_through by done. rewrite IH. f_equal. lia.
Qed.

Lemma loops_agree f k r : (forall k, keep k = true) -> length r = (n * n)%nat -> xy_loop f k r = yx_loop f k r.
Proof.
  intros Hk Hr. unfold xy_loop, yx_loop. rewrite !polled_through by done. f_equal.
  apply (orders_agree _ _ r (set_local f) Hr).
Qed.

Lemma plains_agree f k r : length r = (n * n)%nat -> xy_plain f k r = yx_plain f k r.
Proof. intros Hr. unfold xy_plain, yx_plain. f_equal. apply (orders_agree _ _ r (set_local f) Hr). Qed.

(** Each method of the table gives the same matrix, element by element and to the
    last bit, by rows and by columns, and looks at the flag as often. *)
Lemma matrix_methods_agree a b k r :
  (forall k, keep k = true) -> length r = (n * n)%nat ->
  Forall (fun m => m.2.1 a b k r = m.2.2 a b k r) matrix_methods_rest.
Proof.
  intros Hk Hr. repeat (apply Forall_cons; split; [cbn [fst snd]|]); [..|apply Forall_nil_2].
  all: try (unfold stress_matrix_xy_add, stress_matrix_yx_add, stress_matrix_xy_copy, stress_matrix_yx_copy, stress_matrix_xy_div, stress_matrix_yx_div, stress_matrix_xy_hadamard, stress_matrix_yx_hadamard,
    stress_matrix_xy_mean, stress_matrix_yx_mean, stress_matrix_xy_mult, stress_matrix_yx_mult, stress_matrix_xy_sub, stress_matrix_yx_sub, stress_matrix_xy_trans, stress_matrix_yx_trans; by rewrite loops_agree).
  all: try (unfold stress_matrix_xy_identity, stress_matrix_yx_identity, stress_matrix_xy_negate, stress_matrix_yx_negate, stress_matrix_xy_zero, stress_matrix_yx_zero; by rewrite plains_agree).
  - unfold stress_matrix_xy_frobenius, stress_matrix_yx_frobenius, frobenius_rows. by rewrite !polled_through.
  - unfold stress_matrix_xy_prod, stress_matrix_yx_prod. rewrite (prod_rows_through (fun i j => prod_cell a b i j)) by done.
    rewrite (prod_rows_through (fun j i => prod_cell a b i j)) by done. f_equal. apply (orders_agree _ _ r (prod_local a b) Hr).
Qed.
Lemma methods_length a b k r :
  (forall k, keep k = true) -> length r = (n * n)%nat ->
  Forall (fun m => length (m.2.1 a b k r).2 = (n * n)%nat) matrix_methods_rest.
Proof.
  intros Hk Hr. assert (forall body g, local body g -> length (each (fun i => each (fun j => body i j)) r) = (n * n)%nat) as H.
  { intros body g Hl. by apply (nested_cells body g r Hl Hr _ (or_introl eq_refl)). }
  repeat (apply Forall_cons; split; [cbn [fst snd]|]); [..|apply Forall_nil_2].
  all: try (unfold stress_matrix_xy_add, stress_matrix_xy_copy, stress_matrix_xy_div, stress_matrix_xy_hadamard, stress_matrix_xy_mean, stress_matrix_xy_mult, stress_matrix_xy_sub, stress_matrix_xy_trans, done_, xy_loop;
    rewrite polled_through by done; apply (H _ _ (set_local _))).
  all: try apply (H _ _ (set_local _)).
  - done.
  - unfold stress_matrix_xy_prod. rewrite (prod_rows_through (fun i j => prod_cell a b i j)) by done. apply (H _ _ (prod_local a b)).
Qed.

Lemma matrix_func_agree name fxy fyx :
  (forall k, keep k = true) -> matrix_func false name = Some fxy -> matrix_func true name = Some fyx ->
  forall i a b k r, length r = (n * n)%nat -> fxy i a b k r = fyx i a b k r /\
    forall i' k' r', fxy i a b k r = Some (i', (k', r')) -> length r' = (n * n)%nat.
Proof.
  intros Hk. unfold matrix_func. destruct (String.eqb name "all").
  - intros [= <-] [= <-] i a b k r Hr. unfold stress_matrix_xy_all, stress_matrix_yx_all.
    pose proof (matrix_methods_agree a b k r Hk Hr) as Ha. pose proof (methods_length a b k r Hk Hr) as Hl.
    rewrite Forall_forall in Ha, Hl.
    destruct (matrix_methods_rest !! (i - 1)%nat) as [m|] eqn:Hm; [|done]. apply list_elem_of_lookup_2 in Hm.
    cbn [mbind option_bind]. split; [do 2 f_equal; exact (Ha m Hm)|]. intros i' k' r' [= _ H]. exact (eq_trans (f_equal (fun x : nat * matrix => length x.2) (eq_sym H)) (Hl m Hm)).
  - destruct (list_find (fun m => m.1 = name) matrix_methods_rest) as [[x m]|] eqn:Hm; [|done].
    apply list_find_Some in Hm as (Hm & _ & _). apply list_elem_of_lookup_2 in Hm. cbn [mbind option_bind].
    intros [= <-] [= <-] i a b k r Hr. unfold with_static.
    pose proof (matrix_methods_agree a b k r Hk Hr) as Ha. pose proof (methods_length a b k r Hk Hr) as Hl.
    rewrite Forall_forall in Ha, Hl. cbn [fst snd]. split; [do 2 f_equal; exact (Ha m Hm)|]. intros i' k' r' [= _ H]. exact (eq_trans (f_equal (fun x : nat * matrix => length x.2) (eq_sym H)) (Hl m Hm)).
Qed.
End Matrices.

(** (C30) Whatever the method, also the one that runs all of them in turn, the matrix
    stressor computes the same matrix, to the last bit, by rows and by columns,
    over any number of rounds; although the sums of floats are not associative,
    each element is summed in the same order. *)
Theorem matrix_orders_agree n keep name fxy fyx fuel max_ops a b i k r counter :
  (forall k, keep k = true) -> length r = (n * n)%nat ->
  matrix_func n keep false name = Some fxy -> matrix_func n keep true name = Some fyx ->
  matrix_loop keep fuel fxy max_ops a b i k r counter = matrix_loop keep fuel fyx max_ops a b i k r counter.
Proof.
  intros Hk Hr Hxy Hyx. revert i k r counter Hr. induction fuel as [|fuel IH]; intros i k r counter Hr; [done|].
  cbn [matrix_loop]. destruct (matrix_func_agree n keep name fxy fyx Hk Hxy Hyx i a b k r Hr) as [<- Hl].
  destruct (fxy i a b k r) as [[i' [k' r']]|]; [|done]. cbn [mbind option_bind].
  destruct (keep_stressing _ _ _); [|done]. apply IH. by eapply Hl.
Qed.

Lemma matrix_orders_agree_witness :
  let a := of_int float_ <$> [1; 2; 3; 4] in
  match matrix_func 2 (fun _ => true) false "all", matrix_func 2 (fun _ => true) true "all" with
  | Some fxy, Some fyx =>
      matrix_loop (fun _ => true) 20 fxy 13 a a 1 0 a 0 = matrix_loop (fun _ => true) 20 fyx 13 a a 1 0 a 0 /\
      matrix_loop (fun _ => true) 20 fxy 13 a a 1 0 a 0 <> None
  | _, _ => False
  end.
Proof.
  cbv zeta. destruct (matrix_func 2 (fun _ => true) false "all") as [fxy|] eqn:Hxy; [|discriminate].
  destruct (matrix_func 2 (fun _ => true) true "all") as [fyx|] eqn:Hyx; [|discriminate]. split.
  - exact (matrix_orders_agree 2 (fun _ => true) "all" fxy fyx 20 13 (of_int float_ <$> [1; 2; 3; 4]) (of_int float_ <$> [1; 2; 3; 4])
      1 0 (of_int float_ <$> [1; 2; 3; 4]) 0 (fun _ => eq_refl) eq_refl Hxy Hyx).
  - injection Hxy as <-. vm_compute. discriminate.
Defined.
