(* ===== verification/StrStress.v ===== *)
(** * String stressors (stress-str.c, stress-wcstr.c)

    Each method calls one function of the C library many times and checks what it
    returns.  A method is a sequence of steps on the buffer it has, the failure
    flag and the number of looks at [g_keep_stressing_flag]; a step has no result
    when a string is read or written outside its array.  The two files have the
    same methods, on [char] and on [wchar_t]: [size] is the bytes of a character,
    which matters where [sizeof(buf)] is passed.  The functions of the library are
    those of [CString].

    - [strings_pass]: on strings of random letters the stressor neither reports a
      failure nor leaves an array, unless the second string happens to be the tail
      of the first. *)

From S2P Require Import Prelude Mwc CString Outcome Named CpuDriver.

(** what a method works on *)
Record sst := Sst { buf : chars; failed : bool; polls : nat }.

Abbreviation step := (sst -> option sst).
(** [func(libc_func, name, str1, len1, str2, len2, &failed)], the library's function given *)
Abbreviation method := (chars -> nat -> chars -> nat -> step).

Section Methods.
Variable verify : bool.                (** [OPT_FLAGS_VERIFY] *)
Variable keep : nat -> bool.           (** [g_keep_stressing_flag] at each look *)
Variable uninit : nat -> chars.        (** what a new array of so many characters holds *)
Variable size : nat.                   (** [sizeof(char)] or [sizeof(wchar_t)] *)

(** [strchk()], [wcschk()] *)
Definition strchk (ok : bool) (s : sst) : sst := Sst (buf s) (failed s || (verify && negb ok)) (polls s).

(** a check of what a function returns *)
Definition chk (ok : option bool) : step := fun s => ok ← ok; Some (strchk ok s).

(** the same of a function that writes the buffer *)
Definition chk_buf {A} (f : chars -> option (A * chars)) (test : A -> bool) : step := fun s =>
  '(x, b) ← f (buf s); Some (strchk (test x) (Sst b (failed s) (polls s))).

Definition set_buf (f : chars -> chars) : step := fun s => Some (Sst (f (buf s)) (failed s) (polls s)).
(** [*buf = '\0'] *)
Definition clear_buf : step := set_buf <[0%nat := 0]>.
(** [char buf[n]] *)
Definition new_buf (n : nat) : step := set_buf (fun _ => uninit n).

Fixpoint steps (l : list step) : step := fun s =>
  match l with [] => Some s | f :: l => s ← f s; steps l s end.

(** [for (; g_keep_stressing_flag && (i < i + todo); i++)] *)
Fixpoint sloop (todo i : nat) (body : nat -> step) : step := fun s =>
  let s' := Sst (buf s) (failed s) (S (polls s)) in
  if keep (polls s) then
    match todo with
    | O => Some s'
    | S todo => s' ← body i s'; sloop todo (S i) body s'
    end
  else Some s'.

Definition is_zero (x : option Z) : option bool := x ← x; Some (x =? 0).
Definition not_zero (x : option Z) : option bool := x ← x; Some (negb (x =? 0)).
Definition is_null (p : option (option nat)) : option bool := p ← p; Some (bool_decide (p = None)).
Definition not_null (p : option (option nat)) : option bool := p ← p; Some (bool_decide (p <> None)).
Definition is_len (n : nat) (x : option nat) : option bool := x ← x; Some (x =? n)%nat.

(** *** comparing *)

Definition stress_strcmp (cmp : chars -> chars -> option Z) : method := fun str1 len1 str2 len2 =>
  sloop (len1 - 1) 1 (fun i => steps [
    chk (is_zero (cmp str1 str1)); chk (is_zero (cmp str2 str2));
    chk (not_zero (cmp str2 str1)); chk (not_zero (cmp str1 str2));
    chk (not_zero (cmp (drop i str1) str1)); chk (not_zero (cmp str1 (drop i str1)));
    chk (is_zero (cmp (drop i str1) (drop i str1)));
    chk (not_zero (cmp (drop i str1) str2)); chk (not_zero (cmp str2 (drop i str1)))]).
Definition stress_strcasecmp := stress_strcmp.
Definition stress_strcoll := stress_strcmp.

Definition stress_strncasecmp (cmp : chars -> chars -> nat -> option Z) : method := fun str1 len1 str2 len2 =>
  sloop (len1 - 1) 1 (fun i => steps [
    chk (is_zero (cmp str1 str1 len1)); chk (is_zero (cmp str2 str2 len2));
    chk (not_zero (cmp str2 str1 len2)); chk (not_zero (cmp str1 str2 len1));
    chk (not_zero (cmp (drop i str1) str1 len1)); chk (not_zero (cmp str1 (drop i str1) len1));
    chk (is_zero (cmp (drop i str1) (drop i str1) len1));
    chk (not_zero (cmp (drop i str1) str2 len1)); chk (not_zero (cmp str2 (drop i str1) len2))]).

(** the last but one is bounded by the other length *)
Definition stress_strncmp (cmp : chars -> chars -> nat -> option Z) : method := fun str1 len1 str2 len2 =>
  sloop (len1 - 1) 1 (fun i => steps [
    chk (is_zero (cmp str1 str1 len1)); chk (is_zero (cmp str2 str2 len2));
    chk (not_zero (cmp str2 str1 len2)); chk (not_zero (cmp str1 str2 len1));
    chk (not_zero (cmp (drop i str1) str1 len1)); chk (not_zero (cmp str1 (drop i str1) len1));
    chk (is_zero (cmp (drop i str1) (drop i str1) len1));
    chk (not_zero (cmp (drop i str1) str2 len2)); chk (not_zero (cmp str2 (drop i str1) len2))]).

(** *** searching *)

Definition underscore : Z := 95.

(** [f(s, s[0])] *)
Definition find_first (f : chars -> Z -> option (option nat)) (s : chars) : option (option nat) := c ← s !! 0%nat; f s c.

Definition stress_index (f : chars -> Z -> option (option nat)) : method := fun str1 len1 str2 len2 =>
  sloop (len1 - 1) 0 (fun _ => steps [
    chk (is_null (f str1 underscore)); chk (not_null (find_first f str1));
    chk (is_null (f str2 underscore)); chk (not_null (find_first f str2))]).
Definition stress_rindex := stress_index.
Definition stress_strchr := stress_index.
Definition stress_strrchr := stress_index.

(** *** making strings; [strlen()] is called once before the loop *)

Definition with_strlen (s : chars) (f : nat -> step) : step := fun st => n ← strlen s; f n st.

Definition stress_strlcpy (f : chars -> chars -> nat -> option (nat * chars)) : method := fun str1 len1 str2 len2 =>
  let buf_len := (size * (len1 + len2 + 1))%nat in
  with_strlen str1 (fun str_len1 => with_strlen str2 (fun str_len2 =>
    steps [new_buf (len1 + len2 + 1);
      sloop (len1 - 1) 0 (fun _ => steps [
        chk_buf (fun b => f b str1 buf_len) (Nat.eqb str_len1);
        chk_buf (fun b => f b str2 buf_len) (Nat.eqb str_len2)])])).

Definition stress_strcpy (f : chars -> chars -> option (bool * chars)) : method := fun str1 len1 str2 len2 =>
  steps [new_buf (len1 + len2 + 1);
    sloop (len1 - 1) 0 (fun _ => steps [
      chk_buf (fun b => f b str1) id; chk_buf (fun b => f b str2) id])].

Definition stress_strlcat (f : chars -> chars -> nat -> option (nat * chars)) : method := fun str1 len1 str2 len2 =>
  let buf_len := (size * (len1 + len2 + 1))%nat in
  with_strlen str1 (fun str_len1 => with_strlen str2 (fun str_len2 =>
    let str_len := (str_len1 + str_len2)%nat in
    steps [new_buf (len1 + len2 + 1);
      sloop (len1 - 1) 0 (fun _ => steps [
        clear_buf; chk_buf (fun b => f b str1 buf_len) (Nat.eqb str_len1);
        clear_buf; chk_buf (fun b => f b str2 buf_len) (Nat.eqb str_len2);
        clear_buf; chk_buf (fun b => f b str1 buf_len) (Nat.eqb str_len1);
        chk_buf (fun b => f b str2 buf_len) (Nat.eqb str_len);
        clear_buf; chk_buf (fun b => f b str2 buf_len) (Nat.eqb str_len2);
        chk_buf (fun b => f b str1 buf_len) (Nat.eqb str_len)])])).

Definition stress_strcat (f : chars -> chars -> option (bool * chars)) : method := fun str1 len1 str2 len2 =>
  steps [new_buf (len1 + len2 + 1);
    sloop (len1 - 1) 0 (fun _ => steps [
      clear_buf; chk_buf (fun b => f b str1) id;
      clear_buf; chk_buf (fun b => f b str2) id;
      clear_buf; chk_buf (fun b => f b str1) id; chk_buf (fun b => f b str2) id;
      clear_buf; chk_buf (fun b => f b str2) id; chk_buf (fun b => f b str1) id])].

Definition stress_strncat (f : chars -> chars -> nat -> option (bool * chars)) : method := fun str1 len1 str2 len2 =>
  steps [new_buf (len1 + len2 + 1);
    sloop (len1 - 1) 0 (fun i => steps [
      clear_buf; chk_buf (fun b => f b str1 len1) id;
      clear_buf; chk_buf (fun b => f b str2 len2) id;
      clear_buf; chk_buf (fun b => f b str1 len1) id; chk_buf (fun b => f b str2 (len1 + len2)%nat) id;
      clear_buf; chk_buf (fun b => f b str2 i) id; chk_buf (fun b => f b str1 i) id])].

Definition nonzero_len (n : nat) : bool := negb (n =? 0)%nat.

Definition stress_strxfrm (f : chars -> chars -> nat -> option (nat * chars)) : method := fun str1 len1 str2 len2 =>
  let n := (size * (len1 + len2))%nat in
  steps [new_buf (len1 + len2);
    sloop (len1 - 1) 0 (fun _ => steps [
      clear_buf; chk_buf (fun b => f b str1 n) nonzero_len;
      clear_buf; chk_buf (fun b => f b str2 n) nonzero_len;
      clear_buf; chk_buf (fun b => f b str1 n) nonzero_len; chk_buf (fun b => f b str2 n) nonzero_len;
      clear_buf; chk_buf (fun b => f b str2 n) nonzero_len; chk_buf (fun b => f b str1 n) nonzero_len])].

Definition stress_strlen (f : chars -> option nat) : method := fun str1 len1 str2 len2 =>
  steps [
    sloop (len1 - 1) 0 (fun i => steps [
      chk (is_len (len1 - 1) (f str1)); chk (is_len (len1 - 1 - i) (f (drop i str1)))]);
    sloop (len2 - 1) 0 (fun i => steps [
      chk (is_len (len2 - 1) (f str2)); chk (is_len (len2 - 1 - i) (f (drop i str2)))])].

(** ** The tables, without their first entry, "all" *)

Variable defined : string -> bool.     (** the macros of the build *)

Definition str_method_funcs : list (string * method) :=
  [("index", stress_index strchr); ("rindex", stress_rindex strrchr); ("strcasecmp", stress_strcasecmp strcasecmp)] ++
  ifdef_else defined "HAVE_STRLCAT" [("strlcat", stress_strlcat strlcat)] [("strcat", stress_strcat strcat)] ++
  [("strchr", stress_strchr strchr); ("strcoll", stress_strcoll strcoll); ("strcmp", stress_strcmp strcmp)] ++
  ifdef_else defined "HAVE_STRLCPY" [("strlcpy", stress_strlcpy strlcpy)] [("strcpy", stress_strcpy strcpy)] ++
  [("strlen", stress_strlen strlen); ("strncasecmp", stress_strncasecmp strncasecmp); ("strncat", stress_strncat strncat);
   ("strncmp", stress_strncmp strncmp); ("strrchr", stress_strrchr strrchr); ("strxfrm", stress_strxfrm strxfrm)].

(** the methods of stress-wcstr.c are those of stress-str.c for wide characters *)
Definition stress_wcscasecmp : method := stress_strcasecmp strcasecmp.
Definition stress_wcslcat : method := stress_strlcat strlcat.
Definition stress_wcscat : method := stress_strcat strcat.
Definition stress_wcschr : method := stress_strchr strchr.
Definition stress_wcscmp : method := stress_strcmp strcmp.
Definition stress_wcslcpy : method := stress_strlcpy strlcpy.
Definition stress_wcscpy : method := stress_strcpy strcpy.
Definition stress_wcslen : method := stress_strlen strlen.
Definition stress_wcsncasecmp : method := stress_strncasecmp strncasecmp.
Definition stress_wcsncat : method := stress_strncat strncat.
Definition stress_wcsncmp : method := stress_strncmp strncmp.
Definition stress_wcscoll : method := stress_strcoll strcoll.
Definition stress_wcsxfrm : method := stress_strxfrm strxfrm.
Definition stress_wcsrchr (find : chars -> Z -> option (option nat)) : method := stress_strrchr find.

(** "wcsrchr" is given [wcschr()] *)
Definition wcs_method_funcs : list (string * method) :=
  ifdef defined "HAVE_WCSCASECMP" [("wcscasecmp", stress_wcscasecmp)] ++
  ifdef_else defined "HAVE_WCSLCAT" [("wcslcat", stress_wcslcat)] [("wcscat", stress_wcscat)] ++
  [("wcschr", stress_wcschr); ("wcscmp", stress_wcscmp)] ++
  ifdef_else defined "HAVE_WCSLCPY" [("wcslcpy", stress_wcslcpy)] [("wcscpy", stress_wcscpy)] ++
  [("wcslen", stress_wcslen)] ++
  ifdef defined "HAVE_WCSNCASECMP" [("wcsncasecmp", stress_wcsncasecmp)] ++
  [("wcsncat", stress_wcsncat); ("wcsncmp", stress_wcsncmp); ("wcsrchr", stress_wcsrchr strchr);
   ("wcscoll", stress_wcscoll); ("wcsxfrm", stress_wcsxfrm)].

(** [stress_str_all()]: the entry the static [i] is at, which moves on; the table
    ends where there is no function *)
Definition stress_str_all (rest : list (string * method)) (i : nat) (str1 : chars) (len1 : nat) (str2 : chars) (len2 : nat)
    (s : sst) : option (nat * sst) :=
  '(_, func) ← rest !! (i - 1)%nat;
  s ← func str1 len1 str2 len2 s;
  let i := S i in
  Some (if (i <=? length rest)%nat then i else 1%nat, s).

(** the function of an entry of the table, with the static of "all" *)
Definition table_func (rest : list (string * method)) (name : string) (i : nat) (str1 : chars) (len1 : nat)
    (str2 : chars) (len2 : nat) (s : sst) : option (nat * sst) :=
  if String.eqb name "all" then stress_str_all rest i str1 len1 str2 len2 s
  else func ← find_name name rest; s ← func str1 len1 str2 len2 s; Some (i, s).

(** ** The stressors *)

(** [len - 1] letters and a terminator, as [stress_strnrnd()] and [stress_wcs_fill()] make them *)
Fixpoint random_letters (n : nat) (r : mwc) : chars * mwc :=
  match n with
  | O => ([0], r)
  | S n =>
      let '(x, r) := mwc8 r in
      let '(cs, r) := random_letters n r in
      (x mod 26 + 97 :: cs, r)
  end.

Definition stress_strnrnd (len : nat) (r : mwc) : chars * mwc := random_letters (len - 1) r.
Definition stress_wcs_fill (len : nat) (r : mwc) : chars * mwc := random_letters (len - 1) r.

Definition STR1LEN : nat := 256.
Definition STR2LEN : nat := 128.

(** the strings of a round *)
Definition round_strings (r : mwc) : chars * chars * mwc :=
  let '(str1, r) := stress_strnrnd STR1LEN r in
  let '(str2, r) := stress_strnrnd STR2LEN r in
  (str1, str2, r).

(** the status and the counter; [None] too when the fuel is out *)
Fixpoint str_rounds (fuel : nat) (rest : list (string * method)) (name : string) (max_ops : Z) (i : nat) (r : mwc)
    (s : sst) (counter : Z) : option (Z * Z) :=
  match fuel with
  | O => None
  | S fuel =>
      let '(str1, str2, r) := round_strings r in
      '(i, s) ← table_func rest name i str1 STR1LEN str2 STR2LEN s;
      let counter := u64 (counter + 1) in
      let s' := Sst (buf s) (failed s) (S (polls s)) in
      if keep_stressing (keep (polls s)) max_ops counter then str_rounds fuel rest name max_ops i r s' counter
      else Some (if failed s then EXIT_FAILURE else EXIT_SUCCESS, counter)
  end.

Definition stress_str (fuel : nat) (name : string) (max_ops : Z) (r : mwc) : option (Z * Z) :=
  str_rounds fuel str_method_funcs name max_ops 1 r (Sst [] false 0) 0.

Definition stress_wcs (fuel : nat) (name : string) (max_ops : Z) (r : mwc) : option (Z * Z) :=
  str_rounds fuel wcs_method_funcs name max_ops 1 r (Sst [] false 0) 0.
End Methods.

(** ** The library's functions on terminated strings *)

Abbreviation nonzero := (Forall (fun c => c <> 0)).

Lemma terminated_end cs : nonzero cs -> terminated (cs ++ [0]).
Proof. intros H. by exists cs. Qed.
#[local] Hint Resolve terminated_end : core.

Lemma strlen_end cs : nonzero cs -> strlen (cs ++ [0]) = Some (length cs).
Proof. intros H. rewrite strlen_terminated by auto. rewrite length_app. cbn [length]. f_equal. lia. Qed.

Lemma take_end (cs : chars) n : (n <= length cs)%nat -> take n (cs ++ [0]) = take n cs.
Proof. intros H. by rewrite take_app_le. Qed.

Lemma strcpy_holds n new b :
  length b = n -> nonzero new -> (length new < n)%nat ->
  exists b', strcpy b (new ++ [0]) = Some (true, b') /\ holds_string n new b'.
Proof.
  intros Hb Hn Hl. unfold strcpy. rewrite strlen_end by done. cbn [mbind option_bind]. rewrite take_end, take_ge by lia.
  destruct (write_start n new b Hb Hn Hl) as (b' & -> & Hh). by exists b'.
Qed.

Lemma strlcpy_holds n size new b :
  length b = n -> nonzero new -> (length new < n)%nat -> (n <= size)%nat ->
  exists b', strlcpy b (new ++ [0]) size = Some (length new, b') /\ holds_string n new b'.
Proof.
  intros Hb Hn Hl Hs. unfold strlcpy. rewrite strlen_end by done. cbn [mbind option_bind].
  rewrite (proj2 (Nat.eqb_neq size 0)) by lia. rewrite Nat.min_l by lia. rewrite take_end, take_ge by lia.
  destruct (write_start n new b Hb Hn Hl) as (b' & -> & Hh). by exists b'.
Qed.

Lemma strxfrm_holds n size new b :
  length b = n -> nonzero new -> (length new < n)%nat -> (n <= size)%nat ->
  exists b', strxfrm b (new ++ [0]) size = Some (length new, b') /\ holds_string n new b'.
Proof.
  intros Hb Hn Hl Hs. unfold strxfrm. rewrite strlen_end by done. cbn [mbind option_bind].
  rewrite (proj2 (Nat.ltb_lt _ _)) by lia. rewrite take_end, take_ge by lia.
  destruct (write_start n new b Hb Hn Hl) as (b' & -> & Hh). by exists b'.
Qed.

Lemma strcat_holds n cs new b :
  holds_string n cs b -> nonzero new -> (length cs + length new < n)%nat ->
  exists b', strcat b (new ++ [0]) = Some (true, b') /\ holds_string n (cs ++ new) b'.
Proof.
  intros Hb Hn Hl. unfold strcat. rewrite (strlen_holds _ _ _ Hb), strlen_end by done. cbn [mbind option_bind].
  rewrite take_end, take_ge by lia. destruct (write_holds n cs new b Hb Hn Hl) as (b' & -> & Hh). by exists b'.
Qed.

Lemma strlcat_holds n size cs new b :
  holds_string n cs b -> nonzero new -> (length cs + length new < n)%nat -> (n <= size)%nat ->
  exists b', strlcat b (new ++ [0]) size = Some ((length cs + length new)%nat, b') /\ holds_string n (cs ++ new) b'.
Proof.
  intros Hb Hn Hl Hs. unfold strlcat. rewrite (strlen_holds _ _ _ Hb), strlen_end by done. cbn [mbind option_bind].
  rewrite (proj2 (Nat.leb_gt _ _)) by lia. rewrite Nat.min_l by lia. rewrite take_end, take_ge by lia.
  destruct (write_holds n cs new b Hb Hn Hl) as (b' & -> & Hh). by exists b'.
Qed.

Lemma strncat_holds n len cs new b :
  holds_string n cs b -> nonzero new -> (length cs + length new < n)%nat ->
  exists b', strncat b (new ++ [0]) len = Some (true, b') /\ holds_string n (cs ++ take len new) b'.
Proof.
  intros Hb Hn Hl. unfold strncat. rewrite (strlen_holds _ _ _ Hb), strlen_end by done. cbn [mbind option_bind].
  rewrite take_end by lia.
  assert (take (Nat.min (length new) len) new = take len new) as ->.
  { destruct (Nat.le_ge_cases len (length new)); [by rewrite Nat.min_r|]. by rewrite Nat.min_l, !take_ge by lia. }
  destruct (write_holds n cs (take len new) b Hb) as (b' & -> & Hh).
  - by apply Forall_take.
  - rewrite length_take. lia.
  - by exists b'.
Qed.

(** ** Steps that neither fail nor leave an array *)

Definition triple (P : chars -> Prop) (f : step) (Q : chars -> Prop) : Prop :=
  forall s, P (buf s) -> exists s', f s = Some s' /\ failed s' = failed s /\ Q (buf s').

Section Passing.
Variable verify : bool.
Variable keep : nat -> bool.
Variable uninit : nat -> chars.
Hypothesis uninit_length : forall n, length (uninit n) = n.

Implicit Types P Q R : chars -> Prop.

Lemma triple_weaken P Q R f : triple P f Q -> (forall b, Q b -> R b) -> triple P f R.
Proof. intros H HQ s Hs. destruct (H s Hs) as (s' & E & F & G). eauto. Qed.

Lemma triple_nil P : triple P (steps []) P.
Proof. intros s H. by exists s. Qed.

Lemma triple_cons P Q R f l : triple P f Q -> triple Q (steps l) R -> triple P (steps (f :: l)) R.
Proof.
  intros Hf Hl s Hs. cbn [steps]. destruct (Hf s Hs) as (s1 & -> & F1 & H1). cbn [mbind option_bind].
  destruct (Hl s1 H1) as (s2 & -> & F2 & H2). exists s2. by rewrite F2.
Qed.

Lemma triple_chk P ok : ok = Some true -> triple P (chk verify ok) P.
Proof. intros -> s H. eexists. split; [done|]. cbn. by rewrite andb_false_r, orb_false_r. Qed.

Lemma triple_chk_buf {A} P Q (f : chars -> option (A * chars)) test :
  (forall b, P b -> exists x b', f b = Some (x, b') /\ test x = true /\ Q b') -> triple P (chk_buf verify f test) Q.
Proof.
  intros H s Hs. destruct (H _ Hs) as (x & b' & E & T & G). unfold chk_buf. rewrite E. eexists. split; [done|]. cbn.
  by rewrite T, andb_false_r, orb_false_r.
Qed.

Lemma triple_loop P todo i body :
  (forall j, (i <= j < i + todo)%nat -> triple P (body j) P) -> triple P (sloop keep todo i body) P.
Proof.
  revert i. induction todo as [|todo IH]; intros i H s Hs; cbn [sloop]; (destruct (keep (polls s)); [|by eexists]); [by eexists|].
  destruct (H i ltac:(lia) (Sst (buf s) (failed s) (S (polls s))) Hs) as (s1 & -> & F1 & H1). cbn [mbind option_bind].
  destruct (IH (S i) ltac:(intros j Hj; apply H; lia) s1 H1) as (s2 & -> & F2 & H2). exists s2. by rewrite F2, F1.
Qed.

Lemma triple_new P n : triple P (new_buf uninit n) (fun b => length b = n).
Proof. intros s _. eexists. split; [done|]. split; [done|]. apply uninit_length. Qed.

Lemma holds_length n cs b : holds_string n cs b -> length b = n.
Proof. by intros []. Qed.

Lemma triple_clear n : (0 < n)%nat -> triple (fun b => length b = n) clear_buf (holds_string n []).
Proof. intros Hn s Hs. eexists. split; [done|]. split; [done|]. by apply holds_empty. Qed.

Lemma triple_clear_again n cs : (0 < n)%nat -> triple (holds_string n cs) clear_buf (holds_string n []).
Proof. intros Hn s Hs. apply triple_clear; [done|]. by eapply holds_length. Qed.
End Passing.

(** ** Strings of letters *)

Definition letter (c : Z) : Prop := 97 <= c <= 122.
Definition letters (s : chars) : Prop := exists cs, s = cs ++ [0] /\ Forall letter cs.

Lemma letters_nonzero cs : Forall letter cs -> nonzero cs.
Proof. intros H. eapply Forall_impl; [done|]. unfold letter. lia. Qed.
#[local] Hint Resolve letters_nonzero : core.

Lemma letters_terminated s : letters s -> terminated s.
Proof. intros (cs & -> & H). auto. Qed.
#[local] Hint Resolve letters_terminated : core.

Lemma letters_drop i s : letters s -> (i < length s)%nat -> letters (drop i s).
Proof.
  intros (cs & -> & H) Hi. rewrite length_app in Hi. cbn [length] in Hi. exists (drop i cs). rewrite drop_app_le by lia.
  split; [done|]. by apply Forall_drop.
Qed.

Lemma letters_elem s c : letters s -> c ∈ s -> c = 0 \/ letter c.
Proof.
  intros (cs & -> & H) [Hc | ->%list_elem_of_singleton]%elem_of_app; [right|by left]. by eapply Forall_forall in H.
Qed.

(** a comparison that tells the strings of letters apart *)
Definition compares (cmp : chars -> chars -> option Z) : Prop :=
  forall s t, letters s -> letters t -> exists x, cmp s t = Some x /\ (x = 0 <-> s = t).

Definition ncompares (cmp : chars -> chars -> nat -> option Z) : Prop :=
  forall n s t, letters s -> letters t -> (length s <= n \/ length t <= n)%nat -> exists x, cmp s t n = Some x /\ (x = 0 <-> s = t).

Definition finds (f : chars -> Z -> option (option nat)) : Prop :=
  forall s c, letters s -> exists r, f s c = Some r /\ (r = None <-> c ∉ s).

Lemma letters_fixed f s : f 0 = 0 -> (forall c, letter c -> f c = c) -> letters s -> f <$> s = s.
Proof.
  intros H0 Hf (cs & -> & H). rewrite fmap_app. cbn [fmap list_fmap]. rewrite H0. f_equal.
  induction H as [|c cs Hc _ IH]; [done|]. cbn. by rewrite Hf, IH.
Qed.

Lemma compare_by_compares f :
  (forall c, f c = f 0 -> c = 0) -> f 0 = 0 -> (forall c, letter c -> f c = c) -> compares (compare_by f).
Proof.
  intros Hf H0 Hl s t Hs Ht. destruct (compare_by_spec f s t) as (x & E & H); auto.
  rewrite !(letters_fixed f) in H by done. eauto.
Qed.

Lemma ncompare_by_ncompares f :
  (forall c, f c = f 0 -> c = 0) -> f 0 = 0 -> (forall c, letter c -> f c = c) -> ncompares (fun s t n => ncompare_by f n s t).
Proof. intros Hf H0 Hl n s t Hs Ht Hn. rewrite ncompare_by_enough by auto. by apply compare_by_compares. Qed.

Lemma tolower_zero c : c_tolower c = c_tolower 0 -> c = 0.
Proof.
  unfold c_tolower. change ((65 <=? 0) && (0 <=? 90)) with false. cbv iota.
  destruct (Z.leb_spec 65 c), (Z.leb_spec c 90); cbn [andb]; lia.
Qed.

Lemma tolower_letter c : letter c -> c_tolower c = c.
Proof. unfold letter, c_tolower. intros H. destruct (Z.leb_spec c 90); [lia|]. by rewrite andb_false_r. Qed.

Lemma strcmp_compares : compares strcmp.
Proof. by apply compare_by_compares. Qed.
Lemma strcasecmp_compares : compares strcasecmp.
Proof. apply compare_by_compares; [apply tolower_zero|done|apply tolower_letter]. Qed.
Lemma strncmp_ncompares : ncompares strncmp.
Proof. by apply (ncompare_by_ncompares (fun c => c)). Qed.
Lemma strncasecmp_ncompares : ncompares strncasecmp.
Proof. apply (ncompare_by_ncompares c_tolower); [apply tolower_zero|done|apply tolower_letter]. Qed.
Lemma strchr_finds : finds strchr.
Proof. intros s c Hs. apply strchr_spec. auto. Qed.
Lemma strrchr_finds : finds strrchr.
Proof. intros s c Hs. apply strrchr_spec. auto. Qed.

Lemma compares_is_zero cmp s : compares cmp -> letters s -> is_zero (cmp s s) = Some true.
Proof. intros H Hs. destruct (H s s Hs Hs) as (x & E & Hx). unfold is_zero. rewrite E. cbn. by rewrite (proj2 Hx). Qed.

Lemma compares_not_zero cmp s t : compares cmp -> letters s -> letters t -> s <> t -> not_zero (cmp s t) = Some true.
Proof.
  intros H Hs Ht Hne. destruct (H s t Hs Ht) as (x & E & Hx). unfold not_zero. rewrite E. cbn.
  destruct (Z.eqb_spec x 0) as [H0|]; [by apply Hx in H0|done].
Qed.

Lemma ncompares_is_zero cmp n s : ncompares cmp -> letters s -> (length s <= n)%nat -> is_zero (cmp s s n) = Some true.
Proof.
  intros H Hs Hn. destruct (H n s s Hs Hs ltac:(lia)) as (x & E & Hx). unfold is_zero. rewrite E. cbn. by rewrite (proj2 Hx).
Qed.

Lemma ncompares_not_zero cmp n s t : ncompares cmp -> letters s -> letters t -> s <> t -> (length s <= n \/ length t <= n)%nat ->
  not_zero (cmp s t n) = Some true.
Proof.
  intros H Hs Ht Hne Hn. destruct (H n s t Hs Ht Hn) as (x & E & Hx). unfold not_zero. rewrite E. cbn.
  destruct (Z.eqb_spec x 0) as [H0|]; [by apply Hx in H0|done].
Qed.

Lemma finds_underscore f s : finds f -> letters s -> is_null (f s underscore) = Some true.
Proof.
  intros H Hs. destruct (H s underscore Hs) as (r & E & Hr). unfold is_null. rewrite E. cbn. f_equal. apply bool_decide_eq_true.
  apply Hr. intros [|Hc]%(letters_elem _ _ Hs); unfold underscore, letter in *; lia.
Qed.

Lemma finds_first f s : finds f -> letters s -> not_null (find_first f s) = Some true.
Proof.
  intros H Hs. unfold find_first, not_null. destruct s as [|c s]; [by destruct Hs as ([|] & ? & _)|].
  change ((c :: s) !! 0%nat) with (Some c). cbn [mbind option_bind]. destruct (H (c :: s) c Hs) as (r & -> & Hr).
  cbn [mbind option_bind]. f_equal. apply bool_decide_eq_true. intros ->. by apply (proj1 Hr eq_refl); left.
Qed.

(** ** Every method passes *)

Section TwoStrings.
Variable verify : bool.
Variable keep : nat -> bool.
Variable uninit : nat -> chars.
Variable size : nat.
Hypothesis uninit_length : forall n, length (uninit n) = n.
Hypothesis size_pos : (1 <= size)%nat.
Variables c1 c2 : chars.
Hypothesis letters1 : Forall letter c1.
Hypothesis letters2 : Forall letter c2.
Hypothesis lengths : (0 < length c2 < length c1)%nat.

Let str1 := c1 ++ [0].
Let str2 := c2 ++ [0].
Let len1 := length str1.
Let len2 := length str2.
Hypothesis tails_differ : drop (len1 - len2) str1 <> str2.

Definition passes (m : method) : Prop := triple (fun _ => True) (m str1 len1 str2 len2) (fun _ => True).

Lemma str1_letters : letters str1.
Proof. by exists c1. Qed.
Lemma str2_letters : letters str2.
Proof. by exists c2. Qed.
Lemma len1_is : len1 = S (length c1).
Proof. unfold len1, str1. rewrite length_app. cbn [length]. lia. Qed.
Lemma len2_is : len2 = S (length c2).
Proof. unfold len2, str2. rewrite length_app. cbn [length]. lia. Qed.
#[local] Hint Resolve str1_letters str2_letters : core.

(** none of the strings that are compared is another *)
Lemma tail_letters i : (i < len1)%nat -> letters (drop i str1).
Proof. intros Hi. apply letters_drop; auto. Qed.
Lemma strs_differ : str1 <> str2.
Proof. intros H. assert (len1 = len2) as He by (unfold len1, len2; by rewrite H). rewrite len1_is, len2_is in He. lia. Qed.
Lemma tail_not_whole i : (1 <= i < len1)%nat -> drop i str1 <> str1.
Proof. intros Hi H. apply (f_equal length) in H. rewrite length_drop in H. unfold len1 in Hi. lia. Qed.
Lemma tail_not_other i : (1 <= i < len1)%nat -> drop i str1 <> str2.
Proof.
  intros Hi H. apply tails_differ. rewrite <- H. f_equal. apply (f_equal length) in H. rewrite length_drop in H.
  fold len1 len2 in H. lia.
Qed.
#[local] Hint Resolve strs_differ tail_not_whole tail_not_other tail_letters not_eq_sym : core.

(** one check after the other *)
Ltac each_check tac := repeat (eapply triple_cons; [apply triple_chk; tac|]); apply triple_nil.

Lemma stress_strcmp_passes cmp : compares cmp -> passes (stress_strcmp verify keep cmp).
Proof.
  intros H. unfold passes, stress_strcmp. apply triple_loop. intros i Hi. assert (1 <= i < len1)%nat by lia.
  assert (i < len1)%nat by lia.
  each_check ltac:(first [apply compares_is_zero | apply compares_not_zero]; auto).
Qed.

Lemma len_bounds i : (len1 <= len1 /\ len2 <= len2 /\ length (drop i str1) <= len1 /\ length str1 <= len1 /\ length str2 <= len2)%nat.
Proof. rewrite length_drop. unfold len1, len2. lia. Qed.

Ltac ncheck i := first [apply ncompares_is_zero | apply ncompares_not_zero]; auto; pose proof (len_bounds i); tauto.

Lemma stress_strncasecmp_passes cmp : ncompares cmp -> passes (stress_strncasecmp verify keep cmp).
Proof.
  intros H. unfold passes, stress_strncasecmp. apply triple_loop. intros i Hi. assert (1 <= i < len1)%nat by lia.
  assert (i < len1)%nat by lia. each_check ltac:(ncheck i).
Qed.

Lemma stress_strncmp_passes cmp : ncompares cmp -> passes (stress_strncmp verify keep cmp).
Proof.
  intros H. unfold passes, stress_strncmp. apply triple_loop. intros i Hi. assert (1 <= i < len1)%nat by lia.
  assert (i < len1)%nat by lia. each_check ltac:(ncheck i).
Qed.

Lemma stress_index_passes f : finds f -> passes (stress_index verify keep f).
Proof.
  intros H. unfold passes, stress_index. apply triple_loop. intros i _.
  each_check ltac:(first [apply finds_underscore | apply finds_first]; auto).
Qed.

Lemma stress_strlen_passes : passes (stress_strlen verify keep strlen).
Proof.
  unfold passes, stress_strlen. eapply triple_cons; [|eapply triple_cons; [|apply triple_nil]]; apply triple_loop; intros i Hi.
  - assert (terminated (drop i str1)) by (apply letters_terminated, tail_letters; lia).
    each_check ltac:(rewrite strlen_terminated by auto using letters_terminated; cbn; f_equal; apply Nat.eqb_eq;
      rewrite ?length_drop; unfold len1; lia).
  - assert (terminated (drop i str2)) by (apply letters_terminated, letters_drop; [auto|unfold len2 in *; lia]).
    each_check ltac:(rewrite strlen_terminated by auto using letters_terminated; cbn; f_equal; apply Nat.eqb_eq;
      rewrite ?length_drop; unfold len2; lia).
Qed.

(** *** methods with a buffer *)

Let n := (len1 + len2 + 1)%nat.

Lemma room1 : (length c1 < n)%nat.
Proof. unfold n. rewrite len1_is. lia. Qed.
Lemma room2 : (length c2 < n)%nat.
Proof. unfold n. rewrite len2_is. lia. Qed.
Lemma room12 : (length c1 + length c2 < n)%nat.
Proof. unfold n. rewrite len1_is, len2_is. lia. Qed.

Definition sized (m : nat) (b : chars) : Prop := length b = m.

Lemma with_buffer_passes m todo body :
  (forall i, triple (sized m) (body i) (sized m)) ->
  triple (fun _ => True) (steps [new_buf uninit m; sloop keep todo 0 body]) (fun _ => True).
Proof.
  intros H. eapply triple_cons; [by apply triple_new|]. eapply triple_cons; [|apply triple_nil].
  eapply triple_weaken; [apply triple_loop; intros i _; apply H|done].
Qed.

Lemma with_strlen_passes cs f :
  Forall letter cs -> triple (fun _ => True) (f (length cs)) (fun _ => True) ->
  triple (fun _ => True) (with_strlen (cs ++ [0]) f) (fun _ => True).
Proof. intros Hcs H s Hs. unfold with_strlen. rewrite strlen_end by auto. by apply H. Qed.

Lemma clear_step m l R : (0 < m)%nat -> triple (holds_string m []) (steps l) R -> triple (sized m) (steps (clear_buf :: l)) R.
Proof. intros Hm H. eapply triple_cons; [by apply triple_clear|done]. Qed.

Lemma again_step m cs l R : triple (sized m) (steps l) R -> triple (holds_string m cs) (steps l) R.
Proof. intros H s Hs. apply H. by eapply holds_length. Qed.

Lemma done_step m cs : triple (holds_string m cs) (steps []) (sized m).
Proof. intros s Hs. exists s. split; [done|]. split; [done|]. by eapply holds_length. Qed.

(** a check of a function that leaves [cs'] in the buffer *)
Lemma holds_step {A} m (P : chars -> Prop) cs' (f : chars -> option (A * chars)) test x l R :
  (forall b, P b -> exists b', f b = Some (x, b') /\ holds_string m cs' b') -> test x = true ->
  triple (holds_string m cs') (steps l) R -> triple P (steps (chk_buf verify f test :: l)) R.
Proof.
  intros Hf Ht H. eapply triple_cons; [|exact H]. apply triple_chk_buf. intros b Hb. destruct (Hf b Hb) as (b' & E & Hh). eauto.
Qed.

Lemma size_enough m : (m <= size * m)%nat.
Proof. nia. Qed.

Ltac next_clear := first [apply again_step; apply clear_step | apply clear_step]; [unfold n; lia|].
Ltac fits := auto using letters_nonzero, room1, room2, room12; cbn [length app]; pose proof room1; pose proof room2; pose proof room12;
  rewrite ?length_take; lia.

Lemma stress_strcpy_passes : passes (stress_strcpy verify keep uninit strcpy).
Proof.
  apply with_buffer_passes. intros _.
  eapply holds_step; [intros b Hb; apply (strcpy_holds n); fits|done|].
  eapply holds_step; [intros b Hb; apply (strcpy_holds n); [by eapply holds_length|fits..]|done|]. apply done_step.
Qed.

Lemma stress_strlcpy_passes : passes (stress_strlcpy verify keep uninit size strlcpy).
Proof.
  apply with_strlen_passes; [done|]. apply with_strlen_passes; [done|]. apply with_buffer_passes. intros _.
  eapply holds_step; [intros b Hb; apply (strlcpy_holds n); [done|fits..|apply size_enough]|apply Nat.eqb_refl|].
  eapply holds_step; [intros b Hb; apply (strlcpy_holds n); [by eapply holds_length|fits..|apply size_enough]|apply Nat.eqb_refl|].
  apply done_step.
Qed.

Ltac cats lem test := repeat first
  [ apply done_step
  | next_clear
  | eapply holds_step; [intros b Hb; eapply lem; [exact Hb|..]; first [apply size_enough | fits]|test|] ].

Lemma stress_strcat_passes : passes (stress_strcat verify keep uninit strcat).
Proof. apply with_buffer_passes. intros _. cats (strcat_holds n) done. Qed.

Lemma stress_strncat_passes : passes (stress_strncat verify keep uninit strncat).
Proof. apply with_buffer_passes. intros i. cats (strncat_holds n) done. Qed.

Lemma stress_strlcat_passes : passes (stress_strlcat verify keep uninit size strlcat).
Proof.
  apply with_strlen_passes; [done|]. apply with_strlen_passes; [done|]. apply with_buffer_passes. intros _.
  cats (strlcat_holds n) ltac:(apply Nat.eqb_eq; cbn [length app]; lia).
Qed.

Lemma stress_strxfrm_passes : passes (stress_strxfrm verify keep uninit size strxfrm).
Proof.
  assert (0 < len1 + len2)%nat as H0 by (rewrite len1_is; lia).
  assert (length c1 < len1 + len2)%nat as H1 by (rewrite len1_is; lia).
  assert (length c2 < len1 + len2)%nat as H2 by (rewrite len2_is; lia).
  apply with_buffer_passes. intros _. repeat first
  [ apply done_step
  | first [apply again_step; apply clear_step | apply clear_step]; [exact H0|]
  | eapply holds_step; [intros b Hb; eapply (strxfrm_holds (len1 + len2)); [by eapply holds_length|..]; first [apply size_enough | auto]
    |apply negb_true_iff, Nat.eqb_neq; lia|] ].
Qed.

(** *** the tables *)

Ltac entry_passes := lazymatch goal with
  | |- passes (stress_strncasecmp _ _ _) => apply stress_strncasecmp_passes; apply strncasecmp_ncompares
  | |- passes (stress_strncmp _ _ _) => apply stress_strncmp_passes; apply strncmp_ncompares
  | |- passes (stress_strcasecmp _ _ _) => apply stress_strcmp_passes; apply strcasecmp_compares
  | |- passes (stress_strcoll _ _ _) => apply stress_strcmp_passes; apply strcmp_compares
  | |- passes (stress_strcmp _ _ _) => apply stress_strcmp_passes; apply strcmp_compares
  | |- passes (stress_strlcat _ _ _ _ _) => apply stress_strlcat_passes
  | |- passes (stress_strcat _ _ _ _) => apply stress_strcat_passes
  | |- passes (stress_strlcpy _ _ _ _ _) => apply stress_strlcpy_passes
  | |- passes (stress_strcpy _ _ _ _) => apply stress_strcpy_passes
  | |- passes (stress_strncat _ _ _ _) => apply stress_strncat_passes
  | |- passes (stress_strxfrm _ _ _ _ _) => apply stress_strxfrm_passes
  | |- passes (stress_strlen _ _ _) => apply stress_strlen_passes
  | |- passes (_ _ _ strchr) => apply stress_index_passes; apply strchr_finds
  | |- passes (_ _ _ strrchr) => apply stress_index_passes; apply strrchr_finds
  end.

Ltac table_passes := repeat apply Forall_app_2;
  repeat (match goal with |- context [if ?b then _ else _] => destruct b end);
  repeat (first [apply Forall_nil_2 | apply Forall_cons_2; [cbn [snd]; entry_passes|]]).

Lemma str_funcs_pass defined : Forall (fun p => passes p.2) (str_method_funcs verify keep uninit size defined).
Proof. unfold str_method_funcs, ifdef_else. table_passes. Qed.

Lemma wcs_funcs_pass defined : Forall (fun p => passes p.2) (wcs_method_funcs verify keep uninit size defined).
Proof.
  unfold wcs_method_funcs, ifdef_else, ifdef, stress_wcscasecmp, stress_wcslcat, stress_wcscat, stress_wcschr, stress_wcscmp, stress_wcslcpy, stress_wcscpy, stress_wcslen, stress_wcsncasecmp, stress_wcsncat, stress_wcsncmp, stress_wcscoll, stress_wcsxfrm, stress_wcsrchr. table_passes.
Qed.

Lemma table_func_passes rest name i s :
  Forall (fun p => passes p.2) rest -> name ∈ "all" :: rest.*1 -> (1 <= i <= length rest)%nat ->
  exists i' s', table_func rest name i str1 len1 str2 len2 s = Some (i', s') /\ failed s' = failed s /\ (1 <= i' <= length rest)%nat.
Proof using Type.
  clear size_pos lengths. intros Hrest Hname Hi. unfold table_func. destruct (String.eqb_spec name "all") as [->|Hne].
  - unfold stress_str_all. destruct (lookup_lt_is_Some_2 rest (i - 1)) as ([nm func] & E); [lia|]. rewrite E.
    cbn [mbind option_bind].
    pose proof (Forall_lookup_1 _ _ _ _ Hrest E) as Hf. cbn [snd] in Hf. destruct (Hf s I) as (s' & -> & F & _). cbn [mbind option_bind].
    eexists _, s'. split; [done|]. split; [done|]. destruct (Nat.leb_spec (S i) (length rest)); lia.
  - apply elem_of_cons in Hname as [?|Hin]; [done|].
    assert (exists func, find_name name rest = Some func /\ passes func) as (func & -> & Hf).
    { clear Hi. induction Hrest as [|[nm func] rest Hf _ IH]; [by apply not_elem_of_nil in Hin|]. cbn [find_name].
      destruct (String.eqb_spec nm name) as [->|Hn]; [by exists func|]. apply IH. cbn in Hin.
      apply elem_of_cons in Hin as [?|?]; [by subst|done]. }
    cbn [mbind option_bind]. destruct (Hf s I) as (s' & -> & F & _). by exists i, s'.
Qed.
End TwoStrings.

(** ** The stressors *)

Lemma random_letters_spec n r : exists cs, (random_letters n r).1 = cs ++ [0] /\ Forall letter cs /\ length cs = n.
Proof.
  revert r. induction n as [|n IH]; intros r; cbn [random_letters]; [by exists []|].
  destruct (mwc8 r) as [x r1]. destruct (IH r1) as (cs & E & H & L). destruct (random_letters n r1) as [cs' r2].
  cbn in *. subst. exists (x mod 26 + 97 :: cs). split; [done|]. split; [|done]. constructor; [|done].
  unfold letter. pose proof (Z.mod_pos_bound x 26). lia.
Qed.

Lemma str_method_names verify keep uninit size defined :
  str_methods defined = "all" :: (str_method_funcs verify keep uninit size defined).*1.
Proof. unfold str_methods, str_method_funcs, ifdef_else. by destruct (defined "HAVE_STRLCAT"), (defined "HAVE_STRLCPY"). Qed.

Lemma wcs_method_names verify keep uninit size defined :
  wcs_methods defined = "all" :: (wcs_method_funcs verify keep uninit size defined).*1.
Proof.
  unfold wcs_methods, wcs_method_funcs, ifdef_else, ifdef.
  by destruct (defined "HAVE_WCSCASECMP"), (defined "HAVE_WCSLCAT"), (defined "HAVE_WCSLCPY"), (defined "HAVE_WCSNCASECMP").
Qed.

(** the generator when the round [k] begins, and whether the second string of it is
    the tail of the first *)
Definition round_seed (k : nat) (r : mwc) : mwc := Nat.iter k (fun r => (round_strings r).2) r.
Definition tail_repeats (r : mwc) : bool :=
  let '(str1, str2, _) := round_strings r in bool_decide (drop (STR1LEN - STR2LEN) str1 = str2).

Lemma round_seed_S k r : round_seed k (round_strings r).2 = round_seed (S k) r.
Proof. unfold round_seed. by rewrite Nat.iter_succ_r. Qed.

Lemma round_strings_spec r : exists c1 c2 r', round_strings r = (c1 ++ [0], c2 ++ [0], r') /\
  Forall letter c1 /\ Forall letter c2 /\ length c1 = (STR1LEN - 1)%nat /\ length c2 = (STR2LEN - 1)%nat.
Proof.
  unfold round_strings, stress_strnrnd. generalize (STR1LEN - 1)%nat (STR2LEN - 1)%nat. intros n1 n2.
  destruct (random_letters_spec n1 r) as (c1 & E1 & L1 & N1). destruct (random_letters n1 r) as [str1 r1].
  destruct (random_letters_spec n2 r1) as (c2 & E2 & L2 & N2). destruct (random_letters n2 r1) as [str2 r2].
  cbn [fst snd] in *. subst. by exists c1, c2, r2.
Qed.

Lemma round_lengths (c1 c2 : chars) : length c1 = (STR1LEN - 1)%nat -> length c2 = (STR2LEN - 1)%nat ->
  length (c1 ++ [0]) = STR1LEN /\ length (c2 ++ [0]) = STR2LEN /\ (0 < length c2 < length c1)%nat.
Proof. unfold STR1LEN, STR2LEN. rewrite !length_app. cbn [length]. lia. Qed.

#[local] Opaque round_strings table_func STR1LEN STR2LEN.

(** at most so many rounds are left, and each has strings that differ *)
Lemma str_rounds_pass keep rest name max_ops fuel :
  (forall c1 c2, Forall letter c1 -> Forall letter c2 -> (0 < length c2 < length c1)%nat ->
    drop (length (c1 ++ [0]) - length (c2 ++ [0])) (c1 ++ [0]) <> c2 ++ [0] -> Forall (fun p => passes c1 c2 p.2) rest) ->
  name ∈ "all" :: rest.*1 -> 0 < max_ops < 2 ^ 64 ->
  forall i r s counter, (1 <= i <= length rest)%nat -> 0 <= counter -> Z.of_nat fuel = max_ops - counter -> (0 < fuel)%nat ->
  failed s = false -> (forall k, (k < fuel)%nat -> tail_repeats (round_seed k r) = false) ->
  exists c, str_rounds keep fuel rest name max_ops i r s counter = Some (EXIT_SUCCESS, c) /\ counter < c <= max_ops.
Proof.
  intros Hrest Hname Hmax. induction fuel as [|fuel IH]; [lia|]. intros i r s counter Hi Hc Hfuel _ Hs Htails.
  cbn [str_rounds]. assert (tail_repeats r = false) as Ht by (apply (Htails 0%nat); lia).
  pose proof (fun k => round_seed_S k r) as Hseed. unfold tail_repeats in Ht.
  destruct (round_strings_spec r) as (c1 & c2 & r2 & E0 & L1 & L2 & N1 & N2). rewrite E0 in Ht, Hseed |- *. cbn [snd] in Hseed.
  apply bool_decide_eq_false in Ht.
  destruct (round_lengths c1 c2 N1 N2) as (S1 & S2 & Hlen).
  destruct (table_func_passes c1 c2 rest name i s) as (i' & s' & E & F & Hi'); [|done|done|].
  { apply Hrest; [done..|]. by rewrite S1, S2. }
  rewrite S1, S2 in E. rewrite E. cbn [mbind option_bind]. rewrite u64_small by (unfold fits; lia).
  unfold keep_stressing. destruct (keep (polls s')); cbn [andb].
  - replace (c_true max_ops) with true by (symmetry; apply negb_true_iff, Z.eqb_neq; lia). cbn [negb orb].
    destruct (Z.ltb_spec (counter + 1) max_ops) as [Hlt|Hge].
    + destruct (IH i' r2 (Sst (buf s') (failed s') (S (polls s'))) (counter + 1)) as (c & -> & Hc'); [lia..| | |].
      * by rewrite F.
      * intros k Hk. rewrite Hseed. apply Htails. lia.
      * exists c. split; [done|lia].
    + exists (counter + 1). rewrite F, Hs. split; [done|lia].
  - exists (counter + 1). rewrite F, Hs. split; [done|lia].
Qed.

(** (C24) Every method of the two tables, and the one that runs all of them in turn, stays in its
    buffers and none of its checks fails, for any random strings of which the second does not
    end the first, whatever the stack held and whenever it is stopped: the stressors return
    success after at most the rounds asked for. *)
Theorem strings_pass defined verify keep uninit max_ops r name :
  (forall n, length (uninit n) = n) -> 0 < max_ops < 2 ^ 64 ->
  (forall k, (k < Z.to_nat max_ops)%nat -> tail_repeats (round_seed k r) = false) ->
  (name ∈ str_methods defined -> exists c,
     stress_str verify keep uninit 1 defined (Z.to_nat max_ops) name max_ops r = Some (EXIT_SUCCESS, c) /\ 0 < c <= max_ops) /\
  (name ∈ wcs_methods defined -> exists c,
     stress_wcs verify keep uninit 4 defined (Z.to_nat max_ops) name max_ops r = Some (EXIT_SUCCESS, c) /\ 0 < c <= max_ops).
Proof.
  intros Hun Hmax Htails. split; intros Hname; apply str_rounds_pass; try done; try lia.
  - intros. apply str_funcs_pass; auto.
  - by rewrite <- str_method_names.
  - unfold str_method_funcs. rewrite length_app. cbn [length]. lia.
  - intros. apply wcs_funcs_pass; auto.
  - by rewrite <- wcs_method_names.
  - unfold wcs_method_funcs. rewrite !length_app. cbn [length]. lia.
Qed.

#[local] Transparent round_strings table_func STR1LEN STR2LEN.

Lemma strings_pass_witness :
  let rounds k := tail_repeats (round_seed k mwc_init) in
  (rounds 0%nat = false /\ rounds 1%nat = false) /\
  (exists c, stress_str true (fun _ => true) (repeat 7) 1 (fun _ => false) 2 "all" 2 mwc_init = Some (EXIT_SUCCESS, c) /\ 0 < c <= 2) /\
  (exists c, stress_wcs true (fun _ => true) (repeat 7) 4 (fun _ => false) 2 "wcsrchr" 2 mwc_init = Some (EXIT_SUCCESS, c) /\ 0 < c <= 2).
Proof.
  intros rounds. assert (forall k, (k < 2)%nat -> rounds k = false) as H.
  { intros [|[|k]] Hk; [vm_compute; reflexivity..|lia]. }
  assert (forall n, length (repeat 7 n) = n) as Hun by (intros; apply repeat_length).
  split; [split; apply H; lia|]. split.
  - refine (proj1 (strings_pass (fun _ => false) true (fun _ => true) (repeat 7) 2 mwc_init "all" Hun ltac:(lia) H) _).
    apply elem_of_cons. by left.
  - refine (proj2 (strings_pass (fun _ => false) true (fun _ => true) (repeat 7) 2 mwc_init "wcsrchr" Hun ltac:(lia) H) _).
    unfold wcs_methods, ifdef_else, ifdef. cbn. repeat (first [by left | right]).
Defined.
