(* ===== verification/ZlibData.v ===== *)
(** * The data that the zlib stressor compresses (stress-zlib.c)

    A generator fills the buffer it is given; it has no result when it would write
    outside it.  The random numbers, the place in the text and the flag of the
    object code generator are kept between calls.  The program's own text, and
    whether its pages can be read, is an argument.

    - [zlib_data_as_named]: with a buffer of a multiple of eight bytes, every
      generator of the table fills it, with the data it is named after. *)

From Stdlib Require Import Ascii.
From S2P Require Import Prelude Mwc CString Outcome Named StrStress.

(** the [static] variables: the generator, [ptr] of the text and [use_rand_data] *)
Record gst := Gst { g_rng : mwc; latin_ptr : option string; use_rand_data : bool }.

Definition with_rng (r : mwc) (s : gst) : gst := Gst r (latin_ptr s) (use_rand_data s).

(** the buffer, whose length is [size] *)
Definition rand_data_func : Type := list Z -> gst -> option (list Z * gst).

(** the bytes of a [uint32_t] in memory *)
Definition word_bytes (x : Z) : list Z := [x .& 255; (x >>> 8) .& 255; (x >>> 16) .& 255; (x >>> 24) .& 255].

(** bytes written from [off] on *)
Definition write_at (off : nat) (bytes data : list Z) : option (list Z) :=
  if (off + length bytes <=? length data)%nat
  then Some (take off data ++ bytes ++ drop (off + length bytes) data) else None.

(** a loop of [n] rounds that each draw a number and write bytes made of it *)
Fixpoint draw_loop (n : nat) (draw : mwc -> Z * mwc) (bytes : Z -> list Z) (r : mwc) : list Z * mwc :=
  match n with
  | O => ([], r)
  | S n =>
      let '(v, r) := draw r in
      let '(bs, r) := draw_loop n draw bytes r in
      (bytes v ++ bs, r)
  end.

Definition fill (off n : nat) (draw : mwc -> Z * mwc) (bytes : Z -> list Z) : rand_data_func := fun data s =>
  let '(bs, r) := draw_loop n draw bytes (g_rng s) in
  data ← write_at off bs data; Some (data, with_rng r s).

Definition words (data : list Z) : nat := (length data / 4)%nat.
(** the rounds of [for (i = 0; i < size; i += 8)] *)
Definition eights (data : list Z) : nat := ((length data + 7) / 8)%nat.

Definition stress_rand_data_binary : rand_data_func := fun data => fill 0 (words data) mwc32 word_bytes data.

Definition stress_rand_data_text : rand_data_func := fun data s =>
  let '(bs, r) := stress_strnrnd (length data) (g_rng s) in
  data ← write_at 0 bs data; Some (data, with_rng r s).

(** eight times the lowest bits, with shifts in between *)
Fixpoint split_bits (n : nat) (mask bits : Z) (base v : Z) : list Z :=
  match n with O => [] | S n => base + (v .& mask) :: split_bits n mask bits base (v >>> bits) end.

Definition stress_rand_data_01 : rand_data_func := fun data => fill 0 (eights data) mwc8 (split_bits 8 1 1 48) data.

Definition stress_rand_data_digits : rand_data_func := fun data =>
  fill 0 (length data) mwc32 (fun v => [48 + v mod 10]) data.

Definition stress_rand_data_00_ff : rand_data_func := fun data =>
  fill 0 (eights data) mwc8
    (fun v => (fun m => if c_true (v .& m) then 0 else 255) <$> [1; 2; 4; 8; 16; 32; 64; 128]) data.

Definition stress_rand_data_nybble : rand_data_func := fun data =>
  fill 0 (eights data) mwc32 (split_bits 8 15 4 0) data.

Definition stress_rand_data_rarely_1 : rand_data_func := fun data =>
  fill 0 (words data) mwc32 (fun v => word_bytes (u32 (1 <<< (v .& 31)))) data.

Definition stress_rand_data_rarely_0 : rand_data_func := fun data =>
  fill 0 (words data) mwc32 (fun v => word_bytes (not32 (u32 (1 <<< (v .& 31))))) data.

Definition stress_rand_data_fixed : rand_data_func := fun data s =>
  data ← write_at 0 (concat (replicate (words data) (word_bytes 0x04030201))) data; Some (data, s).

(** two of the sentences have no comma between them in the source, and are one *)
Definition lorem_ipsum : list string :=
  ["Lorem ipsum dolor sit amet, consectetur adipiscing elit. ";
   "Nullam imperdiet quam at ultricies finibus. ";
   "Nunc venenatis euismod velit sit amet ornare.";
   "Quisque et orci eu eros convallis luctus at facilisis ex. ";
   "Quisque fringilla nulla felis, sed mollis est feugiat nec. ";
   "Vivamus at urna sit amet velit suscipit iaculis. ";
   "Curabitur mauris ipsum, gravida in laoreet ac, dignissim id lacus. ";
   "Proin dignissim, erat nec interdum commodo, nulla mi tempor dui, quis scelerisque odio nisi in tortor. ";
   "Mauris dignissim ex auctor nulla lobortis semper. ";
   "Mauris sit amet tempus risus, ac tincidunt lectus. ";
   "Maecenas sollicitudin porttitor nisi ac faucibus. ";
   "Cras eu sollicitudin arcu. ";
   "In sed fringilla eros, vitae fringilla tortor. ";
   "Phasellus mollis feugiat tortor, a ornare nunc auctor porttitor. ";
   "Fusce malesuada ut felis vitae vestibulum. ";
   "Donec sit amet hendrerit massa, vitae ultrices augue. ";
   "Proin volutpat velit ipsum, id imperdiet risus placerat ut. ";
   "Cras vitae risus ipsum.  ";
   "Sed lobortis quam in dictum pulvinar. ";
   "In non accumsan justo. ";
   "Ut pretium pulvinar gravida. ";
   "Proin ultricies nisi libero, a convallis dui vestibulum eu. ";
   "Aliquam in molestie magna, et ullamcorper turpis. ";
   "Donec id pharetra sem.  Duis dui massa, fringilla id mattis nec, consequat eget felis. ";
   "Integer a lobortis ipsum, quis ornare felis. ";
   "Class aptent taciti sociosqu ad litora torquent per conubia nostra, per inceptos himenaeos. ";
   "Nulla sed cursus nibh. ";
   "Quisque at ex dolor. ";
   "Mauris viverra risus pellentesque nisl dictum rutrum. ";
   "Aliquam non est quis enim dictum tristique. ";
   "Fusce feugiat hendrerit hendrerit. ";
   "Ut egestas sed erat et egestas. ";
   "Pellentesque convallis erat sed sapien pellentesque vulputate. ";
   "Praesent non sapien aliquet risus varius suscipit. ";
   "Curabitur eu felis dignissim, hendrerit magna vitae, condimentum nunc. ";
   "Donec ut tincidunt sem. ";
   "Sed in leo et metus ultricies semper quis quis ex. ";
   "Sed fringilla porta mi vitae condimentum. ";
   "In vitae metus libero."].

Definition lorem_pick (r : mwc) : option (string * mwc) :=
  let '(v, r) := mwc32 r in
  ptr ← lorem_ipsum !! Z.to_nat (v mod Z.of_nat (length lorem_ipsum)); Some (ptr, r).

(** no result when a sentence is empty: the loop would run past its end *)
Fixpoint latin_loop (n : nat) (ptr : string) (r : mwc) : option (list Z * string * mwc) :=
  match n with
  | O => Some ([], ptr, r)
  | S n =>
      '(ptr, r) ← (match ptr with EmptyString => lorem_pick r | _ => Some (ptr, r) end);
      match ptr with
      | EmptyString => None
      | String c ptr => '(bs, ptr, r) ← latin_loop n ptr r; Some (Z.of_nat (nat_of_ascii c) :: bs, ptr, r)
      end
  end.

Definition stress_rand_data_latin : rand_data_func := fun data s =>
  '(ptr, r) ← (match latin_ptr s with None => lorem_pick (g_rng s) | Some ptr => Some (ptr, g_rng s) end);
  '(bs, ptr, r) ← latin_loop (length data) ptr r;
  data ← write_at 0 bs data; Some (data, Gst r (Some ptr) (use_rand_data s)).

(** what the object code generator finds: whether the handlers can be installed, the
    length [text_end - text_start], the [char]s from [text_start] on ([None] for a
    page that cannot be read), and the value that [data] has after [siglongjmp()]
    when [i] words were written, in words: the language leaves it open *)
Record objenv := Objenv {
  segv_ok : bool;
  bus_ok : bool;
  text_len : Z;
  text_at : Z -> option Z;
  data_after : nat -> nat
}.

Section Objcode.
Variable e : objenv.

(** the words written, and whether all could be read *)
Fixpoint objcode_loop (n : nat) (text : Z) : list Z * bool :=
  match n with
  | O => ([], true)
  | S n =>
      match text_at e text with
      | None => ([], false)
      | Some c =>
          let '(ws, ok) := objcode_loop n (if text_len e <? text + 1 then 0 else text + 1) in
          (u32 c :: ws, ok)
      end
  end.

Definition stress_rand_data_objcode : rand_data_func := fun data s =>
  if use_rand_data s then stress_rand_data_binary data s
  else if negb (segv_ok e && bus_ok e) then stress_rand_data_binary data (Gst (g_rng s) (latin_ptr s) true)
  else if text_len e =? 0 then None
  else
    let '(v, r) := mwc64 (g_rng s) in
    let '(ws, ok) := objcode_loop (words data) (v mod text_len e) in
    data ← write_at 0 (concat (word_bytes <$> ws)) data;
    if ok then Some (data, with_rng r s)
    else fill (4 * data_after e (length ws)) (words data) mwc32 word_bytes data (with_rng r s).

Definition rand_data_funcs : list rand_data_func :=
  [stress_rand_data_rarely_1; stress_rand_data_rarely_0; stress_rand_data_binary; stress_rand_data_text;
   stress_rand_data_01; stress_rand_data_digits; stress_rand_data_00_ff; stress_rand_data_nybble;
   stress_rand_data_fixed; stress_rand_data_latin; stress_rand_data_objcode].

Definition stress_zlib_random_test : rand_data_func := fun data s =>
  let '(v, r) := mwc32 (g_rng s) in
  f ← rand_data_funcs !! Z.to_nat (v mod Z.of_nat (length rand_data_funcs)); f data (with_rng r s).

Definition zlib_rand_data_table : list (string * rand_data_func) :=
  [("random", stress_zlib_random_test); ("00ff", stress_rand_data_00_ff); ("ascii01", stress_rand_data_01);
   ("asciidigits", stress_rand_data_digits); ("binary", stress_rand_data_binary); ("fixed", stress_rand_data_fixed);
   ("latin", stress_rand_data_latin); ("nybble", stress_rand_data_nybble); ("objcode", stress_rand_data_objcode);
   ("rarely1", stress_rand_data_rarely_1); ("rarely0", stress_rand_data_rarely_0); ("text", stress_rand_data_text)].
End Objcode.

(** ** The data *)

Lemma length_word_bytes x : length (word_bytes x) = 4%nat.
Proof. done. Qed.

Lemma byte_mask x : 0 <= x .& 255 < 256.
Proof. apply (land_ones_fits 8). lia. Qed.

Lemma word_bytes_fit x : Forall (fits 8) (word_bytes x).
Proof. repeat constructor; apply byte_mask. Qed.

(** the bytes of a loop are those of its draws *)
Lemma draw_loop_units n draw bytes r :
  exists vs, (draw_loop n draw bytes r).1 = concat (bytes <$> vs) /\ length vs = n /\ Forall (fun v => exists r, v = (draw r).1) vs.
Proof.
  revert r. induction n as [|n IH]; intros r; [by exists []|]. cbn [draw_loop].
  destruct (draw r) as [v r1] eqn:E. destruct (IH r1) as (vs & H & Hl & Hv). destruct (draw_loop n draw bytes r1) as [bs r2].
  exists (v :: vs). cbn in *. rewrite H, Hl. split; [done|split; [done|]]. constructor; [|done]. exists r. by rewrite E.
Qed.

Lemma write_at_whole bs data : length bs = length data -> write_at 0 bs data = Some bs.
Proof.
  intros H. unfold write_at. rewrite H, Nat.add_0_l, Nat.leb_refl. by rewrite drop_all, app_nil_r.
Qed.

Lemma concat_units {A} k (bytes : A -> list Z) vs :
  (forall v, length (bytes v) = k) -> length (concat (bytes <$> vs)) = (length vs * k)%nat.
Proof. intros H. induction vs as [|v vs IH]; [done|]. cbn. rewrite length_app, H, IH. lia. Qed.

(** a loop whose rounds make up the buffer *)
Lemma fill_whole k n draw bytes data s :
  (forall v, length (bytes v) = k) -> (n * k)%nat = length data ->
  exists vs s', fill 0 n draw bytes data s = Some (concat (bytes <$> vs), s') /\ length vs = n /\
    Forall (fun v => exists r, v = (draw r).1) vs /\ latin_ptr s' = latin_ptr s.
Proof.
  intros Hk Hn. unfold fill. destruct (draw_loop_units n draw bytes (g_rng s)) as (vs & H & Hl & Hv).
  destruct (draw_loop n draw bytes (g_rng s)) as [bs r]. cbn in H. subst bs.
  rewrite write_at_whole by (rewrite (concat_units k); [lia|done]). exists vs. by eexists.
Qed.

Create HintDb zlib.

(** what each generator makes *)
Definition data_ok (name : string) (data : list Z) : Prop :=
  if (name =? "00ff")%string then Forall (fun x => x = 0 \/ x = 255) data
  else if (name =? "ascii01")%string then Forall (fun x => 48 <= x <= 49) data
  else if (name =? "asciidigits")%string then Forall (fun x => 48 <= x <= 57) data
  else if (name =? "fixed")%string then data = concat (replicate (length data / 4) [1; 2; 3; 4])
  else if (name =? "latin")%string then Forall (fun x => 32 <= x <= 126) data
  else if (name =? "nybble")%string then Forall (fun x => 0 <= x <= 15) data
  else if (name =? "rarely1")%string then exists ks, data = concat ((fun k => word_bytes (2 ^ k)) <$> ks) /\ Forall (fun k => 0 <= k < 32) ks
  else if (name =? "rarely0")%string then exists ks, data = concat ((fun k => word_bytes (2 ^ 32 - 1 - 2 ^ k)) <$> ks) /\ Forall (fun k => 0 <= k < 32) ks
  else if (name =? "text")%string then exists cs, data = cs ++ [0] /\ Forall (fun x => 97 <= x <= 122) cs
  else Forall (fits 8) data.

Definition printable (c : ascii) : bool := let x := Z.of_nat (nat_of_ascii c) in (32 <=? x) && (x <=? 126).
Fixpoint all_printable (s : string) : bool := match s with EmptyString => true | String c s => printable c && all_printable s end.

(** the rest of the sentence that the latin generator is in *)
Definition latin_ok (s : gst) : Prop := forall ptr, latin_ptr s = Some ptr -> all_printable ptr = true.

(** a generator that fills whole buffers *)
Definition generates (P : list Z -> Prop) (f : rand_data_func) : Prop := forall data s,
  (exists k, length data = (8 * S k)%nat) -> latin_ok s ->
  exists data' s', f data s = Some (data', s') /\ length data' = length data /\ Forall (fits 8) data' /\ P data' /\ latin_ok s'.

Lemma generates_weaken (P Q : list Z -> Prop) f : (forall l, P l -> Q l) -> generates P f -> generates Q f.
Proof. intros H Hf data s Hd Hs. destruct (Hf data s Hd Hs) as (d & s' & ? & ? & ? & ? & ?). exists d, s'. split_and!; auto. Qed.

(** a loop of rounds of [k] bytes, [unit_ok] each *)
Lemma generates_fill k (count : list Z -> nat) draw bytes (unit_ok : Z -> Prop) (P : list Z -> Prop) :
  (forall v, length (bytes v) = k) ->
  (forall data j, length data = (8 * S j)%nat -> (count data * k)%nat = length data) ->
  (forall r, unit_ok (draw r).1) ->
  (forall v, unit_ok v -> Forall (fits 8) (bytes v)) ->
  (forall vs, Forall unit_ok vs -> P (concat (bytes <$> vs))) ->
  generates P (fun data => fill 0 (count data) draw bytes data).
Proof.
  intros Hk Hc Hd Hb HP data s (j & Hj) Hs.
  destruct (fill_whole k (count data) draw bytes data s Hk (Hc _ _ Hj)) as (vs & s' & -> & Hl & Hv & Hp).
  assert (Forall unit_ok vs) as Hu by (eapply Forall_impl; [exact Hv|]; intros v (r & ->); apply Hd).
  exists (concat (bytes <$> vs)), s'. split; [done|]. split; [by rewrite (concat_units k), Hl, (Hc _ _ Hj)|].
  split; [|split; [by apply HP|unfold latin_ok; by rewrite Hp]].
  apply Forall_concat, Forall_fmap. eapply Forall_impl; [exact Hu|]. intros v Hv'. by apply Hb.
Qed.

Lemma words_whole data j : length data = (8 * S j)%nat -> (words data * 4)%nat = length data.
Proof. unfold words. intros ->. replace (8 * S j)%nat with (2 * S j * 4)%nat by lia. by rewrite Nat.div_mul. Qed.

Lemma eights_whole data j : length data = (8 * S j)%nat -> (eights data * 8)%nat = length data.
Proof.
  unfold eights. intros ->. rewrite (Nat.mul_comm 8 (S j)), Nat.div_add_l by lia. cbn [Nat.div Nat.divmod fst]. lia.
Qed.

(** a property of the bytes of every round is one of all bytes *)
Lemma forall_units (Q : Z -> Prop) (bytes : Z -> list Z) vs :
  (forall v, v ∈ vs -> Forall Q (bytes v)) -> Forall Q (concat (bytes <$> vs)).
Proof. intros H. apply Forall_concat, Forall_fmap, Forall_forall. done. Qed.

Lemma split_bits_range n m bits base v :
  0 <= m -> Forall (fun x => base <= x < base + 2 ^ m) (split_bits n (Z.ones m) bits base v).
Proof.
  intros Hm. revert v. induction n as [|n IH]; intros v; constructor; [|apply IH].
  pose proof (land_ones_fits m v Hm) as H. unfold fits in H. lia.
Qed.

(** the generators of the table, one by one *)
Lemma binary_generates : generates (data_ok "binary") stress_rand_data_binary.
Proof.
  apply (generates_fill 4 words mwc32 word_bytes (fun _ => True)); try done; [apply words_whole|intros; apply word_bytes_fit|].
  intros vs _. apply forall_units. intros v _. apply word_bytes_fit.
Qed.

Lemma ascii01_generates : generates (data_ok "ascii01") stress_rand_data_01.
Proof.
  assert (forall v, Forall (fun x => 48 <= x < 48 + 2 ^ 1) (split_bits 8 1 1 48 v)) as H by (intros v; by apply (split_bits_range 8 1 1 48)).
  apply (generates_fill 8 eights mwc8 _ (fun _ => True)); try done; [apply eights_whole| |].
  - intros v _. eapply Forall_impl; [apply H|]. unfold fits. cbn. lia.
  - intros vs _. apply forall_units. intros v _. eapply Forall_impl; [apply H|]. cbn. lia.
Qed.

Lemma nybble_generates : generates (data_ok "nybble") stress_rand_data_nybble.
Proof.
  assert (forall v, Forall (fun x => 0 <= x < 0 + 2 ^ 4) (split_bits 8 15 4 0 v)) as H by (intros v; by apply (split_bits_range 8 4 4 0)).
  apply (generates_fill 8 eights mwc32 _ (fun _ => True)); try done; [apply eights_whole| |].
  - intros v _. eapply Forall_impl; [apply H|]. unfold fits. cbn. lia.
  - intros vs _. apply forall_units. intros v _. eapply Forall_impl; [apply H|]. cbn. lia.
Qed.

Lemma digits_generates : generates (data_ok "asciidigits") stress_rand_data_digits.
Proof.
  assert (forall v, 48 <= 48 + v mod 10 <= 57) as H by (intros v; pose proof (Z.mod_pos_bound v 10); lia).
  apply (generates_fill 1 length mwc32 _ (fun _ => True)); try done; [lia| |].
  - intros v _. constructor; [|done]. specialize (H v). unfold fits. lia.
  - intros vs _. apply forall_units. intros v _. by constructor.
Qed.

Lemma ff_generates : generates (data_ok "00ff") stress_rand_data_00_ff.
Proof.
  assert (forall v, Forall (fun x => x = 0 \/ x = 255) ((fun m => if c_true (v .& m) then 0 else 255) <$> [1; 2; 4; 8; 16; 32; 64; 128])) as H.
  { intros v. apply Forall_fmap, Forall_forall. intros m _. cbn. destruct (c_true _); auto. }
  apply (generates_fill 8 eights mwc8 _ (fun _ => True)); try done; [apply eights_whole| |].
  - intros v _. eapply Forall_impl; [apply H|]. unfold fits. cbn. lia.
  - intros vs _. by apply forall_units.
Qed.

Lemma one_bit v : 0 < 2 ^ (v .& 31) < 2 ^ 32.
Proof.
  pose proof (land_ones_fits 5 v) as [H0 H]; [lia|]. change (Z.ones 5) with 31 in *.
  split; [by apply Z.pow_pos_nonneg|]. apply Z.pow_lt_mono_r; lia.
Qed.

Lemma rarely1_generates : generates (data_ok "rarely1") stress_rand_data_rarely_1.
Proof.
  apply (generates_fill 4 words mwc32 _ (fun _ => True)); try done; [apply words_whole|intros; apply word_bytes_fit|].
  intros vs _. exists ((fun v => v .& 31) <$> vs). split.
  - f_equal. rewrite <- list_fmap_compose. apply list_fmap_ext. intros _ v _. cbn [compose]. f_equal.
    rewrite Z.shiftl_1_l. pose proof (one_bit v). apply u32_small. unfold fits. lia.
  - apply Forall_fmap, Forall_forall. intros v _. apply (land_ones_fits 5). lia.
Qed.

Lemma rarely0_generates : generates (data_ok "rarely0") stress_rand_data_rarely_0.
Proof.
  apply (generates_fill 4 words mwc32 _ (fun _ => True)); try done; [apply words_whole|intros; apply word_bytes_fit|].
  intros vs _. exists ((fun v => v .& 31) <$> vs). split.
  - f_equal. rewrite <- list_fmap_compose. apply list_fmap_ext. intros _ v _. cbn [compose]. f_equal.
    rewrite Z.shiftl_1_l. pose proof (one_bit v). rewrite u32_small by (unfold fits; lia). unfold not32, Z.lnot, u32. rewrite <- (Z.mod_add _ 1) by lia. rewrite Z.mod_small; lia.
  - apply Forall_fmap, Forall_forall. intros v _. apply (land_ones_fits 5). lia.
Qed.

Lemma fixed_generates : generates (data_ok "fixed") stress_rand_data_fixed.
Proof.
  intros data s (j & Hj) Hs. unfold stress_rand_data_fixed.
  assert (length (concat (replicate (words data) (word_bytes 0x04030201))) = length data) as Hl.
  { rewrite <- (words_whole _ _ Hj). induction (words data) as [|n IH]; [done|]. cbn [replicate concat]. rewrite length_app, IH, length_word_bytes. lia. }
  rewrite (write_at_whole _ _ Hl). eexists _, s. split; [done|]. split; [done|]. split; [|split; [|done]].
  - apply Forall_concat, Forall_replicate, word_bytes_fit.
  - change (concat (replicate (words data) (word_bytes 0x04030201)) = concat (replicate (length (concat (replicate (words data) (word_bytes 0x04030201))) / 4) [1; 2; 3; 4])).
    by rewrite Hl.
Qed.

Lemma random_letters_letters n r :
  exists cs, (random_letters n r).1 = cs ++ [0] /\ length cs = n /\ Forall (fun x => 97 <= x <= 122) cs.
Proof.
  revert r. induction n as [|n IH]; intros r; [by exists []|]. cbn [random_letters]. destruct (mwc8 r) as [x r1].
  destruct (IH r1) as (cs & H & Hl & Hc). destruct (random_letters n r1) as [l r2]. cbn in *. subst l.
  exists (x mod 26 + 97 :: cs). split; [done|]. split; [by cbn; rewrite Hl|]. constructor; [|done].
  pose proof (Z.mod_pos_bound x 26). lia.
Qed.

Lemma text_generates : generates (data_ok "text") stress_rand_data_text.
Proof.
  intros data s (j & Hj) Hs. unfold stress_rand_data_text, stress_strnrnd.
  destruct (random_letters_letters (length data - 1) (g_rng s)) as (cs & H & Hl & Hc).
  destruct (random_letters (length data - 1) (g_rng s)) as [l r]. cbn in H. subst l.
  assert (length (cs ++ [0]) = length data) as Hd by (rewrite length_app, Hl; cbn; lia).
  rewrite (write_at_whole _ _ Hd). eexists _, _. split; [done|]. split; [done|]. split; [|split; [by exists cs|done]].
  apply Forall_app. split; [|by repeat constructor]. eapply Forall_impl; [exact Hc|]. unfold fits. cbn. lia.
Qed.

Lemma lorem_printable : Forall (fun s => all_printable s = true /\ s <> EmptyString) lorem_ipsum.
Proof. repeat constructor; vm_compute; congruence. Qed.

Lemma lorem_pick_some r : exists ptr r', lorem_pick r = Some (ptr, r') /\ all_printable ptr = true /\ ptr <> EmptyString.
Proof.
  unfold lorem_pick. destruct (mwc32 r) as [v r1].
  assert (0 < Z.of_nat (length lorem_ipsum)) as Hn by (vm_compute; done).
  pose proof (Z.mod_pos_bound v _ Hn) as Hv.
  destruct (lookup_lt_is_Some_2 lorem_ipsum (Z.to_nat (v mod Z.of_nat (length lorem_ipsum)))) as [ptr Hp]; [lia|].
  rewrite Hp. exists ptr, r1. split; [done|]. exact (proj1 (Forall_forall _ _) lorem_printable ptr (list_elem_of_lookup_2 _ _ _ Hp)).
Qed.

Lemma latin_loop_printable n ptr r : all_printable ptr = true ->
  exists bs ptr' r', latin_loop n ptr r = Some (bs, ptr', r') /\ length bs = n /\ Forall (fun x => 32 <= x <= 126) bs /\
    all_printable ptr' = true.
Proof.
  revert ptr r. induction n as [|n IH]; intros ptr r Hp; [by exists [], ptr, r|].
  assert (exists c ptr1 r1, (match ptr with EmptyString => lorem_pick r | _ => Some (ptr, r) end) = Some (String c ptr1, r1) /\
    printable c && all_printable ptr1 = true) as (c & ptr1 & r1 & E & [Hc Hr]%andb_prop).
  { destruct ptr as [|c ptr]; [|by exists c, ptr, r]. destruct (lorem_pick_some r) as ([|c ptr] & r' & H & Ha & Hn); [done|]. by exists c, ptr, r'. }
  cbn [latin_loop]. rewrite E. cbn [mbind option_bind]. destruct (IH ptr1 r1 Hr) as (bs & ptr' & r' & -> & Hl & Hb & Ha).
  cbn [mbind option_bind]. eexists _, ptr', r'. split; [done|]. split; [by cbn; rewrite Hl|]. split; [|done].
  constructor; [|done]. unfold printable in Hc. lia.
Qed.

Lemma latin_generates : generates (data_ok "latin") stress_rand_data_latin.
Proof.
  intros data s _ Hs. unfold stress_rand_data_latin.
  assert (exists ptr r, (match latin_ptr s with None => lorem_pick (g_rng s) | Some ptr => Some (ptr, g_rng s) end) = Some (ptr, r) /\
    all_printable ptr = true) as (ptr & r & E & Hp).
  { destruct (latin_ptr s) as [ptr|] eqn:El; [by exists ptr, (g_rng s); split; [|apply Hs]|].
    destruct (lorem_pick_some (g_rng s)) as (ptr & r & H & Ha & _). by exists ptr, r. }
  rewrite E. cbn [mbind option_bind]. destruct (latin_loop_printable (length data) ptr r Hp) as (bs & ptr' & r' & -> & Hl & Hb & Ha).
  cbn [mbind option_bind]. rewrite (write_at_whole _ _ Hl). eexists _, _. split; [done|]. split; [done|]. split; [|split; [done|]].
  - eapply Forall_impl; [exact Hb|]. unfold fits. cbn. lia.
  - by intros p [= <-].
Qed.

(** the handlers cannot be installed, or the text can be read up to its end and there is some *)
Definition text_ok (e : objenv) : Prop := segv_ok e && bus_ok e = true ->
  0 < text_len e /\ forall t, 0 <= t <= text_len e -> is_Some (text_at e t).

Lemma objcode_loop_reads e n t :
  (forall t, 0 <= t <= text_len e -> is_Some (text_at e t)) -> 0 <= t <= text_len e ->
  (objcode_loop e n t).2 = true /\ length (objcode_loop e n t).1 = n.
Proof.
  intros He. revert t. induction n as [|n IH]; intros t Ht; [done|]. cbn [objcode_loop]. destruct (He t Ht) as [c ->].
  assert (0 <= (if text_len e <? t + 1 then 0 else t + 1) <= text_len e) as Hn by (destruct (Z.ltb_spec (text_len e) (t + 1)); lia).
  destruct (IH _ Hn) as [H1 H2]. destruct (objcode_loop e n _) as [ws ok]. cbn in *. by rewrite H2.
Qed.

Lemma objcode_generates e : text_ok e -> generates (data_ok "objcode") (stress_rand_data_objcode e).
Proof.
  intros He data s Hd Hs. unfold stress_rand_data_objcode. destruct (use_rand_data s); [by apply binary_generates|].
  destruct (segv_ok e && bus_ok e) eqn:Eh; cbn [negb]; [|by apply binary_generates].
  destruct (He Eh) as [Hl Hr]. destruct (Z.eqb_spec (text_len e) 0); [lia|]. destruct (mwc64 (g_rng s)) as [v r].
  pose proof (Z.mod_pos_bound v _ Hl) as Hv.
  destruct (objcode_loop_reads e (words data) (v mod text_len e) Hr) as [Hok Hw]; [lia|].
  destruct (objcode_loop e (words data) (v mod text_len e)) as [ws ok]. cbn [fst snd] in Hok, Hw. subst ok. destruct Hd as (j & Hj).
  assert (length (concat (word_bytes <$> ws)) = length data) as Hlen.
  { rewrite (concat_units 4) by done. rewrite <- (words_whole _ _ Hj), <- Hw. done. }
  rewrite write_at_whole by exact Hlen. eexists _, _. split; [done|]. split; [exact Hlen|].
  assert (Forall (fits 8) (concat (word_bytes <$> ws))) as Hb by (apply forall_units; intros; apply word_bytes_fit).
  split; [done|]. split; done.
Qed.

(** bytes are all that is known of the data of a generator picked at random *)
Lemma generates_bytes P f : generates P f -> generates (Forall (fits 8)) f.
Proof. intros Hf data s Hd Hs. destruct (Hf data s Hd Hs) as (d & s' & ? & ? & ? & ? & ?). exists d, s'. split_and!; auto. Qed.

#[export] Hint Resolve generates_bytes binary_generates ascii01_generates nybble_generates digits_generates ff_generates
  rarely1_generates rarely0_generates fixed_generates text_generates latin_generates objcode_generates : zlib.

Lemma random_generates e : text_ok e -> generates (data_ok "random") (stress_zlib_random_test e).
Proof.
  intros He data s Hd Hs. unfold stress_zlib_random_test. destruct (mwc32 (g_rng s)) as [v r].
  assert (Forall (generates (Forall (fits 8))) (rand_data_funcs e)) as Hall.
  { unfold rand_data_funcs. repeat constructor; eauto with zlib. }
  assert (0 < Z.of_nat (length (rand_data_funcs e))) as Hn by (vm_compute; done).
  pose proof (Z.mod_pos_bound v _ Hn) as Hv.
  destruct (lookup_lt_is_Some_2 (rand_data_funcs e) (Z.to_nat (v mod Z.of_nat (length (rand_data_funcs e))))) as [f Hf]; [lia|].
  match goal with |- context [mbind _ ?x] => replace x with (Some f) by exact (eq_sym Hf) end.
  cbn [mbind option_bind]. exact (proj1 (Forall_forall _ _) Hall f (list_elem_of_lookup_2 _ _ _ Hf) data (with_rng r s) Hd Hs).
Qed.

#[export] Hint Resolve random_generates : zlib.

(** the methods that may read the text of the program *)
Definition reads_text : list string := ["random"; "objcode"].

Lemma table_generates e :
  Forall (fun nf => (nf.1 ∈ reads_text -> text_ok e) -> generates (data_ok nf.1) nf.2) (zlib_rand_data_table e).
Proof.
  unfold zlib_rand_data_table. repeat apply Forall_cons_2; [..|apply Forall_nil_2]; cbn [fst snd]; intros He;
    first [solve [auto with zlib]|assert (text_ok e) as Ht by (apply He; unfold reads_text; set_solver); auto with zlib].
Qed.

Lemma table_names e : (zlib_rand_data_table e).*1 = zlib_rand_data_methods.
Proof. done. Qed.

(** Whatever the state of the generators, each of those that [--zlib-method] offers
    fills a buffer of a multiple of eight bytes, no more and no less, with bytes that are as
    its name says: zeros and ones, digits, letters with a terminator, words with one bit set. *)
Theorem zlib_data_as_named e data s name :
  (name ∈ reads_text -> text_ok e) -> name ∈ zlib_rand_data_methods -> (exists k, length data = (8 * S k)%nat) -> latin_ok s ->
  exists f data' s', (name, f) ∈ zlib_rand_data_table e /\ f data s = Some (data', s') /\
    length data' = length data /\ Forall (fits 8) data' /\ data_ok name data'.
Proof.
  intros He Hn Hd Hs. rewrite <- (table_names e) in Hn. apply list_elem_of_fmap in Hn as ((n & f) & -> & Hin).
  pose proof (proj1 (Forall_forall _ _) (table_generates e) _ Hin He data s Hd Hs) as (d & s' & ? & ? & ? & ? & _).
  exists f, d, s'. by split_and!.
Qed.

Definition demo_text : objenv := Objenv true true 3 (fun t => if (0 <=? t) && (t <=? 3) then Some (t - 2) else None) id.

Lemma zlib_data_as_named_witness : exists f data' s', ("nybble", f) ∈ zlib_rand_data_table demo_text /\
  f (replicate 16 0) (Gst mwc_init None false) = Some (data', s') /\ length data' = 16%nat /\ Forall (fits 8) data' /\
  Forall (fun x => 0 <= x <= 15) data'.
Proof.
  apply (zlib_data_as_named demo_text (replicate 16 0) (Gst mwc_init None false) "nybble"); [|by repeat constructor|by exists 1%nat|done].
  intros _. split; [done|]. intros t Ht. unfold text_at, demo_text in *. cbn [text_len] in Ht.
  destruct (Z.leb_spec 0 t), (Z.leb_spec t 3); try lia. by eexists.
Defined.
