(* ===== verification/Zlib.v ===== *)
(** * The zlib stressor (stress-zlib.c)

    Two processes joined by a pipe: the parent compresses generated data and writes
    it, the child reads and decompresses it.  With [--verify] each sums up the bytes
    on its side and sends the sum through a pipe of its own; the parent compares
    them.  zlib is not part of the sources: its functions are the class [Zlib], what
    its documentation says of them is the class [ZlibLaws].  The operating system
    answers every write, delivers the bytes of the pipe in some portions, and may
    interrupt a read.

    - [zlib_no_false_alarm]: with a zlib that keeps to its documentation, and when
      nothing is interrupted, no failure is reported, whatever the data, the portions
      and the moment the run ends.
    - [zlib_sums_compared]: when a write is interrupted, the sum of all data is
      compared with that of the data that arrived; [zlib_interrupted_example] is a run
      that is reported as a failure of zlib.
    - [zlib_data_error_blocks]: when the child finds the data damaged, the parent waits
      for a sum that is never sent. *)

From stdpp Require Import pretty.
From S2P Require Import Prelude Mwc CString Outcome Named StrStress CpuDriver ZlibData.

Definition DATA_SIZE : nat := Z.to_nat (1024 * 64).

Definition Z_OK : Z := 0.
Definition Z_STREAM_END : Z := 1.
Definition Z_NEED_DICT : Z := 2.
Definition Z_ERRNO : Z := -1.
Definition Z_STREAM_ERROR : Z := -2.
Definition Z_DATA_ERROR : Z := -3.
Definition Z_MEM_ERROR : Z := -4.
Definition Z_BUF_ERROR : Z := -5.
Definition Z_VERSION_ERROR : Z := -6.
Definition Z_NO_FLUSH : Z := 0.
Definition Z_FINISH : Z := 4.

Definition EINTR : Z := 4.
Definition EPIPE : Z := 32.

(** [deflate] and [inflate] are given [next_in] and [avail_out]; they return the code, the
    stream, what is left of the input, and the output *)
Class Zlib (D I : Type) := {
  deflate_init : Z * D;
  deflate : D -> list Z -> Z -> nat -> Z * D * list Z * list Z;
  inflate_init : Z * I;
  inflate : I -> list Z -> nat -> Z * I * list Z * list Z
}.

(** what is reported with [pr_fail()] *)
Inductive zfail : Type :=
  | InflateInit (err : Z) | InflateXsumWrite | InflateRead (errno : Z)
  | DeflateInit (err : Z) | DeflateXsumWrite | DeflateError (err : Z) | WriteError (errno : Z)
  | DeflateXsumRead | InflateXsumRead
  | XsumMismatch (deflate_xsum inflate_xsum : Z).

Definition stress_zlib_err (errno : Z) (strerror : Z -> string) (zlib_err : Z) : string :=
  if zlib_err =? Z_OK then "no error"
  else if zlib_err =? Z_ERRNO then "system error, errno=" +:+ pretty errno +:+ " (" +:+ strerror errno +:+ ")"
  else if zlib_err =? Z_STREAM_ERROR then "invalid compression level"
  else if zlib_err =? Z_DATA_ERROR then "invalid or incomplete deflate data"
  else if zlib_err =? Z_MEM_ERROR then "out of memory"
  else if zlib_err =? Z_VERSION_ERROR then "zlib version mismatch"
  else "unknown zlib error " +:+ pretty zlib_err.

(** an answer to [write()] of the data: all was written, or [k] bytes were, with the [errno] found then *)
Inductive wres := Wrote | Short (k : nat) (errno : Z).
(** an answer to [read()] of the data *)
Inductive rres := Read (chunk : list Z) | ReadError (errno : Z).

(** neither [EINTR] nor [EPIPE] *)
Definition serious (errno : Z) : bool := negb (errno =? EINTR) && negb (errno =? EPIPE).

(** what the operating system does *)
Record zenv := Zenv {
  flag : nat -> bool;                (** [g_keep_stressing_flag] at each look *)
  wans : nat -> wres;                (** to each write of data *)
  xsum_write : nat -> option Z;      (** the [errno] of a refused write of the parent's sum *)
  ixsum_write : option Z;            (** the same of the child's *)
  deliver : list Z -> list rres;     (** the reads of what was written; then the end of the file *)
  xsum_read : bool -> option Z;      (** the [errno] when the read of a sum fails: of the parent's, [false], or of the child's *)
  sigpipe_ok : bool; pipes_ok : bool * bool * bool; fork_ok : bool
}.

Section Stressor.
Context {D I : Type} `{Zlib D I}.
Variable verify : bool.              (** [OPT_FLAGS_VERIFY] *)
Variable e : zenv.
Variable func : rand_data_func.      (** of the entry that the setting names *)
Variable max_ops : Z.
Variable stale : list Z.             (** what the array [in] holds before *)

(** [xsum += out[i]] for every byte; the sum is printed and compared, [xsum_chars] is only printed *)
Definition xsum_add (xsum : Z) (data : list Z) : Z := foldl (fun x b => u64 (x + b)) xsum data.
Definition xsum_verified (xsum : Z) (data : list Z) : Z := if verify then xsum_add xsum data else xsum.

(** ** The parent *)

Record dst := Dst {
  dz : D; dgen : gst; bytes_in : Z; bytes_out : Z; dxsum : Z; dcounter : Z;
  written : list Z; writes : nat; polls : nat; pipe_broken : bool; dfails : list zfail
}.

Definition dfail (f : zfail) (s : dst) : dst :=
  Dst (dz s) (dgen s) (bytes_in s) (bytes_out s) (dxsum s) (dcounter s) (written s) (writes s) (polls s) (pipe_broken s)
    (dfails s ++ [f]).

(** what [deflate()] changes *)
Definition deflated (z : D) (s : dst) : dst :=
  Dst z (dgen s) (bytes_in s) (bytes_out s) (dxsum s) (dcounter s) (written s) (writes s) (polls s) (pipe_broken s) (dfails s).

(** a write of [out], of which [sent] goes down the pipe; [SIGPIPE] comes with [EPIPE] *)
Definition wrote (out sent : list Z) (count broken : bool) (s : dst) : dst :=
  Dst (dz s) (dgen s) (bytes_in s) (u64 (bytes_out s + Z.of_nat (length out))) (dxsum s)
    (if count then u64 (dcounter s + 1) else dcounter s) (written s ++ sent) (S (writes s)) (polls s) (pipe_broken s || broken)
    (dfails s).

(** the loops end, or the function returns, or jumps to [finish] *)
Inductive dexit := DNext | DFinish | DFail.

(** [do { ... } while (stream_def.avail_out == 0)] *)
Fixpoint deflate_inner (fuel : nat) (inp : list Z) (flush : Z) (s : dst) : option (dexit * dst) :=
  match fuel with
  | O => None
  | S fuel =>
      let '(rc, z, inp, out) := deflate (dz s) inp flush DATA_SIZE in
      let s := deflated z s in
      if rc =? Z_STREAM_ERROR then Some (DFail, dfail (DeflateError rc) s)
      else
        match wans e (writes s) with
        | Wrote =>
            let s := wrote out out true false s in
            if (length out =? DATA_SIZE)%nat then deflate_inner fuel inp flush s else Some (DNext, s)
        | Short k errno =>
            let s := wrote out (take k out) false (errno =? EPIPE) s in
            if serious errno then Some (DFail, dfail (WriteError errno) s) else Some (DFinish, s)
        end
  end.

(** the data of a round, its sum, and the look at the flag *)
Definition round_start (data : list Z) (g : gst) (s : dst) : dst :=
  Dst (dz s) g (u64 (bytes_in s + Z.of_nat DATA_SIZE)) (bytes_out s) (xsum_verified (dxsum s) data) (dcounter s) (written s)
    (writes s) (S (polls s)) (pipe_broken s) (dfails s).

(** [do { ... } while (flush != Z_FINISH)] *)
Fixpoint deflate_rounds (fuel inner : nat) (s : dst) : option (dexit * dst) :=
  match fuel with
  | O => None
  | S fuel =>
      '(data, g) ← func stale (dgen s);
      let do_run := keep_stressing (flag e (polls s)) max_ops (dcounter s) in
      let flush := if do_run then Z_NO_FLUSH else Z_FINISH in
      '(x, s) ← deflate_inner inner data flush (round_start data g s);
      match x with
      | DNext => if flush =? Z_FINISH then Some (DFinish, s) else deflate_rounds fuel inner s
      | _ => Some (x, s)
      end
  end.

(** from the label [finish] on; [n] writes of the sum were tried before *)
Definition deflate_finish (ret : Z) (n : nat) (s : dst) : Z * option Z * dst :=
  match xsum_write e n with
  | None => (ret, Some (dxsum s), s)
  | Some _ => (ret, None, dfail DeflateXsumWrite s)
  end.

(** the value returned, the sum if it was sent, the state *)
Definition stress_zlib_deflate (fuel : nat) (g : gst) : option (Z * option Z * dst) :=
  let '(rc, z) := deflate_init in
  let s := Dst z g 0 0 0 0 [] 0 0 false [] in
  if negb (rc =? Z_OK) then
    let s := dfail (DeflateInit rc) s in
    Some (match xsum_write e 0 with
          | None => (EXIT_FAILURE, Some 0, s)
          | Some errno =>
              if serious errno then (EXIT_FAILURE, None, dfail DeflateXsumWrite s) else deflate_finish rc 1 s
          end)
  else
    '(x, s) ← deflate_rounds fuel fuel s;
    Some (match x with DFail => (EXIT_FAILURE, None, s) | _ => deflate_finish rc 0 s end).

(** ** The child *)

Record ist := Ist { iz : I; ixsum : Z; ifails : list zfail }.

Definition ifail (f : zfail) (s : ist) : ist := Ist (iz s) (ixsum s) (ifails s ++ [f]).

(** the code of the last [inflate()], or [None] when the function returns at once *)
Fixpoint inflate_inner (fuel : nat) (inp : list Z) (s : ist) : option (option Z * ist) :=
  match fuel with
  | O => None
  | S fuel =>
      let '(ret, z, inp, out) := inflate (iz s) inp DATA_SIZE in
      if (ret =? Z_NEED_DICT) || (ret =? Z_DATA_ERROR) || (ret =? Z_MEM_ERROR) then Some (None, Ist z (ixsum s) (ifails s))
      else
        let s := Ist z (xsum_verified (ixsum s) out) (ifails s) in
        if (length out =? DATA_SIZE)%nat then inflate_inner fuel inp s else Some (Some ret, s)
  end.

Fixpoint inflate_rounds (fuel : nat) (reads : list rres) (ret : Z) (s : ist) : option (option Z * ist) :=
  match reads with
  | [] => Some (Some ret, s)
  | ReadError errno :: _ => Some (if serious errno then (None, ifail (InflateRead errno) s) else (Some ret, s))
  | Read chunk :: reads =>
      if (length chunk =? 0)%nat then Some (Some ret, s)
      else
        '(r, s) ← inflate_inner fuel chunk s;
        match r with
        | None => Some (None, s)
        | Some ret => if ret =? Z_STREAM_END then Some (Some ret, s) else inflate_rounds fuel reads ret s
        end
  end.

Definition inflate_send (s : ist) : option Z * ist :=
  match ixsum_write e with None => (Some (ixsum s), s) | Some _ => (None, ifail InflateXsumWrite s) end.

Definition stress_zlib_inflate (fuel : nat) (reads : list rres) : option (Z * option Z * ist) :=
  let '(rc, z) := inflate_init in
  let s := Ist z 0 [] in
  if negb (rc =? Z_OK) then let '(x, s) := inflate_send (ifail (InflateInit rc) s) in Some (EXIT_FAILURE, x, s)
  else
    '(r, s) ← inflate_rounds fuel reads rc s;
    match r with
    | None => Some (EXIT_FAILURE, None, s)
    | Some ret =>
        let '(x, s) := inflate_send s in
        Some (if (ret =? Z_OK) || (ret =? Z_STREAM_END) then EXIT_SUCCESS else EXIT_FAILURE, x, s)
    end.

(** ** Together *)

(** the stressor returns, or waits in a [read()] of a pipe that it has open for writing too *)
Inductive zres := ZReturns (ret : Z) (fails : list zfail) | ZBlocks (fails : list zfail).

(** a read of a sum: the value if it could be read, and whether a failure is reported *)
Inductive xread := XValue (x : Z) | XFailed (report : bool) | XBlocked.

Definition read_xsum (failed : option Z) (sent : option Z) : xread :=
  match failed, sent with
  | Some errno, _ => XFailed (serious errno)
  | None, Some x => XValue x
  | None, None => XBlocked
  end.

Definition fail_if (b : bool) (f : zfail) : list zfail := if b then [f] else [].

(** the comparison; the parent's own failures and those of the child come first *)
Definition compare_xsums (ret : Z) (broken : bool) (fails : list zfail) (dx ix : xread) : zres :=
  match dx with
  | XBlocked => ZBlocks fails
  | _ =>
      let fails := fails ++ match dx with XFailed b => fail_if b DeflateXsumRead | _ => [] end in
      match ix with
      | XBlocked => ZBlocks fails
      | _ =>
          let fails := fails ++ match ix with XFailed b => fail_if b InflateXsumRead | _ => [] end in
          match dx, ix with
          | XValue d, XValue i =>
              if negb broken && verify && negb (d =? i) then ZReturns EXIT_FAILURE (fails ++ [XsumMismatch d i])
              else ZReturns ret fails
          | _, _ => ZReturns ret fails
          end
      end
  end.

(** no result when a generator leaves its buffer, or the fuel is out *)
Definition stress_zlib (fuel : nat) (g : gst) : option zres :=
  let '(p1, p2, p3) := pipes_ok e in
  if negb (sigpipe_ok e && p1 && p2 && p3 && fork_ok e) then Some (ZReturns EXIT_FAILURE [])
  else
    '(ret, dsent, d) ← stress_zlib_deflate fuel g;
    '(_, isent, i) ← stress_zlib_inflate fuel (deliver e (written d));
    Some (compare_xsums ret (pipe_broken d) (dfails d ++ ifails i)
            (read_xsum (xsum_read e false) dsent) (read_xsum (xsum_read e true) isent)).

End Stressor.
