(* ===== verification/ZlibProofs.v ===== *)
(** * What the zlib stressor reports

    The laws of zlib, as its header documents them, and the theorems on the two
    processes with them.  [Toy] is a small coder that keeps the laws, for the runs
    that are shown. *)

From S2P Require Import Prelude Mwc CString Outcome Named StrStress CpuDriver ZlibData Zlib.

(** [valid c]: [c] begins a compressed stream, which is [complete] or goes on; what
    can be told from it is [decoded c].  A stream being compressed has taken [i] and
    given [o]; once it is being finished it is given what was left of the input.  A
    stream being decompressed has taken [c] and given [m] bytes. *)
Class ZlibLaws (D I : Type) `{Zlib D I} := {
  valid : list Z -> Prop;
  decoded : list Z -> list Z;
  complete : list Z -> bool;
  valid_prefix c c' : valid (c ++ c') -> valid c;
  decoded_mono c c' : valid (c ++ c') -> decoded c `prefix_of` decoded (c ++ c');
  complete_end c c' : complete c = true -> valid (c ++ c') -> c' = [];
  d_repr : D -> option (list Z) -> list Z -> list Z -> Prop;
  deflate_bound : nat -> nat;
  deflate_bound_mono n m : (n <= m)%nat -> (deflate_bound n <= deflate_bound m)%nat;
  deflate_init_law : deflate_init.1 = Z_OK -> d_repr deflate_init.2 None [] [];
  deflate_out_law d ph i o : d_repr d ph i o ->
    valid o /\ decoded o `prefix_of` i /\ (length o <= deflate_bound (length i))%nat;
  deflate_law d ph i o inp flush n rc d' rest out :
    d_repr d ph i o -> (0 < n)%nat ->
    match ph with None => flush = Z_NO_FLUSH \/ flush = Z_FINISH | Some todo => flush = Z_FINISH /\ inp = todo end ->
    deflate d inp flush n = (rc, d', rest, out) ->
    rc <> Z_STREAM_ERROR /\ (length out <= n)%nat /\ (length out < n -> rest = [])%nat /\
    exists used, inp = used ++ rest /\
      d_repr d' (if flush =? Z_FINISH then Some rest else None) (i ++ used) (o ++ out) /\
      (flush = Z_FINISH -> (length out < n)%nat -> complete (o ++ out) = true /\ decoded (o ++ out) = i ++ used);
  i_repr : I -> list Z -> nat -> Prop;
  inflate_init_law : inflate_init.1 = Z_OK -> i_repr inflate_init.2 [] 0;
  inflate_law t c m inp n rc t' rest out :
    i_repr t c m -> valid (c ++ inp) -> (0 < n)%nat -> inflate t inp n = (rc, t', rest, out) ->
    (rc = Z_OK \/ rc = Z_STREAM_END \/ rc = Z_BUF_ERROR) /\ (length out <= n)%nat /\
    (length out < n -> rest = [] /\ m + length out = length (decoded (c ++ inp)))%nat /\
    exists used, inp = used ++ rest /\ i_repr t' (c ++ used) (m + length out) /\
      out `prefix_of` drop m (decoded (c ++ inp)) /\
      (rc = Z_STREAM_END -> complete (c ++ used) = true /\ (m + length out)%nat = length (decoded (c ++ used)))
}.

Lemma data_size_pos : (0 < DATA_SIZE)%nat.
Proof. unfold DATA_SIZE. lia. Qed.

Section Proofs.
Context {D I : Type} `{ZlibLaws D I}.
Variable verify : bool.
Variable e : zenv.
Variable func : rand_data_func.
Variable max_ops : Z.
Variable stale : list Z.

Lemma xsum_add_app x l1 l2 : xsum_add x (l1 ++ l2) = xsum_add (xsum_add x l1) l2.
Proof. apply foldl_app. Qed.

Lemma xsum_verified_app x l1 l2 : xsum_verified verify x (l1 ++ l2) = xsum_verified verify (xsum_verified verify x l1) l2.
Proof. unfold xsum_verified. destruct verify; [apply xsum_add_app|done]. Qed.

(** ** The parent *)

(** writes are never refused for a serious reason, nor does the pipe break *)
Hypothesis writes_ok : forall n, wans e n = Wrote \/ exists k, wans e n = Short k EINTR.

(** so far [data] was generated, of which [rest] is not taken yet *)
Record parent_ok (data : list Z) (ph : option (list Z)) (rest : list Z) (s : dst (D := D)) : Prop := ParentOk {
  pk_repr : exists i, d_repr (dz s) ph i (written s) /\ data = i ++ rest;
  pk_xsum : dxsum s = xsum_verified verify 0 data;
  pk_broken : pipe_broken s = false;
  pk_fails : dfails s = []
}.

(** the pipe got the beginning of what the compressor gave *)
Record parent_done (data : list Z) (whole : bool) (s : dst (D := D)) : Prop := ParentDone {
  pd_valid : valid (written s);
  pd_decoded : decoded (written s) `prefix_of` data;
  pd_whole : whole = true -> complete (written s) = true /\ decoded (written s) = data;
  pd_xsum : dxsum s = xsum_verified verify 0 data;
  pd_broken : pipe_broken s = false;
  pd_fails : dfails s = []
}.

(** every write so far, and the next ones, are whole *)
Definition all_wrote : Prop := forall n, wans e n = Wrote.

Lemma deflate_inner_ok fuel data ph rest flush s :
  parent_ok data ph rest s ->
  match ph with None => flush = Z_NO_FLUSH \/ flush = Z_FINISH | Some todo => flush = Z_FINISH /\ rest = todo end ->
  (deflate_bound (length data) < length (written s) + fuel)%nat ->
  exists x s', deflate_inner e fuel rest flush s = Some (x, s') /\ polls s' = polls s /\ dgen s' = dgen s /\
    (x = DNext -> parent_ok data (if flush =? Z_FINISH then Some [] else None) [] s') /\
    (x = DNext -> flush = Z_FINISH -> parent_done data true s') /\
    (x = DFinish -> parent_done data false s') /\ x <> DFail /\ (all_wrote -> x = DNext).
Proof using writes_ok.
  revert ph rest s. induction fuel as [|fuel IH]; intros ph rest s Hs Hph Hf.
  { destruct Hs as [(i & Hr & ->) _ _ _]. destruct (deflate_out_law _ _ _ _ Hr) as (_ & _ & Hb).
    pose proof (deflate_bound_mono (length i) (length (i ++ rest))) as Hm. rewrite length_app in Hm at 1. lia. }
  destruct Hs as [(i & Hr & Hd) Hx Hbr Hfl]. cbn [deflate_inner].
  destruct (deflate (dz s) rest flush DATA_SIZE) as [[[rc z] rest'] out] eqn:E.
  destruct (deflate_law _ _ _ _ _ _ _ _ _ _ _ Hr data_size_pos Hph E) as (Hrc & Hlen & Hlt & used & -> & Hr' & Hfin).
  destruct (Z.eqb_spec rc Z_STREAM_ERROR) as [|_]; [done|]. cbn [deflated writes].
  destruct (deflate_out_law _ _ _ _ Hr') as (Hv & Hp & _).
  destruct (writes_ok (writes s)) as [Hw | [k Hw]]; rewrite Hw.
  - destruct (Nat.eqb_spec (length out) DATA_SIZE) as [Hfull|Hnf].
    + assert (parent_ok data (if flush =? Z_FINISH then Some rest' else None) rest' (wrote out out true false (deflated z s))) as Hs'.
      { split; [|done|cbn; by rewrite Hbr|done]. exists (i ++ used). split; [done|]. by rewrite Hd, app_assoc. }
      destruct (IH _ _ _ Hs') as (x & s' & -> & Hpo & Hg & H1 & H2 & H3 & H4 & H5).
      * destruct (Z.eqb_spec flush Z_FINISH); [done|]. destruct ph; [naive_solver|]. by left; destruct Hph.
      * cbn [wrote written deflated]. rewrite length_app, Hfull. pose proof data_size_pos. lia.
      * by exists x, s'.
    + assert (rest' = []) as -> by (apply Hlt; lia). rewrite app_nil_r in Hd.
      eexists _, _. split; [done|]. split; [done|]. split; [done|]. cbn [wrote deflated dz written dxsum pipe_broken dfails].
      split; [|split; [|by split]].
      * intros _. split; [|done|by cbn; rewrite Hbr|done]. exists (i ++ used). split; [done|]. by rewrite app_nil_r.
      * intros _ Hfl'. split; cbn [wrote deflated dz written dxsum pipe_broken dfails]; try done.
        -- by rewrite Hd.
        -- intros _. rewrite Hd. apply Hfin; [done|lia].
        -- by rewrite Hbr.
  - cbn [serious]. change (serious EINTR) with false. change (EINTR =? EPIPE) with false.
    eexists _, _. split; [done|]. split; [done|]. split; [done|]. split; [done|]. split; [done|]. split; [|split; [done|]].
    + intros _. split; cbn [wrote deflated dz written dxsum pipe_broken dfails]; try done.
      * rewrite <- (take_drop k out), app_assoc in Hv. by apply valid_prefix in Hv.
      * rewrite <- (take_drop k out) in Hv, Hp at 1. rewrite app_assoc in Hv, Hp.
        etrans; [apply decoded_mono; exact Hv|]. etrans; [exact Hp|]. rewrite Hd, app_assoc. by apply prefix_app_r.
      * by rewrite Hbr.
    + intros Hall. by rewrite Hall in Hw.
Qed.

(** the generator fills the array in the states [gen_ok] *)
Variable gen_ok : gst -> Prop.
Hypothesis generates_data : forall g, gen_ok g ->
  exists data g', func stale g = Some (data, g') /\ length data = DATA_SIZE /\ gen_ok g'.

(** the flag is cleared at some look *)
Variable cleared : nat.
Hypothesis flag_cleared : flag e cleared = false.

Definition most_data : nat := (S cleared * DATA_SIZE)%nat.

Lemma round_start_ok data new g s :
  parent_ok data None [] s -> parent_ok (data ++ new) None new (round_start verify new g s).
Proof using.
  intros [(i & Hr & ->) Hx Hb Hf]. rewrite app_nil_r in *. split; [by exists i|cbn|done|done].
  by rewrite xsum_verified_app, Hx.
Qed.

Lemma deflate_rounds_ok fuel inner data s :
  parent_ok data None [] s -> length data = (polls s * DATA_SIZE)%nat -> (polls s <= cleared)%nat ->
  (cleared - polls s < fuel)%nat -> (deflate_bound most_data < inner)%nat -> gen_ok (dgen s) ->
  exists data' whole s', deflate_rounds verify e func max_ops stale fuel inner s = Some (DFinish, s') /\
    (length data' <= most_data)%nat /\ parent_done data' whole s' /\ (all_wrote -> whole = true).
Proof using writes_ok generates_data flag_cleared.
  revert data s. induction fuel as [|fuel IH]; intros data s Hs Hl Hp Hf Hi Hg; [lia|]. cbn [deflate_rounds].
  destruct (generates_data _ Hg) as (new & g' & -> & Hnew & Hg'). cbn [mbind option_bind].
  set (run := keep_stressing (flag e (polls s)) max_ops (dcounter s)).
  assert (length (data ++ new) = (S (polls s) * DATA_SIZE)%nat) as Hl' by (rewrite length_app, Hl, Hnew; lia).
  assert (length (data ++ new) <= most_data)%nat as Hm by (rewrite Hl'; apply Nat.mul_le_mono_r; lia).
  pose proof (deflate_bound_mono _ _ Hm) as Hbm.
  destruct (deflate_inner_ok inner _ None new (if run then Z_NO_FLUSH else Z_FINISH) _ (round_start_ok data new g' s Hs))
    as (x & s' & -> & Hpo & Hge & H1 & H2 & H3 & H4 & H5); [by destruct run; [left|right]|lia|].
  cbn [mbind option_bind]. cbn [round_start polls dgen] in Hpo, Hge. destruct x; [| |done].
  - destruct run eqn:Er; cbn [Z_NO_FLUSH Z_FINISH Z.eqb].
    + change (Z_NO_FLUSH =? Z_FINISH) with false in *.
      assert (polls s <> cleared) as Hne by (intros Hc; unfold run, keep_stressing in Er; rewrite Hc, flag_cleared in Er; done).
      apply (IH (data ++ new)); [by apply H1|by rewrite Hpo|lia..|done|by rewrite Hge].
    + change (Z_FINISH =? Z_FINISH) with true. exists (data ++ new), true, s'. split_and!; auto.
  - exists (data ++ new), false, s'. split_and!; auto. intros Hw. by specialize (H5 Hw).
Qed.

(** the parent, with a compressor that could be set up *)
Lemma parent_runs fuel g :
  deflate_init.1 = Z_OK -> (forall n, xsum_write e n = None) -> (cleared < fuel)%nat -> (deflate_bound most_data < fuel)%nat -> gen_ok g ->
  exists data whole s, stress_zlib_deflate verify e func max_ops stale fuel g = Some (Z_OK, Some (dxsum s), s) /\
    (length data <= most_data)%nat /\ parent_done data whole s /\ (all_wrote -> whole = true).
Proof using writes_ok generates_data flag_cleared.
  intros Hi Hx Hc Hb Hg. pose proof (deflate_init_law Hi) as Hr. unfold stress_zlib_deflate.
  destruct deflate_init as [rc z]. cbn [fst snd] in Hi, Hr. subst rc. cbn [Z.eqb negb Z_OK].
  destruct (deflate_rounds_ok fuel fuel [] (Dst z g 0 0 0 0 [] 0 0 false [])) as (data & whole & s & -> & Hl & Hd & Hw); try done; try (cbn; lia).
  - split; try done; [by exists []|]. unfold xsum_verified. by destruct verify.
  - cbn [mbind option_bind]. unfold deflate_finish. rewrite Hx. by exists data, whole, s.
Qed.

(** ** The child *)

(** [c] was read and decoded as far as it can be *)
Record child_ok (c : list Z) (s : ist (I := I)) : Prop := ChildOk {
  ck_repr : i_repr (iz s) c (length (decoded c));
  ck_xsum : ixsum s = xsum_verified verify 0 (decoded c);
  ck_fails : ifails s = []
}.

Lemma prefix_take {A} (l k : list A) : l `prefix_of` k -> l = take (length l) k.
Proof. intros [m ->]. by rewrite take_app_length. Qed.

Lemma prefix_drop {A} m (out l : list A) : out `prefix_of` drop m l -> (m <= length l)%nat ->
  take (m + length out) l = take m l ++ out /\ (m + length out <= length l)%nat.
Proof.
  intros [k Hk] Hm. pose proof (f_equal length Hk) as Hl. rewrite length_drop, length_app in Hl. split; [|lia].
  rewrite <- (take_drop m l) at 1. rewrite Hk, take_app_ge by (rewrite length_take; lia).
  rewrite length_take. replace (m + length out - m `min` length l)%nat with (length out) by lia. by rewrite take_app_length.
Qed.

Lemma inflate_inner_ok fuel c inp m s :
  valid (c ++ inp) -> i_repr (iz s) c m -> (m <= length (decoded (c ++ inp)))%nat ->
  ixsum s = xsum_verified verify 0 (take m (decoded (c ++ inp))) -> ifails s = [] ->
  (length (decoded (c ++ inp)) < m + fuel)%nat ->
  exists ret s', inflate_inner verify fuel inp s = Some (Some ret, s') /\ child_ok (c ++ inp) s' /\
    (ret = Z_STREAM_END -> complete (c ++ inp) = true).
Proof using.
  revert c inp m s. induction fuel as [|fuel IH]; intros c inp m s Hv Hr Hm Hx Hf Hfu; [lia|]. cbn [inflate_inner].
  destruct (inflate (iz s) inp DATA_SIZE) as [[[rc t] rest] out] eqn:E.
  destruct (inflate_law _ _ _ _ _ _ _ _ _ Hr Hv data_size_pos E) as (Hrc & Hlen & Hlt & used & -> & Hr' & Hp & Hend).
  replace ((rc =? Z_NEED_DICT) || (rc =? Z_DATA_ERROR) || (rc =? Z_MEM_ERROR)) with false by (destruct Hrc as [->|[->| ->]]; done).
  destruct (prefix_drop _ _ _ Hp Hm) as [Ht Hle]. rewrite app_assoc in Hv, Hm, Hx, Hfu, Ht, Hle, Hlt |- *.
  assert (xsum_verified verify (ixsum s) out = xsum_verified verify 0 (take (m + length out) (decoded ((c ++ used) ++ rest)))) as Hx'
    by (by rewrite Ht, xsum_verified_app, Hx).
  destruct (Nat.eqb_spec (length out) DATA_SIZE) as [Hfull|Hnf].
  - apply (IH _ _ (m + length out)%nat); try done. rewrite Hfull. pose proof data_size_pos. lia.
  - destruct Hlt as [-> Hall]; [lia|]. rewrite app_nil_r in *. rewrite Hall in Hr', Hx'.
    eexists _, _. split; [done|]. split; [|by intros ->; apply Hend]. split; [done| |done]. cbn [ixsum]. by rewrite Hx', take_ge.
Qed.

(** the portions of what was written: none is empty *)
Definition portions (w : list Z) (reads : list rres) : Prop :=
  exists chunks, reads = Read <$> chunks /\ concat chunks = w /\ Forall (fun c => c <> []) chunks.

Lemma inflate_rounds_ok fuel c w chunks ret s :
  w = c ++ concat chunks -> valid w -> Forall (fun c => c <> []) chunks -> child_ok c s ->
  (length (decoded w) < fuel)%nat ->
  exists r s', inflate_rounds verify fuel (Read <$> chunks) ret s = Some (Some r, s') /\ child_ok w s'.
Proof using.
  revert c ret s. induction chunks as [|chunk chunks IH]; intros c ret s Hw Hv Hne Hs Hfu.
  { cbn in Hw. rewrite app_nil_r in Hw. subst c. by exists ret, s. }
  apply Forall_cons in Hne as [Hc Hne]. cbn [fmap list_fmap inflate_rounds]. destruct (Nat.eqb_spec (length chunk) 0) as [Hl|_]; [by destruct chunk|].
  cbn [concat] in Hw. rewrite app_assoc in Hw. assert (valid (c ++ chunk)) as Hv1 by (apply (valid_prefix _ (concat chunks)); by rewrite <- Hw).
  pose proof (decoded_mono _ _ Hv1) as Hmono. pose proof (prefix_length _ _ Hmono) as Hml.
  assert (decoded (c ++ chunk) `prefix_of` decoded w) as Hm2 by (rewrite Hw; apply decoded_mono; by rewrite <- Hw).
  pose proof (prefix_length _ _ Hm2). destruct Hs as [Hr Hx Hf].
  destruct (inflate_inner_ok fuel c chunk (length (decoded c)) s) as (r & s' & -> & Hs' & Hend); try done; [|lia|].
  { by rewrite Hx, <- (prefix_take _ _ Hmono). }
  cbn [mbind option_bind]. destruct (Z.eqb_spec r Z_STREAM_END) as [Hr'|_]; [|by apply (IH (c ++ chunk))].
  assert (concat chunks = []) as Hnil by (apply (complete_end (c ++ chunk)); [by apply Hend|by rewrite <- Hw]).
  rewrite Hnil, app_nil_r in Hw. subst w. by exists r, s'.
Qed.

(** the child, with a decompressor that could be set up *)
Lemma child_runs fuel w reads :
  inflate_init.1 = Z_OK -> ixsum_write e = None -> valid w -> portions w reads -> decoded [] = [] -> (length (decoded w) < fuel)%nat ->
  exists ret s, stress_zlib_inflate verify e fuel reads = Some (ret, Some (ixsum s), s) /\ child_ok w s.
Proof using.
  intros Hi Hx Hv (chunks & -> & Hw & Hne) Hd Hf. pose proof (inflate_init_law Hi) as Hr. unfold stress_zlib_inflate.
  destruct inflate_init as [rc z]. cbn [fst snd] in Hi, Hr. subst rc. cbn [Z.eqb negb Z_OK].
  destruct (inflate_rounds_ok fuel [] w chunks Z_OK (Ist z 0 [])) as (r & s & -> & Hs); try done.
  - split; cbn; rewrite ?Hd; try done. unfold xsum_verified. by destruct verify.
  - cbn [mbind option_bind]. unfold inflate_send. rewrite Hx. by eexists _, s.
Qed.

(** ** Together *)

(** everything can be set up, the sums are sent and read, the pipe delivers what was written *)
Record zlib_env_ok : Prop := ZlibEnvOk {
  zo_deflate : deflate_init.1 = Z_OK;
  zo_inflate : inflate_init.1 = Z_OK;
  zo_xsum_write n : xsum_write e n = None;
  zo_ixsum_write : ixsum_write e = None;
  zo_xsum_read b : xsum_read e b = None;
  zo_deliver w : portions w (deliver e w);
  zo_setup : sigpipe_ok e = true /\ pipes_ok e = (true, true, true) /\ fork_ok e = true
}.

(** fuel for the rounds, for the output of the compressor and for that of the decompressor *)
Definition zlib_fuel : nat := (cleared + deflate_bound most_data + most_data + 1)%nat.

Lemma decoded_nil : deflate_init.1 = Z_OK -> decoded [] = [].
Proof using.
  intros Hi. destruct (deflate_out_law _ _ _ _ (deflate_init_law Hi)) as (_ & Hp & _). by apply prefix_nil_inv in Hp.
Qed.

(** the sum of all data against that of what arrived *)
Definition verdict (data arrived : list Z) : zres :=
  let d := xsum_add 0 data in let i := xsum_add 0 arrived in
  if verify && negb (d =? i) then ZReturns EXIT_FAILURE [XsumMismatch d i] else ZReturns EXIT_SUCCESS [].

Lemma zlib_runs g : zlib_env_ok -> gen_ok g ->
  exists data arrived, stress_zlib verify e func max_ops stale zlib_fuel g = Some (verdict data arrived) /\
    arrived `prefix_of` data /\ (all_wrote -> arrived = data).
Proof using writes_ok generates_data flag_cleared.
  intros [Hd Hi Hx Hix Hxr Hdel (Hs1 & Hs2 & Hs3)] Hg. unfold stress_zlib. rewrite Hs1, Hs2, Hs3. cbn [andb negb].
  destruct (parent_runs zlib_fuel g) as (data & whole & s & -> & Hlen & [Hv Hp Hw Hxs Hb Hf] & Hall); try done; [unfold zlib_fuel; lia..|].
  cbn [mbind option_bind]. pose proof (prefix_length _ _ Hp).
  destruct (child_runs zlib_fuel (written s) (deliver e (written s))) as (ret & s' & -> & [_ Hxi Hfi]); try done;
    [by apply decoded_nil|unfold zlib_fuel; lia|].
  cbn [mbind option_bind]. rewrite !Hxr. cbn [read_xsum]. exists data, (decoded (written s)). split; [|split; [done|]].
  - rewrite Hf, Hfi, Hb, Hxs, Hxi. unfold verdict, compare_xsums, xsum_verified. by destruct verify; cbn; rewrite ?app_nil_r.
  - intros Hwr. by apply Hw, Hall.
Qed.

End Proofs.

(** the data generators of the table are such generators *)
Lemma table_generates_data e name f stale :
  (name ∈ reads_text -> text_ok e) -> (name, f) ∈ zlib_rand_data_table e -> length stale = DATA_SIZE ->
  forall g, latin_ok g -> exists data g', f stale g = Some (data, g') /\ length data = DATA_SIZE /\ latin_ok g'.
Proof.
  intros He Hin Hl g Hg. pose proof (proj1 (Forall_forall _ _) (table_generates e) _ Hin He stale g) as Hf. cbn [fst snd] in Hf.
  destruct Hf as (d & g' & -> & Hd & _ & _ & Hg'); [|done|].
  - rewrite Hl. exists (Z.to_nat (1024 * 8 - 1)). unfold DATA_SIZE. lia.
  - exists d, g'. by rewrite Hd, Hl.
Qed.

Section Theorems.
Context {D I : Type} `{ZlibLaws D I}.

(** (C27) With a zlib that keeps to its documentation, when everything can be set up (pipes, fork, handler, both streams) and the sums are sent and read, no read and no write is interrupted
    or short and the flag is cleared at some time, the stressor ends with success and reports
    nothing, whichever generator makes the data, whatever the portions in which the
    pipe delivers them, with or without [--verify].  For the methods objcode and random, the default, which read the text of the
    program, it is further assumed that this can be read to its end without a fault and is not empty, unless the handlers for such
    faults cannot be installed: after a fault the source goes on to fill the buffer from where it stood. *)
Theorem zlib_no_false_alarm verify e text name f max_ops stale cleared g :
  zlib_env_ok (D := D) (I := I) e -> (forall n, wans e n = Wrote) -> flag e cleared = false ->
  (name ∈ reads_text -> text_ok text) -> (name, f) ∈ zlib_rand_data_table text -> length stale = DATA_SIZE -> latin_ok g ->
  stress_zlib (D := D) (I := I) verify e f max_ops stale (zlib_fuel (D := D) (I := I) cleared) g = Some (ZReturns EXIT_SUCCESS []).
Proof.
  intros He Hw Hc Ht Hin Hl Hg.
  destruct (zlib_runs (D := D) (I := I) verify e f max_ops stale (fun n => or_introl (Hw n)) latin_ok
    (table_generates_data text name f stale Ht Hin Hl) cleared Hc g He Hg) as (data & arrived & -> & _ & Hall).
  rewrite (Hall Hw). unfold verdict. rewrite Z.eqb_refl. by destruct verify.
Qed.

(** When writes are interrupted by a signal, as by that of the alarm, the stressor
    compares the sum of all data it made with that of the beginning that arrived, and
    reports a failure of zlib when they differ. *)
Theorem zlib_sums_compared verify e text name f max_ops stale cleared g :
  zlib_env_ok (D := D) (I := I) e -> (forall n, wans e n = Wrote \/ exists k, wans e n = Short k EINTR) -> flag e cleared = false ->
  (name ∈ reads_text -> text_ok text) -> (name, f) ∈ zlib_rand_data_table text -> length stale = DATA_SIZE -> latin_ok g ->
  exists data arrived, arrived `prefix_of` data /\
    stress_zlib (D := D) (I := I) verify e f max_ops stale (zlib_fuel (D := D) (I := I) cleared) g = Some (verdict verify data arrived).
Proof.
  intros He Hw Hc Ht Hin Hl Hg.
  destruct (zlib_runs (D := D) (I := I) verify e f max_ops stale Hw latin_ok
    (table_generates_data text name f stale Ht Hin Hl) cleared Hc g He Hg) as (data & arrived & Hr & Hp & _).
  by exists data, arrived.
Qed.

End Theorems.

(** ** A child that finds damaged data *)

Section Damage.
Context {D I : Type} `{Zlib D I}.

Lemma inflate_rounds_damaged verify fuel chunk reads ret s :
  chunk <> [] -> (inflate (iz s) chunk DATA_SIZE).1.1.1 = Z_DATA_ERROR ->
  exists s', inflate_rounds (D := D) (I := I) verify (S fuel) (Read chunk :: reads) ret s = Some (None, s') /\ ifails s' = ifails s.
Proof.
  intros Hc Hi. cbn [inflate_rounds]. destruct (Nat.eqb_spec (length chunk) 0) as [Hl|_]; [by destruct chunk|].
  cbn [inflate_inner]. destruct (inflate (iz s) chunk DATA_SIZE) as [[[rc z] rest] out]. cbn [fst] in Hi. subst rc.
  cbn. by eexists.
Qed.

(** (C38) If the first portion that the child reads is damaged, it ends without a word and
    without sending its sum; the parent, which has both ends of the pipe open, then waits
    for the sum until a signal interrupts it, and nothing is reported. *)
Theorem zlib_data_error_blocks verify e f max_ops stale fuel g ret d chunk reads :
  sigpipe_ok e = true -> pipes_ok e = (true, true, true) -> fork_ok e = true ->
  stress_zlib_deflate (D := D) (I := I) verify e f max_ops stale (S fuel) g = Some (ret, Some (dxsum d), d) -> dfails d = [] ->
  inflate_init.1 = Z_OK -> deliver e (written d) = Read chunk :: reads -> chunk <> [] ->
  (inflate inflate_init.2 chunk DATA_SIZE).1.1.1 = Z_DATA_ERROR ->
  (forall b, xsum_read e b = None) ->
  stress_zlib (D := D) (I := I) verify e f max_ops stale (S fuel) g = Some (ZBlocks []).
Proof.
  intros H1 H2 H3 Hd Hf Hi Hdel Hc Herr Hx. unfold stress_zlib. rewrite H1, H2, H3. cbn [andb negb]. rewrite Hd. cbn [mbind option_bind]. rewrite Hdel.
  unfold stress_zlib_inflate. destruct inflate_init as [rc z]. cbn [fst snd] in Hi, Herr. subst rc. cbn [Z.eqb negb Z_OK].
  destruct (inflate_rounds_damaged verify fuel chunk reads Z_OK (Ist z 0 []) Hc Herr) as (s & -> & Hs).
  cbn [mbind option_bind]. rewrite !Hx, Hf, Hs. done.
Qed.

End Damage.

(** ** A coder that keeps the laws: a byte is sent after a 1, and the end is a 0 *)

Module Toy.

Definition tencode (i : list Z) (fin : bool) : list Z := concat ((fun b => [1; b]) <$> i) ++ (if fin then [0] else []).

Fixpoint tdecode (c : list Z) : list Z :=
  match c with x :: b :: c => if x =? 1 then b :: tdecode c else [] | _ => [] end.

Fixpoint tcomplete (c : list Z) : bool :=
  match c with
  | [x] => x =? 0
  | x :: b :: c => (x =? 1) && tcomplete c
  | [] => false
  end.

(** what was taken, whether the end was asked for, how much was given *)
Record td := Td { taken : list Z; fin : bool; given : nat }.

#[global] Instance toy : Zlib td (list Z * nat) := {
  deflate_init := (Z_OK, Td [] false 0);
  deflate d inp flush n :=
    let i := taken d ++ inp in
    let f := fin d || (flush =? Z_FINISH) in
    let out := take n (drop (given d) (tencode i f)) in
    (Z_OK, Td i f (given d + length out), [], out);
  inflate_init := (Z_OK, ([], 0%nat));
  inflate t inp n :=
    let c := t.1 ++ inp in
    let out := take n (drop t.2 (tdecode c)) in
    (if tcomplete c && (t.2 + length out =? length (tdecode c))%nat then Z_STREAM_END else Z_OK,
     (c, (t.2 + length out)%nat), [], out)
}.

Lemma tencode_app i j f : tencode (i ++ j) f = tencode i false ++ tencode j f.
Proof. unfold tencode. by rewrite fmap_app, concat_app, app_nil_r, app_assoc. Qed.

Lemma tencode_decode i f : tdecode (tencode i f) = i.
Proof. induction i as [|b i IH]; [by destruct f|]. cbn. f_equal. apply IH. Qed.

Lemma tencode_complete i : tcomplete (tencode i true) = true.
Proof. induction i as [|b i IH]; [done|]. cbn. apply IH. Qed.

Lemma length_tencode i f : length (tencode i f) = (2 * length i + if f then 1 else 0)%nat.
Proof. induction i as [|b i IH]; [by destruct f|]. change (S (S (length (tencode i f))) = (2 * S (length i) + if f then 1 else 0)%nat). lia. Qed.

Lemma tdecode_mono n c c' : (length c <= n)%nat -> tdecode c `prefix_of` tdecode (c ++ c').
Proof.
  revert c. induction n as [|n IH]; intros [|x [|b c]] Hn; cbn in *; try apply prefix_nil; [lia|].
  destruct (x =? 1); [|done]. apply prefix_cons, IH. lia.
Qed.

Lemma tcomplete_end i c c' : tcomplete c = true -> c ++ c' `prefix_of` tencode i true -> c' = [].
Proof.
  revert c. induction i as [|b i IH]; intros [|x [|y c]] Hc Hp; try done.
  - apply prefix_length in Hp. destruct c'; [done|]. cbn in Hp. lia.
  - apply prefix_length in Hp. cbn in Hp. lia.
  - cbn in Hc. apply Z.eqb_eq in Hc. subst x. cbn in Hp. by apply prefix_cons_inv_1 in Hp.
  - cbn in Hp, Hc. apply prefix_cons_inv_2, prefix_cons_inv_2 in Hp. apply andb_prop in Hc as [_ Hc]. by apply (IH c).
Qed.

Definition t_repr (d : td) (ph : option (list Z)) (i o : list Z) : Prop :=
  i = taken d /\ o = take (given d) (tencode i (fin d)) /\ given d = length o /\ ph = if fin d then Some [] else None.

(** the rest of what is to be given, after what was given *)
Lemma take_grow {A} k (l out : list A) n :
  k = length (take k l) -> out = take n (drop k l) -> take k l ++ out = take (k + length out) l.
Proof.
  intros Hk ->. rewrite length_take in Hk. rewrite length_take, length_drop, take_take_drop.
  destruct (Nat.le_ge_cases n (length l - k)); [by rewrite Nat.min_l|]. by rewrite Nat.min_r, !take_ge by lia.
Qed.

Lemma t_deflate_out d ph i o : t_repr d ph i o ->
  (exists j, o `prefix_of` tencode j true) /\ tdecode o `prefix_of` i /\ (length o <= 2 * length i + 1)%nat.
Proof.
  intros (-> & -> & Hg & _). set (o := take (given d) (tencode (taken d) (fin d))) in *.
  assert (tencode (taken d) true = tencode (taken d) (fin d) ++ if fin d then [] else [0]) as Ht
    by (unfold tencode; by destruct (fin d); rewrite ?app_nil_r).
  assert (o `prefix_of` tencode (taken d) (fin d)) as Hp by (exists (drop (given d) (tencode (taken d) (fin d))); symmetry; apply take_drop).
  split; [|split].
  - exists (taken d). rewrite Ht. by apply prefix_app_r.
  - destruct Hp as [k Hk]. etrans; [by apply (tdecode_mono (length o) o k)|]. by rewrite <- Hk, tencode_decode.
  - apply prefix_length in Hp. rewrite length_tencode in Hp. destruct (fin d); lia.
Qed.

Lemma t_deflate d ph i o inp flush n rc d' rest out :
  t_repr d ph i o -> (0 < n)%nat ->
  match ph with None => flush = Z_NO_FLUSH \/ flush = Z_FINISH | Some todo => flush = Z_FINISH /\ inp = todo end ->
  deflate d inp flush n = (rc, d', rest, out) ->
  rc <> Z_STREAM_ERROR /\ (length out <= n)%nat /\ (length out < n -> rest = [])%nat /\
  exists used, inp = used ++ rest /\
    t_repr d' (if flush =? Z_FINISH then Some rest else None) (i ++ used) (o ++ out) /\
    (flush = Z_FINISH -> (length out < n)%nat -> tcomplete (o ++ out) = true /\ tdecode (o ++ out) = i ++ used).
Proof.
  intros (-> & Ho & Hg & Hph) Hn Hfl [= <- <- <- Hout]. rewrite Hout.
  split; [done|]. split; [rewrite <- Hout, length_take; lia|]. split; [done|]. exists inp. rewrite app_nil_r. split; [done|].
  set (f := fin d || (flush =? Z_FINISH)) in *. set (all := tencode (taken d ++ inp) f) in *.
  assert (o = take (given d) all) as Ho'.
  { rewrite Ho. unfold all, f. destruct (fin d) eqn:Ef; subst ph; cbn [orb].
    - destruct Hfl as [_ ->]. by rewrite app_nil_r.
    - assert (given d <= length (tencode (taken d) false))%nat by (rewrite Hg, Ho, length_take; lia).
      by rewrite tencode_app, take_app_le. }
  assert (o ++ out = take (given d + length out) all) as Hoo.
  { rewrite Ho'. apply (take_grow _ _ _ n); [by rewrite <- Ho'|done]. }
  assert (f = (flush =? Z_FINISH)) as Hf.
  { unfold f. destruct (fin d); subst ph; [|done]. by destruct Hfl as [-> _]. }
  split.
  - split; [done|]. cbn [taken fin given]. split; [done|]. split; [by rewrite length_app, Hg|]. rewrite <- Hf. by destruct f.
  - intros -> Hlt. change (Z_FINISH =? Z_FINISH) with true in Hf.
    assert (length out = length all - given d)%nat as Hlen by (rewrite <- Hout, length_take, length_drop in *; lia).
    assert (given d <= length all)%nat by (rewrite Hg, Ho', length_take; lia).
    rewrite Hoo, take_ge by lia. unfold all. rewrite Hf. split; [apply tencode_complete|apply tencode_decode].
Qed.

#[global] Instance toy_laws : ZlibLaws td (list Z * nat).
Proof.
  refine {| valid c := exists i, c `prefix_of` tencode i true; decoded := tdecode; complete := tcomplete; d_repr := t_repr;
    deflate_bound n := (2 * n + 1)%nat; i_repr t c m := t = (c, m) /\ (m <= length (tdecode c))%nat |}.
  - intros c c' [i Hi]. exists i. etrans; [|exact Hi]. by apply prefix_app_r.
  - intros c c' _. by apply (tdecode_mono (length c)).
  - intros c c' Hc [i Hi]. by apply (tcomplete_end i c).
  - lia.
  - done.
  - apply t_deflate_out.
  - apply t_deflate.
  - cbn. auto.
  - intros t c m inp n rc t' rest out [-> Hm] _ Hn [= <- <- <- Hout]. cbn [fst snd] in *. rewrite Hout.
    pose proof (prefix_length _ _ (tdecode_mono (length c) c inp ltac:(done))) as Hle.
    assert (length out = n `min` (length (tdecode (c ++ inp)) - m))%nat as Hl by (by rewrite <- Hout, length_take, length_drop).
    split; [destruct (_ && _); auto|]. split; [lia|]. split; [intros; split; [done|lia]|].
    exists inp. rewrite app_nil_r. split; [done|]. split; [split; [done|lia]|]. split.
    + rewrite <- Hout. exists (drop n (drop m (tdecode (c ++ inp)))). by rewrite take_drop.
    + destruct (tcomplete (c ++ inp)), (Nat.eqb_spec (m + length out) (length (tdecode (c ++ inp)))); done.
Defined.

End Toy.

(** ** Runs *)

(** nothing fails; the flag is cleared at the second look, the pipe delivers at once *)
Definition demo_zenv (ws : nat -> wres) : zenv :=
  Zenv (fun n => (n <? 1)%nat) ws (fun _ => None) None (fun w => if (length w =? 0)%nat then [] else [Read w]) (fun _ => None)
    true (true, true, true) true.

(** the second write is interrupted after 4096 bytes *)
Definition interrupted_write (n : nat) : wres := if (n =? 1)%nat then Short 4096 EINTR else Wrote.

Lemma demo_zenv_ok ws : zlib_env_ok (D := Toy.td) (I := list Z * nat) (demo_zenv ws).
Proof.
  split; try done. intros w. unfold demo_zenv, deliver. destruct (Nat.eqb_spec (length w) 0) as [Hw|Hw].
  - exists []. by destruct w.
  - exists [w]. cbn. rewrite app_nil_r. split; [done|]. split; [done|]. repeat constructor. by intros ->.
Qed.

Lemma interrupted_ok n : wans (demo_zenv interrupted_write) n = Wrote \/ exists k, wans (demo_zenv interrupted_write) n = Short k EINTR.
Proof. unfold demo_zenv, wans, interrupted_write. destruct (n =? 1)%nat; [right; by eexists|by left]. Qed.

Lemma demo_text_ok : text_ok demo_text.
Proof.
  intros _. split; [done|]. intros t Ht. unfold text_at, demo_text in *. cbn [text_len] in Ht.
  destruct (Z.leb_spec 0 t), (Z.leb_spec t 3); try lia. by eexists.
Qed.

Lemma zlib_no_false_alarm_witness :
  stress_zlib (D := Toy.td) (I := list Z * nat) true (demo_zenv (fun _ => Wrote)) stress_rand_data_fixed 0 (replicate DATA_SIZE 0)
    (zlib_fuel (D := Toy.td) (I := list Z * nat) 1) (Gst mwc_init None false) = Some (ZReturns EXIT_SUCCESS []).
Proof.
  apply (zlib_no_false_alarm true (demo_zenv (fun _ => Wrote)) demo_text "fixed"); try done;
    first [apply demo_zenv_ok|intros _; apply demo_text_ok|apply length_replicate|unfold zlib_rand_data_table; set_solver].
Defined.

Lemma zlib_sums_compared_witness : exists data arrived, arrived `prefix_of` data /\
  stress_zlib (D := Toy.td) (I := list Z * nat) true (demo_zenv interrupted_write) stress_rand_data_fixed 0 (replicate DATA_SIZE 0)
    (zlib_fuel (D := Toy.td) (I := list Z * nat) 1) (Gst mwc_init None false) = Some (verdict true data arrived).
Proof.
  apply (zlib_sums_compared true (demo_zenv interrupted_write) demo_text "fixed"); try done;
    first [apply demo_zenv_ok|intros _; apply demo_text_ok|apply length_replicate|apply interrupted_ok|unfold zlib_rand_data_table; set_solver].
Defined.

(** an interrupted write makes a sound zlib fail *)
Example zlib_interrupted_example :
  stress_zlib (D := Toy.td) (I := list Z * nat) true (demo_zenv interrupted_write) stress_rand_data_fixed 0 (replicate DATA_SIZE 0)
    4 (Gst mwc_init None false) = Some (ZReturns EXIT_FAILURE [XsumMismatch 163840 87040]).
Proof. vm_compute. reflexivity. Qed.

(** a library whose compressed data are damaged on the way *)
#[local] Instance damaged : Zlib unit unit := {
  deflate_init := (Z_OK, tt);
  deflate _ inp _ _ := (Z_OK, tt, [], [7]);
  inflate_init := (Z_OK, tt);
  inflate _ inp _ := (Z_DATA_ERROR, tt, inp, [])
}.

Definition demo_parent : dst (D := unit) := Dst tt (Gst mwc_init None false) 131072 2 0 2 [7; 7] 2 2 false [].

Lemma zlib_data_error_blocks_witness :
  stress_zlib (D := unit) (I := unit) false (demo_zenv (fun _ => Wrote)) stress_rand_data_fixed 0 (replicate DATA_SIZE 0) 5
    (Gst mwc_init None false) = Some (ZBlocks []).
Proof.
  apply (zlib_data_error_blocks false (demo_zenv (fun _ => Wrote)) stress_rand_data_fixed 0 (replicate DATA_SIZE 0) 4
    (Gst mwc_init None false) Z_OK demo_parent [7; 7] []);
    [reflexivity|reflexivity|reflexivity|vm_compute; reflexivity|reflexivity|reflexivity|reflexivity|done|reflexivity|reflexivity].
Defined.
