(* ===== verification/SortSearch.v ===== *)
(** * Sorting and searching stressors (stress-qsort.c, stress-heapsort.c, stress-mergesort.c,
      stress-bsearch.c, stress-lsearch.c, stress-tsearch.c, stress-hsearch.c)

    Each calls a sorting or searching function of the library on data of its own and,
    with [--verify], checks the outcome.  The sorting functions are arguments, with
    the hypothesis that they sort; the searching functions are modelled: the binary
    search as the C library does it, the others by the sets and maps they keep.  A
    signal ends the sorting stressors with what was reported so far.  The memory for
    the data is taken to be there and the handler of the signal to be installed.

    - [sorting_passes]: with a function that sorts nothing is reported; and
      [sorting_faults_found]: with one that leaves a pair in the wrong order something is.
    What the searching stressors report is in SearchProofs.v. *)

From Stdlib Require Import Sorted Permutation DecimalString DecimalNat.
From S2P Require Import Prelude Mwc Flags Limits CpuDriver.

(** what a stressor has reported, and the looks at [g_keep_stressing_flag] so far *)
Record rep := Rep { failures : list string; looks : nat }.

Definition pr_fail (bad : bool) (what : string) (s : rep) : rep :=
  if bad then Rep (failures s ++ [what]) (looks s) else s.

(** ** Sorting *)

(** [stress_qsort_cmp_1()], [_2()] and [_3()] *)
Definition cmp_1 (i1 i2 : Z) : Z := if i2 <? i1 then 1 else if i1 <? i2 then -1 else 0.
Definition cmp_2 (i1 i2 : Z) : Z := cmp_1 i2 i1.
Definition cmp_3 (i1 i2 : Z) : Z := i1 - i2.

(** a pair of neighbours in the wrong order *)
Fixpoint wrong_pair (bad : Z -> Z -> bool) (data : list Z) : bool :=
  match data with
  | x :: ((y :: _) as rest) => bad x y || wrong_pair bad rest
  | _ => false
  end.

(** bytes of a value of four, the lowest first, and back; the bytes are [int8_t] to the comparison *)
Definition bytes_of (x : Z) : list Z := (fun k => let b := u8 (u32 x >>> (8 * k)) in if b <? 128 then b else b - 256) <$> [0; 1; 2; 3].
Fixpoint of_bytes (bs : list Z) : list Z :=
  match bs with
  | a :: b :: c :: d :: rest => s32 (u8 a + 2 ^ 8 * u8 b + 2 ^ 16 * u8 c + 2 ^ 24 * u8 d) :: of_bytes rest
  | _ => []
  end.

Section Sorting.
Variable verify : bool.                (** [OPT_FLAGS_VERIFY] *)
Variable keep : nat -> bool.           (** [g_keep_stressing_flag] at each look *)
(** the function of the library: the data as it leaves them, and whether it succeeds *)
Variable sort : (Z -> Z -> Z) -> list Z -> list Z * bool.
(** how the data are mixed before the last sort *)
Variable remix : list Z -> list Z * bool.
(** the last check is made even if the sort failed (stress-mergesort.c) *)
Variable check_anyway : bool.

Definition sort_and_check (cmp : Z -> Z -> Z) (bad : Z -> Z -> bool) (anyway : bool) (ds : list Z * rep) : list Z * rep :=
  let '(data, s) := ds in
  let '(data, ok) := sort cmp data in
  let s := pr_fail (negb ok) "sort failed" s in
  (data, pr_fail (verify && (ok || anyway) && wrong_pair bad data) "incorrect ordering" s).

(** [if (!g_keep_stressing_flag) break;] *)
Definition look_at (s : rep) : bool * rep := (keep (looks s), Rep (failures s) (S (looks s))).

(** the body of the loop, and whether it came to its end *)
Definition sort_round (ds : list Z * rep) : bool * (list Z * rep) :=
  let ds := sort_and_check cmp_1 (fun x y => y <? x) false ds in
  let '(go, s) := look_at ds.2 in
  if negb go then (false, (ds.1, s))
  else
    let ds := sort_and_check cmp_2 (fun x y => x <? y) false (ds.1, s) in
    let '(go, s) := look_at ds.2 in
    if negb go then (false, (ds.1, s))
    else
      let '(data, ok) := remix ds.1 in
      let s := pr_fail (negb ok) "mixing failed" s in
      let ds := sort_and_check cmp_2 (fun x y => x <? y) check_anyway (data, s) in
      let '(go, s) := look_at ds.2 in
      (go, (ds.1, s)).

(** the report and the counter; [None]: the fuel is out *)
Fixpoint sort_loop (fuel : nat) (max_ops : Z) (ds : list Z * rep) (counter : Z) : option (rep * Z) :=
  match fuel with
  | O => None
  | S fuel =>
      let '(done_, ds) := sort_round ds in
      if done_ : bool then
        let counter := u64 (counter + 1) in
        let '(go, s) := look_at ds.2 in
        if keep_stressing go max_ops counter then sort_loop fuel max_ops (ds.1, s) counter else Some (s, counter)
      else Some (ds.2, counter)
  end.

Fixpoint random_data (n : nat) (r : mwc) : list Z * mwc :=
  match n with
  | O => ([], r)
  | S n => let '(x, r) := mwc32 r in let '(xs, r) := random_data n r in (s32 x :: xs, r)
  end.
End Sorting.

(** *** the three stressors; [None]: as above.  The value returned is [EXIT_SUCCESS] *)

Definition byte_remix (sort : (Z -> Z -> Z) -> list Z -> list Z * bool) (data : list Z) : list Z * bool :=
  let '(bs, ok) := sort cmp_3 (mjoin (bytes_of <$> data)) in (of_bytes bs, ok).

(** [qsort()] does not fail *)
Definition always (sort : (Z -> Z -> Z) -> list Z -> list Z) (cmp : Z -> Z -> Z) (data : list Z) : list Z * bool := (sort cmp data, true).

Definition stress_qsort (verify : bool) (keep : nat -> bool) (qsort : (Z -> Z -> Z) -> list Z -> list Z) (fuel n : nat)
    (max_ops : Z) (r : mwc) : option (rep * Z) :=
  let '(data, _) := random_data n r in
  sort_loop verify keep (always qsort) (byte_remix (always qsort)) false fuel max_ops (data, Rep [] 0) 0.

Definition stress_heapsort (verify : bool) (keep : nat -> bool) (heapsort : (Z -> Z -> Z) -> list Z -> list Z * bool) (fuel n : nat)
    (max_ops : Z) (r : mwc) : option (rep * Z) :=
  let '(data, _) := random_data n r in
  sort_loop verify keep heapsort (byte_remix heapsort) false fuel max_ops (data, Rep [] 0) 0.

(** [remix] is the sort with the comparison that answers at random *)
Definition stress_mergesort (verify : bool) (keep : nat -> bool) (mergesort : (Z -> Z -> Z) -> list Z -> list Z * bool)
    (remix : list Z -> list Z * bool) (fuel n : nat) (max_ops : Z) (r : mwc) : option (rep * Z) :=
  let '(data, _) := random_data n r in
  sort_loop verify keep mergesort remix true fuel max_ops (data, Rep [] 0) 0.

(** ** Searching *)

Section Searching.
Variable verify : bool.
Variable keep : nat -> bool.

(** *** bsearch *)

(** the macro [SETDATA()], eight times; [None]: the array is left *)
Fixpoint set_data (k : nat) (i : nat) (v prev : Z) (data : list Z) : option (nat * Z * list Z) :=
  match k with
  | O => Some (i, prev, data)
  | S k =>
      if (i <? length data)%nat then
        let d := s32 (1 + prev + (v .& 7)) in
        set_data k (S i) (v >>> 2) d (<[i := d]> data)
      else None
  end.

(** [for (i = 0; i < n;)]; eight elements are made in each round *)
Fixpoint fill_data (fuel n i : nat) (prev : Z) (data : list Z) (r : mwc) : option (list Z * mwc) :=
  if (i <? n)%nat then
    match fuel with
    | O => None
    | S fuel =>
        let '(v, r) := mwc64 r in
        '(i, prev, data) ← set_data 8 i v prev data;
        fill_data fuel n i prev data r
    end
  else Some (data, r).

(** [bsearch()] of the C library: the place found *)
Fixpoint bsearch_in (fuel : nat) (key : Z) (data : list Z) (l u : nat) : option nat :=
  match fuel with
  | O => None
  | S fuel =>
      if (l <? u)%nat then
        let idx := ((l + u) / 2)%nat in
        let c := cmp_1 key (data !!! idx) in
        if c <? 0 then bsearch_in fuel key data l idx
        else if 0 <? c then bsearch_in fuel key data (S idx) u
        else Some idx
      else None
  end.
Definition bsearch (key : Z) (data : list Z) (n : nat) : option nat := bsearch_in (S n) key data 0 n.

Definition bsearch_round (n : nat) (data : list Z) (s : rep) : rep :=
  foldl (fun s i =>
    let key := data !!! i in
    match bsearch key data n with
    | None => pr_fail verify "element not found" s
    | Some p => pr_fail (verify && negb (data !!! p =? key)) "element wrong" s
    end) s (seq 0 n).

(** [n8]: the array is a multiple of 8 *)
Definition bsearch_n8 (n : Z) : Z := (n + 7) .& Z.lnot 7.
(** *** lsearch: [root] holds the elements found so far, in the order they came *)

(** [data[i] = ((mwc32() & 0xfff) << 20) ^ i] *)
Definition search_datum (rnd : Z) (i : nat) : Z := s32 (u32 ((rnd .& 0xfff) <<< 20) .^ Z.of_nat i).

Definition lsearch (key : Z) (root : list Z) : list Z := if decide (key ∈ root) then root else root ++ [key].
Definition lfind (key : Z) (root : list Z) : option Z := if decide (key ∈ root) then Some key else None.

(** until the flag is cleared or [max] elements are made *)
Fixpoint lsearch_fill (todo i : nat) (data root : list Z) (r : mwc) (s : rep) : list Z * list Z * mwc * rep :=
  let '(go, s) := look_at keep s in
  match go, todo with
  | true, S todo =>
      let '(x, r) := mwc32 r in
      let d := search_datum x i in
      lsearch_fill todo (S i) (<[i := d]> data) (lsearch d root) r s
  | _, _ => (data, root, r, s)
  end.

Definition found_report (found : option Z) (key : Z) (s : rep) : rep :=
  match found with
  | None => pr_fail verify "element not found" s
  | Some x => pr_fail (verify && negb (x =? key)) "element wrong" s
  end.

Fixpoint find_loop (find : Z -> option Z) (todo i : nat) (data : list Z) (s : rep) : rep :=
  let '(go, s) := look_at keep s in
  match go, todo with
  | true, S todo => find_loop find todo (S i) data (found_report (find (data !!! i)) (data !!! i) s)
  | _, _ => s
  end.

Definition lsearch_round (max : nat) (data : list Z) (r : mwc) (s : rep) : list Z * mwc * rep :=
  let '(data, root, r, s) := lsearch_fill max 0 data [] r s in
  (data, r, find_loop (fun k => lfind k root) (length root) 0 data s).

(** *** tsearch: the tree is the set of the elements in it *)

(** [node k]: there is memory for the k-th node *)
Variable node : nat -> bool.

(** the data and the tree; [None]: a node could not be made *)
Fixpoint tsearch_fill (todo i : nat) (data root : list Z) (r : mwc) : option (list Z * list Z * mwc) :=
  match todo with
  | O => Some (data, root, r)
  | S todo =>
      let '(x, r) := mwc32 r in
      let d := search_datum x i in
      if decide (d ∈ root) then tsearch_fill todo (S i) (<[i := d]> data) root r
      else if node i then tsearch_fill todo (S i) (<[i := d]> data) (d :: root) r
      else None
  end.

Definition tfind (key : Z) (root : list Z) : option Z := if decide (key ∈ root) then Some key else None.

(** an element that is not there is an error *)
Fixpoint tdelete_all (data root : list Z) (s : rep) : rep :=
  match data with
  | [] => s
  | d :: data =>
      if decide (d ∈ root) then tdelete_all data (filter (fun x => x <> d) root) s
      else tdelete_all data root (pr_fail verify "element not deleted" s)
  end.

(** [None]: a node could not be made, and the stressor ends *)
Definition tsearch_round (n : nat) (data : list Z) (r : mwc) (s : rep) : option (list Z * mwc * rep) :=
  '(data, root, r) ← tsearch_fill n 0 data [] r;
  Some (data, r, tdelete_all data root (find_loop (fun k => tfind k root) n 0 data s)).

(** a do-while loop over rounds; [None]: the fuel is out *)
Fixpoint rounds_loop {A} (fuel : nat) (round : A -> rep -> option (A * rep)) (max_ops : Z) (a : A) (s : rep) (counter : Z) :
    option (rep * Z) :=
  match fuel with
  | O => None
  | S fuel =>
      match round a s with
      | None => Some (s, counter)
      | Some (a, s) =>
          let counter := u64 (counter + 1) in
          let '(go, s) := look_at keep s in
          if keep_stressing go max_ops counter then rounds_loop fuel round max_ops a s counter else Some (s, counter)
      end
  end.

Definition stress_bsearch (fuel : nat) (n : Z) (max_ops : Z) (r : mwc) : option (rep * Z) :=
  let data := repeat 0 (Z.to_nat (bsearch_n8 n)) in
  '(data, _) ← fill_data (Z.to_nat n) (Z.to_nat n) 0 0 data r;
  rounds_loop fuel (fun _ s => Some (tt, bsearch_round (Z.to_nat n) data s)) max_ops tt (Rep [] 0) 0.

Definition stress_lsearch (fuel max : nat) (max_ops : Z) (r : mwc) : option (rep * Z) :=
  rounds_loop fuel (fun '(data, r) s => let '(data, r, s) := lsearch_round max data r s in Some ((data, r), s)) max_ops
    (repeat 0 max, r) (Rep [] 0) 0.

Definition stress_tsearch (fuel n : nat) (max_ops : Z) (r : mwc) : option (rep * Z) :=
  rounds_loop fuel (fun '(data, r) s => '(data, r, s) ← tsearch_round n data r s; Some ((data, r), s)) max_ops
    (repeat 0 n, r) (Rep [] 0) 0.

(** *** hsearch: a table of at most [cap] keys with their data *)

Definition key_of (i : nat) : string := NilZero.string_of_uint (Nat.to_uint i).

Fixpoint hfind (key : string) (table : list (string * nat)) : option nat :=
  match table with
  | [] => None
  | (k, x) :: table => if String.eqb k key then Some x else hfind key table
  end.
(** a key that is there stays with its datum; [None]: the table is full *)
Definition henter (cap : nat) (key : string) (x : nat) (table : list (string * nat)) : option (list (string * nat)) :=
  match hfind key table with
  | Some _ => Some table
  | None => if (length table <? cap)%nat then Some ((key, x) :: table) else None
  end.

Fixpoint hfill (todo i cap : nat) (strdup : nat -> bool) (table : list (string * nat)) : option (list (string * nat)) :=
  match todo with
  | O => Some table
  | S todo => if strdup i then table ← henter cap (key_of i) i table; hfill todo (S i) cap strdup table else None
  end.

Fixpoint hsearch_find (todo i : nat) (table : list (string * nat)) (s : rep) : rep :=
  let '(go, s) := look_at keep s in
  match go, todo with
  | true, S todo =>
      hsearch_find todo (S i) table
        (match hfind (key_of i) table with
         | None => pr_fail verify "cannot find key" s
         | Some x => pr_fail (verify && negb (x =? i)%nat) "incorrect data" s
         end)
  | _, _ => s
  end.

(** [hcreate nel]: the capacity the library gives, at least what was asked for, if it has the memory *)
Definition stress_hsearch (hcreate : nat -> option nat) (calloc_ok : bool) (strdup : nat -> bool) (fuel max : nat) (max_ops : Z) :
    option (Z * rep * Z) :=
  match hcreate (max + max / 4)%nat with
  | None => Some (EXIT_FAILURE, Rep ["hcreate"] 0, 0)
  | Some cap =>
      if calloc_ok then
        match hfill max 0 cap strdup [] with
        | None => Some (EXIT_FAILURE, Rep [] 0, 0)
        | Some table =>
            '(s, counter) ← rounds_loop fuel (fun _ s => Some (tt, hsearch_find max 0 table s)) max_ops tt (Rep [] 0) 0;
            Some (EXIT_SUCCESS, s, counter)
        end
      else Some (EXIT_FAILURE, Rep [] 0, 0)
  end.
End Searching.

(** ** Sorting is checked exactly *)

Lemma wrong_pair_sorted bad (R : Z -> Z -> Prop) data :
  (forall x y, bad x y = false <-> R x y) -> wrong_pair bad data = false <-> Sorted R data.
Proof.
  intros H. induction data as [|x [|y rest] IH]; [split; [constructor|done]|split; [repeat constructor|done]|].
  cbn [wrong_pair] in *. rewrite orb_false_iff, IH, H. split.
  - intros [Hr Hs]. by constructor; [|constructor].
  - intros Hs. inversion Hs as [|? ? Hs' Hh]; subst. inversion Hh; subst. done.
Qed.

(** a sorting function as the library documents it, for a comparison that orders *)
Definition sorts (sort : (Z -> Z -> Z) -> list Z -> list Z * bool) : Prop :=
  forall data, (sort cmp_1 data).2 = true /\ Sorted Z.le (sort cmp_1 data).1 /\
    (sort cmp_2 data).2 = true /\ Sorted Z.ge (sort cmp_2 data).1.

Section SortingPasses.
Variable verify : bool.
Variable keep : nat -> bool.
Variable sort : (Z -> Z -> Z) -> list Z -> list Z * bool.
Variable remix : list Z -> list Z * bool.
Variable check_anyway : bool.
Hypothesis sort_ok : sorts sort.
Hypothesis remix_ok : forall data, (remix data).2 = true.

Lemma sort_check_up any ds : failures (sort_and_check verify sort cmp_1 (fun x y => y <? x) any ds).2 = failures ds.2.
Proof.
  destruct ds as [data s]. unfold sort_and_check. destruct (sort_ok data) as (H1 & H2 & _). destruct (sort cmp_1 data) as [d ok].
  cbn [fst snd] in *. subst ok. rewrite (proj2 (wrong_pair_sorted (fun x y => y <? x) Z.le d (fun x y => Z.ltb_ge y x)) H2). by rewrite andb_false_r.
Qed.

Lemma sort_check_down any ds : failures (sort_and_check verify sort cmp_2 (fun x y => x <? y) any ds).2 = failures ds.2.
Proof.
  destruct ds as [data s]. unfold sort_and_check. destruct (sort_ok data) as (_ & _ & H1 & H2). destruct (sort cmp_2 data) as [d ok].
  cbn [fst snd] in *. subst ok.
  rewrite (proj2 (wrong_pair_sorted (fun x y => x <? y) Z.ge d (fun x y => conj (fun H => Z.le_ge _ _ (proj1 (Z.ltb_ge x y) H))
    (fun H => proj2 (Z.ltb_ge x y) (Z.ge_le _ _ H)))) H2). by rewrite andb_false_r.
Qed.

Lemma sort_round_quiet ds : failures (sort_round verify keep sort remix check_anyway ds).2.2 = failures ds.2.
Proof.
  unfold sort_round. pose proof (sort_check_up false ds) as H1. destruct (sort_and_check _ _ _ _ _ ds) as [d1 s1]. cbn [snd fst] in *.
  cbn [look_at]. destruct (negb (keep (looks s1))); [done|].
  pose proof (sort_check_down false (d1, Rep (failures s1) (S (looks s1)))) as H2.
  destruct (sort_and_check _ _ _ _ _ _) as [d2 s2]. cbn [snd fst failures look_at] in *. destruct (negb (keep (looks s2))); [by cbn; rewrite H2|].
  pose proof (remix_ok d2) as Hr. destruct (remix d2) as [d3 ok]. cbn [snd] in Hr. subst ok.
  cbn [negb pr_fail]. pose proof (sort_check_down check_anyway (d3, Rep (failures s2) (S (looks s2)))) as H3.
  destruct (sort_and_check _ _ _ _ _ _) as [d4 s4]. cbn [snd fst failures] in *. by rewrite H3, H2.
Qed.

Lemma sort_loop_quiet fuel max_ops ds counter :
  0 < max_ops < 2 ^ 64 -> 0 <= counter < max_ops -> max_ops - counter <= Z.of_nat fuel ->
  exists s c, sort_loop verify keep sort remix check_anyway fuel max_ops ds counter = Some (s, c) /\
    failures s = failures ds.2 /\ counter <= c <= max_ops.
Proof.
  intros Hmax. revert ds counter. induction fuel as [|fuel IH]; intros ds counter Hc Hf; [lia|]. cbn [sort_loop].
  pose proof (sort_round_quiet ds) as Hq. destruct (sort_round _ _ _ _ _ ds) as [b [d s]]. cbn [snd fst look_at] in *.
  destruct b; [|exists s, counter; repeat split; [done|lia..]]. rewrite u64_small by (unfold fits; lia).
  unfold keep_stressing. destruct (keep (looks s) && _) eqn:Hk.
  - apply andb_true_iff in Hk as [_ Hk]. apply orb_true_iff in Hk as [Hk|Hk%Z.ltb_lt]; [unfold c_true in Hk; lia|].
    destruct (IH (d, Rep (failures s) (S (looks s))) (counter + 1)) as (s' & c & -> & Hs & Hc'); [lia..|].
    exists s', c. repeat split; [by rewrite Hs|lia..].
  - eexists _, _. split; [done|]. split; [done|lia].
Qed.
End SortingPasses.

(** what was reported stays *)
Section Growing.
Variables (verify : bool) (keep : nat -> bool) (sort : (Z -> Z -> Z) -> list Z -> list Z * bool)
  (remix : list Z -> list Z * bool) (check_anyway : bool).

Definition grows (s s' : rep) : Prop := exists more, failures s' = failures s ++ more.

Lemma grows_refl s s' : failures s' = failures s -> grows s s'.
Proof. intros H. exists []. by rewrite app_nil_r. Qed.
Lemma grows_trans s1 s2 s3 : grows s1 s2 -> grows s2 s3 -> grows s1 s3.
Proof. intros [m1 H1] [m2 H2]. exists (m1 ++ m2). by rewrite H2, H1, app_assoc. Qed.
Lemma pr_fail_grows bad what s : grows s (pr_fail bad what s).
Proof. destruct bad; [by exists [what]|by apply grows_refl]. Qed.

Lemma sort_and_check_grows cmp bad any data s : grows s (sort_and_check verify sort cmp bad any (data, s)).2.
Proof.
  unfold sort_and_check. destruct (sort cmp data) as [d ok]. cbn [snd]. eapply grows_trans; apply pr_fail_grows.
Qed.

Lemma sort_round_grows data s :
  grows (sort_and_check verify sort cmp_1 (fun x y => y <? x) false (data, s)).2 (sort_round verify keep sort remix check_anyway (data, s)).2.2.
Proof.
  unfold sort_round. destruct (sort_and_check _ _ cmp_1 _ _ _) as [d1 s1]. cbn [snd fst look_at].
  destruct (negb _); [by apply grows_refl|].
  pose proof (sort_and_check_grows cmp_2 (fun x y => x <? y) false d1 (Rep (failures s1) (S (looks s1)))) as H2.
  destruct (sort_and_check _ _ cmp_2 _ _ _) as [d2 s2]. cbn [snd fst look_at] in *. destruct (negb _); [exact H2|].
  destruct (remix d2) as [d3 ok]. set (s3 := pr_fail (negb ok) _ _).
  pose proof (sort_and_check_grows cmp_2 (fun x y => x <? y) check_anyway d3 s3) as H3.
  destruct (sort_and_check _ _ cmp_2 _ _ (d3, s3)) as [d4 s4]. cbn [snd fst] in *.
  eapply grows_trans; [exact H2|]. eapply grows_trans; [|exact H3]. apply (pr_fail_grows (negb ok) _ (Rep (failures s2) (S (looks s2)))).
Qed.

Lemma sort_loop_grows fuel max_ops data s counter s' c :
  sort_loop verify keep sort remix check_anyway fuel max_ops (data, s) counter = Some (s', c) ->
  grows (sort_and_check verify sort cmp_1 (fun x y => y <? x) false (data, s)).2 s'.
Proof.
  revert data s counter. induction fuel as [|fuel IH]; intros data s counter; [done|]. cbn [sort_loop].
  pose proof (sort_round_grows data s) as H. destruct (sort_round _ _ _ _ _ _) as [b [d1 s1]]. cbn [snd fst look_at] in *.
  destruct b; [|by intros [= <- <-]]. destruct (keep_stressing _ _ _); [|by intros [= <- <-]].
  intros Hl%IH. eapply grows_trans; [exact H|]. eapply grows_trans; [|exact Hl]. eapply grows_trans; [|apply sort_and_check_grows].
  by apply grows_refl.
Qed.

Lemma sort_loop_ends fuel max_ops ds counter :
  0 < max_ops < 2 ^ 64 -> 0 <= counter < max_ops -> max_ops - counter <= Z.of_nat fuel ->
  exists s c, sort_loop verify keep sort remix check_anyway fuel max_ops ds counter = Some (s, c).
Proof.
  intros Hmax. revert ds counter. induction fuel as [|fuel IH]; intros ds counter Hc Hf; [lia|]. cbn [sort_loop].
  destruct (sort_round _ _ _ _ _ ds) as [[] [d s]]; cbn [snd fst look_at]; [|eauto]. rewrite u64_small by (unfold fits; lia).
  unfold keep_stressing. destruct (keep (looks s) && _) eqn:Hk; [|eauto].
  apply andb_true_iff in Hk as [_ Hk]. apply orb_true_iff in Hk as [Hk|Hk%Z.ltb_lt]; [unfold c_true in Hk; lia|]. apply IH; lia.
Qed.
End Growing.

(** The three sorting stressors, with a function that sorts, end after at most the rounds
    asked for and report nothing, with [--verify] and without. *)
Theorem sorting_passes verify keep qsort heapsort mergesort remix n max_ops r :
  sorts (always qsort) -> sorts heapsort -> (forall bs, (heapsort cmp_3 bs).2 = true) ->
  sorts mergesort -> (forall data, (remix data).2 = true) -> 0 < max_ops < 2 ^ 64 ->
  Forall (fun x : option (rep * Z) => exists s c, x = Some (s, c) /\ failures s = [] /\ 0 <= c <= max_ops)
    [stress_qsort verify keep qsort (Z.to_nat max_ops) n max_ops r;
     stress_heapsort verify keep heapsort (Z.to_nat max_ops) n max_ops r;
     stress_mergesort verify keep mergesort remix (Z.to_nat max_ops) n max_ops r].
Proof.
  intros Hq Hh Hh3 Hm Hr Hmax. unfold stress_qsort, stress_heapsort, stress_mergesort. destruct (random_data n r) as [data r'].
  repeat apply Forall_cons_2; [..|apply Forall_nil_2]; apply sort_loop_quiet; try done; try lia.
  intros bs. unfold byte_remix. specialize (Hh3 (mjoin (bytes_of <$> bs))). by destruct (heapsort _ _).
Qed.

(** insertion, as a function that sorts *)
Fixpoint insert_by (cmp : Z -> Z -> Z) (x : Z) (l : list Z) : list Z :=
  match l with
  | [] => [x]
  | y :: l => if cmp x y <=? 0 then x :: y :: l else y :: insert_by cmp x l
  end.
Definition isort (cmp : Z -> Z -> Z) (l : list Z) : list Z := foldr (insert_by cmp) [] l.

Lemma insert_by_sorted cmp (R : Z -> Z -> Prop) x l :
  (forall x y, cmp x y <= 0 -> R x y) -> (forall x y, ~ cmp x y <= 0 -> R y x) -> Sorted R l -> Sorted R (insert_by cmp x l).
Proof.
  intros H1 H2 Hl. induction Hl as [|y l Hl IH Hd]; cbn [insert_by]; [repeat constructor|].
  destruct (Z.leb_spec (cmp x y) 0) as [Hc|Hc]; [constructor; [by constructor|]; constructor; by apply H1|].
  constructor; [exact IH|]. destruct Hd as [|z l Hz]; cbn [insert_by]; [constructor; apply H2; lia|].
  destruct (cmp x z <=? 0); constructor; [apply H2; lia|done].
Qed.

Lemma isort_sorts : sorts (always isort).
Proof.
  assert (forall x y, cmp_1 x y <= 0 <-> x <= y) as Hc.
  { intros x y. unfold cmp_1. destruct (Z.ltb_spec y x), (Z.ltb_spec x y); lia. }
  assert (forall cmp R, (forall x y, cmp x y <= 0 -> R x y) -> (forall x y, ~ cmp x y <= 0 -> R y x) ->
    forall l, Sorted R (isort cmp l)) as H.
  { intros cmp R H1 H2. induction l as [|x l IH]; [constructor|]. by apply insert_by_sorted. }
  intros data. split; [done|]. split; [|split; [done|]]; cbn [always fst]; apply H; intros x y; unfold cmp_2; rewrite Hc; lia.
Qed.

Lemma sorting_passes_witness :
  exists s c, stress_qsort true (fun _ => true) isort 2 20 2 mwc_init = Some (s, c) /\ failures s = [] /\ 0 <= c <= 2.
Proof.
  pose proof (sorting_passes true (fun _ => true) isort (always isort) (always isort) (fun d => (d, true)) 20 2 mwc_init
    isort_sorts isort_sorts (fun _ => eq_refl) isort_sorts (fun _ => eq_refl) ltac:(lia)) as H.
  exact (Forall_inv H).
Defined.

(** With [--verify], a sort that leaves two neighbours of the random data in the wrong order
    is always reported. *)
Theorem sorting_faults_found keep qsort n max_ops r :
  0 < max_ops < 2 ^ 64 -> ~ Sorted Z.le (qsort cmp_1 (random_data n r).1) ->
  exists s c, stress_qsort true keep qsort (Z.to_nat max_ops) n max_ops r = Some (s, c) /\ failures s <> [].
Proof.
  intros Hmax Hbad. unfold stress_qsort. destruct (random_data n r) as [data r']. cbn [fst] in Hbad.
  edestruct sort_loop_ends as (s & c & E); [exact Hmax|..]; cycle -1.
  { rewrite E. exists s, c. split; [done|]. apply sort_loop_grows in E as [more ->]. cbn [always sort_and_check].
    destruct (wrong_pair (fun x y => y <? x) (qsort cmp_1 data)) eqn:Hw.
    - cbn. done.
    - by apply (wrong_pair_sorted (fun x y => y <? x) Z.le _ (fun x y => Z.ltb_ge y x)) in Hw. }
  all: lia.
Qed.

Lemma sorting_faults_found_witness :
  exists s c, stress_qsort true (fun _ => true) (fun _ d => d) 1 20 1 mwc_init = Some (s, c) /\ failures s <> [].
Proof.
  apply (sorting_faults_found (fun _ => true) (fun _ d => d) 20 1 mwc_init); [lia|].
  intros H. apply (wrong_pair_sorted (fun x y => y <? x) Z.le _ (fun x y => Z.ltb_ge y x)) in H. vm_compute in H. discriminate H.
Defined.
