(* ===== verification/SearchProofs.v ===== *)
(** * What the searching stressors report

    - [searching_passes]: with sizes in the limits of the options (and at most 2 ^ 20 for
      tsearch) the four stressors of SortSearch.v end and report nothing: the data of
      bsearch are made inside the array, ascending and in the range of their type, and
      each element is found; lsearch finds what it entered; the elements of tsearch
      differ, and each is found and deleted; each key of hsearch has its datum.
    - [tsearch_reports_equal]: a round of tsearch reports an error exactly if two of its
      elements are equal, which sizes above 2 ^ 20 allow. *)

From Stdlib Require Import DecimalString DecimalNat DecimalFacts.
From S2P Require Import Prelude Mwc Flags Limits CpuDriver SortSearch.

(** ** Rounds that report nothing *)

Section Rounds.
Context {A : Type}.
Variables (keep : nat -> bool) (round : A -> rep -> option (A * rep)) (inv : A -> Prop).
Hypothesis quiet : forall a s a' s', inv a -> round a s = Some (a', s') -> inv a' /\ failures s' = failures s.

Lemma rounds_loop_quiet fuel max_ops a s counter :
  0 < max_ops < 2 ^ 64 -> 0 <= counter < max_ops -> max_ops - counter <= Z.of_nat fuel -> inv a ->
  exists s' c, rounds_loop keep fuel round max_ops a s counter = Some (s', c) /\ failures s' = failures s /\ counter <= c <= max_ops.
Proof.
  intros Hmax. revert a s counter. induction fuel as [|fuel IH]; intros a s counter Hc Hf Ha; [lia|]. cbn [rounds_loop].
  destruct (round a s) as [[a1 s1]|] eqn:E; [|exists s, counter; repeat split; lia].
  apply quiet in E as [Ha1 Hq]; [|done]. cbn [look_at]. rewrite u64_small by (unfold fits; lia).
  unfold keep_stressing. destruct (keep (looks s1) && _) eqn:Hk.
  - apply andb_true_iff in Hk as [_ Hk]. apply orb_true_iff in Hk as [Hk|Hk%Z.ltb_lt]; [unfold c_true in Hk; lia|].
    destruct (IH a1 (Rep (failures s1) (S (looks s1))) (counter + 1)) as (s' & c & -> & Hs & Hc'); [lia..|done|].
    exists s', c. repeat split; [by rewrite Hs|lia..].
  - eexists _, _. split; [done|]. split; [done|lia].
Qed.
End Rounds.

(** ** bsearch *)

(** the first [i] elements ascend, up to [prev] *)
Definition ascending (i : nat) (prev : Z) (data : list Z) : Prop :=
  (forall j k x y, (j < k < i)%nat -> data !! j = Some x -> data !! k = Some y -> x < y) /\
  (forall j x, (j < i)%nat -> data !! j = Some x -> x <= prev).

Lemma i32_small x : 0 <= x < 2 ^ 31 -> s32 x = x.
Proof. intros H. unfold s32. rewrite u32_small by (unfold fits; lia). by destruct (Z.ltb_spec x (2 ^ 31)); [|lia]. Qed.

Lemma ascending_step i prev d data :
  ascending i prev data -> prev < d -> (i < length data)%nat -> ascending (S i) d (<[i := d]> data).
Proof.
  intros [H1 H2] Hd Hi. split.
  - intros j k x y Hjk Hj Hk. rewrite list_lookup_insert_ne in Hj by lia. destruct (decide (k = i)) as [->|Hne].
    + rewrite list_lookup_insert_eq in Hk by done. injection Hk as <-. pose proof (H2 j x ltac:(lia) Hj). lia.
    + rewrite list_lookup_insert_ne in Hk by done. apply (H1 j k); [lia|done..].
  - intros j x Hj Hx. destruct (decide (j = i)) as [->|Hne].
    + rewrite list_lookup_insert_eq in Hx by done. injection Hx as <-. lia.
    + rewrite list_lookup_insert_ne in Hx by done. pose proof (H2 j x ltac:(lia) Hx). lia.
Qed.

Lemma set_data_ok k i v prev data :
  ascending i prev data -> 0 <= prev <= 8 * Z.of_nat i -> (i + k <= length data)%nat -> 8 * Z.of_nat (length data) < 2 ^ 31 ->
  exists p d, set_data k i v prev data = Some ((i + k)%nat, p, d) /\ ascending (i + k) p d /\
    0 <= p <= 8 * Z.of_nat (i + k) /\ length d = length data.
Proof.
  revert i v prev data. induction k as [|k IH]; intros i v prev data Ha Hp Hk Hl; cbn [set_data].
  - exists prev, data. by rewrite Nat.add_0_r.
  - destruct (Nat.ltb_spec i (length data)); [|lia].
    pose proof (land_ones_fits 3 v ltac:(lia)) as H7. unfold fits in H7. change (Z.ones 3) with 7 in H7.
    rewrite i32_small by lia. set (d := 1 + prev + _). replace (i + S k)%nat with (S i + k)%nat by lia.
    edestruct (IH (S i) (v >>> 2) d (<[i := d]> data)) as (p & d' & -> & H1 & H2 & H3);
      [eapply ascending_step; [exact Ha|lia|done]|lia|rewrite length_insert; lia|by rewrite length_insert|].
    rewrite length_insert in H3. eauto 10.
Qed.

Lemma fill_data_ok fuel n i prev data r :
  ascending i prev data -> 0 <= prev <= 8 * Z.of_nat i -> (i `mod` 8 = 0)%nat -> (length data `mod` 8 = 0)%nat ->
  (n <= length data)%nat -> 8 * Z.of_nat (length data) < 2 ^ 31 -> (n <= i + fuel)%nat ->
  exists m p d r', fill_data fuel n i prev data r = Some (d, r') /\ (n <= m)%nat /\ ascending m p d /\ length d = length data.
Proof.
  revert i prev data r. induction fuel as [|fuel IH]; intros i prev data r Ha Hp Hi Hd Hn Hl Hf.
  - cbn [fill_data]. destruct (Nat.ltb_spec i n); [lia|]. by exists i, prev, data, r.
  - cbn [fill_data]. destruct (Nat.ltb_spec i n) as [Hlt|]; [|by exists i, prev, data, r]. destruct (mwc64 r) as [v r1].
    assert (i + 8 <= length data)%nat as H8.
    { pose proof (Nat.div_mod_eq i 8). pose proof (Nat.div_mod_eq (length data) 8). lia. }
    destruct (set_data_ok 8 i v prev data Ha Hp H8 Hl) as (p & d & E & H1 & H2 & H3).
    replace (set_data 8 i v prev data) with (Some ((i + 8)%nat, p, d)). cbn [mbind option_bind].
    rewrite <- H3. apply IH; [done|done| |by rewrite H3..|lia].
    rewrite <- (Nat.mul_1_l 8) at 1. by rewrite Nat.Div0.mod_add.
Qed.

Lemma bsearch_in_finds fuel data n p j l u x :
  ascending n p data -> (n <= length data)%nat -> (l <= j < u)%nat -> (u <= n)%nat -> (u - l < fuel)%nat ->
  data !! j = Some x -> bsearch_in fuel x data l u = Some j.
Proof.
  intros Ha Hn. revert l u. induction fuel as [|fuel IH]; intros l u Hj Hu Hf Hx; [lia|]. cbn [bsearch_in].
  destruct (Nat.ltb_spec l u); [|lia]. set (m := ((l + u) / 2)%nat).
  assert (l <= m < u)%nat as Hm by (unfold m; split; [apply Nat.div_le_lower_bound|apply Nat.Div0.div_lt_upper_bound]; lia). clearbody m.
  destruct (lookup_lt_is_Some_2 data m ltac:(lia)) as [y Hy]. rewrite (list_lookup_total_correct _ _ _ Hy). unfold cmp_1.
  destruct (Nat.lt_trichotomy j m) as [Hl|[->|Hl]].
  - pose proof (proj1 Ha j m x y ltac:(lia) Hx Hy). destruct (Z.ltb_spec y x), (Z.ltb_spec x y); try lia. apply IH; [lia..|done].
  - assert (x = y) as -> by congruence. by rewrite Z.ltb_irrefl.
  - pose proof (proj1 Ha m j y x ltac:(lia) Hy Hx). destruct (Z.ltb_spec y x); try lia. apply IH; [lia..|done].
Qed.

Lemma bsearch_round_quiet verify n data p s : ascending n p data -> (n <= length data)%nat -> failures (bsearch_round verify n data s) = failures s.
Proof.
  intros Ha Hn. unfold bsearch_round. assert (forall i, i ∈ seq 0 n -> (i < n)%nat) as Hin by (intros i Hi%elem_of_seq; lia).
  revert s. induction (seq 0 n) as [|i l IH]; intros s; [done|]. cbn [foldl]. rewrite IH by (intros; apply Hin; set_solver).
  destruct (lookup_lt_is_Some_2 data i) as [x Hx]; [pose proof (Hin i ltac:(set_solver)); lia|].
  rewrite (list_lookup_total_correct _ _ _ Hx). unfold bsearch.
  rewrite (bsearch_in_finds (S n) data n p i 0 n x); [|done..| |lia|lia|done]; [|pose proof (Hin i ltac:(set_solver)); lia].
  by rewrite (list_lookup_total_correct _ _ _ Hx), Z.eqb_refl, andb_false_r.
Qed.

(** ** lsearch *)

(** what [find_loop] reports of elements that are all found *)
Lemma find_loop_quiet verify keep find todo i data s :
  (i + todo <= length data)%nat -> (forall j x, (j < i + todo)%nat -> data !! j = Some x -> find x = Some x) ->
  failures (find_loop verify keep find todo i data s) = failures s.
Proof.
  revert i s. induction todo as [|todo IH]; intros i s Hl Hf; cbn [find_loop look_at]; destruct (keep (looks s)); try done.
  destruct (lookup_lt_is_Some_2 data i ltac:(lia)) as [x Hx]. rewrite (list_lookup_total_correct _ _ _ Hx), (Hf i x) by (done || lia).
  rewrite IH by (intros; try apply (Hf j); (done || lia)). cbn [found_report]. by rewrite Z.eqb_refl, andb_false_r.
Qed.

(** the first [i] elements are in the table *)
Definition entered (i : nat) (data root : list Z) : Prop := forall j x, (j < i)%nat -> data !! j = Some x -> x ∈ root.

Lemma entered_step i d data root root' :
  entered i data root -> (i < length data)%nat -> d ∈ root' -> root ⊆ root' -> entered (S i) (<[i := d]> data) root'.
Proof.
  intros H Hi Hd Hs j x Hj Hx. destruct (decide (j = i)) as [->|Hne].
  - rewrite list_lookup_insert_eq in Hx by done. by injection Hx as <-.
  - rewrite list_lookup_insert_ne in Hx by done. apply Hs, (H j); [lia|done].
Qed.

Lemma lsearch_fill_ok keep todo i data root r s :
  (i + todo <= length data)%nat -> entered i data root -> (length root <= i)%nat ->
  let '(data', root', _, s') := lsearch_fill keep todo i data root r s in
  length data' = length data /\ failures s' = failures s /\ exists k, (k <= length data)%nat /\ (length root' <= k)%nat /\ entered k data' root'.
Proof.
  revert i data root r s. induction todo as [|todo IH]; intros i data root r s Hl He Hr; cbn [lsearch_fill look_at]; destruct (keep (looks s));
    try (split; [done|]; split; [done|]; exists i; split; [lia|done]).
  destruct (mwc32 r) as [x r1]. set (d := search_datum x i).
  specialize (IH (S i) (<[i := d]> data) (lsearch d root) r1 (Rep (failures s) (S (looks s)))). rewrite length_insert in IH.
  destruct (lsearch_fill _ _ _ _ _ _ _) as [[[data' root'] r'] s']. cbn [failures] in IH. apply IH; [lia|..].
  - apply entered_step with root; [done|lia|..]; unfold lsearch; case_decide; set_solver.
  - unfold lsearch. case_decide; [|rewrite length_app; cbn [length]]; lia.
Qed.

Lemma lsearch_round_quiet verify keep max data r s :
  length data = max -> let '(data', _, s') := lsearch_round verify keep max data r s in length data' = max /\ failures s' = failures s.
Proof.
  intros <-. unfold lsearch_round.
  pose proof (lsearch_fill_ok keep (length data) 0 data [] r s (le_n _) ltac:(intros ? ? ?; lia) (le_n _)) as H.
  destruct (lsearch_fill _ _ _ _ _ _ _) as [[[data' root'] r'] s']. destruct H as (Hl & Hs & k & Hk & Hr & He). split; [done|].
  rewrite find_loop_quiet; [done|lia|]. intros j x Hj Hx. unfold lfind. rewrite decide_True; [done|]. apply (He j); [lia|done].
Qed.

(** ** tsearch *)

Lemma i32_mod x n : 0 <= n <= 32 -> s32 x mod 2 ^ n = x mod 2 ^ n.
Proof.
  intros Hn. assert (2 ^ 32 = 2 ^ (32 - n) * 2 ^ n) as E by (rewrite <- Z.pow_add_r by lia; f_equal; lia).
  assert (u32 x mod 2 ^ n = x mod 2 ^ n) as Hu.
  { unfold u32. rewrite E. apply Z.mod_mod_divide. exists (2 ^ (32 - n)). lia. }
  unfold s32. destruct (_ <? _); [done|]. rewrite E, <- Hu.
  replace (u32 x - _) with (u32 x + (- 2 ^ (32 - n)) * 2 ^ n) by lia. apply Z.mod_add. lia.
Qed.

Lemma search_datum_low x i : Z.of_nat i < 2 ^ 20 -> search_datum x i mod 2 ^ 20 = Z.of_nat i.
Proof.
  intros Hi. unfold search_datum. rewrite i32_mod, <- Z.land_ones by lia.
  apply Z.bits_inj'. intros k Hk. rewrite Z.land_spec, Z.testbit_ones_nonneg, Z.lxor_spec by lia.
  destruct (Z.ltb_spec k 20) as [H|H].
  - unfold u32. rewrite andb_true_r, Z.mod_pow2_bits_low, Z.shiftl_spec_low by lia. by rewrite xorb_false_l.
  - rewrite andb_false_r. symmetry. destruct (decide (Z.of_nat i = 0)) as [->|Hne]; [apply Z.bits_0|].
    apply Z.bits_above_log2; [lia|]. apply Z.log2_lt_pow2; [lia|]. eapply Z.lt_le_trans; [exact Hi|]. by apply Z.pow_le_mono_r.
Qed.

(** elements 2 ^ 20 apart can be equal *)
Lemma search_datum_again x y i j :
  Z.of_nat i < 2 ^ 20 -> Z.of_nat j = Z.of_nat i + 2 ^ 20 -> y .& 0xfff = (x .& 0xfff) .^ 1 -> search_datum y j = search_datum x i.
Proof.
  intros Hi Hj Hy. unfold search_datum. rewrite Hy. f_equal.
  assert (Z.of_nat j = (1 <<< 20) .^ Z.of_nat i) as ->.
  { rewrite Hj. change (2 ^ 20) with (1 <<< 20). rewrite Z.add_comm, Z.add_nocarry_lxor; [done|].
    apply Z.bits_inj'. intros k Hk. rewrite Z.land_spec, Z.bits_0. destruct (Z.ltb_spec k 20).
    - by rewrite Z.shiftl_spec_low.
    - rewrite (Z.bits_above_log2 (Z.of_nat i)), andb_false_r; [done|lia|]. destruct (decide (Z.of_nat i = 0)) as [->|]; [change (Z.log2 0) with 0; lia|].
      apply Z.log2_lt_pow2; [lia|]. eapply Z.lt_le_trans; [exact Hi|]. by apply Z.pow_le_mono_r. }
  rewrite <- Z.lxor_assoc. f_equal. rewrite Z.shiftl_lxor. unfold u32.
  apply Z.bits_inj'. intros k Hk. rewrite Z.lxor_spec. destruct (Z.ltb_spec k 32).
  - rewrite !Z.mod_pow2_bits_low, Z.lxor_spec, xorb_assoc, xorb_nilpotent by lia. apply xorb_false_r.
  - rewrite !Z.mod_pow2_bits_high by lia. rewrite xorb_false_l. apply Z.bits_above_log2; [done|]. change (Z.log2 (1 <<< 20)) with 20. lia.
Qed.

(** the elements differ, and are the ones in the tree *)
Lemma tsearch_fill_ok node todo i data root r data' root' r' :
  tsearch_fill node todo i data root r = Some (data', root', r') -> (i + todo = length data)%nat -> entered i data root ->
  (forall d, d ∈ root -> exists j, (j < i)%nat /\ data !! j = Some d) ->
  length data' = length data /\ (forall d, d ∈ root' <-> d ∈ data').
Proof.
  revert i data root r. induction todo as [|todo IH]; intros i data root r; cbn [tsearch_fill].
  - intros [= <- <- <-] Hl He Hr. split; [done|]. intros d. split.
    + intros (j & _ & Hj)%Hr. by eapply list_elem_of_lookup_2.
    + intros [j Hj]%list_elem_of_lookup. apply (He j); [|done]. apply lookup_lt_Some in Hj. lia.
  - destruct (mwc32 r) as [x r1]. set (d := search_datum x i). intros H Hl He Hr.
    assert (forall root1, tsearch_fill node todo (S i) (<[i := d]> data) root1 r1 = Some (data', root', r') -> d ∈ root1 -> root ⊆ root1 ->
      (forall d', d' ∈ root1 -> d' = d \/ d' ∈ root) -> length data' = length data /\ (forall d, d ∈ root' <-> d ∈ data')) as Hgo.
    { intros root1 H1 Hd Hsub Hsup. rewrite <- (length_insert data i d). eapply IH; [exact H1|rewrite length_insert; lia|..].
      - apply entered_step with root; [done|lia|done..].
      - intros d' [-> | (j & Hj & Hd')%Hr]%Hsup; [exists i; split; [lia|apply list_lookup_insert_eq; lia]|].
        exists j. split; [lia|]. by rewrite list_lookup_insert_ne by lia. }
    case_decide as Hin; [by apply (Hgo root); [| |set_solver..]|]. destruct (node i); [|done].
    apply (Hgo (d :: root)); [done|set_solver..].
Qed.

Lemma tsearch_fill_distinct node todo i data root r data' root' r' :
  tsearch_fill node todo i data root r = Some (data', root', r') -> (i + todo = length data)%nat -> Z.of_nat (length data) <= 2 ^ 20 ->
  (forall j x, (j < i)%nat -> data !! j = Some x -> x mod 2 ^ 20 = Z.of_nat j) -> NoDup data'.
Proof.
  revert i data root r. induction todo as [|todo IH]; intros i data root r; cbn [tsearch_fill].
  - intros [= <- <- <-] Hl Hn Hd. apply NoDup_alt. intros j k x Hj Hk.
    pose proof (Hd j x ltac:(apply lookup_lt_Some in Hj; lia) Hj). pose proof (Hd k x ltac:(apply lookup_lt_Some in Hk; lia) Hk). lia.
  - destruct (mwc32 r) as [x r1]. intros H Hl Hn Hd.
    assert (forall root1, tsearch_fill node todo (S i) (<[i := search_datum x i]> data) root1 r1 = Some (data', root', r') -> NoDup data') as Hgo.
    { intros root1 H1. eapply IH; [exact H1|rewrite length_insert; lia..|]. intros j y Hj Hy. destruct (decide (j = i)) as [->|Hne].
      - rewrite list_lookup_insert_eq in Hy by lia. injection Hy as <-. apply search_datum_low. lia.
      - rewrite list_lookup_insert_ne in Hy by done. apply (Hd j); [lia|done]. }
    case_decide; [by eapply Hgo|]. destruct (node i); [by eapply Hgo|done].
Qed.

Lemma tdelete_all_grows verify data root s : grows s (tdelete_all verify data root s).
Proof.
  revert root s. induction data as [|d data IH]; intros root s; cbn [tdelete_all]; [by apply grows_refl|].
  case_decide; [apply IH|]. eapply grows_trans; [apply pr_fail_grows|apply IH].
Qed.

Lemma grows_more s what s' : grows (pr_fail true what s) s' -> failures s' <> failures s.
Proof. intros [more ->]. cbn. rewrite <- app_assoc. intros H%(f_equal length). rewrite length_app in H. cbn in H. lia. Qed.

(** with [--verify] the deletions are silent exactly if the elements differ *)
Lemma tdelete_all_silent data root s :
  (forall d, d ∈ data -> d ∈ root) -> failures (tdelete_all true data root s) = failures s <-> NoDup data.
Proof.
  assert (forall data root s, failures (tdelete_all true data root s) = failures s <-> NoDup data /\ forall d, d ∈ data -> d ∈ root) as H.
  { clear. induction data as [|d data IH]; intros root s; cbn [tdelete_all].
    - split; [|done]. intros _. split; [constructor|]. set_solver.
    - case_decide as Hd.
      + rewrite IH, NoDup_cons. setoid_rewrite list_elem_of_filter. set_solver.
      + split; [|intros [_ H]; set_solver]. intros H. exfalso. eapply grows_more; [|exact H]. apply tdelete_all_grows. }
  intros Hd. rewrite H. naive_solver.
Qed.

Lemma tdelete_all_quiet verify data root s :
  NoDup data -> (forall d, d ∈ data -> d ∈ root) -> failures (tdelete_all verify data root s) = failures s.
Proof.
  intros Hn Hd. destruct verify; [by apply tdelete_all_silent|]. clear Hn Hd. revert root s.
  induction data as [|d data IH]; intros root s; cbn [tdelete_all pr_fail]; [done|]. case_decide; apply IH.
Qed.

Section Tsearch.
Variables (verify : bool) (keep node : nat -> bool).

Lemma tsearch_found n data root s :
  length data = n -> (forall d, d ∈ root <-> d ∈ data) -> failures (find_loop verify keep (fun k => tfind k root) n 0 data s) = failures s.
Proof.
  intros <- Hr. apply find_loop_quiet; [lia|]. intros j x _ Hx. unfold tfind. rewrite decide_True; [done|].
  apply Hr. by eapply list_elem_of_lookup_2.
Qed.

Lemma tsearch_round_quiet n data r s data' r' s' :
  Z.of_nat n <= 2 ^ 20 -> length data = n -> tsearch_round verify keep node n data r s = Some (data', r', s') ->
  length data' = n /\ failures s' = failures s.
Proof.
  intros Hn Hl. unfold tsearch_round. destruct (tsearch_fill _ _ _ _ _ _) as [[[d1 root] r1]|] eqn:E; [|done]. cbn. intros [= <- <- <-].
  pose proof (tsearch_fill_distinct _ _ _ _ _ _ _ _ _ E ltac:(lia) ltac:(lia) ltac:(intros; lia)) as Hd.
  apply tsearch_fill_ok in E as [E1 E2]; [|lia|intros ? ? ?; lia|set_solver]. split; [lia|].
  rewrite tdelete_all_quiet; [|done|intros d; apply E2]. apply tsearch_found; [lia|done].
Qed.
End Tsearch.

(** ** hsearch *)

Lemma key_of_inj i j : key_of i = key_of j -> i = j.
Proof.
  assert (forall k, Nat.to_uint k <> Decimal.Nil) as Hn by (intros k; rewrite <- (Unsigned.of_to k), Unsigned.to_of; apply unorm_nonnil).
  unfold key_of. intros H%(f_equal NilZero.uint_of_string). rewrite !NilZero.usu in H by apply Hn.
  injection H as H. by apply Unsigned.to_uint_inj.
Qed.

(** the table holds the first [i] keys *)
Definition table_of (i : nat) (table : list (string * nat)) : Prop :=
  length table = i /\ forall j, hfind (key_of j) table = if (j <? i)%nat then Some j else None.

Lemma hfill_ok todo i cap strdup table :
  table_of i table -> (i + todo <= cap)%nat -> (forall j, (j < i + todo)%nat -> strdup j = true) ->
  exists table', hfill todo i cap strdup table = Some table' /\ table_of (i + todo) table'.
Proof.
  revert i table. induction todo as [|todo IH]; intros i table [Hl Ht] Hc Hs; cbn [hfill].
  - exists table. by rewrite Nat.add_0_r.
  - rewrite Hs by lia. unfold henter. rewrite Ht. destruct (Nat.ltb_spec i i); [lia|]. destruct (Nat.ltb_spec (length table) cap); [|lia].
    cbn [mbind option_bind]. replace (i + S todo)%nat with (S i + todo)%nat by lia.
    apply IH; [|lia|intros; apply Hs; lia]. split; [cbn; lia|]. intros j. cbn [hfind]. rewrite Ht.
    destruct (String.eqb_spec (key_of i) (key_of j)) as [->%key_of_inj|Hne]; [by destruct (Nat.ltb_spec j (S j)); [|lia]|].
    destruct (Nat.ltb_spec j i), (Nat.ltb_spec j (S i)); try done; [lia|]. by assert (i = j) as -> by lia.
Qed.

Lemma hsearch_find_quiet verify keep todo i table s :
  table_of (i + todo) table -> failures (hsearch_find verify keep todo i table s) = failures s.
Proof.
  revert i s. induction todo as [|todo IH]; intros i s Ht; cbn [hsearch_find look_at]; destruct (keep (looks s)); try done.
  rewrite IH by by rewrite Nat.add_succ_comm. rewrite (proj2 Ht). destruct (Nat.ltb_spec i (i + S todo)); [|lia].
  by rewrite Nat.eqb_refl, andb_false_r.
Qed.

(** ** What the stressors report *)

(** a stressor came to its end, within the rounds asked for, with nothing reported *)
Definition silent_end (max_ops : Z) (x : option (rep * Z)) : Prop :=
  exists s c, x = Some (s, c) /\ failures s = [] /\ 0 <= c <= max_ops.

Lemma bsearch_silent verify keep n max_ops r :
  0 <= n <= MAX_BSEARCH_SIZE -> 0 < max_ops < 2 ^ 64 -> silent_end max_ops (stress_bsearch verify keep (Z.to_nat max_ops) n max_ops r).
Proof.
  intros Hn Hmax. unfold stress_bsearch. change MAX_BSEARCH_SIZE with (2 ^ 22) in Hn.
  assert (bsearch_n8 n = 8 * ((n + 7) / 8)) as H8.
  { unfold bsearch_n8. change (Z.lnot 7) with (Z.lnot (Z.ones 3)). rewrite <- Z.ldiff_land, Z.ldiff_ones_r, Z.shiftr_div_pow2, Z.shiftl_mul_pow2 by lia.
    change (2 ^ 3) with 8. lia. }
  pose proof (Z.div_mod (n + 7) 8 ltac:(lia)). pose proof (Z.mod_pos_bound (n + 7) 8 ltac:(lia)).
  destruct (fill_data_ok (Z.to_nat n) (Z.to_nat n) 0 0 (repeat 0 (Z.to_nat (bsearch_n8 n))) r) as (m & p & d & r' & -> & Hm & Ha & Hl).
  - split; intros; lia.
  - lia.
  - done.
  - rewrite repeat_length, H8, Z2Nat.inj_mul by lia. change (Z.to_nat 8) with 8%nat. rewrite Nat.mul_comm. apply Nat.Div0.mod_mul.
  - rewrite repeat_length. lia.
  - rewrite repeat_length. lia.
  - lia.
  - cbn [mbind option_bind]. rewrite repeat_length in Hl.
    apply (rounds_loop_quiet keep _ (fun _ => True)) with (s := Rep [] 0) (counter := 0); [|lia..|done].
    intros [] s [] s' _ [= <-]. split; [done|]. apply (bsearch_round_quiet _ _ _ p); [|lia]. destruct Ha as [Ha1 Ha2].
    split; intros; [eapply Ha1|eapply Ha2]; [|done..| |done]; lia.
Qed.

(** (C31) The searching stressors come to their end, within the [max_ops] rounds asked for (there is a limit of operations), and report
    nothing, with or without [--verify]: bsearch with at most [MAX_BSEARCH_SIZE] elements, lsearch with any number, tsearch
    with at most 2 ^ 20 elements (the option allows four times as many, with which it may
    report errors: [tsearch_reports_equal]), whatever nodes it gets no memory for, and hsearch when [hcreate()] succeeds with room for all
    keys, [calloc()] succeeds and every [strdup()] does. *)
Theorem searching_passes verify keep node hcreate strdup n max nt nh max_ops r :
  0 <= n <= MAX_BSEARCH_SIZE -> Z.of_nat nt <= 2 ^ 20 ->
  (exists cap, hcreate (nh + nh / 4)%nat = Some cap /\ nh <= cap)%nat -> (forall i, strdup i = true) -> 0 < max_ops < 2 ^ 64 ->
  silent_end max_ops (stress_bsearch verify keep (Z.to_nat max_ops) n max_ops r) /\
  silent_end max_ops (stress_lsearch verify keep (Z.to_nat max_ops) max max_ops r) /\
  silent_end max_ops (stress_tsearch verify keep node (Z.to_nat max_ops) nt max_ops r) /\
  exists s c, stress_hsearch verify keep hcreate true strdup (Z.to_nat max_ops) nh max_ops = Some (EXIT_SUCCESS, s, c) /\
    failures s = [] /\ 0 <= c <= max_ops.
Proof.
  intros Hn Ht (cap & Hcap & Hle) Hs Hmax. repeat apply conj.
  - by apply bsearch_silent.
  - apply (rounds_loop_quiet keep _ (fun a => length a.1 = max)) with (s := Rep [] 0) (counter := 0); [|lia..|apply repeat_length].
    intros [d r1] s a' s' Hl E. pose proof (lsearch_round_quiet verify keep max d r1 s Hl) as H.
    destruct (lsearch_round _ _ _ _ _ _) as [[d' r'] s1]. by injection E as <- <-.
  - apply (rounds_loop_quiet keep _ (fun a => length a.1 = nt)) with (s := Rep [] 0) (counter := 0); [|lia..|apply repeat_length].
    intros [d r1] s a' s' Hl E. destruct (tsearch_round _ _ _ _ _ _ _) as [[[d' r'] s1]|] eqn:E1; [|done]. injection E as <- <-.
    by eapply tsearch_round_quiet.
  - unfold stress_hsearch. rewrite Hcap. destruct (hfill_ok nh 0 cap strdup []) as (table & -> & Htab); [done|lia|by intros; apply Hs|].
    edestruct (rounds_loop_quiet keep (fun _ s => Some (tt, hsearch_find verify keep nh 0 table s)) (fun _ => True))
      with (fuel := Z.to_nat max_ops) (max_ops := max_ops) (a := tt) (s := Rep [] 0) (counter := 0) as (s & c & -> & H1 & H2); [|lia..|done|].
    + intros [] s [] s' _ [= <-]. split; [done|]. by apply hsearch_find_quiet.
    + by exists s, c.
Qed.

Lemma searching_passes_witness : silent_end 1 (stress_bsearch true (fun _ => true) 1 100 1 mwc_init).
Proof.
  apply (searching_passes true (fun _ => true) (fun _ => true) Some (fun _ => true) 100 5 5 5 1 mwc_init);
    [change MAX_BSEARCH_SIZE with (2 ^ 22); lia|lia|exists 6%nat; split; [reflexivity|lia]|reflexivity|lia].
Defined.

(** With [--verify] a round of the tsearch stressor (whose data are as long as asked for)
    reports something exactly if two of the elements it made are equal; below 2 ^ 20
    elements this cannot be, but elements 2 ^ 20 apart are equal for some random numbers. *)
Theorem tsearch_reports_equal keep node n data r s data' r' s' :
  length data = n -> tsearch_round true keep node n data r s = Some (data', r', s') ->
  (failures s' = failures s <-> NoDup data') /\ (Z.of_nat n <= 2 ^ 20 -> NoDup data') /\
  forall i j x y, Z.of_nat i < 2 ^ 20 -> Z.of_nat j = Z.of_nat i + 2 ^ 20 -> y .& 0xfff = (x .& 0xfff) .^ 1 ->
    search_datum y j = search_datum x i.
Proof.
  intros Hl. unfold tsearch_round. destruct (tsearch_fill _ _ _ _ _ _) as [[[d1 root] r1]|] eqn:E; [|done]. cbn. intros [= <- <- <-].
  split; [|split; [|intros; by apply search_datum_again]].
  - apply tsearch_fill_ok in E as [E1 E2]; [|lia|intros ? ? ?; lia|set_solver].
    rewrite <- (tsearch_found true keep n d1 root s) by (lia || done). apply tdelete_all_silent. intros d. apply E2.
  - intros Hn. eapply tsearch_fill_distinct; [exact E|lia..|]. intros; lia.
Qed.

Lemma tsearch_reports_equal_witness :
  exists d r s, tsearch_round true (fun _ => true) (fun _ => true) 3 [0; 0; 0] mwc_init (Rep [] 0) = Some (d, r, s) /\ (failures s = [] <-> NoDup d).
Proof.
  assert (exists d r s, tsearch_round true (fun _ => true) (fun _ => true) 3 [0; 0; 0] mwc_init (Rep [] 0) = Some (d, r, s)) as (d & r & s & E)
    by (vm_compute; eauto).
  exists d, r, s. split; [exact E|]. exact (proj1 (tsearch_reports_equal (fun _ => true) (fun _ => true) 3 [0; 0; 0] mwc_init (Rep [] 0) d r s eq_refl E)).
Defined.
