(* ===== verification/EnclaveCpu.v ===== *)
(** * The CPU stressor in an enclave (sgx/enclave_cpu, stress-sgx.c)

    The enclave has its own copy of the methods: the text of [stress-cpu.c]
    without rand48 and sieve, and with a method of its own that leaves the enclave
    and returns.  So the copies are the methods of [Cpu] and [CpuFloat], with a
    [double] of its own for [double_put()], and what is shown of these holds of the
    copies.  [__muldc3()] of [companion.h] is the enclave's product of complex
    numbers.  The entry points of the enclave and
    [stress_sgx()], which creates and enters it, are modelled in full; whether it
    can be created and entered is up to the SGX library. *)

From S2P Require Import Prelude Flags Limits Mwc Float Cpu CpuSelf CpuFloat FloatChecks CpuDriver Outcome ParseOpts Settings MethodsError Setters SgxUtils Named CpuTable.

(** ** The trusted copies *)

Definition enclave_stress_cpu_ackermann : cpu_func := stress_cpu_ackermann.
Definition enclave_stress_cpu_bitops : cpu_func := stress_cpu_bitops.
Definition enclave_stress_cpu_crc16 : cpu_func := stress_cpu_crc16.
Definition enclave_stress_cpu_djb2a : cpu_func := stress_cpu_djb2a.
Definition enclave_stress_cpu_fibonacci : cpu_func := stress_cpu_fibonacci.
Definition enclave_stress_cpu_fnv1a : cpu_func := stress_cpu_fnv1a.
Definition enclave_stress_cpu_gcd : cpu_func := stress_cpu_gcd.
Definition enclave_stress_cpu_gray : cpu_func := stress_cpu_gray.
Definition enclave_stress_cpu_hamming : cpu_func := stress_cpu_hamming.
Definition enclave_stress_cpu_hanoi : cpu_func := stress_cpu_hanoi.
Definition enclave_stress_cpu_int128 : cpu_func := stress_cpu_int128.
Definition enclave_stress_cpu_int64 : cpu_func := stress_cpu_int64.
Definition enclave_stress_cpu_int32 : cpu_func := stress_cpu_int32.
Definition enclave_stress_cpu_int16 : cpu_func := stress_cpu_int16.
Definition enclave_stress_cpu_int8 : cpu_func := stress_cpu_int8.
Definition enclave_stress_cpu_jenkin : cpu_func := stress_cpu_jenkin.
Definition enclave_stress_cpu_jmp : cpu_func := stress_cpu_jmp.
Definition enclave_stress_cpu_loop : cpu_func := stress_cpu_loop.
Definition enclave_stress_cpu_parity : cpu_func := stress_cpu_parity.
Definition enclave_stress_cpu_pjw : cpu_func := stress_cpu_pjw.
Definition enclave_stress_cpu_prime : cpu_func := stress_cpu_prime.
Definition enclave_stress_cpu_queens : cpu_func := stress_cpu_queens.
Definition enclave_stress_cpu_rand : cpu_func := stress_cpu_rand.
Definition enclave_stress_cpu_sdbm : cpu_func := stress_cpu_sdbm.

(** the call out of the enclave *)
Definition ocall_dummy (param : Z) : Z := u64 (param + 1).

(** [status] is the outcome of the transition, [junk] what is in the variable when it fails *)
Definition stress_cpu_enclave_transitions (status junk : Z) : cpu_func := fun verify s =>
  let result := if status =? 0 then ocall_dummy 10000 else junk in
  let s := check_fail verify (negb (status =? 0)) "OCALL status" s in
  let s := uint64_put result s in
  check_fail verify (negb (put_val s =? 10001)) "OCALL" s.

(** [static int i] of the enclave's own copy *)
Definition enclave_stress_cpu_all : list (string * cpu_func) -> cpu_func := stress_cpu_all.

(** [__muldc3()]: the product of [a + b i] and [c + d i], where a NaN in both parts is
    mended when an operand or a product is infinite; a NaN here has no sign *)
Definition is_nan (x : spec_float) : bool := match x with S754_nan => true | _ => false end.
Definition is_inf (x : spec_float) : bool := match x with S754_infinity _ => true | _ => false end.
Definition crt_copysign (x y : spec_float) : spec_float :=
  let neg := match y with S754_zero s | S754_infinity s | S754_finite s _ _ => s | S754_nan => false end in
  if neg then fopp (fabs_ x) else fabs_ x.

(** 1 or 0 with the sign, and 0 with the sign for a NaN *)
Definition boxed (x : spec_float) : spec_float := crt_copysign (if is_inf x then of_int D 1 else fzero) x.
Definition cleared_nan (x : spec_float) : spec_float := if is_nan x then crt_copysign fzero x else x.

Definition muldc3 (x y : cplx) : cplx :=
  let '(a, b, (c, d)) := (x, y) in
  let ac := fmul D a c in
  let bd := fmul D b d in
  let ad := fmul D a d in
  let bc := fmul D b c in
  let z := (fsub D ac bd, fadd D ad bc) in
  if is_nan z.1 && is_nan z.2 then
    let first := is_inf a || is_inf b in
    let '(a, b, c, d) := if first then (boxed a, boxed b, cleared_nan c, cleared_nan d) else (a, b, c, d) in
    let second := is_inf c || is_inf d in
    let '(a, b, c, d) := if second then (cleared_nan a, cleared_nan b, boxed c, boxed d) else (a, b, c, d) in
    let third := negb (first || second) && (is_inf ac || is_inf bd || is_inf ad || is_inf bc) in
    let '(a, b, c, d) := if third then (cleared_nan a, cleared_nan b, cleared_nan c, cleared_nan d) else (a, b, c, d) in
    if first || second || third then
      (fmul D (S754_infinity false) (fsub D (fmul D a c) (fmul D b d)),
       fmul D (S754_infinity false) (fadd D (fmul D a d) (fmul D b c)))
    else z
  else z.

Section EnclaveTable.
Variable m : libm.
Variable defined : string -> bool.
Variables decimal32 decimal64 decimal128 : arith.
Variable look : nat -> bool.
Variables (frame : nat -> Z) (here : Z).
Variables status junk : Z.

Definition enclave_stress_cpu_callfunc : cpu_func := stress_cpu_callfunc frame here.
Definition enclave_stress_cpu_complex_double : cpu_func := stress_cpu_complex_double m defined false.
Definition enclave_stress_cpu_complex_float : cpu_func := stress_cpu_complex_float m defined false.
Definition enclave_stress_cpu_complex_long_double : cpu_func := stress_cpu_complex_long_double m defined false.
Definition enclave_stress_cpu_correlate : cpu_func := stress_cpu_correlate false.
Definition enclave_stress_cpu_decimal32 : cpu_func := stress_cpu_decimal32 false decimal32.
Definition enclave_stress_cpu_decimal64 : cpu_func := stress_cpu_decimal64 false decimal64.
Definition enclave_stress_cpu_decimal128 : cpu_func := stress_cpu_decimal128 false decimal128.
Definition enclave_stress_cpu_dither : cpu_func := stress_cpu_dither.
Definition enclave_stress_cpu_double : cpu_func := stress_cpu_double m defined false.
Definition enclave_stress_cpu_euler : cpu_func := stress_cpu_euler.
Definition enclave_stress_cpu_explog : cpu_func := stress_cpu_explog m.
Definition enclave_stress_cpu_fft : cpu_func := stress_cpu_fft m.
Definition enclave_stress_cpu_factorial : cpu_func := stress_cpu_factorial m defined.
Definition enclave_stress_cpu_float : cpu_func := stress_cpu_float m defined false.
Definition enclave_stress_cpu_gamma : cpu_func := stress_cpu_gamma m defined false.
Definition enclave_stress_cpu_hyperbolic : cpu_func := stress_cpu_hyperbolic m defined false.
Definition enclave_stress_cpu_idct : cpu_func := stress_cpu_idct m look.
Definition enclave_stress_cpu_int128_float : cpu_func := stress_cpu_int128_float m defined false.
Definition enclave_stress_cpu_int128_double : cpu_func := stress_cpu_int128_double m defined false.
Definition enclave_stress_cpu_int128_longdouble : cpu_func := stress_cpu_int128_longdouble m defined false.
Definition enclave_stress_cpu_int64_float : cpu_func := stress_cpu_int64_float m defined false.
Definition enclave_stress_cpu_int64_double : cpu_func := stress_cpu_int64_double m defined false.
Definition enclave_stress_cpu_int64_longdouble : cpu_func := stress_cpu_int64_longdouble m defined false.
Definition enclave_stress_cpu_int32_float : cpu_func := stress_cpu_int32_float m defined false.
Definition enclave_stress_cpu_int32_double : cpu_func := stress_cpu_int32_double m defined false.
Definition enclave_stress_cpu_int32_longdouble : cpu_func := stress_cpu_int32_longdouble m defined false.
Definition enclave_stress_cpu_int128_decimal32 : cpu_func := stress_cpu_int128_decimal32 false decimal32.
Definition enclave_stress_cpu_int128_decimal64 : cpu_func := stress_cpu_int128_decimal64 false decimal64.
Definition enclave_stress_cpu_int128_decimal128 : cpu_func := stress_cpu_int128_decimal128 false decimal128.
Definition enclave_stress_cpu_ln2 : cpu_func := stress_cpu_ln2 false.
Definition enclave_stress_cpu_longdouble : cpu_func := stress_cpu_longdouble m defined false.
Definition enclave_stress_cpu_matrix_prod : cpu_func := stress_cpu_matrix_prod false.
Definition enclave_stress_cpu_nsqrt : cpu_func := stress_cpu_nsqrt defined.
Definition enclave_stress_cpu_omega : cpu_func := stress_cpu_omega m defined false.
Definition enclave_stress_cpu_phi : cpu_func := stress_cpu_phi defined.
Definition enclave_stress_cpu_pi : cpu_func := stress_cpu_pi m defined false.
Definition enclave_stress_cpu_psi : cpu_func := stress_cpu_psi false.
Definition enclave_stress_cpu_rgb : cpu_func := stress_cpu_rgb.
Definition enclave_stress_cpu_stats : cpu_func := stress_cpu_stats m false.
Definition enclave_stress_cpu_sqrt : cpu_func := stress_cpu_sqrt look.
Definition enclave_stress_cpu_trig : cpu_func := stress_cpu_trig m defined false.
Definition enclave_stress_cpu_union : cpu_func := stress_cpu_union.
Definition enclave_stress_cpu_zeta : cpu_func := stress_cpu_zeta m defined false.

(** the table of the enclave, without "all" *)
Definition enclave_cpu_methods : list (string * cpu_func) :=
  [("ackermann", enclave_stress_cpu_ackermann); ("bitops", enclave_stress_cpu_bitops);
   ("callfunc", enclave_stress_cpu_callfunc)] ++
  ifdef defined "__STDC_IEC_559_COMPLEX__"
    [("cdouble", enclave_stress_cpu_complex_double); ("cfloat", enclave_stress_cpu_complex_float);
   ("clongdouble", enclave_stress_cpu_complex_long_double)] ++
  [("correlate", enclave_stress_cpu_correlate); ("crc16", enclave_stress_cpu_crc16)] ++
  if_decimals defined
    [("decimal32", enclave_stress_cpu_decimal32); ("decimal64", enclave_stress_cpu_decimal64);
   ("decimal128", enclave_stress_cpu_decimal128)] ++
  [("dither", enclave_stress_cpu_dither); ("djb2a", enclave_stress_cpu_djb2a); ("double", enclave_stress_cpu_double);
   ("euler", enclave_stress_cpu_euler); ("explog", enclave_stress_cpu_explog); ("fft", enclave_stress_cpu_fft);
   ("factorial", enclave_stress_cpu_factorial); ("fibonacci", enclave_stress_cpu_fibonacci);
   ("float", enclave_stress_cpu_float); ("fnv1a", enclave_stress_cpu_fnv1a); ("gamma", enclave_stress_cpu_gamma);
   ("gcd", enclave_stress_cpu_gcd); ("gray", enclave_stress_cpu_gray); ("hamming", enclave_stress_cpu_hamming);
   ("hanoi", enclave_stress_cpu_hanoi); ("hyperbolic", enclave_stress_cpu_hyperbolic);
   ("idct", enclave_stress_cpu_idct)] ++
  ifdef defined "STRESS_INT128" [("int128", enclave_stress_cpu_int128)] ++
  [("int64", enclave_stress_cpu_int64); ("int32", enclave_stress_cpu_int32); ("int16", enclave_stress_cpu_int16);
   ("int8", enclave_stress_cpu_int8)] ++
  ifdef defined "STRESS_INT128"
    ([("int128float", enclave_stress_cpu_int128_float); ("int128double", enclave_stress_cpu_int128_double);
   ("int128longdouble", enclave_stress_cpu_int128_longdouble)] ++
     if_decimals defined
     [("int128decimal32", enclave_stress_cpu_int128_decimal32); ("int128decimal64", enclave_stress_cpu_int128_decimal64);
   ("int128decimal128", enclave_stress_cpu_int128_decimal128)]) ++
  [("int64float", enclave_stress_cpu_int64_float); ("int64double", enclave_stress_cpu_int64_double);
   ("int64longdouble", enclave_stress_cpu_int64_longdouble); ("int32float", enclave_stress_cpu_int32_float);
   ("int32double", enclave_stress_cpu_int32_double); ("int32longdouble", enclave_stress_cpu_int32_longdouble)] ++
  [("jenkin", enclave_stress_cpu_jenkin); ("jmp", enclave_stress_cpu_jmp); ("ln2", enclave_stress_cpu_ln2);
   ("longdouble", enclave_stress_cpu_longdouble); ("loop", enclave_stress_cpu_loop);
   ("matrixprod", enclave_stress_cpu_matrix_prod); ("nsqrt", enclave_stress_cpu_nsqrt);
   ("ocall", stress_cpu_enclave_transitions status junk); ("omega", enclave_stress_cpu_omega);
   ("parity", enclave_stress_cpu_parity); ("phi", enclave_stress_cpu_phi); ("pi", enclave_stress_cpu_pi);
   ("pjw", enclave_stress_cpu_pjw); ("prime", enclave_stress_cpu_prime); ("psi", enclave_stress_cpu_psi);
   ("queens", enclave_stress_cpu_queens); ("rand", enclave_stress_cpu_rand); ("rgb", enclave_stress_cpu_rgb);
   ("sdbm", enclave_stress_cpu_sdbm); ("stats", enclave_stress_cpu_stats); ("sqrt", enclave_stress_cpu_sqrt);
   ("trig", enclave_stress_cpu_trig); ("union", enclave_stress_cpu_union); ("zeta", enclave_stress_cpu_zeta)].

(** with "all", which is the first *)
Definition enclave_cpu_table : list (string * cpu_func) := ("all", enclave_stress_cpu_all enclave_cpu_methods) :: enclave_cpu_methods.
End EnclaveTable.

Section EnclaveCpu.
(** the whole table, with "all" *)
Variable cpu_methods : list (string * cpu_func).

Definition ecall_cpu_method_exists (method_name : string) : Z :=
  if list_find (fun m => m.1 = method_name) cpu_methods is Some _ then 1 else 0.

Definition ecall_get_cpu_methods_error (outside : bool) (out_methods : cstr) (len : Z) : option cstr :=
  get_methods_error "sgx-method must be one of:" cpu_methods.*1 outside out_methods len.

Definition stress_set_sgx_method : sgx_env -> cenv -> string -> Z -> store -> outcome (Z * store) :=
  set_enclave_method ecall_cpu_method_exists ecall_get_cpu_methods_error "sgx-method".

Inductive ecall_result :=
| EReturns (ret : Z) (d : cdrv)
| ERunning.

(** [flag_ptr]: the pointer to the flag is not null *)
Definition ecall_stress_cpu (fuel : nat) (method_name : string) (rounds : Z) (flag_ptr : bool) (flag : nat -> bool)
    (opt_flags : Z) (d : cdrv) : ecall_result :=
  if negb flag_ptr then EReturns (-1) d
  else match list_find (fun m => m.1 = method_name) cpu_methods with
       | None => EReturns (-1) d
       | Some (_, (_, func)) =>
           match run_stressor (func (c_true (opt_flags .& OPT_FLAGS_VERIFY))) flag fuel rounds d with
           | None => ERunning
           | Some d => EReturns 0 d
           end
       end.

Inductive sgx_result :=
| SReturns (ret : Z) (d : cdrv)
| SAborted            (** the call into the enclave failed: [abort()] *)
| SRunning
| SUndefined.

(** [method] is the setting; the pointer is not initialised when there is none *)
Definition stress_sgx (init_ok enter_ok : bool) (fuel : nat) (method : option string) (max_ops : Z) (flag : nat -> bool)
    (g_flags : Z) (d : cdrv) : sgx_result :=
  match method with
  | None => SUndefined
  | Some method =>
      if negb init_ok then SReturns (-1) d
      else if negb enter_ok then SAborted
      else match ecall_stress_cpu fuel method max_ops true flag g_flags d with
           | ERunning => SRunning
           | EReturns ret d => SReturns (if ret =? 0 then EXIT_SUCCESS else EXIT_FAILURE) d
           end
  end.
End EnclaveCpu.


(** the table of the enclave is that of the host, with its own method instead of rand48 and sieve *)
Lemma enclave_table_copies m defined d32 d64 d128 look frame here status junk :
  enclave_cpu_methods m defined d32 d64 d128 look frame here status junk =
  cpu_methods_to_dither m defined false d32 d64 d128 frame here ++ cpu_methods_to_int8 m defined false look ++
  cpu_methods_int_fp m defined false d32 d64 d128 ++ cpu_methods_to_nsqrt m defined false ++
  ("ocall", stress_cpu_enclave_transitions status junk) :: cpu_methods_to_rand m defined false ++
  [("rgb", stress_cpu_rgb); ("sdbm", stress_cpu_sdbm)] ++ cpu_methods_last m defined false look.
Proof.
  unfold enclave_cpu_methods, cpu_methods_to_dither, cpu_methods_to_int8, cpu_methods_int_fp, ifdef, if_decimals.
  destruct (defined "__STDC_IEC_559_COMPLEX__"), (decimal_types defined), (defined "STRESS_INT128"); reflexivity.
Qed.

Lemma no_ocall_outside m defined shared d32 d64 d128 look frame here :
  Forall (fun p => p.1 <> "ocall") (cpu_methods_rest m defined shared d32 d64 d128 look frame here).
Proof.
  assert ("ocall" ∉ cpu_method_names defined) as H.
  { unfold cpu_method_names, ifdef. apply (bool_decide_unpack _).
    destruct (defined "__STDC_IEC_559_COMPLEX__"), (decimal_types defined), (defined "STRESS_INT128"); vm_compute; exact I. }
  rewrite (cpu_table_names m defined shared d32 d64 d128 look frame here) in H. apply Forall_forall. intros p Hp He.
  apply H. right. rewrite <- He. by apply list_elem_of_fmap_2.
Qed.

(** the methods of the enclave that are checked: those of the host, and its own
    when the transition works *)
Lemma enclave_checks_silent m defined d32 d64 d128 look frame here junk name func verify s :
  cosine_ok m -> powers_ok m ->
  (name, func) ∈ enclave_cpu_methods m defined d32 d64 d128 look frame here 0 junk ->
  name ∈ "ocall" :: self_checked ++ float_checked -> c_fails (func verify s) = c_fails s.
Proof.
  intros Hc Hp Hin Hname. set (P := fun p : string * cpu_func => entry_silent p /\ p.1 <> "ocall").
  assert (Forall P (cpu_methods_rest m defined false d32 d64 d128 look frame here)) as H
    by (apply Forall_and; split; [by apply table_silent|apply no_ocall_outside]).
  unfold cpu_methods_rest in H. rewrite !Forall_app in H. destruct H as (H1 & H2 & H3 & H4 & H5 & H6 & H7).
  assert (Forall P [("rgb", stress_cpu_rgb); ("sdbm", stress_cpu_sdbm)]) as H6'.
  { apply Forall_cons in H6 as [_ H6]. apply Forall_cons in H6 as [Ha H6]. apply Forall_cons in H6 as [Hb _].
    by apply Forall_cons_2, Forall_cons_2, Forall_nil_2. }
  rewrite enclave_table_copies in Hin.
  assert ((name, func) = ("ocall", stress_cpu_enclave_transitions 0 junk) \/ P (name, func)) as [[= -> ->]|[Hs Hno]].
  { repeat (apply elem_of_app in Hin as [Hin|Hin]; [right; eapply Forall_forall; [|exact Hin]; assumption|]).
    apply elem_of_cons in Hin as [?|Hin]; [by left|]. right.
    repeat (apply elem_of_app in Hin as [Hin|Hin]; [eapply Forall_forall; [|exact Hin]; assumption|]).
    eapply Forall_forall; [|exact Hin]; assumption. }
  - by destruct verify.
  - apply Hs. cbn [fst]. by apply elem_of_cons in Hname as [?|?].
Qed.

(** (C22) [stress_sgx()] runs the method in the enclave exactly as often as asked, for every method of the enclave's table, "all" included: what
    it leaves is what [max_ops] calls of the method leave, or as many as there are until the flag is found cleared if that comes first (or there
    is no limit), and the counter is the number of calls; it returns success.  With the enclave's own method "ocall", if the
    transitions out of the enclave work, or one of the 28 of [checked_methods] no check has failed, for a
    mathematical library as in [cpu_table_checks_hold].  The enclave could be created and entered. *)
Theorem stress_sgx_runs m defined d32 d64 d128 look frame here i name func junk cleared max_ops fl cs :
  cosine_ok m -> powers_ok m ->
  list_find (fun m => m.1 = name) (enclave_cpu_table m defined d32 d64 d128 look frame here 0 junk) = Some (i, (name, func)) ->
  0 <= max_ops < 2 ^ 63 -> Z.of_nat cleared < 2 ^ 63 ->
  let n := operations cleared max_ops in
  let left := Nat.iter n (func (c_true (fl .& OPT_FLAGS_VERIFY))) cs in
  (exists polls, stress_sgx (enclave_cpu_table m defined d32 d64 d128 look frame here 0 junk) true true (S cleared) (Some name)
      max_ops (until_cleared cleared) fl (Cdrv cs 0 0) = SReturns EXIT_SUCCESS (Cdrv left (Z.of_nat n) polls)) /\
  (name ∈ "ocall" :: checked_methods -> c_fails left = c_fails cs).
Proof.
  intros Hc Hp Hf Hmax Hcl. cbv zeta. split.
  - unfold stress_sgx, ecall_stress_cpu. cbn [negb]. rewrite Hf.
    destruct (run_stressor_runs (func (c_true (fl .& OPT_FLAGS_VERIFY))) (until_cleared cleared) cleared max_ops cs)
      as [polls ->]; [|unfold until_cleared; apply Nat.ltb_irrefl|done|done|by exists polls].
    intros j Hj. by apply Nat.ltb_lt.
  - intros Hname. apply (iter_preserves (fun s => c_fails s = c_fails cs)); [|done]. intros s <-.
    apply list_find_Some in Hf as (Hin%list_elem_of_lookup_2 & _ & _). apply elem_of_cons in Hin as [[= -> ->]|Hin].
    + exfalso. revert Hname. apply (bool_decide_unpack _). vm_compute. exact I.
    + apply (enclave_checks_silent m defined d32 d64 d128 look frame here junk name func _ s Hc Hp Hin).
      apply elem_of_cons. apply elem_of_cons in Hname as [?|?%checked_listed]; auto.
Qed.

(** *** a concrete run *)

Definition plain_enclave : list (string * cpu_func) :=
  let T := real_arith plain_libm (fun _ => false) F in
  enclave_cpu_table plain_libm (fun _ => false) T T T (fun _ => true) (fun _ => 0) 0 0 0.

Lemma stress_sgx_runs_witness :
  let left := Nat.iter 4 (stress_cpu_enclave_transitions 0 0 true) (cpu_start mwc_init) in
  (exists polls, stress_sgx plain_enclave true true 10 (Some "ocall") 4 (until_cleared 9) OPT_FLAGS_VERIFY
      (Cdrv (cpu_start mwc_init) 0 0) = SReturns EXIT_SUCCESS (Cdrv left 4 polls)) /\ c_fails left = [].
Proof.
  destruct (stress_sgx_runs plain_libm (fun _ => false) (real_arith plain_libm (fun _ => false) F)
    (real_arith plain_libm (fun _ => false) F) (real_arith plain_libm (fun _ => false) F) (fun _ => true) (fun _ => 0) 0
    40 "ocall" (stress_cpu_enclave_transitions 0 0) 0 9 4 OPT_FLAGS_VERIFY (cpu_start mwc_init)) as [Hr Hf];
    [exact plain_cosine|exact plain_powers|reflexivity|lia|done|].
  split; [exact Hr|]. apply Hf. apply list_elem_of_here.
Defined.
