(* ===== verification/Job.v ===== *)
(** * Job files (job.c)

    [parse_jobfile] reads a file line by line, strips comments, splits a line
    into at most 63 words and hands each line to the option parser as a
    command line whose first option has got its two dashes.  The option parser
    is an argument of the model: it takes the command line and the state it
    works on, and returns a status or jumps to the error handler that
    [parse_jobfile] has set up. *)

From S2P Require Import Prelude Flags Outcome.

Definition NUL : ascii := ascii_of_N 0.
Definition NEWLINE : ascii := ascii_of_N 10.

Definition MAX_ARGS : nat := 64.
Definition RUN_SEQUENTIAL : Z := 0x01.
Definition RUN_PARALLEL : Z := 0x02.

(** the string up to the first [ch] *)
Definition chop (str : cstr) (ch : ascii) : cstr := take_while (fun c => negb (eqc c ch)) str.

Inductive job_complaint : Type :=
  | BothRuns
  | NestedJob
  | CannotOpen
  | ErrorInLine (lineno : Z) (line : cstr).

(** what [parse_run] leaves: its status, [*flag] and [g_opt_flags] *)
Definition parse_run (argv : list cstr) (flag opt_flags : Z) : Z * Z * Z :=
  match argv with
  | _ :: a1 :: a2 :: _ =>
      if negb (strcmp_is a1 "run") then (0, flag, opt_flags)
      else if strcmp_is a2 "sequential" || strcmp_is a2 "sequentially" || strcmp_is a2 "seq" then
        (if c_true (flag .& RUN_PARALLEL) then (-1, flag, opt_flags)
         else (1, flag .| RUN_SEQUENTIAL, opt_flags .| OPT_FLAGS_SEQUENTIAL))
      else if strcmp_is a2 "parallel" || strcmp_is a2 "par" || strcmp_is a2 "together" then
        (if c_true (flag .& RUN_SEQUENTIAL) then (-1, flag, opt_flags)
         else (1, flag .| RUN_PARALLEL, (opt_flags .& not64 OPT_FLAGS_SEQUENTIAL) .| OPT_FLAGS_ALL))
      else (-1, flag, opt_flags)
  | _ => (0, flag, opt_flags)
  end.

Definition nonblank : ascii -> bool := apart isblank.

(** the loop that splits a line, with room for [room] more words *)
Fixpoint tokens (room : nat) (p : cstr) : list cstr :=
  match room, p with
  | S room, _ :: _ =>
      let word := take_while nonblank p in
      match drop_while nonblank p with
      | [] => [word]
      | _ :: r => word :: tokens room (drop_while isblank r)
      end
  | _, _ => []
  end.

(** successive calls of [fgets(buf, 4096, fp)]: each reads up to a newline, or
    4095 characters; [room] are left for the current one *)
Definition LINE_ROOM : nat := 4095.

Fixpoint fgets_lines (room : nat) (cur : list ascii) (s : list ascii) : list (list ascii) :=
  match s with
  | [] => match cur with [] => [] | _ => [cur] end
  | c :: t =>
      if eqc c NEWLINE || (room <=? 1)%nat
      then (cur ++ [c]) :: fgets_lines LINE_ROOM [] t
      else fgets_lines (pred room) (cur ++ [c]) t
  end.

Section job.
Context {opts : Type}.

(** [None] is a jump to the handler *)
Variable parse_opts : list cstr -> Z -> opts -> option Z * Z * opts.

Record job := Job {
  lineno : Z;       (** the static counter, kept between calls *)
  g_opt_flags : Z;
  opt_state : opts;
  printed : list job_complaint
}.

Definition say (c : job_complaint) (j : job) : job :=
  Job (lineno j) (g_opt_flags j) (opt_state j) (printed j ++ [c]).
Definition set_flags (f : Z) (j : job) : job := Job (lineno j) f (opt_state j) (printed j).

(** the body of the loop for the line in [buf]: [inl] goes on with the flag,
    [inr] leaves through [err] *)
Definition parse_line (argv0 : cstr) (buf : list ascii) (flag : Z) (j : job) : (Z * job) + job :=
  let j := Job (u32 (lineno j + 1)) (g_opt_flags j) (opt_state j) (printed j) in
  let buf := chop (chop buf NUL) NEWLINE in
  let txt := buf in
  let buf := chop buf "#" in
  let words := tokens (MAX_ARGS - 1) (drop_while isblank buf) in
  match words with
  | [] => inl (flag, j)
  | w :: rest =>
      if strcmp_is w "job" || strcmp_is w "j" then inr (say NestedJob j)
      else
        let '(rc, flag, fl) := parse_run (argv0 :: words) flag (g_opt_flags j) in
        let j := set_flags fl j in
        if rc <? 0 then inr (say (ErrorInLine (lineno j) txt) (say BothRuns j))
        else if rc =? 1 then inl (flag, j)
        else
          let '(r, fl, st) := parse_opts (argv0 :: (cs "--" ++ w) :: rest) (g_opt_flags j) (opt_state j) in
          let j := Job (lineno j) fl st (printed j) in
          match r with
          | Some ret => if ret =? EXIT_SUCCESS then inl (flag, j)
                        else inr (say (ErrorInLine (lineno j) txt) j)
          | None => inr (say (ErrorInLine (lineno j) txt) j)
          end
  end.

Fixpoint parse_lines (argv0 : cstr) (lines : list (list ascii)) (flag : Z) (j : job) : Z * job :=
  match lines with
  | [] => (0, j)
  | l :: lines =>
      match parse_line argv0 l flag j with
      | inl (flag, j) => parse_lines argv0 lines flag j
      | inr j => (-1, j)
      end
  end.

(** [fopen_] gives the contents of a file that can be opened *)
Definition parse_jobfile (fopen_ : cstr -> option (list ascii)) (argv : list cstr)
    (jobfile : option cstr) (j : job) : Z * job :=
  let argv0 := default [] (argv !! 0%nat) in
  let run contents := parse_lines argv0 (fgets_lines LINE_ROOM [] contents) 0 j in
  match jobfile with
  | None =>
      match argv !! 1%nat with
      | None => (0, j)
      | Some a1 => match fopen_ a1 with None => (0, j) | Some c => run c end
      end
  | Some f => match fopen_ f with None => (-1, say CannotOpen j) | Some c => run c end
  end.
End job.

(** ** Words *)

(** the maximal runs of characters that are not blank *)
Definition words : cstr -> list cstr := words_by isblank.

Lemma words_skip l : words (drop_while isblank l) = words l.
Proof. apply words_by_skip. Qed.

Lemma words_word c l :
  isblank c = false ->
  words (c :: l) = take_while nonblank (c :: l) :: words (drop_while nonblank (c :: l)).
Proof. apply words_by_word. Qed.

Lemma drop_while_length {A} (f : A -> bool) l : (length (drop_while f l) <= length l)%nat.
Proof. rewrite <- (take_drop_while f l) at 2. rewrite length_app. lia. Qed.

(** the splitting loop finds the first words of the line *)
Lemma tokens_words room l : tokens room (drop_while isblank l) = take room (words l).
Proof.
  remember (length l) as n eqn:Hn. assert (length l <= n)%nat as Hle by lia. clear Hn.
  revert room l Hle. induction n as [|n IH]; intros room l Hle.
  - destruct l; [|simpl in Hle; lia]. by destruct room.
  - destruct room as [|room]; [done|]. rewrite <- (words_skip l).
    pose proof (drop_while_length isblank l) as Hdl.
    destruct (drop_while isblank l) as [|c t] eqn:Hl; [done|].
    assert (isblank c = false) as Hc.
    { clear -Hl. induction l as [|x l IH]; [done|]. simpl in Hl. destruct (isblank x) eqn:Hx; [by apply IH|].
      by injection Hl as <- _. }
    rewrite words_word by done. cbn [tokens take].
    destruct (drop_while nonblank (c :: t)) as [|b r] eqn:Hr; [by destruct room|]. f_equal.
    assert (length r < length (c :: t))%nat as Hlt.
    { pose proof (drop_while_length nonblank (c :: t)) as H. rewrite Hr in H. simpl in *. lia. }
    rewrite IH by lia. f_equal.
    assert (isblank b = true) as Hb.
    { clear -Hr. revert Hr. generalize (c :: t). intros l Hr. induction l as [|x l IH]; [done|].
      simpl in Hr. destruct (nonblank x) eqn:Hx; [by apply IH|]. injection Hr as <- _.
      unfold nonblank in Hx. by apply negb_false_iff in Hx. }
    unfold words. cbn [words_by]. by rewrite Hb.
Qed.

(** ** Writing a job file *)

Definition line_char (c : ascii) : bool :=
  negb (eqc c "#") && negb (eqc c NEWLINE) && negb (eqc c NUL).

(** a word that needs no quoting *)
Definition plain_word (w : cstr) : Prop := w <> [] /\ Forall (fun c => nonblank c && line_char c = true) w.

Fixpoint join (ws : list cstr) : cstr :=
  match ws with
  | [] => []
  | w :: rest => match rest with [] => w | _ :: _ => w ++ " "%char :: join rest end
  end.

(** one command per line *)
Definition render (cmds : list (list cstr)) : list ascii :=
  mjoin ((fun cmd => join cmd ++ [NEWLINE]) <$> cmds).

(** a command the job file can carry: an option and its arguments *)
Definition job_command (cmd : list cstr) : Prop :=
  Forall plain_word cmd /\ (length cmd < MAX_ARGS)%nat /\ (length (join cmd) < LINE_ROOM)%nat /\
  match cmd with
  | w :: _ => strcmp_is w "run" = false /\ strcmp_is w "job" = false /\ strcmp_is w "j" = false
  | [] => False
  end.

Lemma take_while_true {A} (f : A -> bool) l : Forall (fun x => f x = true) l -> take_while f l = l.
Proof. intros H. rewrite <- (app_nil_r l) at 1. rewrite take_while_app by done. apply app_nil_r. Qed.

Lemma words_plain w : plain_word w -> words w = [w].
Proof.
  intros [Hne Hw]. assert (Forall (fun c => nonblank c = true) w) as Hnb.
  { eapply Forall_impl; [exact Hw|]. by intros c [? _]%andb_true_iff. }
  destruct w as [|c w]; [done|]. rewrite words_word.
  - rewrite take_while_true by done. pose proof (take_drop_while nonblank (c :: w)) as H.
    rewrite take_while_true in H by done. rewrite <- (app_nil_r (c :: w)) in H at 3.
    apply app_inv_head in H. by rewrite H.
  - inversion Hnb; subst. by apply negb_true_iff.
Qed.

Lemma words_join_cons w l : plain_word w -> words (w ++ " "%char :: l) = w :: words l.
Proof.
  intros [Hne Hw]. assert (Forall (fun c => nonblank c = true) w) as Hnb.
  { eapply Forall_impl; [exact Hw|]. by intros c [? _]%andb_true_iff. }
  destruct w as [|c w]; [done|]. cbn [app]. rewrite words_word.
  - rewrite (take_while_app _ (c :: w) (" "%char :: l)), (drop_while_app _ (c :: w) (" "%char :: l)) by done.
    simpl. by rewrite app_nil_r.
  - inversion Hnb; subst. by apply negb_true_iff.
Qed.

Lemma words_join ws : Forall plain_word ws -> words (join ws) = ws.
Proof.
  induction 1 as [|w ws Hw Hws IH]; [done|]. destruct ws as [|w' ws].
  - by apply words_plain.
  - change (join (w :: w' :: ws)) with (w ++ " "%char :: join (w' :: ws)). by rewrite words_join_cons, IH.
Qed.

Lemma join_chars ws : Forall plain_word ws -> Forall (fun c => line_char c = true) (join ws).
Proof.
  assert (forall w, plain_word w -> Forall (fun c => line_char c = true) w) as Hp.
  { intros w [_ Hw]. eapply Forall_impl; [exact Hw|]. by intros c [_ ?]%andb_true_iff. }
  induction 1 as [|w ws Hw Hws IH]; [constructor|]. destruct ws as [|w' ws]; [by apply Hp|].
  change (join (w :: w' :: ws)) with (w ++ " "%char :: join (w' :: ws)).
  apply Forall_app. split; [by apply Hp|]. by constructor.
Qed.

Lemma chop_none l ch : Forall (fun c => negb (eqc c ch) = true) l -> chop l ch = l.
Proof. apply take_while_true. Qed.

(** the three [chop]s of a line leave the text of the line *)
Lemma chop_line l :
  Forall (fun c => line_char c = true) l ->
  chop (chop (l ++ [NEWLINE]) NUL) NEWLINE = l /\ chop l "#" = l.
Proof.
  intros Hl. assert (forall ch, ch ∈ [("#"%char); NEWLINE; NUL] -> Forall (fun c => negb (eqc c ch) = true) l) as H.
  { intros ch Hch. eapply Forall_impl; [exact Hl|]. intros c Hc. unfold line_char in Hc.
    rewrite !andb_true_iff in Hc. rewrite !elem_of_cons, elem_of_nil in Hch.
    destruct Hch as [->|[->|[->|[]]]]; tauto. }
  split.
  - rewrite (chop_none (l ++ [NEWLINE]) NUL).
    + unfold chop. rewrite take_while_app by (apply H; right; left). simpl. apply app_nil_r.
    + apply Forall_app. split; [apply H; right; right; left|by constructor].
  - apply chop_none, H. left.
Qed.

Lemma fgets_line room cur l rest :
  Forall (fun c => line_char c = true) l -> (length l < room)%nat ->
  fgets_lines room cur (l ++ NEWLINE :: rest) = (cur ++ l ++ [NEWLINE]) :: fgets_lines LINE_ROOM [] rest.
Proof.
  intros Hl. revert room cur. induction Hl as [|c l Hc _ IH]; intros room cur Hr; [done|].
  cbn [app fgets_lines]. assert (eqc c NEWLINE = false) as ->.
  { unfold line_char in Hc. rewrite !andb_true_iff in Hc. by apply negb_true_iff, Hc. }
  simpl in Hr. destruct (Nat.leb_spec room 1); [lia|]. cbn [orb]. rewrite IH by lia.
  by rewrite <- app_assoc.
Qed.

Lemma fgets_render cmds :
  Forall job_command cmds ->
  fgets_lines LINE_ROOM [] (render cmds) = (fun cmd => join cmd ++ [NEWLINE]) <$> cmds.
Proof.
  induction 1 as [|cmd cmds (Hw & _ & Hlen & _) _ IH]; [done|].
  assert (render (cmd :: cmds) = join cmd ++ NEWLINE :: render cmds) as ->.
  { unfold render. simpl. by rewrite <- app_assoc. }
  rewrite fgets_line by (done || by apply join_chars). by rewrite IH.
Qed.

Section job_theorems.
Context {opts : Type}.
Variable parse_opts : list cstr -> Z -> opts -> option Z * Z * opts.

(** the commands handed to the option parser one after the other, until one
    of them fails *)
Fixpoint exec (argv0 : cstr) (cmds : list (list cstr)) (j : job (opts := opts)) : Z * job :=
  match cmds with
  | [] => (0, j)
  | cmd :: cmds =>
      let dashed := match cmd with w :: rest => (cs "--" ++ w) :: rest | [] => [] end in
      let '(r, fl, st) := parse_opts (argv0 :: dashed) (g_opt_flags j) (opt_state j) in
      let j := Job (u32 (lineno j + 1)) fl st (printed j) in
      if bool_decide (r = Some EXIT_SUCCESS) then exec argv0 cmds j
      else (-1, say (ErrorInLine (lineno j) (join cmd)) j)
  end.

Lemma parse_line_command argv0 cmd flag j :
  job_command cmd ->
  parse_line parse_opts argv0 (join cmd ++ [NEWLINE]) flag j =
    let dashed := match cmd with w :: rest => (cs "--" ++ w) :: rest | [] => [] end in
    let '(r, fl, st) := parse_opts (argv0 :: dashed) (g_opt_flags j) (opt_state j) in
    let j := Job (u32 (lineno j + 1)) fl st (printed j) in
    if bool_decide (r = Some EXIT_SUCCESS) then inl (flag, j)
    else inr (say (ErrorInLine (lineno j) (join cmd)) j).
Proof.
  intros (Hw & Hlen & _ & Hname). unfold parse_line.
  destruct (chop_line (join cmd) (join_chars cmd Hw)) as [-> ->]. cbv zeta.
  rewrite tokens_words, words_join by done.
  assert (take (MAX_ARGS - 1) cmd = cmd) as -> by (apply take_ge; unfold MAX_ARGS in *; lia).
  destruct cmd as [|w rest]; [done|]. destruct Hname as (Hrun & Hjob & Hj).
  rewrite Hjob, Hj. cbn [orb].
  assert (forall f g, parse_run (argv0 :: w :: rest) f g = (0, f, g)) as ->.
  { intros f g. unfold parse_run. destruct rest; [done|]. by rewrite Hrun. }
  cbn [g_opt_flags opt_state lineno printed set_flags]. change (0 <? 0) with false. change (0 =? 1) with false.
  cbv iota. destruct (parse_opts _ _ _) as [[r fl] st].
  destruct r as [ret|]; [|by rewrite bool_decide_false].
  destruct (Z.eqb_spec ret EXIT_SUCCESS) as [->|Hr]; [by rewrite bool_decide_true|].
  by rewrite bool_decide_false by congruence.
Qed.

Lemma parse_lines_commands argv0 cmds flag j :
  Forall job_command cmds ->
  parse_lines parse_opts argv0 ((fun cmd => join cmd ++ [NEWLINE]) <$> cmds) flag j = exec argv0 cmds j.
Proof.
  intros H. revert j. induction H as [|cmd cmds Hc _ IH]; intros j; [done|].
  rewrite fmap_cons. cbn [parse_lines exec]. rewrite parse_line_command by done. cbv zeta.
  destruct (parse_opts _ _ _) as [[r fl] st]. case_bool_decide; [apply IH|done].
Qed.
End job_theorems.

(** (C32) A job file written one command per line, its words separated by blanks,
    is executed as exactly these commands, in order and with the two dashes
    put in front of the first word, up to the first one the option parser
    refuses, whose line is then reported. *)
Theorem jobfile_executes_commands {opts} (parse_opts : list cstr -> Z -> opts -> option Z * Z * opts)
    fopen_ argv0 rest file cmds j :
  Forall job_command cmds -> fopen_ file = Some (render cmds) ->
  parse_jobfile parse_opts fopen_ (argv0 :: rest) (Some file) j = exec parse_opts argv0 cmds j.
Proof.
  intros Hcmds Hf. unfold parse_jobfile. rewrite Hf. cbv zeta. rewrite fgets_render by done.
  by apply parse_lines_commands.
Qed.

(** the option parser of the examples: it knows two options and counts its calls *)
Definition demo_parser (argv : list cstr) (fl n : Z) : option Z * Z * Z :=
  match argv with
  | _ :: a :: _ => (if strcmp_is a "--cpu" || strcmp_is a "--vm" then Some EXIT_SUCCESS else None, fl, n + 1)
  | _ => (None, fl, n)
  end.

Definition demo_commands : list (list cstr) := [[cs "cpu"; cs "4"]; [cs "vm"; cs "2"]; [cs "bogus"]].

Lemma demo_commands_ok : Forall job_command demo_commands.
Proof.
  repeat apply Forall_cons_2; [..|apply Forall_nil_2].
  all: split; [repeat apply Forall_cons_2; [..|apply Forall_nil_2]; (split; [done|]);
    repeat apply Forall_cons_2; done || apply Forall_nil_2|].
  all: split; [by apply Nat.ltb_lt|split; [by apply Nat.ltb_lt|done]].
Qed.

Lemma jobfile_executes_commands_witness :
  parse_jobfile demo_parser (fun _ => Some (render demo_commands)) [cs "stress-ng"] (Some (cs "f"))
    (Job 0 0 0 []) = (-1, Job 3 0 3 [ErrorInLine 3 (cs "bogus")]).
Proof.
  rewrite (jobfile_executes_commands demo_parser _ (cs "stress-ng") [] (cs "f") demo_commands);
    [reflexivity|apply demo_commands_ok|reflexivity].
Defined.

(** ** The run command *)

Definition run_flag (f : Z) : Prop := f = 0 \/ f = RUN_SEQUENTIAL \/ f = RUN_PARALLEL.

Lemma sequential_set fl : c_true ((fl .| OPT_FLAGS_SEQUENTIAL) .& OPT_FLAGS_SEQUENTIAL) = true.
Proof.
  unfold c_true. assert ((fl .| OPT_FLAGS_SEQUENTIAL) .& OPT_FLAGS_SEQUENTIAL = OPT_FLAGS_SEQUENTIAL) as ->; [|done].
  zbits.
Qed.

Lemma sequential_cleared fl :
  c_true (((fl .& not64 OPT_FLAGS_SEQUENTIAL) .| OPT_FLAGS_ALL) .& OPT_FLAGS_SEQUENTIAL) = false.
Proof.
  rewrite Z.land_lor_distr_l, <- Z.land_assoc.
  change (not64 OPT_FLAGS_SEQUENTIAL .& OPT_FLAGS_SEQUENTIAL) with 0.
  by rewrite Z.land_0_r.
Qed.

(** A job file cannot ask for both ways of running: at most one of the two
    flags is ever set, a request that agrees with it (and only that) is taken
    and sets the mode of the program accordingly, and any other use of "run"
    is refused without changing anything. *)
Theorem parse_run_exclusive argv flag fl rc flag' fl' :
  run_flag flag -> parse_run argv flag fl = (rc, flag', fl') ->
  run_flag flag' /\ (rc = 0 \/ rc = 1 \/ rc = -1) /\
  (rc = 1 -> flag' <> 0 /\ (flag = 0 \/ flag = flag') /\
     c_true (fl' .& OPT_FLAGS_SEQUENTIAL) = (flag' =? RUN_SEQUENTIAL)) /\
  (rc <> 1 -> flag' = flag /\ fl' = fl) /\
  (rc = 0 <-> (length argv < 3)%nat \/ (if argv !! 1%nat is Some a then strcmp_is a "run" = false else True)).
Proof.
  intros Hf H. unfold parse_run in H.
  destruct argv as [|a0 [|a1 [|a2 argv]]]; try (injection H as <- <- <-; simpl; intuition lia).
  destruct (strcmp_is a1 "run") eqn:Hr; cbn [negb] in H;
    [|injection H as <- <- <-; simpl; rewrite Hr; intuition lia].
  assert ((length (a0 :: a1 :: a2 :: argv) < 3)%nat \/
    (if (a0 :: a1 :: a2 :: argv) !! 1%nat is Some a then strcmp_is a "run" = false else True) <-> False) as ->.
  { simpl. rewrite Hr. split; [intros [Hx|Hx]; [lia|done]|done]. }
  destruct (strcmp_is a2 "sequential" || strcmp_is a2 "sequentially" || strcmp_is a2 "seq").
  - destruct Hf as [-> | [-> | ->]]; simpl in H; injection H as <- <- <-;
      rewrite ?sequential_set; unfold run_flag; intuition (lia || done).
  - destruct (strcmp_is a2 "parallel" || strcmp_is a2 "par" || strcmp_is a2 "together");
      destruct Hf as [-> | [-> | ->]]; simpl in H; injection H as <- <- <-;
      rewrite ?sequential_cleared; unfold run_flag; intuition (lia || done).
Qed.

Lemma parse_run_exclusive_witness :
  parse_run [cs "stress-ng"; cs "run"; cs "par"] RUN_SEQUENTIAL 0 = (-1, RUN_SEQUENTIAL, 0) /\
  run_flag RUN_SEQUENTIAL.
Proof.
  split; [reflexivity|].
  apply (parse_run_exclusive [cs "stress-ng"; cs "run"; cs "par"] RUN_SEQUENTIAL 0 (-1) _ 0);
    [right; left; reflexivity|reflexivity].
Defined.
