(* ===== verification/ProcOps.v ===== *)
(** * Choosing the stressors to run (stress-ng.c)

    The operations of the main program on the stressor list of [Procs]:
    selection by class or all at once, exclusion, random selection, allocation
    of the per instance resources and of the statistics slots, and the calls of
    the per stressor helpers.  The table [stressors[]] is a parameter (its
    terminator is not an element), so the results hold for every build. *)

From S2P Require Import Prelude Flags Mwc Outcome Procs.


(** [a & b] as a condition *)
Definition has (a b : Z) : bool := c_true (a .& b).

(** ** Names and classes *)

(** the static buffer keeps 127 characters *)
Definition munge_underscore (str : cstr) : cstr :=
  take 127 ((fun c => if eqc c "_" then "-"%char else c) <$> str).

(** the index found, or that of the terminator *)
Fixpoint name_find (sts : list stress) (munged : cstr) : nat :=
  match sts with
  | [] => 0
  | st :: sts => if bool_decide (munge_underscore (s_name st) = munged) then 0 else S (name_find sts munged)
  end.

Definition classes : list (Z * cstr) :=
  [ (0x4, cs "cpu-cache"); (0x1, cs "cpu"); (0x800, cs "device"); (0x400, cs "filesystem");
    (0x80, cs "interrupt"); (0x8, cs "io"); (0x2, cs "memory"); (0x10, cs "network");
    (0x100, cs "os"); (0x200, cs "pipe"); (0x20, cs "scheduler"); (0x1000, cs "security");
    (0x40, cs "vm") ].

Fixpoint class_find (cls : list (Z * cstr)) (str : cstr) : Z :=
  match cls with
  | [] => 0
  | (c, nm) :: cls => if bool_decide (nm = str) then c else class_find cls str
  end.

Definition get_class_id (str : cstr) : Z := class_find classes str.

(** [strtok(str, ",")] until it returns [NULL] *)
Definition comma (c : ascii) : bool := eqc c ",".
Definition strtok_all (str : cstr) : list cstr := words_by comma str.

(** what the user asked to be listed, or did not spell right *)
Inductive class_report : Type :=
  | ListClass (token : cstr)
  | UnknownClass (token : cstr).

Fixpoint get_class_loop (toks : list cstr) (class : Z) : Z * Z * option class_report :=
  match toks with
  | [] => (0, class, None)
  | token :: toks =>
      let cl := get_class_id token in
      if cl =? 0 then
        match last token with
        | Some c =>
            if (1 <? Z.of_nat (length token)) && eqc c "?" then
              let token' := take (length token - 1) token in
              if c_true (get_class_id token') then (1, class, Some (ListClass token'))
              else (-1, class, Some (UnknownClass token'))
            else (-1, class, Some (UnknownClass token))
        | None => (-1, class, Some (UnknownClass token))
        end
      else get_class_loop toks (class .| cl)
  end.

Definition get_class (class_str : cstr) : Z * Z * option class_report :=
  get_class_loop (strtok_all class_str) 0.

Section ops.
Variable stressors : list stress.

Definition stressor_name_find (nm : cstr) : nat := name_find stressors (munge_underscore nm).

(** ** Exclusion *)

Fixpoint exclude_tokens (toks : list cstr) (s : procs) : option (Z * procs) :=
  match toks with
  | [] => Some (0, s)
  | token :: toks =>
      match stressors !! stressor_name_find token with
      | None => Some (-1, s)
      | Some st => s ← remove_if (fun d => s_id (stressor d) =? s_id st) s; exclude_tokens toks s
      end
  end.

(** [opt_exclude] is the setting, if there is one *)
Definition stress_exclude (opt_exclude : option cstr) (s : procs) : option (Z * procs) :=
  match opt_exclude with
  | None => Some (0, s)
  | Some str => exclude_tokens (strtok_all str) s
  end.

(** [unsupported]: the ids and what their [func_supported()] returns *)
Fixpoint exclude_unsupported (unsupported : list (Z * Z)) (s : procs) : option procs :=
  match unsupported with
  | [] => Some s
  | (id, supported) :: rest =>
      s ← remove_if (fun d => (s_id (stressor d) =? id) && c_true (num_procs d) && (supported <? 0)) s;
      exclude_unsupported rest s
  end.

Definition exclude_pathological (opt_flags : Z) (s : procs) : option procs :=
  if has opt_flags OPT_FLAGS_PATHOLOGICAL then Some s
  else remove_if (fun d => has (s_class (stressor d)) CLASS_PATHOLOGICAL) s.

(** ** Selection *)

(** [pi->num_procs = n] for the node at [l] *)
Definition set_num (l : positive) (n : Z) (s : procs) : outcome procs :=
  match node_at s l with
  | Some nd => Returns (set_node l (ProcInfo (next nd) (prev nd) (with_num n (data nd))) s)
  | None => Undefined
  end.

(** one new node per stressor; [allocs] are the results of [calloc] *)
Fixpoint enable_loop (sts : list stress) (num : option Z) (allocs : list ptr) (s : procs) : outcome procs :=
  match sts with
  | [] => Returns s
  | st :: sts =>
      '(l, s) ← find_proc_info (default None (head allocs)) st s;
      s ← (match num with Some n => set_num l n s | None => Returns s end);
      enable_loop sts num (tail allocs) s
  end.

(** the loop is over the ids: the first [STRESS_MAX] entries of the table *)
Definition enable_all_stressors (STRESS_MAX : nat) (opt_flags instances : Z) (allocs : list ptr) (s : procs) :
    outcome procs :=
  if has opt_flags OPT_FLAGS_SET then Returns s
  else enable_loop (take STRESS_MAX stressors) (Some (s32 instances)) allocs s.

(** the flags and the list afterwards; parallel wins over sequential *)
Definition enable_classes (opt_flags class sequential parallel : Z) (allocs : list ptr) (s : procs) :
    outcome (Z * procs) :=
  if class =? 0 then Returns (opt_flags, s)
  else
    let opt_flags := opt_flags .| OPT_FLAGS_SET in
    let num := if has opt_flags OPT_FLAGS_ALL then Some parallel
               else if has opt_flags OPT_FLAGS_SEQUENTIAL then Some sequential else None in
    s ← enable_loop (List.filter (fun st => has (s_class st) class) stressors) num allocs s;
    Returns (opt_flags, s).
End ops.

(** ** Random selection *)

(** the loop of [set_random_stressors], stopped after [k] rounds: the number
    left to distribute, the generator and the list *)
Fixpoint random_rounds (k : nat) (opt_random n_procs n : Z) (r : mwc) (s : procs) : outcome (Z * mwc * procs) :=
  match k with
  | O => Returns (n, r, s)
  | S k =>
      if n <=? 0 then Returns (n, r, s)
      else
        let '(v, r) := mwc32 r in
        let rnd := s32 (v mod u32 (Z.shiftr opt_random 5 + 2)) in
        let '(w, r) := mwc32 r in
        match get_nth_proc (w mod u32 n_procs) s with
        | None => Undefined
        | Some None => random_rounds k opt_random n_procs n r s
        | Some (Some l) =>
            let rnd := if n <? rnd then n else rnd in
            match node_at s l with
            | None => Undefined
            | Some nd =>
                s ← set_num l (num_procs (data nd) + rnd) s;
                random_rounds k opt_random n_procs (n - rnd) r s
            end
        end
  end.

Definition set_random_stressors (k : nat) (opt_flags opt_random : Z) (r : mwc) (s : procs) :
    outcome (Z * mwc * procs) :=
  if negb (has opt_flags OPT_FLAGS_RANDOM) then Returns (0, r, s)
  else if has opt_flags OPT_FLAGS_SET then Exits 1 (BadWorkers "random")
  else match get_num_procs s with
       | None => Undefined
       | Some np => random_rounds k opt_random (if np =? 0 then 1 else np) opt_random r s
       end.

(** ** Resources *)

(** the pids and the statistics pointers, cleared *)
Definition alloc_proc_resources (d : pdata) : pdata :=
  PData (stressor d) (replicate (Z.to_nat (num_procs d)) 0) (replicate (Z.to_nat (num_procs d)) 0)
    (started_procs d) (num_procs d) (bogo_ops d).

Definition TIMEOUT_NOT_SET : Z := 2 ^ 64 - 1.
Definition DEFAULT_TIMEOUT : Z := 60 * 60 * 24.

Definition set_default_timeout (timeout g_opt_timeout : Z) : Z :=
  if g_opt_timeout =? TIMEOUT_NOT_SET then timeout else g_opt_timeout.

Definition class_num (class num : Z) (d : pdata) : pdata :=
  if has (s_class (stressor d)) class then with_num num d else d.

(** [enough n]: the two [calloc]s for [n] instances succeed *)
Definition setup_sequential_proc (enough : Z -> bool) (class sequential : Z) (d : pdata) (alive : bool) : pdata * bool :=
  if negb alive then (d, alive)
  else
    let d := class_num class sequential d in
    if enough (num_procs d) then (alloc_proc_resources d, true) else (d, false).

Definition stress_setup_sequential (enough : Z -> bool) (class sequential g_opt_timeout : Z) (s : procs) :
    outcome (Z * procs) :=
  match each_proc (setup_sequential_proc enough class sequential) true s with
  | None => Undefined
  | Some (alive, s) =>
      if alive then Returns (set_default_timeout 60 g_opt_timeout, s) else Exits 1 (NoMemory "pid list")
  end.

(** bogo operations per instance, rounded up *)
Definition share_ops (d : pdata) : pdata :=
  PData (stressor d) (pids d) (stats d) (started_procs d) (num_procs d)
    (if c_true (num_procs d)
     then u64 (bogo_ops d + u64 (num_procs d - 1)) / u64 (num_procs d) else 0).

Definition setup_parallel_proc (enough : Z -> bool) (class parallel : Z) (d : pdata) (alive : bool) : pdata * bool :=
  if negb alive then (d, alive)
  else
    let d := share_ops (class_num class parallel d) in
    if c_true (num_procs d)
    then (if enough (num_procs d) then (alloc_proc_resources d, true) else (d, false))
    else (d, true).

Definition stress_setup_parallel (enough : Z -> bool) (class parallel g_opt_timeout : Z) (s : procs) :
    outcome (Z * procs) :=
  match each_proc (setup_parallel_proc enough class parallel) true s with
  | None => Undefined
  | Some (alive, s) =>
      if alive then Returns (set_default_timeout DEFAULT_TIMEOUT g_opt_timeout, s)
      else Exits 1 (NoMemory "pid list")
  end.

(** [pi->stats[j] = stats++] for every instance; the slots are numbered *)
Definition assign_slots (d : pdata) (slot : Z) : pdata * Z :=
  let n := Z.max 0 (num_procs d) in
  (PData (stressor d) (pids d) (list_inserts 0 (seqZ slot n) (stats d)) (started_procs d) (num_procs d) (bogo_ops d),
   slot + n).

Definition setup_stats_buffers (s : procs) : option procs := snd <$> each_proc assign_slots 0 s.

(** ** Helpers *)

Record proc_helper_t := ProcHelper { str_id : Z; opt_flag : Z; func : nat }.

(** the functions called, in order *)
Fixpoint proc_helper (opt_flags : Z) (helpers : list proc_helper_t) (s : procs) : option (list nat) :=
  match helpers with
  | [] => Some []
  | h :: rest =>
      '(calls, s) ← each_proc (fun d calls =>
        (d, if (s_id (stressor d) =? str_id h) && (c_true (num_procs d) || has opt_flags (opt_flag h))
            then calls ++ [func h] else calls)) [] s;
      calls' ← proc_helper opt_flags rest s;
      Some (calls ++ calls')
  end.
