(* ===== verification/ProcProofs.v ===== *)
(** * Correctness of the selection of stressors

    Exclusion filters the list, selection appends to it, the random selection
    distributes exactly the number asked for, and every instance gets its own
    statistics slot. *)

From S2P Require Import Prelude Flags Mwc Outcome Procs ProcOps.

(** ** Exclusion *)

Lemma filter_filter {A} (f g : A -> bool) l :
  List.filter f (List.filter g l) = List.filter (fun x => g x && f x) l.
Proof.
  induction l as [|x l IH]; [done|]. simpl. destruct (g x); simpl; [|done]. destruct (f x); by rewrite IH.
Qed.

Lemma filter_true {A} (f : A -> bool) l : (forall x, f x = true) -> List.filter f l = l.
Proof. intros H. induction l as [|x l IH]; simpl; [done|]. by rewrite H, IH. Qed.

Lemma filter_ext' {A} (f g : A -> bool) l : (forall x, f x = g x) -> List.filter f l = List.filter g l.
Proof. intros H. by apply List.filter_ext. Qed.

Definition unsupported_proc (unsupported : list (Z * Z)) (d : pdata) : bool :=
  existsb (fun u => (s_id (stressor d) =? u.1) && c_true (num_procs d) && (u.2 <? 0)) unsupported.

Lemma exclude_unsupported_repr us s ls :
  repr s ls -> exists s', exclude_unsupported us s = Some s' /\
    repr s' (List.filter (fun x => negb (unsupported_proc us x.2)) ls).
Proof.
  revert s ls. induction us as [|[id sup] us IH]; intros s ls Hr; cbn [exclude_unsupported].
  - exists s. split; [done|]. by rewrite filter_true.
  - destruct (remove_if_repr (fun d => (s_id (stressor d) =? id) && c_true (num_procs d) && (sup <? 0)) s ls Hr)
      as (s1 & -> & Hr1). cbn [mbind option_bind].
    destruct (IH s1 _ Hr1) as (s2 & -> & Hr2). exists s2. split; [done|]. rewrite filter_filter in Hr2.
    erewrite filter_ext'; [exact Hr2|]. intros x. unfold unsupported_proc. cbn [existsb fst snd].
    by rewrite negb_orb.
Qed.

Definition pathological_proc (opt_flags : Z) (d : pdata) : bool :=
  negb (has opt_flags OPT_FLAGS_PATHOLOGICAL) && has (s_class (stressor d)) CLASS_PATHOLOGICAL.

Lemma exclude_pathological_repr fl s ls :
  repr s ls -> exists s', exclude_pathological fl s = Some s' /\
    repr s' (List.filter (fun x => negb (pathological_proc fl x.2)) ls).
Proof.
  intros Hr. unfold exclude_pathological, pathological_proc.
  destruct (has fl OPT_FLAGS_PATHOLOGICAL); cbn [negb andb].
  - exists s. split; [done|]. by rewrite filter_true.
  - by apply remove_if_repr.
Qed.

Section exclude.
Variable stressors : list stress.

(** the stressor a name of the exclude list stands for *)
Definition named_stressor (token : cstr) : option stress := stressors !! stressor_name_find stressors token.

Definition excluded_proc (toks : list cstr) (d : pdata) : bool :=
  existsb (fun t => if named_stressor t is Some st then s_id (stressor d) =? s_id st else false) toks.

Lemma exclude_tokens_repr toks s ls :
  repr s ls -> Forall (fun t => is_Some (named_stressor t)) toks ->
  exists s', exclude_tokens stressors toks s = Some (0, s') /\
    repr s' (List.filter (fun x => negb (excluded_proc toks x.2)) ls).
Proof.
  intros Hr Ht. revert s ls Hr. induction Ht as [|t toks [st Hst] _ IH]; intros s ls Hr; cbn [exclude_tokens].
  - exists s. split; [done|]. by rewrite filter_true.
  - unfold named_stressor in Hst. rewrite Hst.
    destruct (remove_if_repr (fun d => s_id (stressor d) =? s_id st) s ls Hr) as (s1 & -> & Hr1).
    cbn [mbind option_bind]. destruct (IH s1 _ Hr1) as (s2 & -> & Hr2). exists s2. split; [done|].
    rewrite filter_filter in Hr2. erewrite filter_ext'; [exact Hr2|]. intros x.
    unfold excluded_proc. cbn [existsb]. unfold named_stressor at 1. rewrite Hst. by rewrite negb_orb.
Qed.

Lemma exclude_tokens_unknown toks s ls :
  repr s ls -> ~ Forall (fun t => is_Some (named_stressor t)) toks ->
  exists s', exclude_tokens stressors toks s = Some (-1, s').
Proof.
  revert s ls. induction toks as [|t toks IH]; intros s ls Hr Hn; [destruct Hn; constructor|].
  cbn [exclude_tokens]. destruct (stressors !! stressor_name_find stressors t) as [st|] eqn:Hst; [|by exists s].
  destruct (remove_if_repr (fun d => s_id (stressor d) =? s_id st) s ls Hr) as (s1 & -> & Hr1).
  cbn [mbind option_bind]. apply (IH s1 _ Hr1). intros Hall. apply Hn. constructor; [by exists st|done].
Qed.
End exclude.

(** The three exclusions of the main program keep exactly the stressors that are
    supported (or have no instances), not pathological unless asked for, and
    not named in the exclude list; an unknown name is refused. *)
Theorem exclusions_filter stressors us fl str s ls :
  repr s ls ->
  exists s1 s2, exclude_unsupported us s = Some s1 /\ exclude_pathological fl s1 = Some s2 /\
  (forall toks, toks = strtok_all str ->
   (Forall (fun t => is_Some (named_stressor stressors t)) toks ->
    exists s3, stress_exclude stressors (Some str) s2 = Some (0, s3) /\
      repr s3 (List.filter (fun x => negb (unsupported_proc us x.2 || pathological_proc fl x.2 ||
                                         excluded_proc stressors toks x.2)) ls)) /\
   (~ Forall (fun t => is_Some (named_stressor stressors t)) toks ->
    exists s3, stress_exclude stressors (Some str) s2 = Some (-1, s3))).
Proof.
  intros Hr. destruct (exclude_unsupported_repr us s ls Hr) as (s1 & H1 & Hr1).
  destruct (exclude_pathological_repr fl s1 _ Hr1) as (s2 & H2 & Hr2).
  exists s1, s2. split; [done|]. split; [done|]. intros toks ->. unfold stress_exclude. split; intros Ht.
  - destruct (exclude_tokens_repr stressors _ s2 _ Hr2 Ht) as (s3 & -> & Hr3). exists s3. split; [done|].
    rewrite !filter_filter in Hr3. erewrite filter_ext'; [exact Hr3|]. intros x. cbv beta.
    by destruct (unsupported_proc us x.2), (pathological_proc fl x.2), (excluded_proc stressors _ x.2).
  - by apply (exclude_tokens_unknown stressors _ s2 _ Hr2).
Qed.

Lemma exclusions_filter_witness :
  exists s1 s2 s3, exclude_unsupported [(7, 0)] demo_procs = Some s1 /\ exclude_pathological 0 s1 = Some s2 /\
    stress_exclude [Stress (cs "a_b") 8 1 0 0] (Some (cs ",a-b,")) s2 = Some (0, s3) /\
    repr s3 [(1%positive, PData (demo_stress 7) [] [] 0 3 100)].
Proof.
  destruct (exclusions_filter [Stress (cs "a_b") 8 1 0 0] [(7, 0)] 0 (cs ",a-b,") demo_procs demo_list demo_procs_repr)
    as (s1 & s2 & H1 & H2 & H). destruct (H _ eq_refl) as [Hok _].
  destruct Hok as (s3 & H3 & Hr3).
  - constructor; [|constructor]. vm_compute. by eexists.
  - exists s1, s2, s3. repeat split; try done; apply Hr3.
Defined.

(** ** Selection *)

(** writing the data of a node *)
Lemma set_data_repr s ls1 l d ls2 d' :
  repr s (ls1 ++ (l, d) :: ls2) ->
  exists nd, node_at s l = Some nd /\ data nd = d /\
    repr (set_node l (ProcInfo (next nd) (prev nd) d') s) (ls1 ++ (l, d') :: ls2) /\
    dom (heap (set_node l (ProcInfo (next nd) (prev nd) d') s)) = dom (heap s).
Proof.
  intros (H & Hnd & Hh & Ht). pose proof (linked_lookup _ _ _ _ _ _ _ H) as Hl.
  eexists. split; [exact Hl|]. split; [done|]. cbn [next prev data].
  rewrite fmap_app, fmap_cons in Hnd. cbn [fst] in Hnd.
  destruct (NoDup_middle _ _ _ Hnd) as (_ & _ & _ & Hx1 & Hx2 & _).
  apply linked_app in H as (H1 & _ & H2). split; [split; [|split; [|split]]|].
  - apply linked_app. split; [by apply linked_insert|]. split; [apply lookup_insert_eq|by apply linked_insert].
  - by rewrite fmap_app, fmap_cons.
  - cbn. by rewrite Hh, !headp_app.
  - cbn. by rewrite Ht, !lastp_app, !lastp_cons.
  - cbn. rewrite dom_insert_L. apply elem_of_dom_2 in Hl. set_solver.
Qed.

Lemma set_num_repr s ls1 l d ls2 n :
  repr s (ls1 ++ (l, d) :: ls2) ->
  exists s', set_num l n s = Returns s' /\ repr s' (ls1 ++ (l, with_num n d) :: ls2) /\
    dom (heap s') = dom (heap s).
Proof.
  intros Hr. unfold set_num. destruct (set_data_repr s ls1 l d ls2 (with_num n d) Hr) as (nd & -> & <- & Hr' & Hd).
  by eexists.
Qed.

(** fresh, distinct results of [calloc] *)
Definition fresh_allocs (s : procs) (ls : list positive) : Prop :=
  NoDup ls /\ forall l, l ∈ ls -> heap s !! l = None.

Definition new_proc (num : option Z) (st : stress) : pdata := PData st [] [] 0 (default 0 num) 0.

Lemma find_proc_info_dom s l st s' l' :
  find_proc_info (Some l) st s = Returns (l', s') -> dom (heap s') ⊆ {[l]} ∪ dom (heap s).
Proof.
  unfold find_proc_info. destruct (procs_tail s) as [t|].
  - unfold set_next, node_at. destruct (heap (set_node _ _ s) !! t) eqn:Ht; cbn [mbind option_bind]; [|done].
    intros [= <- <-]. cbn in *. apply elem_of_dom_2 in Ht. rewrite !dom_insert_L in *. set_solver.
  - intros [= <- <-]. cbn. rewrite dom_insert_L. set_solver.
Qed.

Lemma enable_loop_repr sts num allocs s ls :
  repr s ls -> fresh_allocs s allocs -> length allocs = length sts ->
  exists s', enable_loop sts num (Some <$> allocs) s = Returns s' /\
    repr s' (ls ++ zip allocs (new_proc num <$> sts)).
Proof.
  revert allocs s ls. induction sts as [|st sts IH]; intros allocs s ls Hr [Hnd Hf] Hlen.
  - destruct allocs; [|done]. exists s. split; [done|]. by rewrite app_nil_r.
  - destruct allocs as [|l allocs]; [done|]. apply NoDup_cons in Hnd as [Hl Hnd].
    rewrite fmap_cons. cbn [enable_loop head tail from_option id]. unfold id.
    destruct (find_proc_info_repr s ls l st Hr) as (s1 & Hs1 & Hr1); [apply Hf; left|].
    pose proof (find_proc_info_dom _ _ _ _ _ Hs1) as Hdom.
    rewrite Hs1. cbn [mbind outcome_bind].
    assert (exists s2, (match num with Some n => set_num l n s1 | None => Returns s1 end) = Returns s2 /\
      repr s2 (ls ++ [(l, new_proc num st)]) /\ dom (heap s2) = dom (heap s1)) as (s2 & -> & Hr2 & Hd2).
    { destruct num as [n|]; [|by exists s1].
      destruct (set_num_repr s1 ls l _ [] n Hr1) as (s2 & -> & Hr2 & Hd). by exists s2. }
    cbn [mbind outcome_bind].
    destruct (IH allocs s2 _ Hr2) as (s' & -> & Hr'); [|by injection Hlen|].
    + split; [done|]. intros x Hx. apply not_elem_of_dom. rewrite Hd2.
      assert (heap s !! x = None) as Hx0 by (apply Hf; by right). apply not_elem_of_dom in Hx0. set_solver.
    + exists s'. split; [done|]. by rewrite <- app_assoc in Hr'.
Qed.

(** Asking for all stressors appends one node per id, of the entries at the front
    of the table, each with the number of instances given, unless stressors were named before; asking
    for classes appends the entries of these classes, with the number of
    instances of the mode, parallel before sequential. *)
Theorem selection_appends stressors s ls :
  repr s ls ->
  (forall max fl n allocs, fresh_allocs s allocs -> length allocs = length (take max stressors) ->
     exists s', enable_all_stressors stressors max fl n (Some <$> allocs) s = Returns s' /\
       repr s' (if has fl OPT_FLAGS_SET then ls
                else ls ++ zip allocs (new_proc (Some (s32 n)) <$> take max stressors))) /\
  (forall fl class sq par allocs, class <> 0 -> fresh_allocs s allocs ->
     length allocs = length (List.filter (fun st => has (s_class st) class) stressors) ->
     exists s', enable_classes stressors fl class sq par (Some <$> allocs) s = Returns (fl .| OPT_FLAGS_SET, s') /\
       repr s' (ls ++ zip allocs
         (new_proc (if has fl OPT_FLAGS_ALL then Some par else if has fl OPT_FLAGS_SEQUENTIAL then Some sq else None)
            <$> List.filter (fun st => has (s_class st) class) stressors))).
Proof.
  intros Hr. split.
  - intros max fl n allocs Hf Hlen. unfold enable_all_stressors. destruct (has fl OPT_FLAGS_SET); [by exists s|].
    by apply enable_loop_repr.
  - intros fl class sq par allocs Hc Hf Hlen. unfold enable_classes.
    rewrite (proj2 (Z.eqb_neq class 0)) by done. cbv zeta.
    assert (forall b, b .& OPT_FLAGS_SET = 0 -> has (fl .| OPT_FLAGS_SET) b = has fl b) as Hhas.
    { intros b Hb. unfold has. rewrite Z.land_lor_distr_l, (Z.land_comm OPT_FLAGS_SET), Hb. by rewrite Z.lor_0_r. }
    rewrite !Hhas by reflexivity.
    destruct (enable_loop_repr (List.filter (fun st => has (s_class st) class) stressors)
      (if has fl OPT_FLAGS_ALL then Some par else if has fl OPT_FLAGS_SEQUENTIAL then Some sq else None)
      allocs s ls Hr Hf Hlen) as (s' & -> & Hr').
    exists s'. done.
Qed.

Lemma selection_appends_witness :
  exists s', enable_all_stressors [demo_stress 9] 1 0 4 [Some 5%positive] demo_procs = Returns s' /\
    repr s' (demo_list ++ [(5%positive, PData (demo_stress 9) [] [] 0 4 0)]).
Proof.
  destruct (selection_appends [demo_stress 9] demo_procs demo_list demo_procs_repr) as [Hall _].
  apply (Hall 1%nat 0 4 [5%positive]); [|reflexivity]. split; [apply NoDup_singleton|].
  intros l ->%list_elem_of_singleton. reflexivity.
Defined.

(** ** Random selection *)

Lemma total_procs_app ls1 ls2 : total_procs (ls1 ++ ls2) = total_procs ls1 + total_procs ls2.
Proof. unfold total_procs. induction ls1 as [|x ls1 IH]; cbn [app foldr]; lia. Qed.

Lemma total_procs_cons x ls : total_procs (x :: ls) = num_procs x.2 + total_procs ls.
Proof. done. Qed.

Lemma mod_u32_range v k : 0 < k < 2 ^ 31 -> 0 <= s32 (v mod u32 k) < k.
Proof.
  intros Hk. rewrite (u32_small k) by (unfold fits; lia).
  pose proof (Z.mod_pos_bound v k ltac:(lia)). unfold s32. rewrite u32_small by (unfold fits; lia).
  destruct (Z.ltb_spec (v mod k) (2 ^ 31)); lia.
Qed.

(** each round moves instances from the number left to one of the stressors *)
Definition more_procs (ls ls' : list (positive * pdata)) : Prop :=
  Forall2 (fun x y => x.1 = y.1 /\ stressor x.2 = stressor y.2 /\ num_procs x.2 <= num_procs y.2) ls ls'.

Lemma more_procs_refl ls : more_procs ls ls.
Proof. induction ls as [|x ls IH]; constructor; [|done]. split; [done|]. split; [done|lia]. Qed.

Lemma more_procs_trans ls1 ls2 ls3 : more_procs ls1 ls2 -> more_procs ls2 ls3 -> more_procs ls1 ls3.
Proof.
  intros H. revert ls3. induction H as [|x y l1 l2 (H1 & H2 & H3) _ IH]; intros ls3 H'; inversion H'; subst; [constructor|].
  match goal with H : _ /\ _ /\ _ |- _ => destruct H as (? & ? & ?) end.
  constructor; [|by apply IH]. split; [congruence|]. split; [congruence|lia].
Qed.

Lemma random_rounds_conserve k opt n r s ls :
  repr s ls -> ls <> [] -> Z.of_nat (length ls) < 2 ^ 32 -> 0 <= opt < 2 ^ 31 -> 0 <= n ->
  exists n' r' s' ls', random_rounds k opt (Z.of_nat (length ls)) n r s = Returns (n', r', s') /\
    repr s' ls' /\ more_procs ls ls' /\ 0 <= n' /\ total_procs ls' + n' = total_procs ls + n.
Proof.
  revert n r s ls. induction k as [|k IH]; intros n r s ls Hr Hne Hlen Ho Hn; cbn [random_rounds].
  { exists n, r, s, ls. split; [done|]. split; [done|]. split; [apply more_procs_refl|]. lia. }
  destruct (Z.leb_spec n 0).
  { exists n, r, s, ls. split; [done|]. split; [done|]. split; [apply more_procs_refl|]. lia. }
  destruct (mwc32 r) as [v r1]. destruct (mwc32 r1) as [w r2].
  assert (0 < Z.of_nat (length ls)) as Hpos by (destruct ls; [done|simpl; lia]).
  rewrite (u32_small (Z.of_nat (length ls))) by (unfold fits; lia).
  pose proof (Z.mod_pos_bound w (Z.of_nat (length ls)) Hpos) as Hw.
  rewrite (get_nth_proc_repr _ s ls Hr).
  destruct (lookup_lt_is_Some_2 ls (Z.to_nat (w mod Z.of_nat (length ls)))) as [[l d] Hl]; [lia|].
  rewrite Hl. cbn [fmap option_fmap option_map fst].
  apply list_elem_of_split_length in Hl as (ls1 & ls2 & Hls & _).
  assert (0 <= s32 (v mod u32 (Z.shiftr opt 5 + 2))) as Hrnd.
  { apply mod_u32_range. rewrite Z.shiftr_div_pow2 by lia. split; [|].
    - pose proof (Z.div_pos opt (2 ^ 5)). lia.
    - pose proof (Z.div_lt_upper_bound opt (2 ^ 5) (2 ^ 26)). lia. }
  set (rnd := s32 _) in *.
  assert (0 <= (if n <? rnd then n else rnd) <= n) as Hr' by (destruct (Z.ltb_spec n rnd); lia).
  set (rnd' := if n <? rnd then n else rnd) in *. clearbody rnd'. rewrite Hls in Hr.
  unfold node_at. rewrite (linked_lookup _ _ _ _ _ _ _ (proj1 Hr)). cbn [data].
  destruct (set_num_repr s ls1 l d ls2 (num_procs d + rnd') Hr) as (s1 & -> & Hr1 & _). cbn [mbind outcome_bind].
  assert (length ls = length (ls1 ++ (l, with_num (num_procs d + rnd') d) :: ls2)) as Hlen'.
  { rewrite Hls, !length_app. done. }
  rewrite Hlen'. destruct (IH (n - rnd') r2 s1 _ Hr1) as (n' & r' & s' & ls' & -> & Hrr & Hm & Hn' & Htot);
    [by destruct ls1|lia|done|lia|].
  exists n', r', s', ls'. split; [done|]. split; [done|]. split; [|split; [done|]].
  - eapply more_procs_trans; [|exact Hm]. rewrite Hls. apply Forall2_app; [apply more_procs_refl|].
    constructor; [split; [done|]; split; [done|cbn; lia]|apply more_procs_refl].
  - rewrite Htot, Hls, !total_procs_app, !total_procs_cons. cbn. lia.
Qed.

(** The random selection hands out exactly the number of instances asked for: at
    every moment, the instances given to the stressors so far and those left
    add up to it, no stressor loses one and none is added or removed; so when
    the loop ends with nothing left the whole number has been distributed. *)
Theorem random_selection_conserves k fl opt_random r s ls :
  repr s ls -> ls <> [] -> Z.of_nat (length ls) < 2 ^ 32 -> 0 <= opt_random < 2 ^ 31 ->
  has fl OPT_FLAGS_RANDOM = true -> has fl OPT_FLAGS_SET = false ->
  exists left r' s' ls', set_random_stressors k fl opt_random r s = Returns (left, r', s') /\
    repr s' ls' /\ more_procs ls ls' /\ 0 <= left /\
    total_procs ls' + left = total_procs ls + opt_random.
Proof.
  intros Hr Hne Hlen Ho Hf1 Hf2. unfold set_random_stressors. rewrite Hf1, Hf2. cbn [negb].
  rewrite (get_num_procs_repr s ls Hr), u32_small by (unfold fits; lia).
  assert (Z.of_nat (length ls) <> 0) as Hz by (destruct ls; [done|simpl; lia]).
  rewrite (proj2 (Z.eqb_neq _ 0)) by done. apply random_rounds_conserve; [done..|lia].
Qed.

Lemma random_selection_conserves_witness :
  exists left r' s' ls', set_random_stressors 20 OPT_FLAGS_RANDOM 12 mwc_init demo_procs = Returns (left, r', s') /\
    repr s' ls' /\ more_procs demo_list ls' /\ 0 <= left /\
    total_procs ls' + left = total_procs demo_list + 12.
Proof.
  apply (random_selection_conserves 20 OPT_FLAGS_RANDOM 12 mwc_init demo_procs demo_list demo_procs_repr);
    [discriminate|reflexivity|lia|reflexivity|reflexivity].
Defined.

(** When every stressor has been excluded, the random selection makes no
    progress: after any number of rounds all instances are still to be handed
    out, so the loop never ends. *)
Theorem random_selection_stuck k opt_random fl r s :
  repr s [] -> 0 < opt_random -> has fl OPT_FLAGS_RANDOM = true -> has fl OPT_FLAGS_SET = false ->
  exists r', set_random_stressors k fl opt_random r s = Returns (opt_random, r', s).
Proof.
  intros Hr Ho Hf1 Hf2. unfold set_random_stressors. rewrite Hf1, Hf2. cbn [negb].
  rewrite (get_num_procs_repr s [] Hr). cbn [length Z.of_nat]. change (u32 0 =? 0) with true. cbv iota.
  revert r. induction k as [|k IH]; intros r; cbn [random_rounds]; [by exists r|].
  destruct (Z.leb_spec opt_random 0); [lia|]. destruct (mwc32 r) as [v r1]. destruct (mwc32 r1) as [w r2].
  rewrite (get_nth_proc_repr _ s [] Hr). cbn. apply IH.
Qed.

Lemma random_selection_stuck_witness :
  exists r', set_random_stressors 1000 OPT_FLAGS_RANDOM 4 mwc_init no_procs = Returns (4, r', no_procs).
Proof.
  apply (random_selection_stuck 1000 4 OPT_FLAGS_RANDOM mwc_init no_procs no_procs_repr);
    [lia|reflexivity|reflexivity].
Defined.

(** ** Resources *)

Lemma share_ops_value d n b :
  num_procs d = n -> bogo_ops d = b -> 0 < n < 2 ^ 31 -> 0 <= b -> b + n <= 2 ^ 64 ->
  b <= n * bogo_ops (share_ops d) < b + n.
Proof.
  intros Hn Hb Hn1 Hb1 Hsum. unfold share_ops. cbn [bogo_ops]. rewrite Hn, Hb.
  assert (c_true n = true) as -> by (apply negb_true_iff, Z.eqb_neq; lia).
  rewrite (u64_small (n - 1)), (u64_small n) by (unfold fits; lia). rewrite u64_small by (unfold fits; lia).
  pose proof (Z.div_mod (b + (n - 1)) n ltac:(lia)). pose proof (Z.mod_pos_bound (b + (n - 1)) n ltac:(lia)). nia.
Qed.

Lemma map_acc_parallel class par ls :
  map_acc (setup_parallel_proc (fun _ => true) class par) true ls =
    ((fun x => (x.1, (setup_parallel_proc (fun _ => true) class par x.2 true).1)) <$> ls, true).
Proof.
  induction ls as [|[l d] ls IH]; [done|]. cbn [map_acc].
  assert ((setup_parallel_proc (fun _ => true) class par d true).2 = true) as Ha.
  { unfold setup_parallel_proc. cbn [negb]. by destruct (c_true _). }
  rewrite fmap_cons. cbn [fst snd]. destruct (setup_parallel_proc _ class par d true) as [d' a]. cbn [fst snd] in *.
  subst a. by rewrite IH.
Qed.

(** a stressor whose per instance arrays have the size of its number of instances *)
Definition ready (d : pdata) : Prop :=
  0 <= num_procs d /\ length (pids d) = Z.to_nat (num_procs d) /\ length (stats d) = Z.to_nat (num_procs d).

(** a stressor as [find_proc_info] and the option parser leave it *)
Definition selected (d : pdata) : Prop := 0 <= num_procs d /\ pids d = [] /\ stats d = [].

Lemma setup_parallel_ready class par d :
  0 <= par -> selected d -> ready (setup_parallel_proc (fun _ => true) class par d true).1.
Proof.
  intros Hp (Hn & Hpids & Hst). unfold setup_parallel_proc. cbn [negb].
  set (d' := share_ops (class_num class par d)).
  assert (0 <= num_procs d' /\ pids d' = [] /\ stats d' = []) as (Hn' & Hpids' & Hst').
  { unfold d', share_ops, class_num. by destruct (has _ class). }
  destruct (c_true (num_procs d')) eqn:Hc; cbn [fst].
  - unfold ready, alloc_proc_resources. cbn. by rewrite !length_replicate.
  - apply negb_false_iff, Z.eqb_eq in Hc. unfold ready. by rewrite Hpids', Hst', Hc.
Qed.

Lemma list_inserts_all {A} (k l : list A) : length k = length l -> list_inserts 0 k l = k.
Proof.
  intros Hlen. apply list_eq. intros i. destruct (decide (i < length k)%nat) as [Hi|Hi].
  - rewrite list_lookup_inserts by lia. f_equal. lia.
  - rewrite list_lookup_inserts_ge by lia. rewrite !lookup_ge_None_2 by lia. done.
Qed.

Definition all_slots (ls : list (positive * pdata)) : list Z := concat ((fun x => stats x.2) <$> ls).

Lemma assign_slots_all a ls :
  Forall (fun x => ready x.2) ls ->
  let r := map_acc assign_slots a ls in
  all_slots r.1 = seqZ a (total_procs ls) /\ total_procs r.1 = total_procs ls /\ 0 <= total_procs ls /\
  Forall (fun x => ready x.2) r.1.
Proof.
  intros H. revert a. induction H as [|[l d] ls (Hn & Hp & Hst) _ IH]; intros a; [done|]. cbn [snd] in *.
  cbv zeta. cbn [map_acc]. unfold assign_slots at 1 3 5. rewrite Z.max_r by done.
  specialize (IH (a + num_procs d)). cbv zeta in IH. destruct (map_acc assign_slots (a + num_procs d) ls) as [ls' a'].
  cbn [fst snd] in *. destruct IH as (Hs & Ht & H0 & Hrd).
  rewrite !total_procs_cons, Ht. cbn [snd num_procs].
  assert (list_inserts 0 (seqZ a (num_procs d)) (stats d) = seqZ a (num_procs d)) as ->.
  { apply list_inserts_all. by rewrite length_seqZ. }
  split; [|split; [done|]; split; [lia|]].
  - unfold all_slots in *. rewrite fmap_cons. cbn [concat snd stats]. rewrite Hs. by rewrite seqZ_app.
  - constructor; [|done]. split; [done|]. split; [done|]. cbn. by rewrite length_seqZ.
Qed.

(** (C33) After the set-up of a parallel run every instance of every stressor has a
    pid entry and a statistics slot of its own: the slots handed out are
    0, 1, 2, ... in the order of the list, none twice, and as many as
    [get_total_num_procs] counts, which is what the shared mapping is sized for. *)
Theorem stats_slots_disjoint class par timeout s ls :
  repr s ls -> Forall (fun x => selected x.2) ls -> 0 <= par ->
  exists t s1 s2 ls2, stress_setup_parallel (fun _ => true) class par timeout s = Returns (t, s1) /\
    setup_stats_buffers s1 = Some s2 /\ repr s2 ls2 /\ ls2.*1 = ls.*1 /\
    Forall (fun x => ready x.2) ls2 /\
    all_slots ls2 = seqZ 0 (total_procs ls2) /\ NoDup (all_slots ls2) /\
    get_total_num_procs s2 = Some (u32 (Z.of_nat (length (all_slots ls2)))).
Proof.
  intros Hr Hsel Hpar. unfold stress_setup_parallel.
  destruct (each_proc_repr (setup_parallel_proc (fun _ => true) class par) true s ls Hr) as (s1 & -> & Hr1).
  rewrite map_acc_parallel in *. cbn [fst snd] in *. set (ls1 := _ <$> ls) in *.
  assert (Forall (fun x => ready x.2) ls1) as Hready.
  { unfold ls1. apply Forall_fmap. eapply Forall_impl; [exact Hsel|]. intros x Hx. by apply setup_parallel_ready. }
  eexists _, s1. unfold setup_stats_buffers.
  destruct (each_proc_repr assign_slots 0 s1 ls1 Hr1) as (s2 & -> & Hr2).
  exists s2, (map_acc assign_slots 0 ls1).1. destruct (assign_slots_all 0 ls1 Hready) as (Hs & Ht & H0 & Hrd).
  split; [done|]. split; [done|]. split; [done|]. split; [|split; [done|split; [by rewrite Ht|split]]].
  - rewrite map_acc_locs. unfold ls1. by rewrite <- list_fmap_compose.
  - rewrite Hs. apply NoDup_seqZ.
  - rewrite (get_total_num_procs_repr _ _ Hr2), Hs, length_seqZ, Ht. by rewrite Z2Nat.id.
Qed.

Lemma stats_slots_disjoint_witness :
  exists t s1 s2 ls2, stress_setup_parallel (fun _ => true) 0 0 60 demo_procs = Returns (t, s1) /\
    setup_stats_buffers s1 = Some s2 /\ repr s2 ls2 /\ ls2.*1 = demo_list.*1 /\
    Forall (fun x => ready x.2) ls2 /\
    all_slots ls2 = seqZ 0 (total_procs ls2) /\ NoDup (all_slots ls2) /\
    get_total_num_procs s2 = Some (u32 (Z.of_nat (length (all_slots ls2)))).
Proof.
  apply (stats_slots_disjoint 0 0 60 demo_procs demo_list demo_procs_repr); [|lia].
  repeat apply Forall_cons_2; [..|apply Forall_nil_2]; (split; [simpl; lia|done]).
Defined.

(** The bogo operations of a stressor are shared out rounding up: together its
    instances do at least the number asked for, and fewer than one operation
    each too many. *)
Theorem bogo_ops_shared class par d :
  0 < num_procs (class_num class par d) < 2 ^ 31 -> 0 <= bogo_ops d -> bogo_ops d + 2 ^ 31 <= 2 ^ 64 ->
  let d' := (setup_parallel_proc (fun _ => true) class par d true).1 in
  num_procs d' = num_procs (class_num class par d) /\
  bogo_ops d <= num_procs d' * bogo_ops d' < bogo_ops d + num_procs d'.
Proof.
  intros Hn Hb Hsum d'. set (c := class_num class par d) in *.
  assert (bogo_ops c = bogo_ops d) as Hc by (unfold c, class_num; by destruct (has _ class)).
  assert (num_procs d' = num_procs c /\ bogo_ops d' = bogo_ops (share_ops c)) as [-> ->].
  { unfold d', setup_parallel_proc. cbn [negb]. fold c. by destruct (c_true (num_procs (share_ops c))). }
  split; [done|]. apply share_ops_value; [done|done|done|done|lia].
Qed.

Lemma bogo_ops_shared_witness :
  num_procs (setup_parallel_proc (fun _ => true) 0 0 (PData (demo_stress 7) [] [] 0 3 100) true).1 = 3 /\
  100 <= 3 * 34 < 103.
Proof.
  apply (bogo_ops_shared 0 0 (PData (demo_stress 7) [] [] 0 3 100)); [simpl; lia|simpl; lia|].
  apply Z.leb_le. reflexivity.
Defined.

(** ** Helpers *)

(** one call per stressor that has the helper's id and instances, or whose
    option is set *)
Definition helper_calls (fl : Z) (ls : list (positive * pdata)) (h : proc_helper_t) : list nat :=
  List.map (fun _ => func h) (List.filter (fun x => (s_id (stressor x.2) =? str_id h) &&
    (c_true (num_procs x.2) || has fl (opt_flag h))) ls).

Lemma helper_fold fl h ls acc :
  foldl (fun calls (x : positive * pdata) =>
    if (s_id (stressor x.2) =? str_id h) && (c_true (num_procs x.2) || has fl (opt_flag h))
    then calls ++ [func h] else calls) acc ls = acc ++ helper_calls fl ls h.
Proof.
  revert acc. induction ls as [|x ls IH]; intros acc; cbn [foldl]; [by rewrite app_nil_r|].
  rewrite IH. unfold helper_calls. cbn [List.filter].
  destruct ((s_id (stressor x.2) =? str_id h) && _); [|done]. cbn [List.map]. by rewrite <- app_assoc.
Qed.

Lemma proc_helper_calls fl helpers s ls :
  repr s ls -> proc_helper fl helpers s = Some (concat (helper_calls fl ls <$> helpers)).
Proof.
  revert s. induction helpers as [|h helpers IH]; intros s Hr; [done|]. cbn [proc_helper].
  set (g := fun (d : pdata) (calls : list nat) =>
    if (s_id (stressor d) =? str_id h) && (c_true (num_procs d) || has fl (opt_flag h))
    then calls ++ [func h] else calls).
  destruct (each_proc_repr (fun d calls => (d, g d calls)) [] s ls Hr) as (s' & Hs' & Hr').
  unfold g in Hs' at 1. rewrite Hs'. rewrite map_acc_id in Hr'. rewrite (map_acc_fold g).
  cbn [mbind option_bind]. rewrite (IH s' Hr'). cbn [mbind option_bind]. f_equal. rewrite fmap_cons. cbn [concat].
  f_equal. unfold g. by rewrite (helper_fold fl h ls []).
Qed.

(** The helpers called for a list of stressors are those of its elements, in the
    order of the helper table; but once [free_procs] has run, as in the tidy-up
    of the main program, no helper is called at all. *)
Theorem helpers_of_freed_list fl helpers s ls :
  repr s ls ->
  proc_helper fl helpers s = Some (concat (helper_calls fl ls <$> helpers)) /\
  exists s', free_procs s = Some s' /\ proc_helper fl helpers s' = Some [].
Proof.
  intros Hr. split; [by apply proc_helper_calls|].
  pose proof (repr_size s ls Hr) as Hsz. destruct Hr as (H & Hnd & Hh & _).
  unfold free_procs. rewrite Hh. destruct (free_walk_linked _ _ None ls H Hnd Hsz) as (h' & -> & _).
  eexists. split; [done|]. rewrite (proc_helper_calls _ _ _ []).
  - f_equal. induction helpers; done.
  - repeat split. constructor.
Qed.

Lemma helpers_of_freed_list_witness :
  proc_helper 0 [ProcHelper 8 0 5] demo_procs = Some [5%nat] /\
  exists s', free_procs demo_procs = Some s' /\ proc_helper 0 [ProcHelper 8 0 5] s' = Some [].
Proof. apply (helpers_of_freed_list 0 [ProcHelper 8 0 5] demo_procs demo_list demo_procs_repr). Defined.
