(* ===== verification/Parser.v ===== *)
(** * The option parser (stress-ng.c)

    [parse_opts()]: the options [getopt_long()] finds are handled one after the
    other.  An option that names a stressor or its number of operations works on
    the stressor list; the others go through the [switch], which is the table
    [switch] of actions.  The state is that of the globals the parser writes;
    what the system answers is the environment [penv]. *)

From S2P Require Import Prelude Flags Limits Cpu VmState Mincore Outcome ParseOpts Settings Helpers Affinity Priority Setters Named SgxUtils EnclaveVm EnclaveCpu Procs Tables Getopt ProcOps.

(** ** State and environment *)

Record popts := POpts {
  g_opt_flags : Z;
  g_opt_sequential : Z;
  g_opt_parallel : Z;
  g_opt_timeout : Z;
  timer_slack : Z;
  max_servers : Z;
  stress_temp_path : Z;            (** an address *)
  affinities : list (gset Z);      (** the sets the kernel was asked for *)
  plist : procs;
  proc_current : Procs.ptr;
  settings : store
}.

Definition with_flags (f : Z -> Z) (st : popts) : popts :=
  POpts (f (g_opt_flags st)) (g_opt_sequential st) (g_opt_parallel st) (g_opt_timeout st) (timer_slack st)
    (max_servers st) (stress_temp_path st) (affinities st) (plist st) (proc_current st) (settings st).
Definition with_settings (s : store) (st : popts) : popts :=
  POpts (g_opt_flags st) (g_opt_sequential st) (g_opt_parallel st) (g_opt_timeout st) (timer_slack st)
    (max_servers st) (stress_temp_path st) (affinities st) (plist st) (proc_current st) s.
Definition with_list (l : procs) (cur : Procs.ptr) (st : popts) : popts :=
  POpts (g_opt_flags st) (g_opt_sequential st) (g_opt_parallel st) (g_opt_timeout st) (timer_slack st)
    (max_servers st) (stress_temp_path st) (affinities st) l cur (settings st).
Definition with_modes (sq par timeout : Z) (st : popts) : popts :=
  POpts (g_opt_flags st) sq par timeout (timer_slack st)
    (max_servers st) (stress_temp_path st) (affinities st) (plist st) (proc_current st) (settings st).
Definition with_system (slack servers path : Z) (sets : list (gset Z)) (st : popts) : popts :=
  POpts (g_opt_flags st) (g_opt_sequential st) (g_opt_parallel st) (g_opt_timeout st) slack servers path sets
    (plist st) (proc_current st) (settings st).

(** the globals before the options are parsed *)
Definition initial : popts :=
  POpts (PR_ERROR .| PR_INFO .| OPT_FLAGS_MMAP_MADVISE) 0 0 TIMEOUT_NOT_SET 0 1 0 [] no_procs None no_settings.

Record penv := PEnv {
  pe_defined : string -> bool;           (** the macros of the build *)
  pe_symbol : string -> Z;               (** the addresses of the tables *)
  pe_keep : nat -> bool;                 (** [g_keep_stressing_flag] *)
  pe_cenv : cenv;                        (** for the setters *)
  pe_allocs : procs -> list Procs.ptr;   (** the answers of [calloc] for list nodes *)
  pe_online : Z;                         (** [stress_get_processors_online()] *)
  pe_configured : Z;                     (** [stress_get_processors_configured()] *)
  pe_setaffinity : gset Z -> bool;
  pe_access : string -> bool;            (** whether a path can be read and written *)
  pe_sgx : sgx_env;
  pe_sgx_methods : list (string * cpu_func);
  pe_mincore : nat -> mincore_env
}.

(** a setter runs for the stressor that was named last *)
Definition cenv_of (e : penv) (st : popts) : cenv :=
  let c := pe_cenv e in
  CEnv (proc_current st) (ce_alloc c) (ce_dup c) (ce_local c) (ce_phys_mem c) (ce_fs_size c) (ce_percent c)
    (ce_page_size c) (ce_inodes c).

(** ** Options the parser stores itself *)

Definition setter_of_value (key : string) (t : type_id) (parse : string -> outcome Z) :
    cenv -> string -> store -> outcome store :=
  fun e opt s => x ← parse opt; set_local e key t x s.

Definition opt_backoff := setter_of_value "backoff" TYPE_ID_INT64 (fun opt => x ← get_uint64 opt; Returns (s64 x)).

(** as the C library of Linux has it: what cannot be read is 0 *)
Definition atoi (str : string) : Z :=
  match scan_number (no_width str) str with None => 0 | Some p => s32 (strtol p) end.

Definition s16 (x : Z) : Z := let y := u16 x in if y <? 2 ^ 15 then y else y - 2 ^ 16.

Definition DEFAULT_CACHE_LEVEL : Z := 3.

Definition opt_cache_level := setter_of_value "cache-level" TYPE_ID_INT16 (fun opt =>
  let i16 := s16 (atoi opt) in Returns (if (i16 <=? 0) || (3 <? i16) then DEFAULT_CACHE_LEVEL else i16)).

Definition opt_cache_ways := setter_of_value "cache-ways" TYPE_ID_UINT32 get_uint32.
Definition opt_ionice_class := setter_of_value "ionice-class" TYPE_ID_INT32 get_opt_ionice_class.
Definition opt_ionice_level := setter_of_value "ionice-level" TYPE_ID_INT32 get_int32.
Definition opt_sched := setter_of_value "sched" TYPE_ID_INT32 get_opt_sched.
Definition opt_sched_prio := setter_of_value "sched-prio" TYPE_ID_INT32 get_int32.

(** ** Options with an effect of their own

    The value [parse_opts()] returns, if it does, and the state. *)

Definition result : Type := outcome (option Z * popts).

Definition processors (e : penv) (n : Z) : Z := stress_get_processors (pe_online e) (pe_configured e) n.

Definition opt_all (e : penv) (optarg : arg) (st : popts) : result :=
  n ← get_int32 optarg.2;
  let n := processors e n in
  check_value "all" n;;
  Returns (None, with_modes (g_opt_sequential st) n (g_opt_timeout st)
    (with_flags (fun f => f .| OPT_FLAGS_ALL) st)).

Definition MIN_OPS : Z := 1.
Definition MAX_OPS : Z := 100000000.
Definition MIN_SEQUENTIAL : Z := 0.
Definition MAX_SEQUENTIAL : Z := 1000000.

Definition opt_sequential (e : penv) (optarg : arg) (st : popts) : result :=
  n ← get_int32 optarg.2;
  let n := processors e n in
  check_range "sequential" (u64 n) MIN_SEQUENTIAL MAX_SEQUENTIAL;;
  Returns (None, with_modes n (g_opt_parallel st) (g_opt_timeout st)
    (with_flags (fun f => f .| OPT_FLAGS_SEQUENTIAL) st)).

(** checked before the number of processors takes the place of 0 or -1 *)
Definition opt_random (e : penv) (optarg : arg) (st : popts) : result :=
  n ← get_int32 optarg.2;
  check_value "random" n;;
  let n := processors e n in
  s ← set_local (cenv_of e st) "random" TYPE_ID_INT32 n (settings st);
  Returns (None, with_settings s (with_flags (fun f => f .| OPT_FLAGS_RANDOM) st)).

Definition opt_class (e : penv) (optarg : arg) (st : popts) : result :=
  let '(ret, class, _) := get_class (cs optarg.2) in
  if ret <? 0 then Returns (Some EXIT_FAILURE, st)
  else if 0 <? ret then Exits EXIT_SUCCESS (Information "class")
  else
    s ← set_local (cenv_of e st) "class" TYPE_ID_UINT32 class (settings st);
    '(fl, l) ← enable_classes stressors (g_opt_flags st) class (g_opt_sequential st) (g_opt_parallel st)
                 (pe_allocs e (plist st)) (plist st);
    Returns (None, with_list l (proc_current st) (with_flags (fun _ => fl) (with_settings s st))).

Definition opt_epoll_domain (e : penv) (optarg : arg) (st : popts) : result :=
  '(ret, servers, s) ← stress_set_epoll_domain (cenv_of e st) optarg.2 (settings st);
  let st := with_settings s (with_system (timer_slack st) servers (stress_temp_path st) (affinities st) st) in
  Returns (if ret <? 0 then Some EXIT_FAILURE else None, st).

Definition opt_taskset (e : penv) (optarg : arg) (st : popts) : result :=
  '(set_, ret) ← set_cpu_affinity (pe_configured e) (pe_setaffinity e) (cs optarg.2);
  let st := with_system (timer_slack st) (max_servers st) (stress_temp_path st) (affinities st ++ [set_]) st in
  Returns (if ret <? 0 then Some EXIT_FAILURE else None, st).

(** the path is kept, and refused if it cannot be used *)
Definition stress_set_temp_path (e : penv) (path : arg) (st : popts) : Z * popts :=
  (if pe_access e path.2 then 0 else -1,
   with_system (timer_slack st) (max_servers st) path.1 (affinities st) st).

Definition opt_temp_path (e : penv) (optarg : arg) (st : popts) : result :=
  let '(ret, st) := stress_set_temp_path e optarg st in
  Returns (if ret <? 0 then Some EXIT_FAILURE else None, st).

Definition opt_timeout (e : penv) (optarg : arg) (st : popts) : result :=
  t ← get_uint64_time optarg.2;
  Returns (None, with_modes (g_opt_sequential st) (g_opt_parallel st) t st).

Definition stress_set_timer_slack_ns (e : penv) (opt : string) (st : popts) : outcome popts :=
  if pe_defined e "__linux__" && pe_defined e "PRCTL_TIMER_SLACK" then
    n ← get_uint32 opt;
    Returns (with_system n (max_servers st) (stress_temp_path st) (affinities st) st)
  else Returns st.

Definition opt_timer_slack (e : penv) (optarg : arg) (st : popts) : result :=
  st ← stress_set_timer_slack_ns e optarg.2 (with_flags (fun f => f .| OPT_FLAGS_TIMER_SLACK) st);
  Returns (None, st).

Definition sgx_vm_chooser (e : penv) : chooser :=
  stress_set_sgx_vm_method (M := ram) 0 (pe_mincore e) 1 true 0 (pe_sgx e).

Definition MAP_LOCKED : Z := 0x2000.
Definition MAP_POPULATE : Z := 0x8000.

(** ** The switch *)

Inductive action : Type :=
  | FlagsOn (f : Z)
  | FlagsOff (f : Z)
  | Setter (f : cenv -> string -> store -> outcome store)
  | Plainly (f : cenv -> store -> outcome store)          (** without an argument *)
  | ByAddress (f : cenv -> Z -> store -> outcome store)   (** keeps the address of its argument *)
  | Chooser (f : chooser)                                 (** -1 ends the parser *)
  | StrSetting (key : string)
  | Special (f : penv -> arg -> popts -> result)
  | Show (what : string)                                  (** and exit *)
  | Refuse
  | Nothing.

(** whether the action looks at the argument *)
Definition reads_arg (a : action) : bool :=
  match a with
  | Setter _ | ByAddress _ | Chooser _ | StrSetting _ | Special _ => true
  | _ => false
  end.

Definition act (e : penv) (a : action) (optarg : option arg) (st : popts) : result :=
  let c := cenv_of e st in
  match a, optarg with
  | FlagsOn f, _ => Returns (None, with_flags (fun g => g .| f) st)
  | FlagsOff f, _ => Returns (None, with_flags (fun g => g .& not64 f) st)
  | Plainly f, _ => s ← f c (settings st); Returns (None, with_settings s st)
  | Show what, _ => Exits EXIT_SUCCESS (Information what)
  | Refuse, _ => Returns (Some EXIT_FAILURE, st)
  | Nothing, _ => Returns (None, st)
  | Setter f, Some x => s ← f c x.2 (settings st); Returns (None, with_settings s st)
  | ByAddress f, Some x => s ← f c x.1 (settings st); Returns (None, with_settings s st)
  | Chooser f, Some x =>
      '(ret, s) ← f c x.2 x.1 (settings st);
      Returns (if ret <? 0 then Some EXIT_FAILURE else None, with_settings s st)
  | StrSetting key, Some x => s ← set_string c key x.1 (settings st); Returns (None, with_settings s st)
  | Special f, Some x => f e x st
  | _, None => Undefined
  end.

Section Switch.
Variable e : penv.
Let defined := pe_defined e.
Let symbol := pe_symbol e.

Definition switch_1 : list (Z * action) :=
  [ (OPT_ABORT, FlagsOn OPT_FLAGS_ABORT);
    (OPT_AIO_REQUESTS, Setter stress_set_aio_requests);
    (OPT_AIO_LINUX_REQUESTS, Setter stress_set_aio_linux_requests);
    (OPT_ALL, Special opt_all);
    (OPT_AFFINITY_RAND, FlagsOn OPT_FLAGS_AFFINITY_RAND);
    (OPT_AGGRESSIVE, FlagsOn OPT_FLAGS_AGGRESSIVE_MASK);
    (OPT_BACKOFF, Setter opt_backoff);
    (OPT_BIGHEAP_GROWTH, Setter stress_set_bigheap_growth);
    (OPT_BRK_NOTOUCH, FlagsOn OPT_FLAGS_BRK_NOTOUCH);
    (OPT_BSEARCH_SIZE, Setter stress_set_bsearch_size);
    (OPT_CACHE_PREFETCH, FlagsOn OPT_FLAGS_CACHE_PREFETCH);
    (OPT_CACHE_FLUSH, FlagsOn OPT_FLAGS_CACHE_FLUSH);
    (OPT_CACHE_FENCE, FlagsOn OPT_FLAGS_CACHE_FENCE);
    (OPT_CACHE_LEVEL, Setter opt_cache_level);
    (OPT_CACHE_NO_AFFINITY, FlagsOn OPT_FLAGS_CACHE_NOAFF);
    (OPT_CACHE_WAYS, Setter opt_cache_ways);
    (OPT_CHDIR_DIRS, Setter stress_set_chdir_dirs);
    (OPT_CLASS, Special opt_class);
    (OPT_CLONE_MAX, Setter stress_set_clone_max);
    (OPT_COPY_FILE_BYTES, Setter stress_set_copy_file_bytes);
    (OPT_CPU_LOAD, Setter stress_set_cpu_load);
    (OPT_CPU_LOAD_SLICE, Setter stress_set_cpu_load_slice);
    (OPT_CPU_ONLINE_ALL, FlagsOn OPT_FLAGS_CPU_ONLINE_ALL);
    (OPT_CPU_METHOD, Chooser (stress_set_cpu_method defined symbol));
    (OPT_CYCLIC_DIST, Setter stress_set_cyclic_dist);
    (OPT_CYCLIC_METHOD, Chooser (stress_set_cyclic_method defined symbol));
    (OPT_CYCLIC_POLICY, Chooser (stress_set_cyclic_policy defined));
    (OPT_CYCLIC_PRIO, Setter stress_set_cyclic_prio);
    (OPT_CYCLIC_SLEEP, Setter stress_set_cyclic_sleep);
    (OPT_DRY_RUN, FlagsOn OPT_FLAGS_DRY_RUN);
    (OPT_DCCP_DOMAIN, Chooser stress_set_dccp_domain);
    (OPT_DCCP_OPTS, Chooser (stress_set_dccp_opts defined));
    (OPT_DCCP_PORT, Setter stress_set_dccp_port);
    (OPT_DENTRIES, Setter stress_set_dentries);
    (OPT_DENTRY_ORDER, Chooser stress_set_dentry_order);
    (OPT_DIR_DIRS, Setter stress_set_dir_dirs);
    (OPT_DIRDEEP_DIRS, Setter stress_set_dirdeep_dirs);
    (OPT_DIRDEEP_INODES, Setter stress_set_dirdeep_inodes);
    (OPT_EPOLL_DOMAIN, Special opt_epoll_domain);
    (OPT_EPOLL_PORT, Setter stress_set_epoll_port) ].

Definition switch_2 : list (Z * action) :=
  [ (OPT_EXCLUDE, StrSetting "exclude");
    (OPT_EXEC_MAX, Setter stress_set_exec_max);
    (OPT_FALLOCATE_BYTES, Setter stress_set_fallocate_bytes);
    (OPT_FIEMAP_BYTES, Setter stress_set_fiemap_bytes);
    (OPT_FIFO_READERS, Setter stress_set_fifo_readers);
    (OPT_FILENAME_OPTS, Chooser stress_filename_opts);
    (OPT_FORK_MAX, Setter stress_set_fork_max);
    (OPT_FSTAT_DIR, ByAddress stress_set_fstat_dir);
    (OPT_FUNCCALL_METHOD, Chooser (stress_set_funccall_method defined symbol));
    (OPT_HELP, Show "usage");
    (OPT_HDD_BYTES, Setter stress_set_hdd_bytes);
    (OPT_HDD_OPTS, Chooser (stress_hdd_opts defined));
    (OPT_HDD_WRITE_SIZE, Setter stress_set_hdd_write_size);
    (OPT_HEAPSORT_INTEGERS, Setter stress_set_heapsort_size);
    (OPT_HSEARCH_SIZE, Setter stress_set_hsearch_size);
    (OPT_IGNITE_CPU, FlagsOn OPT_FLAGS_IGNITE_CPU);
    (OPT_IOMIX_BYTES, Setter stress_set_iomix_bytes);
    (OPT_IONICE_CLASS, Setter opt_ionice_class);
    (OPT_IONICE_LEVEL, Setter opt_ionice_level);
    (OPT_IOPORT_OPTS, Chooser stress_set_ioport_opts);
    (OPT_ITIMER_FREQ, Setter stress_set_itimer_freq);
    (OPT_JOB, StrSetting "job");
    (OPT_KEEP_NAME, FlagsOn OPT_FLAGS_KEEP_NAME);
    (OPT_LEASE_BREAKERS, Setter stress_set_lease_breakers);
    (OPT_LOCKF_NONBLOCK, FlagsOn OPT_FLAGS_LOCKF_NONBLK);
    (OPT_LOG_BRIEF, FlagsOn OPT_FLAGS_LOG_BRIEF);
    (OPT_LOG_FILE, StrSetting "log-file");
    (OPT_LSEARCH_SIZE, Setter stress_set_lsearch_size);
    (OPT_MALLOC_BYTES, Setter stress_set_malloc_bytes);
    (OPT_MALLOC_MAX, Setter stress_set_malloc_max);
    (OPT_MALLOC_THRESHOLD, Setter stress_set_malloc_threshold);
    (OPT_MATRIX_METHOD, Chooser stress_set_matrix_method);
    (OPT_MATRIX_YX, Plainly stress_set_matrix_yx);
    (OPT_MATRIX_SIZE, Setter stress_set_matrix_size);
    (OPT_MAXIMIZE, FlagsOn OPT_FLAGS_MAXIMIZE);
    (OPT_MEMFD_BYTES, Setter stress_set_memfd_bytes);
    (OPT_MEMFD_FDS, Setter stress_set_memfd_fds);
    (OPT_MEMRATE_BYTES, Setter stress_set_memrate_bytes);
    (OPT_MEMRATE_RD_MBS, Setter stress_set_memrate_rd_mbs);
    (OPT_MEMRATE_WR_MBS, Setter stress_set_memrate_wr_mbs);
    (OPT_MEMTHRASH_METHOD, Chooser (stress_set_memthrash_method defined symbol));
    (OPT_METRICS, FlagsOn OPT_FLAGS_METRICS);
    (OPT_METRICS_BRIEF, FlagsOn (OPT_FLAGS_METRICS_BRIEF .| OPT_FLAGS_METRICS));
    (OPT_MERGESORT_INTEGERS, Setter stress_set_mergesort_size);
    (OPT_MINCORE_RAND, FlagsOn OPT_FLAGS_MINCORE_RAND);
    (OPT_MINIMIZE, FlagsOn OPT_FLAGS_MINIMIZE) ].

Definition switch_3 : list (Z * action) :=
  [ (OPT_MMAP_ASYNC, FlagsOn (OPT_FLAGS_MMAP_FILE .| OPT_FLAGS_MMAP_ASYNC));
    (OPT_MMAP_BYTES, Setter stress_set_mmap_bytes);
    (OPT_MMAP_FILE, FlagsOn OPT_FLAGS_MMAP_FILE);
    (OPT_MMAP_MPROTECT, FlagsOn OPT_FLAGS_MMAP_MPROTECT);
    (OPT_MREMAP_BYTES, Setter stress_set_mremap_bytes);
    (OPT_MSYNC_BYTES, Setter stress_set_msync_bytes);
    (OPT_MQ_SIZE, Setter stress_set_mq_size);
    (OPT_NO_MADVISE, FlagsOff OPT_FLAGS_MMAP_MADVISE);
    (OPT_NO_RAND_SEED, FlagsOn OPT_FLAGS_NO_RAND_SEED);
    (OPT_OOMABLE, FlagsOn OPT_FLAGS_OOMABLE);
    (OPT_PAGE_IN, FlagsOn OPT_FLAGS_MMAP_MINCORE);
    (OPT_PATHOLOGICAL, FlagsOn OPT_FLAGS_PATHOLOGICAL) ] ++
  ifdef defined "STRESS_PERF_STATS" [ (OPT_PERF_STATS, FlagsOn OPT_FLAGS_PERF_STATS) ] ++
  [ (OPT_PIPE_DATA_SIZE, Setter stress_set_pipe_data_size) ] ++
  ifdef defined "F_SETPIPE_SZ" [ (OPT_PIPE_SIZE, Setter stress_set_pipe_size) ] ++
  [ (OPT_PTHREAD_MAX, Setter stress_set_pthread_max);
    (OPT_PTY_MAX, Setter stress_set_pty_max);
    (OPT_QSORT_INTEGERS, Setter stress_set_qsort_size);
    (OPT_QUERY, Refuse);
    (OPT_QUIET, FlagsOff PR_ALL);
    (OPT_RADIXSORT_SIZE, Setter stress_set_radixsort_size);
    (OPT_RANDOM, Special opt_random);
    (OPT_RAWDEV_METHOD, Chooser (stress_set_rawdev_method defined symbol));
    (OPT_READAHEAD_BYTES, Setter stress_set_readahead_bytes);
    (OPT_SCHED, Setter opt_sched);
    (OPT_SCHED_PRIO, Setter opt_sched_prio);
    (OPT_SCTP_PORT, Setter stress_set_sctp_port);
    (OPT_SCTP_DOMAIN, Chooser stress_set_sctp_domain);
    (OPT_SEEK_PUNCH, FlagsOn OPT_FLAGS_SEEK_PUNCH);
    (OPT_SEEK_SIZE, Setter stress_set_seek_size);
    (OPT_SEMAPHORE_POSIX_PROCS, Setter stress_set_semaphore_posix_procs);
    (OPT_SEMAPHORE_SYSV_PROCS, Setter stress_set_semaphore_sysv_procs);
    (OPT_SENDFILE_SIZE, Setter stress_set_sendfile_size);
    (OPT_SEQUENTIAL, Special opt_sequential);
    (OPT_SGX_METHOD, Chooser (stress_set_sgx_method (pe_sgx_methods e) (pe_sgx e)));
    (OPT_SGX_VM_BYTES, Setter stress_set_sgx_vm_bytes);
    (OPT_SGX_VM_HANG, Setter stress_set_sgx_vm_hang);
    (OPT_SGX_VM_KEEP, FlagsOn OPT_FLAGS_SGX_VM_KEEP);
    (OPT_SGX_VM_METHOD, Chooser (sgx_vm_chooser e));
    (OPT_SHM_POSIX_BYTES, Setter stress_set_shm_posix_bytes);
    (OPT_SHM_POSIX_OBJECTS, Setter stress_set_shm_posix_objects);
    (OPT_SHM_SYSV_BYTES, Setter stress_set_shm_sysv_bytes) ].

Definition switch_4 : list (Z * action) :=
  [ (OPT_SHM_SYSV_SEGMENTS, Setter stress_set_shm_sysv_segments);
    (OPT_SLEEP_MAX, Setter stress_set_sleep_max);
    (OPT_SOCKET_DOMAIN, Chooser stress_set_socket_domain);
    (OPT_SOCKET_NODELAY, FlagsOn OPT_FLAGS_SOCKET_NODELAY);
    (OPT_SOCKET_OPTS, Chooser (stress_set_socket_opts defined));
    (OPT_SOCKET_PORT, Setter stress_set_socket_port);
    (OPT_SOCKET_TYPE, Chooser (stress_set_socket_type defined));
    (OPT_SOCKET_FD_PORT, Setter stress_set_socket_fd_port);
    (OPT_SPLICE_BYTES, Setter stress_set_splice_bytes);
    (OPT_STACK_FILL, FlagsOn OPT_FLAGS_STACK_FILL);
    (OPT_STR_METHOD, Chooser (stress_set_str_method defined symbol (pe_keep e)));
    (OPT_STREAM_L3_SIZE, Setter stress_set_stream_L3_size);
    (OPT_STREAM_MADVISE, Chooser (stress_set_stream_madvise defined));
    (OPT_STRESSORS, Show "stressors");
    (OPT_SYNC_FILE_BYTES, Setter stress_set_sync_file_bytes);
    (OPT_SYSLOG, FlagsOn OPT_FLAGS_SYSLOG);
    (OPT_TASKSET, Special opt_taskset);
    (OPT_THRASH, FlagsOn OPT_FLAGS_THRASH);
    (OPT_TEMP_PATH, Special opt_temp_path);
    (OPT_TIMEOUT, Special opt_timeout);
    (OPT_TIMER_FREQ, Setter stress_set_timer_freq);
    (OPT_TIMER_RAND, FlagsOn OPT_FLAGS_TIMER_RAND);
    (OPT_TIMERFD_FREQ, Setter stress_set_timerfd_freq);
    (OPT_TIMERFD_RAND, FlagsOn OPT_FLAGS_TIMERFD_RAND);
    (OPT_TIMER_SLACK, Special opt_timer_slack);
    (OPT_TIMES, FlagsOn OPT_FLAGS_TIMES);
    (OPT_TREE_METHOD, Chooser (stress_set_tree_method defined symbol));
    (OPT_TREE_SIZE, Setter stress_set_tree_size);
    (OPT_TSEARCH_SIZE, Setter stress_set_tsearch_size);
    (OPT_THERMAL_ZONES, FlagsOn OPT_FLAGS_THERMAL_ZONES);
    (OPT_UDP_DOMAIN, Chooser stress_set_udp_domain);
    (OPT_UDP_PORT, Setter stress_set_udp_port);
    (OPT_UDP_LITE, FlagsOn OPT_FLAGS_UDP_LITE);
    (OPT_UDP_FLOOD_DOMAIN, Chooser stress_set_udp_flood_domain);
    (OPT_USERFAULTFD_BYTES, Setter stress_set_userfaultfd_bytes);
    (OPT_UTIME_FSYNC, FlagsOn OPT_FLAGS_UTIME_FSYNC);
    (OPT_VERBOSE, FlagsOn PR_ALL);
    (OPT_VFORK_MAX, Setter stress_set_vfork_max);
    (OPT_VERIFY, FlagsOn (OPT_FLAGS_VERIFY .| PR_FAIL));
    (OPT_VERSION, Show "version");
    (OPT_VM_BYTES, Setter stress_set_vm_bytes);
    (OPT_VM_HANG, Setter stress_set_vm_hang);
    (OPT_VM_KEEP, FlagsOn OPT_FLAGS_VM_KEEP);
    (OPT_VM_MADVISE, Chooser (stress_set_vm_madvise defined));
    (OPT_VM_METHOD, Chooser (stress_set_vm_method symbol)) ].

Definition switch_5 : list (Z * action) :=
  ifdef defined "MAP_LOCKED" [ (OPT_VM_MMAP_LOCKED, Plainly (fun e => stress_set_vm_flags e MAP_LOCKED)) ] ++
  ifdef defined "MAP_POPULATE" [ (OPT_VM_MMAP_POPULATE, Plainly (fun e => stress_set_vm_flags e MAP_POPULATE)) ] ++
  [ (OPT_VM_RW_BYTES, Setter stress_set_vm_rw_bytes);
    (OPT_VM_SPLICE_BYTES, Setter stress_set_vm_splice_bytes);
    (OPT_WCS_METHOD, Chooser (stress_set_wcs_method defined symbol));
    (OPT_YAML, StrSetting "yaml");
    (OPT_ZLIB_METHOD, (if defined "HAVE_LIB_Z" then Chooser (stress_set_zlib_method symbol) else Nothing));
    (OPT_ZOMBIE_MAX, Setter stress_set_zombie_max) ].

Definition switch : list (Z * action) := switch_1 ++ switch_2 ++ switch_3 ++ switch_4 ++ switch_5.
End Switch.

(** ** The parser *)

(** the first stressor of the table that the option names: [true] for the
    number of workers, [false] for the number of operations *)
Fixpoint stressor_option (sts : list stress) (c : Z) : option (stress * bool) :=
  match sts with
  | [] => None
  | st :: sts =>
      if s_short st =? c then Some (st, true)
      else if s_op st =? c then Some (st, false)
      else stressor_option sts c
  end.

(** a new node of the list, which becomes the current stressor *)
Definition name_stressor (e : penv) (c : Z) (s : stress) (optarg : arg) (st : popts) : result :=
  '(l, ps) ← find_proc_info (default None (head (pe_allocs e (plist st)))) s (plist st);
  n ← get_int32 optarg.2;
  let n := processors e n in
  ps ← set_num l n ps;
  check_value (opt_name c) n;;
  Returns (None, with_list ps (Some l) (with_flags (fun f => f .| OPT_FLAGS_SET) st)).

(** [pi->bogo_ops = n] for the node at [l] *)
Definition with_ops (n : Z) (d : pdata) : pdata :=
  PData (stressor d) (pids d) (stats d) (started_procs d) (num_procs d) n.

Definition set_ops (l : positive) (n : Z) (s : procs) : outcome procs :=
  match node_at s l with
  | Some nd => Returns (set_node l (ProcInfo (Procs.next nd) (prev nd) (with_ops n (Procs.data nd))) s)
  | None => Undefined
  end.

(** the operations of the current stressor, whatever stressor the option is of *)
Definition name_ops (e : penv) (c : Z) (optarg : arg) (st : popts) : result :=
  n ← get_uint64 optarg.2;
  check_range (opt_name c) n MIN_OPS MAX_OPS;;
  s ← set_local (cenv_of e st) (opt_name c) TYPE_ID_UINT64 n (settings st);
  ps ← (match proc_current st with Some l => set_ops l n (plist st) | None => Returns (plist st) end);
  Returns (None, with_list ps (proc_current st) (with_settings s st)).

Definition find_case (e : penv) (c : Z) : option action := snd <$> (snd <$> list_find (fun m => m.1 = c) (switch e)).

(** one option *)
Definition parse_opt (e : penv) (r : scanned) (st : popts) : result :=
  let '(c, optarg) := r in
  match stressor_option stressors c, optarg with
  | Some (s, true), Some x => name_stressor e c s x st
  | Some (s, false), Some x => name_ops e c x st
  | Some _, None => Undefined
  | None, _ =>
      match find_case e c with
      | Some a => act e a optarg st
      | None => Returns (Some EXIT_FAILURE, st)
      end
  end.

Fixpoint parse_loop (e : penv) (rs : list scanned) (st : popts) : outcome (Z * popts) :=
  match rs with
  | [] => Returns (EXIT_SUCCESS, st)
  | r :: rs =>
      '(ret, st) ← parse_opt e r st;
      match ret with
      | Some ret => Returns (ret, st)
      | None => parse_loop e rs st
      end
  end.

(** ** Defaults *)

(** the address of a literal is that of a symbol *)
Definition stressor_default (e : penv) : list (string * chooser) :=
  let defined := pe_defined e in
  let symbol := pe_symbol e in
  [ ("all", stress_set_cpu_method defined symbol); ("uint64", stress_set_funccall_method defined symbol);
    ("all", stress_set_sgx_method (pe_sgx_methods e) (pe_sgx e)); ("all", sgx_vm_chooser e);
    ("all", stress_set_str_method defined symbol (pe_keep e)); ("all", stress_set_wcs_method defined symbol);
    ("all", stress_set_matrix_method); ("all", stress_set_vm_method symbol) ] ++
  ifdef defined "HAVE_LIB_Z" [ ("random", stress_set_zlib_method symbol) ].

(** what the setters return is not looked at *)
Fixpoint set_defaults (e : penv) (l : list (string * chooser)) (st : popts) : outcome popts :=
  match l with
  | [] => Returns st
  | (setting, f) :: l =>
      '(_, s) ← f (cenv_of e st) setting (pe_symbol e setting) (settings st);
      set_defaults e l (with_settings s st)
  end.

Definition stressor_set_defaults (e : penv) (st : popts) : outcome popts := set_defaults e (stressor_default e) st.

(** [args]: the words after the name of the program *)
Definition parse_opts (e : penv) (args : list arg) (st : popts) : outcome (Z * popts) :=
  parse_loop e (getopt_long args) st.

(** the beginning of [main()]: the defaults, then the command line *)
Definition command_line (e : penv) (args : list arg) : outcome (Z * popts) :=
  st ← stressor_set_defaults e initial; parse_opts e args st.
