(* ===== verification/CpuCache.v ===== *)
(** * The caches of the processors (cache.c, helper.c)

    The cache stressors work on a buffer of the size of a cache.  The sizes come from
    files under /sys; what these hold, what paths there are, and which processor the
    program is on, is up to the system: [sysfs].  Memory for the tables is assumed to
    be there; the buffer itself may not be.

    - [cache_size_bounds]: unless the number of ways was asked for on a cache that has
      none, the buffer gets a size, and no more than the cache has.
    - [cache_ways_crash]: on such a cache the program divides by zero. *)

From S2P Require Import Prelude Outcome ParseOpts Parser.

(** ** Data *)

Inductive cache_type := CACHE_TYPE_UNKNOWN | CACHE_TYPE_DATA | CACHE_TYPE_INSTRUCTION | CACHE_TYPE_UNIFIED.

#[global] Instance cache_type_eq_dec : EqDecision cache_type.
Proof. solve_decision. Defined.

Record cpu_cache := CpuCache { level : Z; type : cache_type; size : Z; line_size : Z; ways : Z }.
Record cpu := Cpu { num : Z; online : bool; caches : list cpu_cache }.

(** [cpus_t]: the number is that of the list *)
Abbreviation cpus := (list cpu).

(** the system: what is at a path, its size and first line, the paths a pattern matches *)
Inductive file_kind := NoFile | Directory | OtherFile.
Record sysfs := Sysfs {
  kind_of : string -> file_kind;
  st_size : string -> nat;
  first_line : string -> option string;
  glob : string -> option (list string);
  sched_getcpu : Z
}.

Section Cache.
Variable fs : sysfs.

(** ** Reading *)

(** [fgets()] into a buffer of the size of the file *)
Definition get_contents (path : string) : option string :=
  line ← first_line fs path;
  match st_size fs path with O => None | S n => Some (String.substring 0 n line) end.

(** without the newline at its end *)
Definition get_string_from_file (path : string) : option string :=
  str ← get_contents path;
  let len := (String.length str - 1)%nat in
  match String.get len str with
  | Some c => Some (if code c =? 10 then String.substring 0 len str else str)
  | None => Some str
  end.

(** [sscanf(str, "%lu%ms", &value, &s)]: the number and the first character behind it *)
Fixpoint after_digits (s : string) : string :=
  match s with
  | String c t => if isdigit c then after_digits t else s
  | EmptyString => s
  end.
Definition scan_size (str : string) : option (Z * ascii) :=
  p ← scan_number (no_width str) str;
  let '(_, _, t) := take_sign (no_width str) (skip_space str) in
  match skip_space (after_digits t) with
  | String c _ => Some (strtoul p, c)
  | EmptyString => None
  end.

Definition size_to_bytes (str : string) : Z :=
  match scan_size str with
  | None => 0
  | Some (value, s) =>
      if eqc s "B" then value
      else if eqc s "K" then u64 (value * 1024)
      else if eqc s "M" then u64 (value * 1048576)
      else 0
  end.

Definition cache_type_map : list (string * cache_type) :=
  [("data", CACHE_TYPE_DATA); ("instruction", CACHE_TYPE_INSTRUCTION); ("unified", CACHE_TYPE_UNIFIED)].

Fixpoint lower (s : string) : string :=
  match s with
  | EmptyString => EmptyString
  | String c s => String (if (65 <=? code c) && (code c <=? 90) then Ascii.ascii_of_nat (Z.to_nat (code c + 32)) else c) (lower s)
  end.

(** [strcasecmp()] with the names of the map, which are in lower case *)
Definition get_cache_type (name : string) : cache_type :=
  match list_find (fun p => p.1 = lower name) cache_type_map with
  | Some (_, (_, t)) => t
  | None => CACHE_TYPE_UNKNOWN
  end.

Definition get_cache_name (t : cache_type) : option string :=
  '(_, (name, _)) ← list_find (fun p => p.2 = t) cache_type_map; Some name.

(** ** The caches of one processor *)

Definition add_cpu_cache_detail (index_path : string) : option cpu_cache :=
  contents ← get_string_from_file (index_path +:+ "/type");
  let t := get_cache_type contents in
  if decide (t = CACHE_TYPE_UNKNOWN) then None
  else
    contents ← get_string_from_file (index_path +:+ "/size");
    let sz := size_to_bytes contents in
    contents ← get_string_from_file (index_path +:+ "/level");
    let lv := u16 (atoi contents) in
    contents ← get_string_from_file (index_path +:+ "/coherency_line_size");
    let ls := u32 (atoi contents) in
    let ws := match get_string_from_file (index_path +:+ "/ways_of_associativity") with
              | Some contents => u32 (atoi contents)
              | None => 0
              end in
    Some (CpuCache lv t sz ls ws).

Definition get_cpu_cache_details (cpu_path : string) : option (list cpu_cache) :=
  let glob_path := cpu_path +:+ "/cache" in
  match kind_of fs glob_path with
  | NoFile | OtherFile => None
  | Directory =>
      results ← glob fs (glob_path +:+ "/index[0-9]*");
      if decide (results = []) then None else mapM add_cpu_cache_detail results
  end.

(** ** All processors *)

(** the processors in the order of the paths, numbered so; a missing "online" ends the
    search with what was found, the others being empty *)
Fixpoint cpu_entries (i : nat) (paths : list string) : option cpus :=
  match paths with
  | [] => Some []
  | path :: rest =>
      let empty := (fun k => Cpu (if (k =? 0)%nat then Z.of_nat i else 0) false []) <$> seq 0 (S (length rest)) in
      match (if (i =? 0)%nat then Some true
             else contents ← get_string_from_file (path +:+ "/online"); Some (c_true (atoi contents))) with
      | None => Some empty
      | Some on =>
          cs ← get_cpu_cache_details path;
          rest ← cpu_entries (S i) rest;
          Some (Cpu (Z.of_nat i) on cs :: rest)
      end
  end.

Definition SYS_CPU_PREFIX : string := "/sys/devices/system/cpu".

Definition get_all_cpu_cache_details : option cpus :=
  match kind_of fs SYS_CPU_PREFIX with
  | NoFile | OtherFile => None
  | Directory =>
      results ← glob fs (SYS_CPU_PREFIX +:+ "/cpu[0-9]*");
      if decide (results = []) then None else cpu_entries 0 results
  end.

(** ** Looking a cache up *)

Definition stress_get_cpu : Z := if sched_getcpu fs <? 0 then 0 else sched_getcpu fs.

Definition cache_get_cpu (cs : cpus) : nat :=
  let cpu := Z.to_nat stress_get_cpu in if (length cs <=? cpu)%nat then 0%nat else cpu.

(** a data or unified cache of the level *)
Definition get_cache_by_cpu (c : cpu) (cache_level : Z) : option cpu_cache :=
  if cache_level =? 0 then None
  else List.find (fun p => (level p =? cache_level) && bool_decide (type p <> CACHE_TYPE_INSTRUCTION)) (caches c).

Definition get_max_cache_level (cs : cpus) : Z :=
  match cs !! cache_get_cpu cs with
  | Some c => foldl (fun m p => if m <? level p then level p else m) 0 (caches c)
  | None => 0
  end.

Definition get_cpu_cache (cs : cpus) (cache_level : Z) : option cpu_cache :=
  if cache_level =? 0 then None else c ← cs !! cache_get_cpu cs; get_cache_by_cpu c cache_level.

(** ** The buffer of the cache stressors (helper.c) *)

Definition MEM_CACHE_SIZE : Z := 65536 * 32.

(** the level, the ways and the size in [g_shared]; [None]: a division by zero *)
Definition cache_shared (mem_cache_level mem_cache_ways : Z) : option (Z * Z * Z) :=
  match get_all_cpu_cache_details with
  | None => Some (mem_cache_level, mem_cache_ways, MEM_CACHE_SIZE)
  | Some cpu_caches =>
      let max_cache_level := get_max_cache_level cpu_caches in
      let lv := if max_cache_level <? mem_cache_level then max_cache_level else mem_cache_level in
      match get_cpu_cache cpu_caches lv with
      | None => Some (lv, mem_cache_ways, MEM_CACHE_SIZE)
      | Some cache =>
          '(ws, sz) ←
            (if 0 <? mem_cache_ways then
               let ws := if ways cache <? mem_cache_ways then ways cache else mem_cache_ways in
               if ways cache =? 0 then None else Some (ws, u64 (size cache / ways cache * ws))
             else Some (mem_cache_ways, size cache));
          Some (lv, ws, if sz =? 0 then MEM_CACHE_SIZE else sz)
      end
  end.

(** the value returned, and [g_shared]; [calloc_ok]: there is memory *)
Definition stress_cache_alloc (calloc_ok : bool) (mem_cache_level mem_cache_ways : Z) : option (Z * (Z * Z * Z)) :=
  g ← cache_shared mem_cache_level mem_cache_ways; Some (if calloc_ok then 0 else -1, g).
End Cache.

(** ** What is read is in range *)

Definition cache_ok (c : cpu_cache) : Prop := 0 <= size c < 2 ^ 64 /\ 0 <= ways c < 2 ^ 32 /\ type c <> CACHE_TYPE_UNKNOWN.

Lemma strtoul_range neg v : 0 <= v -> 0 <= strtoul (neg, v) < 2 ^ 64.
Proof.
  intros Hv. unfold strtoul. destruct (Z.leb_spec (2 ^ 64) v); [lia|]. destruct neg; [|lia]. apply u64_fits.
Qed.

Lemma take_digits_pos w n v s : 0 <= v -> 0 <= (take_digits w n v s).2.
Proof.
  revert n v s. induction w as [|w IH]; intros n v [|c t] Hv; cbn [take_digits]; try done.
  destruct (isdigit c) eqn:Hd; [|done]. apply IH. unfold isdigit in Hd. apply andb_true_iff in Hd as [Hd _]. apply Z.leb_le in Hd. lia.
Qed.

Lemma scan_number_pos w s neg v : scan_number w s = Some (neg, v) -> 0 <= v.
Proof.
  unfold scan_number. destruct (take_sign w (skip_space s)) as [[neg' w'] t]. pose proof (take_digits_pos w' 0 0 t ltac:(lia)) as H.
  destruct (take_digits w' 0 0 t) as [n v']. cbn [snd] in H. destruct (n =? 0); [done|]. by intros [= _ <-].
Qed.

Lemma size_to_bytes_range str : 0 <= size_to_bytes str < 2 ^ 64.
Proof.
  unfold size_to_bytes, scan_size. destruct (scan_number _ _) as [[neg v]|] eqn:Hs; cbn [mbind option_bind]; [|lia].
  apply scan_number_pos in Hs. destruct (take_sign _ _) as [[? ?] t]. destruct (skip_space _) as [|c t']; [lia|].
  pose proof (strtoul_range neg v Hs) as Hr. destruct (eqc c "B"); [done|]. destruct (eqc c "K"); [apply u64_fits|].
  destruct (eqc c "M"); [apply u64_fits|lia].
Qed.

Lemma add_cpu_cache_detail_ok fs path c : add_cpu_cache_detail fs path = Some c -> cache_ok c.
Proof.
  unfold add_cpu_cache_detail. destruct (get_string_from_file fs (path +:+ "/type")) as [ty|]; cbn [mbind option_bind]; [|done].
  destruct (decide _) as [|Hty]; [done|].
  destruct (get_string_from_file fs (path +:+ "/size")) as [sz|]; cbn [mbind option_bind]; [|done].
  destruct (get_string_from_file fs (path +:+ "/level")) as [lv|]; cbn [mbind option_bind]; [|done].
  destruct (get_string_from_file fs (path +:+ "/coherency_line_size")) as [ls|]; cbn [mbind option_bind]; [|done].
  intros [= <-]. split; [apply size_to_bytes_range|]. split; [|done]. cbn [ways].
  destruct (get_string_from_file _ _); [apply u32_fits|lia].
Qed.

Lemma get_cpu_cache_details_ok fs path cs : get_cpu_cache_details fs path = Some cs -> Forall cache_ok cs.
Proof.
  unfold get_cpu_cache_details. destruct (kind_of _ _); try done. destruct (glob _ _) as [paths|]; cbn [mbind option_bind]; [|done].
  destruct (decide _) as [|Hne]; [done|]. clear Hne. intros H. apply mapM_Some_1 in H.
  induction H as [|p c paths cs Hc _ IH]; constructor; [by eapply add_cpu_cache_detail_ok|done].
Qed.

Lemma cpu_entries_ok fs i paths cs : cpu_entries fs i paths = Some cs -> Forall (fun c => Forall cache_ok (caches c)) cs.
Proof.
  revert i cs. induction paths as [|path paths IH]; intros i cs; cbn [cpu_entries]; [intros [= <-]; constructor|].
  destruct (if (i =? 0)%nat then _ else _) as [on|].
  - destruct (get_cpu_cache_details fs path) as [l|] eqn:Hd; cbn [mbind option_bind]; [|done].
    destruct (cpu_entries fs (S i) paths) as [rest|] eqn:Hr; cbn [mbind option_bind]; [|done]. intros [= <-].
    constructor; [by eapply get_cpu_cache_details_ok|by eapply IH].
  - intros [= <-]. apply Forall_cons_2; [constructor|]. apply Forall_forall. intros c Hc.
    apply list_elem_of_fmap in Hc as (k & -> & _). constructor.
Qed.

Lemma all_caches_ok fs cs : get_all_cpu_cache_details fs = Some cs -> Forall (fun c => Forall cache_ok (caches c)) cs.
Proof.
  unfold get_all_cpu_cache_details. destruct (kind_of _ _); try done. destruct (glob _ _) as [paths|]; cbn [mbind option_bind]; [|done].
  destruct (decide _); [done|]. apply cpu_entries_ok.
Qed.

(** the cache found is one of the level that can hold data *)
Lemma get_cpu_cache_spec fs cs lv c :
  Forall (fun c => Forall cache_ok (caches c)) cs -> get_cpu_cache fs cs lv = Some c ->
  cache_ok c /\ level c = lv /\ type c <> CACHE_TYPE_INSTRUCTION.
Proof.
  intros Hcs. unfold get_cpu_cache. destruct (lv =? 0); [done|]. destruct (cs !! _) as [p|] eqn:Hp; cbn [mbind option_bind]; [|done].
  unfold get_cache_by_cpu. destruct (lv =? 0); [done|]. intros [Hin Hb]%find_some.
  apply andb_true_iff in Hb as [Hl%Z.eqb_eq Ht%bool_decide_eq_true]. split; [|done].
  eapply Forall_lookup_1 in Hp; [|exact Hcs]. cbn in Hp. rewrite Forall_forall in Hp. by apply Hp, list_elem_of_In.
Qed.

(** The size of the buffer is never zero.  It is the default, or that of a cache of the
    level that was asked for or the highest below it, which can hold data, or that of as
    many of the ways of this cache as were asked for.  There is no size only when ways
    were asked for and the cache found has none: then the code divides by zero. *)
Theorem cache_size_bounds fs lv ws :
  0 <= lv -> 0 <= ws ->
  match cache_shared fs lv ws with
  | Some (lv', ws', sz) =>
      0 < sz < 2 ^ 64 /\ lv' <= lv /\ ws' <= ws /\
      (sz = MEM_CACHE_SIZE \/
       exists cs c, get_all_cpu_cache_details fs = Some cs /\ get_cpu_cache fs cs lv' = Some c /\ level c = lv' /\
         (type c = CACHE_TYPE_DATA \/ type c = CACHE_TYPE_UNIFIED) /\
         sz = (if 0 <? ws then size c / ways c * ws' else size c) /\ sz <= size c)
  | None => 0 < ws /\ exists cs c, get_all_cpu_cache_details fs = Some cs /\
      get_cpu_cache fs cs (Z.min lv (get_max_cache_level fs cs)) = Some c /\ ways c = 0
  end.
Proof.
  intros Hlv Hws. unfold cache_shared. destruct (get_all_cpu_cache_details fs) as [cs|] eqn:Hall.
  2: { repeat split; [lia..|by left]. }
  apply all_caches_ok in Hall as Hok. set (mx := get_max_cache_level fs cs).
  replace (if mx <? lv then mx else lv) with (Z.min lv mx) by (destruct (Z.ltb_spec mx lv); lia).
  destruct (get_cpu_cache fs cs (Z.min lv mx)) as [c|] eqn:Hget.
  2: { repeat split; [lia..|by left]. }
  destruct (get_cpu_cache_spec fs cs _ c Hok Hget) as ((Hsz & Hw & Ht) & Hl & Hi).
  assert (type c = CACHE_TYPE_DATA \/ type c = CACHE_TYPE_UNIFIED) as Htype by (destruct (type c); auto; done).
  destruct (Z.ltb_spec 0 ws) as [Hpos|Hz].
  - destruct (Z.eqb_spec (ways c) 0) as [Hw0|Hw0]; cbn [mbind option_bind]; [split; [done|]; by exists cs, c|].
    set (n := if ways c <? ws then ways c else ws).
    assert (0 < n <= ways c /\ n <= ws) as [Hn Hn'] by (unfold n; destruct (Z.ltb_spec (ways c) ws); lia).
    assert (0 <= size c / ways c * n <= size c) as Hb.
    { split; [apply Z.mul_nonneg_nonneg; [apply Z.div_pos; lia|lia]|].
      transitivity (size c / ways c * ways c); [apply Z.mul_le_mono_nonneg_l; [apply Z.div_pos; lia|lia]|].
      rewrite Z.mul_comm. apply Z.mul_div_le. lia. }
    rewrite u64_small by (unfold fits; lia). destruct (Z.eqb_spec (size c / ways c * n) 0).
    + repeat split; [lia..|by left].
    + repeat split; [lia..|]. right. exists cs, c. repeat split; [done..|lia].
  - cbn [mbind option_bind]. destruct (Z.eqb_spec (size c) 0); [repeat split; [lia..|by left]|].
    repeat split; [lia..|]. right. exists cs, c. repeat split; [done..|lia].
Qed.

(** *** a machine with one processor and a cache that is not way-based *)

Definition one_cache (size : string) : sysfs :=
  Sysfs (fun _ => Directory) (fun _ => 4096%nat)
    (fun path => if String.eqb path "/c/cache/i/type" then Some ("Unified" +:+ String "010"%char EmptyString)
       else if String.eqb path "/c/cache/i/size" then Some size
       else if String.eqb path "/c/cache/i/level" then Some "2"
       else if String.eqb path "/c/cache/i/coherency_line_size" then Some "64" else None)
    (fun pattern => Some (if String.eqb pattern "/c/cache/index[0-9]*" then ["/c/cache/i"] else ["/c"])) 0.

Lemma cache_size_bounds_witness :
  cache_shared (one_cache "256K") 3 0 = Some (2, 0, 262144) /\ 0 < 262144 < 2 ^ 64.
Proof.
  pose proof (cache_size_bounds (one_cache "256K") 3 0 ltac:(lia) ltac:(lia)) as H.
  assert (cache_shared (one_cache "256K") 3 0 = Some (2, 0, 262144)) as E by (vm_compute; reflexivity).
  rewrite E in H. split; [exact E|exact (proj1 H)].
Defined.

(** asked for one way of it, the program is stopped by the division *)
Lemma cache_ways_crash : cache_shared (one_cache "256K") 3 1 = None.
Proof. vm_compute. reflexivity. Qed.
