(* ===== verification/ParserProofs.v ===== *)
(** * What the option parser builds

    Whatever the command line, the settings the parser leaves are those of
    [OptionsOk] and the stressor list is well linked, with numbers in range; so
    what is shown of both holds for every command line.  Every option of the
    tables has a handler, which is given the argument it reads.  Stressors are
    listed as they are asked for. *)

From S2P Require Import Prelude Flags Limits Cpu VmState Mincore Outcome ParseOpts Settings Helpers Affinity Priority Setters Named Choices OptionsOk SgxUtils EnclaveVm EnclaveCpu Procs Tables Getopt ProcOps ProcProofs Parser.

(** ** Environments and states *)

(** the results of [calloc] are not in use and differ from each other *)
Definition fresh_ptrs (s : procs) (ps : list Procs.ptr) : Prop :=
  fresh_allocs s (omap id ps).

Record sane (e : penv) : Prop := Sane {
  sane_page : 4 <= ce_page_size (pe_cenv e) < 2 ^ 32;
  sane_local : ce_local (pe_cenv e) <> 0;
  sane_alloc : forall s l, ce_alloc (pe_cenv e) s = Some l -> nodes s !! l = None;
  sane_allocs : forall s, fresh_ptrs s (pe_allocs e s);
  sane_online : - 2 ^ 31 <= pe_online e < 2 ^ 31;
  sane_configured : - 2 ^ 31 <= pe_configured e < 2 ^ 31
}.

Definition page (e : penv) : Z := ce_page_size (pe_cenv e).

(** a stressor of the list before the run is set up *)
Definition listed (d : pdata) : Prop :=
  0 <= num_procs d <= MAX_SEQUENTIAL /\ (bogo_ops d = 0 \/ MIN_OPS <= bogo_ops d <= MAX_OPS) /\
  pids d = [] /\ stats d = [].

Definition list_valid (s : procs) (cur : Procs.ptr) : Prop :=
  exists ls, repr s ls /\ Forall (fun x => listed x.2) ls /\ forall l, cur = Some l -> l ∈ ls.*1.

Record valid (e : penv) (st : popts) : Prop := Valid {
  valid_settings : configured (page e) (settings st);
  valid_list : list_valid (plist st) (proc_current st);
  valid_modes : 0 <= g_opt_sequential st <= MAX_SEQUENTIAL /\ 0 <= g_opt_parallel st <= MAX_SEQUENTIAL
}.

(** what an option leaves, when the parser goes on or returns *)
Definition keeps (e : penv) (f : popts -> result) : Prop :=
  forall st r st', sane e -> valid e st -> f st = Returns (r, st') -> valid e st'.

Lemma cenv_of_sane e st s : sane e -> sane_env (cenv_of e st) s.
Proof. intros [_ Hl Ha _ _ _]. split; [|exact Hl]. intros l. apply Ha. Qed.

Lemma with_settings_valid e st s : valid e st -> configured (page e) s -> valid e (with_settings s st).
Proof. intros [_ Hl Hm] Hs. by constructor. Qed.
Lemma with_flags_valid e st f : valid e st -> valid e (with_flags f st).
Proof. by intros [Hs Hl Hm]. Qed.
Lemma with_system_valid e st a b c d : valid e st -> valid e (with_system a b c d st).
Proof. by intros [Hs Hl Hm]. Qed.
Lemma with_modes_valid e st a b t :
  valid e st -> 0 <= a <= MAX_SEQUENTIAL -> 0 <= b <= MAX_SEQUENTIAL -> valid e (with_modes a b t st).
Proof. by intros [Hs Hl Hm]. Qed.
Lemma with_list_valid e st l c : valid e st -> list_valid l c -> valid e (with_list l c st).
Proof. by intros [Hs Hl Hm]. Qed.

#[local] Hint Resolve with_settings_valid with_flags_valid with_system_valid : core.

(** ** The settings *)

Ltac known_setting := apply (bool_decide_unpack _); vm_compute; reflexivity.

Definition sets (e : penv) (f : cenv -> store -> outcome store) : Prop :=
  forall st s s', sane e -> configured (page e) s -> f (cenv_of e st) s = Returns s' -> configured (page e) s'.

Lemma set_other_ok e nm t v : (nm, t) ∈ other_settings -> sets e (fun c s => set_local c nm t v s).
Proof. intros Hin st s s' He Hs Hset. by eapply configured_other; [exact Hs|exact Hin|apply cenv_of_sane|]. Qed.

Lemma set_string_ok e nm p : nm ∈ string_settings -> sets e (fun c s => set_string c nm p s).
Proof. intros Hin st s s' He Hs Hset. by eapply configured_string; [exact Hs|exact Hin|apply cenv_of_sane|]. Qed.

(** the setting made by [H] is one of those known *)
Ltac set_known lem H := eapply lem; [|eassumption| |exact H]; [known_setting|try assumption].

Lemma setter_sets e f sp opt : (f, sp) ∈ setters (page e) -> sets e (fun c s => f c opt s).
Proof.
  intros Hin st s s' He Hs Hset. by eapply (configured_option (page e) (f, sp)); [exact Hs|exact Hin|apply cenv_of_sane|done|].
Qed.

Lemma value_sets e key t parse opt :
  (key, t) ∈ other_settings -> sets e (fun c s => setter_of_value key t parse c opt s).
Proof.
  intros Hin st s s' He Hs Hset. unfold setter_of_value in Hset. apply outcome_bind_returns in Hset as (x & _ & Hset).
  by eapply set_other_ok.
Qed.

Lemma dirdeep_inodes_sets e opt : sets e (fun c s => stress_set_dirdeep_inodes c opt s).
Proof.
  intros st s s' He Hs Hset. unfold stress_set_dirdeep_inodes in Hset. apply outcome_bind_returns in Hset as (x & _ & Hset).
  set_known set_other_ok Hset.
Qed.

Lemma vm_flags_sets e flag : sets e (fun c s => stress_set_vm_flags c flag s).
Proof.
  intros st s s' He Hs Hset. unfold stress_set_vm_flags in Hset. destruct (get_setting _ _ _ _ _) as [[b m]|]; [|done].
  set_known set_other_ok Hset.
Qed.

(** *** the choosers *)

Definition chooses (e : penv) (f : chooser) : Prop :=
  forall st name p s ret s', sane e -> configured (page e) s -> f (cenv_of e st) name p s = Returns (ret, s') ->
    configured (page e) s'.

Lemma set_found_chooses e st key t found s ret s' :
  (key, t) ∈ other_settings -> sane e -> configured (page e) s ->
  set_found (cenv_of e st) key t found s = Returns (ret, s') -> configured (page e) s'.
Proof.
  intros Hin He Hs H. destruct found as [x|]; cbn [set_found] in H; [|by injection H as <- <-].
  apply outcome_bind_returns in H as (s1 & Hset & [= <- <-]). by eapply set_other_ok.
Qed.

Lemma set_domain_chooses e mask key : (key, TYPE_ID_INT) ∈ other_settings -> chooses e (set_domain mask key).
Proof.
  intros Hin st name p s ret s' He Hs H. unfold set_domain in H. destruct (stress_set_net_domain mask name) as [r d].
  apply outcome_bind_returns in H as (s1 & Hset & [= <- <-]). by eapply set_other_ok.
Qed.

Lemma rawdev_chooses e d sy : chooses e (stress_set_rawdev_method d sy).
Proof.
  intros st name p s ret s' He Hs H. unfold stress_set_rawdev_method in H. destruct (d _); [|by injection H as <- <-].
  set_known set_found_chooses H.
Qed.

Lemma vm_madvise_chooses e d : chooses e (stress_set_vm_madvise d).
Proof.
  intros st name p s ret s' He Hs H. unfold stress_set_vm_madvise in H.
  destruct (d _); [|destruct (String.eqb _ _); [|done]]; set_known set_found_chooses H.
Qed.

Lemma matrix_chooses e : chooses e stress_set_matrix_method.
Proof.
  intros st name p s ret s' He Hs H. unfold stress_set_matrix_method, stress_get_matrix_method in H.
  destruct (find_name name _); cbn [mbind outcome_bind] in H; [|by injection H as <- <-].
  apply outcome_bind_returns in H as ([b s1] & H1 & H). apply outcome_bind_returns in H1 as (s2 & H2 & [= <- <-]).
  apply outcome_bind_returns in H as (s3 & H3 & [= <- <-]).
  set_known set_string_ok H3. set_known set_string_ok H2.
Qed.

Lemma hdd_chooses e d : chooses e (stress_hdd_opts d).
Proof.
  intros st name p s ret s' He Hs H. unfold stress_hdd_opts in H. apply outcome_bind_returns in H as (r & _ & H).
  destruct r as [[[fl ofl] b]|]; [|by injection H as <- <-].
  apply outcome_bind_returns in H as (s1 & H1 & H). apply outcome_bind_returns in H as (s2 & H2 & H).
  apply outcome_bind_returns in H as (s3 & H3 & [= <- <-]).
  set_known set_other_ok H3. set_known set_other_ok H2. set_known set_other_ok H1.
Qed.

Lemma enclave_chooses e ex msg key sgx :
  key ∈ string_settings -> chooses e (set_enclave_method ex msg key sgx).
Proof.
  intros Hin st name p s ret s' He Hs H. unfold set_enclave_method in H.
  destruct (init_ok sgx); cbn [negb] in H; [|by injection H as <- <-].
  destruct (enter_ok sgx 0); cbn [negb] in H; [|by injection H as <- <-].
  destruct (ex name =? 1).
  - apply outcome_bind_returns in H as (s1 & H1 & [= <- <-]). by eapply set_string_ok.
  - destruct (enter_ok sgx 1); cbn [negb] in H; [|by injection H as <- <-].
    destruct (msg true _ _); [by injection H as <- <-|done].
Qed.

Ltac solve_chooses :=
  first
    [ apply rawdev_chooses | apply vm_madvise_chooses | apply matrix_chooses | apply hdd_chooses
    | apply enclave_chooses; known_setting
    | apply set_domain_chooses; known_setting
    | let H := fresh in intros ? ? ? ? ? ? ? ? H; eapply set_found_chooses; [|eassumption|eassumption|exact H]; known_setting ].

(** ** The stressor list *)

Lemma listed_new num s : 0 <= default 0 num <= MAX_SEQUENTIAL -> listed (new_proc num s).
Proof. intros Hn. split; [done|]. split; [by left|done]. Qed.

(** one more node *)
Lemma find_proc_info_returns p s ls st l s' :
  repr s ls -> (forall l, p = Some l -> heap s !! l = None) -> find_proc_info p st s = Returns (l, s') ->
  p = Some l /\ repr s' (ls ++ [(l, new_proc None st)]).
Proof.
  intros Hr Hf H. destruct p as [x|]; [|done]. destruct (find_proc_info_repr s ls x st Hr (Hf x eq_refl)) as (s1 & Hs & Hr1).
  rewrite Hs in H. injection H as <- <-. done.
Qed.

Lemma head_fresh s (ps : list Procs.ptr) l : fresh_ptrs s ps -> default None (head ps) = Some l -> heap s !! l = None.
Proof.
  intros [_ Hf] Hh. destruct ps as [|[x|] ps]; try done. injection Hh as ->. apply Hf. cbn. left.
Qed.

Lemma tail_fresh s s' ps l :
  fresh_ptrs s (Some l :: ps) -> dom (heap s') ⊆ {[l]} ∪ dom (heap s) -> fresh_ptrs s' ps.
Proof.
  intros [Hnd Hf] Hd. cbn in Hnd. apply NoDup_cons in Hnd as [Hl Hnd]. split; [done|]. intros x Hx.
  assert (heap s !! x = None) as Hx0 by (apply Hf; by right). apply not_elem_of_dom. apply not_elem_of_dom in Hx0. set_solver.
Qed.

Lemma enable_loop_valid sts num ps s cur s' :
  list_valid s cur -> fresh_ptrs s ps -> 0 <= default 0 num <= MAX_SEQUENTIAL ->
  enable_loop sts num ps s = Returns s' -> list_valid s' cur.
Proof.
  revert ps s. induction sts as [|st sts IH]; intros ps s Hv Hf Hn H; cbn [enable_loop] in H; [by injection H as <-|].
  apply outcome_bind_returns in H as ([l s1] & H1 & H). destruct Hv as (ls & Hr & Hls & Hcur).
  pose proof (fun l => head_fresh s ps l Hf) as Hhead.
  destruct ps as [|[x|] ps]; try done. cbn [head from_option] in H1. unfold id in H1.
  pose proof (find_proc_info_dom _ _ _ _ _ H1) as Hdom.
  destruct (find_proc_info_returns _ s ls st l s1 Hr Hhead H1) as [[= ->] Hr1].
  assert (exists s2, match num with Some n => set_num l n s1 | None => Returns s1 end = Returns s2 /\
    repr s2 (ls ++ [(l, new_proc num st)]) /\ dom (heap s2) = dom (heap s1)) as (s2 & Hs2 & Hr2 & Hd2).
  { destruct num as [n|]; [|by exists s1]. destruct (set_num_repr s1 ls l _ [] n Hr1) as (s2 & ? & ? & ?). by exists s2. }
  rewrite Hs2 in H. cbn [mbind outcome_bind tail] in H. eapply (IH ps s2); [| |exact Hn|exact H].
  - exists (ls ++ [(l, new_proc num st)]). split; [done|]. split.
    + apply Forall_app. split; [done|]. apply Forall_singleton. by apply listed_new.
    + intros y Hy. rewrite fmap_app. apply elem_of_app. left. by apply Hcur.
  - eapply tail_fresh; [exact Hf|]. by rewrite Hd2.
Qed.

(** the operations of the current stressor *)
Lemma set_ops_valid s l n s' :
  list_valid s (Some l) -> MIN_OPS <= n <= MAX_OPS -> set_ops l n s = Returns s' -> list_valid s' (Some l).
Proof.
  intros (ls & Hr & Hls & Hcur) Hn H. specialize (Hcur l eq_refl).
  apply list_elem_of_fmap in Hcur as ([x d] & Hx & Hin). cbn in Hx. subst x.
  apply list_elem_of_split in Hin as (ls1 & ls2 & ->).
  unfold set_ops in H. destruct (set_data_repr s ls1 l d ls2 (with_ops n d) Hr) as (nd & Hnd & Hd & Hr' & _).
  rewrite Hnd, Hd in H. injection H as <-. eexists. split; [exact Hr'|]. split.
  - rewrite Forall_app, Forall_cons in *. destruct Hls as (H1 & (Hnum & _ & Hp) & H2). split_and!; try done.
    cbn [snd]. unfold listed. cbn. split; [exact Hnum|]. by split; [right|].
  - intros y [= <-]. rewrite fmap_app, fmap_cons. apply elem_of_app. right. left.
Qed.

Lemma name_stressor_keeps e c s x : keeps e (name_stressor e c s x).
Proof.
  intros st r st' He Hv H. unfold name_stressor in H.
  apply outcome_bind_returns in H as ([l ps1] & H1 & H). apply outcome_bind_returns in H as (n & _ & H).
  apply outcome_bind_returns in H as (ps2 & H2 & H). apply outcome_bind_returns in H as (y & Hc & [= <- <-]).
  destruct (valid_list _ _ Hv) as (ls & Hr & Hls & Hcur).
  pose proof (fun l => head_fresh _ _ l (sane_allocs _ He (plist st))) as Hhead.
  destruct (find_proc_info_returns _ _ ls s l ps1 Hr Hhead H1) as [_ Hr1].
  destruct (set_num_repr ps1 ls l _ [] (processors e n) Hr1) as (ps2' & Hps2 & Hr2 & _).
  rewrite Hps2 in H2. injection H2 as ->. apply with_list_valid; [by apply with_flags_valid|].
  eexists. split; [exact Hr2|]. split.
  - apply Forall_app. split; [done|]. apply Forall_singleton. apply (listed_new (Some (processors e n))).
    unfold check_value in Hc. destruct (Z.ltb_spec (processors e n) 0), (Z.ltb_spec STRESS_PROCS_MAX (processors e n)); try done.
    unfold STRESS_PROCS_MAX, MAX_SEQUENTIAL in *. cbn. lia.
  - intros y' [= <-]. rewrite fmap_app. apply elem_of_app. right. left.
Qed.

Lemma stressor_option_in sts c s b :
  stressor_option sts c = Some (s, b) -> s ∈ sts /\ c = if b then s_short s else s_op s.
Proof.
  induction sts as [|st sts IH]; cbn [stressor_option]; [done|].
  destruct (Z.eqb_spec (s_short st) c) as [Hc|]; [intros [= <- <-]; by split; [left|]|].
  destruct (Z.eqb_spec (s_op st) c) as [Hc|]; [intros [= <- <-]; by split; [left|]|].
  intros H. destruct (IH H). split; [by right|done].
Qed.

Lemma name_ops_keeps e c s x : stressor_option stressors c = Some (s, false) -> keeps e (name_ops e c x).
Proof.
  intros [Hin Hc]%stressor_option_in st r st' He Hv H. unfold name_ops in H.
  apply outcome_bind_returns in H as (n & _ & H). apply outcome_bind_returns in H as (y & Hn & H).
  apply outcome_bind_returns in H as (s1 & Hs & H). apply outcome_bind_returns in H as (ps & Hps & [= <- <-]).
  apply check_range_returns in Hn.
  assert (list_valid ps (proc_current st)) as Hl.
  { pose proof (valid_list _ _ Hv) as Hl. destruct (proc_current st) as [l|]; [by eapply set_ops_valid|by injection Hps as <-]. }
  apply with_list_valid; [|done]. apply with_settings_valid; [done|].
  eapply configured_ops; [apply (valid_settings _ _ Hv)| |by apply cenv_of_sane|exact Hs].
  subst c. by apply (list_elem_of_fmap_2 (fun st => opt_name (s_op st))).
Qed.

(** ** The switch *)

Definition action_keeps (e : penv) (a : action) : Prop := forall optarg, keeps e (act e a optarg).

Lemma setter_keeps e f : (forall opt, sets e (fun c s => f c opt s)) -> action_keeps e (Setter f).
Proof.
  intros Hf [x|] st r st' He Hv H; cbn [act] in H; [|done].
  apply outcome_bind_returns in H as (s & Hs & [= <- <-]). apply with_settings_valid; [done|].
  eapply (Hf x.2 st); [done|apply (valid_settings _ _ Hv)|exact Hs].
Qed.

Lemma plainly_keeps e f : sets e f -> action_keeps e (Plainly f).
Proof.
  intros Hf oa st r st' He Hv H.
  assert ((s ← f (cenv_of e st) (settings st); Returns (None, with_settings s st)) = Returns (r, st')) as H'
    by (by destruct oa).
  apply outcome_bind_returns in H' as (s & Hs & [= <- <-]). apply with_settings_valid; [done|].
  eapply (Hf st); [done|apply (valid_settings _ _ Hv)|exact Hs].
Qed.

Lemma by_address_keeps e f : (forall p, sets e (fun c s => f c p s)) -> action_keeps e (ByAddress f).
Proof.
  intros Hf [x|] st r st' He Hv H; cbn [act] in H; [|done].
  apply outcome_bind_returns in H as (s & Hs & [= <- <-]). apply with_settings_valid; [done|].
  eapply (Hf x.1 st); [done|apply (valid_settings _ _ Hv)|exact Hs].
Qed.

Lemma chooser_keeps e f : chooses e f -> action_keeps e (Chooser f).
Proof.
  intros Hf [x|] st r st' He Hv H; cbn [act] in H; [|done].
  apply outcome_bind_returns in H as ([ret s] & Hs & [= <- <-]). apply with_settings_valid; [done|].
  eapply (Hf st); [done|apply (valid_settings _ _ Hv)|exact Hs].
Qed.

Lemma str_setting_keeps e key : key ∈ string_settings -> action_keeps e (StrSetting key).
Proof.
  intros Hin [x|] st r st' He Hv H; cbn [act] in H; [|done].
  apply outcome_bind_returns in H as (s & Hs & [= <- <-]). apply with_settings_valid; [done|].
  eapply set_string_ok; [exact Hin|done|apply (valid_settings _ _ Hv)|exact Hs].
Qed.

Lemma special_keeps e f : (forall x, keeps e (f e x)) -> action_keeps e (Special f).
Proof. intros Hf [x|] st r st' He Hv H; cbn [act] in H; [|done]. by eapply Hf. Qed.

Lemma flags_on_keeps e f : action_keeps e (FlagsOn f).
Proof. intros [x|] st r st' He Hv [= <- <-]; by apply with_flags_valid. Qed.
Lemma flags_off_keeps e f : action_keeps e (FlagsOff f).
Proof. intros [x|] st r st' He Hv [= <- <-]; by apply with_flags_valid. Qed.
Lemma show_keeps e what : action_keeps e (Show what).
Proof. by intros [x|] st r st' He Hv H. Qed.
Lemma refuse_keeps e : action_keeps e Refuse.
Proof. by intros [x|] st r st' He Hv [= <- <-]. Qed.
Lemma nothing_keeps e : action_keeps e Nothing.
Proof. by intros [x|] st r st' He Hv [= <- <-]. Qed.

(** *** the options with an effect of their own *)

Lemma check_value_bounds msg n x : check_value msg n = Returns x -> 0 <= n <= MAX_SEQUENTIAL.
Proof.
  unfold check_value, STRESS_PROCS_MAX, MAX_SEQUENTIAL.
  destruct (Z.ltb_spec n 0), (Z.ltb_spec 4096 n); cbn; done || lia.
Qed.

Lemma opt_all_keeps e x : keeps e (opt_all e x).
Proof.
  intros st r st' He Hv H. unfold opt_all in H. unbind H. injection H as <- <-. apply check_value_bounds in Hx0.
  apply with_modes_valid; [by apply with_flags_valid|apply (valid_modes _ _ Hv)|done].
Qed.

(** an [int32_t] *)
Lemma processors_bounds e str n :
  sane e -> get_int32 str = Returns n -> - 2 ^ 31 <= processors e n < 2 ^ 31.
Proof.
  intros He Hn%get_int32_bounds. unfold processors, stress_get_processors. pose proof (sane_online e He).
  pose proof (sane_configured e He). by destruct (n =? 0), (n <? 0).
Qed.

Lemma opt_sequential_keeps e x : keeps e (opt_sequential e x).
Proof.
  intros st r st' He Hv H. unfold opt_sequential in H. unbind H. injection H as <- <-.
  pose proof (processors_bounds e _ _ He Hx) as Hb. apply check_range_returns in Hx0.
  apply (u64_between _ MIN_SEQUENTIAL MAX_SEQUENTIAL) in Hx0; [|done|done|lia].
  apply with_modes_valid; [by apply with_flags_valid|exact Hx0|apply (valid_modes _ _ Hv)].
Qed.

Lemma opt_random_keeps e x : keeps e (opt_random e x).
Proof.
  intros st r st' He Hv H. unfold opt_random in H. unbind H. injection H as <- <-.
  apply with_settings_valid; [by apply with_flags_valid|]. pose proof (valid_settings _ _ Hv) as Hs.
  set_known set_other_ok Hx1.
Qed.

Lemma opt_class_keeps e x : keeps e (opt_class e x).
Proof.
  intros st r st' He Hv H. unfold opt_class in H. destruct (get_class (cs x.2)) as [[ret class] rep].
  destruct (ret <? 0); [by injection H as <- <-|]. destruct (0 <? ret); [done|].
  apply outcome_bind_returns in H as (s & Hs & H). apply outcome_bind_returns in H as ([fl l] & Hl & [= <- <-]).
  pose proof (valid_settings _ _ Hv) as Hset.
  apply with_list_valid; [apply with_flags_valid, with_settings_valid; [done|]; set_known set_other_ok Hs|].
  unfold enable_classes in Hl. pose proof (valid_list _ _ Hv) as Hlist.
  destruct (class =? 0); [by injection Hl as <- <-|]. apply outcome_bind_returns in Hl as (l' & Hl & [= _ ->]).
  eapply enable_loop_valid; [exact Hlist|apply (sane_allocs _ He)| |exact Hl].
  pose proof (valid_modes _ _ Hv) as [Hsq Hpar]. destruct (has _ OPT_FLAGS_ALL); [exact Hpar|].
  destruct (has _ OPT_FLAGS_SEQUENTIAL); [exact Hsq|]. by unfold MAX_SEQUENTIAL; cbn; lia.
Qed.

Lemma opt_epoll_domain_keeps e x : keeps e (opt_epoll_domain e x).
Proof.
  intros st r st' He Hv H. unfold opt_epoll_domain, stress_set_epoll_domain in H.
  apply outcome_bind_returns in H as ([[ret n] s] & Hs & [= <- <-]).
  destruct (stress_set_net_domain DOMAIN_ALL x.2) as [ret' d]. apply outcome_bind_returns in Hs as (s' & Hs & [= <- <- <-]).
  pose proof (valid_settings _ _ Hv) as Hset. apply with_settings_valid; [by apply with_system_valid|].
  set_known set_other_ok Hs.
Qed.

Lemma opt_taskset_keeps e x : keeps e (opt_taskset e x).
Proof.
  intros st r st' He Hv H. unfold opt_taskset in H. apply outcome_bind_returns in H as ([s ret] & _ & [= <- <-]).
  by apply with_system_valid.
Qed.

Lemma opt_temp_path_keeps e x : keeps e (opt_temp_path e x).
Proof. intros st r st' He Hv [= <- <-]. by apply with_system_valid. Qed.

Lemma opt_timeout_keeps e x : keeps e (opt_timeout e x).
Proof.
  intros st r st' He Hv H. unfold opt_timeout in H. unbind H. injection H as <- <-.
  apply with_modes_valid; [done|apply (valid_modes _ _ Hv)..].
Qed.

Lemma opt_timer_slack_keeps e x : keeps e (opt_timer_slack e x).
Proof.
  intros st r st' He Hv H. unfold opt_timer_slack, stress_set_timer_slack_ns in H. unbind H. injection H as <- <-.
  destruct (_ && _); [|injection Hx as <-; by apply with_flags_valid].
  unbind Hx. injection Hx as <-. by apply with_system_valid, with_flags_valid.
Qed.

(** *** the table *)

(** the place of a setter in the table of setters *)
Ltac place_in f l :=
  lazymatch l with
  | (f, _) :: _ => constr:(0%nat)
  | _ :: ?l => let k := place_in f l in constr:(S k)
  end.

Ltac known_setter :=
  match goal with |- sets ?e (fun c s => ?f c ?opt s) =>
    let l := eval cbv [setters] in (setters (page e)) in
    let k := place_in f l in
    eapply (setter_sets e f); apply (list_elem_of_lookup_2 _ k); reflexivity end.

Ltac solve_action :=
  lazymatch goal with
  | |- action_keeps _ (FlagsOn _) => apply flags_on_keeps
  | |- action_keeps _ (FlagsOff _) => apply flags_off_keeps
  | |- action_keeps _ (Show _) => apply show_keeps
  | |- action_keeps _ Refuse => apply refuse_keeps
  | |- action_keeps _ Nothing => apply nothing_keeps
  | |- action_keeps _ (StrSetting _) => apply str_setting_keeps; known_setting
  | |- action_keeps _ (Chooser _) => apply chooser_keeps; solve_chooses
  | |- action_keeps _ (Setter stress_set_dirdeep_inodes) => apply setter_keeps, dirdeep_inodes_sets
  | |- action_keeps _ (Setter _) =>
      apply setter_keeps; intros ?opt; first [apply value_sets; known_setting | known_setter]
  | |- action_keeps _ (ByAddress _) => apply by_address_keeps; intros ?p; apply set_string_ok; known_setting
  | |- action_keeps _ (Special _) =>
      apply special_keeps; intros ?x;
      first [ apply opt_all_keeps | apply opt_sequential_keeps | apply opt_random_keeps | apply opt_class_keeps
            | apply opt_epoll_domain_keeps | apply opt_taskset_keeps | apply opt_temp_path_keeps
            | apply opt_timeout_keeps | apply opt_timer_slack_keeps ]
  | |- action_keeps _ (Plainly _) =>
      apply plainly_keeps; first [apply vm_flags_sets | apply set_other_ok; known_setting]
  | |- action_keeps _ (if ?b then _ else _) => destruct b; solve_action
  end.

Lemma ifdef_forall {A} (P : A -> Prop) d macro l : Forall P l -> Forall P (ifdef d macro l).
Proof. intros H. unfold ifdef. destruct (d macro); [done|constructor]. Qed.

Ltac solve_switch :=
  repeat first [ apply Forall_app; split | apply ifdef_forall ];
  (repeat apply Forall_cons_2; [..|apply Forall_nil_2]; cbn [snd]; solve_action).

Lemma switch_1_keeps e : Forall (fun m => action_keeps e m.2) (switch_1 e).
Proof. unfold switch_1. solve_switch. Qed.
Lemma switch_2_keeps e : Forall (fun m => action_keeps e m.2) (switch_2 e).
Proof. unfold switch_2. solve_switch. Qed.
Lemma switch_3_keeps e : Forall (fun m => action_keeps e m.2) (switch_3 e).
Proof. unfold switch_3. solve_switch. Qed.
Lemma switch_4_keeps e : Forall (fun m => action_keeps e m.2) (switch_4 e).
Proof. unfold switch_4. solve_switch. Qed.
Lemma switch_5_keeps e : Forall (fun m => action_keeps e m.2) (switch_5 e).
Proof. unfold switch_5. solve_switch. Qed.

Lemma switch_keeps e : Forall (fun m => action_keeps e m.2) (switch e).
Proof.
  unfold switch. rewrite !Forall_app.
  split_and!; [apply switch_1_keeps|apply switch_2_keeps|apply switch_3_keeps|apply switch_4_keeps|apply switch_5_keeps].
Qed.

Lemma find_case_in e c a : find_case e c = Some a -> (c, a) ∈ switch e.
Proof.
  unfold find_case. destruct (list_find _ _) as [[i [c' a']]|] eqn:Hf; [|done]. intros [= ->].
  apply list_find_Some in Hf as (Hi & <- & _). by eapply list_elem_of_lookup_2.
Qed.

(** ** The parser *)

Lemma parse_opt_keeps e r : keeps e (parse_opt e r).
Proof.
  intros st ret st' He Hv H. destruct r as [c oa]. cbn [parse_opt] in H.
  destruct (stressor_option stressors c) as [[s b]|] eqn:Hs.
  - destruct oa as [x|]; [|by destruct b]. destruct b; [by eapply name_stressor_keeps|by eapply name_ops_keeps].
  - destruct (find_case e c) as [a|] eqn:Hc; [|by injection H as <- <-].
    pose proof (switch_keeps e) as Hk. rewrite Forall_forall in Hk. by eapply (Hk (c, a) (find_case_in e c a Hc)).
Qed.

Lemma parse_loop_keeps e rs st ret st' :
  sane e -> valid e st -> parse_loop e rs st = Returns (ret, st') -> valid e st'.
Proof.
  intros He. revert st. induction rs as [|r rs IH]; intros st Hv H; cbn [parse_loop] in H; [by injection H as <- <-|].
  apply outcome_bind_returns in H as ([o st1] & H1 & H). pose proof (parse_opt_keeps e r st o st1 He Hv H1) as Hv1.
  destruct o as [x|]; [by injection H as <- <-|by eapply IH].
Qed.

Lemma initial_valid e : valid e initial.
Proof.
  constructor.
  - constructor.
  - exists []. split; [apply no_procs_repr|]. by split; [constructor|].
  - by vm_compute.
Qed.

Lemma set_defaults_keeps e l st st' :
  Forall (fun m => chooses e m.2) l -> sane e -> valid e st -> set_defaults e l st = Returns st' -> valid e st'.
Proof.
  intros Hl He. revert st. induction Hl as [|[x f] l Hf _ IH]; intros st Hv H; cbn [set_defaults] in H; [by injection H as <-|].
  apply outcome_bind_returns in H as ([ret s] & Hs & H). eapply (IH (with_settings s st)); [|exact H].
  apply with_settings_valid; [done|]. eapply Hf; [done|apply (valid_settings _ _ Hv)|exact Hs].
Qed.

Lemma defaults_choose e : Forall (fun m => chooses e m.2) (stressor_default e).
Proof.
  unfold stressor_default. cbv zeta. apply Forall_app. split; [|apply ifdef_forall];
    (repeat apply Forall_cons_2; [..|apply Forall_nil_2]; cbn [snd]; solve_chooses).
Qed.

Lemma command_line_valid e args ret st : sane e -> command_line e args = Returns (ret, st) -> valid e st.
Proof.
  intros He H. apply outcome_bind_returns in H as (st0 & H0 & H). eapply parse_loop_keeps; [done| |exact H].
  eapply set_defaults_keeps; [apply defaults_choose|done|apply initial_valid|exact H0].
Qed.

(** ** What holds for every command line *)

(** Whatever the command line and the answers of the system, the stressor list
    the option parser leaves is well linked, and every stressor on it has a
    number of workers and of operations within limits and is ready for the
    set-up of the run. *)
Theorem parsed_list_valid e args ret st :
  sane e -> command_line e args = Returns (ret, st) ->
  exists ls, repr (plist st) ls /\ Forall (fun x => listed x.2) ls.
Proof. intros He [_ (ls & Hr & Hls & _) _]%command_line_valid; [by exists ls|done]. Qed.

(** (C8) From the command line to the stressor: whatever command line the parser accepts, each of the 51 sizes and counts of
    [readers] with which a stressor runs is within the range that the setter of its option enforces (which for lsearch-size, shm-objs and
    the sizes of memory is wider than the constants of stress-ng.h of that name): from the
    option, the default, [--maximize] or [--minimize], after sharing among the instances and every later adjustment of the
    variable.  Not so, and not among them: hdd-bytes, pthread-max and sleep-max, which can fall
    below that range.  There is at least one instance, and the page size is a power of two of at most 1 MB. *)
Theorem command_line_within_limits e args ret st aio_max r nm f lim g sp :
  sane e -> command_line e args = Returns (ret, st) ->
  r_store r = settings st -> sane_run r -> (nm, (f, lim)) ∈ readers aio_max ->
  (g, sp) ∈ setters (page e) -> sp_name sp = nm -> exists x, f r = Some x /\ sp_lo sp <= x <= sp_hi sp.
Proof.
  intros He [Hs _ _]%command_line_valid Hr Hrun Hin Hsp Hnm; [|done]. rewrite <- Hr in Hs.
  by eapply (reader_in_range (page e) aio_max r nm f lim g sp (sane_page _ He)).
Qed.

(** ** Every option has a handler *)

(** a build on Linux, where the options of the table are compiled in *)
Definition full_build (e : penv) : Prop :=
  Forall (fun macro => pe_defined e macro = true) ["STRESS_PERF_STATS"; "F_SETPIPE_SZ"; "MAP_LOCKED"; "MAP_POPULATE"].

(** a stressor option has its argument; any other has a case in the switch,
    which does not read an argument that is not there *)
Definition served (e : penv) (r : scanned) : Prop :=
  match stressor_option stressors r.1 with
  | Some _ => is_Some r.2
  | None => exists a, find_case e r.1 = Some a /\ (reads_arg a = true -> is_Some r.2)
  end.

(** the cases, and whether they read the argument *)
Definition switch_shape (e : penv) : list (Z * bool) := (fun m => (m.1, reads_arg m.2)) <$> switch e.

Lemma find_case_shape e c i b :
  list_find (fun m => m.1 = c) (switch_shape e) = Some (i, (c, b)) ->
  exists a, find_case e c = Some a /\ reads_arg a = b.
Proof.
  unfold switch_shape, find_case. rewrite list_find_fmap.
  intros ([i' [c' a]] & Hf & [= <- Hc Hb])%fmap_Some. exists a.
  assert (list_find (fun m => m.1 = c) (switch e) = Some (i, (c', a))) as ->; [|done].
  etransitivity; [|exact Hf]. by apply list_find_ext.
Qed.

Definition served_by (shape : list (Z * bool)) (v : Z) (has_arg : bool) : bool :=
  match stressor_option stressors v with
  | Some _ => has_arg
  | None =>
      match list_find (fun m => m.1 = v) shape with
      | Some (_, (_, reads)) => implb reads has_arg
      | None => false
      end
  end.

Lemma served_by_served e v (oa : option arg) has_arg :
  served_by (switch_shape e) v has_arg = true -> (has_arg = true -> is_Some oa) -> served e (v, oa).
Proof.
  unfold served_by, served. cbn [fst snd]. destruct (stressor_option stressors v) as [[s b]|]; [by intros ? H; apply H|].
  destruct (list_find _ _) as [[i [c b]]|] eqn:Hf; [|done]. intros Hi Ho.
  pose proof Hf as (_ & Hc & _)%list_find_Some. cbn in Hc. subst c.
  destruct (find_case_shape e v i b Hf) as (a & -> & Ha). exists a. split; [done|]. rewrite Ha. intros ->. by apply Ho.
Qed.

Definition all_served (shape : list (Z * bool)) : bool :=
  forallb (fun o => served_by shape o.2 o.1.2) option_values &&
  forallb (fun k => match short_option optstring (ascii_of_nat k) with
                    | Some b => served_by shape (code (ascii_of_nat k)) b
                    | None => true
                    end) (seq 0 256) &&
  served_by shape (code "?") false.

Lemma switch_all_served e : full_build e -> all_served (switch_shape e) = true.
Proof.
  intros H. assert (pe_defined e "STRESS_PERF_STATS" = true /\ pe_defined e "F_SETPIPE_SZ" = true /\
    pe_defined e "MAP_LOCKED" = true /\ pe_defined e "MAP_POPULATE" = true) as (H1 & H2 & H3 & H4).
  { unfold full_build in H. rewrite !Forall_cons in H. tauto. }
  unfold switch_shape, switch, switch_1, switch_2, switch_3, switch_4, switch_5, ifdef. rewrite H1, H2, H3, H4.
  destruct (pe_defined e "HAVE_LIB_Z"); vm_compute; reflexivity.
Qed.

(** (C18) Every option of the command line is handled: whatever words are given, each
    option [getopt_long()] returns is that of a stressor or has a case in the
    switch, and the code that reads its argument is given one.  (No option of
    the table falls through to the default, no null pointer is parsed.) *)
Theorem every_option_served e args : full_build e -> Forall (served e) (getopt_long args).
Proof.
  intros H%switch_all_served. unfold all_served in H. apply andb_true_iff in H as [[Hl Hs]%andb_true_iff Hq].
  eapply Forall_impl; [apply getopt_long_tables|]. intros [v oa] [[= -> ->]|[(n & b & Hin & Hb)|(c & b & Hc & Hso & Hb)]]; cbn [fst snd] in *.
  - by eapply served_by_served.
  - rewrite forallb_forall in Hl. apply list_elem_of_In in Hin. eapply served_by_served; [apply (Hl _ Hin)|apply Hb].
  - subst v. rewrite forallb_forall in Hs. specialize (Hs (nat_of_ascii c)). rewrite ascii_nat_embedding, Hso in Hs.
    eapply served_by_served; [apply Hs|apply Hb]. apply in_seq. pose proof (nat_ascii_bounded c) as Hn. clear -Hn. lia.
Qed.

(** ** Stressors are listed as they are asked for *)

#[global] Instance stress_eq_dec : EqDecision stress.
Proof. solve_decision. Defined.

(** a name that is scanned as the option it names *)
Definition spelt (name : string) (v : Z) : bool :=
  match split_value 2 name with
  | (String c t, None) => String.eqb (String c t) name && bool_decide (long_option name = Some (true, v))
  | _ => false
  end.

Definition named_well (st : stress) : bool :=
  spelt (opt_name (s_short st)) (s_short st) && spelt (opt_name (s_op st)) (s_op st) &&
  bool_decide (stressor_option stressors (s_short st) = Some (st, true)) &&
  match stressor_option stressors (s_op st) with Some (_, b) => negb b | None => false end.

Lemma stressors_named_well : forallb named_well stressors = true.
Proof. vm_compute. reflexivity. Qed.

Lemma spelt_scanned name v a x rest :
  spelt name v = true -> getopt_long ((a, "--" +:+ name) :: x :: rest) = (v, Some x) :: getopt_long rest.
Proof.
  unfold spelt. destruct (split_value 2 name) as [[|c t] [?|]] eqn:Hs; try done.
  intros [Hn%String.eqb_eq Hl%bool_decide_eq_true]%andb_true_iff.
  apply getopt_long_option; [by exists c, t|by rewrite Hs, Hn|done].
Qed.

Lemma stressor_named st :
  st ∈ stressors ->
  spelt (opt_name (s_short st)) (s_short st) = true /\ spelt (opt_name (s_op st)) (s_op st) = true /\
  stressor_option stressors (s_short st) = Some (st, true) /\
  exists st', stressor_option stressors (s_op st) = Some (st', false).
Proof.
  intros Hin. pose proof stressors_named_well as H. rewrite forallb_forall in H. apply list_elem_of_In in Hin.
  specialize (H st Hin). unfold named_well in H.
  apply andb_true_iff in H as [[[H1 H2]%andb_true_iff H3]%andb_true_iff H4]. apply bool_decide_eq_true in H3.
  split_and!; [done..|]. destruct (stressor_option stressors (s_op st)) as [[st' []]|]; try done. by exists st'.
Qed.

(** what is asked for: a stressor, the number of its workers, and perhaps a
    number of operations, by the option of any stressor *)
Record order := Order { o_stressor : stress; o_workers : list Z; o_ops : option (stress * list Z) }.

Definition order_words (o : order) : list string :=
  ["--" +:+ opt_name (s_short (o_stressor o)); digits_text (o_workers o) EmptyString] ++
  match o_ops o with
  | None => []
  | Some (s, ds) => ["--" +:+ opt_name (s_op s); digits_text ds EmptyString]
  end.

Definition ordered (e : penv) (o : order) : pdata :=
  PData (o_stressor o) [] [] 0 (processors e (number (o_workers o)))
    (match o_ops o with None => 0 | Some (_, ds) => number ds end).

Definition order_ok (e : penv) (o : order) : Prop :=
  o_stressor o ∈ stressors /\ decimal (o_workers o) /\ (length (o_workers o) <= 11)%nat /\
  number (o_workers o) < 2 ^ 31 /\ 0 <= processors e (number (o_workers o)) <= STRESS_PROCS_MAX /\
  match o_ops o with
  | None => True
  | Some (s, ds) => s ∈ stressors /\ decimal ds /\ MIN_OPS <= number ds <= MAX_OPS
  end.

(** memory is never short, and the enclave has a method for its default *)
Record generous (e : penv) : Prop := Generous {
  generous_list : forall s, exists l ps, pe_allocs e s = Some l :: ps;
  generous_settings : forall s, exists l, ce_alloc (pe_cenv e) s = Some l;
  generous_dup : ce_dup (pe_cenv e) = true;
  generous_symbol : forall n, pe_symbol e n <> 0;
  generous_enclave : "all" ∈ (pe_sgx_methods e).*1
}.

(** a state in which nothing but stressors was asked for *)

Definition plain_settings : list string :=
  ["cpu-method"; "funccall-method"; "sgx-method"; "sgx-vm-method"; "str-method"; "wcs-method"; "matrix-method";
   "vm-method"; "zlib-method"] ++ ops_settings.

Definition mode_flags : Z := OPT_FLAGS_SEQUENTIAL .| OPT_FLAGS_ALL .| OPT_FLAGS_RANDOM .| OPT_FLAGS_MINMAX_MASK.

Record tidy (st : popts) (ls : list (positive * pdata)) : Prop := Tidy {
  tidy_list : repr (plist st) ls;
  tidy_settings : exists es, holds (settings st) es /\ Forall (fun en => e_name en ∈ plain_settings) es;
  tidy_flags : g_opt_flags st .& mode_flags = 0
}.

Lemma initial_tidy : tidy initial [].
Proof.
  constructor; [apply no_procs_repr| |reflexivity]. exists []. split; [apply no_settings_holds|constructor].
Qed.

Lemma set_value_tidy e st ls nm t v :
  sane e -> generous e -> scalar t = true -> nm ∈ plain_settings -> tidy st ls ->
  exists s, set_local (cenv_of e st) nm t v (settings st) = Returns s /\ tidy (with_settings s st) ls.
Proof.
  intros He Hg Ht Hnm [Hr (es & Hs & Hes) Hf].
  destruct (set_local_appends (cenv_of e st) nm t v (settings st) es Ht Hs) as (s & Hset & Hs').
  { destruct (generous_settings e Hg (settings st)) as (x & Hx). split; [exists x; split; [done|by apply (sane_alloc _ He)]|].
    split; [apply (generous_dup e Hg)|apply (sane_local _ He)]. }
  exists s. split; [done|]. constructor; [done| |done]. eexists. split; [exact Hs'|].
  apply Forall_app. split; [done|]. by apply Forall_singleton.
Qed.

Lemma set_string_tidy e st ls nm p :
  sane e -> generous e -> p <> 0 -> nm ∈ plain_settings -> tidy st ls ->
  exists s, set_string (cenv_of e st) nm p (settings st) = Returns s /\ tidy (with_settings s st) ls.
Proof.
  intros He Hg Hp Hnm [Hr (es & Hs & Hes) Hf]. destruct (generous_settings e Hg (settings st)) as (x & Hx).
  destruct (set_setting_appends (settings st) es x (proc_current st) (fun _ => 0) nm TYPE_ID_STR p Hs) as (s & Hset & Hs');
    [by apply (sane_alloc _ He)|done|].
  exists s. split.
  - unfold set_string. cbn [cenv_of ce_alloc ce_dup ce_proc]. by rewrite Hx, (generous_dup e Hg).
  - constructor; [done| |done]. eexists. split; [exact Hs'|]. apply Forall_app. split; [done|]. by apply Forall_singleton.
Qed.

(** *** the defaults *)

Definition tidily (e : penv) (m : string * chooser) : Prop :=
  forall st ls, tidy st ls -> exists ret s, m.2 (cenv_of e st) m.1 (pe_symbol e m.1) (settings st) = Returns (ret, s) /\
    tidy (with_settings s st) ls.

Lemma with_settings_same st ls : tidy st ls -> tidy (with_settings (settings st) st) ls.
Proof. by intros [? ? ?]. Qed.

Lemma set_found_tidy e st ls key t found :
  sane e -> generous e -> scalar t = true -> key ∈ plain_settings -> tidy st ls ->
  exists ret s, set_found (cenv_of e st) key t found (settings st) = Returns (ret, s) /\ tidy (with_settings s st) ls.
Proof.
  intros He Hg Ht Hkey Hst. destruct found as [x|]; cbn [set_found]; [|by eexists _, _; split; [|apply with_settings_same]].
  destruct (set_value_tidy e st ls key t x He Hg Ht Hkey Hst) as (s & -> & Hs). by eexists _, s.
Qed.

Lemma matrix_tidily e : sane e -> generous e -> tidily e ("all", stress_set_matrix_method).
Proof.
  intros He Hg st ls Hst. cbn [fst snd]. unfold stress_set_matrix_method, stress_get_matrix_method.
  change (find_name "all" (numbered matrix_methods)) with (Some 0).
  assert ("matrix-method" ∈ plain_settings) as Hin by (apply elem_of_app; left; known_setting).
  destruct (set_string_tidy e st ls _ _ He Hg (generous_symbol e Hg "all") Hin Hst) as (s1 & -> & Hs1). cbn [mbind outcome_bind].
  destruct (set_string_tidy e _ ls _ _ He Hg (generous_symbol e Hg "all") Hin Hs1) as (s2 & Hs2 & Ht2).
  cbn [settings with_settings] in Hs2. change (cenv_of e (with_settings s1 st)) with (cenv_of e st) in Hs2.
  rewrite Hs2. by eexists _, s2.
Qed.

Lemma enclave_tidily e ex msg key :
  sane e -> generous e -> key ∈ plain_settings -> ex "all" = 1 ->
  tidily e ("all", set_enclave_method ex msg key (pe_sgx e)).
Proof.
  intros He Hg Hkey Hex st ls Hst. cbn [fst snd]. unfold set_enclave_method. pose proof (with_settings_same st ls Hst).
  destruct (init_ok (pe_sgx e)); cbn [negb]; [|by eexists _, _]. destruct (enter_ok (pe_sgx e) 0); cbn [negb]; [|by eexists _, _].
  rewrite Hex. change (1 =? 1) with true. cbv iota.
  destruct (set_string_tidy e st ls key _ He Hg (generous_symbol e Hg "all") Hkey Hst) as (s & Hs & Ht).
  unfold set_string in Hs. rewrite Hs. by eexists _, s.
Qed.

Lemma enclave_cpu_default e : generous e -> ecall_cpu_method_exists (pe_sgx_methods e) "all" = 1.
Proof.
  intros Hg. unfold ecall_cpu_method_exists. destruct (list_find _ _) as [[i m]|] eqn:Hf; [done|].
  apply list_find_None in Hf. pose proof (generous_enclave e Hg) as Hin. apply list_elem_of_fmap in Hin as (m & Hm & Hin).
  rewrite Forall_forall in Hf. by destruct (Hf m Hin).
Qed.

Lemma defaults_tidily e : sane e -> generous e -> Forall (tidily e) (stressor_default e).
Proof.
  intros He Hg. unfold stressor_default. cbv zeta. apply Forall_app. split; [|apply ifdef_forall];
    (repeat apply Forall_cons_2; [..|apply Forall_nil_2]);
    first
      [ by apply matrix_tidily
      | apply enclave_tidily; [done|done|apply elem_of_app; left; known_setting|];
        [first [by apply enclave_cpu_default | reflexivity]]
      | intros st ls Hst; cbn [fst snd]; apply set_found_tidy;
          [done|done|reflexivity|apply elem_of_app; left; known_setting|done] ].
Qed.

Lemma set_defaults_tidy e l st ls :
  Forall (tidily e) l -> tidy st ls -> exists st', set_defaults e l st = Returns st' /\ tidy st' ls.
Proof.
  intros Hl. revert st. induction Hl as [|[x f] l Hf _ IH]; intros st Hst; [by exists st|].
  destruct (Hf st ls Hst) as (ret & s & Hs & Hst'). cbn [set_defaults fst snd] in *. rewrite Hs. cbn [mbind outcome_bind].
  by apply IH.
Qed.

(** *** one order *)

Definition step_to (e : penv) (rs : list scanned) (st st' : popts) : Prop :=
  forall rs', parse_loop e (rs ++ rs') st = parse_loop e rs' st'.

Lemma step_one e r st st' : parse_opt e r st = Returns (None, st') -> step_to e [r] st st'.
Proof. intros H rs'. cbn [app parse_loop]. by rewrite H. Qed.

Lemma step_trans e rs1 rs2 st1 st2 st3 : step_to e rs1 st1 st2 -> step_to e rs2 st2 st3 -> step_to e (rs1 ++ rs2) st1 st3.
Proof. intros H1 H2 rs'. by rewrite <- app_assoc, H1, H2. Qed.

Lemma name_stressor_step e s ds a st ls :
  sane e -> generous e -> s ∈ stressors -> decimal ds -> (length ds <= 11)%nat -> number ds < 2 ^ 31 ->
  0 <= processors e (number ds) <= STRESS_PROCS_MAX -> tidy st ls ->
  exists l st', step_to e [(s_short s, Some (a, digits_text ds EmptyString))] st st' /\
    tidy st' (ls ++ [(l, PData s [] [] 0 (processors e (number ds)) 0)]) /\ proc_current st' = Some l.
Proof.
  intros He Hg Hs Hd Hlen Hn Hb [Hr Hset Hf]. destruct (stressor_named s Hs) as (_ & _ & Hso & _).
  destruct (generous_list e Hg (plist st)) as (l & ps & Hps).
  destruct (find_proc_info_repr (plist st) ls l s Hr) as (p1 & Hp1 & Hr1).
  { apply (head_fresh _ (pe_allocs e (plist st))); [apply (sane_allocs _ He)|]. by rewrite Hps. }
  destruct (set_num_repr p1 ls l _ [] (processors e (number ds)) Hr1) as (p2 & Hp2 & Hr2 & _).
  exists l, (with_list p2 (Some l) (with_flags (fun f => f .| OPT_FLAGS_SET) st)).
  split; [apply step_one|split; [constructor; [exact Hr2|exact Hset|]|done]].
  - cbn [parse_opt]. rewrite Hso.
    unfold name_stressor. rewrite Hps. cbn [head from_option]. unfold id. rewrite Hp1. cbn [mbind outcome_bind snd].
    rewrite get_int32_plain by done. cbn [mbind outcome_bind]. rewrite Hp2. cbn [mbind outcome_bind]. unfold check_value.
    destruct (Z.ltb_spec (processors e (number ds)) 0), (Z.ltb_spec STRESS_PROCS_MAX (processors e (number ds))); done || lia.
  - cbn [g_opt_flags with_list with_flags]. rewrite Z.land_lor_distr_l, Hf. reflexivity.
Qed.

Lemma name_ops_step e s ds a st ls l d :
  sane e -> generous e -> s ∈ stressors -> decimal ds -> MIN_OPS <= number ds <= MAX_OPS ->
  tidy st (ls ++ [(l, d)]) -> proc_current st = Some l ->
  exists st', step_to e [(s_op s, Some (a, digits_text ds EmptyString))] st st' /\
    tidy st' (ls ++ [(l, with_ops (number ds) d)]).
Proof.
  intros He Hg Hs Hd Hn Hst Hcur. destruct (stressor_named s Hs) as (_ & _ & _ & st2 & Hso).
  assert (opt_name (s_op s) ∈ plain_settings) as Hin
    by (apply elem_of_app; right; by apply (list_elem_of_fmap_2 (fun st => opt_name (s_op st)))).
  destruct (set_value_tidy e st _ (opt_name (s_op s)) TYPE_ID_UINT64 (number ds) He Hg eq_refl Hin Hst) as (s' & Hs' & [Hr Hset Hf]).
  destruct (set_data_repr (plist st) ls l d [] (with_ops (number ds) d) Hr) as (nd & Hnd & Hdat & Hr' & _).
  eexists (with_list _ (Some l) (with_settings s' st)). split; [apply step_one|constructor; [exact Hr'|exact Hset|exact Hf]].
  cbn [parse_opt]. rewrite Hso. unfold name_ops. cbn [snd].
  rewrite get_uint64_plain by (done || unfold MAX_OPS in Hn; lia). cbn [mbind outcome_bind].
  rewrite check_range_passes by done. cbn [mbind outcome_bind]. rewrite Hs'. cbn [mbind outcome_bind].
  rewrite Hcur. unfold set_ops. rewrite Hnd, Hdat. done.
Qed.

Lemma fmap_cons_arg (args : list arg) w ws : args.*2 = w :: ws -> exists a args', args = (a, w) :: args' /\ args'.*2 = ws.
Proof. destruct args as [|[a t] args]; [done|]. intros [= <- H]. by exists a, args. Qed.

Lemma order_step e o ws args st ls :
  sane e -> generous e -> order_ok e o -> args.*2 = order_words o ++ ws -> tidy st ls ->
  exists rs args' st' l, getopt_long args = rs ++ getopt_long args' /\ args'.*2 = ws /\ step_to e rs st st' /\
    tidy st' (ls ++ [(l, ordered e o)]).
Proof.
  intros He Hg (Hs & Hd & Hlen & Hn & Hb & Hops) Hw Hst. unfold order_words in Hw.
  rewrite <- app_assoc in Hw. cbn [app] in Hw.
  apply fmap_cons_arg in Hw as (a1 & args1 & -> & Hw). apply fmap_cons_arg in Hw as (a2 & args2 & -> & Hw).
  destruct (stressor_named _ Hs) as (Hsp & _). rewrite (spelt_scanned _ _ _ _ _ Hsp).
  destruct (name_stressor_step e _ _ a2 st ls He Hg Hs Hd Hlen Hn Hb Hst) as (l & st1 & Hst1 & Ht1 & Hcur).
  unfold ordered. destruct (o_ops o) as [[s2 ds2]|].
  - destruct Hops as (Hs2 & Hd2 & Hn2). cbn [app] in Hw.
    apply fmap_cons_arg in Hw as (a3 & args3 & -> & Hw). apply fmap_cons_arg in Hw as (a4 & args4 & -> & Hw).
    destruct (stressor_named _ Hs2) as (_ & Hsp2 & _). rewrite (spelt_scanned _ _ _ _ _ Hsp2).
    destruct (name_ops_step e s2 ds2 a4 st1 ls l _ He Hg Hs2 Hd2 Hn2 Ht1 Hcur) as (st2 & Hst2 & Ht2).
    eexists [_; _], args4, st2, l. split; [done|]. split; [done|].
    split; [by eapply (step_trans e [_] [_])|done].
  - cbn [app] in Hw. eexists [_], args2, st1, l. done.
Qed.

Lemma orders_parsed e os args st ls :
  sane e -> generous e -> Forall (order_ok e) os -> args.*2 = concat (order_words <$> os) -> tidy st ls ->
  exists st' ls', parse_opts e args st = Returns (EXIT_SUCCESS, st') /\ tidy st' (ls ++ ls') /\ ls'.*2 = ordered e <$> os.
Proof.
  intros He Hg. revert args st ls. induction os as [|o os IH]; intros args st ls Hok Hw Hst.
  - apply fmap_nil_inv in Hw as ->. exists st, []. by rewrite app_nil_r.
  - apply Forall_cons in Hok as [Ho Hok]. rewrite fmap_cons in Hw. cbn [concat] in Hw.
    destruct (order_step e o _ args st ls He Hg Ho Hw Hst) as (rs & args' & st1 & l & Hgo & Hw' & Hstep & Ht1).
    destruct (IH args' st1 _ Hok Hw' Ht1) as (st' & ls' & Hp & Ht' & Hls').
    exists st', ((l, ordered e o) :: ls'). unfold parse_opts in *. rewrite Hgo, Hstep. split; [done|].
    rewrite <- app_assoc in Ht'. split; [done|]. rewrite fmap_cons. cbn [snd]. by rewrite Hls', fmap_cons.
Qed.

Lemma command_line_orders e os args :
  sane e -> generous e -> Forall (order_ok e) os -> args.*2 = concat (order_words <$> os) ->
  exists st ls, command_line e args = Returns (EXIT_SUCCESS, st) /\ tidy st ls /\ ls.*2 = ordered e <$> os.
Proof.
  intros He Hg Hok Hw. unfold command_line.
  destruct (set_defaults_tidy e (stressor_default e) initial [] (defaults_tidily e He Hg) initial_tidy) as (st0 & H0 & Ht0).
  unfold stressor_set_defaults. rewrite H0. cbn [mbind outcome_bind].
  by apply (orders_parsed e os args st0 []).
Qed.

(** (C16) A command line that asks for stressors one after the other, each with its
    number of workers and perhaps a number of operations, leaves exactly these
    stressors on the list, in that order and with these numbers.  The number of
    operations goes to the stressor named last, whichever stressor's
    [--X-ops] option gives it. *)
Theorem workers_as_asked e os args :
  sane e -> generous e -> Forall (order_ok e) os -> args.*2 = concat (order_words <$> os) ->
  exists st ls, command_line e args = Returns (EXIT_SUCCESS, st) /\
    repr (plist st) ls /\ ls.*2 = ordered e <$> os.
Proof.
  intros He Hg Hok Hw. destruct (command_line_orders e os args He Hg Hok Hw) as (st & ls & H & [Hr _ _] & Hls).
  by exists st, ls.
Qed.

(** *** a concrete command line: [--vm 2 --cpu-ops 100 --cpu 4] *)

Definition demo_penv : penv :=
  PEnv (fun _ => true) (fun _ => 4096) (fun _ => true) demo_cenv (fun p => [Some (fresh (dom (heap p)))]) 4 8
    (fun _ => true) (fun _ => true) (SgxEnv true (fun _ => true)) [("all", stress_cpu_bitops)] demo_mincore.

Definition demo_named (name : string) : stress :=
  default (Stress [] 0 0 0 0) (List.find (fun s => String.eqb (opt_name (s_short s)) name) stressors).

Definition demo_orders : list order :=
  [Order (demo_named "vm") [2] (Some (demo_named "cpu", [1; 0; 0])); Order (demo_named "cpu") [4] None].

Definition demo_args : list arg := imap (fun i w => (8 * Z.of_nat i, w)) (concat (order_words <$> demo_orders)).

Lemma demo_penv_sane : sane demo_penv.
Proof.
  constructor; [by vm_compute|done| | |by vm_compute..].
  - intros s l [= <-]. apply not_elem_of_dom, is_fresh.
  - intros s. split; cbn; [apply NoDup_singleton|]. intros l ->%list_elem_of_singleton. apply not_elem_of_dom, is_fresh.
Qed.

Lemma demo_penv_generous : generous demo_penv.
Proof. constructor; [intros s; by eexists _, _|intros s; by eexists|done..|by left]. Qed.

Lemma demo_orders_ok : Forall (order_ok demo_penv) demo_orders.
Proof.
  assert (demo_named "vm" ∈ stressors /\ demo_named "cpu" ∈ stressors) as [Hv Hc]
    by (split; apply (bool_decide_unpack _); vm_compute; reflexivity).
  assert (forall ds, forallb (fun d => (0 <=? d) && (d <=? 9)) ds = true -> ds <> [] -> decimal ds) as Hd.
  { intros ds H Hne. split; [done|]. apply Forall_forall. intros d Hin%list_elem_of_In. rewrite forallb_forall in H.
    specialize (H d Hin). lia. }
  apply Forall_cons. split; [|apply Forall_singleton].
  - refine (conj Hv (conj (Hd [2] eq_refl _) (conj _ (conj _ (conj _ (conj Hc (conj (Hd [1; 0; 0] eq_refl _) _))))))); first [discriminate | cbn [o_workers length]; lia | by vm_compute].
  - refine (conj Hc (conj (Hd [4] eq_refl _) (conj _ (conj _ (conj _ I))))); first [discriminate | cbn [o_workers length]; lia | by vm_compute].
Qed.

Lemma demo_words : demo_args.*2 = concat (order_words <$> demo_orders).
Proof. vm_compute. reflexivity. Qed.

Lemma demo_parsed : exists st, command_line demo_penv demo_args = Returns (EXIT_SUCCESS, st).
Proof.
  destruct (command_line_orders demo_penv demo_orders demo_args demo_penv_sane demo_penv_generous demo_orders_ok demo_words)
    as (st & ls & H & _). by exists st.
Qed.

Lemma parsed_list_valid_witness :
  exists st, command_line demo_penv demo_args = Returns (EXIT_SUCCESS, st) /\
    exists ls, repr (plist st) ls /\ Forall (fun x => listed x.2) ls.
Proof.
  destruct demo_parsed as (st & H). exists st. split; [exact H|].
  exact (parsed_list_valid demo_penv demo_args EXIT_SUCCESS st demo_penv_sane H).
Defined.

Lemma command_line_within_limits_witness :
  exists st, command_line demo_penv demo_args = Returns (EXIT_SUCCESS, st) /\
    exists x, chosen_vm_bytes (REnv (Some 1%positive) (settings st) 0 2 4096 8192) = Some x /\
      MIN_VM_BYTES <= x <= MAX_MEM_LIMIT.
Proof.
  destruct demo_parsed as (st & H). exists st. split; [exact H|].
  set (r := REnv (Some 1%positive) (settings st) 0 2 4096 8192).
  assert (sane_run r) as Hr by (split; [discriminate|]; split; [split; discriminate|]; exists 12; split; [discriminate|reflexivity]).
  assert (("vm-bytes", (chosen_vm_bytes, (MIN_VM_BYTES, MAX_MEM_LIMIT))) ∈ readers None) as Hin
    by (apply (list_elem_of_lookup_2 _ 49); reflexivity).
  assert ((stress_set_vm_bytes, Spec "vm-bytes" TYPE_ID_SIZE_T MIN_VM_BYTES MAX_MEM_LIMIT false) ∈ setters (page demo_penv)) as Hsp
    by (apply (list_elem_of_lookup_2 _ 70); reflexivity).
  pose proof (command_line_within_limits demo_penv demo_args EXIT_SUCCESS st None r _ _ _ _ _ demo_penv_sane H eq_refl Hr Hin Hsp eq_refl) as Hx.
  exact Hx.
Defined.

Lemma every_option_served_witness :
  getopt_long [(0, "--vm"); (8, "2"); (16, "-v")] = [(code "m", Some (8, "2")); (code "v", None)] /\
  Forall (served demo_penv) (getopt_long [(0, "--vm"); (8, "2"); (16, "-v")]).
Proof. split; [vm_compute; reflexivity|]. apply (every_option_served demo_penv). repeat constructor. Defined.

Lemma workers_as_asked_witness :
  demo_args.*2 = ["--vm"; "2"; "--cpu-ops"; "100"; "--cpu"; "4"] /\
  exists st ls, command_line demo_penv demo_args = Returns (EXIT_SUCCESS, st) /\
    repr (plist st) ls /\ ls.*2 = ordered demo_penv <$> demo_orders.
Proof.
  split; [vm_compute; reflexivity|].
  exact (workers_as_asked demo_penv demo_orders demo_args demo_penv_sane demo_penv_generous demo_orders_ok demo_words).
Defined.
