(* ===== verification/Run.v ===== *)
(** * Starting and waiting for the stressors (stress-ng.c)

    The parent's side of a run: [stress_run] forks the instances round robin,
    [wait_procs] collects them, [kill_procs] signals them, and the end of
    [main] turns what was collected into the exit status.  The list walked is
    given by its elements (see [Procs] for the list itself).  What the
    operating system answers is an environment: whether the time is up at each
    check, whether the flag the signal handlers clear still stands at each
    poll, what each [fork] and each [waitpid] returns; a log keeps the answers of [waitpid].  The affinity changes of
    the aggressive mode and the child's side are in [Session], priorities in [Priority], messages in [Log]. *)

From S2P Require Import Prelude Procs.

Definition SIGKILL : Z := 9.
Definition SIGALRM : Z := 14.

Inductive fork_result : Type :=
  | ForkAgain       (** -1, EAGAIN *)
  | ForkError       (** -1, any other error *)
  | ForkPid (pid : Z).

Inductive wait_result : Type :=
  | Waited (status : Z)
  | Interrupted     (** -1, EINTR *)
  | NoChild         (** -1, ECHILD *)
  | WaitError.      (** -1, any other error *)

Record env := Env {
  expired : nat -> bool;
  keep : nat -> bool;
  fork : nat -> fork_result;
  waitpid : nat -> wait_result
}.

(** ** Signals *)

Inductive signal : Type :=
  | ToGroup (sig : Z)
  | To (pid sig : Z).

(** the instances of a stressor that were started and not yet collected *)
Definition running (d : pdata) : list Z :=
  List.filter c_true (take (Z.to_nat (started_procs d)) (pids d)).

(** the static counter of calls, and the signals sent *)
Definition kill_procs (sig : Z) (ds : list pdata) (count : Z) : Z * list signal :=
  let count := count + 1 in
  let signum := if 5 <? count then SIGKILL else sig in
  (count, ToGroup sig :: concat ((fun d => (fun pid => To pid signum) <$> running d) <$> ds)).

(** ** Starting *)

Record rstate := RState {
  checks : nat;      (** times the clock was read *)
  polls : nat;       (** times the flag was read *)
  forks : nat;
  count : Z;         (** of [kill_procs] *)
  sent : list signal;
  children : list Z  (** the processes [fork] has created *)
}.

Definition poll_keep (e : env) (st : rstate) : bool * rstate :=
  (keep e (polls st), RState (checks st) (S (polls st)) (forks st) (count st) (sent st) (children st)).
Definition check_time (e : env) (st : rstate) : bool * rstate :=
  (expired e (checks st), RState (S (checks st)) (polls st) (forks st) (count st) (sent st) (children st)).
Definition do_fork (e : env) (st : rstate) : fork_result * rstate :=
  let r := fork e (forks st) in
  (r, RState (checks st) (polls st) (S (forks st)) (count st) (sent st)
        (match r with ForkPid pid => children st ++ [pid] | _ => children st end)).
Definition do_kill (ds : list pdata) (st : rstate) : rstate :=
  let '(c, sig) := kill_procs SIGALRM ds (count st) in
  RState (checks st) (polls st) (forks st) c (sent st ++ sig) (children st).

(** [pids[j] = pid; started_procs++] *)
Definition record_pid (pid : Z) (d : pdata) : pdata :=
  PData (stressor d) (<[Z.to_nat (started_procs d) := pid]> (pids d)) (stats d) (started_procs d + 1)
    (num_procs d) (bogo_ops d).

Inductive started : Type :=
  | StNext (d : pdata) (st : rstate)
  | StBreak (st : rstate)
  | StKill (d : pdata) (st : rstate).

(** from the label [again]; [None] when the retries run out *)
Fixpoint start_proc (e : env) (retries : nat) (d : pdata) (st : rstate) : option started :=
  let '(k, st) := poll_keep e st in
  if negb k then Some (StBreak st)
  else
    let '(r, st) := do_fork e st in
    match r with
    | ForkAgain => match retries with O => None | S retries => start_proc e retries d st end
    | ForkError => Some (StKill d st)
    | ForkPid pid =>
        let d := record_pid pid d in
        let '(k, st) := poll_keep e st in
        if negb k then Some (StKill d st) else Some (StNext d st)
    end.

(** how a loop is left: at its end, through [abort] or through [wait_for_procs] *)
Inductive control : Type := CNext | CAbort | CWait.

Section start.
Variable (e : env) (retries : nat) (before : list pdata).

(** the loop over the stressors; [before] are those of the list that are not run now *)
Fixpoint start_each (pre rest : list pdata) (st : rstate) : option (control * list pdata * rstate) :=
  match rest with
  | [] => Some (CNext, pre, st)
  | d :: rest =>
      let '(up, st) := check_time e st in
      if up then Some (CAbort, pre ++ d :: rest, st)
      else if started_procs d <? num_procs d then
        r ← start_proc e retries d st;
        match r with
        | StNext d st => start_each (pre ++ [d]) rest st
        | StBreak st => Some (CNext, pre ++ d :: rest, st)
        | StKill d st => Some (CWait, pre ++ d :: rest, do_kill (before ++ pre ++ d :: rest) st)
        end
      else start_each (pre ++ [d]) rest st
  end.

Fixpoint start_rounds (n : nat) (ds : list pdata) (st : rstate) : option (control * list pdata * rstate) :=
  match n with
  | O => Some (CNext, ds, st)
  | S n =>
      '(c, ds, st) ← start_each [] ds st;
      match c with CNext => start_rounds n ds st | _ => Some (c, ds, st) end
  end.
End start.

Definition total_of (ds : list pdata) : Z := foldr (fun d n => num_procs d + n) 0 ds.

(** [total_procs] is the [uint32_t] total as an [int32_t] *)
Definition start_stressors (e : env) (retries : nat) (before ds : list pdata) (st : rstate) :
    option (control * list pdata * rstate) :=
  start_rounds e retries before (Z.to_nat (s32 (u32 (total_of ds)))) ds st.

(** ** The child *)

(** the exit status of an instance: [func] is what the stressor returns *)
Definition child_status (handler_ok keep_stressing dry_run : bool) (func : Z) (g_signum : Z) : Z :=
  let rc := if negb handler_ok then EXIT_FAILURE
            else if keep_stressing && negb dry_run then func else EXIT_SUCCESS in
  if c_true g_signum then EXIT_SIGNALED else rc.

(** ** Waiting *)

Record wstate := WState {
  waits : nat;
  success : bool;
  resource_success : bool;
  stopped : bool;     (** the flags that keep the program going were cleared *)
  w_count : Z;
  w_sent : list signal;
  w_log : list (Z * wait_result)   (** the calls of [waitpid()]: the process and the answer *)
}.

Definition WTERMSIG (status : Z) : Z := status .& 0x7f.
Definition WIFSIGNALED (status : Z) : bool := (1 <=? WTERMSIG status) && (WTERMSIG status <? 0x7f).
Definition WEXITSTATUS (status : Z) : Z := (status .& 0xff00) >>> 8.

(** the flags and [abort] after a status *)
Definition judge (status : Z) (success resource_success : bool) : bool * bool * bool :=
  let success := if WIFSIGNALED status then false else success in
  let x := WEXITSTATUS status in
  if x =? EXIT_SUCCESS then (success, resource_success, false)
  else if x =? EXIT_NO_RESOURCE then (success, false, true)
  else if x =? EXIT_NOT_IMPLEMENTED then (success, resource_success, true)
  else (false, resource_success, true).

Section wait.
Variable (e : env) (opt_abort : bool) (retries : nat).

(** one slot, from the label [redo]: the pid left in it and the state; [ds] is
    the list as it stands, for the signals sent when a run is aborted *)
Fixpoint wait_slot (retries : nat) (ds : list pdata) (pid : Z) (w : wstate) : option (Z * wstate) :=
  if pid =? 0 then Some (pid, w)
  else
    let r := waitpid e (waits w) in
    let w := WState (S (waits w)) (success w) (resource_success w) (stopped w) (w_count w) (w_sent w) (w_log w ++ [(pid, r)]) in
    match r with
    | Interrupted => match retries with O => None | S retries => wait_slot retries ds pid w end
    | NoChild => Some (0, w)
    | WaitError => Some (pid, w)
    | Waited status =>
        let '(su, re, abort) := judge status (success w) (resource_success w) in
        let w := WState (waits w) su re (stopped w) (w_count w) (w_sent w) (w_log w) in
        if opt_abort && abort then
          let '(c, sig) := kill_procs SIGALRM ds (w_count w) in
          Some (0, WState (waits w) su re true c (w_sent w ++ sig) (w_log w))
        else Some (0, w)
    end.

Definition set_pids (ps : list Z) (d : pdata) : pdata :=
  PData (stressor d) ps (stats d) (started_procs d) (num_procs d) (bogo_ops d).

(** the slots [j], [j + 1], ... of a stressor, [n] of them *)
Fixpoint wait_slots (n j : nat) (before after : list pdata) (d : pdata) (w : wstate) : option (pdata * wstate) :=
  match n with
  | O => Some (d, w)
  | S n =>
      pid ← pids d !! j;
      '(pid, w) ← wait_slot retries (before ++ d :: after) pid w;
      wait_slots n (S j) before after (set_pids (<[j := pid]> (pids d)) d) w
  end.

Fixpoint wait_each (before rest : list pdata) (w : wstate) : option (list pdata * wstate) :=
  match rest with
  | [] => Some (before, w)
  | d :: rest =>
      '(d, w) ← wait_slots (Z.to_nat (started_procs d)) 0 before rest d w;
      wait_each (before ++ [d]) rest w
  end.

Definition wait_procs (ds : list pdata) (w : wstate) : option (list pdata * wstate) := wait_each [] ds w.
End wait.

(** the end of [main] *)
Definition main_status (success resource_success : bool) : Z :=
  if negb success then EXIT_NOT_SUCCESS
  else if negb resource_success then EXIT_NO_RESOURCE
  else EXIT_SUCCESS.
