(* ===== verification/Report.v ===== *)
(** * What the program reports (stress-ng.c, time.c)

    The list of the stressors that are started, the name of an exit status, the
    command line sent to the log, the metrics and the run times, and a duration in
    words.  Numbers are printed as [printf()] does, with exact rounding.

    - [log_args_fits]: the words of the command line and the spaces between them
      fill the buffer made for them exactly, and never run over it.
    - [metrics_count_all]: the operations shown are those of all instances, and
      nothing that ran is left out. *)

From Stdlib Require Import DecimalString DecimalNat DecimalZ.
From S2P Require Import Prelude Float CString Outcome Affinity Procs ProcOps Run.

(** ** Text *)

Definition show_Z (n : Z) : string := NilZero.string_of_int (Z.to_int n).

(** [%.2f] of a finite number: hundredths, a half to even *)
Definition hundredths (x : spec_float) : Z :=
  match x with
  | S754_finite _ m e =>
      if 0 <=? e then Z.pos m * 2 ^ e * 100
      else
        let d := 2 ^ (- e) in
        let '(q, r) := Z.div_eucl (Z.pos m * 100) d in
        if (d <? 2 * r) || ((d =? 2 * r) && Z.odd q) then q + 1 else q
  | _ => 0
  end.
Definition two_digits (n : Z) : string := (if n <? 10 then "0" else EmptyString) +:+ show_Z n.
Definition fixed2 (x : spec_float) : string :=
  let sign := match x with S754_zero true | S754_finite true _ _ | S754_infinity true => "-" | _ => EmptyString end in
  match x with
  | S754_nan => "nan"
  | S754_infinity _ => sign +:+ "inf"
  | _ => let h := hundredths x in sign +:+ show_Z (h / 100) +:+ "." +:+ two_digits (h mod 100)
  end.

(** ** Stressors and statuses *)

Definition str_exitstatus (status : Z) : string :=
  if status =? EXIT_SUCCESS then "success"
  else if status =? EXIT_FAILURE then "stress-ng core failure"
  else if status =? EXIT_NOT_SUCCESS then "stressor failed"
  else if status =? EXIT_NO_RESOURCE then "no resource(s)"
  else if status =? EXIT_NOT_IMPLEMENTED then "not implemented"
  else if status =? EXIT_SIGNALED then "killed by signal"
  else "unknown".

(** one line of names, with a space between them *)
Definition show_stressor_names (stressors : list stress) : string :=
  String.concat " " ((fun st => text (munge_underscore (s_name st))) <$> stressors).

(** the pieces of the text, each made in a buffer of 64 bytes (a piece that is cut has the
    text end there); [None]: there is no memory *)
Definition hogs_piece (previous : bool) (d : pdata) : string :=
  (if previous then "," else EmptyString) +:+ " " +:+ show_Z (num_procs d) +:+ " " +:+ text (munge_underscore (s_name (stressor d))).

Fixpoint hogs (memory : nat -> bool) (k : nat) (previous : bool) (ds : list pdata) : option string :=
  match ds with
  | [] => Some EmptyString
  | d :: ds =>
      if c_true (num_procs d) then
        if memory k then
          rest ← hogs memory (S k) true ds;
          let piece := hogs_piece previous d in
          Some (if (String.length piece <? 64)%nat then piece +:+ rest else String.substring 0 63 piece)
        else None
      else hogs memory k previous ds
  end.
Definition show_stressors (memory : nat -> bool) (ds : list pdata) : Z * option string :=
  match hogs memory 0 false ds with
  | Some str => (0, Some ("dispatching hogs:" +:+ str))
  | None => (-1, None)
  end.

(** ** The command line in the log *)

(** [strncat(buf + len, src, n)] *)
Definition cat_at (len : nat) (src : chars) (n : nat) (buf : chars) : option chars :=
  '(_, rest) ← strncat (drop len buf) src n; Some (take len buf ++ rest).

(** the loop that joins the words; [i] is not 0 after the first *)
Fixpoint join_args (first : bool) (argv : list chars) (len : nat) (buf : chars) : option chars :=
  match argv with
  | [] => Some buf
  | arg :: argv =>
      arglen ← strlen arg;
      '(len, buf) ← (if first then Some (len, buf) else buf ← cat_at len [32; 0] 1 buf; Some (S len, buf));
      buf ← cat_at len arg arglen buf;
      join_args false argv (len + arglen) buf
  end.

(** the zeroed buffer, with room for each word and one more *)
Definition log_args (argv : list chars) : option chars :=
  lens ← mapM strlen argv;
  join_args true argv 0 (repeat 0 (foldr (fun n len => S n + len) 0 lens)%nat).

(** ** Metrics *)

(** of an instance: [proc_stats_t] *)
Record proc_stats := ProcStats {
  st_counter : Z; st_utime : Z; st_cutime : Z; st_stime : Z; st_cstime : Z;
  st_start : spec_float; st_finish : spec_float; st_run_ok : bool
}.

Record totals := Totals { c_total : Z; u_total : Z; s_total : Z; r_total : spec_float; t_run_ok : bool }.

Definition add_stats (t : totals) (x : proc_stats) : totals :=
  Totals (u64 (c_total t + st_counter x)) (u64 (u_total t + st_utime x + st_cutime x))
    (u64 (s_total t + st_stime x + st_cstime x))
    (fadd double_ (r_total t) (fsub double_ (st_finish x) (st_start x))) (t_run_ok t || st_run_ok x).

Definition sum_stats (xs : list proc_stats) : totals := foldl add_stats (Totals 0 0 0 fzero false) xs.

(** a line of the metrics *)
Record metrics := Metrics {
  m_name : string; m_ops : Z; m_real : spec_float; m_user : spec_float; m_sys : spec_float;
  m_rate_real : spec_float; m_rate : spec_float
}.

Definition seconds (ticks ticks_per_sec : Z) : spec_float :=
  if 0 <? ticks_per_sec then fdiv double_ (of_int double_ ticks) (of_int double_ ticks_per_sec) else fzero.

(** [None]: the line is left out, as [--metrics-brief] asks for what did nothing *)
Definition metrics_line (brief : bool) (ticks_per_sec : Z) (name : cstr) (xs : list proc_stats) : option metrics :=
  let d := double_ in
  let t := sum_stats xs in
  let us_total := u64 (u_total t + s_total t) in
  let n := Z.of_nat (length xs) in
  let r_total := if c_true n then fdiv d (r_total t) (of_int d n) else fzero in
  if brief && (c_total t =? 0) && negb (t_run_ok t) then None
  else Some (Metrics (text (munge_underscore name)) (c_total t) r_total (seconds (u_total t) ticks_per_sec)
    (seconds (s_total t) ticks_per_sec)
    (if flt fzero r_total then fdiv d (of_int d (c_total t)) r_total else fzero)
    (if 0 <? us_total then fdiv d (of_int d (c_total t)) (fdiv d (of_int d us_total) (of_int d ticks_per_sec)) else fzero)).

(** a stressor with the statistics of its instances *)
Definition metrics_dump (brief : bool) (ticks_per_sec : Z) (ps : list (cstr * list proc_stats)) : list metrics :=
  omap (fun p => metrics_line brief ticks_per_sec p.1 p.2) ps.

(** ** Run times: the shares of the time of all processors *)

Record run_times := RunTimes {
  total_cpu_time : spec_float; u_time : spec_float; s_time : spec_float; t_time : spec_float;
  u_pc : spec_float; s_pc : spec_float; t_pc : spec_float
}.

(** the ticks are converted to [float]; [None]: they are not known *)
Definition times_dump (cpus ticks_per_sec : Z) (duration : spec_float) (tms : option (Z * Z)) : option run_times :=
  '(cutime, cstime) ← tms;
  let d := double_ in
  let f := float_ in
  let total := fmul d (of_int d cpus) duration in
  let per x := fdiv f x (of_int f ticks_per_sec) in
  let u := per (of_int f cutime) in
  let s := per (of_int f cstime) in
  let t := per (fadd f (of_int f cutime) (of_int f cstime)) in
  let pc x := if flt fzero total then fdiv d (fmul d (of_int d 100) x) total else fzero in
  Some (RunTimes total u s t (pc u) (pc s) (pc t)).

(** ** A duration in words (time.c) *)

Definition SECONDS_IN_MINUTE : spec_float := of_int double_ 60.
Definition SECONDS_IN_HOUR : spec_float := fmul double_ (of_int double_ 60) SECONDS_IN_MINUTE.
Definition SECONDS_IN_DAY : spec_float := fmul double_ (of_int double_ 24) SECONDS_IN_HOUR.
Definition SECONDS_IN_YEAR : spec_float := fmul double_ (decimal double_ 3652425 4) SECONDS_IN_DAY.

(** the text so far, what is left of the duration, and the room for the text *)
Definition format_time (last : bool) (secs_in_units : spec_float) (units : string) (x : string * spec_float * Z) :
    string * spec_float * Z :=
  let '(str, dur, len) := x in
  let val := u64 (ftrunc (fdiv double_ dur secs_in_units)) in
  let '(str, len) :=
    if last || (0 <? val) then
      let piece := if last then fixed2 dur +:+ " " +:+ units +:+ "s"
                   else show_Z val +:+ " " +:+ units +:+ (if 1 <? val then "s" else EmptyString) +:+ ", " in
      (str +:+ String.substring 0 (Z.to_nat (len - 1)) piece, u64 (len - Z.of_nat (String.length piece)))
    else (str, len) in
  (str, fsub double_ dur (fmul double_ secs_in_units (of_int double_ val)), len).

Definition duration_to_str (duration : spec_float) : string :=
  if flt (of_int double_ 60) duration then
    let x := (" (", duration, 125) in
    let x := format_time false SECONDS_IN_YEAR "year" x in
    let x := format_time false SECONDS_IN_DAY "day" x in
    let x := format_time false SECONDS_IN_HOUR "hour" x in
    let x := format_time false SECONDS_IN_MINUTE "min" x in
    let x := format_time true (of_int double_ 1) "sec" x in
    x.1.1 +:+ ")"
  else EmptyString.

(** a year and a day, and one and a half hour *)
Example duration_example :
  duration_to_str (of_int double_ (31556952 + 86400 + 5400)) = " (1 year, 1 day, 1 hour, 30 mins, 0.00 secs)".
Proof. vm_compute. reflexivity. Qed.

(** ** The buffer of the log *)

Fixpoint spaced (words : list chars) : chars :=
  match words with
  | [] => []
  | [w] => w
  | w :: words => w ++ 32 :: spaced words
  end.

Abbreviation nonzero := (Forall (fun c : Z => c <> 0)).

Lemma strlen_word (w : chars) : nonzero w -> strlen (w ++ [0]) = Some (length w).
Proof. intros H. rewrite strlen_terminated by (by exists w). rewrite length_app. cbn [length]. f_equal. lia. Qed.

Lemma cat_at_zeros pre (w : chars) r : nonzero w ->
  cat_at (length pre) (w ++ [0]) (length w) (pre ++ repeat 0 (length w + S r)) = Some ((pre ++ w) ++ repeat 0 (S r)).
Proof.
  intros Hw. unfold cat_at. rewrite drop_app_length, take_app_length. unfold strncat.
  assert (strlen (repeat 0 (length w + S r)) = Some 0%nat) as -> by (by rewrite Nat.add_succ_r).
  rewrite strlen_word by done. cbn [mbind option_bind]. rewrite Nat.min_id, take_app_length.
  unfold write_at. rewrite repeat_length, length_app. cbn [length]. rewrite (proj2 (Nat.leb_le _ _)) by lia.
  rewrite take_0. cbn [mbind option_bind app plus]. rewrite <- !app_assoc. do 3 f_equal. cbn [app].
  replace (repeat 0 (S r)) with (0 :: repeat 0 r) by done. f_equal.
  replace (length w + S r)%nat with ((length w + 1) + r)%nat by lia. rewrite repeat_app.
  by rewrite drop_app_length' by (by rewrite repeat_length).
Qed.

(** what the words still need, with the space before each *)
Definition room (words : list chars) : nat := foldr (fun w n => S (length w) + n)%nat 0%nat words.

Lemma join_args_rest words pre r : Forall nonzero words ->
  join_args false ((fun w => w ++ [0]) <$> words) (length pre) (pre ++ repeat 0 (room words + S r)) =
  Some (pre ++ mjoin (cons 32 <$> words) ++ repeat 0 (S r)).
Proof.
  intros Hw. revert pre. induction Hw as [|w words Hw _ IH]; intros pre; [done|].
  cbn [fmap list_fmap join_args room foldr]. rewrite strlen_word by done. cbn [mbind option_bind].
  pose proof (cat_at_zeros pre [32] (length w + room words + r) ltac:(by repeat constructor)) as E. cbn [length app] in E.
  replace (1 + S (length w + room words + r))%nat with (S (length w) + foldr (fun w n => S (length w) + n) 0 words + S r)%nat in E
    by (fold (room words); lia).
  rewrite E. cbn [mbind option_bind].
  replace (S (length pre)) with (length (pre ++ [32])) by (rewrite length_app; cbn [length]; lia).
  replace (S (length w + room words + r)) with (length w + S (room words + r))%nat by lia.
  rewrite cat_at_zeros by done. cbn [mbind option_bind].
  rewrite <- (length_app (pre ++ [32]) w).
  replace (S (room words + r)) with (room words + S r)%nat by lia. fold (fmap (M:=list) (fun w : chars => w ++ [0])).
  rewrite IH. cbn [mjoin list_join]. by rewrite <- !app_assoc.
Qed.

Lemma spaced_join w words : spaced (w :: words) = w ++ mjoin (cons 32 <$> words).
Proof.
  revert w. induction words as [|v words IH]; intros w; [by rewrite app_nil_r|].
  change (spaced (w :: v :: words)) with (w ++ 32 :: spaced (v :: words)). rewrite IH. done.
Qed.

(** For any command line, the words and the spaces between them, with the terminator, fill
    the buffer that was allocated exactly: nothing is written outside it, nothing is cut. *)
Theorem log_args_fits w words :
  nonzero w -> Forall nonzero words ->
  log_args ((fun w => w ++ [0]) <$> w :: words) = Some (spaced (w :: words) ++ [0]).
Proof.
  intros Hw Hws. unfold log_args.
  assert (mapM strlen ((fun w => w ++ [0]) <$> w :: words) = Some (length <$> w :: words)) as ->.
  { apply mapM_Some. apply Forall2_fmap. apply Forall_Forall2_diag. constructor; [by apply strlen_word|].
    eapply Forall_impl; [exact Hws|]. intros x. apply strlen_word. }
  rewrite !fmap_cons. cbn [mbind option_bind join_args foldr]. rewrite strlen_word by done. cbn [mbind option_bind].
  assert (foldr (fun n len => S n + len) 0 (length <$> words) = room words)%nat as ->.
  { clear. induction words as [|v words IH]; [done|]. rewrite fmap_cons. cbn [foldr room]. by rewrite IH. }
  replace (S (length w) + room words)%nat with (length w + S (room words))%nat by lia.
  pose proof (cat_at_zeros [] w (room words) Hw) as E. cbn [app length] in E. rewrite E. cbn [mbind option_bind].
  replace (S (room words)) with (room words + 1)%nat by lia. cbn [plus].
  rewrite (join_args_rest words w 0 Hws), spaced_join.
  by rewrite <- app_assoc.
Qed.

Lemma log_args_fits_witness :
  log_args [[115; 0]; [45; 99; 0]; [52; 0]] = Some [115; 32; 45; 99; 32; 52; 0].
Proof. exact (log_args_fits [115] [[45; 99]; [52]] ltac:(by repeat constructor) ltac:(by repeat constructor)). Defined.

(** ** The operations of all instances *)

Definition ops_of (xs : list proc_stats) : Z := foldr (fun x n => st_counter x + n) 0 xs.

Lemma sum_stats_ops xs t :
  Forall (fun x => 0 <= st_counter x) xs -> 0 <= c_total t -> c_total t + ops_of xs < 2 ^ 64 ->
  c_total (foldl add_stats t xs) = c_total t + ops_of xs /\
  (t_run_ok (foldl add_stats t xs) = false -> t_run_ok t = false /\ Forall (fun x => st_run_ok x = false) xs).
Proof.
  intros Hxs. revert t. induction Hxs as [|x xs Hx Hxs IH]; intros t Ht Hlt; cbn [foldl ops_of foldr] in *; [split; [lia|auto]|].
  assert (0 <= ops_of xs) as H0 by (clear -Hxs; induction Hxs; cbn; [lia|unfold ops_of in *; lia]).
  assert (c_total (add_stats t x) = c_total t + st_counter x) as Hc by (cbn; apply u64_small; unfold fits, ops_of in *; lia).
  destruct (IH (add_stats t x)) as [IH1 IH2]; [lia|rewrite Hc; unfold ops_of in *; lia|]. rewrite IH1, Hc. split; [unfold ops_of; lia|].
  intros Hr. destruct (IH2 Hr) as [Hr1 Hr2]. cbn in Hr1. apply orb_false_iff in Hr1 as [??]. split; [done|]. by constructor.
Qed.

(** The line of a stressor shows the operations of all its instances, and it is only left
    out, by [--metrics-brief], when no instance did any and none succeeded. *)
Theorem metrics_count_all brief ticks_per_sec name xs :
  Forall (fun x => 0 <= st_counter x) xs -> ops_of xs < 2 ^ 64 ->
  match metrics_line brief ticks_per_sec name xs with
  | Some l => m_ops l = ops_of xs
  | None => brief = true /\ ops_of xs = 0 /\ Forall (fun x => st_run_ok x = false) xs
  end.
Proof.
  intros Hxs Hlt. destruct (sum_stats_ops xs (Totals 0 0 0 fzero false) Hxs) as [Hc Hr]; [done|done|]. cbn [c_total] in Hc.
  unfold metrics_line. fold (sum_stats xs) in Hc, Hr. cbv zeta. rewrite Hc, Z.add_0_l.
  destruct brief; cbn [andb]; [|done]. destruct (Z.eqb_spec (ops_of xs) 0) as [H0|]; cbn [andb]; [|done].
  destruct (t_run_ok (sum_stats xs)) eqn:Hok; cbn [negb]; [done|]. split; [done|]. split; [done|]. by apply Hr.
Qed.

Lemma metrics_count_all_witness :
  let x := ProcStats 7 1 0 2 0 fzero (of_int double_ 3) true in
  match metrics_line true 100 (cs "cpu") [x; x] with Some l => m_ops l = 14 | None => False end.
Proof.
  intros x. pose proof (metrics_count_all true 100 (cs "cpu") [x; x] ltac:(by repeat constructor) eq_refl) as H.
  change (ops_of [x; x]) with 14 in H. destruct (metrics_line _ _ _ _); [exact H|]. destruct H as (_ & H & _). discriminate H.
Defined.
