(* ===== verification/Support.v ===== *)
(** * Support of the stressors and of the main program (helper.c)

    What [Helpers] leaves: names of temporary files and directories, sizes as text,
    dropping of capabilities, limits of the memory, load averages, the direction of
    the stack, and the description of the system in the YAML output.  What the
    system answers is an argument.

    - [temp_paths_apart]: the temporary directories of different instances differ, and
      the files of an instance lie in its directory.
    - [capabilities_dropped]: the capabilities given to the kernel have every known
      bit cleared in all three sets and no other bit changed.
    - [size_text_scaled]: a size is shown with the suffix that leaves a number from 1
      to 1024. *)

From Stdlib Require Import DecimalString DecimalNat DecimalZ DecimalFacts.
From S2P Require Import Prelude Limits Mwc Float CString Outcome Help Affinity Procs ProcOps Run Report.

(** ** Temporary files *)

(** the value that [snprintf()] returns and the text in a buffer of [len] bytes *)
Definition snprintf_ret (len : nat) (text : string) : Z * string := (Z.of_nat (String.length text), snprintf len text).

Section Temp.
Variable stress_temp_path : string.

Definition temp_dir_text (name : string) (pid instance : Z) : string :=
  stress_temp_path +:+ "/tmp-" +:+ name +:+ "-" +:+ show_Z pid +:+ "-" +:+ show_Z instance.
Definition temp_filename_text (name : string) (pid instance magic : Z) : string :=
  temp_dir_text name pid instance +:+ "/" +:+ name +:+ "-" +:+ show_Z pid +:+ "-" +:+ show_Z instance +:+ "-" +:+ show_Z magic.

Definition stress_temp_filename (len : nat) (name : string) (pid instance magic : Z) : Z * string :=
  snprintf_ret len (temp_filename_text name pid instance magic).
Definition stress_temp_dir (len : nat) (name : string) (pid instance : Z) : Z * string :=
  snprintf_ret len (temp_dir_text name pid instance).

(** what they take of [args_t] *)
Record temp_args := TempArgs { ta_name : string; ta_pid : Z; ta_instance : Z }.

Definition stress_temp_filename_args (a : temp_args) (len : nat) (magic : Z) : Z * string :=
  stress_temp_filename len (ta_name a) (ta_pid a) (ta_instance a) magic.
Definition stress_temp_dir_args (a : temp_args) (len : nat) : Z * string :=
  stress_temp_dir len (ta_name a) (ta_pid a) (ta_instance a).

Definition PATH_MAX : nat := Z.to_nat 4096.

(** [mkdir] and [rmdir] answer with an [errno] when they fail, which is reported *)
Definition stress_temp_dir_mk (mkdir : string -> option Z) (name : string) (pid instance : Z) : Z * list string :=
  let tmp := (stress_temp_dir PATH_MAX name pid instance).2 in
  match mkdir tmp with None => (0, []) | Some errno => (- errno, [name +:+ ": mkdir " +:+ tmp]) end.
Definition stress_temp_dir_rm (rmdir : string -> option Z) (name : string) (pid instance : Z) : Z * list string :=
  let tmp := (stress_temp_dir (S PATH_MAX) name pid instance).2 in
  match rmdir tmp with None => (0, []) | Some errno => (- errno, [name +:+ ": rmdir " +:+ tmp]) end.

Definition stress_temp_dir_mk_args (mkdir : string -> option Z) (a : temp_args) : Z * list string :=
  stress_temp_dir_mk mkdir (ta_name a) (ta_pid a) (ta_instance a).
Definition stress_temp_dir_rm_args (rmdir : string -> option Z) (a : temp_args) : Z * list string :=
  stress_temp_dir_rm rmdir (ta_name a) (ta_pid a) (ta_instance a).
End Temp.

(** the inodes that [statvfs()] says are free *)
Definition stress_get_filesystem_available_inodes (path : option string) (statvfs : string -> option Z) : Z :=
  match path with None => 0 | Some path => default 0 (statvfs path) end.

(** the message shown *)
Definition stress_cwd_readwriteable (getcwd : option string) (access : string -> bool) : string :=
  match getcwd with
  | None => "cwd: Cannot determine current working directory"
  | Some path =>
      if access path then EmptyString
      else "Working directory " +:+ path +:+ " is not read/writeable, some I/O tests may fail"
  end.

(** ** Numbers about the system *)

(** the answer is kept once it is positive; [_SC_CLK_TCK] is there *)
Definition stress_get_ticks_per_second (answer ticks_per_second : Z) : Z * Z :=
  if 0 <? ticks_per_second then (s32 ticks_per_second, ticks_per_second) else (s32 (u32 answer), u32 answer).

(** [freeram], [totalram] and [mem_unit] of [sysinfo()], the number in /proc/sys/kernel/shmall *)
Definition stress_get_memlimits (sysinfo : option (Z * Z * Z)) (shmall : option Z) : Z * Z * Z :=
  let '(freemem, totalmem) :=
    match sysinfo with Some (fr, tot, unit_) => (u64 (fr * unit_), u64 (tot * unit_)) | None => (0, 0) end in
  (default 0 shmall, freemem, totalmem).

Definition stress_get_load_avg (getloadavg : option (spec_float * spec_float * spec_float)) :
    Z * (spec_float * spec_float * spec_float) :=
  match getloadavg with Some l => (0, l) | None => (-1, (fzero, fzero, fzero)) end.

Definition O_NONBLOCK : Z := 2048.

(** [fcntl(F_GETFL)], and the flags that are then set *)
Definition stress_set_nonblock (getfl : option Z) (setfl : Z -> Z) : Z :=
  let flags := default 0 getfl in setfl (O_NONBLOCK .| flags).

(** the text written to /proc/self/coredump_filter, if it can be opened; the limit of core files is set to nothing before *)
Definition stress_process_dumpable (open_ok write_ok dumpable : bool) : Z * option string :=
  if open_ok then (if write_ok then 0 else -1, Some (if dumpable then "0x33" else "0x00")) else (0, None).

(** the name that is set *)
Definition set_proc_name (keep_name : bool) (name : string) : option string := if keep_name then None else Some name.

(** the addresses of a variable of the caller and of one of the function called *)
Definition stress_get_stack_direction_ (val1 val2 : Z) : Z := let diff := val2 - val1 in b2z (0 <? diff) - b2z (diff <? 0).
Definition stress_get_stack_direction (val1 val2 : Z) : Z := stress_get_stack_direction_ val1 val2.

Definition uint64_zero : Z := 0.

Definition NSIG : Z := 65.

Definition stress_strsignal (strsignal : Z -> option string) (signum : Z) : string :=
  let str := if (0 <=? signum) && (signum <? NSIG) then strsignal signum else None in
  snprintf 128
    (match str with
     | Some str => "signal " +:+ show_Z signum +:+ " (" +:+ str +:+ ")"
     | None => "signal " +:+ show_Z signum
     end).

(** [machine], [sysname] and [release] of [uname()] *)
Definition stress_not_implemented (name : string) (uname : option (string * string * string)) : Z * string :=
  (EXIT_NOT_IMPLEMENTED,
   name +:+ ": this stressor is not implemented on this system" +:+
   match uname with Some (m, s, r) => ": " +:+ m +:+ " " +:+ s +:+ " " +:+ r | None => EmptyString end).

(** ** Sizes as text *)

Definition size_info : list (Z * string) :=
  [(1 <<< 60, "E"); (1 <<< 50, "P"); (1 <<< 40, "T"); (1 <<< 30, "G"); (1 <<< 20, "M"); (1 <<< 10, "K")].

(** the scale and the suffix *)
Fixpoint size_scale (infos : list (Z * string)) (val : Z) : Z * string :=
  match infos with
  | [] => (1, EmptyString)
  | (size, suffix) :: infos =>
      let scaled := val / size in
      if (1 <=? scaled) && (scaled <? 1024) then (size, suffix) else size_scale infos val
  end.

(** the number, which is printed with one digit after the point, and the suffix *)
Definition stress_uint64_to_str (val : Z) : spec_float * string :=
  let '(scale, suffix) := size_scale size_info val in
  (fdiv double_ (of_int double_ val) (of_int double_ scale), suffix).

(** ** Capabilities *)

Record cap_data := CapData { inheritable : Z; permitted : Z; effective : Z }.

Definition CAP_TO_INDEX (x : Z) : Z := x >>> 5.
Definition CAP_TO_MASK (x : Z) : Z := u32 (1 <<< (x .& 31)).

Definition clear_cap (mask : Z) (c : cap_data) : cap_data :=
  CapData (inheritable c .& not32 mask) (permitted c .& not32 mask) (effective c .& not32 mask).

(** capabilities [i], [i + 1], ..., [n] of them; no result when the array is left *)
Fixpoint clear_caps (n : nat) (i : Z) (ucd : list cap_data) : option (list cap_data) :=
  match n with
  | O => Some ucd
  | S n =>
      let idx := Z.to_nat (CAP_TO_INDEX i) in
      if (idx <? length ucd)%nat then clear_caps n (i + 1) (alter (clear_cap (CAP_TO_MASK i)) idx ucd) else None
  end.

(** [cap_last] is [CAP_LAST_CAP]; the capabilities set, and what is returned *)
Definition stress_drop_capabilities (cap_last : Z) (capget : option (list cap_data)) (capset : list cap_data -> bool)
    (no_new_privs : bool) : option (option (list cap_data) * Z) :=
  match capget with
  | None => Some (None, -1)
  | Some ucd =>
      ucd ← clear_caps (Z.to_nat (cap_last + 1)) 0 ucd;
      Some (Some ucd, if capset ucd && no_new_privs then 0 else -1)
  end.

(** ** The system in the YAML output *)

Record runinfo := RunInfo {
  ri_version : string;
  ri_user : option string;
  ri_time : option (Z * Z * Z * Z * Z * Z * Z);   (** of [localtime()], and the seconds *)
  ri_hostname : option string;
  ri_uname : option (string * string * string * string * string);
  ri_sysinfo : option (Z * Z * Z * Z * Z * Z * Z);
  ri_pagesize : Z; ri_cpus : Z; ri_online : Z; ri_ticks : Z
}.

(** [%n.nd] of a number that is not negative *)
Fixpoint zeros (n : nat) : string := match n with O => EmptyString | S n => "0" +:+ zeros n end.
Definition padded (n : nat) (x : Z) : string := let s := show_Z x in zeros (n - String.length s) +:+ s.

Definition yaml_item (key value : string) : string := "      " +:+ key +:+ ": " +:+ value.

Definition pr_yaml_runinfo (r : runinfo) : list string :=
  ["system-info:"; yaml_item "stress-ng-version" (ri_version r); yaml_item "run-by" (default "unknown" (ri_user r))]
  ++ match ri_time r with
     | None => []
     | Some (year, mon, mday, hour, min, sec, t) =>
         [yaml_item "date-yyyy-mm-dd" (padded 4 (year + 1900) +:+ ":" +:+ padded 2 (mon + 1) +:+ ":" +:+ padded 2 mday);
          yaml_item "time-hh-mm-ss" (padded 2 hour +:+ ":" +:+ padded 2 min +:+ ":" +:+ padded 2 sec);
          yaml_item "epoch-secs" (show_Z t)]
     end
  ++ match ri_hostname r with None => [] | Some h => [yaml_item "hostname" h] end
  ++ match ri_uname r with
     | None => []
     | Some (sysname, nodename, release, version, machine) =>
         [yaml_item "sysname" sysname; yaml_item "nodename" nodename; yaml_item "release" release;
          yaml_item "version" version; yaml_item "machine" machine]
     end
  ++ match ri_sysinfo r with
     | None => []
     | Some (uptime, totalram, freeram, sharedram, bufferram, totalswap, freeswap) =>
         [yaml_item "uptime" (show_Z uptime); yaml_item "totalram" (show_Z totalram); yaml_item "freeram" (show_Z freeram);
          yaml_item "sharedram" (show_Z sharedram); yaml_item "bufferram" (show_Z bufferram);
          yaml_item "totalswap" (show_Z totalswap); yaml_item "freeswap" (show_Z freeswap)]
     end
  ++ [yaml_item "pagesize" (show_Z (ri_pagesize r)); yaml_item "cpus" (show_Z (ri_cpus r));
      yaml_item "cpus-online" (show_Z (ri_online r)); yaml_item "ticks-per-second" (show_Z (ri_ticks r)); EmptyString].

(** ** Names that differ *)

(** a string of decimal digits *)
Fixpoint all_digits (s : string) : bool := match s with EmptyString => true | String c s => isdigit c && all_digits s end.

Lemma uint_digits d : all_digits (NilEmpty.string_of_uint d) = true.
Proof. induction d; [done|exact IHd..]. Qed.

Lemma show_Z_nonneg n : 0 <= n -> exists d, Z.to_int n = Decimal.Pos d.
Proof. intros Hn. destruct n; [by eexists..|lia]. Qed.

Lemma show_Z_digits n : 0 <= n -> all_digits (show_Z n) = true.
Proof.
  intros (d & Hd)%show_Z_nonneg. unfold show_Z. rewrite Hd. cbn. unfold NilZero.string_of_uint.
  destruct d; [done|exact (uint_digits d)..].
Qed.

Lemma show_Z_inj n m : show_Z n = show_Z m -> n = m.
Proof.
  unfold show_Z. intros H. apply (f_equal NilZero.int_of_string) in H.
  assert (forall k, Z.to_int k <> Decimal.Pos Decimal.Nil /\ Z.to_int k <> Decimal.Neg Decimal.Nil) as Hk.
  { intros [|p|p]; cbn; split; try done; intros [= Hp]; pose proof (DecimalPos.Unsigned.to_uint_nonnil p); done. }
  destruct (Hk n), (Hk m). rewrite !NilZero.isi in H by done. injection H as H.
  by rewrite <- (DecimalZ.of_to n), H, DecimalZ.of_to.
Qed.

Lemma string_app_assoc (s t u : string) : (s +:+ t) +:+ u = s +:+ (t +:+ u).
Proof. induction s as [|c s IH]; [done|]. exact (f_equal (String c) IH). Qed.

Lemma string_app_cancel (s t u : string) : s +:+ t = s +:+ u -> t = u.
Proof. induction s as [|c s IH]; [done|]. intros [= H]. by apply IH. Qed.

(** a dash ends the digits *)
Lemma digits_split s1 s2 t1 t2 :
  all_digits s1 = true -> all_digits s2 = true -> s1 +:+ "-" +:+ t1 = s2 +:+ "-" +:+ t2 -> s1 = s2 /\ t1 = t2.
Proof.
  revert s2. induction s1 as [|c1 s1 IH]; intros [|c2 s2] H1 H2 E; cbn in *.
  - injection E as E. by split; [|exact E].
  - injection E as <- _. by apply andb_prop in H2 as [H2 _].
  - injection E as -> _. by apply andb_prop in H1 as [H1 _].
  - injection E as -> E. apply andb_prop in H1 as [_ H1], H2 as [_ H2]. by destruct (IH s2 H1 H2 E) as [-> ->].
Qed.

Lemma string_prefix_app (s t : string) : String.prefix s (s +:+ t) = true.
Proof. induction s as [|c s IH]; [by destruct t|]. change (String c s +:+ t) with (String c (s +:+ t)). cbn [String.prefix]. destruct (Ascii.ascii_dec c c); [exact IH|done]. Qed.

(** Instances of a stressor with different process ids or instance numbers have different
    temporary directories, different files of one instance have different names, and they lie in
    its directory. *)
Theorem temp_paths_apart path name pid1 inst1 pid2 inst2 magic1 magic2 :
  0 <= pid1 -> 0 <= pid2 -> 0 <= inst1 -> 0 <= inst2 ->
  (temp_dir_text path name pid1 inst1 = temp_dir_text path name pid2 inst2 -> pid1 = pid2 /\ inst1 = inst2) /\
  (temp_filename_text path name pid1 inst1 magic1 = temp_filename_text path name pid1 inst1 magic2 -> magic1 = magic2) /\
  String.prefix (temp_dir_text path name pid1 inst1 +:+ "/") (temp_filename_text path name pid1 inst1 magic1) = true.
Proof.
  intros Hp1 Hp2 Hi1 Hi2. split; [|split].
  - unfold temp_dir_text. intros E%string_app_cancel. do 5 apply (string_app_cancel (String _ EmptyString)) in E.
    apply string_app_cancel in E. apply (string_app_cancel "-") in E.
    apply digits_split in E as [E1%show_Z_inj E2%show_Z_inj]; [done|by apply show_Z_digits..].
  - unfold temp_filename_text. intros E%string_app_cancel. apply (string_app_cancel "/") in E.
    apply string_app_cancel, (string_app_cancel "-"), string_app_cancel, (string_app_cancel "-"), string_app_cancel,
      (string_app_cancel "-") in E. by apply show_Z_inj.
  - unfold temp_filename_text. rewrite <- string_app_assoc. apply string_prefix_app.
Qed.

Lemma temp_paths_apart_witness :
  temp_dir_text "." "stress-ng-hdd" 4711 0 = "./tmp-stress-ng-hdd-4711-0" /\
  temp_dir_text "." "stress-ng-hdd" 4711 0 <> temp_dir_text "." "stress-ng-hdd" 471 10.
Proof.
  split; [vm_compute; reflexivity|]. intros E.
  destruct (temp_paths_apart "." "stress-ng-hdd" 4711 0 471 10 0 0) as [H _]; [lia..|].
  destruct (H E) as [Hp _]. discriminate Hp.
Defined.

(** ** Sizes *)

Lemma scaled_iff size val : 0 < size -> 1 <= val / size < 1024 <-> size <= val < 1024 * size.
Proof. intros Hs. Z.to_euclidean_division_equations. nia. Qed.

Lemma scaled_test size val : 0 < size -> (1 <=? val / size) && (val / size <? 1024) = (size <=? val) && (val <? 1024 * size).
Proof.
  intros Hs. pose proof (scaled_iff size val Hs). apply eq_true_iff_eq.
  rewrite !andb_true_iff, !Z.leb_le, !Z.ltb_lt. lia.
Qed.

(** A size of 64 bits below 1024 is shown as it is; any other is divided by the power of 1024
    that leaves a quotient from 1 to 1023. *)
Theorem size_text_scaled val : fits 64 val ->
  let '(scale, suffix) := size_scale size_info val in
  (val < 1024 /\ scale = 1 /\ suffix = EmptyString) \/
  (1024 <= val /\ 1 <= val / scale < 1024 /\ exists k, (1 <= k <= 6)%nat /\ scale = 1024 ^ Z.of_nat k).
Proof.
  intros [H0 H]. unfold size_info. cbn [size_scale]. rewrite !scaled_test by done.
  repeat match goal with |- context [1 <<< ?k] => let v := eval vm_compute in (1 <<< k) in change (1 <<< k) with v end.
  change (2 ^ 64) with 18446744073709551616 in H.
  repeat match goal with |- context [(?size <=? val) && _] => destruct (Z.leb_spec size val), (Z.ltb_spec val (1024 * size)); cbn [andb]; try lia end.
  all: try (left; split; [lia|done]).
  all: right; split; [lia|split; [apply scaled_iff; lia|]].
  - exists 6%nat. split; [lia|done].
  - exists 5%nat. split; [lia|done].
  - exists 4%nat. split; [lia|done].
  - exists 3%nat. split; [lia|done].
  - exists 2%nat. split; [lia|done].
  - exists 1%nat. split; [lia|done].
Qed.

Lemma size_text_scaled_witness : size_scale size_info 1536 = (1024, "K") /\ 1 <= 1536 / 1024 < 1024.
Proof.
  split; [reflexivity|]. pose proof (size_text_scaled 1536 ltac:(split; lia)) as H.
  change (size_scale size_info 1536) with (1024, "K") in H. cbv beta iota in H. destruct H as [[H _]|(_ & H & _)]; [lia|exact H].
Defined.

(** ** Capabilities *)

(** the bit of capability [c] *)
Definition has_cap (field : cap_data -> Z) (ucd : list cap_data) (c : Z) : bool :=
  match ucd !! Z.to_nat (CAP_TO_INDEX c) with Some d => Z.testbit (field d) (c .& 31) | None => false end.

Lemma cap_mask_bit i c : 0 <= c < 32 -> Z.testbit (CAP_TO_MASK i) c = (c =? i .& 31).
Proof.
  intros Hc. unfold CAP_TO_MASK, u32. pose proof (land_ones_fits 5 i ltac:(lia)) as [Hi Hi']. change (Z.ones 5) with 31 in *.
  rewrite Z.mod_pow2_bits_low by lia. rewrite Z.shiftl_1_l. rewrite Z.pow2_bits_eqb by lia. apply Z.eqb_sym.
Qed.

Lemma not32_bit x c : 0 <= c < 32 -> Z.testbit (not32 x) c = negb (Z.testbit x c).
Proof. intros Hc. unfold not32, u32. rewrite Z.mod_pow2_bits_low, Z.lnot_spec by lia. done. Qed.

(** capabilities are told apart by index and bit *)
Lemma cap_place c i : 0 <= c -> 0 <= i -> Z.to_nat (CAP_TO_INDEX c) = Z.to_nat (CAP_TO_INDEX i) -> c .& 31 = i .& 31 -> c = i.
Proof.
  unfold CAP_TO_INDEX. intros Hc Hi Hd Hm. rewrite !Z.shiftr_div_pow2 in Hd by lia. change 31 with (Z.ones 5) in Hm. rewrite !Z.land_ones in Hm by lia.
  rewrite (Z.div_mod c (2 ^ 5)), (Z.div_mod i (2 ^ 5)), Hm by lia. f_equal. f_equal.
  apply Z2Nat.inj; [by apply Z.div_pos..|done].
Qed.

Section Clear.
Variable field : cap_data -> Z.
Hypothesis field_clear : forall mask d, field (clear_cap mask d) = field d .& not32 mask.

Lemma clear_one i ucd c : 0 <= c -> 0 <= i ->
  has_cap field (alter (clear_cap (CAP_TO_MASK i)) (Z.to_nat (CAP_TO_INDEX i)) ucd) c = has_cap field ucd c && negb (c =? i).
Proof using field_clear.
  intros Hc Hi. unfold has_cap. destruct (decide (Z.to_nat (CAP_TO_INDEX c) = Z.to_nat (CAP_TO_INDEX i))) as [E|Hne].
  - rewrite E, list_lookup_alter_eq. destruct (ucd !! _) as [d|]; [|done]. cbn [fmap option_fmap option_map].
    pose proof (land_ones_fits 5 c ltac:(lia)) as Hb. change (Z.ones 5) with 31 in Hb. unfold fits in Hb.
    rewrite field_clear, Z.land_spec, not32_bit, cap_mask_bit by lia. f_equal. f_equal.
    apply eq_true_iff_eq. rewrite !Z.eqb_eq. split; [by apply cap_place|by intros ->].
  - rewrite list_lookup_alter_ne by done. destruct (Z.eqb_spec c i) as [->|]; [done|]. by rewrite andb_true_r.
Qed.

Lemma clear_caps_bits n i ucd ucd' c : 0 <= c -> 0 <= i -> clear_caps n i ucd = Some ucd' ->
  has_cap field ucd' c = has_cap field ucd c && negb ((i <=? c) && (c <? i + Z.of_nat n)).
Proof using field_clear.
  revert i ucd. induction n as [|n IH]; intros i ucd Hc Hi E; cbn [clear_caps] in E.
  - injection E as <-. destruct (Z.leb_spec i c), (Z.ltb_spec c (i + Z.of_nat 0)); try lia; by rewrite andb_true_r.
  - destruct (_ <? _)%nat; [|done]. apply IH in E; [|done|lia]. rewrite E, clear_one by done. rewrite <- andb_assoc. f_equal.
    destruct (Z.eqb_spec c i), (Z.leb_spec (i + 1) c), (Z.leb_spec i c), (Z.ltb_spec c (i + 1 + Z.of_nat n)), (Z.ltb_spec c (i + Z.of_nat (S n)));
      first [done|lia].
Qed.
End Clear.

Lemma clear_caps_some n i ucd : 0 <= i -> i + Z.of_nat n <= 32 * Z.of_nat (length ucd) -> exists ucd', clear_caps n i ucd = Some ucd'.
Proof.
  revert i ucd. induction n as [|n IH]; intros i ucd Hi Hn; cbn [clear_caps]; [by eexists|].
  assert (0 <= CAP_TO_INDEX i < Z.of_nat (length ucd)) as Hx.
  { unfold CAP_TO_INDEX. rewrite Z.shiftr_div_pow2 by lia. split; [by apply Z.div_pos|]. apply Z.div_lt_upper_bound; lia. }
  destruct (Nat.ltb_spec (Z.to_nat (CAP_TO_INDEX i)) (length ucd)); [|lia]. apply IH; [lia|]. rewrite length_alter. lia.
Qed.

(** When the capabilities can be read, those given to the kernel have no bit of a known
    capability in any of the three sets, and every other bit as it was; the function succeeds
    when the kernel takes them and forbids new ones.  The array is never left. *)
Theorem capabilities_dropped cap_last ucd capset no_new_privs :
  length ucd = 2%nat -> 0 <= cap_last < 64 ->
  exists ucd', stress_drop_capabilities cap_last (Some ucd) capset no_new_privs =
      Some (Some ucd', if capset ucd' && no_new_privs then 0 else -1) /\
    forall field c, field ∈ [inheritable; permitted; effective] -> 0 <= c ->
      has_cap field ucd' c = has_cap field ucd c && (cap_last <? c).
Proof.
  intros Hl Hc. unfold stress_drop_capabilities.
  destruct (clear_caps_some (Z.to_nat (cap_last + 1)) 0 ucd) as (ucd' & E); [lia|rewrite Hl; lia|]. rewrite E.
  exists ucd'. split; [done|]. intros field c Hf H0.
  assert (forall mask d, field (clear_cap mask d) = field d .& not32 mask) as Hcl.
  { intros mask d. by repeat (apply elem_of_cons in Hf as [-> | Hf]; [done|]); apply elem_of_nil in Hf. }
  rewrite (clear_caps_bits field Hcl _ _ _ _ _ H0 (Z.le_refl 0) E). f_equal.
  destruct (Z.leb_spec 0 c), (Z.ltb_spec c (0 + Z.of_nat (Z.to_nat (cap_last + 1)))), (Z.ltb_spec cap_last c); first [done|lia].
Qed.

Lemma capabilities_dropped_witness :
  let ucd := [CapData 0 (2 ^ 32 - 1) (2 ^ 32 - 1); CapData 0 (2 ^ 32 - 1) 7] in
  length ucd = 2%nat /\ exists ucd', stress_drop_capabilities 37 (Some ucd) (fun _ => true) true = Some (Some ucd', 0) /\
    forall field c, field ∈ [inheritable; permitted; effective] -> 0 <= c -> has_cap field ucd' c = has_cap field ucd c && (37 <? c).
Proof.
  cbv zeta. split; [reflexivity|].
  exact (capabilities_dropped 37 [CapData 0 (2 ^ 32 - 1) (2 ^ 32 - 1); CapData 0 (2 ^ 32 - 1) 7] (fun _ => true) true eq_refl ltac:(lia)).
Defined.

(** The direction of the stack that is returned is the opposite of the one documented: with a stack
    that grows down, the variable of the function called is below that of the caller. *)
Lemma stack_direction_down val1 val2 : val2 < val1 -> stress_get_stack_direction val1 val2 = -1.
Proof. intros H. unfold stress_get_stack_direction, stress_get_stack_direction_. destruct (Z.ltb_spec 0 (val2 - val1)), (Z.ltb_spec (val2 - val1) 0); cbn; lia. Qed.
