(* ===== verification/Signals.v ===== *)
(** * Signals (stress-ng.c, helper.c)

    Installing and restoring handlers, what the handlers do, the set-up of a process
    for its signals, and the limits of a process (limit.c).  A process is its table
    of handlers, the flags that the handlers change, the signals it sends, and whether a signal has
    ended or stopped it; whether [sigaction()] and [sigaltstack()] succeed is an argument.
    A signal without a handler has the default action of the system: most end the process.

    - [handler_restored]: restoring a handler undoes installing one.
    - [signals_end_child]: which signals end an instance, which stop its work, and the
      status that its parent collects.
    - [stats_text_unbounded]: the text that SIGUSR2 prints is not kept within its buffer,
      and is lost when the load average is not known. *)

From S2P Require Import Prelude Limits Float CString Outcome Help Affinity Helpers Procs ProcOps Run Report Support.

Definition SIGHUP : Z := 1.
Definition SIGINT : Z := 2.
Definition SIGUSR2 : Z := 12.

(** those of [signals] that Linux has: HUP, INT, QUIT, ABRT, FPE, TERM, XCPU, XFSZ, IOT, STKFLT, PWR, VTALRM *)
Definition signals : list Z := [1; 2; 3; 6; 8; 15; 24; 25; 6; 16; 30; 26].

(** the handlers of the program; one of a stressor has a number *)
Inductive handler :=
  | Default
  | HandleSigint                (** [handle_sigint()] *)
  | SigintHandler               (** [stress_sigint_handler()] *)
  | SigalrmParentHandler        (** [stress_sigalrm_parent_handler()] *)
  | StatsHandler                (** [stress_stats_handler()] *)
  | HandleStopStressing         (** [stress_handle_stop_stressing()] *)
  | OwnHandler (n : nat).

#[global] Instance handler_eq_dec : EqDecision handler.
Proof. solve_decision. Defined.

(** what the system does with a signal that has no handler, signal(7) *)
Inductive default_action : Type := Terminate | Ignore | Stop | Continue.

(** CHLD, URG and WINCH are ignored, STOP, TSTP, TTIN and TTOU stop the process, CONT continues it; KILL, USR1, SEGV, USR2, PIPE and
    all others end it *)
Definition default_of (signum : Z) : default_action :=
  if bool_decide (signum ∈ [17; 23; 28]) then Ignore
  else if bool_decide (signum ∈ [19; 20; 21; 22]) then Stop
  else if signum =? 18 then Continue else Terminate.

(** a process runs, is stopped while signals wait for it, or was ended by a signal *)
Inductive activity : Type := Running | Stopped (pending : list Z) | KilledBy (signum : Z).

#[global] Instance activity_eq_dec : EqDecision activity.
Proof. solve_decision. Defined.

(** the variables that the handlers set *)
Record gflags := GFlags { g_caught_sigint : bool; g_keep_stressing_flag : bool; wait_flag : bool; g_signum : Z }.

(** a process: its handlers, the static [set_altstack], the flags, the signals it has sent, the failures reported,
    and what the signals left of it *)
Record process := Process {
  handlers : Z -> handler; set_altstack : bool; flags : gflags; sent_sigs : list signal; sig_fails : list string;
  act : activity
}.

Definition with_handlers (h : Z -> handler) (p : process) : process := Process h (set_altstack p) (flags p) (sent_sigs p) (sig_fails p) (act p).
Definition with_flags (f : gflags) (p : process) : process := Process (handlers p) (set_altstack p) f (sent_sigs p) (sig_fails p) (act p).
Definition sig_fail (text : string) (p : process) : process :=
  Process (handlers p) (set_altstack p) (flags p) (sent_sigs p) (sig_fails p ++ [text]) (act p).
Definition send (s : list signal) (p : process) : process :=
  Process (handlers p) (set_altstack p) (flags p) (sent_sigs p ++ s) (sig_fails p) (act p).

Definition with_act (a : activity) (p : process) : process :=
  Process (handlers p) (set_altstack p) (flags p) (sent_sigs p) (sig_fails p) a.

(** ** Handlers installed and restored *)

Section Install.
Variable sigaltstack_ok : bool.
Variable sigaction_ok : Z -> bool.
Variable strsignal : Z -> option string.

Definition STACK_ALIGNMENT : Z := 64.
Definition SIGSTKSZ : Z := 8192.

(** the stack given to [sigaltstack()], where it is aligned, if the size is enough *)
Definition stress_sigaltstack (stack size : Z) (p : process) : Z * option Z * process :=
  if size <? KB * 4 then (-1, None, p)
  else
    let sp := align_address stack STACK_ALIGNMENT in
    if sigaltstack_ok then (0, Some sp, p) else (-1, Some sp, sig_fail "sigaltstack failed" p).

(** what is returned, the handler there was before, the process *)
Definition stress_sighandler (name : string) (signum : Z) (h : handler) (p : process) : Z * handler * process :=
  let '(ret, p) :=
    if set_altstack p then (0, p)
    else
      let '(ret, _, p) := stress_sigaltstack 0 SIGSTKSZ p in
      (ret, Process (handlers p) (negb (ret <? 0)) (flags p) (sent_sigs p) (sig_fails p) (act p)) in
  if ret <? 0 then (-1, Default, p)
  else if sigaction_ok signum
  then (0, handlers p signum, with_handlers (fun s => if s =? signum then h else handlers p s) p)
  else (-1, Default, sig_fail (name +:+ ": sigaction " +:+ stress_strsignal strsignal signum) p).

Definition stress_sigrestore (name : string) (signum : Z) (orig_action : handler) (p : process) : Z * process :=
  if sigaction_ok signum then (0, with_handlers (fun s => if s =? signum then orig_action else handlers p s) p)
  else (-1, sig_fail (name +:+ ": sigaction " +:+ stress_strsignal strsignal signum +:+ " restore") p).

Definition stress_sig_stop_stressing (name : string) (sig : Z) (p : process) : Z * process :=
  let '(ret, _, p) := stress_sighandler name sig HandleStopStressing p in (ret, p).

(** handlers one after the other, up to the first that cannot be installed *)
Fixpoint install_all (name : string) (l : list (Z * handler)) (p : process) : Z * process :=
  match l with
  | [] => (0, p)
  | (signum, h) :: l =>
      let '(ret, _, p) := stress_sighandler name signum h p in
      if ret <? 0 then (-1, p) else install_all name l p
  end.

Definition stress_set_handler (stress : string) (child : bool) (p : process) : Z * process :=
  install_all stress
    ([(SIGINT, SigintHandler); (SIGHUP, SigintHandler)]
     ++ (if child then [] else [(SIGUSR2, StatsHandler)])
     ++ [(SIGALRM, if child then HandleStopStressing else SigalrmParentHandler)]) p.

(** the loop of [main()] over [signals] *)
Definition main_handlers (p : process) : Z * process := install_all "stress-ng" ((fun s => (s, HandleSigint)) <$> signals) p.
End Install.

(** ** What the handlers do *)

Section Handling.
Variable own : nat -> gflags -> gflags.   (** what the handlers of a stressor do *)
Variable getpid : Z.
Variables (ds : list pdata) (count : Z).  (** the processes that [kill_procs()] finds, and its counter *)

(** a signal that reaches a running process *)
Definition deliver (signum : Z) (p : process) : process :=
  let f := flags p in
  match handlers p signum with
  | Default =>
      match default_of signum with
      | Terminate => with_act (KilledBy signum) p
      | Stop => with_act (Stopped []) p
      | Ignore | Continue => p
      end
  | HandleSigint =>
      send (kill_procs SIGALRM ds count).2 (with_flags (GFlags (g_caught_sigint f) false (wait_flag f) signum) p)
  | SigintHandler => send [To (- getpid) SIGALRM] (with_flags (GFlags true false false (g_signum f)) p)
  | SigalrmParentHandler => with_flags (GFlags (g_caught_sigint f) (g_keep_stressing_flag f) false (g_signum f)) p
  | StatsHandler => p
  | HandleStopStressing => with_flags (GFlags (g_caught_sigint f) false (wait_flag f) (g_signum f)) p
  | OwnHandler n => with_flags (own n f) p
  end.

(** a signal sent to a process: one that was ended gets none; for one that is stopped it waits until SIGCONT comes,
    but SIGKILL ends it at once *)
Definition handle (signum : Z) (p : process) : process :=
  match act p with
  | KilledBy _ => p
  | Running => deliver signum p
  | Stopped pending =>
      if signum =? SIGKILL then with_act (KilledBy SIGKILL) p
      else if signum =? 18
      then foldl (fun p s => match act p with Running => deliver s p | _ => p end) (with_act Running p) (pending ++ [signum])
      else with_act (Stopped (pending ++ [signum])) p
  end.
End Handling.

(** the text that [stress_stats_handler()] writes from [ptr] on, and that of the line shown: [buffer - ptr] is
    not positive, as the size of the rest it is 0 or above 2 ^ 63 *)
Definition stats_written (load : Z * (spec_float * spec_float * spec_float)) (mem : Z * Z * Z) : nat * string :=
  let '(rc, (min1, min5, min15)) := load in
  let '(shmall, freemem, totalmem) := mem in
  let first := if rc =? 0
    then "Load Avg: " +:+ fixed2 min1 +:+ " " +:+ fixed2 min5 +:+ " " +:+ fixed2 min15 +:+ ", " else EmptyString in
  let ptr := String.length first in
  let size := u64 (- Z.of_nat ptr) in
  let second := "MemFree: " +:+ show_Z (freemem / MB) +:+ " MB, MemTotal: " +:+ show_Z (totalmem / MB) +:+ " MB" in
  let put := if size =? 0 then EmptyString else second in
  ((ptr + String.length put + if (size =? 0)%Z then 0 else 1)%nat, snprintf 80 first +:+ put).

Definition stress_stats_handler (load : option (spec_float * spec_float * spec_float)) (sysinfo : option (Z * Z * Z))
    (shmall : option Z) : nat * string :=
  stats_written (stress_get_load_avg load) (stress_get_memlimits sysinfo shmall).

(** ** Limits of a process (limit.c) *)

(** the resources of [limits], by number: AS, CPU, DATA, FSIZE, LOCKS, MEMLOCK, MSGQUEUE, NICE, NOFILE, NPROC, RSS, RTPRIO, RTTIME, SIGPENDING, STACK *)
Definition limits : list Z := [9; 0; 2; 1; 10; 8; 12; 13; 7; 6; 5; 14; 15; 11; 3].

(** [getrlimit()] gives the current limit and the greatest; the requests made of [setrlimit()] *)
Definition set_max_limits (getrlimit : Z -> option (Z * Z)) : list (Z * (Z * Z)) :=
  omap (M := list) (fun r => match getrlimit r with Some (_, max) => Some (r, (max, max)) | None => None end) limits.

(** ** Theorems *)

Section Theorems.
Variables (alt_ok : bool) (strsignal : Z -> option string).

(** when nothing is refused *)
Lemma sighandler_installs name signum h p : alt_ok = true ->
  exists orig p', stress_sighandler alt_ok (fun _ => true) strsignal name signum h p = (0, orig, p') /\ orig = handlers p signum /\
    flags p' = flags p /\ act p' = act p /\
    (forall s, handlers p' s = if s =? signum then h else handlers p s).
Proof. intros ->. unfold stress_sighandler. destruct (set_altstack p); eexists _, _; (split; [reflexivity|done]). Qed.

(** the handlers that a list installs: the last for each signal counts *)
Fixpoint after_install (l : list (Z * handler)) (h : Z -> handler) (s : Z) : handler :=
  match l with [] => h s | (signum, x) :: l => after_install l (fun s => if s =? signum then x else h s) s end.

Lemma after_install_ext l h h' s : (forall s, h s = h' s) -> after_install l h s = after_install l h' s.
Proof. revert h h'. induction l as [|[signum x] l IH]; intros h h' E; cbn [after_install]; [done|]. apply IH. intros t. by rewrite E. Qed.

Lemma install_all_installs name l p : alt_ok = true ->
  exists p', install_all alt_ok (fun _ => true) strsignal name l p = (0, p') /\ flags p' = flags p /\ act p' = act p /\
    forall s, handlers p' s = after_install l (handlers p) s.
Proof.
  intros Ha. revert p. induction l as [|[signum h] l IH]; intros p; [by exists p|]. cbn [install_all after_install].
  destruct (sighandler_installs name signum h p Ha) as (orig & p1 & -> & _ & Hf & Hs & Hh). change (0 <? 0) with false. cbv iota.
  destruct (IH p1) as (p2 & -> & Hf2 & Hs2 & Hh2). exists p2. split; [done|]. rewrite Hf2, Hs2. split; [done|]. split; [done|].
  intros s. rewrite Hh2. apply after_install_ext, Hh.
Qed.

End Theorems.

(** A stressor that installs a handler of its own and restores the one it was given
    when it has done leaves the process as it found it, whatever the signal. *)
Theorem handler_restored strsignal name signum h p :
  set_altstack p = true ->
  let '(ret, orig, p1) := stress_sighandler true (fun _ => true) strsignal name signum h p in
  let '(ret', p2) := stress_sigrestore (fun _ => true) strsignal name signum orig p1 in
  ret = 0 /\ ret' = 0 /\ handlers p1 signum = h /\ flags p2 = flags p /\ sig_fails p2 = sig_fails p /\ forall s, handlers p2 s = handlers p s.
Proof.
  intros Ha. unfold stress_sighandler. rewrite Ha. change (0 <? 0) with false. cbv iota zeta. unfold stress_sigrestore.
  split; [done|]. split; [done|]. split; [cbn; by rewrite Z.eqb_refl|]. split; [done|]. split; [done|].
  intros s. cbn. by destruct (Z.eqb_spec s signum) as [->|].
Qed.

Definition demo_process : process := Process (fun _ => Default) true (GFlags false true true 0) [] [] Running.

Lemma handler_restored_witness : forall s,
  handlers (stress_sigrestore (fun _ => true) (fun _ => None) "tree" SIGALRM Default
    (stress_sighandler true (fun _ => true) (fun _ => None) "tree" SIGALRM (OwnHandler 0) demo_process).2).2 s = Default.
Proof. exact (proj2 (proj2 (proj2 (proj2 (proj2 (handler_restored (fun _ => None) "tree" SIGALRM (OwnHandler 0) demo_process eq_refl)))))). Defined.

(** the signals of an instance: those of the main program, and its own three *)
Definition child_handlers : Z -> handler :=
  after_install [(SIGINT, SigintHandler); (SIGHUP, SigintHandler); (SIGALRM, HandleStopStressing)]
    (after_install ((fun s => (s, HandleSigint)) <$> signals) (fun _ => Default)).

(** the signals that stop an instance, and those for which it is reported as killed *)
Definition stop_signals : list Z := SIGALRM :: signals.
Definition kill_signals : list Z := filter (fun s => s ∉ [SIGINT; SIGHUP]) signals.

Lemma kill_signals_iff s : s ∈ kill_signals <-> (s ∉ [SIGINT; SIGHUP]) /\ s ∈ signals.
Proof. unfold kill_signals. by rewrite list_elem_of_filter. Qed.

Lemma not_kill_signals : (SIGALRM ∉ kill_signals) /\ (0 ∉ kill_signals).
Proof. apply (bool_decide_unpack _). vm_compute. reflexivity. Qed.

Lemma stop_signals_iff s : s ∈ stop_signals <-> s = SIGALRM \/ s ∈ signals.
Proof. apply elem_of_cons. Qed.

Lemma int_hup_signals s : s ∈ [SIGINT; SIGHUP] -> s ∈ signals.
Proof.
  intros [-> | [-> | []%elem_of_nil]%elem_of_cons]%elem_of_cons; apply (bool_decide_unpack _); vm_compute; reflexivity.
Qed.

Lemma child_handlers_cases s :
  child_handlers s =
    (if decide (s = SIGALRM) then HandleStopStressing else if decide (s ∈ [SIGINT; SIGHUP]) then SigintHandler
     else if decide (s ∈ signals) then HandleSigint else Default).
Proof.
  unfold child_handlers, signals, SIGINT, SIGHUP, SIGALRM. cbn [after_install fmap list_fmap].
  repeat match goal with |- context [s =? ?k] => destruct (Z.eqb_spec s k) as [->|?]; [reflexivity|] end.
  rewrite !decide_False;
    first [reflexivity|assumption|intros Hin; repeat (apply elem_of_cons in Hin as [Hin|Hin]; [contradiction|]); by apply elem_of_nil in Hin].
Qed.

(** the signals that end an instance at once: without a handler, and with an end as their default action *)
Definition fatal_signal (s : Z) : bool :=
  bool_decide (s ∉ stop_signals) && match default_of s with Terminate => true | _ => false end.

(** signals that come one after the other; the processes to be signalled may differ each time *)
Definition receive (own : nat -> gflags -> gflags) (getpid : Z) (p : process) (sigs : list (Z * (list pdata * Z))) : process :=
  foldl (fun p s => handle own getpid s.2.1 s.2.2 s.1 p) p sigs.

(** an instance that is neither stopped nor ended and whose flag is set *)
Definition goes_on (p : process) : bool := bool_decide (act p = Running) && g_keep_stressing_flag (flags p).

(** how an instance ends when [func] is what its stressor returns, as [waitpid()] tells its parent *)
Inductive ending : Type := ExitsWith (rc : Z) | EndedBy (signum : Z).
Definition child_ending (handlers_ok : bool) (func : Z) (p : process) : ending :=
  match act p with
  | KilledBy s => EndedBy s
  | _ => ExitsWith (child_status handlers_ok true false func (g_signum (flags p)))
  end.

Lemma receive_killed own getpid p sigs s : act p = KilledBy s -> receive own getpid p sigs = p.
Proof. intros Hp. induction sigs as [|x sigs IH]; [done|]. cbn [receive foldl]. unfold handle at 2. rewrite Hp. exact IH. Qed.

(** one signal: it ends the instance, or changes the flags *)
Lemma handle_child own getpid ds count s p :
  (forall t, handlers p t = child_handlers t) -> act p = Running -> default_of s <> Stop ->
  let p1 := handle own getpid ds count s p in
  (forall t, handlers p1 t = child_handlers t) /\
  if fatal_signal s then act p1 = KilledBy s
  else act p1 = Running /\
    g_keep_stressing_flag (flags p1) = g_keep_stressing_flag (flags p) && bool_decide (s ∉ stop_signals) /\
    (g_signum (flags p1) = g_signum (flags p) /\ (s ∉ kill_signals) \/ g_signum (flags p1) = s /\ s ∈ kill_signals).
Proof.
  intros Hh Hr Hns. cbv zeta. unfold handle, deliver. rewrite Hr, Hh, child_handlers_cases. unfold fatal_signal.
  pose proof not_kill_signals as [Hna _].
  destruct (decide (s = SIGALRM)) as [->|Ha].
  { rewrite !bool_decide_false by (intros Hn; apply Hn, stop_signals_iff; by left). cbn [andb]. rewrite andb_false_r.
    do 3 (split; [done|]). by left. }
  destruct (decide (s ∈ [SIGINT; SIGHUP])) as [Hi|Hi].
  { rewrite !bool_decide_false by (intros Hn; apply Hn, stop_signals_iff; right; by apply int_hup_signals). cbn [andb]. rewrite andb_false_r.
    do 3 (split; [done|]). left. split; [done|]. by intros [Hn _]%kill_signals_iff. }
  destruct (decide (s ∈ signals)) as [Hsig|Hsig].
  { rewrite !bool_decide_false by (intros Hn; apply Hn, stop_signals_iff; by right). cbn [andb]. rewrite andb_false_r.
    do 3 (split; [done|]). right. split; [done|]. by apply kill_signals_iff. }
  rewrite !bool_decide_true by (by intros [|]%stop_signals_iff). cbn [andb]. rewrite andb_true_r.
  assert (s ∉ kill_signals) as Hk by (by intros [_ ?]%kill_signals_iff). destruct (default_of s); try done; do 3 (split; [done|]); by left.
Qed.

Lemma receive_child own getpid p sigs :
  (forall s, handlers p s = child_handlers s) -> act p = Running -> Forall (fun s => default_of s <> Stop) sigs.*1 ->
  let p' := receive own getpid p sigs in
  match List.filter fatal_signal sigs.*1 with
  | s :: _ => act p' = KilledBy s
  | [] => act p' = Running /\
      g_keep_stressing_flag (flags p') = g_keep_stressing_flag (flags p) && bool_decide (Forall (fun s => s ∉ stop_signals) sigs.*1) /\
      (g_signum (flags p') = g_signum (flags p) /\ Forall (fun s => s ∉ kill_signals) sigs.*1 \/
       g_signum (flags p') ∈ kill_signals /\ ~ Forall (fun s => s ∉ kill_signals) sigs.*1)
  end.
Proof.
  revert p. induction sigs as [|[s [ds count]] sigs IH]; intros p Hh Hr Hns; cbv zeta.
  { split; [done|]. rewrite bool_decide_true by constructor. rewrite andb_true_r. split; [done|]. left. split; [done|constructor]. }
  rewrite fmap_cons in Hns. apply Forall_cons in Hns as [Hs Hns].
  pose proof (handle_child own getpid ds count s p Hh Hr Hs) as [Hh1 H1]. rewrite fmap_cons. cbn [fst List.filter receive foldl snd].
  set (p1 := handle own getpid ds count s p) in *. fold (receive own getpid p1 sigs).
  destruct (fatal_signal s); [by rewrite (receive_killed _ _ _ _ s)|]. destruct H1 as (Hr1 & Hk1 & Hs1).
  specialize (IH p1 Hh1 Hr1 Hns). destruct (List.filter fatal_signal sigs.*1) as [|s' l]; [|done].
  destruct IH as (Hr2 & Hk2 & Hs2). split; [done|]. split.
  - rewrite Hk2, Hk1, <- andb_assoc. f_equal. apply eq_true_iff_eq. rewrite andb_true_iff, !bool_decide_eq_true. by rewrite Forall_cons.
  - destruct Hs2 as [[E Hf]|[E Hf]].
    + rewrite E. destruct Hs1 as [[-> Hn]|[-> Hn]]; [left; by split; [|constructor]|right; split; [done|]]. by intros [? _]%Forall_cons.
    + right. split; [done|]. by intros [_ ?]%Forall_cons.
Qed.

Lemma no_fatal l : List.filter fatal_signal l = [] <-> Forall (fun s => fatal_signal s = false) l.
Proof.
  induction l as [|s l IH]; [by split|]. rewrite Forall_cons. cbn [List.filter]. destruct (fatal_signal s); [by split; [|intros []]|].
  rewrite IH. tauto.
Qed.


Definition demo_child : Z * process :=
  stress_set_handler true (fun _ => true) (fun _ => None) "cpu" true (main_handlers true (fun _ => true) (fun _ => None) demo_process).2.

(** SIGCHLD and SIGTERM, then SIGUSR2 *)
Definition demo_signals : list (Z * (list pdata * Z)) := [(17, ([], 0)); (15, ([], 0)); (SIGUSR2, ([], 0))].


(** The handler of SIGUSR2 gives [snprintf()] the size [buffer - ptr] for the rest of its
    buffer: when the load average is known nothing bounds the text, and with a load of more
    than 10000 on a machine of many terabytes it is longer than the buffer; when the load
    average is not known nothing is written and an empty line is shown. *)
Theorem stats_text_unbounded :
  (exists load sysinfo, (80 < (stress_stats_handler (Some load) (Some sysinfo) None).1)%nat) /\
  (forall sysinfo shmall, stress_stats_handler None sysinfo shmall = (0%nat, EmptyString)).
Proof.
  split.
  - exists (of_int double_ 12345, of_int double_ 12345, of_int double_ 12345), (2 ^ 43, 2 ^ 44, 1). vm_compute. lia.
  - intros sysinfo shmall. unfold stress_stats_handler, stress_get_load_avg, stats_written.
    destruct (stress_get_memlimits sysinfo shmall) as [[sh fr] tot]. reflexivity.
Qed.
