(* ===== verification/TempFiles.v ===== *)
(** * Stressors of directories (stress-dentry.c, stress-dir.c, stress-link.c, stress-rename.c)

    These stressors fill a temporary directory of their own with names, and take
    them away again.  The file system is a map from paths to what is there; each call
    may fail with an error chosen by the system ([sys]), and a call that cannot
    succeed fails.  The calls of [unlink()] and [rmdir()] have errors of their own ([rm_sys]), since it is
    on them that it depends what is left.  The flag is an argument ([flag]), for each look at it.

    - [directories_tidied]: whatever calls fail and whenever they are stopped, the dir, link
      and symlink stressors end and touch nothing outside their directory; if no [unlink()] and no [rmdir()]
      of something that can be removed fails, the file system is then as they found it; and when no call
      fails they report nothing.  [removal_failure_leaves] has a run in which [rmdir()] fails.
    - [dentries_tidied]: when removals do not fail, the dentry stressor leaves nothing, either, unless a prime that it uses as a
      stride divides the number of entries; [dentry_stride_leaves] has such a number.
    - [renames_tidied]: nor does the rename stressor, when the failures of the other calls come to an end;
      [rename_never_ends] shows that they have to. *)

From Stdlib Require Import Znumtheory DecimalString DecimalFacts.
From S2P Require Import Prelude Limits Mwc Cpu CpuDriver Helpers Outcome Affinity Priority Help Report Support.

Inductive node : Type := File | Dir | Link (target : string).

#[global] Instance node_eq_dec : EqDecision node.
Proof. solve_decision. Defined.

Definition ENOENT : Z := 2.
Definition ENOMEM : Z := 12.
Definition EEXIST : Z := 17.
Definition EISDIR : Z := 21.
Definition ENOSPC : Z := 28.
Definition ENOTEMPTY : Z := 39.

Definition exit_status (err : Z) : Z :=
  if (err =? ENOMEM) || (err =? ENOSPC) then EXIT_NO_RESOURCE else EXIT_FAILURE.

(** the files, the calls that can fail made so far, the looks at the flag so far, the counter of
    operations, the messages, the static [p] of [stress_get_prime64()], the random numbers, the removals
    tried so far *)
Record fstate := Fstate {
  tree : gmap string node; calls : nat; looks : nat; ops : Z; shown : list string; stride : Z; frng : mwc; removals : nat }.

Definition tf (A : Type) : Type := fstate -> option (A * fstate).

#[global] Instance tf_ret : MRet tf := fun A x s => Some (x, s).
#[global] Instance tf_bind : MBind tf := fun A B f m s => '(x, s) ← m s; f x s.

Definition change (f : gmap string node -> gmap string node) : tf () := fun s =>
  Some ((), Fstate (f (tree s)) (calls s) (looks s) (ops s) (shown s) (stride s) (frng s) (removals s)).
Definition show (msgs : list string) : tf () := fun s =>
  Some ((), Fstate (tree s) (calls s) (looks s) (ops s) (shown s ++ msgs) (stride s) (frng s) (removals s)).
Definition count_op : tf () := fun s =>
  Some ((), Fstate (tree s) (calls s) (looks s) (u64 (ops s + 1)) (shown s) (stride s) (frng s) (removals s)).
Definition rand32 : tf Z := fun s =>
  let '(v, r) := mwc32 (frng s) in Some (v, Fstate (tree s) (calls s) (looks s) (ops s) (shown s) (stride s) r (removals s)).

(** ** Calls *)

(** nothing lies in the directory *)
Definition below (d p : string) : bool := String.prefix (d +:+ "/") p.
Definition empty_dir (d : string) (t : gmap string node) : bool := forallb (fun e => negb (below d e.1)) (map_to_list t).

Definition mkdir (p : string) (t : gmap string node) : Z + gmap string node :=
  if t !! p is Some _ then inl EEXIST else inr (<[p := Dir]> t).
(** [open()] with [O_CREAT], [creat()], and [fopen()] for writing; what is created is closed at once *)
Definition creat (p : string) (t : gmap string node) : Z + gmap string node :=
  if decide (t !! p = Some Dir) then inl EISDIR else inr (<[p := File]> t).
(** a hard link to the file, a symbolic link with the text *)
Definition link (old new : string) (t : gmap string node) : Z + gmap string node :=
  match t !! new, t !! old with
  | Some _, _ => inl EEXIST
  | None, Some x => inr (<[new := x]> t)
  | None, None => inl ENOENT
  end.
Definition symlink (old new : string) (t : gmap string node) : Z + gmap string node :=
  if t !! new is Some _ then inl EEXIST else inr (<[new := Link old]> t).
Definition lstat (p : string) (t : gmap string node) : Z + gmap string node :=
  if t !! p is Some _ then inr t else inl ENOENT.
Definition rename (old new : string) (t : gmap string node) : Z + gmap string node :=
  match t !! old with
  | None => inl ENOENT
  | Some x => if decide (t !! new = Some Dir) then inl EISDIR else inr (<[new := x]> (delete old t))
  end.

Definition unlink (p : string) (t : gmap string node) : Z + gmap string node :=
  match t !! p with
  | None => inl ENOENT
  | Some x => if decide (x = Dir) then inl EISDIR else inr (delete p t)
  end.
Definition rmdir (p : string) (t : gmap string node) : Z + gmap string node :=
  match t !! p with
  | Some Dir => if empty_dir p t then inr (delete p t) else inl ENOTEMPTY
  | _ => inl ENOENT
  end.

Section Stressors.
Variable flag : nat -> bool.          (** [g_keep_stressing_flag] at each look *)
Variable max_ops : Z.
Variable sys : nat -> option Z.       (** the error of a call, if it fails *)
Variable rm_sys : nat -> option Z.    (** the same for [unlink()] and [rmdir()] *)
Variable stress_temp_path : string.

Definition look : tf bool := fun s =>
  Some (flag (looks s), Fstate (tree s) (calls s) (S (looks s)) (ops s) (shown s) (stride s) (frng s) (removals s)).
Definition keep : tf bool := fun s =>
  '(b, s) ← look s; Some (keep_stressing b max_ops (ops s), s).

(** a call, and its [errno] if it fails *)
Definition called (s : fstate) : fstate := Fstate (tree s) (S (calls s)) (looks s) (ops s) (shown s) (stride s) (frng s) (removals s).
Definition call (f : gmap string node -> Z + gmap string node) : tf (option Z) := fun s =>
  match sys (calls s) with
  | Some err => Some (Some err, called s)
  | None =>
      match f (tree s) with
      | inl err => Some (Some err, called s)
      | inr t => (change (fun _ => t) ≫= fun _ => mret None) (called s)
      end
  end.

(** [unlink()] and [rmdir()], in the same way *)
Definition tried (s : fstate) : fstate := Fstate (tree s) (calls s) (looks s) (ops s) (shown s) (stride s) (frng s) (S (removals s)).
Definition remove (f : gmap string node -> Z + gmap string node) : tf (option Z) := fun s =>
  match rm_sys (removals s) with
  | Some err => Some (Some err, tried s)
  | None =>
      match f (tree s) with
      | inl err => Some (Some err, tried s)
      | inr t => (change (fun _ => t) ≫= fun _ => mret None) (tried s)
      end
  end.

(** each of these names, whatever is returned *)
Fixpoint remove_all (rm : string -> gmap string node -> Z + gmap string node) (ps : list string) : tf () :=
  match ps with
  | [] => mret ()
  | p :: ps => remove (rm p);; remove_all rm ps
  end.

(** [stress_temp_dir_mk()] and [stress_temp_dir_rm()] on these files *)
Definition temp_dir_mk (name : string) (pid instance : Z) : tf Z :=
  answer ← call (mkdir (stress_temp_dir stress_temp_path PATH_MAX name pid instance).2);
  let '(ret, msgs) := stress_temp_dir_mk stress_temp_path (fun _ => answer) name pid instance in
  show msgs;; mret ret.
Definition temp_dir_rm (name : string) (pid instance : Z) : tf () :=
  answer ← remove (rmdir (stress_temp_dir stress_temp_path (S PATH_MAX) name pid instance).2);
  let '(_, msgs) := stress_temp_dir_rm stress_temp_path (fun _ => answer) name pid instance in
  show msgs.

Variable a : temp_args.

Definition temp_name (magic : Z) : string := (stress_temp_filename_args stress_temp_path a PATH_MAX magic).2.
Definition gray_name (i : Z) : string := temp_name (gray_encode i).
Definition temp_dir_mk_args : tf Z := temp_dir_mk (ta_name a) (ta_pid a) (ta_instance a).
Definition temp_dir_rm_args : tf () := temp_dir_rm (ta_name a) (ta_pid a) (ta_instance a).
Definition pr_fail_err (what : string) : tf () := show [what].

(** the loop that creates, from the [i]-th name on: whether it todo for [abort], and [n] *)
Fixpoint create (make : string -> gmap string node -> Z + gmap string node) (refuse : Z -> option (list string))
    (todo i : nat) : tf (bool * nat) :=
  match todo with
  | O => mret (false, i)
  | S todo =>
      err ← call (make (gray_name (Z.of_nat i)));
      let next := (b ← keep; if negb b then mret (true, i) else count_op;; create make refuse todo (S i)) in
      match err ≫= refuse with
      | Some msgs => show msgs;; mret (false, i)
      | None => next
      end
  end.

Definition unlink_all : list string -> tf () := remove_all unlink.

(** *** dentry *)

Definition ORDER_FORWARD : Z := 0x00.
Definition ORDER_REVERSE : Z := 0x01.
Definition ORDER_STRIDE : Z := 0x02.
Definition ORDER_RANDOM : Z := 0x03.

(** [j % n] for [j] from [prime] on in steps of [prime], with the wrap-around *)
Fixpoint strides (todo : nat) (n prime j : Z) : list Z :=
  match todo with O => [] | S todo => j mod n :: strides todo n prime (u64 (j + prime)) end.

(** the numbers of the names, in the order in which they are removed *)
Definition removal_order (fuel : nat) (ord : Z) (n : nat) : tf (list Z) := fun s =>
  if ord =? ORDER_REVERSE then Some ((fun i => Z.of_nat n - 1 - Z.of_nat i) <$> seq 0 n, s)
  else if ord =? ORDER_STRIDE then
    prime ← stress_get_prime64 fuel (Z.of_nat n) (stride s);
    Some (strides n (Z.of_nat n) prime prime,
          Fstate (tree s) (calls s) (looks s) (ops s) (shown s) prime (frng s) (removals s))
  else Some (Z.of_nat <$> seq 0 n, s).

Definition stress_dentry_unlink (fuel : nat) (n : nat) (dentry_order : Z) : tf () :=
  ord ← (if dentry_order =? ORDER_RANDOM then v ← rand32; mret (v mod 3) else mret dentry_order);
  ks ← removal_order fuel ord n;
  unlink_all (gray_name <$> ks).

Definition dentry_refuse (err : Z) : option (list string) := Some (if err =? ENOSPC then [] else ["open"]).

Fixpoint dentry_rounds (fuel rounds : nat) (dentries : nat) (dentry_order : Z) : tf () :=
  match rounds with
  | O => fun _ => None
  | S rounds =>
      '(abort, n) ← create creat dentry_refuse dentries 0;
      if abort : bool then mret () else
      stress_dentry_unlink fuel n dentry_order;;
      b ← look; if negb b then mret () else
      k ← keep; if k : bool then dentry_rounds fuel rounds dentries dentry_order else mret ()
  end.

Definition stress_dentry (fuel rounds : nat) (dentries : nat) (dentry_order : Z) : tf Z :=
  ret ← temp_dir_mk_args;
  if ret <? 0 then mret (exit_status (- ret)) else
  dentry_rounds fuel rounds dentries dentry_order;;
  stress_dentry_unlink fuel dentries dentry_order;;
  temp_dir_rm_args;;
  mret EXIT_SUCCESS.

(** *** dir *)

Definition stress_dir_tidy (n : nat) : tf () := remove_all rmdir ((fun i => gray_name (Z.of_nat i)) <$> seq 0 n).

Definition dir_refuse (err : Z) : option (list string) :=
  if negb (err =? ENOSPC) && negb (err =? ENOMEM) then Some ["mkdir"] else None.

Fixpoint dir_rounds (rounds : nat) (dir_dirs : nat) : tf () :=
  match rounds with
  | O => fun _ => None
  | S rounds =>
      '(abort, n) ← create mkdir dir_refuse dir_dirs 0;
      if abort : bool then mret () else
      stress_dir_tidy n;;
      b ← look; if negb b then mret () else
      k ← keep; if k : bool then dir_rounds rounds dir_dirs else mret ()
  end.

Definition stress_dir (rounds : nat) (dir_dirs : nat) : tf Z :=
  ret ← temp_dir_mk_args;
  if ret <? 0 then mret (exit_status (- ret)) else
  dir_rounds rounds dir_dirs;;
  stress_dir_tidy dir_dirs;;
  temp_dir_rm_args;;
  mret EXIT_SUCCESS.

(** *** link and symlink *)

Definition DEFAULT_LINKS : nat := Z.to_nat 8192.

Definition stress_link_unlink (n : nat) : tf () := unlink_all ((fun i => temp_name (Z.of_nat i)) <$> seq 0 n).

(** [readlink()] is asked whether the link can be read, and what it says; [newpath] is then cut at
    the length of the text, where [buf] is meant to be *)
Definition read_back (oldpath newpath : string) (rc : Z) : tf (Z * string) := fun s =>
  match sys (calls s), tree s !! newpath with
  | None, Some (Link target) =>
      let buf := String.substring 0 (PATH_MAX - 1) target in
      let rret := String.length buf in
      let msgs := if negb (rret =? String.length oldpath)%nat then ["readlink length error"]
                  else if bool_decide (String.substring 0 rret oldpath = buf) then [] else ["readlink path error"] in
      (show msgs ≫= fun _ => mret (rc, String.substring 0 rret newpath)) (called s)
  | err, x =>
      let err := default (if x is Some _ then EINVAL else ENOENT) err in
      (pr_fail_err "readlink" ≫= fun _ => mret (exit_status err, newpath)) (called s)
  end.

Section Generic.
Variable linkfunc : string -> string -> gmap string node -> Z + gmap string node.
Variable funcname : string.
Variable is_symlink : bool.

Fixpoint make_links (oldpath : string) (todo i : nat) (rc : Z) : tf (bool * nat * Z) :=
  match todo with
  | O => mret (false, i, rc)
  | S todo =>
      let newpath := temp_name (Z.of_nat i) in
      err ← call (linkfunc oldpath newpath);
      match err with
      | Some err => pr_fail_err funcname;; mret (false, i, exit_status err)
      | None =>
          '(rc, newpath) ← (if is_symlink then read_back oldpath newpath rc else mret (rc, newpath));
          err ← call (lstat newpath);
          rc ← (match err with Some err => pr_fail_err "lstat";; mret (exit_status err) | None => mret rc end);
          b ← keep; if negb b then mret (true, i, rc) else
          count_op;; make_links oldpath todo (S i) rc
      end
  end.

Fixpoint link_rounds (rounds : nat) (oldpath : string) (rc : Z) : tf Z :=
  match rounds with
  | O => fun _ => None
  | S rounds =>
      '(abort, n, rc) ← make_links oldpath DEFAULT_LINKS 0 rc;
      if abort : bool then mret rc else
      stress_link_unlink n;;
      k ← keep; if k : bool then link_rounds rounds oldpath rc else mret rc
  end.

Definition stress_link_generic (rounds : nat) : tf Z :=
  ret ← temp_dir_mk_args;
  if ret <? 0 then mret (exit_status (- ret)) else
  let oldpath := temp_name (u64 (-1)) in
  err ← call (creat oldpath);
  match err with
  | Some err => pr_fail_err "open";; temp_dir_rm_args;; mret (exit_status err)
  | None =>
      rc ← link_rounds rounds oldpath EXIT_SUCCESS;
      stress_link_unlink DEFAULT_LINKS;;
      remove (unlink oldpath);;
      temp_dir_rm_args;;
      mret rc
  end.
End Generic.

Definition stress_link : nat -> tf Z := stress_link_generic link "link" false.
Definition stress_symlink : nat -> tf Z := stress_link_generic symlink "symlink" true.

(** *** rename *)

Definition rename_name (instance i : Z) : string :=
  (stress_temp_filename stress_temp_path PATH_MAX (ta_name a) (ta_pid a) instance i).2.

(** one half of the body of [for (;;)]: a new name in the other directory.  [None] for [oldname] is [restart]:
    [to_second] tells which of the two halves of the body of the loop is next; after [restart] it is the first.
    [newname] is kept since it is unlinked, too. *)
Fixpoint renames (fuel : nat) (inst1 inst2 : Z) (to_second : bool) (oldname : option string) (i : Z) : tf (Z + string * string) :=
  match fuel with
  | O => fun _ => None
  | S fuel =>
      match oldname with
      | None =>
          let oldname := rename_name inst1 i in
          err ← call (creat oldname);
          match err with
          | Some err => show ["fopen failed"];; mret (inl (exit_status err))
          | None => renames fuel inst1 inst2 true (Some oldname) (u64 (i + 1))
          end
      | Some oldname =>
          let newname := rename_name (if to_second then inst2 else inst1) i in
          err ← call (rename oldname newname);
          match err with
          | Some _ => unlink_all [oldname; newname];; renames fuel inst1 inst2 true None (u64 (i + 1))
          | None =>
              count_op;;
              b ← keep;
              if negb b then mret (inr (newname, oldname))
              else renames fuel inst1 inst2 (negb to_second) (Some newname) (u64 (i + 1))
          end
      end
  end.

Definition stress_rename (fuel : nat) : tf Z :=
  let rm inst := temp_dir_rm (ta_name a) (ta_pid a) inst in
  let inst1 := u32 (ta_instance a * 2) in
  let inst2 := u32 (inst1 + 1) in
  r1 ← temp_dir_mk (ta_name a) (ta_pid a) inst1;
  if r1 <? 0 then mret EXIT_FAILURE else
  r2 ← temp_dir_mk (ta_name a) (ta_pid a) inst2;
  if r2 <? 0 then rm inst1;; mret EXIT_FAILURE else
  r ← renames fuel inst1 inst2 true None 0;
  match r with
  | inl rc => rm inst1;; rm inst2;; mret rc
  | inr (oldname, newname) => unlink_all [oldname; newname];; rm inst1;; rm inst2;; mret EXIT_SUCCESS
  end.
End Stressors.

(** ** Paths *)

Lemma prefix_spec s t : String.prefix s t = true <-> exists u, t = s +:+ u.
Proof.
  split; [|intros (u & ->); apply string_prefix_app]. revert t. induction s as [|c s IH]; intros t H; [by exists t|].
  destruct t as [|c' t]; [done|]. cbn in H. destruct (Ascii.ascii_dec c c') as [->|]; [|done].
  destruct (IH t H) as (u & ->). by exists u.
Qed.

Lemma length_string_app (s t : string) : String.length (s +:+ t) = (String.length s + String.length t)%nat.
Proof. induction s as [|c s IH]; [done|]. exact (f_equal S IH). Qed.

(** a number has at most as many digits as bits *)
Lemma little_digits d : (Decimal.nb_digits (Decimal.Little.double d) <= S (Decimal.nb_digits d))%nat /\
  (Decimal.nb_digits (Decimal.Little.succ_double d) <= S (Decimal.nb_digits d))%nat.
Proof. induction d as [|d [IH1 IH2]|d [IH1 IH2]|d [IH1 IH2]|d [IH1 IH2]|d [IH1 IH2]|d [IH1 IH2]|d [IH1 IH2]|d [IH1 IH2]|d [IH1 IH2]|d [IH1 IH2]]; cbn; lia. Qed.

Lemma pos_digits p : (Decimal.nb_digits (Pos.to_uint p) <= Pos.size_nat p)%nat.
Proof.
  unfold Pos.to_uint. rewrite nb_digits_rev. induction p as [p IH|p IH|]; cbn; [| |lia].
  - pose proof (little_digits (Pos.to_little_uint p)). lia.
  - pose proof (little_digits (Pos.to_little_uint p)). lia.
Qed.

Lemma length_uint d : String.length (NilEmpty.string_of_uint d) = Decimal.nb_digits d.
Proof. induction d; cbn; congruence. Qed.

Lemma length_show_Z n k : 0 <= n < 2 ^ Z.of_nat (S k) -> (String.length (show_Z n) <= S k)%nat.
Proof.
  intros Hn. destruct n as [|p|p]; [cbn; lia| |lia]. unfold show_Z. cbn [Z.to_int NilZero.string_of_int].
  assert (String.length (NilZero.string_of_uint (Pos.to_uint p)) = Decimal.nb_digits (Pos.to_uint p)) as ->.
  { pose proof (DecimalPos.Unsigned.to_uint_nonnil p). unfold NilZero.string_of_uint. rewrite <- length_uint. by destruct (Pos.to_uint p). }
  etransitivity; [apply pos_digits|]. destruct Hn as [_ Hn]. revert Hn. generalize (S k). clear. intros k. revert p.
  induction k as [|k IH]; intros p Hn; [lia|]. rewrite Nat2Z.inj_succ, Z.pow_succ_r in Hn by lia.
  destruct p as [p|p|]; cbn; [| |lia]; apply le_n_S, IH; lia.
Qed.

Lemma below_spec d p : below d p = true <-> exists u, p = d +:+ "/" +:+ u.
Proof. unfold below. rewrite prefix_spec. split; intros (u & ->); exists u; by rewrite string_app_assoc. Qed.

Lemma below_length d p : below d p = true -> (String.length d < String.length p)%nat.
Proof. intros (u & ->)%below_spec. rewrite !length_string_app. cbn. lia. Qed.

Lemma below_trans d e p : below d e = true -> below e p = true -> below d p = true.
Proof. intros (u & ->)%below_spec (v & ->)%below_spec. apply below_spec. exists (u +:+ "/" +:+ v). by rewrite !string_app_assoc. Qed.

(** digits have nothing below them *)
Lemma digits_not_below d s t : all_digits t = true -> below (d +:+ s) (d +:+ t) = false.
Proof.
  intros Ht. apply not_true_iff_false. intros (u & E)%below_spec. rewrite string_app_assoc in E. apply string_app_cancel in E. subst t.
  induction s as [|c s IH]; cbn in Ht; [done|]. apply andb_prop in Ht as [_ Ht]. by apply IH.
Qed.

Section Names.
Variable path name : string.
Variable pid instance : Z.

Abbreviation D := (temp_dir_text path name pid instance).
Abbreviation F := (temp_filename_text path name pid instance).

Lemma file_text : exists stem, forall m, F m = D +:+ "/" +:+ stem +:+ show_Z m.
Proof.
  exists (name +:+ "-" +:+ show_Z pid +:+ "-" +:+ show_Z instance +:+ "-"). intros m. unfold temp_filename_text. by rewrite !string_app_assoc.
Qed.

Lemma file_below m : below D (F m) = true.
Proof. destruct file_text as (stem & ->). apply below_spec. by eexists. Qed.

Lemma file_not_dir m : F m <> D.
Proof. intros E. pose proof (below_length _ _ (file_below m)). rewrite E in H. lia. Qed.

Lemma file_leaf m m' : 0 <= m' -> below (F m) (F m') = false.
Proof.
  intros Hm. destruct file_text as (stem & E). rewrite !E, <- !string_app_assoc. by apply digits_not_below, show_Z_digits.
Qed.

Lemma dir_not_below m : below (F m) D = false.
Proof. apply not_true_iff_false. intros H%below_length. pose proof (below_length _ _ (file_below m)). lia. Qed.

Lemma self_not_below d : below d d = false.
Proof. apply not_true_iff_false. intros H%below_length. lia. Qed.

Lemma file_inj m m' : F m = F m' -> m = m'.
Proof. destruct file_text as (stem & E). rewrite !E. intros H%string_app_cancel%(string_app_cancel "/")%string_app_cancel. by apply show_Z_inj. Qed.

(** no name is cut by its buffer *)
Definition short : Prop := forall m, fits 64 m -> (String.length (F m) < PATH_MAX)%nat.

Lemma short_file m : short -> fits 64 m -> (stress_temp_filename path PATH_MAX name pid instance m).2 = F m.
Proof. intros Hs Hm. cbn [stress_temp_filename snprintf_ret snd]. unfold Help.snprintf. apply substring_all. pose proof (Hs m Hm). lia. Qed.

Lemma short_dir k : short -> (PATH_MAX <= k)%nat -> (stress_temp_dir path k name pid instance).2 = D.
Proof.
  intros Hs Hk. cbn [stress_temp_dir snprintf_ret snd]. unfold Help.snprintf. apply substring_all.
  assert (fits 64 0) as H0 by done. pose proof (Hs 0 H0). pose proof (below_length _ _ (file_below 0)). lia.
Qed.
End Names.

(** what lies below a path is there only if the path is a directory *)
Definition closed (d : string) (t : gmap string node) : Prop :=
  forall q, is_Some (t !! q) -> below d q = true -> t !! d = Some Dir.

Lemma empty_dir_spec d t : empty_dir d t = true <-> forall q x, t !! q = Some x -> below d q = false.
Proof.
  unfold empty_dir. rewrite forallb_forall. split.
  - intros H q x Hq. apply elem_of_map_to_list in Hq. apply list_elem_of_In, H in Hq. by apply negb_true_iff in Hq.
  - intros H [q x] Hq. apply list_elem_of_In, elem_of_map_to_list in Hq. apply negb_true_iff. by eapply H.
Qed.

(** the directory made and taken away again *)
Lemma rmdir_made d t : t !! d = None -> closed d t -> rmdir d (<[d := Dir]> t) = inr t.
Proof.
  intros Hn Hc. unfold rmdir. rewrite lookup_insert_eq. assert (empty_dir d (<[d := Dir]> t) = true) as ->.
  { apply empty_dir_spec. intros q x [[<- _]|[_ Hq]]%lookup_insert_Some; [apply self_not_below|].
    apply not_true_iff_false. intros Hb. apply Hc in Hb; [congruence|by eexists]. }
  by rewrite delete_insert_id.
Qed.

(** what a call that does not fail for other reasons leaves *)
Definition left_by (f : gmap string node -> Z + gmap string node) (t : gmap string node) : gmap string node :=
  match f t with inl _ => t | inr t => t end.

(** ** Names left about *)

Section Litter.
Variable base : gmap string node.
Variable dirs : bool.

(** [t] differs from [base] only at [names], where directories are, or anything else *)
Definition littered (names : list string) (t : gmap string node) : Prop :=
  (forall p, p ∉ names -> t !! p = base !! p) /\
  (forall p x, p ∈ names -> t !! p = Some x -> bool_decide (x = Dir) = dirs).

Definition unused (names : list string) : Prop := forall p, p ∈ names -> base !! p = None.

Lemma littered_base names : unused names -> littered names base.
Proof. intros Hu. split; [done|]. intros p x Hp E. by rewrite (Hu p Hp) in E. Qed.

Lemma littered_weaken names names' t : names ⊆ names' -> unused names' -> littered names t -> littered names' t.
Proof.
  intros Hs Hu [H1 H2]. split; [by intros p Hp; apply H1; set_solver|]. intros p x Hp E.
  destruct (decide (p ∈ names)) as [Hn|Hn]; [by eapply H2|]. rewrite H1, Hu in E; done.
Qed.

Lemma littered_insert names p x t :
  p ∈ names -> bool_decide (x = Dir) = dirs -> littered names t -> littered names (<[p := x]> t).
Proof.
  intros Hp Hx [H1 H2]. split.
  - intros q Hq. rewrite lookup_insert_ne by (intros ->; done). by apply H1.
  - intros q y Hq [[<- <-]|[_ E]]%lookup_insert_Some; [done|by eapply H2].
Qed.

Lemma littered_delete names p t : p ∈ names -> littered names t -> littered names (delete p t).
Proof.
  intros Hp [H1 H2]. split.
  - intros q Hq. rewrite lookup_delete_ne by (intros ->; done). by apply H1.
  - intros q y Hq [_ E]%lookup_delete_Some. by eapply H2.
Qed.

(** after all names have been deleted *)
Lemma littered_deleted names ps t :
  names ⊆ ps -> unused ps -> littered names t -> foldl (fun t p => delete p t) t ps = base.
Proof.
  intros Hs Hu [H1 _]. apply map_eq. intros q.
  assert (forall ps t, foldl (fun t p => delete p t) t ps !! q = if decide (q ∈ ps) then None else t !! q) as ->.
  { clear. induction ps as [|p ps IH]; intros t; cbn [foldl]; [by rewrite decide_False by apply not_elem_of_nil|]. rewrite IH.
    destruct (decide (q ∈ ps)) as [?|Hq]; [by rewrite decide_True by by right|].
    destruct (decide (q = p)) as [->|Hn]; [rewrite decide_True by left; by rewrite lookup_delete_eq|].
    rewrite decide_False by (by intros [?|?]%elem_of_cons). by rewrite lookup_delete_ne. }
  destruct (decide (q ∈ ps)) as [Hq|Hq]; [by rewrite Hu|]. apply H1. set_solver.
Qed.

(** a removal that deletes each name of a list deletes them all *)
Lemma removes_all (rm : string -> gmap string node -> gmap string node) names ps t :
  (forall p t, p ∈ names -> littered names t -> rm p t = delete p t) -> ps ⊆ names -> littered names t ->
  foldl (fun t p => rm p t) t ps = foldl (fun t p => delete p t) t ps /\ littered names (foldl (fun t p => rm p t) t ps).
Proof.
  intros Hrm. revert t. induction ps as [|p ps IH]; intros t Hs Hl; [done|]. cbn [foldl].
  rewrite Hrm by (try done; set_solver). apply IH; [set_solver|]. apply littered_delete; [set_solver|done].
Qed.

Lemma unlink_litter names p t : dirs = false -> p ∈ names -> littered names t -> left_by (unlink p) t = delete p t.
Proof.
  intros Hd Hp [_ H]. unfold left_by, unlink. destruct (t !! p) as [x|] eqn:E; [|by rewrite delete_id]. case_decide as Ex; [|done].
  specialize (H p x Hp E). by rewrite Hd, bool_decide_true in H.
Qed.

Lemma rmdir_litter names p t :
  dirs = true -> (forall q, q ∈ names \/ is_Some (base !! q) -> below p q = false) -> p ∈ names -> littered names t ->
  left_by (rmdir p) t = delete p t.
Proof.
  intros Hd Hb Hp [H1 H2]. unfold left_by, rmdir. destruct (t !! p) as [x|] eqn:E; [|by rewrite delete_id].
  pose proof (H2 p x Hp E) as Hx. rewrite Hd in Hx. apply bool_decide_eq_true_1 in Hx as ->.
  assert (empty_dir p t = true) as ->; [|done]. apply empty_dir_spec. intros q x Hq. apply Hb.
  destruct (decide (q ∈ names)) as [|Hn]; [by left|]. right. rewrite <- H1, Hq by done. by eexists.
Qed.

Lemma creat_litter names p t :
  dirs = false -> p ∈ names -> littered names t -> exists t', creat p t = inr t' /\ littered names t'.
Proof.
  intros Hd Hp Hl. unfold creat. rewrite decide_False; [eexists; split; [done|by apply littered_insert; [done|rewrite Hd|]]|].
  intros E. destruct Hl as [_ H]. specialize (H p Dir Hp E). by rewrite Hd, bool_decide_true in H.
Qed.

(** a name that is not there yet *)
Lemma fresh_litter names p x t :
  unused (names ++ [p]) -> p ∉ names -> bool_decide (x = Dir) = dirs -> littered names t ->
  t !! p = None /\ littered (names ++ [p]) (<[p := x]> t).
Proof.
  intros Hu Hp Hx Hl. split; [destruct Hl as [-> _]; [apply Hu; set_solver|done]|].
  apply littered_insert; [set_solver|done|]. eapply littered_weaken; [|done|exact Hl]. set_solver.
Qed.
End Litter.

(** ** Strides *)

Definition ok_stride (p : Z) : Prop := prime p /\ Z.odd p = true /\ first_stride <= p <= 1000003.

Lemma prime_limit : prime 1000003.
Proof. apply prime_of_check; [done|by vm_compute]. Qed.

Lemma prime_odd p : prime p -> 2 < p -> Z.odd p = true.
Proof.
  intros Hp H2. rewrite <- Z.negb_even. destruct (Z.even p) eqn:E; [|done]. exfalso.
  apply Z.even_spec in E as [x ->]. destruct (prime_divisors _ Hp 2) as [?|[?|[?|?]]]; [exists x; lia|lia..].
Qed.

Lemma stride_next fuel n p : ok_stride p -> 0 <= n <= MAX_DENTRIES -> MAX_DENTRIES <= 2 * Z.of_nat fuel ->
  exists p', stress_get_prime64 fuel n p = Some p' /\ ok_stride p'.
Proof.
  unfold MAX_DENTRIES. intros (Hp & Ho & Hb) Hn Hf. unfold stress_get_prime64. destruct (Z.eqb_spec n p) as [->|]; cbn [negb]; [|by exists p].
  assert (first_stride = 1009) as E1 by done. assert (p < 1000003) by lia.
  destruct (next_prime_finds fuel p p 1000003) as (q & -> & Hq & Hpq & _); [lia|done|exact prime_limit|lia|lia|lia|rewrite Z.mod_small; lia|].
  exists q. split; [done|]. split; [done|]. split; [apply prime_odd; [done|lia]|lia].
Qed.

(** no prime that can be a stride divides the number *)
Definition no_stride (n : Z) : Prop := forall q, prime q -> first_stride <= q -> ~ (q | n).

Lemma strides_nth todo n p j : 0 <= j -> 0 <= p -> j + p * Z.of_nat todo < 2 ^ 64 ->
  strides todo n p j = (fun i => (j + p * Z.of_nat i) mod n) <$> seq 0 todo.
Proof.
  revert j. induction todo as [|todo IH]; intros j Hj Hp Hb; [done|]. cbn [strides seq]. rewrite fmap_cons. f_equal; [f_equal; lia|].
  rewrite u64_small by (unfold fits; nia). rewrite IH by lia. rewrite <- fmap_S_seq, <- list_fmap_compose. apply list_fmap_ext.
  intros _ i _. cbn. f_equal. lia.
Qed.

(** a stride that does not divide the number visits everything *)
Lemma strides_cover n p k : prime p -> ~ (p | Z.of_nat n) -> p + p * Z.of_nat n < 2 ^ 64 -> (k < n)%nat ->
  Z.of_nat k ∈ strides n (Z.of_nat n) p p.
Proof.
  intros Hp Hd Hb Hk. assert (2 <= p) by (destruct Hp; lia). rewrite strides_nth by lia. apply list_elem_of_fmap.
  pose proof (prime_rel_prime p Hp (Z.of_nat n) Hd) as Hr. apply rel_prime_bezout in Hr as [u v Huv].
  set (N := Z.of_nat n) in *. set (i := (Z.of_nat k * u - 1) mod N).
  assert (0 <= i < N) by (apply Z.mod_pos_bound; lia).
  exists (Z.to_nat i). split; [|apply elem_of_seq; lia]. rewrite Z2Nat.id by lia.
  replace (p + p * i) with (p * (i + 1)) by lia. unfold i. rewrite <- Z.mul_mod_idemp_r by lia.
  rewrite Z.add_mod_idemp_l by lia. rewrite Z.mul_mod_idemp_r by lia.
  replace (p * (Z.of_nat k * u - 1 + 1)) with (Z.of_nat k + (- v * Z.of_nat k) * N) by nia.
  rewrite Z.mod_add by lia. rewrite Z.mod_small; [done|lia].
Qed.

(** ** Computations that come to an end *)

Definition ends {A} (m : tf A) (s : fstate) (Q : A -> fstate -> Prop) : Prop :=
  exists x s', m s = Some (x, s') /\ Q x s'.

Lemma ends_bind {A B} (m : tf A) (f : A -> tf B) s Q R :
  ends m s R -> (forall x s', R x s' -> ends (f x) s' Q) -> ends (m ≫= f) s Q.
Proof.
  intros (x & s' & E & H) Hf. destruct (Hf x s' H) as (y & s'' & E' & H'). exists y, s''. split; [|done].
  unfold mbind, tf_bind. cbn. by rewrite E.
Qed.

Lemma tf_bind_some {A B} (m : tf A) (f : A -> tf B) s x s' : m s = Some (x, s') -> (m ≫= f) s = f x s'.
Proof. intros E. unfold mbind, tf_bind. cbn. by rewrite E. Qed.

Lemma ends_ret {A} (x : A) s (Q : A -> fstate -> Prop) : Q x s -> ends (mret x) s Q.
Proof. by exists x, s. Qed.

Lemma ends_mono {A} (m : tf A) s (R Q : A -> fstate -> Prop) : ends m s R -> (forall x s', R x s' -> Q x s') -> ends m s Q.
Proof. intros (x & s' & E & H) Hf. exists x, s'. split; [done|by apply Hf]. Qed.

Section Ends.
Variable flag : nat -> bool.
Variable max_ops : Z.
Variable sys rm_sys : nat -> option Z.
Variable cleared : nat.
Hypothesis flag_cleared : flag cleared = false.
Hypothesis rm_none : forall k, rm_sys k = None.

(** a case in which no call fails *)
Variable quiet : Prop.
Hypothesis quiet_sys : quiet -> forall n, sys n = None.

(** nothing but the files, the calls and the looks changes, and nothing is shown unless calls fail;
    the flag has not been seen cleared *)
Definition goes_on (s s' : fstate) : Prop :=
  (ok_stride (stride s) -> ok_stride (stride s')) /\ (calls s <= calls s')%nat /\ (looks s <= looks s')%nat /\ (quiet -> shown s' = shown s).

Lemma goes_on_refl s : goes_on s s.
Proof. by split_and!. Qed.
Lemma goes_on_trans s1 s2 s3 : goes_on s1 s2 -> goes_on s2 s3 -> goes_on s1 s3.
Proof. intros (H1 & H2 & H3 & H4) (H5 & H6 & H7 & H8). split_and!; [auto|lia|lia|]. intros Hq. by rewrite H8, H4. Qed.

Lemma ends_look s : (looks s <= cleared)%nat ->
  ends (look flag) s (fun b s' => tree s' = tree s /\ goes_on s s' /\ (b = true -> looks s < looks s' <= cleared)%nat).
Proof.
  intros Hl. eexists _, _. split; [done|]. cbn [tree looks]. split; [done|]. split; [split_and!; cbn; [done|lia|lia|done]|].
  intros Hb. destruct (decide (looks s = cleared)) as [E|]; [|lia]. by rewrite E, flag_cleared in Hb.
Qed.

Lemma ends_keep s : (looks s <= cleared)%nat ->
  ends (keep flag max_ops) s (fun b s' => tree s' = tree s /\ goes_on s s' /\ (b = true -> looks s < looks s' <= cleared)%nat).
Proof.
  intros Hl. destruct (ends_look s Hl) as (b & s' & E & H1 & H2 & H3). unfold keep, ends. rewrite E. cbn.
  eexists _, _. split; [done|]. split; [done|]. split; [done|]. intros [Hb _]%andb_prop. by apply H3.
Qed.

(** a call: it fails, or does what it does *)
Lemma ends_call f s :
  ends (call sys f) s (fun err s' => goes_on s s' /\ calls s' = S (calls s) /\ looks s' = looks s /\
    ((exists e, err = Some e /\ tree s' = tree s /\ (sys (calls s) = Some e \/ f (tree s) = inl e)) \/
     (err = None /\ f (tree s) = inr (tree s')))).
Proof.
  unfold ends, call, goes_on. destruct (sys (calls s)) as [e|].
  - eexists _, _. split; [done|]. cbn. split_and!; [done|lia|lia|done|done|done|]. left. exists e. by auto.
  - destruct (f (tree s)) as [e|t] eqn:E; cbn; eexists _, _; (split; [done|]); cbn;
      (split_and!; [done|lia|lia|done|done|done|]); [left; exists e; by auto|by right].
Qed.

Lemma ends_remove f s : ends (remove rm_sys f) s (fun err s' =>
  tree s' = left_by f (tree s) /\ goes_on s s' /\ looks s' = looks s /\ calls s' = calls s /\ (is_Some err -> exists e, f (tree s) = inl e)).
Proof.
  unfold ends, remove, left_by. rewrite rm_none. destruct (f (tree s)) as [e|t]; eexists _, _; (split; [done|]); cbn; split_and!; try done. by exists e.
Qed.

Lemma ends_remove_all rm ps s : ends (remove_all rm_sys rm ps) s (fun _ s' =>
  tree s' = foldl (fun t p => left_by (rm p) t) (tree s) ps /\ goes_on s s' /\ looks s' = looks s /\ calls s' = calls s).
Proof.
  revert s. induction ps as [|p ps IH]; intros s; cbn [remove_all foldl]; [apply ends_ret; by split_and!|].
  eapply ends_bind; [apply ends_remove|]. intros _ s1 (Ht1 & Hg1 & Hl1 & Hc1 & _). eapply ends_mono; [apply IH|].
  intros _ s2 (Ht2 & Hg2 & Hl2 & Hc2). rewrite Ht2, Ht1. split; [done|]. split; [by eapply goes_on_trans|]. lia.
Qed.

Lemma ends_show msgs s : (quiet -> msgs = []) ->
  ends (show msgs) s (fun _ s' => tree s' = tree s /\ goes_on s s' /\ looks s' = looks s /\ calls s' = calls s).
Proof.
  intros Hm. eexists _, _. split; [done|]. split; [done|]. split; [|done]. split_and!; try done.
  intros Hq. cbn. by rewrite Hm, app_nil_r.
Qed.

Lemma ends_count s : ends count_op s (fun _ s' => tree s' = tree s /\ goes_on s s' /\ looks s' = looks s /\ calls s' = calls s).
Proof. eexists _, _. split; [done|]. cbn. by split_and!. Qed.

(** the loop that creates names, with what holds of the files before each round *)
Section Create.
Variable path : string.
Variable a : temp_args.
Variable make : string -> gmap string node -> Z + gmap string node.
Variable refuse : Z -> option (list string).
Variable total : nat.
Variable I : nat -> gmap string node -> Prop.
Hypothesis makes : forall i t, (i < total)%nat -> I i t -> exists t', make (gray_name path a (Z.of_nat i)) t = inr t' /\ I (S i) t'.
Hypothesis passes : forall i t, (i < total)%nat -> I i t -> I (S i) t.

Lemma passes_on i j t : (i <= j <= total)%nat -> I i t -> I j t.
Proof. intros [Hij Hj] Hi. induction Hij as [|j Hij IH]; [done|]. apply passes; [lia|]. apply IH. lia. Qed.

Lemma ends_create todo i s : (i + todo = total)%nat -> I i (tree s) -> (looks s <= cleared)%nat ->
  ends (create flag max_ops sys path a make refuse todo i) s (fun r s' =>
    goes_on s s' /\ (r.2 <= total)%nat /\ if r.1 then I total (tree s') else I r.2 (tree s') /\ (looks s' <= cleared)%nat).
Proof.
  revert i s. induction todo as [|todo IH]; intros i s Ht HI Hl; cbn [create].
  { apply ends_ret. cbn. split; [apply goes_on_refl|]. split; [lia|done]. }
  eapply ends_bind; [apply ends_call|]. intros err s1 (Hg1 & _ & Hl1 & Hc).
  assert (I (S i) (tree s1) /\ (forall e, err = Some e -> tree s1 = tree s /\ ~ quiet)) as [HI1 He].
  { destruct (makes i (tree s)) as (t' & Em & HI'); [lia|done|]. rewrite Em in Hc. destruct Hc as [(e & -> & -> & He)|[-> [= ->]]].
    - split; [apply passes; [lia|done]|]. intros e' [= <-]. split; [done|]. intros Hq. destruct He as [He|He]; [|done].
      by rewrite (quiet_sys Hq) in He.
    - by split. }
  destruct (err ≫= refuse) as [msgs|] eqn:Er.
  - destruct err as [e|]; [|done]. destruct (He e eq_refl) as [Et Hnq].
    eapply ends_bind; [apply ends_show; by intros ?|]. intros _ s2 (Ht2 & Hg2 & Hl2 & _). apply ends_ret. cbn.
    split; [by eapply goes_on_trans|]. split; [lia|]. split; [by rewrite Ht2, Et|lia].
  - eapply ends_bind; [apply ends_keep; lia|]. intros b s2 (Ht2 & Hg2 & Hb). destruct b; cbn [negb].
    + eapply ends_bind; [apply ends_count|]. intros _ s3 (Ht3 & Hg3 & Hl3 & _). specialize (Hb eq_refl).
      eapply ends_mono; [apply IH; [lia|by rewrite Ht3, Ht2|lia]|]. intros r s4 (Hg4 & H). split; [|done].
      eapply goes_on_trans; [exact Hg1|]. eapply goes_on_trans; [exact Hg2|]. by eapply goes_on_trans.
    + apply ends_ret. cbn. split; [by eapply goes_on_trans|]. split; [lia|]. rewrite Ht2. eapply passes_on; [|exact HI1]. lia.
Qed.
End Create.

(** ** The temporary directory *)

Section TempDir.
Variable path name : string.
Variable pid instance : Z.
Hypothesis sys_pos : forall n e, sys n = Some e -> 0 < e.
Hypothesis names_short : short path name pid instance.

Abbreviation D := (temp_dir_text path name pid instance).

Lemma ends_mk s : (quiet -> tree s !! D = None) ->
  ends (temp_dir_mk sys path name pid instance) s (fun ret s' => goes_on s s' /\ looks s' = looks s /\
    ((ret < 0 /\ tree s' = tree s /\ ~ quiet) \/ (ret = 0 /\ tree s !! D = None /\ tree s' = <[D := Dir]> (tree s)))).
Proof.
  intros Hd. unfold temp_dir_mk. rewrite short_dir by done.
  eapply ends_bind; [apply ends_call|]. intros err s1 (Hg1 & _ & Hl1 & Hc).
  destruct Hc as [(e & -> & Ht & He)|[-> Ht]]; cbn [stress_temp_dir_mk]; rewrite ?short_dir by done.
  - assert (~ quiet /\ 0 < e) as [Hnq Hpos].
    { unfold mkdir in He. destruct He as [He|He].
      - split; [intros Hq; by rewrite (quiet_sys Hq) in He|by eapply sys_pos].
      - destruct (tree s !! D) eqn:E; [|done]. injection He as <-. split; [|done]. intros Hq. specialize (Hd Hq). congruence. }
    eapply ends_bind; [apply ends_show; by intros ?|]. intros _ s2 (Ht2 & Hg2 & Hl2 & _). apply ends_ret.
    split; [by eapply goes_on_trans|]. split; [lia|]. left. split; [lia|]. split; [congruence|done].
  - eapply ends_bind; [by apply ends_show|]. intros _ s2 (Ht2 & Hg2 & Hl2 & _). apply ends_ret.
    split; [by eapply goes_on_trans|]. split; [lia|]. right. unfold mkdir in Ht. destruct (tree s !! D) eqn:E; [done|].
    injection Ht as Ht. split; [done|]. split; [done|]. congruence.
Qed.

Lemma ends_rm s t : tree s = <[D := Dir]> t -> t !! D = None -> closed D t ->
  ends (temp_dir_rm rm_sys path name pid instance) s (fun _ s' => tree s' = t /\ goes_on s s').
Proof.
  intros Ht Hn Hc. unfold temp_dir_rm. rewrite short_dir by (try done; lia).
  eapply ends_bind; [apply ends_remove|]. intros answer s1 (Ht1 & Hg1 & _ & _ & He). unfold left_by in Ht1. rewrite Ht, rmdir_made in He, Ht1 by done.
  destruct answer as [e|]; [by destruct He as [? He]|]. cbn [stress_temp_dir_rm].
  eapply ends_mono; [by apply ends_show|]. intros _ s2 (Ht2 & Hg2 & _). split; [congruence|by eapply goes_on_trans].
Qed.
End TempDir.

(** ** The names of an instance *)

Section Instance.
Variable path : string.
Variable a : temp_args.
Hypothesis sys_pos : forall n e, sys n = Some e -> 0 < e.
Hypothesis names_short : short path (ta_name a) (ta_pid a) (ta_instance a).

Abbreviation D := (temp_dir_text path (ta_name a) (ta_pid a) (ta_instance a)).
Abbreviation F := (temp_filename_text path (ta_name a) (ta_pid a) (ta_instance a)).

Variable t0 : gmap string node.
Hypothesis dir_free : t0 !! D = None.
Hypothesis t0_closed : closed D t0.

Definition made : gmap string node := <[D := Dir]> t0.

Definition own (p : string) : Prop := exists m, fits 64 m /\ p = F m.

Lemma temp_name_text m : fits 64 m -> temp_name path a m = F m.
Proof. intros Hm. unfold temp_name, stress_temp_filename_args. by apply short_file. Qed.

Lemma own_temp_name m : fits 64 m -> own (temp_name path a m).
Proof. intros Hm. exists m. by rewrite temp_name_text. Qed.

Lemma own_free p : own p -> made !! p = None.
Proof.
  intros (m & _ & ->). unfold made. rewrite lookup_insert_ne by (intros E; by eapply file_not_dir).
  destruct (t0 !! F m) eqn:E; [|done]. rewrite (t0_closed (F m)) in dir_free; [done|by eexists|apply file_below].
Qed.

Lemma unused_own ps : Forall own ps -> unused made ps.
Proof. intros H p Hp. apply own_free. by eapply Forall_forall in H. Qed.

Lemma own_leaf p q : own p -> own q \/ is_Some (made !! q) -> below p q = false.
Proof.
  intros (m & _ & ->) [(m' & [Hm' _] & ->)|[x Hx]]; [by apply file_leaf|].
  unfold made in Hx. apply lookup_insert_Some in Hx as [[<- _]|[_ Hx]]; [apply dir_not_below|].
  apply not_true_iff_false. intros Hb. rewrite (t0_closed q) in dir_free; [done|by eexists|].
  eapply below_trans; [apply file_below|exact Hb].
Qed.

Lemma ends_rm_made s : tree s = made -> ends (temp_dir_rm_args rm_sys path a) s (fun _ s' => tree s' = t0 /\ goes_on s s').
Proof. intros Ht. by apply ends_rm. Qed.

Lemma ends_unlink base names ps s : names ⊆ ps -> unused base ps -> littered base false names (tree s) ->
  ends (unlink_all rm_sys ps) s (fun _ s' => tree s' = base /\ goes_on s s' /\ looks s' = looks s).
Proof.
  intros Hs Hu Hl. eapply ends_mono; [apply ends_remove_all|]. intros _ s' (Ht & Hg & Hk & _). split; [|by split].
  assert (littered base false ps (tree s)) as Hl' by (by eapply littered_weaken).
  rewrite Ht. destruct (removes_all base false (fun p => left_by (unlink p)) ps ps (tree s)) as [-> _]; [|done|done|].
  - intros p t Hp Ht'. by eapply (unlink_litter base false ps).
  - by eapply littered_deleted.
Qed.

(** *** dir *)

Lemma gray_fits i : fits 64 i -> fits 64 (gray_encode i).
Proof. intros Hi. unfold gray_encode. apply fits_lxor; [lia|by apply fits_shiftr|done]. Qed.

Lemma gray_inj i j : 0 <= i -> 0 <= j -> gray_encode i = gray_encode j -> i = j.
Proof.
  unfold gray_encode. intros Hi Hj E.
  assert ((i .^ j) >>> 1 = i .^ j) as Ed.
  { rewrite Z.shiftr_lxor. apply (f_equal (Z.lxor (j >>> 1))) in E. apply (f_equal (fun x => x .^ i)) in E. revert E.
    rewrite <- !Z.lxor_assoc. rewrite !Z.lxor_nilpotent, Z.lxor_0_l. rewrite !Z.lxor_assoc, Z.lxor_nilpotent, Z.lxor_0_r.
    intros E. rewrite (Z.lxor_comm (i >>> 1)), E. apply Z.lxor_comm. }
  assert (0 <= i .^ j) by (apply Z.lxor_nonneg; lia). rewrite Z.shiftr_div_pow2 in Ed by lia. change (2 ^ 1) with 2 in Ed.
  apply Z.lxor_eq. Z.to_euclidean_division_equations. lia.
Qed.

Definition grays (n : nat) : list string := (fun i => gray_name path a (Z.of_nat i)) <$> seq 0 n.

Lemma elem_of_grays n p : p ∈ grays n <-> exists i, (i < n)%nat /\ p = gray_name path a (Z.of_nat i).
Proof.
  unfold grays. rewrite list_elem_of_fmap. setoid_rewrite elem_of_seq. split.
  - intros (i & -> & Hi). exists i. split; [lia|done].
  - intros (i & Hi & ->). exists i. split; [done|lia].
Qed.

Lemma own_gray i : fits 64 i -> own (gray_name path a i).
Proof. intros Hi. by apply own_temp_name, gray_fits. Qed.

Lemma own_grays n : Z.of_nat n <= 2 ^ 64 -> Forall own (grays n).
Proof. intros Hn. apply Forall_forall. intros p (i & Hi & ->)%elem_of_grays. apply own_gray. unfold fits. lia. Qed.

Lemma grays_S n : grays (S n) = grays n ++ [gray_name path a (Z.of_nat n)].
Proof. unfold grays. by rewrite seq_S, fmap_app. Qed.

Lemma grays_sub n m : (n <= m)%nat -> grays n ⊆ grays m.
Proof. intros H p (i & Hi & ->)%elem_of_grays. apply elem_of_grays. exists i. split; [lia|done]. Qed.

Lemma gray_fresh n : Z.of_nat n < 2 ^ 64 -> gray_name path a (Z.of_nat n) ∉ grays n.
Proof.
  intros Hn (i & Hi & E)%elem_of_grays. unfold gray_name in E. rewrite !temp_name_text in E by (apply gray_fits; unfold fits; lia).
  apply file_inj, gray_inj in E; lia.
Qed.

Lemma ends_tidy n s : Z.of_nat n <= 2 ^ 64 -> littered made true (grays n) (tree s) ->
  ends (stress_dir_tidy rm_sys path a n) s (fun _ s' => tree s' = made /\ goes_on s s' /\ looks s' = looks s).
Proof.
  intros Hn Hl. eapply ends_mono; [apply ends_remove_all|]. intros _ s' (Ht & Hg & Hk & _). split; [|by split]. rewrite Ht.
  pose proof (own_grays n Hn) as Ho.
  destruct (removes_all made true (fun p => left_by (rmdir p)) (grays n) (grays n) (tree s)) as [E _];
    [|done|done|].
  - intros p t Hp Ht'. eapply rmdir_litter; [done| |exact Hp|exact Ht']. intros q Hq. apply own_leaf; [by eapply Forall_forall in Ho|].
    destruct Hq as [Hq|Hq]; [left|by right]. by eapply Forall_forall in Ho.
  - etransitivity; [exact E|]. eapply littered_deleted; [reflexivity|by apply unused_own|exact Hl].
Qed.

Lemma ends_dir_rounds rounds n s : Z.of_nat n <= 2 ^ 64 -> tree s = made -> (looks s <= cleared)%nat -> (cleared - looks s < rounds)%nat ->
  ends (dir_rounds flag max_ops sys rm_sys path a rounds n) s (fun _ s' => littered made true (grays n) (tree s') /\ goes_on s s').
Proof.
  intros Hn. revert s. induction rounds as [|rounds IH]; intros s Ht Hl Hr; [lia|]. cbn [dir_rounds].
  pose proof (fun m H => unused_own (grays m) (own_grays m H)) as Hu.
  eapply ends_bind.
  { apply (ends_create path a mkdir dir_refuse n (fun i => littered made true (grays i))); [..|done| |done].
    - intros i t Hi Hlit. rewrite grays_S. unfold mkdir.
      destruct (fresh_litter made true (grays i) (gray_name path a (Z.of_nat i)) Dir t) as [-> Hlit']; [..|by eexists].
      + rewrite <- grays_S. apply Hu. lia.
      + apply gray_fresh. lia.
      + done.
      + done.
    - intros i t Hi Hlit. eapply littered_weaken; [| |exact Hlit]; [apply grays_sub; lia|apply Hu; lia].
    - rewrite Ht. apply littered_base, Hu. lia. }
  intros [abort m] s1 (Hg1 & Hm & H1). cbn [fst snd] in *. destruct abort; [by apply ends_ret|]. destruct H1 as [Hlit Hl1].
  eapply ends_bind; [apply ends_tidy; [lia|exact Hlit]|]. intros _ s2 (Ht2 & Hg2 & Hl2).
  assert (littered made true (grays n) made) as Hb by (by apply littered_base, Hu).
  eapply ends_bind; [apply ends_look; lia|]. intros b s3 (Ht3 & Hg3 & Hb3).
  assert (goes_on s s3) as Hg by (eapply goes_on_trans; [exact Hg1|]; by eapply goes_on_trans).
  destruct b; cbn [negb]; [specialize (Hb3 eq_refl)|apply ends_ret; by rewrite Ht3, Ht2].
  eapply ends_bind; [apply ends_keep; lia|]. intros k s4 (Ht4 & Hg4 & Hb4).
  destruct k; [specialize (Hb4 eq_refl)|apply ends_ret; split; [by rewrite Ht4, Ht3, Ht2|by eapply goes_on_trans]].
  pose proof Hg as (_ & _ & ? & _).
  eapply ends_mono; [apply IH; [by rewrite Ht4, Ht3, Ht2|lia|lia]|]. intros _ s5 [H5 Hg5]. split; [done|].
  eapply goes_on_trans; [|exact Hg5]. by eapply goes_on_trans.
Qed.

Lemma ends_stress_dir rounds n s : Z.of_nat n <= 2 ^ 64 -> tree s = t0 -> looks s = 0%nat -> (cleared < rounds)%nat ->
  ends (stress_dir flag max_ops sys rm_sys path a rounds n) s (fun ret s' => tree s' = t0 /\ (quiet -> ret = EXIT_SUCCESS /\ shown s' = shown s)).
Proof.
  intros Hn Ht Hl Hr. unfold stress_dir.
  eapply ends_bind; [apply ends_mk; [done|done|by rewrite Ht]|]. intros ret s1 (Hg1 & Hl1 & [(Hret & Ht1 & Hq)|(-> & _ & Ht1)]).
  { destruct (Z.ltb_spec ret 0); [|lia]. apply ends_ret. split; [congruence|done]. }
  change (0 <? 0) with false. cbv iota. rewrite Ht in Ht1. fold made in Ht1.
  eapply ends_bind; [apply ends_dir_rounds; [done|done|lia|lia]|]. intros _ s2 [Hlit Hg2].
  eapply ends_bind; [by apply ends_tidy|]. intros _ s3 (Ht3 & Hg3 & _).
  eapply ends_bind; [by apply ends_rm_made|]. intros _ s4 [Ht4 Hg4]. apply ends_ret. split; [done|]. intros Hq. split; [done|].
  assert (goes_on s s4) as (_ & _ & _ & H); [|by apply H].
  eapply goes_on_trans; [exact Hg1|]. eapply goes_on_trans; [exact Hg2|]. by eapply goes_on_trans.
Qed.

(** *** dentry *)

Section Dentry.
Variable fuel : nat.
Hypothesis fuel_enough : MAX_DENTRIES <= 2 * Z.of_nat fuel.

(** the order in which all names are visited *)
Definition complete (n : nat) (ord : Z) : Prop := ord = ORDER_FORWARD \/ ord = ORDER_REVERSE \/ no_stride (Z.of_nat n).

Lemma ends_removal_order ord n s : ok_stride (stride s) -> Z.of_nat n <= MAX_DENTRIES ->
  ends (removal_order fuel ord n) s (fun ks s' => tree s' = tree s /\ goes_on s s' /\ looks s' = looks s /\
    Forall (fun k => 0 <= k < Z.of_nat n) ks /\ (complete n ord -> forall k, (k < n)%nat -> Z.of_nat k ∈ ks)).
Proof.
  intros Hs Hn. unfold removal_order, ends. destruct (Z.eqb_spec ord ORDER_REVERSE) as [->|Hr]; [|destruct (Z.eqb_spec ord ORDER_STRIDE) as [->|Hst]].
  - eexists _, _. split; [done|]. split; [done|]. split; [apply goes_on_refl|]. split; [done|]. split.
    + apply Forall_fmap, Forall_seq. intros i Hi. cbn. lia.
    + intros _ k Hk. apply list_elem_of_fmap. exists (n - 1 - k)%nat. rewrite elem_of_seq. lia.
  - destruct (stride_next fuel (Z.of_nat n) (stride s)) as (p & -> & Hp); [done|lia|done|]. cbn [mbind option_bind].
    eexists _, _. split; [done|]. split; [done|]. split; [by split_and!|]. split; [done|]. destruct Hp as (Hp & _ & Hb). unfold MAX_DENTRIES in Hn. split.
    + rewrite strides_nth by (unfold first_stride in Hb; nia). apply Forall_fmap, Forall_seq. intros i Hi. cbn. apply Z.mod_pos_bound. lia.
    + intros [E|[E|Hns]] k Hk; [done|done|]. apply strides_cover; [done|apply Hns; [done|lia]|nia|done].
  - eexists _, _. split; [done|]. split; [done|]. split; [apply goes_on_refl|]. split; [done|]. split.
    + apply Forall_fmap, Forall_seq. intros i Hi. cbn. lia.
    + intros _ k Hk. apply list_elem_of_fmap. exists k. rewrite elem_of_seq. split; [done|lia].
Qed.

Lemma ends_dentry_unlink N n order s : ok_stride (stride s) -> (n <= N)%nat -> Z.of_nat N <= MAX_DENTRIES -> littered made false (grays N) (tree s) ->
  ends (stress_dentry_unlink rm_sys path a fuel n order) s (fun _ s' => goes_on s s' /\ looks s' = looks s /\ littered made false (grays N) (tree s') /\
    (complete N order -> n = N -> tree s' = made)).
Proof.
  intros Hs Hn HN Hl. unfold stress_dentry_unlink.
  eapply (ends_bind _ _ _ _ (fun ord s' => tree s' = tree s /\ goes_on s s' /\ looks s' = looks s /\ (complete N order -> complete N ord))).
  { destruct (Z.eqb_spec order ORDER_RANDOM) as [->|].
    - unfold rand32, ends, mbind, tf_bind. destruct (mwc32 (frng s)) as [v r]. cbn. eexists _, _. split; [done|]. split; [done|].
      split; [by split_and!|]. split; [done|]. intros [E|[E|E]]; [done|done|by right; right].
    - apply ends_ret. split; [done|]. split; [apply goes_on_refl|done]. }
  intros ord s1 (Ht1 & Hg1 & Hl1 & Hc). pose proof Hg1 as (Hs1 & _).
  eapply ends_bind; [apply ends_removal_order; [by apply Hs1|lia]|]. intros ks s2 (Ht2 & Hg2 & Hl2 & Hks & Hall).
  eapply ends_mono; [apply ends_remove_all|]. intros _ s3 (Ht3 & Hg3 & Hl3 & _).
  assert (gray_name path a <$> ks ⊆ grays N) as Hsub.
  { intros p (k & -> & Hk)%list_elem_of_fmap. eapply Forall_forall in Hks; [|exact Hk]. apply elem_of_grays. exists (Z.to_nat k).
    rewrite Z2Nat.id by lia. split; [lia|done]. }
  assert (unused made (grays N)) as Hu by (apply unused_own, own_grays; unfold MAX_DENTRIES in HN; lia).
  destruct (removes_all made false (fun p => left_by (unlink p)) (grays N) (gray_name path a <$> ks) (tree s2)) as [E Hl'];
    [intros p t Hp Ht'; by eapply (unlink_litter made false (grays N))|done|by rewrite Ht2, Ht1|]. rewrite <- Ht3 in E, Hl'.
  split; [eapply goes_on_trans; [exact Hg1|]; by eapply goes_on_trans|]. split; [lia|]. split; [done|].
  intros Hcomp ->. rewrite E. eapply (littered_deleted made false (grays N)); [| |by rewrite Ht2, Ht1].
  - intros p (i & Hi & ->)%elem_of_grays. apply list_elem_of_fmap_2, Hall; [by apply Hc|done].
  - intros p Hp. by apply Hu, Hsub.
Qed.

Lemma ends_dentry_rounds rounds n order s : ok_stride (stride s) -> Z.of_nat n <= MAX_DENTRIES -> littered made false (grays n) (tree s) ->
  (looks s <= cleared)%nat -> (cleared - looks s < rounds)%nat ->
  ends (dentry_rounds flag max_ops sys rm_sys path a fuel rounds n order) s (fun _ s' => littered made false (grays n) (tree s') /\ goes_on s s').
Proof.
  intros Hs Hn. revert s Hs. induction rounds as [|rounds IH]; intros s Hs Hlit Hl Hr; [lia|]. cbn [dentry_rounds].
  eapply ends_bind.
  { apply (ends_create path a creat dentry_refuse n (fun _ => littered made false (grays n))); [|done|done|done|done].
    intros i t Hi Ht. apply creat_litter; [done| |done]. apply elem_of_grays. by exists i. }
  intros [abort m] s1 (Hg1 & Hm & H1). cbn [fst snd] in *. destruct abort; [by apply ends_ret|]. destruct H1 as [Hlit1 Hl1].
  pose proof Hg1 as (Hs1 & _ & ? & _).
  eapply ends_bind; [apply (ends_dentry_unlink n); [by apply Hs1|lia|lia|done]|]. intros _ s2 (Hg2 & Hl2 & Hlit2 & _).
  eapply ends_bind; [apply ends_look; lia|]. intros b s3 (Ht3 & Hg3 & Hb3).
  assert (goes_on s s3) as Hg by (eapply goes_on_trans; [exact Hg1|]; by eapply goes_on_trans).
  destruct b; cbn [negb]; [specialize (Hb3 eq_refl)|apply ends_ret; by rewrite Ht3].
  eapply ends_bind; [apply ends_keep; lia|]. intros k s4 (Ht4 & Hg4 & Hb4).
  destruct k; [specialize (Hb4 eq_refl)|apply ends_ret; split; [by rewrite Ht4, Ht3|by eapply goes_on_trans]].
  pose proof (goes_on_trans _ _ _ Hg Hg4) as Hg'. pose proof Hg' as (Hs4 & _ & ? & _).
  eapply ends_mono; [apply IH; [by apply Hs4|by rewrite Ht4, Ht3|lia|lia]|]. intros _ s5 [H5 Hg5]. split; [done|].
  by eapply goes_on_trans.
Qed.

Lemma ends_stress_dentry rounds n order s : ok_stride (stride s) -> Z.of_nat n <= MAX_DENTRIES -> complete n order ->
  tree s = t0 -> looks s = 0%nat -> (cleared < rounds)%nat ->
  ends (stress_dentry flag max_ops sys rm_sys path a fuel rounds n order) s (fun ret s' =>
    tree s' = t0 /\ (quiet -> ret = EXIT_SUCCESS /\ shown s' = shown s)).
Proof.
  intros Hs Hn Hc Ht Hl Hr. unfold stress_dentry.
  eapply ends_bind; [apply ends_mk; [done|done|by rewrite Ht]|]. intros ret s1 (Hg1 & Hl1 & [(Hret & Ht1 & Hq)|(-> & _ & Ht1)]).
  { destruct (Z.ltb_spec ret 0); [|lia]. apply ends_ret. split; [congruence|done]. }
  change (0 <? 0) with false. cbv iota. rewrite Ht in Ht1. fold made in Ht1. pose proof Hg1 as (Hs1 & _).
  eapply ends_bind.
  { apply (ends_dentry_rounds rounds n order); [by apply Hs1|done| |lia|lia]. rewrite Ht1.
    apply littered_base, unused_own, own_grays. unfold MAX_DENTRIES in Hn. lia. }
  intros _ s2 [Hlit Hg2]. pose proof Hg2 as (Hs2 & _).
  eapply ends_bind; [apply (ends_dentry_unlink n); [by apply Hs2, Hs1|lia|lia|done]|]. intros _ s3 (Hg3 & _ & _ & Ht3).
  eapply ends_bind; [apply ends_rm_made; by apply Ht3|]. intros _ s4 [Ht4 Hg4]. apply ends_ret. split; [done|]. intros Hq. split; [done|].
  assert (goes_on s s4) as (_ & _ & _ & H); [|by apply H].
  eapply goes_on_trans; [exact Hg1|]. eapply goes_on_trans; [exact Hg2|]. by eapply goes_on_trans.
Qed.
End Dentry.

(** *** link and symlink *)

Abbreviation oldpath := (temp_name path a (u64 (-1))).

Definition linked : gmap string node := <[oldpath := File]> made.
Definition links (n : nat) : list string := (fun i => temp_name path a (Z.of_nat i)) <$> seq 0 n.

Lemma elem_of_links n p : p ∈ links n <-> exists i, (i < n)%nat /\ p = temp_name path a (Z.of_nat i).
Proof.
  unfold links. rewrite list_elem_of_fmap. setoid_rewrite elem_of_seq. split.
  - intros (i & -> & Hi). exists i. split; [lia|done].
  - intros (i & Hi & ->). exists i. split; [done|lia].
Qed.

Lemma links_S n : links (S n) = links n ++ [temp_name path a (Z.of_nat n)].
Proof. unfold links. by rewrite seq_S, fmap_app. Qed.

Lemma link_unlink_links n : stress_link_unlink rm_sys path a n = unlink_all rm_sys (links n).
Proof. done. Qed.

Lemma link_fits i : (i < DEFAULT_LINKS)%nat -> fits 64 (Z.of_nat i).
Proof. unfold DEFAULT_LINKS, fits. lia. Qed.

Lemma link_not_old i : (i < DEFAULT_LINKS)%nat -> temp_name path a (Z.of_nat i) <> oldpath.
Proof.
  intros Hi E. rewrite !temp_name_text in E by (done || by apply link_fits). apply file_inj in E. revert E.
  change (u64 (-1)) with 18446744073709551615. unfold DEFAULT_LINKS in Hi. lia.
Qed.

Lemma old_not_link n : (n <= DEFAULT_LINKS)%nat -> oldpath ∉ links n.
Proof. intros Hn (i & Hi & E)%elem_of_links. symmetry in E. apply link_not_old in E; [done|lia]. Qed.

Lemma link_fresh n : (n < DEFAULT_LINKS)%nat -> temp_name path a (Z.of_nat n) ∉ links n.
Proof.
  intros Hn (i & Hi & E)%elem_of_links. rewrite !temp_name_text in E by (apply link_fits; lia). apply file_inj in E. lia.
Qed.

Lemma unused_links n : (n <= DEFAULT_LINKS)%nat -> unused linked (links n).
Proof.
  intros Hn p (i & Hi & ->)%elem_of_links. unfold linked. rewrite lookup_insert_ne by (intros E; symmetry in E; apply link_not_old in E; [done|lia]).
  apply own_free, own_temp_name, link_fits. lia.
Qed.

(** the names of the links are no longer than that of the file *)
Lemma link_length i : (i < DEFAULT_LINKS)%nat -> (String.length (temp_name path a (Z.of_nat i)) <= String.length oldpath)%nat.
Proof.
  intros Hi. rewrite !temp_name_text by (done || by apply link_fits). destruct (file_text path (ta_name a) (ta_pid a) (ta_instance a)) as (stem & E).
  rewrite !E, !length_string_app.
  assert (String.length (show_Z (Z.of_nat i)) <= 13)%nat by (apply (length_show_Z _ 12); unfold DEFAULT_LINKS in Hi; lia).
  change (String.length (show_Z (u64 (-1)))) with 20%nat. lia.
Qed.

Lemma old_length : (String.length oldpath <= PATH_MAX - 1)%nat.
Proof. rewrite temp_name_text by done. assert (fits 64 (u64 (-1))) as Hf by done. pose proof (names_short _ Hf). lia. Qed.

Lemma ends_read_back i rc s : (i < DEFAULT_LINKS)%nat -> tree s !! temp_name path a (Z.of_nat i) = Some (Link oldpath) ->
  ends (read_back sys oldpath (temp_name path a (Z.of_nat i)) rc) s (fun r s' =>
    tree s' = tree s /\ goes_on s s' /\ looks s' = looks s /\ (quiet -> r = (rc, temp_name path a (Z.of_nat i)))).
Proof.
  intros Hi Hl. unfold read_back, ends. rewrite Hl. destruct (sys (calls s)) as [e|] eqn:Es.
  - eexists _, _. split; [done|]. cbn [tree looks]. split; [done|]. assert (~ quiet) as Hq by (intros Hq; by rewrite (quiet_sys Hq) in Es).
    split; [|done]. split_and!; try done. cbn. lia.
  - rewrite (substring_all _ oldpath) by apply old_length. rewrite Nat.eqb_refl. cbn [negb]. rewrite (substring_all _ oldpath) by lia.
    rewrite bool_decide_true by done. rewrite substring_all by by apply link_length.
    eexists _, _. split; [done|]. split; [done|]. split; [|done]. split_and!; try done; [cbn; lia|]. intros _. cbn. by rewrite app_nil_r.
Qed.

Section Links.
Variable linkfunc : string -> string -> gmap string node -> Z + gmap string node.
Variable funcname : string.
Variable is_symlink : bool.
Hypothesis links_made : forall new t, t !! new = None -> t !! oldpath = Some File ->
  linkfunc oldpath new t = inr (<[new := if is_symlink then Link oldpath else File]> t).

Lemma ends_make_links todo i rc s : (i + todo = DEFAULT_LINKS)%nat -> littered linked false (links i) (tree s) -> (looks s <= cleared)%nat ->
  ends (make_links flag max_ops sys path a linkfunc funcname is_symlink oldpath todo i rc) s (fun r s' =>
    goes_on s s' /\ (r.1.2 <= DEFAULT_LINKS)%nat /\ (quiet -> r.2 = rc) /\
    if r.1.1 then littered linked false (links DEFAULT_LINKS) (tree s') else littered linked false (links r.1.2) (tree s') /\ (looks s' <= cleared)%nat).
Proof.
  revert i rc s. induction todo as [|todo IH]; intros i rc s Ht HI Hl; cbn [make_links].
  { apply ends_ret. cbn. split; [apply goes_on_refl|]. split; [lia|done]. }
  assert (i < DEFAULT_LINKS)%nat as Hi by lia.
  assert (linkfunc oldpath (temp_name path a (Z.of_nat i)) (tree s) = inr (<[temp_name path a (Z.of_nat i) := if is_symlink then Link oldpath else File]> (tree s)) /\
    littered linked false (links (S i)) (<[temp_name path a (Z.of_nat i) := if is_symlink then Link oldpath else File]> (tree s))) as [Ef Hlit].
  { destruct (fresh_litter linked false (links i) (temp_name path a (Z.of_nat i)) (if is_symlink then Link oldpath else File) (tree s)) as [Hn Hlit];
      [rewrite <- links_S; by apply unused_links|by apply link_fresh|by destruct is_symlink|done|]. rewrite links_S. split; [|done].
    apply links_made; [done|]. destruct HI as [-> _]; [|apply old_not_link; lia]. unfold linked. apply lookup_insert_eq. }
  eapply ends_bind; [apply ends_call|]. intros err s1 (Hg1 & _ & Hl1 & Hc). rewrite Ef in Hc. destruct Hc as [(e & -> & Et & He)|[-> [= Et]]].
  { assert (~ quiet) as Hq by (intros Hq; destruct He as [He|He]; [by rewrite (quiet_sys Hq) in He|done]).
    eapply ends_bind; [by apply ends_show|]. intros _ s2 (Ht2 & Hg2 & Hl2 & _). apply ends_ret. cbn.
    split; [by eapply goes_on_trans|]. split; [lia|]. split; [done|]. split; [by rewrite Ht2, Et|lia]. }
  eapply (ends_bind _ _ _ _ (fun r s' => tree s' = tree s1 /\ goes_on s1 s' /\ looks s' = looks s1 /\ (quiet -> r = (rc, temp_name path a (Z.of_nat i))))).
  { destruct is_symlink; [apply ends_read_back; [done|by rewrite <- Et; apply lookup_insert_eq]|]. apply ends_ret. split; [done|]. split; [apply goes_on_refl|done]. }
  intros [rc' newpath] s2 (Ht2 & Hg2 & Hl2 & Hr2).
  eapply ends_bind; [apply ends_call|]. intros err s3 (Hg3 & _ & Hl3 & Hc).
  eapply (ends_bind _ _ _ _ (fun rc'' s' => tree s' = tree s1 /\ goes_on s3 s' /\ looks s' = looks s3 /\ (quiet -> rc'' = rc))).
  { unfold lstat in Hc. destruct Hc as [(e & -> & Et3 & He)|[-> Et3]].
    - assert (~ quiet) as Hq.
      { intros Hq. destruct He as [He|He]; [by rewrite (quiet_sys Hq) in He|]. injection (Hr2 Hq) as -> ->.
        by rewrite Ht2, <- Et, lookup_insert_eq in He. }
      eapply ends_bind; [by apply ends_show|]. intros _ s4 (Ht4 & Hg4 & Hl4 & _). apply ends_ret. split; [congruence|]. by split_and!.
    - apply ends_ret. split; [destruct (tree s2 !! newpath); [injection Et3 as <-; done|done]|]. split; [apply goes_on_refl|]. split; [done|].
      intros Hq. by injection (Hr2 Hq) as -> _. }
  intros rc'' s4 (Ht4 & Hg4 & Hl4 & Hr4).
  assert (goes_on s s4) as Hg by (eapply goes_on_trans; [exact Hg1|]; eapply goes_on_trans; [exact Hg2|]; by eapply goes_on_trans).
  eapply ends_bind; [apply ends_keep; lia|]. intros b s5 (Ht5 & Hg5 & Hb). destruct b; cbn [negb].
  - eapply ends_bind; [apply ends_count|]. intros _ s6 (Ht6 & Hg6 & Hl6 & _). specialize (Hb eq_refl).
    eapply ends_mono; [apply IH; [lia|by rewrite Ht6, Ht5, Ht4, <- Et|lia]|]. intros r s7 (Hg7 & Hn & Hr & H). split; [|split; [done|split; [|done]]].
    + eapply goes_on_trans; [exact Hg|]. eapply goes_on_trans; [exact Hg5|]. by eapply goes_on_trans.
    + intros Hq. by rewrite Hr, Hr4.
  - apply ends_ret. cbn. split; [by eapply goes_on_trans|]. split; [lia|]. split; [done|]. rewrite Ht5, Ht4, <- Et.
    eapply littered_weaken; [|by apply unused_links|exact Hlit]. intros p (j & Hj & ->)%elem_of_links. apply elem_of_links. exists j. split; [lia|done].
Qed.

Lemma ends_link_rounds rounds rc s : tree s = linked -> (looks s <= cleared)%nat -> (cleared - looks s < rounds)%nat ->
  ends (link_rounds flag max_ops sys rm_sys path a linkfunc funcname is_symlink rounds oldpath rc) s (fun rc' s' =>
    littered linked false (links DEFAULT_LINKS) (tree s') /\ goes_on s s' /\ (quiet -> rc' = rc)).
Proof.
  revert rc s. induction rounds as [|rounds IH]; intros rc s Ht Hl Hr; [lia|]. cbn [link_rounds].
  eapply ends_bind; [apply ends_make_links; [done|rewrite Ht; apply littered_base, unused_links; lia|done]|].
  intros [[abort m] rc1] s1 (Hg1 & Hm & Hr1 & H1). cbn [fst snd] in *. destruct abort; [by apply ends_ret|]. destruct H1 as [Hlit Hl1].
  rewrite link_unlink_links. eapply ends_bind; [eapply (ends_unlink linked); [reflexivity|by apply unused_links|exact Hlit]|]. intros _ s2 (Ht2 & Hg2 & Hl2).
  assert (littered linked false (links DEFAULT_LINKS) linked) as Hb by (by apply littered_base, unused_links).
  eapply ends_bind; [apply ends_keep; lia|]. intros k s3 (Ht3 & Hg3 & Hb3).
  assert (goes_on s s3) as Hg by (eapply goes_on_trans; [exact Hg1|]; by eapply goes_on_trans).
  destruct k; [specialize (Hb3 eq_refl)|apply ends_ret; by rewrite Ht3, Ht2]. pose proof Hg as (_ & _ & ? & _). destruct Hg1 as (_ & _ & ? & _).
  eapply ends_mono; [apply IH; [by rewrite Ht3, Ht2|lia|lia]|]. intros rc4 s4 (H4 & Hg4 & Hr4). split; [done|]. split; [by eapply goes_on_trans|].
  intros Hq. by rewrite Hr4, Hr1.
Qed.

Lemma ends_stress_link rounds s : tree s = t0 -> looks s = 0%nat -> (cleared < rounds)%nat ->
  ends (stress_link_generic flag max_ops sys rm_sys path a linkfunc funcname is_symlink rounds) s (fun ret s' =>
    tree s' = t0 /\ (quiet -> ret = EXIT_SUCCESS /\ shown s' = shown s)).
Proof.
  intros Ht Hl Hr. unfold stress_link_generic.
  eapply ends_bind; [apply ends_mk; [done|done|by rewrite Ht]|]. intros ret s1 (Hg1 & Hl1 & [(Hret & Ht1 & Hq)|(-> & _ & Ht1)]).
  { destruct (Z.ltb_spec ret 0); [|lia]. apply ends_ret. split; [congruence|done]. }
  change (0 <? 0) with false. cbv iota zeta. rewrite Ht in Ht1. fold made in Ht1.
  eapply ends_bind; [apply ends_call|]. intros err s2 (Hg2 & _ & Hl2 & Hc).
  assert (made !! oldpath = None) as Ho by (by apply own_free, own_temp_name).
  rewrite Ht1 in Hc. unfold creat in Hc. rewrite Ho in Hc. rewrite decide_False in Hc by done.
  destruct Hc as [(e & -> & Ht2 & He)|[-> [= Ht2]]].
  { assert (~ quiet) as Hq by (intros Hq; destruct He as [He|He]; [by rewrite (quiet_sys Hq) in He|done]).
    eapply ends_bind; [by apply ends_show|]. intros _ s3 (Ht3 & Hg3 & _).
    eapply ends_bind; [apply ends_rm_made; congruence|]. intros _ s4 [Ht4 _]. by apply ends_ret. }
  fold linked in Ht2.
  eapply ends_bind; [apply ends_link_rounds; [done|lia|lia]|]. intros rc s3 (Hlit & Hg3 & Hrc).
  rewrite link_unlink_links. eapply ends_bind; [eapply (ends_unlink linked); [reflexivity|by apply unused_links|exact Hlit]|]. intros _ s4 (Ht4 & Hg4 & _).
  eapply ends_bind; [apply ends_remove|]. intros _ s5 (Ht5 & Hg5 & _ & _).
  assert (tree s5 = made) as Hm.
  { rewrite Ht5, Ht4. unfold left_by, unlink, linked. rewrite lookup_insert_eq. rewrite decide_False by done. by rewrite delete_insert_id. }
  eapply ends_bind; [by apply ends_rm_made|]. intros _ s6 [Ht6 Hg6]. apply ends_ret. split; [done|]. intros Hq. split; [by apply Hrc|].
  assert (goes_on s s6) as (_ & _ & _ & H); [|by apply H].
  eapply goes_on_trans; [exact Hg1|]. eapply goes_on_trans; [exact Hg2|]. eapply goes_on_trans; [exact Hg3|].
  eapply goes_on_trans; [exact Hg4|]. by eapply goes_on_trans.
Qed.
End Links.
End Instance.

End Ends.

(** ** What is touched when removals fail, too *)

Section Touched.
Variable flag : nat -> bool.
Variable max_ops : Z.
Variable sys rm_sys : nat -> option Z.
Variable cleared : nat.
Hypothesis flag_cleared : flag cleared = false.
Variable path : string.
Variable a : temp_args.
Hypothesis names_short : short path (ta_name a) (ta_pid a) (ta_instance a).

Abbreviation D := (temp_dir_text path (ta_name a) (ta_pid a) (ta_instance a)).

(** the directory of the instance and what is in it *)
Definition inside (p : string) : Prop := p = D \/ below D p = true.

Definition touched (t t' : gmap string node) : Prop := forall p, ~ inside p -> t' !! p = t !! p.
Definition keeps_outside (f : gmap string node -> Z + gmap string node) : Prop := forall t t', f t = inr t' -> touched t t'.

Definition stays (s s' : fstate) : Prop := touched (tree s) (tree s') /\ (looks s <= looks s')%nat.

Lemma stays_refl s : stays s s.
Proof. by split. Qed.
Lemma stays_trans s1 s2 s3 : stays s1 s2 -> stays s2 s3 -> stays s1 s3.
Proof. intros [H1 H2] [H3 H4]. split; [|lia]. intros p Hp. by rewrite H3, H1. Qed.

Lemma inside_name m : fits 64 m -> inside (temp_name path a m).
Proof. intros Hm. right. unfold temp_name, stress_temp_filename_args. rewrite short_file by done. apply file_below. Qed.

Lemma insert_outside p x : inside p -> forall t, touched t (<[p := x]> t).
Proof. intros Hp t q Hq. apply lookup_insert_ne. by intros ->. Qed.

Lemma delete_outside p : inside p -> forall t, touched t (delete p t).
Proof. intros Hp t q Hq. apply lookup_delete_ne. by intros ->. Qed.

Lemma mkdir_outside p : inside p -> keeps_outside (mkdir p).
Proof. intros Hp t t'. unfold mkdir. destruct (t !! p); [done|]. intros [= <-]. by apply insert_outside. Qed.
Lemma creat_outside p : inside p -> keeps_outside (creat p).
Proof. intros Hp t t'. unfold creat. case_decide; [done|]. intros [= <-]. by apply insert_outside. Qed.
Lemma link_outside old p : inside p -> keeps_outside (link old p).
Proof. intros Hp t t'. unfold link. destruct (t !! p), (t !! old); try done. intros [= <-]. by apply insert_outside. Qed.
Lemma symlink_outside old p : inside p -> keeps_outside (symlink old p).
Proof. intros Hp t t'. unfold symlink. destruct (t !! p); [done|]. intros [= <-]. by apply insert_outside. Qed.
Lemma lstat_outside p : keeps_outside (lstat p).
Proof. intros t t'. unfold lstat. destruct (t !! p); [|done]. by intros [= <-]. Qed.
Lemma unlink_outside p : inside p -> keeps_outside (unlink p).
Proof. intros Hp t t'. unfold unlink. destruct (t !! p); [|done]. case_decide; [done|]. intros [= <-]. by apply delete_outside. Qed.
Lemma rmdir_outside p : inside p -> keeps_outside (rmdir p).
Proof. intros Hp t t'. unfold rmdir. destruct (t !! p) as [[]|]; try done. destruct (empty_dir p t); [|done]. intros [= <-]. by apply delete_outside. Qed.

Lemma stays_call f s : keeps_outside f -> ends (call sys f) s (fun _ s' => stays s s' /\ looks s' = looks s).
Proof.
  intros Hf. eapply ends_mono; [apply (ends_call sys True)|]. intros err s' ((_ & _ & Hl & _) & _ & El & Hc). split; [|done]. split; [|done].
  destruct Hc as [(e & _ & -> & _)|[_ E]]; [done|]. by eapply Hf.
Qed.

Lemma stays_remove f s : keeps_outside f -> ends (remove rm_sys f) s (fun _ s' => stays s s' /\ looks s' = looks s).
Proof.
  intros Hf. unfold ends, remove. destruct (rm_sys (removals s)); [eexists _, _; by repeat split|].
  destruct (f (tree s)) as [e|t] eqn:E; eexists _, _; (split; [done|]); [by repeat split|]. split; [|done]. split; [by eapply Hf|done].
Qed.

Lemma stays_remove_all rm ps s : (forall p, inside p -> keeps_outside (rm p)) -> Forall inside ps ->
  ends (remove_all rm_sys rm ps) s (fun _ s' => stays s s' /\ looks s' = looks s).
Proof.
  intros Hrm H. revert s. induction H as [|p ps Hp _ IH]; intros s; cbn [remove_all]; [apply ends_ret; split; [apply stays_refl|done]|].
  eapply ends_bind; [by apply stays_remove, Hrm|]. intros _ s1 [Hs1 Hl1]. eapply ends_mono; [apply IH|]. intros _ s2 [Hs2 Hl2].
  split; [by eapply stays_trans|lia].
Qed.

Lemma stays_show msgs s : ends (show msgs) s (fun _ s' => stays s s' /\ looks s' = looks s).
Proof. eexists _, _. by repeat split. Qed.
Lemma stays_count s : ends count_op s (fun _ s' => stays s s' /\ looks s' = looks s).
Proof. eexists _, _. by repeat split. Qed.

Lemma stays_keep s : (looks s <= cleared)%nat ->
  ends (keep flag max_ops) s (fun b s' => stays s s' /\ (b = true -> looks s < looks s' <= cleared)%nat).
Proof.
  intros Hl. eapply ends_mono; [by apply (ends_keep flag max_ops cleared flag_cleared True)|]. intros b s' (Ht & (_ & _ & H & _) & Hb).
  split; [|done]. split; [by rewrite Ht|done].
Qed.
Lemma stays_look s : (looks s <= cleared)%nat ->
  ends (look flag) s (fun b s' => stays s s' /\ (b = true -> looks s < looks s' <= cleared)%nat).
Proof.
  intros Hl. eapply ends_mono; [by apply (ends_look flag cleared flag_cleared True)|]. intros b s' (Ht & (_ & _ & H & _) & Hb).
  split; [|done]. split; [by rewrite Ht|done].
Qed.

Lemma stays_mk s : ends (temp_dir_mk_args sys path a) s (fun _ s' => stays s s' /\ looks s' = looks s).
Proof.
  unfold temp_dir_mk_args, temp_dir_mk. rewrite short_dir by done. eapply ends_bind; [apply stays_call, mkdir_outside; by left|].
  intros answer s1 [Hs1 Hl1]. destruct (stress_temp_dir_mk _ _ _ _ _) as [ret msgs].
  eapply ends_bind; [apply stays_show|]. intros _ s2 [Hs2 Hl2]. apply ends_ret. split; [by eapply stays_trans|lia].
Qed.

Lemma stays_rm s : ends (temp_dir_rm_args rm_sys path a) s (fun _ s' => stays s s').
Proof.
  unfold temp_dir_rm_args, temp_dir_rm. rewrite short_dir by (done || lia). eapply ends_bind; [apply stays_remove, rmdir_outside; by left|].
  intros answer s1 [Hs1 _]. destruct (stress_temp_dir_rm _ _ _ _ _) as [ret msgs].
  eapply ends_mono; [apply stays_show|]. intros _ s2 [Hs2 _]. by eapply stays_trans.
Qed.

(** *** dir *)

Lemma inside_gray i : fits 64 i -> inside (gray_name path a i).
Proof. intros Hi. apply inside_name. by apply gray_fits. Qed.

Lemma stays_create make refuse total todo i s : (forall p, inside p -> keeps_outside (make p)) -> Z.of_nat total <= 2 ^ 64 ->
  (i + todo = total)%nat -> (looks s <= cleared)%nat ->
  ends (create flag max_ops sys path a make refuse todo i) s (fun r s' => stays s s' /\ (r.2 <= total)%nat /\ (r.1 = false -> looks s' <= cleared)%nat).
Proof.
  intros Hm Hb. revert i s. induction todo as [|todo IH]; intros i s Hi Hl; cbn [create].
  { apply ends_ret. cbn. split; [apply stays_refl|]. lia. }
  eapply ends_bind; [apply stays_call, Hm, inside_gray; unfold fits; lia|]. intros err s1 [Hs1 Hl1].
  destruct (err ≫= refuse) as [msgs|].
  - eapply ends_bind; [apply stays_show|]. intros _ s2 [Hs2 Hl2]. apply ends_ret. cbn. split; [by eapply stays_trans|]. lia.
  - eapply ends_bind; [apply stays_keep; lia|]. intros b s2 [Hs2 Hb2]. destruct b; cbn [negb].
    + specialize (Hb2 eq_refl). eapply ends_bind; [apply stays_count|]. intros _ s3 [Hs3 Hl3].
      eapply ends_mono; [apply IH; lia|]. intros r s4 (Hs4 & H). split; [|done].
      eapply stays_trans; [exact Hs1|]. eapply stays_trans; [exact Hs2|]. by eapply stays_trans.
    + apply ends_ret. cbn. split; [by eapply stays_trans|]. split; [lia|done].
Qed.

Lemma stays_tidy n s : Z.of_nat n <= 2 ^ 64 -> ends (stress_dir_tidy rm_sys path a n) s (fun _ s' => stays s s' /\ looks s' = looks s).
Proof.
  intros Hn. apply stays_remove_all; [apply rmdir_outside|]. apply Forall_fmap, Forall_seq. intros i Hi. apply inside_gray. unfold fits. lia.
Qed.

Lemma stays_dir_rounds rounds n s : Z.of_nat n <= 2 ^ 64 -> (looks s <= cleared)%nat -> (cleared - looks s < rounds)%nat ->
  ends (dir_rounds flag max_ops sys rm_sys path a rounds n) s (fun _ s' => stays s s').
Proof.
  intros Hn. revert s. induction rounds as [|rounds IH]; intros s Hl Hr; [lia|]. cbn [dir_rounds].
  eapply ends_bind; [by apply (stays_create mkdir dir_refuse n); [apply mkdir_outside|..]|].
  intros [abort m] s1 (Hs1 & Hm & H1). cbn [fst snd] in *. destruct abort; [by apply ends_ret|]. specialize (H1 eq_refl).
  eapply ends_bind; [apply stays_tidy; lia|]. intros _ s2 [Hs2 Hl2].
  eapply ends_bind; [apply stays_look; lia|]. intros b s3 [Hs3 Hb3].
  assert (stays s s3) as Hs by (eapply stays_trans; [exact Hs1|]; by eapply stays_trans).
  destruct b; cbn [negb]; [specialize (Hb3 eq_refl)|by apply ends_ret].
  eapply ends_bind; [apply stays_keep; lia|]. intros k s4 [Hs4 Hb4].
  destruct k; [specialize (Hb4 eq_refl)|apply ends_ret; by eapply stays_trans]. pose proof Hs as [_ ?].
  eapply ends_mono; [apply IH; lia|]. intros ? s5 Hs5. eapply stays_trans; [exact Hs|]. by eapply stays_trans.
Qed.

Lemma stays_stress_dir rounds n s : Z.of_nat n <= 2 ^ 64 -> looks s = 0%nat -> (cleared < rounds)%nat ->
  ends (stress_dir flag max_ops sys rm_sys path a rounds n) s (fun _ s' => touched (tree s) (tree s')).
Proof.
  intros Hn Hl Hr. unfold stress_dir. eapply ends_bind; [apply stays_mk|]. intros ret s1 [Hs1 Hl1].
  destruct (ret <? 0); [apply ends_ret; by destruct Hs1|].
  eapply ends_bind; [apply stays_dir_rounds; lia|]. intros ? s2 Hs2.
  eapply ends_bind; [by apply stays_tidy|]. intros _ s3 [Hs3 _]. eapply ends_bind; [apply stays_rm|]. intros ? s4 Hs4. apply ends_ret.
  assert (stays s s4) as [H _]; [|done]. eapply stays_trans; [exact Hs1|]. eapply stays_trans; [exact Hs2|]. by eapply stays_trans.
Qed.

(** *** link and symlink *)

Abbreviation oldpath := (temp_name path a (u64 (-1))).

Lemma stays_unlink n s : (n <= DEFAULT_LINKS)%nat -> ends (stress_link_unlink rm_sys path a n) s (fun _ s' => stays s s' /\ looks s' = looks s).
Proof.
  intros Hn. apply stays_remove_all; [apply unlink_outside|]. apply Forall_fmap, Forall_seq. intros i Hi. apply inside_name, link_fits. lia.
Qed.

Lemma stays_read_back old new rc s : ends (read_back sys old new rc) s (fun _ s' => stays s s' /\ looks s' = looks s).
Proof.
  unfold ends, read_back. destruct (sys (calls s)), (tree s !! new) as [[]|];
    eexists _, _; (split; [done|]); (split; [|done]); (split; [by intros p Hp|done]).
Qed.

Section Links.
Variable linkfunc : string -> string -> gmap string node -> Z + gmap string node.
Variable funcname : string.
Variable is_symlink : bool.
Hypothesis linkfunc_outside : forall old p, inside p -> keeps_outside (linkfunc old p).

Lemma stays_make_links todo i rc s : (i + todo = DEFAULT_LINKS)%nat -> (looks s <= cleared)%nat ->
  ends (make_links flag max_ops sys path a linkfunc funcname is_symlink oldpath todo i rc) s (fun r s' =>
    stays s s' /\ (r.1.2 <= DEFAULT_LINKS)%nat /\ (r.1.1 = false -> looks s' <= cleared)%nat).
Proof.
  revert i rc s. induction todo as [|todo IH]; intros i rc s Hi Hl; cbn [make_links].
  { apply ends_ret. cbn. split; [apply stays_refl|]. lia. }
  eapply ends_bind; [apply stays_call, linkfunc_outside, inside_name, link_fits; lia|]. intros [err|] s1 [Hs1 Hl1].
  { eapply ends_bind; [apply stays_show|]. intros _ s2 [Hs2 Hl2]. apply ends_ret. cbn. split; [by eapply stays_trans|]. lia. }
  eapply (ends_bind _ _ _ _ (fun _ s' => stays s1 s' /\ looks s' = looks s1)).
  { destruct is_symlink; [apply stays_read_back|]. apply ends_ret. split; [apply stays_refl|done]. }
  intros [rc' newpath] s2 [Hs2 Hl2]. eapply ends_bind; [apply stays_call, lstat_outside|]. intros err s3 [Hs3 Hl3].
  eapply (ends_bind _ _ _ _ (fun _ s' => stays s3 s' /\ looks s' = looks s3)).
  { destruct err; [|apply ends_ret; split; [apply stays_refl|done]]. eapply ends_bind; [apply stays_show|]. intros ? s4 H4. by apply ends_ret. }
  intros rc'' s4 [Hs4 Hl4].
  assert (stays s s4) as Hs by (eapply stays_trans; [exact Hs1|]; eapply stays_trans; [exact Hs2|]; by eapply stays_trans).
  eapply ends_bind; [apply stays_keep; lia|]. intros b s5 [Hs5 Hb]. destruct b; cbn [negb].
  - specialize (Hb eq_refl). eapply ends_bind; [apply stays_count|]. intros _ s6 [Hs6 Hl6].
    eapply ends_mono; [apply IH; lia|]. intros r s7 [Hs7 H7]. split; [|done].
    eapply stays_trans; [exact Hs|]. eapply stays_trans; [exact Hs5|]. by eapply stays_trans.
  - apply ends_ret. cbn. split; [by eapply stays_trans|]. split; [lia|done].
Qed.

Lemma stays_link_rounds rounds rc s : (looks s <= cleared)%nat -> (cleared - looks s < rounds)%nat ->
  ends (link_rounds flag max_ops sys rm_sys path a linkfunc funcname is_symlink rounds oldpath rc) s (fun _ s' => stays s s').
Proof.
  revert rc s. induction rounds as [|rounds IH]; intros rc s Hl Hr; [lia|]. cbn [link_rounds].
  eapply ends_bind; [by apply stays_make_links|]. intros [[abort m] rc1] s1 (Hs1 & Hm & H1). cbn [fst snd] in *.
  destruct abort; [by apply ends_ret|]. specialize (H1 eq_refl).
  eapply ends_bind; [by apply stays_unlink|]. intros _ s2 [Hs2 Hl2].
  eapply ends_bind; [apply stays_keep; lia|]. intros k s3 [Hs3 Hb3].
  assert (stays s s3) as Hs by (eapply stays_trans; [exact Hs1|]; by eapply stays_trans).
  destruct k; [specialize (Hb3 eq_refl)|by apply ends_ret]. pose proof Hs1 as [_ ?].
  eapply ends_mono; [apply IH; lia|]. intros ? s4 Hs4. by eapply stays_trans.
Qed.

Lemma stays_stress_link rounds s : looks s = 0%nat -> (cleared < rounds)%nat ->
  ends (stress_link_generic flag max_ops sys rm_sys path a linkfunc funcname is_symlink rounds) s (fun _ s' => touched (tree s) (tree s')).
Proof.
  intros Hl Hr. unfold stress_link_generic. eapply ends_bind; [apply stays_mk|]. intros ret s1 [Hs1 Hl1].
  destruct (ret <? 0); [apply ends_ret; by destruct Hs1|]. cbv zeta.
  eapply ends_bind; [by apply stays_call, creat_outside, inside_name|]. intros [err|] s2 [Hs2 Hl2].
  { eapply ends_bind; [apply stays_show|]. intros _ s3 [Hs3 _]. eapply ends_bind; [apply stays_rm|]. intros ? s4 Hs4. apply ends_ret.
    assert (stays s s4) as [H _]; [|done]. eapply stays_trans; [exact Hs1|]. eapply stays_trans; [exact Hs2|]. by eapply stays_trans. }
  eapply ends_bind; [apply stays_link_rounds; lia|]. intros rc s3 Hs3.
  eapply ends_bind; [by apply stays_unlink|]. intros _ s4 [Hs4 _].
  eapply ends_bind; [by apply stays_remove, unlink_outside, inside_name|]. intros _ s5 [Hs5 _].
  eapply ends_bind; [apply stays_rm|]. intros ? s6 Hs6. apply ends_ret.
  assert (stays s s6) as [H _]; [|done]. eapply stays_trans; [exact Hs1|]. eapply stays_trans; [exact Hs2|]. eapply stays_trans; [exact Hs3|].
  eapply stays_trans; [exact Hs4|]. by eapply stays_trans.
Qed.
End Links.
End Touched.

(** ** dir, link, symlink and dentry *)

Section Tidied.
Variable flag : nat -> bool.
Variable max_ops : Z.
Variable sys rm_sys : nat -> option Z.
Variable path : string.
Variable a : temp_args.

Abbreviation D := (temp_dir_text path (ta_name a) (ta_pid a) (ta_instance a)).

(** no other call fails, and there is no directory of the name yet *)
Definition undisturbed (s : fstate) : Prop := (forall n, sys n = None) /\ tree s !! D = None.

(** the files are as they were, and when nothing disturbed the stressor it has nothing to report *)
Definition tidied (s : fstate) (ret : Z) (s' : fstate) : Prop :=
  tree s' = tree s /\ (undisturbed s -> ret = EXIT_SUCCESS /\ shown s' = shown s).

Hypothesis sys_pos : forall n e, sys n = Some e -> 0 < e.
Hypothesis names_short : short path (ta_name a) (ta_pid a) (ta_instance a).

(** when something of that name is there already, nothing is done *)
Lemma ends_occupied (k : tf Z) s x : tree s !! D = Some x ->
  ends (ret ← temp_dir_mk_args sys path a; if ret <? 0 then mret (exit_status (- ret)) else k) s (tidied s).
Proof.
  intros Hx. eapply (ends_bind _ _ _ _ (fun ret s' => ret < 0 /\ tree s' = tree s)).
  - unfold temp_dir_mk_args. eapply ends_mono; [apply (ends_mk sys False); try done|].
    intros ret s' (_ & _ & [(H1 & H2 & _)|(_ & H & _)]); [done|congruence].
  - intros ret s' [Hr Ht]. destruct (Z.ltb_spec ret 0); [|lia]. apply ends_ret. split; [done|]. intros [_ Hn]. congruence.
Qed.

Hypothesis rm_none : forall k, rm_sys k = None.

Lemma dir_tidied cleared n s : flag cleared = false -> Z.of_nat n <= 2 ^ 64 -> closed D (tree s) -> looks s = 0%nat ->
  ends (stress_dir flag max_ops sys rm_sys path a (S cleared) n) s (tidied s).
Proof.
  intros Hf Hn Hc Hl. destruct (tree s !! D) as [x|] eqn:E; [by eapply ends_occupied|].
  eapply ends_stress_dir; [exact Hf|exact rm_none|by intros [H _]|done..|lia].
Qed.

Lemma link_tidied cleared linkfunc funcname is_symlink s :
  flag cleared = false -> closed D (tree s) -> looks s = 0%nat ->
  (forall new t, t !! new = None -> t !! temp_name path a (u64 (-1)) = Some File ->
    linkfunc (temp_name path a (u64 (-1))) new t = inr (<[new := if is_symlink : bool then Link (temp_name path a (u64 (-1))) else File]> t)) ->
  ends (stress_link_generic flag max_ops sys rm_sys path a linkfunc funcname is_symlink (S cleared)) s (tidied s).
Proof.
  intros Hf Hc Hl Hlink. destruct (tree s !! D) as [x|] eqn:E; [by eapply ends_occupied|].
  eapply ends_stress_link; [exact Hf|exact rm_none|by intros [H _]|done..|lia].
Qed.
End Tidied.

(** (C28) Whatever calls fail, [unlink()] and [rmdir()] included, and whenever the flag is cleared, the dir, link and symlink stressors
    come to their end, and touch nothing outside their temporary directory.  If none of the [unlink()] and [rmdir()] of theirs
    fails for a reason of the system ([rm_sys]), whatever other calls fail, the file system is then as they found it: no name of theirs
    is left; their answers are not looked at, so that otherwise names are left behind without a word.  When no call fails
    and their directory was not there before, they succeed and report nothing.  It is assumed that the paths fit in [PATH_MAX], that there are at most
    [MAX_DIR_DIRS] directories, that error numbers are positive, and that nothing lies below a directory that is not there. *)
Theorem directories_tidied flag max_ops sys rm_sys path a cleared n stressor s :
  stressor ∈ [(fun rounds => stress_dir flag max_ops sys rm_sys path a rounds n); stress_link flag max_ops sys rm_sys path a;
    stress_symlink flag max_ops sys rm_sys path a] ->
  Z.of_nat n <= MAX_DIR_DIRS -> flag cleared = false -> (forall k e, sys k = Some e -> 0 < e) ->
  short path (ta_name a) (ta_pid a) (ta_instance a) -> closed (temp_dir_text path (ta_name a) (ta_pid a) (ta_instance a)) (tree s) -> looks s = 0%nat ->
  exists ret s', stressor (S cleared) s = Some (ret, s') /\ touched path a (tree s) (tree s') /\
    ((forall k, rm_sys k = None) -> tidied sys path a s ret s').
Proof.
  intros Hin Hn Hf Hp Hs Hc Hl.
  assert (forall m : tf Z, ends m s (fun _ s' => touched path a (tree s) (tree s')) -> ((forall k, rm_sys k = None) -> ends m s (tidied sys path a s)) ->
    exists ret s', m s = Some (ret, s') /\ touched path a (tree s) (tree s') /\ ((forall k, rm_sys k = None) -> tidied sys path a s ret s')) as Hboth.
  { intros m (ret & s' & E & Ht) Hr. exists ret, s'. split; [done|]. split; [done|]. intros H. destruct (Hr H) as (r & s'' & E' & H').
    rewrite E in E'. by injection E' as <- <-. }
  repeat (apply elem_of_cons in Hin as [-> | Hin]); [| | |by apply elem_of_nil in Hin]; apply Hboth.
  - eapply stays_stress_dir; [exact Hf|done| |done|lia]. unfold MAX_DIR_DIRS in Hn. lia.
  - intros Hrm. apply dir_tidied; try done. unfold MAX_DIR_DIRS in Hn. lia.
  - eapply stays_stress_link; [exact Hf|done|apply link_outside|done|lia].
  - intros Hrm. apply link_tidied; try done. intros new t H1 H2. unfold link. by rewrite H1, H2.
  - eapply stays_stress_link; [exact Hf|done|apply symlink_outside|done|lia].
  - intros Hrm. apply link_tidied; try done. intros new t H1 H2. unfold symlink. by rewrite H1.
Qed.

Definition demo_temp : temp_args := TempArgs "stress-ng-dir" 4711 0.
Definition demo_files (t : gmap string node) : fstate := Fstate t 0 0 0 [] first_stride mwc_init 0.

Lemma demo_short inst : 0 <= inst < 2 -> short "." (ta_name demo_temp) (ta_pid demo_temp) inst.
Proof.
  intros Hi m Hm. unfold temp_filename_text, temp_dir_text. rewrite !length_string_app.
  assert (String.length (show_Z m) <= 64)%nat by (apply (length_show_Z m 63); exact Hm).
  assert (String.length (show_Z inst) <= 1)%nat by (apply (length_show_Z inst 0); exact Hi).
  unfold PATH_MAX. cbn. lia.
Qed.

Lemma directories_tidied_witness : exists ret s',
  stress_symlink (fun k => k <? 3)%nat 0 (fun k => if (k =? 9)%nat then Some ENOMEM else None) (fun _ => None) "." demo_temp 4 (demo_files {["other" := File]}) = Some (ret, s') /\
  tree s' = {["other" := File]}.
Proof.
  destruct (directories_tidied (fun k => k <? 3)%nat 0 (fun k => if (k =? 9)%nat then Some ENOMEM else None) (fun _ => None) "." demo_temp 3 0
    (stress_symlink (fun k => k <? 3)%nat 0 (fun k => if (k =? 9)%nat then Some ENOMEM else None) (fun _ => None) "." demo_temp)
    (demo_files {["other" := File]})) as (ret & s' & E & _ & Ht); [do 2 right; left|done|done| |by apply demo_short| |done|].
  - intros k e. by destruct (k =? 9)%nat; [intros [= <-]|].
  - intros q [x Hx] Hb. cbn [demo_files tree] in Hx. apply lookup_singleton_Some in Hx as [<- _]. done.
  - exists ret, s'. split; [exact E|]. destruct (Ht (fun _ => eq_refl)) as [Htree _]. exact Htree.
Defined.

(** An [rmdir()] that fails each time leaves its directory and the temporary directory behind; only the latter
    is reported, and the stressor succeeds. *)
Theorem removal_failure_leaves :
  exists s', stress_dir (fun k => k <? 2)%nat 0 (fun _ => None) (fun _ => Some ENOMEM) "." demo_temp 3 1 (demo_files ∅) = Some (EXIT_SUCCESS, s') /\
    shown s' = ["stress-ng-dir: rmdir ./tmp-stress-ng-dir-4711-0"] /\ 
    tree s' !! "./tmp-stress-ng-dir-4711-0" = Some Dir /\ tree s' !! "./tmp-stress-ng-dir-4711-0/stress-ng-dir-4711-0-0" = Some Dir.
Proof. vm_compute. eexists. done. Qed.

(** When no [unlink()] and no [rmdir()] fails for a reason of the system, the dentry stressor comes to its end and leaves the file system as it found it,
    whatever other calls fail, whenever the flag is cleared and whatever the order of removal, unless names are
    removed in strides and a prime that can become the stride divides the number of entries. *)
Theorem dentries_tidied flag max_ops sys rm_sys path a fuel cleared n order s :
  (forall k, rm_sys k = None) ->
  order = ORDER_FORWARD \/ order = ORDER_REVERSE \/ no_stride (Z.of_nat n) ->
  Z.of_nat n <= MAX_DENTRIES -> MAX_DENTRIES <= 2 * Z.of_nat fuel -> ok_stride (stride s) ->
  flag cleared = false -> (forall k e, sys k = Some e -> 0 < e) ->
  short path (ta_name a) (ta_pid a) (ta_instance a) -> closed (temp_dir_text path (ta_name a) (ta_pid a) (ta_instance a)) (tree s) -> looks s = 0%nat ->
  exists ret s', stress_dentry flag max_ops sys rm_sys path a fuel (S cleared) n order s = Some (ret, s') /\ tidied sys path a s ret s'.
Proof.
  intros Hrm Ho Hn Hfu Hst Hf Hp Hs Hc Hl.
  destruct (tree s !! temp_dir_text path (ta_name a) (ta_pid a) (ta_instance a)) as [x|] eqn:E; [by eapply ends_occupied|].
  eapply (ends_stress_dentry flag max_ops sys rm_sys cleared Hf Hrm (undisturbed sys path a s)); [by intros [H _]|done..|lia].
Qed.

Lemma no_stride_2048 : no_stride 2048.
Proof.
  intros q Hq Hb Hd. change 2048 with (2 ^ 11) in Hd. unfold first_stride in Hb.
  assert ((q | 2)) as H2; [|apply Z.divide_pos_le in H2; lia].
  revert Hd. change 11 with (Z.of_nat 11). generalize 11%nat as k. induction k as [|k IH]; intros Hd.
  - apply Z.divide_1_r_nonneg in Hd; lia.
  - rewrite Nat2Z.inj_succ, Z.pow_succ_r in Hd by lia. apply prime_mult in Hd as [H|H]; [done|by apply IH|done].
Qed.

Lemma first_stride_ok : ok_stride first_stride.
Proof. split; [apply prime_of_check; [done|by vm_compute]|done]. Qed.

Lemma dentries_tidied_witness : exists ret s',
  stress_dentry (fun k => k <? 5000)%nat 0 (fun k => if (k =? 2)%nat then Some ENOSPC else None) (fun _ => None) "." demo_temp (Z.to_nat 500000) (S 5000)
    (Z.to_nat DEFAULT_DENTRIES) ORDER_RANDOM (demo_files ∅) = Some (ret, s') /\ tree s' = ∅.
Proof.
  destruct (dentries_tidied (fun k => k <? 5000)%nat 0 (fun k => if (k =? 2)%nat then Some ENOSPC else None) (fun _ => None) "." demo_temp (Z.to_nat 500000) 5000
    (Z.to_nat DEFAULT_DENTRIES) ORDER_RANDOM (demo_files ∅)) as (ret & s' & E & Ht & _).
  - done.
  - right; right. exact no_stride_2048.
  - done.
  - rewrite Z2Nat.id by lia. done.
  - exact first_stride_ok.
  - apply Nat.ltb_irrefl.
  - intros k e. by destruct (k =? 2)%nat; [intros [= <-]|].
  - by apply demo_short.
  - intros q [x Hx]. done.
  - done.
  - exists ret, s'. split; [exact E|exact Ht].
Defined.

(** With 2018 entries, which the first stride divides, the removal in strides visits two names only:
    the directory is not empty when it is to be removed, and both are left behind. *)
Theorem dentry_stride_leaves :
  exists s', stress_dentry (fun k => k <? 2)%nat 0 (fun _ => None) (fun _ => None) "." demo_temp 0 3 2018 ORDER_STRIDE (demo_files ∅) = Some (EXIT_SUCCESS, s') /\
    shown s' = ["stress-ng-dir: rmdir ./tmp-stress-ng-dir-4711-0"] /\
    map_to_list (tree s') = [("./tmp-stress-ng-dir-4711-0/stress-ng-dir-4711-0-3", File);
      ("./tmp-stress-ng-dir-4711-0/stress-ng-dir-4711-0-1", File); ("./tmp-stress-ng-dir-4711-0", Dir)].
Proof. vm_compute. eexists. done. Qed.

(** ** rename *)

Lemma dirs_apart path name pid i j : 0 <= i -> 0 <= j -> i <> j ->
  temp_dir_text path name pid i <> temp_dir_text path name pid j /\ below (temp_dir_text path name pid i) (temp_dir_text path name pid j) = false.
Proof.
  intros Hi Hj Hn. assert (exists stem, forall k, temp_dir_text path name pid k = stem +:+ show_Z k) as (stem & E).
  { exists (path +:+ "/tmp-" +:+ name +:+ "-" +:+ show_Z pid +:+ "-"). intros k. unfold temp_dir_text. by rewrite !string_app_assoc. }
  rewrite !E. split; [intros H%string_app_cancel%show_Z_inj; done|]. by apply digits_not_below, show_Z_digits.
Qed.

Lemma closed_insert d e t : below d e = false -> closed d t -> d <> e -> closed d (<[e := Dir]> t).
Proof.
  intros He Hc Hn q [x Hx] Hb. rewrite lookup_insert_ne by done. apply lookup_insert_Some in Hx as [[<- _]|[_ Hx]]; [congruence|].
  eapply Hc; [by eexists|done].
Qed.

Section Rename.
Variable flag : nat -> bool.
Variable max_ops : Z.
Variable sys rm_sys : nat -> option Z.
Variable cleared last : nat.
Variable quiet : Prop.
Variable path : string.
Variable a : temp_args.
Variable inst1 inst2 : Z.
Variable t0 : gmap string node.

Abbreviation D := (temp_dir_text path (ta_name a) (ta_pid a)).
Abbreviation F := (temp_filename_text path (ta_name a) (ta_pid a)).

Hypothesis flag_cleared : flag cleared = false.
Hypothesis quiet_sys : quiet -> forall n, sys n = None.
Hypothesis rm_none : forall k, rm_sys k = None.
Hypothesis sys_last : forall n, (last <= n)%nat -> sys n = None.
Hypothesis short1 : short path (ta_name a) (ta_pid a) inst1.
Hypothesis short2 : short path (ta_name a) (ta_pid a) inst2.
Hypothesis inst_apart : 0 <= inst1 /\ 0 <= inst2 /\ inst1 <> inst2.
Hypothesis free1 : t0 !! D inst1 = None.
Hypothesis free2 : t0 !! D inst2 = None.
Hypothesis closed1 : closed (D inst1) t0.
Hypothesis closed2 : closed (D inst2) t0.

Definition both : gmap string node := <[D inst2 := Dir]> (<[D inst1 := Dir]> t0).
Definition renamed (p : string) : Prop := exists inst m, (inst = inst1 \/ inst = inst2) /\ p = F inst m.

Lemma renamed_free p : renamed p -> both !! p = None.
Proof.
  destruct inst_apart as (H1 & H2 & H12). intros (inst & m & Hi & ->).
  assert (t0 !! F inst m = None) as E0.
  { destruct (t0 !! F inst m) eqn:E; [|done]. destruct Hi as [-> | ->].
    - rewrite (closed1 (F inst1 m)) in free1; [done|by eexists|apply file_below].
    - rewrite (closed2 (F inst2 m)) in free2; [done|by eexists|apply file_below]. }
  assert (forall j, 0 <= j -> D j <> F inst m) as Hne.
  { intros j Hj E. destruct (Z.eq_dec inst j) as [<-|Hn]; [symmetry in E; by apply file_not_dir in E|].
    destruct (dirs_apart path (ta_name a) (ta_pid a) inst j) as [_ Hb]; [destruct Hi; lia|done|done|].
    rewrite E, file_below in Hb. done. }
  unfold both. by rewrite !lookup_insert_ne by (by apply Hne).
Qed.

Lemma rename_name_text second i : fits 64 i ->
  renamed (rename_name path a (if second : bool then inst2 else inst1) i).
Proof.
  intros Hi. unfold rename_name. destruct second; rewrite short_file by done; eexists _, _; (split; [|done]); by auto.
Qed.

(** the files in the loop: the one that is renamed, if there is one *)
Definition loop_tree (oldname : option string) (t : gmap string node) : Prop :=
  match oldname with None => t = both | Some o => renamed o /\ t = <[o := File]> both end.

Lemma unlink_free p t : t !! p = None -> left_by (unlink p) t = t.
Proof. intros H. unfold left_by, unlink. by rewrite H. Qed.

Lemma unlink_renamed o p : renamed o -> renamed p -> left_by (unlink p) (left_by (unlink o) (<[o := File]> both)) = both.
Proof.
  intros Ho Hp. assert (left_by (unlink o) (<[o := File]> both) = both) as ->; [|by apply unlink_free, renamed_free].
  unfold left_by, unlink. rewrite lookup_insert_eq, decide_False by done. by apply delete_insert_id, renamed_free.
Qed.

Lemma ends_renames fuel second oldname i s :
  fits 64 i -> loop_tree oldname (tree s) -> (looks s <= cleared)%nat ->
  (2 * (last - calls s) + (cleared - looks s) + (if oldname is None then 1 else 0) < fuel)%nat ->
  ends (renames flag max_ops sys rm_sys path a fuel inst1 inst2 second oldname i) s (fun r s' =>
    goes_on quiet s s' /\ match r with
      | inl _ => tree s' = both /\ ~ quiet
      | inr (o, n) => renamed o /\ renamed n /\ tree s' = <[o := File]> both
      end).
Proof.
  revert second oldname i s. induction fuel as [|fuel IH]; intros second oldname i s Hi Ht Hl Hf; [lia|]. cbn [renames].
  assert (forall j, fits 64 (u64 j)) as Hu by (intros j; apply u64_fits).
  destruct oldname as [o|]; cbn [loop_tree] in Ht.
  - destruct Ht as [Ho Ht]. set (new := rename_name path a (if second then inst2 else inst1) i).
    assert (renamed new) as Hnew by (by apply rename_name_text).
    assert (rename o new (tree s) = inr (<[new := File]> both)) as Er.
    { unfold rename. rewrite Ht, lookup_insert_eq. rewrite decide_False.
      - by rewrite delete_insert_id by by apply renamed_free.
      - intros [[_ E]|[_ E]]%lookup_insert_Some; [done|]. by rewrite renamed_free in E. }
    eapply ends_bind; [apply (ends_call sys quiet)|]. intros err s1 (Hg1 & Hc1 & Hl1 & Hc). rewrite Er in Hc.
    destruct Hc as [(e & -> & Et & He)|[-> [= Et]]].
    + assert (calls s < last)%nat as Hlast.
      { destruct He as [He|He]; [|done]. apply not_ge. intros H. rewrite sys_last in He by lia. done. }
      eapply ends_bind; [apply (ends_remove_all rm_sys rm_none quiet)|]. intros _ s2 (Ht2 & Hg2 & Hl2 & Hc2).
      eapply ends_mono; [apply (IH true None)|].
      * apply Hu.
      * cbn. rewrite Ht2, Et, Ht. cbn [foldl]. by apply unlink_renamed.
      * lia.
      * lia.
      * intros r s3 [Hg3 H3]. split; [|done]. eapply goes_on_trans; [exact Hg1|]. by eapply goes_on_trans.
    + eapply ends_bind; [apply (ends_count quiet)|]. intros _ s2 (Ht2 & Hg2 & Hl2 & Hc2).
      eapply ends_bind; [apply (ends_keep flag max_ops cleared flag_cleared quiet); lia|]. intros b s3 (Ht3 & Hg3 & Hb).
      assert (goes_on quiet s s3) as Hg by (eapply goes_on_trans; [exact Hg1|]; by eapply goes_on_trans).
      destruct b; cbn [negb].
      * specialize (Hb eq_refl). pose proof Hg as (_ & ? & ? & _). eapply ends_mono; [apply (IH (negb second) (Some new))|].
        -- apply Hu.
        -- cbn. split; [done|]. by rewrite Ht3, Ht2.
        -- lia.
        -- lia.
        -- intros r s4 [Hg4 H4]. split; [|done]. by eapply goes_on_trans.
      * apply ends_ret. split; [done|]. split; [done|]. split; [done|]. by rewrite Ht3, Ht2.
  - set (o := rename_name path a inst1 i). assert (renamed o) as Ho by (by apply (rename_name_text false)).
    assert (creat o (tree s) = inr (<[o := File]> both)) as Er.
    { unfold creat. rewrite Ht, (renamed_free o Ho). by rewrite decide_False. }
    eapply ends_bind; [apply (ends_call sys quiet)|]. intros err s1 (Hg1 & Hc1 & Hl1 & Hc). rewrite Er in Hc.
    destruct Hc as [(e & -> & Et & He)|[-> [= Et]]].
    + assert (~ quiet) as Hq by (intros Hq; destruct He as [He|He]; [by rewrite (quiet_sys Hq) in He|done]).
      eapply ends_bind; [by apply (ends_show quiet)|]. intros _ s2 (Ht2 & Hg2 & _). apply ends_ret.
      split; [by eapply goes_on_trans|]. split; [congruence|done].
    + eapply ends_mono; [apply (IH true (Some o)); [apply Hu|done|lia|lia]|]. intros r s2 [Hg2 H2]. split; [|done]. by eapply goes_on_trans.
Qed.

(** when the file can be created and every [rename()] fails, the flag is never looked at *)
Lemma renames_forever fuel second oldname i s :
  (forall k, sys (2 * k + 2)%nat = None) -> (forall k, sys (2 * k + 3)%nat <> None) -> fits 64 i -> loop_tree oldname (tree s) ->
  (exists k, calls s = match oldname with None => 2 * k + 2 | Some _ => 2 * k + 3 end)%nat ->
  renames flag max_ops sys rm_sys path a fuel inst1 inst2 second oldname i s = None.
Proof.
  intros Hev Hodd. assert (forall j, fits 64 (u64 j)) as Hu by (intros j; apply u64_fits).
  revert second oldname i s. induction fuel as [|fuel IH]; intros second oldname i s Hi Ht (k & Hk); [done|]. cbn [renames].
  destruct oldname as [o|]; cbn [loop_tree] in Ht.
  - destruct (sys (2 * k + 3)%nat) as [e|] eqn:E; [|by destruct (Hodd k)]. set (new := rename_name path a _ i).
    rewrite (tf_bind_some _ _ _ (Some e) (called s)) by (unfold call; by rewrite Hk, E).
    destruct (ends_remove_all rm_sys rm_none True unlink [o; new] (called s)) as (u & s1 & E1 & Ht1 & _ & _ & Hc1).
    rewrite (tf_bind_some _ _ _ u s1 E1). apply IH; [apply Hu| |exists (S k); rewrite Hc1; cbn; lia].
    cbn. rewrite Ht1. destruct Ht as [Ho Ht]. cbn [called tree foldl]. rewrite Ht. apply unlink_renamed; [done|by apply rename_name_text].
  - unfold mbind, tf_bind, call. rewrite Hk. rewrite Hev, Ht. set (o := rename_name path a inst1 i). assert (renamed o) as Ho by (by apply (rename_name_text false)).
    assert (creat o both = inr (<[o := File]> both)) as ->.
    { unfold creat. rewrite (renamed_free o Ho). by rewrite decide_False. }
    cbn. apply IH; [apply Hu|by split|exists k; cbn; lia].
Qed.

(** the two directories are removed one after the other *)
Lemma ends_rm_both {B} (k : tf B) Q s : tree s = both ->
  (forall s', tree s' = t0 -> goes_on quiet s s' -> ends k s' Q) ->
  ends (temp_dir_rm rm_sys path (ta_name a) (ta_pid a) inst1;; temp_dir_rm rm_sys path (ta_name a) (ta_pid a) inst2;; k) s Q.
Proof.
  destruct inst_apart as (H1 & H2 & H12). intros Ht Hk.
  destruct (dirs_apart path (ta_name a) (ta_pid a) inst1 inst2) as [Hd Hb]; [done..|].
  eapply ends_bind; [apply (ends_rm rm_sys rm_none quiet path (ta_name a) (ta_pid a) inst1 short1 s (<[D inst2 := Dir]> t0))|].
  - rewrite Ht. unfold both. by apply insert_insert_ne.
  - by rewrite lookup_insert_ne.
  - by apply closed_insert.
  - intros _ s1 [Ht1 Hg1]. eapply ends_bind; [by apply (ends_rm rm_sys rm_none quiet path (ta_name a) (ta_pid a) inst2 short2 s1 t0)|].
    intros _ s2 [Ht2 Hg2]. apply Hk; [done|]. by eapply goes_on_trans.
Qed.
End Rename.

Definition rename_dir (path : string) (a : temp_args) (second : Z) : string :=
  temp_dir_text path (ta_name a) (ta_pid a) (u32 (ta_instance a * 2) + second).

Lemma rename_instances i : u32 (u32 (i * 2) + 1) = u32 (i * 2) + 1 /\ 0 <= u32 (i * 2).
Proof. unfold u32. change (2 ^ 32) with 4294967296. Z.to_euclidean_division_equations. lia. Qed.

(** The rename stressor comes to its end, when no [unlink()] and no [rmdir()] fails for a reason of the system and the failures of
    the other calls come to an end, and leaves the file system as it found it, whatever calls fail before and whenever the flag is cleared.  When no call
    fails it succeeds and reports nothing. *)
Theorem renames_tidied flag max_ops sys rm_sys path a cleared last fuel s :
  (forall k, rm_sys k = None) ->
  flag cleared = false -> (forall k e, sys k = Some e -> 0 < e) -> (forall k, (last <= k)%nat -> sys k = None) ->
  (2 * last + cleared + 1 < fuel)%nat -> looks s = 0%nat ->
  (forall second, second ∈ [0; 1] -> short path (ta_name a) (ta_pid a) (u32 (ta_instance a * 2) + second)) ->
  (forall second, second ∈ [0; 1] -> closed (rename_dir path a second) (tree s)) ->
  exists ret s', stress_rename flag max_ops sys rm_sys path a fuel s = Some (ret, s') /\ tree s' = tree s /\
    ((forall k, sys k = None) -> tree s !! rename_dir path a 0 = None -> tree s !! rename_dir path a 1 = None ->
      ret = EXIT_SUCCESS /\ shown s' = shown s).
Proof.
  intros Hrm Hf Hp Hlast Hfuel Hl Hs Hc. pose proof (Hs 0 ltac:(set_solver)) as Hs1. pose proof (Hs 1 ltac:(set_solver)) as Hs2.
  pose proof (Hc 0 ltac:(set_solver)) as Hc1. pose proof (Hc 1 ltac:(set_solver)) as Hc2. clear Hs Hc. unfold rename_dir in *.
  destruct (rename_instances (ta_instance a)) as [Ei Hpos]. rewrite Z.add_0_r in *.
  set (i1 := u32 (ta_instance a * 2)) in *. set (i2 := i1 + 1) in *.
  set (d1 := temp_dir_text path (ta_name a) (ta_pid a) i1) in *. set (d2 := temp_dir_text path (ta_name a) (ta_pid a) i2) in *.
  destruct (dirs_apart path (ta_name a) (ta_pid a) i1 i2) as [Hd _]; [lia..|]. fold d1 d2 in Hd.
  set (quiet := (forall k, sys k = None) /\ tree s !! d1 = None /\ tree s !! d2 = None).
  cut (ends (stress_rename flag max_ops sys rm_sys path a fuel) s (fun ret s' => tree s' = tree s /\ (quiet -> ret = EXIT_SUCCESS /\ shown s' = shown s))).
  { intros (ret & s' & E & Ht & H). exists ret, s'. split; [exact E|]. split; [done|]. intros H1 H2 H3. by apply H. }
  assert (quiet -> forall k, sys k = None) as Hq by (by intros [H _]).
  unfold stress_rename. fold i1 i2. rewrite Ei.
  eapply ends_bind; [apply (ends_mk sys quiet Hq path (ta_name a) (ta_pid a) i1 Hp Hs1 s); by intros (_ & H & _)|].
  intros r1 s1 (Hg1 & Hl1 & [(Hr & Ht1 & Hn)|(-> & Hfree1 & Ht1)]).
  { destruct (Z.ltb_spec r1 0); [|lia]. by apply ends_ret. }
  change (0 <? 0) with false. cbv iota. fold d1 in Hfree1, Ht1.
  eapply ends_bind; [apply (ends_mk sys quiet Hq path (ta_name a) (ta_pid a) i2 Hp Hs2 s1); intros (_ & _ & H); fold d2; by rewrite Ht1, lookup_insert_ne|].
  intros r2 s2 (Hg2 & Hl2 & [(Hr & Ht2 & Hn)|(-> & Hfree2 & Ht2)]).
  { destruct (Z.ltb_spec r2 0); [|lia]. eapply ends_bind; [apply (ends_rm rm_sys Hrm quiet path (ta_name a) (ta_pid a) i1 Hs1 s2 (tree s)); [by rewrite Ht2, Ht1|done|done]|].
    intros _ s3 [Ht3 _]. by apply ends_ret. }
  change (0 <? 0) with false. cbv iota. fold d2 in Hfree2, Ht2. rewrite Ht1, lookup_insert_ne in Hfree2 by done. rewrite Ht1 in Ht2.
  fold d1 d2 in Hc1, Hc2. assert (0 <= i1 /\ 0 <= i2 /\ i1 <> i2) as Hi by lia.
  eapply ends_bind; [apply (ends_renames flag max_ops sys rm_sys cleared last quiet path a i1 i2 (tree s) Hf Hq Hrm Hlast Hs1 Hs2 Hi Hfree1 Hfree2 Hc1 Hc2 fuel true None 0 s2); [done|done|lia|lia]|].
  intros [rc|[o n]] s3 [Hg3 H3].
  - destruct H3 as [Ht3 Hn]. apply (ends_rm_both rm_sys quiet path a i1 i2 (tree s) Hrm Hs1 Hs2 Hi Hfree1 Hfree2 Hc1 Hc2 _ _ s3 Ht3).
    intros s4 Ht4 _. by apply ends_ret.
  - destruct H3 as (Ho & Hnn & Ht3). eapply ends_bind; [apply (ends_remove_all rm_sys Hrm quiet)|]. intros _ s4 (Ht4 & Hg4 & _).
    assert (tree s4 = both path a i1 i2 (tree s)) as Hb4.
    { rewrite Ht4, Ht3. cbn [foldl]. by apply (unlink_renamed path a i1 i2 (tree s) Hi Hfree1 Hfree2 Hc1 Hc2). }
    apply (ends_rm_both rm_sys quiet path a i1 i2 (tree s) Hrm Hs1 Hs2 Hi Hfree1 Hfree2 Hc1 Hc2 _ _ s4 Hb4).
    intros s5 Ht5 Hg5. apply ends_ret. split; [done|]. intros Hqq. split; [done|].
    assert (goes_on quiet s s5) as (_ & _ & _ & H); [|by apply H].
    eapply goes_on_trans; [exact Hg1|]. eapply goes_on_trans; [exact Hg2|]. eapply goes_on_trans; [exact Hg3|]. by eapply goes_on_trans.
Qed.

Lemma renames_tidied_witness : exists ret s',
  stress_rename (fun k => k <? 3)%nat 0 (fun k => if (k =? 4)%nat then Some ENOMEM else None) (fun _ => None) "." demo_temp 20 (demo_files {["other" := File]}) = Some (ret, s') /\
  tree s' = {["other" := File]}.
Proof.
  destruct (renames_tidied (fun k => k <? 3)%nat 0 (fun k => if (k =? 4)%nat then Some ENOMEM else None) (fun _ => None) "." demo_temp 3 5 20
    (demo_files {["other" := File]})) as (ret & s' & E & Ht & _).
  - done.
  - done.
  - intros k e. by destruct (k =? 4)%nat; [intros [= <-]|].
  - intros k Hk. destruct (Nat.eqb_spec k 4); [lia|done].
  - lia.
  - done.
  - intros second H. apply elem_of_cons in H as [-> | ->%list_elem_of_singleton]; by apply demo_short.
  - intros second _ q [x Hx] Hb. cbn [demo_files tree] in Hx. apply lookup_singleton_Some in Hx as [<- _]. done.
  - exists ret, s'. split; [exact E|exact Ht].
Defined.

(** The loop of the rename stressor looks at the flag only after a [rename()] that succeeded: when the
    calls after the first three fail every other time, so that each file can be created and none renamed,
    it never ends, whether or not it is told to stop. *)
Theorem rename_never_ends flag max_ops fuel :
  stress_rename flag max_ops (fun k => if (3 <=? k)%nat && Nat.odd k then Some ENOMEM else None) (fun _ => None) "." demo_temp fuel (demo_files ∅) = None.
Proof.
  set (sys := fun k => if (3 <=? k)%nat && Nat.odd k then Some ENOMEM else None).
  assert (forall k, Nat.odd (2 * k + 2) = false /\ Nat.odd (2 * k + 3) = true) as Hodd.
  { intros k. replace (2 * k + 2)%nat with (2 * (k + 1))%nat by lia. replace (2 * k + 3)%nat with (S (2 * (k + 1))) by lia.
    by rewrite Nat.odd_succ, Nat.odd_even, Nat.even_even. }
  unfold stress_rename. change (u32 (ta_instance demo_temp * 2)) with 0. change (u32 (0 + 1)) with 1. cbv zeta.
  rewrite (tf_bind_some _ _ _ 0 (Fstate {["./tmp-stress-ng-dir-4711-0" := Dir]} 1 0 0 [] first_stride mwc_init 0)) by (by vm_compute).
  change (0 <? 0) with false. cbv iota.
  rewrite (tf_bind_some _ _ _ 0 (Fstate (both "." demo_temp 0 1 ∅) 2 0 0 [] first_stride mwc_init 0)) by (by vm_compute).
  change (0 <? 0) with false. cbv iota. unfold mbind at 1, tf_bind at 1.
  rewrite (renames_forever flag max_ops sys (fun _ => None) "." demo_temp 0 1 ∅); try done; try (by apply demo_short).
  - intros q [x Hx]. done.
  - intros q [x Hx]. done.
  - intros k. unfold sys. destruct (Hodd k) as [-> _]. by rewrite andb_false_r.
  - intros k. unfold sys. destruct (Hodd k) as [_ ->]. destruct (Nat.leb_spec 3 (2 * k + 3)); [done|lia].
  - by exists 0%nat.
Qed.
