(* ===== verification/FileNames.v ===== *)
(** * The file name stressor (stress-filename.c)

    Names of one character, of the largest length, of one less and one more, and of
    other lengths are made in a buffer and tried on the file system.  The buffer keeps its bounds: a
    write outside it is undefined behaviour.  What the system answers to [creat()] is an argument.

    - [filename_no_false_alarm]: on a file system whose names have a largest length and a set
      of characters, nothing is reported, if the largest length leaves room in the buffer.
    - [filename_overruns]: otherwise the buffer is overrun. *)

From S2P Require Import Prelude Limits Mwc CpuDriver Outcome Priority Named Support TempFiles.

Definition STRESS_FILENAME_PROBE : Z := 0.
Definition STRESS_FILENAME_POSIX : Z := 1.
Definition STRESS_FILENAME_EXT : Z := 2.

Definition ENAMETOOLONG : Z := 36.
Definition slash : Z := 47.
Definition dot : Z := 46.
Definition underscore : Z := 95.

Definition codes (s : string) : list Z := code <$> String.list_ascii_of_string s.

Definition posix_allowed : list Z :=
  codes ("ABCDEFGHIJKLMNOPQRSTUVWXYZ" +:+ "abcdefghijklmnopqrstuvwxyz" +:+ "0123456789._-").

Record fnenv := FnEnv {
  fn_mkdir : option Z;                      (** the error of [mkdir()], if it fails *)
  fn_namemax : option Z;                    (** [f_namemax] of [statvfs()], if it succeeds *)
  fn_creat : nat -> list Z -> option Z;     (** the error of the n-th [creat()] on a path, if it fails *)
  fn_flag : nat -> bool;                    (** the flag at each look *)
  fn_max_ops : Z;
  fn_dirname : list Z;                      (** what [stress_temp_dir_args()] writes, without its terminator *)
}.

(** the buffer [filename], the calls and looks so far, the operations, the random numbers, and the reports:
    the length tried and the error *)
Record fnst := FnSt {
  fn_buf : list Z; fn_calls : nat; fn_looks : nat; fn_ops : Z; fn_rng : mwc; fn_fails : list (Z * Z) }.

Section Stressor.
Variable e : fnenv.

Definition poke (k : nat) (v : Z) (buf : list Z) : outcome (list Z) :=
  if (k <? length buf)%nat then Returns (<[k := v]> buf) else Undefined.
(** the string in the buffer *)
Definition cpath (buf : list Z) : outcome (list Z) :=
  if bool_decide (0 ∈ buf) then Returns (take_while (fun c => negb (c =? 0)) buf) else Undefined.

Definition with_buf (buf : list Z) (s : fnst) : fnst := FnSt buf (fn_calls s) (fn_looks s) (fn_ops s) (fn_rng s) (fn_fails s).
Definition with_fn_rng (r : mwc) (s : fnst) : fnst := FnSt (fn_buf s) (fn_calls s) (fn_looks s) (fn_ops s) r (fn_fails s).
Definition fn_fail (len err : Z) (s : fnst) : fnst :=
  FnSt (fn_buf s) (fn_calls s) (fn_looks s) (fn_ops s) (fn_rng s) (fn_fails s ++ [(len, err)]).

(** [creat()] on the string in the buffer; what it made is closed and unlinked again *)
Definition try_creat (s : fnst) : outcome (option Z * fnst) :=
  p ← cpath (fn_buf s);
  Returns (fn_creat e (fn_calls s) p, FnSt (fn_buf s) (S (fn_calls s)) (fn_looks s) (fn_ops s) (fn_rng s) (fn_fails s)).

(** [ptr] is the position [off] in the buffer *)
Fixpoint probe_loop (off : nat) (is_ found : list Z) (s : fnst) : outcome (Z * list Z * fnst) :=
  match is_ with
  | [] => Returns (0, found, s)
  | i :: is_ =>
      if (i =? 0) || (i =? slash) then probe_loop off is_ found s else
      buf ← poke off i (fn_buf s);
      buf ← poke (off + 1) 88 buf;
      buf ← poke (off + 2) 0 buf;
      '(err, s) ← try_creat (with_buf buf s);
      match err with
      | Some err => if negb (err =? EINVAL) then Returns (- err, [], s) else probe_loop off is_ found s
      | None => probe_loop off is_ (found ++ [i]) s
      end
  end.

Definition stress_filename_probe (off : nat) (s : fnst) : outcome (Z * list Z * fnst) :=
  probe_loop off (seqZ 0 256) [] s.

Definition stress_filename_ext : list Z := List.filter (fun i => negb ((i =? 0) || (i =? slash))) (seqZ 0 256).

(** the characters of the name, the first of which is then no dot, and the terminator *)
Fixpoint poke_all (off : nat) (chars : list Z) (buf : list Z) : outcome (list Z) :=
  match chars with
  | [] => Returns buf
  | c :: chars => buf ← poke off c buf; poke_all (S off) chars buf
  end.
Definition name_end (off sz : nat) (buf : list Z) : outcome (list Z) :=
  first ← (match buf !! off with Some c => Returns c | None => Undefined end);
  buf ← (if first =? dot then poke off underscore buf else Returns buf);
  poke (off + sz) 0 buf.

Definition stress_filename_generate (off sz_max : nat) (ch : Z) (s : fnst) : outcome fnst :=
  buf ← poke_all off (replicate sz_max ch) (fn_buf s);
  buf ← name_end off sz_max buf;
  Returns (with_buf buf s).

(** [mwc32() % chars_allowed] picks the characters *)
Fixpoint random_chars (n : nat) (allowed : list Z) (r : mwc) : list Z * mwc :=
  match n with
  | O => ([], r)
  | S n =>
      let '(v, r) := mwc32 r in
      let c := nth (Z.to_nat (v mod Z.of_nat (length allowed))) allowed 0 in
      let '(cs, r) := random_chars n allowed r in
      (c :: cs, r)
  end.

Definition stress_filename_generate_random (off sz_max : nat) (allowed : list Z) (s : fnst) : outcome fnst :=
  let '(cs, r) := random_chars sz_max allowed (fn_rng s) in
  buf ← poke_all off cs (fn_buf s);
  buf ← name_end off sz_max buf;
  Returns (with_fn_rng r (with_buf buf s)).

Definition stress_filename_test (sz_max : nat) (should_pass : bool) (s : fnst) : outcome fnst :=
  '(err, s) ← try_creat s;
  match err with
  | Some err =>
      if negb should_pass && (err =? ENAMETOOLONG) then Returns s else Returns (fn_fail (Z.of_nat sz_max) err s)
  | None => Returns s
  end.

(** both ways of making a name of a length, each tried *)
Definition try_length (off : nat) (allowed : list Z) (ch : Z) (sz : nat) (should_pass : bool) (s : fnst) : outcome fnst :=
  s ← stress_filename_generate off sz ch s;
  s ← stress_filename_test sz should_pass s;
  s ← stress_filename_generate_random off sz allowed s;
  stress_filename_test sz should_pass s.

(** the body of the loop, with its [i] and [sz] *)
Definition filename_round (off sz_max : nat) (allowed : list Z) (i sz : nat) (s : fnst) : outcome (nat * nat * fnst) :=
  let ch := nth i allowed 0 in
  let '(v, r) := mwc32 (fn_rng s) in
  let rnd_sz := S (Z.to_nat (v mod Z.of_nat sz_max)) in
  let s := with_fn_rng r s in
  let i := if (length allowed <=? S i)%nat then 0%nat else S i in
  s ← try_length off allowed ch 1 true s;
  s ← try_length off allowed ch sz_max true s;
  s ← try_length off allowed ch (sz_max - 1) true s;
  s ← try_length off allowed ch (sz_max + 1) false s;
  s ← try_length off allowed ch sz true s;
  s ← try_length off allowed ch rnd_sz true s;
  let sz := if (sz_max <? S sz)%nat then 1%nat else S sz in
  Returns (i, sz, FnSt (fn_buf s) (fn_calls s) (fn_looks s) (u64 (fn_ops s + 1)) (fn_rng s) (fn_fails s)).

(** [None] when the fuel runs out *)
Fixpoint filename_loop (fuel : nat) (off sz_max : nat) (allowed : list Z) (i sz : nat) (s : fnst) : option (outcome fnst) :=
  match fuel with
  | O => None
  | S fuel =>
      match filename_round off sz_max allowed i sz s with
      | Returns (i, sz, s) =>
          let b := fn_flag e (fn_looks s) in
          let s := FnSt (fn_buf s) (fn_calls s) (S (fn_looks s)) (fn_ops s) (fn_rng s) (fn_fails s) in
          if keep_stressing b (fn_max_ops e) (fn_ops s) then filename_loop fuel off sz_max allowed i sz s
          else Some (Returns s)
      | Longjmp c => Some (Longjmp c)
      | Exits st c => Some (Exits st c)
      | Undefined => Some Undefined
      end
  end.

(** [strncpy(filename, dirname, sizeof(filename) - 1)] *)
Definition copy_dirname (buf : list Z) : list Z :=
  let n := (PATH_MAX - 1)%nat in
  take n (fn_dirname e ++ replicate n 0) ++ drop n buf.

(** the largest length that is used *)
Definition filename_sz_max (f_namemax : Z) : nat :=
  let sz_max := if f_namemax =? 0 then 128 else f_namemax in
  Z.to_nat (if Z.of_nat PATH_MAX <? sz_max then Z.of_nat PATH_MAX else sz_max).

(** the characters, or the status to return with *)
Definition filename_chars (filename_opt : Z) (off : nat) (s : fnst) : outcome (Z + list Z * fnst) :=
  '(ret, allowed, s) ←
    (if filename_opt =? STRESS_FILENAME_POSIX then Returns (0, posix_allowed, s)
     else if filename_opt =? STRESS_FILENAME_EXT then Returns (0, stress_filename_ext, s)
     else stress_filename_probe off s);
  if ret <? 0 then Returns (inl (exit_status (- ret)))
  else if (length allowed =? 0)%nat then Returns (inl EXIT_FAILURE)
  else Returns (inr (allowed, s)).

(** the status, whether the directory was removed, and the reports of the tests *)
Definition stress_filename (fuel : nat) (filename_opt : Z) (s : fnst) : option (outcome (Z * bool * list (Z * Z))) :=
  if (if fn_mkdir e is Some err then negb (err =? EEXIST) else false) then Some (Returns (EXIT_FAILURE, false, [])) else
  match fn_namemax e with
  | None => Some (Returns (EXIT_FAILURE, true, []))
  | Some f_namemax =>
      let start :=
        buf ← poke (length (fn_dirname e)) slash (copy_dirname (fn_buf s));
        buf ← poke (S (length (fn_dirname e))) 0 buf;
        filename_chars filename_opt (S (length (fn_dirname e))) (with_buf buf s) in
      let off := S (length (fn_dirname e)) in
      if (PATH_MAX <=? PATH_MAX - off)%nat then Some (Returns (EXIT_FAILURE, true, [])) else
      match start with
      | Returns (inl rc) => Some (Returns (rc, true, []))
      | Returns (inr (allowed, s)) =>
          r ← filename_loop fuel off (filename_sz_max f_namemax) allowed 0 1 s;
          Some (s ← r; Returns (EXIT_SUCCESS, true, fn_fails s))
      | Longjmp c => Some (Longjmp c)
      | Exits st c => Some (Exits st c)
      | Undefined => Some Undefined
      end
  end.
End Stressor.

(** ** Names in the buffer *)

Lemma poke_in k v buf : (k < length buf)%nat -> poke k v buf = Returns (<[k := v]> buf).
Proof. intros H. unfold poke. by rewrite (proj2 (Nat.ltb_lt _ _) H). Qed.

Lemma poke_all_spec off cs buf : (off + length cs <= length buf)%nat ->
  poke_all off cs buf = Returns (take off buf ++ cs ++ drop (off + length cs) buf).
Proof.
  revert off buf. induction cs as [|c cs IH]; intros off buf H; cbn [poke_all length] in *.
  { rewrite Nat.add_0_r. cbn. by rewrite take_drop. }
  unfold poke. destruct (Nat.ltb_spec off (length buf)); [|lia]. cbn [mbind outcome_bind]. rewrite IH by (rewrite length_insert; lia). f_equal.
  rewrite drop_insert_lt by lia. rewrite (take_S_r _ _ c) by (apply list_lookup_insert_eq; lia). rewrite take_insert_ge by lia.
  rewrite <- app_assoc. cbn [app]. do 4 f_equal. lia.
Qed.

(** the first character is no dot *)
Definition undotted (cs : list Z) : list Z :=
  match cs with c :: cs => (if c =? dot then underscore else c) :: cs | [] => [] end.

Lemma length_undotted cs : length (undotted cs) = length cs.
Proof. by destruct cs. Qed.

(** a name with its terminator in the buffer *)
Lemma name_written off cs buf : cs <> [] -> (off + length cs < length buf)%nat ->
  (buf ← poke_all off cs buf; name_end off (length cs) buf) =
    Returns (take off buf ++ undotted cs ++ 0 :: drop (off + length cs + 1) buf).
Proof.
  intros Hc H. destruct cs as [|c cs]; [done|]. rewrite poke_all_spec by lia. cbn [mbind outcome_bind]. unfold name_end.
  set (rest := drop (off + length (c :: cs)) buf). assert (length (take off buf) = off) as Hl by (rewrite length_take; lia).
  assert (exists x rest', rest = x :: rest' /\ rest' = drop (off + length (c :: cs) + 1) buf) as (x & rest' & Er & Er').
  { unfold rest. rewrite <- (drop_drop buf 1 (off + length (c :: cs))). destruct (drop (off + length (c :: cs)) buf) as [|x l] eqn:E; [|by exists x, l].
    apply (f_equal length) in E. rewrite length_drop in E. cbn in E, H. lia. }
  rewrite (lookup_app_r _ _ off) by lia. rewrite Hl, Nat.sub_diag. cbn [app lookup list_lookup mbind outcome_bind].
  assert (forall d, poke (off + length (c :: cs)) 0 (take off buf ++ (d :: cs) ++ rest) =
    Returns (take off buf ++ (d :: cs) ++ 0 :: drop (off + length (c :: cs) + 1) buf)) as Hp.
  { intros d. rewrite <- Er'. unfold poke. rewrite Er, !length_app. cbn [length]. rewrite Hl.
    rewrite (proj2 (Nat.ltb_lt _ _)) by lia.
    f_equal. rewrite insert_app_r_alt by lia. f_equal. rewrite Hl. replace (off + S (length cs) - off)%nat with (length (d :: cs)) by (cbn; lia).
    rewrite insert_app_r_alt by lia. by rewrite Nat.sub_diag. }
  cbn [undotted]. destruct (c =? dot).
  - assert (poke off underscore (take off buf ++ (c :: cs) ++ rest) = Returns (take off buf ++ (underscore :: cs) ++ rest)) as Hd.
    { unfold poke. rewrite !length_app, Hl. cbn [length]. rewrite (proj2 (Nat.ltb_lt _ _)) by lia. f_equal.
      rewrite insert_app_r_alt by lia. by rewrite Hl, Nat.sub_diag. }
    cbn [app] in Hd. rewrite Hd. cbn [mbind outcome_bind]. apply Hp.
  - cbn [mbind outcome_bind]. apply Hp.
Qed.

Lemma cpath_written pre name rest : 0 ∉ pre -> 0 ∉ name -> cpath (pre ++ name ++ 0 :: rest) = Returns (pre ++ name).
Proof.
  intros Hp Hn. unfold cpath. rewrite bool_decide_true by set_solver. f_equal. rewrite app_assoc.
  rewrite take_while_app; [cbn; by rewrite app_nil_r|]. apply Forall_forall. intros x Hx. apply negb_true_iff, Z.eqb_neq. set_solver.
Qed.

(** ** The sets of characters *)

Lemma posix_underscore : underscore ∈ posix_allowed.
Proof. apply (bool_decide_unpack _). by vm_compute. Qed.

Lemma posix_x : 88 ∈ posix_allowed.
Proof. apply (bool_decide_unpack _). by vm_compute. Qed.

Lemma posix_no_slash c : c ∈ posix_allowed -> c <> 0 /\ c <> slash.
Proof.
  assert (forallb (fun c => negb (c =? 0) && negb (c =? slash)) posix_allowed = true) as H by (by vm_compute). rewrite forallb_forall in H.
  intros Hc%list_elem_of_In%H%andb_prop. by rewrite !negb_true_iff, !Z.eqb_neq in Hc.
Qed.

Lemma ext_spec c : c ∈ stress_filename_ext <-> 0 <= c < 256 /\ c <> 0 /\ c <> slash.
Proof.
  unfold stress_filename_ext. rewrite list_elem_of_In, filter_In, <- list_elem_of_In, elem_of_seqZ.
  rewrite negb_true_iff, orb_false_iff, !Z.eqb_neq. lia.
Qed.

(** ** On a file system that keeps to its limits *)

Section Works.
Variable e : fnenv.
Variable okc : Z -> bool.        (** the characters that names may have *)
Variable sz_max : nat.

Abbreviation pre := (fn_dirname e ++ [slash]).
Abbreviation off := (S (length (fn_dirname e))).

(** A name is refused for a character it may not have; otherwise it is accepted unless it is too long. *)
Definition fs_names : Prop := forall k name,
  name <> [] -> name <> [dot] -> name <> [dot; dot] -> 0 ∉ name -> slash ∉ name ->
  (forallb okc name = false -> fn_creat e k (pre ++ name) = Some EINVAL) /\
  (forallb okc name = true -> (length name <= sz_max)%nat -> fn_creat e k (pre ++ name) = None) /\
  (forallb okc name = true -> (sz_max < length name)%nat ->
    fn_creat e k (pre ++ name) = None \/ fn_creat e k (pre ++ name) = Some ENAMETOOLONG).

Hypothesis names_law : fs_names.
Hypothesis dirname_string : 0 ∉ fn_dirname e.
Hypothesis some_room : (off + 3 <= PATH_MAX)%nat.
Hypothesis sz_max_two : (2 <= sz_max)%nat.

Definition good (c : Z) : Prop := okc c = true /\ c <> 0 /\ c <> slash.
Hypothesis underscore_good : good underscore.

Definition prepared (s : fnst) : Prop := length (fn_buf s) = PATH_MAX /\ take off (fn_buf s) = pre.

Lemma undotted_good cs : Forall good cs -> Forall good (undotted cs).
Proof. intros [|c cs' Hc H]; [done|]. constructor; [|done]. by destruct (c =? dot). Qed.

Lemma good_names cs : Forall good cs -> (0 ∉ cs) /\ (slash ∉ cs) /\ forallb okc cs = true.
Proof.
  intros H. split; [|split].
  - intros Hin. by destruct (proj1 (Forall_forall good cs) H _ Hin) as (_ & ? & _).
  - intros Hin. by destruct (proj1 (Forall_forall good cs) H _ Hin) as (_ & _ & ?).
  - apply forallb_forall. intros c Hc%list_elem_of_In. by destruct (proj1 (Forall_forall good cs) H _ Hc).
Qed.

Lemma undotted_no_dots cs : undotted cs <> [dot] /\ undotted cs <> [dot; dot].
Proof. destruct cs as [|c cs]; [done|]. cbn. destruct (Z.eqb_spec c dot); split; intros [=]; done. Qed.

Definition unreported (s s' : fnst) : Prop := fn_fails s' = fn_fails s /\ fn_looks s' = fn_looks s /\ fn_ops s' = fn_ops s.

(** a name written into the buffer and tried *)
Lemma written_passes cs should_pass s : prepared s -> cs <> [] -> Forall good cs -> (off + length cs < PATH_MAX)%nat ->
  ((length cs <= sz_max)%nat \/ should_pass = false) ->
  exists buf, (buf ← poke_all off cs (fn_buf s); name_end off (length cs) buf) = Returns buf /\
    forall r, exists s', stress_filename_test e (length cs) should_pass (with_fn_rng r (with_buf buf s)) = Returns s' /\
      prepared s' /\ unreported s s' /\ fn_rng s' = r.
Proof.
  intros [Hl Ht] Hc Hg Hr Hp. rewrite name_written by (by rewrite ?Hl). rewrite Ht. eexists. split; [done|]. intros r.
  pose proof (undotted_good cs Hg) as (H0 & Hs & Hok)%good_names. destruct (undotted_no_dots cs) as [Hd1 Hd2].
  assert (undotted cs <> []) as Hne by (by destruct cs).
  unfold stress_filename_test, try_creat. cbn [fn_buf fn_calls with_fn_rng with_buf].
  rewrite cpath_written; [|set_solver|done]. cbn [mbind outcome_bind].
  destruct (names_law (fn_calls s) (undotted cs) Hne Hd1 Hd2 H0 Hs) as (_ & Hfit & Hlong). rewrite length_undotted in Hfit, Hlong.
  assert (forall s', fn_buf s' = pre ++ undotted cs ++ 0 :: drop (off + length cs + 1) (fn_buf s) -> prepared s') as Hprep.
  { intros s' E. unfold prepared. rewrite E. split.
    - rewrite !length_app, length_undotted. cbn [length]. rewrite length_drop, Hl. lia.
    - rewrite take_app_le by (rewrite length_app; cbn; lia). apply take_ge. rewrite length_app. cbn. lia. }
  destruct (Nat.le_gt_cases (length cs) sz_max) as [Hle|Hgt].
  - rewrite (Hfit Hok Hle). eexists. split; [done|]. split; [by apply Hprep|done].
  - destruct Hp as [Hp| ->]; [lia|]. destruct (Hlong Hok Hgt) as [-> | ->]; (eexists; split; [done|]); (split; [by apply Hprep|done]).
Qed.

Lemma random_chars_good n allowed r : Forall good allowed -> allowed <> [] ->
  exists cs r', random_chars n allowed r = (cs, r') /\ length cs = n /\ Forall good cs.
Proof.
  intros Ha Hne. revert r. induction n as [|n IH]; intros r; cbn [random_chars]; [by eexists _, _|].
  destruct (mwc32 r) as [v r1]. destruct (IH r1) as (cs & r2 & -> & Hl & Hg). eexists _, _. split; [done|]. cbn. split; [by rewrite Hl|].
  constructor; [|done]. eapply Forall_forall; [exact Ha|]. apply list_elem_of_In, nth_In.
  assert (0 < length allowed)%nat by (destruct allowed; [done|cbn; lia]).
  pose proof (Z.mod_pos_bound v (Z.of_nat (length allowed))). lia.
Qed.

Lemma unreported_trans s1 s2 s3 : unreported s1 s2 -> unreported s2 s3 -> unreported s1 s3.
Proof. intros (? & ? & ?) (? & ? & ?). by split_and!; etransitivity. Qed.

Lemma try_length_passes allowed ch sz should_pass s :
  prepared s -> Forall good allowed -> allowed <> [] -> good ch -> (1 <= sz)%nat -> (off + sz < PATH_MAX)%nat ->
  ((sz <= sz_max)%nat \/ should_pass = false) ->
  exists s', try_length e off allowed ch sz should_pass s = Returns s' /\ prepared s' /\ unreported s s'.
Proof.
  intros Hs Ha Hne Hch H1 Hr Hp. unfold try_length, stress_filename_generate, stress_filename_generate_random.
  destruct (written_passes (replicate sz ch) should_pass s) as (buf & E & H); [done| |by apply Forall_replicate|by rewrite length_replicate..|].
  { destruct sz; [lia|done]. }
  rewrite length_replicate in E, H. destruct (poke_all off (replicate sz ch) (fn_buf s)) as [b| | |]; try done. cbn [mbind outcome_bind] in E |- *.
  rewrite E. cbn [mbind outcome_bind]. destruct (H (fn_rng s)) as (s1 & E1 & Hs1 & Hu1 & _). change (with_fn_rng (fn_rng s) (with_buf buf s)) with (with_buf buf s) in E1.
  rewrite E1. cbn [mbind outcome_bind]. destruct (random_chars_good sz allowed (fn_rng s1)) as (cs & r & -> & Hl & Hg); [done|done|].
  destruct (written_passes cs should_pass s1) as (buf2 & E2 & H2); [done|by intros ->; cbn in Hl; lia|done|by rewrite Hl..|]. rewrite Hl in E2, H2.
  destruct (poke_all off cs (fn_buf s1)) as [b2| | |]; try done. cbn [mbind outcome_bind] in E2 |- *. rewrite E2. cbn [mbind outcome_bind].
  destruct (H2 r) as (s2 & E3 & Hs2 & Hu2 & _). exists s2. split; [exact E3|]. split; [done|by eapply unreported_trans].
Qed.

(** the characters found by probing *)
Hypothesis x_good : good 88.

Lemma probe_finds is_ found s : prepared s -> Forall good found ->
  exists found' s', probe_loop e off is_ found s = Returns (0, found', s') /\ prepared s' /\ unreported s s' /\ Forall good found' /\
    (forall c, c ∈ found \/ c ∈ is_ /\ good c -> c ∈ found').
Proof.
  revert found s. induction is_ as [|i is_ IH]; intros found s Hs Hf; cbn [probe_loop].
  { exists found, s. split; [done|]. split; [done|]. split; [done|]. split; [done|]. intros c [?|[?%elem_of_nil _]]; done. }
  destruct (Z.eqb_spec i 0) as [->|Hi0]; [|destruct (Z.eqb_spec i slash) as [->|His]]; cbn [orb].
  1, 2: destruct (IH found s Hs Hf) as (found' & s' & -> & H1 & H2 & H3 & H4); exists found', s'; (split_and!; [done..|]);
    intros c [?|[[->|?]%elem_of_cons Hg]]; apply H4; [by left|by destruct Hg as (_ & ? & ?)|by right].
  destruct Hs as [Hl Ht]. pose proof (poke_all_spec off [i; 88; 0] (fn_buf s)) as Hp. cbn [poke_all length] in Hp.
  replace (S off) with (off + 1)%nat in Hp by lia. replace (S (off + 1)) with (off + 2)%nat in Hp by lia.
  rewrite Ht in Hp. destruct (poke off i (fn_buf s)) as [b1| | |]; try (specialize (Hp ltac:(lia)); done). cbn [mbind outcome_bind] in Hp |- *.
  destruct (poke (off + 1) 88 b1) as [b2| | |]; try (specialize (Hp ltac:(lia)); done). cbn [mbind outcome_bind] in Hp |- *.
  destruct (poke (off + 2) 0 b2) as [b3| | |]; try (specialize (Hp ltac:(lia)); done). specialize (Hp ltac:(lia)). cbn [mbind outcome_bind] in Hp |- *.
  injection Hp as ->. unfold try_creat. cbn [fn_buf fn_calls with_buf].
  assert (0 ∉ [i; 88]) as H0 by (intros [?|[?|?%elem_of_nil]%elem_of_cons]%elem_of_cons; done).
  match goal with |- context [cpath ?b] => change (cpath b) with (cpath (pre ++ [i; 88] ++ 0 :: drop (off + 3) (fn_buf s))) end.
  rewrite cpath_written; [|set_solver|done]. cbn [mbind outcome_bind].
  set (s1 := FnSt _ _ _ _ _ _). assert (prepared s1 /\ unreported s s1) as [Hs1 U1].
  { split; [|done]. unfold prepared, s1. cbn [fn_buf]. split.
    - rewrite !length_app. cbn [length]. rewrite length_drop. lia.
    - rewrite take_app_le by (rewrite length_app; cbn; lia). apply take_ge. rewrite length_app. cbn. lia. }
  destruct (names_law (fn_calls s) [i; 88]) as (Hbad & Hok & _); [done|done|by intros [= _ ?]|done| |].
  { intros [?|[?|?%elem_of_nil]%elem_of_cons]%elem_of_cons; done. }
  cbn [forallb length] in Hbad, Hok. destruct x_good as (Hx & _). rewrite Hx, !andb_true_r in Hbad, Hok.
  destruct (okc i) eqn:Eo.
  - rewrite Hok by (done || lia). destruct (IH (found ++ [i]) s1 Hs1) as (found' & s' & -> & H1 & H2 & H3 & H4); [by apply Forall_app; split; [|constructor]|].
    exists found', s'. split; [done|]. split; [done|]. split; [by eapply unreported_trans|]. split; [done|].
    intros c [?|[[->|?]%elem_of_cons Hg]]; apply H4; [left; set_solver|left; set_solver|by right].
  - rewrite Hbad by done. change (negb (EINVAL =? EINVAL)) with false. cbv iota.
    destruct (IH found s1 Hs1) as (found' & s' & -> & H1 & H2 & H3 & H4); [done|].
    exists found', s'. split; [done|]. split; [done|]. split; [by eapply unreported_trans|]. split; [done|].
    intros c [?|[[->|?]%elem_of_cons Hg]]; apply H4; [by left|by destruct Hg as (? & _); congruence|by right].
Qed.

(** the characters that the stressor goes on with *)
Hypothesis portable : forall c, c ∈ posix_allowed -> okc c = true.

Lemma chars_found filename_opt s : prepared s ->
  (filename_opt = STRESS_FILENAME_EXT -> forall c, c ∈ stress_filename_ext -> okc c = true) ->
  exists allowed s', filename_chars e filename_opt off s = Returns (inr (allowed, s')) /\
    Forall good allowed /\ allowed <> [] /\ prepared s' /\ unreported s s'.
Proof.
  intros Hs Hext.
  assert (exists allowed s', (if filename_opt =? STRESS_FILENAME_POSIX then Returns (0, posix_allowed, s)
     else if filename_opt =? STRESS_FILENAME_EXT then Returns (0, stress_filename_ext, s)
     else stress_filename_probe e off s) = Returns (0, allowed, s') /\ Forall good allowed /\ underscore ∈ allowed /\ prepared s' /\ unreported s s')
    as (allowed & s' & E & Ha & Hu & Hs' & Hr).
  { destruct (Z.eqb_spec filename_opt STRESS_FILENAME_POSIX) as [->|_]; [|destruct (Z.eqb_spec filename_opt STRESS_FILENAME_EXT) as [->|_]].
    - exists posix_allowed, s. split; [done|]. split; [|split; [apply posix_underscore|done]]. apply Forall_forall. intros c Hc. split; [by apply portable|].
      by apply posix_no_slash.
    - exists stress_filename_ext, s. split; [done|]. split; [|split; [by apply ext_spec|done]]. apply Forall_forall. intros c Hc.
      split; [by apply Hext|]. apply ext_spec in Hc. by destruct Hc as (_ & ? & ?).
    - destruct (probe_finds (seqZ 0 256) [] s) as (found & s' & E & H1 & H2 & H3 & H4); [done|done|]. exists found, s'.
      split; [exact E|]. split; [done|]. split; [|done]. apply H4. right. split; [by apply elem_of_seqZ|done]. }
  unfold filename_chars. rewrite E. cbn [mbind outcome_bind]. change (0 <? 0) with false. cbv iota.
  destruct allowed as [|c allowed]; [by apply elem_of_nil in Hu|]. exists (c :: allowed), s'. by split_and!.
Qed.

(** the buffer before the names are made *)
Lemma buffer_prepared s : length (fn_buf s) = PATH_MAX ->
  exists buf, (buf ← poke (length (fn_dirname e)) slash (copy_dirname e (fn_buf s)); poke off 0 buf) = Returns buf /\
    prepared (with_buf buf s).
Proof.
  intros Hl. set (n := length (fn_dirname e)). assert (n + 3 <= PATH_MAX)%nat as Hn by (unfold n; lia).
  assert (length (copy_dirname e (fn_buf s)) = PATH_MAX /\ take n (copy_dirname e (fn_buf s)) = fn_dirname e) as [Hc Ht].
  { unfold copy_dirname. split; [rewrite length_app, length_take, length_drop, length_app, length_replicate; fold n; lia|].
    rewrite take_app_le by (rewrite length_take, length_app, length_replicate; fold n; lia). rewrite take_take, Nat.min_l by lia.
    rewrite take_app_le by (fold n; lia). apply take_ge. fold n. lia. }
  rewrite poke_in by lia. cbn [mbind outcome_bind]. rewrite poke_in by (rewrite length_insert; lia). eexists. split; [done|]. unfold prepared. cbn [with_buf fn_buf]. rewrite !length_insert. split; [done|].
  rewrite take_insert_ge by lia. fold n. rewrite (take_S_r _ _ slash) by (apply list_lookup_insert_eq; lia). by rewrite take_insert_ge, Ht by lia.
Qed.
(** a name that is one too long fits in the buffer *)
Hypothesis room : (off + sz_max + 2 <= PATH_MAX)%nat.

Lemma round_passes allowed i sz s :
  prepared s -> Forall good allowed -> (i < length allowed)%nat -> (1 <= sz <= sz_max)%nat ->
  exists i' sz' s', filename_round e off sz_max allowed i sz s = Returns (i', sz', s') /\
    prepared s' /\ (i' < length allowed)%nat /\ (1 <= sz' <= sz_max)%nat /\ fn_fails s' = fn_fails s /\ fn_looks s' = fn_looks s.
Proof.
  intros Hs Ha Hi Hsz. unfold filename_round. destruct (mwc32 (fn_rng s)) as [v r].
  assert (good (nth i allowed 0)) as Hch by (eapply Forall_forall; [exact Ha|]; by apply list_elem_of_In, nth_In).
  assert (allowed <> []) as Hne by (intros ->; cbn in Hi; lia). pose proof (Z.mod_pos_bound v (Z.of_nat sz_max)) as Hv.
  set (ch := nth i allowed 0) in *.
  assert (forall n should s0, prepared s0 -> (1 <= n)%nat -> (n <= sz_max)%nat \/ (n = sz_max + 1)%nat /\ should = false ->
    exists s1, try_length e off allowed ch n should s0 = Returns s1 /\ prepared s1 /\ unreported s0 s1) as Htry.
  { intros n should s0 H0 H1 Hn. apply try_length_passes; try done; [|destruct Hn as [?|[_ ->]]; [by left|by right]]. destruct Hn; lia. }
  destruct (Htry 1%nat true (with_fn_rng r s)) as (s1 & -> & H1 & U1); [done|lia|left; lia|]. cbn [mbind outcome_bind].
  destruct (Htry sz_max true s1) as (s2 & -> & H2 & U2); [done|lia|by left|]. cbn [mbind outcome_bind].
  destruct (Htry (sz_max - 1)%nat true s2) as (s3 & -> & H3 & U3); [done|lia|left; lia|]. cbn [mbind outcome_bind].
  destruct (Htry (sz_max + 1)%nat false s3) as (s4 & -> & H4 & U4); [done|lia|by right|]. cbn [mbind outcome_bind].
  destruct (Htry sz true s4) as (s5 & -> & H5 & U5); [done|lia|left; lia|]. cbn [mbind outcome_bind].
  destruct (Htry (S (Z.to_nat (v mod Z.of_nat sz_max))) true s5) as (s6 & -> & H6 & U6); [done|lia|left; lia|]. cbn [mbind outcome_bind].
  eexists _, _, _. split; [done|]. split; [exact H6|]. split; [destruct (Nat.leb_spec (length allowed) (S i)); lia|].
  split; [destruct (Nat.ltb_spec sz_max (S sz)); lia|].
  assert (unreported s s6) as (Hf & Hl & _); [|by split].
  do 5 (eapply unreported_trans; [|eassumption]). exact U1.
Qed.

Lemma loop_passes cleared fuel allowed i sz s :
  fn_flag e cleared = false -> prepared s -> Forall good allowed -> (i < length allowed)%nat -> (1 <= sz <= sz_max)%nat ->
  (fn_looks s <= cleared)%nat -> (cleared - fn_looks s < fuel)%nat ->
  exists s', filename_loop e fuel off sz_max allowed i sz s = Some (Returns s') /\ fn_fails s' = fn_fails s.
Proof.
  intros Hc. revert i sz s. induction fuel as [|fuel IH]; intros i sz s Hs Ha Hi Hsz Hl Hf; [lia|]. cbn [filename_loop].
  destruct (round_passes allowed i sz s) as (i' & sz' & s' & -> & Hs' & Hi' & Hsz' & Hfails & Hlooks); [done..|].
  destruct (keep_stressing (fn_flag e (fn_looks s')) (fn_max_ops e) _) eqn:Ek; [|by eexists].
  assert (fn_looks s' <> cleared) as Hn by (intros E; by rewrite E, Hc in Ek).
  destruct (IH i' sz' (FnSt (fn_buf s') (fn_calls s') (S (fn_looks s')) (fn_ops s') (fn_rng s') (fn_fails s'))) as (s'' & -> & Hf''); try done; cbn [fn_looks]; [lia|lia|].
  exists s''. split; [done|]. by rewrite Hf''.
Qed.

End Works.

(** the start of the stressor, up to its loop *)
Section Start.
Variable e : fnenv.
Variable okc : Z -> bool.
Variable f_namemax filename_opt : Z.
Abbreviation sz_max := (filename_sz_max f_namemax).

(** The system lets the stressor make its directory and says how long names may be; names are
    made of characters among which are the portable ones, or all if they are to be used. *)
Record fs_ok : Prop := {
  fs_namemax : fn_namemax e = Some f_namemax;
  fs_mkdir : fn_mkdir e = None \/ fn_mkdir e = Some EEXIST;
  fs_accepts : fs_names e okc sz_max;
  fs_dirname : (0 ∉ fn_dirname e) /\ (length (fn_dirname e) + 4 <= PATH_MAX)%nat;
  fs_two : (2 <= sz_max)%nat;
  fs_portable : forall c, c ∈ posix_allowed -> okc c = true;
  fs_ext : filename_opt = STRESS_FILENAME_EXT -> forall c, c ∈ stress_filename_ext -> okc c = true }.

Lemma filename_starts fuel s : fs_ok -> length (fn_buf s) = PATH_MAX ->
  good okc underscore /\ exists allowed s', Forall (good okc) allowed /\ allowed <> [] /\ prepared e s' /\ unreported s s' /\
    stress_filename e fuel filename_opt s =
      (r ← filename_loop e fuel (S (length (fn_dirname e))) sz_max allowed 0 1 s'; Some (s ← r; Returns (EXIT_SUCCESS, true, fn_fails s))).
Proof.
  intros [Hn Hm Hfs [H0 Hlen] H2 Hport Hext] Hl.
  assert (forall c, c ∈ posix_allowed -> good okc c) as Hg by (intros c Hp; split; [by apply Hport|by apply posix_no_slash]).
  pose proof (Hg _ posix_underscore) as Hu. pose proof (Hg _ posix_x) as Hx. split; [done|].
  assert (S (length (fn_dirname e)) + 3 <= PATH_MAX)%nat as Hroom by lia.
  destruct (buffer_prepared e (filename_sz_max f_namemax) Hroom H2 s Hl) as (buf & E & Hprep).
  destruct (chars_found e okc sz_max Hfs H0 Hroom H2 Hu Hx Hport filename_opt (with_buf buf s) Hprep Hext) as (allowed & s1 & Ec & Ha & Hne & Hp1 & Hr1).
  exists allowed, s1. split; [done|]. split; [done|]. split; [done|]. split; [exact Hr1|].
  unfold stress_filename. rewrite Hn. assert ((if fn_mkdir e is Some err then negb (err =? EEXIST) else false) = false) as -> by (by destruct Hm as [-> | ->]).
  rewrite (proj2 (Nat.leb_gt _ _)) by lia.
  destruct (poke (length (fn_dirname e)) slash (copy_dirname e (fn_buf s))) as [b| | |]; try done. cbn [mbind outcome_bind] in E |- *. rewrite E. cbn [mbind outcome_bind].
  by rewrite Ec.
Qed.
End Start.

(** On a file system that accepts the names made of its characters up to its largest length, and refuses or
    accepts longer ones, the stressor ends with success after the flag is cleared and has nothing
    to report, with each set of characters, provided that a name one longer than the largest fits in its buffer. *)
Theorem filename_no_false_alarm e okc f_namemax filename_opt cleared s :
  fs_ok e okc f_namemax filename_opt -> (length (fn_dirname e) + filename_sz_max f_namemax + 3 <= PATH_MAX)%nat ->
  length (fn_buf s) = PATH_MAX -> fn_looks s = 0%nat -> fn_fails s = [] -> fn_flag e cleared = false ->
  stress_filename e (S cleared) filename_opt s = Some (Returns (EXIT_SUCCESS, true, [])).
Proof.
  intros Hfs Hroom Hl Hlook Hfail Hc. destruct (filename_starts e okc f_namemax filename_opt (S cleared) s Hfs Hl) as (Hu & allowed & s1 & Ha & Hne & Hp & (Hf1 & Hl1 & _) & ->).
  destruct Hfs as [_ _ Hfs [H0 _] H2 _ _].
  assert (S (length (fn_dirname e)) + 3 <= PATH_MAX)%nat as Hsome by lia.
  destruct (loop_passes e okc (filename_sz_max f_namemax) Hfs H0 Hsome H2 Hu) with (cleared := cleared) (fuel := S cleared) (allowed := allowed) (i := 0%nat) (sz := 1%nat) (s := s1)
    as (s2 & -> & Hf2); try done; try lia; [destruct allowed; [done|cbn; lia]|]. cbn [mbind option_bind outcome_bind]. by rewrite Hf2, Hf1, Hfail.
Qed.

(** ** Without room *)

(** the size of the buffer is kept, or the program has left it *)
Definition kept {A} (size : A -> nat) (n : nat) (m : outcome A) : Prop := m = Undefined \/ exists x, m = Returns x /\ size x = n.
Abbreviation buf_kept := (kept (fun s => length (fn_buf s))).

Lemma kept_bind {A B} (size : A -> nat) (size' : B -> nat) n (m : outcome A) (f : A -> outcome B) :
  kept size n m -> (forall x, size x = n -> kept size' n (f x)) -> kept size' n (m ≫= f).
Proof. intros [-> | (x & -> & Hx)] Hf; [by left|]. by apply Hf. Qed.

Lemma kept_undefined {A B} (size : A -> nat) n (m : outcome A) (f : A -> outcome B) :
  kept size n m -> (forall x, size x = n -> f x = Undefined) -> m ≫= f = Undefined.
Proof. intros [-> | (x & -> & Hx)] Hf; [done|]. by apply Hf. Qed.

Lemma poke_kept k v buf : kept length (length buf) (poke k v buf).
Proof. unfold poke. destruct (k <? length buf)%nat; [|by left]. right. eexists. split; [done|]. apply length_insert. Qed.

Lemma poke_all_kept off cs buf : kept length (length buf) (poke_all off cs buf).
Proof.
  revert off buf. induction cs as [|c cs IH]; intros off buf; cbn [poke_all]; [right; by eexists|].
  eapply kept_bind; [apply poke_kept|]. intros b <-. apply IH.
Qed.

Lemma name_end_kept off sz buf : kept length (length buf) (name_end off sz buf).
Proof.
  unfold name_end. destruct (buf !! off) as [c|]; [|by left]. cbn [mbind outcome_bind].
  eapply (kept_bind length); [destruct (c =? dot); [apply poke_kept|right; by eexists]|]. intros b <-. apply poke_kept.
Qed.

Lemma name_end_over off sz buf : (length buf <= off + sz)%nat -> name_end off sz buf = Undefined.
Proof.
  intros H. unfold name_end. destruct (buf !! off) as [c|]; [|done]. cbn [mbind outcome_bind].
  eapply (kept_undefined length); [destruct (c =? dot); [apply poke_kept|right; by eexists]|]. intros b Hb. unfold poke.
  by rewrite (proj2 (Nat.ltb_ge _ _)) by lia.
Qed.

Lemma test_kept e sz should_pass s : buf_kept (length (fn_buf s)) (stress_filename_test e sz should_pass s).
Proof.
  unfold stress_filename_test, try_creat, cpath. destruct (bool_decide _); [|by left]. cbn [mbind outcome_bind].
  destruct (fn_creat e _ _) as [err|]; [destruct (negb should_pass && _)|]; right; by eexists.
Qed.

Lemma try_length_kept e off allowed ch sz should_pass s : buf_kept (length (fn_buf s)) (try_length e off allowed ch sz should_pass s).
Proof.
  unfold try_length, stress_filename_generate, stress_filename_generate_random.
  eapply (kept_bind (fun s => length (fn_buf s))); [eapply kept_bind; [apply poke_all_kept|]|].
  { intros b <-. eapply kept_bind; [apply name_end_kept|]. intros b' <-. right. by eexists. }
  intros s1 <-. eapply kept_bind; [apply test_kept|]. intros s2 <-. destruct (random_chars sz allowed (fn_rng s2)) as [cs r].
  eapply (kept_bind (fun s => length (fn_buf s))); [eapply kept_bind; [apply poke_all_kept|]|].
  { intros b <-. eapply kept_bind; [apply name_end_kept|]. intros b' <-. right. by eexists. }
  intros s3 <-. apply test_kept.
Qed.

Lemma try_length_over e off allowed ch sz should_pass s : (length (fn_buf s) <= off + sz)%nat ->
  try_length e off allowed ch sz should_pass s = Undefined.
Proof.
  intros H. unfold try_length, stress_filename_generate.
  assert ((buf ← poke_all off (replicate sz ch) (fn_buf s); buf ← name_end off sz buf; Returns (with_buf buf s)) = Undefined) as ->; [|done].
  eapply kept_undefined; [apply poke_all_kept|]. intros b Hb. rewrite name_end_over by lia. done.
Qed.

(** (C37) When a name one longer than the largest does not fit in what the directory leaves of the buffer, the
    stressor writes outside it in its first round, on the same file systems: the test that is there to
    prevent it compares what is left with the size of all the buffer, and is never true. *)
Theorem filename_overruns e okc f_namemax filename_opt fuel s :
  fs_ok e okc f_namemax filename_opt -> (PATH_MAX < length (fn_dirname e) + filename_sz_max f_namemax + 3)%nat ->
  length (fn_buf s) = PATH_MAX -> stress_filename e (S fuel) filename_opt s = Some Undefined.
Proof.
  intros Hfs Hroom Hl. destruct (filename_starts e okc f_namemax filename_opt (S fuel) s Hfs Hl) as (_ & allowed & s1 & _ & _ & [Hl1 _] & _ & ->).
  assert (filename_round e (S (length (fn_dirname e))) (filename_sz_max f_namemax) allowed 0 1 s1 = Undefined) as E.
  { unfold filename_round. destruct (mwc32 (fn_rng s1)) as [v r]. 
    do 3 (eapply kept_undefined; [apply try_length_kept|]; intros ? ?).
    rewrite try_length_over; [done|]. cbn [with_fn_rng fn_buf] in *. lia. }
  cbn [filename_loop]. by rewrite E.
Qed.

(** *** concrete instances *)

Definition demo_dirname : list Z := codes "./tmp-stress-ng-filename-4711-0".
Definition demo_fnenv (namemax : Z) : fnenv :=
  FnEnv None (Some namemax)
    (fun _ p => if (length (drop (length demo_dirname + 1) p) <=? filename_sz_max namemax)%nat then None else Some ENAMETOOLONG)
    (fun k => (k <? 4)%nat) 0 demo_dirname.
Definition demo_fnst : fnst := FnSt (replicate PATH_MAX 7) 0 0 0 mwc_init [].

Lemma demo_fs_ok namemax filename_opt : (2 <= filename_sz_max namemax)%nat -> fs_ok (demo_fnenv namemax) (fun _ => true) namemax filename_opt.
Proof.
  intros H2. split; try done; [by left| |].
  - intros k name _ _ _ _ _. cbn [demo_fnenv fn_creat fn_dirname].
    replace (length demo_dirname + 1)%nat with (length (demo_dirname ++ [slash])) by (by rewrite length_app). rewrite drop_app_length. split; [|split].
    + intros Hf. exfalso. induction name; [done|]. by apply IHname.
    + intros _ Hle. by rewrite (proj2 (Nat.leb_le _ _) Hle).
    + intros _ Hgt. rewrite (proj2 (Nat.leb_gt _ _) Hgt). by right.
  - cbn [demo_fnenv fn_dirname]. split; [|unfold PATH_MAX; vm_compute (length demo_dirname); lia].
    apply (bool_decide_unpack _). by vm_compute.
Qed.

Lemma filename_no_false_alarm_witness : stress_filename (demo_fnenv 255) 5 STRESS_FILENAME_PROBE demo_fnst = Some (Returns (EXIT_SUCCESS, true, [])).
Proof.
  apply (filename_no_false_alarm (demo_fnenv 255) (fun _ => true) 255 STRESS_FILENAME_PROBE 4 demo_fnst); try done.
  - apply demo_fs_ok. vm_compute. lia.
  - change (length (fn_dirname (demo_fnenv 255))) with 31%nat. change (filename_sz_max 255) with 255%nat. unfold PATH_MAX. lia.
Defined.

Lemma filename_overruns_witness : stress_filename (demo_fnenv 4096) 5 STRESS_FILENAME_POSIX demo_fnst = Some Undefined.
Proof.
  apply (filename_overruns (demo_fnenv 4096) (fun _ => true) 4096 STRESS_FILENAME_POSIX 4 demo_fnst).
  - apply demo_fs_ok. change (filename_sz_max 4096) with PATH_MAX. unfold PATH_MAX. lia.
  - change (filename_sz_max 4096) with PATH_MAX. lia.
  - unfold demo_fnst. cbn [fn_buf]. apply length_replicate.
Defined.
