(* ===== verification/DirDeep.v ===== *)
(** * The deep directory stressor (stress-dirdeep.c)

    A tree of directories is made depth first, with a file at its top and links to it in every
    directory, until the path no longer fits in its buffer or the inodes or the time are used up; it is
    then walked through until the time is up, and taken away.

    Every name below the top is one character, so a path is the list of these characters, and the
    buffer [path] holds that of the top followed by a slash and a character for each: what is
    written to it is undone before a function returns.  Any call may fail with an error that the
    system chooses, and a call that cannot succeed fails; the calls of [stress_dir_tidy()] have errors of their own
    ([rm_sys]), since it is on them that it depends what is left.

    - [dirdeep_tidied]: whatever calls fail and whenever the flag is cleared, the stressor ends; if no call of
      [stress_dir_tidy()] fails nothing of the tree is left; and when no other call fails nothing is reported.
      [tidy_failure_leaves] has a run in which [rmdir()] fails. *)

From S2P Require Import Prelude Mwc CpuDriver Priority Support TempFiles.

Definition EDQUOT : Z := 122.
Definition EMLINK : Z := 31.
Definition ENAMETOOLONG : Z := 36.
Definition ENOTDIR : Z := 20.

(** characters of the names *)
Definition char_0 : Z := 48.
Definition char_f : Z := 102.
Definition char_h : Z := 104.
Definition char_s : Z := 115.
Definition char_dot : Z := 46.
Definition digit (c : Z) : bool := (48 <=? c) && (c <=? 57).

Abbreviation dtree := (gmap (list Z) node).

(** the tree, the calls and the looks at the flag so far, the operations, the messages, the random numbers, the calls of
    [stress_dir_tidy()] so far *)
Record ddst := Ddst { dd_tree : dtree; dd_calls : nat; dd_looks : nat; dd_ops : Z; dd_shown : list string; dd_rng : mwc; dd_removals : nat }.

Definition dd (A : Type) : Type := ddst -> option (A * ddst).

#[global] Instance dd_ret : MRet dd := fun A x s => Some (x, s).
#[global] Instance dd_bind : MBind dd := fun A B f m s => '(x, s) ← m s; f x s.

(** ** Calls *)

Definition is_dir (p : list Z) (t : dtree) : bool := bool_decide (t !! p = Some Dir).
(** the directory that a name is in; the top is in one that is there *)
Definition parent_ok (p : list Z) (t : dtree) : bool := match p with [] => true | _ => is_dir (removelast p) t end.

Definition create_at (p : list Z) (x : node) (t : dtree) : Z + dtree :=
  if bool_decide (is_Some (t !! p)) then inl EEXIST
  else if parent_ok p t then inr (<[p := x]> t) else inl ENOENT.
Definition dd_mkdir (p : list Z) : dtree -> Z + dtree := create_at p Dir.
Definition dd_creat (p : list Z) (t : dtree) : Z + dtree :=
  if is_dir p t then inl EISDIR else if parent_ok p t then inr (<[p := File]> t) else inl ENOENT.
Definition dd_symlink (target : string) (p : list Z) : dtree -> Z + dtree := create_at p (Link target).
Definition dd_link (old p : list Z) (t : dtree) : Z + dtree :=
  match t !! old with Some File => create_at p File t | _ => inl ENOENT end.
(** a symbolic link is followed to the file at the top; where its text does not lead there the call is one that fails *)
Definition dd_open (p : list Z) (t : dtree) : Z + dtree :=
  match t !! p with
  | Some (Link _) => if bool_decide (is_Some (t !! [char_f])) then inr t else inl ENOENT
  | Some _ => inr t
  | None => inl ENOENT
  end.
Definition dd_unlink (p : list Z) (t : dtree) : Z + dtree :=
  match t !! p with
  | None => inl ENOENT
  | Some x => if bool_decide (x = Dir) then inl EISDIR else inr (delete p t)
  end.

(** the names in a directory, in the order of [alphasort()]; the directory itself and its parent come first *)
Definition names_in (p : list Z) (t : dtree) : list Z :=
  List.filter (fun c => bool_decide (is_Some (t !! (p ++ [c])))) (seqZ 1 255).
Definition scandir (p : list Z) (t : dtree) : option (list Z) :=
  if is_dir p t then Some ([char_dot; char_dot] ++ names_in p t) else None.
Definition dd_rmdir (p : list Z) (t : dtree) : Z + dtree :=
  if is_dir p t then if bool_decide (names_in p t = []) then inr (delete p t) else inl ENOTEMPTY else inl ENOENT.

Definition dd_change (f : dtree -> dtree) : dd () := fun s =>
  Some ((), Ddst (f (dd_tree s)) (dd_calls s) (dd_looks s) (dd_ops s) (dd_shown s) (dd_rng s) (dd_removals s)).
Definition dd_show (msgs : list string) : dd () := fun s =>
  Some ((), Ddst (dd_tree s) (dd_calls s) (dd_looks s) (dd_ops s) (dd_shown s ++ msgs) (dd_rng s) (dd_removals s)).
Definition dd_count : dd () := fun s =>
  Some ((), Ddst (dd_tree s) (dd_calls s) (dd_looks s) (u64 (dd_ops s + 1)) (dd_shown s) (dd_rng s) (dd_removals s)).
Definition rand16 : dd Z := fun s =>
  let '(v, r) := mwc16 (dd_rng s) in Some (v, Ddst (dd_tree s) (dd_calls s) (dd_looks s) (dd_ops s) (dd_shown s) r (dd_removals s)).

Section Stressor.
Variable flag : nat -> bool.            (** [g_keep_stressing_flag] at each look *)
Variable max_ops : Z.
Variable sys : nat -> option Z.         (** the error of a call, if it fails *)
Variable rm_sys : nat -> option Z.      (** the same for the calls of [stress_dir_tidy()] *)
Variable inodes : nat -> Z.             (** the inodes that are free, at each question *)
Variable root_len : nat.                (** the length of the path of the top *)
Variable linkpath : string.             (** the path of the file at the top *)

Definition dd_keep : dd bool := fun s =>
  Some (keep_stressing (flag (dd_looks s)) max_ops (dd_ops s),
        Ddst (dd_tree s) (dd_calls s) (S (dd_looks s)) (dd_ops s) (dd_shown s) (dd_rng s) (dd_removals s)).
Definition dd_called (s : ddst) : ddst := Ddst (dd_tree s) (S (dd_calls s)) (dd_looks s) (dd_ops s) (dd_shown s) (dd_rng s) (dd_removals s).
Definition dd_call (f : dtree -> Z + dtree) : dd (option Z) := fun s =>
  match sys (dd_calls s) with
  | Some err => Some (Some err, dd_called s)
  | None =>
      match f (dd_tree s) with
      | inl err => Some (Some err, dd_called s)
      | inr t => (dd_change (fun _ => t) ≫= fun _ => mret None) (dd_called s)
      end
  end.
Definition dd_scandir (p : list Z) : dd (option (list Z)) := fun s =>
  Some (match sys (dd_calls s) with Some _ => None | None => scandir p (dd_tree s) end, dd_called s).

(** [unlink()], [rmdir()] and [scandir()] of [stress_dir_tidy()] *)
Definition dd_tried (s : ddst) : ddst := Ddst (dd_tree s) (dd_calls s) (dd_looks s) (dd_ops s) (dd_shown s) (dd_rng s) (S (dd_removals s)).
Definition dd_remove (f : dtree -> Z + dtree) : dd () := fun s =>
  match rm_sys (dd_removals s), f (dd_tree s) with
  | None, inr t => dd_change (fun _ => t) (dd_tried s)
  | _, _ => Some ((), dd_tried s)
  end.
Definition tidy_scandir (p : list Z) : dd (option (list Z)) := fun s =>
  Some (match rm_sys (dd_removals s) with Some _ => None | None => scandir p (dd_tree s) end, dd_tried s).
Definition inodes_avail : dd Z := fun s => Some (inodes (dd_calls s), dd_called s).

(** [sizeof(path)], and [len] for a path *)
Definition path_len : nat := (PATH_MAX + 16)%nat.
Definition len (p : list Z) : nat := (root_len + 2 * length p)%nat.

Section Make.
Variable dirdeep_dirs : nat.
Variable inodes_target_free : Z.

(** a failed [mkdir()] that is not reported *)
Definition full (err : Z) : bool :=
  (err =? ENOSPC) || (err =? ENOMEM) || (err =? ENAMETOOLONG) || (err =? EDQUOT) || (err =? EMLINK).

(** the file at the top, which is made in the top directory only *)
Definition make_file (depth : nat) : dd bool :=
  if (depth =? 0)%nat then
    err ← dd_call (dd_creat [char_f]);
    match err with Some _ => dd_show ["create"];; mret false | None => mret true end
  else mret true.

(** the file and the links in a directory; whether to go on *)
Definition make_files (path : list Z) (depth : nat) : dd bool :=
  ok ← make_file depth;
  if negb ok then mret false else
  dd_call (dd_symlink linkpath (path ++ [char_s]));;
  dd_call (dd_link [char_f] (path ++ [char_h]));;
  mret true.

(** the loop over the directories in a directory *)
Definition make_each (make : list Z -> Z -> dd Z) (path : list Z) : list nat -> Z -> dd Z :=
  fix each is_ min_inodes_free :=
    match is_ with
    | [] => mret min_inodes_free
    | i :: is_ => m ← make (path ++ [char_0 + Z.of_nat i]) min_inodes_free; each is_ m
    end.

(** [min_inodes_free] is given and returned *)
Fixpoint stress_dir_make (fuel : nat) (path : list Z) (min_inodes_free : Z) (depth : nat) : dd Z :=
  match fuel with
  | O => fun _ => None
  | S fuel =>
      avail ← inodes_avail;
      let min_inodes_free := if avail <? min_inodes_free then avail else min_inodes_free in
      if avail <=? inodes_target_free then mret min_inodes_free
      else if (path_len <=? len path + 2)%nat then mret min_inodes_free
      else
        b ← dd_keep; if negb b then mret min_inodes_free else
        err ← dd_call (dd_mkdir path);
        match err with
        | Some err => dd_show (if full err then [] else ["mkdir"]);; mret min_inodes_free
        | None =>
            dd_count;;
            ok ← make_files path depth;
            if negb ok then mret min_inodes_free else
            make_each (fun path m => stress_dir_make fuel path m (S depth)) path (seq 0 dirdeep_dirs) min_inodes_free
        end
  end.
End Make.

(** a file is opened, and at times flushed *)
Definition exercise_file (path : list Z) : dd () :=
  err ← dd_call (dd_open path);
  (match err with Some _ => mret () | None => rand16;; mret () end);;
  dd_count.

(** the loop over the names in a directory *)
Definition exercise_each (exercise : list Z -> dd ()) (path : list Z) : list Z -> dd () :=
  fix each names :=
    match names with
    | [] => mret ()
    | c :: names =>
        b ← dd_keep;
        if negb b then mret () else
        if c =? char_dot then each names
        else (if digit c then exercise (path ++ [c]) else exercise_file (path ++ [c]));; each names
    end.

Fixpoint stress_dir_exercise (fuel : nat) (path : list Z) : dd () :=
  match fuel with
  | O => fun _ => None
  | S fuel =>
      if (path_len <=? len path + 2)%nat then mret () else
      names ← dd_scandir path;
      match names with
      | None => mret ()
      | Some names => exercise_each (stress_dir_exercise fuel) path (rev names)
      end
  end.

Definition tidy_each (tidy : list Z -> dd ()) (path : list Z) : list Z -> dd () :=
  fix each names :=
    match names with
    | [] => mret ()
    | c :: names =>
        if c =? char_dot then each names
        else (if digit c then tidy (path ++ [c]) else dd_remove (dd_unlink (path ++ [c])));; each names
    end.

Fixpoint stress_dir_tidy (fuel : nat) (path : list Z) : dd () :=
  match fuel with
  | O => fun _ => None
  | S fuel =>
      if (path_len <=? len path + 2)%nat then mret () else
      names ← tidy_scandir path;
      match names with
      | None => mret ()
      | Some names => tidy_each (stress_dir_tidy fuel) path (rev names);; dd_remove (dd_rmdir path)
      end
  end.

Fixpoint exercise_rounds (rounds : nat) : dd () :=
  match rounds with
  | O => fun _ => None
  | S rounds =>
      stress_dir_exercise path_len [];;
      b ← dd_keep; if b : bool then exercise_rounds rounds else mret ()
  end.

(** the inodes that are to be left free *)
Definition target_free (avail dirdeep_inodes : Z) : Z := if dirdeep_inodes <? avail then avail - dirdeep_inodes else 0.

(** returns the status and the number of inodes said to have been exercised *)
Definition stress_dirdeep (rounds dirdeep_dirs : nat) (dirdeep_inodes : Z) : dd (Z * Z) :=
  avail ← inodes_avail;
  min_free ← stress_dir_make dirdeep_dirs (target_free avail dirdeep_inodes) path_len [] (2 ^ 64 - 1) 0;
  exercise_rounds rounds;;
  stress_dir_tidy path_len [];;
  mret (EXIT_SUCCESS, u64 (avail - min_free)).
End Stressor.

(** ** Trees of this kind *)

Section Tame.
Variable root_len : nat.
Abbreviation len := (len root_len).

(** Everything lies in a directory; a name is a digit exactly if a directory has it; the path of a
    directory leaves room for the names in it. *)
Record tame (t : dtree) : Prop := {
  tame_root : forall x, t !! [] = Some x -> x = Dir;
  tame_name : forall p c x, t !! (p ++ [c]) = Some x -> t !! p = Some Dir /\ bool_decide (x = Dir) = digit c /\ c <> char_dot /\ 1 <= c < 256;
  tame_room : forall p, t !! p = Some Dir -> (len p + 2 < path_len)%nat }.

Lemma tame_empty : tame ∅.
Proof. split; done. Qed.

Lemma tame_up t p u x : tame t -> t !! (p ++ u) = Some x -> u <> [] -> t !! p = Some Dir.
Proof.
  intros Ht. revert x. induction u as [|c u IH] using rev_ind; intros x Hx Hu; [done|]. rewrite app_assoc in Hx.
  apply (tame_name t Ht) in Hx as [Hx _]. destruct u as [|d u]; [by rewrite app_nil_r in Hx|]. by apply (IH Dir).
Qed.

Lemma tame_none t p u : tame t -> t !! p <> Some Dir -> u <> [] -> t !! (p ++ u) = None.
Proof. intros Ht Hp Hu. destruct (t !! (p ++ u)) eqn:E; [|done]. by apply tame_up in E. Qed.

(** a name where there was none, or a file again *)
Lemma tame_insert t p x :
  tame t -> parent_ok p t = true -> t !! p <> Some Dir -> (x = Dir -> (len p + 2 < path_len)%nat) ->
  (p = [] -> x = Dir) -> (forall q c, p = q ++ [c] -> bool_decide (x = Dir) = digit c /\ c <> char_dot /\ 1 <= c < 256) ->
  tame (<[p := x]> t).
Proof.
  intros Ht Hpar Hn Hroom Hroot Hname. split.
  - intros y [[-> <-]|[_ Hy]]%lookup_insert_Some; [by apply Hroot|by eapply tame_root].
  - intros q c y Hy. assert (forall q', t !! q' = Some Dir -> <[p := x]> t !! q' = Some Dir) as Hup.
    { intros q' Hq'. destruct (decide (q' = p)) as [->|]; [done|by rewrite lookup_insert_ne]. }
    apply lookup_insert_Some in Hy as [[E <-]|[_ Hy]].
    + split; [|by eapply Hname]. apply Hup. unfold parent_ok in Hpar. rewrite E in Hpar.
      destruct (q ++ [c]) as [|a l] eqn:Eq; [by destruct q|]. rewrite <- Eq, removelast_last in Hpar. by apply bool_decide_eq_true_1 in Hpar.
    + destruct (tame_name t Ht _ _ _ Hy) as [H1 H2]. split; [by apply Hup|done].
  - intros q [[<- ->]|[_ Hy]]%lookup_insert_Some; [by apply Hroom|by apply (tame_room t Ht)].
Qed.

(** the tree without what is at a path and below it *)
Definition cut (p : list Z) (t : dtree) : dtree := filter (fun e => ~ p `prefix_of` e.1) t.

Lemma lookup_cut p t q : cut p t !! q = if decide (p `prefix_of` q) then None else t !! q.
Proof.
  unfold cut. case_decide as H.
  - apply map_lookup_filter_None. right. intros x _ Hn. by apply Hn.
  - destruct (t !! q) as [x|] eqn:E; [by apply map_lookup_filter_Some|]. apply map_lookup_filter_None. by left.
Qed.

Lemma tame_cut p t : tame t -> tame (cut p t).
Proof.
  intros Ht. assert (forall q x, cut p t !! q = Some x -> ~ p `prefix_of` q /\ t !! q = Some x) as Hc.
  { intros q x. rewrite lookup_cut. case_decide; done. }
  split.
  - intros x [_ Hx]%Hc. by eapply tame_root.
  - intros q c x [Hq Hx]%Hc. destruct (tame_name t Ht _ _ _ Hx) as [Hp H]. split; [|done]. rewrite lookup_cut, decide_False; [done|].
    intros Hpre. apply Hq. by apply prefix_app_r.
  - intros q [_ Hx]%Hc. by apply (tame_room t Ht).
Qed.

(** a name that is not there, and a file, have nothing below them *)
Lemma cut_absent t p : tame t -> t !! p = None -> cut p t = t.
Proof.
  intros Ht Hp. apply map_eq. intros q. rewrite lookup_cut. case_decide as H; [|done]. destruct H as [u ->].
  destruct u as [|c u]; [by rewrite app_nil_r|]. symmetry. apply tame_none; [done|congruence|done].
Qed.

Lemma cut_leaf t p : tame t -> t !! p <> Some Dir -> cut p t = delete p t.
Proof.
  intros Ht Hp. apply map_eq. intros q. rewrite lookup_cut. case_decide as H.
  - destruct H as [u ->]. destruct u as [|c u]; [by rewrite app_nil_r, lookup_delete_eq|].
    symmetry. apply lookup_delete_None. right. by apply tame_none.
  - rewrite lookup_delete_ne; [done|]. by intros ->.
Qed.

Lemma elem_of_names_in t p c : tame t -> c ∈ names_in p t <-> is_Some (t !! (p ++ [c])).
Proof.
  intros Ht. unfold names_in. rewrite list_elem_of_In, filter_In, bool_decide_eq_true, <- list_elem_of_In, elem_of_seqZ. split; [by intros [_ ?]|].
  intros [x Hx]. split; [|by eexists]. apply (tame_name t Ht) in Hx as (_ & _ & _ & ?). lia.
Qed.
End Tame.

(** ** The functions *)

Definition completes {A} (m : dd A) (s : ddst) (Q : A -> ddst -> Prop) : Prop :=
  exists x s', m s = Some (x, s') /\ Q x s'.

Lemma completes_bind {A B} (m : dd A) (f : A -> dd B) s Q R :
  completes m s R -> (forall x s', R x s' -> completes (f x) s' Q) -> completes (m ≫= f) s Q.
Proof.
  intros (x & s' & E & H) Hf. destruct (Hf x s' H) as (y & s'' & E' & H'). exists y, s''. split; [|done].
  unfold mbind, dd_bind. cbn. by rewrite E.
Qed.

Lemma completes_ret {A} (x : A) s (Q : A -> ddst -> Prop) : Q x s -> completes (mret x) s Q.
Proof. by exists x, s. Qed.

Lemma completes_mono {A} (m : dd A) s (R Q : A -> ddst -> Prop) :
  completes m s R -> (forall x s', R x s' -> Q x s') -> completes m s Q.
Proof. intros (x & s' & E & H) Hf. exists x, s'. split; [done|by apply Hf]. Qed.

Section Proofs.
Variable flag : nat -> bool.
Variable max_ops : Z.
Variable sys rm_sys : nat -> option Z.
Variable inodes : nat -> Z.
Variable root_len : nat.
Variable linkpath : string.
Abbreviation len := (len root_len).
Abbreviation tame := (tame root_len).

(** the looks go on; nothing is shown unless calls fail *)
Definition calm (s s' : ddst) : Prop :=
  (dd_looks s <= dd_looks s')%nat /\ ((forall n, sys n = None) -> dd_shown s' = dd_shown s).

Lemma calm_refl s : calm s s.
Proof. by split. Qed.
Lemma calm_trans s1 s2 s3 : calm s1 s2 -> calm s2 s3 -> calm s1 s3.
Proof. intros [H1 H2] [H3 H4]. split; [lia|]. intros Hq. by rewrite H4, H2. Qed.

Lemma completes_call f s :
  completes (dd_call sys f) s (fun err s' => calm s s' /\
    ((exists e, err = Some e /\ dd_tree s' = dd_tree s /\ (sys (dd_calls s) = Some e \/ f (dd_tree s) = inl e)) \/
     (err = None /\ f (dd_tree s) = inr (dd_tree s')))).
Proof.
  unfold completes, dd_call. destruct (sys (dd_calls s)) as [e|].
  - eexists _, _. split; [done|]. split; [done|]. left. exists e. by auto.
  - destruct (f (dd_tree s)) as [e|t] eqn:E; cbn; eexists _, _; (split; [done|]); (split; [done|]); [left; exists e; by auto|by right].
Qed.

Lemma completes_keep s : completes (dd_keep flag max_ops) s (fun b s' =>
  dd_tree s' = dd_tree s /\ calm s s' /\ (b = true -> flag (dd_looks s) = true) /\ dd_looks s' = S (dd_looks s)).
Proof.
  eexists _, _. split; [done|]. split; [done|]. split; [split; [cbn; lia|done]|]. split; [|done]. by intros [? _]%andb_prop.
Qed.

Lemma completes_count s : completes dd_count s (fun _ s' => dd_tree s' = dd_tree s /\ calm s s').
Proof. by eexists _, _. Qed.

Lemma completes_show msgs s : ((forall n, sys n = None) -> msgs = []) ->
  completes (dd_show msgs) s (fun _ s' => dd_tree s' = dd_tree s /\ calm s s').
Proof. intros Hm. eexists _, _. split; [done|]. split; [done|]. split; [done|]. intros Hq. cbn. by rewrite Hm, app_nil_r. Qed.

(** *** making the tree *)

(** what [stress_dir_make()] is given: a path that is not there, in a directory, with a name that is a digit *)
Definition makeable (p : list Z) (t : dtree) : Prop :=
  tame t /\ t !! p = None /\ parent_ok p t = true /\ (forall q c, p = q ++ [c] -> digit c = true).

Lemma digit_name c : digit c = true -> c <> char_dot /\ 1 <= c < 256.
Proof. unfold digit, char_dot. intros [H1%Z.leb_le H2%Z.leb_le]%andb_prop. lia. Qed.

(** the directory itself *)
Lemma made_dir p t t' : makeable p t -> (len p + 2 < path_len)%nat -> dd_mkdir p t = inr t' ->
  tame t' /\ t' = <[p := Dir]> t.
Proof.
  intros (Ht & Hn & Hp & Hd) Hl. unfold dd_mkdir, create_at. rewrite Hn, bool_decide_false by (by intros [? ?]). rewrite Hp.
  intros [= <-]. split; [|done]. apply tame_insert; try done; [congruence|]. intros q c E. apply Hd in E.
  rewrite E, bool_decide_true by done. split; [done|]. by apply digit_name.
Qed.

(** a file or a link in a directory *)
Lemma made_file p c x t : tame t -> t !! p = Some Dir -> x <> Dir -> digit c = false -> c <> char_dot -> 1 <= c < 256 ->
  t !! (p ++ [c]) <> Some Dir -> tame (<[p ++ [c] := x]> t).
Proof.
  intros Ht Hp Hx Hc Hd Hr Hn. apply tame_insert; try done.
  - unfold parent_ok. destruct (p ++ [c]) as [|a l] eqn:E; [by destruct p|]. rewrite <- E, removelast_last. by apply bool_decide_eq_true_2.
  - by destruct p.
  - intros q c' E. apply app_inj_2 in E as [_ [= <-]]; [|done]. by rewrite bool_decide_false.
Qed.

Lemma create_file p c x t t' : tame t -> t !! p = Some Dir -> x <> Dir -> digit c = false -> c <> char_dot -> 1 <= c < 256 ->
  create_at (p ++ [c]) x t = inr t' -> tame t' /\ t' = <[p ++ [c] := x]> t.
Proof.
  intros Ht Hp Hx Hc Hd Hr. unfold create_at. case_bool_decide as Hs; [done|]. destruct (parent_ok (p ++ [c]) t); [|done].
  intros [= <-]. split; [|done]. apply made_file; try done. intros E. apply Hs. by eexists.
Qed.

(** what a call that makes a file or a link does to the tree, or does not *)
Lemma completes_create (p : list Z) (c : Z) (f : dtree -> Z + dtree) s :
  tame (dd_tree s) -> dd_tree s !! p = Some Dir ->
  (forall t', f (dd_tree s) = inr t' -> tame t' /\ exists x, t' = <[p ++ [c] := x]> (dd_tree s)) ->
  completes (dd_call sys f) s (fun err s' => calm s s' /\ tame (dd_tree s') /\
    (err = None \/ exists e, err = Some e /\ (sys (dd_calls s) = Some e \/ f (dd_tree s) = inl e)) /\
    (forall q, q <> p ++ [c] -> dd_tree s' !! q = dd_tree s !! q)).
Proof.
  intros Ht Hp Hf. eapply completes_mono; [apply completes_call|]. intros err s' (Hc & [(e & -> & -> & He)|[-> E]]).
  - split; [done|]. split; [done|]. split; [right; by exists e|done].
  - apply Hf in E as [Ht' (x & E')]. split; [done|]. split; [done|]. split; [by left|]. intros q Hq. by rewrite E', lookup_insert_ne.
Qed.

(** outside the path nothing changes *)
Definition frame (p : list Z) (t t' : dtree) : Prop := forall q, ~ p `prefix_of` q -> t' !! q = t !! q.

Lemma frame_refl p t : frame p t t.
Proof. done. Qed.

Lemma completes_file (depth : nat) (p : list Z) s : tame (dd_tree s) -> dd_tree s !! p = Some Dir -> depth = length p ->
  completes (make_file sys depth) s (fun ok s' => calm s s' /\ tame (dd_tree s') /\
    (forall q, q = p ++ [char_f] \/ dd_tree s' !! q = dd_tree s !! q)).
Proof.
  intros Ht Hp ->. unfold make_file. destruct p as [|c p]; cbn [length Nat.eqb].
  - eapply completes_bind.
    { apply (completes_create [] char_f); [done|done|]. intros t'. unfold dd_creat, is_dir. case_bool_decide as E; [done|].
      destruct (parent_ok [char_f] (dd_tree s)); [|done]. intros [= <-]. split; [|by eexists]. apply (made_file [] char_f); done. }
    intros err s1 (Hc & Ht1 & He & Hf). cbn [app] in Hf. assert (forall q, q = [char_f] \/ dd_tree s1 !! q = dd_tree s !! q) as Hf'.
    { intros q. destruct (decide (q = [char_f])); [by left|right; by apply Hf]. }
    destruct err as [e|]; [|by apply completes_ret].
    eapply completes_bind; [apply completes_show|].
    + intros Hq. destruct He as [|(e' & _ & [H|H])]; [done|by rewrite Hq in H|]. exfalso. revert H. unfold dd_creat, is_dir, parent_ok. cbn [removelast].
      case_bool_decide as E; [by apply (tame_name root_len _ Ht [] char_f) in E as (_ & E & _)|]. unfold is_dir. by case_bool_decide.
    + intros _ s2 [Ht2 Hc2]. apply completes_ret. split; [by eapply calm_trans|]. by rewrite Ht2.
  - apply completes_ret. split; [apply calm_refl|]. split; [done|]. by right.
Qed.

Lemma not_self (p : list Z) (c : Z) : p <> p ++ [c].
Proof. intros E. apply (f_equal length) in E. rewrite length_app in E. cbn in E. lia. Qed.

(** files have no digits for their names *)
Lemma completes_files (depth : nat) (p : list Z) s : tame (dd_tree s) -> dd_tree s !! p = Some Dir -> depth = length p ->
  completes (make_files sys linkpath p depth) s (fun _ s' => calm s s' /\ tame (dd_tree s') /\
    (forall q, (exists c, digit c = false /\ q = p ++ [c]) \/ dd_tree s' !! q = dd_tree s !! q)).
Proof.
  intros Ht Hp Hd. eapply completes_bind; [by apply (completes_file depth p)|]. intros ok s1 (Hc1 & Ht1 & Hl1).
  destruct ok; cbn [negb].
  2: { apply completes_ret. split; [done|]. split; [done|]. intros q. destruct (Hl1 q) as [-> | ->]; [left; by exists char_f|by right]. }
  assert (dd_tree s1 !! p = Some Dir) as Hp1 by (destruct (Hl1 p) as [E| ->]; [by apply not_self in E|done]).
  eapply completes_bind.
  { apply (completes_create p char_s); [done|done|]. intros t' E. apply create_file in E as [H ->]; try done. split; [done|by eexists]. }
  intros err s2 (Hc2 & Ht2 & _ & Hl2).
  assert (dd_tree s2 !! p = Some Dir) as Hp2 by (rewrite Hl2; [done|apply not_self]).
  eapply completes_bind.
  { apply (completes_create p char_h); [done|done|]. intros t'. unfold dd_link. destruct (dd_tree s2 !! [char_f]) as [[]|]; try done.
    intros E. apply create_file in E as [H ->]; try done. split; [done|by eexists]. }
  intros err' s3 (Hc3 & Ht3 & _ & Hl3). apply completes_ret. split; [eapply calm_trans; [exact Hc1|]; by eapply calm_trans|]. split; [done|].
  intros q. destruct (decide (q = p ++ [char_h])) as [->|]; [left; by exists char_h|]. rewrite Hl3 by done.
  destruct (decide (q = p ++ [char_s])) as [->|]; [left; by exists char_s|]. rewrite Hl2 by done.
  destruct (Hl1 q) as [-> | ->]; [left; by exists char_f|by right].
Qed.

Section Make.
Variable dirdeep_dirs : nat.
Variable inodes_target_free : Z.
Hypothesis dirs_ten : (dirdeep_dirs <= 10)%nat.

Lemma digit_of_index i : (i < 10)%nat -> digit (char_0 + Z.of_nat i) = true.
Proof. intros Hi. unfold digit, char_0. apply andb_true_intro. split; apply Z.leb_le; lia. Qed.

(** the directories in a directory, one after the other *)
Lemma completes_make_each make p is_ m s :
  (forall q m s, makeable q (dd_tree s) -> (exists i, (i < 10)%nat /\ q = p ++ [char_0 + Z.of_nat i]) ->
     completes (make q m) s (fun _ s' => tame (dd_tree s') /\ calm s s' /\ frame q (dd_tree s) (dd_tree s'))) ->
  NoDup is_ -> Forall (fun i => (i < 10)%nat) is_ -> tame (dd_tree s) -> dd_tree s !! p = Some Dir ->
  (forall i, i ∈ is_ -> dd_tree s !! (p ++ [char_0 + Z.of_nat i]) = None) ->
  completes (make_each make p is_ m) s (fun _ s' => tame (dd_tree s') /\ calm s s' /\ frame p (dd_tree s) (dd_tree s')).
Proof.
  intros Hmake Hnd. revert m s. induction Hnd as [|i is_ Hi Hnd IH]; intros m s Hten Ht Hp Hnone; cbn [make_each].
  { apply completes_ret. split; [done|]. split; [apply calm_refl|done]. }
  apply Forall_cons in Hten as [Hi10 Hten]. set (q := p ++ [char_0 + Z.of_nat i]).
  eapply completes_bind.
  { apply (Hmake q); [|by exists i]. split; [done|]. split; [apply Hnone; by left|]. split.
    - unfold parent_ok, q. destruct (p ++ [_]) as [|a l] eqn:E; [by destruct p|]. rewrite <- E, removelast_last. by apply bool_decide_eq_true_2.
    - intros q' c E. apply app_inj_2 in E as [_ [= <-]]; [|done]. by apply digit_of_index. }
  intros m1 s1 (Ht1 & Hc1 & Hf1). assert (dd_tree s1 !! p = Some Dir) as Hp1.
  { rewrite Hf1; [done|]. intros H%prefix_length. unfold q in H. rewrite length_app in H. cbn in H. lia. }
  eapply completes_mono; [apply (IH m1 s1 Hten Ht1 Hp1)|].
  - intros j Hj. rewrite Hf1; [apply Hnone; by right|]. unfold q. intros [u E]. rewrite <- app_assoc in E. apply app_inv_head in E.
    injection E as E _. assert (i = j) as -> by lia. done.
  - intros _ s2 (Ht2 & Hc2 & Hf2). split; [done|]. split; [by eapply calm_trans|]. intros q' Hq'. rewrite Hf2, Hf1; [done| |done].
    intros H. apply Hq'. etransitivity; [|exact H]. by eexists.
Qed.

Lemma completes_make fuel p m depth s :
  makeable p (dd_tree s) -> depth = length p -> (1 <= fuel)%nat -> (path_len + 2 <= len p + 2 * fuel)%nat ->
  completes (stress_dir_make flag max_ops sys inodes root_len linkpath dirdeep_dirs inodes_target_free fuel p m depth) s (fun _ s' =>
    tame (dd_tree s') /\ calm s s' /\ frame p (dd_tree s) (dd_tree s')).
Proof.
  revert p m depth s. induction fuel as [|fuel IH]; intros p m depth s Hm Hd Hf1 Hf; [lia|]. cbn [stress_dir_make].
  pose proof Hm as (Ht & Hn & Hpar & Hdig).
  eapply (completes_bind _ _ _ _ (fun x s' => x = inodes (dd_calls s) /\ s' = dd_called s)); [by eexists _, _|]. intros avail s0 [-> ->].
  set (s0 := dd_called s). set (m' := if inodes (dd_calls s) <? m then _ else m).
  assert (forall x : Z, completes (mret x) s0 (fun _ s' => tame (dd_tree s') /\ calm s s' /\ frame p (dd_tree s) (dd_tree s'))) as Hret.
  { intros x. by apply completes_ret. }
  destruct (_ <=? inodes_target_free); [apply Hret|]. destruct (Nat.leb_spec path_len (len p + 2)) as [|Hlen]; [apply Hret|].
  eapply completes_bind; [apply completes_keep|]. intros b s1 (Ht1 & Hc1 & _). destruct b; cbn [negb]; [|apply completes_ret; by rewrite Ht1].
  assert (calm s s1) as Hcs1 by exact Hc1. clear Hc1.
  change (dd_tree s0) with (dd_tree s) in Ht1. rewrite <- Ht1 in Hm.
  eapply completes_bind; [apply completes_call|]. intros err s2 (Hc2 & [(e & -> & Et2 & He)|[-> E2]]).
  { eapply completes_bind; [apply completes_show|].
    - intros Hq. exfalso. destruct He as [He|He]; [by rewrite Hq in He|]. destruct Hm as (_ & Hn1 & Hp1 & _).
      unfold dd_mkdir, create_at in He. rewrite Hn1, Hp1, bool_decide_false in He by (by intros [? ?]). done.
    - intros _ s3 [Ht3 Hc3]. apply completes_ret. rewrite Ht3, Et2, Ht1. split; [done|]. split; [|done].
      eapply calm_trans; [exact Hcs1|]. by eapply calm_trans. }
  apply made_dir in E2 as [Ht2 E2]; [|done|done]. rewrite Ht1 in E2.
  eapply completes_bind; [apply completes_count|]. intros _ s3 [Ht3 Hc3]. rewrite <- Ht3 in E2, Ht2.
  eapply completes_bind; [apply (completes_files depth p); [done|by rewrite E2, lookup_insert_eq|done]|]. intros ok s4 (Hc4 & Ht4 & Hl4).
  assert (calm s s4) as Hcs4 by (eapply calm_trans; [exact Hcs1|]; eapply calm_trans; [exact Hc2|]; by eapply calm_trans).
  assert (frame p (dd_tree s) (dd_tree s4)) as Hf4.
  { intros q Hq. destruct (Hl4 q) as [(c & _ & ->) | ->]; [exfalso; apply Hq; by eexists|]. rewrite E2, lookup_insert_ne; [done|]. by intros ->. }
  destruct ok; cbn [negb]; [|by apply completes_ret].
  eapply completes_mono; [apply (completes_make_each _ p)|].
  - intros q m1 s5 Hq (i & Hi & ->). apply IH; [done|rewrite length_app; cbn; lia|unfold DirDeep.len in *; lia|].
    unfold DirDeep.len in *. rewrite length_app. cbn. lia.
  - apply NoDup_seq.
  - apply Forall_seq. lia.
  - done.
  - destruct (Hl4 p) as [(c & _ & E) | ->]; [by apply not_self in E|]. by rewrite E2, lookup_insert_eq.
  - intros i Hi%elem_of_seq. destruct (Hl4 (p ++ [char_0 + Z.of_nat i])) as [(c & Hc & E) | ->].
    + apply app_inj_2 in E as [_ [= <-]]; [|done]. rewrite digit_of_index in Hc by lia. done.
    + rewrite E2, lookup_insert_ne by apply not_self. apply (tame_none root_len); [done|congruence|done].
  - intros _ s5 (Ht5 & Hc5 & Hf5). split; [done|]. split; [by eapply calm_trans|]. intros q Hq. by rewrite Hf5, Hf4.
Qed.
End Make.

(** *** walking through it *)

Lemma completes_exercise_file p s : completes (exercise_file sys p) s (fun _ s' => dd_tree s' = dd_tree s /\ calm s s').
Proof.
  unfold exercise_file. eapply completes_bind; [apply completes_call|]. intros err s1 (Hc1 & He).
  assert (dd_tree s1 = dd_tree s) as Ht1.
  { destruct He as [(e & _ & ? & _)|[_ E]]; [done|]. unfold dd_open in E. destruct (dd_tree s !! p) as [[]|]; try done; [congruence|congruence|].
    case_bool_decide; congruence. }
  eapply (completes_bind _ _ _ _ (fun _ s' => dd_tree s' = dd_tree s1 /\ calm s1 s')).
  { destruct err; [apply completes_ret; split; [done|apply calm_refl]|]. unfold completes, rand16, mbind, dd_bind. destruct (mwc16 (dd_rng s1)) as [v r].
    by eexists _, _. }
  intros _ s2 [Ht2 Hc2]. eapply completes_mono; [apply completes_count|]. intros _ s3 [Ht3 Hc3]. split; [congruence|].
  eapply calm_trans; [exact Hc1|]. by eapply calm_trans.
Qed.

Lemma completes_exercise fuel p s : (1 <= fuel)%nat -> (path_len + 2 <= len p + 2 * fuel)%nat ->
  completes (stress_dir_exercise flag max_ops sys root_len fuel p) s (fun _ s' => dd_tree s' = dd_tree s /\ calm s s').
Proof.
  revert p s. induction fuel as [|fuel IH]; intros p s Hf1 Hf; [lia|]. cbn [stress_dir_exercise].
  destruct (Nat.leb_spec path_len (len p + 2)) as [|Hlen]; [apply completes_ret; split; [done|apply calm_refl]|].
  eapply (completes_bind _ _ _ _ (fun _ s' => s' = dd_called s)); [by eexists _, _|]. intros names s' ->.
  cut (completes match names with None => mret () | Some names => exercise_each flag max_ops sys (stress_dir_exercise flag max_ops sys root_len fuel) p (rev names) end
    (dd_called s) (fun _ s' => dd_tree s' = dd_tree (dd_called s) /\ calm (dd_called s) s')); [done|].
  generalize (dd_called s). clear s. intros s. destruct names as [names|]; [|apply completes_ret; split; [done|apply calm_refl]].
  generalize (rev names) as ns. clear names. intros ns. revert s. induction ns as [|c ns IHns]; intros s; cbn [exercise_each].
  { apply completes_ret. split; [done|apply calm_refl]. }
  eapply completes_bind; [apply completes_keep|]. intros b s1 (Ht1 & Hc1 & _). destruct b; cbn [negb]; [|by apply completes_ret].
  destruct (c =? char_dot).
  { eapply completes_mono; [apply IHns|]. intros _ s2 [Ht2 Hc2]. split; [congruence|by eapply calm_trans]. }
  eapply (completes_bind _ _ _ _ (fun _ s' => dd_tree s' = dd_tree s1 /\ calm s1 s')).
  { destruct (digit c); [|apply completes_exercise_file]. apply IH; unfold DirDeep.len in *; [lia|]. rewrite length_app. cbn. lia. }
  intros _ s2 [Ht2 Hc2]. eapply completes_mono; [apply IHns|]. intros _ s3 [Ht3 Hc3]. split; [congruence|].
  eapply calm_trans; [exact Hc1|]. by eapply calm_trans.
Qed.

Lemma completes_rounds cleared rounds s : (forall k, (cleared <= k)%nat -> flag k = false) ->
  (cleared < dd_looks s + rounds)%nat -> (1 <= rounds)%nat ->
  completes (exercise_rounds flag max_ops sys root_len rounds) s (fun _ s' => dd_tree s' = dd_tree s /\ calm s s').
Proof.
  intros Hflag. revert s. induction rounds as [|rounds IH]; intros s Hr H1; [lia|]. cbn [exercise_rounds].
  eapply completes_bind; [apply completes_exercise; unfold path_len, PATH_MAX; lia|]. intros _ s1 (Ht1 & Hc1).
  eapply completes_bind; [apply completes_keep|]. intros b s2 (Ht2 & Hc2 & Hb & Hl2). pose proof (calm_trans _ _ _ Hc1 Hc2) as Hc.
  destruct b; [|apply completes_ret; split; [congruence|done]]. specialize (Hb eq_refl). pose proof Hc1 as [Hl1 _].
  assert (dd_looks s1 < cleared)%nat. { apply not_ge. intros H. rewrite Hflag in Hb by lia. done. }
  eapply completes_mono; [apply IH; lia|]. intros _ s3 [Ht3 Hc3]. split; [congruence|by eapply calm_trans].
Qed.

(** *** taking it away *)

Definition cut_names (p : list Z) (t : dtree) (ns : list Z) : dtree :=
  foldl (fun t c => if c =? char_dot then t else cut (p ++ [c]) t) t ns.

Lemma cut_names_lookup p ns t q : tame t ->
  tame (cut_names p t ns) /\
  cut_names p t ns !! q = if decide (Exists (fun c => c <> char_dot /\ p ++ [c] `prefix_of` q) ns) then None else t !! q.
Proof.
  revert t. induction ns as [|c ns IH]; intros t Ht; cbn [cut_names foldl].
  { split; [done|]. rewrite decide_False; [done|]. by intros H%Exists_nil. }
  destruct (Z.eqb_spec c char_dot) as [->|Hc].
  - destruct (IH t Ht) as [H1 H2]. split; [exact H1|]. etransitivity; [exact H2|]. apply decide_ext. rewrite Exists_cons. naive_solver.
  - destruct (IH (cut (p ++ [c]) t)) as [H1 H2]; [by apply tame_cut|]. split; [exact H1|]. etransitivity; [exact H2|]. rewrite lookup_cut.
    destruct (decide (Exists _ ns)) as [HE|HE]; [by rewrite decide_True by (apply Exists_cons; by right)|].
    case_decide as HP; [by rewrite decide_True by (apply Exists_cons; by left)|].
    rewrite decide_False; [done|]. rewrite Exists_cons. naive_solver.
Qed.

(** after all names of a directory, it is empty and removed *)
Lemma cut_all p t : tame t -> t !! p = Some Dir ->
  dd_rmdir p (cut_names p t (rev ([char_dot; char_dot] ++ names_in p t))) = inr (cut p t).
Proof.
  intros Ht Hp. set (ns := rev _). set (t' := cut_names p t ns).
  assert (forall q, t' !! q = if decide (p `prefix_of` q /\ q <> p) then None else t !! q) as Hl.
  { intros q. destruct (cut_names_lookup p ns t q Ht) as [_ E]. unfold t'. rewrite E. clear E. destruct (decide (Exists _ ns)) as [HE|HE].
    - rewrite decide_True; [done|]. apply Exists_exists in HE as (c & _ & _ & Hpre). split; [etransitivity; [|exact Hpre]; by eexists|].
      intros ->. apply prefix_length in Hpre. rewrite length_app in Hpre. cbn in Hpre. lia.
    - case_decide as HP; [|done]. destruct HP as [[u ->] Hu]. destruct u as [|c u]; [by rewrite app_nil_r in Hu|].
      destruct (t !! (p ++ c :: u)) as [x|] eqn:E; [|done]. exfalso. apply HE, Exists_exists. exists c.
      assert (is_Some (t !! (p ++ [c]))) as [y Hy].
      { destruct u as [|d u]; [by eexists|]. exists Dir. apply (tame_up root_len t (p ++ [c]) (d :: u) x Ht); [by rewrite <- app_assoc|done]. }
      split; [unfold ns; rewrite list_elem_of_In, <- in_rev, <- list_elem_of_In; apply elem_of_app; right; apply (elem_of_names_in root_len); [done|by eexists]|].
      split; [by apply (tame_name root_len t Ht) in Hy as (_ & _ & ? & _)|]. exists u. by rewrite <- app_assoc. }
  assert (t' !! p = Some Dir) as Hp' by (rewrite Hl, decide_False; [done|by intros [_ ?]]).
  assert (names_in p t' = []) as Hn.
  { apply elem_of_nil_inv. intros c Hc. apply (elem_of_names_in root_len) in Hc; [|by apply (cut_names_lookup p ns t [])].
    rewrite Hl, decide_True in Hc; [by destruct Hc|]. split; [by eexists|]. intros E. symmetry in E. by apply not_self in E. }
  unfold dd_rmdir, is_dir. rewrite Hn. rewrite !bool_decide_true by done. f_equal. apply map_eq. intros q. rewrite lookup_cut.
  destruct (decide (q = p)) as [->|Hq]; [rewrite lookup_delete_eq; by rewrite decide_True|]. rewrite lookup_delete_ne, Hl by done.
  apply decide_ext. naive_solver.
Qed.

Lemma completes_remove f s : completes (dd_remove rm_sys f) s (fun _ s' => dd_shown s' = dd_shown s /\
  ((forall k, rm_sys k = None) -> dd_tree s' = match f (dd_tree s) with inl _ => dd_tree s | inr t => t end)).
Proof.
  unfold completes, dd_remove. destruct (rm_sys (dd_removals s)) eqn:E; [|destruct (f (dd_tree s))]; eexists _, _; (split; [done|]); split; try done.
  intros H. by rewrite H in E.
Qed.

(** [stress_dir_tidy()] ends whatever fails, and says nothing *)
Lemma completes_tidy_any fuel p s : (1 <= fuel)%nat -> (path_len + 2 <= len p + 2 * fuel)%nat ->
  completes (stress_dir_tidy rm_sys root_len fuel p) s (fun _ s' => dd_shown s' = dd_shown s).
Proof.
  revert p s. induction fuel as [|fuel IH]; intros p s Hf1 Hf; [lia|]. cbn [stress_dir_tidy].
  destruct (Nat.leb_spec path_len (len p + 2)) as [|Hlen]; [by apply completes_ret|].
  eapply (completes_bind _ _ _ _ (fun _ s' => dd_shown s' = dd_shown s)); [by eexists _, _|]. intros [names|] s' Hs'; [|by apply completes_ret].
  rewrite <- Hs'. clear s Hs'. eapply (completes_bind _ _ _ _ (fun _ s'' => dd_shown s'' = dd_shown s')).
  2: { intros ? s1 Hs1. eapply completes_mono; [apply completes_remove|]. intros _ s2 [Hs2 _]. congruence. }
  generalize (rev names) as ns. intros ns. revert s'. induction ns as [|c ns IHns]; intros s; cbn [tidy_each]; [by apply completes_ret|].
  destruct (c =? char_dot); [apply IHns|].
  eapply (completes_bind _ _ _ _ (fun _ s' => dd_shown s' = dd_shown s)).
  { destruct (digit c).
    - apply IH; unfold DirDeep.len in *; [lia|]. rewrite length_app. cbn. lia.
    - eapply completes_mono; [apply completes_remove|]. by intros _ s1 [? _]. }
  intros ? s1 Hs1. eapply completes_mono; [apply IHns|]. intros ? s2 Hs2. by rewrite Hs2.
Qed.

Section Removed.
Hypothesis rm_none : forall k, rm_sys k = None.

Lemma completes_scan p s : completes (tidy_scandir rm_sys p) s (fun names s' => names = scandir p (dd_tree s) /\ s' = dd_tried s).
Proof. unfold completes, tidy_scandir. rewrite rm_none. by eexists _, _. Qed.

Lemma completes_tidy_absent fuel p s : dd_tree s !! p <> Some Dir -> (1 <= fuel)%nat ->
  completes (stress_dir_tidy rm_sys root_len fuel p) s (fun _ s' => dd_tree s' = dd_tree s /\ dd_shown s' = dd_shown s).
Proof.
  intros Hp Hf. destruct fuel as [|fuel]; [lia|]. cbn [stress_dir_tidy]. destruct (_ <=? _)%nat; [by apply completes_ret|].
  eapply completes_bind; [apply completes_scan|]. intros t s' [-> ->].
  unfold scandir, is_dir. rewrite bool_decide_false by done. by apply completes_ret.
Qed.

Lemma completes_tidy fuel p s : tame (dd_tree s) -> dd_tree s !! p = Some Dir -> (path_len + 2 <= len p + 2 * fuel)%nat ->
  completes (stress_dir_tidy rm_sys root_len fuel p) s (fun _ s' => dd_tree s' = cut p (dd_tree s) /\ dd_shown s' = dd_shown s).
Proof.
  revert p s. induction fuel as [|fuel IH]; intros p s Ht Hp Hf; pose proof (tame_room root_len _ Ht p Hp) as Hroom; [lia|]. cbn [stress_dir_tidy].
  destruct (Nat.leb_spec path_len (len p + 2)) as [|_]; [lia|].
  eapply completes_bind; [apply completes_scan|]. intros t s' [-> ->].
  unfold scandir, is_dir. rewrite bool_decide_true by done.
  change (dd_tree s) with (dd_tree (dd_tried s)) in *. change (dd_shown s) with (dd_shown (dd_tried s)). revert Ht Hp. generalize (dd_tried s). clear s. intros s Ht Hp.
  eapply (completes_bind _ _ _ _ (fun _ s' => dd_tree s' = cut_names p (dd_tree s) (rev ([char_dot; char_dot] ++ names_in p (dd_tree s))) /\ dd_shown s' = dd_shown s)).
  2: { intros _ s1 [Ht1 Hs1]. eapply completes_mono; [apply completes_remove|]. intros _ s2 [Hs2 Ht2]. rewrite Ht2, Ht1, cut_all by done. split; [done|congruence]. }
  generalize (rev ([char_dot; char_dot] ++ names_in p (dd_tree s))) as ns. clear Hp. intros ns. revert s Ht.
  induction ns as [|c ns IHns]; intros s Ht; cbn [tidy_each cut_names foldl]; [by apply completes_ret|].
  destruct (Z.eqb_spec c char_dot) as [->|Hc]; [by apply IHns|].
  eapply (completes_bind _ _ _ _ (fun _ s' => dd_tree s' = cut (p ++ [c]) (dd_tree s) /\ dd_shown s' = dd_shown s)).
  - destruct (dd_tree s !! (p ++ [c])) as [x|] eqn:E.
    + pose proof (tame_name root_len _ Ht _ _ _ E) as (_ & Hx & _). destruct (digit c) eqn:Hd.
      * apply bool_decide_eq_true_1 in Hx as ->. apply IH; [done|done|]. unfold DirDeep.len in *. rewrite length_app. cbn. lia.
      * apply bool_decide_eq_false_1 in Hx. eapply completes_mono; [apply completes_remove|]. intros _ s1 [Hs1 Ht1]. split; [|done].
        rewrite Ht1 by done. unfold dd_unlink. rewrite E, bool_decide_false by done. symmetry. apply (cut_leaf root_len); [done|congruence].
    + assert (cut (p ++ [c]) (dd_tree s) = dd_tree s) as -> by (by apply (cut_absent root_len)). destruct (digit c) eqn:Hd.
      * apply completes_tidy_absent; [by rewrite E|lia].
      * eapply completes_mono; [apply completes_remove|]. intros _ s1 [Hs1 Ht1]. split; [|done]. rewrite Ht1 by done. unfold dd_unlink. by rewrite E.
  - intros _ s1 [Ht1 Hs1]. eapply completes_mono; [apply IHns; rewrite Ht1; by apply tame_cut|]. intros _ s2 [Ht2 Hs2]. split; [by rewrite Ht2, Ht1|congruence].
Qed.
End Removed.

(** the whole tree, from its top *)
Lemma completes_tidy_all s : tame (dd_tree s) ->
  completes (stress_dir_tidy rm_sys root_len path_len []) s (fun _ s' => ((forall k, rm_sys k = None) -> dd_tree s' = ∅) /\ dd_shown s' = dd_shown s).
Proof.
  intros Ht. destruct (completes_tidy_any path_len [] s) as (u & s' & E & Hs); [unfold path_len, PATH_MAX; lia..|].
  exists u, s'. split; [done|]. split; [|done]. intros Hrm. destruct (dd_tree s !! []) as [x|] eqn:Ex.
  - pose proof (tame_root _ _ Ht _ Ex) as ->. destruct (completes_tidy Hrm path_len [] s) as (u' & s'' & E' & Ht' & _);
      [done|done|unfold path_len, PATH_MAX; lia|]. rewrite E in E'. injection E' as <- <-. rewrite Ht'.
    apply map_eq. intros q. rewrite lookup_cut, decide_True by apply prefix_nil. done.
  - destruct (completes_tidy_absent Hrm path_len [] s) as (u' & s'' & E' & Ht' & _); [by rewrite Ex|unfold path_len, PATH_MAX; lia|].
    rewrite E in E'. injection E' as <- <-. rewrite Ht'. apply map_eq. intros q. rewrite lookup_empty.
    destruct q as [|c q]; [done|]. apply (tame_none root_len _ [] (c :: q)); [done|by rewrite Ex|done].
Qed.
End Proofs.

(** (C29) Whatever calls fail, those of [stress_dir_tidy()] included, and whatever inodes are free, once the flag is
    cleared for good the stressor ends with success.  If no [scandir()], [unlink()] and [rmdir()] of [stress_dir_tidy()] fails for a reason of
    the system ([rm_sys]), whatever other calls fail, nothing of its tree is left; their failure is not noticed, and leaves
    what it concerns behind.  When no other call fails it reports nothing.  It is assumed that at
    most ten directories are made in a directory, as the option has it, so that their names are digits, and that nothing is there at the path of its
    tree before. *)
Theorem dirdeep_tidied flag max_ops sys rm_sys inodes root_len linkpath cleared dirdeep_dirs dirdeep_inodes s :
  (forall k, (cleared <= k)%nat -> flag k = false) -> (dirdeep_dirs <= 10)%nat -> dd_tree s = ∅ ->
  exists n s', stress_dirdeep flag max_ops sys rm_sys inodes root_len linkpath (S cleared) dirdeep_dirs dirdeep_inodes s = Some (EXIT_SUCCESS, n, s') /\
    ((forall k, rm_sys k = None) -> dd_tree s' = ∅) /\ ((forall k, sys k = None) -> dd_shown s' = dd_shown s).
Proof.
  intros Hflag Hten Ht.
  cut (completes (stress_dirdeep flag max_ops sys rm_sys inodes root_len linkpath (S cleared) dirdeep_dirs dirdeep_inodes) s
    (fun r s' => r.1 = EXIT_SUCCESS /\ ((forall k, rm_sys k = None) -> dd_tree s' = ∅) /\ ((forall k, sys k = None) -> dd_shown s' = dd_shown s))).
  { intros ([ret n] & s' & E & H1 & H). cbn in H1. subst ret. by exists n, s'. }
  eapply (completes_bind _ _ _ _ (fun _ s' => s' = dd_called s)); [by eexists _, _|]. intros avail s0 ->.
  eapply completes_bind; [apply completes_make; [done| |done|unfold path_len, PATH_MAX; lia|unfold path_len, PATH_MAX; lia]|].
  { cbn [dd_called dd_tree]. rewrite Ht. split; [apply tame_empty|]. split; [done|]. split; [done|]. intros q c E. by destruct q. }
  intros m s1 (Ht1 & Hc1 & _). eapply completes_bind; [apply (completes_rounds flag max_ops sys root_len cleared); [done|lia|lia]|].
  intros _ s2 [Ht2 Hc2]. rewrite <- Ht2 in Ht1.
  eapply completes_bind; [by apply (completes_tidy_all flag sys rm_sys inodes root_len)|].
  intros _ s3 [Ht3 Hs3]. apply completes_ret. split; [done|]. split; [done|]. intros Hq. rewrite Hs3. destruct Hc1 as [_ Hc1], Hc2 as [_ Hc2].
  by rewrite Hc2, Hc1.
Qed.

Lemma dirdeep_tidied_witness : exists n s',
  stress_dirdeep (fun k => k <? 40)%nat 0 (fun k => if (k =? 7)%nat then Some ENOSPC else None) (fun _ => None) (fun _ => 100000) 30 "/tmp/f" 41 2 (2 ^ 64 - 1)
    (Ddst ∅ 0 0 0 [] mwc_init 0) = Some (EXIT_SUCCESS, n, s') /\ dd_tree s' = ∅.
Proof.
  destruct (dirdeep_tidied (fun k => k <? 40)%nat 0 (fun k => if (k =? 7)%nat then Some ENOSPC else None) (fun _ => None) (fun _ => 100000) 30 "/tmp/f" 40 2 (2 ^ 64 - 1)
    (Ddst ∅ 0 0 0 [] mwc_init 0)) as (n & s' & E & Ht & _); [|lia|done|].
  - intros k Hk. by apply Nat.ltb_ge.
  - exists n, s'. split; [exact E|exact (Ht (fun _ => eq_refl))].
Defined.

(** When the [rmdir()] of the top fails, it is left, and the stressor succeeds without a word. *)
Theorem tidy_failure_leaves : exists n s',
  stress_dirdeep (fun k => k <? 1)%nat 0 (fun _ => None) (fun k => if (k =? 4)%nat then Some ENOMEM else None) (fun _ => 100000) 30 "/tmp/f" 3 0
    (2 ^ 64 - 1) (Ddst ∅ 0 0 0 [] mwc_init 0) = Some (EXIT_SUCCESS, n, s') /\ dd_tree s' !! [] = Some Dir /\ dd_shown s' = [].
Proof. vm_compute. do 2 eexists. done. Qed.
