(* ===== verification/Log.v ===== *)
(** * Messages (log.c)

    A message goes to the standard error, to the log file if one is open, and to the
    system's log.  A text written is [None] if it is the contents of the buffer on the
    stack when nothing was put there.  The text of a message is what the format and its
    arguments give; memory and streams do not fail.

    - [failures_abort]: whatever is reported, the stressor is told to stop exactly when
      five failures have been, once, and what is not a failure never stops it.
    - [log_file_lines]: without --log-brief the log file has the lines shown; with it,
      not one line written to the file is defined. *)

From S2P Require Import Prelude Flags Outcome Report.

Definition ABORT_FAILURES : Z := 5.

(** the static variables of log.c, the flag, and what was written *)
Record logst := Logst {
  abort_fails : Z; abort_msg_emitted : bool; g_keep_stressing_flag : bool;
  log_file : option (list (option string)); to_stderr : list string; to_syslog : list (option string) }.

Definition log_start : logst := Logst 0 false true None [] [].

Definition newline : string := String (Ascii.ascii_of_nat 10) EmptyString.
Definition abort_line : string := "info: " +:+ show_Z ABORT_FAILURES +:+ " failures reached, aborting stress process" +:+ newline.

Section Log.
Variable g_opt_flags : Z.
Variable g_app_name : string.
Variable pid : Z.

Definition msg_type (flag : Z) : string :=
  let type := EmptyString in
  let type := if c_true (flag .& PR_ERROR) then "error:" else type in
  let type := if c_true (flag .& PR_DEBUG) then "debug:" else type in
  let type := if c_true (flag .& PR_INFO) then "info: " else type in
  if c_true (flag .& PR_FAIL) then "fail: " else type.

(** [buf]: the type and the process, and as much of the text as there is room for *)
Definition msg_buf (flag : Z) (msg : string) : string :=
  let head := msg_type flag +:+ " [" +:+ show_Z pid +:+ "] " in
  head +:+ String.substring 0 (4096 - String.length head - 1) msg.

Definition shown (flag : Z) : bool := c_true (flag .& PR_FAIL) || c_true (g_opt_flags .& flag).
Definition brief : bool := c_true (g_opt_flags .& OPT_FLAGS_LOG_BRIEF).

(** one more failure *)
Definition count_fail (s : logst) : logst :=
  let s := Logst (u16 (abort_fails s + 1)) (abort_msg_emitted s) (g_keep_stressing_flag s) (log_file s) (to_stderr s) (to_syslog s) in
  if (ABORT_FAILURES <=? abort_fails s) && negb (abort_msg_emitted s)
  then Logst (abort_fails s) true false (log_file s) (to_stderr s ++ [abort_line]) (to_syslog s)
  else s.

(** the value returned is that of the printing function *)
Definition pr_msg (flag : Z) (msg : string) (s : logst) : Z * logst :=
  if shown flag then
    let buf := if brief then None else Some (msg_buf flag msg) in
    let line := match buf with None => msg | Some buf => g_app_name +:+ ": " +:+ buf end in
    let s := Logst (abort_fails s) (abort_msg_emitted s) (g_keep_stressing_flag s) (log_file s) (to_stderr s ++ [line]) (to_syslog s) in
    let s := if c_true (flag .& PR_FAIL) then count_fail s else s in
    let s := Logst (abort_fails s) (abort_msg_emitted s) (g_keep_stressing_flag s)
      ((fun ls => ls ++ [(fun buf => g_app_name +:+ ": " +:+ buf) <$> buf]) <$> log_file s) (to_stderr s) (to_syslog s) in
    (Z.of_nat (String.length msg),
     if c_true (g_opt_flags .& OPT_FLAGS_SYSLOG) && negb (c_true (flag .& PR_DEBUG))
     then Logst (abort_fails s) (abort_msg_emitted s) (g_keep_stressing_flag s) (log_file s) (to_stderr s) (to_syslog s ++ [buf])
     else s)
  else (0, s).

Definition pr_dbg (msg : string) (s : logst) : logst := (pr_msg PR_DEBUG msg s).2.
Definition pr_inf (msg : string) (s : logst) : logst := (pr_msg PR_INFO msg s).2.
Definition pr_err (msg : string) (s : logst) : logst := (pr_msg PR_ERROR msg s).2.
Definition pr_fail (msg : string) (s : logst) : logst := (pr_msg PR_FAIL msg s).2.
Definition pr_tidy (g_caught_sigint : bool) (msg : string) (s : logst) : logst :=
  (pr_msg (if g_caught_sigint then PR_INFO else PR_DEBUG) msg s).2.

(** [strerror]: the text of an error number *)
Variable strerror : Z -> string.

Definition pr_msg_fail (flag : Z) (name what : string) (err : Z) (s : logst) : logst :=
  (pr_msg flag (name +:+ ": " +:+ what +:+ " failed, errno=" +:+ show_Z err +:+ " (" +:+ strerror err +:+ ")" +:+ newline) s).2.
Definition pr_fail_err__ (errno : Z) (name msg : string) : logst -> logst := pr_msg_fail (PR_FAIL .| PR_ERROR) name msg errno.
Definition pr_fail_errno__ (name msg : string) (err : Z) : logst -> logst := pr_msg_fail (PR_FAIL .| PR_ERROR) name msg err.
Definition pr_fail_dbg__ (errno : Z) (name msg : string) : logst -> logst := pr_msg_fail PR_DEBUG name msg errno.

(** [fopen]: whether the file could be opened, which empties it *)
Definition pr_openlog (fopen : bool) (filename : option string) (s : logst) : logst :=
  match filename with
  | None => s
  | Some filename =>
      let s := Logst (abort_fails s) (abort_msg_emitted s) (g_keep_stressing_flag s) (if fopen then Some [] else None) (to_stderr s) (to_syslog s) in
      if fopen then s else pr_err ("Cannot open log file " +:+ filename +:+ newline) s
  end.

Definition pr_closelog (s : logst) : logst :=
  Logst (abort_fails s) (abort_msg_emitted s) (g_keep_stressing_flag s) None (to_stderr s) (to_syslog s).

(** a sequence of messages *)
Definition pr_msgs (msgs : list (Z * string)) (s : logst) : logst := foldl (fun s m => (pr_msg m.1 m.2 s).2) s msgs.

(** ** What the messages do *)

Definition is_fail (m : Z * string) : bool := c_true (m.1 .& PR_FAIL).
Definition fails (msgs : list (Z * string)) : nat := length (filter is_fail msgs).

(** the line of a message, and the lines after [n] failures: the fifth failure is followed by the notice *)
Definition line_of (m : Z * string) : string := if brief then m.2 else g_app_name +:+ ": " +:+ msg_buf m.1 m.2.
Fixpoint lines_from (n : nat) (msgs : list (Z * string)) : list string :=
  match msgs with
  | [] => []
  | m :: msgs =>
      if is_fail m then line_of m :: (if Z.of_nat (S n) =? ABORT_FAILURES then [abort_line] else []) ++ lines_from (S n) msgs
      else (if shown m.1 then [line_of m] else []) ++ lines_from n msgs
  end.
(** and those of the log file *)
Definition logged (m : Z * string) : option string := if brief then None else Some (line_of m).

(** after [n] failures *)
Definition counted (n : nat) (s : logst) : Prop :=
  abort_fails s = u16 (Z.of_nat n) /\ abort_msg_emitted s = (ABORT_FAILURES <=? Z.of_nat n) /\
  g_keep_stressing_flag s = negb (abort_msg_emitted s).

Lemma count_fail_counted n s :
  counted n s -> counted (S n) (count_fail s) /\
    to_stderr (count_fail s) = to_stderr s ++ (if Z.of_nat (S n) =? ABORT_FAILURES then [abort_line] else []) /\
    log_file (count_fail s) = log_file s.
Proof.
  intros (H1 & H2 & H3). unfold count_fail. cbn [abort_fails abort_msg_emitted to_stderr log_file g_keep_stressing_flag].
  assert (u16 (abort_fails s + 1) = u16 (Z.of_nat (S n))) as E.
  { rewrite H1. unfold u16. rewrite Zplus_mod_idemp_l. f_equal. lia. }
  rewrite E. unfold counted. rewrite H3, H2. unfold ABORT_FAILURES in *.
  destruct (Z.leb_spec 5 (Z.of_nat n)) as [Hn|Hn].
  - rewrite andb_false_r. cbn. destruct (Z.leb_spec 5 (Z.of_nat (S n))), (Z.eqb_spec (Z.of_nat (S n)) 5); try lia.
    by rewrite app_nil_r.
  - assert (u16 (Z.of_nat (S n)) = Z.of_nat (S n)) as -> by (unfold u16; apply Z.mod_small; lia). cbn [negb]. rewrite andb_true_r.
    destruct (Z.leb_spec 5 (Z.of_nat (S n))), (Z.eqb_spec (Z.of_nat (S n)) 5); try lia; cbn; rewrite ?app_nil_r;
      (repeat split; unfold u16; try (symmetry; apply Z.mod_small); try lia; try done).
Qed.

(** the state of the count after more output *)
Lemma counted_same n s s' :
  abort_fails s' = abort_fails s -> abort_msg_emitted s' = abort_msg_emitted s -> g_keep_stressing_flag s' = g_keep_stressing_flag s ->
  counted n s -> counted n s'.
Proof. unfold counted. intros -> -> ->. done. Qed.

Lemma pr_msg_spec n m s :
  counted n s -> let s' := (pr_msg m.1 m.2 s).2 in
  counted (if is_fail m then S n else n) s' /\
  to_stderr s' = to_stderr s ++ (if is_fail m then line_of m :: (if Z.of_nat (S n) =? ABORT_FAILURES then [abort_line] else [])
                                 else if shown m.1 then [line_of m] else []) /\
  log_file s' = (fun ls => ls ++ (if shown m.1 then [logged m] else [])) <$> log_file s.
Proof.
  intros H. unfold pr_msg, shown, logged, line_of, is_fail. set (f := c_true (m.1 .& PR_FAIL)).
  set (line := match (if brief then None else _) with None => _ | Some _ => _ end).
  assert (line = if brief then m.2 else g_app_name +:+ ": " +:+ msg_buf m.1 m.2) as Hline by (unfold line; by destruct brief).
  set (s1 := Logst _ _ _ _ (to_stderr s ++ [line]) _). destruct f; cbn [orb].
  - destruct (count_fail_counted n s1) as (H1 & H2 & H3); [by eapply counted_same|]. cbn [snd].
    destruct (_ && _); cbn [to_stderr log_file]; (split; [by eapply counted_same|]; split; [rewrite H2; cbn; rewrite <- app_assoc, Hline; done|]);
      rewrite H3; cbn; (destruct (log_file s); [|done]); cbn; by destruct brief.
  - destruct (c_true (g_opt_flags .& m.1)); cbn [snd].
    + destruct (_ && _); cbn [to_stderr log_file s1]; (split; [by eapply counted_same|]; split; [by rewrite Hline|]);
        (destruct (log_file s); [|done]); cbn; by destruct brief.
    + split; [done|]. split; [by rewrite app_nil_r|]. destruct (log_file s); [|done]. cbn. by rewrite app_nil_r.
Qed.

Lemma pr_msgs_spec n msgs s :
  counted n s -> let s' := pr_msgs msgs s in
  counted (n + fails msgs) s' /\ to_stderr s' = to_stderr s ++ lines_from n msgs /\
  log_file s' = (fun ls => ls ++ (logged <$> filter (fun m => shown m.1) msgs)) <$> log_file s.
Proof.
  revert n s. induction msgs as [|m msgs IH]; intros n s H; cbn [pr_msgs foldl lines_from].
  { rewrite Nat.add_0_r, app_nil_r. split; [done|]. split; [done|]. destruct (log_file s); [|done]. cbn. by rewrite app_nil_r. }
  destruct (pr_msg_spec n m s H) as (H1 & H2 & H3). destruct (IH _ _ H1) as (I1 & I2 & I3). unfold pr_msgs in *.
  rewrite I2, I3, H2, H3, <- app_assoc. split; [|split].
  - unfold fails. rewrite filter_cons. destruct (is_fail m) eqn:E; [rewrite decide_True by (rewrite ?E; naive_solver); cbn [length]|rewrite decide_False by (rewrite ?E; naive_solver)];
      [by rewrite <- Nat.add_succ_comm|done].
  - by destruct (is_fail m).
  - rewrite filter_cons. destruct (log_file s) as [ls|]; [|done]. cbn. f_equal. rewrite <- app_assoc. f_equal.
    destruct (shown m.1) eqn:E; [rewrite decide_True by (rewrite ?E; naive_solver)|rewrite decide_False by (rewrite ?E; naive_solver)]; done.
Qed.

(** Whatever messages a process reports, in whatever order: it is told to stop exactly if
    five of them are failures, which are always shown, and the lines on the standard error
    are those of the messages shown, with the notice once, behind the fifth failure. *)
Theorem failures_abort msgs :
  let s := pr_msgs msgs log_start in
  (g_keep_stressing_flag s = false <-> ABORT_FAILURES <= Z.of_nat (fails msgs)) /\ to_stderr s = lines_from 0 msgs /\
  (length (filter (fun m => shown m.1) msgs) <= length (to_stderr s) <= S (length (filter (fun m => shown m.1) msgs)))%nat.
Proof.
  cbv zeta. destruct (pr_msgs_spec 0 msgs log_start) as ((_ & H2 & H3) & H4 & _); [done|]. cbn [Nat.add] in *. rewrite !H4. cbn [to_stderr log_start app].
  split; [|split; [done|]].
  - rewrite H3, H2. unfold ABORT_FAILURES. destruct (Z.leb_spec 5 (Z.of_nat (fails msgs))); [split; [lia|done]|split; [done|lia]].
  - clear. assert (forall n, length (filter (fun m => shown m.1) msgs) <= length (lines_from n msgs) <=
      length (filter (fun m => shown m.1) msgs) + if (Z.of_nat n <? ABORT_FAILURES)%Z then 1 else 0)%nat as H; [|specialize (H 0%nat); change (Z.of_nat 0 <? ABORT_FAILURES) with true in H; cbv beta iota in H; lia].
    induction msgs as [|m msgs IH]; intros n; cbn [lines_from]; [cbn; lia|]. rewrite filter_cons.
    destruct (is_fail m) eqn:E.
    + rewrite decide_True by (unfold shown; unfold is_fail in E; rewrite E; naive_solver). cbn [length]. rewrite length_app. specialize (IH (S n)).
      unfold ABORT_FAILURES in *. destruct (Z.eqb_spec (Z.of_nat (S n)) 5), (Z.ltb_spec (Z.of_nat (S n)) 5), (Z.ltb_spec (Z.of_nat n) 5); cbn [length]; lia.
    + specialize (IH n). rewrite length_app. destruct (shown m.1) eqn:Es; [rewrite decide_True by (rewrite ?Es; naive_solver)|rewrite decide_False by (rewrite ?Es; naive_solver)]; cbn [length]; lia.
Qed.

(** The log file, once open, gets one line for each message shown: without --log-brief the
    line shown, with it the contents of a buffer that was never written. *)
Theorem log_file_lines filename msgs :
  log_file (pr_msgs msgs (pr_openlog true (Some filename) log_start)) =
  Some ((fun m => if brief then None else Some (g_app_name +:+ ": " +:+ msg_buf m.1 m.2)) <$> filter (fun m => shown m.1) msgs).
Proof.
  destruct (pr_msgs_spec 0 msgs (pr_openlog true (Some filename) log_start)) as (_ & _ & ->); [done|]. cbn. f_equal.
  apply list_fmap_ext. intros _ m _. unfold logged, line_of. by destruct brief.
Qed.
End Log.
