(* ===== verification/Thermal.v ===== *)
(** * Thermal zones (thermal-zone.c)

    The zones are found under /sys when the program starts, each instance of a stressor
    reads their temperatures when it ends, and the averages are shown at the end.  The
    directory, the files and whether there is memory are arguments.

    - [thermal_in_range]: the zones get the places from 0 on, of which there are enough,
      and each instance has the temperature of each zone at the place of the zone.
    - [thermal_averages]: what is shown with the k-th zone is the average of the first k
      zones, since the sums are not started anew for the next zone. *)

From S2P Require Import Prelude Float Outcome Affinity ParseOpts Procs ProcOps.

Definition STRESS_THERMAL_ZONES_MAX : nat := 31.

Record tz_info := TzInfo { tz_path : string; tz_type : string; tz_index : nat }.

(** the system: the names in /sys/class/thermal; the first line of a file, without its end; the text of a file *)
Record thermal_fs := ThermalFs {
  entries : option (list string);
  line_of_file : string -> option string;
  text_of_file : string -> option string }.

Section Thermal.
Variable fs : thermal_fs.
(** whether the n-th allocation succeeds *)
Variable alloc : nat -> bool.

Definition zone_file (name file : string) : string := "/sys/class/thermal/" +:+ name +:+ "/" +:+ file.

(** [fgets()] into 128 bytes *)
Definition zone_type (name : string) : option string := String.substring 0 127 <$> line_of_file fs (zone_file name "type").

(** a zone takes three allocations; the list is the one of [*tz_info_list] *)
Fixpoint tz_scan (names : list string) (i : nat) (tz_info_list : list tz_info) : Z * list tz_info :=
  match names with
  | [] => (0, tz_info_list)
  | name :: names =>
      if negb (String.prefix "thermal_zone" name) then tz_scan names i tz_info_list
      else if (STRESS_THERMAL_ZONES_MAX <=? i)%nat then (0, tz_info_list)
      else if negb (alloc (3 * i)%nat) then (-1, tz_info_list)
      else if negb (alloc (3 * i + 1)%nat) then (-1, tz_info_list)
      else
        match zone_type name with
        | Some type =>
            if alloc (3 * i + 2)%nat then tz_scan names (S i) (TzInfo name type i :: tz_info_list)
            else (-1, tz_info_list)
        | None => (-1, tz_info_list)
        end
  end.

Definition tz_init : Z * list tz_info :=
  match entries fs with
  | None => (0, [])
  | Some names => tz_scan names 0 []
  end.

(** [fscanf(fp, "%" SCNu64, ...)] *)
Definition zone_temp (name : string) : Z :=
  match text_of_file fs (zone_file name "temp") with
  | None => 0
  | Some text => match scan_number (no_width text) text with Some p => strtoul p | None => 0 end
  end.

(** [tz->tz_stat[]]; [None]: a place out of the array *)
Definition tz_get_temperatures (tz_info_list : list tz_info) (tz_stat : list Z) : option (list Z) :=
  foldl (fun tz_stat z =>
    tz_stat ← tz_stat;
    if (tz_index z <? length tz_stat)%nat then Some (<[tz_index z := zone_temp (tz_path z)]> tz_stat) else None) (Some tz_stat) tz_info_list.
End Thermal.

(** *** [tz_dump()]: the zones with what is shown of them, for one stressor *)

(** a temperature above 250 degrees is not believed *)
Definition believed (temp : Z) : Z := if 250000 <? temp then 0 else temp.

Definition add_zone (z : tz_info) (stats : list (list Z)) (total : Z) : Z :=
  foldl (fun total tz_stat => u64 (total + believed (tz_stat !!! tz_index z))) total stats.

Definition zone_average (total count : Z) : spec_float :=
  fdiv double_ (fdiv double_ (of_int double_ total) (of_int double_ count)) (of_int double_ 1000).

(** [stats]: the temperatures of the instances that were started *)
Fixpoint dump_zones (zones : list tz_info) (stats : list (list Z)) (total count : Z) : list (string * spec_float) :=
  match zones with
  | [] => []
  | z :: zones =>
      let total := add_zone z stats total in
      let count := u32 (count + Z.of_nat (length stats)) in
      (if c_true total then [(tz_type z, zone_average total count)] else []) ++ dump_zones zones stats total count
  end.

(** the stressors with a heading and their lines; an empty list: "not available" *)
Definition tz_dump (zones : list tz_info) (procs : list (cstr * list (list Z))) : list (cstr * list (string * spec_float)) :=
  filter (fun p => p.2 <> []) ((fun p => (munge_underscore p.1, dump_zones zones p.2 0 0)) <$> procs).

(** ** The places *)

(** places from [n - 1] down to 0 *)
Definition placed (l : list tz_info) : Prop := tz_index <$> l = reverse (seq 0 (length l)).

Lemma tz_scan_placed fs alloc names i l :
  placed l -> length l = i -> (i <= STRESS_THERMAL_ZONES_MAX)%nat ->
  placed (tz_scan fs alloc names i l).2 /\ (length (tz_scan fs alloc names i l).2 <= STRESS_THERMAL_ZONES_MAX)%nat.
Proof.
  revert i l. induction names as [|name names IH]; intros i l Hp Hl Hi; cbn [tz_scan]; [by subst|].
  destruct (negb (String.prefix _ _)); [by apply IH|]. destruct (Nat.leb_spec STRESS_THERMAL_ZONES_MAX i); [by subst|].
  destruct (negb (alloc _)); [by subst|]. destruct (negb (alloc _)); [by subst|]. destruct (zone_type fs name); [|by subst].
  destruct (alloc _); [|by subst]. apply IH; [|cbn; lia..]. unfold placed in *. cbn [length fmap list_fmap tz_index].
  rewrite Hp, seq_S, reverse_app, Hl. done.
Qed.

Lemma placed_index l k z : placed l -> l !! k = Some z -> tz_index z = (length l - 1 - k)%nat.
Proof.
  intros Hp Hk. pose proof (lookup_lt_Some _ _ _ Hk) as Hlt. assert ((tz_index <$> l) !! k = Some (tz_index z)) as E by by rewrite list_lookup_fmap, Hk.
  rewrite Hp, reverse_lookup, length_seq in E by by rewrite length_seq. rewrite lookup_seq in E. lia.
Qed.

Lemma placed_inj l z z' : placed l -> z ∈ l -> z' ∈ l -> tz_index z = tz_index z' -> z = z'.
Proof.
  intros Hp [k Hk]%list_elem_of_lookup [k' Hk']%list_elem_of_lookup E.
  rewrite (placed_index l k z), (placed_index l k' z') in E by done.
  pose proof (lookup_lt_Some _ _ _ Hk). pose proof (lookup_lt_Some _ _ _ Hk'). assert (k = k') as -> by lia. congruence.
Qed.

Lemma get_temperatures_ok fs l tz_stat :
  NoDup (tz_index <$> l) -> Forall (fun z => tz_index z < length tz_stat)%nat l ->
  exists tz_stat', tz_get_temperatures fs l tz_stat = Some tz_stat' /\ length tz_stat' = length tz_stat /\
    (forall z, z ∈ l -> tz_stat' !! tz_index z = Some (zone_temp fs (tz_path z))) /\
    (forall k, k ∉ tz_index <$> l -> tz_stat' !! k = tz_stat !! k).
Proof.
  revert tz_stat. induction l as [|z l IH]; intros tz_stat Hn Hf; [exists tz_stat; repeat split; set_solver|].
  apply NoDup_cons in Hn as [Hz Hn]. apply Forall_cons in Hf as [Hlt Hf]. cbn [tz_get_temperatures foldl mbind option_bind].
  destruct (Nat.ltb_spec (tz_index z) (length tz_stat)); [|lia].
  destruct (IH (<[tz_index z := zone_temp fs (tz_path z)]> tz_stat) Hn) as (t' & E & Hl & H1 & H2); [by rewrite length_insert|].
  exists t'. split; [exact E|]. split; [by rewrite length_insert in Hl|]. split.
  - intros z' [-> | Hz']%elem_of_cons; [|by apply H1]. rewrite H2 by done. by rewrite list_lookup_insert_eq.
  - intros k Hk. cbn in Hk. rewrite H2 by set_solver. apply list_lookup_insert_ne. set_solver.
Qed.

(** Whatever the directory holds and whether there is memory or not, there are at most 31
    zones, with different places, and reading the temperatures stays in the array, at each
    zone's place the number read from its file. *)
Theorem thermal_in_range fs alloc :
  let zones := (tz_init fs alloc).2 in
  (length zones <= STRESS_THERMAL_ZONES_MAX)%nat /\ NoDup (tz_index <$> zones) /\
  exists tz_stat, tz_get_temperatures fs zones (repeat 0 STRESS_THERMAL_ZONES_MAX) = Some tz_stat /\
    length tz_stat = STRESS_THERMAL_ZONES_MAX /\
    forall z, z ∈ zones -> tz_stat !! tz_index z = Some (zone_temp fs (tz_path z)).
Proof.
  cbv zeta. assert (placed (tz_init fs alloc).2 /\ (length (tz_init fs alloc).2 <= STRESS_THERMAL_ZONES_MAX)%nat) as [Hp Hl].
  { unfold tz_init. destruct (entries fs); [|split; [done|cbn; lia]]. apply tz_scan_placed; [done..|lia]. }
  generalize dependent ((tz_init fs alloc).2). intros zones Hp Hl. split; [done|].
  assert (NoDup (tz_index <$> zones)) as Hn by (rewrite Hp, reverse_Permutation; apply NoDup_seq). split; [done|].
  edestruct get_temperatures_ok as (t & E & Ht & H1 & _); [exact Hn| |exists t; split; [exact E|]; rewrite repeat_length in Ht; done].
  apply Forall_lookup. intros k z Hk. rewrite (placed_index zones k z), repeat_length by done. apply lookup_lt_Some in Hk. lia.
Qed.

(** ** The averages *)

(** the sum of the temperatures of a zone, and of zones *)
Definition zone_total (stats : list (list Z)) (z : tz_info) : Z := foldr (fun t n => believed (t !!! tz_index z) + n) 0 stats.
Definition zones_total (stats : list (list Z)) (zones : list tz_info) : Z := foldr (fun z n => zone_total stats z + n) 0 zones.

(** what is shown with the k-th zone *)
Definition zone_line (zones : list tz_info) (stats : list (list Z)) (k : nat) (z : tz_info) : list (string * spec_float) :=
  let total := zones_total stats (take (S k) zones) in
  if c_true total then [(tz_type z, zone_average total (Z.of_nat (S k) * Z.of_nat (length stats)))] else [].

Lemma believed_range x : 0 <= x -> 0 <= believed x <= 250000.
Proof. intros H. unfold believed. destruct (Z.ltb_spec 250000 x); lia. Qed.

Lemma lookup_total_nonneg (t : list Z) k : Forall (fun x => 0 <= x) t -> 0 <= t !!! k.
Proof.
  intros H. destruct (t !! k) as [x|] eqn:E; [rewrite (list_lookup_total_correct _ _ _ E); by eapply (Forall_lookup_1 (fun x => 0 <= x))|].
  by rewrite list_lookup_total_alt, E.
Qed.

Lemma zone_total_range stats z :
  Forall (Forall (fun x => 0 <= x)) stats -> 0 <= zone_total stats z <= 250000 * Z.of_nat (length stats).
Proof.
  induction 1 as [|t l Ht Hl IH]; cbn [zone_total foldr length]; [lia|].
  pose proof (believed_range (t !!! tz_index z) (lookup_total_nonneg t _ Ht)). unfold zone_total in IH. lia.
Qed.

Section Averages.
Variable stats : list (list Z).
Hypothesis readings : Forall (Forall (fun x => 0 <= x)) stats.

Lemma zones_total_range zones : 0 <= zones_total stats zones <= 250000 * Z.of_nat (length stats) * Z.of_nat (length zones).
Proof.
  induction zones as [|z zones IH]; cbn [zones_total foldr length]; [lia|]. pose proof (zone_total_range stats z readings). unfold zones_total in IH. nia.
Qed.

Lemma add_zone_total z total : 0 <= total -> total + zone_total stats z < 2 ^ 64 -> add_zone z stats total = total + zone_total stats z.
Proof.
  unfold add_zone. revert total. induction readings as [|t l Ht Hl IH]; intros total H0 Hs; cbn [zone_total foldr foldl] in *; [lia|].
  pose proof (believed_range (t !!! tz_index z) (lookup_total_nonneg t _ Ht)).
  pose proof (zone_total_range l z Hl).
  unfold zone_total in *. rewrite u64_small by (unfold fits; lia). rewrite IH by (done || lia). lia.
Qed.

Lemma dump_zones_from before zones :
  Z.of_nat (length before + length zones) * Z.of_nat (length stats) < 2 ^ 32 ->
  dump_zones zones stats (zones_total stats before) (Z.of_nat (length before) * Z.of_nat (length stats)) =
  mjoin (imap (fun k z => zone_line (before ++ zones) stats (length before + k) z) zones).
Proof.
  revert before. induction zones as [|z zones IH]; intros before Hs; [done|]. cbn [dump_zones imap mjoin list_join length] in *.
  pose proof (zones_total_range before). pose proof (zone_total_range stats z readings).
  assert (zones_total stats before + zone_total stats z = zones_total stats (before ++ [z])) as E.
  { clear. induction before as [|b before IH]; cbn [app zones_total foldr] in *; [lia|]. unfold zones_total in IH. lia. }
  rewrite add_zone_total, E by nia. unfold u32. rewrite Z.mod_small by nia.
  replace (Z.of_nat (length before) * Z.of_nat (length stats) + Z.of_nat (length stats)) with (Z.of_nat (length (before ++ [z])) * Z.of_nat (length stats))
    by (rewrite length_app; cbn [length]; nia).
  rewrite IH by (rewrite length_app; cbn [length]; nia). f_equal.
  - unfold zone_line. rewrite Nat.add_0_r.
    replace (take (S (length before)) (before ++ z :: zones)) with (before ++ [z]) by (rewrite take_app_ge by lia; by rewrite Nat.sub_succ_l, Nat.sub_diag by lia).
    rewrite length_app. cbn [length]. by rewrite Nat.add_1_r.
  - f_equal. apply imap_ext. intros k x _. rewrite <- app_assoc, length_app. cbn [length app compose]. f_equal. lia.
Qed.
End Averages.

(** What is shown with the k-th zone is the average of all temperatures of the first k
    zones: that of the zone itself for the first one only. *)
Theorem thermal_averages zones stats :
  Forall (Forall (fun x => 0 <= x)) stats -> Z.of_nat (length zones) * Z.of_nat (length stats) < 2 ^ 32 ->
  dump_zones zones stats 0 0 = mjoin (imap (zone_line zones stats) zones).
Proof. intros Hr Hs. exact (dump_zones_from stats Hr [] zones Hs). Qed.

(** 20 and 60 degrees, shown as 20 and 40 *)
Lemma thermal_averages_witness :
  dump_zones [TzInfo "thermal_zone0" "acpi" 0; TzInfo "thermal_zone1" "cpu" 1] [[20000; 60000]] 0 0 =
  [("acpi", of_int double_ 20); ("cpu", of_int double_ 40)].
Proof.
  rewrite (thermal_averages [TzInfo "thermal_zone0" "acpi" 0; TzInfo "thermal_zone1" "cpu" 1] [[20000; 60000]]);
    [reflexivity|repeat constructor; lia|cbn; lia].
Defined.
