(* ===== verification/Perf.v ===== *)
(** * Performance counters (perf.c)

    Each instance of a stressor opens the counters of a table, reads them when it is done
    and closes them; their totals are shown at the end.  What the kernel answers is an
    argument; a pointer to the counters is never null.

    - [perf_counters_read]: whatever the kernel answers, at the end every descriptor that was
      opened has been closed once, and the counter of an entry is what was read, scaled by
      the share of the time it ran, or marked invalid.
    - [perf_totals_of_first]: the total shown for a counter is that of the first instance,
      multiplied by the number of instances. *)

From Stdlib Require Import Ascii Permutation.
From S2P Require Import Prelude Float CString Outcome Affinity ParseOpts Procs ProcOps Named Report.

(** ** The table *)

(** numbers of the kernel's interface (linux/perf_event.h) *)
Inductive perf_type := PERF_TYPE_HARDWARE | PERF_TYPE_SOFTWARE | PERF_TYPE_TRACEPOINT | PERF_TYPE_HW_CACHE.

#[global] Instance perf_type_eq_dec : EqDecision perf_type.
Proof. solve_decision. Defined.

Definition PERF_COUNT_HW_CPU_CYCLES : Z := 0.
Definition PERF_COUNT_HW_INSTRUCTIONS : Z := 1.
Definition PERF_COUNT_HW_CACHE_REFERENCES : Z := 2.
Definition PERF_COUNT_HW_CACHE_MISSES : Z := 3.
Definition PERF_COUNT_HW_BRANCH_INSTRUCTIONS : Z := 4.
Definition PERF_COUNT_HW_BRANCH_MISSES : Z := 5.
Definition PERF_COUNT_HW_BUS_CYCLES : Z := 6.
Definition PERF_COUNT_HW_STALLED_CYCLES_FRONTEND : Z := 7.
Definition PERF_COUNT_HW_STALLED_CYCLES_BACKEND : Z := 8.
Definition PERF_COUNT_HW_REF_CPU_CYCLES : Z := 9.
Definition PERF_COUNT_SW_CONTEXT_SWITCHES : Z := 3.
Definition PERF_COUNT_SW_CPU_MIGRATIONS : Z := 4.
Definition PERF_COUNT_SW_PAGE_FAULTS_MIN : Z := 5.
Definition PERF_COUNT_SW_PAGE_FAULTS_MAJ : Z := 6.
Definition PERF_COUNT_SW_ALIGNMENT_FAULTS : Z := 7.
Inductive cache_id := L1D | L1I | LL | DTLB | ITLB | BPU | NODE.
Inductive cache_op := READ | WRITE | PREFETCH.
Inductive cache_result := ACCESS | MISS.
Definition cache_number (c : cache_id) : Z :=
  match c with L1D => 0 | L1I => 1 | LL => 2 | DTLB => 3 | ITLB => 4 | BPU => 5 | NODE => 6 end.
Definition op_number (o : cache_op) : Z := match o with READ => 0 | WRITE => 1 | PREFETCH => 2 end.
Definition result_number (r : cache_result) : Z := match r with ACCESS => 0 | MISS => 1 end.

Definition UNRESOLVED : Z := 2 ^ 64 - 1.
Definition STRESS_PERF_INVALID : Z := 2 ^ 64 - 1.
Definition STRESS_PERF_MAX : nat := 128.

Record perf_info := PerfInfo { p_type : perf_type; p_config : Z; p_path : option string; p_label : string }.

Definition PERF_INFO_TP (path label : string) : perf_info := PerfInfo PERF_TYPE_TRACEPOINT UNRESOLVED (Some path) label.
Definition PERF_INFO_HW (config : Z) (label : string) : perf_info := PerfInfo PERF_TYPE_HARDWARE config None label.
Definition PERF_INFO_SW (config : Z) (label : string) : perf_info := PerfInfo PERF_TYPE_SOFTWARE config None label.
Definition PERF_INFO_HW_C (c : cache_id) (o : cache_op) (r : cache_result) (label : string) : perf_info :=
  PerfInfo PERF_TYPE_HW_CACHE (cache_number c .| (op_number o <<< 8) .| (result_number r <<< 16)) None label.

Section Table.
Variable defined : string -> bool.

Definition perf_hardware : list perf_info :=
  ifdef defined "_SNG_PERF_COUNT_HW_CPU_CYCLES"
    [PERF_INFO_HW PERF_COUNT_HW_CPU_CYCLES "CPU Cycles"] ++
  ifdef defined "_SNG_PERF_COUNT_HW_INSTRUCTIONS"
    [PERF_INFO_HW PERF_COUNT_HW_INSTRUCTIONS "Instructions"] ++
  ifdef defined "_SNG_PERF_COUNT_HW_BRANCH_INSTRUCTIONS"
    [PERF_INFO_HW PERF_COUNT_HW_BRANCH_INSTRUCTIONS "Branch Instructions"] ++
  ifdef defined "_SNG_PERF_COUNT_HW_BRANCH_MISSES"
    [PERF_INFO_HW PERF_COUNT_HW_BRANCH_MISSES "Branch Misses"] ++
  ifdef defined "_SNG_PERF_COUNT_HW_STALLED_CYCLES_FRONTEND"
    [PERF_INFO_HW PERF_COUNT_HW_STALLED_CYCLES_FRONTEND "Stalled Cycles Frontend"] ++
  ifdef defined "_SNG_PERF_COUNT_HW_STALLED_CYCLES_BACKEND"
    [PERF_INFO_HW PERF_COUNT_HW_STALLED_CYCLES_BACKEND "Stalled Cycles Backend"] ++
  ifdef defined "_SNG_PERF_COUNT_HW_BUS_CYCLES"
    [PERF_INFO_HW PERF_COUNT_HW_BUS_CYCLES "Bus Cycles"] ++
  ifdef defined "_SNG_PERF_COUNT_HW_REF_CPU_CYCLES"
    [PERF_INFO_HW PERF_COUNT_HW_REF_CPU_CYCLES "Total Cycles"] ++
  ifdef defined "_SNG_PERF_COUNT_HW_CACHE_REFERENCES"
    [PERF_INFO_HW PERF_COUNT_HW_CACHE_REFERENCES "Cache References"] ++
  ifdef defined "_SNG_PERF_COUNT_HW_CACHE_MISSES"
    [PERF_INFO_HW PERF_COUNT_HW_CACHE_MISSES "Cache Misses"].

Definition perf_cache : list perf_info :=
  ifdef defined "_SNG_PERF_COUNT_HW_CACHE_L1D"
    [PERF_INFO_HW_C L1D READ ACCESS "Cache L1D Read";
     PERF_INFO_HW_C L1D READ MISS "Cache L1D Read Miss";
     PERF_INFO_HW_C L1D WRITE ACCESS "Cache L1D Write";
     PERF_INFO_HW_C L1D WRITE MISS "Cache L1D Write Miss";
     PERF_INFO_HW_C L1D PREFETCH ACCESS "Cache L1D Prefetch";
     PERF_INFO_HW_C L1D PREFETCH MISS "Cache L1D Prefetch Miss"] ++
  ifdef defined "_SNG_PERF_COUNT_HW_CACHE_L1I"
    [PERF_INFO_HW_C L1I READ ACCESS "Cache L1I Read";
     PERF_INFO_HW_C L1I READ MISS "Cache L1I Read Miss";
     PERF_INFO_HW_C L1I WRITE ACCESS "Cache L1I Write";
     PERF_INFO_HW_C L1I WRITE MISS "Cache L1I Write Miss";
     PERF_INFO_HW_C L1I PREFETCH ACCESS "Cache L1I Prefetch";
     PERF_INFO_HW_C L1I PREFETCH MISS "Cache L1I Prefetch Miss"] ++
  ifdef defined "_SNG_PERF_COUNT_HW_CACHE_LL"
    [PERF_INFO_HW_C LL READ ACCESS "Cache LL Read";
     PERF_INFO_HW_C LL READ MISS "Cache LL Read Miss";
     PERF_INFO_HW_C LL WRITE ACCESS "Cache LL Write";
     PERF_INFO_HW_C LL WRITE MISS "Cache LL Write Miss";
     PERF_INFO_HW_C LL PREFETCH ACCESS "Cache LL Prefetch";
     PERF_INFO_HW_C LL PREFETCH MISS "Cache LL Prefetch Miss"] ++
  ifdef defined "_SNG_PERF_COUNT_HW_CACHE_DTLB"
    [PERF_INFO_HW_C DTLB READ ACCESS "Cache DTLB Read";
     PERF_INFO_HW_C DTLB READ MISS "Cache DTLB Read Miss";
     PERF_INFO_HW_C DTLB WRITE ACCESS "Cache DTLB Write";
     PERF_INFO_HW_C DTLB WRITE MISS "Cache DTLB Write Miss";
     PERF_INFO_HW_C DTLB PREFETCH ACCESS "Cache DTLB Prefetch";
     PERF_INFO_HW_C DTLB PREFETCH MISS "Cache DTLB Prefetch Miss"] ++
  ifdef defined "_SNG_PERF_COUNT_HW_CACHE_ITLB"
    [PERF_INFO_HW_C ITLB READ ACCESS "Cache ITLB Read";
     PERF_INFO_HW_C ITLB READ MISS "Cache ITLB Read Miss";
     PERF_INFO_HW_C ITLB WRITE ACCESS "Cache ITLB Write";
     PERF_INFO_HW_C ITLB WRITE MISS "Cache ITLB Write Miss";
     PERF_INFO_HW_C ITLB PREFETCH ACCESS "Cache ITLB Prefetch";
     PERF_INFO_HW_C ITLB PREFETCH MISS "Cache DILB Prefetch Miss"] ++
  ifdef defined "_SNG_PERF_COUNT_HW_CACHE_BPU"
    [PERF_INFO_HW_C BPU READ ACCESS "Cache BPU Read";
     PERF_INFO_HW_C BPU READ MISS "Cache BPU Read Miss";
     PERF_INFO_HW_C BPU WRITE ACCESS "Cache BPU Write";
     PERF_INFO_HW_C BPU WRITE MISS "Cache BPU Write Miss";
     PERF_INFO_HW_C BPU PREFETCH ACCESS "Cache BPU Prefetch";
     PERF_INFO_HW_C BPU PREFETCH MISS "Cache DILB Prefetch Miss"] ++
  ifdef defined "_SNG_PERF_COUNT_HW_CACHE_NODE"
    [PERF_INFO_HW_C NODE READ ACCESS "Cache NODE Read";
     PERF_INFO_HW_C NODE READ MISS "Cache NODE Read Miss";
     PERF_INFO_HW_C NODE WRITE ACCESS "Cache NODE Write";
     PERF_INFO_HW_C NODE WRITE MISS "Cache NODE Write Miss";
     PERF_INFO_HW_C NODE PREFETCH ACCESS "Cache NODE Prefetch";
     PERF_INFO_HW_C NODE PREFETCH MISS "Cache DILB Prefetch Miss"].

Definition perf_software : list perf_info :=
  ifdef defined "_SNG_PERF_COUNT_SW_PAGE_FAULTS_MIN"
    [PERF_INFO_SW PERF_COUNT_SW_PAGE_FAULTS_MIN "Page Faults Minor"] ++
  ifdef defined "_SNG_PERF_COUNT_SW_PAGE_FAULTS_MAJ"
    [PERF_INFO_SW PERF_COUNT_SW_PAGE_FAULTS_MAJ "Page Faults Major"] ++
  ifdef defined "_SNG_PERF_COUNT_SW_CONTEXT_SWITCHES"
    [PERF_INFO_SW PERF_COUNT_SW_CONTEXT_SWITCHES "Context Switches"] ++
  ifdef defined "_SNG_PERF_COUNT_SW_CPU_MIGRATIONS"
    [PERF_INFO_SW PERF_COUNT_SW_CPU_MIGRATIONS "CPU Migrations"] ++
  ifdef defined "_SNG_PERF_COUNT_SW_ALIGNMENT_FAULTS"
    [PERF_INFO_SW PERF_COUNT_SW_ALIGNMENT_FAULTS "Alignment Faults"].

Definition perf_tracepoint : list perf_info :=
    [PERF_INFO_TP "exceptions/page_fault_user" "Page Faults User";
     PERF_INFO_TP "exceptions/page_fault_kernel" "Page Faults Kernel";
     PERF_INFO_TP "raw_syscalls/sys_enter" "System Call Enter";
     PERF_INFO_TP "raw_syscalls/sys_exit" "System Call Exit";
     PERF_INFO_TP "tlb/tlb_flush" "TLB Flushes";
     PERF_INFO_TP "kmem/kmalloc" "Kmalloc";
     PERF_INFO_TP "kmem/kmalloc_node" "Kmalloc Node";
     PERF_INFO_TP "kmem/kfree" "Kfree";
     PERF_INFO_TP "kmem/kmem_cache_alloc" "Kmem Cache Alloc";
     PERF_INFO_TP "kmem/kmem_cache_alloc_node" "Kmem Cache Alloc Node";
     PERF_INFO_TP "kmem/kmem_cache_free" "Kmem Cache Free";
     PERF_INFO_TP "kmem/mm_page_alloc" "MM Page Alloc";
     PERF_INFO_TP "kmem/mm_page_free" "MM Page Free";
     PERF_INFO_TP "rcu/rcu_utilization" "RCU Utilization";
     PERF_INFO_TP "sched/sched_migrate_task" "Sched Migrate Task";
     PERF_INFO_TP "sched/sched_move_numa" "Sched Move NUMA";
     PERF_INFO_TP "sched/sched_wakeup" "Sched Wakeup";
     PERF_INFO_TP "sched/sched_process_exec" "Sched Proc Exec";
     PERF_INFO_TP "sched/sched_process_exit" "Sched Proc Exit";
     PERF_INFO_TP "sched/sched_process_fork" "Sched Proc Fork";
     PERF_INFO_TP "sched/sched_process_free" "Sched Proc Free";
     PERF_INFO_TP "sched/sched_process_hang" "Sched Proc Hang";
     PERF_INFO_TP "sched/sched_process_wait" "Sched Proc Wait";
     PERF_INFO_TP "sched/sched_switch" "Sched Switch";
     PERF_INFO_TP "signal/signal_generate" "Signal Generate";
     PERF_INFO_TP "signal/signal_deliver" "Signal Deliver";
     PERF_INFO_TP "irq/irq_handler_entry" "IRQ Entry";
     PERF_INFO_TP "irq/irq_handler_exit" "IRQ Exit";
     PERF_INFO_TP "irq/softirq_entry" "Soft IRQ Entry";
     PERF_INFO_TP "irq/softirq_exit" "Soft IRQ Exit";
     PERF_INFO_TP "writeback/writeback_dirty_inode" "Writeback Dirty Inode";
     PERF_INFO_TP "writeback/writeback_dirty_page" "Writeback Dirty Page";
     PERF_INFO_TP "migrate/mm_migrate_pages" "Migrate MM Pages";
     PERF_INFO_TP "skb/consume_skb" "SKB Consume";
     PERF_INFO_TP "skb/kfree_skb" "SKB Kfree";
     PERF_INFO_TP "iommu/io_page_fault" "IOMMU IO Page Fault";
     PERF_INFO_TP "iommu/map" "IOMMU Map";
     PERF_INFO_TP "iommu/unmap" "IOMMU Unmap"].
(** the entries with a label *)
Definition perf_table : list perf_info := perf_hardware ++ perf_cache ++ perf_software ++ perf_tracepoint.

Lemma ifdef_length {A} macro (l : list A) : (length (ifdef defined macro l) <= length l)%nat.
Proof. unfold ifdef. destruct (defined macro); cbn; lia. Qed.

(** the table fits in its array, with the entry that ends it *)
Lemma perf_table_length : (length perf_table < STRESS_PERF_MAX)%nat.
Proof.
  unfold perf_table, perf_hardware, perf_cache, perf_software, perf_tracepoint, STRESS_PERF_MAX. rewrite !length_app.
  repeat match goal with |- context [length (ifdef defined ?m ?l)] =>
    let H := fresh "H" in pose proof (ifdef_length m l) as H; cbn [length] in H;
    generalize dependent (length (ifdef defined m l)); intros end.
  cbn [length]. lia.
Qed.

(** [perf_init()]: the numbers of the trace points, from the files of the kernel *)
Variable id_file : string -> option string.

Definition perf_type_tracepoint_resolve_config (pi : perf_info) : perf_info :=
  match p_path pi with
  | None => pi
  | Some path =>
      match text ← id_file ("/sys/kernel/debug/tracing/events/" +:+ path +:+ "/id"); scan_number (no_width text) text with
      | Some p => PerfInfo (p_type pi) (strtoul p) (p_path pi) (p_label pi)
      | None => pi
      end
  end.

Definition perf_init (info : list perf_info) : list perf_info :=
  (fun pi => if decide (p_type pi = PERF_TYPE_TRACEPOINT) then perf_type_tracepoint_resolve_config pi else pi) <$> info.
End Table.

(** ** Counting *)

Record perf_stat := PerfStat { counter : Z; fd : Z }.
Record stress_perf := StressPerf { perf_stats : list perf_stat; perf_opened : Z }.

Section Counting.
(** the table after [perf_init()] *)
Variable info : list perf_info.

(** [event_open i]: the descriptor for the entry [i], or -1 *)
Definition open_stat (event_open : nat -> Z) (i : nat) (pi : perf_info) : perf_stat :=
  PerfStat 0 (if p_config pi =? UNRESOLVED then -1 else event_open i).

(** the value returned, [g_shared->perf.no_perf], and the counters *)
Definition perf_open (event_open : nat -> Z) (no_perf : bool) (sp : stress_perf) : Z * bool * stress_perf :=
  if no_perf then (-1, no_perf, sp)
  else
    let stats := imap (open_stat event_open) info ++ repeat (PerfStat 0 (-1)) (STRESS_PERF_MAX - length info) in
    let opened := Z.of_nat (length (filter (fun p => -1 < fd p) stats)) in
    if opened =? 0 then (-1, true, StressPerf stats opened) else (0, no_perf, StressPerf stats opened).

(** the entries of the table, one after the other: the counters and the descriptors closed *)
Definition on_table (f : nat -> perf_stat -> perf_stat * list Z) (l : list perf_stat) : list perf_stat * list Z :=
  let n := length info in
  (imap (fun i p => (f i p).1) (take n l) ++ drop n l, mjoin (imap (fun i p => (f i p).2) (take n l))).

(** closed if the request fails *)
Definition ask_stat (ok : nat -> bool) (i : nat) (p : perf_stat) : perf_stat * list Z :=
  if -1 <? fd p then if ok i then (p, []) else (PerfStat (counter p) (-1), [fd p]) else (p, []).

Definition perf_enable (reset_ok enable_ok : nat -> bool) (sp : stress_perf) : stress_perf * list Z :=
  if perf_opened sp =? 0 then (sp, [])
  else let '(l, closed) := on_table (ask_stat (fun i => reset_ok i && enable_ok i)) (perf_stats sp) in (StressPerf l (perf_opened sp), closed).

Definition perf_disable (disable_ok : nat -> bool) (sp : stress_perf) : stress_perf * list Z :=
  if perf_opened sp =? 0 then (sp, [])
  else let '(l, closed) := on_table (ask_stat disable_ok) (perf_stats sp) in (StressPerf l (perf_opened sp), closed).

(** the conversion of a [double] to [uint64_t]: [beyond] is what the machine does with a value that does not fit *)
Variable beyond : spec_float -> Z.
Definition to_uint64 (x : spec_float) : Z := if (0 <=? ftrunc x) && (ftrunc x <? 2 ^ 64) then ftrunc x else beyond x.

(** [counter], [time_enabled] and [time_running] *)
Definition scaled_counter (data : Z * Z * Z) : Z :=
  let '(counter, time_enabled, time_running) := data in
  let scale :=
    if time_running =? 0 then (if time_enabled =? 0 then of_int double_ 1 else fzero)
    else fdiv double_ (of_int double_ time_enabled) (of_int double_ time_running) in
  to_uint64 (fmul double_ (of_int double_ counter) scale).

(** [read_ i]: the data, if as many bytes as asked for were read *)
Definition close_stat (read_ : nat -> option (Z * Z * Z)) (i : nat) (p : perf_stat) : perf_stat * list Z :=
  if fd p <? 0 then (PerfStat STRESS_PERF_INVALID (fd p), [])
  else (PerfStat (match read_ i with Some data => scaled_counter data | None => STRESS_PERF_INVALID end) (-1), [fd p]).

Definition perf_close (read_ : nat -> option (Z * Z * Z)) (sp : stress_perf) : stress_perf * list Z :=
  let '(l, closed) :=
    if perf_opened sp =? 0 then ([], []) else on_table (close_stat read_) (take (length info) (perf_stats sp)) in
  (StressPerf (l ++ ((fun p => PerfStat STRESS_PERF_INVALID (fd p)) <$> drop (length l) (perf_stats sp))) (perf_opened sp), closed).

(** *** around a stressor *)

Definition perf_run (event_open : nat -> Z) (reset_ok enable_ok disable_ok : nat -> bool) (read_ : nat -> option (Z * Z * Z))
    (no_perf : bool) (sp : stress_perf) : stress_perf * list Z :=
  let sp := (perf_open event_open no_perf sp).2 in
  let '(sp, c1) := perf_enable reset_ok enable_ok sp in
  let '(sp, c2) := perf_disable disable_ok sp in
  let '(sp, c3) := perf_close read_ sp in
  (sp, c1 ++ c2 ++ c3).
End Counting.

(** ** The descriptors and the counters *)

Lemma imap_imap {A B C} (f : nat -> B -> C) (g : nat -> A -> B) l : imap f (imap g l) = imap (fun i x => f i (g i x)) l.
Proof. revert f g. induction l as [|x l IH]; intros f g; [done|]. cbn. f_equal. apply IH. Qed.

Lemma join_imap_app {A B} (f g : nat -> A -> list B) l : mjoin (imap f l) ++ mjoin (imap g l) ≡ₚ mjoin (imap (fun i x => f i x ++ g i x) l).
Proof.
  revert f g. induction l as [|x l IH]; intros f g; [done|]. cbn. change (imap (_ ∘ S) l) with (imap (fun i x => (f ∘ S) i x ++ (g ∘ S) i x) l) at 3.
  rewrite <- (IH (f ∘ S) (g ∘ S)). solve_Permutation.
Qed.

Lemma join_imap_filter {A B} (P : B -> Prop) `{!forall x, Decision (P x)} (f : nat -> A -> B) l :
  filter P (imap f l) = mjoin (imap (fun i x => if decide (P (f i x)) then [f i x] else []) l).
Proof.
  revert f. induction l as [|x l IH]; intros f; [done|]. rewrite !imap_cons, filter_cons, IH. cbn [mjoin list_join]. by case_decide.
Qed.

Lemma fmap_repeat {A B} (f : A -> B) x n : f <$> repeat x n = repeat (f x) n.
Proof. induction n as [|n IH]; [done|]. cbn. by f_equal. Qed.

Section Closed.
Variable info : list perf_info.
Variable beyond : spec_float -> Z.
Variables (event_open : nat -> Z) (reset_ok enable_ok disable_ok : nat -> bool) (read_ : nat -> option (Z * Z * Z)).
Hypothesis open_answers : forall i, -1 <= event_open i.

(** the descriptor of an entry, and whether it is still there when the counters are read *)
Definition opened_fd (i : nat) (pi : perf_info) : Z := if p_config pi =? UNRESOLVED then -1 else event_open i.
Definition survives (i : nat) (pi : perf_info) : bool :=
  (-1 <? opened_fd i pi) && (reset_ok i && enable_ok i) && disable_ok i.
Definition counted (i : nat) (pi : perf_info) : Z :=
  if survives i pi then match read_ i with Some data => scaled_counter beyond data | None => STRESS_PERF_INVALID end else STRESS_PERF_INVALID.

Lemma opened_fd_range i pi : -1 <= opened_fd i pi.
Proof. unfold opened_fd. destruct (_ =? _); [lia|apply open_answers]. Qed.

Lemma on_table_app f (l1 l2 : list perf_stat) :
  length l1 = length info -> on_table info f (l1 ++ l2) = (imap (fun i p => (f i p).1) l1 ++ l2, mjoin (imap (fun i p => (f i p).2) l1)).
Proof. intros H. unfold on_table. by rewrite <- H, take_app_length, drop_app_length. Qed.

(** the three steps on one entry *)
Definition asked (i : nat) (pi : perf_info) : perf_stat := (ask_stat (fun i => reset_ok i && enable_ok i) i (open_stat event_open i pi)).1.
Definition stopped (i : nat) (pi : perf_info) : perf_stat := (ask_stat disable_ok i (asked i pi)).1.

Lemma entry_counted i pi : (close_stat beyond read_ i (stopped i pi)).1 = PerfStat (counted i pi) (-1).
Proof.
  unfold stopped, asked, ask_stat, close_stat, counted, survives, open_stat. cbn [fd counter]. fold (opened_fd i pi).
  pose proof (opened_fd_range i pi). destruct (Z.ltb_spec (-1) (opened_fd i pi)) as [Hlt|Hge]; cbn [fst fd counter andb].
  - destruct (reset_ok i && enable_ok i); cbn [fst fd counter andb].
    + destruct (Z.ltb_spec (-1) (opened_fd i pi)); [|lia]. destruct (disable_ok i); cbn [fst fd counter]; [|done].
      by destruct (Z.ltb_spec (opened_fd i pi) 0); [lia|].
    + done.
  - destruct (Z.ltb_spec (-1) (opened_fd i pi)); [lia|]. cbn [fst fd]. destruct (Z.ltb_spec (opened_fd i pi) 0); [|lia].
    cbn. f_equal. lia.
Qed.

Lemma entry_closed i pi :
  (ask_stat (fun i => reset_ok i && enable_ok i) i (open_stat event_open i pi)).2 ++ (ask_stat disable_ok i (asked i pi)).2 ++
    (close_stat beyond read_ i (stopped i pi)).2 = if decide (-1 < opened_fd i pi) then [opened_fd i pi] else [].
Proof.
  unfold stopped, asked, ask_stat, close_stat, open_stat. cbn [fd counter]. fold (opened_fd i pi).
  pose proof (opened_fd_range i pi). case_decide; destruct (Z.ltb_spec (-1) (opened_fd i pi)); try lia; cbn [fst snd fd counter].
  - destruct (reset_ok i && enable_ok i); cbn [fst snd fd counter app]; [|done]. destruct (Z.ltb_spec (-1) (opened_fd i pi)); [|lia].
    destruct (disable_ok i); cbn [fst snd fd counter app]; [|done]. by destruct (Z.ltb_spec (opened_fd i pi) 0); [lia|].
  - destruct (Z.ltb_spec (-1) (opened_fd i pi)); [lia|]. cbn [fst snd fd app]. by destruct (Z.ltb_spec (opened_fd i pi) 0); [|lia].
Qed.

(** (C35) Whatever the kernel answers (a failed open is -1): every descriptor opened was closed, once;
    the counter of an entry that could be opened, started and stopped is the one read, scaled,
    and every other one is marked invalid. *)
Theorem perf_counters_read sp :
  (length info <= STRESS_PERF_MAX)%nat ->
  let '(sp', closed) := perf_run info beyond event_open reset_ok enable_ok disable_ok read_ false sp in
  perf_stats sp' = imap (fun i pi => PerfStat (counted i pi) (-1)) info ++ repeat (PerfStat STRESS_PERF_INVALID (-1)) (STRESS_PERF_MAX - length info) /\
  closed ≡ₚ filter (fun d => -1 < d) (imap opened_fd info).
Proof using open_answers.
  intros Hl. unfold perf_run, perf_open. set (rest := repeat (PerfStat 0 (-1)) _). set (stats := imap _ info ++ rest).
  assert (forall A (f : nat -> perf_info -> A), length (imap f info) = length info) as Hlen by (intros; apply length_imap).
  destruct (Z.eqb_spec (Z.of_nat (length (filter (fun p => -1 < fd p) stats))) 0) as [E|E]; cbn [snd].
  - assert (forall p, p ∈ stats -> ~ -1 < fd p) as Hno.
    { intros p Hp Hfd. assert (p ∈ filter (fun p => -1 < fd p) stats) as H by by apply list_elem_of_filter.
      destruct (filter _ stats); [set_solver|cbn in E; lia]. }
    unfold perf_enable, perf_disable, perf_close. cbn [perf_opened]. rewrite E. cbn [Z.eqb app length drop perf_stats].
    assert (forall i pi, info !! i = Some pi -> ~ -1 < opened_fd i pi) as Hno'.
    { intros i pi Hi. apply (Hno (open_stat event_open i pi)). unfold stats. apply elem_of_app. left.
      apply list_elem_of_lookup_2 with i. by rewrite list_lookup_imap, Hi. }
    split.
    + cbn [perf_stats perf_opened app length]. rewrite drop_0. unfold stats, rest. rewrite fmap_app, fmap_repeat. cbn [fd]. f_equal. rewrite fmap_imap. apply imap_ext. intros i pi Hi. cbn.
      fold (opened_fd i pi). pose proof (opened_fd_range i pi). specialize (Hno' i pi Hi). unfold counted, survives.
      destruct (Z.ltb_spec (-1) (opened_fd i pi)); [lia|]. cbn. f_equal. lia.
    + rewrite join_imap_filter. assert (forall l : list (list Z), Forall (fun x => x = []) l -> mjoin l = []) as Hj
        by (intros l; induction 1 as [|x l -> _ IH]; [done|exact IH]).
      rewrite Hj; [done|]. apply Forall_lookup. intros i x. rewrite list_lookup_imap. destruct (info !! i) as [pi|] eqn:Hi; [|done].
      cbn. intros [= <-]. rewrite decide_False; [done|by apply Hno'].
  - generalize dependent (Z.of_nat (length (filter (fun p => -1 < fd p) stats))). intros opened E.
    unfold perf_enable, perf_disable, perf_close. cbn [perf_opened]. rewrite (proj2 (Z.eqb_neq _ _) E). cbn [perf_stats].
    unfold stats. rewrite on_table_app by apply Hlen. cbn [perf_opened perf_stats]. rewrite (proj2 (Z.eqb_neq _ _) E).
    rewrite imap_imap, on_table_app by apply Hlen. cbn [perf_opened perf_stats]. rewrite (proj2 (Z.eqb_neq _ _) E).
    rewrite imap_imap, take_app_length' by (symmetry; apply Hlen). rewrite <- (app_nil_r (imap _ info)), on_table_app, !app_nil_r by apply Hlen.
    rewrite !imap_imap, drop_app_length' by (by rewrite !Hlen). split.
    + unfold rest. rewrite fmap_repeat. cbn [perf_stats fd]. f_equal. apply imap_ext. intros i pi _. apply entry_counted.
    + rewrite join_imap_filter, !join_imap_app. erewrite imap_ext; [done|]. intros i pi _. apply entry_closed.
Qed.
End Closed.

(** ** What is shown *)

Definition THOUSAND : spec_float := of_int double_ (10 ^ 3).
Definition MILLION : spec_float := of_int double_ (10 ^ 6).
Definition BILLION : spec_float := of_int double_ (10 ^ 9).
Definition TRILLION : spec_float := of_int double_ (10 ^ 12).
Definition QUADRILLION : spec_float := of_int double_ (10 ^ 15).
Definition QUINTILLION : spec_float := of_int double_ (10 ^ 18).
Definition SEXTILLION : spec_float := of_int double_ (10 ^ 21).
Definition SEPTILLION : spec_float := of_int double_ (10 ^ 24).

(** the threshold, the scale and the suffix *)
Definition perf_scale : list (spec_float * spec_float * string) :=
  let hundred x := fmul double_ (of_int double_ 100) x in
  [(THOUSAND, of_int double_ 1, "/sec"); (hundred THOUSAND, THOUSAND, "K/sec"); (hundred MILLION, MILLION, "M/sec");
   (hundred BILLION, BILLION, "B/sec"); (hundred TRILLION, TRILLION, "T/sec"); (hundred QUADRILLION, QUADRILLION, "P/sec");
   (hundred QUINTILLION, QUINTILLION, "E/sec"); (hundred SEXTILLION, SEXTILLION, "Z/sec"); (hundred SEPTILLION, SEPTILLION, "Y/sec")].

Fixpoint scale_for (scaled : spec_float) (scales : list (spec_float * spec_float * string)) : spec_float * string :=
  match scales with
  | [] => (QUINTILLION, "E/sec")
  | (threshold, scale, suffix) :: scales => if flt scaled threshold then (scale, suffix) else scale_for scaled scales
  end.

Definition perf_stat_scale (counter : Z) (duration : spec_float) : spec_float * string :=
  let scaled := if flt fzero duration then fdiv double_ (of_int double_ counter) duration else fzero in
  let '(scale, suffix) := scale_for scaled perf_scale in
  (fdiv double_ scaled scale, suffix).

(** [perf_yaml_label()]: what [dst] holds, which is not terminated by a text that leaves less than two bytes *)
Fixpoint perf_yaml_label (n : nat) (dst src : chars) : chars :=
  match n, dst, src with
  | S n, d :: dst, c :: src =>
      if c =? 0 then repeat 0 n ++ drop n (d :: dst)
      else (if c =? 32 then 95 else c_tolower c) :: perf_yaml_label n dst src
  | _, _, _ => dst
  end.

Record perf_line := PerfLine {
  pl_total : Z; pl_label : string; pl_rate : spec_float * string; pl_extra : option (string * spec_float); pl_per_second : spec_float }.

Section Dump.
Variable info : list perf_info.

(** the inner loop: [c] is the counter of the first instance each time *)
Fixpoint sum_counter (j : nat) (c total : Z) (got_data : bool) : Z * bool :=
  match j with
  | O => (total, got_data)
  | S j => if c =? STRESS_PERF_INVALID then (STRESS_PERF_INVALID, got_data) else sum_counter j c (u64 (total + c)) (got_data || (0 <? c))
  end.

(** [counter_totals] and whether one was not zero *)
Fixpoint counter_totals (counters : list Z) (started_procs : nat) (got_data : bool) : list Z * bool :=
  match counters with
  | [] => ([], got_data)
  | c :: counters =>
      let '(total, got_data) := sum_counter started_procs c 0 got_data in
      let '(totals, got_data) := counter_totals counters started_procs got_data in
      (total :: totals, got_data)
  end.

(** the counters of the instance for the entries of the table; zero totals if it has opened none *)
Definition table_totals (sp : stress_perf) (started_procs : nat) : list Z * bool :=
  if 0 <? perf_opened sp then counter_totals (counter <$> take (length info) (perf_stats sp)) started_procs false
  else ((fun _ => 0) <$> info, false).

(** the total of a hardware counter, 0 if there is none *)
Definition total_of (config : Z) (sp : stress_perf) (totals : list Z) : Z :=
  if 0 <? perf_opened sp then
    foldl (fun acc x => if bool_decide (p_type x.1 = PERF_TYPE_HARDWARE) && (p_config x.1 =? config) then x.2 else acc) 0 (zip info totals)
  else 0.

Definition percent (ct total : Z) : spec_float :=
  fdiv double_ (fmul double_ (of_int double_ 100) (of_int double_ ct)) (of_int double_ total).

Definition perf_extra (pi : perf_info) (ct cycles cache_refs branches : Z) : option (string * spec_float) :=
  if bool_decide (p_type pi = PERF_TYPE_HARDWARE) then
    if (p_config pi =? PERF_COUNT_HW_INSTRUCTIONS) && (0 <? cycles)
    then Some ("instr. per cycle", fdiv double_ (of_int double_ ct) (of_int double_ cycles))
    else if (p_config pi =? PERF_COUNT_HW_CACHE_MISSES) && (0 <? cache_refs) then Some ("%", percent ct cache_refs)
    else if (p_config pi =? PERF_COUNT_HW_BRANCH_MISSES) && (0 <? branches) then Some ("%", percent ct branches)
    else None
  else None.

(** the lines of a stressor, whose instances have the counters [stats]; [None]: nothing is shown of it *)
Definition dump_proc (duration : spec_float) (stats : list stress_perf) (started_procs : nat) : option (list perf_line) :=
  sp ← stats !! 0%nat;
  let '(totals, got_data) := table_totals sp started_procs in
  if got_data : bool then
    let cycles := total_of PERF_COUNT_HW_CPU_CYCLES sp totals in
    let cache_refs := total_of PERF_COUNT_HW_CACHE_REFERENCES sp totals in
    let branches := total_of PERF_COUNT_HW_BRANCH_INSTRUCTIONS sp totals in
    Some ((fun x => PerfLine x.2 (p_label x.1) (perf_stat_scale x.2 duration) (perf_extra x.1 x.2 cycles cache_refs branches)
                             (fdiv double_ (of_int double_ x.2) duration)) <$>
          filter (fun x => x.2 <> STRESS_PERF_INVALID) (zip info totals))
  else None.

Inductive perf_note := NoNote | TooParanoid (level : Z) | NotAvailable.

(** [paranoid]: the number in perf_event_paranoid, if it can be read *)
Definition perf_stat_dump (root : bool) (paranoid : option Z) (duration : spec_float)
    (procs : list (cstr * list stress_perf * nat)) : list (cstr * list perf_line) * perf_note :=
  let shown := omap (fun '(name, stats, started) => (fun ls => (munge_underscore name, ls)) <$> dump_proc duration stats started) procs in
  (shown,
   if bool_decide (Exists (fun p => p.2 <> []) shown) then NoNote
   else if root then NotAvailable
   else match paranoid with Some level => if 1 <? level then TooParanoid level else NoNote | None => NoNote end).

(** ** The totals *)

Lemma sum_counter_total j c total got :
  fits 64 total -> (sum_counter j c total got).1 <> STRESS_PERF_INVALID -> (sum_counter j c total got).1 = u64 (total + Z.of_nat j * c).
Proof.
  revert total got. induction j as [|j IH]; intros total got Ht; cbn [sum_counter].
  - cbn [fst]. intros _. rewrite u64_small by (rewrite Z.add_0_r; exact Ht). lia.
  - destruct (Z.eqb_spec c STRESS_PERF_INVALID); [done|]. intros H. rewrite IH; [|apply u64_fits|done].
    unfold u64. rewrite Zplus_mod_idemp_l. f_equal. lia.
Qed.

Lemma sum_counter_got j c total got got' : (sum_counter j c total got).1 = (sum_counter j c total got').1.
Proof. revert total got got'. induction j as [|j IH]; intros total got got'; cbn [sum_counter]; [done|]. by destruct (_ =? _). Qed.

Lemma counter_totals_each cs n got : (counter_totals cs n got).1 = (fun c => (sum_counter n c 0 false).1) <$> cs.
Proof.
  revert got. induction cs as [|c cs IH]; intros got; cbn [counter_totals]; [done|].
  destruct (sum_counter n c 0 got) as [t g] eqn:E. specialize (IH g). destruct (counter_totals cs n g) as [ts g']. cbn [fst fmap list_fmap] in *.
  rewrite IH, (sum_counter_got n c 0 false got), E. done.
Qed.

(** The total shown for a counter is the counter of the first instance, multiplied by the
    number of instances, whatever the other instances have counted. *)
Theorem perf_totals_of_first duration sp rest started_procs ls line :
  dump_proc duration (sp :: rest) started_procs = Some ls -> line ∈ ls ->
  exists i pi st, info !! i = Some pi /\ perf_stats sp !! i = Some st /\ pl_label line = p_label pi /\
    pl_total line = u64 (Z.of_nat started_procs * counter st).
Proof.
  unfold dump_proc, table_totals. cbn [lookup list_lookup mbind option_bind]. destruct (0 <? perf_opened sp); [|done].
  pose proof (counter_totals_each (counter <$> take (length info) (perf_stats sp)) started_procs false) as Ht.
  destruct (counter_totals _ _ _) as [totals got]. cbn [fst] in Ht. destruct got; [|done]. intros [= <-].
  intros ([pi t] & -> & [Hv (i & Hi)%list_elem_of_lookup]%list_elem_of_filter)%list_elem_of_fmap. cbn [snd fst pl_label pl_total] in *.
  apply lookup_zip_with_Some in Hi as (pi' & t' & [= <- <-] & Hpi & Htot). rewrite Ht, list_lookup_fmap_Some in Htot.
  destruct Htot as (c & -> & Hc). apply list_lookup_fmap_Some in Hc as (st & -> & Hst).
  apply lookup_take_Some in Hst as [Hst _]. exists i, pi, st. repeat split; [done..|].
  apply (sum_counter_total started_procs (counter st) 0 false); [by vm_compute|done].
Qed.
End Dump.

(** two instances have counted 10 and 30 *)
Lemma perf_totals_of_first_witness :
  exists ls line, dump_proc [PERF_INFO_HW PERF_COUNT_HW_CPU_CYCLES "CPU Cycles"] (of_int double_ 1)
    [StressPerf [PerfStat 10 (-1)] 1; StressPerf [PerfStat 30 (-1)] 1] 2 = Some ls /\ line ∈ ls /\ pl_total line = 20.
Proof.
  eexists _, _. split; [reflexivity|]. assert (forall A (x : A), x ∈ [x]) as Hx by (intros; apply list_elem_of_singleton; reflexivity).
  split; [apply Hx|].
  destruct (perf_totals_of_first [PERF_INFO_HW PERF_COUNT_HW_CPU_CYCLES "CPU Cycles"] (of_int double_ 1) (StressPerf [PerfStat 10 (-1)] 1)
    [StressPerf [PerfStat 30 (-1)] 1] 2 _ _ eq_refl (Hx _ _)) as (i & pi & st & Hi & Hst & _ & ->).
  destruct i as [|[|i]]; [|discriminate Hi..]. injection Hst as <-. reflexivity.
Defined.

Lemma perf_counters_read_witness :
  exists sp closed, perf_run (perf_table (fun _ => true)) (fun _ => 0) (fun i => Z.of_nat i - 1) (fun _ => true) (fun _ => true) (fun _ => true)
    (fun _ => None) false (StressPerf [] 0) = (sp, closed) /\
    closed ≡ₚ filter (fun d => -1 < d) (imap (opened_fd (fun i => Z.of_nat i - 1)) (perf_table (fun _ => true))).
Proof.
  pose proof (perf_counters_read (perf_table (fun _ => true)) (fun _ => 0) (fun i => Z.of_nat i - 1) (fun _ => true) (fun _ => true) (fun _ => true)
    (fun _ => None) ltac:(intros i; cbv beta; lia) (StressPerf [] 0) (Nat.lt_le_incl _ _ (perf_table_length (fun _ => true)))) as H.
  destruct (perf_run _ _ _ _ _ _ _ _ _) as [sp closed]. exists sp, closed. split; [reflexivity|exact (proj2 H)].
Defined.
