(* ===== verification/Tuning.v ===== *)
(** * Background tuning (ignite-cpu.c, thrash.c, helper.c)

    [ignite_cpu_start()] sets controls of the processors to their most demanding values and
    [ignite_cpu_stop()] sets them back; [thrash_start()] has a process page in the memory of
    all processes, which [thrash_stop()] ends.

    - [ignite_restores]: the controls are afterwards what they were, if the writes that set them back succeed.
    - [pagein_pages]: the pages touched for a line of /proc/pid/maps are those of its range,
      in order and each once, and at most 2 GB of them.
    - [thrash_kills]: the process ended is the one started; but after a fork that failed it
      is every process of the system. *)

From stdpp Require Import gmap strings.
From Stdlib Require Import Ascii.
From S2P Require Import Prelude Outcome ParseOpts Run.

(** ** Files below /sys *)

Abbreviation sysfiles := (gmap string string).

(** what the system answers to the calls of one [system_write()]: all is written; the file cannot be opened or written to, with the error;
    or [k] bytes are written, [errno] being what an earlier call left in it *)
Inductive wanswer : Type :=
  | Whole | OpenError (errno : Z) | WriteError (errno : Z) | ShortWrite (k : nat) (errno : Z).

Section Ignite.
(** what a file reads after a write *)
Variable store_as : string -> string -> string.

(** the number of bytes, or an error number, negative; and what was read; [err] is the error of opening or reading the file *)
Definition system_read (err : option Z) (path : string) (buf_len : nat) (files : sysfiles) : Z * string :=
  match files !! path, err with
  | Some text, None => let buf := String.substring 0 buf_len text in (Z.of_nat (String.length buf), buf)
  | None, None => (- 2, EmptyString)
  | _, Some errno => (- errno, EmptyString)
  end.

(** a short write returns the [errno] of some other call *)
Definition system_write (a : wanswer) (path buf : string) (files : sysfiles) : Z * sysfiles :=
  match files !! path with
  | None => (- 2, files)
  | Some _ =>
      match a with
      | Whole => (Z.of_nat (String.length buf), <[path := store_as path buf]> files)
      | OpenError errno | WriteError errno => (- errno, files)
      | ShortWrite k errno =>
          if (k <? String.length buf)%nat then (- errno, <[path := store_as path (String.substring 0 k buf)]> files)
          else (Z.of_nat (String.length buf), <[path := store_as path buf]> files)
      end
  end.

(** ** ignite-cpu.c *)

Record settings_t := SettingsT { ig_path : string; default_setting : string; ig_setting : option string; ig_ignore : bool }.
Definition SETTING (path default_setting : string) : settings_t := SettingsT path default_setting None false.

(** on x86 *)
Definition ignite_settings : list settings_t :=
  [SETTING "/sys/devices/system/cpu/intel_pstate/max_perf_pct" "100"; SETTING "/sys/devices/system/cpu/intel_pstate/no_turbo" "0"].

Record ignite := Ignite { settings : list settings_t; ig_pid : Z; enabled : bool }.
Definition ignite_init : ignite := Ignite ignite_settings 0 false.

(** the answers for the control number [i] of a loop over them *)
Record answers_for := Answers { a_read : nat -> option Z; a_write : nat -> wanswer; a_calloc : nat -> bool }.

(** one control, and whether it can be set *)
Definition ignite_setting (err : option Z) (a : wanswer) (calloc : bool) (x : settings_t) (files : sysfiles) : settings_t * bool * sysfiles :=
  let ignored := SettingsT (ig_path x) (default_setting x) (ig_setting x) true in
  let '(ret, buf) := system_read err (ig_path x) 4095 files in
  if ret <? 0 then (ignored, false, files)
  else if (String.length buf =? 0)%nat then (ignored, false, files)
  else
    let '(ret, files) := system_write a (ig_path x) (default_setting x) files in
    if ret <? 0 then (ignored, false, files)
    else if calloc then (SettingsT (ig_path x) (default_setting x) (Some buf) false, true, files)
    else (SettingsT (ig_path x) (default_setting x) None true, false, files).

Fixpoint ignite_all (e : answers_for) (i : nat) (xs : list settings_t) (files : sysfiles) : list settings_t * bool * sysfiles :=
  match xs with
  | [] => ([], false, files)
  | x :: xs =>
      let '(x, ok, files) := ignite_setting (a_read e i) (a_write e i) (a_calloc e i) x files in
      let '(xs, oks, files) := ignite_all e (S i) xs files in
      (x :: xs, ok || oks, files)
  end.

(** [fork]: what [fork()] returns to the parent *)
Definition ignite_cpu_start (e : answers_for) (fork : Z) (st : ignite) (files : sysfiles) : ignite * sysfiles :=
  if enabled st then (st, files)
  else
    let '(xs, any, files) := ignite_all e 0 (settings st) files in
    if any : bool then (Ignite xs fork true, files) else (Ignite xs (-1) (enabled st), files).

(** the writes of a loop over the controls that are not ignored, of a text for each *)
Fixpoint write_all (buf : settings_t -> string) (a : nat -> wanswer) (i : nat) (xs : list settings_t) (files : sysfiles) : sysfiles :=
  match xs with
  | [] => files
  | x :: xs => write_all buf a (S i) xs (if ig_ignore x then files else (system_write (a i) (ig_path x) (buf x) files).2)
  end.

(** a round of the child *)
Definition ignite_child (st : ignite) (files : sysfiles) (a : nat -> wanswer) : sysfiles :=
  write_all default_setting a 0 (settings st) files.

(** the processes sent SIGTERM and SIGKILL, the state and the files *)
Definition ignite_cpu_stop (a : nat -> wanswer) (st : ignite) (files : sysfiles) : list Z * ignite * sysfiles :=
  (if -1 <? ig_pid st then [ig_pid st] else [],
   Ignite ((fun x => if ig_ignore x then x else SettingsT (ig_path x) (default_setting x) None true) <$> settings st) (ig_pid st) false,
   write_all (fun x => default EmptyString (ig_setting x)) a 0 (settings st) files).

(** ** The controls are set back *)

Lemma system_write_other a path buf f p : p <> path -> (system_write a path buf f).2 !! p = f !! p.
Proof.
  intros Hp. unfold system_write. destruct (f !! path); [|done]. destruct a as [| | |k e]; cbn [snd]; try done;
    [|destruct (k <? String.length buf)%nat; cbn [snd]]; rewrite lookup_insert_ne; congruence.
Qed.

Lemma system_write_some a path buf f : is_Some (f !! path) -> is_Some ((system_write a path buf f).2 !! path).
Proof.
  intros H. unfold system_write. destruct (f !! path) as [text|] eqn:E; [|by apply is_Some_None in H].
  destruct a as [| | |k e]; cbn [snd]; [|by rewrite E..|destruct (k <? String.length buf)%nat; cbn [snd]]; rewrite lookup_insert_eq; by eexists.
Qed.

Lemma system_write_whole path buf f : is_Some (f !! path) -> (system_write Whole path buf f).2 !! path = Some (store_as path buf).
Proof. intros [text E]. unfold system_write. rewrite E. cbn [snd]. apply lookup_insert_eq. Qed.

(** a loop of writes changes no file but those of its controls, and removes none *)
Lemma write_all_other buf a i xs f p : Forall (fun x => ig_ignore x = true \/ ig_path x <> p) xs -> write_all buf a i xs f !! p = f !! p.
Proof.
  intros H. revert i f. induction H as [|x xs Hx _ IH]; intros i f; cbn [write_all]; [done|]. rewrite IH.
  destruct (ig_ignore x) eqn:E; [done|]. apply system_write_other. destruct Hx; congruence.
Qed.

Lemma write_all_some buf a i xs f p : is_Some (f !! p) -> is_Some (write_all buf a i xs f !! p).
Proof.
  revert i f. induction xs as [|x xs IH]; intros i f H; cbn [write_all]; [done|]. apply IH. destruct (ig_ignore x); [done|].
  destruct (decide (p = ig_path x)) as [->|Hp]; [by apply system_write_some|by rewrite system_write_other].
Qed.

(** the file of a control is what the write for it leaves *)
Lemma write_all_own buf i xs f x :
  NoDup (ig_path <$> xs) -> x ∈ xs -> ig_ignore x = false -> is_Some (f !! ig_path x) ->
  write_all buf (fun _ => Whole) i xs f !! ig_path x = Some (store_as (ig_path x) (buf x)).
Proof.
  revert i f. induction xs as [|y xs IH]; intros i f Hn Hx Hi Hf; [by apply elem_of_nil in Hx|]. cbn [write_all].
  rewrite fmap_cons in Hn. apply NoDup_cons in Hn as [Hy Hn]. apply elem_of_cons in Hx as [<-|Hx].
  - rewrite write_all_other, Hi; [by apply system_write_whole|]. apply Forall_forall. intros z Hz. right. intros E. apply Hy. rewrite <- E.
    by apply list_elem_of_fmap_2.
  - apply IH; try done. destruct (ig_ignore y); [done|]. destruct (decide (ig_path x = ig_path y)) as [E|Hp].
    + rewrite E in *. by apply system_write_some.
    + by rewrite system_write_other.
Qed.

(** error numbers are positive, and no write is short *)
Definition fair_error (err : option Z) : Prop := match err with Some e => 0 < e | None => True end.
Definition fair_write (a : wanswer) : Prop := match a with Whole => True | OpenError e | WriteError e => 0 < e | ShortWrite _ _ => False end.

(** a control holds a text that was read from it, and has room in the buffer *)
Definition holds_own (files : sysfiles) (path : string) : Prop :=
  forall text, files !! path = Some text -> store_as path text = text /\ (String.length text <= 4095)%nat.

(** a control that can be set back: it is ignored and as before, or its text is known *)
Definition set_up (files f : sysfiles) (x : settings_t) : Prop :=
  if ig_ignore x then f !! ig_path x = files !! ig_path x else is_Some (ig_setting x) /\ ig_setting x = files !! ig_path x /\ is_Some (f !! ig_path x).

Lemma ignite_one err a x f :
  fair_error err -> fair_write a -> holds_own f (ig_path x) ->
  let '(x', _, f1) := ignite_setting err a true x f in
  ig_path x' = ig_path x /\ (forall p, p <> ig_path x -> f1 !! p = f !! p) /\ set_up f f1 x'.
Proof.
  intros He Ha Hh. unfold ignite_setting, system_read, set_up.
  destruct (f !! ig_path x) as [text|] eqn:E; cycle 1.
  { destruct err as [e|]; cbn in *; [destruct (Z.ltb_spec (- e) 0); [|lia]|]; done. }
  destruct err as [e|]; cbn in He. { destruct (Z.ltb_spec (- e) 0); [done|lia]. }
  destruct (Hh text E) as [_ Hl]. rewrite substring_all by done. destruct (Z.ltb_spec (Z.of_nat (String.length text)) 0); [lia|].
  destruct (_ =? 0)%nat; [done|]. pose proof (fun p => system_write_other a (ig_path x) (default_setting x) f p) as Ho.
  pose proof (system_write_some a (ig_path x) (default_setting x) f) as Hs. unfold system_write in *. rewrite E in *.
  destruct a as [|e|e|k e]; cbn [snd fair_write] in *; [|destruct (Z.ltb_spec (- e) 0); [done|lia]..|done].
  destruct (Z.ltb_spec (Z.of_nat (String.length (default_setting x))) 0); [lia|]. cbn. split; [done|]. split; [exact Ho|].
  rewrite E. split; [by eexists|]. split; [done|]. apply Hs. by eexists.
Qed.

Lemma set_up_later files f f' x : set_up files f x -> f' !! ig_path x = f !! ig_path x -> set_up files f' x.
Proof. unfold set_up. intros H E. destruct (ig_ignore x); by rewrite E. Qed.

Lemma ignite_all_set_up e i xs files f :
  (forall i, fair_error (a_read e i)) -> (forall i, fair_write (a_write e i)) -> (forall i, a_calloc e i = true) ->
  NoDup (ig_path <$> xs) -> (forall x, x ∈ xs -> holds_own files (ig_path x)) -> (forall x, x ∈ xs -> f !! ig_path x = files !! ig_path x) ->
  let '(xs', _, f') := ignite_all e i xs f in
  ig_path <$> xs' = ig_path <$> xs /\ Forall (set_up files f') xs' /\ (forall p, p ∉ ig_path <$> xs -> f' !! p = f !! p).
Proof.
  intros Hr Hw Hc. revert i f. induction xs as [|x xs IH]; intros i f Hn Hh Hf; cbn [ignite_all]; [done|].
  rewrite fmap_cons in Hn. apply NoDup_cons in Hn as [Hx Hn]. rewrite Hc.
  assert (f !! ig_path x = files !! ig_path x) as Hfx by (apply Hf; left).
  pose proof (ignite_one (a_read e i) (a_write e i) x f (Hr i) (Hw i)) as H1.
  destruct (ignite_setting _ _ _ x f) as [[x' ok] f1]. destruct H1 as (Hp & Ho & Hs). { unfold holds_own. rewrite Hfx. apply Hh. left. }
  specialize (IH (S i) f1 Hn (fun y Hy => Hh y (list_elem_of_further _ _ _ Hy))).
  destruct (ignite_all e (S i) xs f1) as [[xs' oks] f']. destruct IH as (Hp' & Hs' & Ho').
  { intros y Hy. rewrite Ho; [apply Hf; by right|]. intros E. apply Hx. rewrite <- E. by apply list_elem_of_fmap_2. }
  rewrite !fmap_cons, Hp, Hp'. split; [done|]. split.
  - constructor; [|done]. apply (set_up_later _ f1); [|by rewrite Hp; apply Ho']. unfold set_up in *. rewrite Hp in *. by rewrite <- Hfx.
  - intros p Hnp. rewrite Ho' by set_solver. apply Ho. set_solver.
Qed.

Lemma rounds_keep st rounds files f :
  Forall (set_up files f) (settings st) -> NoDup (ig_path <$> settings st) ->
  let f' := foldl (ignite_child st) f rounds in
  Forall (set_up files f') (settings st) /\ forall p, p ∉ ig_path <$> settings st -> f' !! p = f !! p.
Proof.
  intros Hs Hn. revert f Hs. induction rounds as [|a rounds IH]; intros f Hs; [done|]. cbn [foldl].
  destruct (IH (ignite_child st f a)) as [H1 H2].
  - apply Forall_forall. intros x Hx. rewrite Forall_forall in Hs. specialize (Hs x Hx). unfold set_up, ignite_child in *.
    destruct (ig_ignore x) eqn:E; [|destruct Hs as (? & ? & ?); split_and!; [done..|by apply write_all_some]].
    rewrite write_all_other; [done|]. apply Forall_forall. intros y Hy. destruct (decide (ig_path y = ig_path x)) as [Ep|]; [|by right].
    left. assert (y = x) as ->; [|done]. apply list_elem_of_lookup in Hx as [j Hj], Hy as [k Hk].
    assert (k = j) as ->; [|congruence]. eapply NoDup_lookup; [exact Hn|by rewrite list_lookup_fmap, Hk|by rewrite list_lookup_fmap, Hj, Ep].
  - split; [done|]. intros p Hp. rewrite H2 by done. apply write_all_other. apply Forall_forall. intros y Hy. right. intros <-.
    apply Hp. by apply list_elem_of_fmap_2.
Qed.

(** (C36) After [ignite_cpu_start()], any number of rounds of the child and [ignite_cpu_stop()], every file reads what it did before.
    Opening, reading and writing may fail at the start, call by call, and the writes of the child may fail or be short in
    any way.  Assumed are that the tuning was not started already, that memory can be had and no write is short at the start (otherwise the control is
    changed and never set back), that the writes of [ignite_cpu_stop()] succeed (their failure is not noticed), that no two controls are one
    file, and that writing back what a control reads, of at most 4095 bytes, leaves it as it is. *)
Theorem ignite_restores e st fork rounds files :
  enabled st = false -> NoDup (ig_path <$> settings st) -> (forall x, x ∈ settings st -> holds_own files (ig_path x)) ->
  (forall i, fair_error (a_read e i)) -> (forall i, fair_write (a_write e i)) -> (forall i, a_calloc e i = true) ->
  let '(st1, files1) := ignite_cpu_start e fork st files in
  (ignite_cpu_stop (fun _ => Whole) st1 (foldl (ignite_child st1) files1 rounds)).2 = files.
Proof.
  intros He Hn Hh Hr Hw Hc. unfold ignite_cpu_start. rewrite He.
  pose proof (ignite_all_set_up e 0 (settings st) files files Hr Hw Hc Hn Hh (fun _ _ => eq_refl)) as H.
  destruct (ignite_all _ _ _ _) as [[xs any] f1]. destruct H as (Hp & Hs & Ho). rewrite <- Hp in Hn, Ho.
  assert (forall st1, settings st1 = xs ->
    (ignite_cpu_stop (fun _ => Whole) st1 (foldl (ignite_child st1) f1 rounds)).2 = files) as H; [|by destruct any; apply H].
  intros st1 <-. destruct (rounds_keep st1 rounds files f1 Hs Hn) as [Hs' Ho']. cbn [ignite_cpu_stop snd].
  revert Hs' Ho'. generalize (foldl (ignite_child st1) f1 rounds). intros f' Hs' Ho'. apply map_eq. intros p.
  destruct (decide (p ∈ ig_path <$> settings st1)) as [(x & -> & Hx)%list_elem_of_fmap|Hnp].
  - rewrite Forall_forall in Hs'. specialize (Hs' x Hx). unfold set_up in Hs'. destruct (ig_ignore x) eqn:E.
    + rewrite write_all_other; [done|]. apply Forall_forall. intros y Hy. destruct (decide (ig_path y = ig_path x)) as [Ep|]; [|by right].
      left. assert (y = x) as ->; [|done]. apply list_elem_of_lookup in Hx as [j Hj], Hy as [k Hk].
      assert (k = j) as ->; [|congruence]. eapply NoDup_lookup; [exact Hn|by rewrite list_lookup_fmap, Hk|by rewrite list_lookup_fmap, Hj, Ep].
    + destruct Hs' as ((text & Ht) & Hf & Hsome). rewrite write_all_own by done. rewrite <- Hf, Ht. cbn [default]. f_equal.
      assert (ig_path x ∈ ig_path <$> settings st) as (y & Ey & Hy)%list_elem_of_fmap by (rewrite <- Hp; by apply list_elem_of_fmap_2).
      destruct (Hh y Hy text) as [Hst _]; [by rewrite <- Ey, <- Hf|]. by rewrite Ey.
  - rewrite write_all_other, Ho', Ho; [done..|]. apply Forall_forall. intros y Hy. right. intros <-. apply Hnp. by apply list_elem_of_fmap_2.
Qed.
End Ignite.

(** a kernel that keeps what is written; the child's writes fail, or are short *)
Lemma ignite_restores_witness :
  let K := fun _ buf : string => buf in
  let e := Answers (fun _ => None) (fun _ => Whole) (fun _ => true) in
  let rounds := [fun _ => Whole; fun i => if (i =? 0)%nat then WriteError 5 else Whole; fun _ => ShortWrite 1 0] in
  let files : sysfiles := <["/sys/devices/system/cpu/intel_pstate/max_perf_pct" := "80"]> (<["/sys/devices/system/cpu/intel_pstate/no_turbo" := "1"]> ∅) in
  let '(st1, files1) := ignite_cpu_start K e 77 ignite_init files in
  files1 <> files /\ (ignite_cpu_stop K (fun _ => Whole) st1 (foldl (ignite_child K st1) files1 rounds)).2 = files.
Proof.
  intros K e rounds files. pose proof (ignite_restores K e ignite_init 77 rounds files eq_refl) as H.
  assert (NoDup (ig_path <$> settings ignite_init)) as Hn by (apply (bool_decide_unpack _); reflexivity). specialize (H Hn).
  assert (forall x, x ∈ settings ignite_init -> holds_own K files (ig_path x)) as Hh.
  { intros x Hx text Ht. split; [reflexivity|].
    apply elem_of_cons in Hx as [-> | [-> | []%elem_of_nil]%elem_of_cons]; vm_compute in Ht; injection Ht as <-; cbn [String.length]; lia. }
  specialize (H Hh (fun _ => I) (fun _ => I) (fun _ => eq_refl)).
  destruct (ignite_cpu_start K e 77 ignite_init files) as [st1 files1] eqn:E. split; [|exact H].
  intros ->. apply (f_equal (fun p => p.2 !! "/sys/devices/system/cpu/intel_pstate/no_turbo")) in E. vm_compute in E. discriminate E.
Defined.

(** ** thrash.c *)

Definition hex_value (c : ascii) : option Z :=
  if isdigit c then Some (code c - 48)
  else let l := tolower c in if (97 <=? l) && (l <=? 102) then Some (l - 87) else None.

(** the number of hexadecimal digits, their value and the rest *)
Fixpoint hex_digits (n v : Z) (s : string) : Z * Z * string :=
  match s with
  | String c t => match hex_value c with Some d => hex_digits (n + 1) (v * 16 + d) t | None => (n, v, s) end
  | EmptyString => (n, v, s)
  end.

(** [%jx] *)
Definition scan_hex (s : string) : option (Z * string) :=
  let '(neg, _, t) := take_sign (no_width s) (skip_space s) in
  let t := match t with String z (String x t') => if (code z =? 48) && (tolower x =? 120) then t' else t | _ => t end in
  let '(n, v, rest) := hex_digits 0 0 t in
  if n =? 0 then None else Some (strtoul (neg, v), rest).

(** [sscanf(buffer, "%jx-%jx", &begin, &end) == 2] *)
Definition maps_range (line : string) : option (Z * Z) :=
  '(begin, rest) ← scan_hex line;
  match rest with
  | String c rest => if code c =? code char_minus then '(end_, _) ← scan_hex rest; Some (begin, end_) else None
  | EmptyString => None
  end.

Section Pagein.
Variable page_size : Z.

(** [for (off = (off_t)begin; off < (off_t)end; off += page_size)]; [None]: the fuel is out *)
Fixpoint page_walk (fuel : nat) (off end_ : Z) : option (list Z) :=
  if off <? end_ then
    match fuel with
    | O => None
    | S fuel => pages ← page_walk fuel (s64 (off + page_size)) end_; Some (off :: pages)
    end
  else Some [].

Definition range_pages (fuel : nat) (begin end_ : Z) : option (list Z) :=
  if end_ <=? begin then Some []
  else if 0x80000000 <? end_ - begin then Some []
  else if end_ =? 0 then Some []
  else page_walk fuel (s64 begin) (s64 end_).

(** the pages touched for the lines of the file; what [lseek()] and [read()] return does not matter *)
Fixpoint pagein_lines (fuel : nat) (lines : list string) : option (list Z) :=
  match lines with
  | [] => Some []
  | line :: lines =>
      pages ← match maps_range line with Some (begin, end_) => range_pages fuel begin end_ | None => Some [] end;
      rest ← pagein_lines fuel lines; Some (pages ++ rest)
  end.

(** [mem]: whether /proc/pid/mem can be opened; [maps]: the lines of /proc/pid/maps *)
Definition pagein_proc (fuel : nat) (mem : Z + unit) (maps : Z + list string) : option (Z * list Z) :=
  match mem, maps with
  | inl errno, _ => Some (- errno, [])
  | inr _, inl errno => Some (- errno, [])
  | inr _, inr lines => pages ← pagein_lines fuel lines; Some (0, pages)
  end.

(** the entries of /proc that are processes *)
Definition proc_pid (name : string) : option Z :=
  match name with
  | String c _ => if isdigit c then p ← scan_number (no_width name) name; Some (s32 (strtol p)) else None
  | EmptyString => None
  end.
Definition pagein_all_procs (entries : option (list string)) : option (list Z) :=
  match entries with None => None | Some names => Some (omap (M := list) proc_pid names) end.

Lemma s64_range x : - 2 ^ 63 <= s64 x < 2 ^ 63.
Proof. unfold s64. pose proof (u64_fits x) as H. unfold fits in H. destruct (Z.ltb_spec (u64 x) (2 ^ 63)); lia. Qed.

Lemma page_walk_pages fuel off end_ :
  0 < page_size -> - 2 ^ 63 <= off -> end_ <= 2 ^ 63 - page_size -> end_ - off <= Z.of_nat fuel * page_size ->
  exists n, page_walk fuel off end_ = Some ((fun k => off + Z.of_nat k * page_size) <$> seq 0 n) /\
    (Z.of_nat n - 1) * page_size < Z.max 0 (end_ - off) <= Z.of_nat n * page_size.
Proof.
  intros Hp. revert off. induction fuel as [|fuel IH]; intros off Ho He Hf; cbn [page_walk]; destruct (Z.ltb_spec off end_).
  - lia.
  - exists 0%nat. split; [done|]. nia.
  - rewrite s64_small by lia. destruct (IH (off + page_size)) as (n & -> & Hn); [lia..|]. exists (S n). split.
    + cbn [mbind option_bind]. cbn [seq fmap list_fmap]. f_equal. f_equal; [lia|]. rewrite <- seq_shift, <- list_fmap_compose.
      apply list_fmap_ext. intros _ k _. cbn [compose]. lia.
    + rewrite Nat2Z.inj_succ, (Z.max_r 0 (end_ - off)) by lia. destruct (Z.max_spec 0 (end_ - (off + page_size))) as [[? E]|[? E]]; rewrite E in Hn; [lia|].
      assert (n = 0%nat) as -> by nia. lia.
  - exists 0%nat. split; [done|]. nia.
Qed.

(** For each range of a line of maps below the top of the address space, the pages touched are
    those from its begin to its end, in steps of a page, each once, and no more than 2 GB; a
    range that is empty or larger has none.  The loop ends. *)
Theorem pagein_pages begin end_ :
  0 < page_size -> fits 64 begin -> fits 64 end_ -> s64 end_ <= 2 ^ 63 - page_size ->
  exists n, range_pages (Z.to_nat (2 ^ 31 / page_size + 1)) begin end_ = Some ((fun k => s64 begin + Z.of_nat k * page_size) <$> seq 0 n) /\
    (Z.of_nat n - 1) * page_size < 2 ^ 31 /\
    (n <> 0%nat -> s64 begin + (Z.of_nat n - 1) * page_size < s64 end_ <= s64 begin + Z.of_nat n * page_size).
Proof.
  intros Hp Hb He Hs. unfold range_pages. assert ((Z.of_nat 0 - 1) * page_size < 2 ^ 31) as H0 by nia.
  destruct (Z.leb_spec end_ begin); [exists 0%nat; split; [done|]; split; [exact H0|done]|].
  destruct (Z.ltb_spec 0x80000000 (end_ - begin)); [exists 0%nat; split; [done|]; split; [exact H0|done]|].
  destruct (Z.eqb_spec end_ 0) as [->|_]; [unfold fits in *; lia|].
  assert (s64 end_ - s64 begin <= 2 ^ 31) as Hd.
  { unfold s64. rewrite !u64_small by done. unfold fits in *. destruct (Z.ltb_spec begin (2 ^ 63)), (Z.ltb_spec end_ (2 ^ 63)); lia. }
  pose proof (Z.div_mod (2 ^ 31) page_size ltac:(lia)). pose proof (Z.mod_pos_bound (2 ^ 31) page_size ltac:(lia)).
  assert (0 <= 2 ^ 31 / page_size) by (apply Z.div_pos; lia).
  destruct (page_walk_pages (Z.to_nat (2 ^ 31 / page_size + 1)) (s64 begin) (s64 end_)) as (n & -> & Hn);
    [done|apply s64_range|done|rewrite Z2Nat.id by lia; nia|].
  exists n. split; [done|]. destruct (Z.max_spec 0 (s64 end_ - s64 begin)) as [[? E]|[? E]]; rewrite E in Hn; split; try lia; intros; nia.
Qed.
End Pagein.

Lemma pagein_pages_witness :
  maps_range "0060b000-0060d800 r--p 0000b000 08:01 1901726" = Some (0x60b000, 0x60d800) /\
  exists n, range_pages 4096 (Z.to_nat (2 ^ 31 / 4096 + 1)) 0x60b000 0x60d800 = Some ((fun k => s64 0x60b000 + Z.of_nat k * 4096) <$> seq 0 n) /\
    (Z.of_nat n - 1) * 4096 < 2 ^ 31.
Proof.
  split; [reflexivity|].
  destruct (pagein_pages 4096 0x60b000 0x60d800 ltac:(lia) ltac:(unfold fits; lia) ltac:(unfold fits; lia) ltac:(vm_compute; discriminate)) as (n & E & H & _).
  exists n. split; assumption.
Defined.

(** *** the process *)

(** the value returned and [thrash_pid]; [fork]: what [fork()] returns to the parent *)
Definition thrash_start (root : bool) (fork thrash_pid : Z) : Z * Z :=
  if negb root then (-1, thrash_pid)
  else if c_true thrash_pid then (-1, thrash_pid)
  else if fork <? 0 then (-1, fork) else (0, fork).

(** the signals sent, and [thrash_pid] *)
Definition thrash_stop (thrash_pid : Z) : list (Z * Z) * Z :=
  if c_true thrash_pid then ([(thrash_pid, SIGKILL)], 0) else ([], thrash_pid).

(** The processes that [kill()] by a number reaches: -1 is all of them. *)
Definition reached (all : list Z) (pid : Z) : list Z := if pid =? -1 then all else [pid].

(** Once thrashing has been started, stopping it kills the process that was started and no other;
    without the rights to start it nothing is killed; but when the process could not be made,
    stopping kills all processes. *)
Theorem thrash_kills root fork all :
  fork <> 0 -> -1 <= fork ->
  let '(ret, pid) := thrash_start root fork 0 in
  let killed := mjoin ((fun k => reached all k.1) <$> (thrash_stop pid).1) in
  (thrash_stop pid).2 = 0 /\
  killed = if root then (if fork =? -1 then all else [fork]) else [].
Proof.
  intros Hf Hl. unfold thrash_start. destruct root; cbn [negb c_true]; [|done]. change (c_true 0) with false. cbn.
  unfold thrash_stop, reached, c_true. destruct (Z.ltb_spec fork 0), (Z.eqb_spec fork 0); try lia; cbn; rewrite app_nil_r; by destruct (fork =? -1).
Qed.

Lemma thrash_kills_witness :
  let '(ret, pid) := thrash_start true (-1) 0 in mjoin ((fun k => reached [1; 2; 3] k.1) <$> (thrash_stop pid).1) = [1; 2; 3].
Proof. exact (proj2 (thrash_kills true (-1) [1; 2; 3] ltac:(discriminate) ltac:(lia))). Defined.
