(* ===== verification/RunProofs.v ===== *)
(** * Correctness of starting and waiting

    Every process that is created is recorded in exactly one slot whatever the
    operating system answers; a run that is not disturbed starts every instance
    of every stressor; and the exit status of the program says what the
    collected statuses say. *)

From Stdlib Require Import Permutation.
From S2P Require Import Prelude Procs Run.

(** ** Starting *)

(** the slots in use hold a process each, the array has room for all instances *)
Definition filled (d : pdata) : Prop :=
  0 <= started_procs d <= num_procs d /\ length (pids d) = Z.to_nat (num_procs d).

Definition recorded (d : pdata) : list Z := take (Z.to_nat (started_procs d)) (pids d).
Definition all_recorded (ds : list pdata) : list Z := concat (recorded <$> ds).

Lemma all_recorded_app ds1 ds2 : all_recorded (ds1 ++ ds2) = all_recorded ds1 ++ all_recorded ds2.
Proof. unfold all_recorded. by rewrite fmap_app, concat_app. Qed.
Lemma all_recorded_cons d ds : all_recorded (d :: ds) = recorded d ++ all_recorded ds.
Proof. done. Qed.

Lemma record_pid_filled pid d :
  filled d -> started_procs d < num_procs d ->
  filled (record_pid pid d) /\ recorded (record_pid pid d) = recorded d ++ [pid].
Proof.
  intros [Hs Hl] Hlt. unfold filled, recorded, record_pid. cbn. split; [split; [lia|by rewrite length_insert]|].
  replace (Z.to_nat (started_procs d + 1)) with (S (Z.to_nat (started_procs d))) by lia.
  assert (Z.to_nat (started_procs d) < length (pids d))%nat as Hin by lia.
  rewrite (take_S_r _ _ pid) by (by apply list_lookup_insert_eq). by rewrite take_insert_ge.
Qed.

(** what one instance adds: nothing, or one recorded process *)
Definition tracks (e : env) (d : pdata) (st : rstate) (r : started) : Prop :=
  match r with
  | StBreak st' => children st' = children st
  | StNext d' st' | StKill d' st' =>
      filled d' /\ exists new, recorded d' = recorded d ++ new /\ children st' = children st ++ new
  end.

Lemma start_proc_tracks e retries d st r :
  filled d -> started_procs d < num_procs d -> start_proc e retries d st = Some r -> tracks e d st r.
Proof.
  intros Hd Hlt. revert st. induction retries as [|n IH]; intros st; cbn [start_proc poll_keep do_fork].
  - destruct (keep e (polls st)); cbn [negb]; [|by intros [= <-]].
    cbn [forks]. destruct (fork e (forks st)) as [| |pid]; [done| |].
    + intros [= <-]. split; [done|]. exists []. by rewrite !app_nil_r.
    + destruct (record_pid_filled pid d Hd Hlt) as [Hf Hr].
      cbn [polls]. destruct (keep e (S (polls st))); intros [= <-]; (split; [done|]); by exists [pid].
  - destruct (keep e (polls st)); cbn [negb]; [|by intros [= <-]].
    cbn [forks]. destruct (fork e (forks st)) as [| |pid].
    + intros H%IH. by destruct r.
    + intros [= <-]. split; [done|]. exists []. by rewrite !app_nil_r.
    + destruct (record_pid_filled pid d Hd Hlt) as [Hf Hr].
      cbn [polls]. destruct (keep e (S (polls st))); intros [= <-]; (split; [done|]); by exists [pid].
Qed.

(** [ds] grew to [ds'] by exactly the processes created between [st] and [st'] *)
Definition grew (ds : list pdata) (st : rstate) (ds' : list pdata) (st' : rstate) : Prop :=
  Forall filled ds' /\ length ds' = length ds /\
  exists new, all_recorded ds' ≡ₚ all_recorded ds ++ new /\ children st' = children st ++ new.

Lemma grew_refl ds st st' : Forall filled ds -> children st' = children st -> grew ds st ds st'.
Proof. intros H Hc. split; [done|]. split; [done|]. exists []. by rewrite !app_nil_r. Qed.

Lemma grew_trans ds1 st1 ds2 st2 ds3 st3 : grew ds1 st1 ds2 st2 -> grew ds2 st2 ds3 st3 -> grew ds1 st1 ds3 st3.
Proof.
  intros (_ & Hl & n1 & Hr1 & Hc1) (Hf & Hl' & n2 & Hr2 & Hc2). split; [done|]. split; [congruence|].
  exists (n1 ++ n2). rewrite Hr2, Hr1, Hc2, Hc1. by rewrite !app_assoc.
Qed.

(** one element of the list replaced *)
Lemma grew_middle pre d d' rest st st' new :
  Forall filled pre -> Forall filled rest -> filled d' ->
  recorded d' = recorded d ++ new -> children st' = children st ++ new ->
  grew (pre ++ d :: rest) st (pre ++ d' :: rest) st'.
Proof.
  intros Hp Hr Hd' Hrec Hc. split; [|split; [by rewrite !length_app|]].
  - apply Forall_app. split; [done|]. by constructor.
  - exists new. split; [|done]. rewrite !all_recorded_app, !all_recorded_cons, Hrec.
    rewrite <- !app_assoc. do 2 apply Permutation_app_head. apply Permutation_app_comm.
Qed.

Lemma do_kill_children ds st : children (do_kill ds st) = children st.
Proof. done. Qed.

Lemma start_each_tracks e retries before pre rest st c ds' st' :
  Forall filled pre -> Forall filled rest ->
  start_each e retries before pre rest st = Some (c, ds', st') -> grew (pre ++ rest) st ds' st'.
Proof.
  intros Hp Hr. revert pre st Hp. induction Hr as [|d rest Hd Hr IH]; intros pre st Hp; cbn [start_each check_time].
  { intros [= <- <- <-]. rewrite app_nil_r. by apply grew_refl. }
  assert (Forall filled (pre ++ d :: rest)) as Hall by (apply Forall_app; split; [done|by constructor]).
  destruct (expired e (checks st)). { intros [= <- <- <-]. by apply grew_refl. }
  destruct (Z.ltb_spec (started_procs d) (num_procs d)).
  - destruct (start_proc e retries d _) as [r|] eqn:Hs; [|done].
    apply start_proc_tracks in Hs; [|done..]. cbn [mbind option_bind]. destruct r as [d1 st1|st1|d1 st1].
    + destruct Hs as (Hf1 & new & Hrec & Hc). intros H1. eapply grew_trans; [by eapply grew_middle|].
      replace (pre ++ d1 :: rest) with ((pre ++ [d1]) ++ rest) by (by rewrite <- app_assoc).
      apply IH; [|done]. apply Forall_app. split; [done|by constructor].
    + intros [= <- <- <-]. by apply grew_refl.
    + destruct Hs as (Hf1 & new & Hrec & Hc). intros [= <- <- <-]. by eapply grew_middle.
  - intros H1. replace (pre ++ d :: rest) with ((pre ++ [d]) ++ rest) by (by rewrite <- app_assoc).
    eapply grew_trans; [apply grew_refl with (st' := snd (check_time e st))|eapply IH; [|exact H1]]; try done.
    + by rewrite <- app_assoc.
    + apply Forall_app. split; [done|by constructor].
Qed.

Lemma start_rounds_tracks e retries before n ds st c ds' st' :
  Forall filled ds -> start_rounds e retries before n ds st = Some (c, ds', st') -> grew ds st ds' st'.
Proof.
  revert ds st. induction n as [|n IH]; intros ds st Hf; cbn [start_rounds].
  { intros [= <- <- <-]. by apply grew_refl. }
  destruct (start_each e retries before [] ds st) as [[[c1 ds1] st1]|] eqn:H1; [|done]. cbn [mbind option_bind].
  apply (start_each_tracks e retries before [] ds st c1 ds1 st1) in H1; [|constructor|done]. cbn [app] in H1.
  destruct c1; intros H2; [|by injection H2 as <- <- <-..].
  eapply grew_trans; [exact H1|]. eapply IH; [apply H1|exact H2].
Qed.

(** (C10) No child is lost: whatever [fork], the clock and the signals do, the processes
    recorded in the slots after starting are those recorded before and exactly
    the ones created since, each once; so the signals and the waits that
    follow reach every child. *)
Theorem every_child_recorded e retries before ds st c ds' st' :
  Forall filled ds -> all_recorded ds ≡ₚ children st ->
  start_stressors e retries before ds st = Some (c, ds', st') ->
  Forall filled ds' /\ all_recorded ds' ≡ₚ children st'.
Proof.
  intros Hf Hr H. unfold start_stressors in H. apply start_rounds_tracks in H as (Hf' & _ & new & Hrec & Hc); [|done].
  split; [done|]. by rewrite Hrec, Hc, Hr.
Qed.

(** *** an undisturbed run *)

(** nothing interferes: [fork] succeeds after at most [retries] tries *)
Definition undisturbed (e : env) (retries : nat) : Prop :=
  (forall k, expired e k = false) /\ (forall k, keep e k = true) /\
  (forall k, fork e k <> ForkError) /\
  (forall k, exists i pid, (i <= retries)%nat /\ fork e (k + i)%nat = ForkPid pid).

Lemma start_proc_undisturbed e retries n d st :
  undisturbed e retries -> (exists i pid, (i <= n)%nat /\ fork e (forks st + i)%nat = ForkPid pid) ->
  exists pid st', start_proc e n d st = Some (StNext (record_pid pid d) st').
Proof.
  intros (_ & Hk & Hne & _). revert st. induction n as [|n IH]; intros st (i & p & Hi & Hp);
    cbn [start_proc poll_keep do_fork]; rewrite Hk; cbn [negb forks polls].
  - replace i with 0%nat in Hp by lia. rewrite Nat.add_0_r in Hp. rewrite Hp, Hk. by eexists _, _.
  - destruct (fork e (forks st)) as [| |pid] eqn:Hfk; [|by destruct (Hne (forks st))|].
    + destruct (IH (RState (checks st) (S (polls st)) (S (forks st)) (count st) (sent st) (children st)))
        as (pid & st' & H').
      { destruct i as [|i]; [rewrite Nat.add_0_r in Hp; congruence|]. exists i, p. split; [lia|].
        cbn. by replace (S (forks st + i))%nat with (forks st + S i)%nat by lia. }
      by exists pid, st'.
    + rewrite Hk. by eexists _, _.
Qed.

(** one more instance where there is one to start *)
Definition advanced (d d' : pdata) : Prop :=
  stressor d' = stressor d /\ stats d' = stats d /\ num_procs d' = num_procs d /\ started_procs d' = Z.min (num_procs d) (started_procs d + 1).

Lemma start_each_undisturbed e retries before pre rest st :
  undisturbed e retries -> Forall filled rest ->
  exists rest' st', start_each e retries before pre rest st = Some (CNext, pre ++ rest', st') /\
    Forall2 advanced rest rest'.
Proof.
  intros Hu Hf. destruct Hu as (Ht & Hk & Hne & Hp) eqn:E. revert pre st.
  induction Hf as [|d rest [Hs Hl] _ IH]; intros pre st; cbn [start_each check_time].
  { exists [], st. rewrite app_nil_r. by split. }
  rewrite Ht. destruct (Z.ltb_spec (started_procs d) (num_procs d)) as [Hlt|Hge].
  - destruct (start_proc_undisturbed e retries retries d (snd (check_time e st)) Hu) as (pid & st1 & Hst); [apply Hp|].
    cbn [check_time snd] in Hst. rewrite Hst. cbn [mbind option_bind].
    destruct (IH (pre ++ [record_pid pid d]) st1) as (rest' & st' & -> & H2).
    exists (record_pid pid d :: rest'), st'. rewrite <- app_assoc. split; [done|]. constructor; [|done].
    do 3 (split; [done|]). cbn. lia.
  - destruct (IH (pre ++ [d]) (snd (check_time e st))) as (rest' & st' & H1 & H2). cbn [check_time snd] in H1. rewrite H1.
    exists (d :: rest'), st'. rewrite <- app_assoc. split; [done|]. constructor; [|done]. do 3 (split; [done|]). lia.
Qed.

Lemma start_rounds_undisturbed e retries before n ds st :
  undisturbed e retries -> Forall filled ds ->
  exists ds' st', start_rounds e retries before n ds st = Some (CNext, ds', st') /\
    Forall2 (fun d d' => stressor d' = stressor d /\ stats d' = stats d /\ num_procs d' = num_procs d /\
      started_procs d' = Z.min (num_procs d) (started_procs d + Z.of_nat n)) ds ds'.
Proof.
  intros Hu. revert ds st. induction n as [|n IH]; intros ds st Hf; cbn [start_rounds].
  { exists ds, st. split; [done|]. induction Hf as [|d ds [Hs _] _ IHf]; constructor; [|done]. do 3 (split; [done|]). lia. }
  destruct (start_each_undisturbed e retries before [] ds st Hu Hf) as (ds1 & st1 & H1 & Hadv). rewrite H1.
  cbn [mbind option_bind app] in *. apply start_each_tracks in H1 as (Hf1 & _); [|constructor|done].
  destruct (IH ds1 st1 Hf1) as (ds2 & st2 & -> & H2). exists ds2, st2. split; [done|].
  clear -Hadv H2 Hf. revert ds2 H2. induction Hadv as [|d d1 ds ds1 (Ht & Hd & Hn & Hs) Hadv IH]; intros ds2 H2.
  { by inversion H2. }
  inversion H2 as [|? d2 ? ds2' (Ht2 & Hd2 & Hn2 & Hs2) H2']; subst. inversion Hf as [|? ? [Hfs _] Hf']; subst.
  constructor; [|by apply IH]. do 3 (split; [congruence|]). rewrite Hs2, Hn, Hs. lia.
Qed.

Lemma total_of_bound ds : Forall (fun d => 0 <= num_procs d) ds ->
  0 <= total_of ds /\ Forall (fun d => num_procs d <= total_of ds) ds.
Proof.
  unfold total_of. induction 1 as [|d ds Hd _ [IH0 IH]]; [done|]. cbn [foldr]. split; [lia|].
  constructor; [lia|]. eapply Forall_impl; [exact IH|]. cbn. intros x Hx. lia.
Qed.

(** An undisturbed start is complete: when the time is not up, no signal comes and
    [fork] succeeds after finitely many retries, every stressor ends up with
    all of its instances started, and keeps its stressor and its statistics slots. *)
Lemma every_instance_started e retries before ds st :
  undisturbed e retries -> Forall filled ds -> total_of ds < 2 ^ 31 ->
  exists ds' st', start_stressors e retries before ds st = Some (CNext, ds', st') /\
    Forall2 (fun d d' => stressor d' = stressor d /\ stats d' = stats d /\ num_procs d' = num_procs d /\
      started_procs d' = num_procs d) ds ds'.
Proof.
  intros Hu Hf Ht. destruct (total_of_bound ds) as [H0 Hle].
  { eapply Forall_impl; [exact Hf|]. intros d [? _]. lia. }
  unfold start_stressors. rewrite u32_small by (unfold fits; lia). rewrite s32_small by lia.
  destruct (start_rounds_undisturbed e retries before (Z.to_nat (total_of ds)) ds st Hu Hf) as (ds' & st' & -> & H2).
  exists ds', st'. split; [done|]. clear Hu Ht. revert Hle H2. generalize (total_of ds) H0. clear H0. intros t H0' Hle H2.
  induction H2 as [|d d' ds ds' (Hst & Hsl & Hn & Hs) _ IH]; constructor.
  - inversion Hle; inversion Hf as [|? ? [Hfs _]]; subst. do 3 (split; [done|]). rewrite Hs. lia.
  - inversion Hle; inversion Hf; subst. by apply IH.
Qed.

(** processes 100, 101, ...; every second [fork] has to be tried again *)
Definition demo_env : env :=
  Env (fun _ => false) (fun _ => true)
    (fun k => if Nat.even k then ForkAgain else ForkPid (100 + Z.of_nat k))
    (fun k => if Nat.even k then Interrupted else Waited (if (k =? 3)%nat then 3 * 256 else 0)).

Definition demo_ds : list pdata :=
  [PData (demo_stress 7) [0; 0; 0] [0; 1; 2] 0 3 100; PData (demo_stress 8) [0] [3] 0 1 100].
Definition start_state : rstate := RState 0 0 0 0 [] [].

Lemma demo_undisturbed : undisturbed demo_env 1.
Proof.
  assert (forall k, Nat.even (S k) = negb (Nat.even k)) as Heven.
  { intros k. by rewrite Nat.even_succ, <- Nat.negb_even. }
  split; [done|]. split; [done|]. split.
  - intros k. cbn. by destruct (Nat.even k).
  - intros k. cbn -[Nat.even]. destruct (Nat.even k) eqn:Hk.
    + exists 1%nat. rewrite Nat.add_1_r, Heven, Hk. cbn [negb]. by eexists.
    + exists 0%nat. rewrite Nat.add_0_r, Hk. eexists. split; [lia|done].
Qed.

Lemma demo_filled : Forall filled demo_ds.
Proof. repeat apply Forall_cons_2; [..|apply Forall_nil_2]; (split; [simpl; lia|done]). Qed.

Lemma every_child_recorded_witness :
  exists ds' st', start_stressors demo_env 1 [] demo_ds start_state = Some (CNext, ds', st') /\
    all_recorded ds' ≡ₚ children st' /\ children st' = [101; 103; 105; 107].
Proof.
  eexists _, _. split; [vm_compute; reflexivity|]. split; [|reflexivity].
  apply (every_child_recorded demo_env 1 [] demo_ds start_state CNext);
    [apply demo_filled|reflexivity|vm_compute; reflexivity].
Defined.

(** ** Waiting *)

Definition status_of (r : wait_result) : option Z := match r with Waited s => Some s | _ => None end.

(** the statuses that the first [n] calls of [waitpid] returned *)
Definition collected (e : env) (n : nat) : list Z := omap (fun k => status_of (waitpid e k)) (seq 0 n).

Lemma collected_S e n :
  collected e (S n) = collected e n ++ match status_of (waitpid e n) with Some s => [s] | None => [] end.
Proof.
  unfold collected. rewrite seq_S, omap_app. cbn. by destruct (status_of (waitpid e n)).
Qed.

(** a child failed: it was killed, or its status is none of the harmless ones *)
Definition failed (status : Z) : bool :=
  WIFSIGNALED status ||
  negb (bool_decide (WEXITSTATUS status ∈ [EXIT_SUCCESS; EXIT_NO_RESOURCE; EXIT_NOT_IMPLEMENTED])).
Definition starved (status : Z) : bool := WEXITSTATUS status =? EXIT_NO_RESOURCE.

Lemma judge_spec status su re :
  (judge status su re).1 = (su && negb (failed status), re && negb (starved status)).
Proof.
  unfold judge, failed, starved. cbv zeta. generalize (WEXITSTATUS status), (WIFSIGNALED status). intros x sg.
  destruct (Z.eqb_spec x EXIT_SUCCESS) as [->|Hx].
  { cbn. by destruct sg, su, re. }
  destruct (Z.eqb_spec x EXIT_NO_RESOURCE) as [->|Hy].
  { cbn. by destruct sg, su, re. }
  destruct (Z.eqb_spec x EXIT_NOT_IMPLEMENTED) as [->|Hz].
  { cbn. by destruct sg, su, re. }
  rewrite bool_decide_false by (rewrite !elem_of_cons, elem_of_nil; tauto). by destruct sg, su, re.
Qed.

(** the flags say what the statuses collected so far say, and the log is what [waitpid] answered *)
Definition summed_up (e : env) (w : wstate) : Prop :=
  success w = negb (existsb failed (collected e (waits w))) /\
  resource_success w = negb (existsb starved (collected e (waits w))) /\
  (w_log w).*2 = waitpid e <$> seq 0 (waits w).

(** an answer after which the process is no child any more: its status, or that there is no such child *)
Definition is_final (r : wait_result) : bool := match r with Waited _ | NoChild => true | _ => false end.

(** the processes that [waitpid()] was asked for and gave such an answer for, in order *)
Definition reaped (log : list (Z * wait_result)) : list Z := (List.filter (fun x => is_final x.2) log).*1.

(** the statuses that it gave *)
Definition statuses (log : list (Z * wait_result)) : list Z := omap status_of log.*2.

Lemma reaped_app l1 l2 : reaped (l1 ++ l2) = reaped l1 ++ reaped l2.
Proof. unfold reaped. by rewrite List.filter_app, fmap_app. Qed.

Lemma summed_up_statuses e w : summed_up e w -> statuses (w_log w) = collected e (waits w).
Proof.
  intros (_ & _ & Hl). unfold statuses, collected. rewrite Hl. generalize (seq 0 (waits w)). intros l.
  induction l as [|k l IH]; [done|]. cbn. rewrite IH. by destruct (status_of (waitpid e k)).
Qed.

(** every [waitpid] comes to a result, after at most [retries] interruptions *)
Definition answers (e : env) (retries : nat) : Prop :=
  (forall k, waitpid e k <> WaitError) /\
  (forall k, exists i, (i <= retries)%nat /\ waitpid e (k + i)%nat <> Interrupted).

Lemma summed_up_step e w w' :
  summed_up e w -> waits w' = S (waits w) -> (exists pid, w_log w' = w_log w ++ [(pid, waitpid e (waits w))]) ->
  (match status_of (waitpid e (waits w)) with
   | Some s => success w' = success w && negb (failed s) /\ resource_success w' = resource_success w && negb (starved s)
   | None => success w' = success w /\ resource_success w' = resource_success w
   end) -> summed_up e w'.
Proof.
  intros (H1 & H2 & H3) Hw [pid Hl] H. unfold summed_up. rewrite Hl, Hw, collected_S, !existsb_app, fmap_app, H3, seq_S, fmap_app.
  destruct (status_of (waitpid e (waits w))) as [s|]; cbn [existsb]; rewrite ?orb_false_r, ?negb_orb;
    destruct H as [-> ->]; by rewrite H1, H2.
Qed.

Lemma wait_slot_collects e ab n ds pid w :
  (forall k, waitpid e k <> WaitError) ->
  (exists i, (i <= n)%nat /\ waitpid e (waits w + i)%nat <> Interrupted) -> summed_up e w ->
  exists w', wait_slot e ab n ds pid w = Some (0, w') /\ summed_up e w' /\
    reaped (w_log w') = reaped (w_log w) ++ List.filter c_true [pid].
Proof.
  intros Hne. revert w. induction n as [|n IH]; intros w (i & Hi & Hw) Hs; cbn [wait_slot];
    (destruct (Z.eqb_spec pid 0) as [->|Hpid]; [exists w; by rewrite app_nil_r|]);
    (assert (List.filter c_true [pid] = [pid]) as Hc by (cbn [List.filter]; unfold c_true; by rewrite (proj2 (Z.eqb_neq _ _) Hpid)));
    destruct (waitpid e (waits w)) as [status| | |] eqn:Hr; try (by destruct (Hne (waits w))).
  2: { replace i with 0%nat in Hw by lia. by rewrite Nat.add_0_r in Hw. }
  4: { set (w1 := WState _ _ _ _ _ _ _). destruct (IH w1) as (w' & -> & Hs' & Hre).
       3: { exists w'. split; [done|]. split; [done|]. rewrite Hre. unfold w1. cbn [w_log]. rewrite reaped_app. cbn. by rewrite app_nil_r. }
       - destruct i as [|i]; [by rewrite Nat.add_0_r in Hw|]. exists i. split; [lia|].
         cbn. by replace (S (waits w + i))%nat with (waits w + S i)%nat by lia.
       - eapply summed_up_step; [exact Hs|done|eexists; by rewrite Hr|]. by rewrite Hr. }
  2,4: eexists; (split; [done|]); (split; [eapply summed_up_step; [exact Hs|done|eexists; by rewrite Hr|]; by rewrite Hr|]);
    cbn [w_log]; by rewrite reaped_app, Hc.
  all: cbn [success resource_success waits stopped w_count w_sent w_log];
    pose proof (judge_spec status (success w) (resource_success w)) as Hj;
    destruct (judge status (success w) (resource_success w)) as [[su re] abort]; cbn [fst] in Hj;
    injection Hj as -> ->; destruct (ab && abort).
  all: unfold kill_procs; cbv zeta; eexists; (split; [done|]);
    (split; [eapply summed_up_step; [exact Hs|done|eexists; by rewrite Hr|]; by rewrite Hr|]); cbn [w_log]; by rewrite reaped_app, Hc.
Qed.

(** the slots of a stressor that are in use *)
Definition collected_slots (d d' : pdata) : Prop :=
  num_procs d' = num_procs d /\ started_procs d' = started_procs d /\ length (pids d') = length (pids d) /\
  Forall (fun pid => pid = 0) (recorded d').

Lemma wait_slots_collects e ab retries n j before after d w :
  answers e retries -> summed_up e w -> (j + n <= length (pids d))%nat ->
  Forall (fun pid => pid = 0) (take j (pids d)) ->
  exists d' w', wait_slots e ab retries n j before after d w = Some (d', w') /\ summed_up e w' /\
    reaped (w_log w') = reaped (w_log w) ++ List.filter c_true (take n (drop j (pids d))) /\
    num_procs d' = num_procs d /\ started_procs d' = started_procs d /\ length (pids d') = length (pids d) /\
    Forall (fun pid => pid = 0) (take (j + n) (pids d')).
Proof.
  intros [Hne Hans]. revert j d w. induction n as [|n IH]; intros j d w Hs Hlen Hz; cbn [wait_slots].
  { exists d, w. rewrite Nat.add_0_r, app_nil_r. done. }
  destruct (lookup_lt_is_Some_2 (pids d) j) as [pid Hpid]; [lia|]. rewrite Hpid. cbn [mbind option_bind].
  destruct (wait_slot_collects e ab retries (before ++ d :: after) pid w Hne (Hans (waits w)) Hs) as (w1 & -> & Hs1 & Hr1).
  cbn [mbind option_bind]. set (d1 := set_pids (<[j:=0]> (pids d)) d).
  destruct (IH (S j) d1 w1) as (d' & w' & -> & Hs' & Hr' & Hn & Hst & Hl & Hz').
  - done.
  - cbn. rewrite length_insert. lia.
  - cbn. rewrite (take_S_r _ _ 0) by (apply list_lookup_insert_eq; lia). rewrite take_insert_ge by lia.
    apply Forall_app. split; [done|]. by constructor.
  - exists d', w'. cbn in Hn, Hst, Hl. rewrite length_insert in Hl. rewrite <- plus_n_Sm.
    rewrite Hr', Hr1, (drop_S (pids d) pid j Hpid). unfold d1. cbn [pids set_pids]. rewrite drop_insert_lt by lia.
    rewrite <- app_assoc, <- List.filter_app. done.
Qed.

Lemma wait_each_collects e ab retries before rest w :
  answers e retries -> summed_up e w -> Forall filled rest ->
  exists rest' w', wait_each e ab retries before rest w = Some (before ++ rest', w') /\ summed_up e w' /\
    reaped (w_log w') = reaped (w_log w) ++ List.filter c_true (all_recorded rest) /\
    Forall2 collected_slots rest rest'.
Proof.
  intros Ha Hs Hf. revert before w Hs. induction Hf as [|d rest [Hst Hl] _ IH]; intros before w Hs; cbn [wait_each].
  { exists [], w. rewrite !app_nil_r. split; [done|]. split; [done|]. split; [done|constructor]. }
  destruct (wait_slots_collects e ab retries (Z.to_nat (started_procs d)) 0 before rest d w Ha Hs)
    as (d' & w1 & -> & Hs1 & Hr1 & Hn & Hst' & Hl' & Hz); [lia|constructor|]. cbn [mbind option_bind].
  destruct (IH (before ++ [d']) w1 Hs1) as (rest' & w' & -> & Hs' & Hr' & H2).
  exists (d' :: rest'), w'. rewrite <- app_assoc. split; [done|]. split; [done|].
  split; [by rewrite Hr', Hr1, all_recorded_cons, List.filter_app, app_assoc|]. constructor; [|done].
  repeat split; try done. unfold recorded. by rewrite Hst'.
Qed.

Definition start_wait : wstate := WState 0 true true false 0 [] [].

(** Waiting ends with every child collected, provided [waitpid] is not
    interrupted for ever, and the exit status of the program is: not successful
    when some child was killed or failed; otherwise no resource when some
    child ran out of resources; otherwise success. *)
Theorem exit_status_tells e ab retries ds :
  answers e retries -> Forall filled ds ->
  exists ds' w', wait_procs e ab retries ds start_wait = Some (ds', w') /\
    Forall2 collected_slots ds ds' /\
    main_status (success w') (resource_success w') =
      (if existsb failed (collected e (waits w')) then EXIT_NOT_SUCCESS
       else if existsb starved (collected e (waits w')) then EXIT_NO_RESOURCE
       else EXIT_SUCCESS).
Proof.
  intros Ha Hf. unfold wait_procs.
  destruct (wait_each_collects e ab retries [] ds start_wait Ha) as (ds' & w' & -> & (Hsu & Hre & _) & _ & H2);
    [done|done|].
  exists ds', w'. split; [done|]. split; [done|]. unfold main_status. rewrite Hsu, Hre, !negb_involutive.
  by destruct (existsb failed _), (existsb starved _).
Qed.

Definition demo_running : list pdata :=
  [PData (demo_stress 7) [101; 103; 105] [0; 1; 2] 3 3 100; PData (demo_stress 8) [107] [3] 1 1 100].

Lemma exit_status_tells_witness :
  exists ds' w', wait_procs demo_env true 1 demo_running start_wait = Some (ds', w') /\
    main_status (success w') (resource_success w') = EXIT_NO_RESOURCE.
Proof.
  destruct (exit_status_tells demo_env true 1 demo_running) as (ds' & w' & Hw & _ & Hm).
  - split.
    + intros k. cbn. by destruct (Nat.even k).
    + intros k. cbn -[Nat.even]. destruct (Nat.even k) eqn:Hk.
      * exists 1%nat. rewrite Nat.add_1_r, Nat.even_succ, <- Nat.negb_even, Hk. by split; [lia|].
      * exists 0%nat. rewrite Nat.add_0_r, Hk. by split; [lia|].
  - repeat apply Forall_cons_2; [..|apply Forall_nil_2]; (split; [simpl; lia|done]).
  - exists ds', w'. split; [exact Hw|]. rewrite Hm. vm_compute in Hw. injection Hw as _ <-. reflexivity.
Defined.
