(* ===== verification/JobOpts.v ===== *)
(** * Job files and the option parser together (job.c, stress-ng.c)

    [parse_jobfile()] calls [parse_opts()] back for every line.  Here the option
    parser of [Parser] takes the place of the argument of [Job]: a job file that
    asks for stressors leaves the list a command line would leave.

    The words of a line lie in the buffer of [parse_jobfile()], at the addresses
    [at_].  A string setting keeps such an address, although the buffer is
    overwritten by the next line. *)

From S2P Require Import Prelude Flags Outcome ParseOpts Settings Setters Named Choices OptionsOk Job Procs Tables Getopt ProcOps ProcProofs Parser ParserProofs.

(** the call for one line; a jump, and the end of the process, are [None] *)
Definition job_parser (e : penv) (at_ : nat -> Z) (argv : list cstr) (fl : Z) (st : popts) : option Z * Z * popts :=
  let args := imap (fun i w => (at_ i, String.string_of_list_ascii w)) (tail argv) in
  match parse_opts e args (with_flags (fun _ => fl) st) with
  | Returns (ret, st) => (Some ret, g_opt_flags st, st)
  | _ => (None, fl, st)
  end.

(** ** The lines of an order *)

Definition line_of (name : string) (ds : list Z) : list cstr := [cs name; cs (digits_text ds EmptyString)].

Definition order_lines (o : order) : list (list cstr) :=
  line_of (opt_name (s_short (o_stressor o))) (o_workers o) ::
  match o_ops o with
  | None => []
  | Some (s, ds) => [line_of (opt_name (s_op s)) ds]
  end.

(** the numbers fit on a line *)
Definition order_short (o : order) : Prop :=
  match o_ops o with None => True | Some (_, ds) => (length ds <= 1000)%nat end.

Definition plain_name (name : string) : bool :=
  nonempty (cs name) && (length (cs name) <=? 100)%nat &&
  forallb (fun c => nonblank c && line_char c) (cs name) &&
  negb (strcmp_is (cs name) "run") && negb (strcmp_is (cs name) "job") && negb (strcmp_is (cs name) "j").

Lemma stressor_names_plain :
  forallb (fun st => plain_name (opt_name (s_short st)) && plain_name (opt_name (s_op st))) stressors = true.
Proof. vm_compute. reflexivity. Qed.

Lemma digit_plain d : 0 <= d <= 9 -> nonblank (digit_char d) && line_char (digit_char d) = true.
Proof.
  intros Hd. assert (d = 0 \/ d = 1 \/ d = 2 \/ d = 3 \/ d = 4 \/ d = 5 \/ d = 6 \/ d = 7 \/ d = 8 \/ d = 9) as H by lia.
  repeat destruct H as [->|H]; [reflexivity..|]. by subst d.
Qed.

Lemma cs_digits ds : cs (digits_text ds EmptyString) = digit_char <$> ds.
Proof. induction ds as [|d ds IH]; [done|]. rewrite fmap_cons, <- IH. done. Qed.

Lemma digits_plain ds : decimal ds -> plain_word (cs (digits_text ds EmptyString)).
Proof.
  intros [Hne Hds]. rewrite cs_digits. split; [by destruct ds|]. apply Forall_fmap.
  eapply Forall_impl; [exact Hds|]. intros d. apply digit_plain.
Qed.

Lemma line_job_command name ds :
  plain_name name = true -> decimal ds -> (length ds <= 1000)%nat -> job_command (line_of name ds).
Proof.
  intros H Hd Hlen. unfold plain_name in H.
  apply andb_true_iff in H as [[[[[Hne Hl]%andb_true_iff Hch]%andb_true_iff Hr]%andb_true_iff Hj]%andb_true_iff Hj'].
  apply Nat.leb_le in Hl. rewrite forallb_forall in Hch. unfold line_of. split; [|split; [by unfold MAX_ARGS; cbn; lia|split]].
  - repeat apply Forall_cons_2; [| |apply Forall_nil_2]; [|by apply digits_plain].
    split; [by destruct (cs name)|]. apply Forall_forall. intros c Hc. apply Hch. by apply list_elem_of_In.
  - cbn [join]. rewrite length_app. cbn [length]. rewrite cs_digits, length_fmap. unfold LINE_ROOM. lia.
  - by apply negb_true_iff in Hr, Hj, Hj'.
Qed.

Lemma stressor_plain st :
  st ∈ stressors -> plain_name (opt_name (s_short st)) = true /\ plain_name (opt_name (s_op st)) = true.
Proof.
  intros Hin. pose proof stressor_names_plain as H. rewrite forallb_forall in H. apply list_elem_of_In in Hin.
  apply andb_true_iff. by apply (H st).
Qed.

Lemma order_lines_commands e o : order_ok e o -> order_short o -> Forall job_command (order_lines o).
Proof.
  intros (Hs & Hd & Hlen & _ & _ & Hops) Hsh. destruct (stressor_plain _ Hs) as [Hp _]. unfold order_lines, order_short in *.
  constructor; [apply line_job_command; [done|done|lia]|]. destruct (o_ops o) as [[s ds]|]; [|constructor].
  destruct Hops as (Hs2 & Hd2 & _). constructor; [|constructor]. destruct (stressor_plain _ Hs2) as [_ Hp2].
  by apply line_job_command.
Qed.

(** ** One line after the other *)

Lemma dashed_text name : String.string_of_list_ascii (cs "--" ++ cs name) = "--" +:+ name.
Proof.
  change (cs "--" ++ cs name) with (cs ("--" +:+ name)). unfold cs. apply String.string_of_list_ascii_of_string.
Qed.

Lemma text_cs t : String.string_of_list_ascii (cs t) = t.
Proof. apply String.string_of_list_ascii_of_string. Qed.

(** a line whose option takes the parser on *)
Lemma exec_line e at_ argv0 name v ds cmds j st' :
  spelt name v = true ->
  step_to e [(v, Some (at_ 1%nat, digits_text ds EmptyString))] (with_flags (fun _ => Job.g_opt_flags j) (opt_state j)) st' ->
  exec (job_parser e at_) argv0 (line_of name ds :: cmds) j =
    exec (job_parser e at_) argv0 cmds (Job (u32 (lineno j + 1)) (g_opt_flags st') st' (printed j)).
Proof.
  intros Hsp Hst. cbn [exec line_of]. unfold job_parser at 1. cbn [tail imap]. unfold compose. rewrite dashed_text, text_cs.
  unfold parse_opts. rewrite (spelt_scanned name v _ _ _ Hsp).
  change (getopt_long []) with (@nil scanned). specialize (Hst []).
  replace (parse_loop e _ _) with (Returns (EXIT_SUCCESS, st')) by (symmetry; exact Hst). by rewrite bool_decide_true.
Qed.

(** the state the next line starts from *)
Definition job_state (j : job (opts := popts)) : popts := with_flags (fun _ => Job.g_opt_flags j) (opt_state j).

Lemma job_state_tidy n st p ls : tidy st ls -> tidy (job_state (Job n (g_opt_flags st) st p)) ls.
Proof. by intros [? ? ?]. Qed.

Lemma exec_order e at_ argv0 o cmds j ls :
  sane e -> generous e -> order_ok e o -> tidy (job_state j) ls ->
  exists j' l, exec (job_parser e at_) argv0 (order_lines o ++ cmds) j = exec (job_parser e at_) argv0 cmds j' /\
    tidy (job_state j') (ls ++ [(l, ordered e o)]).
Proof.
  intros He Hg (Hs & Hd & Hlen & Hn & Hb & Hops) Hst. unfold order_lines, ordered.
  destruct (stressor_named _ Hs) as (Hsp & _).
  destruct (name_stressor_step e _ _ (at_ 1%nat) _ ls He Hg Hs Hd Hlen Hn Hb Hst) as (l & st1 & Hst1 & Ht1 & Hcur).
  cbn [app]. rewrite (exec_line e at_ argv0 _ _ _ _ j st1 Hsp Hst1).
  apply (job_state_tidy (u32 (lineno j + 1)) st1 (printed j)) in Ht1.
  set (j1 := Job (u32 (lineno j + 1)) (g_opt_flags st1) st1 (printed j)) in *.
  destruct (o_ops o) as [[s2 ds2]|]; [|by exists j1, l].
  destruct Hops as (Hs2 & Hd2 & Hn2). destruct (stressor_named _ Hs2) as (_ & Hsp2 & _). cbn [app].
  destruct (name_ops_step e s2 ds2 (at_ 1%nat) (job_state j1) ls l _ He Hg Hs2 Hd2 Hn2 Ht1 Hcur) as (st2 & Hst2 & Ht2).
  rewrite (exec_line e at_ argv0 _ _ _ _ j1 st2 Hsp2 Hst2). eexists _, l. split; [done|]. by apply job_state_tidy.
Qed.

Lemma exec_orders e at_ argv0 os j ls :
  sane e -> generous e -> Forall (order_ok e) os -> tidy (job_state j) ls ->
  exists j' ls', exec (job_parser e at_) argv0 (concat (order_lines <$> os)) j = (0, j') /\
    tidy (job_state j') (ls ++ ls') /\ ls'.*2 = ordered e <$> os.
Proof.
  intros He Hg Hok. revert j ls. induction Hok as [|o os Ho _ IH]; intros j ls Hst.
  - exists j, []. by rewrite app_nil_r.
  - rewrite fmap_cons. cbn [concat].
    destruct (exec_order e at_ argv0 o (concat (order_lines <$> os)) j ls He Hg Ho Hst) as (j1 & l & -> & Ht1).
    destruct (IH j1 _ Ht1) as (j' & ls' & -> & Ht' & Hls'). exists j', ((l, ordered e o) :: ls').
    rewrite <- app_assoc in Ht'. split; [done|]. split; [done|]. by rewrite !fmap_cons, Hls'.
Qed.

Lemma jobfile_orders e at_ fopen_ argv0 rest file os j ls :
  sane e -> generous e -> Forall (order_ok e) os -> Forall order_short os ->
  fopen_ file = Some (render (concat (order_lines <$> os))) -> tidy (job_state j) ls ->
  exists j' ls', parse_jobfile (job_parser e at_) fopen_ (argv0 :: rest) (Some file) j = (0, j') /\
    tidy (job_state j') (ls ++ ls') /\ ls'.*2 = ordered e <$> os.
Proof.
  intros He Hg Hok Hsh Hf Hst. unfold parse_jobfile. rewrite Hf. cbv zeta.
  assert (Forall job_command (concat (order_lines <$> os))) as Hcmds.
  { apply Forall_concat, Forall_fmap, Forall_forall. intros o Ho. rewrite Forall_forall in Hok, Hsh.
    by eapply order_lines_commands; [apply Hok|apply Hsh]. }
  rewrite fgets_render, parse_lines_commands by done. by apply exec_orders.
Qed.

(** (C17) A job file that asks for stressors, an option per line, leaves the list that
    the command line with the same options leaves: exactly these stressors, in
    order and with these numbers of workers and operations. *)
Theorem jobfile_as_command_line e at_ fopen_ argv0 rest file os args :
  sane e -> generous e -> Forall (order_ok e) os -> Forall order_short os ->
  fopen_ file = Some (render (concat (order_lines <$> os))) -> args.*2 = concat (order_words <$> os) ->
  exists st0 j st ls ls', stressor_set_defaults e initial = Returns st0 /\
    parse_jobfile (job_parser e at_) fopen_ (argv0 :: rest) (Some file) (Job 0 (g_opt_flags st0) st0 []) = (0, j) /\
    repr (plist (opt_state j)) ls /\
    command_line e args = Returns (EXIT_SUCCESS, st) /\ repr (plist st) ls' /\ ls.*2 = ls'.*2.
Proof.
  intros He Hg Hok Hsh Hf Hw.
  destruct (command_line_orders e os args He Hg Hok Hw) as (st & ls' & Hcl & [Hr' _ _] & Hls').
  destruct (set_defaults_tidy e (stressor_default e) initial [] (defaults_tidily e He Hg) initial_tidy) as (st0 & H0 & Ht0).
  destruct (jobfile_orders e at_ fopen_ argv0 rest file os (Job 0 (g_opt_flags st0) st0 []) [] He Hg Hok Hsh Hf)
    as (j & ls & Hj & [Hr _ _] & Hls); [by apply job_state_tidy|].
  exists st0, j, st, ls, ls'. split_and!; try done. by rewrite Hls, Hls'.
Qed.

Lemma jobfile_as_command_line_witness :
  concat (order_lines <$> demo_orders) = [[cs "vm"; cs "2"]; [cs "cpu-ops"; cs "100"]; [cs "cpu"; cs "4"]] /\
  exists st0 j st ls ls', stressor_set_defaults demo_penv initial = Returns st0 /\
    parse_jobfile (job_parser demo_penv (fun i => 8192 + 64 * Z.of_nat i))
      (fun _ => Some (render (concat (order_lines <$> demo_orders)))) [cs "stress-ng"] (Some (cs "f"))
      (Job 0 (g_opt_flags st0) st0 []) = (0, j) /\
    repr (plist (opt_state j)) ls /\
    command_line demo_penv demo_args = Returns (EXIT_SUCCESS, st) /\ repr (plist st) ls' /\ ls.*2 = ls'.*2.
Proof.
  split; [vm_compute; reflexivity|].
  apply (jobfile_as_command_line demo_penv (fun i => 8192 + 64 * Z.of_nat i) _ (cs "stress-ng") [] (cs "f") demo_orders
    demo_args demo_penv_sane demo_penv_generous demo_orders_ok); [|reflexivity|exact demo_words].
  repeat constructor; cbn; lia.
Defined.
