(* ===== verification/Main.v ===== *)
(** * From the command line to the processes (stress-ng.c)

    The part of [main()] before the stressors are started, composed of the
    components: defaults, command line, checks of the flags, selection and
    exclusion, random selection, priorities, job file, set-up.  A command line
    that asks for stressors ends in exactly the processes it asks for, each with a statistics slot of its own. *)

From S2P Require Import Prelude Flags Mwc Outcome ParseOpts Settings Priority Setters Choices OptionsOk Job Procs Tables Getopt ProcOps ProcProofs Run RunProofs Parser ParserProofs JobOpts.

(** ** Tables *)

Definition STRESS_MAX : nat := Eval vm_compute in length stress_id_t.

(** the stressors whose support is asked for *)
Definition unsupported : list Z := Eval vm_compute in
  STRESS <$> ["APPARMOR"; "CHROOT"; "CYCLIC"; "EXEC"; "FANOTIFY"; "ICMP_FLOOD"; "IOPORT"; "NETLINK_PROC"; "PHYSPAGE";
              "RAWDEV"; "RDRAND"; "SGX"; "SGX_VM"; "SOFTLOCKUP"; "SWAP"; "TSC"].

(** the stressors whose number of processes is limited *)
Definition proc_limited : list Z := Eval vm_compute in STRESS <$> ["PTHREAD"; "SLEEP"].

(** ** The limits *)

(** the limit of a stressor, for every instance; all of them are given to the
    function of the first entry, [stress_adjust_pthread_max()] *)
Fixpoint proc_limits (limited : list Z) (rlim_cur : option Z) (s : procs) : option (list Z) :=
  match limited with
  | [] => Some []
  | id :: limited =>
      '(maxs, s) ← each_proc (fun d maxs =>
        (d, if (s_id (stressor d) =? id) && c_true (num_procs d)
            then maxs ++ match rlim_cur with Some cur => [cur / u64 (num_procs d)] | None => [] end
            else maxs)) [] s;
      maxs' ← proc_limits limited rlim_cur s;
      Some (maxs ++ maxs')
  end.

Fixpoint adjust_all (e : cenv) (maxs : list Z) (s : store) : outcome store :=
  match maxs with
  | [] => Returns s
  | max :: maxs => s ← stress_adjust_pthread_max e max s; adjust_all e maxs s
  end.

(** ** [main()] *)

Record menv := MEnv {
  me_parse : penv;
  me_supported : list Z;                 (** what the [func_supported()] return *)
  me_text : Z -> cstr;                   (** the string at an address *)
  me_rounds : nat;                       (** rounds of the random selection *)
  me_rng : mwc;
  me_prio_min : Z -> Z;
  me_prio_max : Z -> Z;
  me_sched : request -> option Z;        (** the kernel's answers *)
  me_ioprio : Z -> bool;
  me_fopen : cstr -> option (list ascii);
  me_line : nat -> Z;                    (** addresses in the buffer of a job line *)
  me_rlimit : option Z;                  (** the limit of processes, if it can be had *)
  me_enough : Z -> bool;                 (** whether the resources of so many instances can be had *)
  me_ticks : Z;                          (** [stress_get_ticks_per_second()] *)
  me_handlers : bool;                    (** whether the signal handlers are set *)
  me_shows : bool;                       (** [show_stressors()] gets its buffer *)
  me_shared : bool                       (** the shared mapping and the cache are allocated *)
}.

(** a pointer or dereference that goes wrong is undefined *)
Definition must {A} (x : option A) : outcome A := match x with Some x => Returns x | None => Undefined end.

(** settings are read for the stressor that was named last *)
Definition main_renv (m : menv) (st : popts) : renv :=
  REnv (proc_current st) (settings st) (g_opt_flags st) 1 (page (me_parse m)) (ce_local (pe_cenv (me_parse m))).

Definition main_number (m : menv) (st : popts) (nm : string) (default : Z) : outcome Z :=
  r ← must (read_setting (main_renv m st) nm TYPE_ID_INT32 default); Returns r.2.

Definition main_string (m : menv) (st : popts) (nm : string) : outcome (option cstr) :=
  r ← must (read_setting (main_renv m st) nm TYPE_ID_STR 0);
  Returns (if r.1 : bool then Some (me_text m r.2) else None).

(** up to the command line *)
Definition main_begin (m : menv) (args : list arg) : outcome (Z * popts) :=
  if bool_decide (args.*2 = ["--exec-exit"]) then Exits EXIT_SUCCESS (Information "exec")
  else
    st ← stressor_set_defaults (me_parse m) initial;
    if pe_configured (me_parse m) <? 0 then Exits EXIT_FAILURE (SystemRefused "processors")
    else if me_ticks m <? 0 then Exits EXIT_FAILURE (SystemRefused "ticks")
    else parse_opts (me_parse m) args st.

(** selection and exclusion; [None]: the random selection goes on *)
Definition main_select (m : menv) (st : popts) : outcome (option popts) :=
  let e := me_parse m in
  let fl := g_opt_flags st in
  s ← (if has fl OPT_FLAGS_SEQUENTIAL
       then enable_all_stressors stressors STRESS_MAX fl (g_opt_sequential st) (pe_allocs e (plist st)) (plist st)
       else Returns (plist st));
  s ← (if has fl OPT_FLAGS_ALL
       then enable_all_stressors stressors STRESS_MAX fl (g_opt_parallel st) (pe_allocs e s) s
       else Returns s);
  s ← must (exclude_unsupported (zip unsupported (me_supported m)) s);
  s ← must (exclude_pathological fl s);
  opt_exclude ← main_string m st "exclude";
  '(ret, s) ← must (stress_exclude stressors opt_exclude s);
  if ret <? 0 then Exits EXIT_FAILURE (Information "exclude")
  else
    opt_random ← main_number m st "random" 0;
    '(n, _, s) ← set_random_stressors (me_rounds m) fl opt_random (me_rng m) s;
    Returns (if 0 <? n then None else Some (with_list s (proc_current st) st)).

Definition main_priority (m : menv) (st : popts) : outcome unit :=
  sched ← main_number m st "sched" UNDEFINED;
  sched_prio ← main_number m st "sched-prio" UNDEFINED;
  let aggressive := has (g_opt_flags st) OPT_FLAGS_AGGRESSIVE in
  if (stress_set_sched (me_prio_min m) (me_prio_max m) (me_sched m) aggressive sched sched_prio).2 <? 0
  then Exits EXIT_FAILURE (SystemRefused "sched")
  else
    class ← main_number m st "ionice-class" UNDEFINED;
    level ← main_number m st "ionice-level" UNDEFINED;
    set_iopriority (me_ioprio m) class level;;
    Returns tt.

Definition main_job (m : menv) (argv : list cstr) (st : popts) : outcome popts :=
  if negb (me_handlers m) then Exits EXIT_FAILURE (SystemRefused "signals") else
  job_filename ← main_string m st "job";
  let '(ret, j) := parse_jobfile (job_parser (me_parse m) (me_line m)) (me_fopen m) argv job_filename
                     (Job 0 (g_opt_flags st) st []) in
  if ret <? 0 then Exits EXIT_FAILURE (Information "job") else Returns (job_state j).

(** the variable [class] of [main()] is never assigned *)
Definition main_class : Z := 0.

Definition main_setup (m : menv) (st : popts) : outcome popts :=
  '(timeout, s) ←
    (if has (g_opt_flags st) OPT_FLAGS_SEQUENTIAL
     then stress_setup_sequential (me_enough m) main_class (g_opt_sequential st) (g_opt_timeout st) (plist st)
     else stress_setup_parallel (me_enough m) main_class (g_opt_parallel st) (g_opt_timeout st) (plist st));
  maxs ← must (proc_limits proc_limited (me_rlimit m) s);
  settings ← adjust_all (cenv_of (me_parse m) st) maxs (settings st);
  match procs_head s with
  | None => Exits EXIT_FAILURE (Information "No stress workers")
  | Some _ =>
      if negb (me_shows m) then Exits EXIT_FAILURE (SystemRefused "buffer") else
      if negb (me_shared m) then Exits EXIT_FAILURE (SystemRefused "shared") else
      s ← must (setup_stats_buffers s);
      Returns (with_list s (proc_current st)
        (with_modes (g_opt_sequential st) (g_opt_parallel st) timeout (with_settings settings st)))
  end.

(** the job file is given [argv] as [getopt_long()] leaves it *)
Definition main_prepare (m : menv) (argv0 : cstr) (args : list arg) : outcome (option popts) :=
  '(ret, st) ← main_begin m args;
  let fl := g_opt_flags st in
  if negb (ret =? EXIT_SUCCESS) then Exits ret (Information "options")
  else if fl .& OPT_FLAGS_MINMAX_MASK =? OPT_FLAGS_MINMAX_MASK then Exits EXIT_FAILURE (Information "minimize and maximize")
  else if fl .& (OPT_FLAGS_SEQUENTIAL .| OPT_FLAGS_ALL) =? (OPT_FLAGS_SEQUENTIAL .| OPT_FLAGS_ALL)
  then Exits EXIT_FAILURE (Information "sequential and all")
  else
    selected ← main_select m st;
    match selected with
    | None => Returns None
    | Some st =>
        main_priority m st;;
        st ← main_job m (argv0 :: (cs <$> (argv_after args).*2)) st;
        st ← main_setup m st;
        Returns (Some st)
    end.

(** ** A command line of stressors *)

(** the system gives the main program what it asks for *)
Record willing (m : menv) : Prop := Willing {
  willing_configured : 0 <= pe_configured (me_parse m);
  willing_ticks : 0 <= me_ticks m;
  willing_handlers : me_handlers m = true;
  willing_shows : me_shows m = true;
  willing_shared : me_shared m = true;
  willing_enough : me_enough m = (fun _ => true)
}.

Lemma main_begin_command_line m args :
  willing m -> args.*2 <> ["--exec-exit"] -> main_begin m args = command_line (me_parse m) args.
Proof.
  intros [Hc Ht _ _ _ _] Ha. unfold main_begin, command_line. rewrite bool_decide_false by done.
  by rewrite (proj2 (Z.ltb_ge _ _) Hc), (proj2 (Z.ltb_ge _ _) Ht).
Qed.

(** no setting of the main program was made *)
Lemma tidy_reads m st ls nm t d :
  tidy st ls -> nm ∉ plain_settings ->
  exists x, read_setting (main_renv m st) nm t d = Some (false, x) /\ (scalar t = true -> in_type t d -> x = d).
Proof.
  intros [_ (es & Hs & Hes) _] Hnm. rewrite (read_setting_holds (main_renv m st) _ _ _ es Hs). cbv zeta.
  assert (List.filter (named nm) (scope (r_proc (main_renv m st)) es) = []) as ->.
  { destruct (List.filter _ _) as [|en l] eqn:Hf; [done|]. exfalso.
    assert (en ∈ List.filter (named nm) (scope (r_proc (main_renv m st)) es)) as Hin by (rewrite Hf; left).
    apply list_elem_of_In, filter_In in Hin as [Hin Hn]. apply bool_decide_eq_true in Hn.
    apply list_elem_of_In, scope_elem in Hin. rewrite Forall_forall in Hes. apply Hnm. rewrite <- Hn. by apply Hes. }
  eexists. split; [done|]. intros Ht Hd. by apply (read_overwritten t d _ []); [..|intros ? ?%not_elem_of_nil].
Qed.

Ltac not_plain := apply (bool_decide_unpack _); vm_compute; reflexivity.

Lemma main_number_default m st ls nm d :
  tidy st ls -> nm ∉ plain_settings -> in_type TYPE_ID_INT32 d -> main_number m st nm d = Returns d.
Proof.
  intros Hst Hnm Hd. unfold main_number. destruct (tidy_reads m st ls nm TYPE_ID_INT32 d Hst Hnm) as (x & -> & Hx).
  cbn. by rewrite Hx.
Qed.

Lemma main_string_none m st ls nm : tidy st ls -> nm ∉ plain_settings -> main_string m st nm = Returns None.
Proof. intros Hst Hnm. unfold main_string. by destruct (tidy_reads m st ls nm TYPE_ID_STR 0 Hst Hnm) as (x & -> & _). Qed.

Lemma mode_off fl f : fl .& mode_flags = 0 -> mode_flags .& f = f -> has fl f = false.
Proof. intros Hfl Hf. unfold has. rewrite <- Hf, Z.land_assoc, Hfl. done. Qed.

Lemma filter_all {A} (f : A -> bool) l : Forall (fun x => f x = true) l -> List.filter f l = l.
Proof. induction 1 as [|x l Hx _ IH]; [done|]. cbn [List.filter]. by rewrite Hx, IH. Qed.

(** a stressor that is neither unsupported nor pathological *)
Definition runs (m : menv) (d : pdata) : Prop :=
  unsupported_proc (zip unsupported (me_supported m)) d = false /\ has (s_class (stressor d)) CLASS_PATHOLOGICAL = false.

Lemma main_select_tidy m st ls :
  tidy st ls -> Forall (fun x => runs m x.2) ls ->
  exists st', main_select m st = Returns (Some st') /\ tidy st' ls.
Proof.
  intros Hst Hruns. pose proof Hst as [Hr Hset Hf]. unfold main_select.
  rewrite !(mode_off (g_opt_flags st)) by done. cbn [mbind outcome_bind].
  destruct (exclude_unsupported_repr (zip unsupported (me_supported m)) (plist st) ls Hr) as (s1 & -> & Hr1).
  rewrite filter_all in Hr1 by (eapply Forall_impl; [exact Hruns|]; intros x [Hx _]; by rewrite Hx).
  cbn [must mbind outcome_bind].
  destruct (exclude_pathological_repr (g_opt_flags st) s1 ls Hr1) as (s2 & -> & Hr2).
  rewrite filter_all in Hr2
    by (eapply Forall_impl; [exact Hruns|]; intros x [_ Hx]; unfold pathological_proc; by rewrite Hx, andb_false_r).
  cbn [must mbind outcome_bind]. rewrite (main_string_none m st ls) by (done || not_plain).
  cbn [mbind outcome_bind stress_exclude must]. change (0 <? 0) with false. cbv iota.
  rewrite (main_number_default m st ls) by (done || not_plain). cbn [mbind outcome_bind].
  unfold set_random_stressors. rewrite (mode_off _ OPT_FLAGS_RANDOM) by done. cbn [negb mbind outcome_bind].
  eexists. split; [done|]. by constructor.
Qed.

Lemma main_priority_tidy m st ls : tidy st ls -> main_priority m st = Returns tt.
Proof.
  intros Hst. unfold main_priority. rewrite !(main_number_default m st ls) by (done || not_plain). done.
Qed.

Lemma main_job_tidy m argv0 w ws st ls :
  willing m -> tidy st ls -> me_fopen m w = None -> exists st', main_job m (argv0 :: w :: ws) st = Returns st' /\ tidy st' ls.
Proof.
  intros Hm Hst Hw. unfold main_job. rewrite (willing_handlers m Hm). cbn [negb]. rewrite (main_string_none m st ls) by (done || not_plain). cbn [mbind outcome_bind].
  unfold parse_jobfile. cbn [lookup list_lookup]. rewrite Hw. eexists. split; [done|]. by apply job_state_tidy.
Qed.

(** *** the set-up *)

Lemma proc_limits_some limited rlim s ls : repr s ls -> exists maxs, proc_limits limited rlim s = Some maxs.
Proof.
  revert s. induction limited as [|id limited IH]; intros s Hr; cbn [proc_limits]; [by eexists|].
  edestruct (each_proc_repr (A := list Z)) as (s' & -> & Hr'); [exact Hr|]. cbn [mbind option_bind].
  rewrite (map_acc_id (fun d maxs => _)) in Hr'. destruct (IH s' Hr') as (maxs & ->). by eexists.
Qed.

Lemma adjust_all_returns e st ls maxs :
  sane e -> generous e -> tidy st ls -> exists s, adjust_all (cenv_of e st) maxs (settings st) = Returns s.
Proof.
  intros He Hg [_ (es & Hs & _) _]. revert Hs. generalize (settings st). revert es.
  induction maxs as [|mx maxs IH]; intros es s Hs; cbn [adjust_all]; [by eexists|].
  destruct (set_local_appends (cenv_of e st) "pthread-max-adjustment" TYPE_ID_UINT64 mx s es eq_refl Hs) as (s' & Hset & Hs').
  { destruct (generous_settings e Hg s) as (x & Hx). split; [exists x; split; [done|by apply (sane_alloc _ He)]|].
    split; [apply (generous_dup e Hg)|apply (sane_local _ He)]. }
  unfold stress_adjust_pthread_max. rewrite Hset. cbn [mbind outcome_bind]. by eapply IH.
Qed.

(** what the set-up keeps of a stressor *)
Definition same_proc (d d' : pdata) : Prop :=
  stressor d' = stressor d /\ num_procs d' = num_procs d /\ started_procs d' = started_procs d.

Lemma parallel_same enough par d : same_proc d (setup_parallel_proc enough main_class par d true).1.
Proof.
  unfold setup_parallel_proc, class_num, has, main_class. rewrite Z.land_0_r. cbn [negb c_true Z.eqb].
  destruct (c_true (num_procs (share_ops d))); [destruct (enough _)|]; done.
Qed.

Lemma slots_same a ls : Forall2 (fun x y => same_proc x.2 y.2) ls (map_acc assign_slots a ls).1.
Proof.
  revert a. induction ls as [|[l d] ls IH]; intros a; [constructor|]. cbn [map_acc].
  specialize (IH (assign_slots d a).2). destruct (assign_slots d a) as [d' a'] eqn:Hd. cbn [snd] in IH.
  destruct (map_acc assign_slots a' ls) as [ls' a'']. constructor; [|done]. unfold assign_slots in Hd. by injection Hd as <- _.
Qed.

Lemma class_zero n d : class_num main_class n d = d.
Proof. unfold class_num, has, main_class. by rewrite Z.land_0_r. Qed.

Lemma setup_ready par d :
  selected d -> ready (setup_parallel_proc (fun _ => true) main_class par d true).1.
Proof.
  intros Hd. pose proof (setup_parallel_ready main_class 0 d ltac:(lia) Hd) as H.
  unfold setup_parallel_proc in *. by rewrite !class_zero in *.
Qed.

Lemma headp_some ls : ls <> [] -> exists l, headp ls None = Some l.
Proof. destruct ls as [|[l d] ls]; [done|]. by exists l. Qed.

Lemma main_setup_tidy m st ls :
  sane (me_parse m) -> generous (me_parse m) -> tidy st ls -> ls <> [] -> Forall (fun x => selected x.2) ls -> willing m ->
  exists st' ls', main_setup m st = Returns st' /\ repr (plist st') ls' /\
    Forall2 (fun x y => same_proc x.2 y.2) ls ls' /\ Forall (fun x => ready x.2) ls' /\
    all_slots ls' = seqZ 0 (total_procs ls').
Proof.
  intros He Hg Hst Hne Hsel Hen. pose proof Hst as [Hr _ Hf]. unfold main_setup. rewrite (mode_off _ OPT_FLAGS_SEQUENTIAL) by done.
  unfold stress_setup_parallel. rewrite (willing_enough m Hen).
  destruct (each_proc_repr (setup_parallel_proc (fun _ => true) main_class (g_opt_parallel st)) true (plist st) ls Hr) as (s1 & -> & Hr1).
  rewrite map_acc_parallel in *. cbn [fst snd mbind outcome_bind] in *.
  set (ls1 := (fun x => _) <$> ls) in *.
  destruct (proc_limits_some proc_limited (me_rlimit m) s1 ls1 Hr1) as (maxs & ->). cbn [must mbind outcome_bind].
  destruct (adjust_all_returns (me_parse m) st ls maxs He Hg Hst) as (s' & ->). cbn [mbind outcome_bind].
  assert (ls1 <> []) as Hne1 by (unfold ls1; by destruct ls).
  assert (procs_head s1 = headp ls1 None) as -> by apply Hr1. destruct (headp_some ls1 Hne1) as (l & ->).
  rewrite (willing_shows m Hen), (willing_shared m Hen). cbn [negb].
  unfold setup_stats_buffers. destruct (each_proc_repr assign_slots 0 s1 ls1 Hr1) as (s2 & -> & Hr2). cbn [fmap option_fmap option_map must mbind outcome_bind snd].
  assert (Forall (fun x => ready x.2) ls1) as Hready.
  { unfold ls1. apply Forall_fmap. eapply Forall_impl; [exact Hsel|]. intros x Hx. by apply setup_ready. }
  destruct (assign_slots_all 0 ls1 Hready) as (Hs & Ht & _ & Hrd).
  eexists _, _. split; [done|]. split; [exact Hr2|]. split; [|split; [exact Hrd|by rewrite Ht]].
  assert (Forall2 (fun x y => same_proc x.2 y.2) ls ls1) as H1.
  { unfold ls1. apply Forall2_fmap_r, Forall_Forall2_diag, Forall_true. intros x. apply parallel_same. }
  eapply Forall2_trans; [|exact H1|apply slots_same].
  intros x y z (A1 & A2 & A3) (B1 & B2 & B3). unfold same_proc. by rewrite B1, B2, B3.
Qed.

(** *** all together *)

Lemma stressor_word st : st ∈ stressors -> kind ("--" +:+ opt_name (s_short st)) <> Plain.
Proof.
  intros (Hsp & _)%stressor_named. unfold spelt in Hsp. by destruct (opt_name (s_short st)).
Qed.

Lemma ordered_selected e o : order_ok e o -> selected (ordered e o) /\ started_procs (ordered e o) = 0.
Proof. intros (_ & _ & _ & _ & [Hb _] & _). done. Qed.

Lemma fmap_snd_forall {A} (P : pdata -> Prop) (ls : list (positive * pdata)) (f : A -> pdata) os :
  ls.*2 = f <$> os -> Forall (fun o => P (f o)) os -> Forall (fun x => P x.2) ls.
Proof. intros Hls Hos. rewrite <- (Forall_fmap snd P), Hls. by apply Forall_fmap. Qed.

(** [main()] up to the start: the list is that of the command line, set up *)
Lemma main_prepare_orders m argv0 os args :
  sane (me_parse m) -> generous (me_parse m) -> os <> [] -> Forall (order_ok (me_parse m)) os ->
  Forall (fun o => runs m (ordered (me_parse m) o)) os -> willing m ->
  (forall w, head args.*2 = Some w -> me_fopen m (cs w) = None) -> args.*2 = concat (order_words <$> os) ->
  exists st ls, main_prepare m argv0 args = Returns (Some st) /\ repr (plist st) ls /\
    Forall2 (fun o x => same_proc (ordered (me_parse m) o) x.2) os ls /\ Forall (fun x => ready x.2) ls /\
    all_slots ls = seqZ 0 (total_procs ls).
Proof.
  intros He Hg Hne Hok Hruns Hen Hfo Hw. set (e := me_parse m) in *.
  destruct (command_line_orders e os args He Hg Hok Hw) as (st0 & ls0 & Hcl & Hst0 & Hls0).
  assert (exists w w' ws, args.*2 = w :: w' :: ws) as (w & w' & ws & Hargs).
  { destruct os as [|o os]; [done|]. rewrite Hw. by eexists _, _, _. }
  assert (exists ws', (argv_after args).*2 = w :: ws') as (ws' & Hafter).
  { destruct os as [|o os]; [done|]. destruct args as [|[a t] args]; [done|]. rewrite fmap_cons in Hargs, Hw.
    injection Hargs as -> _. injection Hw as -> _. apply Forall_cons in Hok as [(Hin & _) _].
    destruct (argv_after_option a ("--" +:+ opt_name (s_short (o_stressor o))) args) as (l & ->); [|by exists l.*2].
    by apply stressor_word. }
  unfold main_prepare. rewrite main_begin_command_line by (done || by rewrite Hargs). fold e. rewrite Hcl. cbn [mbind outcome_bind]. change (EXIT_SUCCESS =? EXIT_SUCCESS) with true. cbn [negb].
  assert (forall f, mode_flags .& f = f -> g_opt_flags st0 .& f = 0) as Hoff.
  { intros f Hfl. by rewrite <- Hfl, Z.land_assoc, (tidy_flags _ _ Hst0). }
  rewrite !Hoff by done. change (0 =? OPT_FLAGS_MINMAX_MASK) with false.
  change (0 =? OPT_FLAGS_SEQUENTIAL .| OPT_FLAGS_ALL) with false. cbv iota.
  destruct (main_select_tidy m st0 ls0 Hst0) as (st1 & -> & Hst1); [by eapply fmap_snd_forall|]. cbn [mbind outcome_bind].
  rewrite (main_priority_tidy m st1 ls0) by done. cbn [mbind outcome_bind].
  rewrite Hafter, fmap_cons. rewrite Hargs in Hfo.
  destruct (main_job_tidy m argv0 (cs w) (cs <$> ws') st1 ls0 Hen Hst1) as (st2 & -> & Hst2); [by apply Hfo|]. cbn [mbind outcome_bind].
  destruct (main_setup_tidy m st2 ls0 He Hg Hst2) as (st3 & ls3 & -> & Hr3 & H3 & Hrd & Hslots);
    [| |done|cbn [mbind outcome_bind]].
  - destruct ls0; [by destruct os|done].
  - eapply fmap_snd_forall; [exact Hls0|]. eapply Forall_impl; [exact Hok|]. intros o Ho. by apply (ordered_selected e).
  - exists st3, ls3. split; [done|]. split; [done|]. split; [|done].
    apply (Forall2_fmap_l (ordered e) (fun d (x : positive * pdata) => same_proc d x.2)). rewrite <- Hls0.
    by apply (Forall2_fmap_l snd (fun d (x : positive * pdata) => same_proc d x.2)).
Qed.

(** the list that the command line leaves can be started *)
Lemma orders_filled e os (ls : list (positive * pdata)) :
  Forall (order_ok e) os -> Forall2 (fun o x => same_proc (ordered e o) x.2) os ls -> Forall (fun x => ready x.2) ls ->
  Forall filled ls.*2 /\ 0 <= total_of ls.*2 <= 2 ^ 12 * Z.of_nat (length os).
Proof.
  intros Hok Hsame Hrd. induction Hsame as [|o [l d] os ls (_ & Hn & Hst) _ IH]; [by split; [constructor|]|].
    apply Forall_cons in Hok as [(_ & _ & _ & _ & Hb & _) Hok]. apply Forall_cons in Hrd as [(H0 & Hlp & _) Hrd].
    destruct (IH Hok Hrd) as [IH1 IH2]. rewrite fmap_cons. cbn [snd] in *. cbn in Hn, Hst. split.
    - constructor; [|done]. split; [lia|done].
    - cbn [total_of foldr length]. fold (total_of ls.*2). rewrite Hn. unfold STRESS_PROCS_MAX in Hb. lia.
Qed.

Lemma unstarted_recorded ds : Forall (fun d => started_procs d = 0) ds -> all_recorded ds = [].
Proof. induction 1 as [|d ds Hd _ IH]; [done|]. rewrite all_recorded_cons, IH. unfold recorded. by rewrite Hd. Qed.

Lemma orders_unstarted e os (ls : list (positive * pdata)) :
  Forall (order_ok e) os -> Forall2 (fun o x => same_proc (ordered e o) x.2) os ls -> Forall (fun d => started_procs d = 0) ls.*2.
Proof.
  intros Hok Hsame. induction Hsame as [|o [l d] os ls (_ & _ & Hst) _ IH]; [constructor|]. apply Forall_cons in Hok as [Ho Hok].
  rewrite fmap_cons. constructor; [|by apply IH]. cbn [snd] in *. rewrite Hst. by apply (ordered_selected e).
Qed.

(** what the command line asked of an entry of the list, and what was started: the stressor, a recorded process and a
    statistics slot for each instance *)
Definition started_as (e : penv) (o : order) (d : pdata) : Prop :=
  let n := processors e (number (o_workers o)) in
  stressor d = o_stressor o /\ started_procs d = n /\ length (recorded d) = Z.to_nat n /\ length (stats d) = Z.to_nat n.

Lemma started_orders e os ls ds :
  Forall (order_ok e) os -> Forall2 (fun o (x : positive * pdata) => same_proc (ordered e o) x.2) os ls -> Forall (fun x => ready x.2) ls ->
  Forall filled ds ->
  Forall2 (fun d d' => stressor d' = stressor d /\ stats d' = stats d /\ num_procs d' = num_procs d /\ started_procs d' = num_procs d) ls.*2 ds ->
  Forall2 (started_as e) os ds /\ all_slots ls = concat (stats <$> ds) /\ total_procs ls = Z.of_nat (length (all_recorded ds)).
Proof.
  intros Hok Hsame. revert ds. induction Hsame as [|o [l d] os ls (Ht & Hn & _) _ IH]; intros ds Hrd Hf Hds.
  { inversion Hds. by split. }
  rewrite fmap_cons in Hds. inversion Hds as [|? d' ? ds' (Ht' & Hst' & Hn' & Hs') Hds' E1 E2]. subst.
  apply Forall_cons in Hok as [(_ & _ & _ & _ & [H0 _] & _) Hok]. apply Forall_cons in Hrd as [(_ & _ & Hlen) Hrd].
  apply Forall_cons in Hf as [[_ Hlp] Hf]. destruct (IH Hok ds' Hrd Hf Hds') as (IH1 & IH2 & IH3). cbn [snd] in *.
  change (num_procs (ordered e o)) with (processors e (number (o_workers o))) in Hn.
  assert (length (recorded d') = Z.to_nat (num_procs d)) as Hrec by (unfold recorded; rewrite length_take, Hs', Hlp, Hn'; lia).
  split; [constructor; [|done]|split].
  - unfold started_as. cbv zeta. rewrite <- Hn, Ht', Hst', Hs'. done.
  - unfold all_slots in *. rewrite !fmap_cons. cbn [concat snd]. by rewrite Hst', IH2.
  - rewrite all_recorded_cons, length_app, Hrec. unfold total_procs in *. cbn [foldr snd]. rewrite IH3. lia.
Qed.


(** ** [--all] *)

Lemma filter_zip_ids (f : stress -> pdata) (allocs : list positive) sts :
  (forall st, s_id (stressor (f st)) = s_id st) -> length allocs = length sts ->
  forall id, length (List.filter (fun x => s_id (stressor x.2) =? id) (zip allocs (f <$> sts))) =
    length (List.filter (fun st => s_id st =? id) sts).
Proof.
  intros Hf Hlen id. revert allocs Hlen. induction sts as [|st sts IH]; intros [|l allocs] Hlen; try done.
  rewrite fmap_cons. cbn [zip zip_with List.filter snd]. rewrite Hf. injection Hlen as Hlen.
  destruct (s_id st =? id); cbn [length]; by rewrite IH.
Qed.

(** (C40) [--all] and [--sequential] do not select all stressors: the loop ends after
    as many entries as there are ids, but the table lists futex twice.  So futex
    is selected twice, zombie, the last entry, never, and every other stressor
    once. *)
Theorem all_is_not_all fl n allocs :
  has fl OPT_FLAGS_SET = false -> NoDup allocs -> length allocs = STRESS_MAX ->
  exists s ls, enable_all_stressors stressors STRESS_MAX fl n (Some <$> allocs) no_procs = Returns s /\ repr s ls /\
    forall id, id ∈ s_id <$> stressors ->
      length (List.filter (fun x => s_id (stressor x.2) =? id) ls) =
        if id =? STRESS "FUTEX" then 2%nat else if id =? STRESS "ZOMBIE" then 0%nat else 1%nat.
Proof.
  intros Hset Hnd Hlen. unfold enable_all_stressors. rewrite Hset.
  destruct (enable_loop_repr (take STRESS_MAX stressors) (Some (s32 n)) allocs no_procs [] no_procs_repr) as (s & -> & Hr).
  - split; [done|]. intros l _. reflexivity.
  - rewrite Hlen. vm_compute. reflexivity.
  - eexists s, _. split; [done|]. split; [exact Hr|]. cbn [app].
    assert (forall st, s_id (stressor (new_proc (Some (s32 n)) st)) = s_id st) as Hid by done.
    intros id Hin. rewrite (filter_zip_ids _ _ _ Hid) by (rewrite Hlen; vm_compute; reflexivity).
    revert id Hin. apply Forall_forall. apply (bool_decide_unpack _). vm_compute. reflexivity.
Qed.

(** *** a concrete run: [stress-ng --vm 2 --cpu-ops 100 --cpu 4] *)

Definition demo_menv : menv :=
  MEnv demo_penv (replicate 16 0) (fun _ => []) 100 (Mwc 1 2 0 0 0 0) (fun _ => 0) (fun _ => 99) (fun _ => None) (fun _ => true)
    (fun _ => None) (fun i => 8192 + 64 * Z.of_nat i) (Some 4096) (fun _ => true) 100 true true true.

Lemma demo_runs : Forall (fun o => runs demo_menv (ordered demo_penv o)) demo_orders.
Proof. repeat constructor; vm_compute; reflexivity. Qed.


Lemma all_is_not_all_witness :
  exists s ls, enable_all_stressors stressors STRESS_MAX OPT_FLAGS_ALL 4 (Some <$> (Pos.of_succ_nat <$> seq 0 STRESS_MAX)) no_procs =
      Returns s /\ repr s ls /\
    forall id, id ∈ s_id <$> stressors ->
      length (List.filter (fun x => s_id (stressor x.2) =? id) ls) =
        if id =? STRESS "FUTEX" then 2%nat else if id =? STRESS "ZOMBIE" then 0%nat else 1%nat.
Proof.
  apply (all_is_not_all OPT_FLAGS_ALL 4); [reflexivity| |reflexivity].
  apply (bool_decide_unpack _). vm_compute. reflexivity.
Defined.
