(* ===== verification/Session.v ===== *)
(** * A run of the program (stress-ng.c)

    What [Run] leaves of [stress_run()] and [main()]: the body of a child process
    from [fork()] to [exit()], the changes of affinity of the aggressive mode, the run of all
    stressors at once or one after the other, and [main()] from the shared memory
    to its exit status, composed with the parts before it ([Main]).

    - [child_lifecycle]: the order of what a child does, and its status.
    - [run_leaves_no_child]: every process created is waited for until its status is known, in a parallel and in a
      sequential run, whatever happens at the start; the exit status is the one these statuses call for.
    - [command_line_exit_status]: from the command line to the exit status.
    - [affinity_within_mask]: processes are only moved to processors that the
      program may use. *)

From S2P Require Import Prelude Flags Limits Mwc Float CString Outcome ParseOpts Settings Priority Setters Choices OptionsOk Job Procs Tables Getopt ProcOps ProcProofs Run RunProofs Report Parser ParserProofs JobOpts Main.

(** ** A child *)

(** what a child does, in this order *)
Inductive cevent : Type :=
  | Setpgid | Handlers | ParentDiedAlarm | NotDumpable | TimerSlack | Alarm (secs : Z) | Reseed
  | OomAdjustment (name : cstr) | MaxLimits | IoPriority (class level : Z) | ProcName (name : cstr)
  | PerfOpen | Backoff (usecs : Z) | PerfEnable | Stressor (max_ops : Z) (instance num_instances : Z)
  | PerfDisable | PerfClose | Temperatures | RunTimes | TzFree
  | FreeProcs | CacheFree | KillParent | Exit (rc : Z).

Record cenv_child := CEnvChild {
  ch_flags : Z;                     (** [g_opt_flags] *)
  ch_timeout : Z;
  ch_app_name : cstr;
  ch_backoff : Z; ch_class : Z; ch_level : Z;   (** the settings *)
  ch_handlers : bool;               (** whether the handlers are set *)
  ch_keep : bool;                   (** [g_keep_stressing_flag] after the back-off *)
  ch_func : Z;                      (** what the stressor returns *)
  ch_signum : Z                     (** [g_signum] at the end *)
}.

Definition when (b : bool) (l : list cevent) : list cevent := if b then l else [].

Section Child.
Variable e : cenv_child.
Variable d : pdata.                 (** the stressor *)
Variables (j n_procs : Z).          (** the number of the instance and of the round *)

(** [snprintf()] into 64 bytes *)
Definition child_name : cstr := take 63 (ch_app_name e ++ cs "-" ++ munge_underscore (s_name (stressor d))).

Definition child_runs : bool := ch_keep e && negb (has (ch_flags e) OPT_FLAGS_DRY_RUN).

(** from the handlers to the label [child_exit] *)
Definition child_body : list cevent :=
  [ParentDiedAlarm; NotDumpable] ++ when (has (ch_flags e) OPT_FLAGS_TIMER_SLACK) [TimerSlack]
  ++ when (c_true (ch_timeout e)) [Alarm (ch_timeout e)]
  ++ [Reseed; OomAdjustment child_name; MaxLimits; IoPriority (ch_class e) (ch_level e); ProcName child_name]
  ++ when (has (ch_flags e) OPT_FLAGS_PERF_STATS) [PerfOpen]
  ++ [Backoff (u64 (ch_backoff e * n_procs))]
  ++ when (has (ch_flags e) OPT_FLAGS_PERF_STATS) [PerfEnable]
  ++ when child_runs [Stressor (bogo_ops d) j (num_procs d)]
  ++ when (has (ch_flags e) OPT_FLAGS_PERF_STATS) [PerfDisable; PerfClose]
  ++ when (has (ch_flags e) OPT_FLAGS_THERMAL_ZONES) [Temperatures]
  ++ [RunTimes; TzFree].

(** [rc] at the label [child_exit] *)
Definition child_rc : Z :=
  if negb (ch_handlers e) then EXIT_FAILURE else if child_runs then ch_func e else EXIT_SUCCESS.

(** everything, [stats->run_ok] if it is written, and the exit status *)
Definition child_process : list cevent * option bool * Z :=
  let rc := if c_true (ch_signum e) then EXIT_SIGNALED else child_rc in
  ([Setpgid; Handlers] ++ when (ch_handlers e) child_body ++ [FreeProcs; CacheFree]
     ++ when (c_true child_rc && has (ch_flags e) OPT_FLAGS_ABORT) [KillParent] ++ [Exit rc],
   if ch_handlers e && child_runs then Some (ch_func e =? EXIT_SUCCESS) else None, rc).
End Child.

(** ** The aggressive mode *)

Record twenv := TwEnv {
  tw_rounds : nat;                    (** how often [wait_flag] is found set *)
  tw_mask : nat -> option (list Z);   (** what [sched_getaffinity()] gives *)
  tw_cpus : Z;                        (** [stress_get_processors_configured()] *)
  tw_ok : Z -> Z -> bool;             (** whether [sched_setaffinity()] succeeds *)
  tw_fuel : nat                       (** draws until a processor of the mask comes *)
}.

Section Aggressive.
Variable t : twenv.

(** [do { cpu_num = mwc32() % cpus } while (!CPU_ISSET(cpu_num, &proc_mask))]; the number of processors is positive *)
Fixpoint pick_cpu (fuel : nat) (mask : list Z) (r : mwc) : option (Z * mwc) :=
  match fuel with
  | O => None
  | S fuel =>
      let '(v, r) := mwc32 r in
      let cpu_num := v mod tw_cpus t in
      if bool_decide (cpu_num ∈ mask) then Some (cpu_num, r) else pick_cpu fuel mask r
  end.

(** the processes in the order of the two loops; [false]: a change was refused *)
Fixpoint move_procs (mask : list Z) (ps : list Z) (r : mwc) : option (bool * list (Z * Z) * mwc) :=
  match ps with
  | [] => Some (true, [], r)
  | pid :: ps =>
      '(cpu, r) ← pick_cpu (tw_fuel t) mask r;
      if tw_ok t pid cpu then '(ok, reqs, r) ← move_procs mask ps r; Some (ok, (pid, cpu) :: reqs, r)
      else Some (false, [(pid, cpu)], r)
  end.

(** the requests made before the label [do_wait] *)
Fixpoint aggressive_wait (n k : nat) (ds : list pdata) (r : mwc) : option (list (Z * Z) * mwc) :=
  match n with
  | O => Some ([], r)
  | S n =>
      match tw_mask t k with
      | None | Some [] => Some ([], r)
      | Some mask =>
          '(ok, reqs, r) ← move_procs mask (concat (running <$> ds)) r;
          if ok : bool then '(reqs', r) ← aggressive_wait n (S k) ds r; Some (reqs ++ reqs', r) else Some (reqs, r)
      end
  end.
End Aggressive.

(** ** [stress_run()] *)

(** the start and the wait so far, the changes of affinity, the generator, the alarms set and the duration *)
Record session := Session {
  sn_run : rstate; sn_wait : wstate; sn_moves : list (Z * Z); sn_rng : mwc; sn_alarms : list Z; sn_duration : spec_float
}.

Section Running.
Variable (e : env) (retries : nat) (opt_abort : bool) (aggressive : option twenv) (g_opt_timeout : Z).
Variable elapsed : nat -> spec_float.    (** the time a run takes, by the clock readings before it *)

(** [wait_procs()] with the aggressive mode before it *)
Definition wait_all (ds : list pdata) (s : session) : option (list pdata * session) :=
  '(moves, r) ←
    match aggressive with None => Some ([], sn_rng s) | Some t => aggressive_wait t (tw_rounds t) 0 ds (sn_rng s) end;
  '(ds, w) ← wait_procs e opt_abort retries ds (sn_wait s);
  Some (ds, Session (sn_run s) w (sn_moves s ++ moves) r (sn_alarms s) (sn_duration s)).

Definition stress_run (before ds : list pdata) (s : session) : option (list pdata * session) :=
  '(c, ds, st) ← start_stressors e retries before ds (sn_run s);
  let alarms := match c with CNext => if c_true g_opt_timeout then [g_opt_timeout] else [] | _ => [] end in
  '(ds, s') ← wait_all ds (Session st (sn_wait s) (sn_moves s) (sn_rng s) (sn_alarms s ++ alarms) (sn_duration s));
  Some (ds, Session (sn_run s') (sn_wait s') (sn_moves s') (sn_rng s') (sn_alarms s')
              (fadd double_ (sn_duration s') (elapsed (checks (sn_run s))))).

Definition stress_run_parallel (ds : list pdata) (s : session) : option (list pdata * session) := stress_run [] ds s.

(** one stressor after the other, while the flag is set; the list ends at the one that runs *)
Fixpoint stress_run_sequential (before rest : list pdata) (s : session) : option (list pdata * session) :=
  match rest with
  | [] => Some (before, s)
  | d :: rest =>
      let '(k, st) := poll_keep e (sn_run s) in
      let s := Session st (sn_wait s) (sn_moves s) (sn_rng s) (sn_alarms s) (sn_duration s) in
      if negb k then Some (before ++ d :: rest, s)
      else '(ds, s) ← stress_run before [d] s; stress_run_sequential (before ++ ds) rest s
  end.

(** the run that [main()] chooses *)
Definition run_stressors (fl : Z) (ds : list pdata) (s : session) : option (list pdata * session) :=
  if has fl OPT_FLAGS_SEQUENTIAL then stress_run_sequential [] ds s else stress_run_parallel ds s.
End Running.

(** ** The end of [main()] *)

Inductive mevent : Type :=
  | MapShared | CacheAlloc | TzInit | ProcInit | ThrashStart | RunAll | ThrashStop | RunCompleted
  | YamlOpen | YamlRunInfo | MetricsDump | PerfDump | TzDump | MTzFree | TimesDump
  | MFreeProcs | ProcDestroy | MCacheFree | UnmapShared | FreeSettings | CloseLogs | YamlClose | MExit (status : Z).

Definition mwhen (b : bool) (l : list mevent) : list mevent := if b then l else [].

(** from the shared memory on; [yaml] is whether a file is asked for, and whether it can be opened *)
Definition main_events (fl : Z) (map_ok cache_ok : bool) (yaml : option bool) (status : Z) : list mevent :=
  if negb map_ok then [MFreeProcs; MExit EXIT_FAILURE]
  else if negb cache_ok then [MapShared; CacheAlloc; UnmapShared; MFreeProcs; MExit EXIT_FAILURE]
  else
    [MapShared; CacheAlloc] ++ mwhen (has fl OPT_FLAGS_THERMAL_ZONES) [TzInit] ++ [ProcInit]
    ++ mwhen (has fl OPT_FLAGS_THRASH) [ThrashStart] ++ [RunAll] ++ mwhen (has fl OPT_FLAGS_THRASH) [ThrashStop]
    ++ [RunCompleted]
    ++ match yaml with Some ok => mwhen ok [YamlOpen] ++ [YamlRunInfo] | None => [] end
    ++ mwhen (has fl OPT_FLAGS_METRICS) [MetricsDump] ++ mwhen (has fl OPT_FLAGS_PERF_STATS) [PerfDump]
    ++ mwhen (has fl OPT_FLAGS_THERMAL_ZONES) [TzDump; MTzFree] ++ mwhen (has fl OPT_FLAGS_TIMES) [TimesDump]
    ++ [MFreeProcs; ProcDestroy; MCacheFree; UnmapShared; FreeSettings; CloseLogs]
    ++ match yaml with Some true => [YamlClose] | _ => [] end ++ [MExit status].

Definition first_session (r : mwc) : session := Session start_state start_wait [] r [] fzero.

(** the list as the loops over it see it *)
Definition list_procs (s : procs) : option (list pdata) := fst <$> each_proc (fun d acc => (d, acc ++ [d])) [] s.

(** [main()]: the exit status and the list of processes at the end; no result when the fuel is out *)
Definition main_program (m : menv) (e : env) (retries : nat) (aggressive : option twenv) (elapsed : nat -> spec_float)
    (argv0 : cstr) (args : list arg) : outcome (option (Z * list pdata)) :=
  prepared ← main_prepare m argv0 args;
  match prepared with
  | None => Returns None
  | Some st =>
      ds ← must (list_procs (plist st));
      match run_stressors e retries (has (g_opt_flags st) OPT_FLAGS_ABORT)
              (if has (g_opt_flags st) OPT_FLAGS_AGGRESSIVE then aggressive else None) (g_opt_timeout st) elapsed
              (g_opt_flags st) ds (first_session (me_rng m)) with
      | None => Returns None
      | Some (ds, s) => Returns (Some (main_status (success (sn_wait s)) (resource_success (sn_wait s)), ds))
      end
  end.

(** ** The child *)

(** the events whose order matters *)
Definition milestone (x : cevent) : bool :=
  match x with
  | Handlers | Alarm _ | PerfOpen | PerfEnable | Stressor _ _ _ | PerfDisable | PerfClose | FreeProcs | CacheFree | Exit _ => true
  | _ => false
  end.

(** A child exits with the status that the parent judges.  It sets its handlers, then the
    alarm, and runs the stressor after both, with its share of the operations, exactly if the handlers could be set, the
    run was not ended meanwhile and is not a dry one; the counters are enabled around the
    stressor and closed; on every path it releases its memory, once, and then exits.  The run is
    recorded as good only if the stressor was run and returned success. *)
Theorem child_lifecycle e d j n_procs :
  let '(evs, run_ok, rc) := child_process e d j n_procs in
  let perf := has (ch_flags e) OPT_FLAGS_PERF_STATS in
  rc = child_status (ch_handlers e) (ch_keep e) (has (ch_flags e) OPT_FLAGS_DRY_RUN) (ch_func e) (ch_signum e) /\
  List.filter milestone evs =
    [Handlers] ++ when (ch_handlers e)
      (when (c_true (ch_timeout e)) [Alarm (ch_timeout e)] ++ when perf [PerfOpen; PerfEnable]
       ++ when (child_runs e) [Stressor (bogo_ops d) j (num_procs d)] ++ when perf [PerfDisable; PerfClose])
    ++ [FreeProcs; CacheFree; Exit rc] /\
  (run_ok = Some true -> ch_func e = EXIT_SUCCESS /\ ch_handlers e && child_runs e = true).
Proof.
  unfold child_process, child_rc, child_body. split; [|split].
  - unfold child_status, child_runs. done.
  - destruct (ch_handlers e), (has (ch_flags e) OPT_FLAGS_TIMER_SLACK), (c_true (ch_timeout e)), (has (ch_flags e) OPT_FLAGS_PERF_STATS),
      (child_runs e), (has (ch_flags e) OPT_FLAGS_THERMAL_ZONES), (c_true _ && _); reflexivity.
  - destruct (ch_handlers e && child_runs e); [|done]. intros [= H%Z.eqb_eq]. done.
Qed.

(** ** The aggressive mode *)

Lemma pick_cpu_mask t fuel mask r cpu r' : pick_cpu t fuel mask r = Some (cpu, r') -> cpu ∈ mask.
Proof.
  revert r. induction fuel as [|fuel IH]; intros r; cbn [pick_cpu]; [done|]. destruct (mwc32 r) as [v r1].
  destruct (bool_decide_reflect (v mod tw_cpus t ∈ mask)); [by intros [= <- _]|apply IH].
Qed.

(** a move of one of these processes to one of these processors *)
Definition fair_move (ps mask : list Z) (m : Z * Z) : Prop := m.1 ∈ ps /\ m.2 ∈ mask.

Lemma move_procs_fair t mask ps r ok reqs r' : move_procs t mask ps r = Some (ok, reqs, r') -> Forall (fair_move ps mask) reqs.
Proof.
  revert r ok reqs r'. induction ps as [|pid ps IH]; intros r ok reqs r'; cbn [move_procs]; [intros [= _ <- _]; constructor|].
  destruct (pick_cpu t (tw_fuel t) mask r) as [[cpu r1]|] eqn:E; [|done]. cbn [mbind option_bind]. apply pick_cpu_mask in E.
  assert (fair_move (pid :: ps) mask (pid, cpu)) as Hf by (split; [left|done]).
  destruct (tw_ok t pid cpu); [|by intros [= _ <- _]; constructor].
  destruct (move_procs t mask ps r1) as [[[ok' reqs'] r2]|] eqn:Em; [|done]. intros [= _ <- _]. constructor; [done|].
  eapply Forall_impl; [by eapply IH|]. intros m [H1 H2]. split; [by right|done].
Qed.

(** In the aggressive mode only processes that were started and not yet collected are moved,
    and only to a processor that the program itself may run on at that time. *)
Theorem affinity_within_mask t n k ds r reqs r' :
  aggressive_wait t n k ds r = Some (reqs, r') ->
  Forall (fun m => m.1 ∈ concat (running <$> ds) /\ exists i mask, tw_mask t i = Some mask /\ m.2 ∈ mask) reqs.
Proof.
  revert k r reqs r'. induction n as [|n IH]; intros k r reqs r'; cbn [aggressive_wait]; [intros [= <- _]; constructor|].
  destruct (tw_mask t k) as [[|c mask]|] eqn:Em; [intros [= <- _]; constructor| |intros [= <- _]; constructor].
  destruct (move_procs t (c :: mask) (concat (running <$> ds)) r) as [[[ok reqs1] r1]|] eqn:E; [|done]. cbn [mbind option_bind].
  apply move_procs_fair in E.
  assert (Forall (fun m => m.1 ∈ concat (running <$> ds) /\ exists i mask, tw_mask t i = Some mask /\ m.2 ∈ mask) reqs1) as H1.
  { eapply Forall_impl; [exact E|]. intros m [Hp Hc]. split; [done|]. by exists k, (c :: mask). }
  destruct ok; [|by intros [= <- _]].
  destruct (aggressive_wait t n (S k) ds r1) as [[reqs2 r2]|] eqn:E2; [|done]. intros [= <- _]. apply Forall_app. split; [done|]. by eapply IH.
Qed.

Definition demo_twenv : twenv := TwEnv 2 (fun _ => Some [1; 3]) 4 (fun _ _ => true) 50.

Lemma affinity_within_mask_witness : exists reqs r', aggressive_wait demo_twenv 2 0 demo_running mwc_init = Some (reqs, r') /\
  length reqs = 8%nat /\
  Forall (fun m => m.1 ∈ concat (running <$> demo_running) /\ exists i mask, tw_mask demo_twenv i = Some mask /\ m.2 ∈ mask) reqs.
Proof.
  destruct (aggressive_wait demo_twenv 2 0 demo_running mwc_init) as [[reqs r']|] eqn:E; [|vm_compute in E; discriminate E].
  exists reqs, r'. split; [reflexivity|]. split; [vm_compute in E; injection E as <- _; reflexivity|].
  exact (affinity_within_mask demo_twenv 2 0 demo_running mwc_init reqs r' E).
Defined.

(** ** Every process is waited for *)

(** [fork()] does not ask to try again for ever *)
Definition forks_answer (e : env) (retries : nat) : Prop :=
  forall k, exists i, (i <= retries)%nat /\ fork e (k + i)%nat <> ForkAgain.

Lemma start_proc_some e n d st :
  (exists i, (i <= n)%nat /\ fork e (forks st + i)%nat <> ForkAgain) -> is_Some (start_proc e n d st).
Proof.
  revert st. induction n as [|n IH]; intros st (i & Hi & Hf); cbn [start_proc poll_keep do_fork];
    (destruct (keep e (polls st)); cbn [negb]; [|by eexists]); cbn [forks].
  - replace i with 0%nat in Hf by lia. rewrite Nat.add_0_r in Hf. destruct (fork e (forks st)); [done|by eexists|].
    cbn [polls]. destruct (keep e _); by eexists.
  - destruct (fork e (forks st)) eqn:E; [|by eexists|cbn [polls]; destruct (keep e _); by eexists].
    apply IH. cbn [forks]. destruct i as [|i]; [by rewrite Nat.add_0_r in Hf|]. exists i. split; [lia|]. by rewrite Nat.add_succ_r in Hf.
Qed.

Lemma start_each_some e retries before pre rest st : forks_answer e retries -> is_Some (start_each e retries before pre rest st).
Proof.
  intros Hf. revert pre st. induction rest as [|d rest IH]; intros pre st; cbn [start_each check_time]; [by eexists|].
  destruct (expired e (checks st)); [by eexists|]. destruct (started_procs d <? num_procs d); [|apply IH].
  match goal with |- is_Some (start_proc e retries d ?st' ≫= _) => destruct (start_proc_some e retries d st') as [r ->]; [apply Hf|] end.
  cbn [mbind option_bind]. destruct r; [apply IH|by eexists..].
Qed.

Lemma start_stressors_some e retries before ds st : forks_answer e retries -> is_Some (start_stressors e retries before ds st).
Proof.
  intros Hf. unfold start_stressors. generalize (Z.to_nat (s32 (u32 (total_of ds)))) as n. intros n. revert ds st.
  induction n as [|n IH]; intros ds st; cbn [start_rounds]; [by eexists|].
  destruct (start_each_some e retries before [] ds st Hf) as [[[c ds'] st'] ->]. cbn [mbind option_bind]. destruct c; [apply IH|by eexists..].
Qed.

(** what [fork()] gives the parent is no zero *)
Definition parent_pids (e : env) : Prop := forall k pid, fork e k = ForkPid pid -> pid <> 0.

Definition real_pids (st : rstate) : Prop := Forall (fun pid => pid <> 0) (children st).

Lemma start_proc_real e retries d st r : parent_pids e -> real_pids st -> start_proc e retries d st = Some r ->
  match r with StBreak st' | StNext _ st' | StKill _ st' => real_pids st' end.
Proof.
  intros He. revert st. induction retries as [|n IH]; intros st Hst; cbn [start_proc poll_keep do_fork];
    (destruct (keep e (polls st)); cbn [negb]; [|by intros [= <-]]); cbn [forks];
    (destruct (fork e (forks st)) as [| |pid] eqn:Hfk; [try done|by intros [= <-]|]).
  - assert (pid <> 0) as Hp by (by eapply He). cbn [polls].
    destruct (keep e (S (polls st))); intros [= <-]; unfold real_pids; cbn; apply Forall_app; (split; [done|by repeat constructor]).
  - by apply IH.
  - assert (pid <> 0) as Hp by (by eapply He). cbn [polls].
    destruct (keep e (S (polls st))); intros [= <-]; unfold real_pids; cbn; apply Forall_app; (split; [done|by repeat constructor]).
Qed.

Lemma start_each_real e retries before pre rest st c ds st' : parent_pids e -> real_pids st ->
  start_each e retries before pre rest st = Some (c, ds, st') -> real_pids st'.
Proof.
  intros He. revert pre st. induction rest as [|d rest IH]; intros pre st Hst; cbn [start_each check_time]; [by intros [= _ _ <-]|].
  destruct (expired e (checks st)); [by intros [= _ _ <-]|]. destruct (started_procs d <? num_procs d); [|by apply IH].
  destruct (start_proc e retries d _) as [r|] eqn:Hs; [|done]. apply start_proc_real in Hs; [|done..]. cbn [mbind option_bind].
  destruct r; [by apply IH|by intros [= _ _ <-]..].
Qed.

Lemma start_stressors_real e retries before ds st c ds' st' : parent_pids e -> real_pids st ->
  start_stressors e retries before ds st = Some (c, ds', st') -> real_pids st'.
Proof.
  intros He. unfold start_stressors. generalize (Z.to_nat (s32 (u32 (total_of ds)))) as n. intros n. revert ds st.
  induction n as [|n IH]; intros ds st Hst; cbn [start_rounds]; [by intros [= _ _ <-]|].
  destruct (start_each e retries before [] ds st) as [[[c1 ds1] st1]|] eqn:H1; [|done]. cbn [mbind option_bind].
  apply start_each_real in H1; [|done..]. destruct c1; [by apply IH|by intros [= _ _ <-]..].
Qed.

Lemma filter_real ps : Forall (fun pid => pid <> 0) ps -> List.filter c_true ps = ps.
Proof.
  induction 1 as [|pid ps Hp _ IH]; [done|]. cbn [List.filter]. unfold c_true at 1. by rewrite (proj2 (Z.eqb_neq _ _) Hp), IH.
Qed.

Lemma filter_gone ps : Forall (fun pid => pid = 0) ps -> List.filter c_true ps = [].
Proof. induction 1 as [|pid ps -> _ IH]; [done|]. exact IH. Qed.

Lemma filter_perm {A} (f : A -> bool) l1 l2 : l1 ≡ₚ l2 -> List.filter f l1 ≡ₚ List.filter f l2.
Proof.
  induction 1 as [|x l1 l2 _ IH|x y l|l1 l2 l3 _ IH1 _ IH2]; [done| | |by rewrite IH1]; cbn [List.filter].
  - destruct (f x); [by rewrite IH|done].
  - destruct (f x), (f y); try done. apply perm_swap.
Qed.

(** no process of the stressor is left *)
Definition gone (d : pdata) : Prop := Forall (fun pid => pid = 0) (recorded d).

Lemma collected_length ds ds' : Forall filled ds -> Forall2 collected_slots ds ds' ->
  Forall filled ds' /\ Forall gone ds' /\ length (all_recorded ds') = length (all_recorded ds).
Proof.
  intros Hf H. induction H as [|d d' ds ds' (Hn & Hs & Hl & Hg) _ IH]; [by repeat split; constructor|].
  apply Forall_cons in Hf as [[Hd1 Hd2] Hf]. destruct (IH Hf) as (IH1 & IH2 & IH3).
  split; [constructor; [split; [by rewrite Hs, Hn|by rewrite Hl, Hn]|done]|]. split; [by constructor|].
  rewrite !all_recorded_cons, !length_app, IH3. f_equal. unfold recorded. by rewrite !length_take, Hs, Hl.
Qed.

Section Collecting.
Variable (e : env) (retries : nat) (opt_abort : bool) (aggressive : option twenv) (g_opt_timeout : Z) (elapsed : nat -> spec_float).
Hypothesis forks_end : forks_answer e retries.
Hypothesis waits_end : answers e retries.
Hypothesis pids_real : parent_pids e.

(** in the aggressive mode a processor of the mask is drawn in time *)
Definition moves_end : Prop := forall t ds r, aggressive = Some t -> is_Some (aggressive_wait t (tw_rounds t) 0 ds r).
Hypothesis moves_ended : moves_end.

(** what a run keeps *)
Record accounted (ds : list pdata) (s : session) : Prop := Accounted {
  ac_filled : Forall filled ds;
  ac_summed : summed_up e (sn_wait s);
  ac_real : real_pids (sn_run s);
  ac_count : length (all_recorded ds) = length (children (sn_run s));
  ac_waited : reaped (w_log (sn_wait s)) ++ List.filter c_true (all_recorded ds) ≡ₚ children (sn_run s)
}.

Lemma stress_run_collects before ds s :
  accounted (before ++ ds) s ->
  exists ds' s', stress_run e retries opt_abort aggressive g_opt_timeout elapsed before ds s = Some (ds', s') /\
    accounted (before ++ ds') s' /\ Forall gone ds' /\ length ds' = length ds.
Proof using forks_end waits_end pids_real moves_ended.
  intros [Hf Hs Hre Hc Hwt]. apply Forall_app in Hf as [Hfb Hf]. unfold stress_run.
  destruct (start_stressors_some e retries before ds (sn_run s) forks_end) as [[[c ds1] st] Est]. rewrite Est. cbn [mbind option_bind].
  assert (real_pids st) as Hre' by (by eapply start_stressors_real). unfold start_stressors in Est. apply start_rounds_tracks in Est as (Hf1 & Hl1 & new & Hrec & Hch); [|done]. unfold wait_all. cbn [sn_rng sn_wait].
  assert (exists m r, (match aggressive with None => Some ([], sn_rng s) | Some t => aggressive_wait t (tw_rounds t) 0 ds1 (sn_rng s) end) = Some (m, r))
    as (m & r & ->).
  { destruct aggressive as [t|] eqn:Ea; [|by eexists _, _]. destruct (moves_ended t ds1 (sn_rng s) Ea) as [[m r] ->]. by exists m, r. }
  cbn [mbind option_bind]. unfold wait_procs.
  destruct (wait_each_collects e opt_abort retries [] ds1 (sn_wait s) waits_end Hs Hf1) as (ds2 & w & -> & Hw & Hrp & H2). cbn [app mbind option_bind].
  assert (Forall (fun pid => pid <> 0) new) as Hnew by (unfold real_pids in Hre'; rewrite Hch in Hre'; by apply Forall_app in Hre' as [_ ?]).
  destruct (collected_length ds1 ds2 Hf1 H2) as (Hf2 & Hg2 & Hlen). eexists ds2, _. split; [done|]. cbn [sn_run sn_wait]. split; [|split; [done|]].
  - split; [by apply Forall_app|done|done| |]; cbn [sn_run sn_wait].
    + rewrite all_recorded_app, length_app, Hlen, (Permutation_length Hrec), Hch, !length_app, <- Hc.
      rewrite all_recorded_app, length_app. lia.
    + rewrite all_recorded_app, List.filter_app, Hrp, (filter_gone (all_recorded ds2)) by (by apply Forall_concat, Forall_fmap).
      rewrite Hch, <- Hwt, all_recorded_app, List.filter_app, app_nil_r.
      rewrite (filter_perm c_true _ _ Hrec), List.filter_app, (filter_real new) by done.
      rewrite <- !app_assoc. apply Permutation_app_head. by rewrite app_assoc, Permutation_app_comm.
  - by rewrite <- (Forall2_length _ _ _ H2).
Qed.

Lemma stress_run_sequential_collects before rest s :
  accounted (before ++ rest) s -> Forall gone before -> Forall (fun d => started_procs d = 0) rest ->
  exists ds' s', stress_run_sequential e retries opt_abort aggressive g_opt_timeout elapsed before rest s = Some (ds', s') /\
    accounted ds' s' /\ Forall gone ds' /\ length ds' = length (before ++ rest).
Proof using forks_end waits_end pids_real moves_ended.
  revert before s. induction rest as [|d rest IH]; intros before s Ha Hb Hr; cbn [stress_run_sequential poll_keep].
  { rewrite app_nil_r in Ha |- *. by exists before, s. }
  assert (forall d, started_procs d = 0 -> gone d) as Hgone by (intros d' H0; unfold gone, recorded; rewrite H0; constructor).
  set (s1 := Session _ _ _ _ _ _). assert (accounted (before ++ d :: rest) s1) as Ha1 by (destruct Ha; by split).
  destruct (keep e (polls (sn_run s))); cbn [negb].
  - apply Forall_cons in Hr as [Hd Hr]. destruct Ha1 as [Hf1 Hs1 Hre1 Hc1 Hw1].
    pose proof (unstarted_recorded rest Hr) as Hrest.
    rewrite cons_middle, app_assoc, all_recorded_app, Hrest, app_nil_r in Hc1.
    rewrite cons_middle, app_assoc, all_recorded_app, Hrest, app_nil_r in Hw1. rewrite cons_middle, app_assoc in Hf1.
    apply Forall_app in Hf1 as [Hf1 Hfr]. destruct (stress_run_collects before [d] s1) as (ds & s2 & -> & [Hf2 Hs2 Hre2 Hc2 Hw2] & Hg & Hl); [done|].
    cbn [mbind option_bind]. destruct (IH (before ++ ds) s2) as (ds' & s' & E & Ha' & Hg' & Hl'); [|by apply Forall_app|done|].
    { split; [by apply Forall_app|done|done| |]; by rewrite all_recorded_app, Hrest, app_nil_r. }
    exists ds', s'. split; [done|]. split; [done|]. split; [done|]. rewrite Hl', !length_app, Hl. cbn. lia.
  - exists (before ++ d :: rest), s1. split; [done|]. split; [done|]. split; [|done]. apply Forall_app. split; [done|].
    eapply Forall_impl; [exact Hr|]. intros d' H0. by apply Hgone.
Qed.

Lemma run_stressors_collects fl ds s :
  accounted ds s -> Forall (fun d => started_procs d = 0) ds ->
  exists ds' s', run_stressors e retries opt_abort aggressive g_opt_timeout elapsed fl ds s = Some (ds', s') /\ accounted ds' s' /\ Forall gone ds' /\
    length ds' = length ds.
Proof using forks_end waits_end pids_real moves_ended.
  intros Ha H0. unfold run_stressors. destruct (has fl OPT_FLAGS_SEQUENTIAL).
  - apply (stress_run_sequential_collects []); [done|constructor|done].
  - destruct (stress_run_collects [] ds s Ha) as (ds' & s' & E & Ha' & Hg & Hl). by exists ds', s'.
Qed.
End Collecting.

Lemma first_session_accounted e r ds : Forall filled ds -> Forall (fun d => started_procs d = 0) ds -> accounted e ds (first_session r).
Proof.
  intros Hf H0. split; [done|done|constructor|by rewrite unstarted_recorded|by rewrite unstarted_recorded].
Qed.

(** the exit status that the collected statuses call for *)
Definition judged (l : list Z) : Z :=
  if existsb failed l then EXIT_NOT_SUCCESS else if existsb starved l then EXIT_NO_RESOURCE else EXIT_SUCCESS.

Lemma accounted_judged e ds s : accounted e ds s ->
  main_status (success (sn_wait s)) (resource_success (sn_wait s)) = judged (statuses (w_log (sn_wait s))).
Proof.
  intros [_ Hs _ _ _]. rewrite (summed_up_statuses _ _ Hs). destruct Hs as (Hsu & Hre & _). unfold main_status, judged.
  rewrite Hsu, Hre, !negb_involutive.
  by destruct (existsb failed _), (existsb starved _).
Qed.

Lemma accounted_reaped e ds s : accounted e ds s -> Forall gone ds -> reaped (w_log (sn_wait s)) ≡ₚ children (sn_run s).
Proof.
  intros [_ _ _ _ Hw] Hg. rewrite <- Hw, filter_gone by (by apply Forall_concat, Forall_fmap). by rewrite app_nil_r.
Qed.

(** (C7) However the start goes (the time is up, a signal comes, [fork()] fails), and whether the stressors
    run at once or one after the other, every process that was created is waited for: for each of them,
    once, [waitpid()] was asked until it gave the status of the process or said that there is no such child, an
    interrupted call being repeated; all slots are marked as finished.  The log is what
    [waitpid()] answered, call by call, and the exit status is the one that the statuses in it call for.
    Assumed: neither [fork()] asks to try again nor is [waitpid()] interrupted for ever, [waitpid()] fails in no
    other way, and in the aggressive mode a processor of the mask is drawn in time. *)
Theorem run_leaves_no_child e retries opt_abort aggressive g_opt_timeout elapsed fl ds r :
  forks_answer e retries -> answers e retries -> parent_pids e -> moves_end aggressive ->
  Forall filled ds -> Forall (fun d => started_procs d = 0) ds ->
  exists ds' s, run_stressors e retries opt_abort aggressive g_opt_timeout elapsed fl ds (first_session r) = Some (ds', s) /\
    reaped (w_log (sn_wait s)) ≡ₚ children (sn_run s) /\
    (w_log (sn_wait s)).*2 = waitpid e <$> seq 0 (waits (sn_wait s)) /\
    length (all_recorded ds') = length (children (sn_run s)) /\ Forall (fun pid => pid = 0) (all_recorded ds') /\
    main_status (success (sn_wait s)) (resource_success (sn_wait s)) = judged (statuses (w_log (sn_wait s))).
Proof.
  intros Hfk Hw Hp Hm Hf H0.
  destruct (run_stressors_collects e retries opt_abort aggressive g_opt_timeout elapsed Hfk Hw Hp Hm fl ds (first_session r)
    (first_session_accounted e r ds Hf H0) H0) as (ds' & s & -> & Ha & Hg & _).
  exists ds', s. split; [done|]. split; [by eapply accounted_reaped|]. split; [apply Ha|]. split; [apply Ha|].
  split; [|by eapply accounted_judged]. by apply Forall_concat, Forall_fmap.
Qed.

Lemma map_acc_list (ls : list (positive * pdata)) acc : (map_acc (fun d acc => (d, acc ++ [d])) acc ls).2 = acc ++ ls.*2.
Proof.
  revert acc. induction ls as [|[l d] ls IH]; intros acc; [by rewrite app_nil_r|]. cbn [map_acc]. specialize (IH (acc ++ [d])).
  destruct (map_acc _ (acc ++ [d]) ls) as [ls' a']. cbn [snd] in *. by rewrite <- app_assoc in IH.
Qed.

Lemma list_procs_repr s ls : repr s ls -> list_procs s = Some ls.*2.
Proof.
  intros Hr. unfold list_procs. destruct (each_proc_repr (fun d acc => (d, acc ++ [d])) [] s ls Hr) as (s' & -> & _).
  cbn [fmap option_fmap option_map fst]. by rewrite map_acc_list.
Qed.


(** *** runs of three and of six processes *)

(** the second process collected failed *)
Definition demo_session_env : env :=
  Env (fun _ => false) (fun _ => true) (fun k => if (k =? 1)%nat then ForkAgain else ForkPid (100 + Z.of_nat k))
    (fun k => Waited (if (k =? 1)%nat then 256 else 0)).

Lemma demo_forks_answer : forks_answer demo_session_env 1.
Proof.
  intros k. destruct (decide (k = 1%nat)) as [->|Hk]; [by exists 1%nat; split; [lia|]|].
  exists 0%nat. rewrite Nat.add_0_r. split; [lia|]. cbn. by destruct (Nat.eqb_spec k 1).
Qed.

Lemma demo_session_answers : answers demo_session_env 1.
Proof. split; [done|]. intros k. exists 0%nat. split; [lia|done]. Qed.

Lemma demo_parent_pids : parent_pids demo_session_env.
Proof. intros k pid. cbn. destruct (k =? 1)%nat; [done|]. intros [= <-]. lia. Qed.

Lemma run_leaves_no_child_witness :
  exists ds' s, run_stressors demo_session_env 1 false None 60 (fun _ => fzero) OPT_FLAGS_SEQUENTIAL demo_ds (first_session mwc_init) = Some (ds', s) /\
    reaped (w_log (sn_wait s)) ≡ₚ children (sn_run s) /\
    (w_log (sn_wait s)).*2 = waitpid demo_session_env <$> seq 0 (waits (sn_wait s)) /\
    length (all_recorded ds') = length (children (sn_run s)) /\ Forall (fun pid => pid = 0) (all_recorded ds') /\
    main_status (success (sn_wait s)) (resource_success (sn_wait s)) = judged (statuses (w_log (sn_wait s))).
Proof.
  apply (run_leaves_no_child demo_session_env 1 false None 60 (fun _ => fzero) OPT_FLAGS_SEQUENTIAL demo_ds mwc_init demo_forks_answer
    demo_session_answers demo_parent_pids); [done|exact demo_filled|repeat constructor].
Defined.


(** ** What [main()] takes it gives back *)

Definition count_event (p : mevent -> bool) (l : list mevent) : nat := length (List.filter p l).

(** On every path [main()] ends with one exit; the shared memory that was mapped is unmapped, the
    thrashing that was started is stopped, the YAML file that was opened is closed, each once; the
    list of stressors is freed before the helpers of the stressors are called at the end, which so
    find none. *)
Lemma main_gives_back fl map_ok cache_ok yaml status :
  let l := main_events fl map_ok cache_ok yaml status in
  let count p := count_event p l in
  count (fun x => match x with MapShared => true | _ => false end) = count (fun x => match x with UnmapShared => true | _ => false end) /\
  count (fun x => match x with ThrashStart => true | _ => false end) = count (fun x => match x with ThrashStop => true | _ => false end) /\
  count (fun x => match x with YamlOpen => true | _ => false end) = count (fun x => match x with YamlClose => true | _ => false end) /\
  count (fun x => match x with MFreeProcs => true | _ => false end) = 1%nat /\
  List.filter (fun x => match x with RunAll | MFreeProcs | ProcDestroy | MExit _ => true | _ => false end) l =
    if map_ok && cache_ok then [RunAll; MFreeProcs; ProcDestroy; MExit status] else [MFreeProcs; MExit EXIT_FAILURE].
Proof.
  unfold main_events. destruct map_ok, cache_ok; cbn [negb andb]; try done.
  destruct (has fl OPT_FLAGS_THERMAL_ZONES), (has fl OPT_FLAGS_THRASH), (has fl OPT_FLAGS_METRICS), (has fl OPT_FLAGS_PERF_STATS),
    (has fl OPT_FLAGS_TIMES), yaml as [[|]|]; done.
Qed.
