(* ===== verification/EndToEnd.v ===== *)
(** * From a memory fault to the exit status of the program

    The memory stressor, the process that runs it and the parent that collects
    it, put together: what [stress_vm()] returns is the exit status of its
    process, which [wait_procs()] judges, and from which [main()] makes the exit
    status of the program. *)

From S2P Require Import Prelude Limits Mwc VmState VmMethods VmTame VmLogic VmProofs VmBits VmPrime VmAll VmFaults VmDriver Procs Run RunProofs.

(** the status [waitpid] reports for a process that ends with [exit(rc)] *)
Definition exit_code_status (rc : Z) : Z := u8 rc <<< 8.

(** an instance of the memory stressor that runs to its end, without a signal *)
Definition vm_process_status (r : vm_result) : option Z :=
  match r with
  | VReturns ret _ => Some (exit_code_status (child_status true true false ret 0))
  | _ => None
  end.

Lemma existsb_collected e n k st f :
  (k < n)%nat -> waitpid e k = Waited st -> f st = true -> existsb f (collected e n) = true.
Proof.
  intros Hk Hw Hf. apply existsb_exists. exists st. split; [|done]. apply list_elem_of_In. unfold collected.
  apply list_elem_of_omap. exists k. split; [apply elem_of_seq; lia|]. by rewrite Hw.
Qed.

Lemma existsb_collected_none e n f :
  (forall k st, (k < n)%nat -> waitpid e k = Waited st -> f st = false) -> existsb f (collected e n) = false.
Proof.
  intros H. apply not_true_iff_false. intros (st & Hin & Hf)%existsb_exists. apply list_elem_of_In in Hin.
  apply list_elem_of_omap in Hin as (k & Hk%elem_of_seq & Hs).
  destruct (waitpid e k) as [st'| | |] eqn:Hw; try done. injection Hs as ->. rewrite (H k st) in Hf; [done|lia|done].
Qed.

(** (C3) A fault of the memory reaches the user, for the zero-one method: when an instance of the memory
    stressor with [--vm-method zero-one], whose child maps a buffer with stuck bits (of a size that 64 divides, below 2^59 bytes)
    at the first try, makes one uninterrupted pass over it and then exits, is killed by a signal other than SIGKILL or
    is given up by its parent, has ended and is among the processes collected, the
    program ends with the status for a failed run.  The memory is otherwise sound, and [waitpid()] is not
    interrupted for ever and fails in no other way. *)
Theorem fault_reaches_exit_status stuck1 stuck0 (pf : platform (faulty stuck1 stuck0)) `{!SoundPlatform pf}
    alloc keep sz max_ops hang s0 evs f m e ab retries ds ds' w' k st :
  (forall i, fits 8 (stuck1 i)) -> (forall i, fits 8 (stuck0 i)) -> (forall i, stuck1 i .& stuck0 i = 0) ->
  alloc 0%nat = Some m -> msize m = sz -> (64 | sz)%nat -> Z.of_nat sz < 2 ^ 59 ->
  0 < bits stuck1 0 sz + bits stuck0 0 sz -> f <> OomKilled ->
  answers e retries -> Forall filled ds -> wait_procs e ab retries ds start_wait = Some (ds', w') ->
  vm_process_status (stress_vm pf alloc (stress_vm_zero_one pf) keep sz max_ops hang true s0
    ((true, Child (None, 1%nat) f) :: evs)) = Some st ->
  (k < waits w')%nat -> waitpid e k = Waited st ->
  main_status (success w') (resource_success w') = EXIT_NOT_SUCCESS.
Proof.
  intros H1 H0 Hd Ha Hm H64 Hsz Hpos Hf Hans Hfill Hwait Hst Hk Hw.
  destruct (stress_vm_finds _ _ H1 H0 Hd pf alloc keep sz max_ops hang s0 evs f m Ha Hm H64 Hsz Hpos Hf) as [[cnt Hr]|[_ Hr]];
    rewrite Hr in Hst; [|discriminate Hst]. injection Hst as <-.
  destruct (wait_each_collects e ab retries [] ds start_wait Hans) as (ds2 & w2 & Hw2 & (Hsu & _) & _); [done|done|].
  unfold wait_procs in Hwait. rewrite Hw2 in Hwait. injection Hwait as _ <-.
  unfold main_status. rewrite Hsu. by erewrite existsb_collected.
Qed.

(** (C4) And only a fault, for the methods that can be interrupted: when every process collected is an instance of the memory
    stressor on sound memory that has ended without a signal, with one of the 20 methods other than "all", galpat-0,
    galpat-1, gray, incdec and prime-incdec, with a buffer of a size that 64 divides and over which
    the walk in prime steps visits every byte ([covers]: powers of two, and the sizes of [good_size]), and with the page of its error counter mapped, the program ends with success,
    whatever [fork()], the OOM killer, the alarms and the allocations did in the instances. *)
Theorem sound_memory_exit_status {M} `{!MemDevice M} `{!Healthy M} (pf : platform M) `{!SoundPlatform pf}
    fuel func sz e ab retries ds ds' w' :
  robust_method pf fuel func -> (64 | sz)%nat -> covers sz -> 0 <= pf_base pf ->
  answers e retries -> Forall filled ds -> wait_procs e ab retries ds start_wait = Some (ds', w') ->
  (forall k st, (k < waits w')%nat -> waitpid e k = Waited st -> exists alloc keep max_ops hang s0 evs,
    statics_wf (vars s0) /\ (forall j m, alloc j = Some m -> msize m = sz) /\
    vm_process_status (stress_vm pf alloc func keep sz max_ops hang true s0 evs) = Some st) ->
  main_status (success w') (resource_success w') = EXIT_SUCCESS.
Proof.
  intros Hr H64 Hc Hb Hans Hfill Hwait Hall.
  destruct (wait_each_collects e ab retries [] ds start_wait Hans) as (ds2 & w2 & Hw2 & (Hsu & Hre & _) & _); [done|done|].
  unfold wait_procs in Hwait. rewrite Hw2 in Hwait. injection Hwait as _ <-.
  assert (forall k st, (k < waits w2)%nat -> waitpid e k = Waited st -> st = 0) as Hzero.
  { intros k st Hk Hw. destruct (Hall k st Hk Hw) as (alloc & keep & mo & hang & s0 & evs & Hwf & Ha & Hst).
    pose proof (stress_vm_sound pf fuel alloc func keep sz mo hang s0 evs Hr H64 Hc Hb Hwf Ha) as [H _].
    destruct (stress_vm _ _ _ _ _ _ _ _ _ _) as [ret c| |]; [|done|done]. subst ret. by injection Hst as <-. }
  unfold main_status. rewrite Hsu, Hre.
  rewrite !existsb_collected_none; [done| |]; intros k st Hk Hw; by rewrite (Hzero k st Hk Hw).
Qed.

(** *** one instance, collected with the status of a failure or of success *)

Definition demo_answer (st : Z) : env := Env (fun _ => false) (fun _ => true) (fun _ => ForkPid 100) (fun _ => Waited st).
Definition demo_one : list pdata := [PData (demo_stress 7) [101] [0] 1 1 0].
Definition demo_one_done : list pdata := [PData (demo_stress 7) [0] [0] 1 1 0].

Lemma demo_answers st : answers (demo_answer st) 0.
Proof. split; [done|]. intros k. by exists 0%nat. Qed.
Lemma demo_one_filled : Forall filled demo_one.
Proof. apply Forall_cons_2; [|apply Forall_nil_2]. split; [simpl; lia|reflexivity]. Qed.

Lemma fault_reaches_exit_status_witness :
  wait_procs (demo_answer 256) false 0 demo_one start_wait = Some (demo_one_done, WState 1 false true false 0 [] [(101, Waited 256)]) /\
  main_status false true = EXIT_NOT_SUCCESS.
Proof.
  assert (wait_procs (demo_answer 256) false 0 demo_one start_wait = Some (demo_one_done, WState 1 false true false 0 [] [(101, Waited 256)]))
    as Hw by (vm_compute; reflexivity).
  split; [exact Hw|]. destruct demo_stuck_ok as (H1 & H0 & Hd).
  assert (64 | 64)%nat as H64 by (exists 1%nat; reflexivity).
  assert (0 < bits demo_stuck1 0 64 + bits demo_stuck0 0 64) as Hp by (vm_compute; reflexivity).
  assert (Z.of_nat 64 < 2 ^ 59) as Hz by (vm_compute; reflexivity).
  destruct (stress_vm_finds _ _ H1 H0 Hd demo_fault_pf (fun _ => Some (Faulty (replicate 64 0))) true 64 0 DEFAULT_VM_HANG
    demo_fault_state [] WaitFailed (Faulty (replicate 64 0)) eq_refl eq_refl H64 Hz Hp ltac:(discriminate)) as [[cnt Hr]|[Hx _]]; [|discriminate Hx].
  assert (vm_process_status (stress_vm demo_fault_pf (fun _ => Some (Faulty (replicate 64 0)))
    (stress_vm_zero_one demo_fault_pf) true 64 0 DEFAULT_VM_HANG true demo_fault_state
    [(true, Child (None, 1%nat) WaitFailed)]) = Some 256) as Hs by (rewrite Hr; reflexivity).
  exact (fault_reaches_exit_status _ _ demo_fault_pf (fun _ => Some (Faulty (replicate 64 0))) true 64 0 DEFAULT_VM_HANG
    demo_fault_state [] WaitFailed (Faulty (replicate 64 0)) (demo_answer 256) false 0 demo_one _ _ 0 256 H1 H0 Hd
    eq_refl eq_refl H64 Hz Hp ltac:(discriminate) (demo_answers 256) demo_one_filled Hw Hs (le_n 1) eq_refl).
Defined.

Lemma sound_memory_exit_status_witness :
  wait_procs (demo_answer 0) false 0 demo_one start_wait = Some (demo_one_done, WState 1 true true false 0 [] [(101, Waited 0)]) /\
  main_status true true = EXIT_SUCCESS.
Proof.
  assert (wait_procs (demo_answer 0) false 0 demo_one start_wait = Some (demo_one_done, WState 1 true true false 0 [] [(101, Waited 0)]))
    as Hw by (vm_compute; reflexivity).
  split; [exact Hw|].
  assert (64 | 64)%nat as H64 by (exists 1%nat; reflexivity).
  assert (covers 64) as Hc by (apply (covers_pow2 6); lia).
  assert (0 <= pf_base demo_pf) as Hb by (vm_compute; discriminate).
  assert (forall k st, (k < 1)%nat -> waitpid (demo_answer 0) k = Waited st -> exists alloc keep max_ops hang s0 evs,
    statics_wf (vars s0) /\ (forall j m, alloc j = Some m -> msize m = 64%nat) /\
    vm_process_status (stress_vm demo_pf alloc (stress_vm_flip demo_pf) keep 64 max_ops hang true s0 evs) = Some st) as Ha.
  { intros k st _ [= <-].
    exists demo_alloc, false, 0, DEFAULT_VM_HANG, (demo_state 64), (demo_history ++ [(false, VmDriver.ForkAgain)]).
    split; [exact demo_wf|]. split; [exact demo_alloc_size|]. vm_compute. reflexivity. }
  exact (sound_memory_exit_status demo_pf 1 (stress_vm_flip demo_pf) 64 (demo_answer 0) false 0 demo_one _ _
    demo_robust H64 Hc Hb (demo_answers 0) demo_one_filled Hw Ha).
Defined.
